(* ===== verification/_CoqProject ===== *)
-Q . S2P
Prelude.v
Effects.v
Bitfield.v
MathUtil.v
Align.v
Allocators.v
Workspace.v
WorkspaceOwner.v
Requirements.v
ColorSpec.v
DataLayout.v
SwizzleProps.v
FormatCode.v
ImageFormat.v
Predefined.v
ImageFormatProps.v
PlaneProps.v
StaticVector.v
LockFreeStack.v
HandleManager.v
Handles.v
TensorLayout.v
Strides.v
Border.v
TensorData.v
Tensor.v
TensorView.v
Saturate.v
TensorWrap.v
Image.v
ImageTensor.v
ImageBatch.v
ImageBatchProps.v
Array.v
TensorBatch.v
TensorBatchProps.v
TensorBatchSpec.v
Float.v
HQFilter.v
HQResize.v
HQWorkspace.v
HQLayout.v
HQKernel.v
LabelMachine.v
LabelForest.v
LabelKernel.v
LabelGrid.v
LabelConnect.v
LabelVolume.v
LabelVolumeProps.v
LabelStats.v
LabelStatsProps.v
LabelImage.v
LabelVolumeStats.v
TensorAccess.v
LabelHost.v
LabelCall.v
LabelLaunch.v
