(* ===== verification/Prelude.v ===== *)
(** * A verification of the core of CV-CUDA (MUSA port)

    The repository holds NVCV, a C library of images, tensors, batches and arrays
    in device memory with their formats and life cycles, the CV-CUDA operators on
    top of it, bindings, and a port of both to another runtime. This development
    models the core that everything else relies on: the code of
    [src/src/nvcv/src/priv] with the headers of [src/src/nvcv/src/include/nvcv] and
    some functions of [src/src/nvcv/util] and [src/src/nvcv/src]; and, of
    [src/src/cvcuda], the workspaces of the operators, the border, view and
    saturating-cast headers of the CUDA tools, and two operators: HQResize, from its
    filters and host code to the work its kernels' threads do, and Label, from the
    checks of a call to the labels, counts and statistics its kernels leave.

    ** How the code is modelled

    - Machine integers are [Z]. Unsigned arithmetic is reduced ([wrapu]); signed
      arithmetic that overflows is undefined behaviour: [int32] and [int64] return
      [Stuck]. Conversions to a signed type wrap ([wraps]).
    - A function that can fail returns an [outcome]: [Ok], [Throw] with the status
      of the exception, or [Stuck] for undefined behaviour, failed assertions and
      exceptions in [noexcept] functions.
    - C arrays are lists read and written with [rd] and [wr], [Stuck] outside.
    - Classes with a state are records; their methods are functions of the state
      monad [Effects.M], which keeps the changes made before an exception.
    - Objects are behind handles; sharing is by handle, in one map of objects
      with reference counts ([Handles]).
    - The CUDA runtime, the system's allocation functions and user callbacks are
      not modelled; what the code takes from them (an address, the alignment of
      textures, the attributes of a pointer, a status) is an argument.
      Asynchronous copies are queued, and may finish at any time until the event
      after them is waited for. A call of the runtime that the code checks may fail with
      any status, which is an argument of the definition ([TensorBatch.check_throw],
      [ImageBatch.check_throw], [HQKernel.launch_kernel], [Workspace], [WorkspaceOwner]).
      When an export fails after it queued a copy, no event covers the copy: the batch
      is marked ([stray]), and nothing is claimed of its device buffers from then on.

    ** Files

    - [Prelude]: integers, outcomes, arrays and loops, shared tactics. [Effects]:
      methods, loops over arrays, copies, parts of lists.
    - [Bitfield] (priv/Bitfield.hpp), [MathUtil] (util/Math.hpp), [Align]
      (nvcv/detail/Align.hpp and cvcuda/Workspace.hpp): fields of words,
      rounding to multiples and powers of two.
    - [Allocators] (priv/IAllocator.cpp, DefaultAllocator.cpp, CustomAllocator.cpp):
      checked allocation and release over a heap of blocks; allocators built from
      tables of user functions.
    - [Workspace], [WorkspaceOwner] (cvcuda/Workspace.hpp,
      priv/WorkspaceEstimator.hpp, priv/WorkspaceAllocator.hpp): estimates of scratch memory, its allocation and
      ownership, the cutting of it into buffers, and the events that order its use.
    - [Requirements] (priv/Requirements.cpp): memory requirements as counts of
      blocks; [CalcTotalSizeBytes], [AddBuffer].
    - [ColorSpec], [DataLayout], [FormatCode], [ImageFormat], [Predefined]
      (priv/ColorSpec.*, DataLayout.*, ImageFormat.*, ColorFormat.*, DataType.*,
      nvcv/detail/FormatUtils.h and the format headers): the encoding of color
      specifications, swizzles, packings, image formats and data types in words,
      every getter, setter and constructor with its validation, the tables of
      predefined values and their printers. Properties in those files and in
      [SwizzleProps], [ImageFormatProps], [PlaneProps].
    - [StaticVector] (util/StaticVector.hpp): vectors of bounded capacity over raw
      storage, with the constructions and destructions of their elements.
    - [LockFreeStack] (priv/LockFreeStack.hpp): the atomic steps of pop, push and
      release on a shared head; interleavings as a step relation.
    - [HandleManager] (priv/HandleManager*.hpp): pools of resources, generations,
      creation and reference counts. [Handles] (priv/ICoreObject.hpp): the interface
      it offers to the other classes and the proof that it implements it.
    - [TensorLayout] (priv/TensorLayout.cpp, TensorShape.cpp, nvcv/TensorLayout.h):
      labels of dimensions. [Strides]: the set of offsets of a strided array,
      without code. [TensorData] (priv/TensorData.cpp): reshaping. [Tensor]
      (priv/Tensor.cpp): sizes, strides and memory of tensors.
      [Border] (cuda_tools/BorderWrap.hpp), [TensorView] (cuda_tools/TensorWrap.hpp):
      indices outside an image brought back inside, and views of tensors as kernels
      index them. [Saturate] (cuda_tools/SaturateCast.hpp): saturating casts of
      integers.
      [TensorWrap] (priv/TensorWrapDataStrided.cpp, Tensor.cpp): the validation of
      wrapped tensors.
    - [TensorAccess] (nvcv/TensorLayoutInfo.hpp, TensorShapeInfo.hpp,
      TensorDataAccess.hpp): tensors read as batches of images, the access operators
      start from.
    - [Image] (priv/Image.cpp): memory of images, wrapped images. [ImageTensor]
      (FillTensorData in priv/TensorData.cpp): images as tensors.
    - [ImageBatch], [ImageBatchProps] (priv/ImageBatchVarShape.cpp): batches of
      images with host and device buffers, cached size and format.
    - [Array] (priv/Array.cpp, ArrayWrapData.cpp): arrays.
    - [TensorBatch], [TensorBatchProps], [TensorBatchSpec] (priv/TensorBatch.cpp):
      batches of tensors, the list of handles they implement, their clients.
    - [Float]: binary floating-point numbers as integer counts of the smallest
      one, with correct rounding; the language's arithmetic, without code.
    - HQResize (cvcuda/priv/OpHQResize.cu with its two headers). [HQFilter]
      (OpHQResizeFilter.cuh): the tables of filters and the filters made from them.
      [HQResize]: validation, regions, the order of the passes, the description of
      a sample. [HQWorkspace]: the requirements of the workspace, and the buffers
      taken from it (WorkspaceAllocator.hpp, OpHQResizeBatchWrap.cuh). [HQLayout]
      (OpHQResizeBatchWrap.cuh): the views of intermediate buffers. [HQKernel]: the
      launch of a pass, and for every thread of the kernels the pixels it writes
      and reads, in the order of its loops, and its coefficients in shared memory.
      A pass of the operator goes from a description ([HQResize]) through buffers
      ([HQWorkspace]) and views ([HQLayout]) to threads ([HQKernel]).
    - Label (cvcuda/priv/OpLabel.cu). [LabelMachine]: threads that read, write and
      update a shared memory one operation at a time, their interleavings, and
      rely-guarantee reasoning about them, without code. [LabelForest]: [FindRoot]
      and [Reduction], which unite labels in a forest. [LabelKernel] and
      [LabelVolume]: the labelling kernels on images and on volumes, thread by thread
      with barriers, warps and launches. [LabelGrid], [LabelConnect],
      [LabelVolumeProps]: what they compute. [LabelStats] and [LabelVolumeStats]: the
      kernels that set the background, count, measure, remove islands and renumber;
      [LabelStatsProps], [LabelImage] and [LabelVolumeStats]: what they leave.
      [LabelHost]: the operator on the host, its checks, views and launches;
      [LabelCall], [LabelLaunch]: what an accepted call passes to the kernels. A call
      goes from [LabelHost.Label_call] to a launch, the launch gives every sample
      ([LabelLaunch.sample_at], [volume_at]) to the labelling kernels, and their
      labels with the job of the sample ([image_job_at], [volume_job_at]) to the rest.

    ** What the theorems show

    - Formats: making a format stores every field so that its getter reads it
      back, and seven of the setters are updates of independent fields (that of the extra
      channels is not); the tables of
      packings, swizzles, FourCC codes and plane decompositions round-trip.
    - Concurrency: every interleaving of the stack refines an atomic stack, no
      step follows a bad pointer, a thread that runs alone ends within six steps,
      and while one thread has the head locked no other has any effect.
    - Handles: creation gives a handle that denotes the new object and changes no
      other; the manager implements counted references; a handle can be confused
      with a later one only after sixteen reuses of its slot.
    - Memory: the requirements of tensors, images and arrays are computed without
      overflow for well-formed requests, pass the checks of the allocator, and
      every element the exported description reaches lies in the allocation.
    - Allocators and workspaces: a table of user functions replaces exactly the
      allocators it names; the memory allocated from an estimate holds every
      buffer that was counted in it, aligned and disjoint from the others, when the
      system returns what it documents (aligned_alloc the alignment asked for, the CUDA
      runtime 256 bytes, beyond which the allocator checks and refuses); a
      failed allocation leaves nothing allocated; a buffer is handed out only
      after the work that used it is waited for; the maximum of two estimates is
      the least that covers both.
    - Static vectors: the operations implement lists of bounded length, with each
      live element constructed once and each removed one destroyed.
    - Views: every index that a border mode yields, and the address computed from
      it, lies inside the allocation of the tensor. Casts: saturation clamps to
      the range of the target type.
    - Tensors: a successful reshape keeps every element where it is, packed tensors
      take every shape of the same volume; a wrapped tensor that is accepted has
      separate elements; what the library creates with a suitable layout can be
      wrapped again; a tensor made of an image reaches the pixels of the image.
    - Batches: pushes are all or nothing for the contents, exports bring the device
      up to date, references are balanced, and the invariants hold in every
      reachable state; tensor batches implement lists of handles of one type.

    - HQResize: supports of filters stay within the limit for any sizes and
      regions; a description chains the passes from the region of the input to the
      output; the pruned search returns a cheapest order; the documented promise
      of the workspace for a maximal shape holds, and the workspace computed for a
      batch serves the call with it; the views of an intermediate buffer are
      separate and inside it; a pass whose launch the runtime accepts, as it does
      within its documented limits, writes every pixel of every sample exactly
      once and reads inside its input, for uniform batches and for samples of
      different shapes in one grid; the threads of a block fill the coefficients
      they share exactly once and read no other.

    - Image access: samples, planes, rows and columns of a tensor are at the elements
      its labels say.
    - Label: any number of concurrent reductions come to an end and unite exactly the
      classes they were asked to; whatever the interleaving of the threads, the
      labelling kernels end and give every pixel or voxel the place of the first one
      of its connected component (on volumes in calls for one sample; with more, the
      samples of a block race for its labels); then the counter is the number of regions, each has
      a row of true statistics while there are rows, and every element ends with the
      label of its region or, where the region has a row, its number or the background,
      as asked; an accepted call gives the kernels shapes, strides and addresses for which
      this holds, but does not check the rows that sequential labels without islands
      need, nor that the background label is below 2^31.

    Behaviour that is not what a comment, a message or the rest of the code
    suggests is recorded by lemmas next to the definitions concerned.

    ** Bounds

    [LockFreeStack.run_alone] takes fuel; six steps are shown to be enough.
    Loops of the code are folds over the range of their index. Powers of two in
    alignments are taken up to 2^20, far beyond what devices ask for, so that
    sums of sizes and alignments stay within 64 bits under stated bounds; those of
    workspaces up to 2^30 on the host and 256 on the device, with sizes up to 2^62. The
    checks of the allocator round the size up in 64 bits ([MathUtil.RoundUp]), so the
    requirements given to it have sums of size and alignment below 2^63. Coordinates of bordered images
    are bounded so that the reflections, which the code computes in 32 bits, do
    not overflow ([Border.border_room]). The only other fuel is that of the strided
    loops of the kernels ([HQKernel.strided]); the extent of the region is shown to
    be enough ([HQKernel.strided_spec]). For HQResize extents are at most 2^23 (exact
    in single precision; 40 000 in grids shared by samples of different shapes),
    coordinates of regions of that magnitude, lanes at most 2^25, the elements of an
    intermediate buffer at most 2^57, those of a 3-dimensional sample below 2^50, and those
    of a launched pass below 2^31; the samples of a launch are at most 65535, the limit of
    the second dimension of a grid.
    The loops of [LabelForest] take fuel: labels only decrease, so a label is enough
    for [FindRoot] and the sum of two for [Reduction]; running out is a stuck state
    that is shown not to be reached. The bytes of the labels of a sample are below
    2^31 ([LabelConnect.sample_ok], [LabelVolumeProps.volume_ok]), those of all
    samples in [LabelCall.placed]; the code's own offsets overflow beyond.

    ** Not modelled

    Relaxed memory orders of the stack and concurrent use of the other
    classes; clean-up callbacks and destructors of the batches; failures of
    allocation in the constructors of tensors, images and batches (those of
    workspaces are modelled); status messages and thread-local errors; the
    context, which makes the managers and the default allocator; most C entry
    points, which check pointers and forward; the operators other than HQResize
    and Label; of Label, weak memory (operations are sequentially consistent), the
    samples of a call together (labels and statistics of different samples do not
    overlap, and the kernels are followed one sample at a time; only the block kernel
    of volumes goes on from one sample to the next in one block, which is modelled
    with the race in it), threads of the kernels after labelling as more than one
    step each, and errors of its launches; of HQResize, the values its kernels compute
    and the rounded coordinates they read at (an argument, since the compiler may fuse the operations), the barriers of a
    block, the checks of the tensors and batches passed in and the switch over
    their types; what [cuda_tools] computes in floating point (interpolation,
    rounding, vector arithmetic); the port in [priv_musa], a near copy of [priv]; bindings,
    tests, samples.

    ** Plan

    Next: the string utilities of [util] with the printer of color
    specifications that uses them; the C entry points of the modelled classes; the
    views of batches in [cuda_tools]; the checks of HQResize and of further operators
    on the host, from [TensorAccess] as in [LabelHost]; the samples of a call of
    Label in one memory. *)
From stdpp Require Export base tactics numbers list strings gmap sorting.
From stdpp Require Import options.
From Stdlib Require Export ZArith Lia.

#[global] Open Scope Z_scope.

(** ** Machine integers

    Unsigned words are [Z] reduced modulo a power of two; signed words are
    reduced to the symmetric two's complement interval. *)

Definition wrapu (w z : Z) : Z := z mod 2 ^ w.
Definition wraps (w z : Z) : Z := (z + 2 ^ (w - 1)) mod 2 ^ w - 2 ^ (w - 1).

Abbreviation u64 := (wrapu 64) (only parsing).
Abbreviation u32 := (wrapu 32) (only parsing).
Abbreviation i32 := (wraps 32) (only parsing).
Abbreviation i64 := (wraps 64) (only parsing).

Definition in_u (w z : Z) : Prop := 0 <= z < 2 ^ w.
Definition in_s (w z : Z) : Prop := - 2 ^ (w - 1) <= z < 2 ^ (w - 1).

#[global] Instance in_u_dec w z : Decision (in_u w z).
Proof. unfold in_u. apply _. Defined.
#[global] Instance in_s_dec w z : Decision (in_s w z).
Proof. unfold in_s. apply _. Defined.

Lemma wrapu_range w z : 0 <= w -> in_u w (wrapu w z).
Proof. intros Hw. apply Z.mod_pos_bound. by apply Z.pow_pos_nonneg. Qed.

Lemma wrapu_small w z : in_u w z -> wrapu w z = z.
Proof. apply Z.mod_small. Qed.

Lemma wraps_range w z : 0 < w -> in_s w (wraps w z).
Proof.
  intros Hw. unfold wraps, in_s.
  pose proof (Z.mod_pos_bound (z + 2 ^ (w - 1)) (2 ^ w)).
  assert (2 ^ w = 2 * 2 ^ (w - 1)) as E.
  { rewrite <- Z.pow_succ_r by lia. f_equal. lia. }
  assert (0 < 2 ^ (w - 1)) by (apply Z.pow_pos_nonneg; lia). lia.
Qed.

Lemma wraps_small w z : 0 < w -> in_s w z -> wraps w z = z.
Proof.
  intros Hw Hz. unfold wraps, in_s in *.
  assert (2 ^ w = 2 * 2 ^ (w - 1)) as E.
  { rewrite <- Z.pow_succ_r by lia. f_equal. lia. }
  rewrite Z.mod_small by lia. lia.
Qed.

Lemma i32_small z : - 2 ^ 31 <= z < 2 ^ 31 -> i32 z = z.
Proof. intros. by apply wraps_small. Qed.

(** ** Outcomes of C++ code

    [Ok] is a normal return, [Throw] an exception carrying a status code (the
    message text is not modelled) and [Stuck] an assertion failure or a step
    whose behaviour the language leaves undefined. *)

Inductive NVCVStatus :=
| NVCV_SUCCESS
| NVCV_ERROR_NOT_IMPLEMENTED
| NVCV_ERROR_INVALID_ARGUMENT
| NVCV_ERROR_INVALID_IMAGE_FORMAT
| NVCV_ERROR_INVALID_OPERATION
| NVCV_ERROR_DEVICE
| NVCV_ERROR_NOT_READY
| NVCV_ERROR_OUT_OF_MEMORY
| NVCV_ERROR_INTERNAL
| NVCV_ERROR_NOT_COMPATIBLE
| NVCV_ERROR_OVERFLOW
| NVCV_ERROR_UNDERFLOW.

#[global] Instance NVCVStatus_eq_dec : EqDecision NVCVStatus.
Proof. solve_decision. Defined.

Inductive outcome (A : Type) :=
| Ok (a : A)
| Throw (st : NVCVStatus)
| Stuck.
Arguments Ok {A} a.
Arguments Throw {A} st.
Arguments Stuck {A}.

#[global] Instance outcome_eq_dec `{EqDecision A} : EqDecision (outcome A).
Proof. solve_decision. Defined.

#[global] Instance outcome_ret : MRet outcome := @Ok.
#[global] Instance outcome_bind : MBind outcome := fun A B f m =>
  match m with Ok a => f a | Throw st => Throw st | Stuck => Stuck end.
#[global] Instance outcome_fmap : FMap outcome := fun A B f m =>
  match m with Ok a => Ok (f a) | Throw st => Throw st | Stuck => Stuck end.

(** [throw_if b st k]: [if (b) throw st; k]. *)
Definition throw_if {A} (b : bool) (st : NVCVStatus) (k : outcome A) : outcome A :=
  if b then Throw st else k.

(** [NVCV_ASSERT b; k] in a build with assertions. *)
Definition nvcv_assert {A} (b : bool) (k : outcome A) : outcome A :=
  if b then k else Stuck.

(** A [noexcept] function that throws terminates the program. *)
Definition noexcept {A} (m : outcome A) : outcome A :=
  match m with Throw _ => Stuck | _ => m end.

(** Signed arithmetic: an overflow is undefined behaviour. *)
Definition int32 (z : Z) : outcome Z := if bool_decide (in_s 32 z) then Ok z else Stuck.
Definition int64 (z : Z) : outcome Z := if bool_decide (in_s 64 z) then Ok z else Stuck.

Lemma int32_ok z : in_s 32 z -> int32 z = Ok z.
Proof. intros H. unfold int32. by rewrite bool_decide_eq_true_2. Qed.

Lemma int64_ok z : in_s 64 z -> int64 z = Ok z.
Proof. intros H. unfold int64. by rewrite bool_decide_eq_true_2. Qed.

Lemma int32_Ok z v : int32 z = Ok v <-> in_s 32 z /\ v = z.
Proof. unfold int32. case_bool_decide; split; intros H'; try (by destruct H'); naive_solver. Qed.

Lemma int64_Ok z v : int64 z = Ok v <-> in_s 64 z /\ v = z.
Proof. unfold int64. case_bool_decide; split; intros H'; try (by destruct H'); naive_solver. Qed.

Definition is_ok {A} (m : outcome A) : bool :=
  match m with Ok _ => true | _ => false end.

Lemma bind_Ok {A B} (m : outcome A) (f : A -> outcome B) b :
  (m ≫= f) = Ok b <-> exists a, m = Ok a /\ f a = Ok b.
Proof. destruct m; cbn; naive_solver. Qed.

Lemma throw_if_Ok {A} b st (k : outcome A) a :
  throw_if b st k = Ok a <-> b = false /\ k = Ok a.
Proof. destruct b; cbn; naive_solver. Qed.

Lemma nvcv_assert_Ok {A} b (k : outcome A) a :
  nvcv_assert b k = Ok a <-> b = true /\ k = Ok a.
Proof. destruct b; cbn; naive_solver. Qed.

(** Decompose every [... = Ok _] hypothesis into its guards and results. *)
Ltac ok_inv_step :=
  match goal with
  | H : (_ ≫= _) = Ok _ |- _ => apply bind_Ok in H as (? & ? & ?)
  | H : throw_if _ _ _ = Ok _ |- _ => apply throw_if_Ok in H as [? ?]
  | H : nvcv_assert _ _ = Ok _ |- _ => apply nvcv_assert_Ok in H as [? ?]
  | H : Ok _ = Ok _ |- _ => injection H as H
  | H : Throw _ = Ok _ |- _ => discriminate H
  | H : Stuck = Ok _ |- _ => discriminate H
  end.
Ltac ok_inv := repeat ok_inv_step.

(** ** Booleans and finite checks *)

Lemma forallb_elem {A} (f : A -> bool) l x :
  forallb f l = true -> x ∈ l -> f x = true.
Proof. rewrite forallb_forall. intros H Hx. apply H. by apply list_elem_of_In. Qed.

(** Turn [(a =? b) = true] and the like into arithmetic. *)
Ltac bool_hyps :=
  repeat match goal with
  | H : (_ && _)%bool = true |- _ => apply andb_prop in H as [? ?]
  | H : (_ || _)%bool = false |- _ => apply orb_false_elim in H as [? ?]
  | H : negb _ = true |- _ => apply negb_true_iff in H
  | H : negb _ = false |- _ => apply negb_false_iff in H
  | H : (_ =? _) = true |- _ => apply Z.eqb_eq in H
  | H : (_ =? _) = false |- _ => apply Z.eqb_neq in H
  | H : (_ <? _) = true |- _ => apply Z.ltb_lt in H
  | H : (_ <? _) = false |- _ => apply Z.ltb_ge in H
  | H : (_ <=? _) = true |- _ => apply Z.leb_le in H
  | H : (_ <=? _) = false |- _ => apply Z.leb_gt in H
  | H : bool_decide _ = true |- _ => apply bool_decide_eq_true_1 in H
  | H : bool_decide _ = false |- _ => apply bool_decide_eq_false_1 in H
  end.

(** Every integer of [0 .. n-1], for exhaustive checks. *)
Definition zseq (n : nat) : list Z := Z.of_nat <$> seq 0 n.

Lemma elem_of_zseq n z : z ∈ zseq n <-> 0 <= z < Z.of_nat n.
Proof.
  unfold zseq. rewrite list_elem_of_fmap. setoid_rewrite elem_of_seq. split.
  - intros (k & -> & ?). lia.
  - intros ?. exists (Z.to_nat z). lia.
Qed.

(** ** Arrays and loops

    Fixed-size C arrays are lists; an access outside them is [Stuck]. *)

Definition rd {A} (l : list A) (i : Z) : outcome A :=
  if i <? 0 then Stuck else
  match l !! Z.to_nat i with Some x => Ok x | None => Stuck end.

Definition wr {A} (l : list A) (i : Z) (x : A) : outcome (list A) :=
  if (0 <=? i) && (i <? Z.of_nat (length l)) then Ok (<[Z.to_nat i := x]> l) else Stuck.

(** [for (x : l) s = f s x], stopping at the first exception. *)
Fixpoint mfold {S A} (f : S -> A -> outcome S) (l : list A) (s : S) : outcome S :=
  match l with
  | [] => Ok s
  | x :: rest => s' ← f s x; mfold f rest s'
  end.

(** The indices of [for (i = lo; i < hi; ++i)]. *)
Definition zrange (lo hi : Z) : list Z := (fun k => lo + Z.of_nat k) <$> seq 0 (Z.to_nat (hi - lo)).

Lemma elem_of_zrange lo hi z : z ∈ zrange lo hi <-> lo <= z < hi.
Proof.
  unfold zrange. rewrite list_elem_of_fmap. setoid_rewrite elem_of_seq. split.
  - intros (k & -> & ?). lia.
  - intros ?. exists (Z.to_nat (z - lo)). lia.
Qed.

Lemma NoDup_zrange lo hi : NoDup (zrange lo hi).
Proof. unfold zrange. apply NoDup_fmap_2_strong; [intros x y _ _; lia|apply NoDup_seq]. Qed.

Lemma zrange_cons lo hi : lo < hi -> zrange lo hi = lo :: zrange (lo + 1) hi.
Proof.
  intros H. unfold zrange. replace (Z.to_nat (hi - lo)) with (S (Z.to_nat (hi - (lo + 1)))) by lia.
  cbn [seq fmap list_fmap]. f_equal; [lia|]. rewrite <- fmap_S_seq. rewrite <- list_fmap_compose.
  apply list_fmap_ext. intros i x _. cbn. lia.
Qed.

(** A loop invariant for [for (i = lo; i < hi; ++i)]. *)
Lemma mfold_zrange {S} (f : S -> Z -> outcome S) (P : Z -> S -> Prop) lo hi s :
  lo <= hi -> P lo s ->
  (forall i s, lo <= i < hi -> P i s -> exists s', f s i = Ok s' /\ P (i + 1) s') ->
  exists s', mfold f (zrange lo hi) s = Ok s' /\ P hi s'.
Proof.
  intros Hle. remember (Z.to_nat (hi - lo)) as n eqn:En. revert lo s Hle En.
  induction n as [|n IH]; intros lo s Hle En Hs Hf.
  - assert (lo = hi) as -> by lia. unfold zrange. rewrite Z.sub_diag. by exists s.
  - rewrite zrange_cons by lia. cbn [mfold]. destruct (Hf lo s) as (s1 & -> & H1); [lia|done|].
    apply IH; [lia..|done|]. intros i s' Hi. apply Hf. lia.
Qed.

Lemma rev_zrange_snoc lo hi : lo < hi -> rev (zrange lo hi) = (hi - 1) :: rev (zrange lo (hi - 1)).
Proof.
  intros H. unfold zrange. replace (Z.to_nat (hi - lo)) with (S (Z.to_nat (hi - 1 - lo))) by lia.
  rewrite seq_S, fmap_app, rev_app_distr. cbn. f_equal. lia.
Qed.

(** The invariant speaks of the part of the list that is done. *)
Lemma mfold_list {S A} (f : S -> A -> outcome S) (P : list A -> S -> Prop) l s : P [] s ->
  (forall pre x post s, l = pre ++ x :: post -> P pre s -> exists s', f s x = Ok s' /\ P (pre ++ [x]) s') ->
  exists s', mfold f l s = Ok s' /\ P l s'.
Proof.
  intros Hs Hf. assert (forall post pre s, l = pre ++ post -> P pre s -> exists s', mfold f post s = Ok s' /\ P l s') as H; [|by apply (H l [])].
  induction post as [|x post IH]; intros pre t E Ht; [rewrite app_nil_r in E; subst; by exists t|].
  destruct (Hf pre x post t E Ht) as (t' & E' & Ht'). cbn [mfold]. rewrite E'. cbn [mbind outcome_bind].
  apply (IH (pre ++ [x])); [by rewrite <- app_assoc|done].
Qed.

(** An invariant of [for (i = hi - 1; i >= lo; --i)], if the loop is left normally. *)
Lemma mfold_down_inv {S} (f : S -> Z -> outcome S) (P : Z -> S -> Prop) lo hi s s' :
  lo <= hi -> P hi s -> mfold f (rev (zrange lo hi)) s = Ok s' ->
  (forall i s s', lo <= i < hi -> P (i + 1) s -> f s i = Ok s' -> P i s') -> P lo s'.
Proof.
  intros Hle. remember (Z.to_nat (hi - lo)) as n eqn:En. revert hi s Hle En.
  induction n as [|n IH]; intros hi s Hle En Hs HE Hf.
  - assert (hi = lo) as -> by lia. unfold zrange in HE. rewrite Z.sub_diag in HE. by injection HE as <-.
  - rewrite rev_zrange_snoc in HE by lia. cbn [mfold] in HE. apply bind_Ok in HE as (s1 & H1 & HE).
    apply (IH (hi - 1) s1); [lia..| |done|].
    + apply (Hf (hi - 1) s s1); [lia| |done]. by replace (hi - 1 + 1) with hi by lia.
    + intros i t t' Hi. apply Hf. lia.
Qed.

(** The same loop, when every round succeeds. *)
Lemma mfold_down {S} (f : S -> Z -> outcome S) (P : Z -> S -> Prop) lo hi s :
  lo <= hi -> P hi s ->
  (forall i s, lo <= i < hi -> P (i + 1) s -> exists s', f s i = Ok s' /\ P i s') ->
  exists s', mfold f (rev (zrange lo hi)) s = Ok s' /\ P lo s'.
Proof.
  intros Hle. remember (Z.to_nat (hi - lo)) as n eqn:En. revert hi s Hle En.
  induction n as [|n IH]; intros hi s Hle En Hs Hf.
  - assert (hi = lo) as -> by lia. unfold zrange. rewrite Z.sub_diag. by exists s.
  - rewrite rev_zrange_snoc by lia. cbn [mfold].
    destruct (Hf (hi - 1) s) as (s1 & -> & H1); [lia|by replace (hi - 1 + 1) with hi by lia|].
    apply IH; [lia..|done|]. intros i t Hi. apply Hf. lia.
Qed.

Lemma rd_Ok {A} (l : list A) i x : rd l i = Ok x <-> 0 <= i /\ l !! Z.to_nat i = Some x.
Proof.
  unfold rd. destruct (Z.ltb_spec i 0); [split; [done|lia]|].
  destruct (l !! Z.to_nat i); split; intros; try done; naive_solver.
Qed.

Lemma wr_Ok {A} (l : list A) i x l' :
  wr l i x = Ok l' <-> 0 <= i < Z.of_nat (length l) /\ l' = <[Z.to_nat i := x]> l.
Proof.
  unfold wr. destruct (Z.leb_spec 0 i), (Z.ltb_spec i (Z.of_nat (length l)));
    cbn; split; intros; try done; try lia; naive_solver.
Qed.
