(* ===== verification/Effects.v ===== *)
(** * Methods, copies and references

    What the classes with a mutable state share: a method is a function from the
    state to the new state and the outcome; a loop over an array; copies between
    a host buffer and its device copy; counted references. *)
From S2P Require Import Prelude.
From stdpp Require Import options.

#[local] Open Scope Z_scope.

(** ** Methods *)

(** Methods: the state is kept when an exception is thrown. *)
Definition M (S A : Type) : Type := S -> S * outcome A.

#[global] Instance M_ret {S} : MRet (M S) := fun A a b => (b, Ok a).
#[global] Instance M_bind {S} : MBind (M S) := fun A B f m b =>
  match m b with
  | (b, Ok a) => f a b
  | (b, Throw st) => (b, Throw st)
  | (b, Stuck) => (b, Stuck)
  end.

Definition get {S} : M S S := fun b => (b, Ok b).
Definition modify {S} (f : S -> S) : M S unit := fun b => (f b, Ok tt).
Definition lift {S A} (o : outcome A) : M S A := fun b => (b, o).

(** [for (x : l) f x]. *)
Fixpoint each {S A} (f : A -> M S unit) (l : list A) : M S unit :=
  match l with [] => mret tt | x :: l => _ ← f x; each f l end.

(** [try { m } catch (...) { h; throw; }]. *)
Definition on_throw {S A} (m : M S A) (h : S -> S) : M S A := fun b =>
  match m b with
  | (b, Throw st) => (h b, Throw st)
  | r => r
  end.

Lemma bind_run {S A B} (m : M S A) (f : A -> M S B) b : (m ≫= f) b =
  match m b with (b, Ok a) => f a b | (b, Throw st) => (b, Throw st) | (b, Stuck) => (b, Stuck) end.
Proof. done. Qed.

Lemma get_run {S A} (f : S -> M S A) s : (get ≫= f) s = f s s.
Proof. done. Qed.

Lemma lift_run {S A B} (o : outcome A) a (f : A -> M S B) s : o = Ok a -> (lift o ≫= f) s = f a s.
Proof. by intros ->. Qed.

Lemma guard_run {S A} c e (f : unit -> M S A) s : (lift (throw_if c e (Ok tt)) ≫= f) s = if c then (s, Throw e) else f tt s.
Proof. by destruct c. Qed.

(** ** Loops *)

(** A loop that only checks. *)
Lemma each_check {S A} (f : A -> M S unit) (p : A -> bool) e l s :
  Forall (fun x => f x s = (s, if p x then Ok tt else Throw e)) l ->
  each f l s = (s, if forallb p l then Ok tt else Throw e).
Proof.
  induction 1 as [|x l Hx _ IH]; [done|]. cbn [each forallb]. rewrite bind_run, Hx. by destruct (p x).
Qed.

(** An invariant of [for (i = lo; i < hi; ++i)]. *)
Lemma each_zrange {S} (f : Z -> M S unit) (P : Z -> S -> Prop) lo hi s : lo <= hi -> P lo s ->
  (forall i s, lo <= i < hi -> P i s -> exists s', f i s = (s', Ok tt) /\ P (i + 1) s') ->
  exists s', each f (zrange lo hi) s = (s', Ok tt) /\ P hi s'.
Proof.
  intros Hle. remember (Z.to_nat (hi - lo)) as n eqn:En. revert lo s Hle En.
  induction n as [|n IH]; intros lo s Hle En Hs Hf.
  - assert (lo = hi) as -> by lia. unfold zrange. rewrite Z.sub_diag. by exists s.
  - rewrite zrange_cons by lia. cbn [each]. destruct (Hf lo s) as (s1 & E1 & H1); [lia|done|].
    rewrite bind_run, E1. apply IH; [lia..|done|]. intros i t Hi. apply Hf. lia.
Qed.

(** ** Parts of arrays *)

(** The elements of an array from [lo] to [hi]. *)
Definition slice {A} (lo hi : Z) (l : list A) : list A := take (Z.to_nat (hi - lo)) (drop (Z.to_nat lo) l).

Lemma slice_take {A} n (l : list A) : slice 0 n l = take (Z.to_nat n) l.
Proof. unfold slice. by rewrite Z.sub_0_r. Qed.

Lemma rd_slice {A} (l : list A) lo hi : 0 <= lo -> hi <= Z.of_nat (length l) ->
  Forall2 (fun i x => rd l i = Ok x) (zrange lo hi) (slice lo hi l).
Proof.
  intros Hlo Hhi. unfold slice. remember (Z.to_nat (hi - lo)) as n eqn:En. revert lo Hlo En.
  induction n as [|n IH]; intros lo Hlo En.
  - unfold zrange. rewrite <- En. constructor.
  - rewrite zrange_cons by lia. destruct (lookup_lt_is_Some_2 l (Z.to_nat lo)) as [x Hx]; [lia|].
    rewrite (drop_S _ _ _ Hx). cbn [take]. constructor; [by apply rd_Ok|].
    replace (S (Z.to_nat lo)) with (Z.to_nat (lo + 1)) by lia. apply IH; lia.
Qed.

Lemma slice_split {A} lo mid hi (l : list A) : 0 <= lo <= mid -> mid <= hi -> slice lo hi l = slice lo mid l ++ slice mid hi l.
Proof.
  intros H1 H2. unfold slice. rewrite <- (take_drop (Z.to_nat (mid - lo)) (take (Z.to_nat (hi - lo)) _)).
  rewrite take_take, skipn_firstn_comm, drop_drop. f_equal; f_equal; (lia || f_equal; lia).
Qed.

Lemma slice_empty {A} lo hi (l : list A) : hi <= lo -> slice lo hi l = [].
Proof. intros H. unfold slice. by replace (Z.to_nat (hi - lo)) with 0%nat by lia. Qed.

Lemma slice_one {A} i (l : list A) x : 0 <= i -> l !! Z.to_nat i = Some x -> slice i (i + 1) l = [x].
Proof.
  intros Hi Hx. unfold slice. replace (Z.to_nat (i + 1 - i)) with 1%nat by lia. by rewrite (drop_S _ _ _ Hx).
Qed.

Lemma elem_of_slice {A} lo hi (l : list A) x : x ∈ slice lo hi l -> x ∈ l.
Proof.
  unfold slice. intros (i & Hi & _)%elem_of_take. rewrite lookup_drop in Hi. apply list_elem_of_lookup. by eexists.
Qed.

(** A loop over the indices of an array is a loop over its elements. *)
Lemma each_rd {S A} (l : list A) (f : A -> M S unit) ix xs b : Forall2 (fun i x => rd l i = Ok x) ix xs ->
  each (fun i => x ← lift (rd l i); f x) ix b = each f xs b.
Proof.
  intros HF. revert b. induction HF as [|i x ix xs Hx _ IH]; intros b; [done|]. cbn [each]. rewrite !bind_run.
  unfold lift. rewrite Hx. destruct (f x b) as [b1 [[]| |]]; [|done..]. apply IH.
Qed.

(** A loop over indices whose rounds depend on elements. *)
Lemma mfold_Forall2 {S A} (f : S -> Z -> outcome S) (g : S -> A -> outcome S) ix xs s :
  Forall2 (fun i x => forall s, f s i = g s x) ix xs -> mfold f ix s = mfold g xs s.
Proof.
  intros HF. revert s. induction HF as [|i x ix xs Hx _ IH]; intros s; [done|]. cbn [mfold]. rewrite Hx.
  destruct (g s x); [|done..]. apply IH.
Qed.

Lemma mfold_app {S A} (f : S -> A -> outcome S) l1 l2 s : mfold f (l1 ++ l2) s = (s ← mfold f l1 s; mfold f l2 s).
Proof. revert s. induction l1 as [|x l1 IH]; intros s; [done|]. cbn [app mfold]. destruct (f s x); [apply IH|done..]. Qed.

Lemma mfold_rd {S A} (l : list A) (f : S -> A -> outcome S) ix xs s : Forall2 (fun i x => rd l i = Ok x) ix xs ->
  mfold (fun s i => x ← rd l i; f s x) ix s = mfold f xs s.
Proof. intros HF. apply mfold_Forall2. eapply Forall2_impl; [exact HF|]. by intros i x -> t. Qed.

Lemma Forall2_zrange {A} (P : Z -> A -> Prop) lo xs : (forall k x, xs !! k = Some x -> P (lo + Z.of_nat k) x) ->
  Forall2 P (zrange lo (lo + Z.of_nat (length xs))) xs.
Proof.
  revert lo. induction xs as [|x xs IH]; intros lo H.
  - unfold zrange. replace (Z.to_nat _) with 0%nat by (cbn; lia). constructor.
  - rewrite zrange_cons by (cbn; lia). constructor; [specialize (H 0%nat x eq_refl); by rewrite Z.add_0_r in H|].
    replace (lo + Z.of_nat (length (x :: xs))) with (lo + 1 + Z.of_nat (length xs)) by (cbn; lia).
    apply IH. intros k y Hy. specialize (H (S k) y Hy). by replace (lo + 1 + Z.of_nat k) with (lo + Z.of_nat (S k)) by lia.
Qed.

Lemma take_insert_snoc {A} (l : list A) n x : (n < length l)%nat -> take (S n) (<[n := x]> l) = take n l ++ [x].
Proof.
  intros H. rewrite insert_take_drop by done.
  change (take n l ++ x :: drop (S n) l) with (take n l ++ [x] ++ drop (S n) l). rewrite app_assoc.
  assert (S n = length (take n l ++ [x])) as E by (rewrite length_app, length_take; cbn; lia). rewrite E at 1. apply take_app_length.
Qed.

(** ** Copies *)

(** The elements [lo, hi) of [dev] replaced by those of [host]. *)
Definition copy_back {A} (host dev : list A) (r : Z * Z) : list A :=
  take (Z.to_nat r.1) dev ++ take (Z.to_nat (r.2 - r.1)) (drop (Z.to_nat r.1) host) ++ drop (Z.to_nat r.2) dev.

(** A copy within the buffers. *)
Definition range_ok (c : Z) (r : Z * Z) : Prop := 0 <= r.1 <= r.2 /\ r.2 <= c.

Lemma length_copy_back {A} (host dev : list A) r c : range_ok (Z.of_nat c) r -> length host = c -> length dev = c ->
  length (copy_back host dev r) = c.
Proof.
  intros [? ?] Hh Hd. unfold copy_back. rewrite !length_app, !length_take, !length_drop. lia.
Qed.

Lemma take_copy_back {A} (host dev : list A) r c n : range_ok (Z.of_nat c) r -> length host = c -> length dev = c ->
  (n <= Z.to_nat r.1)%nat -> take n (copy_back host dev r) = take n dev.
Proof.
  intros [? ?] Hh Hd Hn. unfold copy_back. rewrite take_app_le by (rewrite length_take; lia).
  rewrite take_take. f_equal. lia.
Qed.

Lemma lookup_copy_back {A} (host dev : list A) r c i : range_ok (Z.of_nat c) r -> length host = c -> length dev = c ->
  copy_back host dev r !! i = if decide (r.1 <= Z.of_nat i < r.2) then host !! i else dev !! i.
Proof.
  intros [H1 H2] Hh Hd. unfold copy_back. case_decide as D.
  - rewrite lookup_app_r by (rewrite length_take; lia). rewrite lookup_app_l by (rewrite !length_take, !length_drop; lia).
    rewrite length_take, lookup_take_lt by lia. rewrite lookup_drop. f_equal. lia.
  - destruct (decide (Z.of_nat i < r.1)).
    + rewrite lookup_app_l by (rewrite length_take; lia). by rewrite lookup_take_lt by lia.
    + rewrite !lookup_app_r by (rewrite ?length_app, ?length_take, ?length_drop; lia).
      rewrite lookup_drop, !length_take, !length_drop. f_equal. lia.
Qed.

Lemma copy_back_all {A} (host dev : list A) r c : range_ok (Z.of_nat c) r -> length host = c -> length dev = c ->
  take (Z.to_nat r.1) dev = take (Z.to_nat r.1) host ->
  take (Z.to_nat r.2) (copy_back host dev r) = take (Z.to_nat r.2) host.
Proof.
  intros [? ?] Hh Hd E. unfold copy_back. rewrite E, app_assoc.
  assert (take (Z.to_nat r.1) host ++ take (Z.to_nat (r.2 - r.1)) (drop (Z.to_nat r.1) host) = take (Z.to_nat r.2) host) as ->.
  { rewrite take_take_drop. f_equal. lia. }
  rewrite take_app_le by (rewrite length_take; lia). rewrite take_take. f_equal. lia.
Qed.

(** ** References *)

Definition refs_of (m : gmap Z Z) (h : Z) : Z := default 0 (m !! h).

(** References dropped, one per occurrence; null handles are skipped. *)
Definition drop_refs (hs : list Z) (m : gmap Z Z) : gmap Z Z :=
  foldl (fun m hd => if hd =? 0 then m else <[hd := refs_of m hd - 1]> m) m hs.

Lemma refs_of_drop hs m hd : hd <> 0 -> refs_of (drop_refs hs m) hd = refs_of m hd - Z.of_nat (count_occ Z.eq_dec hs hd).
Proof.
  intros Hne. revert m. induction hs as [|g hs IH]; intros m; [cbn; lia|]. unfold drop_refs in *. cbn [foldl count_occ].
  rewrite IH. destruct (Z.eqb_spec g 0) as [->|]; [destruct (Z.eq_dec 0 hd); [congruence|lia]|].
  unfold refs_of at 1. destruct (Z.eq_dec g hd) as [->|]; [rewrite lookup_insert_eq; cbn; lia|].
  rewrite lookup_insert_ne by done. fold (refs_of m hd). lia.
Qed.
