(* ===== verification/Bitfield.v ===== *)
(** * Bit fields of a 64-bit word

    [priv/Bitfield.hpp]: [SetBitfield], [MaskBitfield] and [ExtractBitfield]
    over [uint64_t], with the algebra the format descriptors rely on: reading a
    field back, fields that do not overlap, and read-modify-write updates. The
    lemmas are collected in the rewrite database [bitfield], whose side
    conditions are linear arithmetic on literal offsets. *)
From S2P Require Export Prelude.
From stdpp Require Import options.

(** ** The operations *)

Definition SetBitfield (value offset length : Z) : Z :=
  wrapu 64 (Z.shiftl (Z.land (wrapu 64 value) (wrapu 64 (Z.shiftl 1 length) - 1)) offset).

Definition UINT64_MAX : Z := 2 ^ 64 - 1.

Definition MaskBitfield (offset length : Z) : Z :=
  SetBitfield UINT64_MAX offset length.

Definition ExtractBitfield (value offset length : Z) : Z :=
  Z.land (Z.shiftr (wrapu 64 value) offset) (wrapu 64 (Z.shiftl 1 length) - 1).

(** Bitwise complement of a [uint64_t]. *)
Definition not64 (z : Z) : Z := wrapu 64 (Z.lnot z).

(** The update [(m & ~Mask(off,len)) | Set(v,off,len)] the setters share. *)
Definition UpdateBitfield (m v offset length : Z) : Z :=
  Z.lor (Z.land m (not64 (MaskBitfield offset length))) (SetBitfield v offset length).

#[global] Arguments SetBitfield : simpl never.
#[global] Arguments ExtractBitfield : simpl never.
#[global] Arguments MaskBitfield : simpl never.
#[global] Arguments UpdateBitfield : simpl never.

(** ** Bit-level characterisation *)

Lemma testbit_wrapu w z i : 0 <= w -> Z.testbit (wrapu w z) i = (i <? w) && Z.testbit z i.
Proof.
  intros Hw. unfold wrapu. destruct (Z.ltb_spec i w).
  - destruct (Z.neg_nonneg_cases i); [by rewrite !Z.testbit_neg_r by lia|].
    by rewrite Z.mod_pow2_bits_low by lia.
  - by rewrite Z.mod_pow2_bits_high by lia.
Qed.

Lemma mask_ones l : 0 <= l < 64 -> wrapu 64 (Z.shiftl 1 l) - 1 = Z.ones l.
Proof.
  intros Hl. rewrite Z.shiftl_1_l, wrapu_small.
  - by rewrite Z.ones_equiv, Z.sub_1_r.
  - split; [lia|]. apply Z.pow_lt_mono_r; lia.
Qed.

Lemma testbit_ones l i : 0 <= l -> Z.testbit (Z.ones l) i = (0 <=? i) && (i <? l).
Proof. apply Z.testbit_ones. Qed.

Lemma testbit_SetBitfield v o l i : 0 <= o -> 0 <= l < 64 ->
  Z.testbit (SetBitfield v o l) i
  = (o <=? i) && (i <? o + l) && (i <? 64) && Z.testbit v (i - o).
Proof.
  intros Ho Hl. unfold SetBitfield. rewrite mask_ones, testbit_wrapu by lia.
  destruct (Z.neg_nonneg_cases i).
  { rewrite (Z.testbit_neg_r _ i) by lia.
    rewrite (proj2 (Z.leb_gt o i)) by lia. by rewrite andb_false_r. }
  rewrite Z.shiftl_spec, Z.land_spec, testbit_ones, testbit_wrapu by lia.
  destruct (Z.leb_spec 0 (i - o)), (Z.leb_spec o i); try lia;
    destruct (Z.ltb_spec (i - o) l), (Z.ltb_spec i (o + l)); try lia;
    destruct (Z.ltb_spec (i - o) 64), (Z.ltb_spec i 64); try lia;
    cbn; rewrite ?andb_false_r, ?andb_true_r; done.
Qed.

Lemma testbit_ExtractBitfield v o l i : 0 <= o -> 0 <= l < 64 ->
  Z.testbit (ExtractBitfield v o l) i
  = (0 <=? i) && (i <? l) && (i + o <? 64) && Z.testbit v (i + o).
Proof.
  intros Ho Hl. unfold ExtractBitfield. rewrite mask_ones, Z.land_spec, testbit_ones by lia.
  destruct (Z.neg_nonneg_cases i).
  { rewrite (Z.testbit_neg_r _ i) by lia.
    by rewrite (proj2 (Z.leb_gt 0 i)) by lia. }
  rewrite Z.shiftr_spec, testbit_wrapu by lia.
  destruct (0 <=? i), (i <? l), (i + o <? 64); cbn;
    rewrite ?andb_false_r, ?andb_true_r; done.
Qed.

Lemma testbit_not64 z i : 0 <= i -> Z.testbit (not64 z) i = (i <? 64) && negb (Z.testbit z i).
Proof. intros Hi. unfold not64. by rewrite testbit_wrapu, Z.lnot_spec by lia. Qed.

Lemma testbit_MaskBitfield o l i : 0 <= o -> 0 <= l < 64 ->
  Z.testbit (MaskBitfield o l) i = (o <=? i) && (i <? o + l) && (i <? 64).
Proof.
  intros Ho Hl. unfold MaskBitfield, UINT64_MAX.
  rewrite testbit_SetBitfield by lia.
  replace (2 ^ 64 - 1) with (Z.ones 64) by reflexivity.
  rewrite testbit_ones by lia.
  destruct (Z.leb_spec o i), (Z.leb_spec 0 (i - o)); try lia;
    destruct (Z.ltb_spec i (o + l)), (Z.ltb_spec (i - o) 64); try lia;
    destruct (i <? 64); cbn; done.
Qed.

(** Prove an equation between words bit by bit. *)
Ltac word_bits :=
  apply Z.bits_inj'; intros ?i ?Hi;
  repeat first
    [ rewrite testbit_SetBitfield by lia | rewrite testbit_ExtractBitfield by lia
    | rewrite testbit_MaskBitfield by lia | rewrite testbit_not64 by lia
    | rewrite Z.lor_spec | rewrite Z.land_spec ];
  rewrite ?testbit_wrapu, ?Z.testbit_0_l by lia;
  repeat match goal with
  | |- context [?a <=? ?b] => destruct (Z.leb_spec a b); try lia
  | |- context [?a <? ?b] => destruct (Z.ltb_spec a b); try lia
  end; cbn [andb orb negb];
  rewrite ?andb_false_r, ?andb_true_r, ?orb_false_r, ?orb_true_r; cbn [andb orb negb].

(** ** Ranges *)

Lemma testbit_high_range w z : 0 <= w -> (forall i, w <= i -> Z.testbit z i = false) -> in_u w z.
Proof.
  intros Hw H. assert (z = wrapu w z) as ->; [|by apply wrapu_range].
  apply Z.bits_inj'. intros i Hi. rewrite testbit_wrapu by done.
  destruct (Z.ltb_spec i w); [done|]. by rewrite H.
Qed.

Lemma in_u_testbit w z i : 0 <= w -> in_u w z -> w <= i -> Z.testbit z i = false.
Proof.
  intros Hw Hz Hi. rewrite <- (wrapu_small w z) by done. rewrite testbit_wrapu by done.
  by rewrite (proj2 (Z.ltb_ge i w)).
Qed.

Lemma in_u_lor w a b : 0 <= w -> in_u w a -> in_u w b -> in_u w (Z.lor a b).
Proof.
  intros Hw Ha Hb. apply testbit_high_range; [done|]. intros i Hi.
  by rewrite Z.lor_spec, !(in_u_testbit w) by done.
Qed.

Lemma in_u_land w a b : 0 <= w -> in_u w a -> in_u w (Z.land a b).
Proof.
  intros Hw Ha. apply testbit_high_range; [done|]. intros i Hi.
  by rewrite Z.land_spec, (in_u_testbit w a).
Qed.

Lemma SetBitfield_u64 v o l : in_u 64 (SetBitfield v o l).
Proof. by apply wrapu_range. Qed.

Lemma SetBitfield_range v o l : 0 <= o -> 0 <= l < 64 -> in_u (o + l) (SetBitfield v o l).
Proof.
  intros Ho Hl. apply testbit_high_range; [lia|]. intros i Hi.
  rewrite testbit_SetBitfield by lia.
  by rewrite (proj2 (Z.ltb_ge i (o + l))), andb_false_r by lia.
Qed.

Lemma ExtractBitfield_range v o l : 0 <= o -> 0 <= l < 64 -> in_u l (ExtractBitfield v o l).
Proof.
  intros Ho Hl. apply testbit_high_range; [lia|]. intros i Hi.
  rewrite testbit_ExtractBitfield by lia.
  by rewrite (proj2 (Z.ltb_ge i l)), andb_false_r by lia.
Qed.

Lemma UpdateBitfield_u64 m v o l : in_u 64 m -> in_u 64 (UpdateBitfield m v o l).
Proof. intros. apply in_u_lor; [done| |apply SetBitfield_u64]. by apply in_u_land. Qed.

(** ** Field algebra *)

Lemma Extract_lor a b o l : 0 <= o -> 0 <= l < 64 ->
  ExtractBitfield (Z.lor a b) o l = Z.lor (ExtractBitfield a o l) (ExtractBitfield b o l).
Proof. intros. word_bits; done. Qed.

(** A field that lies inside the field just written. *)
Lemma Extract_Set_in v o' l' o l :
  0 <= o' -> 0 <= l' < 64 -> o' + l' <= 64 -> 0 <= l < 64 -> o' <= o -> o + l <= o' + l' ->
  ExtractBitfield (SetBitfield v o' l') o l = ExtractBitfield v (o - o') l.
Proof. intros. word_bits; try done; f_equal; lia. Qed.

Lemma Extract_Set_out v o' l' o l :
  0 <= o' -> 0 <= l' < 64 -> 0 <= o -> 0 <= l < 64 -> o + l <= o' \/ o' + l' <= o ->
  ExtractBitfield (SetBitfield v o' l') o l = 0.
Proof. intros. word_bits; done. Qed.

Lemma Extract_Extract v o' l' o l :
  0 <= o' -> 0 <= l' < 64 -> 0 <= o -> 0 <= l < 64 -> o + l <= l' -> o' + l' <= 64 ->
  ExtractBitfield (ExtractBitfield v o' l') o l = ExtractBitfield v (o' + o) l.
Proof. intros. word_bits; try done; f_equal; lia. Qed.

Lemma Extract_Update_in m v o' l' o l :
  0 <= o' -> 0 <= l' < 64 -> o' + l' <= 64 -> 0 <= l < 64 -> o' <= o -> o + l <= o' + l' ->
  ExtractBitfield (UpdateBitfield m v o' l') o l = ExtractBitfield v (o - o') l.
Proof. intros. unfold UpdateBitfield. word_bits; try done; f_equal; lia. Qed.

Lemma Extract_Update_out m v o' l' o l :
  0 <= o' -> 0 <= l' < 64 -> 0 <= o -> 0 <= l < 64 -> o + l <= o' \/ o' + l' <= o ->
  ExtractBitfield (UpdateBitfield m v o' l') o l = ExtractBitfield m o l.
Proof. intros. unfold UpdateBitfield. word_bits; done. Qed.

Lemma Extract_small v l : 0 <= l < 64 -> in_u l v -> ExtractBitfield v 0 l = v.
Proof.
  intros Hl Hv. word_bits; rewrite ?Z.add_0_r; try done.
  all: by rewrite (in_u_testbit l v) by (done || lia).
Qed.

Lemma Extract_mod v l : 0 <= l < 64 -> ExtractBitfield v 0 l = wrapu l v.
Proof. intros Hl. word_bits; rewrite ?Z.add_0_r; done. Qed.

Lemma Extract_0 o l : 0 <= o -> 0 <= l < 64 -> ExtractBitfield 0 o l = 0.
Proof. intros. word_bits; done. Qed.

(** Writing a field twice keeps the last value; rewriting a field with its own
    value changes nothing. *)
Lemma Update_Update m v v' o l : 0 <= o -> 0 <= l < 64 -> in_u 64 m ->
  UpdateBitfield (UpdateBitfield m v o l) v' o l = UpdateBitfield m v' o l.
Proof. intros. unfold UpdateBitfield. word_bits; done. Qed.

Lemma Update_Extract m o l : 0 <= o -> 0 <= l < 64 -> in_u 64 m ->
  UpdateBitfield m (ExtractBitfield m o l) o l = m.
Proof.
  intros Ho Hl Hm. unfold UpdateBitfield. word_bits; try done.
  all: replace (i - o + o) with i by lia; try done.
  all: by rewrite (in_u_testbit 64 m) by (done || lia).
Qed.

Lemma Update_comm m v v' o l o' l' :
  0 <= o -> 0 <= l < 64 -> 0 <= o' -> 0 <= l' < 64 -> in_u 64 m ->
  o + l <= o' \/ o' + l' <= o ->
  UpdateBitfield (UpdateBitfield m v o l) v' o' l'
  = UpdateBitfield (UpdateBitfield m v' o' l') v o l.
Proof. intros. unfold UpdateBitfield. word_bits; rewrite ?orb_assoc; done. Qed.

Create Rewrite HintDb bitfield.
Create HintDb words discriminated.
#[export] Hint Rewrite Z.lor_0_l Z.lor_0_r : bitfield.
#[export] Hint Rewrite Extract_lor Extract_Set_out Extract_Set_in Extract_Update_out
  Extract_Update_in Extract_Extract Extract_0 using lia : bitfield.
#[export] Hint Resolve SetBitfield_u64 UpdateBitfield_u64 in_u_lor in_u_land : words.

(** Evaluate sums and differences of integer literals. *)
Ltac norm_offsets :=
  repeat match goal with
  | |- context [?a - ?b] =>
      is_closed_lit a; is_closed_lit b; let c := eval compute in (a - b) in change (a - b) with c
  | |- context [?a + ?b] =>
      is_closed_lit a; is_closed_lit b; let c := eval compute in (a + b) in change (a + b) with c
  end
with is_closed_lit t :=
  lazymatch t with
  | Z0 => idtac
  | Zpos ?p => is_closed_lit p
  | Zneg ?p => is_closed_lit p
  | xH => idtac
  | xO ?p => is_closed_lit p
  | xI ?p => is_closed_lit p
  end.

(** Compute the fields of a word assembled from literal fields. *)
Ltac bitfields := repeat (progress (autorewrite with bitfield; norm_offsets)).
