(* ===== verification/MathUtil.v ===== *)
(** * Integer utilities ([util/Math.hpp])

    Rounding, ceiling division and power-of-two helpers; the signed template
    instances are the ones the library uses, and division is C++ division
    (truncating). [RoundUp] is the instance for [int64_t] values, undefined where
    the sum overflows; the other helpers are on mathematical integers, and their
    callers bound the arguments or check the sums. Each bit trick is proved equal to
    the arithmetic it stands for. *)
From S2P Require Export Bitfield.
From stdpp Require Import options.

(** ** Definitions *)

(** The value of the expression of [RoundUp] where nothing overflows. *)
Definition round_up (value multiple : Z) : Z :=
  Z.quot (value + multiple - 1) multiple * multiple.

(** [RoundUp] of an [int64_t]. *)
Definition RoundUp (value multiple : Z) : outcome Z :=
  n ← int64 (value + multiple);
  n ← int64 (n - 1);
  if multiple =? 0 then Stuck else
  q ← int64 (Z.quot n multiple);
  int64 (q * multiple).

Definition IsPowerOfTwo (value : Z) : bool := Z.land value (value - 1) =? 0.

(** The loop [for (i = 1; i < w; i <<= 1) x = x | (x >> i)], [fuel] rounds. *)
Fixpoint smear (fuel : nat) (w i x : Z) : Z :=
  match fuel with
  | O => x
  | S f => if i <? w then smear f w (Z.shiftl i 1) (Z.lor x (Z.shiftr x i)) else x
  end.

(** [T] of width [w]; the widened result type is wide enough for the [+ 1]. *)
Definition RoundUpNextPowerOfTwo (w x : Z) : Z :=
  smear (Z.to_nat w) w 1 (x - 1) + 1.

Definition DivUp (num den : Z) : Z := Z.quot (num + (den - 1)) den.

Definition RoundUpPowerOfTwo (value multiple : Z) : Z :=
  Z.land (value + (multiple - 1)) (- multiple).

(** [w - clz(value) - 1] for a positive [value]. *)
Definition ILog2 (value : Z) : Z := Z.log2 value.

Definition DivUpPowerOfTwo (num den : Z) : Z :=
  Z.shiftr num (ILog2 den) + (if Z.land num (den - 1) =? 0 then 0 else 1).

(** ** Powers of two *)

Lemma pow2_mask k i : 0 <= k -> Z.testbit (2 ^ k - 1) i = (0 <=? i) && (i <? k).
Proof. intros Hk. rewrite Z.sub_1_r, <- Z.ones_equiv. by apply testbit_ones. Qed.

Lemma land_pow2_mask n k : 0 <= k -> Z.land n (2 ^ k - 1) = n mod 2 ^ k.
Proof. intros Hk. by rewrite Z.sub_1_r, <- Z.ones_equiv, Z.land_ones. Qed.

Lemma land_opp_pow2 n k : 0 <= k -> Z.land n (- 2 ^ k) = n - n mod 2 ^ k.
Proof.
  intros Hk. assert (n = 2 ^ k * (n / 2 ^ k) + n mod 2 ^ k) as E.
  { apply Z.div_mod. apply Z.pow_nonzero; lia. }
  replace (n - n mod 2 ^ k) with (n / 2 ^ k * 2 ^ k) by lia.
  rewrite <- Z.shiftl_mul_pow2, <- Z.shiftr_div_pow2 by done.
  replace (- 2 ^ k) with (Z.lnot (2 ^ k - 1)) by (unfold Z.lnot; lia).
  apply Z.bits_inj'. intros i Hi.
  rewrite Z.land_spec, Z.lnot_spec, pow2_mask, Z.shiftl_spec by done.
  destruct (Z.leb_spec 0 i), (Z.ltb_spec i k); try lia; cbn.
  - rewrite (Z.testbit_neg_r _ (i - k)) by lia. apply andb_false_r.
  - rewrite Z.shiftr_spec, andb_true_r by lia. f_equal. lia.
Qed.

(** [IsPowerOfTwo] is exactly "zero or a power of two" on non-negative input. *)
Lemma IsPowerOfTwo_spec n : 0 < n -> IsPowerOfTwo n = true <-> n = 2 ^ Z.log2 n.
Proof.
  intros Hn. unfold IsPowerOfTwo. rewrite Z.eqb_eq.
  pose proof (Z.log2_spec n Hn) as [Hlo Hhi]. pose proof (Z.log2_nonneg n) as Hk.
  split.
  - intros H. destruct (Z.eq_dec n (2 ^ Z.log2 n)) as [|Hne]; [done|].
    assert (Z.testbit (Z.land n (n - 1)) (Z.log2 n) = true) as Hb; [|by rewrite H, Z.bits_0 in Hb].
    rewrite Z.land_spec, Z.bit_log2 by done.
    assert (Z.log2 (n - 1) = Z.log2 n) as <-; [|rewrite Z.bit_log2 by lia; done].
    apply Z.log2_unique; lia.
  - intros E. rewrite E, land_pow2_mask by done. apply Z_mod_same_full.
Qed.

Lemma IsPowerOfTwo_pow2 k : 0 <= k -> IsPowerOfTwo (2 ^ k) = true.
Proof.
  intros Hk. apply IsPowerOfTwo_spec; [by apply Z.pow_pos_nonneg|].
  by rewrite Z.log2_pow2.
Qed.

(** ** Rounding *)

Lemma RoundUp_div v m : 0 <= v -> 0 < m -> round_up v m = (v + m - 1) / m * m.
Proof. intros. unfold round_up. by rewrite Z.quot_div_nonneg by lia. Qed.

(** The least multiple of [m] that is at least [v]. *)
Lemma RoundUp_spec v m : 0 <= v -> 0 < m ->
  v <= round_up v m < v + m /\ (m | round_up v m).
Proof.
  intros Hv Hm. rewrite RoundUp_div by done. split; [|apply Z.divide_factor_r].
  pose proof (Z.div_mod (v + m - 1) m). pose proof (Z.mod_pos_bound (v + m - 1) m). lia.
Qed.

Lemma RoundUp_unique v m r : 0 <= v -> 0 < m -> v <= r < v + m -> (m | r) -> r = round_up v m.
Proof.
  intros Hv Hm Hr [q ->]. destruct (RoundUp_spec v m Hv Hm) as [Hb [p Hp]]. rewrite Hp in *.
  assert (q = p) by nia. by subst.
Qed.

Lemma RoundUp_multiple v m : 0 <= v -> 0 < m -> (m | v) -> round_up v m = v.
Proof. intros. symmetry. apply RoundUp_unique; auto; lia. Qed.

Lemma RoundUp_mono v v' m : 0 <= v <= v' -> 0 < m -> round_up v m <= round_up v' m.
Proof.
  intros Hv Hm. rewrite !RoundUp_div by lia.
  apply Z.mul_le_mono_nonneg_r; [lia|]. apply Z.div_le_mono; lia.
Qed.

(** [RoundUp] gives that integer unless the sum overflows. *)
Lemma RoundUp_round_up v m : 0 <= v -> 0 < m -> RoundUp v m = if v + m <? 2 ^ 63 then Ok (round_up v m) else Stuck.
Proof.
  intros Hv Hm. unfold RoundUp, round_up. destruct (Z.ltb_spec (v + m) (2 ^ 63)) as [H|H].
  - rewrite int64_ok by (unfold in_s; lia). cbn [mbind outcome_bind]. rewrite int64_ok by (unfold in_s; lia). cbn [mbind outcome_bind].
    rewrite (proj2 (Z.eqb_neq m 0)) by lia. rewrite Z.quot_div_nonneg by lia.
    assert (0 <= (v + m - 1) / m) by (apply Z.div_pos; lia). pose proof (Z.mul_div_le (v + m - 1) m ltac:(lia)).
    rewrite int64_ok by (unfold in_s; nia). cbn [mbind outcome_bind]. by rewrite int64_ok by (unfold in_s; nia).
  - assert (int64 (v + m) = Stuck) as ->; [|done]. unfold int64. rewrite bool_decide_eq_false_2; [done|]. unfold in_s. lia.
Qed.

(** The mask form agrees with division when the multiple is a power of two. *)
Lemma RoundUpPowerOfTwo_RoundUp v m : 0 <= v -> 0 < m -> IsPowerOfTwo m = true ->
  RoundUpPowerOfTwo v m = round_up v m.
Proof.
  intros Hv Hm Hp. apply IsPowerOfTwo_spec in Hp; [|done].
  apply RoundUp_unique; [done..| |]; unfold RoundUpPowerOfTwo;
    rewrite Hp, land_opp_pow2 by apply Z.log2_nonneg; rewrite <- Hp.
  - pose proof (Z.mod_pos_bound (v + (m - 1)) m Hm). lia.
  - exists ((v + (m - 1)) / m). pose proof (Z.div_mod (v + (m - 1)) m). lia.
Qed.

(** Rounding to the alignment 0 yields 0: the assertion [IsPowerOfTwo] lets 0 through. *)
Lemma RoundUpPowerOfTwo_0 v : RoundUpPowerOfTwo v 0 = 0.
Proof. unfold RoundUpPowerOfTwo. apply Z.land_0_r. Qed.

Lemma DivUp_spec n d : 0 <= n -> 0 < d -> DivUp n d = (n + d - 1) / d.
Proof. intros. unfold DivUp. rewrite Z.quot_div_nonneg by lia. f_equal; lia. Qed.

Lemma DivUpPowerOfTwo_DivUp n d : 0 <= n -> 0 < d -> IsPowerOfTwo d = true ->
  DivUpPowerOfTwo n d = DivUp n d.
Proof.
  intros Hn Hd Hp. apply IsPowerOfTwo_spec in Hp; [|done]. pose proof (Z.log2_nonneg d).
  rewrite DivUp_spec by done. unfold DivUpPowerOfTwo, ILog2.
  rewrite Hp at 2. rewrite land_pow2_mask, Z.shiftr_div_pow2, <- Hp by done.
  pose proof (Z.div_mod n d). pose proof (Z.mod_pos_bound n d).
  destruct (Z.eqb_spec (n mod d) 0).
  - apply Z.div_unique with (d - 1); lia.
  - apply Z.div_unique with (n mod d - 1); lia.
Qed.

(** ** The next power of two *)

(** [covers x y k]: bit [i] of [y] is the disjunction of bits [i .. i+k-1] of [x]. *)
Definition covers (x y k : Z) : Prop :=
  forall i, 0 <= i ->
    Z.testbit y i = true <-> exists j, i <= j < i + k /\ Z.testbit x j = true.

Lemma covers_step x y k : 0 < k -> covers x y k ->
  covers x (Z.lor y (Z.shiftr y k)) (2 * k).
Proof.
  intros Hk H i Hi.
  rewrite Z.lor_spec, Z.shiftr_spec, orb_true_iff, (H i), (H (i + k)) by lia. split.
  - intros [(j & ? & ?)|(j & ? & ?)]; exists j; split; auto; lia.
  - intros (j & Hj & ?). destruct (Z.lt_ge_cases j (i + k)); [left|right]; exists j;
      split; auto; lia.
Qed.

Lemma covers_smear fuel w x y k : 0 < k -> covers x y k ->
  exists k', covers x (smear fuel w k y) k'
    /\ (w <= k' \/ k' = 2 ^ Z.of_nat fuel * k).
Proof.
  revert y k. induction fuel as [|f IH]; intros y k Hk H; cbn [smear].
  { exists k. split; [done|]. right. lia. }
  destruct (Z.ltb_spec k w); [|exists k; split; [done|lia]].
  assert (Z.shiftl k 1 = 2 * k) as -> by (rewrite Z.shiftl_mul_pow2; lia).
  destruct (IH (Z.lor y (Z.shiftr y k)) (2 * k)) as (k' & Hc & [?|E]);
    [lia|by apply covers_step| |].
  - exists k'. auto.
  - exists k'. split; [done|]. right. rewrite E, Nat2Z.inj_succ, Z.pow_succ_r by lia. ring.
Qed.

Lemma covers_log2 x y k : 0 < x -> Z.log2 x < k -> covers x y k -> y = 2 ^ (Z.log2 x + 1) - 1.
Proof.
  intros Hx Hk H. apply Z.bits_inj'. intros i Hi.
  pose proof (Z.log2_nonneg x). rewrite pow2_mask by lia.
  rewrite (proj2 (Z.leb_le 0 i)) by lia. cbn.
  apply Bool.eq_iff_eq_true. rewrite (H i), Z.ltb_lt by done. split.
  - intros (j & ? & Hj). destruct (Z.lt_ge_cases (Z.log2 x) j); [|lia].
    by rewrite Z.bits_above_log2 in Hj by lia.
  - intros. exists (Z.log2 x). split; [lia|]. by apply Z.bit_log2.
Qed.

Lemma RoundUpNextPowerOfTwo_log2 w x : 1 < x -> 1 < w -> x <= 2 ^ (w - 1) ->
  RoundUpNextPowerOfTwo w x = 2 ^ (Z.log2 (x - 1) + 1).
Proof.
  intros Hx Hw Hb. unfold RoundUpNextPowerOfTwo.
  assert (Z.log2 (x - 1) < w - 1) as Hl by (apply Z.log2_lt_pow2; lia).
  destruct (covers_smear (Z.to_nat w) w (x - 1) (x - 1) 1) as (k & Hc & Hk); [done| |].
  { intros i Hi. split; [intros; exists i; split; auto; lia|].
    intros (j & ? & ?). by replace i with j by lia. }
  assert (Z.log2 (x - 1) < k).
  { destruct Hk as [?| ->]; [lia|]. rewrite Z2Nat.id, Z.mul_1_r by lia.
    pose proof (Z.pow_gt_lin_r 2 w). lia. }
  rewrite (covers_log2 (x - 1) (smear (Z.to_nat w) w 1 (x - 1)) k) by (done || lia). lia.
Qed.

(** The result is the least power of two that is at least [x]. *)
Lemma RoundUpNextPowerOfTwo_spec w x : 1 < x -> 1 < w -> x <= 2 ^ (w - 1) ->
  let r := RoundUpNextPowerOfTwo w x in
  IsPowerOfTwo r = true /\ x <= r < 2 * x.
Proof.
  intros Hx Hw Hb r. unfold r. rewrite RoundUpNextPowerOfTwo_log2 by done.
  pose proof (Z.log2_spec (x - 1)). pose proof (Z.log2_nonneg (x - 1)).
  split; [apply IsPowerOfTwo_pow2; lia|].
  rewrite Z.add_1_r, Z.pow_succ_r in * by done. lia.
Qed.

(** ** Summary of the contracts *)

(** The mask and shift versions compute what the division versions do: for
    a non-negative value and a positive power of two [m], [RoundUpPowerOfTwo]
    is [round_up], the least multiple of [m] not below the value, and
    [DivUpPowerOfTwo] is [DivUp], the number of [m]s that cover it. *)
Theorem power_of_two_rounding v m : 0 <= v -> 0 < m -> IsPowerOfTwo m = true ->
  RoundUpPowerOfTwo v m = round_up v m /\ DivUpPowerOfTwo v m = DivUp v m
  /\ DivUp v m * m = round_up v m
  /\ v <= round_up v m /\ forall k, v <= k * m -> round_up v m <= k * m.
Proof.
  intros Hv Hm Hp. rewrite RoundUpPowerOfTwo_RoundUp, DivUpPowerOfTwo_DivUp by done.
  rewrite DivUp_spec, RoundUp_div by done. split_and!; [done..| |].
  - pose proof (RoundUp_spec v m Hv Hm) as [? _]. rewrite RoundUp_div in * by done. lia.
  - intros k Hk. apply Z.mul_le_mono_nonneg_r; [lia|]. apply Z.lt_succ_r, Z.div_lt_upper_bound; nia.
Qed.

Lemma power_of_two_rounding_witness :
  (0 <= 13 /\ 0 < 8 /\ IsPowerOfTwo 8 = true) /\ RoundUpPowerOfTwo 13 8 = round_up 13 8.
Proof.
  split; [split_and!; [lia|lia|reflexivity]|].
  exact (proj1 (power_of_two_rounding 13 8 ltac:(lia) ltac:(lia) eq_refl)).
Defined.

(** on the non-negative values of a signed [w]-bit type the smearing loop
    yields the least power of two not below the value (zero for zero), and the
    result fits the widened result type. *)
Theorem next_power_of_two_least w x : 1 < w -> 0 <= x < 2 ^ (w - 1) ->
  let r := RoundUpNextPowerOfTwo w x in
  if x =? 0 then r = 0
  else IsPowerOfTwo r = true /\ x <= r <= 2 ^ (w - 1) /\ forall k, 0 <= k -> x <= 2 ^ k -> r <= 2 ^ k.
Proof.
  intros Hw Hx r. destruct (Z.eqb_spec x 0) as [->|Hx0].
  { unfold r, RoundUpNextPowerOfTwo.
    assert (forall n i, 0 < i -> smear n w i (-1) = -1) as Hs; [|change (0 - 1) with (-1); rewrite Hs; lia].
    induction n as [|n IH]; intros i Hi; cbn [smear]; [done|]. destruct (i <? w); [|done].
    rewrite Z.lor_m1_l. apply IH. rewrite Z.shiftl_mul_pow2; lia. }
  destruct (decide (x = 1)) as [->|].
  { assert (r = 1) as ->.
    { unfold r, RoundUpNextPowerOfTwo. change (1 - 1) with 0.
      assert (forall n i, smear n w i 0 = 0) as Hs; [|by rewrite Hs].
      induction n as [|n IH]; intros i; cbn [smear]; [done|]. destruct (i <? w); [|done].
      by rewrite Z.shiftr_0_l, IH. }
    split_and!; [done|lia|lia|intros; lia]. }
  unfold r. rewrite RoundUpNextPowerOfTwo_log2 by lia.
  pose proof (Z.log2_spec (x - 1)). pose proof (Z.log2_nonneg (x - 1)).
  assert (Z.log2 (x - 1) < w - 1) by (apply Z.log2_lt_pow2; lia).
  split_and!; [apply IsPowerOfTwo_pow2; lia|rewrite Z.add_1_r; lia|apply Z.pow_le_mono_r; lia|].
  intros k Hk Hxk. apply Z.pow_le_mono_r; [lia|].
  assert (Z.log2 (x - 1) < k); [|lia]. apply Z.log2_lt_pow2; lia.
Qed.

Lemma next_power_of_two_least_witness :
  (1 < 32 /\ 0 <= 33 < 2 ^ 31) /\ IsPowerOfTwo (RoundUpNextPowerOfTwo 32 33) = true.
Proof.
  split; [lia|]. exact (proj1 (next_power_of_two_least 32 33 ltac:(lia) ltac:(lia))).
Defined.
