(* ===== verification/Align.v ===== *)
(** * Alignment by masks ([nvcv/detail/Align.hpp])

    [AlignDown], [AlignUp] and [IsAligned] on [size_t]: the arithmetic of 64-bit
    words. Each is related to rounding on integers ([MathUtil.round_up]), and
    [AlignUp] is shown to wrap to zero where the rounded value has no word. *)
From S2P Require Import Prelude MathUtil.
From stdpp Require Import options.

#[local] Open Scope Z_scope.

(** ** Definitions *)

Definition AlignDown (value alignment_pow2 : Z) : Z := Z.land value (wrapu 64 (- alignment_pow2)).

Definition AlignUp (value alignment_pow2 : Z) : Z :=
  AlignDown (wrapu 64 (value + wrapu 64 (alignment_pow2 - 1))) alignment_pow2.

Definition IsAligned (value alignment_pow2 : Z) : bool := Z.land value (wrapu 64 (alignment_pow2 - 1)) =? 0.

(** A power of two that is a [size_t]. *)
Definition pow2_word (a : Z) : Prop := exists k, 0 <= k < 64 /\ a = 2 ^ k.

(** ** Powers of two *)

Lemma pow2_word_range a : pow2_word a -> 0 < a <= 2 ^ 63.
Proof.
  intros (k & Hk & ->). split; [apply Z.pow_pos_nonneg; lia|]. apply Z.pow_le_mono_r; lia.
Qed.

Lemma pow2_word_div a b : pow2_word a -> pow2_word b -> a <= b -> (a | b).
Proof.
  intros (k & Hk & ->) (l & Hl & ->) Hle. apply Z.pow_le_mono_r_iff in Hle; [|lia..].
  exists (2 ^ (l - k)). rewrite <- Z.pow_add_r by lia. f_equal. lia.
Qed.

Lemma pow2_word_max a b : pow2_word a -> pow2_word b -> pow2_word (Z.max a b).
Proof. intros Ha Hb. by destruct (Z.max_spec a b) as [[_ ->]|[_ ->]]. Qed.

Lemma pow2_word_mask a : pow2_word a -> wrapu 64 (a - 1) = a - 1.
Proof. intros Ha. apply pow2_word_range in Ha. apply wrapu_small. unfold in_u. lia. Qed.

Lemma pow2_word_assert a : pow2_word a -> Z.land a (wrapu 64 (a - 1)) = 0.
Proof.
  intros Ha. rewrite pow2_word_mask by done. destruct Ha as (k & Hk & ->).
  rewrite land_pow2_mask by lia. apply Z_mod_same_full.
Qed.

(** ** Rounding *)

Lemma AlignDown_spec v a : in_u 64 v -> pow2_word a -> AlignDown v a = v - v mod a.
Proof.
  intros Hv (k & Hk & ->). unfold AlignDown, wrapu.
  rewrite <- (Z.land_ones (- 2 ^ k)) by lia. rewrite Z.land_assoc, land_opp_pow2 by lia.
  rewrite Z.land_ones by lia. apply Z.mod_small.
  assert (0 < 2 ^ k) by (apply Z.pow_pos_nonneg; lia).
  pose proof (Z.mod_pos_bound v (2 ^ k)). pose proof (Z.mod_le v (2 ^ k)). unfold in_u in Hv. lia.
Qed.

Lemma AlignUp_RoundUp v a : 0 <= v -> pow2_word a -> v + (a - 1) < 2 ^ 64 -> AlignUp v a = round_up v a.
Proof.
  intros Hv Ha Hfit. pose proof (pow2_word_range _ Ha). unfold AlignUp. rewrite pow2_word_mask by done.
  rewrite wrapu_small, AlignDown_spec by (done || (unfold in_u; lia)).
  pose proof (Z.mod_pos_bound (v + (a - 1)) a). apply RoundUp_unique; [lia..|].
  exists ((v + (a - 1)) / a). pose proof (Z.div_mod (v + (a - 1)) a). lia.
Qed.

(** The last words below 2^64 are rounded up to 0. *)
Lemma AlignUp_wraps v a : in_u 64 v -> pow2_word a -> 2 ^ 64 <= v + (a - 1) -> AlignUp v a = 0.
Proof.
  intros Hv Ha Hov. pose proof (pow2_word_range _ Ha). unfold AlignUp, in_u in *. rewrite pow2_word_mask by done.
  assert (wrapu 64 (v + (a - 1)) = v + (a - 1) - 2 ^ 64) as ->.
  { unfold wrapu. symmetry. apply Z.mod_unique with 1; lia. }
  rewrite AlignDown_spec by (done || (unfold in_u; lia)). rewrite Z.mod_small by lia. lia.
Qed.

Lemma AlignUp_0 v : AlignUp v 0 = 0.
Proof. unfold AlignUp, AlignDown. apply Z.land_0_r. Qed.

Lemma IsAligned_spec v a : pow2_word a -> IsAligned v a = true <-> (a | v).
Proof.
  intros Ha. pose proof (pow2_word_range _ Ha). unfold IsAligned. rewrite pow2_word_mask by done.
  rewrite Z.eqb_eq. destruct Ha as (k & Hk & ->). rewrite land_pow2_mask by lia. rewrite Z.mod_divide by lia. done.
Qed.

(** Rounding never passes a multiple that is high enough. *)
Lemma RoundUp_le_multiple v m r : 0 <= v -> 0 < m -> v <= r -> (m | r) -> round_up v m <= r.
Proof.
  intros Hv Hm Hr Hd. rewrite <- (RoundUp_multiple r m) by (done || lia). apply RoundUp_mono; lia.
Qed.
