(* ===== verification/Allocators.v ===== *)
(** * Allocators
    ([priv/IAllocator.cpp], [priv/DefaultAllocator.cpp], [priv/CustomAllocator.cpp],
    [nvcv/alloc/Allocator.hpp])

    An allocator offers three kinds of memory. The default one calls the operating
    system and the CUDA runtime; a custom one is a table of the user's functions,
    completed with the default ones. What the system and the user's functions
    answer is an argument; the blocks of memory that are live are the state. *)
From S2P Require Import Prelude Effects MathUtil.
From stdpp Require Import options.

#[local] Open Scope Z_scope.

(** ** Kinds of memory and live blocks *)

Inductive resource := host_mem | cuda_mem | host_pinned_mem.

#[global] Instance resource_eq_dec : EqDecision resource.
Proof. solve_decision. Defined.

Definition NVCV_NUM_RESOURCE_TYPES : Z := 3.

(** [NVCVResourceType]; other values are not understood. *)
Definition resource_type (k : resource) : Z :=
  match k with host_mem => 0 | cuda_mem => 1 | host_pinned_mem => 2 end.

Definition of_resource_type (t : Z) : option resource :=
  if t =? 0 then Some host_mem else if t =? 1 then Some cuda_mem else if t =? 2 then Some host_pinned_mem else None.

Lemma of_resource_type_code k : of_resource_type (resource_type k) = Some k.
Proof. by destruct k. Qed.

Lemma of_resource_type_Some t k : of_resource_type t = Some k <-> t = resource_type k.
Proof.
  split; [|intros ->; apply of_resource_type_code]. unfold of_resource_type.
  destruct (Z.eqb_spec t 0), (Z.eqb_spec t 1), (Z.eqb_spec t 2); naive_solver.
Qed.

Record block := Block { b_resource : resource; b_ptr : Z; b_size : Z; b_alignment : Z }.

#[global] Instance block_eq_dec : EqDecision block.
Proof. solve_decision. Defined.

Abbreviation heap := (list block).

(** A null pointer is no block. *)
Definition new_block (k : resource) (p size align : Z) (h : heap) : heap :=
  if p =? 0 then h else Block k p size align :: h.

(** Memory goes back with the parameters it was allocated with; freeing a block
    that is not live is undefined behaviour, freeing NULL does nothing. *)
Definition free_block (k : resource) (p size align : Z) : M heap unit := fun h =>
  if p =? 0 then (h, Ok tt) else
  match list_find (eq (Block k p size align)) h with
  | Some (i, _) => (delete i h, Ok tt)
  | None => (h, Stuck)
  end.

(** ** The allocators *)

(** Functions of a resource allocator: those of the default allocator and the user's. *)
Inductive mem_func := DefaultFunc (k : resource) | UserFunc (id : Z).

#[global] Instance mem_func_eq_dec : EqDecision mem_func.
Proof. solve_decision. Defined.

(** Null function pointers are [None]. *)
Record NVCVResourceAllocator := MkResourceAllocator {
  ctx : Z; resType : Z; fnAlloc : option mem_func; fnFree : option mem_func; cleanup : option Z }.

#[global] Instance NVCVResourceAllocator_eq_dec : EqDecision NVCVResourceAllocator.
Proof. solve_decision. Defined.

Definition no_allocator : NVCVResourceAllocator := MkResourceAllocator 0 0 None None None.

Record CustomAllocator := MkCustom { m_allocators : list NVCVResourceAllocator; m_customAllocatorMask : Z }.

Inductive IAllocator := Default | Custom (a : CustomAllocator).

(** [DefaultAllocator::doGet]; the context is the allocator itself, [self] here. *)
Definition DefaultAllocator_doGet (self : Z) (resType : Z) : outcome NVCVResourceAllocator :=
  match of_resource_type resType with
  | Some k => Ok (MkResourceAllocator self resType (Some (DefaultFunc k)) (Some (DefaultFunc k)) None)
  | None => Throw NVCV_ERROR_INVALID_ARGUMENT
  end.

(** The first loop of the constructor. *)
Definition fill_elem (st : list NVCVResourceAllocator * Z) (custAlloc : NVCVResourceAllocator) :
  outcome (list NVCVResourceAllocator * Z) :=
  let '(m_allocators, filledMap) := st in
  match of_resource_type (resType custAlloc) with
  | None => Throw NVCV_ERROR_INVALID_ARGUMENT
  | Some _ =>
      throw_if (bool_decide (fnAlloc custAlloc = None)) NVCV_ERROR_INVALID_ARGUMENT (
      throw_if (bool_decide (fnFree custAlloc = None)) NVCV_ERROR_INVALID_ARGUMENT (
      let bit := Z.shiftl 1 (resType custAlloc) in
      throw_if (negb (Z.land filledMap bit =? 0)) NVCV_ERROR_INVALID_ARGUMENT (
      m_allocators ← wr m_allocators (resType custAlloc) custAlloc;
      Ok (m_allocators, Z.lor filledMap bit))))
  end.

Definition fill_custom (arr : option (list NVCVResourceAllocator)) (st : list NVCVResourceAllocator * Z) (i : Z) :
  outcome (list NVCVResourceAllocator * Z) :=
  match arr with
  | None => Stuck
  | Some arr => custAlloc ← rd arr i; fill_elem st custAlloc
  end.

(** The second loop, which takes the default allocator for the kinds left. *)
Definition fill_default (self : Z) (st : list NVCVResourceAllocator * Z) (i : Z) : outcome (list NVCVResourceAllocator * Z) :=
  let '(m_allocators, filledMap) := st in
  let bit := Z.shiftl 1 i in
  if negb (Z.land filledMap bit =? 0) then Ok (m_allocators, filledMap) else
  a ← DefaultAllocator_doGet self i;
  m_allocators ← wr m_allocators i a;
  Ok (m_allocators, Z.lor filledMap bit).

Definition CustomAllocator_construct (self : Z) (customAllocators : option (list NVCVResourceAllocator))
  (numCustomAllocators : Z) : outcome CustomAllocator :=
  throw_if (bool_decide (customAllocators = None) && negb (numCustomAllocators =? 0)) NVCV_ERROR_INVALID_ARGUMENT (
  st ← mfold (fill_custom customAllocators) (zrange 0 numCustomAllocators) (replicate 3 no_allocator, 0);
  let customAllocatorMask := st.2 in
  st ← mfold (fill_default self) (zrange 0 NVCV_NUM_RESOURCE_TYPES) st;
  let all := Z.shiftl 1 NVCV_NUM_RESOURCE_TYPES - 1 in
  nvcv_assert (Z.land st.2 all =? all) (Ok (MkCustom st.1 customAllocatorMask))).

(** [nvcvAllocatorConstructCustom] makes a default allocator when it is given none. *)
Definition nvcvAllocatorConstructCustom (self : Z) (customAllocators : option (list NVCVResourceAllocator))
  (numCustomAllocators : Z) : outcome IAllocator :=
  if negb (numCustomAllocators =? 0) then Custom <$> CustomAllocator_construct self customAllocators numCustomAllocators
  else Ok Default.

(** [IAllocator::get]. *)
Definition get (self : Z) (a : IAllocator) (resType : Z) : outcome NVCVResourceAllocator :=
  match a with
  | Default => DefaultAllocator_doGet self resType
  | Custom c => nvcv_assert ((0 <=? resType) && (resType <? NVCV_NUM_RESOURCE_TYPES)) (rd (m_allocators c) resType)
  end.

(** The functions the destructor calls, with their contexts, in order. *)
Definition CustomAllocator_destroy (a : CustomAllocator) : list (Z * Z) :=
  omap (fun alloc => f ← cleanup alloc; Some (f, ctx alloc)) (m_allocators a).

(** ** Allocation *)

(** The checks of [allocHostMem], [allocHostPinnedMem] and [allocCudaMem] of an
    [int64_t] and an [int32_t]; [IsPowerOfTwo] subtracts 1 from the latter. *)
Definition alloc_checks (size align : Z) : outcome unit :=
  throw_if (size <? 0) NVCV_ERROR_INVALID_ARGUMENT (
  _ ← int32 (align - 1);
  throw_if (negb (IsPowerOfTwo align)) NVCV_ERROR_INVALID_ARGUMENT (
  rounded ← RoundUp size align;
  throw_if (negb (rounded =? size)) NVCV_ERROR_INVALID_ARGUMENT (Ok tt))).

Section Alloc.
(** What [aligned_alloc], [cudaHostAlloc] and [cudaMalloc] answer, errors of CUDA
    translated, and what the user's functions answer. *)
Context (system : heap -> resource -> Z -> Z -> outcome Z)
        (user : heap -> Z -> Z -> Z -> Z -> outcome Z).

(** [doAllocHostMem], [doAllocHostPinnedMem], [doAllocCudaMem] of the default allocator. *)
Definition default_doAlloc (k : resource) (size align : Z) : M heap Z :=
  h ← Effects.get;
  ptr ← lift (system h k size align);
  _ ← match k with
      | host_mem => mret tt
      | _ => lift (throw_if (negb (ptr mod align =? 0)) NVCV_ERROR_INTERNAL (Ok tt))
      end;
  _ ← modify (new_block k ptr size align);
  mret ptr.

Definition default_alloc (k : resource) (size align : Z) : M heap Z :=
  _ ← lift (alloc_checks size align);
  default_doAlloc k size align.

(** A call through a function pointer. *)
Definition call_alloc (f : mem_func) (context : Z) (k : resource) (size align : Z) : M heap Z :=
  match f with
  | DefaultFunc k => default_alloc k size align
  | UserFunc id =>
      h ← Effects.get;
      ptr ← lift (user h id context size align);
      _ ← modify (new_block k ptr size align);
      mret ptr
  end.

Definition custom_doAlloc (c : CustomAllocator) (k : resource) (size align : Z) : M heap Z :=
  custom ← lift (rd (m_allocators c) (resource_type k));
  match fnAlloc custom with
  | Some f => call_alloc f (ctx custom) k size align
  | None => lift Stuck
  end.

(** [IAllocator::allocHostMem] and its siblings. *)
Definition alloc (a : IAllocator) (k : resource) (size align : Z) : M heap Z :=
  _ ← lift (alloc_checks size align);
  match a with Default => default_doAlloc k size align | Custom c => custom_doAlloc c k size align end.

(** [IAllocator::freeHostMem] and its siblings. *)
Definition free (a : IAllocator) (k : resource) (ptr size align : Z) : M heap unit :=
  match a with
  | Default => free_block k ptr size align
  | Custom c =>
      custom ← lift (rd (m_allocators c) (resource_type k));
      match fnFree custom with Some _ => free_block k ptr size align | None => lift Stuck end
  end.

(** [MemAllocator::alloc] and [free] of the C++ interface call the functions
    directly; their parameters are [int64_t] and [int32_t]. *)
Definition MemAllocator_alloc (r : NVCVResourceAllocator) (k : resource) (size align : Z) : M heap Z :=
  match fnAlloc r with
  | Some f => call_alloc f (ctx r) k (i64 size) (i32 align)
  | None => lift Stuck
  end.

Definition MemAllocator_free (r : NVCVResourceAllocator) (k : resource) (ptr size align : Z) : M heap unit :=
  match fnFree r with
  | Some _ => free_block k ptr (i64 size) (i32 align)
  | None => lift Stuck
  end.
End Alloc.

(** ** The table of a custom allocator *)

Definition entry_valid (a : NVCVResourceAllocator) : Prop :=
  is_Some (of_resource_type (resType a)) /\ fnAlloc a <> None /\ fnFree a <> None.

#[global] Instance entry_valid_dec a : Decision (entry_valid a).
Proof. unfold entry_valid. apply _. Defined.

(** At most one valid allocator per kind of memory. *)
Definition table_valid (l : list NVCVResourceAllocator) : Prop := Forall entry_valid l /\ NoDup (resType <$> l).

#[global] Instance table_valid_dec l : Decision (table_valid l).
Proof. unfold table_valid. apply _. Defined.

(** The user's allocator for a type, if there is one. *)
Definition given (l : list NVCVResourceAllocator) (t : Z) : option NVCVResourceAllocator :=
  head (filter (fun a => resType a = t) l).

Lemma given_None l t : t ∉ resType <$> l -> given l t = None.
Proof.
  intros H. unfold given. replace (filter _ l) with (@nil NVCVResourceAllocator); [done|]. symmetry.
  induction l as [|a l IH]; [done|]. rewrite fmap_cons, not_elem_of_cons in H. destruct H as [H1 H2].
  rewrite filter_cons_False by congruence. by apply IH.
Qed.

Lemma given_snoc l a t : resType a ∉ resType <$> l -> given (l ++ [a]) t = if decide (resType a = t) then Some a else given l t.
Proof.
  intros Hn. unfold given. rewrite filter_app. case_decide as D.
  - subst. pose proof (given_None l (resType a) Hn) as G. unfold given in G.
    destruct (filter _ l); [|done]. by rewrite filter_cons_True.
  - rewrite filter_cons_False by done. by rewrite filter_nil, app_nil_r.
Qed.

Lemma land_bit_zero n t : 0 <= t -> (Z.land n (Z.shiftl 1 t) =? 0) = negb (Z.testbit n t).
Proof.
  intros Ht. rewrite Z.shiftl_1_l. destruct (Z.testbit n t) eqn:E.
  - apply Z.eqb_neq. intros H. assert (Z.testbit (Z.land n (2 ^ t)) t = false) as H' by (by rewrite H, Z.bits_0).
    by rewrite Z.land_spec, E, Z.pow2_bits_true in H'.
  - apply Z.eqb_eq, Z.bits_inj'. intros i Hi. rewrite Z.land_spec, Z.bits_0, Z.pow2_bits_eqb by done.
    destruct (Z.eqb_spec t i) as [<-|]; [by rewrite E|apply andb_false_r].
Qed.

Lemma testbit_set n t i : 0 <= t -> Z.testbit (Z.lor n (Z.shiftl 1 t)) i = Z.testbit n i || (t =? i).
Proof. intros Ht. by rewrite Z.lor_spec, Z.shiftl_1_l, Z.pow2_bits_eqb. Qed.

(** What the loops have filled in for the allocators [l]. *)
Definition filled (l : list NVCVResourceAllocator) (st : list NVCVResourceAllocator * Z) : Prop :=
  length st.1 = 3%nat /\ forall k,
    st.1 !! Z.to_nat (resource_type k) = Some (default no_allocator (given l (resource_type k))) /\
    Z.testbit st.2 (resource_type k) = bool_decide (resource_type k ∈ resType <$> l).

Lemma filled_start : filled [] (replicate 3 no_allocator, 0).
Proof. split; [done|]. intros k. split; [by destruct k|by rewrite Z.bits_0]. Qed.

Lemma resource_type_range k : 0 <= resource_type k < 3.
Proof. destruct k; cbn; lia. Qed.

Lemma resource_type_inj k k' : resource_type k = resource_type k' -> k = k'.
Proof. by destruct k, k'. Qed.

Lemma filled_snoc l st a k : filled l st -> resType a = resource_type k -> resType a ∉ resType <$> l ->
  filled (l ++ [a]) (<[Z.to_nat (resType a) := a]> st.1, Z.lor st.2 (Z.shiftl 1 (resType a))).
Proof.
  intros [Hlen HF] Ek Hn. split; [cbn [fst]; by rewrite length_insert|]. intros k'. destruct (HF k') as [F1 F2]. cbn [fst snd].
  pose proof (resource_type_range k). pose proof (resource_type_range k'). rewrite given_snoc by done. split.
  - destruct (decide (resType a = resource_type k')) as [D|D].
    + assert (k = k') as -> by (apply resource_type_inj; by rewrite <- Ek, <- D). rewrite Ek. apply list_lookup_insert_eq. lia.
    + rewrite list_lookup_insert_ne by lia. done.
  - rewrite testbit_set, F2 by lia. rewrite fmap_app. cbn. apply eq_true_iff_eq.
    rewrite orb_true_iff, !bool_decide_eq_true, Z.eqb_eq, elem_of_app, list_elem_of_singleton. naive_solver.
Qed.

Lemma fill_elem_ok l st a : filled l st -> entry_valid a -> resType a ∉ resType <$> l ->
  exists st', fill_elem st a = Ok st' /\ filled (l ++ [a]) st'.
Proof.
  intros Hf ((k & Ek) & Ha & Hfr) Hn. destruct st as [ms fm]. unfold fill_elem. rewrite Ek.
  rewrite !bool_decide_eq_false_2 by done. cbn [throw_if]. apply of_resource_type_Some in Ek.
  pose proof (resource_type_range k). destruct (proj2 Hf k) as [_ Hb]. rewrite <- Ek, bool_decide_eq_false_2 in Hb by done.
  cbn [snd] in Hb. rewrite land_bit_zero, Hb by lia. cbn [negb throw_if].
  assert (wr ms (resType a) a = Ok (<[Z.to_nat (resType a) := a]> ms)) as ->.
  { apply wr_Ok. split; [|done]. destruct Hf as [Hlen _]. cbn in Hlen. lia. }
  eexists. split; [done|]. by apply (filled_snoc l (ms, fm) a k).
Qed.

Lemma fill_elem_bad l st a : filled l st -> ~ (entry_valid a /\ resType a ∉ resType <$> l) ->
  fill_elem st a = Throw NVCV_ERROR_INVALID_ARGUMENT.
Proof.
  intros Hf Hbad. destruct st as [ms fm]. unfold fill_elem. destruct (of_resource_type (resType a)) as [k|] eqn:Ek; [|done].
  case_bool_decide; [done|]. case_bool_decide; [done|]. cbn [throw_if].
  assert (resType a ∈ resType <$> l) as Hin.
  { destruct (decide (resType a ∈ resType <$> l)); [done|]. destruct Hbad. split; [|done]. split; [by exists k|done]. }
  apply of_resource_type_Some in Ek. pose proof (resource_type_range k). destruct (proj2 Hf k) as [_ Hb]. cbn [snd] in Hb.
  rewrite <- Ek, bool_decide_eq_true_2 in Hb by done. by rewrite land_bit_zero, Hb by lia.
Qed.

Lemma table_valid_snoc l a l' : table_valid (l ++ a :: l') -> entry_valid a /\ resType a ∉ resType <$> l.
Proof.
  intros [HF HN]. apply Forall_app in HF as [_ HF]. apply Forall_cons in HF as [Ha _]. split; [done|].
  rewrite fmap_app, fmap_cons, NoDup_app in HN. destruct HN as (_ & HD & _). intros Hin. apply (HD _ Hin). by left.
Qed.

Lemma table_valid_step l a : table_valid l -> entry_valid a -> resType a ∉ resType <$> l -> table_valid (l ++ [a]).
Proof.
  intros [HF HN] Ha Hn. split; [by apply Forall_app_2, Forall_singleton|]. rewrite fmap_app. apply NoDup_app.
  split_and!; [done| |apply NoDup_singleton]. intros x Hx ->%list_elem_of_singleton. done.
Qed.

Lemma fill_elems l' l st : filled l st -> table_valid l ->
  if decide (table_valid (l ++ l')) then exists st', mfold fill_elem l' st = Ok st' /\ filled (l ++ l') st'
  else mfold fill_elem l' st = Throw NVCV_ERROR_INVALID_ARGUMENT.
Proof.
  revert l st. induction l' as [|a l' IH]; intros l st Hf Hv.
  - rewrite app_nil_r, decide_True by done. by exists st.
  - cbn [mfold]. destruct (decide (entry_valid a /\ resType a ∉ resType <$> l)) as [[Ha Hn]|Hbad].
    + destruct (fill_elem_ok l st a Hf Ha Hn) as (st1 & -> & Hf1). cbn [mbind outcome_bind].
      specialize (IH _ _ Hf1 (table_valid_step _ _ Hv Ha Hn)). by rewrite <- app_assoc in IH.
    + rewrite (fill_elem_bad l) by done. rewrite decide_False; [done|]. by intros ?%table_valid_snoc.
Qed.

Lemma given_Some l t : t ∈ resType <$> l -> exists a, given l t = Some a /\ resType a = t /\ a ∈ l.
Proof.
  intros (a & -> & Ha)%list_elem_of_fmap. unfold given. destruct (filter _ l) as [|b l'] eqn:E.
  - assert (a ∈ filter (fun x => resType x = resType a) l) as H by (by apply list_elem_of_filter). rewrite E in H. by apply not_elem_of_nil in H.
  - assert (b ∈ filter (fun x => resType x = resType a) l) as H by (rewrite E; by left).
    apply list_elem_of_filter in H as [? ?]. by exists b.
Qed.

(** The entry of a kind in a finished table. *)
Definition entry (self : Z) (l : list NVCVResourceAllocator) (k : resource) : NVCVResourceAllocator :=
  default (MkResourceAllocator self (resource_type k) (Some (DefaultFunc k)) (Some (DefaultFunc k)) None) (given l (resource_type k)).

(** The state of the second loop before round [i]. *)
Definition completed (self : Z) (l : list NVCVResourceAllocator) (i : Z) (st : list NVCVResourceAllocator * Z) : Prop :=
  length st.1 = 3%nat /\ forall k,
    st.1 !! Z.to_nat (resource_type k) =
      Some (if resource_type k <? i then entry self l k else default no_allocator (given l (resource_type k))) /\
    Z.testbit st.2 (resource_type k) = (resource_type k <? i) || bool_decide (resource_type k ∈ resType <$> l).

Lemma fill_default_step self l i st : 0 <= i < 3 -> completed self l i st ->
  exists st', fill_default self st i = Ok st' /\ completed self l (i + 1) st'.
Proof.
  intros Hi [Hlen HF]. assert (exists k, i = resource_type k) as [k ->].
  { destruct (decide (i = 0)) as [->|]; [by exists host_mem|]. destruct (decide (i = 1)) as [->|]; [by exists cuda_mem|].
    exists host_pinned_mem. cbn. lia. }
  destruct st as [ms fm]. unfold fill_default. destruct (HF k) as [_ Hb]. cbn [fst snd] in *.
  rewrite Z.ltb_irrefl in Hb. rewrite land_bit_zero, Hb, negb_involutive by lia.
  assert (forall k', (resource_type k' <? resource_type k + 1) = bool_decide (k' = k) || (resource_type k' <? resource_type k)) as HL.
  { intros k'. destruct (decide (k' = k)) as [->|D].
    { rewrite bool_decide_eq_true_2 by done. apply Z.ltb_lt. lia. }
    rewrite bool_decide_eq_false_2 by done. assert (resource_type k' <> resource_type k) by (by intros ?%resource_type_inj). cbn [orb].
    destruct (Z.ltb_spec (resource_type k') (resource_type k + 1)), (Z.ltb_spec (resource_type k') (resource_type k)); lia || done. }
  case_bool_decide as Hin; cbn [orb].
  - exists (ms, fm). split; [done|]. split; [done|]. intros k'. destruct (HF k') as [F1 F2]. cbn [fst snd]. rewrite F1, F2, HL.
    destruct (decide (k' = k)) as [->|D]; [rewrite (bool_decide_eq_true_2 (k = k)) by done|by rewrite (bool_decide_eq_false_2 (k' = k)) by done].
    cbn [orb]. rewrite Z.ltb_irrefl, bool_decide_eq_true_2 by done. split; [|done].
    unfold entry. by destruct (given_Some _ _ Hin) as (a & -> & _).
  - unfold DefaultAllocator_doGet. rewrite of_resource_type_code. cbn [mbind outcome_bind].
    set (a := MkResourceAllocator _ _ _ _ _).
    assert (wr ms (resource_type k) a = Ok (<[Z.to_nat (resource_type k) := a]> ms)) as -> by (apply wr_Ok; split; [lia|done]).
    eexists. split; [done|]. split; [cbn [fst]; by rewrite length_insert|]. intros k'. destruct (HF k') as [F1 F2]. cbn [fst snd].
    rewrite testbit_set, F2, HL by lia. pose proof (resource_type_range k'). destruct (decide (k' = k)) as [->|Hne].
    + rewrite bool_decide_eq_true_2, Z.eqb_refl, !orb_true_r by done. split; [|done]. rewrite list_lookup_insert_eq by lia.
      unfold entry. by rewrite given_None.
    + assert (resource_type k <> resource_type k') by (by intros ?%resource_type_inj).
      rewrite (bool_decide_eq_false_2 (k' = k)), (proj2 (Z.eqb_neq _ _)), orb_false_r by done. cbn [orb]. split; [|done].
      by rewrite list_lookup_insert_ne by lia.
Qed.

Lemma land_all fm : (forall k, Z.testbit fm (resource_type k) = true) -> Z.land fm 7 = 7.
Proof.
  intros H. apply Z.bits_inj'. intros i Hi. rewrite Z.land_spec. change 7 with (2 ^ 3 - 1). rewrite pow2_mask by lia.
  destruct (Z.leb_spec 0 i), (Z.ltb_spec i 3); try lia. cbn [andb]. rewrite andb_true_r.
  destruct (decide (i = 0)) as [->|]; [apply (H host_mem)|]. destruct (decide (i = 1)) as [->|]; [apply (H cuda_mem)|].
  replace i with (resource_type host_pinned_mem) by (cbn; lia). apply H.
Qed.

(** A custom allocator is the user's functions completed with the default
    ones. The constructor accepts an array exactly when every entry is of a known
    kind of memory, has both functions, and no two are of one kind; any other is an
    invalid argument. The allocator made then answers for each kind with the
    user's entry if there is one and with the default allocator's otherwise, and
    its mask has the bits of the kinds the user gave. *)
Theorem custom_allocator_table self arr :
  if decide (table_valid arr) then
    exists c, CustomAllocator_construct self (Some arr) (Z.of_nat (length arr)) = Ok c /\
      (forall k, get self (Custom c) (resource_type k) = Ok (entry self arr k)) /\
      (forall k, Z.testbit (m_customAllocatorMask c) (resource_type k) = bool_decide (resource_type k ∈ resType <$> arr))
  else CustomAllocator_construct self (Some arr) (Z.of_nat (length arr)) = Throw NVCV_ERROR_INVALID_ARGUMENT.
Proof.
  unfold CustomAllocator_construct. cbn [bool_decide andb throw_if].
  assert (mfold (fill_custom (Some arr)) (zrange 0 (Z.of_nat (length arr))) (replicate 3 no_allocator, 0) =
    mfold fill_elem arr (replicate 3 no_allocator, 0)) as ->.
  { apply (mfold_rd arr fill_elem). pose proof (rd_slice arr 0 (Z.of_nat (length arr)) ltac:(lia) ltac:(lia)) as H.
    by rewrite slice_take, Nat2Z.id, take_ge in H by lia. }
  pose proof (fill_elems arr [] _ filled_start ltac:(by split; constructor)) as HF. cbn [app] in HF.
  destruct (decide (table_valid arr)); [|by rewrite HF]. destruct HF as (st & -> & Hlen & Hst). cbn [mbind outcome_bind].
  destruct (mfold_zrange (fill_default self) (completed self arr) 0 NVCV_NUM_RESOURCE_TYPES st) as (st' & -> & Hlen' & Hst').
  - done.
  - split; [done|]. intros k. pose proof (resource_type_range k). by rewrite (proj2 (Z.ltb_ge (resource_type k) 0)) by lia.
  - intros i s. apply fill_default_step.
  - cbn [mbind outcome_bind]. change (Z.shiftl 1 NVCV_NUM_RESOURCE_TYPES - 1) with 7.
    assert (forall k, resource_type k <? NVCV_NUM_RESOURCE_TYPES = true) as HL.
    { intros k. apply Z.ltb_lt, resource_type_range. }
    rewrite land_all by (intros k; destruct (Hst' k) as [_ ->]; by rewrite HL).
    eexists. split; [done|]. cbn [m_customAllocatorMask]. split; intros k; [|apply Hst].
    pose proof (resource_type_range k). unfold get. rewrite HL, (proj2 (Z.leb_le 0 _)) by lia. cbn [andb nvcv_assert m_allocators].
    apply rd_Ok. split; [lia|]. destruct (Hst' k) as [-> _]. by rewrite HL.
Qed.
