(* ===== verification/Workspace.v ===== *)
(** * Workspaces of the operators
    ([cvcuda/Workspace.hpp], [cvcuda/priv/WorkspaceEstimator.hpp],
    [cvcuda/priv/WorkspaceAllocator.hpp])

    An operator announces the scratch memory it needs by adding its entries to an
    estimator, and later takes the entries one after the other from the memory it
    is given. The element type [T] of an entry is its [sizeof]; the calls of the
    CUDA runtime succeed or fail as an argument says, and are recorded. *)
From S2P Require Import Prelude Effects MathUtil Align.
From stdpp Require Import options.

#[local] Open Scope Z_scope.

(** ** Requirements *)

Record WorkspaceMemRequirements := MkMemReq { size : Z; alignment : Z }.

Record WorkspaceRequirements := MkReq {
  hostReq : WorkspaceMemRequirements; pinnedReq : WorkspaceMemRequirements; cudaReq : WorkspaceMemRequirements }.

Definition MaxWorkspaceReq (a b : WorkspaceMemRequirements) : outcome WorkspaceMemRequirements :=
  nvcv_assert ((size a =? 0) || (0 <? alignment a)) (
  nvcv_assert ((size b =? 0) || (0 <? alignment b)) (
  let ret_alignment := if alignment a <? alignment b then alignment b else alignment a in
  let ret_size := if size a <? size b then size b else size a in
  nvcv_assert (Z.land ret_alignment (wrapu 64 (ret_alignment - 1)) =? 0) (
  Ok (MkMemReq (AlignUp ret_size ret_alignment) ret_alignment)))).

Definition MaxWorkspaceReqs (a b : WorkspaceRequirements) : outcome WorkspaceRequirements :=
  h ← MaxWorkspaceReq (hostReq a) (hostReq b);
  p ← MaxWorkspaceReq (pinnedReq a) (pinnedReq b);
  c ← MaxWorkspaceReq (cudaReq a) (cudaReq b);
  Ok (MkReq h p c).

Definition AlignUpReq (r : WorkspaceMemRequirements) : WorkspaceMemRequirements :=
  MkMemReq (AlignUp (size r) (alignment r)) (alignment r).

Definition AlignUpReqs (ws : WorkspaceRequirements) : WorkspaceRequirements :=
  MkReq (AlignUpReq (hostReq ws)) (AlignUpReq (pinnedReq ws)) (AlignUpReq (cudaReq ws)).

(** ** Estimation *)

Definition max_align_t : Z := 16.
Definition kDefaultPinnedAlignment : Z := 256.
Definition kDefaultDeviceAlignment : Z := 256.

(** An entry: [add<T>(count, alignment)] or [get<T>(count, alignment)]. *)
Record entry := Entry { sizeof_T : Z; alignof_T : Z; e_count : Z; e_alignment : Z }.

Definition WorkspaceMemEstimator (initial_size base_alignment : Z) : WorkspaceMemRequirements :=
  MkMemReq initial_size base_alignment.

Definition add (req : WorkspaceMemRequirements) (e : entry) : WorkspaceMemRequirements :=
  let req_alignment := if alignment req <? e_alignment e then e_alignment e else alignment req in
  let req_size := AlignUp (size req) (e_alignment e) in
  MkMemReq (wrapu 64 (req_size + AlignUp (wrapu 64 (e_count e * sizeof_T e)) (e_alignment e))) req_alignment.

Definition WorkspaceEstimator : WorkspaceRequirements :=
  MkReq (WorkspaceMemEstimator 0 max_align_t) (WorkspaceMemEstimator 0 kDefaultPinnedAlignment)
        (WorkspaceMemEstimator 0 kDefaultDeviceAlignment).

Definition addHost (w : WorkspaceRequirements) (e : entry) : WorkspaceRequirements :=
  MkReq (add (hostReq w) e) (pinnedReq w) (cudaReq w).
Definition addPinned (w : WorkspaceRequirements) (e : entry) : WorkspaceRequirements :=
  MkReq (hostReq w) (add (pinnedReq w) e) (cudaReq w).
Definition addCuda (w : WorkspaceRequirements) (e : entry) : WorkspaceRequirements :=
  MkReq (hostReq w) (pinnedReq w) (add (cudaReq w) e).

Definition addTo (w : WorkspaceRequirements) (host pinned cuda : bool) (e : entry) : WorkspaceRequirements :=
  let w := if host then addHost w e else w in
  let w := if pinned then addPinned w e else w in
  if cuda then addCuda w e else w.

(** ** Allocation *)

(** A null event or an absent stream is [None]. *)
Record WorkspaceMem := MkMem { req : WorkspaceMemRequirements; data : Z; ready : option Z }.

Inductive cuda_call :=
| cudaStreamWaitEvent (stream event : Z)
| cudaEventSynchronize (event : Z)
| cudaEventRecord (event stream : Z).

#[global] Instance cuda_call_eq_dec : EqDecision cuda_call.
Proof. solve_decision. Defined.

Record WorkspaceMemAllocator := MkAlloc {
  m_mem : WorkspaceMem;
  m_offset : Z;
  m_acquired : bool;
  m_released : bool;
  m_acquireStream : option Z;
  m_releaseStream : option Z;
  m_calls : list cuda_call (** the calls of the runtime so far, the last one first *)
}.

Definition make_allocator (mem : WorkspaceMem) (acquireStream releaseStream : option Z) : WorkspaceMemAllocator :=
  MkAlloc mem 0 false false acquireStream releaseStream [].

(** [std::logic_error], which the C interface reports as an internal error. *)
Abbreviation logic_error := NVCV_ERROR_INTERNAL.

Definition capacity (s : WorkspaceMemAllocator) : Z := size (req (m_mem s)).
Definition allocated (s : WorkspaceMemAllocator) : Z := m_offset s.

Definition set_offset (o : Z) (s : WorkspaceMemAllocator) : WorkspaceMemAllocator :=
  MkAlloc (m_mem s) o (m_acquired s) (m_released s) (m_acquireStream s) (m_releaseStream s) (m_calls s).
Definition set_acquired (s : WorkspaceMemAllocator) : WorkspaceMemAllocator :=
  MkAlloc (m_mem s) (m_offset s) true (m_released s) (m_acquireStream s) (m_releaseStream s) (m_calls s).
Definition set_released (s : WorkspaceMemAllocator) : WorkspaceMemAllocator :=
  MkAlloc (m_mem s) (m_offset s) (m_acquired s) true (m_acquireStream s) (m_releaseStream s) (m_calls s).
Definition add_call (c : cuda_call) (s : WorkspaceMemAllocator) : WorkspaceMemAllocator :=
  MkAlloc (m_mem s) (m_offset s) (m_acquired s) (m_released s) (m_acquireStream s) (m_releaseStream s) (c :: m_calls s).

Section Allocator.
(** Whether a call of the runtime succeeds, given the calls before it. *)
Context (cudaSuccess : list cuda_call -> cuda_call -> bool).

Abbreviation A := (M WorkspaceMemAllocator).

(** [if (call != cudaSuccess) throw Exception(ERROR_INTERNAL, ...)]. *)
Definition check_call (c : cuda_call) : A unit := fun s =>
  (add_call c s, if cudaSuccess (m_calls s) c then Ok tt else Throw NVCV_ERROR_INTERNAL).

Definition acquire (stream : option Z) : A unit :=
  s ← Effects.get;
  _ ← lift (throw_if (m_acquired s) logic_error (Ok tt));
  _ ← lift (throw_if (m_released s) logic_error (Ok tt));
  _ ← match ready (m_mem s) with
      | Some event =>
          match stream with
          | Some stream => check_call (cudaStreamWaitEvent stream event)
          | None => check_call (cudaEventSynchronize event)
          end
      | None => mret tt
      end;
  modify set_acquired.

(** The memory a [get] would hand out next: the pointer and the new offset. *)
Definition place (s : WorkspaceMemAllocator) (e : entry) : Z * Z :=
  let offset := AlignUp (m_offset s) (e_alignment e) in
  let ret := data (m_mem s) + offset in
  let real_size := AlignUp (wrapu 64 (e_count e * sizeof_T e)) (e_alignment e) in
  (ret, wrapu 64 (offset + real_size)).

Definition get (e : entry) : A Z :=
  _ ← lift (nvcv_assert (alignof_T e <=? e_alignment e) (Ok tt));
  s ← Effects.get;
  _ ← lift (throw_if (m_released s) logic_error (Ok tt));
  _ ← (if negb (m_acquired s) && (0 <? e_count e) then acquire (m_acquireStream s) else mret tt);
  s ← Effects.get;
  _ ← lift (throw_if (negb (Z.land (data (m_mem s)) (wrapu 64 (e_alignment e - 1)) =? 0))
             NVCV_ERROR_INVALID_ARGUMENT (Ok tt));
  let '(ret, offset) := place s e in
  _ ← lift (throw_if (size (req (m_mem s)) <? offset) NVCV_ERROR_OUT_OF_MEMORY (Ok tt));
  _ ← modify (set_offset offset);
  mret ret.

Definition release (stream : option Z) : A unit :=
  s ← Effects.get;
  _ ← lift (throw_if (m_released s) logic_error (Ok tt));
  _ ← match ready (m_mem s) with
      | Some event =>
          if negb (m_offset s =? 0) then
            _ ← lift (nvcv_assert (m_acquired s) (Ok tt));
            match stream with
            | Some stream => check_call (cudaEventRecord event stream)
            | None => mret tt
            end
          else mret tt
      | None => mret tt
      end;
  modify set_released.

(** The destructor; an exception in it terminates the program. *)
Definition destroy : A unit := fun s =>
  if m_released s then (s, Ok tt) else
  let '(s, r) := release (m_releaseStream s) s in (s, noexcept r).

(** Several entries, one after the other. *)
Fixpoint get_all (es : list entry) : A (list Z) :=
  match es with
  | [] => mret []
  | e :: es => p ← get e; ps ← get_all es; mret (p :: ps)
  end.
End Allocator.

(** ** The sizes of entries *)

Definition bytes (e : entry) : Z := e_count e * sizeof_T e.

Definition entry_ok (e : entry) : Prop :=
  0 < sizeof_T e /\ 0 <= e_count e /\ pow2_word (e_alignment e) /\ alignof_T e <= e_alignment e.

(** The end of the entry when the memory before it ends at [o]. *)
Definition need (o : Z) (e : entry) : Z := round_up o (e_alignment e) + round_up (bytes e) (e_alignment e).

Lemma entry_bytes e : entry_ok e -> 0 <= bytes e.
Proof. intros (? & ? & _). unfold bytes. lia. Qed.

Lemma need_bounds o e : entry_ok e -> 0 <= o ->
  o <= round_up o (e_alignment e) /\ round_up o (e_alignment e) + bytes e <= need o e.
Proof.
  intros He Ho. pose proof (entry_bytes e He). destruct He as (_ & _ & Ha & _). apply pow2_word_range in Ha.
  destruct (RoundUp_spec o (e_alignment e)) as [? _]; [lia..|].
  destruct (RoundUp_spec (bytes e) (e_alignment e)) as [? _]; [lia..|]. unfold need. lia.
Qed.

Lemma needs_le es o : Forall entry_ok es -> 0 <= o -> o <= foldl need o es.
Proof.
  intros Hes. revert o. induction Hes as [|e es He _ IH]; intros o Ho; cbn; [lia|].
  destruct (need_bounds o e He Ho). pose proof (entry_bytes e He). etrans; [|apply IH]; lia.
Qed.

(** An entry whose end stays within 2^63 is computed without wrapping. *)
Lemma entry_words o e : entry_ok e -> 0 <= o -> need o e <= 2 ^ 63 ->
  AlignUp o (e_alignment e) = round_up o (e_alignment e) /\
  AlignUp (wrapu 64 (bytes e)) (e_alignment e) = round_up (bytes e) (e_alignment e) /\
  wrapu 64 (round_up o (e_alignment e) + round_up (bytes e) (e_alignment e)) = need o e.
Proof.
  intros He Ho Hn. pose proof (need_bounds o e He Ho). pose proof (entry_bytes e He).
  destruct He as (_ & _ & Ha & _). pose proof (pow2_word_range _ Ha).
  split_and!; [apply AlignUp_RoundUp; (done || lia) | |].
  - rewrite wrapu_small by (unfold in_u; lia). apply AlignUp_RoundUp; (done || lia).
  - apply wrapu_small. unfold in_u, need in *. lia.
Qed.

Lemma add_spec r e : entry_ok e -> 0 <= size r -> need (size r) e <= 2 ^ 63 ->
  add r e = MkMemReq (need (size r) e) (Z.max (alignment r) (e_alignment e)).
Proof.
  intros He Hr Hn. destruct (entry_words (size r) e He Hr Hn) as (E1 & E2 & E3).
  unfold add. fold (bytes e). rewrite E1, E2, E3. f_equal. destruct (Z.ltb_spec (alignment r) (e_alignment e)); lia.
Qed.

Lemma place_spec s e : entry_ok e -> 0 <= m_offset s -> need (m_offset s) e <= 2 ^ 63 ->
  place s e = (data (m_mem s) + round_up (m_offset s) (e_alignment e), need (m_offset s) e).
Proof.
  intros He Hr Hn. destruct (entry_words (m_offset s) e He Hr Hn) as (E1 & E2 & E3).
  unfold place. fold (bytes e). by rewrite E1, E2, E3.
Qed.

(** ** Requirements that cover others *)

(** Memory that meets [r] meets [a]. *)
Definition covers (a r : WorkspaceMemRequirements) : Prop := size a <= size r /\ (alignment a | alignment r).

#[global] Instance covers_preorder : PreOrder covers.
Proof.
  split; [by intros a; split|]. intros a b c [? ?] [? ?]. split; [lia|]. by etrans.
Qed.

Lemma add_covers es r : Forall entry_ok es -> pow2_word (alignment r) -> 0 <= size r ->
  foldl need (size r) es <= 2 ^ 63 ->
  covers r (foldl add r es) /\ Forall (fun e => (e_alignment e | alignment (foldl add r es))) es /\
  size (foldl add r es) = foldl need (size r) es.
Proof.
  intros Hes. revert r. induction Hes as [|e es He Hes IH]; intros r Ha Hs Hn; [done|]. cbn [foldl] in *.
  assert (need (size r) e <= 2 ^ 63) as Hn1.
  { etrans; [apply (needs_le es)|exact Hn]; [done|]. pose proof (need_bounds _ _ He Hs). pose proof (entry_bytes e He). lia. }
  rewrite add_spec in * by done. pose proof (need_bounds _ _ He Hs). pose proof (entry_bytes e He).
  assert (pow2_word (e_alignment e)) as Hae by apply He.
  destruct (IH (MkMemReq (need (size r) e) (Z.max (alignment r) (e_alignment e)))) as (Hc & HF & HE);
    [by apply pow2_word_max|cbn; lia|done|]. cbn [size alignment] in *.
  assert ((alignment r | Z.max (alignment r) (e_alignment e)) /\ (e_alignment e | Z.max (alignment r) (e_alignment e))) as [D1 D2].
  { split; apply pow2_word_div; (done || lia || by apply pow2_word_max). }
  split_and!; [|constructor; [|done]|done].
  - etrans; [|exact Hc]. split; [cbn; lia|done].
  - destruct Hc as [_ Hd]. by etrans.
Qed.

(** ** Taking the entries *)

Section Runtime.
Context (cudaSuccess : list cuda_call -> cuda_call -> bool).

(** The call that waits for the memory. *)
Definition wait_call (stream : option Z) (event : Z) : cuda_call :=
  match stream with Some stream => cudaStreamWaitEvent stream event | None => cudaEventSynchronize event end.

Lemma acquire_run stream s : m_acquired s = false -> m_released s = false ->
  acquire cudaSuccess stream s =
    match ready (m_mem s) with
    | Some event =>
        let c := wait_call stream event in
        if cudaSuccess (m_calls s) c then (set_acquired (add_call c s), Ok tt) else (add_call c s, Throw NVCV_ERROR_INTERNAL)
    | None => (set_acquired s, Ok tt)
    end.
Proof.
  intros Ha Hr. unfold acquire. rewrite get_run, !guard_run, Ha, Hr. destruct (ready (m_mem s)); [|done].
  rewrite bind_run. destruct stream; cbn [wait_call]; unfold check_call; by destruct cudaSuccess.
Qed.

(** [get] after the memory was acquired, if that was due. *)
Definition get_tail (e : entry) : M WorkspaceMemAllocator Z := fun s =>
  if negb (IsAligned (data (m_mem s)) (e_alignment e)) then (s, Throw NVCV_ERROR_INVALID_ARGUMENT) else
  let '(ret, offset) := place s e in
  if size (req (m_mem s)) <? offset then (s, Throw NVCV_ERROR_OUT_OF_MEMORY) else (set_offset offset s, Ok ret).

Lemma get_cases e s : alignof_T e <= e_alignment e -> get cudaSuccess e s =
  if m_released s then (s, Throw logic_error) else
  if negb (m_acquired s) && (0 <? e_count e) then
    match acquire cudaSuccess (m_acquireStream s) s with
    | (s, Ok _) => get_tail e s
    | (s, Throw st) => (s, Throw st)
    | (s, Stuck) => (s, Stuck)
    end
  else get_tail e s.
Proof.
  intros Hal. unfold get. erewrite lift_run by (unfold nvcv_assert; by rewrite (proj2 (Z.leb_le _ _) Hal)).
  rewrite get_run, guard_run. destruct (m_released s); [done|]. rewrite bind_run.
  assert (forall s, (s ← Effects.get;
    _ ← lift (throw_if (negb (Z.land (data (m_mem s)) (wrapu 64 (e_alignment e - 1)) =? 0)) NVCV_ERROR_INVALID_ARGUMENT (Ok tt));
    let '(ret, offset) := place s e in
    _ ← lift (throw_if (size (req (m_mem s)) <? offset) NVCV_ERROR_OUT_OF_MEMORY (Ok tt));
    _ ← modify (set_offset offset); mret ret) s = get_tail e s) as HT.
  { intros s1. rewrite get_run, guard_run. unfold get_tail, IsAligned. destruct negb; [done|].
    destruct (place s1 e) as [p o]. rewrite guard_run. by destruct (size _ <? o). }
  destruct (negb _ && _).
  - destruct acquire as [s1 [a| |]]; [apply HT|done..].
  - apply HT.
Qed.

(** A successful [get] puts the entry behind the earlier ones. *)
Lemma get_ok e s : (forall h c, cudaSuccess h c = true) -> entry_ok e -> m_released s = false -> 0 <= m_offset s ->
  need (m_offset s) e <= 2 ^ 63 -> need (m_offset s) e <= capacity s -> (e_alignment e | data (m_mem s)) ->
  exists s', get cudaSuccess e s = (s', Ok (data (m_mem s) + round_up (m_offset s) (e_alignment e))) /\
    m_offset s' = need (m_offset s) e /\ m_mem s' = m_mem s /\ m_released s' = false.
Proof.
  intros Hcuda He Hr Ho Hn Hc Hd. assert (forall s1, m_offset s1 = m_offset s -> m_mem s1 = m_mem s ->
    get_tail e s1 = (set_offset (need (m_offset s) e) s1, Ok (data (m_mem s) + round_up (m_offset s) (e_alignment e)))) as HT.
  { intros s1 Eo Em. unfold get_tail. rewrite place_spec by (done || by rewrite Eo). rewrite Eo, Em.
    rewrite (proj2 (IsAligned_spec _ _ (proj1 (proj2 (proj2 He)))) Hd). cbn [negb].
    destruct (Z.ltb_spec (size (req (m_mem s))) (need (m_offset s) e)); [unfold capacity in Hc; lia|done]. }
  rewrite get_cases by apply He. rewrite Hr. destruct (m_acquired s) eqn:Ea, (0 <? e_count e); cbn [negb andb];
    try (rewrite HT by done; by eexists).
  rewrite acquire_run by done. destruct (ready (m_mem s)); cbv zeta; rewrite ?Hcuda, HT by done; by eexists.
Qed.

(** The entries lie in [lo, hi), one behind the other, each aligned. *)
Fixpoint laid_out (lo hi : Z) (es : list entry) (ps : list Z) : Prop :=
  match es, ps with
  | [], [] => lo <= hi
  | e :: es, p :: ps => lo <= p /\ (e_alignment e | p) /\ laid_out (p + bytes e) hi es ps
  | _, _ => False
  end.

Lemma laid_out_hi es ps lo hi hi' : hi <= hi' -> laid_out lo hi es ps -> laid_out lo hi' es ps.
Proof. revert lo ps. induction es as [|e es IH]; intros lo [|p ps]; cbn; intros; naive_solver lia. Qed.

Lemma laid_out_le es ps lo lo' hi : lo <= lo' -> laid_out lo' hi es ps -> laid_out lo hi es ps.
Proof. destruct es, ps; cbn; intros; naive_solver lia. Qed.

Lemma get_all_ok es s : (forall h c, cudaSuccess h c = true) -> Forall entry_ok es -> m_released s = false -> 0 <= m_offset s ->
  foldl need (m_offset s) es <= 2 ^ 63 -> foldl need (m_offset s) es <= capacity s ->
  Forall (fun e => (e_alignment e | data (m_mem s))) es ->
  exists s' ps, get_all cudaSuccess es s = (s', Ok ps) /\ m_offset s' = foldl need (m_offset s) es /\
    laid_out (data (m_mem s) + m_offset s) (data (m_mem s) + foldl need (m_offset s) es) es ps.
Proof.
  intros Hcuda Hes. revert s. induction Hes as [|e es He Hes IH]; intros s Hr Ho Hn Hc Hd.
  - exists s, []. split_and!; [done|done|cbn; lia].
  - cbn [foldl] in *. pose proof (need_bounds _ _ He Ho) as [B1 B2]. pose proof (entry_bytes e He).
    pose proof (needs_le es (need (m_offset s) e) Hes ltac:(lia)). apply Forall_cons_1 in Hd as [Hd Hds].
    destruct (get_ok e s) as (s1 & E1 & Eo & Em & Er); [done..|lia|lia|done|].
    destruct (IH s1) as (s2 & ps & E2 & Eo2 & HL); [done|lia| | | |].
    + by rewrite Eo.
    + unfold capacity. by rewrite Eo, Em.
    + by rewrite Em.
    + exists s2, (data (m_mem s) + round_up (m_offset s) (e_alignment e) :: ps). split_and!.
      * cbn [get_all]. by rewrite bind_run, E1, bind_run, E2.
      * by rewrite Eo2, Eo.
      * cbn [laid_out]. rewrite Eo, Em in HL. split_and!; [lia| |].
        -- apply Z.divide_add_r; [done|]. destruct He as (_ & _ & Ha & _). apply pow2_word_range in Ha.
           apply RoundUp_spec; lia.
        -- eapply laid_out_le; [|exact HL]. lia.
Qed.
End Runtime.

(** ** What estimates and requirements promise *)

(** An estimate is enough: memory that meets the requirement of an estimator
    serves the entries added to it, taken in the same order. While the sizes fit,
    every [get] succeeds, the entries lie inside the estimated size, each behind
    the one before and aligned as asked for, and all of the estimate is used. *)
Lemma estimate_serves cudaSuccess es base mem acquireStream releaseStream :
  (forall h c, cudaSuccess h c = true) -> Forall entry_ok es -> pow2_word base -> foldl need 0 es <= 2 ^ 63 ->
  covers (foldl add (WorkspaceMemEstimator 0 base) es) (req mem) -> (alignment (req mem) | data mem) ->
  let r := foldl add (WorkspaceMemEstimator 0 base) es in
  exists s ps, get_all cudaSuccess es (make_allocator mem acquireStream releaseStream) = (s, Ok ps) /\
    allocated s = size r /\ laid_out (data mem) (data mem + size r) es ps.
Proof.
  intros Hcuda Hes Hbase Hfit Hmem Hal r. destruct (add_covers es (WorkspaceMemEstimator 0 base) Hes Hbase) as (Hc & HF & HE); [cbn; lia|done|].
  fold r in Hmem, Hc, HF, HE. destruct Hmem as [Hsz Hd].
  assert ((alignment r | data mem)) as Hdata by (by etrans; [|exact Hal]).
  destruct (get_all_ok cudaSuccess es (make_allocator mem acquireStream releaseStream)) as (s & ps & E & Eo & HL);
    [done|done|done|cbn; lia|done|unfold capacity; cbn -[Z.pow] in *; lia| |].
  - eapply Forall_impl; [exact HF|]. intros e He. cbn. by apply (Z.divide_trans _ _ _ He).
  - exists s, ps. split_and!; [done| |].
    + unfold allocated. by rewrite Eo, HE.
    + cbn in HL. rewrite Z.add_0_r in HL. by rewrite HE.
Qed.

(** [MaxWorkspaceReq] is the least requirement that covers both: memory that
    meets it serves either, its size is a multiple of its alignment, and every
    other such requirement asks for at least as much. *)
Theorem max_workspace_least a b (Ha : pow2_word (alignment a)) (Hb : pow2_word (alignment b))
  (Hsa : 0 <= size a) (Hsb : 0 <= size b)
  (Hfit : Z.max (size a) (size b) + Z.max (alignment a) (alignment b) <= 2 ^ 64) :
  exists r, MaxWorkspaceReq a b = Ok r /\ MaxWorkspaceReq b a = Ok r /\ covers a r /\ covers b r /\ (alignment r | size r) /\
    forall r', pow2_word (alignment r') -> covers a r' -> covers b r' -> (alignment r' | size r') -> covers r r'.
Proof.
  set (al := Z.max (alignment a) (alignment b)). set (sz := Z.max (size a) (size b)).
  assert (pow2_word al) as Hal by (by apply pow2_word_max).
  pose proof (pow2_word_range _ Ha). pose proof (pow2_word_range _ Hb). pose proof (pow2_word_range _ Hal).
  exists (MkMemReq (round_up sz al) al).
  assert (forall x y, pow2_word (alignment x) -> pow2_word (alignment y) ->
    Z.max (alignment x) (alignment y) = al -> Z.max (size x) (size y) = sz -> MaxWorkspaceReq x y = Ok (MkMemReq (round_up sz al) al)) as HM.
  { intros x y Hx Hy E1 E2. unfold MaxWorkspaceReq, nvcv_assert.
    rewrite (proj2 (Z.ltb_lt 0 (alignment x))), (proj2 (Z.ltb_lt 0 (alignment y))) by (by apply pow2_word_range). rewrite !orb_true_r.
    replace (if alignment x <? alignment y then alignment y else alignment x) with al by (destruct (Z.ltb_spec (alignment x) (alignment y)); lia).
    replace (if size x <? size y then size y else size x) with sz by (destruct (Z.ltb_spec (size x) (size y)); lia).
    rewrite pow2_word_assert by done. cbn [Z.eqb]. by rewrite AlignUp_RoundUp by (done || lia). }
  destruct (RoundUp_spec sz al) as [HR Hdiv]; [lia..|].
  split_and!; [by apply HM|apply HM; (done || lia)| | |done|].
  - split; cbn; [lia|]. apply pow2_word_div; (done || lia).
  - split; cbn; [lia|]. apply pow2_word_div; (done || lia).
  - intros r' Hp [? D1] [? D2] Hd. assert ((al | alignment r')) as D.
    { subst al. by destruct (Z.max_spec (alignment a) (alignment b)) as [[_ ->]|[_ ->]]. }
    split; [|done]. apply RoundUp_le_multiple; [lia..|]. by etrans.
Qed.

(** ** The life of an allocator *)

Inductive operation := Get (e : entry) | Acquire (stream : option Z) | Release (stream : option Z).

(** A client keeps the precondition of [get]. *)
Definition operation_ok (o : operation) : Prop := match o with Get e => entry_ok e | _ => True end.

Section Life.
Context (cudaSuccess : list cuda_call -> cuda_call -> bool).

Definition run (o : operation) : M WorkspaceMemAllocator unit :=
  match o with
  | Get e => _ ← get cudaSuccess e; mret tt
  | Acquire stream => acquire cudaSuccess stream
  | Release stream => release cudaSuccess stream
  end.

(** The states that operations lead to, failed ones included. *)
Inductive reached : WorkspaceMemAllocator -> Prop :=
| reached_new mem sa sr : reached (make_allocator mem sa sr)
| reached_run o s : reached s -> operation_ok o -> reached (run o s).1.

(** A successful wait for the event is among the calls. *)
Definition awaited (event : Z) (calls : list cuda_call) : Prop :=
  exists before stream after, calls = after ++ wait_call stream event :: before /\ cudaSuccess before (wait_call stream event) = true.

Definition ready_awaited (s : WorkspaceMemAllocator) : Prop :=
  forall event, ready (m_mem s) = Some event -> awaited event (m_calls s).

Record allocator_inv (s : WorkspaceMemAllocator) : Prop := {
  inv_offset : 0 <= m_offset s;
  inv_acquired : m_offset s <> 0 -> m_acquired s = true;
  inv_awaited : m_acquired s = true -> ready_awaited s }.

Lemma awaited_cons event c calls : awaited event calls -> awaited event (c :: calls).
Proof. intros (b & st & a & -> & H). by exists b, st, (c :: a). Qed.

Lemma acquire_inv stream s : allocator_inv s ->
  let r := acquire cudaSuccess stream s in
  allocator_inv r.1 /\ r.2 <> Stuck /\ (r.2 = Ok tt -> m_acquired r.1 = true) /\
  m_mem r.1 = m_mem s /\ m_offset r.1 = m_offset s.
Proof.
  intros I. pose proof I as [I1 I2 I3]. cbv zeta. destruct (m_acquired s) eqn:Ea.
  { unfold acquire. rewrite get_run, guard_run, Ea. done. }
  destruct (m_released s) eqn:Er.
  { unfold acquire. rewrite get_run, !guard_run, Ea, Er. done. }
  rewrite acquire_run by done. destruct (ready (m_mem s)) as [event|] eqn:Ee; cbv zeta.
  - destruct cudaSuccess eqn:Ec; cbn; split_and!; try done; constructor; cbn; try done; rewrite ?Ea; try done.
    intros _ ev. cbn. rewrite Ee. intros [= <-]. by exists (m_calls s), stream, [].
  - cbn. split_and!; try done. constructor; cbn; try done. intros _ ev. cbn. by rewrite Ee.
Qed.

Lemma place_nonneg s e : pow2_word (e_alignment e) -> 0 <= m_offset s ->
  0 <= (place s e).2 /\ (m_offset s = 0 -> e_count e = 0 -> (place s e).2 = 0).
Proof.
  intros Ha Ho. split; [apply wrapu_range; lia|]. intros E1 E2. pose proof (pow2_word_range _ Ha). unfold place. cbn [snd].
  rewrite E1, E2. change (wrapu 64 (0 * _)) with 0. rewrite !AlignUp_RoundUp by (done || lia).
  by rewrite RoundUp_multiple by (lia || apply Z.divide_0_r).
Qed.

Lemma get_tail_inv e s : entry_ok e -> allocator_inv s -> (e_count e <> 0 -> m_acquired s = true) ->
  let r := get_tail e s in
  allocator_inv r.1 /\ r.2 <> Stuck /\ m_mem r.1 = m_mem s /\
  (is_ok r.2 = true -> (0 < e_count e -> ready_awaited r.1) /\ m_offset r.1 <= capacity s).
Proof.
  intros (_ & _ & Ha & _) I Hc. pose proof I as [I1 I2 I3]. cbv zeta. destruct (place_nonneg s e Ha I1) as [P1 P2]. unfold get_tail.
  destruct negb; [done|]. destruct (place s e) as [p o]. cbn [snd] in *.
  destruct (Z.ltb_spec (size (req (m_mem s))) o); cbn [fst snd].
  { done. }
  split_and!; [|done|done|].
  - constructor; cbn; [lia| |done]. intros Hne. destruct (Z.eq_dec (m_offset s) 0); [|by apply I2].
    destruct (Z.eq_dec (e_count e) 0); [by rewrite P2 in Hne|by apply Hc].
  - intros _. split; [|done]. intros Hpos. apply I3, Hc. lia.
Qed.

Lemma get_inv e s : entry_ok e -> allocator_inv s ->
  let r := get cudaSuccess e s in
  allocator_inv r.1 /\ r.2 <> Stuck /\
  (is_ok r.2 = true -> (0 < e_count e -> ready_awaited r.1) /\ m_offset r.1 <= capacity r.1).
Proof.
  intros He I. assert (0 <= e_count e) as Hn by apply He. cbv zeta. rewrite get_cases by apply He.
  assert (forall s, allocator_inv s -> (e_count e <> 0 -> m_acquired s = true) ->
    allocator_inv (get_tail e s).1 /\ (get_tail e s).2 <> Stuck /\
    (is_ok (get_tail e s).2 = true -> (0 < e_count e -> ready_awaited (get_tail e s).1) /\ m_offset (get_tail e s).1 <= capacity (get_tail e s).1)) as HT.
  { intros s1 I1 Hc. destruct (get_tail_inv e s1 He I1 Hc) as (H1 & H2 & Em & H3). split_and!; [done..|].
    unfold capacity. by rewrite Em. }
  destruct (m_released s); [done|]. destruct (m_acquired s) eqn:Ea; cbn [negb andb]; [by apply HT|].
  destruct (Z.ltb_spec 0 (e_count e)); [|apply HT; (done || lia)].
  destruct (acquire_inv (m_acquireStream s) s I) as (I1 & Hs & Hacq & _). destruct acquire as [s1 [[]| |]]; cbn in *; [|done..].
  apply HT; [done|]. intros _. by apply Hacq.
Qed.

Lemma set_released_inv s : allocator_inv s -> allocator_inv (set_released s).
Proof. intros [I1 I2 I3]. by constructor. Qed.

Lemma add_call_inv c s : allocator_inv s -> allocator_inv (add_call c s).
Proof.
  intros [I1 I2 I3]. constructor; [done|done|]. intros Ha ev Hev. cbn in *. apply awaited_cons. by apply I3.
Qed.

Lemma release_inv stream s : allocator_inv s ->
  let r := release cudaSuccess stream s in
  allocator_inv r.1 /\ r.2 <> Stuck /\
  (r.2 = Ok tt -> m_released r.1 = true /\
    forall event st, ready (m_mem s) = Some event -> stream = Some st -> m_offset s <> 0 ->
      m_calls r.1 = cudaEventRecord event st :: m_calls s /\ cudaSuccess (m_calls s) (cudaEventRecord event st) = true).
Proof.
  intros I. cbv zeta. unfold release. rewrite get_run, guard_run. destruct (m_released s); [done|].
  destruct (ready (m_mem s)) as [event|]; [|by split_and!; [apply set_released_inv|..]].
  destruct (Z.eqb_spec (m_offset s) 0) as [Eo|Hne]; cbn [negb].
  { split_and!; [by apply set_released_inv|done|]. by split. }
  rewrite (inv_acquired _ I Hne), bind_run. erewrite lift_run by done.
  destruct stream as [st|]; [|by split_and!; [apply set_released_inv|..]]. unfold check_call.
  destruct (cudaSuccess (m_calls s) (cudaEventRecord event st)) eqn:Ec;
    (split_and!; [try apply set_released_inv; by apply add_call_inv|done|]); [|done].
  intros _. split; [done|]. by intros ? ? [= <-] [= <-] _.
Qed.

Lemma reached_inv s : reached s -> allocator_inv s.
Proof.
  induction 1 as [mem sa sr|o s _ IH Ho]; [by constructor; cbn|]. destruct o as [e|st|st]; cbn [run].
  - rewrite bind_run. destruct (get_inv e s Ho IH) as (H & _). by destruct get as [s1 [| |]].
  - by apply acquire_inv.
  - by apply release_inv.
Qed.

(** Where a successful [get] puts an entry whose end does not wrap. *)
Lemma get_tail_place e s s' p : entry_ok e -> 0 <= m_offset s -> need (m_offset s) e <= 2 ^ 63 -> get_tail e s = (s', Ok p) ->
  m_mem s' = m_mem s /\ m_offset s' = need (m_offset s) e /\ m_offset s' <= capacity s /\
  (e_alignment e | data (m_mem s)) /\ p = data (m_mem s) + round_up (m_offset s) (e_alignment e).
Proof.
  intros He Ho Hn. unfold get_tail. destruct (IsAligned _ _) eqn:Ea; cbn [negb]; [|done].
  apply IsAligned_spec in Ea; [|apply He]. rewrite place_spec by done.
  destruct (Z.ltb_spec (size (req (m_mem s))) (need (m_offset s) e)); [done|]. intros [= <- <-]. by split_and!.
Qed.

Lemma get_place e s s' p : entry_ok e -> allocator_inv s -> need (m_offset s) e <= 2 ^ 63 -> get cudaSuccess e s = (s', Ok p) ->
  data (m_mem s) + m_offset s <= p /\ (e_alignment e | p) /\ p + bytes e <= data (m_mem s) + m_offset s' /\
  m_offset s' <= capacity s.
Proof.
  intros He I Hn. assert (forall s1, m_mem s1 = m_mem s -> m_offset s1 = m_offset s -> get_tail e s1 = (s', Ok p) ->
    data (m_mem s) + m_offset s <= p /\ (e_alignment e | p) /\ p + bytes e <= data (m_mem s) + m_offset s' /\ m_offset s' <= capacity s) as HT.
  { intros s1 Em Eo E. pose proof (inv_offset _ I). apply get_tail_place in E as (_ & E2 & E3 & E4 & ->); [|done|lia|by rewrite Eo].
    unfold capacity in *. rewrite Em, Eo in *. destruct (need_bounds (m_offset s) e He) as [B1 B2]; [done|].
    split_and!; [lia| |lia|done]. apply Z.divide_add_r; [done|]. destruct He as (_ & _ & Ha & _). apply pow2_word_range in Ha. by apply RoundUp_spec; lia. }
  rewrite get_cases by apply He. destruct (m_released s); [done|]. destruct (negb _ && _); [|by apply HT].
  destruct (acquire_inv (m_acquireStream s) s I) as (_ & _ & _ & Em & Eo). destruct acquire as [s1 [[]| |]]; cbn in *; [|done..]. by apply HT.
Qed.

(** C32: Workspace memory is used between its events. In every state that any
    operations lead to, failed ones and failing calls of the runtime included, for
    entries with elements of positive size and a power of two as alignment that is at
    least their type's, no operation runs into an assertion; a [get] of at least one element that
    succeeds comes after a successful wait for the event of the memory; what it hands
    out, if its end as an integer is at most 2^63, is aligned as asked for and lies
    behind what was handed out before and inside the memory (a size that wraps around
    2^64 is not noticed, as [huge_count_wraps] shows); and a release on a stream of
    memory in use succeeds only with the event recorded on that stream. *)
Theorem workspace_synchronized s (Hs : reached s) :
  (forall o, operation_ok o -> (run o s).2 <> Stuck) /\
  (forall e s' p, entry_ok e -> 0 < e_count e -> get cudaSuccess e s = (s', Ok p) ->
    ready_awaited s' /\ (need (m_offset s) e <= 2 ^ 63 ->
      data (m_mem s) + m_offset s <= p /\ (e_alignment e | p) /\ p + bytes e <= data (m_mem s) + m_offset s' /\
      m_offset s' <= capacity s)) /\
  (forall st s' event, release cudaSuccess (Some st) s = (s', Ok tt) -> ready (m_mem s) = Some event -> allocated s <> 0 ->
    m_released s' = true /\ m_calls s' = cudaEventRecord event st :: m_calls s /\
    cudaSuccess (m_calls s) (cudaEventRecord event st) = true).
Proof.
  apply reached_inv in Hs as I. split_and!.
  - intros [e|st|st] Ho; cbn [run].
    + rewrite bind_run. destruct (get_inv e s Ho I) as (_ & H & _). by destruct get as [s1 [| |]].
    + by apply acquire_inv.
    + by apply release_inv.
  - intros e s' p He Hn E. destruct (get_inv e s He I) as (_ & _ & H). rewrite E in H. destruct (H eq_refl) as [H1 H2]. split; [by apply H1|]. intros Hneed. by apply (get_place e s s' p).
  - intros st s' event E Hev Hne. destruct (release_inv (Some st) s I) as (_ & _ & H). rewrite E in H.
    destruct (H eq_refl) as [H1 H2]. destruct (H2 event st Hev eq_refl Hne). by split_and!.
Qed.
End Life.

(** ** Concrete runs *)

Module Concrete.

(** The runtime always succeeds. *)
Definition cuda_ok (h : list cuda_call) (c : cuda_call) : bool := true.

Definition mem0 : WorkspaceMem := MkMem (MkMemReq 64 16) 4096 (Some 7).

Definition bytes_entry (n : Z) : entry := Entry 1 1 n 1.
Definition words_entry (n : Z) : entry := Entry 8 8 n 8.

Lemma words_entry_ok n : 0 <= n -> entry_ok (words_entry n).
Proof. intros Hn. split_and!; cbn; [lia|done|by exists 3|lia]. Qed.

Lemma max_workspace_least_witness : exists r, MaxWorkspaceReq (MkMemReq 100 16) (MkMemReq 40 256) = Ok r /\ size r = 256.
Proof.
  destruct (max_workspace_least (MkMemReq 100 16) (MkMemReq 40 256)) as (r & E & _);
    [by exists 4|by exists 8|cbn; lia|cbn; lia|cbn; lia|]. exists r. split; [exact E|].
  vm_compute in E. by injection E as <-.
Defined.

(** After one [get] and before the release. *)
Definition s1 : WorkspaceMemAllocator := (run cuda_ok (Get (words_entry 3)) (make_allocator mem0 (Some 1) (Some 1))).1.

Lemma s1_reached : reached cuda_ok s1.
Proof. apply reached_run; [apply reached_new|apply words_entry_ok; lia]. Qed.

Lemma workspace_synchronized_witness :
  allocated s1 = 24 /\ m_calls (run cuda_ok (Release (Some 2)) s1).1 = [cudaEventRecord 7 2; cudaStreamWaitEvent 1 7] /\
  ready_awaited cuda_ok (get cuda_ok (words_entry 1) s1).1.
Proof.
  destruct (workspace_synchronized cuda_ok s1 s1_reached) as (_ & Hg & Hr). split_and!; [done| |].
  - destruct (Hr 2 (run cuda_ok (Release (Some 2)) s1).1 7) as (_ & E & _); [done|done|done|]. exact E.
  - by apply (Hg (words_entry 1) (get cuda_ok (words_entry 1) s1).1 (4096 + 24)); [apply words_entry_ok|..].
Defined.

(** The order of the entries matters: three bytes and two words added in this
    order fit into what was estimated; taken in the other order they need more. *)
Definition est_order : WorkspaceMemRequirements := foldl add (WorkspaceMemEstimator 0 1) [words_entry 1; bytes_entry 1].

Lemma order_matters :
  est_order = MkMemReq 9 8 /\
  is_ok (get_all cuda_ok [words_entry 1; bytes_entry 1] (make_allocator (MkMem est_order 4096 None) None None)).2 = true /\
  (get_all cuda_ok [bytes_entry 1; words_entry 1] (make_allocator (MkMem est_order 4096 None) None None)).2 = Throw NVCV_ERROR_OUT_OF_MEMORY.
Proof. split_and!; reflexivity. Qed.

(** A count so large that the end of the entry wraps is not refused, and the next
    entry is placed on the memory already handed out. *)
Lemma huge_count_wraps :
  (get_all cuda_ok [bytes_entry 16; bytes_entry (2 ^ 64 - 16); bytes_entry 16] (make_allocator mem0 None None)).2 = Ok [4096; 4112; 4096].
Proof. reflexivity. Qed.

(** When the record of the event fails, the destructor throws: the program ends. *)
Lemma failed_record_terminates :
  (destroy (fun _ c => match c with cudaEventRecord _ _ => false | _ => true end) s1).2 = Stuck.
Proof. reflexivity. Qed.

End Concrete.
