(* ===== verification/WorkspaceOwner.v ===== *)
(** * Ownership of workspaces ([cvcuda/Workspace.hpp])

    [AllocateWorkspace] takes up to three blocks from an allocator and hands them
    to a [UniqueWorkspace], whose deleter gives them back. Allocation is all or
    nothing, and a workspace allocated for an estimate serves what was estimated. *)
From S2P Require Import Prelude MathUtil Align Allocators Effects Workspace.
From stdpp Require Import options.

#[local] Open Scope Z_scope.

(** ** Workspaces *)

Record NVCVWorkspace := MkWorkspace { hostMem : WorkspaceMem; pinnedMem : WorkspaceMem; cudaMem : WorkspaceMem }.

Definition no_mem : WorkspaceMem := MkMem (MkMemReq 0 0) 0 None.
Definition no_workspace : NVCVWorkspace := MkWorkspace no_mem no_mem no_mem.

(** A deleter changes the workspace it is given. *)
Definition deleter : Type := NVCVWorkspace -> M heap NVCVWorkspace.

Record UniqueWorkspace := MkUnique { m_impl : NVCVWorkspace; m_del : option deleter }.

Definition empty_unique : UniqueWorkspace := MkUnique no_workspace None.

(** [reset()] is [noexcept]. *)
Definition reset (u : UniqueWorkspace) : M heap UniqueWorkspace :=
  match m_del u with
  | Some del => fun h => let '(h, r) := del (m_impl u) h in (h, noexcept (_ ← r; Ok empty_unique))
  | None => mret u
  end.

(** [a = std::move(b)] for two objects: the new [a] and [b]. *)
Definition move_assign (a b : UniqueWorkspace) : M heap (UniqueWorkspace * UniqueWorkspace) :=
  let '(a, b) := (b, a) in
  b ← reset b;
  mret (a, b).

(** [a = std::move(a)]. *)
Definition self_move_assign (a : UniqueWorkspace) : M heap UniqueWorkspace := reset a.

(** ** Allocation *)

Section Allocation.
(** The answers of the system, of the user's functions, and whether waiting for an
    event succeeds; the allocator given, if any, and the address of the default one. *)
Context (system : heap -> resource -> Z -> Z -> outcome Z)
        (user : heap -> Z -> Z -> Z -> Z -> outcome Z)
        (synchronize : Z -> bool) (self : Z).

(** [if (!alloc) alloc = CustomAllocator<>{}]. *)
Definition allocator_or_default (alloc : option IAllocator) : outcome IAllocator :=
  match alloc with Some a => Ok a | None => nvcvAllocatorConstructCustom self (Some []) 0 end.

(** [alloc.hostMem()], [alloc.hostPinnedMem()], [alloc.cudaMem()]. *)
Definition mem_allocator (a : IAllocator) (k : resource) : outcome NVCVResourceAllocator :=
  r ← Allocators.get self a (resource_type k);
  throw_if (negb (resType r =? resource_type k)) NVCV_ERROR_INVALID_ARGUMENT (Ok r).

(** The deleter's steps for one kind of memory; [std::runtime_error] when the wait fails. *)
Definition del_mem (a : IAllocator) (k : resource) (m : WorkspaceMem) : M heap WorkspaceMem :=
  if data m =? 0 then mret m else
  _ ← match ready m with
      | Some event => lift (throw_if (negb (synchronize event)) NVCV_ERROR_INTERNAL (Ok tt))
      | None => mret tt
      end;
  r ← lift (mem_allocator a k);
  _ ← MemAllocator_free r k (data m) (size (req m)) (alignment (req m));
  mret (MkMem (req m) 0 (ready m)).

Definition del (a : IAllocator) : deleter := fun ws =>
  h ← del_mem a host_mem (hostMem ws);
  p ← del_mem a host_pinned_mem (pinnedMem ws);
  c ← del_mem a cuda_mem (cudaMem ws);
  mret (MkWorkspace h p c).

(** [if (req.size) data = alloc(req.size, req.alignment)]: the data pointer. *)
Definition alloc_mem (a : IAllocator) (k : resource) (r : WorkspaceMemRequirements) : M heap Z :=
  if size r =? 0 then mret 0 else
  ra ← lift (mem_allocator a k);
  MemAllocator_alloc system user ra k (size r) (alignment r).

(** [try { m } catch (...) { del(ws); throw; }]. *)
Definition or_del {A} (a : IAllocator) (ws : NVCVWorkspace) (m : M heap A) : M heap A := fun h =>
  match m h with
  | (h, Throw st) => match del a ws h with (h, Ok _) => (h, Throw st) | (h, Throw st') => (h, Throw st') | (h, Stuck) => (h, Stuck) end
  | r => r
  end.

(** The workspace with the requirements [r] and these data pointers. *)
Definition ws_of (r : WorkspaceRequirements) (h p c : Z) : NVCVWorkspace :=
  MkWorkspace (MkMem (hostReq r) h None) (MkMem (pinnedReq r) p None) (MkMem (cudaReq r) c None).

Definition AllocateWorkspace (r : WorkspaceRequirements) (alloc : option IAllocator) : M heap UniqueWorkspace :=
  a ← lift (allocator_or_default alloc);
  h ← or_del a (ws_of r 0 0 0) (alloc_mem a host_mem (hostReq r));
  p ← or_del a (ws_of r h 0 0) (alloc_mem a host_pinned_mem (pinnedReq r));
  c ← or_del a (ws_of r h p 0) (alloc_mem a cuda_mem (cudaReq r));
  mret (MkUnique (ws_of r h p c) (Some (del a))).

(** ** Freeing *)

(** The blocks a workspace owns. *)
Definition mem_blocks (k : resource) (m : WorkspaceMem) : heap :=
  new_block k (data m) (i64 (size (req m))) (i32 (alignment (req m))) [].

Definition blocks (ws : NVCVWorkspace) : heap :=
  mem_blocks host_mem (hostMem ws) ++ mem_blocks host_pinned_mem (pinnedMem ws) ++ mem_blocks cuda_mem (cudaMem ws).

(** An allocator that answers for each kind of memory with its two functions;
    a function of the default allocator is the one for that kind. *)
Definition allocator_ok (a : IAllocator) : Prop :=
  forall k, exists r, mem_allocator a k = Ok r /\ fnFree r <> None /\
    exists f, fnAlloc r = Some f /\ forall k', f = DefaultFunc k' -> k' = k.

Definition events_ready (ws : NVCVWorkspace) : Prop :=
  Forall (fun m => forall e, ready m = Some e -> synchronize e = true) [hostMem ws; pinnedMem ws; cudaMem ws].

(** Freeing takes one block of the heap away. *)
Lemma free_block_run k p sz al h : p <> 0 -> Block k p sz al ∈ h ->
  exists h', free_block k p sz al h = (h', Ok tt) /\ h ≡ₚ Block k p sz al :: h'.
Proof.
  intros Hp Hin. unfold free_block. rewrite (proj2 (Z.eqb_neq p 0)) by done.
  destruct (list_find_elem_of (eq (Block k p sz al)) h _ Hin eq_refl) as [[i b] E].
  rewrite E. apply list_find_Some in E as (Hi & <- & _). eexists. split; [done|]. by apply delete_Permutation.
Qed.

Lemma del_mem_run a k m h h0 : allocator_ok a -> (forall e, ready m = Some e -> synchronize e = true) -> h ≡ₚ mem_blocks k m ++ h0 ->
  exists h', del_mem a k m h = (h', Ok (MkMem (req m) 0 (ready m))) /\ h' ≡ₚ h0.
Proof.
  intros Ha Hr HP. unfold del_mem, mem_blocks, new_block in *. destruct (Z.eqb_spec (data m) 0) as [E|Hne].
  - exists h. split; [|done]. destruct m. cbn in E. by subst.
  - rewrite bind_run. assert ((match ready m with
      | Some event => lift (throw_if (negb (synchronize event)) NVCV_ERROR_INTERNAL (Ok tt)) | None => mret tt end) h = (h, Ok tt)) as ->.
    { destruct (ready m) as [e|]; [|done]. by rewrite Hr. }
    destruct (Ha k) as (r & Er & Hf & _). erewrite lift_run by exact Er. unfold MemAllocator_free.
    destruct (fnFree r); [|done]. destruct (free_block_run k (data m) (i64 (size (req m))) (i32 (alignment (req m))) h) as (h' & Ef & HP').
    { done. } { rewrite HP. by left. }
    exists h'. rewrite bind_run, Ef. split; [done|]. eapply Permutation.Permutation_cons_inv. by rewrite <- HP', HP.
Qed.

Lemma del_run a ws h h0 : allocator_ok a -> events_ready ws -> h ≡ₚ blocks ws ++ h0 -> exists h' ws', del a ws h = (h', Ok ws') /\ h' ≡ₚ h0.
Proof.
  intros Ha HF HP. unfold events_ready in HF. rewrite !Forall_cons in HF. destruct HF as (H1 & H2 & H3 & _).
  unfold blocks in HP. rewrite <- !app_assoc in HP. unfold del.
  destruct (del_mem_run _ _ _ _ _ Ha H1 HP) as (h1 & E1 & P1). destruct (del_mem_run _ _ _ _ _ Ha H2 P1) as (h2 & E2 & P2).
  destruct (del_mem_run _ _ _ _ _ Ha H3 P2) as (h3 & E3 & P3).
  exists h3. eexists. rewrite bind_run, E1, bind_run, E2, bind_run, E3. done.
Qed.

(** ** Allocating *)

(** Nothing, or an alignment that fits an [int32_t] and a size, passed as an
    [int64_t], that can be rounded up to it. *)
Definition req_ok (r : WorkspaceMemRequirements) : Prop :=
  size r = 0 \/ (pow2_word (alignment r) /\ alignment r <= 2 ^ 30 /\ i64 (size r) + alignment r < 2 ^ 63).

(** Outcomes are results or exceptions. *)
Definition answers_ok : Prop :=
  (forall h k sz al, system h k sz al <> Stuck) /\ (forall h id context sz al, user h id context sz al <> Stuck).

Lemma i32_alignment al : pow2_word al -> al <= 2 ^ 30 -> i32 al = al.
Proof. intros Ha Hle. apply pow2_word_range in Ha. apply wraps_small; [lia|]. unfold in_s. lia. Qed.

Lemma alloc_checks_cases sz al : pow2_word al -> al <= 2 ^ 30 -> sz + al < 2 ^ 63 ->
  alloc_checks sz al = if (0 <=? sz) && (round_up sz al =? sz) then Ok tt else Throw NVCV_ERROR_INVALID_ARGUMENT.
Proof.
  intros Ha Hle Hs. pose proof (pow2_word_range _ Ha). unfold alloc_checks.
  assert (IsPowerOfTwo al = true) as ->. { destruct Ha as (k & ? & ->). apply IsPowerOfTwo_pow2. lia. }
  destruct (Z.ltb_spec sz 0), (Z.leb_spec 0 sz); try lia; [done|]. cbn [throw_if negb].
  rewrite int32_ok by (unfold in_s; lia). cbn [mbind outcome_bind]. rewrite RoundUp_round_up by lia.
  rewrite (proj2 (Z.ltb_lt _ _)) by lia. cbn. by destruct (round_up sz al =? sz).
Qed.

Lemma call_alloc_run f context k sz al h : answers_ok -> pow2_word al -> al <= 2 ^ 30 -> sz + al < 2 ^ 63 ->
  (forall k', f = DefaultFunc k' -> k' = k) ->
  exists h' o, call_alloc system user f context k sz al h = (h', o) /\
    match o with Ok p => h' = new_block k p sz al h | Throw _ => h' = h | Stuck => False end.
Proof.
  intros [Hs Hu] Ha Hle Hsz Hk. destruct f as [k'|id]; cbn [call_alloc].
  - rewrite (Hk k') by done. unfold default_alloc. rewrite bind_run. unfold lift at 1. rewrite alloc_checks_cases by done.
    destruct (_ && _); [|by eexists _, _]. unfold default_doAlloc. rewrite get_run, bind_run. unfold lift at 1.
    destruct (system h k sz al) as [p|st|] eqn:E; [|by eexists _, _|by apply Hs in E].
    destruct k; [by eexists _, _|..]; rewrite guard_run; destruct (negb _); by eexists _, _.
  - rewrite get_run, bind_run. unfold lift. destruct (user h id context sz al) as [p|st|] eqn:E;
      [by eexists _, _|by eexists _, _|by apply Hu in E].
Qed.

Lemma alloc_mem_run a k r h : answers_ok -> allocator_ok a -> req_ok r ->
  exists h' o, alloc_mem a k r h = (h', o) /\
    match o with Ok p => h' = mem_blocks k (MkMem r p None) ++ h | Throw _ => h' = h | Stuck => False end.
Proof.
  intros Hans Ha Hr. unfold alloc_mem. destruct (Z.eqb_spec (size r) 0) as [E|Hne]; [by eexists _, _|].
  destruct Hr as [|(Hp & Hle & Hsz)]; [done|]. destruct (Ha k) as (ra & Er & _ & f & Ef & Hf). erewrite lift_run by exact Er.
  unfold MemAllocator_alloc. rewrite Ef.
  destruct (call_alloc_run f (ctx ra) k (i64 (size r)) (i32 (alignment r)) h Hans) as (h' & o & E & Ho);
    [by rewrite i32_alignment..|done|].
  exists h', o. split; [done|]. destruct o as [p| |]; [|done..]. rewrite Ho. unfold mem_blocks, new_block. cbn [data req].
  by destruct (p =? 0).
Qed.

(** A failed allocation gives back what was allocated before it. *)
Lemma or_del_run a k r ws h h0 : answers_ok -> allocator_ok a -> req_ok r -> events_ready ws -> h ≡ₚ blocks ws ++ h0 ->
  exists h' o, or_del a ws (alloc_mem a k r) h = (h', o) /\
    match o with Ok p => h' = mem_blocks k (MkMem r p None) ++ h | Throw _ => h' ≡ₚ h0 | Stuck => False end.
Proof.
  intros Hans Ha Hr Hev HP. unfold or_del. destruct (alloc_mem_run a k r h Hans Ha Hr) as (h' & o & -> & Ho).
  destruct o as [p|st|]; [by eexists _, _| |done]. subst h'.
  destruct (del_run a ws h h0 Ha Hev HP) as (h'' & ws' & -> & HP''). by eexists _, _.
Qed.

(** C33: Allocating a workspace is all or nothing, and resetting it gives back
    exactly what was allocated. For requirements each of which is of size 0, or has a
    power of two up to 2^30 as alignment and a size that rounds up to it below 2^63
    (the allocator divides by an alignment of 0, and its rounding overflows beyond),
    with any sound allocator and whatever result or error the system and
    the user's functions answer, [AllocateWorkspace] either returns a workspace
    whose blocks are the only new ones, and a reset then leaves the memory as it
    was and the workspace empty; or it throws with the memory as it was. *)
Theorem allocate_all_or_nothing alloc a r h (Hans : answers_ok) (Halloc : allocator_or_default alloc = Ok a) (Ha : allocator_ok a)
  (Hh : req_ok (hostReq r)) (Hp : req_ok (pinnedReq r)) (Hc : req_ok (cudaReq r)) :
  exists h' o, AllocateWorkspace r alloc h = (h', o) /\
    match o with
    | Ok u => h' ≡ₚ blocks (m_impl u) ++ h /\ exists h'', reset u h' = (h'', Ok empty_unique) /\ h'' ≡ₚ h
    | Throw _ => h' ≡ₚ h
    | Stuck => False
    end.
Proof.
  unfold AllocateWorkspace. erewrite lift_run by exact Halloc.
  assert (forall h p c, events_ready (ws_of r h p c)) as Hev by (intros; by repeat constructor).
  rewrite bind_run. destruct (or_del_run a host_mem (hostReq r) (ws_of r 0 0 0) h h) as (h1 & o1 & -> & H1); [done..|].
  destruct o1 as [p1|st|]; [|by eexists _, _|done].
  rewrite bind_run. destruct (or_del_run a host_pinned_mem (pinnedReq r) (ws_of r p1 0 0) h1 h) as (h2 & o2 & -> & H2);
    [done..|subst; unfold blocks; cbn; by rewrite app_nil_r|].
  destruct o2 as [p2|st|]; [|by eexists _, _|done].
  assert (h2 ≡ₚ blocks (ws_of r p1 p2 0) ++ h) as P2 by (subst; unfold blocks; cbn [ws_of hostMem pinnedMem cudaMem]; solve_Permutation).
  rewrite bind_run. destruct (or_del_run a cuda_mem (cudaReq r) (ws_of r p1 p2 0) h2 h) as (h3 & o3 & -> & H3); [done..|].
  destruct o3 as [p3|st|]; [|by eexists _, _|done].
  assert (h3 ≡ₚ blocks (ws_of r p1 p2 p3) ++ h) as P3 by (subst; unfold blocks; cbn [ws_of hostMem pinnedMem cudaMem]; solve_Permutation).
  eexists _, _. split; [done|]. split; [done|]. unfold reset. cbn [m_del m_impl].
  destruct (del_run a (ws_of r p1 p2 p3) h3 h Ha (Hev _ _ _) P3) as (h4 & ws' & -> & P4). by exists h4.
Qed.
End Allocation.

(** ** From the estimate to the memory *)

(** A call of [WorkspaceEstimator::add]: where, and the entry. *)
Record request := Request { on_host : bool; on_pinned : bool; on_cuda : bool; what : entry }.

Definition estimate (rs : list request) : WorkspaceRequirements :=
  foldl (fun w r => addTo w (on_host r) (on_pinned r) (on_cuda r) (what r)) WorkspaceEstimator rs.

Definition wanted (k : resource) (r : request) : bool :=
  match k with host_mem => on_host r | cuda_mem => on_cuda r | host_pinned_mem => on_pinned r end.

(** The entries in one kind of memory. *)
Definition entries (k : resource) (rs : list request) : list entry :=
  omap (fun r => if wanted k r then Some (what r) else None) rs.

Definition req_for (k : resource) (w : WorkspaceRequirements) : WorkspaceMemRequirements :=
  match k with host_mem => hostReq w | cuda_mem => cudaReq w | host_pinned_mem => pinnedReq w end.

Definition mem_for (k : resource) (w : NVCVWorkspace) : WorkspaceMem :=
  match k with host_mem => hostMem w | cuda_mem => cudaMem w | host_pinned_mem => pinnedMem w end.

Definition base_alignment (k : resource) : Z :=
  match k with host_mem => max_align_t | _ => 256 end.

Lemma base_pow2 k : pow2_word (base_alignment k).
Proof. destruct k; unfold base_alignment, max_align_t; [exists 4|exists 8|exists 8]; by split; [lia|]. Qed.

Lemma estimate_for k rs : req_for k (estimate rs) = foldl add (WorkspaceMemEstimator 0 (base_alignment k)) (entries k rs).
Proof.
  assert (forall w, req_for k (foldl (fun w r => addTo w (on_host r) (on_pinned r) (on_cuda r) (what r)) w rs) =
    foldl add (req_for k w) (entries k rs)) as H; [|unfold estimate; rewrite H; by destruct k].
  induction rs as [|r rs IH]; intros w; [done|]. cbn [foldl]. rewrite IH. unfold entries. cbn.
  by destruct r as [[] [] [] e], k.
Qed.

Lemma AlignUpReqs_for k w : req_for k (AlignUpReqs w) = AlignUpReq (req_for k w).
Proof. by destruct k. Qed.

Lemma add_alignment_le es r b : alignment r <= b -> Forall (fun e => e_alignment e <= b) es -> alignment (foldl add r es) <= b.
Proof.
  intros Hr Hes. revert r Hr. induction Hes as [|e es He _ IH]; intros r Hr; [done|]. apply IH. unfold add. cbn [alignment].
  by destruct (_ <? _).
Qed.

Lemma add_alignment_pow2 es r : pow2_word (alignment r) -> Forall entry_ok es -> pow2_word (alignment (foldl add r es)).
Proof.
  intros Hr Hes. revert r Hr. induction Hes as [|e es He _ IH]; intros r Hr; [done|]. apply IH. unfold add. cbn [alignment].
  destruct (_ <? _); [apply He|done].
Qed.

(** The largest alignment that can be relied on: [aligned_alloc] returns host memory
    aligned as asked for, which an [int32_t] says; memory of the CUDA runtime is aligned
    to at least 256 bytes, whatever is asked for. *)
Definition largest_alignment (k : resource) : Z := match k with host_mem => 2 ^ 30 | _ => 256 end.

Definition small_entry (k : resource) (e : entry) : Prop := entry_ok e /\ e_alignment e <= largest_alignment k.

Lemma largest_alignment_le k : largest_alignment k <= 2 ^ 30.
Proof. by destruct k. Qed.

(** The requirement for one kind of memory, aligned. *)
Lemma aligned_requirement k rs : Forall (small_entry k) (entries k rs) -> foldl need 0 (entries k rs) <= 2 ^ 62 ->
  let r := req_for k (AlignUpReqs (estimate rs)) in
  covers (req_for k (estimate rs)) r /\ pow2_word (alignment r) /\ alignment r <= largest_alignment k /\
  0 <= size r /\ size r + alignment r < 2 ^ 63 /\ (alignment r | size r).
Proof.
  intros Hes Hfit r. pose proof (base_pow2 k) as B1. pose proof (largest_alignment_le k).
  assert (base_alignment k <= largest_alignment k) as B2 by (by destruct k).
  assert (Forall entry_ok (entries k rs)) as Hok by (eapply Forall_impl; [exact Hes|by intros e []]).
  destruct (add_covers (entries k rs) (WorkspaceMemEstimator 0 (base_alignment k)) Hok B1) as (Hc & _ & HE);
    [cbn; lia|cbn [WorkspaceMemEstimator size]; lia|].
  assert (alignment (req_for k (estimate rs)) <= largest_alignment k) as Hle.
  { rewrite estimate_for. apply add_alignment_le; [done|]. eapply Forall_impl; [exact Hes|by intros e []]. }
  assert (pow2_word (alignment (req_for k (estimate rs)))) as Hp by (rewrite estimate_for; by apply add_alignment_pow2).
  rewrite <- estimate_for in *. pose proof (pow2_word_range _ Hp). pose proof (needs_le _ 0 Hok ltac:(lia)).
  subst r. rewrite AlignUpReqs_for. unfold AlignUpReq. cbn [size alignment WorkspaceMemEstimator] in *.
  rewrite AlignUp_RoundUp by (done || lia). destruct (RoundUp_spec (size (req_for k (estimate rs))) (alignment (req_for k (estimate rs))));
    [lia..|]. split_and!; [split; cbn; [lia|done]|done|done|lia|lia|done].
Qed.

Section EndToEnd.
Context (system : heap -> resource -> Z -> Z -> outcome Z) (user : heap -> Z -> Z -> Z -> Z -> outcome Z)
        (synchronize : Z -> bool) (self : Z) (cudaSuccess : list cuda_call -> cuda_call -> bool).

(** The system has memory. What [aligned_alloc] returns is aligned as asked for, and
    what the CUDA runtime returns to 256 bytes. *)
Definition system_serves : Prop :=
  forall h k sz al, 0 < sz -> pow2_word al -> (al | sz) ->
    exists p, system h k sz al = Ok p /\ p <> 0 /\ (match k with host_mem => al | _ => 256 end | p).

Lemma default_alloc_mem k r h : system_serves -> pow2_word (alignment r) -> alignment r <= largest_alignment k ->
  0 <= size r -> size r + alignment r < 2 ^ 63 -> (alignment r | size r) ->
  exists h' p, alloc_mem system user self Default k r h = (h', Ok p) /\ (alignment r | p).
Proof.
  intros Hsys Hp Hlim Hs Hsz Hd. pose proof (largest_alignment_le k).
  unfold alloc_mem. destruct (Z.eqb_spec (size r) 0) as [|Hne]; [exists h, 0; split; [done|apply Z.divide_0_r]|].
  pose proof (pow2_word_range _ Hp).
  assert (mem_allocator self Default k = Ok (MkResourceAllocator self (resource_type k) (Some (DefaultFunc k)) (Some (DefaultFunc k)) None)) as Er.
  { unfold mem_allocator, Allocators.get, DefaultAllocator_doGet. rewrite of_resource_type_code. cbn [mbind outcome_bind resType].
    by rewrite Z.eqb_refl. }
  erewrite lift_run by exact Er. unfold MemAllocator_alloc, call_alloc. cbn [fnAlloc]. unfold default_alloc.
  rewrite i32_alignment by (done || lia). rewrite wraps_small by (unfold in_s; lia).
  erewrite lift_run; [|rewrite alloc_checks_cases by (done || lia); rewrite (proj2 (Z.leb_le 0 (size r))), RoundUp_multiple, Z.eqb_refl by (done || lia); done].
  unfold default_doAlloc. rewrite get_run. destruct (Hsys h k (size r) (alignment r)) as (p & E & Hnz & Hdiv'); [lia|done|done|].
  assert (alignment r | p) as Hdiv.
  { destruct k; [done|..]; (eapply Z.divide_trans; [|exact Hdiv']); destruct Hp as (e & He & Ee); rewrite Ee in *; cbn [largest_alignment] in Hlim; change 256 with (2 ^ 8) in *;
      apply (Z.pow_le_mono_r_iff 2) in Hlim; try lia; exists (2 ^ (8 - e)); rewrite <- Z.pow_add_r by lia; f_equal; lia. }
  erewrite lift_run by exact E. eexists _, p. split; [|done].
  destruct k; [done|..]; rewrite guard_run, (proj2 (Z.mod_divide p (alignment r) ltac:(lia)) Hdiv); done.
Qed.

(** C31: From the estimate to the memory. An operator adds its entries to an
    estimator, the requirements are aligned and a workspace is allocated for them
    with the default allocator. Suppose the system has memory, which [aligned_alloc]
    aligns as asked for and the CUDA runtime to the 256 bytes it documents; that the
    alignments of entries are at most 256 in device and pinned memory (a larger one is
    checked against the address returned, and may throw) and 2^30 in host memory; that
    the sizes sum up to at most 2^62; and that the calls to CUDA succeed. Then the
    allocation succeeds - the sizes pass the allocator's checks - and in each kind
    of memory every entry can be taken, in the order they were added, each behind
    the one before, aligned as asked for and inside the allocated block. *)
Theorem workspace_serves_estimate rs h acquireStream releaseStream
  (Hsys : system_serves) (Hcuda : forall h c, cudaSuccess h c = true)
  (Hes : forall k, Forall (small_entry k) (entries k rs)) (Hfit : forall k, foldl need 0 (entries k rs) <= 2 ^ 62) :
  exists h' u, AllocateWorkspace system user synchronize self (AlignUpReqs (estimate rs)) None h = (h', Ok u) /\
    forall k, let m := mem_for k (m_impl u) in
      exists s ps, get_all cudaSuccess (entries k rs) (make_allocator m acquireStream releaseStream) = (s, Ok ps) /\
        laid_out (data m) (data m + size (req m)) (entries k rs) ps.
Proof.
  set (r := AlignUpReqs (estimate rs)).
  assert (forall k h, exists h' p, alloc_mem system user self Default k (req_for k r) h = (h', Ok p) /\ (alignment (req_for k r) | p)) as HA.
  { intros k h1. destruct (aligned_requirement k rs (Hes k) (Hfit k)) as (_ & ? & ? & ? & ? & ?). by apply default_alloc_mem. }
  destruct (HA host_mem h) as (h1 & p1 & E1 & D1). destruct (HA host_pinned_mem h1) as (h2 & p2 & E2 & D2).
  destruct (HA cuda_mem h2) as (h3 & p3 & E3 & D3). cbn [req_for] in *.
  exists h3, (MkUnique (ws_of r p1 p2 p3) (Some (del synchronize self Default))). split.
  { unfold AllocateWorkspace. erewrite lift_run by done. unfold or_del. rewrite bind_run, E1, bind_run, E2, bind_run, E3. done. }
  intros k. set (m := mem_for k _). destruct (aligned_requirement k rs (Hes k) (Hfit k)) as (Hc & _). fold r in Hc.
  assert (req m = req_for k r) as Em by (by destruct k). rewrite estimate_for in Hc.
  assert (Forall entry_ok (entries k rs)) as Hok by (eapply Forall_impl; [exact (Hes k)|by intros e []]).
  destruct (estimate_serves cudaSuccess (entries k rs) (base_alignment k) m acquireStream releaseStream Hcuda Hok)
    as (s & ps & E & _ & HL); [apply base_pow2|specialize (Hfit k); lia|by rewrite Em|rewrite Em; by destruct k|].
  exists s, ps. split; [done|]. eapply laid_out_hi; [|exact HL]. rewrite Em. destruct Hc as [Hc _]. lia.
Qed.
End EndToEnd.

(** ** Concrete runs *)

Module Concrete.

(** Memory for the host and pinned memory only. *)
Definition no_cuda (h : heap) (k : resource) (sz al : Z) : outcome Z :=
  match k with cuda_mem => Throw NVCV_ERROR_OUT_OF_MEMORY | _ => Ok (2 ^ 30 * (1 + Z.of_nat (length h))) end.

Definition no_user (h : heap) (id context sz al : Z) : outcome Z := Throw NVCV_ERROR_INTERNAL.

Definition all_ready (event : Z) : bool := true.

Lemma default_allocator_ok self : allocator_ok self Default.
Proof.
  intros k. exists (MkResourceAllocator self (resource_type k) (Some (DefaultFunc k)) (Some (DefaultFunc k)) None).
  split_and!; [by destruct k|done|]. exists (DefaultFunc k). split; [done|]. by intros k' [= ->].
Qed.

Definition req3 : WorkspaceRequirements := MkReq (MkMemReq 32 16) (MkMemReq 256 256) (MkMemReq 512 256).

Lemma allocate_all_or_nothing_witness :
  AllocateWorkspace no_cuda no_user all_ready 1 req3 None [] = ([], Throw NVCV_ERROR_OUT_OF_MEMORY).
Proof.
  destruct (allocate_all_or_nothing no_cuda no_user all_ready 1 None Default req3 []) as (h' & o & E & H).
  - by split; [intros h []|].
  - done.
  - apply default_allocator_ok.
  - right. by split; [exists 4|].
  - right. by split; [exists 8|].
  - right. by split; [exists 8|].
  - vm_compute in E. injection E as <- <-. reflexivity.
Defined.

Definition with_memory (h : heap) (k : resource) (sz al : Z) : outcome Z :=
  Ok (match k with host_mem => al | _ => 256 end * (1 + Z.of_nat (length h))).

Definition requests : list request :=
  [Request true false true (Entry 1 1 3 1); Request false true true (Entry 4 4 10 4); Request true false false (Entry 8 8 2 64)].

Lemma workspace_serves_estimate_witness :
  exists h' u, AllocateWorkspace with_memory no_user all_ready 1 (AlignUpReqs (estimate requests)) None [] = (h', Ok u) /\
    data (hostMem (m_impl u)) = 64 /\ size (req (hostMem (m_impl u))) = 128 /\ length h' = 3%nat /\
    exists s ps, get_all Workspace.Concrete.cuda_ok (entries host_mem requests) (make_allocator (hostMem (m_impl u)) None None) = (s, Ok ps).
Proof.
  destruct (workspace_serves_estimate with_memory no_user all_ready 1 Workspace.Concrete.cuda_ok requests [] None None) as (h' & u & E & H).
  - intros h k sz al _ Ha _. apply pow2_word_range in Ha. eexists.
    split_and!; [done|destruct k; lia|by apply Z.divide_factor_l].
  - done.
  - assert (forall r sz n k, 0 < sz -> 0 <= n -> 0 <= k <= 6 -> sz <= 2 ^ k -> small_entry r (Entry sz sz n (2 ^ k))) as HE.
    { intros r sz n k Hsz Hn Hk Hle. split; [|cbn [e_alignment]; transitivity (2 ^ 6); [apply Z.pow_le_mono_r; lia|by destruct r]].
      split_and!; cbn [sizeof_T e_count e_alignment alignof_T]; [lia|lia|exists k; split; [lia|done]|done]. }
    intros k. destruct k; repeat constructor; cbn;
      try (exists 0; split; [lia|reflexivity]); try (exists 2; split; [lia|reflexivity]); try (exists 6; split; [lia|reflexivity]); lia.
  - intros k. destruct k; vm_compute; discriminate.
  - exists h', u. split; [exact E|].
    assert (m_impl <$> (AllocateWorkspace with_memory no_user all_ready 1 (AlignUpReqs (estimate requests)) None []).2 = Ok (m_impl u)) as E1
      by (rewrite E; reflexivity).
    assert (length (AllocateWorkspace with_memory no_user all_ready 1 (AlignUpReqs (estimate requests)) None []).1 = length h') as E2
      by (rewrite E; reflexivity).
    destruct (H host_mem) as (s & ps & Eg & _). cbn [mem_for] in Eg. revert E1 Eg. rewrite <- E2. generalize (m_impl u). intros im E1 Eg.
    vm_compute in E1. injection E1 as <-. split_and!; [reflexivity..|]. exists s, ps. exact Eg.
Defined.

(** Requirements straight from an estimator are refused by the default allocator
    when their size is not a multiple of their alignment. *)
Lemma unaligned_requirement_refused :
  (AllocateWorkspace with_memory no_user all_ready 1 (estimate requests) None []).2 = Throw NVCV_ERROR_INVALID_ARGUMENT.
Proof. reflexivity. Qed.

(** A requirement with a size but no alignment divides by zero. *)
Lemma zero_alignment_divides :
  (AllocateWorkspace with_memory no_user all_ready 1 (MkReq (MkMemReq 16 0) (MkMemReq 0 0) (MkMemReq 0 0)) None []).2 = Stuck.
Proof. reflexivity. Qed.

(** An alignment beyond that of the CUDA runtime is left to luck: memory at the wrong
    address is freed, and the call throws. *)
Lemma larger_alignment_refused :
  (AllocateWorkspace with_memory no_user all_ready 1 (MkReq (MkMemReq 0 0) (MkMemReq 0 0) (MkMemReq 512 512)) None []).2 = Throw NVCV_ERROR_INTERNAL.
Proof. reflexivity. Qed.

(** The sum that rounds the largest sizes overflows. *)
Lemma largest_size_overflows : alloc_checks (2 ^ 63 - 256) 256 = Stuck /\ alloc_checks (2 ^ 63 - 512) 256 = Ok tt.
Proof. by vm_compute. Qed.

(** A null pointer from the allocator is not an error: the workspace is returned
    without memory, and entries are taken from it at the addresses from 0 on. *)
Lemma null_memory_handed_out :
  let ws := (AllocateWorkspace (fun _ _ _ _ => Ok 0) no_user all_ready 1 req3 None []).2 in
  (u ← ws; Ok (data (hostMem (m_impl u)), size (req (hostMem (m_impl u))))) = Ok (0, 32) /\
  (u ← ws; (get_all Workspace.Concrete.cuda_ok [Entry 8 8 2 8; Entry 8 8 1 8] (make_allocator (hostMem (m_impl u)) None None)).2) = Ok [0; 16].
Proof. split; reflexivity. Qed.

(** Moving a workspace onto itself frees its memory. *)
Lemma self_move_frees :
  let '(h, r) := AllocateWorkspace with_memory no_user all_ready 1 req3 None [] in
  length h = 3%nat /\ (u ← r; (self_move_assign u h).2) = Ok empty_unique /\ (u ← r; Ok (self_move_assign u h).1) = Ok [].
Proof. split_and!; reflexivity. Qed.

End Concrete.
