(* ===== verification/Requirements.v ===== *)
(** * Memory requirements (priv/Requirements.cpp)

    A requirement counts, for every power of two below 2^32, the blocks of that
    size needed. Buffers are added in blocks of their alignment; the size of a
    requirement is the sum of its blocks. *)
From S2P Require Import Prelude Bitfield MathUtil.
From stdpp Require Import options.

#[local] Open Scope Z_scope.

Definition NVCV_MAX_MEM_REQUIREMENTS_LOG2_BLOCK_SIZE : Z := 32.
Definition NVCV_MAX_MEM_REQUIREMENTS_BLOCK_SIZE : Z := Z.shiftl 1 NVCV_MAX_MEM_REQUIREMENTS_LOG2_BLOCK_SIZE.

(** [int64_t numBlocks[32]]. *)
Abbreviation NVCVMemRequirements := (list Z).

Definition mem_zero : NVCVMemRequirements := replicate 32 0.

Record NVCVRequirements := mkRequirements {
  cudaMem : NVCVMemRequirements; hostMem : NVCVMemRequirements; hostPinnedMem : NVCVMemRequirements }.

Definition Init : NVCVRequirements := mkRequirements mem_zero mem_zero mem_zero.

(** One of the three sums of [Add]. *)
Definition add_blocks (sum req : NVCVMemRequirements) : outcome NVCVMemRequirements :=
  mfold (fun sum i => a ← rd sum i; b ← rd req i; c ← int64 (a + b); wr sum i c)
    (zrange 0 NVCV_MAX_MEM_REQUIREMENTS_LOG2_BLOCK_SIZE) sum.

Definition Add (reqSum req : NVCVRequirements) : outcome NVCVRequirements :=
  c ← add_blocks (cudaMem reqSum) (cudaMem req);
  m ← add_blocks (hostMem reqSum) (hostMem req);
  p ← add_blocks (hostPinnedMem reqSum) (hostPinnedMem req);
  Ok (mkRequirements c m p).

Definition AddBuffer (memReq : NVCVMemRequirements) (bufSize bufAlignment : Z) : outcome NVCVMemRequirements :=
  throw_if (bufAlignment <=? 0) NVCV_ERROR_INVALID_ARGUMENT (
  throw_if (negb (IsPowerOfTwo bufAlignment)) NVCV_ERROR_INVALID_ARGUMENT (
  let log2Align := ILog2 bufAlignment in
  throw_if (NVCV_MAX_MEM_REQUIREMENTS_LOG2_BLOCK_SIZE <=? log2Align) NVCV_ERROR_INVALID_ARGUMENT (
  absSize ← int64 (Z.abs bufSize);
  let numBlocks := DivUpPowerOfTwo absSize bufAlignment in
  cur ← rd memReq log2Align;
  if 0 <=? bufSize then
    let maxBlocks := 2 ^ 63 - 1 in
    throw_if (maxBlocks - numBlocks <? cur) NVCV_ERROR_OVERFLOW (wr memReq log2Align (cur + numBlocks))
  else
    left ← int64 (cur - numBlocks);
    wr memReq log2Align (Z.max 0 left)))).

(** The sum is unsigned: a product that exceeds 64 bits wraps around unnoticed. *)
Definition total_step (memReq : NVCVMemRequirements) (total i : Z) : outcome Z :=
  n ← rd memReq i;
  let cur := u64 (u64 n * Z.shiftl 1 i) in
  throw_if (u64 (total + cur) <? total) NVCV_ERROR_INVALID_ARGUMENT (Ok (u64 (total + cur))).

Definition CalcTotalSizeBytes (memReq : NVCVMemRequirements) : outcome Z :=
  total ← mfold (total_step memReq)
    (zrange 0 NVCV_MAX_MEM_REQUIREMENTS_LOG2_BLOCK_SIZE) 0;
  throw_if (2 ^ 63 - 1 <? total) NVCV_ERROR_INVALID_ARGUMENT (Ok total).

(** ** Size of a requirement *)

(** The bytes in the blocks of [l], whose first entry counts blocks of [2^i]. *)
Fixpoint blocks_size (i : Z) (l : list Z) : Z :=
  match l with [] => 0 | n :: rest => n * 2 ^ i + blocks_size (i + 1) rest end.

Definition req_size (l : NVCVMemRequirements) : Z := blocks_size 0 l.

Definition valid_req (l : NVCVMemRequirements) : Prop := length l = 32%nat /\ Forall (fun n => 0 <= n) l.

Lemma mem_zero_valid : valid_req mem_zero.
Proof. split; [done|]. by repeat constructor. Qed.

Lemma mem_zero_size : req_size mem_zero = 0.
Proof. done. Qed.

Lemma blocks_size_nonneg i l : 0 <= i -> Forall (fun n => 0 <= n) l -> 0 <= blocks_size i l.
Proof.
  intros Hi H. revert i Hi. induction H as [|n l Hn _ IH]; intros i Hi; cbn; [done|].
  specialize (IH (i + 1) ltac:(lia)). pose proof (Z.pow_nonneg 2 i). nia.
Qed.

Lemma req_size_nonneg l : valid_req l -> 0 <= req_size l.
Proof. intros [_ H]. by apply blocks_size_nonneg. Qed.

Lemma blocks_size_insert l i k n x : 0 <= i -> l !! k = Some n ->
  blocks_size i (<[k := x]> l) = blocks_size i l + (x - n) * 2 ^ (i + Z.of_nat k).
Proof.
  revert i k. induction l as [|m l IH]; intros i k Hi Hk; [done|]. destruct k as [|k]; cbn in Hk.
  - injection Hk as ->. cbn. rewrite Z.add_0_r. ring.
  - change (<[S k := x]> (m :: l)) with (m :: <[k := x]> l). cbn [blocks_size]. rewrite (IH (i + 1) k) by (done || lia).
    replace (i + 1 + Z.of_nat k) with (i + Z.of_nat (S k)) by lia. ring.
Qed.

Lemma blocks_size_drop l i k n : 0 <= i -> Forall (fun n => 0 <= n) l -> l !! k = Some n ->
  n * 2 ^ (i + Z.of_nat k) <= blocks_size i l.
Proof.
  intros Hi H Hk. pose proof (blocks_size_insert l i k n 0 Hi Hk) as E.
  assert (0 <= blocks_size i (<[k := 0]> l)); [|lia].
  apply blocks_size_nonneg; [done|]. by apply Forall_insert.
Qed.

Lemma total_step_ok memReq total i n : 0 <= i -> 0 <= total -> 0 <= n -> memReq !! Z.to_nat i = Some n ->
  total + n * 2 ^ i < 2 ^ 64 -> total_step memReq total i = Ok (total + n * 2 ^ i).
Proof.
  intros Hi Ht Hn Hl Hb. unfold total_step. pose proof (Z.pow_pos_nonneg 2 i ltac:(lia) Hi).
  rewrite (proj2 (rd_Ok memReq i n)) by done. cbn [mbind outcome_bind]. rewrite Z.shiftl_mul_pow2, Z.mul_1_l by done.
  rewrite (wrapu_small 64 n) by (unfold in_u; nia). rewrite (wrapu_small 64 (n * 2 ^ i)) by (unfold in_u; nia).
  rewrite wrapu_small by (unfold in_u; nia). by rewrite (proj2 (Z.ltb_ge (total + n * 2 ^ i) total)) by nia.
Qed.

(** The summation loop over a suffix of the blocks. *)
Lemma total_loop memReq l i total : 0 <= i -> 0 <= total ->
  drop (Z.to_nat i) memReq = l -> Forall (fun n => 0 <= n) l -> total + blocks_size i l < 2 ^ 64 ->
  mfold (total_step memReq)
    (zrange i (i + Z.of_nat (length l))) total = Ok (total + blocks_size i l).
Proof.
  revert i total. induction l as [|n l IH]; intros i total Hi Ht Hd HF Hb.
  - cbn [length]. rewrite Z.add_0_r. unfold zrange. rewrite Z.sub_diag. cbn. f_equal. lia.
  - apply Forall_cons in HF as [Hn HF]. cbn [length blocks_size] in *.
    pose proof (blocks_size_nonneg (i + 1) l ltac:(lia) HF). pose proof (Z.pow_pos_nonneg 2 i ltac:(lia) Hi).
    assert (memReq !! Z.to_nat i = Some n) as Hn'.
    { rewrite <- (Nat.add_0_r (Z.to_nat i)), <- lookup_drop, Hd. done. }
    rewrite zrange_cons by lia. cbn [mfold]. rewrite (total_step_ok memReq total i n) by (done || nia).
    cbn [mbind outcome_bind]. replace (i + Z.of_nat (S (length l))) with (i + 1 + Z.of_nat (length l)) by lia.
    rewrite IH; [f_equal; lia|lia|nia| |done|lia].
    rewrite Z2Nat.inj_add by lia. rewrite <- drop_drop, Hd. done.
Qed.

(** Exact as long as the size fits an [int64_t]. *)
Lemma CalcTotalSizeBytes_size l : valid_req l -> req_size l < 2 ^ 63 -> CalcTotalSizeBytes l = Ok (req_size l).
Proof.
  intros [Hl HF] Hs. unfold CalcTotalSizeBytes.
  replace NVCV_MAX_MEM_REQUIREMENTS_LOG2_BLOCK_SIZE with (0 + Z.of_nat (length l)) by (rewrite Hl; done).
  rewrite (total_loop l l 0 0) by (done || (unfold req_size in Hs; lia)).
  cbn [mbind outcome_bind]. fold (req_size l). rewrite Z.add_0_l, (proj2 (Z.ltb_ge _ _)) by lia. done.
Qed.

Lemma AddBuffer_steps l bufSize k : valid_req l -> 0 <= k < 32 -> - 2 ^ 63 < bufSize < 2 ^ 63 ->
  exists n, l !! Z.to_nat k = Some n /\ 0 <= n /\
  AddBuffer l bufSize (2 ^ k) =
    if 0 <=? bufSize
    then throw_if (2 ^ 63 - 1 - DivUp bufSize (2 ^ k) <? n) NVCV_ERROR_OVERFLOW
           (Ok (<[Z.to_nat k := n + DivUp bufSize (2 ^ k)]> l))
    else left ← int64 (n - DivUp (- bufSize) (2 ^ k)); Ok (<[Z.to_nat k := Z.max 0 left]> l).
Proof.
  intros [Hl HF] Hk Hb. destruct (lookup_lt_is_Some_2 l (Z.to_nat k)) as [n Hn]; [lia|].
  exists n. split; [done|]. split; [exact (proj1 (Forall_lookup _ _) HF _ _ Hn)|].
  pose proof (Z.pow_pos_nonneg 2 k ltac:(lia) ltac:(lia)). unfold AddBuffer, ILog2.
  rewrite (proj2 (Z.leb_gt _ 0)), IsPowerOfTwo_pow2, Z.log2_pow2 by lia. cbn [throw_if negb].
  change NVCV_MAX_MEM_REQUIREMENTS_LOG2_BLOCK_SIZE with 32. rewrite (proj2 (Z.leb_gt 32 k)) by lia.
  cbn [throw_if]. rewrite int64_ok by (unfold in_s; lia). cbn [mbind outcome_bind].
  rewrite DivUpPowerOfTwo_DivUp by first [lia|apply IsPowerOfTwo_pow2; lia].
  rewrite (proj2 (rd_Ok l k n)) by (split; [lia|done]). cbn [mbind outcome_bind].
  assert (forall x, wr l k x = Ok (<[Z.to_nat k := x]> l)) as Hw.
  { intros x. apply wr_Ok. split; [lia|done]. }
  destruct (Z.leb_spec 0 bufSize).
  - by rewrite Hw, Z.abs_eq by done.
  - rewrite Z.abs_neq by lia. destruct (int64 _); cbn; by rewrite ?Hw.
Qed.

(** Within the size an [int64_t] holds, a buffer fits and takes its size rounded
    up to its alignment. *)
Lemma AddBuffer_size l bufSize k : valid_req l -> 0 <= k < 32 -> 0 <= bufSize ->
  req_size l + round_up bufSize (2 ^ k) < 2 ^ 63 ->
  exists l', AddBuffer l bufSize (2 ^ k) = Ok l' /\ valid_req l' /\ req_size l' = req_size l + round_up bufSize (2 ^ k).
Proof.
  intros V Hk Hb Hs. pose proof V as [Hl HF]. pose proof (Z.pow_pos_nonneg 2 k ltac:(lia) ltac:(lia)).
  pose proof (req_size_nonneg l V) as H0.
  destruct (RoundUp_spec bufSize (2 ^ k)) as [? _]; [done..|].
  destruct (AddBuffer_steps l bufSize k V Hk) as (n & Hn & Hn0 & ->); [lia|].
  pose proof (blocks_size_drop l 0 _ n ltac:(lia) HF Hn) as Hd. fold (req_size l) in Hd.
  rewrite Z.add_0_l, Z2Nat.id in Hd by lia.
  assert (DivUp bufSize (2 ^ k) * 2 ^ k = round_up bufSize (2 ^ k)) as ER by (by rewrite DivUp_spec, RoundUp_div by lia).
  assert (0 <= DivUp bufSize (2 ^ k)) as HD by (rewrite DivUp_spec by lia; apply Z.div_pos; lia).
  assert (n + DivUp bufSize (2 ^ k) <= (n + DivUp bufSize (2 ^ k)) * 2 ^ k) by nia.
  rewrite (proj2 (Z.leb_le 0 bufSize)), (proj2 (Z.ltb_ge _ n)) by lia. cbn [throw_if].
  eexists. split; [done|]. split.
  - split; [by rewrite length_insert|]. apply Forall_insert; [done|]. nia.
  - unfold req_size. rewrite (blocks_size_insert l 0 _ n) by (done || lia). fold (req_size l).
    rewrite Z.add_0_l, Z2Nat.id by lia. lia.
Qed.

(** the size of a requirement is additive. Adding a buffer to a requirement
    whose size stays within [int64_t] succeeds and increases the size reported
    by exactly the buffer rounded up to its alignment; adding the negated size
    removes it again. *)
Theorem add_buffer_total l bufSize k :
  valid_req l -> 0 <= k < 32 -> 0 <= bufSize -> req_size l + round_up bufSize (2 ^ k) < 2 ^ 63 ->
  exists l', AddBuffer l bufSize (2 ^ k) = Ok l'
  /\ CalcTotalSizeBytes l = Ok (req_size l)
  /\ CalcTotalSizeBytes l' = Ok (req_size l + round_up bufSize (2 ^ k))
  /\ AddBuffer l' (- bufSize) (2 ^ k) = Ok l.
Proof.
  intros V Hk Hb Hs. destruct (RoundUp_spec bufSize (2 ^ k)) as [? _]; [done|apply Z.pow_pos_nonneg; lia|].
  pose proof (req_size_nonneg l V) as H0. pose proof (Z.pow_pos_nonneg 2 k ltac:(lia) ltac:(lia)).
  destruct (AddBuffer_size l bufSize k V Hk Hb Hs) as (l' & HA & V' & E). exists l'. split; [done|].
  rewrite !CalcTotalSizeBytes_size, E by (done || lia). split_and!; [done..|].
  destruct (AddBuffer_steps l bufSize k V Hk) as (n & Hn & Hn0 & E1); [lia|]. rewrite HA in E1.
  rewrite (proj2 (Z.leb_le 0 bufSize)) in E1 by done. symmetry in E1. ok_inv. bool_hyps. subst l'.
  destruct (AddBuffer_steps _ (- bufSize) k V' Hk) as (m & Hm & _ & ->); [lia|].
  rewrite list_lookup_insert_eq in Hm by (destruct V; lia). injection Hm as <-.
  rewrite Z.opp_involutive, list_insert_insert_eq.
  assert (0 <= DivUp bufSize (2 ^ k)) as HD.
  { rewrite DivUp_spec by lia. apply Z.div_pos; lia. }
  assert (in_s 64 n) as Hn64 by (unfold in_s; lia).
  destruct (Z.leb_spec 0 (- bufSize)).
  - assert (bufSize = 0) as -> by lia. change (- 0) with 0.
    assert (DivUp 0 (2 ^ k) = 0) as -> by (rewrite DivUp_spec by lia; apply Z.div_small; lia).
    rewrite (proj2 (Z.ltb_ge _ _)) by (unfold in_s in Hn64; lia). cbn [throw_if].
    f_equal. apply list_insert_id. rewrite Hn. f_equal. lia.
  - rewrite int64_ok by (by replace (n + DivUp bufSize (2 ^ k) - DivUp bufSize (2 ^ k)) with n by lia).
    cbn [mbind outcome_bind]. rewrite ?list_insert_insert_eq. f_equal. apply list_insert_id. rewrite Hn. f_equal. lia.
Qed.

Lemma add_buffer_total_witness :
  exists l', AddBuffer mem_zero 1000 (2 ^ 9) = Ok l' /\ CalcTotalSizeBytes l' = Ok 1024.
Proof.
  destruct (add_buffer_total mem_zero 1000 9 mem_zero_valid) as (l' & H1 & _ & H2 & _);
    [lia|lia|vm_compute; reflexivity|].
  exists l'. split; [exact H1|exact H2].
Defined.

(** The overflow check misses a product that wraps: 2^33 blocks of 2^31 bytes
    make a requirement of zero bytes. *)
Lemma calc_total_wraps : CalcTotalSizeBytes (<[31%nat := 2 ^ 33]> mem_zero) = Ok 0.
Proof. vm_compute. reflexivity. Qed.
