(* ===== verification/ColorSpec.v ===== *)
(** * Color specifications ([priv/ColorSpec.cpp], [nvcv/ColorSpec.h])

    A color specification packs six enumerations into the low 15 bits of an
    integer. The C enumerations are [Z] constants, because the code casts
    arbitrary bit-field values back into them. [Module ColorSpec] is the class of
    the same name: its constructor, getters, and setters ([set_*]); the record
    [fields] is its abstract view and the lemmas [abs_*] the refinement. *)
From S2P Require Export Bitfield.
From stdpp Require Import pretty options.
#[local] Open Scope Z_scope.

Abbreviation NVCVColorModel := Z (only parsing).
Abbreviation NVCVColorSpace := Z (only parsing).
Abbreviation NVCVWhitePoint := Z (only parsing).
Abbreviation NVCVYCbCrEncoding := Z (only parsing).
Abbreviation NVCVColorTransferFunction := Z (only parsing).
Abbreviation NVCVColorRange := Z (only parsing).
Abbreviation NVCVChromaLocation := Z (only parsing).
Abbreviation NVCVColorSpec := Z (only parsing).
Abbreviation NVCVRawPattern := Z (only parsing).
Abbreviation NVCVChromaSubsampling := Z (only parsing).

(** ** Enumerations *)

Definition NVCV_COLOR_MODEL_UNDEFINED : Z := 0.
Definition NVCV_COLOR_MODEL_YCbCr : Z := 1.
Definition NVCV_COLOR_MODEL_RGB : Z := 2.
Definition NVCV_COLOR_MODEL_RAW : Z := 2 + 7.
Definition NVCV_COLOR_MODEL_XYZ : Z := NVCV_COLOR_MODEL_RAW + 1.
Definition NVCV_COLOR_MODEL_HSV : Z := NVCV_COLOR_MODEL_XYZ + 1.
Definition NVCV_COLOR_MODEL_CMYK : Z := NVCV_COLOR_MODEL_HSV + 1.
Definition NVCV_COLOR_MODEL_YCCK : Z := NVCV_COLOR_MODEL_CMYK + 1.

Definition NVCV_COLOR_SPACE_BT601 : Z := 0.
Definition NVCV_COLOR_SPACE_BT709 : Z := NVCV_COLOR_SPACE_BT601 + 1.
Definition NVCV_COLOR_SPACE_BT2020 : Z := NVCV_COLOR_SPACE_BT709 + 1.
Definition NVCV_COLOR_SPACE_DCIP3 : Z := NVCV_COLOR_SPACE_BT2020 + 1.

Definition NVCV_WHITE_POINT_D65 : Z := 0.
Definition NVCV_WHITE_POINT_FORCE8 : Z := 255.

Definition NVCV_YCbCr_ENC_UNDEFINED : Z := 0.
Definition NVCV_YCbCr_ENC_BT601 : Z := NVCV_YCbCr_ENC_UNDEFINED + 1.
Definition NVCV_YCbCr_ENC_BT709 : Z := NVCV_YCbCr_ENC_BT601 + 1.
Definition NVCV_YCbCr_ENC_BT2020 : Z := NVCV_YCbCr_ENC_BT709 + 1.
Definition NVCV_YCbCr_ENC_BT2020c : Z := NVCV_YCbCr_ENC_BT2020 + 1.
Definition NVCV_YCbCr_ENC_SMPTE240M : Z := NVCV_YCbCr_ENC_BT2020c + 1.

Definition NVCV_COLOR_XFER_LINEAR : Z := 0.
Definition NVCV_COLOR_XFER_sRGB : Z := NVCV_COLOR_XFER_LINEAR + 1.
Definition NVCV_COLOR_XFER_sYCC : Z := NVCV_COLOR_XFER_sRGB + 1.
Definition NVCV_COLOR_XFER_PQ : Z := NVCV_COLOR_XFER_sYCC + 1.
Definition NVCV_COLOR_XFER_BT709 : Z := NVCV_COLOR_XFER_PQ + 1.
Definition NVCV_COLOR_XFER_BT2020 : Z := NVCV_COLOR_XFER_BT709 + 1.
Definition NVCV_COLOR_XFER_SMPTE240M : Z := NVCV_COLOR_XFER_BT2020 + 1.

Definition NVCV_COLOR_RANGE_FULL : Z := 0.
Definition NVCV_COLOR_RANGE_LIMITED : Z := NVCV_COLOR_RANGE_FULL + 1.

Definition NVCV_CHROMA_LOC_BOTH : Z := 0.
Definition NVCV_CHROMA_LOC_EVEN : Z := NVCV_CHROMA_LOC_BOTH + 1.
Definition NVCV_CHROMA_LOC_CENTER : Z := NVCV_CHROMA_LOC_EVEN + 1.
Definition NVCV_CHROMA_LOC_ODD : Z := NVCV_CHROMA_LOC_CENTER + 1.

(** [NVCV_DETAIL_MAKE_COLOR_SPEC] of [detail/FormatUtils.h]. *)
Definition NVCV_DETAIL_MAKE_COLOR_SPEC (CSpace Encoding XferFunc Range LocHoriz LocVert : Z) : Z :=
  Z.lor (Z.lor (Z.lor (Z.lor (Z.lor
    (SetBitfield CSpace 0 3) (SetBitfield XferFunc 3 4)) (SetBitfield Encoding 7 3))
    (SetBitfield LocHoriz 10 2)) (SetBitfield LocVert 12 2)) (SetBitfield Range 14 1).

Definition NVCV_COLOR_SPEC_UNDEFINED : Z := NVCV_DETAIL_MAKE_COLOR_SPEC NVCV_COLOR_SPACE_BT709 NVCV_YCbCr_ENC_UNDEFINED NVCV_COLOR_XFER_LINEAR NVCV_COLOR_RANGE_FULL NVCV_CHROMA_LOC_BOTH NVCV_CHROMA_LOC_BOTH.
Definition NVCV_COLOR_SPEC_BT601 : Z := NVCV_DETAIL_MAKE_COLOR_SPEC NVCV_COLOR_SPACE_BT709 NVCV_YCbCr_ENC_BT601 NVCV_COLOR_XFER_BT709 NVCV_COLOR_RANGE_LIMITED NVCV_CHROMA_LOC_EVEN NVCV_CHROMA_LOC_EVEN.
Definition NVCV_COLOR_SPEC_BT601_ER : Z := NVCV_DETAIL_MAKE_COLOR_SPEC NVCV_COLOR_SPACE_BT709 NVCV_YCbCr_ENC_BT601 NVCV_COLOR_XFER_BT709 NVCV_COLOR_RANGE_FULL NVCV_CHROMA_LOC_EVEN NVCV_CHROMA_LOC_EVEN.
Definition NVCV_COLOR_SPEC_BT709 : Z := NVCV_DETAIL_MAKE_COLOR_SPEC NVCV_COLOR_SPACE_BT709 NVCV_YCbCr_ENC_BT709 NVCV_COLOR_XFER_BT709 NVCV_COLOR_RANGE_LIMITED NVCV_CHROMA_LOC_EVEN NVCV_CHROMA_LOC_EVEN.
Definition NVCV_COLOR_SPEC_BT709_ER : Z := NVCV_DETAIL_MAKE_COLOR_SPEC NVCV_COLOR_SPACE_BT709 NVCV_YCbCr_ENC_BT709 NVCV_COLOR_XFER_BT709 NVCV_COLOR_RANGE_FULL NVCV_CHROMA_LOC_EVEN NVCV_CHROMA_LOC_EVEN.
Definition NVCV_COLOR_SPEC_BT709_LINEAR : Z := NVCV_DETAIL_MAKE_COLOR_SPEC NVCV_COLOR_SPACE_BT709 NVCV_YCbCr_ENC_BT709 NVCV_COLOR_XFER_LINEAR NVCV_COLOR_RANGE_LIMITED NVCV_CHROMA_LOC_EVEN NVCV_CHROMA_LOC_EVEN.
Definition NVCV_COLOR_SPEC_BT2020 : Z := NVCV_DETAIL_MAKE_COLOR_SPEC NVCV_COLOR_SPACE_BT2020 NVCV_YCbCr_ENC_BT2020 NVCV_COLOR_XFER_BT2020 NVCV_COLOR_RANGE_LIMITED NVCV_CHROMA_LOC_EVEN NVCV_CHROMA_LOC_EVEN.
Definition NVCV_COLOR_SPEC_BT2020_ER : Z := NVCV_DETAIL_MAKE_COLOR_SPEC NVCV_COLOR_SPACE_BT2020 NVCV_YCbCr_ENC_BT2020 NVCV_COLOR_XFER_BT2020 NVCV_COLOR_RANGE_FULL NVCV_CHROMA_LOC_EVEN NVCV_CHROMA_LOC_EVEN.
Definition NVCV_COLOR_SPEC_BT2020_LINEAR : Z := NVCV_DETAIL_MAKE_COLOR_SPEC NVCV_COLOR_SPACE_BT2020 NVCV_YCbCr_ENC_BT2020 NVCV_COLOR_XFER_LINEAR NVCV_COLOR_RANGE_LIMITED NVCV_CHROMA_LOC_EVEN NVCV_CHROMA_LOC_EVEN.
Definition NVCV_COLOR_SPEC_BT2020_PQ : Z := NVCV_DETAIL_MAKE_COLOR_SPEC NVCV_COLOR_SPACE_BT2020 NVCV_YCbCr_ENC_BT2020 NVCV_COLOR_XFER_PQ NVCV_COLOR_RANGE_LIMITED NVCV_CHROMA_LOC_EVEN NVCV_CHROMA_LOC_EVEN.
Definition NVCV_COLOR_SPEC_BT2020_PQ_ER : Z := NVCV_DETAIL_MAKE_COLOR_SPEC NVCV_COLOR_SPACE_BT2020 NVCV_YCbCr_ENC_BT2020 NVCV_COLOR_XFER_PQ NVCV_COLOR_RANGE_FULL NVCV_CHROMA_LOC_EVEN NVCV_CHROMA_LOC_EVEN.
Definition NVCV_COLOR_SPEC_BT2020c : Z := NVCV_DETAIL_MAKE_COLOR_SPEC NVCV_COLOR_SPACE_BT2020 NVCV_YCbCr_ENC_BT2020c NVCV_COLOR_XFER_BT2020 NVCV_COLOR_RANGE_LIMITED NVCV_CHROMA_LOC_EVEN NVCV_CHROMA_LOC_EVEN.
Definition NVCV_COLOR_SPEC_BT2020c_ER : Z := NVCV_DETAIL_MAKE_COLOR_SPEC NVCV_COLOR_SPACE_BT2020 NVCV_YCbCr_ENC_BT2020c NVCV_COLOR_XFER_BT2020 NVCV_COLOR_RANGE_FULL NVCV_CHROMA_LOC_EVEN NVCV_CHROMA_LOC_EVEN.
Definition NVCV_COLOR_SPEC_MPEG2_BT601 : Z := NVCV_DETAIL_MAKE_COLOR_SPEC NVCV_COLOR_SPACE_BT709 NVCV_YCbCr_ENC_BT601 NVCV_COLOR_XFER_BT709 NVCV_COLOR_RANGE_FULL NVCV_CHROMA_LOC_EVEN NVCV_CHROMA_LOC_CENTER.
Definition NVCV_COLOR_SPEC_MPEG2_BT709 : Z := NVCV_DETAIL_MAKE_COLOR_SPEC NVCV_COLOR_SPACE_BT709 NVCV_YCbCr_ENC_BT709 NVCV_COLOR_XFER_BT709 NVCV_COLOR_RANGE_FULL NVCV_CHROMA_LOC_EVEN NVCV_CHROMA_LOC_CENTER.
Definition NVCV_COLOR_SPEC_MPEG2_SMPTE240M : Z := NVCV_DETAIL_MAKE_COLOR_SPEC NVCV_COLOR_SPACE_BT709 NVCV_YCbCr_ENC_SMPTE240M NVCV_COLOR_XFER_SMPTE240M NVCV_COLOR_RANGE_FULL NVCV_CHROMA_LOC_EVEN NVCV_CHROMA_LOC_CENTER.
Definition NVCV_COLOR_SPEC_sRGB : Z := NVCV_DETAIL_MAKE_COLOR_SPEC NVCV_COLOR_SPACE_BT709 NVCV_YCbCr_ENC_UNDEFINED NVCV_COLOR_XFER_sRGB NVCV_COLOR_RANGE_FULL NVCV_CHROMA_LOC_BOTH NVCV_CHROMA_LOC_BOTH.
Definition NVCV_COLOR_SPEC_sYCC : Z := NVCV_DETAIL_MAKE_COLOR_SPEC NVCV_COLOR_SPACE_BT709 NVCV_YCbCr_ENC_BT601 NVCV_COLOR_XFER_sYCC NVCV_COLOR_RANGE_FULL NVCV_CHROMA_LOC_CENTER NVCV_CHROMA_LOC_CENTER.
Definition NVCV_COLOR_SPEC_SMPTE240M : Z := NVCV_DETAIL_MAKE_COLOR_SPEC NVCV_COLOR_SPACE_BT709 NVCV_YCbCr_ENC_SMPTE240M NVCV_COLOR_XFER_SMPTE240M NVCV_COLOR_RANGE_LIMITED NVCV_CHROMA_LOC_EVEN NVCV_CHROMA_LOC_EVEN.
Definition NVCV_COLOR_SPEC_DISPLAYP3 : Z := NVCV_DETAIL_MAKE_COLOR_SPEC NVCV_COLOR_SPACE_DCIP3 NVCV_YCbCr_ENC_UNDEFINED NVCV_COLOR_XFER_sRGB NVCV_COLOR_RANGE_FULL NVCV_CHROMA_LOC_BOTH NVCV_CHROMA_LOC_BOTH.
Definition NVCV_COLOR_SPEC_DISPLAYP3_LINEAR : Z := NVCV_DETAIL_MAKE_COLOR_SPEC NVCV_COLOR_SPACE_DCIP3 NVCV_YCbCr_ENC_UNDEFINED NVCV_COLOR_XFER_LINEAR NVCV_COLOR_RANGE_FULL NVCV_CHROMA_LOC_BOTH NVCV_CHROMA_LOC_BOTH.
Definition NVCV_COLOR_SPEC_FORCE32 : Z := 2147483647.

Definition NVCV_RAW_BAYER_RGGB : Z := 0.
Definition NVCV_RAW_BAYER_BGGR : Z := NVCV_RAW_BAYER_RGGB + 1.
Definition NVCV_RAW_BAYER_GRBG : Z := NVCV_RAW_BAYER_BGGR + 1.
Definition NVCV_RAW_BAYER_GBRG : Z := NVCV_RAW_BAYER_GRBG + 1.
Definition NVCV_RAW_BAYER_RCCB : Z := NVCV_RAW_BAYER_GBRG + 1.
Definition NVCV_RAW_BAYER_BCCR : Z := NVCV_RAW_BAYER_RCCB + 1.
Definition NVCV_RAW_BAYER_CRBC : Z := NVCV_RAW_BAYER_BCCR + 1.
Definition NVCV_RAW_BAYER_CBRC : Z := NVCV_RAW_BAYER_CRBC + 1.
Definition NVCV_RAW_BAYER_RCCC : Z := NVCV_RAW_BAYER_CBRC + 1.
Definition NVCV_RAW_BAYER_CRCC : Z := NVCV_RAW_BAYER_RCCC + 1.
Definition NVCV_RAW_BAYER_CCRC : Z := NVCV_RAW_BAYER_CRCC + 1.
Definition NVCV_RAW_BAYER_CCCR : Z := NVCV_RAW_BAYER_CCRC + 1.
Definition NVCV_RAW_BAYER_CCCC : Z := NVCV_RAW_BAYER_CCCR + 1.
Definition NVCV_RAW_FORCE8 : Z := 255.

Definition NVCV_CSS_NONE : Z := 0.
Definition NVCV_CSS_444 : Z := NVCV_CSS_NONE.
Definition NVCV_CSS_422 : Z := NVCV_CSS_444 + 1.
Definition NVCV_CSS_422R : Z := NVCV_CSS_422 + 1.
Definition NVCV_CSS_411 : Z := NVCV_CSS_422R + 1.
Definition NVCV_CSS_411R : Z := NVCV_CSS_411 + 1.
Definition NVCV_CSS_420 : Z := NVCV_CSS_411R + 1.
Definition NVCV_CSS_410 : Z := NVCV_CSS_420 + 1.
Definition NVCV_CSS_410R : Z := NVCV_CSS_410 + 1.
Definition NVCV_CSS_440 : Z := NVCV_CSS_422R.

Record ChromaLoc := mkChromaLoc { horiz : NVCVChromaLocation; vert : NVCVChromaLocation }.

(** ** The class [ColorSpec] *)

Module ColorSpec.

Definition make (cspace : NVCVColorSpace) (encoding : NVCVYCbCrEncoding)
    (xferfunc : NVCVColorTransferFunction) (range : NVCVColorRange) (loc : ChromaLoc) : Z :=
  NVCV_DETAIL_MAKE_COLOR_SPEC cspace encoding xferfunc range (horiz loc) (vert loc).

Definition colorSpace (m_cspec : Z) : NVCVColorSpace := ExtractBitfield m_cspec 0 3.
Definition set_colorSpace (m_cspec newColorSpace : Z) : Z := UpdateBitfield m_cspec newColorSpace 0 3.

Definition set_YCbCrEncoding (m_cspec newEncoding : Z) : Z := UpdateBitfield m_cspec newEncoding 7 3.
Definition YCbCrEncoding (m_cspec : Z) : NVCVYCbCrEncoding := ExtractBitfield m_cspec 7 3.

Definition set_xferFunc (m_cspec newXferFunc : Z) : Z := UpdateBitfield m_cspec newXferFunc 3 4.
Definition xferFunc (m_cspec : Z) : NVCVColorTransferFunction := ExtractBitfield m_cspec 3 4.

Definition set_colorRange (m_cspec newRange : Z) : Z := UpdateBitfield m_cspec newRange 14 1.
Definition colorRange (m_cspec : Z) : NVCVColorRange := ExtractBitfield m_cspec 14 1.

Definition chromaLoc (m_cspec : Z) : ChromaLoc :=
  mkChromaLoc (ExtractBitfield m_cspec 10 2) (ExtractBitfield m_cspec 12 2).
Definition set_chromaLoc (m_cspec : Z) (loc : ChromaLoc) : Z :=
  Z.lor (Z.lor (Z.land m_cspec (not64 (MaskBitfield 10 4))) (SetBitfield (horiz loc) 10 2))
        (SetBitfield (vert loc) 12 2).

Definition whitePoint (m_cspec : Z) : NVCVWhitePoint := NVCV_WHITE_POINT_D65.

(** ** Abstract view: the six fields *)

Record fields := mkFields {
  f_space : Z; f_xfer : Z; f_enc : Z; f_loc : ChromaLoc; f_range : Z }.

Definition abs (m : Z) : fields :=
  mkFields (colorSpace m) (xferFunc m) (YCbCrEncoding m) (chromaLoc m) (colorRange m).

(** The values that fit their fields. *)
Definition valid (f : fields) : Prop :=
  in_u 3 (f_space f) /\ in_u 4 (f_xfer f) /\ in_u 3 (f_enc f)
  /\ in_u 2 (horiz (f_loc f)) /\ in_u 2 (vert (f_loc f)) /\ in_u 1 (f_range f).

Lemma abs_make s e x r l : valid (mkFields s x e l r) -> abs (make s e x r l) = mkFields s x e l r.
Proof.
  intros (? & ? & ? & ? & ? & ?); cbn in *. unfold make, NVCV_DETAIL_MAKE_COLOR_SPEC, abs,
    colorSpace, xferFunc, YCbCrEncoding, chromaLoc, colorRange. destruct l; cbn in *.
  bitfields. by rewrite !Extract_small by (done || lia).
Qed.

Lemma make_range s e x r l : in_u 15 (make s e x r l).
Proof.
  unfold make, NVCV_DETAIL_MAKE_COLOR_SPEC. repeat apply in_u_lor; try done.
  all: match goal with |- in_u _ (SetBitfield ?v ?o ?l) =>
         pose proof (SetBitfield_range v o l ltac:(lia) ltac:(lia)) as Hr end.
  all: unfold in_u in *; cbn in *; lia.
Qed.

Lemma abs_set_colorSpace m v :
  abs (set_colorSpace m v)
  = mkFields (wrapu 3 v) (xferFunc m) (YCbCrEncoding m) (chromaLoc m) (colorRange m).
Proof.
  unfold abs, set_colorSpace, colorSpace, xferFunc, YCbCrEncoding, chromaLoc, colorRange.
  bitfields. by rewrite (Extract_mod v) by lia.
Qed.

Lemma abs_set_xferFunc m v :
  abs (set_xferFunc m v)
  = mkFields (colorSpace m) (wrapu 4 v) (YCbCrEncoding m) (chromaLoc m) (colorRange m).
Proof.
  unfold abs, set_xferFunc, colorSpace, xferFunc, YCbCrEncoding, chromaLoc, colorRange.
  bitfields. by rewrite (Extract_mod v) by lia.
Qed.

Lemma abs_set_YCbCrEncoding m v :
  abs (set_YCbCrEncoding m v)
  = mkFields (colorSpace m) (xferFunc m) (wrapu 3 v) (chromaLoc m) (colorRange m).
Proof.
  unfold abs, set_YCbCrEncoding, colorSpace, xferFunc, YCbCrEncoding, chromaLoc, colorRange.
  bitfields. by rewrite (Extract_mod v) by lia.
Qed.

Lemma abs_set_colorRange m v :
  abs (set_colorRange m v)
  = mkFields (colorSpace m) (xferFunc m) (YCbCrEncoding m) (chromaLoc m) (wrapu 1 v).
Proof.
  unfold abs, set_colorRange, colorSpace, xferFunc, YCbCrEncoding, chromaLoc, colorRange.
  bitfields. by rewrite (Extract_mod v) by lia.
Qed.

Lemma set_chromaLoc_updates m l :
  set_chromaLoc m l = UpdateBitfield (UpdateBitfield m (horiz l) 10 2) (vert l) 12 2.
Proof. unfold set_chromaLoc, UpdateBitfield. word_bits; done. Qed.

Lemma abs_set_chromaLoc m l :
  abs (set_chromaLoc m l)
  = mkFields (colorSpace m) (xferFunc m) (YCbCrEncoding m)
      (mkChromaLoc (wrapu 2 (horiz l)) (wrapu 2 (vert l))) (colorRange m).
Proof.
  rewrite set_chromaLoc_updates.
  unfold abs, colorSpace, xferFunc, YCbCrEncoding, chromaLoc, colorRange.
  bitfields. by rewrite (Extract_mod (horiz l)), (Extract_mod (vert l)) by lia.
Qed.

#[global] Hint Rewrite abs_set_colorSpace abs_set_xferFunc abs_set_YCbCrEncoding
  abs_set_colorRange abs_set_chromaLoc : bitfield.

(** A word of 15 bits is determined by its fields. *)
Lemma make_abs m : in_u 15 m ->
  make (colorSpace m) (YCbCrEncoding m) (xferFunc m) (colorRange m) (chromaLoc m) = m.
Proof.
  intros Hm. unfold make, NVCV_DETAIL_MAKE_COLOR_SPEC, colorSpace, xferFunc, YCbCrEncoding,
    chromaLoc, colorRange; cbn [horiz vert].
  word_bits; rewrite ?Z.sub_add, ?Z.sub_0_r, ?Z.add_0_r; try done.
  all: by rewrite (in_u_testbit 15 m) by (done || lia).
Qed.

Lemma abs_inj m m' : in_u 15 m -> in_u 15 m' -> abs m = abs m' -> m = m'.
Proof.
  intros Hm Hm' H.
  assert (forall f x, in_u 15 x -> f = abs x ->
    make (f_space f) (f_enc f) (f_xfer f) (f_range f) (f_loc f) = x) as E.
  { intros f x Hx ->. by apply make_abs. }
  rewrite <- (E (abs m) m Hm eq_refl). by apply E.
Qed.

End ColorSpec.

(** ** Chroma subsampling *)

Definition MakeNVCVChromaSubsampling (samplesHoriz samplesVert : Z) : outcome NVCVChromaSubsampling :=
  match samplesHoriz with
  | 4 => match samplesVert with
         | 4 => Ok NVCV_CSS_444
         | 2 => Ok NVCV_CSS_422R
         | 1 => Ok NVCV_CSS_411R
         | _ => Throw NVCV_ERROR_INVALID_ARGUMENT
         end
  | 2 => match samplesVert with
         | 4 => Ok NVCV_CSS_422
         | 2 => Ok NVCV_CSS_420
         | 1 => Ok NVCV_CSS_410R
         | _ => Throw NVCV_ERROR_INVALID_ARGUMENT
         end
  | 1 => match samplesVert with
         | 1 => Ok NVCV_CSS_444
         | 2 => Ok NVCV_CSS_410
         | 4 => Ok NVCV_CSS_411
         | _ => Throw NVCV_ERROR_INVALID_ARGUMENT
         end
  | _ => Throw NVCV_ERROR_INVALID_ARGUMENT
  end.

Definition GetChromaSamples (css : NVCVChromaSubsampling) : outcome (Z * Z) :=
  if css =? NVCV_CSS_444 then Ok (4, 4)
  else if css =? NVCV_CSS_422R then Ok (4, 2)
  else if css =? NVCV_CSS_411R then Ok (4, 1)
  else if css =? NVCV_CSS_410R then Ok (2, 1)
  else if css =? NVCV_CSS_422 then Ok (2, 4)
  else if css =? NVCV_CSS_420 then Ok (2, 2)
  else if css =? NVCV_CSS_411 then Ok (1, 4)
  else if css =? NVCV_CSS_410 then Ok (1, 2)
  else Throw NVCV_ERROR_INVALID_ARGUMENT.

Definition NeedsColorspec (cmodel : NVCVColorModel) : outcome bool :=
  if (cmodel =? NVCV_COLOR_MODEL_YCbCr) || (cmodel =? NVCV_COLOR_MODEL_RGB) then Ok true
  else if (cmodel =? NVCV_COLOR_MODEL_UNDEFINED) || (cmodel =? NVCV_COLOR_MODEL_RAW)
       || (cmodel =? NVCV_COLOR_MODEL_XYZ) || (cmodel =? NVCV_COLOR_MODEL_HSV)
       || (cmodel =? NVCV_COLOR_MODEL_CMYK) || (cmodel =? NVCV_COLOR_MODEL_YCCK) then Ok false
  else Throw NVCV_ERROR_INVALID_ARGUMENT.

(** ** Names

    [GetName] returns a literal for an enumerator and [Type(value)] otherwise.
    An enumeration is described by its type name and its table of names. *)

Fixpoint enum_lookup (table : list (Z * string)) (x : Z) : option string :=
  match table with
  | [] => None
  | (k, n) :: rest => if x =? k then Some n else enum_lookup rest x
  end.

Definition enum_name (type : string) (table : list (Z * string)) (x : Z) : string :=
  default ((type +:+ "(") +:+ (pretty x +:+ ")"))%string (enum_lookup table x).

#[local] Open Scope string_scope.

Definition names_NVCVColorModel : list (Z * string) :=
  [(NVCV_COLOR_MODEL_UNDEFINED, "NVCV_COLOR_MODEL_UNDEFINED");
   (NVCV_COLOR_MODEL_RGB, "NVCV_COLOR_MODEL_RGB");
   (NVCV_COLOR_MODEL_YCbCr, "NVCV_COLOR_MODEL_YCbCr");
   (NVCV_COLOR_MODEL_RAW, "NVCV_COLOR_MODEL_RAW");
   (NVCV_COLOR_MODEL_XYZ, "NVCV_COLOR_MODEL_XYZ");
   (NVCV_COLOR_MODEL_HSV, "NVCV_COLOR_MODEL_HSV");
   (NVCV_COLOR_MODEL_CMYK, "NVCV_COLOR_MODEL_CMYK");
   (NVCV_COLOR_MODEL_YCCK, "NVCV_COLOR_MODEL_YCCK")].
Definition GetName_NVCVColorModel (x : NVCVColorModel) : string := enum_name "NVCVColorModel" names_NVCVColorModel x.

Definition names_NVCVChromaLocation : list (Z * string) :=
  [(NVCV_CHROMA_LOC_EVEN, "NVCV_CHROMA_LOC_EVEN");
   (NVCV_CHROMA_LOC_CENTER, "NVCV_CHROMA_LOC_CENTER");
   (NVCV_CHROMA_LOC_ODD, "NVCV_CHROMA_LOC_ODD");
   (NVCV_CHROMA_LOC_BOTH, "NVCV_CHROMA_LOC_BOTH")].
Definition GetName_NVCVChromaLocation (x : NVCVChromaLocation) : string := enum_name "NVCVChromaLocation" names_NVCVChromaLocation x.

Definition names_NVCVRawPattern : list (Z * string) :=
  [(NVCV_RAW_BAYER_RGGB, "NVCV_RAW_BAYER_RGGB");
   (NVCV_RAW_BAYER_BGGR, "NVCV_RAW_BAYER_BGGR");
   (NVCV_RAW_BAYER_GRBG, "NVCV_RAW_BAYER_GRBG");
   (NVCV_RAW_BAYER_GBRG, "NVCV_RAW_BAYER_GBRG");
   (NVCV_RAW_BAYER_RCCB, "NVCV_RAW_BAYER_RCCB");
   (NVCV_RAW_BAYER_BCCR, "NVCV_RAW_BAYER_BCCR");
   (NVCV_RAW_BAYER_CRBC, "NVCV_RAW_BAYER_CRBC");
   (NVCV_RAW_BAYER_CBRC, "NVCV_RAW_BAYER_CBRC");
   (NVCV_RAW_BAYER_RCCC, "NVCV_RAW_BAYER_RCCC");
   (NVCV_RAW_BAYER_CRCC, "NVCV_RAW_BAYER_CRCC");
   (NVCV_RAW_BAYER_CCRC, "NVCV_RAW_BAYER_CCRC");
   (NVCV_RAW_BAYER_CCCR, "NVCV_RAW_BAYER_CCCR");
   (NVCV_RAW_BAYER_CCCC, "NVCV_RAW_BAYER_CCCC")].
Definition GetName_NVCVRawPattern (x : NVCVRawPattern) : string := enum_name "NVCVRawPattern" names_NVCVRawPattern x.

Definition names_NVCVColorSpace : list (Z * string) :=
  [(NVCV_COLOR_SPACE_BT601, "NVCV_COLOR_SPACE_BT601");
   (NVCV_COLOR_SPACE_BT709, "NVCV_COLOR_SPACE_BT709");
   (NVCV_COLOR_SPACE_BT2020, "NVCV_COLOR_SPACE_BT2020");
   (NVCV_COLOR_SPACE_DCIP3, "NVCV_COLOR_SPACE_DCIP3")].
Definition GetName_NVCVColorSpace (x : NVCVColorSpace) : string := enum_name "NVCVColorSpace" names_NVCVColorSpace x.

Definition names_NVCVWhitePoint : list (Z * string) :=
  [(NVCV_WHITE_POINT_D65, "NVCV_WHITE_POINT_D65")].
Definition GetName_NVCVWhitePoint (x : NVCVWhitePoint) : string := enum_name "NVCVWhitePoint" names_NVCVWhitePoint x.

Definition names_NVCVColorTransferFunction : list (Z * string) :=
  [(NVCV_COLOR_XFER_LINEAR, "NVCV_COLOR_XFER_LINEAR");
   (NVCV_COLOR_XFER_sRGB, "NVCV_COLOR_XFER_sRGB");
   (NVCV_COLOR_XFER_sYCC, "NVCV_COLOR_XFER_sYCC");
   (NVCV_COLOR_XFER_PQ, "NVCV_COLOR_XFER_PQ");
   (NVCV_COLOR_XFER_BT709, "NVCV_COLOR_XFER_BT709");
   (NVCV_COLOR_XFER_BT2020, "NVCV_COLOR_XFER_BT2020");
   (NVCV_COLOR_XFER_SMPTE240M, "NVCV_COLOR_XFER_SMPTE240M")].
Definition GetName_NVCVColorTransferFunction (x : NVCVColorTransferFunction) : string := enum_name "NVCVColorTransferFunction" names_NVCVColorTransferFunction x.

Definition names_NVCVColorRange : list (Z * string) :=
  [(NVCV_COLOR_RANGE_FULL, "NVCV_COLOR_RANGE_FULL");
   (NVCV_COLOR_RANGE_LIMITED, "NVCV_COLOR_RANGE_LIMITED")].
Definition GetName_NVCVColorRange (x : NVCVColorRange) : string := enum_name "NVCVColorRange" names_NVCVColorRange x.

Definition names_NVCVYCbCrEncoding : list (Z * string) :=
  [(NVCV_YCbCr_ENC_UNDEFINED, "NVCV_YCbCr_ENC_UNDEFINED");
   (NVCV_YCbCr_ENC_BT601, "NVCV_YCbCr_ENC_BT601");
   (NVCV_YCbCr_ENC_BT709, "NVCV_YCbCr_ENC_BT709");
   (NVCV_YCbCr_ENC_BT2020, "NVCV_YCbCr_ENC_BT2020");
   (NVCV_YCbCr_ENC_BT2020c, "NVCV_YCbCr_ENC_BT2020c");
   (NVCV_YCbCr_ENC_SMPTE240M, "NVCV_YCbCr_ENC_SMPTE240M")].
Definition GetName_NVCVYCbCrEncoding (x : NVCVYCbCrEncoding) : string := enum_name "NVCVYCbCrEncoding" names_NVCVYCbCrEncoding x.

Definition names_NVCVChromaSubsampling : list (Z * string) :=
  [(NVCV_CSS_444, "4:4:4"); (NVCV_CSS_422, "4:2:2"); (NVCV_CSS_422R, "4:2:2R");
   (NVCV_CSS_411, "4:1:1"); (NVCV_CSS_411R, "4:1:1R"); (NVCV_CSS_420, "4:2:0");
   (NVCV_CSS_410, "4:1:0"); (NVCV_CSS_410R, "4:1:0R")].
Definition GetName_NVCVChromaSubsampling (x : NVCVChromaSubsampling) : string :=
  enum_name "NVCVChromaSubsampling" names_NVCVChromaSubsampling x.

Definition names_NVCVColorSpec : list (Z * string) :=
  [(NVCV_COLOR_SPEC_UNDEFINED, "NVCV_COLOR_SPEC_UNDEFINED");
   (NVCV_COLOR_SPEC_MPEG2_BT601, "NVCV_COLOR_SPEC_MPEG2_BT601");
   (NVCV_COLOR_SPEC_MPEG2_BT709, "NVCV_COLOR_SPEC_MPEG2_BT709");
   (NVCV_COLOR_SPEC_MPEG2_SMPTE240M, "NVCV_COLOR_SPEC_MPEG2_SMPTE240M");
   (NVCV_COLOR_SPEC_BT601, "NVCV_COLOR_SPEC_BT601");
   (NVCV_COLOR_SPEC_BT601_ER, "NVCV_COLOR_SPEC_BT601_ER");
   (NVCV_COLOR_SPEC_BT709, "NVCV_COLOR_SPEC_BT709");
   (NVCV_COLOR_SPEC_BT709_ER, "NVCV_COLOR_SPEC_BT709_ER");
   (NVCV_COLOR_SPEC_BT709_LINEAR, "NVCV_COLOR_SPEC_BT709_LINEAR");
   (NVCV_COLOR_SPEC_BT2020, "NVCV_COLOR_SPEC_BT2020");
   (NVCV_COLOR_SPEC_BT2020_ER, "NVCV_COLOR_SPEC_BT2020_ER");
   (NVCV_COLOR_SPEC_BT2020_LINEAR, "NVCV_COLOR_SPEC_BT2020_LINEAR");
   (NVCV_COLOR_SPEC_BT2020_PQ, "NVCV_COLOR_SPEC_BT2020_PQ");
   (NVCV_COLOR_SPEC_BT2020_PQ_ER, "NVCV_COLOR_SPEC_BT2020_PQ_ER");
   (NVCV_COLOR_SPEC_BT2020c, "NVCV_COLOR_SPEC_BT2020c");
   (NVCV_COLOR_SPEC_BT2020c_ER, "NVCV_COLOR_SPEC_BT2020c_ER");
   (NVCV_COLOR_SPEC_SMPTE240M, "NVCV_COLOR_SPEC_SMPTE240M");
   (NVCV_COLOR_SPEC_sRGB, "NVCV_COLOR_SPEC_sRGB");
   (NVCV_COLOR_SPEC_sYCC, "NVCV_COLOR_SPEC_sYCC");
   (NVCV_COLOR_SPEC_DISPLAYP3, "NVCV_COLOR_SPEC_DISPLAYP3");
   (NVCV_COLOR_SPEC_DISPLAYP3_LINEAR, "NVCV_COLOR_SPEC_DISPLAYP3_LINEAR")].

(** [operator<<(ostream, ColorSpec)]: the predefined names, else the six fields. *)
Definition print_ColorSpec (cspec : Z) : string :=
  match enum_lookup names_NVCVColorSpec cspec with
  | Some n => n
  | None =>
      (if (cspec =? NVCV_COLOR_SPEC_FORCE32)%Z then "NVCVColorSpec(invalid)" else "") +:+
      "NVCVColorSpec(" +:+ GetName_NVCVColorSpace (ColorSpec.colorSpace cspec)
      +:+ "," +:+ GetName_NVCVYCbCrEncoding (ColorSpec.YCbCrEncoding cspec)
      +:+ "," +:+ GetName_NVCVColorTransferFunction (ColorSpec.xferFunc cspec)
      +:+ "," +:+ GetName_NVCVColorRange (ColorSpec.colorRange cspec)
      +:+ "," +:+ GetName_NVCVChromaLocation (horiz (ColorSpec.chromaLoc cspec))
      +:+ "," +:+ GetName_NVCVChromaLocation (vert (ColorSpec.chromaLoc cspec)) +:+ ")"
  end.

#[local] Close Scope string_scope.

(** ** Injectivity of the names *)

(** A table is unambiguous when its keys and its names are pairwise distinct
    and no name could be mistaken for the fallback text. *)
Definition table_ok (type : string) (table : list (Z * string)) : bool :=
  bool_decide (NoDup table.*1) && bool_decide (NoDup table.*2)
  && forallb (fun n => negb (String.prefix (type +:+ "(") n)) table.*2.

Lemma enum_lookup_elem table x n : enum_lookup table x = Some n -> (x, n) ∈ table.
Proof.
  induction table as [|[k m] rest IH]; cbn; [done|].
  destruct (Z.eqb_spec x k) as [->|]; [intros [= ->]; by left|]. intros H. right. auto.
Qed.

Lemma string_prefix_app (p s : string) : String.prefix p (p +:+ s) = true.
Proof.
  induction p as [|a p IH]; [by destruct s|].
  change (String a p +:+ s) with (String a (p +:+ s)). cbn [String.prefix].
  destruct (Ascii.ascii_dec a a); [apply IH|congruence].
Qed.

Lemma string_app_inj_l (p s t : string) : p +:+ s = p +:+ t -> s = t.
Proof.
  induction p as [|a p IH]; [done|]. intros H. apply IH. by injection H.
Qed.

Lemma string_app_inj_r1 (s t : string) (a : Ascii.ascii) :
  s +:+ String a "" = t +:+ String a "" -> s = t.
Proof.
  revert t. induction s as [|b s IH]; intros [|c t] H; try done.
  - injection H as <- H. by destruct t.
  - injection H as -> H. by destruct s.
  - injection H as -> H. f_equal. auto.
Qed.

Lemma NoDup_snd_inj {A B} (l : list (A * B)) x y n :
  NoDup l.*2 -> (x, n) ∈ l -> (y, n) ∈ l -> x = y.
Proof.
  induction l as [|[k m] l IH]; cbn; [by intros _ ?%elem_of_nil|].
  intros [Hm Hl]%NoDup_cons Hx Hy.
  assert (forall z, (z, m) ∈ l -> False) as Hno.
  { intros z Hz. apply Hm. apply list_elem_of_fmap. by exists (z, m). }
  apply elem_of_cons in Hx as [Ex|Hx], Hy as [Ey|Hy]; simplify_eq; eauto; exfalso; eauto.
Qed.

(** Distinct values have distinct names. *)
Lemma enum_name_inj type table x y :
  table_ok type table = true -> enum_name type table x = enum_name type table y -> x = y.
Proof.
  unfold table_ok, enum_name. intros H Heq. bool_hyps.
  assert (forall z n, enum_lookup table z = Some n ->
            forall s, n = ((type +:+ "(") +:+ s)%string -> False) as Hno.
  { intros z n Hz%enum_lookup_elem s ->.
    match goal with H : forallb _ _ = true |- _ =>
      pose proof (forallb_elem _ _ ((type +:+ "(") +:+ s)%string H) as Hp end.
    cbn beta in Hp. rewrite string_prefix_app in Hp.
    assert (((type +:+ "(") +:+ s)%string ∈ table.*2) as Hin; [|discriminate (Hp Hin)].
    apply list_elem_of_fmap. by exists (z, ((type +:+ "(") +:+ s)%string). }
  destruct (enum_lookup table x) as [n|] eqn:Ex, (enum_lookup table y) as [m|] eqn:Ey;
    unfold default in Heq; cbn [from_option id] in Heq; unfold id in Heq.
  - subst m. apply enum_lookup_elem in Ex, Ey. by eapply NoDup_snd_inj.
  - exfalso. by eapply Hno.
  - exfalso. by eapply Hno.
  - apply string_app_inj_l, string_app_inj_r1 in Heq. by apply (inj pretty).
Qed.

(** Every table of this file is unambiguous. *)
Lemma color_tables_ok :
  table_ok "NVCVColorModel" names_NVCVColorModel && table_ok "NVCVChromaLocation" names_NVCVChromaLocation
  && table_ok "NVCVRawPattern" names_NVCVRawPattern && table_ok "NVCVColorSpace" names_NVCVColorSpace
  && table_ok "NVCVWhitePoint" names_NVCVWhitePoint
  && table_ok "NVCVColorTransferFunction" names_NVCVColorTransferFunction
  && table_ok "NVCVColorRange" names_NVCVColorRange
  && table_ok "NVCVYCbCrEncoding" names_NVCVYCbCrEncoding
  && table_ok "NVCVChromaSubsampling" names_NVCVChromaSubsampling = true.
Proof. by vm_compute. Qed.

(** ** Properties *)

Lemma set_range_15 m v o l : 0 <= o -> 0 <= l < 64 -> o + l <= 15 -> in_u 15 m ->
  in_u 15 (UpdateBitfield m v o l).
Proof.
  intros Ho Hl Hol Hm. apply in_u_lor; [done|by apply in_u_land|].
  pose proof (SetBitfield_range v o l Ho Hl) as [? Hr]. split; [done|].
  eapply Z.lt_le_trans; [apply Hr|]. apply Z.pow_le_mono_r; lia.
Qed.

(** The packed color specification implements a record of six independent
    fields: the constructor stores exactly the values it is given, every setter
    changes its own field (modulo the field's width) and no other and keeps the
    word within 15 bits, and two words with the same fields are equal. *)
Theorem color_spec_refines_fields :
  (forall s e x r l, ColorSpec.valid (ColorSpec.mkFields s x e l r) ->
     in_u 15 (ColorSpec.make s e x r l)
     /\ ColorSpec.abs (ColorSpec.make s e x r l) = ColorSpec.mkFields s x e l r)
  /\ (forall m v l, in_u 15 m ->
     let '(ColorSpec.mkFields s x e lc r) := ColorSpec.abs m in
     ColorSpec.abs (ColorSpec.set_colorSpace m v) = ColorSpec.mkFields (wrapu 3 v) x e lc r
     /\ ColorSpec.abs (ColorSpec.set_xferFunc m v) = ColorSpec.mkFields s (wrapu 4 v) e lc r
     /\ ColorSpec.abs (ColorSpec.set_YCbCrEncoding m v) = ColorSpec.mkFields s x (wrapu 3 v) lc r
     /\ ColorSpec.abs (ColorSpec.set_colorRange m v) = ColorSpec.mkFields s x e lc (wrapu 1 v)
     /\ ColorSpec.abs (ColorSpec.set_chromaLoc m l)
        = ColorSpec.mkFields s x e (mkChromaLoc (wrapu 2 (horiz l)) (wrapu 2 (vert l))) r
     /\ Forall (in_u 15) [ColorSpec.set_colorSpace m v; ColorSpec.set_xferFunc m v;
          ColorSpec.set_YCbCrEncoding m v; ColorSpec.set_colorRange m v;
          ColorSpec.set_chromaLoc m l])
  /\ (forall m m', in_u 15 m -> in_u 15 m' -> ColorSpec.abs m = ColorSpec.abs m' -> m = m').
Proof.
  split_and!.
  - intros. split; [apply ColorSpec.make_range|by apply ColorSpec.abs_make].
  - intros m v l Hm. unfold ColorSpec.abs at 1. cbv beta iota. split_and!; [autorewrite with bitfield; done..|].
    rewrite ColorSpec.set_chromaLoc_updates.
    repeat constructor; repeat apply set_range_15; (done || lia).
  - apply ColorSpec.abs_inj.
Qed.

Lemma color_spec_refines_fields_witness :
  ColorSpec.abs (ColorSpec.make NVCV_COLOR_SPACE_BT2020 NVCV_YCbCr_ENC_BT2020c NVCV_COLOR_XFER_PQ
    NVCV_COLOR_RANGE_LIMITED (mkChromaLoc NVCV_CHROMA_LOC_EVEN NVCV_CHROMA_LOC_ODD))
  = ColorSpec.mkFields 2 3 4 (mkChromaLoc 1 3) 1.
Proof.
  apply (proj1 color_spec_refines_fields). repeat split; vm_compute; congruence.
Defined.

(** Chroma subsampling and sample counts are inverse to each other: every
    scheme's sample counts map back to it, and a pair of counts that is accepted
    is returned for the scheme it made, except (1,1), which 4:4:4 absorbs. *)
Theorem chroma_samples_roundtrip :
  (forall css hv, GetChromaSamples css = Ok hv ->
     MakeNVCVChromaSubsampling hv.1 hv.2 = Ok css)
  /\ (forall h v css, MakeNVCVChromaSubsampling h v = Ok css ->
     GetChromaSamples css = Ok (if (h =? 1) && (v =? 1) then (4, 4) else (h, v)))
  /\ (forall h v, MakeNVCVChromaSubsampling h v = Throw NVCV_ERROR_INVALID_ARGUMENT
     <-> ~ (In h [1; 2; 4] /\ In v [1; 2; 4])).
Proof.
  split_and!.
  - intros css hv. unfold GetChromaSamples.
    repeat match goal with |- context [css =? ?k] =>
      destruct (Z.eqb_spec css k) as [->|]; [intros [= <-]; reflexivity|] end. discriminate.
  - intros h v css H. unfold MakeNVCVChromaSubsampling in H.
    repeat match type of H with context [match ?x with _ => _ end] =>
      destruct x; try discriminate H end; injection H as <-; reflexivity.
  - intros h v. unfold MakeNVCVChromaSubsampling. cbn [In].
    repeat case_match; subst; split; try done; try lia; intros H; exfalso; apply H; lia.
Qed.

Lemma chroma_samples_roundtrip_witness :
  MakeNVCVChromaSubsampling 2 2 = Ok NVCV_CSS_420 /\ GetChromaSamples NVCV_CSS_420 = Ok (2, 2).
Proof.
  split; [reflexivity|]. apply (proj1 (proj2 chroma_samples_roundtrip) 2 2). reflexivity.
Defined.
