(* ===== verification/DataLayout.v ===== *)
(** * Data layouts ([priv/DataLayout.cpp], [nvcv/DataLayout.h])

    Packings (how many channels a plane element has and how many bits each
    occupies) and swizzles (which channel feeds which component). The packing
    table [g_packingToData] is the association list the source initialises its
    [std::map] with; [g_dataToPacking] is the reverse multimap, in key order. *)
From S2P Require Export ColorSpec MathUtil.
From stdpp Require Import options.
#[local] Open Scope Z_scope.

Abbreviation NVCVPacking := Z (only parsing).
Abbreviation NVCVDataKind := Z (only parsing).
Abbreviation NVCVMemLayout := Z (only parsing).
Abbreviation NVCVChannel := Z (only parsing).
Abbreviation NVCVAlphaType := Z (only parsing).
Abbreviation NVCVExtraChannel := Z (only parsing).
Abbreviation NVCVSwizzle := Z (only parsing).
Abbreviation NVCVByteOrder := Z (only parsing).

(** ** Encoding macros ([detail/FormatUtils.h]) *)

Definition NVCV_DETAIL_ENCODE_BPP (bpp : Z) : Z :=
  if bpp <=? 8 then 0
  else if bpp <=? 32 then Z.quot bpp 8 - 1
  else if bpp <=? 64 then Z.quot bpp 16 + 1
  else if bpp <=? 128 then Z.quot bpp 32 + 3
  else Z.quot bpp 64 + 5.

Definition NVCV_DETAIL_BPP_NCH (bpp chcount : Z) : Z :=
  Z.lor (Z.lor (SetBitfield (NVCV_DETAIL_ENCODE_BPP bpp) 6 4) (SetBitfield (chcount - 1) 4 2))
    (SetBitfield (if bpp <=? 2 then bpp else if bpp =? 4 then 3 else if bpp =? 8 then 4 else 0) 0 4).

Definition NVCV_DETAIL_MAKE_SWIZZLE (x y z w : Z) : Z :=
  Z.lor (Z.lor (Z.lor (SetBitfield x 0 3) (SetBitfield y 3 3)) (SetBitfield z 6 3)) (SetBitfield w 9 3).

(** ** Enumerations *)

Definition NVCV_MAX_CHANNEL_COUNT : Z := 4.
Definition NVCV_MAX_EXTRA_CHANNEL_COUNT : Z := 7.
Definition NVCV_MAX_SWIZZLE_COUNT : Z := 57.

Definition NVCV_PACKING_0 : Z := 0.
Definition NVCV_PACKING_X1 : Z := NVCV_DETAIL_BPP_NCH 1 1.
Definition NVCV_PACKING_X2 : Z := NVCV_DETAIL_BPP_NCH 2 1.
Definition NVCV_PACKING_X4 : Z := NVCV_DETAIL_BPP_NCH 4 1.
Definition NVCV_PACKING_X8 : Z := NVCV_DETAIL_BPP_NCH 8 1.
Definition NVCV_PACKING_b4X4 : Z := NVCV_PACKING_X8 + 1.
Definition NVCV_PACKING_X4b4 : Z := NVCV_PACKING_b4X4 + 1.
Definition NVCV_PACKING_X4Y4 : Z := NVCV_DETAIL_BPP_NCH 8 2.
Definition NVCV_PACKING_X3Y3Z2 : Z := NVCV_DETAIL_BPP_NCH 8 3.
Definition NVCV_PACKING_X16 : Z := NVCV_DETAIL_BPP_NCH 16 1.
Definition NVCV_PACKING_b6X10 : Z := NVCV_PACKING_X16 + 1.
Definition NVCV_PACKING_X10b6 : Z := NVCV_PACKING_b6X10 + 1.
Definition NVCV_PACKING_b4X12 : Z := NVCV_PACKING_X10b6 + 1.
Definition NVCV_PACKING_X12b4 : Z := NVCV_PACKING_b4X12 + 1.
Definition NVCV_PACKING_b2X14 : Z := NVCV_PACKING_X12b4 + 1.
Definition NVCV_PACKING_X14b2 : Z := NVCV_PACKING_b2X14 + 1.
Definition NVCV_PACKING_X8_Y8 : Z := NVCV_DETAIL_BPP_NCH 16 2.
Definition NVCV_PACKING_X5Y5Z6 : Z := NVCV_DETAIL_BPP_NCH 16 3.
Definition NVCV_PACKING_X5Y6Z5 : Z := NVCV_PACKING_X5Y5Z6 + 1.
Definition NVCV_PACKING_X6Y5Z5 : Z := NVCV_PACKING_X5Y6Z5 + 1.
Definition NVCV_PACKING_b4X4Y4Z4 : Z := NVCV_PACKING_X6Y5Z5 + 1.
Definition NVCV_PACKING_b1X5Y5Z5 : Z := NVCV_PACKING_b4X4Y4Z4 + 1.
Definition NVCV_PACKING_X5Y5b1Z5 : Z := NVCV_PACKING_b1X5Y5Z5 + 1.
Definition NVCV_PACKING_X1Y5Z5W5 : Z := NVCV_DETAIL_BPP_NCH 16 4.
Definition NVCV_PACKING_X4Y4Z4W4 : Z := NVCV_PACKING_X1Y5Z5W5 + 1.
Definition NVCV_PACKING_X5Y1Z5W5 : Z := NVCV_PACKING_X4Y4Z4W4 + 1.
Definition NVCV_PACKING_X5Y5Z1W5 : Z := NVCV_PACKING_X5Y1Z5W5 + 1.
Definition NVCV_PACKING_X5Y5Z5W1 : Z := NVCV_PACKING_X5Y5Z1W5 + 1.
Definition NVCV_PACKING_X8_Y8__X8_Z8 : Z := NVCV_PACKING_X5Y5Z5W1 + 1.
Definition NVCV_PACKING_Y8_X8__Z8_X8 : Z := NVCV_PACKING_X8_Y8__X8_Z8 + 1.
Definition NVCV_PACKING_X24 : Z := NVCV_DETAIL_BPP_NCH 24 1.
Definition NVCV_PACKING_X8_Y8_Z8 : Z := NVCV_DETAIL_BPP_NCH 24 3.
Definition NVCV_PACKING_X32 : Z := NVCV_DETAIL_BPP_NCH 32 1.
Definition NVCV_PACKING_b12X20 : Z := NVCV_PACKING_X32 + 1.
Definition NVCV_PACKING_X20b12 : Z := NVCV_PACKING_b12X20 + 1.
Definition NVCV_PACKING_X24b8 : Z := NVCV_PACKING_X20b12 + 1.
Definition NVCV_PACKING_b8X24 : Z := NVCV_PACKING_X24b8 + 1.
Definition NVCV_PACKING_X16_Y16 : Z := NVCV_DETAIL_BPP_NCH 32 2.
Definition NVCV_PACKING_X10b6_Y10b6 : Z := NVCV_PACKING_X16_Y16 + 1.
Definition NVCV_PACKING_X12b4_Y12b4 : Z := NVCV_PACKING_X10b6_Y10b6 + 1.
Definition NVCV_PACKING_X10Y11Z11 : Z := NVCV_DETAIL_BPP_NCH 32 3.
Definition NVCV_PACKING_X11Y11Z10 : Z := NVCV_PACKING_X10Y11Z11 + 1.
Definition NVCV_PACKING_b2X10Y10Z10 : Z := NVCV_PACKING_X11Y11Z10 + 1.
Definition NVCV_PACKING_X10Y10Z10b2 : Z := NVCV_PACKING_b2X10Y10Z10 + 1.
Definition NVCV_PACKING_X8_Y8_Z8_W8 : Z := NVCV_DETAIL_BPP_NCH 32 4.
Definition NVCV_PACKING_X2Y10Z10W10 : Z := NVCV_PACKING_X8_Y8_Z8_W8 + 1.
Definition NVCV_PACKING_X10Y10Z10W2 : Z := NVCV_PACKING_X2Y10Z10W10 + 1.
Definition NVCV_PACKING_X48 : Z := NVCV_DETAIL_BPP_NCH 48 1.
Definition NVCV_PACKING_X16_Y16_Z16 : Z := NVCV_DETAIL_BPP_NCH 48 3.
Definition NVCV_PACKING_X64 : Z := NVCV_DETAIL_BPP_NCH 64 1.
Definition NVCV_PACKING_X32_Y32 : Z := NVCV_DETAIL_BPP_NCH 64 2.
Definition NVCV_PACKING_X32_Y24b8 : Z := NVCV_PACKING_X32_Y32 + 1.
Definition NVCV_PACKING_X16_Y16_Z16_W16 : Z := NVCV_DETAIL_BPP_NCH 64 4.
Definition NVCV_PACKING_X96 : Z := NVCV_DETAIL_BPP_NCH 96 1.
Definition NVCV_PACKING_X32_Y32_Z32 : Z := NVCV_DETAIL_BPP_NCH 96 3.
Definition NVCV_PACKING_X128 : Z := NVCV_DETAIL_BPP_NCH 128 1.
Definition NVCV_PACKING_X64_Y64 : Z := NVCV_DETAIL_BPP_NCH 128 2.
Definition NVCV_PACKING_X32_Y32_Z32_W32 : Z := NVCV_DETAIL_BPP_NCH 128 4.
Definition NVCV_PACKING_X192 : Z := NVCV_DETAIL_BPP_NCH 192 1.
Definition NVCV_PACKING_X64_Y64_Z64 : Z := NVCV_DETAIL_BPP_NCH 192 3.
Definition NVCV_PACKING_X256 : Z := NVCV_DETAIL_BPP_NCH 256 1.
Definition NVCV_PACKING_X128_Y128 : Z := NVCV_DETAIL_BPP_NCH 256 2.
Definition NVCV_PACKING_X64_Y64_Z64_W64 : Z := NVCV_DETAIL_BPP_NCH 256 4.
Definition NVCV_PACKING_LIMIT32 : Z := 2147483647.

Definition NVCV_DATA_KIND_UNSPECIFIED : Z := -1.
Definition NVCV_DATA_KIND_UNSIGNED : Z := NVCV_DATA_KIND_UNSPECIFIED + 1.
Definition NVCV_DATA_KIND_SIGNED : Z := NVCV_DATA_KIND_UNSIGNED + 1.
Definition NVCV_DATA_KIND_FLOAT : Z := NVCV_DATA_KIND_SIGNED + 1.
Definition NVCV_DATA_KIND_COMPLEX : Z := NVCV_DATA_KIND_FLOAT + 1.

Definition NVCV_MEM_LAYOUT_PITCH_LINEAR : Z := 0.
Definition NVCV_MEM_LAYOUT_BLOCK1_LINEAR : Z := NVCV_MEM_LAYOUT_PITCH_LINEAR + 1.
Definition NVCV_MEM_LAYOUT_BLOCK2_LINEAR : Z := NVCV_MEM_LAYOUT_BLOCK1_LINEAR + 1.
Definition NVCV_MEM_LAYOUT_BLOCK4_LINEAR : Z := NVCV_MEM_LAYOUT_BLOCK2_LINEAR + 1.
Definition NVCV_MEM_LAYOUT_BLOCK8_LINEAR : Z := NVCV_MEM_LAYOUT_BLOCK4_LINEAR + 1.
Definition NVCV_MEM_LAYOUT_BLOCK16_LINEAR : Z := NVCV_MEM_LAYOUT_BLOCK8_LINEAR + 1.
Definition NVCV_MEM_LAYOUT_BLOCK32_LINEAR : Z := NVCV_MEM_LAYOUT_BLOCK16_LINEAR + 1.
Definition NVCV_MEM_LAYOUT_BLOCK_LINEAR : Z := NVCV_MEM_LAYOUT_BLOCK2_LINEAR.
Definition NVCV_MEM_LAYOUT_PL : Z := NVCV_MEM_LAYOUT_PITCH_LINEAR.
Definition NVCV_MEM_LAYOUT_BL : Z := NVCV_MEM_LAYOUT_BLOCK_LINEAR.

Definition NVCV_CHANNEL_0 : Z := 0.
Definition NVCV_CHANNEL_X : Z := NVCV_CHANNEL_0 + 1.
Definition NVCV_CHANNEL_Y : Z := NVCV_CHANNEL_X + 1.
Definition NVCV_CHANNEL_Z : Z := NVCV_CHANNEL_Y + 1.
Definition NVCV_CHANNEL_W : Z := NVCV_CHANNEL_Z + 1.
Definition NVCV_CHANNEL_1 : Z := NVCV_CHANNEL_W + 1.
Definition NVCV_CHANNEL_FORCE8 : Z := 255.

Definition NVCV_ALPHA_ASSOCIATED : Z := 0.
Definition NVCV_ALPHA_UNASSOCIATED : Z := NVCV_ALPHA_ASSOCIATED + 1.

Definition NVCV_EXTRA_CHANNEL_U : Z := 0.
Definition NVCV_EXTRA_CHANNEL_D : Z := NVCV_EXTRA_CHANNEL_U + 1.
Definition NVCV_EXTRA_CHANNEL_POS3D : Z := NVCV_EXTRA_CHANNEL_D + 1.

Definition NVCV_SWIZZLE_0000 : Z := 0.
Definition NVCV_SWIZZLE_X000 : Z := NVCV_SWIZZLE_0000 + 1.
Definition NVCV_SWIZZLE_XY00 : Z := NVCV_SWIZZLE_X000 + 1.
Definition NVCV_SWIZZLE_XYZ0 : Z := NVCV_SWIZZLE_XY00 + 1.
Definition NVCV_SWIZZLE_XYZW : Z := NVCV_SWIZZLE_XYZ0 + 1.
Definition NVCV_SWIZZLE_1000 : Z := NVCV_SWIZZLE_XYZW + 1.
Definition NVCV_SWIZZLE_0001 : Z := NVCV_SWIZZLE_1000 + 1.
Definition NVCV_SWIZZLE_ZYXW : Z := NVCV_SWIZZLE_0001 + 1.
Definition NVCV_SWIZZLE_WXYZ : Z := NVCV_SWIZZLE_ZYXW + 1.
Definition NVCV_SWIZZLE_WZYX : Z := NVCV_SWIZZLE_WXYZ + 1.
Definition NVCV_SWIZZLE_YZWX : Z := NVCV_SWIZZLE_WZYX + 1.
Definition NVCV_SWIZZLE_XYZ1 : Z := NVCV_SWIZZLE_YZWX + 1.
Definition NVCV_SWIZZLE_YZW1 : Z := NVCV_SWIZZLE_XYZ1 + 1.
Definition NVCV_SWIZZLE_XXX1 : Z := NVCV_SWIZZLE_YZW1 + 1.
Definition NVCV_SWIZZLE_XZY1 : Z := NVCV_SWIZZLE_XXX1 + 1.
Definition NVCV_SWIZZLE_ZYX1 : Z := NVCV_SWIZZLE_XZY1 + 1.
Definition NVCV_SWIZZLE_ZYX0 : Z := NVCV_SWIZZLE_ZYX1 + 1.
Definition NVCV_SWIZZLE_WZY1 : Z := NVCV_SWIZZLE_ZYX0 + 1.
Definition NVCV_SWIZZLE_0X00 : Z := NVCV_SWIZZLE_WZY1 + 1.
Definition NVCV_SWIZZLE_00X0 : Z := NVCV_SWIZZLE_0X00 + 1.
Definition NVCV_SWIZZLE_000X : Z := NVCV_SWIZZLE_00X0 + 1.
Definition NVCV_SWIZZLE_Y000 : Z := NVCV_SWIZZLE_000X + 1.
Definition NVCV_SWIZZLE_0Y00 : Z := NVCV_SWIZZLE_Y000 + 1.
Definition NVCV_SWIZZLE_00Y0 : Z := NVCV_SWIZZLE_0Y00 + 1.
Definition NVCV_SWIZZLE_000Y : Z := NVCV_SWIZZLE_00Y0 + 1.
Definition NVCV_SWIZZLE_0XY0 : Z := NVCV_SWIZZLE_000Y + 1.
Definition NVCV_SWIZZLE_XXXY : Z := NVCV_SWIZZLE_0XY0 + 1.
Definition NVCV_SWIZZLE_YYYX : Z := NVCV_SWIZZLE_XXXY + 1.
Definition NVCV_SWIZZLE_0YX0 : Z := NVCV_SWIZZLE_YYYX + 1.
Definition NVCV_SWIZZLE_X00Y : Z := NVCV_SWIZZLE_0YX0 + 1.
Definition NVCV_SWIZZLE_Y00X : Z := NVCV_SWIZZLE_X00Y + 1.
Definition NVCV_SWIZZLE_X001 : Z := NVCV_SWIZZLE_Y00X + 1.
Definition NVCV_SWIZZLE_XY01 : Z := NVCV_SWIZZLE_X001 + 1.
Definition NVCV_SWIZZLE_0XZ0 : Z := NVCV_SWIZZLE_XY01 + 1.
Definition NVCV_SWIZZLE_0ZX0 : Z := NVCV_SWIZZLE_0XZ0 + 1.
Definition NVCV_SWIZZLE_XZY0 : Z := NVCV_SWIZZLE_0ZX0 + 1.
Definition NVCV_SWIZZLE_YZX1 : Z := NVCV_SWIZZLE_XZY0 + 1.
Definition NVCV_SWIZZLE_ZYW1 : Z := NVCV_SWIZZLE_YZX1 + 1.
Definition NVCV_SWIZZLE_0YX1 : Z := NVCV_SWIZZLE_ZYW1 + 1.
Definition NVCV_SWIZZLE_XYXZ : Z := NVCV_SWIZZLE_0YX1 + 1.
Definition NVCV_SWIZZLE_YXZX : Z := NVCV_SWIZZLE_XYXZ + 1.
Definition NVCV_SWIZZLE_XZ00 : Z := NVCV_SWIZZLE_YXZX + 1.
Definition NVCV_SWIZZLE_WYXZ : Z := NVCV_SWIZZLE_XZ00 + 1.
Definition NVCV_SWIZZLE_YX00 : Z := NVCV_SWIZZLE_WYXZ + 1.
Definition NVCV_SWIZZLE_YX01 : Z := NVCV_SWIZZLE_YX00 + 1.
Definition NVCV_SWIZZLE_00YX : Z := NVCV_SWIZZLE_YX01 + 1.
Definition NVCV_SWIZZLE_00XY : Z := NVCV_SWIZZLE_00YX + 1.
Definition NVCV_SWIZZLE_0XY1 : Z := NVCV_SWIZZLE_00XY + 1.
Definition NVCV_SWIZZLE_0X01 : Z := NVCV_SWIZZLE_0XY1 + 1.
Definition NVCV_SWIZZLE_YZXW : Z := NVCV_SWIZZLE_0X01 + 1.
Definition NVCV_SWIZZLE_YW00 : Z := NVCV_SWIZZLE_YZXW + 1.
Definition NVCV_SWIZZLE_XYW0 : Z := NVCV_SWIZZLE_YW00 + 1.
Definition NVCV_SWIZZLE_YZW0 : Z := NVCV_SWIZZLE_XYW0 + 1.
Definition NVCV_SWIZZLE_YZ00 : Z := NVCV_SWIZZLE_YZW0 + 1.
Definition NVCV_SWIZZLE_00X1 : Z := NVCV_SWIZZLE_YZ00 + 1.
Definition NVCV_SWIZZLE_0ZXY : Z := NVCV_SWIZZLE_00X1 + 1.
Definition NVCV_SWIZZLE_UNSUPPORTED : Z := 63.

Definition NVCV_ORDER_LSB : Z := 0.
Definition NVCV_ORDER_MSB : Z := NVCV_ORDER_LSB + 1.


(** ** Packing parameters and the packing table *)

Record NVCVPackingParams := mkPackingParams {
  byteOrder : NVCVByteOrder; alignment : Z; p_swizzle : NVCVSwizzle; bits : list Z }.

#[global] Instance NVCVPackingParams_eq_dec : EqDecision NVCVPackingParams.
Proof. solve_decision. Defined.

Record PackingData := mkPackingData { pd_name : string; pd_params : NVCVPackingParams }.

(** [util::RoundUpNextPowerOfTwo] at [int]. *)
Definition align_of (bytes : Z) : Z := RoundUpNextPowerOfTwo 32 bytes.

Definition pack_entry : Type := NVCVPacking * PackingData.

Definition entry (packing : NVCVPacking) (name : string) (order align sw : Z) (b : list Z) : pack_entry :=
  (packing, mkPackingData name (mkPackingParams order align sw b)).

Definition DEF_PACK1 pk name x : pack_entry :=
  entry pk name NVCV_ORDER_LSB (align_of (Z.quot x 8)) NVCV_SWIZZLE_0000 [x; 0; 0; 0].
Definition DEF_PACK2 pk name x y : pack_entry :=
  entry pk name NVCV_ORDER_LSB (align_of (Z.quot (x + y) 8)) NVCV_SWIZZLE_0000 [x; y; 0; 0].
Definition DEF_PACK3 pk name x y z : pack_entry :=
  entry pk name NVCV_ORDER_LSB (align_of (Z.quot (x + y + z) 8)) NVCV_SWIZZLE_0000 [x; y; z; 0].
Definition DEF_PACK4 pk name x y z w : pack_entry :=
  entry pk name NVCV_ORDER_LSB (align_of (Z.quot (x + y + z + w) 8)) NVCV_SWIZZLE_0000 [x; y; z; w].
Definition DEF_FIX_PACK2 pk name x y : pack_entry :=
  entry pk name NVCV_ORDER_MSB (align_of (if x =? y then Z.quot x 8 else Z.quot (x + y) 8))
    NVCV_SWIZZLE_0000 [x; y; 0; 0].
Definition DEF_FIX_PACK3 pk name x y z : pack_entry :=
  entry pk name NVCV_ORDER_MSB
    (align_of (if (x =? y) && (y =? z) then Z.quot x 8 else Z.quot (x + y + z) 8))
    NVCV_SWIZZLE_0000 [x; y; z; 0].
Definition DEF_FIX_PACK4 pk name x y z w : pack_entry :=
  entry pk name NVCV_ORDER_MSB
    (align_of (if (x =? y) && (y =? z) && (z =? w) then Z.quot x 8 else Z.quot (x + y + z + w) 8))
    NVCV_SWIZZLE_0000 [x; y; z; w].
Definition DEF_MSB_PACK1 pk name x bx : pack_entry :=
  entry pk name NVCV_ORDER_MSB (align_of (Z.quot (x + bx) 8)) NVCV_SWIZZLE_X000 [x; bx; 0; 0].
Definition DEF_LSB_PACK1 pk name bx x : pack_entry :=
  entry pk name NVCV_ORDER_LSB (align_of (Z.quot (x + bx) 8)) NVCV_SWIZZLE_Y000 [bx; x; 0; 0].
Definition DEF_FIX_MSB_PACK2 pk name x bx y by_ : pack_entry :=
  entry pk name NVCV_ORDER_MSB
    (align_of (if x + bx =? y + by_ then Z.quot (x + bx) 8 else Z.quot (x + bx + y + by_) 8))
    NVCV_SWIZZLE_XZ00 [x; bx; y; by_].
Definition DEF_LSB_PACK3 pk name bx x y z : pack_entry :=
  entry pk name NVCV_ORDER_LSB (align_of (Z.quot (bx + x + y + z) 8)) NVCV_SWIZZLE_YZW0 [bx; x; y; z].
(** The macro pastes [b##bx] where its parameter is [bz], so the name it
    stringizes contains the literal token [bx]. *)
Definition DEF_MSB_PACK3 pk name x y z bz : pack_entry :=
  entry pk name NVCV_ORDER_MSB (align_of (Z.quot (x + y + z + bz) 8)) NVCV_SWIZZLE_XYZ0 [x; y; z; bz].
Definition DEF_LSB_PACK4 pk name x y z w : pack_entry :=
  entry pk name NVCV_ORDER_LSB (align_of (Z.quot (x + y + z + w) 8)) NVCV_SWIZZLE_0000 [x; y; z; w].

(** The explicit entries of [CLANGFORMAT_WAR]. *)
Definition CLANGFORMAT_WAR : list pack_entry :=
  [entry NVCV_PACKING_0 "NVCV_PACKING_0" NVCV_ORDER_LSB 0 NVCV_SWIZZLE_0000 [0; 0; 0; 0];
   entry NVCV_PACKING_X8_Y8__X8_Z8 "NVCV_PACKING_X8_Y8__X8_Z8" NVCV_ORDER_MSB 1 NVCV_SWIZZLE_XYXZ [8; 8; 8; 8];
   entry NVCV_PACKING_Y8_X8__Z8_X8 "NVCV_PACKING_Y8_X8__Z8_X8" NVCV_ORDER_MSB 1 NVCV_SWIZZLE_YXZX [8; 8; 8; 8];
   entry NVCV_PACKING_X5Y5b1Z5 "NVCV_PACKING_X5Y5b1Z5" NVCV_ORDER_LSB 2 NVCV_SWIZZLE_XYW0 [5; 5; 1; 5];
   entry NVCV_PACKING_X32_Y24b8 "NVCV_PACKING_X32_Y24b8" NVCV_ORDER_MSB 4 NVCV_SWIZZLE_XY00 [32; 24; 8; 0]].

Definition g_packingToData : list pack_entry := Eval vm_compute in
  [DEF_PACK1 NVCV_PACKING_X1 "NVCV_PACKING_X1" 1;
   DEF_PACK1 NVCV_PACKING_X2 "NVCV_PACKING_X2" 2;
   DEF_PACK1 NVCV_PACKING_X4 "NVCV_PACKING_X4" 4;
   DEF_PACK1 NVCV_PACKING_X8 "NVCV_PACKING_X8" 8;
   DEF_LSB_PACK1 NVCV_PACKING_b4X4 "NVCV_PACKING_b4X4" 4 4;
   DEF_MSB_PACK1 NVCV_PACKING_X4b4 "NVCV_PACKING_X4b4" 4 4;
   DEF_PACK2 NVCV_PACKING_X4Y4 "NVCV_PACKING_X4Y4" 4 4;
   DEF_PACK3 NVCV_PACKING_X3Y3Z2 "NVCV_PACKING_X3Y3Z2" 3 3 2;
   DEF_PACK1 NVCV_PACKING_X16 "NVCV_PACKING_X16" 16;
   DEF_FIX_PACK2 NVCV_PACKING_X8_Y8 "NVCV_PACKING_X8_Y8" 8 8;
   DEF_LSB_PACK1 NVCV_PACKING_b6X10 "NVCV_PACKING_b6X10" 6 10;
   DEF_MSB_PACK1 NVCV_PACKING_X10b6 "NVCV_PACKING_X10b6" 10 6;
   DEF_LSB_PACK1 NVCV_PACKING_b2X14 "NVCV_PACKING_b2X14" 2 14;
   DEF_MSB_PACK1 NVCV_PACKING_X14b2 "NVCV_PACKING_X14b2" 14 2;
   DEF_MSB_PACK1 NVCV_PACKING_X12b4 "NVCV_PACKING_X12b4" 12 4;
   DEF_LSB_PACK1 NVCV_PACKING_b4X12 "NVCV_PACKING_b4X12" 4 12;
   DEF_PACK3 NVCV_PACKING_X5Y5Z6 "NVCV_PACKING_X5Y5Z6" 5 5 6;
   DEF_PACK3 NVCV_PACKING_X5Y6Z5 "NVCV_PACKING_X5Y6Z5" 5 6 5;
   DEF_PACK3 NVCV_PACKING_X6Y5Z5 "NVCV_PACKING_X6Y5Z5" 6 5 5;
   DEF_LSB_PACK3 NVCV_PACKING_b4X4Y4Z4 "NVCV_PACKING_b4X4Y4Z4" 4 4 4 4;
   DEF_LSB_PACK4 NVCV_PACKING_X4Y4Z4W4 "NVCV_PACKING_X4Y4Z4W4" 4 4 4 4;
   DEF_LSB_PACK3 NVCV_PACKING_b1X5Y5Z5 "NVCV_PACKING_b1X5Y5Z5" 1 5 5 5;
   DEF_PACK4 NVCV_PACKING_X1Y5Z5W5 "NVCV_PACKING_X1Y5Z5W5" 1 5 5 5;
   DEF_PACK4 NVCV_PACKING_X5Y1Z5W5 "NVCV_PACKING_X5Y1Z5W5" 5 1 5 5;
   DEF_PACK4 NVCV_PACKING_X5Y5Z1W5 "NVCV_PACKING_X5Y5Z1W5" 5 5 1 5;
   DEF_PACK4 NVCV_PACKING_X5Y5Z5W1 "NVCV_PACKING_X5Y5Z5W1" 5 5 5 1;
   DEF_PACK1 NVCV_PACKING_X24 "NVCV_PACKING_X24" 24;
   DEF_FIX_PACK3 NVCV_PACKING_X8_Y8_Z8 "NVCV_PACKING_X8_Y8_Z8" 8 8 8;
   DEF_PACK1 NVCV_PACKING_X32 "NVCV_PACKING_X32" 32;
   DEF_FIX_PACK2 NVCV_PACKING_X16_Y16 "NVCV_PACKING_X16_Y16" 16 16;
   DEF_MSB_PACK1 NVCV_PACKING_X20b12 "NVCV_PACKING_X20b12" 20 12;
   DEF_LSB_PACK1 NVCV_PACKING_b12X20 "NVCV_PACKING_b12X20" 12 20;
   DEF_MSB_PACK1 NVCV_PACKING_X24b8 "NVCV_PACKING_X24b8" 24 8;
   DEF_LSB_PACK1 NVCV_PACKING_b8X24 "NVCV_PACKING_b8X24" 8 24;
   DEF_PACK3 NVCV_PACKING_X10Y11Z11 "NVCV_PACKING_X10Y11Z11" 10 11 11;
   DEF_PACK3 NVCV_PACKING_X11Y11Z10 "NVCV_PACKING_X11Y11Z10" 11 11 10;
   DEF_PACK4 NVCV_PACKING_X2Y10Z10W10 "NVCV_PACKING_X2Y10Z10W10" 2 10 10 10;
   DEF_FIX_PACK4 NVCV_PACKING_X8_Y8_Z8_W8 "NVCV_PACKING_X8_Y8_Z8_W8" 8 8 8 8;
   DEF_FIX_MSB_PACK2 NVCV_PACKING_X10b6_Y10b6 "NVCV_PACKING_X10b6_Y10b6" 10 6 10 6;
   DEF_PACK4 NVCV_PACKING_X10Y10Z10W2 "NVCV_PACKING_X10Y10Z10W2" 10 10 10 2;
   DEF_FIX_MSB_PACK2 NVCV_PACKING_X12b4_Y12b4 "NVCV_PACKING_X12b4_Y12b4" 12 4 12 4;
   DEF_LSB_PACK3 NVCV_PACKING_b2X10Y10Z10 "NVCV_PACKING_b2X10Y10Z10" 2 10 10 10;
   DEF_MSB_PACK3 NVCV_PACKING_X10Y10Z10b2 "NVCV_PACKING_bbxX10Y10Z10" 10 10 10 2;
   DEF_PACK1 NVCV_PACKING_X48 "NVCV_PACKING_X48" 48;
   DEF_FIX_PACK3 NVCV_PACKING_X16_Y16_Z16 "NVCV_PACKING_X16_Y16_Z16" 16 16 16;
   DEF_PACK1 NVCV_PACKING_X64 "NVCV_PACKING_X64" 64;
   DEF_FIX_PACK2 NVCV_PACKING_X32_Y32 "NVCV_PACKING_X32_Y32" 32 32;
   DEF_FIX_PACK4 NVCV_PACKING_X16_Y16_Z16_W16 "NVCV_PACKING_X16_Y16_Z16_W16" 16 16 16 16;
   DEF_PACK1 NVCV_PACKING_X96 "NVCV_PACKING_X96" 96;
   DEF_FIX_PACK3 NVCV_PACKING_X32_Y32_Z32 "NVCV_PACKING_X32_Y32_Z32" 32 32 32;
   DEF_PACK1 NVCV_PACKING_X128 "NVCV_PACKING_X128" 128;
   DEF_FIX_PACK2 NVCV_PACKING_X64_Y64 "NVCV_PACKING_X64_Y64" 64 64;
   DEF_FIX_PACK4 NVCV_PACKING_X32_Y32_Z32_W32 "NVCV_PACKING_X32_Y32_Z32_W32" 32 32 32 32;
   DEF_PACK1 NVCV_PACKING_X192 "NVCV_PACKING_X192" 192;
   DEF_FIX_PACK3 NVCV_PACKING_X64_Y64_Z64 "NVCV_PACKING_X64_Y64_Z64" 64 64 64;
   DEF_PACK1 NVCV_PACKING_X256 "NVCV_PACKING_X256" 256;
   DEF_FIX_PACK2 NVCV_PACKING_X128_Y128 "NVCV_PACKING_X128_Y128" 128 128;
   DEF_FIX_PACK4 NVCV_PACKING_X64_Y64_Z64_W64 "NVCV_PACKING_X64_Y64_Z64_W64" 64 64 64 64] ++ CLANGFORMAT_WAR.

(** [std::map::find]. *)
Definition packing_find (packing : NVCVPacking) : option PackingData :=
  snd <$> List.find (fun e : pack_entry => e.1 =? packing) g_packingToData.

(** The elements of the map in key order, as the multimap receives them. *)
Definition key_le (a b : pack_entry) : Prop := a.1 <= b.1.
#[global] Instance key_le_dec : RelDecision key_le.
Proof. intros a b. unfold key_le. apply _. Defined.

Definition g_dataToPacking : list (PackingData * NVCVPacking) := Eval vm_compute in
  (fun e : pack_entry => (e.2, e.1)) <$> merge_sort key_le g_packingToData.

(** [operator<(PackingData, PackingData)]: swizzle, then the bits in order. *)
Fixpoint bits_lt (a b : list Z) : bool :=
  match a, b with
  | x :: a', y :: b' => if x =? y then bits_lt a' b' else x <? y
  | _, _ => false
  end.

Definition data_lt (a b : NVCVPackingParams) : bool :=
  if p_swizzle a =? p_swizzle b then bits_lt (bits a) (bits b)
  else p_swizzle a <? p_swizzle b.

(** [g_dataToPacking.equal_range(key)]. *)
Definition equal_range (key : NVCVPackingParams) : list (PackingData * NVCVPacking) :=
  List.filter (fun e => negb (data_lt (pd_params e.1) key) && negb (data_lt key (pd_params e.1)))
    g_dataToPacking.

(** ** Swizzles *)

Definition swizzleBitsArray : list Z := Eval vm_compute in
  [NVCV_DETAIL_MAKE_SWIZZLE NVCV_CHANNEL_0 NVCV_CHANNEL_0 NVCV_CHANNEL_0 NVCV_CHANNEL_0;
   NVCV_DETAIL_MAKE_SWIZZLE NVCV_CHANNEL_X NVCV_CHANNEL_0 NVCV_CHANNEL_0 NVCV_CHANNEL_0;
   NVCV_DETAIL_MAKE_SWIZZLE NVCV_CHANNEL_X NVCV_CHANNEL_Y NVCV_CHANNEL_0 NVCV_CHANNEL_0;
   NVCV_DETAIL_MAKE_SWIZZLE NVCV_CHANNEL_X NVCV_CHANNEL_Y NVCV_CHANNEL_Z NVCV_CHANNEL_0;
   NVCV_DETAIL_MAKE_SWIZZLE NVCV_CHANNEL_X NVCV_CHANNEL_Y NVCV_CHANNEL_Z NVCV_CHANNEL_W;
   NVCV_DETAIL_MAKE_SWIZZLE NVCV_CHANNEL_1 NVCV_CHANNEL_0 NVCV_CHANNEL_0 NVCV_CHANNEL_0;
   NVCV_DETAIL_MAKE_SWIZZLE NVCV_CHANNEL_0 NVCV_CHANNEL_0 NVCV_CHANNEL_0 NVCV_CHANNEL_1;
   NVCV_DETAIL_MAKE_SWIZZLE NVCV_CHANNEL_Z NVCV_CHANNEL_Y NVCV_CHANNEL_X NVCV_CHANNEL_W;
   NVCV_DETAIL_MAKE_SWIZZLE NVCV_CHANNEL_W NVCV_CHANNEL_X NVCV_CHANNEL_Y NVCV_CHANNEL_Z;
   NVCV_DETAIL_MAKE_SWIZZLE NVCV_CHANNEL_W NVCV_CHANNEL_Z NVCV_CHANNEL_Y NVCV_CHANNEL_X;
   NVCV_DETAIL_MAKE_SWIZZLE NVCV_CHANNEL_Y NVCV_CHANNEL_Z NVCV_CHANNEL_W NVCV_CHANNEL_X;
   NVCV_DETAIL_MAKE_SWIZZLE NVCV_CHANNEL_X NVCV_CHANNEL_Y NVCV_CHANNEL_Z NVCV_CHANNEL_1;
   NVCV_DETAIL_MAKE_SWIZZLE NVCV_CHANNEL_Y NVCV_CHANNEL_Z NVCV_CHANNEL_W NVCV_CHANNEL_1;
   NVCV_DETAIL_MAKE_SWIZZLE NVCV_CHANNEL_X NVCV_CHANNEL_X NVCV_CHANNEL_X NVCV_CHANNEL_1;
   NVCV_DETAIL_MAKE_SWIZZLE NVCV_CHANNEL_X NVCV_CHANNEL_Z NVCV_CHANNEL_Y NVCV_CHANNEL_1;
   NVCV_DETAIL_MAKE_SWIZZLE NVCV_CHANNEL_Z NVCV_CHANNEL_Y NVCV_CHANNEL_X NVCV_CHANNEL_1;
   NVCV_DETAIL_MAKE_SWIZZLE NVCV_CHANNEL_Z NVCV_CHANNEL_Y NVCV_CHANNEL_X NVCV_CHANNEL_0;
   NVCV_DETAIL_MAKE_SWIZZLE NVCV_CHANNEL_W NVCV_CHANNEL_Z NVCV_CHANNEL_Y NVCV_CHANNEL_1;
   NVCV_DETAIL_MAKE_SWIZZLE NVCV_CHANNEL_0 NVCV_CHANNEL_X NVCV_CHANNEL_0 NVCV_CHANNEL_0;
   NVCV_DETAIL_MAKE_SWIZZLE NVCV_CHANNEL_0 NVCV_CHANNEL_0 NVCV_CHANNEL_X NVCV_CHANNEL_0;
   NVCV_DETAIL_MAKE_SWIZZLE NVCV_CHANNEL_0 NVCV_CHANNEL_0 NVCV_CHANNEL_0 NVCV_CHANNEL_X;
   NVCV_DETAIL_MAKE_SWIZZLE NVCV_CHANNEL_Y NVCV_CHANNEL_0 NVCV_CHANNEL_0 NVCV_CHANNEL_0;
   NVCV_DETAIL_MAKE_SWIZZLE NVCV_CHANNEL_0 NVCV_CHANNEL_Y NVCV_CHANNEL_0 NVCV_CHANNEL_0;
   NVCV_DETAIL_MAKE_SWIZZLE NVCV_CHANNEL_0 NVCV_CHANNEL_0 NVCV_CHANNEL_Y NVCV_CHANNEL_0;
   NVCV_DETAIL_MAKE_SWIZZLE NVCV_CHANNEL_0 NVCV_CHANNEL_0 NVCV_CHANNEL_0 NVCV_CHANNEL_Y;
   NVCV_DETAIL_MAKE_SWIZZLE NVCV_CHANNEL_0 NVCV_CHANNEL_X NVCV_CHANNEL_Y NVCV_CHANNEL_0;
   NVCV_DETAIL_MAKE_SWIZZLE NVCV_CHANNEL_X NVCV_CHANNEL_X NVCV_CHANNEL_X NVCV_CHANNEL_Y;
   NVCV_DETAIL_MAKE_SWIZZLE NVCV_CHANNEL_Y NVCV_CHANNEL_Y NVCV_CHANNEL_Y NVCV_CHANNEL_X;
   NVCV_DETAIL_MAKE_SWIZZLE NVCV_CHANNEL_0 NVCV_CHANNEL_Y NVCV_CHANNEL_X NVCV_CHANNEL_0;
   NVCV_DETAIL_MAKE_SWIZZLE NVCV_CHANNEL_X NVCV_CHANNEL_0 NVCV_CHANNEL_0 NVCV_CHANNEL_Y;
   NVCV_DETAIL_MAKE_SWIZZLE NVCV_CHANNEL_Y NVCV_CHANNEL_0 NVCV_CHANNEL_0 NVCV_CHANNEL_X;
   NVCV_DETAIL_MAKE_SWIZZLE NVCV_CHANNEL_X NVCV_CHANNEL_0 NVCV_CHANNEL_0 NVCV_CHANNEL_1;
   NVCV_DETAIL_MAKE_SWIZZLE NVCV_CHANNEL_X NVCV_CHANNEL_Y NVCV_CHANNEL_0 NVCV_CHANNEL_1;
   NVCV_DETAIL_MAKE_SWIZZLE NVCV_CHANNEL_0 NVCV_CHANNEL_X NVCV_CHANNEL_Z NVCV_CHANNEL_0;
   NVCV_DETAIL_MAKE_SWIZZLE NVCV_CHANNEL_0 NVCV_CHANNEL_Z NVCV_CHANNEL_X NVCV_CHANNEL_0;
   NVCV_DETAIL_MAKE_SWIZZLE NVCV_CHANNEL_X NVCV_CHANNEL_Z NVCV_CHANNEL_Y NVCV_CHANNEL_0;
   NVCV_DETAIL_MAKE_SWIZZLE NVCV_CHANNEL_Y NVCV_CHANNEL_Z NVCV_CHANNEL_X NVCV_CHANNEL_1;
   NVCV_DETAIL_MAKE_SWIZZLE NVCV_CHANNEL_Z NVCV_CHANNEL_Y NVCV_CHANNEL_W NVCV_CHANNEL_1;
   NVCV_DETAIL_MAKE_SWIZZLE NVCV_CHANNEL_0 NVCV_CHANNEL_Y NVCV_CHANNEL_X NVCV_CHANNEL_1;
   NVCV_DETAIL_MAKE_SWIZZLE NVCV_CHANNEL_X NVCV_CHANNEL_Y NVCV_CHANNEL_X NVCV_CHANNEL_Z;
   NVCV_DETAIL_MAKE_SWIZZLE NVCV_CHANNEL_Y NVCV_CHANNEL_X NVCV_CHANNEL_Z NVCV_CHANNEL_X;
   NVCV_DETAIL_MAKE_SWIZZLE NVCV_CHANNEL_X NVCV_CHANNEL_Z NVCV_CHANNEL_0 NVCV_CHANNEL_0;
   NVCV_DETAIL_MAKE_SWIZZLE NVCV_CHANNEL_W NVCV_CHANNEL_Y NVCV_CHANNEL_X NVCV_CHANNEL_Z;
   NVCV_DETAIL_MAKE_SWIZZLE NVCV_CHANNEL_Y NVCV_CHANNEL_X NVCV_CHANNEL_0 NVCV_CHANNEL_0;
   NVCV_DETAIL_MAKE_SWIZZLE NVCV_CHANNEL_Y NVCV_CHANNEL_X NVCV_CHANNEL_0 NVCV_CHANNEL_1;
   NVCV_DETAIL_MAKE_SWIZZLE NVCV_CHANNEL_0 NVCV_CHANNEL_0 NVCV_CHANNEL_Y NVCV_CHANNEL_X;
   NVCV_DETAIL_MAKE_SWIZZLE NVCV_CHANNEL_0 NVCV_CHANNEL_0 NVCV_CHANNEL_X NVCV_CHANNEL_Y;
   NVCV_DETAIL_MAKE_SWIZZLE NVCV_CHANNEL_0 NVCV_CHANNEL_X NVCV_CHANNEL_Y NVCV_CHANNEL_1;
   NVCV_DETAIL_MAKE_SWIZZLE NVCV_CHANNEL_0 NVCV_CHANNEL_X NVCV_CHANNEL_0 NVCV_CHANNEL_1;
   NVCV_DETAIL_MAKE_SWIZZLE NVCV_CHANNEL_Y NVCV_CHANNEL_Z NVCV_CHANNEL_X NVCV_CHANNEL_W;
   NVCV_DETAIL_MAKE_SWIZZLE NVCV_CHANNEL_Y NVCV_CHANNEL_W NVCV_CHANNEL_0 NVCV_CHANNEL_0;
   NVCV_DETAIL_MAKE_SWIZZLE NVCV_CHANNEL_X NVCV_CHANNEL_Y NVCV_CHANNEL_W NVCV_CHANNEL_0;
   NVCV_DETAIL_MAKE_SWIZZLE NVCV_CHANNEL_Y NVCV_CHANNEL_Z NVCV_CHANNEL_W NVCV_CHANNEL_0;
   NVCV_DETAIL_MAKE_SWIZZLE NVCV_CHANNEL_Y NVCV_CHANNEL_Z NVCV_CHANNEL_0 NVCV_CHANNEL_0;
   NVCV_DETAIL_MAKE_SWIZZLE NVCV_CHANNEL_0 NVCV_CHANNEL_0 NVCV_CHANNEL_X NVCV_CHANNEL_1;
   NVCV_DETAIL_MAKE_SWIZZLE NVCV_CHANNEL_0 NVCV_CHANNEL_Z NVCV_CHANNEL_X NVCV_CHANNEL_Y;
   0].

Definition MakeNVCVSwizzle (x y z w : NVCVChannel) : NVCVSwizzle :=
  let swizzleBits := NVCV_DETAIL_MAKE_SWIZZLE x y z w in
  match List.find (fun ib : Z * Z => ib.2 =? swizzleBits) (zip (zseq 57) swizzleBitsArray) with
  | Some ib => ib.1
  | None => NVCV_SWIZZLE_UNSUPPORTED
  end.

(** The bits of a swizzle: the last table entry whose index is [swizzle]. *)
Definition swizzle_bits (swizzle : NVCVSwizzle) : Z :=
  fold_left (fun acc ib => if swizzle =? ib.1 then ib.2 else acc)
    (zip (zseq 57) swizzleBitsArray) UINT64_MAX.

Definition GetSwizzleChannel (swizzle : NVCVSwizzle) (idx : Z) : NVCVChannel :=
  ExtractBitfield (swizzle_bits swizzle) (idx * 3) 3.

Definition GetChannels (swizzle : NVCVSwizzle) : list NVCVChannel :=
  GetSwizzleChannel swizzle <$> zseq 4.

Definition is_color_channel (ch : NVCVChannel) : bool :=
  (NVCV_CHANNEL_X <=? ch) && (ch <=? NVCV_CHANNEL_W).

(** The channels X, Y, Z, W seen, each counted once: [hist] is the set seen so far. *)
Fixpoint count_channels (hist : list Z) (chs : list NVCVChannel) : Z :=
  match chs with
  | [] => 0
  | ch :: rest =>
      if is_color_channel ch then
        (if existsb (Z.eqb ch) hist then 0 else 1) + count_channels (ch :: hist) rest
      else count_channels hist rest
  end.

Definition GetNumChannels_swizzle (swizzle : NVCVSwizzle) : Z :=
  count_channels [] (GetChannels swizzle).

Definition MakeNVCVSwizzleFromBits (b : list Z) : NVCVSwizzle :=
  let ch i := if List.nth (Z.to_nat i) b 0 =? 0 then NVCV_CHANNEL_0 else i + NVCV_CHANNEL_X in
  MakeNVCVSwizzle (ch 0) (ch 1) (ch 2) (ch 3).

Definition IsSubWord (p : NVCVPackingParams) : bool :=
  if (p_swizzle p =? NVCV_SWIZZLE_0000) || (p_swizzle p =? NVCV_SWIZZLE_XYXZ)
     || (p_swizzle p =? NVCV_SWIZZLE_YXZX) then false
  else
    let chbits := Z.of_nat (length (List.filter (fun b => negb (b =? 0)) (bits p))) in
    negb (GetNumChannels_swizzle (p_swizzle p) =? chbits).

(** ** Packing queries *)

Definition GetPackingParams (packing : NVCVPacking) : outcome NVCVPackingParams :=
  match packing_find packing with
  | None => Stuck
  | Some d =>
      let params := pd_params d in
      Ok (if p_swizzle params =? NVCV_SWIZZLE_0000
          then mkPackingParams (byteOrder params) (alignment params)
                 (MakeNVCVSwizzleFromBits (bits params)) (bits params)
          else params)
  end.

Definition GetBitsPerPixel (packing : NVCVPacking) : outcome Z :=
  let bpp := Z.shiftr packing 6 in
  if bpp =? 0 then
    let code := Z.land packing 15 in
    if code =? 0 then nvcv_assert (packing =? NVCV_PACKING_0) (Ok bpp)
    else if code <=? 2 then Ok code
    else if code =? 3 then Ok 4
    else if code <=? 7 then Ok 8
    else Ok 0
  else if bpp <=? 3 then Ok ((bpp + 1) * 8)
  else if bpp <=? 5 then Ok ((bpp - 1) * 16)
  else if bpp <=? 7 then Ok ((bpp - 3) * 32)
  else if bpp <=? 9 then Ok ((bpp - 5) * 64)
  else Ok 0.

Definition GetBlockHeightLog2 (memLayout : NVCVMemLayout) : outcome Z :=
  nvcv_assert ((NVCV_MEM_LAYOUT_BLOCK1_LINEAR <=? memLayout) && (memLayout <=? NVCV_MEM_LAYOUT_BLOCK32_LINEAR))
    (Ok (memLayout - NVCV_MEM_LAYOUT_BLOCK1_LINEAR)).

Definition GetNumComponents (packing : NVCVPacking) : Z :=
  if packing =? NVCV_PACKING_0 then 0 else ExtractBitfield packing 4 2 + 1.

(** The assertion [cnt == 4] of the two interleaved packings is the lemma
    [interleaved_components] below. *)
Definition GetNumChannels_packing (packing : NVCVPacking) : Z :=
  let cnt := GetNumComponents packing in
  if (packing =? NVCV_PACKING_X8_Y8__X8_Z8) || (packing =? NVCV_PACKING_Y8_X8__Z8_X8) then 3 else cnt.

Definition GetBitsPerComponent (packing : NVCVPacking) : outcome (list Z) :=
  p ← GetPackingParams packing;
  let ncomp := GetNumComponents packing in
  let channels := GetChannels (p_swizzle p) in
  mfold (fun b i =>
      ch ← rd channels i;
      if is_color_channel ch
      then v ← rd (bits p) (ch - NVCV_CHANNEL_X); wr b i v
      else Ok b)
    (zrange 0 ncomp) [0; 0; 0; 0].

Definition GetAlignment (packing : NVCVPacking) : outcome Z :=
  alignment <$> GetPackingParams packing.

(** ** Looking a packing up by its parameters *)

(** The first element of smallest alignment. *)
Fixpoint min_alignment (it : PackingData * NVCVPacking) (l : list (PackingData * NVCVPacking)) :=
  match l with
  | [] => it
  | e :: rest =>
      min_alignment
        (if alignment (pd_params e.1) <? alignment (pd_params it.1) then e else it) rest
  end.

(** The loop of the [else] branch: the first [e] with [it.alignment >= e.alignment],
    where [it] is the beginning of the range. *)
Definition fit_alignment (it : PackingData * NVCVPacking) (l : list (PackingData * NVCVPacking)) :=
  List.find (fun e => alignment (pd_params e.1) <=? alignment (pd_params it.1)) l.

Definition MakeNVCVPacking (params : NVCVPackingParams) : option NVCVPacking :=
  let key :=
    if negb (p_swizzle params =? NVCV_SWIZZLE_XYXZ) && negb (p_swizzle params =? NVCV_SWIZZLE_YXZX)
       && negb (IsSubWord params)
    then mkPackingParams (byteOrder params) (alignment params) NVCV_SWIZZLE_0000 (bits params)
    else params in
  match equal_range key with
  | [] => None
  | e :: rest =>
      it ← (if alignment params =? 0 then Some (min_alignment e (e :: rest))
            else fit_alignment e (e :: rest));
      if (2 <=? GetNumChannels_swizzle (p_swizzle params))
         && negb (byteOrder (pd_params it.1) =? byteOrder params) then None
      else if negb (p_swizzle params =? NVCV_SWIZZLE_0000) then
        let sw := p_swizzle (pd_params it.1) in
        let sw := if sw =? NVCV_SWIZZLE_0000 then MakeNVCVSwizzleFromBits (bits params) else sw in
        if negb (sw =? p_swizzle params) then None else Some it.2
      else Some it.2
  end.

(** [MakeNVCVPacking(bitsX, bitsY, bitsZ, bitsW)]. *)
Definition MakeNVCVPacking_bits (bitsX bitsY bitsZ bitsW : Z) : option NVCVPacking :=
  let sub16 b := (b =? 10) || (b =? 12) || (b =? 14) in
  let '(bY, bZ, sw) :=
    if (bitsY =? 0) || (bitsZ =? 0) then
      let origX := bitsX in let origY := bitsY in
      let '(bY, sw) :=
        if sub16 origX then (16 - origX, NVCV_SWIZZLE_X000)
        else if origX =? 20 then (32 - origX, NVCV_SWIZZLE_X000)
        else (bitsY, NVCV_SWIZZLE_0000) in
      if sub16 origY then (bY, 16 - origY, NVCV_SWIZZLE_XZ00)
      else if origY =? 20 then (bY, 32 - origY, NVCV_SWIZZLE_XZ00)
      else (bY, bitsZ, sw)
    else (bitsY, bitsZ, NVCV_SWIZZLE_0000) in
  MakeNVCVPacking (mkPackingParams 0 0 sw [bitsX; bY; bZ; bitsW]).

(** ** Merging and flipping swizzles *)

(** The channels of plane swizzle [sw], indexed by the channel they read:
    [rev[ch]] is the component fed by [ch]. *)
Definition merge_rev (sw : NVCVSwizzle) : outcome (list NVCVChannel) :=
  let maxSwChannel :=
    fold_left (fun m j => let swch := GetSwizzleChannel sw j in
                 if is_color_channel swch then Z.max m swch else m) (zseq 4) NVCV_CHANNEL_0 in
  mfold (fun rev j =>
      let ch := GetSwizzleChannel sw j in
      if ch =? NVCV_CHANNEL_1 then
        let ch := maxSwChannel + 1 in
        throw_if (NVCV_CHANNEL_1 <=? ch) NVCV_ERROR_INVALID_ARGUMENT
          (wr rev ch NVCV_CHANNEL_1)
      else wr rev ch (NVCV_CHANNEL_X + j))
    (zseq 4) [0; 0; 0; 0; 0; 0].

(** One iteration of the outer loop of [MergePlaneSwizzles]. *)
Definition merge_plane (sw : NVCVSwizzle) (st : list NVCVChannel * Z) : outcome (list NVCVChannel * Z) :=
  let '(swResult, curch) := st in
  let nchannels := GetNumChannels_swizzle sw in
  rev ← merge_rev sw;
  swResult ← mfold (fun res j =>
      nvcv_assert (curch + j <? 4)
        (ch ← rd rev (j + NVCV_CHANNEL_X);
         if (ch =? NVCV_CHANNEL_1) && (j =? nchannels - 1) then wr res 3 ch
         else wr res (curch + j) ch))
    (zrange 0 nchannels) swResult;
  Ok (swResult, curch + nchannels).

(** [for (i = 0; i < 4 && sw[i] != 0000; ++i)]. *)
Fixpoint merge_planes (sws : list NVCVSwizzle) (st : list NVCVChannel * Z) : outcome (list NVCVChannel * Z) :=
  match sws with
  | [] => Ok st
  | sw :: rest =>
      if sw =? NVCV_SWIZZLE_0000 then Ok st
      else st' ← merge_plane sw st; merge_planes rest st'
  end.

Definition MergePlaneSwizzles (sw0 sw1 sw2 sw3 : NVCVSwizzle) : outcome NVCVSwizzle :=
  if sw1 =? NVCV_SWIZZLE_0000 then
    if (sw2 =? NVCV_SWIZZLE_0000) && (sw3 =? NVCV_SWIZZLE_0000) then Ok sw0
    else Throw NVCV_ERROR_INVALID_ARGUMENT
  else
    let sw := [sw0; sw1; sw2; sw3] in
    st ← merge_planes sw ([0; 0; 0; 0], 0);
    let swResult := st.1 in
    alpha ← rd swResult 3;
    let has1 := existsb (fun s => GetSwizzleChannel s 3 =? NVCV_CHANNEL_1) sw in
    swResult ← (if has1 then nvcv_assert (alpha =? NVCV_CHANNEL_0) (wr swResult 3 NVCV_CHANNEL_1)
                else Ok swResult);
    x ← rd swResult 0; y ← rd swResult 1; z ← rd swResult 2; w ← rd swResult 3;
    Ok (MakeNVCVSwizzle x y z w).

Definition INT32_MAX : Z := 2147483647.
Definition INT32_MIN : Z := -2147483648.

Definition FlipByteOrder (swizzle : NVCVSwizzle) (off len : Z) : outcome NVCVSwizzle :=
  if len <=? 1 then Ok swizzle else
  let comp := GetChannels swizzle in
  nvcv_assert ((0 <=? off) && (off + len <=? 4))
  (st ← mfold (fun '(mem, m, M) i =>
       c ← rd comp i;
       if (off <=? i) && (i <? off + len) && is_color_channel c then
         let pos := c - NVCV_CHANNEL_X in
         mem ← wr mem pos (i + NVCV_CHANNEL_X);
         Ok (mem, Z.min m pos, Z.max M pos)
       else Ok (mem, m, M))
     (zseq 4) ([0; 0; 0; 0], INT32_MAX, INT32_MIN);
   let '(mem, m, M) := st in
   flipped ← mfold (fun fl i =>
       ch ← rd mem (m + ((M - m) - (i - m)));
       nvcv_assert (is_color_channel ch) (wr fl i ch))
     (zrange m (M + 1)) [0; 0; 0; 0];
   comp ← mfold (fun cp i =>
       f ← rd flipped i;
       if is_color_channel f then wr cp (f - NVCV_CHANNEL_X) (i + NVCV_CHANNEL_X) else Ok cp)
     (zseq 4) comp;
   x ← rd comp 0; y ← rd comp 1; z ← rd comp 2; w ← rd comp 3;
   Ok (MakeNVCVSwizzle x y z w)).

(** ** Names *)

#[local] Open Scope string_scope.

Definition names_NVCVDataKind : list (Z * string) :=
  [(NVCV_DATA_KIND_UNSPECIFIED, "NVCV_DATA_KIND_UNSPECIFIED");
   (NVCV_DATA_KIND_UNSIGNED, "NVCV_DATA_KIND_UNSIGNED");
   (NVCV_DATA_KIND_SIGNED, "NVCV_DATA_KIND_SIGNED");
   (NVCV_DATA_KIND_FLOAT, "NVCV_DATA_KIND_FLOAT");
   (NVCV_DATA_KIND_COMPLEX, "NVCV_DATA_KIND_COMPLEX")].
Definition GetName_NVCVDataKind (x : NVCVDataKind) : string := enum_name "NVCVDataKind" names_NVCVDataKind x.

Definition names_NVCVMemLayout : list (Z * string) :=
  [(NVCV_MEM_LAYOUT_PITCH_LINEAR, "NVCV_MEM_LAYOUT_PITCH_LINEAR");
   (NVCV_MEM_LAYOUT_BLOCK1_LINEAR, "NVCV_MEM_LAYOUT_BLOCK1_LINEAR");
   (NVCV_MEM_LAYOUT_BLOCK2_LINEAR, "NVCV_MEM_LAYOUT_BLOCK2_LINEAR");
   (NVCV_MEM_LAYOUT_BLOCK4_LINEAR, "NVCV_MEM_LAYOUT_BLOCK4_LINEAR");
   (NVCV_MEM_LAYOUT_BLOCK8_LINEAR, "NVCV_MEM_LAYOUT_BLOCK8_LINEAR");
   (NVCV_MEM_LAYOUT_BLOCK16_LINEAR, "NVCV_MEM_LAYOUT_BLOCK16_LINEAR");
   (NVCV_MEM_LAYOUT_BLOCK32_LINEAR, "NVCV_MEM_LAYOUT_BLOCK32_LINEAR")].
Definition GetName_NVCVMemLayout (x : NVCVMemLayout) : string := enum_name "NVCVMemLayout" names_NVCVMemLayout x.

Definition names_NVCVChannel : list (Z * string) :=
  [(NVCV_CHANNEL_0, "0");
   (NVCV_CHANNEL_X, "X");
   (NVCV_CHANNEL_Y, "Y");
   (NVCV_CHANNEL_Z, "Z");
   (NVCV_CHANNEL_W, "W");
   (NVCV_CHANNEL_1, "1")].
Definition GetName_NVCVChannel (x : NVCVChannel) : string := enum_name "NVCVChannel" names_NVCVChannel x.

Definition names_NVCVAlphaType : list (Z * string) :=
  [(NVCV_ALPHA_ASSOCIATED, "ASSOCIATED");
   (NVCV_ALPHA_UNASSOCIATED, "UNASSOCIATED")].
Definition GetName_NVCVAlphaType (x : NVCVAlphaType) : string := enum_name "NVCVAlphaType" names_NVCVAlphaType x.

Definition names_NVCVExtraChannel : list (Z * string) :=
  [(NVCV_EXTRA_CHANNEL_U, "U");
   (NVCV_EXTRA_CHANNEL_D, "D");
   (NVCV_EXTRA_CHANNEL_POS3D, "POS3D")].
Definition GetName_NVCVExtraChannel (x : NVCVExtraChannel) : string := enum_name "NVCVExtraChannel" names_NVCVExtraChannel x.

Definition names_NVCVByteOrder : list (Z * string) :=
  [(NVCV_ORDER_LSB, "LSB");
   (NVCV_ORDER_MSB, "MSB")].
Definition GetName_NVCVByteOrder (x : NVCVByteOrder) : string := enum_name "NVCVByteOrder" names_NVCVByteOrder x.

Definition GetName_NVCVSwizzle (swizzle : NVCVSwizzle) : string :=
  String.concat "" (GetName_NVCVChannel <$> GetChannels swizzle).

Definition names_NVCVPacking : list (Z * string) :=
  (fun e : pack_entry => (e.1, pd_name e.2)) <$> g_packingToData.
Definition GetName_NVCVPacking (x : NVCVPacking) : string :=
  enum_name "NVCVPacking" names_NVCVPacking x.

#[local] Close Scope string_scope.

(** ** Lemmas on the tables *)

(** Every predicate checked on the whole table holds of each known packing. *)
Lemma packing_find_elem p d : packing_find p = Some d -> (p, d) ∈ g_packingToData.
Proof.
  unfold packing_find. destruct (List.find _ _) as [e|] eqn:E; [|done].
  cbn. intros [= <-]. apply List.find_some in E as [Hin Heq]. bool_hyps. subst.
  apply list_elem_of_In. by destruct e.
Qed.

Lemma packing_table_check (P : NVCVPacking -> PackingData -> bool) p d :
  forallb (fun e : pack_entry => P e.1 e.2) g_packingToData = true ->
  packing_find p = Some d -> P p d = true.
Proof. intros H Hf%packing_find_elem. by apply (forallb_elem _ _ (p, d)) in H. Qed.

Lemma GetPackingParams_Ok p q : GetPackingParams p = Ok q ->
  exists d, packing_find p = Some d.
Proof. unfold GetPackingParams. destruct (packing_find p); [eauto|done]. Qed.

Lemma interleaved_components :
  GetNumComponents NVCV_PACKING_X8_Y8__X8_Z8 = 4 /\ GetNumComponents NVCV_PACKING_Y8_X8__Z8_X8 = 4.
Proof. split; reflexivity. Qed.

Lemma bits_lt_equiv a b : length a = length b ->
  bits_lt a b = false -> bits_lt b a = false -> a = b.
Proof.
  revert b. induction a as [|x a IH]; intros [|y b]; cbn; try done.
  intros [= Hl]. rewrite (Z.eqb_sym y x). destruct (Z.eqb_spec x y) as [->|].
  - intros. f_equal. auto.
  - rewrite !Z.ltb_ge. lia.
Qed.

Lemma data_lt_equiv a b : length (bits a) = length (bits b) ->
  data_lt a b = false -> data_lt b a = false -> p_swizzle a = p_swizzle b /\ bits a = bits b.
Proof.
  unfold data_lt. rewrite (Z.eqb_sym (p_swizzle b)). intros Hl.
  destruct (Z.eqb_spec (p_swizzle a) (p_swizzle b)).
  - intros. split; [done|]. by apply bits_lt_equiv.
  - rewrite !Z.ltb_ge. lia.
Qed.

Lemma NoDup_filter_le1 {A B} (f : A -> B) (P : A -> bool) (k : B) l :
  NoDup (f <$> l) -> (forall x, x ∈ l -> P x = true -> f x = k) -> (length (List.filter P l) <= 1)%nat.
Proof.
  induction l as [|x l IH]; cbn; [lia|]. intros [Hx Hl]%NoDup_cons HP.
  assert (length (List.filter P l) <= 1)%nat as Hle.
  { apply IH; [done|]. intros y Hy. apply HP. by right. }
  destruct (P x) eqn:Ex; [|done]. cbn.
  destruct (List.filter P l) as [|y l'] eqn:El; [cbn; lia|]. exfalso. apply Hx.
  assert (y ∈ List.filter P l) as Hy by (rewrite El; by left).
  apply list_elem_of_In, List.filter_In in Hy as [Hy%list_elem_of_In HPy].
  apply list_elem_of_fmap. exists y. split; [|done].
  rewrite (HP x), (HP y); auto; [by right|by left].
Qed.

Lemma multimap_keys_distinct :
  NoDup ((fun e : PackingData * NVCVPacking => (p_swizzle (pd_params e.1), bits (pd_params e.1)))
         <$> g_dataToPacking).
Proof. eapply bool_decide_eq_true_1. vm_compute. reflexivity. Qed.

Lemma multimap_bits_4 :
  forallb (fun e : PackingData * NVCVPacking => Nat.eqb (length (bits (pd_params e.1))) 4)
    g_dataToPacking = true.
Proof. reflexivity. Qed.

(** No two packings share swizzle and bits, so a lookup range is never ambiguous. *)
Lemma equal_range_le1 key : length (bits key) = 4%nat -> (length (equal_range key) <= 1)%nat.
Proof.
  intros Hk. unfold equal_range.
  apply NoDup_filter_le1 with
    (f := fun e : PackingData * NVCVPacking => (p_swizzle (pd_params e.1), bits (pd_params e.1)))
    (k := (p_swizzle key, bits key)); [apply multimap_keys_distinct|].
  intros e He H. bool_hyps.
  pose proof (forallb_elem _ _ e multimap_bits_4 He) as H4. apply Nat.eqb_eq in H4.
  destruct (data_lt_equiv (pd_params e.1) key) as [-> ->]; congruence.
Qed.

(** The order the table is searched by reads the swizzle and the bits only. *)
Lemma equal_range_cong a b :
  p_swizzle a = p_swizzle b -> bits a = bits b -> equal_range a = equal_range b.
Proof. intros Hs Hb. unfold equal_range, data_lt. rewrite Hs, Hb. reflexivity. Qed.

(** ** Properties *)

(** Looking a packing up by the parameters the library reports for it gives
    that packing back: [MakeNVCVPacking] inverts [GetPackingParams] on every
    packing the table knows. *)
Theorem packing_params_roundtrip p params :
  GetPackingParams p = Ok params -> MakeNVCVPacking params = Some p.
Proof.
  intros H. destruct (GetPackingParams_Ok _ _ H) as [d Hd].
  set (P := fun (p : NVCVPacking) (_ : PackingData) =>
    bool_decide ((match GetPackingParams p with Ok q => MakeNVCVPacking q | _ => None end) = Some p)).
  assert (P p d = true) as HP by (apply packing_table_check; [by vm_compute|done]).
  unfold P in HP. rewrite H in HP. by apply bool_decide_eq_true_1 in HP.
Qed.

Lemma packing_params_roundtrip_witness :
  MakeNVCVPacking (mkPackingParams NVCV_ORDER_MSB 2 NVCV_SWIZZLE_XZ00 [10; 6; 10; 6])
  = Some NVCV_PACKING_X10b6_Y10b6.
Proof. apply (packing_params_roundtrip NVCV_PACKING_X10b6_Y10b6). vm_compute. reflexivity. Defined.

(** The numbers a packing reports agree with each other: the bits per pixel
    encoded in its code are the sum of the table's bits (half of it for the two
    interleaved packings, which describe two pixels), the channel count encoded
    in its code is that of its swizzle, and its alignment is a power of two, or
    0 for the packings narrower than a byte. *)
Theorem packing_queries_consistent p d params :
  packing_find p = Some d -> GetPackingParams p = Ok params ->
  let total := fold_left Z.add (bits (pd_params d)) 0 in
  let interleaved := (p =? NVCV_PACKING_X8_Y8__X8_Z8) || (p =? NVCV_PACKING_Y8_X8__Z8_X8) in
  GetBitsPerPixel p = Ok (if interleaved then total / 2 else total)
  /\ GetNumChannels_packing p = GetNumChannels_swizzle (p_swizzle params)
  /\ IsPowerOfTwo (alignment params) = true
  /\ (alignment params = 0 <-> total < 8).
Proof.
  intros Hd H.
  set (P := fun (p : NVCVPacking) (d : PackingData) =>
    match GetPackingParams p with
    | Ok params =>
        let total := fold_left Z.add (bits (pd_params d)) 0 in
        let interleaved := (p =? NVCV_PACKING_X8_Y8__X8_Z8) || (p =? NVCV_PACKING_Y8_X8__Z8_X8) in
        bool_decide (GetBitsPerPixel p = Ok (if interleaved then total / 2 else total))
        && (GetNumChannels_packing p =? GetNumChannels_swizzle (p_swizzle params))
        && IsPowerOfTwo (alignment params)
        && Bool.eqb (alignment params =? 0) (total <? 8)
    | _ => false
    end).
  assert (P p d = true) as HP by (apply packing_table_check; [by vm_compute|done]).
  unfold P in HP. rewrite H in HP. bool_hyps. split_and!; [done..|].
  apply Bool.eqb_prop in H1. rewrite <- Z.eqb_eq, <- Z.ltb_lt. by rewrite H1.
Qed.

Lemma packing_queries_consistent_witness :
  GetNumChannels_packing NVCV_PACKING_X8_Y8__X8_Z8 = GetNumChannels_swizzle NVCV_SWIZZLE_XYXZ.
Proof.
  pose (pp := mkPackingParams 1 1 NVCV_SWIZZLE_XYXZ [8; 8; 8; 8]).
  assert (packing_find NVCV_PACKING_X8_Y8__X8_Z8
    = Some (mkPackingData "NVCV_PACKING_X8_Y8__X8_Z8" pp)) as H1 by (vm_compute; reflexivity).
  assert (GetPackingParams NVCV_PACKING_X8_Y8__X8_Z8 = Ok pp) as H2 by (vm_compute; reflexivity).
  destruct (packing_queries_consistent _ _ _ H1 H2) as (_ & H & _). exact H.
Defined.

(** The alignment asked for has no influence on the packing chosen: the
    result is the same for every requested alignment, zero or not, although the
    interface documents a choice by alignment. *)
Theorem packing_alignment_ignored order a a' sw b :
  length b = 4%nat ->
  MakeNVCVPacking (mkPackingParams order a sw b) = MakeNVCVPacking (mkPackingParams order a' sw b).
Proof.
  intros Hb.
  assert (forall a, MakeNVCVPacking (mkPackingParams order a sw b)
    = MakeNVCVPacking (mkPackingParams order 0 sw b)) as E; [|by rewrite E, (E a')].
  clear a a'. intros a. unfold MakeNVCVPacking; cbn [p_swizzle byteOrder alignment bits].
  change (IsSubWord (mkPackingParams order a sw b)) with (IsSubWord (mkPackingParams order 0 sw b)).
  set (c := negb _ && negb _ && negb _). cbv zeta.
  set (k0 := if c then mkPackingParams order 0 NVCV_SWIZZLE_0000 b else mkPackingParams order 0 sw b).
  rewrite (equal_range_cong _ k0) by (unfold k0; destruct c; reflexivity).
  assert (length (bits k0) = 4%nat) as Hk by (unfold k0; by destruct c).
  pose proof (equal_range_le1 k0 Hk) as Hle.
  destruct (equal_range _) as [|e rest]; [done|].
  assert (rest = []) as ->.
  { destruct rest; [done|]. cbn in Hle. lia. }
  cbn [min_alignment]. unfold fit_alignment; cbn [List.find].
  rewrite Z.leb_refl, Z.ltb_irrefl. change (0 =? 0) with true. by destruct (a =? 0).
Qed.

Lemma packing_alignment_ignored_witness :
  MakeNVCVPacking (mkPackingParams NVCV_ORDER_MSB 1 NVCV_SWIZZLE_XY00 [16; 16; 0; 0])
  = MakeNVCVPacking (mkPackingParams NVCV_ORDER_MSB 64 NVCV_SWIZZLE_XY00 [16; 16; 0; 0]).
Proof. apply (packing_alignment_ignored NVCV_ORDER_MSB 1 64). reflexivity. Defined.
