(* ===== verification/SwizzleProps.v ===== *)
(** * Properties of swizzles *)
From S2P Require Import Prelude Bitfield MathUtil ColorSpec DataLayout.
From stdpp Require Import options.

(** Every quadruple of channel codes. *)
Definition all_channels : list (list NVCVChannel) :=
  x ← zseq 8; y ← zseq 8; z ← zseq 8; v ← zseq 8; [[x; y; z; v]].

Lemma elem_of_all_channels x y z v :
  in_u 3 x -> in_u 3 y -> in_u 3 z -> in_u 3 v -> [x; y; z; v] ∈ all_channels.
Proof.
  intros Hx Hy Hz Hv. unfold all_channels.
  apply list_elem_of_bind. exists x. split; [|by apply (elem_of_zseq 8)].
  apply list_elem_of_bind. exists y. split; [|by apply (elem_of_zseq 8)].
  apply list_elem_of_bind. exists z. split; [|by apply (elem_of_zseq 8)].
  apply list_elem_of_bind. exists v. split; [|by apply (elem_of_zseq 8)].
  by apply list_elem_of_singleton.
Qed.

(** swizzles and channel quadruples correspond: the code found for a
    quadruple has exactly its channels, and the channels of a supported swizzle
    are found under its code; a quadruple that is no swizzle is reported as
    unsupported. *)
Theorem swizzle_channels_roundtrip x y z v :
  in_u 3 x -> in_u 3 y -> in_u 3 z -> in_u 3 v ->
  let s := MakeNVCVSwizzle x y z v in
  (s = NVCV_SWIZZLE_UNSUPPORTED /\ forall s', 0 <= s' < 56 -> GetChannels s' <> [x; y; z; v])
  \/ (0 <= s < 56 /\ GetChannels s = [x; y; z; v] /\ forall s', 0 <= s' < 56 -> GetChannels s' = [x; y; z; v] -> s' = s).
Proof.
  intros Hx Hy Hz Hv s.
  set (P := fun q : list Z => match q with
    | [x; y; z; v] =>
        let s := MakeNVCVSwizzle x y z v in
        if (0 <=? s) && (s <? 56) then bool_decide (GetChannels s = [x; y; z; v])
        else s =? NVCV_SWIZZLE_UNSUPPORTED
    | _ => true end).
  assert (P [x; y; z; v] = true) as HP.
  { apply (forallb_elem P all_channels); [vm_compute; reflexivity|by apply elem_of_all_channels]. }
  assert (forallb (fun s => let c := GetChannels s in
    match c with [a; b; c; d] => MakeNVCVSwizzle a b c d =? s | _ => false end) (zseq 56) = true) as HI
    by (vm_compute; reflexivity).
  assert (forall s', 0 <= s' < 56 -> GetChannels s' = [x; y; z; v] -> s' = s) as Huniq.
  { intros s' Hs' E. apply (forallb_elem _ _ s') in HI; [|by apply (elem_of_zseq 56)].
    cbv beta zeta in HI. rewrite E in HI. by apply Z.eqb_eq in HI. }
  unfold P in HP. cbv zeta in HP. fold s in HP.
  destruct ((0 <=? s) && (s <? 56)) eqn:E.
  - right. apply bool_decide_eq_true_1 in HP. bool_hyps. split; [lia|]. split; [exact HP|exact Huniq].
  - left. apply Z.eqb_eq in HP. split; [exact HP|]. intros s' Hs' Hc.
    rewrite <- (Huniq s' Hs' Hc) in E. rewrite andb_false_iff, Z.leb_gt, Z.ltb_ge in E. lia.
Qed.

Lemma swizzle_channels_roundtrip_witness :
  GetChannels (MakeNVCVSwizzle NVCV_CHANNEL_Z NVCV_CHANNEL_Y NVCV_CHANNEL_X NVCV_CHANNEL_1)
  = [NVCV_CHANNEL_Z; NVCV_CHANNEL_Y; NVCV_CHANNEL_X; NVCV_CHANNEL_1].
Proof.
  destruct (swizzle_channels_roundtrip NVCV_CHANNEL_Z NVCV_CHANNEL_Y NVCV_CHANNEL_X NVCV_CHANNEL_1)
    as [[H _]|(_ & H & _)].
  - split; vm_compute; congruence.
  - split; vm_compute; congruence.
  - split; vm_compute; congruence.
  - split; vm_compute; congruence.
  - exfalso. vm_compute in H. discriminate H.
  - exact H.
Defined.

(** Reversing the byte order of a swizzle twice gives it back, whenever both
    results are supported swizzles. *)
Theorem flip_byte_order_involutive s t :
  0 <= s < 56 -> FlipByteOrder s 0 4 = Ok t -> t <> NVCV_SWIZZLE_UNSUPPORTED -> FlipByteOrder t 0 4 = Ok s.
Proof.
  intros Hs H Ht.
  set (P := fun s => match FlipByteOrder s 0 4 with
    | Ok t => (t =? NVCV_SWIZZLE_UNSUPPORTED) || bool_decide (FlipByteOrder t 0 4 = Ok s) | _ => true end).
  assert (P s = true) as HP.
  { apply (forallb_elem P (zseq 56)); [vm_compute; reflexivity|by apply (elem_of_zseq 56)]. }
  unfold P in HP. rewrite H in HP. apply orb_prop in HP as [HP|HP].
  - by apply Z.eqb_eq in HP.
  - by apply bool_decide_eq_true_1 in HP.
Qed.

Lemma flip_byte_order_involutive_witness : FlipByteOrder NVCV_SWIZZLE_WZYX 0 4 = Ok NVCV_SWIZZLE_XYZW.
Proof.
  apply (flip_byte_order_involutive NVCV_SWIZZLE_XYZW NVCV_SWIZZLE_WZYX); [split; vm_compute; congruence|..].
  - vm_compute; reflexivity.
  - vm_compute; congruence.
Defined.

(** The assertion of [FlipByteOrder] fails on swizzles with a gap between their
    channels. *)
Lemma flip_byte_order_stuck : FlipByteOrder NVCV_SWIZZLE_XZ00 0 4 = Stuck.
Proof. vm_compute. reflexivity. Qed.

(** The two-component sub-word packings cannot be found by their bits: the
    second switch overwrites the padding the first one computed. *)
Lemma packing_bits_10_10 : MakeNVCVPacking_bits 10 10 0 0 = None /\ MakeNVCVPacking_bits 10 0 0 0 = Some NVCV_PACKING_X10b6.
Proof. vm_compute. split; reflexivity. Qed.
