(* ===== verification/FormatCode.v ===== *)
(** * The 64-bit codes of image formats and data types

    The macros of nvcv/detail/FormatUtils.h that pack a format into one word,
    the plane decoder [ImageFormat::planePacking], and the proof that the
    decoder inverts the encoder on every packing a plane can hold. *)
From S2P Require Import Prelude Bitfield MathUtil ColorSpec DataLayout.
From stdpp Require Import options.

(** ** Encoding macros *)

Definition NVCV_DETAIL_ADJUST_BPP_ENCODING (PACK BPP PACKLEN : Z) : Z :=
  if (PACKLEN =? 0) && (BPP =? 0) && (PACK =? 4) then UINT64_MAX else BPP.

Definition NVCV_DETAIL_ENCODE_PACKING (P CHLEN PACKLEN BPPLEN : Z) : Z :=
  Z.lor (Z.lor
    (SetBitfield (NVCV_DETAIL_ADJUST_BPP_ENCODING (ExtractBitfield P 0 4) (ExtractBitfield P 6 4) PACKLEN)
       (PACKLEN + CHLEN) BPPLEN)
    (SetBitfield (ExtractBitfield P 4 2) PACKLEN CHLEN))
    (SetBitfield (ExtractBitfield P 0 4) 0 PACKLEN).

Definition NVCV_DETAIL_EXTRACT_PACKING_CHANNELS (Packing : Z) : Z := ExtractBitfield Packing 4 2 + 1.

(** The color part of the code, bits 16 to 34. *)
Definition fmt_color_bits (ColorModel ColorSpecOrRawPattern Subsampling : Z) : Z :=
  if ColorModel =? NVCV_COLOR_MODEL_YCbCr
  then Z.lor (SetBitfield ColorSpecOrRawPattern 20 15) (SetBitfield Subsampling 17 3)
  else if ColorModel =? NVCV_COLOR_MODEL_UNDEFINED then SetBitfield (2 ^ 19 - 1) 16 19
  else Z.lor (SetBitfield 1 16 1)
    (if ColorModel - 2 <? 7
     then Z.lor (SetBitfield ColorSpecOrRawPattern 20 15) (SetBitfield (ColorModel - 2) 17 3)
     else Z.lor (SetBitfield 7 17 3)
       (if ColorModel =? NVCV_COLOR_MODEL_RAW then SetBitfield ColorSpecOrRawPattern 21 6
        else Z.lor (SetBitfield 1 20 1) (SetBitfield (ColorModel - (7 + 2 + 1)) 21 6))).

(** The part after plane 0, bits 7 and 44 to 60: extra channels or planes 1-3. *)
Definition fmt_plane_bits (Packing1 Packing2 Packing3 NumExtraChannel ExtraChannelBPP
    ExtraChannelDataKind ExtraChannelType : Z) : Z :=
  if (Packing1 =? NVCV_PACKING_0) && (0 <? NumExtraChannel)
  then Z.lor (Z.lor (Z.lor (SetBitfield ExtraChannelType 44 3) (SetBitfield NumExtraChannel 47 3))
         (SetBitfield (NVCV_DETAIL_ENCODE_BPP ExtraChannelBPP) 50 3)) (SetBitfield ExtraChannelDataKind 53 3)
  else Z.lor (Z.lor (Z.lor (SetBitfield 1 7 1)
         (SetBitfield (NVCV_DETAIL_ENCODE_PACKING Packing1 1 3 3) 44 7))
         (SetBitfield (NVCV_DETAIL_ENCODE_PACKING Packing2 1 3 3) 51 7))
         (SetBitfield (NVCV_DETAIL_ENCODE_PACKING Packing3 0 0 3) 58 3).

Definition NVCV_DETAIL_MAKE_FMTTYPE (ColorModel ColorSpecOrRawPattern Subsampling MemLayout DataKind Swizzle
    AlphaType Packing0 Packing1 Packing2 Packing3 NumExtraChannel ExtraChannelBPP ExtraChannelDataKind
    ExtraChannelType : Z) : Z :=
  Z.lor (Z.lor (Z.lor (Z.lor (Z.lor (Z.lor
    (SetBitfield DataKind 61 3) (SetBitfield Swizzle 0 6)) (SetBitfield AlphaType 6 1))
    (SetBitfield MemLayout 12 3))
    (fmt_color_bits ColorModel ColorSpecOrRawPattern Subsampling))
    (SetBitfield (NVCV_DETAIL_ENCODE_PACKING Packing0 2 3 4) 35 9))
    (fmt_plane_bits Packing1 Packing2 Packing3 NumExtraChannel ExtraChannelBPP ExtraChannelDataKind
       ExtraChannelType).

Definition NVCV_DETAIL_MAKE_FORMAT := NVCV_DETAIL_MAKE_FMTTYPE.

(** A data type is a single-plane format without color information. *)
Definition NVCV_DETAIL_MAKE_DATA_TYPE (DataKind Packing : Z) : Z :=
  NVCV_DETAIL_MAKE_FMTTYPE NVCV_COLOR_MODEL_UNDEFINED NVCV_COLOR_SPEC_UNDEFINED NVCV_CSS_NONE
    NVCV_MEM_LAYOUT_PL DataKind (NVCV_DETAIL_EXTRACT_PACKING_CHANNELS Packing) NVCV_ALPHA_ASSOCIATED
    Packing 0 0 0 0 0 NVCV_DATA_KIND_UNSPECIFIED NVCV_EXTRA_CHANNEL_U.

(** The [..._IMAGE_FORMAT] macros with four planes, as the constructors use them. *)
Definition NVCV_DETAIL_MAKE_COLOR_FORMAT4 (model cspec layout kind sw alpha p0 p1 p2 p3 : Z) : Z :=
  NVCV_DETAIL_MAKE_FORMAT model cspec NVCV_CSS_NONE layout kind sw alpha p0 p1 p2 p3
    0 0 NVCV_DATA_KIND_UNSPECIFIED NVCV_EXTRA_CHANNEL_U.
Definition NVCV_DETAIL_MAKE_COLOR_EXTRA_CHANNELS_FORMAT4
    (model cspec layout kind sw alpha n bpp ekind etype p0 p1 p2 p3 : Z) : Z :=
  NVCV_DETAIL_MAKE_FORMAT model cspec NVCV_CSS_NONE layout kind sw alpha p0 p1 p2 p3 n bpp ekind etype.
Definition NVCV_DETAIL_MAKE_YCbCr_FORMAT4 (cspec css layout kind sw alpha p0 p1 p2 p3 : Z) : Z :=
  NVCV_DETAIL_MAKE_FORMAT NVCV_COLOR_MODEL_YCbCr cspec css layout kind sw alpha p0 p1 p2 p3
    0 0 NVCV_DATA_KIND_UNSPECIFIED NVCV_EXTRA_CHANNEL_U.
Definition NVCV_DETAIL_MAKE_YCbCr_EXTRA_CHANNELS_FORMAT4
    (cspec css layout kind sw alpha n bpp ekind etype p0 p1 p2 p3 : Z) : Z :=
  NVCV_DETAIL_MAKE_FORMAT NVCV_COLOR_MODEL_YCbCr cspec css layout kind sw alpha p0 p1 p2 p3 n bpp ekind etype.
Definition NVCV_DETAIL_MAKE_NONCOLOR_FORMAT4 (layout kind sw alpha p0 p1 p2 p3 : Z) : Z :=
  NVCV_DETAIL_MAKE_FORMAT NVCV_COLOR_MODEL_UNDEFINED NVCV_COLOR_SPEC_UNDEFINED NVCV_CSS_NONE layout kind sw
    alpha p0 p1 p2 p3 0 0 NVCV_DATA_KIND_UNSPECIFIED NVCV_EXTRA_CHANNEL_U.
Definition NVCV_DETAIL_MAKE_NONCOLOR_EXTRA_CHANNELS_FORMAT4
    (layout kind sw alpha n bpp ekind etype p0 p1 p2 p3 : Z) : Z :=
  NVCV_DETAIL_MAKE_FORMAT NVCV_COLOR_MODEL_UNDEFINED NVCV_COLOR_SPEC_UNDEFINED NVCV_CSS_NONE layout kind sw
    alpha p0 p1 p2 p3 n bpp ekind etype.
Definition NVCV_DETAIL_MAKE_RAW_FORMAT4 (raw layout kind sw alpha p0 p1 p2 p3 : Z) : Z :=
  NVCV_DETAIL_MAKE_FORMAT NVCV_COLOR_MODEL_RAW raw NVCV_CSS_NONE layout kind sw alpha p0 p1 p2 p3
    0 0 NVCV_DATA_KIND_UNSPECIFIED NVCV_EXTRA_CHANNEL_U.
Definition NVCV_DETAIL_MAKE_RAW_EXTRA_CHANNELS_FORMAT4
    (raw layout kind sw alpha n bpp ekind etype p0 p1 p2 p3 : Z) : Z :=
  NVCV_DETAIL_MAKE_FORMAT NVCV_COLOR_MODEL_RAW raw NVCV_CSS_NONE layout kind sw alpha p0 p1 p2 p3
    n bpp ekind etype.

(** ** Decoding a plane *)

(** The lambda [decode] of [planePacking]. *)
Definition planePacking_decode (plane isPlanar value chlen packlen bpplen : Z) : Z :=
  let '(bpp, nch, pack) :=
    if negb (isPlanar =? 0)
    then (ExtractBitfield value (packlen + chlen) bpplen, ExtractBitfield value packlen chlen,
          ExtractBitfield value 0 packlen)
    else (0, 0, 0) in
  let '(bpp, pack) := if (plane =? 3) && (packlen =? 0) && (bpp =? 7) then (0, 4) else (bpp, pack) in
  Z.lor (Z.lor (SetBitfield bpp 6 4) (SetBitfield nch 4 2)) (SetBitfield pack 0 4).

Definition planePacking (m_format plane : Z) : NVCVPacking :=
  let isPlanar := ExtractBitfield m_format 7 1 in
  match plane with
  | 0 => planePacking_decode plane 1 (ExtractBitfield m_format 35 9) 2 3 4
  | 1 => planePacking_decode plane isPlanar (ExtractBitfield m_format 44 7) 1 3 3
  | 2 => planePacking_decode plane isPlanar (ExtractBitfield m_format 51 7) 1 3 3
  | 3 => planePacking_decode plane isPlanar (ExtractBitfield m_format 58 3) 0 0 3
  | _ => NVCV_PACKING_0
  end.

(** ** Which packings each plane can hold *)

(** The fields a plane stores, in bits: bits-per-pixel code, channels - 1, code. *)
Definition plane_lens (plane : Z) : Z * Z * Z :=
  if plane =? 0 then (4, 2, 3) else if plane =? 3 then (3, 0, 0) else (3, 1, 3).

(** Plane 3 has no code field: it can hold an 8-bit plane only through the
    encoder's special case. *)
Definition fits_plane (plane : Z) (p : NVCVPacking) : bool :=
  let '(bl, cl, pl) := plane_lens plane in
  (ExtractBitfield p 6 4 <? 2 ^ bl) && (ExtractBitfield p 4 2 <? 2 ^ cl)
  && (if plane =? 3 then ((ExtractBitfield p 0 4 =? 0) && negb (ExtractBitfield p 6 4 =? 7))
                          || (p =? NVCV_PACKING_X8)
      else ExtractBitfield p 0 4 <? 2 ^ pl).

Definition encode_plane (plane : Z) (p : NVCVPacking) : Z :=
  let '(bl, cl, pl) := plane_lens plane in NVCV_DETAIL_ENCODE_PACKING p cl pl bl.

Definition decode_plane (plane isPlanar value : Z) : NVCVPacking :=
  let '(bl, cl, pl) := plane_lens plane in planePacking_decode plane isPlanar value cl pl bl.

(** ** Lemmas *)

(** Split the conditionals of the macros, then compute the field. *)
Ltac fmt_fields :=
  unfold NVCV_DETAIL_MAKE_FMTTYPE, fmt_color_bits, fmt_plane_bits;
  repeat case_match; bitfields; rewrite ?Z.lor_0_l, ?Z.lor_0_r; try done.

Section FmtFields.
Context (cm cs css ml dk sw al p0 p1 p2 p3 n bpp ek et : Z).
Let F := NVCV_DETAIL_MAKE_FMTTYPE cm cs css ml dk sw al p0 p1 p2 p3 n bpp ek et.

Lemma fmt_kind : ExtractBitfield F 61 3 = ExtractBitfield dk 0 3.
Proof. unfold F. fmt_fields. Qed.
Lemma fmt_swizzle : ExtractBitfield F 0 6 = ExtractBitfield sw 0 6.
Proof. unfold F. fmt_fields. Qed.
Lemma fmt_alpha : ExtractBitfield F 6 1 = ExtractBitfield al 0 1.
Proof. unfold F. fmt_fields. Qed.
Lemma fmt_layout : ExtractBitfield F 12 3 = ExtractBitfield ml 0 3.
Proof. unfold F. fmt_fields. Qed.
Lemma fmt_packing0 : ExtractBitfield F 35 9 = ExtractBitfield (NVCV_DETAIL_ENCODE_PACKING p0 2 3 4) 0 9.
Proof. unfold F. fmt_fields. Qed.

Lemma fmt_color o l : 16 <= o -> 0 <= l < 64 -> o + l <= 35 ->
  ExtractBitfield F o l = ExtractBitfield (fmt_color_bits cm cs css) o l.
Proof.
  intros. unfold F, NVCV_DETAIL_MAKE_FMTTYPE, fmt_plane_bits.
  repeat case_match; bitfields; by rewrite ?Z.lor_0_l, ?Z.lor_0_r.
Qed.

Lemma fmt_planes o l : (o = 7 /\ l = 1) \/ (44 <= o /\ 0 <= l < 64 /\ o + l <= 61) ->
  ExtractBitfield F o l = ExtractBitfield (fmt_plane_bits p1 p2 p3 n bpp ek et) o l.
Proof.
  intros. unfold F, NVCV_DETAIL_MAKE_FMTTYPE, fmt_color_bits.
  repeat case_match; bitfields; by rewrite ?Z.lor_0_l, ?Z.lor_0_r.
Qed.

Lemma fmt_u64 : in_u 64 F.
Proof.
  unfold F, NVCV_DETAIL_MAKE_FMTTYPE, fmt_color_bits, fmt_plane_bits.
  repeat case_match; repeat apply in_u_lor; auto using SetBitfield_u64; lia.
Qed.
End FmtFields.

Lemma ENCODE_PACKING_range P cl pl bl : 0 <= cl < 64 -> 0 <= pl < 64 -> 0 <= bl < 64 ->
  in_u (pl + cl + bl) (NVCV_DETAIL_ENCODE_PACKING P cl pl bl).
Proof.
  intros. unfold NVCV_DETAIL_ENCODE_PACKING. apply testbit_high_range; [lia|]. intros i Hi.
  rewrite !Z.lor_spec, !testbit_SetBitfield by lia.
  repeat match goal with |- context [i <? ?b] => rewrite (proj2 (Z.ltb_ge i b)) by lia end.
  by rewrite !andb_false_r.
Qed.

(** The decoder inverts the encoder on every packing that fits the plane: an
    exhaustive check over the 10-bit packing codes. *)
Lemma decode_encode_plane plane p : 0 <= plane < 4 -> in_u 10 p -> fits_plane plane p = true ->
  decode_plane plane 1 (encode_plane plane p) = p.
Proof.
  intros Hk Hp Hf.
  assert (forallb (fun k => forallb (fun p => implb (fits_plane k p)
    (decode_plane k 1 (encode_plane k p) =? p)) (zseq 1024)) (zseq 4) = true) as H by (vm_compute; reflexivity).
  pose proof (forallb_elem _ _ plane H (proj2 (elem_of_zseq 4 _) Hk)) as H1.
  pose proof (forallb_elem _ _ p H1 (proj2 (elem_of_zseq 1024 _) Hp)) as H2.
  cbv beta in H2. rewrite Hf in H2. by apply Z.eqb_eq in H2.
Qed.

(** Without the planar bit planes 1 to 3 are absent. *)
Lemma decode_plane_absent plane v : decode_plane plane 0 v = 0.
Proof.
  unfold decode_plane, plane_lens, planePacking_decode. cbn [negb Z.eqb].
  repeat case_match; simplify_eq; bool_hyps; try done; try reflexivity; lia.
Qed.

Lemma planePacking_decode_plane f k : 0 <= k < 4 ->
  planePacking f k
  = decode_plane k (if k =? 0 then 1 else ExtractBitfield f 7 1)
      (match k with 0 => ExtractBitfield f 35 9 | 1 => ExtractBitfield f 44 7
       | 2 => ExtractBitfield f 51 7 | _ => ExtractBitfield f 58 3 end).
Proof.
  intros Hk. assert (k = 0 \/ k = 1 \/ k = 2 \/ k = 3) as [-> | [-> | [-> | ->]]] by lia; reflexivity.
Qed.

Lemma planePacking_out f k : k < 0 \/ 4 <= k -> planePacking f k = 0.
Proof. intros Hk. unfold planePacking. repeat case_match; try done; lia. Qed.

(** What the word holds after plane 0 when it describes planes. *)
Lemma fmt_plane_bits_planar p1 p2 p3 n bpp ek et :
  (p1 =? 0) && (0 <? n) = false ->
  let v := fmt_plane_bits p1 p2 p3 n bpp ek et in
  ExtractBitfield v 7 1 = 1 /\ ExtractBitfield v 44 7 = encode_plane 1 p1
  /\ ExtractBitfield v 51 7 = encode_plane 2 p2 /\ ExtractBitfield v 58 3 = encode_plane 3 p3.
Proof.
  intros E. unfold fmt_plane_bits, NVCV_PACKING_0. rewrite E. cbv zeta.
  repeat split; bitfields; try done;
    apply Extract_small; try lia; apply ENCODE_PACKING_range; lia.
Qed.

(** What it holds when it describes extra channels. *)
Lemma fmt_plane_bits_extra p1 p2 p3 n bpp ek et :
  (p1 =? 0) && (0 <? n) = true ->
  let v := fmt_plane_bits p1 p2 p3 n bpp ek et in
  ExtractBitfield v 7 1 = 0 /\ ExtractBitfield v 44 3 = ExtractBitfield et 0 3
  /\ ExtractBitfield v 47 3 = ExtractBitfield n 0 3
  /\ ExtractBitfield v 50 3 = ExtractBitfield (NVCV_DETAIL_ENCODE_BPP bpp) 0 3
  /\ ExtractBitfield v 53 3 = ExtractBitfield ek 0 3.
Proof.
  intros E. unfold fmt_plane_bits, NVCV_PACKING_0. rewrite E. cbv zeta. repeat split; bitfields; done.
Qed.

(** The word assembled by the macro holds the packings it was given. *)
Lemma planePacking_fmt cm cs css ml dk sw al p0 p1 p2 p3 n bpp ek et k :
  let ps := [p0; p1; p2; p3] in
  (forall i p, ps !! i = Some p -> in_u 10 p /\ fits_plane (Z.of_nat i) p = true) ->
  (0 < n -> p1 = 0 -> p2 = 0 /\ p3 = 0) -> 0 <= k < 4 ->
  planePacking (NVCV_DETAIL_MAKE_FMTTYPE cm cs css ml dk sw al p0 p1 p2 p3 n bpp ek et) k
  = nth (Z.to_nat k) ps 0.
Proof.
  intros ps Hps Hx Hk. rewrite planePacking_decode_plane by done.
  assert (k = 0 \/ k = 1 \/ k = 2 \/ k = 3) as [-> | Hk'] by lia.
  { rewrite fmt_packing0, Extract_small; [|lia|apply (ENCODE_PACKING_range _ 2 3 4); lia].
    destruct (Hps 0%nat p0 eq_refl). by apply (decode_encode_plane 0). }
  assert ((k =? 0) = false) as -> by lia.
  destruct ((p1 =? 0) && (0 <? n)) eqn:E.
  - destruct (fmt_plane_bits_extra p1 p2 p3 n bpp ek et E) as (H7 & _).
    rewrite fmt_planes, H7, decode_plane_absent by lia. bool_hyps. subst.
    destruct Hx; [lia|done|]. subst. by destruct Hk' as [-> | [-> | ->]].
  - destruct (fmt_plane_bits_planar p1 p2 p3 n bpp ek et E) as (H7 & H1 & H2 & H3).
    rewrite fmt_planes, H7 by lia.
    destruct Hk' as [-> | [-> | ->]]; rewrite fmt_planes, ?H1, ?H2, ?H3 by lia.
    + destruct (Hps 1%nat p1 eq_refl). by apply (decode_encode_plane 1).
    + destruct (Hps 2%nat p2 eq_refl). by apply (decode_encode_plane 2).
    + destruct (Hps 3%nat p3 eq_refl). by apply (decode_encode_plane 3).
Qed.
