(* ===== verification/ImageFormat.v ===== *)
(** * Image formats (priv/ImageFormat.cpp, priv/ImageFormat.hpp, priv/ColorFormat.cpp)

    The class [ImageFormat], a 64-bit word with named fields: constructors with
    their validation, getters, setters, planes, [FromPlanes], FourCC codes. The
    data types of planes ([DataType], same word format) are modelled here as far
    as image formats need them; the rest is in DataType.v. *)
From Stdlib Require Import Ascii.
From S2P Require Import Prelude Bitfield MathUtil ColorSpec DataLayout FormatCode.
From stdpp Require Import options.

Record Size2D := mkSize2D { w : Z; h : Z }.
#[global] Instance Size2D_eq_dec : EqDecision Size2D.
Proof. solve_decision. Defined.

Record NVCVExtraChannelInfo := mkExtra {
  xc_numChannels : Z; xc_bitsPerPixel : Z; xc_datakind : NVCVDataKind; xc_channelType : NVCVExtraChannel }.
#[global] Instance NVCVExtraChannelInfo_eq_dec : EqDecision NVCVExtraChannelInfo.
Proof. solve_decision. Defined.

(** [cspec] and [raw] share storage. *)
Record ColorFormat := mkColorFormat { cf_model : NVCVColorModel; cf_payload : Z }.

(** [operator==(ColorFormat, ColorFormat)]: both branches compare the shared storage. *)
Definition ColorFormat_eqb (a b : ColorFormat) : bool :=
  if cf_model a =? cf_model b then
    if cf_model a =? NVCV_COLOR_MODEL_RAW then cf_payload a =? cf_payload b
    else cf_payload a =? cf_payload b
  else false.

Definition NVCV_IMAGE_FORMAT_NONE : Z := 0.
Definition NVCV_DATA_TYPE_NONE : Z := 0.

(** ** Validation *)

Definition ValidateSwizzlePacking (swizzle : NVCVSwizzle) (p0 p1 p2 p3 : NVCVPacking) : outcome unit :=
  throw_if (p0 =? NVCV_PACKING_0) NVCV_ERROR_INVALID_ARGUMENT (
  throw_if (negb (Z.land p0 8 =? 0)) NVCV_ERROR_INVALID_ARGUMENT (
  throw_if (negb (Z.land p1 8 =? 0)) NVCV_ERROR_INVALID_ARGUMENT (
  throw_if (negb (Z.land p2 8 =? 0)) NVCV_ERROR_INVALID_ARGUMENT (
  throw_if (negb (Z.land p3 15 =? 0)) NVCV_ERROR_INVALID_ARGUMENT (
  let swchannels := GetNumChannels_swizzle swizzle in
  packchannels ← mfold (fun packchannels (ip : Z * NVCVPacking) =>
      let '(i, p) := ip in
      let nch := GetNumChannels_packing p in
      _ ← (if i =? 3 then b ← GetBitsPerPixel p3; throw_if (64 <? b) NVCV_ERROR_INVALID_ARGUMENT (Ok ())
           else if 0 <? i then b ← GetBitsPerPixel p; throw_if (128 <? b) NVCV_ERROR_INVALID_ARGUMENT (Ok ())
           else Ok ());
      throw_if ((i =? 1) && (2 <? nch)) NVCV_ERROR_INVALID_ARGUMENT (Ok (packchannels + nch)))
    [(0, p0); (1, p1); (2, p2); (3, p3)] 0;
  throw_if (negb (swchannels =? packchannels)) NVCV_ERROR_INVALID_ARGUMENT (Ok ())))))).

Definition ValidateExtraChannelInfo (ex : option NVCVExtraChannelInfo) (p0 p1 p2 p3 : NVCVPacking)
    : outcome unit :=
  match ex with
  | None => Ok ()
  | Some e =>
      throw_if (7 <? xc_numChannels e) NVCV_ERROR_INVALID_ARGUMENT (
      throw_if ((0 <? xc_numChannels e) && (p0 =? NVCV_PACKING_0)) NVCV_ERROR_INVALID_IMAGE_FORMAT (
      throw_if ((0 <? xc_numChannels e) && negb (p0 =? NVCV_PACKING_0)
                && (negb (p1 =? NVCV_PACKING_0) || negb (p2 =? NVCV_PACKING_0) || negb (p3 =? NVCV_PACKING_0)))
        NVCV_ERROR_INVALID_IMAGE_FORMAT (
      throw_if (128 <? xc_bitsPerPixel e) NVCV_ERROR_INVALID_ARGUMENT (Ok ()))))
  end.

Module ImageFormat.

(** ** Constructors *)

Definition make_color (colorModel : NVCVColorModel) (colorSpec : Z) (chromaSub : NVCVChromaSubsampling)
    (memLayout : NVCVMemLayout) (dataKind : NVCVDataKind) (swizzle : NVCVSwizzle) (p0 p1 p2 p3 : NVCVPacking)
    (alphaType : NVCVAlphaType) (ex : option NVCVExtraChannelInfo) : outcome Z :=
  _ ← ValidateSwizzlePacking swizzle p0 p1 p2 p3;
  throw_if (colorModel =? NVCV_COLOR_MODEL_RAW) NVCV_ERROR_INVALID_ARGUMENT (
  throw_if ((colorModel =? NVCV_COLOR_MODEL_UNDEFINED)
            && (negb (colorSpec =? NVCV_COLOR_SPEC_UNDEFINED) || negb (chromaSub =? NVCV_CSS_NONE)))
    NVCV_ERROR_INVALID_ARGUMENT (
  throw_if (negb ((colorModel =? NVCV_COLOR_MODEL_RGB) || (colorModel =? NVCV_COLOR_MODEL_YCCK)
                  || (colorModel =? NVCV_COLOR_MODEL_CMYK) || (colorModel =? NVCV_COLOR_MODEL_YCbCr))
            && negb (colorSpec =? NVCV_COLOR_SPEC_UNDEFINED)) NVCV_ERROR_INVALID_ARGUMENT (
  _ ← ValidateExtraChannelInfo ex p0 p1 p2 p3;
  if colorModel =? NVCV_COLOR_MODEL_YCbCr then
    match ex with
    | Some e =>
        if 0 <? xc_numChannels e then
          Ok (NVCV_DETAIL_MAKE_YCbCr_EXTRA_CHANNELS_FORMAT4 colorSpec chromaSub memLayout dataKind swizzle alphaType
                (xc_numChannels e) (xc_bitsPerPixel e) (xc_datakind e) (xc_channelType e) p0 p1 p2 p3)
        else Ok (NVCV_DETAIL_MAKE_YCbCr_FORMAT4 colorSpec chromaSub memLayout dataKind swizzle alphaType p0 p1 p2 p3)
    | None => Ok (NVCV_DETAIL_MAKE_YCbCr_FORMAT4 colorSpec chromaSub memLayout dataKind swizzle alphaType p0 p1 p2 p3)
    end
  else throw_if (negb (chromaSub =? NVCV_CSS_NONE)) NVCV_ERROR_INVALID_ARGUMENT (
    match ex with
    | Some e =>
        if 0 <? xc_numChannels e then
          Ok (NVCV_DETAIL_MAKE_COLOR_EXTRA_CHANNELS_FORMAT4 colorModel colorSpec memLayout dataKind swizzle alphaType
                (xc_numChannels e) (xc_bitsPerPixel e) (xc_datakind e) (xc_channelType e) p0 p1 p2 p3)
        else Ok (NVCV_DETAIL_MAKE_COLOR_FORMAT4 colorModel colorSpec memLayout dataKind swizzle alphaType p0 p1 p2 p3)
    | None => Ok (NVCV_DETAIL_MAKE_COLOR_FORMAT4 colorModel colorSpec memLayout dataKind swizzle alphaType p0 p1 p2 p3)
    end)))).

Definition make_raw (rawPattern : NVCVRawPattern) (memLayout : NVCVMemLayout) (dataKind : NVCVDataKind)
    (swizzle : NVCVSwizzle) (p0 p1 p2 p3 : NVCVPacking) (alphaType : NVCVAlphaType)
    (ex : option NVCVExtraChannelInfo) : outcome Z :=
  _ ← ValidateSwizzlePacking swizzle p0 p1 p2 p3;
  _ ← ValidateExtraChannelInfo ex p0 p1 p2 p3;
  match ex with
  | Some e =>
      if 0 <? xc_numChannels e then
        Ok (NVCV_DETAIL_MAKE_RAW_EXTRA_CHANNELS_FORMAT4 rawPattern memLayout dataKind swizzle alphaType
              (xc_numChannels e) (xc_bitsPerPixel e) (xc_datakind e) (xc_channelType e) p0 p1 p2 p3)
      else Ok (NVCV_DETAIL_MAKE_RAW_FORMAT4 rawPattern memLayout dataKind swizzle alphaType p0 p1 p2 p3)
  | None => Ok (NVCV_DETAIL_MAKE_RAW_FORMAT4 rawPattern memLayout dataKind swizzle alphaType p0 p1 p2 p3)
  end.

Definition make_noncolor (memLayout : NVCVMemLayout) (dataKind : NVCVDataKind) (swizzle : NVCVSwizzle)
    (p0 p1 p2 p3 : NVCVPacking) (alphaType : NVCVAlphaType) (ex : option NVCVExtraChannelInfo) : outcome Z :=
  _ ← ValidateSwizzlePacking swizzle p0 p1 p2 p3;
  _ ← ValidateExtraChannelInfo ex p0 p1 p2 p3;
  match ex with
  | Some e =>
      if 0 <? xc_numChannels e then
        Ok (NVCV_DETAIL_MAKE_NONCOLOR_EXTRA_CHANNELS_FORMAT4 memLayout dataKind swizzle alphaType
              (xc_numChannels e) (xc_bitsPerPixel e) (xc_datakind e) (xc_channelType e) p0 p1 p2 p3)
      else Ok (NVCV_DETAIL_MAKE_NONCOLOR_FORMAT4 memLayout dataKind swizzle alphaType p0 p1 p2 p3)
  | None => Ok (NVCV_DETAIL_MAKE_NONCOLOR_FORMAT4 memLayout dataKind swizzle alphaType p0 p1 p2 p3)
  end.

Definition make (colorFormat : ColorFormat) (chromaSub : NVCVChromaSubsampling) (memLayout : NVCVMemLayout)
    (dataKind : NVCVDataKind) (swizzle : NVCVSwizzle) (p0 p1 p2 p3 : NVCVPacking)
    (alphaType : NVCVAlphaType) (ex : option NVCVExtraChannelInfo) : outcome Z :=
  if cf_model colorFormat =? NVCV_COLOR_MODEL_RAW then
    throw_if (negb (chromaSub =? NVCV_CSS_NONE)) NVCV_ERROR_INVALID_ARGUMENT
      (make_raw (cf_payload colorFormat) memLayout dataKind swizzle p0 p1 p2 p3 alphaType ex)
  else make_color (cf_model colorFormat) (cf_payload colorFormat) chromaSub memLayout dataKind swizzle
         p0 p1 p2 p3 alphaType ex.

(** ** Getters *)

Definition dataKind (m_format : Z) : NVCVDataKind := ExtractBitfield m_format 61 3.
Definition swizzle (m_format : Z) : NVCVSwizzle := ExtractBitfield m_format 0 6.

Definition colorModel (m_format : Z) : NVCVColorModel :=
  if m_format =? NVCV_IMAGE_FORMAT_NONE then NVCV_COLOR_MODEL_UNDEFINED
  else if ExtractBitfield m_format 16 1 =? 0 then NVCV_COLOR_MODEL_YCbCr
  else if ExtractBitfield m_format 16 19 =? 2 ^ 19 - 1 then NVCV_COLOR_MODEL_UNDEFINED
  else
    let tmp := ExtractBitfield m_format 17 3 in
    if tmp <? 7 then tmp + 2
    else if ExtractBitfield m_format 20 1 =? 0 then NVCV_COLOR_MODEL_RAW
    else ExtractBitfield m_format 21 6 + (7 + 2 + 1).

Definition rawPattern (m_format : Z) : option NVCVRawPattern :=
  if colorModel m_format =? NVCV_COLOR_MODEL_RAW then Some (ExtractBitfield m_format 21 6) else None.

Definition colorSpec (m_format : Z) : Z :=
  let model := colorModel m_format in
  if negb (model =? NVCV_COLOR_MODEL_UNDEFINED) && (model <? 7) then ExtractBitfield m_format 20 15
  else NVCV_COLOR_SPEC_UNDEFINED.

Definition memLayout (m_format : Z) : NVCVMemLayout := ExtractBitfield m_format 12 3.

Definition colorFormat (m_format : Z) : outcome ColorFormat :=
  let model := colorModel m_format in
  if model =? NVCV_COLOR_MODEL_RAW then
    match rawPattern m_format with
    | Some raw => Ok (mkColorFormat model raw)
    | None => Stuck
    end
  else Ok (mkColorFormat model (colorSpec m_format)).

Definition css (m_format : Z) : NVCVChromaSubsampling :=
  if colorModel m_format =? NVCV_COLOR_MODEL_YCbCr then ExtractBitfield m_format 17 3 else NVCV_CSS_NONE.

Definition blockHeightLog2 (m_format : Z) : outcome Z := GetBlockHeightLog2 (memLayout m_format).

Definition planeNumChannels (m_format plane : Z) : Z := GetNumChannels_packing (planePacking m_format plane).

Definition planeBPP (m_format plane : Z) : outcome Z := GetBitsPerPixel (planePacking m_format plane).

Definition numPlanes (m_format : Z) : Z :=
  (if planeNumChannels m_format 0 =? 0 then 0 else 1) + (if planeNumChannels m_format 1 =? 0 then 0 else 1)
  + (if planeNumChannels m_format 2 =? 0 then 0 else 1) + (if planeNumChannels m_format 3 =? 0 then 0 else 1).

Definition alphaType (m_format : Z) : NVCVAlphaType := ExtractBitfield m_format 6 1.

Definition numChannels (m_format : Z) : Z := GetNumChannels_swizzle (swizzle m_format).

Definition no_extra : NVCVExtraChannelInfo := mkExtra 0 0 NVCV_DATA_KIND_UNSPECIFIED NVCV_EXTRA_CHANNEL_U.

(** The out-parameter is the result. *)
Definition extraChannelInfo (m_format : Z) : NVCVExtraChannelInfo :=
  if numPlanes m_format =? 1 then
    let numExtraChannels := ExtractBitfield m_format 47 3 in
    if 0 <? numExtraChannels then
      mkExtra numExtraChannels (2 ^ (3 + ExtractBitfield m_format 50 3)) (ExtractBitfield m_format 53 3)
        (ExtractBitfield m_format 44 3)
    else no_extra
  else no_extra.

Definition colorRange (m_format : Z) : NVCVColorRange := ColorSpec.colorRange (colorSpec m_format).

(** The loop over the components of plane [p]. *)
Fixpoint bpc_plane (pbits : list Z) (st : list Z * Z) : outcome (list Z * Z) :=
  match pbits with
  | [] => Ok st
  | b :: rest =>
      if b =? 0 then Ok st
      else let '(bits, nch) := st in
           throw_if (4 <=? nch) NVCV_ERROR_INVALID_IMAGE_FORMAT
             (bits ← wr bits nch b; bpc_plane rest (bits, nch + 1))
  end.

Definition bpc (m_format : Z) : outcome (list Z) :=
  st ← mfold (fun (st : list Z * Z) (p : Z) =>
      let packing := planePacking m_format p in
      pbits ← GetBitsPerComponent packing;
      pbits ← (if (packing =? NVCV_PACKING_X8_Y8__X8_Z8) || (packing =? NVCV_PACKING_Y8_X8__Z8_X8)
               then wr pbits 3 0 else Ok pbits);
      bpc_plane pbits st)
    (zrange 0 (numPlanes m_format)) ([0; 0; 0; 0], 0);
  mfold (fun bits i => wr bits i 0) (zrange st.2 4) st.1.

Definition planeSize (m_format : Z) (imgSize : Size2D) (plane : Z) : outcome Size2D :=
  if (1 <=? plane) && negb (css m_format =? NVCV_CSS_NONE) then
    noexcept (
      '(samplesHoriz, samplesVert) ← GetChromaSamples (css m_format);
      sw ← int32 (w imgSize * samplesHoriz); sw ← int32 (sw + 3);
      sh ← int32 (h imgSize * samplesVert); sh ← int32 (sh + 3);
      Ok (mkSize2D (Z.quot sw 4) (Z.quot sh 4)))
  else Ok imgSize.

(** One component of the plane: [i] is its place in the format's swizzle, [ch]
    the place of the plane's first component. [nch] grows at a '0' channel. *)
Fixpoint planeSwizzle_loop (fuel : nat) (tch : list NVCVChannel) (ch i nch : Z)
    (plsw : list NVCVChannel) (empty : bool) : outcome (list NVCVChannel * bool) :=
  match fuel with
  | O => Stuck
  | S fuel =>
      if ch + nch <=? i then Ok (plsw, empty)
      else nvcv_assert (i <? 4)
        (t ← rd tch i;
         if is_color_channel t then
           plsw ← wr plsw (t - NVCV_CHANNEL_X) (i - ch + NVCV_CHANNEL_X);
           planeSwizzle_loop fuel tch ch (i + 1) nch plsw false
         else if t =? NVCV_CHANNEL_0 then planeSwizzle_loop fuel tch ch (i + 1) (nch + 1) plsw empty
         else plsw ← wr plsw i t; planeSwizzle_loop fuel tch ch (i + 1) nch plsw false)
  end.

Definition planeSwizzle (m_format plane : Z) : outcome NVCVSwizzle :=
  if numPlanes m_format =? 1 then
    Ok (if plane =? 0 then swizzle m_format else NVCV_SWIZZLE_0000)
  else
    let ch := fold_left (fun ch i => ch + planeNumChannels m_format i) (zrange 0 plane) 0 in
    let tch := GetChannels (swizzle m_format) in
    '(plsw, empty) ← planeSwizzle_loop 5 tch ch ch (planeNumChannels m_format plane) [0; 0; 0; 0] true;
    plsw ← (if (empty : bool) then Ok plsw
            else mfold (fun plsw i =>
                t ← rd tch i;
                if t =? NVCV_CHANNEL_1 then
                  s ← rd plsw i;
                  throw_if (negb (s =? NVCV_CHANNEL_0)) NVCV_ERROR_INVALID_IMAGE_FORMAT (wr plsw i t)
                else Ok plsw) (zseq 4) plsw);
    x ← rd plsw 0; y ← rd plsw 1; z ← rd plsw 2; v ← rd plsw 3;
    Ok (MakeNVCVSwizzle x y z v).

Definition planeFormat (m_format plane : Z) : outcome Z :=
  if plane <? numPlanes m_format then
    cf ← colorFormat m_format;
    sw ← planeSwizzle m_format plane;
    make cf (if plane =? 0 then NVCV_CSS_NONE else css m_format) (memLayout m_format) (dataKind m_format) sw
      (planePacking m_format plane) NVCV_PACKING_0 NVCV_PACKING_0 NVCV_PACKING_0 (alphaType m_format)
      (Some (extraChannelInfo m_format))
  else Ok NVCV_IMAGE_FORMAT_NONE.

(** The [DataType] of a plane, as its code. *)
Definition planeDataType (m_format plane : Z) : Z :=
  let packing := planePacking m_format plane in
  if packing =? NVCV_PACKING_0 then NVCV_DATA_TYPE_NONE
  else if (packing =? NVCV_PACKING_X8_Y8__X8_Z8) || (packing =? NVCV_PACKING_Y8_X8__Z8_X8)
  then NVCV_DETAIL_MAKE_DATA_TYPE (dataKind m_format) NVCV_PACKING_X8_Y8
  else NVCV_DETAIL_MAKE_DATA_TYPE (dataKind m_format) packing.

Definition hasUniformBitDepth (m_format : Z) : outcome bool :=
  bpc ← bpc m_format;
  mfold (fun u i => a ← rd bpc (i - 1); b ← rd bpc i; Ok (u && (a =? b)))
    (zrange 1 (numChannels m_format)) true.

Definition bitDepth (m_format : Z) : outcome Z :=
  u ← hasUniformBitDepth m_format;
  if (u : bool) then bpc ← bpc m_format; rd bpc 0 else Ok 0.

Definition HasSameDataLayout (a b : Z) : bool :=
  if (numPlanes a =? numPlanes b) && (css a =? css b) && (memLayout a =? memLayout b) then
    forallb (fun i => (planePacking a i =? planePacking b i) && (planeDataType a i =? planeDataType b i))
      (zrange 0 (numPlanes a))
  else false.

(** ** Setters *)

Definition set_alphaType (m_format : Z) (newAlphaType : NVCVAlphaType) : outcome Z :=
  throw_if (m_format =? NVCV_IMAGE_FORMAT_NONE) NVCV_ERROR_INVALID_ARGUMENT
    (Ok (UpdateBitfield m_format newAlphaType 6 1)).

Definition set_extraChannelInfo (m_format : Z) (new : NVCVExtraChannelInfo) : outcome Z :=
  throw_if (m_format =? NVCV_IMAGE_FORMAT_NONE) NVCV_ERROR_INVALID_ARGUMENT (
  throw_if ((xc_numChannels new <? 0) || (7 <? xc_numChannels new)) NVCV_ERROR_INVALID_ARGUMENT (
  throw_if (128 <? xc_bitsPerPixel new) NVCV_ERROR_INVALID_ARGUMENT (
  throw_if (xc_datakind new =? NVCV_DATA_KIND_UNSPECIFIED) NVCV_ERROR_INVALID_ARGUMENT (
  if numPlanes m_format =? 1 then
    Ok (Z.lor (Z.land m_format (not64 (MaskBitfield 44 12)))
          (Z.lor (Z.lor (Z.lor (SetBitfield (xc_numChannels new) 47 3)
             (SetBitfield (NVCV_DETAIL_ENCODE_BPP (xc_bitsPerPixel new)) 50 3))
             (SetBitfield (xc_datakind new) 53 3)) (SetBitfield (xc_channelType new) 44 3)))
  else Throw NVCV_ERROR_INVALID_ARGUMENT)))).

(** When the kind's top bit is set the code computes the word by a signed
    negation, whose [1 + ...] must not overflow [int64_t]. *)
Definition set_dataKind (m_format : Z) (newDataKind : NVCVDataKind) : outcome Z :=
  throw_if (m_format =? NVCV_IMAGE_FORMAT_NONE) NVCV_ERROR_INVALID_ARGUMENT (
  if negb (ExtractBitfield newDataKind 2 1 =? 0) then
    let low := Z.land (not64 (Z.lor (Z.land m_format (not64 (MaskBitfield 61 3))) (SetBitfield newDataKind 61 2))) (not64 (2 ^ 63)) in
    if low =? 2 ^ 63 - 1 then Stuck else Ok (wrapu 64 (- (1 + low)))
  else Ok (UpdateBitfield m_format newDataKind 61 3)).

Definition set_rawPattern (m_format : Z) (newRawPattern : NVCVRawPattern) : outcome Z :=
  throw_if (m_format =? NVCV_IMAGE_FORMAT_NONE) NVCV_ERROR_INVALID_ARGUMENT (
  if colorModel m_format =? NVCV_COLOR_MODEL_RAW then Ok (UpdateBitfield m_format newRawPattern 21 6)
  else Throw NVCV_ERROR_INVALID_ARGUMENT).

Definition set_memLayout (m_format : Z) (newMemLayout : NVCVMemLayout) : outcome Z :=
  throw_if (m_format =? NVCV_IMAGE_FORMAT_NONE) NVCV_ERROR_INVALID_ARGUMENT
    (Ok (UpdateBitfield m_format newMemLayout 12 3)).

(** The YCbCr branch of the code calls the setter of [newColorSpec] and drops
    its result, so [newColorSpec] is stored as given. *)
Definition set_colorSpec (m_format newColorSpec : Z) : outcome Z :=
  throw_if (m_format =? NVCV_IMAGE_FORMAT_NONE) NVCV_ERROR_INVALID_ARGUMENT (
  if colorModel m_format =? NVCV_COLOR_MODEL_RGB then
    Ok (UpdateBitfield m_format (ColorSpec.set_YCbCrEncoding newColorSpec NVCV_YCbCr_ENC_UNDEFINED) 20 15)
  else if colorModel m_format =? NVCV_COLOR_MODEL_YCbCr then
    let _ := if ColorSpec.YCbCrEncoding newColorSpec =? NVCV_YCbCr_ENC_UNDEFINED
             then ColorSpec.set_YCbCrEncoding newColorSpec (ColorSpec.YCbCrEncoding NVCV_COLOR_SPEC_UNDEFINED)
             else newColorSpec in
    Ok (UpdateBitfield m_format newColorSpec 20 15)
  else throw_if (negb (colorSpec m_format =? NVCV_COLOR_SPEC_UNDEFINED)) NVCV_ERROR_INVALID_ARGUMENT
         (Ok m_format)).

Definition set_css (m_format : Z) (newCSS : NVCVChromaSubsampling) : outcome Z :=
  throw_if (m_format =? NVCV_IMAGE_FORMAT_NONE) NVCV_ERROR_INVALID_ARGUMENT (
  if colorModel m_format =? NVCV_COLOR_MODEL_YCbCr then Ok (UpdateBitfield m_format newCSS 17 3)
  else if newCSS =? NVCV_CSS_NONE then Ok m_format
  else Throw NVCV_ERROR_INVALID_ARGUMENT).

Definition set_colorRange (m_format : Z) (newColorRange : NVCVColorRange) : outcome Z :=
  throw_if (m_format =? NVCV_IMAGE_FORMAT_NONE) NVCV_ERROR_INVALID_ARGUMENT
    (set_colorSpec m_format (ColorSpec.set_colorRange (colorSpec m_format) newColorRange)).

Definition set_colorFormat (m_format : Z) (new : ColorFormat) : outcome Z :=
  if cf_model new =? NVCV_COLOR_MODEL_RAW then set_rawPattern m_format (cf_payload new)
  else set_colorSpec m_format (cf_payload new).

Definition swizzleAndPacking (m_format : Z) (newSwizzle : NVCVSwizzle) (p0 p1 p2 p3 : NVCVPacking) : outcome Z :=
  throw_if (m_format =? NVCV_IMAGE_FORMAT_NONE) NVCV_ERROR_INVALID_ARGUMENT (
  cf ← colorFormat m_format;
  make cf (css m_format) (memLayout m_format) (dataKind m_format) newSwizzle p0 p1 p2 p3
    (alphaType m_format) (Some (extraChannelInfo m_format))).

Definition UpdateColorSpec (fmt source : Z) : outcome Z :=
  throw_if (fmt =? NVCV_IMAGE_FORMAT_NONE) NVCV_ERROR_INVALID_ARGUMENT (
  let cspec := colorSpec fmt in
  let cspec :=
    if (cspec =? NVCV_COLOR_SPEC_UNDEFINED) && negb (source =? NVCV_COLOR_SPEC_UNDEFINED) then
      let cspec := ColorSpec.set_colorSpace cspec (ColorSpec.colorSpace source) in
      let model := colorModel fmt in
      let cspec := if model =? NVCV_COLOR_MODEL_RGB then ColorSpec.set_xferFunc cspec NVCV_COLOR_XFER_sRGB
                   else ColorSpec.set_xferFunc cspec (ColorSpec.xferFunc source) in
      if model =? NVCV_COLOR_MODEL_YCbCr then
        ColorSpec.set_chromaLoc
          (ColorSpec.set_colorRange
            (ColorSpec.set_YCbCrEncoding cspec (ColorSpec.YCbCrEncoding source))
            (ColorSpec.colorRange source))
          (ColorSpec.chromaLoc source)
      else
        let und := NVCV_COLOR_SPEC_UNDEFINED in
        ColorSpec.set_colorRange (ColorSpec.set_chromaLoc cspec (ColorSpec.chromaLoc und))
          (ColorSpec.colorRange und)
    else cspec in
  set_colorSpec fmt cspec).

(** ** Building a format from its planes *)

(** One iteration of the loop of [FromPlanes] over plane [i]; the state is the
    chroma subsampling seen so far and the channel count. *)
Definition FromPlanes_step (f0 : Z) (st : NVCVChromaSubsampling * Z) (e : Z * Z)
    : outcome (NVCVChromaSubsampling * Z) :=
  let '(c, totChannels) := st in
  let '(i, f) := e in
  throw_if (negb (numPlanes f =? 1)) NVCV_ERROR_INVALID_ARGUMENT (
  throw_if (planePacking f 0 =? NVCV_PACKING_0) NVCV_ERROR_INVALID_ARGUMENT (
  throw_if (negb (alphaType f =? alphaType f0)) NVCV_ERROR_INVALID_IMAGE_FORMAT (
  nvcv_assert (planePacking f 1 =? NVCV_PACKING_0) (
  nvcv_assert (planePacking f 2 =? NVCV_PACKING_0) (
  nvcv_assert (planePacking f 3 =? NVCV_PACKING_0) (
  let totChannels := totChannels + numChannels f in
  throw_if (4 <? totChannels) NVCV_ERROR_INVALID_ARGUMENT (
  cf ← colorFormat f; cf0 ← colorFormat f0;
  throw_if ((1 <=? i) && negb (bool_decide (rawPattern f = rawPattern f0))) NVCV_ERROR_INVALID_ARGUMENT (
  throw_if ((1 <=? i) && negb (ColorFormat_eqb cf cf0)) NVCV_ERROR_INVALID_ARGUMENT (
  throw_if ((1 <=? i) && negb (memLayout f =? memLayout f0)) NVCV_ERROR_INVALID_ARGUMENT (
  throw_if ((1 <=? i) && negb (dataKind f =? dataKind f0)) NVCV_ERROR_INVALID_ARGUMENT (
  let plcss := css f in
  if c =? NVCV_CSS_NONE then Ok (plcss, totChannels)
  else throw_if (negb (c =? plcss)) NVCV_ERROR_INVALID_ARGUMENT (Ok (c, totChannels))))))))))))).

Definition FromPlanes (fmtPlanes : list Z) : outcome Z :=
  match fmtPlanes with
  | [] => Throw NVCV_ERROR_INVALID_ARGUMENT
  | f0 :: _ =>
      cf0 ← colorFormat f0;
      '(c, totChannels) ← mfold (FromPlanes_step f0) (zip (zseq (length fmtPlanes)) fmtPlanes) (NVCV_CSS_NONE, 0);
      throw_if (totChannels =? 0) NVCV_ERROR_INVALID_ARGUMENT (
      let swPlane i := match fmtPlanes !! i with Some f => swizzle f | None => NVCV_SWIZZLE_0000 end in
      let packPlane i := match fmtPlanes !! i with Some f => planePacking f 0 | None => NVCV_PACKING_0 end in
      sw ← MergePlaneSwizzles (swPlane 0%nat) (swPlane 1%nat) (swPlane 2%nat) (swPlane 3%nat);
      make cf0 c (memLayout f0) (dataKind f0) sw (packPlane 0%nat) (packPlane 1%nat) (packPlane 2%nat)
        (packPlane 3%nat) (alphaType f0) None)
  end.

(** ** FourCC codes *)

Definition FCC (a b c d : Ascii.ascii) : Z :=
  let ch x := Z.of_N (Ascii.N_of_ascii x) in
  Z.lor (Z.lor (Z.lor (Z.shiftl (ch d) 24) (Z.shiftl (ch c) 16)) (Z.shiftl (ch b) 8)) (ch a).

Definition FCC_IF (model css type swizzle p0 p1 p2 : Z) : outcome Z :=
  make_color model NVCV_COLOR_SPEC_UNDEFINED css NVCV_MEM_LAYOUT_PL type swizzle p0 p1 p2 NVCV_PACKING_0
    NVCV_ALPHA_ASSOCIATED None.

Definition FCC_BAYER_IF (pattern type swizzle p0 : Z) : outcome Z :=
  make_raw pattern NVCV_MEM_LAYOUT_PL type swizzle p0 NVCV_PACKING_0 NVCV_PACKING_0 NVCV_PACKING_0
    NVCV_ALPHA_ASSOCIATED None.

(** The initialiser of the table: the constructors run at load time. *)
Definition g_FourCC_entries : list (Z * outcome Z) :=
  [(FCC "R"%char "G"%char "B"%char "1"%char, FCC_IF NVCV_COLOR_MODEL_RGB NVCV_CSS_444 NVCV_DATA_KIND_UNSIGNED NVCV_SWIZZLE_ZYX1
      NVCV_PACKING_X3Y3Z2 NVCV_PACKING_0 NVCV_PACKING_0);
   (FCC "R"%char "4"%char "4"%char "4"%char, FCC_IF NVCV_COLOR_MODEL_RGB NVCV_CSS_444 NVCV_DATA_KIND_UNSIGNED NVCV_SWIZZLE_XYZ1
      NVCV_PACKING_b4X4Y4Z4 NVCV_PACKING_0 NVCV_PACKING_0);
   (FCC "R"%char "G"%char "B"%char "0"%char, FCC_IF NVCV_COLOR_MODEL_RGB NVCV_CSS_444 NVCV_DATA_KIND_UNSIGNED NVCV_SWIZZLE_ZYX1
      NVCV_PACKING_b1X5Y5Z5 NVCV_PACKING_0 NVCV_PACKING_0);
   (FCC "R"%char "G"%char "B"%char "P"%char, FCC_IF NVCV_COLOR_MODEL_RGB NVCV_CSS_444 NVCV_DATA_KIND_UNSIGNED NVCV_SWIZZLE_ZYX1
      NVCV_PACKING_X5Y6Z5 NVCV_PACKING_0 NVCV_PACKING_0);
   (FCC "R"%char "G"%char "B"%char "Q"%char, FCC_IF NVCV_COLOR_MODEL_RGB NVCV_CSS_444 NVCV_DATA_KIND_UNSIGNED NVCV_SWIZZLE_XYZ1
      NVCV_PACKING_X5Y5b1Z5 NVCV_PACKING_0 NVCV_PACKING_0);
   (FCC "R"%char "G"%char "B"%char "R"%char, FCC_IF NVCV_COLOR_MODEL_RGB NVCV_CSS_444 NVCV_DATA_KIND_UNSIGNED NVCV_SWIZZLE_XYZ1
      NVCV_PACKING_X5Y6Z5 NVCV_PACKING_0 NVCV_PACKING_0);
   (FCC "B"%char "G"%char "R"%char "3"%char, FCC_IF NVCV_COLOR_MODEL_RGB NVCV_CSS_444 NVCV_DATA_KIND_UNSIGNED NVCV_SWIZZLE_ZYX1
      NVCV_PACKING_X8_Y8_Z8 NVCV_PACKING_0 NVCV_PACKING_0);
   (FCC "R"%char "G"%char "B"%char "3"%char, FCC_IF NVCV_COLOR_MODEL_RGB NVCV_CSS_444 NVCV_DATA_KIND_UNSIGNED NVCV_SWIZZLE_XYZ1
      NVCV_PACKING_X8_Y8_Z8 NVCV_PACKING_0 NVCV_PACKING_0);
   (FCC "B"%char "G"%char "R"%char "4"%char, FCC_IF NVCV_COLOR_MODEL_RGB NVCV_CSS_444 NVCV_DATA_KIND_UNSIGNED NVCV_SWIZZLE_ZYXW
      NVCV_PACKING_X8_Y8_Z8_W8 NVCV_PACKING_0 NVCV_PACKING_0);
   (FCC "R"%char "G"%char "B"%char "4"%char, FCC_IF NVCV_COLOR_MODEL_RGB NVCV_CSS_444 NVCV_DATA_KIND_UNSIGNED NVCV_SWIZZLE_XYZW
      NVCV_PACKING_X8_Y8_Z8_W8 NVCV_PACKING_0 NVCV_PACKING_0);
   (FCC "B"%char "A"%char "8"%char "1"%char, FCC_BAYER_IF NVCV_RAW_BAYER_BGGR NVCV_DATA_KIND_UNSIGNED NVCV_SWIZZLE_X000 NVCV_PACKING_X8);
   (FCC "A"%char "Y"%char "U"%char "V"%char, FCC_IF NVCV_COLOR_MODEL_YCbCr NVCV_CSS_444 NVCV_DATA_KIND_UNSIGNED NVCV_SWIZZLE_YZWX
      NVCV_PACKING_X8_Y8_Z8_W8 NVCV_PACKING_0 NVCV_PACKING_0);
   (FCC "A"%char "Y"%char "U"%char "V"%char, FCC_IF NVCV_COLOR_MODEL_YCbCr NVCV_CSS_444 NVCV_DATA_KIND_UNSIGNED NVCV_SWIZZLE_YZWX
      NVCV_PACKING_X8_Y8_Z8_W8 NVCV_PACKING_0 NVCV_PACKING_0);
   (FCC "G"%char "R"%char "A"%char "Y"%char, FCC_IF NVCV_COLOR_MODEL_YCbCr NVCV_CSS_444 NVCV_DATA_KIND_UNSIGNED NVCV_SWIZZLE_X000
      NVCV_PACKING_X8 NVCV_PACKING_0 NVCV_PACKING_0);
   (FCC "Y"%char "8"%char " "%char " "%char, FCC_IF NVCV_COLOR_MODEL_YCbCr NVCV_CSS_444 NVCV_DATA_KIND_UNSIGNED NVCV_SWIZZLE_X000
      NVCV_PACKING_X8 NVCV_PACKING_0 NVCV_PACKING_0);
   (FCC "Y"%char "8"%char "0"%char "0"%char, FCC_IF NVCV_COLOR_MODEL_YCbCr NVCV_CSS_444 NVCV_DATA_KIND_UNSIGNED NVCV_SWIZZLE_X000
      NVCV_PACKING_X8 NVCV_PACKING_0 NVCV_PACKING_0);
   (FCC "Y"%char "1"%char "6"%char " "%char, FCC_IF NVCV_COLOR_MODEL_YCbCr NVCV_CSS_444 NVCV_DATA_KIND_UNSIGNED NVCV_SWIZZLE_X000
      NVCV_PACKING_X16 NVCV_PACKING_0 NVCV_PACKING_0);
   (FCC "U"%char "Y"%char "V"%char "Y"%char, FCC_IF NVCV_COLOR_MODEL_YCbCr NVCV_CSS_422 NVCV_DATA_KIND_UNSIGNED NVCV_SWIZZLE_XYZ1
      NVCV_PACKING_Y8_X8__Z8_X8 NVCV_PACKING_0 NVCV_PACKING_0);
   (FCC "Y"%char "U"%char "Y"%char "2"%char, FCC_IF NVCV_COLOR_MODEL_YCbCr NVCV_CSS_422 NVCV_DATA_KIND_UNSIGNED NVCV_SWIZZLE_XYZ1
      NVCV_PACKING_X8_Y8__X8_Z8 NVCV_PACKING_0 NVCV_PACKING_0);
   (FCC "Y"%char "U"%char "Y"%char "V"%char, FCC_IF NVCV_COLOR_MODEL_YCbCr NVCV_CSS_422 NVCV_DATA_KIND_UNSIGNED NVCV_SWIZZLE_XYZ1
      NVCV_PACKING_X8_Y8__X8_Z8 NVCV_PACKING_0 NVCV_PACKING_0);
   (FCC "Y"%char "U"%char "N"%char "V"%char, FCC_IF NVCV_COLOR_MODEL_YCbCr NVCV_CSS_422 NVCV_DATA_KIND_UNSIGNED NVCV_SWIZZLE_XYZ1
      NVCV_PACKING_X8_Y8__X8_Z8 NVCV_PACKING_0 NVCV_PACKING_0);
   (FCC "Y"%char "V"%char "Y"%char "U"%char, FCC_IF NVCV_COLOR_MODEL_YCbCr NVCV_CSS_422 NVCV_DATA_KIND_UNSIGNED NVCV_SWIZZLE_XZY1
      NVCV_PACKING_X8_Y8__X8_Z8 NVCV_PACKING_0 NVCV_PACKING_0);
   (FCC "I"%char "4"%char "2"%char "0"%char, FCC_IF NVCV_COLOR_MODEL_YCbCr NVCV_CSS_420 NVCV_DATA_KIND_UNSIGNED NVCV_SWIZZLE_XYZ0
      NVCV_PACKING_X8 NVCV_PACKING_X8 NVCV_PACKING_X8);
   (FCC "I"%char "Y"%char "U"%char "V"%char, FCC_IF NVCV_COLOR_MODEL_YCbCr NVCV_CSS_420 NVCV_DATA_KIND_UNSIGNED NVCV_SWIZZLE_XYZ0
      NVCV_PACKING_X8 NVCV_PACKING_X8 NVCV_PACKING_X8);
   (FCC "N"%char "V"%char "1"%char "2"%char, FCC_IF NVCV_COLOR_MODEL_YCbCr NVCV_CSS_420 NVCV_DATA_KIND_UNSIGNED NVCV_SWIZZLE_XYZ0
      NVCV_PACKING_X8 NVCV_PACKING_X8_Y8 NVCV_PACKING_0);
   (FCC "N"%char "V"%char "2"%char "1"%char, FCC_IF NVCV_COLOR_MODEL_YCbCr NVCV_CSS_420 NVCV_DATA_KIND_UNSIGNED NVCV_SWIZZLE_XZY0
      NVCV_PACKING_X8 NVCV_PACKING_X8_Y8 NVCV_PACKING_0);
   (FCC "Y"%char "V"%char "1"%char "2"%char, FCC_IF NVCV_COLOR_MODEL_YCbCr NVCV_CSS_420 NVCV_DATA_KIND_UNSIGNED NVCV_SWIZZLE_XZY0
      NVCV_PACKING_X8 NVCV_PACKING_X8 NVCV_PACKING_X8);
   (FCC "Y"%char "V"%char "1"%char "6"%char, FCC_IF NVCV_COLOR_MODEL_YCbCr NVCV_CSS_422 NVCV_DATA_KIND_UNSIGNED NVCV_SWIZZLE_XZY0
      NVCV_PACKING_X8 NVCV_PACKING_X8 NVCV_PACKING_X8)].

(** The table once loaded; [g_FourCC_loads] shows that no constructor throws. *)
Definition g_FourCC : list (Z * Z) :=
  omap (fun e : Z * outcome Z => match e.2 with Ok f => Some (e.1, f) | _ => None end) g_FourCC_entries.

(** [tmp[i] = toupper(tmp[i])] on a signed [char]: [toupper] is undefined on
    negative values other than EOF. *)
Definition toupper_char (b : Z) : outcome Z :=
  if (128 <=? b) && (b <? 255) then Stuck
  else if (97 <=? b) && (b <=? 122) then Ok (b - 32) else Ok b.

Definition fourcc_upper (fourcc : Z) : outcome Z :=
  let byte i := ExtractBitfield fourcc (8 * i) 8 in
  b0 ← toupper_char (byte 0); b1 ← toupper_char (byte 1);
  b2 ← toupper_char (byte 2); b3 ← toupper_char (byte 3);
  Ok (Z.lor (Z.lor (Z.lor (SetBitfield b0 0 8) (SetBitfield b1 8 8)) (SetBitfield b2 16 8)) (SetBitfield b3 24 8)).

Definition FromFourCC (fourcc cs : Z) (ml : NVCVMemLayout) : outcome Z :=
  code ← fourcc_upper fourcc;
  match List.find (fun p : Z * Z => p.1 =? code) g_FourCC with
  | Some p =>
      needs ← NeedsColorspec (colorModel p.2);
      newFmt ← (if (needs : bool) then set_colorSpec p.2 cs else Ok p.2);
      set_memLayout newFmt ml
  | None => Throw NVCV_ERROR_INVALID_ARGUMENT
  end.

Definition fourCC (m_format : Z) : outcome Z :=
  f ← set_colorSpec m_format NVCV_COLOR_SPEC_UNDEFINED;
  fmtNorm ← set_memLayout f NVCV_MEM_LAYOUT_PL;
  match List.find (fun p : Z * Z => p.2 =? fmtNorm) g_FourCC with
  | Some p => Ok p.1
  | None => Throw NVCV_ERROR_INVALID_ARGUMENT
  end.

End ImageFormat.

(** ** The class [DataType] *)

Module DataType.

Definition make (dataKind : NVCVDataKind) (packing : NVCVPacking) : Z := NVCV_DETAIL_MAKE_DATA_TYPE dataKind packing.

Definition packing (m_type : Z) : NVCVPacking := planePacking m_type 0.
Definition dataKind (m_type : Z) : NVCVDataKind := ImageFormat.dataKind m_type.
Definition bpp (m_type : Z) : outcome Z := ImageFormat.planeBPP m_type 0.
Definition numChannels (m_type : Z) : Z := ImageFormat.planeNumChannels m_type 0.
Definition strideBytes (m_type : Z) : outcome Z := b ← bpp m_type; Ok (Z.quot (b + 7) 8).
Definition bpc (m_type : Z) : outcome (list Z) := GetBitsPerComponent (packing m_type).

Definition channelType (m_type ch : Z) : outcome Z :=
  throw_if (ch <? 0) NVCV_ERROR_INVALID_ARGUMENT (
  if 4 <=? ch then Ok NVCV_DATA_TYPE_NONE
  else
    bits ← bpc m_type;
    b ← rd bits ch;
    if b =? 0 then Ok NVCV_DATA_TYPE_NONE
    else match MakeNVCVPacking_bits b 0 0 0 with
         | Some packing => Ok (make (dataKind m_type) packing)
         | None => Throw NVCV_ERROR_INVALID_ARGUMENT
         end).

Definition alignment (m_type : Z) : outcome Z := GetAlignment (packing m_type).

End DataType.

(** The queries of a plane that go through its data type. *)
Definition planePixelStrideBytes (m_format plane : Z) : outcome Z :=
  DataType.strideBytes (ImageFormat.planeDataType m_format plane).
Definition planeRowAlignment (m_format plane : Z) : outcome Z :=
  DataType.alignment (ImageFormat.planeDataType m_format plane).
