(* ===== verification/Predefined.v ===== *)
(** * The predefined data types and image formats

    The constants of nvcv/DataType.h and nvcv/ImageFormat.h, the names
    [operator<<] prints for them, and the fallback text built from the fields. *)
From S2P Require Import Prelude Bitfield MathUtil ColorSpec DataLayout FormatCode ImageFormat.
From stdpp Require Import options pretty.

#[local] Open Scope Z_scope.

(** ** Data types *)

Definition NVCV_DATA_TYPE_U8 : Z := NVCV_DETAIL_MAKE_DATA_TYPE NVCV_DATA_KIND_UNSIGNED NVCV_PACKING_X8.
Definition NVCV_DATA_TYPE_2U8 : Z := NVCV_DETAIL_MAKE_DATA_TYPE NVCV_DATA_KIND_UNSIGNED NVCV_PACKING_X8_Y8.
Definition NVCV_DATA_TYPE_3U8 : Z := NVCV_DETAIL_MAKE_DATA_TYPE NVCV_DATA_KIND_UNSIGNED NVCV_PACKING_X8_Y8_Z8.
Definition NVCV_DATA_TYPE_4U8 : Z := NVCV_DETAIL_MAKE_DATA_TYPE NVCV_DATA_KIND_UNSIGNED NVCV_PACKING_X8_Y8_Z8_W8.
Definition NVCV_DATA_TYPE_S8 : Z := NVCV_DETAIL_MAKE_DATA_TYPE NVCV_DATA_KIND_SIGNED NVCV_PACKING_X8.
Definition NVCV_DATA_TYPE_2S8 : Z := NVCV_DETAIL_MAKE_DATA_TYPE NVCV_DATA_KIND_SIGNED NVCV_PACKING_X8_Y8.
Definition NVCV_DATA_TYPE_3S8 : Z := NVCV_DETAIL_MAKE_DATA_TYPE NVCV_DATA_KIND_SIGNED NVCV_PACKING_X8_Y8_Z8.
Definition NVCV_DATA_TYPE_4S8 : Z := NVCV_DETAIL_MAKE_DATA_TYPE NVCV_DATA_KIND_SIGNED NVCV_PACKING_X8_Y8_Z8_W8.
Definition NVCV_DATA_TYPE_U16 : Z := NVCV_DETAIL_MAKE_DATA_TYPE NVCV_DATA_KIND_UNSIGNED NVCV_PACKING_X16.
Definition NVCV_DATA_TYPE_2U16 : Z := NVCV_DETAIL_MAKE_DATA_TYPE NVCV_DATA_KIND_UNSIGNED NVCV_PACKING_X16_Y16.
Definition NVCV_DATA_TYPE_3U16 : Z := NVCV_DETAIL_MAKE_DATA_TYPE NVCV_DATA_KIND_UNSIGNED NVCV_PACKING_X16_Y16_Z16.
Definition NVCV_DATA_TYPE_4U16 : Z := NVCV_DETAIL_MAKE_DATA_TYPE NVCV_DATA_KIND_UNSIGNED NVCV_PACKING_X16_Y16_Z16_W16.
Definition NVCV_DATA_TYPE_S16 : Z := NVCV_DETAIL_MAKE_DATA_TYPE NVCV_DATA_KIND_SIGNED NVCV_PACKING_X16.
Definition NVCV_DATA_TYPE_2S16 : Z := NVCV_DETAIL_MAKE_DATA_TYPE NVCV_DATA_KIND_SIGNED NVCV_PACKING_X16_Y16.
Definition NVCV_DATA_TYPE_3S16 : Z := NVCV_DETAIL_MAKE_DATA_TYPE NVCV_DATA_KIND_SIGNED NVCV_PACKING_X16_Y16_Z16.
Definition NVCV_DATA_TYPE_4S16 : Z := NVCV_DETAIL_MAKE_DATA_TYPE NVCV_DATA_KIND_SIGNED NVCV_PACKING_X16_Y16_Z16_W16.
Definition NVCV_DATA_TYPE_U32 : Z := NVCV_DETAIL_MAKE_DATA_TYPE NVCV_DATA_KIND_UNSIGNED NVCV_PACKING_X32.
Definition NVCV_DATA_TYPE_2U32 : Z := NVCV_DETAIL_MAKE_DATA_TYPE NVCV_DATA_KIND_UNSIGNED NVCV_PACKING_X32_Y32.
Definition NVCV_DATA_TYPE_3U32 : Z := NVCV_DETAIL_MAKE_DATA_TYPE NVCV_DATA_KIND_UNSIGNED NVCV_PACKING_X32_Y32_Z32.
Definition NVCV_DATA_TYPE_4U32 : Z := NVCV_DETAIL_MAKE_DATA_TYPE NVCV_DATA_KIND_UNSIGNED NVCV_PACKING_X32_Y32_Z32_W32.
Definition NVCV_DATA_TYPE_S32 : Z := NVCV_DETAIL_MAKE_DATA_TYPE NVCV_DATA_KIND_SIGNED NVCV_PACKING_X32.
Definition NVCV_DATA_TYPE_2S32 : Z := NVCV_DETAIL_MAKE_DATA_TYPE NVCV_DATA_KIND_SIGNED NVCV_PACKING_X32_Y32.
Definition NVCV_DATA_TYPE_3S32 : Z := NVCV_DETAIL_MAKE_DATA_TYPE NVCV_DATA_KIND_SIGNED NVCV_PACKING_X32_Y32_Z32.
Definition NVCV_DATA_TYPE_4S32 : Z := NVCV_DETAIL_MAKE_DATA_TYPE NVCV_DATA_KIND_SIGNED NVCV_PACKING_X32_Y32_Z32_W32.
Definition NVCV_DATA_TYPE_F16 : Z := NVCV_DETAIL_MAKE_DATA_TYPE NVCV_DATA_KIND_FLOAT NVCV_PACKING_X16.
Definition NVCV_DATA_TYPE_2F16 : Z := NVCV_DETAIL_MAKE_DATA_TYPE NVCV_DATA_KIND_FLOAT NVCV_PACKING_X16_Y16.
Definition NVCV_DATA_TYPE_3F16 : Z := NVCV_DETAIL_MAKE_DATA_TYPE NVCV_DATA_KIND_FLOAT NVCV_PACKING_X16_Y16_Z16.
Definition NVCV_DATA_TYPE_4F16 : Z := NVCV_DETAIL_MAKE_DATA_TYPE NVCV_DATA_KIND_FLOAT NVCV_PACKING_X16_Y16_Z16_W16.
Definition NVCV_DATA_TYPE_F32 : Z := NVCV_DETAIL_MAKE_DATA_TYPE NVCV_DATA_KIND_FLOAT NVCV_PACKING_X32.
Definition NVCV_DATA_TYPE_2F32 : Z := NVCV_DETAIL_MAKE_DATA_TYPE NVCV_DATA_KIND_FLOAT NVCV_PACKING_X32_Y32.
Definition NVCV_DATA_TYPE_3F32 : Z := NVCV_DETAIL_MAKE_DATA_TYPE NVCV_DATA_KIND_FLOAT NVCV_PACKING_X32_Y32_Z32.
Definition NVCV_DATA_TYPE_4F32 : Z := NVCV_DETAIL_MAKE_DATA_TYPE NVCV_DATA_KIND_FLOAT NVCV_PACKING_X32_Y32_Z32_W32.
Definition NVCV_DATA_TYPE_U64 : Z := NVCV_DETAIL_MAKE_DATA_TYPE NVCV_DATA_KIND_UNSIGNED NVCV_PACKING_X64.
Definition NVCV_DATA_TYPE_2U64 : Z := NVCV_DETAIL_MAKE_DATA_TYPE NVCV_DATA_KIND_UNSIGNED NVCV_PACKING_X64_Y64.
Definition NVCV_DATA_TYPE_3U64 : Z := NVCV_DETAIL_MAKE_DATA_TYPE NVCV_DATA_KIND_UNSIGNED NVCV_PACKING_X64_Y64_Z64.
Definition NVCV_DATA_TYPE_4U64 : Z := NVCV_DETAIL_MAKE_DATA_TYPE NVCV_DATA_KIND_UNSIGNED NVCV_PACKING_X64_Y64_Z64_W64.
Definition NVCV_DATA_TYPE_S64 : Z := NVCV_DETAIL_MAKE_DATA_TYPE NVCV_DATA_KIND_SIGNED NVCV_PACKING_X64.
Definition NVCV_DATA_TYPE_2S64 : Z := NVCV_DETAIL_MAKE_DATA_TYPE NVCV_DATA_KIND_SIGNED NVCV_PACKING_X64_Y64.
Definition NVCV_DATA_TYPE_3S64 : Z := NVCV_DETAIL_MAKE_DATA_TYPE NVCV_DATA_KIND_SIGNED NVCV_PACKING_X64_Y64_Z64.
Definition NVCV_DATA_TYPE_4S64 : Z := NVCV_DETAIL_MAKE_DATA_TYPE NVCV_DATA_KIND_SIGNED NVCV_PACKING_X64_Y64_Z64_W64.
Definition NVCV_DATA_TYPE_F64 : Z := NVCV_DETAIL_MAKE_DATA_TYPE NVCV_DATA_KIND_FLOAT NVCV_PACKING_X64.
Definition NVCV_DATA_TYPE_2F64 : Z := NVCV_DETAIL_MAKE_DATA_TYPE NVCV_DATA_KIND_FLOAT NVCV_PACKING_X64_Y64.
Definition NVCV_DATA_TYPE_3F64 : Z := NVCV_DETAIL_MAKE_DATA_TYPE NVCV_DATA_KIND_FLOAT NVCV_PACKING_X64_Y64_Z64.
Definition NVCV_DATA_TYPE_4F64 : Z := NVCV_DETAIL_MAKE_DATA_TYPE NVCV_DATA_KIND_FLOAT NVCV_PACKING_X64_Y64_Z64_W64.
Definition NVCV_DATA_TYPE_C64 : Z := NVCV_DETAIL_MAKE_DATA_TYPE NVCV_DATA_KIND_COMPLEX NVCV_PACKING_X64.
Definition NVCV_DATA_TYPE_2C64 : Z := NVCV_DETAIL_MAKE_DATA_TYPE NVCV_DATA_KIND_COMPLEX NVCV_PACKING_X64_Y64.
Definition NVCV_DATA_TYPE_3C64 : Z := NVCV_DETAIL_MAKE_DATA_TYPE NVCV_DATA_KIND_COMPLEX NVCV_PACKING_X64_Y64_Z64.
Definition NVCV_DATA_TYPE_4C64 : Z := NVCV_DETAIL_MAKE_DATA_TYPE NVCV_DATA_KIND_COMPLEX NVCV_PACKING_X64_Y64_Z64_W64.
Definition NVCV_DATA_TYPE_C128 : Z := NVCV_DETAIL_MAKE_DATA_TYPE NVCV_DATA_KIND_COMPLEX NVCV_PACKING_X128.
Definition NVCV_DATA_TYPE_2C128 : Z := NVCV_DETAIL_MAKE_DATA_TYPE NVCV_DATA_KIND_COMPLEX NVCV_PACKING_X128_Y128.

(** ** Image formats *)

Definition NVCV_IMAGE_FORMAT_U8 : Z := NVCV_DETAIL_MAKE_FORMAT NVCV_COLOR_MODEL_UNDEFINED
  NVCV_COLOR_SPEC_UNDEFINED NVCV_CSS_NONE NVCV_MEM_LAYOUT_PL NVCV_DATA_KIND_UNSIGNED NVCV_SWIZZLE_X000
  NVCV_ALPHA_ASSOCIATED NVCV_PACKING_X8 NVCV_PACKING_0 NVCV_PACKING_0 NVCV_PACKING_0 0 0
  NVCV_DATA_KIND_UNSPECIFIED NVCV_EXTRA_CHANNEL_U.
Definition NVCV_IMAGE_FORMAT_U8_BL : Z := NVCV_DETAIL_MAKE_FORMAT NVCV_COLOR_MODEL_UNDEFINED
  NVCV_COLOR_SPEC_UNDEFINED NVCV_CSS_NONE NVCV_MEM_LAYOUT_BL NVCV_DATA_KIND_UNSIGNED NVCV_SWIZZLE_X000
  NVCV_ALPHA_ASSOCIATED NVCV_PACKING_X8 NVCV_PACKING_0 NVCV_PACKING_0 NVCV_PACKING_0 0 0
  NVCV_DATA_KIND_UNSPECIFIED NVCV_EXTRA_CHANNEL_U.
Definition NVCV_IMAGE_FORMAT_S8 : Z := NVCV_DETAIL_MAKE_FORMAT NVCV_COLOR_MODEL_UNDEFINED
  NVCV_COLOR_SPEC_UNDEFINED NVCV_CSS_NONE NVCV_MEM_LAYOUT_PL NVCV_DATA_KIND_SIGNED NVCV_SWIZZLE_X000
  NVCV_ALPHA_ASSOCIATED NVCV_PACKING_X8 NVCV_PACKING_0 NVCV_PACKING_0 NVCV_PACKING_0 0 0
  NVCV_DATA_KIND_UNSPECIFIED NVCV_EXTRA_CHANNEL_U.
Definition NVCV_IMAGE_FORMAT_U16 : Z := NVCV_DETAIL_MAKE_FORMAT NVCV_COLOR_MODEL_UNDEFINED
  NVCV_COLOR_SPEC_UNDEFINED NVCV_CSS_NONE NVCV_MEM_LAYOUT_PL NVCV_DATA_KIND_UNSIGNED NVCV_SWIZZLE_X000
  NVCV_ALPHA_ASSOCIATED NVCV_PACKING_X16 NVCV_PACKING_0 NVCV_PACKING_0 NVCV_PACKING_0 0 0
  NVCV_DATA_KIND_UNSPECIFIED NVCV_EXTRA_CHANNEL_U.
Definition NVCV_IMAGE_FORMAT_U32 : Z := NVCV_DETAIL_MAKE_FORMAT NVCV_COLOR_MODEL_UNDEFINED
  NVCV_COLOR_SPEC_UNDEFINED NVCV_CSS_NONE NVCV_MEM_LAYOUT_PL NVCV_DATA_KIND_UNSIGNED NVCV_SWIZZLE_X000
  NVCV_ALPHA_ASSOCIATED NVCV_PACKING_X32 NVCV_PACKING_0 NVCV_PACKING_0 NVCV_PACKING_0 0 0
  NVCV_DATA_KIND_UNSPECIFIED NVCV_EXTRA_CHANNEL_U.
Definition NVCV_IMAGE_FORMAT_S32 : Z := NVCV_DETAIL_MAKE_FORMAT NVCV_COLOR_MODEL_UNDEFINED
  NVCV_COLOR_SPEC_UNDEFINED NVCV_CSS_NONE NVCV_MEM_LAYOUT_PL NVCV_DATA_KIND_SIGNED NVCV_SWIZZLE_X000
  NVCV_ALPHA_ASSOCIATED NVCV_PACKING_X32 NVCV_PACKING_0 NVCV_PACKING_0 NVCV_PACKING_0 0 0
  NVCV_DATA_KIND_UNSPECIFIED NVCV_EXTRA_CHANNEL_U.
Definition NVCV_IMAGE_FORMAT_S16 : Z := NVCV_DETAIL_MAKE_FORMAT NVCV_COLOR_MODEL_UNDEFINED
  NVCV_COLOR_SPEC_UNDEFINED NVCV_CSS_NONE NVCV_MEM_LAYOUT_PL NVCV_DATA_KIND_SIGNED NVCV_SWIZZLE_X000
  NVCV_ALPHA_ASSOCIATED NVCV_PACKING_X16 NVCV_PACKING_0 NVCV_PACKING_0 NVCV_PACKING_0 0 0
  NVCV_DATA_KIND_UNSPECIFIED NVCV_EXTRA_CHANNEL_U.
Definition NVCV_IMAGE_FORMAT_S16_BL : Z := NVCV_DETAIL_MAKE_FORMAT NVCV_COLOR_MODEL_UNDEFINED
  NVCV_COLOR_SPEC_UNDEFINED NVCV_CSS_NONE NVCV_MEM_LAYOUT_BL NVCV_DATA_KIND_SIGNED NVCV_SWIZZLE_X000
  NVCV_ALPHA_ASSOCIATED NVCV_PACKING_X16 NVCV_PACKING_0 NVCV_PACKING_0 NVCV_PACKING_0 0 0
  NVCV_DATA_KIND_UNSPECIFIED NVCV_EXTRA_CHANNEL_U.
Definition NVCV_IMAGE_FORMAT_2S16 : Z := NVCV_DETAIL_MAKE_FORMAT NVCV_COLOR_MODEL_UNDEFINED
  NVCV_COLOR_SPEC_UNDEFINED NVCV_CSS_NONE NVCV_MEM_LAYOUT_PL NVCV_DATA_KIND_SIGNED NVCV_SWIZZLE_XY00
  NVCV_ALPHA_ASSOCIATED NVCV_PACKING_X16_Y16 NVCV_PACKING_0 NVCV_PACKING_0 NVCV_PACKING_0 0 0
  NVCV_DATA_KIND_UNSPECIFIED NVCV_EXTRA_CHANNEL_U.
Definition NVCV_IMAGE_FORMAT_2S16_BL : Z := NVCV_DETAIL_MAKE_FORMAT NVCV_COLOR_MODEL_UNDEFINED
  NVCV_COLOR_SPEC_UNDEFINED NVCV_CSS_NONE NVCV_MEM_LAYOUT_BL NVCV_DATA_KIND_SIGNED NVCV_SWIZZLE_XY00
  NVCV_ALPHA_ASSOCIATED NVCV_PACKING_X16_Y16 NVCV_PACKING_0 NVCV_PACKING_0 NVCV_PACKING_0 0 0
  NVCV_DATA_KIND_UNSPECIFIED NVCV_EXTRA_CHANNEL_U.
Definition NVCV_IMAGE_FORMAT_F16 : Z := NVCV_DETAIL_MAKE_FORMAT NVCV_COLOR_MODEL_UNDEFINED
  NVCV_COLOR_SPEC_UNDEFINED NVCV_CSS_NONE NVCV_MEM_LAYOUT_PL NVCV_DATA_KIND_FLOAT NVCV_SWIZZLE_X000
  NVCV_ALPHA_ASSOCIATED NVCV_PACKING_X16 NVCV_PACKING_0 NVCV_PACKING_0 NVCV_PACKING_0 0 0
  NVCV_DATA_KIND_UNSPECIFIED NVCV_EXTRA_CHANNEL_U.
Definition NVCV_IMAGE_FORMAT_F32 : Z := NVCV_DETAIL_MAKE_FORMAT NVCV_COLOR_MODEL_UNDEFINED
  NVCV_COLOR_SPEC_UNDEFINED NVCV_CSS_NONE NVCV_MEM_LAYOUT_PL NVCV_DATA_KIND_FLOAT NVCV_SWIZZLE_X000
  NVCV_ALPHA_ASSOCIATED NVCV_PACKING_X32 NVCV_PACKING_0 NVCV_PACKING_0 NVCV_PACKING_0 0 0
  NVCV_DATA_KIND_UNSPECIFIED NVCV_EXTRA_CHANNEL_U.
Definition NVCV_IMAGE_FORMAT_F64 : Z := NVCV_DETAIL_MAKE_FORMAT NVCV_COLOR_MODEL_UNDEFINED
  NVCV_COLOR_SPEC_UNDEFINED NVCV_CSS_NONE NVCV_MEM_LAYOUT_PL NVCV_DATA_KIND_FLOAT NVCV_SWIZZLE_X000
  NVCV_ALPHA_ASSOCIATED NVCV_PACKING_X64 NVCV_PACKING_0 NVCV_PACKING_0 NVCV_PACKING_0 0 0
  NVCV_DATA_KIND_UNSPECIFIED NVCV_EXTRA_CHANNEL_U.
Definition NVCV_IMAGE_FORMAT_2F16 : Z := NVCV_DETAIL_MAKE_FORMAT NVCV_COLOR_MODEL_UNDEFINED
  NVCV_COLOR_SPEC_UNDEFINED NVCV_CSS_NONE NVCV_MEM_LAYOUT_PL NVCV_DATA_KIND_FLOAT NVCV_SWIZZLE_XY00
  NVCV_ALPHA_ASSOCIATED NVCV_PACKING_X16_Y16 NVCV_PACKING_0 NVCV_PACKING_0 NVCV_PACKING_0 0 0
  NVCV_DATA_KIND_UNSPECIFIED NVCV_EXTRA_CHANNEL_U.
Definition NVCV_IMAGE_FORMAT_2F32 : Z := NVCV_DETAIL_MAKE_FORMAT NVCV_COLOR_MODEL_UNDEFINED
  NVCV_COLOR_SPEC_UNDEFINED NVCV_CSS_NONE NVCV_MEM_LAYOUT_PL NVCV_DATA_KIND_FLOAT NVCV_SWIZZLE_XY00
  NVCV_ALPHA_ASSOCIATED NVCV_PACKING_X32_Y32 NVCV_PACKING_0 NVCV_PACKING_0 NVCV_PACKING_0 0 0
  NVCV_DATA_KIND_UNSPECIFIED NVCV_EXTRA_CHANNEL_U.
Definition NVCV_IMAGE_FORMAT_C64 : Z := NVCV_DETAIL_MAKE_FORMAT NVCV_COLOR_MODEL_UNDEFINED
  NVCV_COLOR_SPEC_UNDEFINED NVCV_CSS_NONE NVCV_MEM_LAYOUT_PL NVCV_DATA_KIND_COMPLEX NVCV_SWIZZLE_X000
  NVCV_ALPHA_ASSOCIATED NVCV_PACKING_X64 NVCV_PACKING_0 NVCV_PACKING_0 NVCV_PACKING_0 0 0
  NVCV_DATA_KIND_UNSPECIFIED NVCV_EXTRA_CHANNEL_U.
Definition NVCV_IMAGE_FORMAT_2C64 : Z := NVCV_DETAIL_MAKE_FORMAT NVCV_COLOR_MODEL_UNDEFINED
  NVCV_COLOR_SPEC_UNDEFINED NVCV_CSS_NONE NVCV_MEM_LAYOUT_PL NVCV_DATA_KIND_COMPLEX NVCV_SWIZZLE_XY00
  NVCV_ALPHA_ASSOCIATED NVCV_PACKING_X64_Y64 NVCV_PACKING_0 NVCV_PACKING_0 NVCV_PACKING_0 0 0
  NVCV_DATA_KIND_UNSPECIFIED NVCV_EXTRA_CHANNEL_U.
Definition NVCV_IMAGE_FORMAT_C128 : Z := NVCV_DETAIL_MAKE_FORMAT NVCV_COLOR_MODEL_UNDEFINED
  NVCV_COLOR_SPEC_UNDEFINED NVCV_CSS_NONE NVCV_MEM_LAYOUT_PL NVCV_DATA_KIND_COMPLEX NVCV_SWIZZLE_X000
  NVCV_ALPHA_ASSOCIATED NVCV_PACKING_X128 NVCV_PACKING_0 NVCV_PACKING_0 NVCV_PACKING_0 0 0
  NVCV_DATA_KIND_UNSPECIFIED NVCV_EXTRA_CHANNEL_U.
Definition NVCV_IMAGE_FORMAT_2C128 : Z := NVCV_DETAIL_MAKE_FORMAT NVCV_COLOR_MODEL_UNDEFINED
  NVCV_COLOR_SPEC_UNDEFINED NVCV_CSS_NONE NVCV_MEM_LAYOUT_PL NVCV_DATA_KIND_COMPLEX NVCV_SWIZZLE_XY00
  NVCV_ALPHA_ASSOCIATED NVCV_PACKING_X128_Y128 NVCV_PACKING_0 NVCV_PACKING_0 NVCV_PACKING_0 0 0
  NVCV_DATA_KIND_UNSPECIFIED NVCV_EXTRA_CHANNEL_U.
Definition NVCV_IMAGE_FORMAT_Y8 : Z := NVCV_DETAIL_MAKE_FORMAT NVCV_COLOR_MODEL_YCbCr NVCV_COLOR_SPEC_BT601
  NVCV_CSS_NONE NVCV_MEM_LAYOUT_PL NVCV_DATA_KIND_UNSIGNED NVCV_SWIZZLE_X000 NVCV_ALPHA_ASSOCIATED NVCV_PACKING_X8
  NVCV_PACKING_0 NVCV_PACKING_0 NVCV_PACKING_0 0 0 NVCV_DATA_KIND_UNSPECIFIED NVCV_EXTRA_CHANNEL_U.
Definition NVCV_IMAGE_FORMAT_Y8_BL : Z := NVCV_DETAIL_MAKE_FORMAT NVCV_COLOR_MODEL_YCbCr NVCV_COLOR_SPEC_BT601
  NVCV_CSS_NONE NVCV_MEM_LAYOUT_BL NVCV_DATA_KIND_UNSIGNED NVCV_SWIZZLE_X000 NVCV_ALPHA_ASSOCIATED NVCV_PACKING_X8
  NVCV_PACKING_0 NVCV_PACKING_0 NVCV_PACKING_0 0 0 NVCV_DATA_KIND_UNSPECIFIED NVCV_EXTRA_CHANNEL_U.
Definition NVCV_IMAGE_FORMAT_Y8_ER : Z := NVCV_DETAIL_MAKE_FORMAT NVCV_COLOR_MODEL_YCbCr NVCV_COLOR_SPEC_BT601_ER
  NVCV_CSS_NONE NVCV_MEM_LAYOUT_PL NVCV_DATA_KIND_UNSIGNED NVCV_SWIZZLE_X000 NVCV_ALPHA_ASSOCIATED NVCV_PACKING_X8
  NVCV_PACKING_0 NVCV_PACKING_0 NVCV_PACKING_0 0 0 NVCV_DATA_KIND_UNSPECIFIED NVCV_EXTRA_CHANNEL_U.
Definition NVCV_IMAGE_FORMAT_Y8_ER_BL : Z := NVCV_DETAIL_MAKE_FORMAT NVCV_COLOR_MODEL_YCbCr
  NVCV_COLOR_SPEC_BT601_ER NVCV_CSS_NONE NVCV_MEM_LAYOUT_BL NVCV_DATA_KIND_UNSIGNED NVCV_SWIZZLE_X000
  NVCV_ALPHA_ASSOCIATED NVCV_PACKING_X8 NVCV_PACKING_0 NVCV_PACKING_0 NVCV_PACKING_0 0 0
  NVCV_DATA_KIND_UNSPECIFIED NVCV_EXTRA_CHANNEL_U.
Definition NVCV_IMAGE_FORMAT_Y16 : Z := NVCV_DETAIL_MAKE_FORMAT NVCV_COLOR_MODEL_YCbCr NVCV_COLOR_SPEC_BT601
  NVCV_CSS_NONE NVCV_MEM_LAYOUT_PL NVCV_DATA_KIND_UNSIGNED NVCV_SWIZZLE_X000 NVCV_ALPHA_ASSOCIATED
  NVCV_PACKING_X16 NVCV_PACKING_0 NVCV_PACKING_0 NVCV_PACKING_0 0 0 NVCV_DATA_KIND_UNSPECIFIED
  NVCV_EXTRA_CHANNEL_U.
Definition NVCV_IMAGE_FORMAT_Y16_BL : Z := NVCV_DETAIL_MAKE_FORMAT NVCV_COLOR_MODEL_YCbCr NVCV_COLOR_SPEC_BT601
  NVCV_CSS_NONE NVCV_MEM_LAYOUT_BL NVCV_DATA_KIND_UNSIGNED NVCV_SWIZZLE_X000 NVCV_ALPHA_ASSOCIATED
  NVCV_PACKING_X16 NVCV_PACKING_0 NVCV_PACKING_0 NVCV_PACKING_0 0 0 NVCV_DATA_KIND_UNSPECIFIED
  NVCV_EXTRA_CHANNEL_U.
Definition NVCV_IMAGE_FORMAT_Y16_ER : Z := NVCV_DETAIL_MAKE_FORMAT NVCV_COLOR_MODEL_YCbCr NVCV_COLOR_SPEC_BT601_ER
  NVCV_CSS_NONE NVCV_MEM_LAYOUT_PL NVCV_DATA_KIND_UNSIGNED NVCV_SWIZZLE_X000 NVCV_ALPHA_ASSOCIATED
  NVCV_PACKING_X16 NVCV_PACKING_0 NVCV_PACKING_0 NVCV_PACKING_0 0 0 NVCV_DATA_KIND_UNSPECIFIED
  NVCV_EXTRA_CHANNEL_U.
Definition NVCV_IMAGE_FORMAT_Y16_ER_BL : Z := NVCV_DETAIL_MAKE_FORMAT NVCV_COLOR_MODEL_YCbCr
  NVCV_COLOR_SPEC_BT601_ER NVCV_CSS_NONE NVCV_MEM_LAYOUT_BL NVCV_DATA_KIND_UNSIGNED NVCV_SWIZZLE_X000
  NVCV_ALPHA_ASSOCIATED NVCV_PACKING_X16 NVCV_PACKING_0 NVCV_PACKING_0 NVCV_PACKING_0 0 0
  NVCV_DATA_KIND_UNSPECIFIED NVCV_EXTRA_CHANNEL_U.
Definition NVCV_IMAGE_FORMAT_NV12 : Z := NVCV_DETAIL_MAKE_FORMAT NVCV_COLOR_MODEL_YCbCr NVCV_COLOR_SPEC_BT601
  NVCV_CSS_420 NVCV_MEM_LAYOUT_PL NVCV_DATA_KIND_UNSIGNED NVCV_SWIZZLE_XYZ0 NVCV_ALPHA_ASSOCIATED NVCV_PACKING_X8
  NVCV_PACKING_X8_Y8 NVCV_PACKING_0 NVCV_PACKING_0 0 0 NVCV_DATA_KIND_UNSPECIFIED NVCV_EXTRA_CHANNEL_U.
Definition NVCV_IMAGE_FORMAT_NV12_BL : Z := NVCV_DETAIL_MAKE_FORMAT NVCV_COLOR_MODEL_YCbCr NVCV_COLOR_SPEC_BT601
  NVCV_CSS_420 NVCV_MEM_LAYOUT_BL NVCV_DATA_KIND_UNSIGNED NVCV_SWIZZLE_XYZ0 NVCV_ALPHA_ASSOCIATED NVCV_PACKING_X8
  NVCV_PACKING_X8_Y8 NVCV_PACKING_0 NVCV_PACKING_0 0 0 NVCV_DATA_KIND_UNSPECIFIED NVCV_EXTRA_CHANNEL_U.
Definition NVCV_IMAGE_FORMAT_NV12_ER : Z := NVCV_DETAIL_MAKE_FORMAT NVCV_COLOR_MODEL_YCbCr
  NVCV_COLOR_SPEC_BT601_ER NVCV_CSS_420 NVCV_MEM_LAYOUT_PL NVCV_DATA_KIND_UNSIGNED NVCV_SWIZZLE_XYZ0
  NVCV_ALPHA_ASSOCIATED NVCV_PACKING_X8 NVCV_PACKING_X8_Y8 NVCV_PACKING_0 NVCV_PACKING_0 0 0
  NVCV_DATA_KIND_UNSPECIFIED NVCV_EXTRA_CHANNEL_U.
Definition NVCV_IMAGE_FORMAT_NV12_ER_BL : Z := NVCV_DETAIL_MAKE_FORMAT NVCV_COLOR_MODEL_YCbCr
  NVCV_COLOR_SPEC_BT601_ER NVCV_CSS_420 NVCV_MEM_LAYOUT_BL NVCV_DATA_KIND_UNSIGNED NVCV_SWIZZLE_XYZ0
  NVCV_ALPHA_ASSOCIATED NVCV_PACKING_X8 NVCV_PACKING_X8_Y8 NVCV_PACKING_0 NVCV_PACKING_0 0 0
  NVCV_DATA_KIND_UNSPECIFIED NVCV_EXTRA_CHANNEL_U.
Definition NVCV_IMAGE_FORMAT_NV21 : Z := NVCV_DETAIL_MAKE_FORMAT NVCV_COLOR_MODEL_YCbCr NVCV_COLOR_SPEC_BT601
  NVCV_CSS_420 NVCV_MEM_LAYOUT_PL NVCV_DATA_KIND_UNSIGNED NVCV_SWIZZLE_XYZ0 NVCV_ALPHA_ASSOCIATED NVCV_PACKING_X8
  NVCV_PACKING_X8_Y8 NVCV_PACKING_0 NVCV_PACKING_0 0 0 NVCV_DATA_KIND_UNSPECIFIED NVCV_EXTRA_CHANNEL_U.
Definition NVCV_IMAGE_FORMAT_NV21_ER : Z := NVCV_DETAIL_MAKE_FORMAT NVCV_COLOR_MODEL_YCbCr
  NVCV_COLOR_SPEC_BT601_ER NVCV_CSS_420 NVCV_MEM_LAYOUT_PL NVCV_DATA_KIND_UNSIGNED NVCV_SWIZZLE_XYZ0
  NVCV_ALPHA_ASSOCIATED NVCV_PACKING_X8 NVCV_PACKING_X8_Y8 NVCV_PACKING_0 NVCV_PACKING_0 0 0
  NVCV_DATA_KIND_UNSPECIFIED NVCV_EXTRA_CHANNEL_U.
Definition NVCV_IMAGE_FORMAT_NV24 : Z := NVCV_DETAIL_MAKE_FORMAT NVCV_COLOR_MODEL_YCbCr NVCV_COLOR_SPEC_BT601
  NVCV_CSS_444 NVCV_MEM_LAYOUT_PL NVCV_DATA_KIND_UNSIGNED NVCV_SWIZZLE_XYZ0 NVCV_ALPHA_ASSOCIATED NVCV_PACKING_X8
  NVCV_PACKING_X8_Y8 NVCV_PACKING_0 NVCV_PACKING_0 0 0 NVCV_DATA_KIND_UNSPECIFIED NVCV_EXTRA_CHANNEL_U.
Definition NVCV_IMAGE_FORMAT_NV24_BL : Z := NVCV_DETAIL_MAKE_FORMAT NVCV_COLOR_MODEL_YCbCr NVCV_COLOR_SPEC_BT601
  NVCV_CSS_444 NVCV_MEM_LAYOUT_BL NVCV_DATA_KIND_UNSIGNED NVCV_SWIZZLE_XYZ0 NVCV_ALPHA_ASSOCIATED NVCV_PACKING_X8
  NVCV_PACKING_X8_Y8 NVCV_PACKING_0 NVCV_PACKING_0 0 0 NVCV_DATA_KIND_UNSPECIFIED NVCV_EXTRA_CHANNEL_U.
Definition NVCV_IMAGE_FORMAT_NV24_ER : Z := NVCV_DETAIL_MAKE_FORMAT NVCV_COLOR_MODEL_YCbCr
  NVCV_COLOR_SPEC_BT601_ER NVCV_CSS_444 NVCV_MEM_LAYOUT_PL NVCV_DATA_KIND_UNSIGNED NVCV_SWIZZLE_XYZ0
  NVCV_ALPHA_ASSOCIATED NVCV_PACKING_X8 NVCV_PACKING_X8_Y8 NVCV_PACKING_0 NVCV_PACKING_0 0 0
  NVCV_DATA_KIND_UNSPECIFIED NVCV_EXTRA_CHANNEL_U.
Definition NVCV_IMAGE_FORMAT_NV24_ER_BL : Z := NVCV_DETAIL_MAKE_FORMAT NVCV_COLOR_MODEL_YCbCr
  NVCV_COLOR_SPEC_BT601_ER NVCV_CSS_444 NVCV_MEM_LAYOUT_BL NVCV_DATA_KIND_UNSIGNED NVCV_SWIZZLE_XYZ0
  NVCV_ALPHA_ASSOCIATED NVCV_PACKING_X8 NVCV_PACKING_X8_Y8 NVCV_PACKING_0 NVCV_PACKING_0 0 0
  NVCV_DATA_KIND_UNSPECIFIED NVCV_EXTRA_CHANNEL_U.
Definition NVCV_IMAGE_FORMAT_UYVY : Z := NVCV_DETAIL_MAKE_FORMAT NVCV_COLOR_MODEL_YCbCr NVCV_COLOR_SPEC_BT601
  NVCV_CSS_422 NVCV_MEM_LAYOUT_PL NVCV_DATA_KIND_UNSIGNED NVCV_SWIZZLE_XYZ1 NVCV_ALPHA_ASSOCIATED
  NVCV_PACKING_Y8_X8__Z8_X8 NVCV_PACKING_0 NVCV_PACKING_0 NVCV_PACKING_0 0 0 NVCV_DATA_KIND_UNSPECIFIED
  NVCV_EXTRA_CHANNEL_U.
Definition NVCV_IMAGE_FORMAT_UYVY_BL : Z := NVCV_DETAIL_MAKE_FORMAT NVCV_COLOR_MODEL_YCbCr NVCV_COLOR_SPEC_BT601
  NVCV_CSS_422 NVCV_MEM_LAYOUT_BL NVCV_DATA_KIND_UNSIGNED NVCV_SWIZZLE_XYZ1 NVCV_ALPHA_ASSOCIATED
  NVCV_PACKING_Y8_X8__Z8_X8 NVCV_PACKING_0 NVCV_PACKING_0 NVCV_PACKING_0 0 0 NVCV_DATA_KIND_UNSPECIFIED
  NVCV_EXTRA_CHANNEL_U.
Definition NVCV_IMAGE_FORMAT_UYVY_ER : Z := NVCV_DETAIL_MAKE_FORMAT NVCV_COLOR_MODEL_YCbCr
  NVCV_COLOR_SPEC_BT601_ER NVCV_CSS_422 NVCV_MEM_LAYOUT_PL NVCV_DATA_KIND_UNSIGNED NVCV_SWIZZLE_XYZ1
  NVCV_ALPHA_ASSOCIATED NVCV_PACKING_Y8_X8__Z8_X8 NVCV_PACKING_0 NVCV_PACKING_0 NVCV_PACKING_0 0 0
  NVCV_DATA_KIND_UNSPECIFIED NVCV_EXTRA_CHANNEL_U.
Definition NVCV_IMAGE_FORMAT_UYVY_ER_BL : Z := NVCV_DETAIL_MAKE_FORMAT NVCV_COLOR_MODEL_YCbCr
  NVCV_COLOR_SPEC_BT601_ER NVCV_CSS_422 NVCV_MEM_LAYOUT_BL NVCV_DATA_KIND_UNSIGNED NVCV_SWIZZLE_XYZ1
  NVCV_ALPHA_ASSOCIATED NVCV_PACKING_Y8_X8__Z8_X8 NVCV_PACKING_0 NVCV_PACKING_0 NVCV_PACKING_0 0 0
  NVCV_DATA_KIND_UNSPECIFIED NVCV_EXTRA_CHANNEL_U.
Definition NVCV_IMAGE_FORMAT_VYUY : Z := NVCV_DETAIL_MAKE_FORMAT NVCV_COLOR_MODEL_YCbCr NVCV_COLOR_SPEC_BT601
  NVCV_CSS_422 NVCV_MEM_LAYOUT_PL NVCV_DATA_KIND_UNSIGNED NVCV_SWIZZLE_XZY1 NVCV_ALPHA_ASSOCIATED
  NVCV_PACKING_Y8_X8__Z8_X8 NVCV_PACKING_0 NVCV_PACKING_0 NVCV_PACKING_0 0 0 NVCV_DATA_KIND_UNSPECIFIED
  NVCV_EXTRA_CHANNEL_U.
Definition NVCV_IMAGE_FORMAT_VYUY_BL : Z := NVCV_DETAIL_MAKE_FORMAT NVCV_COLOR_MODEL_YCbCr NVCV_COLOR_SPEC_BT601
  NVCV_CSS_422 NVCV_MEM_LAYOUT_BL NVCV_DATA_KIND_UNSIGNED NVCV_SWIZZLE_XZY1 NVCV_ALPHA_ASSOCIATED
  NVCV_PACKING_Y8_X8__Z8_X8 NVCV_PACKING_0 NVCV_PACKING_0 NVCV_PACKING_0 0 0 NVCV_DATA_KIND_UNSPECIFIED
  NVCV_EXTRA_CHANNEL_U.
Definition NVCV_IMAGE_FORMAT_VYUY_ER : Z := NVCV_DETAIL_MAKE_FORMAT NVCV_COLOR_MODEL_YCbCr
  NVCV_COLOR_SPEC_BT601_ER NVCV_CSS_422 NVCV_MEM_LAYOUT_PL NVCV_DATA_KIND_UNSIGNED NVCV_SWIZZLE_XZY1
  NVCV_ALPHA_ASSOCIATED NVCV_PACKING_Y8_X8__Z8_X8 NVCV_PACKING_0 NVCV_PACKING_0 NVCV_PACKING_0 0 0
  NVCV_DATA_KIND_UNSPECIFIED NVCV_EXTRA_CHANNEL_U.
Definition NVCV_IMAGE_FORMAT_VYUY_ER_BL : Z := NVCV_DETAIL_MAKE_FORMAT NVCV_COLOR_MODEL_YCbCr
  NVCV_COLOR_SPEC_BT601_ER NVCV_CSS_422 NVCV_MEM_LAYOUT_BL NVCV_DATA_KIND_UNSIGNED NVCV_SWIZZLE_XZY1
  NVCV_ALPHA_ASSOCIATED NVCV_PACKING_Y8_X8__Z8_X8 NVCV_PACKING_0 NVCV_PACKING_0 NVCV_PACKING_0 0 0
  NVCV_DATA_KIND_UNSPECIFIED NVCV_EXTRA_CHANNEL_U.
Definition NVCV_IMAGE_FORMAT_YUYV : Z := NVCV_DETAIL_MAKE_FORMAT NVCV_COLOR_MODEL_YCbCr NVCV_COLOR_SPEC_BT601
  NVCV_CSS_422 NVCV_MEM_LAYOUT_PL NVCV_DATA_KIND_UNSIGNED NVCV_SWIZZLE_XYZ1 NVCV_ALPHA_ASSOCIATED
  NVCV_PACKING_X8_Y8__X8_Z8 NVCV_PACKING_0 NVCV_PACKING_0 NVCV_PACKING_0 0 0 NVCV_DATA_KIND_UNSPECIFIED
  NVCV_EXTRA_CHANNEL_U.
Definition NVCV_IMAGE_FORMAT_YUYV_BL : Z := NVCV_DETAIL_MAKE_FORMAT NVCV_COLOR_MODEL_YCbCr NVCV_COLOR_SPEC_BT601
  NVCV_CSS_422 NVCV_MEM_LAYOUT_BL NVCV_DATA_KIND_UNSIGNED NVCV_SWIZZLE_XYZ1 NVCV_ALPHA_ASSOCIATED
  NVCV_PACKING_X8_Y8__X8_Z8 NVCV_PACKING_0 NVCV_PACKING_0 NVCV_PACKING_0 0 0 NVCV_DATA_KIND_UNSPECIFIED
  NVCV_EXTRA_CHANNEL_U.
Definition NVCV_IMAGE_FORMAT_YUYV_ER : Z := NVCV_DETAIL_MAKE_FORMAT NVCV_COLOR_MODEL_YCbCr
  NVCV_COLOR_SPEC_BT601_ER NVCV_CSS_422 NVCV_MEM_LAYOUT_PL NVCV_DATA_KIND_UNSIGNED NVCV_SWIZZLE_XYZ1
  NVCV_ALPHA_ASSOCIATED NVCV_PACKING_X8_Y8__X8_Z8 NVCV_PACKING_0 NVCV_PACKING_0 NVCV_PACKING_0 0 0
  NVCV_DATA_KIND_UNSPECIFIED NVCV_EXTRA_CHANNEL_U.
Definition NVCV_IMAGE_FORMAT_YUYV_ER_BL : Z := NVCV_DETAIL_MAKE_FORMAT NVCV_COLOR_MODEL_YCbCr
  NVCV_COLOR_SPEC_BT601_ER NVCV_CSS_422 NVCV_MEM_LAYOUT_BL NVCV_DATA_KIND_UNSIGNED NVCV_SWIZZLE_XYZ1
  NVCV_ALPHA_ASSOCIATED NVCV_PACKING_X8_Y8__X8_Z8 NVCV_PACKING_0 NVCV_PACKING_0 NVCV_PACKING_0 0 0
  NVCV_DATA_KIND_UNSPECIFIED NVCV_EXTRA_CHANNEL_U.
Definition NVCV_IMAGE_FORMAT_YUV8 : Z := NVCV_DETAIL_MAKE_FORMAT NVCV_COLOR_MODEL_YCbCr NVCV_COLOR_SPEC_BT601
  NVCV_CSS_NONE NVCV_MEM_LAYOUT_PL NVCV_DATA_KIND_UNSIGNED NVCV_SWIZZLE_XYZ1 NVCV_ALPHA_ASSOCIATED
  NVCV_PACKING_X8_Y8_Z8 NVCV_PACKING_0 NVCV_PACKING_0 NVCV_PACKING_0 0 0 NVCV_DATA_KIND_UNSPECIFIED
  NVCV_EXTRA_CHANNEL_U.
Definition NVCV_IMAGE_FORMAT_YUV8p : Z := NVCV_DETAIL_MAKE_FORMAT NVCV_COLOR_MODEL_YCbCr NVCV_COLOR_SPEC_BT601
  NVCV_CSS_NONE NVCV_MEM_LAYOUT_PL NVCV_DATA_KIND_UNSIGNED NVCV_SWIZZLE_XYZ1 NVCV_ALPHA_ASSOCIATED NVCV_PACKING_X8
  NVCV_PACKING_X8 NVCV_PACKING_X8 NVCV_PACKING_0 0 0 NVCV_DATA_KIND_UNSPECIFIED NVCV_EXTRA_CHANNEL_U.
Definition NVCV_IMAGE_FORMAT_YUV8p_ER : Z := NVCV_DETAIL_MAKE_FORMAT NVCV_COLOR_MODEL_YCbCr
  NVCV_COLOR_SPEC_BT601_ER NVCV_CSS_NONE NVCV_MEM_LAYOUT_PL NVCV_DATA_KIND_UNSIGNED NVCV_SWIZZLE_XYZ1
  NVCV_ALPHA_ASSOCIATED NVCV_PACKING_X8 NVCV_PACKING_X8 NVCV_PACKING_X8 NVCV_PACKING_0 0 0
  NVCV_DATA_KIND_UNSPECIFIED NVCV_EXTRA_CHANNEL_U.
Definition NVCV_IMAGE_FORMAT_RGB8 : Z := NVCV_DETAIL_MAKE_FORMAT NVCV_COLOR_MODEL_RGB NVCV_COLOR_SPEC_UNDEFINED
  NVCV_CSS_NONE NVCV_MEM_LAYOUT_PL NVCV_DATA_KIND_UNSIGNED NVCV_SWIZZLE_XYZ1 NVCV_ALPHA_ASSOCIATED
  NVCV_PACKING_X8_Y8_Z8 NVCV_PACKING_0 NVCV_PACKING_0 NVCV_PACKING_0 0 0 NVCV_DATA_KIND_UNSPECIFIED
  NVCV_EXTRA_CHANNEL_U.
Definition NVCV_IMAGE_FORMAT_BGR8 : Z := NVCV_DETAIL_MAKE_FORMAT NVCV_COLOR_MODEL_RGB NVCV_COLOR_SPEC_UNDEFINED
  NVCV_CSS_NONE NVCV_MEM_LAYOUT_PL NVCV_DATA_KIND_UNSIGNED NVCV_SWIZZLE_ZYX1 NVCV_ALPHA_ASSOCIATED
  NVCV_PACKING_X8_Y8_Z8 NVCV_PACKING_0 NVCV_PACKING_0 NVCV_PACKING_0 0 0 NVCV_DATA_KIND_UNSPECIFIED
  NVCV_EXTRA_CHANNEL_U.
Definition NVCV_IMAGE_FORMAT_RGBA8 : Z := NVCV_DETAIL_MAKE_FORMAT NVCV_COLOR_MODEL_RGB NVCV_COLOR_SPEC_UNDEFINED
  NVCV_CSS_NONE NVCV_MEM_LAYOUT_PL NVCV_DATA_KIND_UNSIGNED NVCV_SWIZZLE_XYZW NVCV_ALPHA_ASSOCIATED
  NVCV_PACKING_X8_Y8_Z8_W8 NVCV_PACKING_0 NVCV_PACKING_0 NVCV_PACKING_0 0 0 NVCV_DATA_KIND_UNSPECIFIED
  NVCV_EXTRA_CHANNEL_U.
Definition NVCV_IMAGE_FORMAT_BGRA8 : Z := NVCV_DETAIL_MAKE_FORMAT NVCV_COLOR_MODEL_RGB NVCV_COLOR_SPEC_UNDEFINED
  NVCV_CSS_NONE NVCV_MEM_LAYOUT_PL NVCV_DATA_KIND_UNSIGNED NVCV_SWIZZLE_ZYXW NVCV_ALPHA_ASSOCIATED
  NVCV_PACKING_X8_Y8_Z8_W8 NVCV_PACKING_0 NVCV_PACKING_0 NVCV_PACKING_0 0 0 NVCV_DATA_KIND_UNSPECIFIED
  NVCV_EXTRA_CHANNEL_U.
Definition NVCV_IMAGE_FORMAT_RGB8p : Z := NVCV_DETAIL_MAKE_FORMAT NVCV_COLOR_MODEL_RGB NVCV_COLOR_SPEC_UNDEFINED
  NVCV_CSS_NONE NVCV_MEM_LAYOUT_PL NVCV_DATA_KIND_UNSIGNED NVCV_SWIZZLE_XYZ0 NVCV_ALPHA_ASSOCIATED NVCV_PACKING_X8
  NVCV_PACKING_X8 NVCV_PACKING_X8 NVCV_PACKING_0 0 0 NVCV_DATA_KIND_UNSPECIFIED NVCV_EXTRA_CHANNEL_U.
Definition NVCV_IMAGE_FORMAT_BGR8p : Z := NVCV_DETAIL_MAKE_FORMAT NVCV_COLOR_MODEL_RGB NVCV_COLOR_SPEC_UNDEFINED
  NVCV_CSS_NONE NVCV_MEM_LAYOUT_PL NVCV_DATA_KIND_UNSIGNED NVCV_SWIZZLE_ZYX1 NVCV_ALPHA_ASSOCIATED NVCV_PACKING_X8
  NVCV_PACKING_X8 NVCV_PACKING_X8 NVCV_PACKING_0 0 0 NVCV_DATA_KIND_UNSPECIFIED NVCV_EXTRA_CHANNEL_U.
Definition NVCV_IMAGE_FORMAT_RGBA8p : Z := NVCV_DETAIL_MAKE_FORMAT NVCV_COLOR_MODEL_RGB NVCV_COLOR_SPEC_UNDEFINED
  NVCV_CSS_NONE NVCV_MEM_LAYOUT_PL NVCV_DATA_KIND_UNSIGNED NVCV_SWIZZLE_XYZW NVCV_ALPHA_ASSOCIATED NVCV_PACKING_X8
  NVCV_PACKING_X8 NVCV_PACKING_X8 NVCV_PACKING_X8 0 0 NVCV_DATA_KIND_UNSPECIFIED NVCV_EXTRA_CHANNEL_U.
Definition NVCV_IMAGE_FORMAT_BGRA8p : Z := NVCV_DETAIL_MAKE_FORMAT NVCV_COLOR_MODEL_RGB NVCV_COLOR_SPEC_UNDEFINED
  NVCV_CSS_NONE NVCV_MEM_LAYOUT_PL NVCV_DATA_KIND_UNSIGNED NVCV_SWIZZLE_ZYXW NVCV_ALPHA_ASSOCIATED NVCV_PACKING_X8
  NVCV_PACKING_X8 NVCV_PACKING_X8 NVCV_PACKING_X8 0 0 NVCV_DATA_KIND_UNSPECIFIED NVCV_EXTRA_CHANNEL_U.
Definition NVCV_IMAGE_FORMAT_RGBf16 : Z := NVCV_DETAIL_MAKE_FORMAT NVCV_COLOR_MODEL_RGB NVCV_COLOR_SPEC_UNDEFINED
  NVCV_CSS_NONE NVCV_MEM_LAYOUT_PL NVCV_DATA_KIND_FLOAT NVCV_SWIZZLE_XYZ1 NVCV_ALPHA_ASSOCIATED
  NVCV_PACKING_X16_Y16_Z16 NVCV_PACKING_0 NVCV_PACKING_0 NVCV_PACKING_0 0 0 NVCV_DATA_KIND_UNSPECIFIED
  NVCV_EXTRA_CHANNEL_U.
Definition NVCV_IMAGE_FORMAT_BGRf16 : Z := NVCV_DETAIL_MAKE_FORMAT NVCV_COLOR_MODEL_RGB NVCV_COLOR_SPEC_UNDEFINED
  NVCV_CSS_NONE NVCV_MEM_LAYOUT_PL NVCV_DATA_KIND_FLOAT NVCV_SWIZZLE_ZYX1 NVCV_ALPHA_ASSOCIATED
  NVCV_PACKING_X16_Y16_Z16 NVCV_PACKING_0 NVCV_PACKING_0 NVCV_PACKING_0 0 0 NVCV_DATA_KIND_UNSPECIFIED
  NVCV_EXTRA_CHANNEL_U.
Definition NVCV_IMAGE_FORMAT_RGBAf16 : Z := NVCV_DETAIL_MAKE_FORMAT NVCV_COLOR_MODEL_RGB NVCV_COLOR_SPEC_UNDEFINED
  NVCV_CSS_NONE NVCV_MEM_LAYOUT_PL NVCV_DATA_KIND_FLOAT NVCV_SWIZZLE_XYZW NVCV_ALPHA_ASSOCIATED
  NVCV_PACKING_X16_Y16_Z16_W16 NVCV_PACKING_0 NVCV_PACKING_0 NVCV_PACKING_0 0 0 NVCV_DATA_KIND_UNSPECIFIED
  NVCV_EXTRA_CHANNEL_U.
Definition NVCV_IMAGE_FORMAT_BGRAf16 : Z := NVCV_DETAIL_MAKE_FORMAT NVCV_COLOR_MODEL_RGB NVCV_COLOR_SPEC_UNDEFINED
  NVCV_CSS_NONE NVCV_MEM_LAYOUT_PL NVCV_DATA_KIND_FLOAT NVCV_SWIZZLE_ZYXW NVCV_ALPHA_ASSOCIATED
  NVCV_PACKING_X16_Y16_Z16_W16 NVCV_PACKING_0 NVCV_PACKING_0 NVCV_PACKING_0 0 0 NVCV_DATA_KIND_UNSPECIFIED
  NVCV_EXTRA_CHANNEL_U.
Definition NVCV_IMAGE_FORMAT_RGBf16p : Z := NVCV_DETAIL_MAKE_FORMAT NVCV_COLOR_MODEL_RGB NVCV_COLOR_SPEC_UNDEFINED
  NVCV_CSS_NONE NVCV_MEM_LAYOUT_PL NVCV_DATA_KIND_FLOAT NVCV_SWIZZLE_XYZ0 NVCV_ALPHA_ASSOCIATED NVCV_PACKING_X16
  NVCV_PACKING_X16 NVCV_PACKING_X16 NVCV_PACKING_0 0 0 NVCV_DATA_KIND_UNSPECIFIED NVCV_EXTRA_CHANNEL_U.
Definition NVCV_IMAGE_FORMAT_BGRf16p : Z := NVCV_DETAIL_MAKE_FORMAT NVCV_COLOR_MODEL_RGB NVCV_COLOR_SPEC_UNDEFINED
  NVCV_CSS_NONE NVCV_MEM_LAYOUT_PL NVCV_DATA_KIND_FLOAT NVCV_SWIZZLE_ZYX1 NVCV_ALPHA_ASSOCIATED NVCV_PACKING_X16
  NVCV_PACKING_X16 NVCV_PACKING_X16 NVCV_PACKING_0 0 0 NVCV_DATA_KIND_UNSPECIFIED NVCV_EXTRA_CHANNEL_U.
Definition NVCV_IMAGE_FORMAT_RGBAf16p : Z := NVCV_DETAIL_MAKE_FORMAT NVCV_COLOR_MODEL_RGB
  NVCV_COLOR_SPEC_UNDEFINED NVCV_CSS_NONE NVCV_MEM_LAYOUT_PL NVCV_DATA_KIND_FLOAT NVCV_SWIZZLE_XYZW
  NVCV_ALPHA_ASSOCIATED NVCV_PACKING_X16 NVCV_PACKING_X16 NVCV_PACKING_X16 NVCV_PACKING_X16 0 0
  NVCV_DATA_KIND_UNSPECIFIED NVCV_EXTRA_CHANNEL_U.
Definition NVCV_IMAGE_FORMAT_BGRAf16p : Z := NVCV_DETAIL_MAKE_FORMAT NVCV_COLOR_MODEL_RGB
  NVCV_COLOR_SPEC_UNDEFINED NVCV_CSS_NONE NVCV_MEM_LAYOUT_PL NVCV_DATA_KIND_FLOAT NVCV_SWIZZLE_ZYXW
  NVCV_ALPHA_ASSOCIATED NVCV_PACKING_X16 NVCV_PACKING_X16 NVCV_PACKING_X16 NVCV_PACKING_X16 0 0
  NVCV_DATA_KIND_UNSPECIFIED NVCV_EXTRA_CHANNEL_U.
Definition NVCV_IMAGE_FORMAT_RGBf32 : Z := NVCV_DETAIL_MAKE_FORMAT NVCV_COLOR_MODEL_RGB NVCV_COLOR_SPEC_UNDEFINED
  NVCV_CSS_NONE NVCV_MEM_LAYOUT_PL NVCV_DATA_KIND_FLOAT NVCV_SWIZZLE_XYZ1 NVCV_ALPHA_ASSOCIATED
  NVCV_PACKING_X32_Y32_Z32 NVCV_PACKING_0 NVCV_PACKING_0 NVCV_PACKING_0 0 0 NVCV_DATA_KIND_UNSPECIFIED
  NVCV_EXTRA_CHANNEL_U.
Definition NVCV_IMAGE_FORMAT_BGRf32 : Z := NVCV_DETAIL_MAKE_FORMAT NVCV_COLOR_MODEL_RGB NVCV_COLOR_SPEC_UNDEFINED
  NVCV_CSS_NONE NVCV_MEM_LAYOUT_PL NVCV_DATA_KIND_FLOAT NVCV_SWIZZLE_ZYX1 NVCV_ALPHA_ASSOCIATED
  NVCV_PACKING_X32_Y32_Z32 NVCV_PACKING_0 NVCV_PACKING_0 NVCV_PACKING_0 0 0 NVCV_DATA_KIND_UNSPECIFIED
  NVCV_EXTRA_CHANNEL_U.
Definition NVCV_IMAGE_FORMAT_RGBAf32 : Z := NVCV_DETAIL_MAKE_FORMAT NVCV_COLOR_MODEL_RGB NVCV_COLOR_SPEC_UNDEFINED
  NVCV_CSS_NONE NVCV_MEM_LAYOUT_PL NVCV_DATA_KIND_FLOAT NVCV_SWIZZLE_XYZW NVCV_ALPHA_ASSOCIATED
  NVCV_PACKING_X32_Y32_Z32_W32 NVCV_PACKING_0 NVCV_PACKING_0 NVCV_PACKING_0 0 0 NVCV_DATA_KIND_UNSPECIFIED
  NVCV_EXTRA_CHANNEL_U.
Definition NVCV_IMAGE_FORMAT_BGRAf32 : Z := NVCV_DETAIL_MAKE_FORMAT NVCV_COLOR_MODEL_RGB NVCV_COLOR_SPEC_UNDEFINED
  NVCV_CSS_NONE NVCV_MEM_LAYOUT_PL NVCV_DATA_KIND_FLOAT NVCV_SWIZZLE_ZYXW NVCV_ALPHA_ASSOCIATED
  NVCV_PACKING_X32_Y32_Z32_W32 NVCV_PACKING_0 NVCV_PACKING_0 NVCV_PACKING_0 0 0 NVCV_DATA_KIND_UNSPECIFIED
  NVCV_EXTRA_CHANNEL_U.
Definition NVCV_IMAGE_FORMAT_RGBf32p : Z := NVCV_DETAIL_MAKE_FORMAT NVCV_COLOR_MODEL_RGB NVCV_COLOR_SPEC_UNDEFINED
  NVCV_CSS_NONE NVCV_MEM_LAYOUT_PL NVCV_DATA_KIND_FLOAT NVCV_SWIZZLE_XYZ0 NVCV_ALPHA_ASSOCIATED NVCV_PACKING_X32
  NVCV_PACKING_X32 NVCV_PACKING_X32 NVCV_PACKING_0 0 0 NVCV_DATA_KIND_UNSPECIFIED NVCV_EXTRA_CHANNEL_U.
Definition NVCV_IMAGE_FORMAT_BGRf32p : Z := NVCV_DETAIL_MAKE_FORMAT NVCV_COLOR_MODEL_RGB NVCV_COLOR_SPEC_UNDEFINED
  NVCV_CSS_NONE NVCV_MEM_LAYOUT_PL NVCV_DATA_KIND_FLOAT NVCV_SWIZZLE_ZYX1 NVCV_ALPHA_ASSOCIATED NVCV_PACKING_X32
  NVCV_PACKING_X32 NVCV_PACKING_X32 NVCV_PACKING_0 0 0 NVCV_DATA_KIND_UNSPECIFIED NVCV_EXTRA_CHANNEL_U.
Definition NVCV_IMAGE_FORMAT_RGBAf32p : Z := NVCV_DETAIL_MAKE_FORMAT NVCV_COLOR_MODEL_RGB
  NVCV_COLOR_SPEC_UNDEFINED NVCV_CSS_NONE NVCV_MEM_LAYOUT_PL NVCV_DATA_KIND_FLOAT NVCV_SWIZZLE_XYZW
  NVCV_ALPHA_ASSOCIATED NVCV_PACKING_X32 NVCV_PACKING_X32 NVCV_PACKING_X32 NVCV_PACKING_X32 0 0
  NVCV_DATA_KIND_UNSPECIFIED NVCV_EXTRA_CHANNEL_U.
Definition NVCV_IMAGE_FORMAT_BGRAf32p : Z := NVCV_DETAIL_MAKE_FORMAT NVCV_COLOR_MODEL_RGB
  NVCV_COLOR_SPEC_UNDEFINED NVCV_CSS_NONE NVCV_MEM_LAYOUT_PL NVCV_DATA_KIND_FLOAT NVCV_SWIZZLE_ZYXW
  NVCV_ALPHA_ASSOCIATED NVCV_PACKING_X32 NVCV_PACKING_X32 NVCV_PACKING_X32 NVCV_PACKING_X32 0 0
  NVCV_DATA_KIND_UNSPECIFIED NVCV_EXTRA_CHANNEL_U.
Definition NVCV_IMAGE_FORMAT_HSV8 : Z := NVCV_DETAIL_MAKE_FORMAT NVCV_COLOR_MODEL_HSV NVCV_COLOR_SPEC_UNDEFINED
  NVCV_CSS_NONE NVCV_MEM_LAYOUT_PL NVCV_DATA_KIND_UNSIGNED NVCV_SWIZZLE_XYZ0 NVCV_ALPHA_ASSOCIATED
  NVCV_PACKING_X8_Y8_Z8 NVCV_PACKING_0 NVCV_PACKING_0 NVCV_PACKING_0 0 0 NVCV_DATA_KIND_UNSPECIFIED
  NVCV_EXTRA_CHANNEL_U.
Definition NVCV_IMAGE_FORMAT_CMYK8 : Z := NVCV_DETAIL_MAKE_FORMAT NVCV_COLOR_MODEL_CMYK NVCV_COLOR_SPEC_UNDEFINED
  NVCV_CSS_NONE NVCV_MEM_LAYOUT_PL NVCV_DATA_KIND_UNSIGNED NVCV_SWIZZLE_XYZW NVCV_ALPHA_ASSOCIATED
  NVCV_PACKING_X8_Y8_Z8_W8 NVCV_PACKING_0 NVCV_PACKING_0 NVCV_PACKING_0 0 0 NVCV_DATA_KIND_UNSPECIFIED
  NVCV_EXTRA_CHANNEL_U.
Definition NVCV_IMAGE_FORMAT_YCCK8 : Z := NVCV_DETAIL_MAKE_FORMAT NVCV_COLOR_MODEL_YCCK NVCV_COLOR_SPEC_UNDEFINED
  NVCV_CSS_NONE NVCV_MEM_LAYOUT_PL NVCV_DATA_KIND_UNSIGNED NVCV_SWIZZLE_XYZW NVCV_ALPHA_ASSOCIATED
  NVCV_PACKING_X8_Y8_Z8_W8 NVCV_PACKING_0 NVCV_PACKING_0 NVCV_PACKING_0 0 0 NVCV_DATA_KIND_UNSPECIFIED
  NVCV_EXTRA_CHANNEL_U.
Definition NVCV_IMAGE_FORMAT_RGBA8_UNASSOCIATED_ALPHA : Z := NVCV_DETAIL_MAKE_FORMAT NVCV_COLOR_MODEL_RGB
  NVCV_COLOR_SPEC_UNDEFINED NVCV_CSS_NONE NVCV_MEM_LAYOUT_PL NVCV_DATA_KIND_UNSIGNED NVCV_SWIZZLE_XYZW
  NVCV_ALPHA_UNASSOCIATED NVCV_PACKING_X8_Y8_Z8_W8 NVCV_PACKING_0 NVCV_PACKING_0 NVCV_PACKING_0 0 0
  NVCV_DATA_KIND_UNSPECIFIED NVCV_EXTRA_CHANNEL_U.
Definition NVCV_IMAGE_FORMAT_RGB8_1U_U8 : Z := NVCV_DETAIL_MAKE_FORMAT NVCV_COLOR_MODEL_RGB
  NVCV_COLOR_SPEC_UNDEFINED NVCV_CSS_NONE NVCV_MEM_LAYOUT_PL NVCV_DATA_KIND_UNSIGNED NVCV_SWIZZLE_XYZ1
  NVCV_ALPHA_ASSOCIATED NVCV_PACKING_X8_Y8_Z8 NVCV_PACKING_0 NVCV_PACKING_0 NVCV_PACKING_0 1 8
  NVCV_DATA_KIND_UNSIGNED NVCV_EXTRA_CHANNEL_U.
Definition NVCV_IMAGE_FORMAT_RGB8_7U_U8 : Z := NVCV_DETAIL_MAKE_FORMAT NVCV_COLOR_MODEL_RGB
  NVCV_COLOR_SPEC_UNDEFINED NVCV_CSS_NONE NVCV_MEM_LAYOUT_PL NVCV_DATA_KIND_UNSIGNED NVCV_SWIZZLE_XYZ1
  NVCV_ALPHA_ASSOCIATED NVCV_PACKING_X8_Y8_Z8 NVCV_PACKING_0 NVCV_PACKING_0 NVCV_PACKING_0 7 8
  NVCV_DATA_KIND_UNSIGNED NVCV_EXTRA_CHANNEL_U.
Definition NVCV_IMAGE_FORMAT_RGBA8_3U_U16 : Z := NVCV_DETAIL_MAKE_FORMAT NVCV_COLOR_MODEL_RGB
  NVCV_COLOR_SPEC_UNDEFINED NVCV_CSS_NONE NVCV_MEM_LAYOUT_PL NVCV_DATA_KIND_UNSIGNED NVCV_SWIZZLE_XYZW
  NVCV_ALPHA_ASSOCIATED NVCV_PACKING_X8_Y8_Z8_W8 NVCV_PACKING_0 NVCV_PACKING_0 NVCV_PACKING_0 3 16
  NVCV_DATA_KIND_UNSIGNED NVCV_EXTRA_CHANNEL_U.
Definition NVCV_IMAGE_FORMAT_RGBA8_3POS3D_U32 : Z := NVCV_DETAIL_MAKE_FORMAT NVCV_COLOR_MODEL_RGB
  NVCV_COLOR_SPEC_UNDEFINED NVCV_CSS_NONE NVCV_MEM_LAYOUT_PL NVCV_DATA_KIND_UNSIGNED NVCV_SWIZZLE_XYZW
  NVCV_ALPHA_ASSOCIATED NVCV_PACKING_X8_Y8_Z8 NVCV_PACKING_0 NVCV_PACKING_0 NVCV_PACKING_0 3 32
  NVCV_DATA_KIND_UNSIGNED NVCV_EXTRA_CHANNEL_POS3D.
Definition NVCV_IMAGE_FORMAT_RGB8_3D_F32 : Z := NVCV_DETAIL_MAKE_FORMAT NVCV_COLOR_MODEL_RGB
  NVCV_COLOR_SPEC_UNDEFINED NVCV_CSS_NONE NVCV_MEM_LAYOUT_PL NVCV_DATA_KIND_UNSIGNED NVCV_SWIZZLE_XYZ1
  NVCV_ALPHA_ASSOCIATED NVCV_PACKING_X8_Y8_Z8 NVCV_PACKING_0 NVCV_PACKING_0 NVCV_PACKING_0 3 32
  NVCV_DATA_KIND_FLOAT NVCV_EXTRA_CHANNEL_D.

(** Every predefined format. *)
Definition predefined_formats : list Z :=
  [NVCV_IMAGE_FORMAT_U8;
   NVCV_IMAGE_FORMAT_U8_BL;
   NVCV_IMAGE_FORMAT_S8;
   NVCV_IMAGE_FORMAT_U16;
   NVCV_IMAGE_FORMAT_U32;
   NVCV_IMAGE_FORMAT_S32;
   NVCV_IMAGE_FORMAT_S16;
   NVCV_IMAGE_FORMAT_S16_BL;
   NVCV_IMAGE_FORMAT_2S16;
   NVCV_IMAGE_FORMAT_2S16_BL;
   NVCV_IMAGE_FORMAT_F16;
   NVCV_IMAGE_FORMAT_F32;
   NVCV_IMAGE_FORMAT_F64;
   NVCV_IMAGE_FORMAT_2F16;
   NVCV_IMAGE_FORMAT_2F32;
   NVCV_IMAGE_FORMAT_C64;
   NVCV_IMAGE_FORMAT_2C64;
   NVCV_IMAGE_FORMAT_C128;
   NVCV_IMAGE_FORMAT_2C128;
   NVCV_IMAGE_FORMAT_Y8;
   NVCV_IMAGE_FORMAT_Y8_BL;
   NVCV_IMAGE_FORMAT_Y8_ER;
   NVCV_IMAGE_FORMAT_Y8_ER_BL;
   NVCV_IMAGE_FORMAT_Y16;
   NVCV_IMAGE_FORMAT_Y16_BL;
   NVCV_IMAGE_FORMAT_Y16_ER;
   NVCV_IMAGE_FORMAT_Y16_ER_BL;
   NVCV_IMAGE_FORMAT_NV12;
   NVCV_IMAGE_FORMAT_NV12_BL;
   NVCV_IMAGE_FORMAT_NV12_ER;
   NVCV_IMAGE_FORMAT_NV12_ER_BL;
   NVCV_IMAGE_FORMAT_NV21;
   NVCV_IMAGE_FORMAT_NV21_ER;
   NVCV_IMAGE_FORMAT_NV24;
   NVCV_IMAGE_FORMAT_NV24_BL;
   NVCV_IMAGE_FORMAT_NV24_ER;
   NVCV_IMAGE_FORMAT_NV24_ER_BL;
   NVCV_IMAGE_FORMAT_UYVY;
   NVCV_IMAGE_FORMAT_UYVY_BL;
   NVCV_IMAGE_FORMAT_UYVY_ER;
   NVCV_IMAGE_FORMAT_UYVY_ER_BL;
   NVCV_IMAGE_FORMAT_VYUY;
   NVCV_IMAGE_FORMAT_VYUY_BL;
   NVCV_IMAGE_FORMAT_VYUY_ER;
   NVCV_IMAGE_FORMAT_VYUY_ER_BL;
   NVCV_IMAGE_FORMAT_YUYV;
   NVCV_IMAGE_FORMAT_YUYV_BL;
   NVCV_IMAGE_FORMAT_YUYV_ER;
   NVCV_IMAGE_FORMAT_YUYV_ER_BL;
   NVCV_IMAGE_FORMAT_YUV8;
   NVCV_IMAGE_FORMAT_YUV8p;
   NVCV_IMAGE_FORMAT_YUV8p_ER;
   NVCV_IMAGE_FORMAT_RGB8;
   NVCV_IMAGE_FORMAT_BGR8;
   NVCV_IMAGE_FORMAT_RGBA8;
   NVCV_IMAGE_FORMAT_BGRA8;
   NVCV_IMAGE_FORMAT_RGB8p;
   NVCV_IMAGE_FORMAT_BGR8p;
   NVCV_IMAGE_FORMAT_RGBA8p;
   NVCV_IMAGE_FORMAT_BGRA8p;
   NVCV_IMAGE_FORMAT_RGBf16;
   NVCV_IMAGE_FORMAT_BGRf16;
   NVCV_IMAGE_FORMAT_RGBAf16;
   NVCV_IMAGE_FORMAT_BGRAf16;
   NVCV_IMAGE_FORMAT_RGBf16p;
   NVCV_IMAGE_FORMAT_BGRf16p;
   NVCV_IMAGE_FORMAT_RGBAf16p;
   NVCV_IMAGE_FORMAT_BGRAf16p;
   NVCV_IMAGE_FORMAT_RGBf32;
   NVCV_IMAGE_FORMAT_BGRf32;
   NVCV_IMAGE_FORMAT_RGBAf32;
   NVCV_IMAGE_FORMAT_BGRAf32;
   NVCV_IMAGE_FORMAT_RGBf32p;
   NVCV_IMAGE_FORMAT_BGRf32p;
   NVCV_IMAGE_FORMAT_RGBAf32p;
   NVCV_IMAGE_FORMAT_BGRAf32p;
   NVCV_IMAGE_FORMAT_HSV8;
   NVCV_IMAGE_FORMAT_CMYK8;
   NVCV_IMAGE_FORMAT_YCCK8;
   NVCV_IMAGE_FORMAT_RGBA8_UNASSOCIATED_ALPHA;
   NVCV_IMAGE_FORMAT_RGB8_1U_U8;
   NVCV_IMAGE_FORMAT_RGB8_7U_U8;
   NVCV_IMAGE_FORMAT_RGBA8_3U_U16;
   NVCV_IMAGE_FORMAT_RGBA8_3POS3D_U32;
   NVCV_IMAGE_FORMAT_RGB8_3D_F32].

(** ** Names *)

#[local] Open Scope string_scope.

Definition names_NVCVDataType : list (Z * string) :=
  [(NVCV_DATA_TYPE_NONE, "NVCV_DATA_TYPE_NONE");
   (NVCV_DATA_TYPE_U8, "NVCV_DATA_TYPE_U8");
   (NVCV_DATA_TYPE_2U8, "NVCV_DATA_TYPE_2U8");
   (NVCV_DATA_TYPE_3U8, "NVCV_DATA_TYPE_3U8");
   (NVCV_DATA_TYPE_4U8, "NVCV_DATA_TYPE_4U8");
   (NVCV_DATA_TYPE_S8, "NVCV_DATA_TYPE_S8");
   (NVCV_DATA_TYPE_2S8, "NVCV_DATA_TYPE_2S8");
   (NVCV_DATA_TYPE_3S8, "NVCV_DATA_TYPE_3S8");
   (NVCV_DATA_TYPE_4S8, "NVCV_DATA_TYPE_4S8");
   (NVCV_DATA_TYPE_U16, "NVCV_DATA_TYPE_U16");
   (NVCV_DATA_TYPE_2U16, "NVCV_DATA_TYPE_2U16");
   (NVCV_DATA_TYPE_3U16, "NVCV_DATA_TYPE_3U16");
   (NVCV_DATA_TYPE_4U16, "NVCV_DATA_TYPE_4U16");
   (NVCV_DATA_TYPE_S16, "NVCV_DATA_TYPE_S16");
   (NVCV_DATA_TYPE_2S16, "NVCV_DATA_TYPE_2S16");
   (NVCV_DATA_TYPE_3S16, "NVCV_DATA_TYPE_3S16");
   (NVCV_DATA_TYPE_4S16, "NVCV_DATA_TYPE_4S16");
   (NVCV_DATA_TYPE_U32, "NVCV_DATA_TYPE_U32");
   (NVCV_DATA_TYPE_2U32, "NVCV_DATA_TYPE_2U32");
   (NVCV_DATA_TYPE_3U32, "NVCV_DATA_TYPE_3U32");
   (NVCV_DATA_TYPE_4U32, "NVCV_DATA_TYPE_4U32");
   (NVCV_DATA_TYPE_S32, "NVCV_DATA_TYPE_S32");
   (NVCV_DATA_TYPE_2S32, "NVCV_DATA_TYPE_2S32");
   (NVCV_DATA_TYPE_3S32, "NVCV_DATA_TYPE_3S32");
   (NVCV_DATA_TYPE_4S32, "NVCV_DATA_TYPE_4S32");
   (NVCV_DATA_TYPE_F16, "NVCV_DATA_TYPE_F16");
   (NVCV_DATA_TYPE_2F16, "NVCV_DATA_TYPE_2F16");
   (NVCV_DATA_TYPE_3F16, "NVCV_DATA_TYPE_3F16");
   (NVCV_DATA_TYPE_4F16, "NVCV_DATA_TYPE_4F16");
   (NVCV_DATA_TYPE_F32, "NVCV_DATA_TYPE_F32");
   (NVCV_DATA_TYPE_2F32, "NVCV_DATA_TYPE_2F32");
   (NVCV_DATA_TYPE_3F32, "NVCV_DATA_TYPE_3F32");
   (NVCV_DATA_TYPE_4F32, "NVCV_DATA_TYPE_4F32");
   (NVCV_DATA_TYPE_U64, "NVCV_DATA_TYPE_U64");
   (NVCV_DATA_TYPE_2U64, "NVCV_DATA_TYPE_2U64");
   (NVCV_DATA_TYPE_3U64, "NVCV_DATA_TYPE_3U64");
   (NVCV_DATA_TYPE_4U64, "NVCV_DATA_TYPE_4U64");
   (NVCV_DATA_TYPE_S64, "NVCV_DATA_TYPE_S64");
   (NVCV_DATA_TYPE_2S64, "NVCV_DATA_TYPE_2S64");
   (NVCV_DATA_TYPE_3S64, "NVCV_DATA_TYPE_3S64");
   (NVCV_DATA_TYPE_4S64, "NVCV_DATA_TYPE_4S64");
   (NVCV_DATA_TYPE_F64, "NVCV_DATA_TYPE_F64");
   (NVCV_DATA_TYPE_2F64, "NVCV_DATA_TYPE_2F64");
   (NVCV_DATA_TYPE_3F64, "NVCV_DATA_TYPE_3F64");
   (NVCV_DATA_TYPE_4F64, "NVCV_DATA_TYPE_4F64");
   (NVCV_DATA_TYPE_C64, "NVCV_DATA_TYPE_C64");
   (NVCV_DATA_TYPE_2C64, "NVCV_DATA_TYPE_2C64");
   (NVCV_DATA_TYPE_3C64, "NVCV_DATA_TYPE_3C64");
   (NVCV_DATA_TYPE_4C64, "NVCV_DATA_TYPE_4C64");
   (NVCV_DATA_TYPE_C128, "NVCV_DATA_TYPE_C128");
   (NVCV_DATA_TYPE_2C128, "NVCV_DATA_TYPE_2C128")].

(** [operator<<(ostream, DataType)]. *)
Definition print_DataType (type : Z) : string :=
  match enum_lookup names_NVCVDataType type with
  | Some n => n
  | None => "NVCVDataType(" +:+ GetName_NVCVDataKind (DataType.dataKind type) +:+ ","
            +:+ GetName_NVCVPacking (DataType.packing type) +:+ ")"
  end.

Definition names_NVCVImageFormat : list (Z * string) :=
  [(NVCV_IMAGE_FORMAT_NONE, "NVCV_IMAGE_FORMAT_NONE");
   (NVCV_IMAGE_FORMAT_U8, "NVCV_IMAGE_FORMAT_U8");
   (NVCV_IMAGE_FORMAT_U8_BL, "NVCV_IMAGE_FORMAT_U8_BL");
   (NVCV_IMAGE_FORMAT_S8, "NVCV_IMAGE_FORMAT_S8");
   (NVCV_IMAGE_FORMAT_U16, "NVCV_IMAGE_FORMAT_U16");
   (NVCV_IMAGE_FORMAT_S16, "NVCV_IMAGE_FORMAT_S16");
   (NVCV_IMAGE_FORMAT_S16_BL, "NVCV_IMAGE_FORMAT_S16_BL");
   (NVCV_IMAGE_FORMAT_U32, "NVCV_IMAGE_FORMAT_U32");
   (NVCV_IMAGE_FORMAT_S32, "NVCV_IMAGE_FORMAT_S32");
   (NVCV_IMAGE_FORMAT_Y8, "NVCV_IMAGE_FORMAT_Y8");
   (NVCV_IMAGE_FORMAT_Y8_BL, "NVCV_IMAGE_FORMAT_Y8_BL");
   (NVCV_IMAGE_FORMAT_Y8_ER, "NVCV_IMAGE_FORMAT_Y8_ER");
   (NVCV_IMAGE_FORMAT_Y8_ER_BL, "NVCV_IMAGE_FORMAT_Y8_ER_BL");
   (NVCV_IMAGE_FORMAT_Y16, "NVCV_IMAGE_FORMAT_Y16");
   (NVCV_IMAGE_FORMAT_Y16_BL, "NVCV_IMAGE_FORMAT_Y16_BL");
   (NVCV_IMAGE_FORMAT_Y16_ER, "NVCV_IMAGE_FORMAT_Y16_ER");
   (NVCV_IMAGE_FORMAT_Y16_ER_BL, "NVCV_IMAGE_FORMAT_Y16_ER_BL");
   (NVCV_IMAGE_FORMAT_NV12, "NVCV_IMAGE_FORMAT_NV12");
   (NVCV_IMAGE_FORMAT_NV12_BL, "NVCV_IMAGE_FORMAT_NV12_BL");
   (NVCV_IMAGE_FORMAT_NV12_ER, "NVCV_IMAGE_FORMAT_NV12_ER");
   (NVCV_IMAGE_FORMAT_NV12_ER_BL, "NVCV_IMAGE_FORMAT_NV12_ER_BL");
   (NVCV_IMAGE_FORMAT_NV24, "NVCV_IMAGE_FORMAT_NV24");
   (NVCV_IMAGE_FORMAT_NV24_BL, "NVCV_IMAGE_FORMAT_NV24_BL");
   (NVCV_IMAGE_FORMAT_NV24_ER, "NVCV_IMAGE_FORMAT_NV24_ER");
   (NVCV_IMAGE_FORMAT_NV24_ER_BL, "NVCV_IMAGE_FORMAT_NV24_ER_BL");
   (NVCV_IMAGE_FORMAT_RGB8, "NVCV_IMAGE_FORMAT_RGB8");
   (NVCV_IMAGE_FORMAT_RGBA8, "NVCV_IMAGE_FORMAT_RGBA8");
   (NVCV_IMAGE_FORMAT_BGR8, "NVCV_IMAGE_FORMAT_BGR8");
   (NVCV_IMAGE_FORMAT_BGRA8, "NVCV_IMAGE_FORMAT_BGRA8");
   (NVCV_IMAGE_FORMAT_F32, "NVCV_IMAGE_FORMAT_F32");
   (NVCV_IMAGE_FORMAT_F64, "NVCV_IMAGE_FORMAT_F64");
   (NVCV_IMAGE_FORMAT_2S16, "NVCV_IMAGE_FORMAT_2S16");
   (NVCV_IMAGE_FORMAT_2S16_BL, "NVCV_IMAGE_FORMAT_2S16_BL");
   (NVCV_IMAGE_FORMAT_2F32, "NVCV_IMAGE_FORMAT_2F32");
   (NVCV_IMAGE_FORMAT_C64, "NVCV_IMAGE_FORMAT_C64");
   (NVCV_IMAGE_FORMAT_2C64, "NVCV_IMAGE_FORMAT_2C64");
   (NVCV_IMAGE_FORMAT_C128, "NVCV_IMAGE_FORMAT_C128");
   (NVCV_IMAGE_FORMAT_2C128, "NVCV_IMAGE_FORMAT_2C128");
   (NVCV_IMAGE_FORMAT_UYVY, "NVCV_IMAGE_FORMAT_UYVY");
   (NVCV_IMAGE_FORMAT_UYVY_BL, "NVCV_IMAGE_FORMAT_UYVY_BL");
   (NVCV_IMAGE_FORMAT_UYVY_ER, "NVCV_IMAGE_FORMAT_UYVY_ER");
   (NVCV_IMAGE_FORMAT_UYVY_ER_BL, "NVCV_IMAGE_FORMAT_UYVY_ER_BL");
   (NVCV_IMAGE_FORMAT_VYUY, "NVCV_IMAGE_FORMAT_VYUY");
   (NVCV_IMAGE_FORMAT_VYUY_BL, "NVCV_IMAGE_FORMAT_VYUY_BL");
   (NVCV_IMAGE_FORMAT_VYUY_ER, "NVCV_IMAGE_FORMAT_VYUY_ER");
   (NVCV_IMAGE_FORMAT_VYUY_ER_BL, "NVCV_IMAGE_FORMAT_VYUY_ER_BL");
   (NVCV_IMAGE_FORMAT_YUYV, "NVCV_IMAGE_FORMAT_YUYV");
   (NVCV_IMAGE_FORMAT_YUYV_BL, "NVCV_IMAGE_FORMAT_YUYV_BL");
   (NVCV_IMAGE_FORMAT_YUYV_ER, "NVCV_IMAGE_FORMAT_YUYV_ER");
   (NVCV_IMAGE_FORMAT_YUYV_ER_BL, "NVCV_IMAGE_FORMAT_YUYV_ER_BL");
   (NVCV_IMAGE_FORMAT_YUV8p, "NVCV_IMAGE_FORMAT_YUV8p");
   (NVCV_IMAGE_FORMAT_YUV8p_ER, "NVCV_IMAGE_FORMAT_YUV8p_ER");
   (NVCV_IMAGE_FORMAT_RGB8_1U_U8, "NVCV_IMAGE_FORMAT_RGB8_1U_U8");
   (NVCV_IMAGE_FORMAT_RGB8_7U_U8, "NVCV_IMAGE_FORMAT_RGB8_7U_U8");
   (NVCV_IMAGE_FORMAT_RGBA8_3U_U16, "NVCV_IMAGE_FORMAT_RGBA8_3U_U16");
   (NVCV_IMAGE_FORMAT_RGBA8_3POS3D_U32, "NVCV_IMAGE_FORMAT_RGBA8_3POS3D_U32");
   (NVCV_IMAGE_FORMAT_RGB8_3D_F32, "NVCV_IMAGE_FORMAT_RGB8_3D_F32");
   (NVCV_IMAGE_FORMAT_YCCK8, "NVCV_IMAGE_FORMAT_YCCK8");
   (NVCV_IMAGE_FORMAT_CMYK8, "NVCV_IMAGE_FORMAT_CMYK8");
   (NVCV_IMAGE_FORMAT_HSV8, "NVCV_IMAGE_FORMAT_HSV8");
   (NVCV_IMAGE_FORMAT_RGBAf32, "NVCV_IMAGE_FORMAT_RGBAf32");
   (NVCV_IMAGE_FORMAT_RGBAf32p, "NVCV_IMAGE_FORMAT_RGBAf32p")].

(** [operator<<(ostream, ImageFormat)]. *)
Definition print_ImageFormat (fmt : Z) : string :=
  match enum_lookup names_NVCVImageFormat fmt with
  | Some n => n
  | None =>
      let model := ImageFormat.colorModel fmt in
      let ex := ImageFormat.extraChannelInfo fmt in
      "NVCVImageFormat(" +:+ GetName_NVCVColorModel model +:+ ","
      +:+ (if model =? NVCV_COLOR_MODEL_RAW then
             match ImageFormat.rawPattern fmt with Some raw => GetName_NVCVRawPattern raw +:+ "," | None => "" end
           else if model =? NVCV_COLOR_MODEL_YCbCr then
             print_ColorSpec (ImageFormat.colorSpec fmt) +:+ ","
             +:+ GetName_NVCVChromaSubsampling (ImageFormat.css fmt) +:+ ","
           else if model =? NVCV_COLOR_MODEL_UNDEFINED then ""
           else print_ColorSpec (ImageFormat.colorSpec fmt) +:+ ",")%Z
      +:+ GetName_NVCVMemLayout (ImageFormat.memLayout fmt) +:+ ","
      +:+ GetName_NVCVDataKind (ImageFormat.dataKind fmt) +:+ ","
      +:+ GetName_NVCVSwizzle (ImageFormat.swizzle fmt) +:+ ","
      +:+ GetName_NVCVAlphaType (ImageFormat.alphaType fmt)
      +:+ (if (0 <? xc_numChannels ex)%Z then
             "," +:+ pretty (xc_numChannels ex) +:+ "," +:+ pretty (xc_bitsPerPixel ex) +:+ ","
             +:+ GetName_NVCVDataKind (xc_datakind ex) +:+ "," +:+ GetName_NVCVExtraChannel (xc_channelType ex)
           else "")
      +:+ String.concat "" ((fun i => "," +:+ GetName_NVCVPacking (planePacking fmt i))
                            <$> zrange 0 (ImageFormat.numPlanes fmt))
      +:+ ")"
  end.

#[local] Close Scope string_scope.
