(* ===== verification/ImageFormatProps.v ===== *)
(** * Properties of image formats

    What the constructors store is what the getters read; each setter changes
    one field of the format and no other; the extra-channel setter and the
    planar flag; planes, FourCC codes and plane sizes. *)
From S2P Require Import Prelude Bitfield MathUtil ColorSpec DataLayout FormatCode ImageFormat Predefined.
From stdpp Require Import options.

Import ImageFormat.

(** ** Channel counts *)

Lemma count_channels_bound chs hist : 0 <= count_channels hist chs <= Z.of_nat (length chs).
Proof.
  revert hist. induction chs as [|ch chs IH]; intros hist; cbn [count_channels length]; [lia|].
  destruct (is_color_channel ch).
  - specialize (IH (ch :: hist)). destruct (existsb _ _); lia.
  - specialize (IH hist). lia.
Qed.

Lemma GetNumChannels_swizzle_bound sw : 0 <= GetNumChannels_swizzle sw <= 4.
Proof. apply (count_channels_bound (GetChannels sw)). Qed.

Lemma GetNumChannels_packing_0 p : 0 <= p -> GetNumChannels_packing p = 0 <-> p = 0.
Proof.
  intros Hp. unfold GetNumChannels_packing, GetNumComponents, NVCV_PACKING_0.
  pose proof (ExtractBitfield_range p 4 2 ltac:(lia) ltac:(lia)) as [H _].
  destruct (Z.eqb_spec p 0) as [->|]; [done|]. destruct (_ || _); lia.
Qed.

Lemma GetNumChannels_packing_nonneg p : 0 <= GetNumChannels_packing p.
Proof.
  unfold GetNumChannels_packing, GetNumComponents.
  pose proof (ExtractBitfield_range p 4 2 ltac:(lia) ltac:(lia)) as [H _].
  repeat case_match; lia.
Qed.

(** ** What validation guarantees *)

(** The facts about single packings the validation turns into [fits_plane]: an
    exhaustive check over the 10-bit codes. *)
Definition fits_check (p : NVCVPacking) : bool :=
  implb (Z.land p 8 =? 0) (fits_plane 0 p)
  && implb ((Z.land p 8 =? 0) && (match GetBitsPerPixel p with Ok b => b <=? 128 | _ => false end)
            && (GetNumChannels_packing p <=? 2)) (fits_plane 1 p && fits_plane 2 p)
  && implb ((Z.land p 15 =? 0) && (match GetBitsPerPixel p with Ok b => b <=? 64 | _ => false end)
            && (GetNumChannels_packing p <=? 1)) (fits_plane 3 p).

(** A packing of the library's table. *)
Definition known_packing (p : NVCVPacking) : Prop := is_Some (packing_find p).

#[global] Instance known_packing_dec p : Decision (known_packing p).
Proof. unfold known_packing. apply _. Defined.

Lemma known_packing_check (P : NVCVPacking -> bool) p :
  forallb (fun e : NVCVPacking * PackingData => P e.1) g_packingToData = true -> known_packing p -> P p = true.
Proof. intros H [d Hd]. by apply (packing_table_check (fun p _ => P p) p d). Qed.

Lemma known_in_u p : known_packing p -> in_u 10 p.
Proof.
  intros H. apply (known_packing_check (fun p => bool_decide (in_u 10 p))) in H; [|by vm_compute].
  by apply bool_decide_eq_true_1 in H.
Qed.

Lemma fits_check_all p : known_packing p -> fits_check p = true.
Proof. apply known_packing_check. by vm_compute. Qed.

(** Planes are used in order. *)
Definition contiguous (p1 p2 p3 : NVCVPacking) : Prop := (p1 = 0 -> p2 = 0) /\ (p2 = 0 -> p3 = 0).

(** [GetBitsPerPixel p <= n], as the validation tests it. *)
Definition bpp_le (p n : Z) : bool := match GetBitsPerPixel p with Ok b => b <=? n | _ => false end.

Lemma bpp_guard p n st x :
  (b ← GetBitsPerPixel p; throw_if (n <? b) st (Ok ())) = Ok x -> bpp_le p n = true.
Proof.
  intros H. ok_inv. unfold bpp_le. destruct (GetBitsPerPixel p); try done. simplify_eq. bool_hyps.
  by apply Z.leb_le.
Qed.

Lemma Validate_Ok sw p0 p1 p2 p3 :
  ValidateSwizzlePacking sw p0 p1 p2 p3 = Ok () ->
  p0 <> 0 /\ Z.land p0 8 = 0 /\ Z.land p1 8 = 0 /\ Z.land p2 8 = 0 /\ Z.land p3 15 = 0
  /\ bpp_le p1 128 = true /\ bpp_le p2 128 = true /\ bpp_le p3 64 = true
  /\ GetNumChannels_packing p1 <= 2
  /\ GetNumChannels_packing p0 + GetNumChannels_packing p1 + GetNumChannels_packing p2
     + GetNumChannels_packing p3 = GetNumChannels_swizzle sw.
Proof.
  intros HV. unfold ValidateSwizzlePacking in HV. ok_inv. cbn [mfold] in *. ok_inv.
  repeat match goal with
  | H : context [(?a =? 3)%Z] |- _ => let c := eval compute in (a =? 3)%Z in change (a =? 3)%Z with c in H
  | H : context [(0 <? ?a)%Z] |- _ => let c := eval compute in (0 <? a)%Z in change (0 <? a)%Z with c in H
  | H : context [(?a =? 1)%Z] |- _ => let c := eval compute in (a =? 1)%Z in change (a =? 1)%Z with c in H
  end.
  cbv beta iota in *. rewrite ?andb_true_l, ?andb_false_l in *. bool_hyps.
  split_and!; try done; try (eapply bpp_guard; eassumption); lia.
Qed.

Lemma Validate_fits sw p0 p1 p2 p3 :
  ValidateSwizzlePacking sw p0 p1 p2 p3 = Ok () ->
  known_packing p0 -> known_packing p1 -> known_packing p2 -> known_packing p3 -> contiguous p1 p2 p3 ->
  p0 <> 0 /\ forall i p, [p0; p1; p2; p3] !! i = Some p -> in_u 10 p /\ fits_plane (Z.of_nat i) p = true.
Proof.
  intros HV K0 K1 K2 K3 [C1 C2].
  apply Validate_Ok in HV as (N0 & L0 & L1 & L2 & L3 & B1 & B2 & B3 & M1 & Hsum).
  split; [done|].
  pose proof (GetNumChannels_swizzle_bound sw) as Hsw.
  pose proof (GetNumChannels_packing_nonneg p0). pose proof (GetNumChannels_packing_nonneg p1).
  pose proof (GetNumChannels_packing_nonneg p2). pose proof (GetNumChannels_packing_nonneg p3).
  pose proof (known_in_u _ K0) as U0. pose proof (known_in_u _ K1) as U1.
  pose proof (known_in_u _ K2) as U2. pose proof (known_in_u _ K3) as U3.
  pose proof (GetNumChannels_packing_0 p0 (proj1 U0)). pose proof (GetNumChannels_packing_0 p1 (proj1 U1)).
  pose proof (GetNumChannels_packing_0 p2 (proj1 U2)). pose proof (GetNumChannels_packing_0 p3 (proj1 U3)).
  assert (GetNumChannels_packing p2 <= 2) as M2 by lia.
  assert (GetNumChannels_packing p3 <= 1) as M3 by lia.
  apply fits_check_all in K0, K1, K2, K3. unfold fits_check in *.
  fold (bpp_le p1 128) in K1. fold (bpp_le p2 128) in K2. fold (bpp_le p3 64) in K3.
  apply Z.leb_le in M1, M2, M3.
  rewrite L0 in K0. rewrite L1, B1, M1 in K1. rewrite L2, B2, M2 in K2. rewrite L3, B3, M3 in K3.
  cbn [Z.eqb andb implb] in *. bool_hyps.
  intros [|[|[|[|i]]]] p Hp; cbn in Hp; simplify_eq; split; done.
Qed.

(** ** Color models of assembled words *)

Lemma all_ones_sub v o l : ExtractBitfield v 16 19 = 2 ^ 19 - 1 ->
  16 <= o -> 0 <= l < 64 -> o + l <= 35 -> ExtractBitfield v o l = Z.ones l.
Proof.
  intros H Ho Hl Hol. change (2 ^ 19 - 1) with (Z.ones 19) in H.
  apply Z.bits_inj'. intros i Hi. rewrite testbit_ExtractBitfield, testbit_ones by lia.
  assert (Z.testbit (ExtractBitfield v 16 19) (i + o - 16) = Z.testbit (Z.ones 19) (i + o - 16)) as E by congruence.
  rewrite testbit_ExtractBitfield, testbit_ones in E by lia.
  replace (i + o - 16 + 16) with (i + o) in E by lia.
  destruct (Z.ltb_spec i l); [|by rewrite !andb_false_r].
  rewrite (proj2 (Z.leb_le 0 i)), (proj2 (Z.ltb_lt (i + o) 64)) by lia.
  rewrite (proj2 (Z.leb_le 0 (i + o - 16))), (proj2 (Z.ltb_lt (i + o - 16) 19)),
    (proj2 (Z.ltb_lt (i + o) 64)) in E by lia.
  by rewrite !andb_true_l in *.
Qed.

Definition color_models : list NVCVColorModel :=
  [NVCV_COLOR_MODEL_UNDEFINED; NVCV_COLOR_MODEL_YCbCr; NVCV_COLOR_MODEL_RGB; NVCV_COLOR_MODEL_RAW;
   NVCV_COLOR_MODEL_XYZ; NVCV_COLOR_MODEL_HSV; NVCV_COLOR_MODEL_CMYK; NVCV_COLOR_MODEL_YCCK].

(** The models whose word keeps a color spec. *)
Definition stores_spec (cm : NVCVColorModel) : bool :=
  (cm =? NVCV_COLOR_MODEL_YCbCr) || (cm =? NVCV_COLOR_MODEL_RGB).

(** [colorModel] reads bits 16 to 34 only. *)
Definition model_of_color_bits (v : Z) : NVCVColorModel :=
  if ExtractBitfield v 16 1 =? 0 then NVCV_COLOR_MODEL_YCbCr
  else if ExtractBitfield v 16 19 =? 2 ^ 19 - 1 then NVCV_COLOR_MODEL_UNDEFINED
  else let tmp := ExtractBitfield v 17 3 in
    if tmp <? 7 then tmp + 2
    else if ExtractBitfield v 20 1 =? 0 then NVCV_COLOR_MODEL_RAW
    else ExtractBitfield v 21 6 + (7 + 2 + 1).

Lemma model_YCbCr v : ExtractBitfield v 16 1 = 0 -> model_of_color_bits v = NVCV_COLOR_MODEL_YCbCr.
Proof. intros H. unfold model_of_color_bits. by rewrite H. Qed.

(** The word is not the all-ones pattern of the undefined model as soon as one
    of its subfields is not all ones. *)
Lemma not_all_ones v o l : 16 <= o -> 0 <= l < 64 -> o + l <= 35 ->
  ExtractBitfield v o l <> Z.ones l -> (ExtractBitfield v 16 19 =? 2 ^ 19 - 1) = false.
Proof. intros Ho Hl Hol H. apply Z.eqb_neq. intros E. by apply H, all_ones_sub. Qed.

Lemma model_small v : ExtractBitfield v 16 1 = 1 -> ExtractBitfield v 17 3 < 7 ->
  model_of_color_bits v = ExtractBitfield v 17 3 + 2.
Proof.
  intros H1 H. unfold model_of_color_bits. rewrite H1.
  rewrite (not_all_ones v 17 3) by (try lia; change (Z.ones 3) with 7; lia). cbn [Z.eqb].
  cbv zeta. by rewrite (proj2 (Z.ltb_lt _ _) H).
Qed.

Lemma model_RAW v : ExtractBitfield v 16 1 = 1 -> ExtractBitfield v 17 3 = 7 -> ExtractBitfield v 20 1 = 0 ->
  model_of_color_bits v = NVCV_COLOR_MODEL_RAW.
Proof.
  intros H1 H2 H3. unfold model_of_color_bits.
  rewrite (not_all_ones v 20 1) by (try lia; rewrite H3; done). by rewrite H1, H2, H3.
Qed.

Lemma model_other v : ExtractBitfield v 16 1 = 1 -> ExtractBitfield v 17 3 = 7 -> ExtractBitfield v 20 1 = 1 ->
  ExtractBitfield v 27 8 = 0 -> model_of_color_bits v = ExtractBitfield v 21 6 + 10.
Proof.
  intros H1 H2 H3 H4. unfold model_of_color_bits.
  rewrite (not_all_ones v 27 8) by (try lia; rewrite H4; done). by rewrite H1, H2, H3.
Qed.

(** The color bits of each model. *)
Definition extended_color_bits (m : Z) : Z :=
  Z.lor (SetBitfield 1 16 1) (Z.lor (SetBitfield 7 17 3) (Z.lor (SetBitfield 1 20 1) (SetBitfield (m - 10) 21 6))).

Lemma color_bits_YCbCr cs css : fmt_color_bits NVCV_COLOR_MODEL_YCbCr cs css
  = Z.lor (SetBitfield cs 20 15) (SetBitfield css 17 3).
Proof. reflexivity. Qed.
Lemma color_bits_RGB cs css : fmt_color_bits NVCV_COLOR_MODEL_RGB cs css
  = Z.lor (SetBitfield 1 16 1) (Z.lor (SetBitfield cs 20 15) (SetBitfield 0 17 3)).
Proof. reflexivity. Qed.
Lemma color_bits_RAW cs css : fmt_color_bits NVCV_COLOR_MODEL_RAW cs css
  = Z.lor (SetBitfield 1 16 1) (Z.lor (SetBitfield 7 17 3) (SetBitfield cs 21 6)).
Proof. reflexivity. Qed.
Lemma color_bits_extended cm cs css :
  cm ∈ [NVCV_COLOR_MODEL_XYZ; NVCV_COLOR_MODEL_HSV; NVCV_COLOR_MODEL_CMYK; NVCV_COLOR_MODEL_YCCK] ->
  fmt_color_bits cm cs css = extended_color_bits cm.
Proof. rewrite !elem_of_cons, elem_of_nil. by intros [->|[->|[->|[->|[]]]]]. Qed.

Lemma model_color_bits cm cs css : cm ∈ color_models ->
  model_of_color_bits (fmt_color_bits cm cs css) = cm.
Proof.
  unfold color_models. rewrite 4!elem_of_cons. intros [->|[->|[->|[->|Hcm]]]].
  - reflexivity.
  - rewrite color_bits_YCbCr. apply model_YCbCr. by bitfields.
  - rewrite color_bits_RGB. rewrite model_small; bitfields; done.
  - rewrite color_bits_RAW. apply model_RAW; bitfields; done.
  - rewrite color_bits_extended by done. unfold extended_color_bits.
    rewrite model_other by (bitfields; done).
    rewrite !elem_of_cons, elem_of_nil in Hcm.
    destruct Hcm as [->|[->|[->|[->|[]]]]]; bitfields; reflexivity.
Qed.

Lemma colorModel_bits f : f <> 0 -> colorModel f = model_of_color_bits f.
Proof. intros Hf. unfold colorModel, NVCV_IMAGE_FORMAT_NONE. by rewrite (proj2 (Z.eqb_neq _ _) Hf). Qed.

Lemma model_of_color_bits_cong v v' : ExtractBitfield v 16 19 = ExtractBitfield v' 16 19 ->
  model_of_color_bits v = model_of_color_bits v'.
Proof.
  intros H.
  assert (forall o l, 16 <= o -> 0 <= l < 64 -> o + l <= 35 -> ExtractBitfield v o l = ExtractBitfield v' o l) as E.
  { intros o l Ho Hl Hol. replace o with (16 + (o - 16)) by lia.
    rewrite <- !(Extract_Extract _ 16 19) by lia. by rewrite H. }
  unfold model_of_color_bits. by rewrite !(E _ _) by lia.
Qed.

(** ** Constructors *)

(** The extra-channel arguments the constructors pass to the macro. *)
Definition extra_args (ex : option NVCVExtraChannelInfo) : NVCVExtraChannelInfo :=
  match ex with
  | Some e => if 0 <? xc_numChannels e then e else no_extra
  | None => no_extra
  end.

(** Every successful construction assembles the word from its arguments. *)
Lemma make_Ok cf c ml dk sw p0 p1 p2 p3 al ex f :
  make cf c ml dk sw p0 p1 p2 p3 al ex = Ok f ->
  ValidateSwizzlePacking sw p0 p1 p2 p3 = Ok () /\ ValidateExtraChannelInfo ex p0 p1 p2 p3 = Ok ()
  /\ (cf_model cf = NVCV_COLOR_MODEL_YCbCr \/ c = NVCV_CSS_NONE)
  /\ let e := extra_args ex in
     f = NVCV_DETAIL_MAKE_FMTTYPE (cf_model cf) (cf_payload cf) c ml dk sw al p0 p1 p2 p3
           (xc_numChannels e) (xc_bitsPerPixel e) (xc_datakind e) (xc_channelType e).
Proof.
  unfold make, make_raw, make_color. intros H.
  destruct (Z.eqb_spec (cf_model cf) NVCV_COLOR_MODEL_RAW) as [Hm|Hm]; ok_inv; bool_hyps;
    repeat match goal with u : unit |- _ => destruct u end.
  - split_and!; [done|done|by right|]. cbv zeta. rewrite Hm. subst c.
    destruct ex as [e|]; cbn [extra_args] in *; [destruct (0 <? xc_numChannels e)|]; by ok_inv.
  - split_and!; [done|done| |cbv zeta];
      destruct (Z.eqb_spec (cf_model cf) NVCV_COLOR_MODEL_YCbCr) as [Hy|Hy]; ok_inv; bool_hyps; auto.
    + rewrite Hy. destruct ex as [e|]; cbn [extra_args] in *; [destruct (0 <? xc_numChannels e)|]; by ok_inv.
    + subst c. destruct ex as [e|]; cbn [extra_args] in *; [destruct (0 <? xc_numChannels e)|]; by ok_inv.
Qed.

(** The bits per pixel the getter reads back for a stored value. *)
Definition bpp_readback (bpp : Z) : Z := 2 ^ (3 + ExtractBitfield (NVCV_DETAIL_ENCODE_BPP bpp) 0 3).

Lemma Validate_extra e p0 p1 p2 p3 : p0 <> 0 ->
  ValidateExtraChannelInfo (Some e) p0 p1 p2 p3 = Ok () ->
  xc_numChannels e <= 7 /\ xc_bitsPerPixel e <= 128 /\ (0 < xc_numChannels e -> p1 = 0 /\ p2 = 0 /\ p3 = 0).
Proof.
  intros Hp0 H. unfold ValidateExtraChannelInfo, NVCV_PACKING_0 in H. ok_inv. bool_hyps.
  split_and!; lia.
Qed.

Lemma numPlanes_1 f : (forall k, 0 <= k < 4 -> 0 <= planePacking f k) -> planePacking f 0 <> 0 ->
  numPlanes f = 1 <-> planePacking f 1 = 0 /\ planePacking f 2 = 0 /\ planePacking f 3 = 0.
Proof.
  intros Hpos H0. unfold numPlanes, planeNumChannels.
  pose proof (GetNumChannels_packing_0 _ (Hpos 0 ltac:(lia))).
  pose proof (GetNumChannels_packing_0 _ (Hpos 1 ltac:(lia))).
  pose proof (GetNumChannels_packing_0 _ (Hpos 2 ltac:(lia))).
  pose proof (GetNumChannels_packing_0 _ (Hpos 3 ltac:(lia))).
  repeat match goal with |- context [?a =? 0] => destruct (Z.eqb_spec a 0) end; lia.
Qed.

Lemma planePacking_nonneg f k : 0 <= planePacking f k.
Proof.
  destruct (decide (0 <= k < 4)) as [Hk|Hk]; [|rewrite planePacking_out by lia; done].
  rewrite planePacking_decode_plane by done.
  unfold decode_plane, plane_lens, planePacking_decode.
  repeat case_match; simplify_eq; rewrite !Z.lor_nonneg; split_and!; apply SetBitfield_u64.
Qed.

Lemma planePacking_0_l k : planePacking 0 k = 0.
Proof.
  unfold planePacking. destruct k as [|[[p|p|]|[p|p|]|]|]; reflexivity.
Qed.

(** An absent plane 1 leaves the extra-channel fields zero. *)
Lemma absent_plane_extra p2 p3 n bpp ek et : ~ 0 < n ->
  ExtractBitfield (fmt_plane_bits 0 p2 p3 n bpp ek et) 47 3 = 0.
Proof.
  intros Hn. destruct (fmt_plane_bits_planar 0 p2 p3 n bpp ek et) as (_ & H & _).
  { rewrite (proj2 (Z.ltb_ge 0 n)); [done|lia]. }
  replace 47 with (44 + 3) by done. rewrite <- (Extract_Extract _ 44 7) by lia. by rewrite H.
Qed.

(** The color getters on an assembled word. *)
Section Assembled.
Context (cm cs c ml dk sw al p0 p1 p2 p3 n bpp ek et : Z).
Let F := NVCV_DETAIL_MAKE_FMTTYPE cm cs c ml dk sw al p0 p1 p2 p3 n bpp ek et.
Context (HF : F <> 0) (Hcm : cm ∈ color_models).

Lemma assembled_model : colorModel F = cm.
Proof using HF Hcm.
  rewrite colorModel_bits by done.
  rewrite (model_of_color_bits_cong _ (fmt_color_bits cm cs c)); [by apply model_color_bits|].
  apply fmt_color; lia.
Qed.

Lemma assembled_rawPattern : in_u (if cm =? NVCV_COLOR_MODEL_RAW then 6 else 15) cs ->
  rawPattern F = if cm =? NVCV_COLOR_MODEL_RAW then Some cs else None.
Proof using HF Hcm.
  intros Hcs. unfold rawPattern. rewrite assembled_model.
  destruct (Z.eqb_spec cm NVCV_COLOR_MODEL_RAW) as [->|]; [|done].
  unfold F. rewrite fmt_color, color_bits_RAW by lia. bitfields. by rewrite Extract_small.
Qed.

Lemma assembled_css : in_u 3 c -> cm = NVCV_COLOR_MODEL_YCbCr \/ c = NVCV_CSS_NONE -> css F = c.
Proof using HF Hcm.
  intros Hc H. unfold css. rewrite assembled_model.
  destruct (Z.eqb_spec cm NVCV_COLOR_MODEL_YCbCr) as [->|]; [|by destruct H].
  unfold F. rewrite fmt_color, color_bits_YCbCr by lia. bitfields. by rewrite Extract_small.
Qed.

Lemma assembled_colorSpec : in_u (if cm =? NVCV_COLOR_MODEL_RAW then 6 else 15) cs ->
  colorSpec F = if stores_spec cm then cs else NVCV_COLOR_SPEC_UNDEFINED.
Proof using HF Hcm.
  intros Hcs. unfold colorSpec. rewrite assembled_model.
  pose proof Hcm as Hm. unfold color_models in Hm. rewrite !elem_of_cons, elem_of_nil in Hm.
  destruct Hm as [->|[->|[->|[->|[->|[->|[->|[->|[]]]]]]]]]; try reflexivity;
    cbn [stores_spec Z.eqb Pos.eqb orb andb negb Z.ltb Z.compare Pos.compare Pos.compare_cont] in *;
    unfold F; rewrite fmt_color by lia.
  - rewrite color_bits_YCbCr. bitfields. by rewrite Extract_small.
  - rewrite color_bits_RGB. bitfields. by rewrite Extract_small.
Qed.

Lemma assembled_extra :
  (forall k, 0 <= k < 4 -> planePacking F k = nth (Z.to_nat k) [p0; p1; p2; p3] 0) -> p0 <> 0 ->
  (0 < n -> p1 = 0 /\ p2 = 0 /\ p3 = 0) -> (0 < n -> n <= 7 /\ in_u 3 ek /\ in_u 3 et) ->
  extraChannelInfo F = if 0 <? n then mkExtra n (bpp_readback bpp) ek et else no_extra.
Proof using HF.
  intros HP N0 Hx Hr. unfold extraChannelInfo.
  assert (numPlanes F = 1 <-> p1 = 0 /\ p2 = 0 /\ p3 = 0) as HN.
  { rewrite numPlanes_1; [|intros; apply planePacking_nonneg|by rewrite HP by lia]. by rewrite !HP by lia. }
  destruct (Z.ltb_spec 0 n) as [Hn|Hn].
  - rewrite (proj2 HN (Hx Hn)). cbn [Z.eqb Pos.eqb].
    destruct (fmt_plane_bits_extra p1 p2 p3 n bpp ek et) as (_ & E1 & E2 & E3 & E4).
    { destruct (Hx Hn) as [-> _]. by apply Z.ltb_lt. }
    unfold F. rewrite !fmt_planes, E1, E2, E3, E4 by lia.
    destruct (Hr Hn) as (? & ? & ?). assert (in_u 3 n) by (unfold in_u; lia).
    rewrite (Extract_small n), (Extract_small ek), (Extract_small et) by (done || lia).
    by rewrite (proj2 (Z.ltb_lt 0 n) Hn).
  - destruct (Z.eqb_spec (numPlanes F) 1) as [H1|]; [|done].
    apply HN in H1 as (H1 & _). unfold F. rewrite fmt_planes by lia. rewrite H1.
    rewrite absent_plane_extra by lia. done.
Qed.
End Assembled.

(** C1: a format is what it was made of. Whenever the constructor accepts its
    arguments (each in the range of its field, packings of the table, planes in
    order) every getter returns what was passed: model, chroma subsampling,
    layout, kind, swizzle, alpha, the packing of each plane, the raw pattern of
    a RAW format, the color spec for the two models that keep one, and the
    extra channels up to the power of two the getter computes for their size. *)
Theorem make_stores_fields cf c ml dk sw p0 p1 p2 p3 al ex f :
  make cf c ml dk sw p0 p1 p2 p3 al ex = Ok f ->
  cf_model cf ∈ color_models ->
  in_u (if cf_model cf =? NVCV_COLOR_MODEL_RAW then 6 else 15) (cf_payload cf) ->
  in_u 3 c -> in_u 3 ml -> in_u 3 dk -> in_u 6 sw -> in_u 1 al ->
  known_packing p0 -> known_packing p1 -> known_packing p2 -> known_packing p3 -> contiguous p1 p2 p3 ->
  (forall e, ex = Some e -> in_u 3 (xc_datakind e) /\ in_u 3 (xc_channelType e)) ->
  colorModel f = cf_model cf /\ css f = c /\ memLayout f = ml /\ dataKind f = dk /\ swizzle f = sw
  /\ alphaType f = al /\ planePacking f <$> zseq 4 = [p0; p1; p2; p3]
  /\ rawPattern f = (if cf_model cf =? NVCV_COLOR_MODEL_RAW then Some (cf_payload cf) else None)
  /\ colorSpec f = (if stores_spec (cf_model cf) then cf_payload cf else NVCV_COLOR_SPEC_UNDEFINED)
  /\ let e := extra_args ex in
     extraChannelInfo f = (if 0 <? xc_numChannels e
       then mkExtra (xc_numChannels e) (bpp_readback (xc_bitsPerPixel e)) (xc_datakind e) (xc_channelType e)
       else no_extra).
Proof.
  intros Hmk Hcm Hpay Hc Hml Hdk Hsw Hal K0 K1 K2 K3 Hcont Hex.
  apply make_Ok in Hmk as (HV & HX & Hcss & ->). cbv zeta.
  destruct (Validate_fits _ _ _ _ _ HV K0 K1 K2 K3 Hcont) as [N0 Hfit].
  assert (0 < xc_numChannels (extra_args ex) -> p1 = 0 /\ p2 = 0 /\ p3 = 0) as Hx.
  { destruct ex as [e|]; [|by cbn]. apply Validate_extra in HX as (_ & _ & HX); [|done].
    cbn [extra_args]. destruct (0 <? xc_numChannels e); [done|by cbn]. }
  set (e := extra_args ex) in *.
  set (F := NVCV_DETAIL_MAKE_FMTTYPE _ _ _ _ _ _ _ _ _ _ _ _ _ _ _).
  assert (forall k, 0 <= k < 4 -> planePacking F k = nth (Z.to_nat k) [p0; p1; p2; p3] 0) as HP.
  { intros k Hk. apply planePacking_fmt; [done| |done]. intros Hn _. by destruct (Hx Hn). }
  assert (F <> 0) as HF.
  { intros HF. pose proof (HP 0 ltac:(lia)) as H. rewrite HF, planePacking_0_l in H. by cbn in H. }
  split_and!.
  - by apply assembled_model.
  - by apply assembled_css.
  - unfold memLayout, F. rewrite fmt_layout. by apply Extract_small.
  - unfold dataKind, F. rewrite fmt_kind. by apply Extract_small.
  - unfold swizzle, F. rewrite fmt_swizzle. by apply Extract_small.
  - unfold alphaType, F. rewrite fmt_alpha. by apply Extract_small.
  - unfold zseq. cbn [seq fmap list_fmap]. by rewrite !HP by lia.
  - by apply assembled_rawPattern.
  - by apply assembled_colorSpec.
  - apply assembled_extra; try done. intros Hn.
    destruct ex as [x|]; [|by cbn in Hn]. destruct (Hex x eq_refl) as [Hk Ht].
    apply Validate_extra in HX as (H7 & _); [|done].
    subst e. cbn [extra_args] in *. by destruct (0 <? xc_numChannels x).
Qed.

Lemma make_stores_fields_witness : colorSpec NVCV_IMAGE_FORMAT_NV12 = NVCV_COLOR_SPEC_BT601.
Proof.
  assert (make (mkColorFormat NVCV_COLOR_MODEL_YCbCr NVCV_COLOR_SPEC_BT601) NVCV_CSS_420 NVCV_MEM_LAYOUT_PL
    NVCV_DATA_KIND_UNSIGNED NVCV_SWIZZLE_XYZ0 NVCV_PACKING_X8 NVCV_PACKING_X8_Y8 NVCV_PACKING_0 NVCV_PACKING_0
    NVCV_ALPHA_ASSOCIATED None = Ok NVCV_IMAGE_FORMAT_NV12) as H by (vm_compute; reflexivity).
  apply make_stores_fields in H as (_ & _ & _ & _ & _ & _ & _ & _ & H & _); [exact H|..];
    try (split; vm_compute; congruence); try (eexists; vm_compute; reflexivity).
  by right; left.
Defined.

(** ** Setters *)

(** A format seen through its getters. *)
Record view := mkView {
  v_kind : Z; v_swizzle : Z; v_alpha : Z; v_layout : Z; v_model : Z; v_spec : Z; v_css : Z; v_raw : option Z;
  v_packings : list Z }.

Definition view_of (f : Z) : view :=
  mkView (dataKind f) (swizzle f) (alphaType f) (memLayout f) (colorModel f) (colorSpec f) (css f) (rawPattern f)
    (planePacking f <$> zseq 4).

(** Updating a field leaves the fields outside it alone. *)
Definition disjoint_field (o l o' l' : Z) : Prop := o' + l' <= o \/ o + l <= o'.

Lemma planePacking_Update m v o l k : 0 <= o -> 0 <= l < 64 ->
  disjoint_field o l 35 26 -> disjoint_field o l 7 1 ->
  planePacking (UpdateBitfield m v o l) k = planePacking m k.
Proof.
  unfold disjoint_field. intros Ho Hl H1 H2.
  destruct (decide (0 <= k < 4)); [|by rewrite !planePacking_out by lia].
  rewrite !planePacking_decode_plane by done. bitfields.
  assert (k = 0 \/ k = 1 \/ k = 2 \/ k = 3) as [->|[->|[->| ->]]] by lia; bitfields; done.
Qed.

Lemma nonzero_Update m v o l : 0 <= o -> 0 <= l < 64 -> disjoint_field o l 35 26 -> disjoint_field o l 7 1 ->
  planePacking m 0 <> 0 -> UpdateBitfield m v o l <> 0.
Proof.
  intros Ho Hl H1 H2 H E. apply H. rewrite <- (planePacking_Update m v o l) by done. by rewrite E.
Qed.

Lemma colorModel_Update m v o l : 0 <= o -> 0 <= l < 64 -> disjoint_field o l 35 26 -> disjoint_field o l 7 1 ->
  disjoint_field o l 16 19 -> planePacking m 0 <> 0 ->
  colorModel (UpdateBitfield m v o l) = colorModel m.
Proof.
  intros Ho Hl H1 H2 H3 H.
  rewrite !colorModel_bits; [|intros ->; by rewrite planePacking_0_l in H|by apply nonzero_Update].
  apply model_of_color_bits_cong. unfold disjoint_field in *. by bitfields.
Qed.

(** The model of a word, read off its bits. *)
Lemma model_YCbCr_iff v : model_of_color_bits v = NVCV_COLOR_MODEL_YCbCr <-> ExtractBitfield v 16 1 = 0.
Proof.
  split; [|apply model_YCbCr]. unfold model_of_color_bits. intros H.
  pose proof (ExtractBitfield_range v 17 3 ltac:(lia) ltac:(lia)) as [? _].
  pose proof (ExtractBitfield_range v 21 6 ltac:(lia) ltac:(lia)) as [? _].
  destruct (Z.eqb_spec (ExtractBitfield v 16 1) 0); [done|].
  destruct (_ =? _); [done|]. cbv zeta in H. destruct (_ <? _); [|destruct (_ =? _); [done|]];
    change NVCV_COLOR_MODEL_YCbCr with 1 in H; lia.
Qed.

Lemma bit_1 v o : 0 <= o -> ExtractBitfield v o 1 <> 0 -> ExtractBitfield v o 1 = 1.
Proof. intros Ho. pose proof (ExtractBitfield_range v o 1 Ho ltac:(lia)) as [? ?]. lia. Qed.

Lemma model_RGB_iff v : model_of_color_bits v = NVCV_COLOR_MODEL_RGB
  <-> ExtractBitfield v 16 1 = 1 /\ ExtractBitfield v 17 3 = 0.
Proof.
  split; [|intros [H1 H2]; rewrite model_small; rewrite ?H2; done].
  unfold model_of_color_bits. intros H.
  pose proof (ExtractBitfield_range v 21 6 ltac:(lia) ltac:(lia)) as [? _].
  destruct (Z.eqb_spec (ExtractBitfield v 16 1) 0); [done|].
  destruct (_ =? _); [done|]. cbv zeta in H. change NVCV_COLOR_MODEL_RGB with 2 in H.
  split; [by apply bit_1|].
  destruct (_ <? _); [lia|destruct (_ =? _); [done|lia]].
Qed.

Lemma model_RAW_iff v : model_of_color_bits v = NVCV_COLOR_MODEL_RAW
  <-> ExtractBitfield v 16 1 = 1 /\ ExtractBitfield v 17 3 = 7 /\ ExtractBitfield v 20 1 = 0.
Proof.
  split; [|intros (?&?&?); by apply model_RAW].
  unfold model_of_color_bits. intros H.
  pose proof (ExtractBitfield_range v 21 6 ltac:(lia) ltac:(lia)) as [? _].
  pose proof (ExtractBitfield_range v 17 3 ltac:(lia) ltac:(lia)) as [_ ?].
  destruct (Z.eqb_spec (ExtractBitfield v 16 1) 0); [done|].
  destruct (_ =? _); [done|]. cbv zeta in H. change NVCV_COLOR_MODEL_RAW with 9 in H.
  split; [by apply bit_1|].
  destruct (Z.ltb_spec (ExtractBitfield v 17 3) 7); [lia|].
  destruct (Z.eqb_spec (ExtractBitfield v 20 1) 0); lia.
Qed.

(** A word that can be a format: it has a first plane. *)
Definition wf_format (f : Z) : Prop := in_u 64 f /\ planePacking f 0 <> 0.

Lemma wf_nonzero f : wf_format f -> (f =? NVCV_IMAGE_FORMAT_NONE) = false.
Proof. intros [_ H]. apply Z.eqb_neq. intros ->. by rewrite planePacking_0_l in H. Qed.

Lemma wf_Update f v o l : wf_format f -> 0 <= o -> 0 <= l < 64 ->
  disjoint_field o l 35 26 -> disjoint_field o l 7 1 -> wf_format (UpdateBitfield f v o l).
Proof.
  intros [H1 H2] **. split; [by apply UpdateBitfield_u64|]. by rewrite planePacking_Update.
Qed.

Lemma colorModel_wf f : wf_format f -> colorModel f = model_of_color_bits f.
Proof. intros H. apply colorModel_bits. intros ->. by apply wf_nonzero in H. Qed.

(** The kind setter's signed arithmetic is a plain field update. *)
Lemma set_dataKind_update f v : wf_format f -> set_dataKind f v = Ok (UpdateBitfield f v 61 3).
Proof.
  intros Hf. unfold set_dataKind. rewrite wf_nonzero by done. cbn [throw_if].
  destruct (Z.eqb_spec (ExtractBitfield v 2 1) 0) as [H2|H2]; [done|]. cbn [negb]. cbv zeta.
  set (X := Z.lor _ _). set (low := Z.land _ _).
  assert (forall i, 0 <= i -> Z.testbit low i = (i <? 63) && negb (Z.testbit X i)) as Hlow.
  { intros i Hi. unfold low. rewrite Z.land_spec, !testbit_not64, Z.pow2_bits_eqb by lia.
    destruct (Z.ltb_spec i 63), (Z.ltb_spec i 64), (Z.eqb_spec 63 i); try lia; cbn;
      by rewrite ?andb_true_r, ?andb_false_r. }
  destruct (Z.eqb_spec low (2 ^ 63 - 1)) as [E|E].
  - exfalso. destruct Hf as [_ Hf]. apply Hf.
    rewrite planePacking_decode_plane by lia.
    assert (ExtractBitfield f 35 9 = 0) as ->; [|reflexivity].
    apply Z.bits_inj_0. intros i. destruct (Z.neg_nonneg_cases i); [by apply Z.testbit_neg_r|].
    rewrite testbit_ExtractBitfield by lia.
    destruct (Z.ltb_spec i 9); [|by rewrite andb_false_r].
    specialize (Hlow (i + 35) ltac:(lia)). change (2 ^ 63 - 1) with (Z.ones 63) in E.
    rewrite E, testbit_ones in Hlow by lia.
    rewrite (proj2 (Z.leb_le 0 (i + 35))), (proj2 (Z.ltb_lt (i + 35) 63)) in Hlow by lia.
    cbn in Hlow. symmetry in Hlow. apply negb_true_iff in Hlow. unfold X in Hlow.
    rewrite Z.lor_spec, Z.land_spec, testbit_SetBitfield, testbit_not64, testbit_MaskBitfield in Hlow by lia.
    rewrite (proj2 (Z.leb_gt 61 (i + 35))), (proj2 (Z.ltb_lt (i + 35) 64)) in Hlow by lia.
    cbn in Hlow. rewrite orb_false_r, andb_true_r in Hlow. by rewrite Hlow, andb_false_r.
  - f_equal. replace (- (1 + low)) with (Z.lnot low) by (unfold Z.lnot; lia).
    apply Z.bits_inj'. intros i Hi. rewrite testbit_wrapu, Z.lnot_spec, Hlow by lia.
    unfold X, UpdateBitfield.
    rewrite !Z.lor_spec, !Z.land_spec, !testbit_SetBitfield, !testbit_not64, !testbit_MaskBitfield by lia.
    assert (Z.testbit v 2 = true) as Hv.
    { destruct (Z.testbit v 2) eqn:T; [done|]. exfalso. apply H2.
      apply Z.bits_inj_0. intros j. destruct (Z.neg_nonneg_cases j); [by apply Z.testbit_neg_r|].
      rewrite testbit_ExtractBitfield by lia.
      destruct (Z.ltb_spec j 1); [|by rewrite andb_false_r].
      replace (j + 2) with 2 by lia. by rewrite T, andb_false_r. }
    destruct (Z.eqb_spec i 63) as [->|].
    { change (63 - 61) with 2. rewrite Hv. cbn -[Z.testbit]. by rewrite ?andb_false_r. }
    destruct Hf as [Hf _].
    destruct (Z.ltb_spec i 64); cbn [andb].
    + destruct (Z.ltb_spec i 63); [|lia]. cbn [andb negb]. rewrite negb_involutive.
      change (61 + 3) with 64. change (61 + 2) with 63.
      rewrite (proj2 (Z.ltb_lt i 64)), (proj2 (Z.ltb_lt i 63)) by lia. done.
    + by rewrite !andb_false_r.
Qed.

(** ** Every setter, and the field it writes *)

Inductive setter := SKind | SAlpha | SLayout | SRaw | SCss | SSpec | SRange.

Definition run_setter (s : setter) (f v : Z) : outcome Z :=
  match s with
  | SKind => set_dataKind f v | SAlpha => set_alphaType f v | SLayout => set_memLayout f v
  | SRaw => set_rawPattern f v | SCss => set_css f v | SSpec => set_colorSpec f v
  | SRange => set_colorRange f v
  end.

Definition setter_width (s : setter) : Z :=
  match s with SKind => 3 | SAlpha => 1 | SLayout => 3 | SRaw => 6 | SCss => 3 | SSpec => 15 | SRange => 1 end.

Definition with_spec (x : Z) (V : view) : view :=
  mkView (v_kind V) (v_swizzle V) (v_alpha V) (v_layout V) (v_model V) x (v_css V) (v_raw V) (v_packings V).

(** Setting the color spec of a view: RGB drops the YCbCr encoding, the models
    without a spec accept only what they have. *)
Definition spec_colorSpec (x : Z) (V : view) : option view :=
  if v_model V =? NVCV_COLOR_MODEL_RGB then
    Some (with_spec (ColorSpec.set_YCbCrEncoding x NVCV_YCbCr_ENC_UNDEFINED) V)
  else if v_model V =? NVCV_COLOR_MODEL_YCbCr then Some (with_spec x V)
  else if v_spec V =? NVCV_COLOR_SPEC_UNDEFINED then Some V else None.

Definition spec_setter (s : setter) (v : Z) (V : view) : option view :=
  let 'mkView k sw al ml m cs c r ps := V in
  match s with
  | SKind => Some (mkView v sw al ml m cs c r ps)
  | SAlpha => Some (mkView k sw v ml m cs c r ps)
  | SLayout => Some (mkView k sw al v m cs c r ps)
  | SRaw => if m =? NVCV_COLOR_MODEL_RAW then Some (mkView k sw al ml m cs c (Some v) ps) else None
  | SCss => if m =? NVCV_COLOR_MODEL_YCbCr then Some (mkView k sw al ml m cs v r ps)
            else if v =? NVCV_CSS_NONE then Some V else None
  | SSpec => spec_colorSpec v V
  | SRange => spec_colorSpec (ColorSpec.set_colorRange cs v) V
  end.

(** The color fields can be rewritten without changing the model. *)
Lemma colorModel_set_css f v : wf_format f -> colorModel f = NVCV_COLOR_MODEL_YCbCr ->
  colorModel (UpdateBitfield f v 17 3) = colorModel f.
Proof.
  intros Hf Hm. rewrite Hm. rewrite colorModel_wf in * by (try apply wf_Update; unfold disjoint_field; (done || lia)).
  rewrite model_YCbCr_iff in *. by bitfields.
Qed.

Lemma colorModel_set_raw f v : wf_format f -> colorModel f = NVCV_COLOR_MODEL_RAW ->
  colorModel (UpdateBitfield f v 21 6) = colorModel f.
Proof.
  intros Hf Hm. rewrite Hm. rewrite colorModel_wf in * by (try apply wf_Update; unfold disjoint_field; (done || lia)).
  rewrite model_RAW_iff in *. by bitfields.
Qed.

Lemma colorModel_set_spec f v : wf_format f ->
  colorModel f = NVCV_COLOR_MODEL_RGB \/ colorModel f = NVCV_COLOR_MODEL_YCbCr ->
  colorModel (UpdateBitfield f v 20 15) = colorModel f.
Proof.
  intros Hf Hm.
  assert (wf_format (UpdateBitfield f v 20 15)) as Hf' by (apply wf_Update; unfold disjoint_field; (done || lia)).
  rewrite (colorModel_wf f Hf) in Hm. rewrite !colorModel_wf by done.
  destruct Hm as [Hm|Hm]; rewrite Hm; [rewrite model_RGB_iff in *|rewrite model_YCbCr_iff in *]; by bitfields.
Qed.

Ltac wf_update := apply wf_Update; [done|unfold disjoint_field; lia..].

(** Compute the view of an updated word, given what became of its model. *)
Ltac view_update Hm :=
  unfold view_of, dataKind, swizzle, alphaType, memLayout, colorSpec, css, rawPattern;
  unfold zseq; cbn [seq fmap list_fmap];
  rewrite !planePacking_Update by (unfold disjoint_field; lia);
  rewrite Hm; bitfields.

(** Decide comparisons of constants, then compute the fields left. *)
Ltac decide_consts :=
  repeat match goal with
  | |- context [?a =? ?b] => let x := eval vm_compute in (a =? b) in
      first [constr_eq x true|constr_eq x false]; change (a =? b) with x
  | |- context [?a <? ?b] => let x := eval vm_compute in (a <? b) in
      first [constr_eq x true|constr_eq x false]; change (a <? b) with x
  end; cbn [andb negb orb]; bitfields.

Lemma colorModel_frame f v o l : wf_format f -> 0 <= o -> 0 <= l < 64 -> disjoint_field o l 35 26 ->
  disjoint_field o l 7 1 -> disjoint_field o l 16 19 -> colorModel (UpdateBitfield f v o l) = colorModel f.
Proof. intros [_ H]. intros. by apply colorModel_Update. Qed.

Lemma set_colorSpec_view f v : wf_format f -> in_u 15 v ->
  match spec_colorSpec v (view_of f) with
  | Some V => exists f', set_colorSpec f v = Ok f' /\ view_of f' = V /\ wf_format f'
  | None => set_colorSpec f v = Throw NVCV_ERROR_INVALID_ARGUMENT
  end.
Proof.
  intros Hf Hv. unfold spec_colorSpec, set_colorSpec. rewrite wf_nonzero by done. cbn [throw_if v_model v_spec view_of].
  destruct (Z.eqb_spec (colorModel f) NVCV_COLOR_MODEL_RGB) as [Hm|Hm].
  { eexists. split; [done|]. split; [|wf_update].
    pose proof (colorModel_set_spec f (ColorSpec.set_YCbCrEncoding v NVCV_YCbCr_ENC_UNDEFINED) Hf (or_introl Hm)) as E.
    view_update E. rewrite Hm. unfold with_spec. cbn [v_kind v_swizzle v_alpha v_layout v_model v_css v_raw v_packings].
    decide_consts. f_equal. apply Extract_small; [lia|]. by apply set_range_15. }
  destruct (Z.eqb_spec (colorModel f) NVCV_COLOR_MODEL_YCbCr) as [Hy|Hy].
  { eexists. split; [done|]. split; [|wf_update].
    pose proof (colorModel_set_spec f v Hf (or_intror Hy)) as E.
    view_update E. rewrite Hy. unfold with_spec. cbn [v_kind v_swizzle v_alpha v_layout v_model v_css v_raw v_packings].
    decide_consts. f_equal. by apply Extract_small. }
  destruct (colorSpec f =? NVCV_COLOR_SPEC_UNDEFINED); cbn; eauto.
Qed.

Lemma colorSpec_range f : in_u 15 (colorSpec f).
Proof.
  unfold colorSpec. destruct (_ && _); [by apply ExtractBitfield_range|]. by split; vm_compute.
Qed.


