(* ===== verification/PlaneProps.v ===== *)
(** * Properties of planes, extra channels, FourCC codes and data types *)
From Stdlib Require Import Ascii.
From S2P Require Import Prelude Bitfield MathUtil ColorSpec DataLayout FormatCode ImageFormat Predefined.
From S2P Require Import ImageFormatProps.
From stdpp Require Import options.

Import ImageFormat.

(** ** Extra channels *)

(** A request the extra-channel setter accepts. *)
Definition extra_request (e : NVCVExtraChannelInfo) : Prop :=
  0 < xc_numChannels e <= 7 /\ xc_bitsPerPixel e <= 128 /\ in_u 3 (xc_datakind e) /\ in_u 3 (xc_channelType e).

(** The word the setter writes. *)
Lemma set_extra_Ok f e : wf_format f -> extra_request e -> numPlanes f = 1 ->
  exists f', set_extraChannelInfo f e = Ok f'
  /\ ExtractBitfield f' 47 3 = xc_numChannels e
  /\ ExtractBitfield f' 50 3 = ExtractBitfield (NVCV_DETAIL_ENCODE_BPP (xc_bitsPerPixel e)) 0 3
  /\ ExtractBitfield f' 53 3 = xc_datakind e /\ ExtractBitfield f' 44 3 = xc_channelType e
  /\ ExtractBitfield f' 7 1 = ExtractBitfield f 7 1 /\ ExtractBitfield f' 35 9 = ExtractBitfield f 35 9.
Proof.
  intros Hf (Hn & Hb & Hk & Ht) H1. unfold set_extraChannelInfo. rewrite wf_nonzero by done.
  rewrite (proj2 (Z.ltb_ge (xc_numChannels e) 0)), (proj2 (Z.ltb_ge 7 _)), (proj2 (Z.ltb_ge 128 _)) by lia.
  assert ((xc_datakind e =? NVCV_DATA_KIND_UNSPECIFIED) = false) as ->.
  { apply Z.eqb_neq. destruct Hk. change NVCV_DATA_KIND_UNSPECIFIED with (-1). lia. }
  rewrite H1. cbn [throw_if orb Z.eqb Pos.eqb].
  set (v := Z.lor (Z.lor (Z.lor _ _) _) _).
  exists (Z.lor (Z.land f (not64 (MaskBitfield 44 12))) v). split; [done|].
  assert (forall o l, 0 <= o -> 0 <= l < 64 -> 44 <= o -> o + l <= 56 ->
    ExtractBitfield (Z.lor (Z.land f (not64 (MaskBitfield 44 12))) v) o l = ExtractBitfield v o l) as Hin.
  { intros. rewrite Extract_lor by lia. rewrite <- (Z.lor_0_l (ExtractBitfield v o l)) at 2. f_equal.
    word_bits; done. }
  assert (forall o l, 0 <= o -> 0 <= l < 64 -> o + l <= 44 ->
    ExtractBitfield (Z.lor (Z.land f (not64 (MaskBitfield 44 12))) v) o l = ExtractBitfield f o l) as Hout.
  { intros. rewrite Extract_lor by lia. replace (ExtractBitfield v o l) with 0 by (unfold v; bitfields; done).
    rewrite Z.lor_0_r. word_bits; done. }
  assert (in_u 3 (xc_numChannels e)) by (unfold in_u; lia).
  split_and!; first [rewrite Hin by lia|rewrite Hout by lia]; unfold v; bitfields; try done;
    rewrite ?Z.lor_0_r; by rewrite Extract_small.
Qed.

Lemma packing_nonzero_planes f : wf_format f -> planePacking f 1 <> 0 -> numPlanes f <> 1.
Proof. intros [_ H0] H1 H. apply numPlanes_1 in H as (? & _); [done|intros; apply planePacking_nonneg|done]. Qed.

(** The extra-channel count sits where plane 1 is read from. *)
Lemma plane1_of_extra v : in_u 7 v -> ExtractBitfield v 3 3 <> 0 -> decode_plane 1 1 v <> 0.
Proof.
  intros Hv Hn.
  assert (forallb (fun v => (ExtractBitfield v 3 3 =? 0) || negb (decode_plane 1 1 v =? 0)) (zseq 128) = true)
    as H by (vm_compute; reflexivity).
  apply (forallb_elem _ _ v) in H; [|by apply (elem_of_zseq 128)].
  apply orb_prop in H as [H|H]; by bool_hyps.
Qed.

Lemma planePacking0_cong f f' : ExtractBitfield f' 35 9 = ExtractBitfield f 35 9 ->
  planePacking f' 0 = planePacking f 0.
Proof. intros H. rewrite !planePacking_decode_plane by lia. by rewrite H. Qed.

(** adding extra channels to a format that was made without them corrupts
    it. Such a format has its planar flag set; the setter writes the extra
    channels into the bits plane 1 is stored in and leaves the flag, so the
    result has more than one plane and reports no extra channels at all. *)
Theorem extra_setter_corrupts_planar f e :
  wf_format f -> extra_request e -> numPlanes f = 1 -> ExtractBitfield f 7 1 = 1 ->
  exists f', set_extraChannelInfo f e = Ok f' /\ numPlanes f' <> 1 /\ extraChannelInfo f' = no_extra.
Proof.
  intros Hf He H1 H7. destruct (set_extra_Ok f e Hf He H1) as (f' & Hs & Hn & _ & _ & _ & H7' & H0').
  exists f'. split; [done|].
  assert (numPlanes f' <> 1) as HP.
  { intros HN. apply numPlanes_1 in HN as (HN & _).
    - revert HN. rewrite planePacking_decode_plane by lia. cbn [Z.eqb]. rewrite H7', H7.
      apply plane1_of_extra; [by apply ExtractBitfield_range|].
      rewrite Extract_Extract by lia. change (44 + 3) with 47. rewrite Hn. destruct He as [He _]. lia.
    - intros. apply planePacking_nonneg.
    - rewrite (planePacking0_cong f) by done. by destruct Hf. }
  split; [done|]. unfold extraChannelInfo. by rewrite (proj2 (Z.eqb_neq _ _) HP).
Qed.

Lemma extra_setter_corrupts_planar_witness :
  exists f', set_extraChannelInfo NVCV_IMAGE_FORMAT_RGB8 (mkExtra 1 8 NVCV_DATA_KIND_UNSIGNED NVCV_EXTRA_CHANNEL_U) = Ok f'
  /\ extraChannelInfo f' = no_extra.
Proof.
  destruct (extra_setter_corrupts_planar NVCV_IMAGE_FORMAT_RGB8
    (mkExtra 1 8 NVCV_DATA_KIND_UNSIGNED NVCV_EXTRA_CHANNEL_U)) as (f' & H & _ & H').
  - split; [split|]; vm_compute; congruence.
  - unfold extra_request, in_u. split_and!; vm_compute; congruence.
  - vm_compute; reflexivity.
  - vm_compute; reflexivity.
  - exists f'. split; [exact H|exact H'].
Defined.

Lemma bpp_readback_fixed b : 1 <= b <= 128 -> bpp_readback b = b <-> b = 8 \/ b = 16.
Proof.
  intros Hb.
  assert (forallb (fun b => Bool.eqb (bpp_readback b =? b) ((b =? 8) || (b =? 16))) (zrange 1 129) = true)
    as H by (vm_compute; reflexivity).
  apply (forallb_elem _ _ b) in H; [|apply elem_of_zrange; lia].
  apply Bool.eqb_prop in H. rewrite <- !Z.eqb_eq, H. apply orb_true_iff.
Qed.

(** On a format made with extra channels the setter stores the count, the
    kind and the type, and the getter reads them back; the size per pixel comes
    back right for 8 and 16 bits only, although sizes up to 128 are accepted:
    the getter computes a power of two from a code that is not a logarithm. *)
Theorem extra_setter_getter f e :
  wf_format f -> extra_request e -> numPlanes f = 1 -> ExtractBitfield f 7 1 = 0 ->
  exists f', set_extraChannelInfo f e = Ok f' /\ numPlanes f' = 1
  /\ extraChannelInfo f'
     = mkExtra (xc_numChannels e) (bpp_readback (xc_bitsPerPixel e)) (xc_datakind e) (xc_channelType e)
  /\ (1 <= xc_bitsPerPixel e -> extraChannelInfo f' = e <-> xc_bitsPerPixel e = 8 \/ xc_bitsPerPixel e = 16).
Proof.
  intros Hf He H1 H7. destruct (set_extra_Ok f e Hf He H1) as (f' & Hs & Hn & Hb & Hk & Ht & H7' & H0').
  exists f'. split; [done|].
  assert (numPlanes f' = 1) as HP.
  { apply numPlanes_1; [intros; apply planePacking_nonneg| |].
    - rewrite (planePacking0_cong f) by done. by destruct Hf.
    - rewrite !planePacking_decode_plane by lia. cbn [Z.eqb]. rewrite H7', H7. by rewrite !decode_plane_absent. }
  destruct He as (Hn1 & Hb1 & _).
  assert (extraChannelInfo f' = mkExtra (xc_numChannels e) (bpp_readback (xc_bitsPerPixel e)) (xc_datakind e)
    (xc_channelType e)) as HE.
  { unfold extraChannelInfo. rewrite HP, Hn, Hb, Hk, Ht. cbn [Z.eqb Pos.eqb].
    by rewrite (proj2 (Z.ltb_lt 0 _)) by lia. }
  split; [done|]. split; [done|]. intros Hpos. rewrite HE.
  rewrite <- (bpp_readback_fixed (xc_bitsPerPixel e)) by lia. destruct e as [n b k t]; cbn. split; congruence.
Qed.

Lemma extra_setter_getter_witness :
  exists f', set_extraChannelInfo NVCV_IMAGE_FORMAT_RGB8_1U_U8
    (mkExtra 2 32 NVCV_DATA_KIND_UNSIGNED NVCV_EXTRA_CHANNEL_U) = Ok f'
  /\ extraChannelInfo f' = mkExtra 2 64 NVCV_DATA_KIND_UNSIGNED NVCV_EXTRA_CHANNEL_U.
Proof.
  destruct (extra_setter_getter NVCV_IMAGE_FORMAT_RGB8_1U_U8
    (mkExtra 2 32 NVCV_DATA_KIND_UNSIGNED NVCV_EXTRA_CHANNEL_U)) as (f' & H & _ & H' & _).
  - split; [split|]; vm_compute; congruence.
  - unfold extra_request, in_u. split_and!; vm_compute; congruence.
  - vm_compute; reflexivity.
  - vm_compute; reflexivity.
  - exists f'. split; [exact H|]. rewrite H'. vm_compute. reflexivity.
Defined.

(** ** Planes *)

Lemma predefined_check (P : Z -> bool) f : forallb P predefined_formats = true -> f ∈ predefined_formats -> P f = true.
Proof. apply forallb_elem. Qed.

(** Taking a predefined format apart into the formats of its planes and
    putting these together again gives the format back, unless its subsampling
    describes the pixels of one interleaved plane, it has extra channels, or its
    fourth plane is 8 bits wide. *)
Theorem predefined_planes_roundtrip f :
  f ∈ predefined_formats ->
  xc_numChannels (extraChannelInfo f) = 0 -> (css f = NVCV_CSS_NONE \/ numPlanes f <> 1) ->
  planePacking f 3 <> NVCV_PACKING_X8 ->
  exists planes, mapM (planeFormat f) (zrange 0 (numPlanes f)) = Ok planes
    /\ Z.of_nat (length planes) = numPlanes f /\ FromPlanes planes = Ok f.
Proof.
  intros Hf Hx Hc H3.
  set (P := fun f => negb (xc_numChannels (extraChannelInfo f) =? 0)
    || (negb (css f =? NVCV_CSS_NONE) && (numPlanes f =? 1)) || (planePacking f 3 =? NVCV_PACKING_X8)
    || match mapM (planeFormat f) (zrange 0 (numPlanes f)) with
       | Ok pl => (Z.of_nat (length pl) =? numPlanes f) && bool_decide (FromPlanes pl = Ok f)
       | _ => false end).
  assert (P f = true) as HP by (apply predefined_check; [by vm_compute|done]).
  unfold P in HP. rewrite Hx, (proj2 (Z.eqb_neq _ _) H3), orb_false_r in HP. cbn [Z.eqb negb orb] in HP.
  apply orb_prop in HP as [HP|HP]; [bool_hyps; by destruct Hc|].
  destruct (mapM _ _) as [pl| |]; try done. exists pl. bool_hyps. done.
Qed.

Lemma predefined_planes_roundtrip_witness :
  exists planes, mapM (planeFormat NVCV_IMAGE_FORMAT_NV12) (zrange 0 2) = Ok planes
    /\ FromPlanes planes = Ok NVCV_IMAGE_FORMAT_NV12.
Proof.
  assert (NVCV_IMAGE_FORMAT_NV12 ∈ predefined_formats) as H1.
  { apply list_elem_of_In. cbn [In predefined_formats]. tauto. }
  assert (xc_numChannels (extraChannelInfo NVCV_IMAGE_FORMAT_NV12) = 0) as H2 by (vm_compute; reflexivity).
  assert (numPlanes NVCV_IMAGE_FORMAT_NV12 <> 1) as H3 by (vm_compute; congruence).
  assert (planePacking NVCV_IMAGE_FORMAT_NV12 3 <> NVCV_PACKING_X8) as H4 by (vm_compute; congruence).
  destruct (predefined_planes_roundtrip _ H1 H2 (or_intror H3) H4) as (pl & E & _ & E').
  assert (numPlanes NVCV_IMAGE_FORMAT_NV12 = 2) as H5 by (vm_compute; reflexivity).
  rewrite H5 in E. exists pl. split; [exact E|exact E'].
Defined.

(** The constructor refuses an 8-bit fourth plane, whatever else it is
    given, although the word format has a special encoding for it and the
    predefined planar RGBA formats use it. *)
Theorem make_rejects_8bit_plane3 cf c ml dk sw p0 p1 p2 al ex :
  exists st, make cf c ml dk sw p0 p1 p2 NVCV_PACKING_X8 al ex = Throw st.
Proof.
  assert (exists st, ValidateSwizzlePacking sw p0 p1 p2 NVCV_PACKING_X8 = Throw st) as [st Hst].
  { unfold ValidateSwizzlePacking. change (negb (Z.land NVCV_PACKING_X8 15 =? 0)) with true.
    cbn [throw_if]. unfold throw_if at 1. destruct (_ =? _); [eauto|].
    do 3 (unfold throw_if at 1; destruct (negb _); [eauto|]). eauto. }
  unfold make, make_raw, make_color. rewrite Hst. cbn.
  destruct (_ =? _); [destruct (negb _)|]; cbn; eauto.
Qed.

(** *** Plane sizes *)

Lemma css_range f : 0 <= css f < 8.
Proof.
  unfold css. destruct (_ =? _); [by apply (ExtractBitfield_range f 17 3)|]. by vm_compute.
Qed.

(** Chroma samples per 4x4 luma samples of every subsampling code. *)
Lemma chroma_samples_bounds c : 0 <= c < 8 ->
  exists sx sy, GetChromaSamples c = Ok (sx, sy) /\ 1 <= sx <= 4 /\ 1 <= sy <= 4.
Proof.
  intros Hc.
  assert (forallb (fun c => match GetChromaSamples c with
    | Ok (sx, sy) => (1 <=? sx) && (sx <=? 4) && (1 <=? sy) && (sy <=? 4) | _ => false end) (zseq 8) = true)
    as H by (vm_compute; reflexivity).
  apply (forallb_elem _ _ c) in H; [|by apply (elem_of_zseq 8)].
  cbv beta in H. destruct (GetChromaSamples c) as [[sx sy]| |]; try done. bool_hyps. exists sx, sy. split; [done|lia].
Qed.


(** The chroma planes of a subsampled format are the image scaled by the
    samples per four of its subsampling, rounded up: no [int] overflows, the
    plane covers every chroma sample, is never empty for a nonempty image and
    never larger than the image. *)
Theorem plane_size_chroma f sz plane :
  0 < w sz < 2 ^ 29 -> 0 < h sz < 2 ^ 29 -> 1 <= plane -> css f <> NVCV_CSS_NONE ->
  exists sx sy sz', GetChromaSamples (css f) = Ok (sx, sy) /\ planeSize f sz plane = Ok sz'
  /\ w sz' = DivUp (w sz * sx) 4 /\ h sz' = DivUp (h sz * sy) 4
  /\ 4 * (w sz' - 1) < w sz * sx <= 4 * w sz' /\ 4 * (h sz' - 1) < h sz * sy <= 4 * h sz'
  /\ 0 < w sz' <= w sz /\ 0 < h sz' <= h sz.
Proof.
  intros Hw Hh Hp Hc. destruct (chroma_samples_bounds _ (css_range f)) as (sx & sy & Hs & Hx & Hy).
  exists sx, sy. unfold planeSize. rewrite (proj2 (Z.leb_le 1 plane)), (proj2 (Z.eqb_neq _ _) Hc) by done.
  cbn [negb andb]. rewrite Hs. cbn [mbind outcome_bind].
  change (2 ^ 29) with 536870912 in *.
  assert (in_s 32 (w sz * sx) /\ in_s 32 (w sz * sx + 3) /\ in_s 32 (h sz * sy) /\ in_s 32 (h sz * sy + 3))
    as (? & ? & ? & ?) by (unfold in_s; change (2 ^ (32 - 1)) with 2147483648; nia).
  rewrite !int32_ok by done. cbn [mbind outcome_bind]. rewrite !int32_ok by done. cbn [mbind outcome_bind noexcept].
  eexists. split; [done|]. split; [done|]. cbn [w h].
  unfold DivUp. change (4 - 1) with 3. split; [done|]. split; [done|].
  rewrite !Z.quot_div_nonneg by nia.
  pose proof (Z.div_mod (w sz * sx + 3) 4 ltac:(lia)). pose proof (Z.mod_pos_bound (w sz * sx + 3) 4 ltac:(lia)).
  pose proof (Z.div_mod (h sz * sy + 3) 4 ltac:(lia)). pose proof (Z.mod_pos_bound (h sz * sy + 3) 4 ltac:(lia)).
  set (qw := (w sz * sx + 3) / 4) in *. set (qh := (h sz * sy + 3) / 4) in *.
  assert (w sz <= w sz * sx <= 4 * w sz) by nia. assert (h sz <= h sz * sy <= 4 * h sz) by nia.
  lia.
Qed.

Lemma plane_size_chroma_witness :
  planeSize NVCV_IMAGE_FORMAT_NV12 (mkSize2D 641 479) 1 = Ok (mkSize2D 321 240).
Proof.
  destruct (plane_size_chroma NVCV_IMAGE_FORMAT_NV12 (mkSize2D 641 479) 1) as (sx & sy & [a b] & Hs & Hp & Hw & Hh & _).
  - by cbn.
  - by cbn.
  - lia.
  - vm_compute; congruence.
  - cbn in Hw, Hh. assert (GetChromaSamples (css NVCV_IMAGE_FORMAT_NV12) = Ok (2, 2)) as E by (vm_compute; reflexivity).
    rewrite E in Hs. injection Hs as <- <-. rewrite Hp, Hw, Hh. reflexivity.
Defined.

(** *** Data layout *)

Lemma HasSameDataLayout_iff a b :
  HasSameDataLayout a b = true <->
  numPlanes a = numPlanes b /\ css a = css b /\ memLayout a = memLayout b
  /\ forall i, 0 <= i < numPlanes a ->
     planePacking a i = planePacking b i /\ planeDataType a i = planeDataType b i.
Proof.
  unfold HasSameDataLayout. split.
  - destruct (_ && _) eqn:E; [|done]. intros H. bool_hyps. split_and!; [done..|]. intros i Hi.
    apply (forallb_elem _ _ i) in H; [|by apply elem_of_zrange]. cbv beta in H. by bool_hyps.
  - intros (-> & -> & -> & H). rewrite !Z.eqb_refl. cbn [andb]. apply forallb_forall.
    intros i Hi%list_elem_of_In%elem_of_zrange. destruct (H i Hi) as [-> ->]. by rewrite !Z.eqb_refl.
Qed.

(** having the same data layout is an equivalence between formats, even
    though the loop only looks at the planes of its first argument. *)
Theorem same_data_layout_equivalence : Equivalence (fun a b => HasSameDataLayout a b = true).
Proof.
  split.
  - intros a. by apply HasSameDataLayout_iff.
  - intros a b. rewrite !HasSameDataLayout_iff. intros (Hn & Hc & Hm & H). rewrite <- Hn.
    split_and!; try done. intros i Hi. destruct (H i Hi). done.
  - intros a b c. rewrite !HasSameDataLayout_iff. intros (Hn & Hc & Hm & H) (Hn' & Hc' & Hm' & H').
    split_and!; try congruence. intros i Hi. destruct (H i Hi) as [-> ->]. apply H'. lia.
Qed.

(** ** FourCC codes *)

(** No constructor of the table throws: [g_FourCC] is the whole table. *)
Lemma g_FourCC_loads : length g_FourCC = length g_FourCC_entries.
Proof. vm_compute. reflexivity. Qed.

(** The code [fourCC] answers for a table format. *)
Definition canonical_code (fmt : Z) : option Z :=
  fst <$> List.find (fun p : Z * Z => p.2 =? fmt) g_FourCC.

(** What the table promises about an entry: RGB or YCbCr with the undefined
    spec, or a model without a spec; pitch-linear; and its canonical code is
    upper case and finds a format equal to it. *)
Definition entry_ok (p : Z * Z) : bool :=
  let m := colorModel p.2 in
  negb (planePacking p.2 0 =? 0) && bool_decide (in_u 64 p.2)
  && (((m =? NVCV_COLOR_MODEL_RGB) || (m =? NVCV_COLOR_MODEL_YCbCr))
      && (ExtractBitfield p.2 20 15 =? NVCV_COLOR_SPEC_UNDEFINED) || (m =? NVCV_COLOR_MODEL_RAW))
  && (ExtractBitfield p.2 12 3 =? NVCV_MEM_LAYOUT_PL)
  && match canonical_code p.2 with
     | Some c => bool_decide (fourcc_upper c = Ok c)
                 && bool_decide (snd <$> List.find (fun q : Z * Z => q.1 =? c) g_FourCC = Some p.2)
     | None => false
     end.

Lemma entries_ok p : p ∈ g_FourCC -> entry_ok p = true.
Proof. apply forallb_elem. vm_compute. reflexivity. Qed.

Lemma find_elem {A} (P : A -> bool) l x : List.find P l = Some x -> x ∈ l /\ P x = true.
Proof. intros H%List.find_some. by rewrite list_elem_of_In. Qed.

(** Undoing a spec and a layout restores a table format. *)
Lemma restore_entry p x ml : in_u 64 p ->
  ExtractBitfield p 20 15 = NVCV_COLOR_SPEC_UNDEFINED -> ExtractBitfield p 12 3 = NVCV_MEM_LAYOUT_PL ->
  UpdateBitfield (UpdateBitfield (UpdateBitfield (UpdateBitfield p x 20 15) ml 12 3)
    NVCV_COLOR_SPEC_UNDEFINED 20 15) NVCV_MEM_LAYOUT_PL 12 3 = p.
Proof.
  intros Hp Hs Hm.
  rewrite (Update_comm (UpdateBitfield p x 20 15) ml NVCV_COLOR_SPEC_UNDEFINED) by (try apply UpdateBitfield_u64; done || lia).
  rewrite !Update_Update by (repeat apply UpdateBitfield_u64; done || lia).
  rewrite <- Hs, Update_Extract by (done || lia). by rewrite <- Hm, Update_Extract by (done || lia).
Qed.

(** What [FromFourCC] does with a table entry, and [fourCC] before its search. *)
Definition dress (p cs ml : Z) : outcome Z :=
  needs ← NeedsColorspec (colorModel p);
  newFmt ← (if (needs : bool) then set_colorSpec p cs else Ok p);
  set_memLayout newFmt ml.
Definition undress (f : Z) : outcome Z :=
  f ← set_colorSpec f NVCV_COLOR_SPEC_UNDEFINED; set_memLayout f NVCV_MEM_LAYOUT_PL.

Lemma set_memLayout_wf f ml : wf_format f -> set_memLayout f ml = Ok (UpdateBitfield f ml 12 3).
Proof. intros Hf. unfold set_memLayout. by rewrite wf_nonzero. Qed.

(** The color spec a model with a spec ends up with. *)
Definition spec_for (m cs : Z) : Z :=
  if m =? NVCV_COLOR_MODEL_RGB then ColorSpec.set_YCbCrEncoding cs NVCV_YCbCr_ENC_UNDEFINED else cs.

Lemma set_colorSpec_wf f cs : wf_format f ->
  colorModel f = NVCV_COLOR_MODEL_RGB \/ colorModel f = NVCV_COLOR_MODEL_YCbCr ->
  set_colorSpec f cs = Ok (UpdateBitfield f (spec_for (colorModel f) cs) 20 15).
Proof. intros Hf H. unfold set_colorSpec, spec_for. rewrite wf_nonzero by done. by destruct H as [-> | ->]. Qed.

Lemma dress_undress p cs ml f : wf_format p ->
  (colorModel p = NVCV_COLOR_MODEL_RGB \/ colorModel p = NVCV_COLOR_MODEL_YCbCr)
   /\ ExtractBitfield p 20 15 = NVCV_COLOR_SPEC_UNDEFINED \/ colorModel p = NVCV_COLOR_MODEL_RAW ->
  ExtractBitfield p 12 3 = NVCV_MEM_LAYOUT_PL ->
  dress p cs ml = Ok f -> undress f = Ok p.
Proof.
  intros Hp Hm Hl H. unfold dress in H. destruct Hm as [[Hm Hs]|Hm].
  - assert (NeedsColorspec (colorModel p) = Ok true) as E by (by destruct Hm as [-> | ->]).
    rewrite E in H. cbn [mbind outcome_bind] in H. rewrite set_colorSpec_wf in H by done.
    cbn [mbind outcome_bind] in H. set (x := spec_for _ _) in H.
    assert (wf_format (UpdateBitfield p x 20 15)) as Hp1 by wf_update.
    rewrite set_memLayout_wf in H by done. injection H as <-.
    assert (wf_format (UpdateBitfield (UpdateBitfield p x 20 15) ml 12 3)) as Hp2 by wf_update.
    assert (colorModel (UpdateBitfield (UpdateBitfield p x 20 15) ml 12 3) = colorModel p) as Hcm.
    { rewrite colorModel_frame by (done || unfold disjoint_field; lia). by apply colorModel_set_spec. }
    unfold undress. rewrite set_colorSpec_wf by (rewrite ?Hcm; done). cbn [mbind outcome_bind].
    rewrite set_memLayout_wf by wf_update. f_equal. rewrite Hcm.
    assert (spec_for (colorModel p) NVCV_COLOR_SPEC_UNDEFINED = NVCV_COLOR_SPEC_UNDEFINED) as ->.
    { by destruct Hm as [-> | ->]. }
    apply restore_entry; [by destruct Hp|done|done].
  - rewrite Hm in H. change (NeedsColorspec NVCV_COLOR_MODEL_RAW) with (Ok false) in H.
    cbn [mbind outcome_bind] in H. rewrite set_memLayout_wf in H by done. injection H as <-.
    assert (wf_format (UpdateBitfield p ml 12 3)) as Hp2 by wf_update.
    assert (colorModel (UpdateBitfield p ml 12 3) = NVCV_COLOR_MODEL_RAW) as Hcm.
    { by rewrite colorModel_frame by (done || unfold disjoint_field; lia). }
    unfold undress, set_colorSpec. rewrite wf_nonzero by done. unfold colorSpec. rewrite !Hcm.
    decide_consts. cbn [throw_if mbind outcome_bind]. rewrite set_memLayout_wf by done. f_equal.
    destruct Hp. rewrite Update_Update by (done || lia). by rewrite <- Hl, Update_Extract by (done || lia).
Qed.

Lemma FromFourCC_dress code cs ml : FromFourCC code cs ml =
  c ← fourcc_upper code;
  match List.find (fun p : Z * Z => p.1 =? c) g_FourCC with
  | Some p => dress p.2 cs ml
  | None => Throw NVCV_ERROR_INVALID_ARGUMENT
  end.
Proof. reflexivity. Qed.

Lemma fourCC_undress f : fourCC f =
  fmt ← undress f;
  match List.find (fun p : Z * Z => p.2 =? fmt) g_FourCC with
  | Some p => Ok p.1
  | None => Throw NVCV_ERROR_INVALID_ARGUMENT
  end.
Proof. unfold fourCC, undress. by destruct (set_colorSpec _ _). Qed.

#[local] Opaque g_FourCC fourcc_upper set_colorSpec set_memLayout.

Lemma entries_spec p : p ∈ g_FourCC ->
  wf_format p.2 /\ ExtractBitfield p.2 12 3 = NVCV_MEM_LAYOUT_PL
  /\ ((colorModel p.2 = NVCV_COLOR_MODEL_RGB \/ colorModel p.2 = NVCV_COLOR_MODEL_YCbCr)
      /\ ExtractBitfield p.2 20 15 = NVCV_COLOR_SPEC_UNDEFINED \/ colorModel p.2 = NVCV_COLOR_MODEL_RAW)
  /\ exists c q, canonical_code p.2 = Some c /\ fourcc_upper c = Ok c
     /\ List.find (fun q : Z * Z => q.1 =? c) g_FourCC = Some q /\ q.2 = p.2.
Proof.
  intros H%entries_ok. unfold entry_ok in H. cbv zeta in H.
  apply andb_prop in H as [H Hc]. apply andb_prop in H as [H Hl]. apply andb_prop in H as [H Hm].
  apply andb_prop in H as [Hn Hu]. apply Z.eqb_eq in Hl. apply bool_decide_eq_true_1 in Hu.
  apply negb_true_iff, Z.eqb_neq in Hn. split; [done|]. split; [done|]. split.
  - apply orb_prop in Hm as [Hm|Hm]; [left|right; by apply Z.eqb_eq].
    apply andb_prop in Hm as [Hm Hs]. apply Z.eqb_eq in Hs.
    apply orb_prop in Hm as [Hm|Hm]; apply Z.eqb_eq in Hm; auto.
  - destruct (canonical_code p.2) as [c|]; [|done]. apply andb_prop in Hc as [H1 H2].
    apply bool_decide_eq_true_1 in H1, H2. exists c.
    destruct (List.find _ _) as [q|]; [|done]. exists q. injection H2 as H2. done.
Qed.

(** A format made from a FourCC code with any color spec and layout has a
    FourCC code, and that code with the same spec and layout makes the format
    again; the code need not be the one asked for, since several codes of the
    table are aliases. *)
Theorem fourcc_roundtrip code cs ml f :
  FromFourCC code cs ml = Ok f ->
  exists code', fourCC f = Ok code' /\ FromFourCC code' cs ml = Ok f.
Proof.
  rewrite FromFourCC_dress. intros (up & _ & H)%bind_Ok.
  destruct (List.find _ _) as [p|] eqn:Hp; [|done]. apply find_elem in Hp as [Hin _].
  destruct (entries_spec p Hin) as (Hwf & Hl & Hm & c & q & Hc & Hup & Hq & Hqp).
  exists c. split.
  - rewrite fourCC_undress, (dress_undress p.2 cs ml f) by done. cbn [mbind outcome_bind].
    unfold canonical_code in Hc. destruct (List.find _ _) as [q'|]; [|discriminate Hc]. by injection Hc as <-.
  - rewrite FromFourCC_dress, Hup. cbn [mbind outcome_bind]. rewrite Hq, Hqp. exact H.
Qed.

Lemma fourcc_roundtrip_witness :
  exists code', fourCC 9077705439576195 = Ok code'
  /\ FromFourCC code' NVCV_COLOR_SPEC_UNDEFINED NVCV_MEM_LAYOUT_PL = Ok 9077705439576195.
Proof.
  apply (fourcc_roundtrip (FCC "i"%char "y"%char "u"%char "v"%char)). vm_compute. reflexivity.
Defined.

(** ** Data types *)

#[local] Opaque planePacking NVCV_DETAIL_MAKE_FMTTYPE.

Lemma data_type_packing k p : known_packing p -> DataType.packing (DataType.make k p) = p.
Proof.
  intros Hp. unfold DataType.packing, DataType.make, NVCV_DETAIL_MAKE_DATA_TYPE.
  rewrite planePacking_fmt; [done| |lia|lia].
  assert (in_u 10 0) by (by vm_compute).
  intros [|[|[|[|i]]]] q Hq; cbn in Hq; simplify_eq; split; try done; [by apply known_in_u|].
  apply (known_packing_check (fits_plane 0)); [by vm_compute|done].
Qed.

Lemma data_type_kind k p : in_u 3 k -> DataType.dataKind (DataType.make k p) = k.
Proof.
  intros Hk. unfold DataType.dataKind, ImageFormat.dataKind, DataType.make, NVCV_DETAIL_MAKE_DATA_TYPE.
  rewrite fmt_kind. by apply Extract_small.
Qed.

(** a data type is its kind and its packing: both are read back from the
    word made of them, the channel count is the packing's, and the stride is
    the packing's bits per pixel rounded up to whole bytes. *)
Theorem data_type_roundtrip k p :
  in_u 3 k -> known_packing p ->
  let t := DataType.make k p in
  DataType.dataKind t = k /\ DataType.packing t = p /\ DataType.numChannels t = GetNumChannels_packing p
  /\ exists b, DataType.bpp t = Ok b /\ GetBitsPerPixel p = Ok b /\ 0 <= b <= 256
     /\ DataType.strideBytes t = Ok (DivUp b 8).
Proof.
  intros Hk Hp. pose proof (data_type_packing k p Hp) as Ep. unfold DataType.packing in Ep.
  set (t := DataType.make k p) in *. cbv zeta.
  assert (exists b, GetBitsPerPixel p = Ok b /\ 0 <= b <= 256) as (b & Hb & Hr).
  { apply (known_packing_check (fun p => match GetBitsPerPixel p with
      | Ok b => (0 <=? b) && (b <=? 256) | _ => false end)) in Hp; [|by vm_compute]. cbv beta in Hp.
    destruct (GetBitsPerPixel p) as [b| |]; [|discriminate Hp|discriminate Hp]. bool_hyps. by exists b. }
  assert (DataType.bpp t = Ok b) as Hbpp.
  { unfold DataType.bpp, planeBPP. by rewrite Ep. }
  split_and!; [by apply data_type_kind|done| |].
  - unfold DataType.numChannels, planeNumChannels. by rewrite Ep.
  - exists b. split_and!; try done; try lia. unfold DataType.strideBytes. rewrite Hbpp. done.
Qed.

Lemma data_type_roundtrip_witness :
  DataType.packing (DataType.make NVCV_DATA_KIND_FLOAT NVCV_PACKING_X32_Y32_Z32) = NVCV_PACKING_X32_Y32_Z32.
Proof.
  assert (in_u 3 NVCV_DATA_KIND_FLOAT) as H1 by (split; vm_compute; congruence).
  assert (known_packing NVCV_PACKING_X32_Y32_Z32) as H2 by (eexists; vm_compute; reflexivity).
  destruct (data_type_roundtrip _ _ H1 H2) as (_ & H & _). exact H.
Defined.

(** One channel of a packing, as the code asks for it. *)
Definition channel_check (p ch : Z) : bool :=
  match bits ← GetBitsPerComponent p; rd bits ch with
  | Ok b => (b =? 0)
      || match MakeNVCVPacking_bits b 0 0 0 with
         | Some q => bool_decide (GetBitsPerComponent q = Ok [b; 0; 0; 0]) && bool_decide (known_packing q)
         | None => bool_decide (b ∈ [3; 5; 6; 11])
         end
  | _ => false
  end.

Lemma channelType_eq t ch bits b : 0 <= ch < 4 -> DataType.bpc t = Ok bits -> rd bits ch = Ok b ->
  DataType.channelType t ch =
    if b =? 0 then Ok NVCV_DATA_TYPE_NONE
    else match MakeNVCVPacking_bits b 0 0 0 with
         | Some packing => Ok (DataType.make (DataType.dataKind t) packing)
         | None => Throw NVCV_ERROR_INVALID_ARGUMENT
         end.
Proof.
  intros Hch Hbits Hb. unfold DataType.channelType.
  rewrite (proj2 (Z.ltb_ge ch 0)), (proj2 (Z.leb_gt 4 ch)), Hbits by lia. cbn [throw_if mbind outcome_bind].
  by rewrite Hb.
Qed.

(** The type of a channel keeps the kind and has exactly that channel's
    bits; a channel the packing does not have gives no type, and the only
    channels without a type are those of 3, 5, 6 or 11 bits, which no
    single-channel packing has: for these the code throws. *)
Theorem channel_type_spec k p ch :
  in_u 3 k -> known_packing p -> 0 <= ch < 4 ->
  exists b, (bits ← GetBitsPerComponent p; rd bits ch) = Ok b
  /\ if b =? 0 then DataType.channelType (DataType.make k p) ch = Ok NVCV_DATA_TYPE_NONE
     else if decide (b ∈ [3; 5; 6; 11])
     then DataType.channelType (DataType.make k p) ch = Throw NVCV_ERROR_INVALID_ARGUMENT
     else exists t, DataType.channelType (DataType.make k p) ch = Ok t
          /\ DataType.dataKind t = k /\ DataType.bpc t = Ok [b; 0; 0; 0].
Proof.
  intros Hk Hp Hch.
  assert (channel_check p ch = true) as H.
  { pose proof (known_packing_check (fun p => forallb (channel_check p) (zseq 4)) p) as H.
    cbv beta in H. apply (forallb_elem (channel_check p) (zseq 4)); [|by apply (elem_of_zseq 4)].
    apply H; [by vm_compute|done]. }
  unfold channel_check in H.
  destruct (bits ← GetBitsPerComponent p; rd bits ch) as [b| |] eqn:Hb; try done. exists b. split; [done|].
  apply bind_Ok in Hb as (bits & Hbits & Hb).
  assert (DataType.bpc (DataType.make k p) = Ok bits) as Hbpc.
  { unfold DataType.bpc. by rewrite data_type_packing. }
  rewrite (channelType_eq _ _ _ _ Hch Hbpc Hb).
  destruct (b =? 0); [reflexivity|]. cbn [orb] in H.
  destruct (decide (b ∈ [3; 5; 6; 11])) as [Hin|Hin].
  - assert (MakeNVCVPacking_bits b 0 0 0 = None) as ->; [|reflexivity].
    rewrite !elem_of_cons, elem_of_nil in Hin.
    destruct Hin as [->|[->|[->|[->|[]]]]]; vm_compute; reflexivity.
  - destruct (MakeNVCVPacking_bits b 0 0 0) as [q|]; [|by apply bool_decide_eq_true_1 in H].
    apply andb_prop in H as [Hq Hkq]. apply bool_decide_eq_true_1 in Hq, Hkq.
    eexists. split; [reflexivity|]. rewrite (data_type_kind k p Hk). split; [by apply data_type_kind|].
    unfold DataType.bpc. by rewrite data_type_packing.
Qed.

Lemma channel_type_spec_witness :
  exists t, DataType.channelType (DataType.make NVCV_DATA_KIND_UNSIGNED NVCV_PACKING_X8_Y8_Z8) 2 = Ok t
  /\ DataType.bpc t = Ok [8; 0; 0; 0].
Proof.
  assert (in_u 3 NVCV_DATA_KIND_UNSIGNED) as H1 by (split; vm_compute; congruence).
  assert (known_packing NVCV_PACKING_X8_Y8_Z8) as H2 by (eexists; vm_compute; reflexivity).
  assert (0 <= 2 < 4) as H3 by lia.
  destruct (channel_type_spec _ _ _ H1 H2 H3) as (b & Hb & H).
  assert ((bits ← GetBitsPerComponent NVCV_PACKING_X8_Y8_Z8; rd bits 2) = Ok 8) as E by (vm_compute; reflexivity).
  rewrite E in Hb. injection Hb as <-. cbn [Z.eqb] in H.
  destruct (decide (8 ∈ [3; 5; 6; 11])) as [Hin|_].
  - exfalso. rewrite !elem_of_cons, elem_of_nil in Hin. lia.
  - destruct H as (t & Ht & _ & Hbpc). exists t. split; [exact Ht|exact Hbpc].
Defined.
