(* ===== verification/StaticVector.v ===== *)
(** * Vectors without allocation ([nvcv/util/StaticVector.hpp])

    A vector of at most [N] elements in a buffer of its own. A slot of the buffer
    holds an object or none; destroying a slot without an object is undefined
    behaviour. The elements' own operations do not throw; what is left in an object
    that was moved from is an argument. Exceptions carry the status the C interface
    gives them. *)
From S2P Require Import Prelude Effects.
From stdpp Require Import options.

#[local] Open Scope Z_scope.

(** [std::bad_alloc], [std::out_of_range] and [std::runtime_error]. *)
Abbreviation bad_alloc := NVCV_ERROR_OUT_OF_MEMORY.
Abbreviation out_of_range := NVCV_ERROR_INTERNAL.
Abbreviation runtime_error := NVCV_ERROR_INTERNAL.

Section Vector.
(** The capacity; the value of a moved-from and of a default-constructed object;
    [is_trivially_copyable] and [is_default_constructible]. *)
Context {V : Type} (N : nat) (moved : V -> V) (dflt : V) (trivially_copyable default_constructible : bool).

Record StaticVector := MkVector { m_size : Z; m_arena : list (option V) }.

(** ** Objects in the buffer *)

(** [std::uninitialized_copy] and the like: objects constructed from [i] on. *)
Fixpoint store (a : list (option V)) (i : Z) (vs : list V) : outcome (list (option V)) :=
  match vs with
  | [] => Ok a
  | v :: vs => a ← wr a i (Some v); store a (i + 1) vs
  end.

Definition load (a : list (option V)) (i : Z) : outcome V :=
  o ← rd a i;
  match o with Some v => Ok v | None => Stuck end.

(** The objects of [lo, hi). *)
Definition load_range (a : list (option V)) (lo hi : Z) : outcome (list V) :=
  mfold (fun vs i => v ← load a i; Ok (vs ++ [v])) (zrange lo hi) [].

(** [std::destroy]. *)
Definition destroy (a : list (option V)) (lo hi : Z) : outcome (list (option V)) :=
  mfold (fun a i => _ ← load a i; wr a i None) (zrange lo hi) a.

(** The objects of [lo, hi) after they were moved from. *)
Definition leave_moved (a : list (option V)) (lo hi : Z) : outcome (list (option V)) :=
  mfold (fun a i => v ← load a i; wr a i (Some (moved v))) (zrange lo hi) a.

(** [std::swap_ranges(begin + i, begin + i + n, begin + j)], element by element. *)
Definition swap_ranges (a : list (option V)) (i j n : Z) : outcome (list (option V)) :=
  mfold (fun a k => x ← load a (i + k); y ← load a (j + k); a ← wr a (i + k) (Some y); wr a (j + k) (Some x)) (zrange 0 n) a.

Definition doCheckInvariants (v : StaticVector) : outcome StaticVector := nvcv_assert (m_size v <=? Z.of_nat N) (Ok v).

(** ** Construction and destruction *)

Definition empty_vector : StaticVector := MkVector 0 (replicate N None).

Definition make (vs : list V) : outcome StaticVector :=
  throw_if (Z.of_nat N <? Z.of_nat (length vs)) bad_alloc (
  a ← store (replicate N None) 0 vs;
  doCheckInvariants (MkVector (Z.of_nat (length vs)) a)).

(** [StaticVector(count)], [StaticVector(count, value)], [StaticVector(beg, end)] and the list. *)
Definition make_count (count : nat) : outcome StaticVector := make (replicate count dflt).
Definition make_fill (count : nat) (value : V) : outcome StaticVector := make (replicate count value).
Definition make_list (list : list V) : outcome StaticVector := make list.

Definition finish (v : StaticVector) : outcome (list (option V)) := destroy (m_arena v) 0 (m_size v).

(** The move constructor: the new vector and the other one after it. *)
Definition move_construct (that : StaticVector) : outcome (StaticVector * StaticVector) :=
  vs ← load_range (m_arena that) 0 (m_size that);
  a ← store (replicate N None) 0 vs;
  rest ← (if trivially_copyable then Ok (m_arena that) else leave_moved (m_arena that) 0 (m_size that));
  v ← doCheckInvariants (MkVector (m_size that) a);
  Ok (v, MkVector (m_size that) rest).

Definition copy_construct (that : StaticVector) : outcome StaticVector :=
  vs ← load_range (m_arena that) 0 (m_size that);
  a ← store (replicate N None) 0 vs;
  Ok (MkVector (m_size that) a).

(** [*this = std::move(that)] for two vectors. *)
Definition move_assign (this that : StaticVector) : outcome (StaticVector * StaticVector) :=
  vs ← load_range (m_arena that) 0 (m_size that);
  a ← (if trivially_copyable then store (m_arena this) 0 vs
       else if m_size this <=? m_size that then
         a ← store (m_arena this) 0 (take (Z.to_nat (m_size this)) vs);
         store a (m_size this) (drop (Z.to_nat (m_size this)) vs)
       else
         a ← store (m_arena this) 0 vs;
         destroy a (m_size that) (m_size this));
  rest ← (if trivially_copyable then Ok (m_arena that) else leave_moved (m_arena that) 0 (m_size that));
  v ← doCheckInvariants (MkVector (m_size that) a);
  Ok (v, MkVector (m_size that) rest).

(** [*this = that] for two vectors. *)
Definition copy_assign (this that : StaticVector) : outcome StaticVector :=
  vs ← load_range (m_arena that) 0 (m_size that);
  let commonSize := Z.min (m_size this) (m_size that) in
  a ← store (m_arena this) 0 (take (Z.to_nat commonSize) vs);
  a ← (if m_size this <? m_size that then store a commonSize (drop (Z.to_nat commonSize) vs)
       else if m_size that <? m_size this then destroy a commonSize (m_size this)
       else Ok a);
  Ok (MkVector (m_size that) a).

(** ** Operations *)

Definition resize (v : StaticVector) (newSize : Z) : outcome StaticVector :=
  throw_if (Z.of_nat N <? newSize) bad_alloc (
  a ← (if newSize <? m_size v then destroy (m_arena v) newSize (m_size v)
       else if m_size v <? newSize then
         if default_constructible then store (m_arena v) (m_size v) (replicate (Z.to_nat (newSize - m_size v)) dflt)
         else Throw runtime_error
       else Ok (m_arena v));
  doCheckInvariants (MkVector newSize a)).

Definition push_back (v : StaticVector) (item : V) : outcome StaticVector :=
  throw_if (Z.of_nat N <=? m_size v) bad_alloc (
  a ← store (m_arena v) (m_size v) [item];
  doCheckInvariants (MkVector (m_size v + 1) a)).

Definition pop_back (v : StaticVector) : outcome StaticVector :=
  nvcv_assert (0 <? m_size v) (
  a ← destroy (m_arena v) (m_size v - 1) (m_size v);
  doCheckInvariants (MkVector (m_size v - 1) a)).

Definition clear (v : StaticVector) : outcome StaticVector :=
  a ← destroy (m_arena v) 0 (m_size v);
  doCheckInvariants (MkVector 0 a).

(** [erase(begin + beg, begin + end)]. *)
Definition erase (v : StaticVector) (beg end_ : Z) : outcome StaticVector :=
  nvcv_assert ((0 <=? beg) && (beg <=? m_size v) && (end_ <=? m_size v) && (beg <=? end_)) (
  let rangeLength := end_ - beg in
  a ← swap_ranges (m_arena v) end_ beg (m_size v - end_);
  resize (MkVector (m_size v) a) (m_size v - rangeLength)).

Definition swap (a b : StaticVector) : outcome (StaticVector * StaticVector) :=
  if trivially_copyable then Ok (b, a) else
  va ← load_range (m_arena a) 0 (m_size a);
  vb ← load_range (m_arena b) 0 (m_size b);
  let commonSize := Z.min (m_size a) (m_size b) in
  let k := Z.to_nat commonSize in
  ra ← store (m_arena a) 0 (take k vb);
  rb ← store (m_arena b) 0 (take k va);
  '(ra, rb) ← (if m_size a <? m_size b then
                 ra ← store ra (m_size a) (drop k vb);
                 rb ← leave_moved rb commonSize (m_size b);
                 Ok (ra, rb)
               else if m_size b <? m_size a then
                 rb ← store rb (m_size b) (drop k va);
                 ra ← leave_moved ra commonSize (m_size a);
                 Ok (ra, rb)
               else Ok (ra, rb));
  a' ← doCheckInvariants (MkVector (m_size b) ra);
  b' ← doCheckInvariants (MkVector (m_size a) rb);
  Ok (a', b').

Definition at_ (v : StaticVector) (i : Z) : outcome V :=
  throw_if ((i <? 0) || (m_size v <=? i)) out_of_range (load (m_arena v) i).

Definition index (v : StaticVector) (i : Z) : outcome V :=
  nvcv_assert (0 <=? i) (nvcv_assert (i <? m_size v) (load (m_arena v) i)).

Definition front (v : StaticVector) : outcome V := nvcv_assert (0 <? m_size v) (load (m_arena v) 0).
Definition back (v : StaticVector) : outcome V := nvcv_assert (0 <? m_size v) (load (m_arena v) (m_size v - 1)).
(** ** Ranges of objects *)

Lemma load_at a i v : 0 <= i -> a !! Z.to_nat i = Some (Some v) -> load a i = Ok v.
Proof. intros Hi Ha. unfold load. by rewrite (proj2 (rd_Ok a i (Some v))). Qed.

Lemma lookup_mid (pre post : list (option V)) x : (pre ++ x :: post) !! length pre = Some x.
Proof. by rewrite lookup_app_r, Nat.sub_diag by lia. Qed.

Lemma wr_mid (pre post : list (option V)) x y : wr (pre ++ x :: post) (Z.of_nat (length pre)) y = Ok (pre ++ y :: post).
Proof.
  apply wr_Ok. rewrite length_app. cbn [length]. split; [lia|]. rewrite Nat2Z.id, insert_app_r_alt, Nat.sub_diag by lia. done.
Qed.

Lemma store_spec pre old vs post : length old = length vs ->
  store (pre ++ old ++ post) (Z.of_nat (length pre)) vs = Ok (pre ++ (Some <$> vs) ++ post).
Proof.
  revert pre old. induction vs as [|v vs IH]; intros pre [|o old] Hl; try done. cbn [store app]. rewrite wr_mid. cbn [mbind outcome_bind].
  injection Hl as Hl. specialize (IH (pre ++ [Some v]) old Hl). rewrite <- !app_assoc, length_app in IH. cbn [length app] in IH.
  replace (Z.of_nat (length pre) + 1) with (Z.of_nat (length pre + 1)) by lia. rewrite IH. done.
Qed.

(** A loop that replaces each object by what [g] makes of it. *)
Lemma update_range (g : V -> option V) pre vs post :
  mfold (fun a i => v ← load a i; wr a i (g v)) (zrange (Z.of_nat (length pre)) (Z.of_nat (length pre + length vs)))
    (pre ++ (Some <$> vs) ++ post) = Ok (pre ++ (g <$> vs) ++ post).
Proof.
  revert pre. induction vs as [|v vs IH]; intros pre.
  - unfold zrange. by rewrite Nat.add_0_r, Z.sub_diag.
  - rewrite zrange_cons by (cbn; lia). cbn [mfold fmap list_fmap app].
    rewrite (load_at _ _ v) by (lia || (rewrite Nat2Z.id; apply lookup_mid)). cbn [mbind outcome_bind].
    rewrite wr_mid. cbn [mbind outcome_bind]. specialize (IH (pre ++ [g v])). rewrite length_app, <- !app_assoc in IH. cbn [length app] in IH.
    replace (Z.of_nat (length pre) + 1) with (Z.of_nat (length pre + 1)) by lia.
    replace (length pre + length (v :: vs))%nat with (length pre + 1 + length vs)%nat by (cbn; lia). exact IH.
Qed.

Lemma destroy_spec pre vs post : destroy (pre ++ (Some <$> vs) ++ post) (Z.of_nat (length pre)) (Z.of_nat (length pre + length vs)) =
  Ok (pre ++ replicate (length vs) None ++ post).
Proof.
  unfold destroy. replace (replicate (length vs) None) with ((fun _ : V => None : option V) <$> vs); [apply (update_range (fun _ => None))|].
  induction vs as [|v vs IH]; [done|]. cbn. by rewrite <- IH.
Qed.

Lemma leave_moved_spec pre vs post : leave_moved (pre ++ (Some <$> vs) ++ post) (Z.of_nat (length pre)) (Z.of_nat (length pre + length vs)) =
  Ok (pre ++ (Some <$> (moved <$> vs)) ++ post).
Proof. unfold leave_moved. rewrite (update_range (fun v => Some (moved v))). by rewrite <- list_fmap_compose. Qed.

Lemma load_range_acc pre vs post acc :
  mfold (fun acc i => v ← load (pre ++ (Some <$> vs) ++ post) i; Ok (acc ++ [v]))
    (zrange (Z.of_nat (length pre)) (Z.of_nat (length pre + length vs))) acc = Ok (acc ++ vs).
Proof.
  transitivity (mfold (fun acc (v : V) => Ok (acc ++ [v])) vs acc).
  - apply mfold_Forall2. rewrite Nat2Z.inj_add. apply Forall2_zrange. intros k v Hv s.
    rewrite (load_at _ _ v); [done|lia|]. rewrite <- Nat2Z.inj_add, Nat2Z.id, lookup_app_r by lia.
    replace (length pre + k - length pre)%nat with k by lia. apply lookup_app_l_Some. by rewrite list_lookup_fmap, Hv.
  - revert acc. induction vs as [|v vs IH]; intros acc; [by rewrite app_nil_r|]. cbn [mfold mbind outcome_bind]. rewrite IH.
    by rewrite <- app_assoc.
Qed.

Lemma load_range_spec pre vs post : load_range (pre ++ (Some <$> vs) ++ post) (Z.of_nat (length pre)) (Z.of_nat (length pre + length vs)) = Ok vs.
Proof. unfold load_range. by rewrite load_range_acc. Qed.

(** Swapping a tail over the elements before it moves it there; the elements it
    passes end up behind it, in some order. *)
Lemma swap_ranges_spec l1 l2 l3 rest : exists l2', length l2' = length l2 /\
  swap_ranges ((Some <$> l1 ++ l2 ++ l3) ++ rest) (Z.of_nat (length (l1 ++ l2))) (Z.of_nat (length l1)) (Z.of_nat (length l3)) =
  Ok ((Some <$> l1 ++ l3 ++ l2') ++ rest).
Proof.
  unfold swap_ranges.
  destruct (mfold_zrange (fun a k => x ← load a (Z.of_nat (length (l1 ++ l2)) + k); y ← load a (Z.of_nat (length l1) + k);
      a ← wr a (Z.of_nat (length (l1 ++ l2)) + k) (Some y); wr a (Z.of_nat (length l1) + k) (Some x))
    (fun k a => exists l2', length l2' = length l2 /\ a = (Some <$> (l1 ++ take (Z.to_nat k) l3) ++ l2' ++ drop (Z.to_nat k) l3) ++ rest)
    0 (Z.of_nat (length l3)) ((Some <$> l1 ++ l2 ++ l3) ++ rest)) as (a & Ea & l2' & Hl & ->).
  - lia.
  - exists l2. split; [done|]. change (Z.to_nat 0) with 0%nat. cbn [take drop]. by rewrite app_nil_r.
  - intros k a Hk (l2' & Hl & ->). destruct (lookup_lt_is_Some_2 l3 (Z.to_nat k)) as [x Hx]; [lia|].
    rewrite (drop_S _ _ _ Hx). assert (length (l1 ++ take (Z.to_nat k) l3) = (length l1 + Z.to_nat k)%nat) as Hp by (rewrite length_app, length_take; lia).
    set (p := l1 ++ take (Z.to_nat k) l3) in *. set (t := drop (S (Z.to_nat k)) l3).
    assert (forall q : list V, l1 ++ take (Z.to_nat (k + 1)) l3 ++ q = p ++ [x] ++ q) as HT.
    { intros q. unfold p. replace (Z.to_nat (k + 1)) with (S (Z.to_nat k)) by lia. rewrite (take_S_r _ _ _ Hx). by rewrite <- !app_assoc. }
    replace (drop (Z.to_nat (k + 1)) l3) with t by (unfold t; f_equal; lia).
    destruct l2' as [|y l2'].
    + assert (length l2 = 0)%nat as E2 by (cbn in Hl; lia). rewrite length_app, E2, Nat.add_0_r. exists ((Some <$> p ++ [x] ++ t) ++ rest).
      assert ((Some <$> p ++ [] ++ x :: t) ++ rest = (Some <$> p) ++ Some x :: (Some <$> t) ++ rest) as E1.
      { rewrite fmap_app. cbn [fmap list_fmap app]. by rewrite <- app_assoc. }
      rewrite E1. assert (Z.of_nat (length l1) + k = Z.of_nat (length (Some <$> p))) as -> by (rewrite length_fmap; lia).
      rewrite (load_at _ _ x) by (lia || (rewrite Nat2Z.id; apply lookup_mid)). cbn [mbind outcome_bind]. rewrite wr_mid. cbn [mbind outcome_bind].
      rewrite wr_mid, <- E1. split; [done|]. exists []. split; [done|]. by rewrite <- app_assoc, HT.
    + exists ((Some <$> p ++ [x] ++ (l2' ++ [y]) ++ t) ++ rest).
      assert ((Some <$> p ++ (y :: l2') ++ x :: t) ++ rest = (Some <$> p) ++ Some y :: ((Some <$> l2') ++ Some x :: (Some <$> t) ++ rest)) as E1.
      { rewrite !fmap_app. cbn [fmap list_fmap app]. rewrite <- !app_assoc. cbn [app]. by rewrite <- app_assoc. }
      assert (forall z w : V, (Some <$> p) ++ Some z :: ((Some <$> l2') ++ Some w :: (Some <$> t) ++ rest) =
        ((Some <$> p) ++ Some z :: (Some <$> l2')) ++ Some w :: (Some <$> t) ++ rest) as E2 by (intros; by rewrite <- app_assoc).
      assert (Z.of_nat (length l1) + k = Z.of_nat (length (Some <$> p))) as -> by (rewrite length_fmap; lia).
      assert (Z.of_nat (length (l1 ++ l2)) + k = Z.of_nat (length ((Some <$> p) ++ Some y :: (Some <$> l2')))) as Ei.
      { rewrite !length_app. cbn [length] in *. rewrite !length_fmap. lia. }
      rewrite E1. rewrite (load_at _ (Z.of_nat (length (l1 ++ l2)) + k) x) by (lia || (rewrite Ei, Nat2Z.id, E2; apply lookup_mid)).
      cbn [mbind outcome_bind]. rewrite (load_at _ (Z.of_nat (length (Some <$> p))) y) by (lia || (rewrite Nat2Z.id; apply lookup_mid)).
      cbn [mbind outcome_bind]. rewrite Ei, E2, wr_mid. cbn [mbind outcome_bind]. rewrite <- E2, wr_mid. split.
      * f_equal. rewrite !fmap_app. cbn [fmap list_fmap app]. rewrite <- !app_assoc. cbn [app]. by rewrite <- !app_assoc.
      * exists (l2' ++ [y]). split; [rewrite length_app; cbn in *; lia|]. by rewrite <- !app_assoc, HT.
  - exists l2'. split; [done|]. rewrite Ea, Nat2Z.id, take_ge, drop_ge, app_nil_r, <- app_assoc by lia. done.
Qed.
(** ** Vectors as lists *)

(** The vector with the elements [l] and the slots [rest] behind them. *)
Definition vec (l : list V) (rest : list (option V)) : StaticVector := MkVector (Z.of_nat (length l)) ((Some <$> l) ++ rest).

Definition room (l : list V) (rest : list (option V)) : Prop := (length l + length rest)%nat = N.

(** No objects besides the elements. *)
Definition all_raw (rest : list (option V)) : Prop := Forall (fun o => o = None) rest.

Lemma all_raw_replicate n : all_raw (replicate n None).
Proof. by apply Forall_replicate. Qed.

Lemma checked_vec l rest : room l rest -> doCheckInvariants (vec l rest) = Ok (vec l rest).
Proof. intros Hr. unfold doCheckInvariants, vec. cbn [m_size]. rewrite (proj2 (Z.leb_le _ _)); [done|]. unfold room in Hr. lia. Qed.

(** Objects constructed behind the elements. *)
Lemma store_behind l vs rest : (length vs <= length rest)%nat ->
  store ((Some <$> l) ++ rest) (Z.of_nat (length l)) vs = Ok ((Some <$> l ++ vs) ++ drop (length vs) rest).
Proof.
  intros Hl. rewrite <- (take_drop (length vs) rest) at 1. rewrite <- (length_fmap Some l) at 1.
  rewrite (store_spec (Some <$> l) (take (length vs) rest) vs) by (rewrite length_take; lia). by rewrite fmap_app, <- app_assoc.
Qed.

(** The last elements destroyed. *)
Lemma destroy_last l1 l2 rest :
  destroy ((Some <$> l1 ++ l2) ++ rest) (Z.of_nat (length l1)) (Z.of_nat (length (l1 ++ l2))) =
  Ok ((Some <$> l1) ++ replicate (length l2) None ++ rest).
Proof.
  rewrite fmap_app, <- app_assoc, length_app. pose proof (destroy_spec (Some <$> l1) l2 rest) as H. by rewrite !length_fmap in H.
Qed.

Lemma load_all l rest : load_range ((Some <$> l) ++ rest) 0 (Z.of_nat (length l)) = Ok l.
Proof. exact (load_range_spec [] l rest). Qed.

Lemma make_vec vs : make vs = if (N <? length vs)%nat then Throw bad_alloc else Ok (vec vs (replicate (N - length vs) None)).
Proof.
  unfold make. destruct (Nat.ltb_spec N (length vs)).
  - by rewrite (proj2 (Z.ltb_lt _ _)) by lia.
  - rewrite (proj2 (Z.ltb_ge _ _)) by lia. cbn [throw_if]. pose proof (store_behind [] vs (replicate N None)) as E.
    cbn [fmap list_fmap app length] in E. change (Z.of_nat 0) with 0 in E. rewrite E by (rewrite length_replicate; lia). cbn [mbind outcome_bind].
    rewrite drop_replicate. apply checked_vec. unfold room. rewrite length_replicate. lia.
Qed.

Lemma push_back_vec l rest x : room l rest ->
  push_back (vec l rest) x = if (N <=? length l)%nat then Throw bad_alloc else Ok (vec (l ++ [x]) (drop 1 rest)).
Proof.
  intros Hr. unfold push_back, room in *. cbn [m_size m_arena vec]. destruct (Nat.leb_spec N (length l)).
  - by rewrite (proj2 (Z.leb_le _ _)) by lia.
  - rewrite (proj2 (Z.leb_gt _ _)) by lia. cbn [throw_if]. rewrite store_behind by (cbn; lia). cbn [mbind outcome_bind length].
    replace (Z.of_nat (length l) + 1) with (Z.of_nat (length (l ++ [x]))) by (rewrite length_app; cbn; lia).
    apply checked_vec. unfold room. rewrite length_app, length_drop. cbn. lia.
Qed.

(** Shrinking to the elements [l1]. *)
Lemma shrink_vec l1 l2 rest : room (l1 ++ l2) rest ->
  destroy ((Some <$> l1 ++ l2) ++ rest) (Z.of_nat (length l1)) (Z.of_nat (length (l1 ++ l2))) =
    Ok (m_arena (vec l1 (replicate (length l2) None ++ rest))) /\ room l1 (replicate (length l2) None ++ rest).
Proof.
  intros Hr. split; [apply destroy_last|]. unfold room in *. rewrite length_app in *. rewrite length_replicate. lia.
Qed.

Lemma resize_shrink l1 l2 rest : room (l1 ++ l2) rest ->
  resize (vec (l1 ++ l2) rest) (Z.of_nat (length l1)) = Ok (vec l1 (replicate (length l2) None ++ rest)).
Proof.
  intros Hr. destruct (shrink_vec _ _ _ Hr) as [E Hr']. unfold resize. cbn [m_size m_arena vec].
  rewrite (proj2 (Z.ltb_ge _ _)) by (unfold room in Hr; rewrite length_app in Hr; lia). cbn [throw_if].
  destruct l2 as [|x l2].
  - rewrite app_nil_r. rewrite Z.ltb_irrefl. cbn [mbind outcome_bind replicate app length]. apply checked_vec. by rewrite app_nil_r in Hr.
  - rewrite (proj2 (Z.ltb_lt _ _)) by (rewrite length_app; cbn; lia). rewrite E. cbn [mbind outcome_bind]. by apply checked_vec.
Qed.

Lemma resize_grow l rest n : room l rest -> (length l < n)%nat ->
  resize (vec l rest) (Z.of_nat n) =
    if (N <? n)%nat then Throw bad_alloc else
    if default_constructible then Ok (vec (l ++ replicate (n - length l) dflt) (drop (n - length l) rest)) else Throw runtime_error.
Proof.
  intros Hr Hn. unfold resize, room in *. cbn [m_size m_arena vec]. destruct (Nat.ltb_spec N n).
  - by rewrite (proj2 (Z.ltb_lt _ _)) by lia.
  - rewrite (proj2 (Z.ltb_ge _ _)) by lia. cbn [throw_if]. rewrite (proj2 (Z.ltb_ge _ _)), (proj2 (Z.ltb_lt _ _)) by lia.
    destruct default_constructible; [|done]. replace (Z.to_nat (Z.of_nat n - Z.of_nat (length l))) with (n - length l)%nat by lia.
    rewrite store_behind by (rewrite length_replicate; lia). cbn [mbind outcome_bind]. rewrite length_replicate.
    replace (Z.of_nat n) with (Z.of_nat (length (l ++ replicate (n - length l) dflt))) by (rewrite length_app, length_replicate; lia).
    apply checked_vec. unfold room. rewrite length_app, length_replicate, length_drop. lia.
Qed.

Lemma pop_back_vec l x rest : room (l ++ [x]) rest -> pop_back (vec (l ++ [x]) rest) = Ok (vec l (None :: rest)).
Proof.
  intros Hr. destruct (shrink_vec _ _ _ Hr) as [E Hr']. unfold pop_back. cbn [m_size m_arena vec].
  rewrite (proj2 (Z.ltb_lt _ _)) by (rewrite length_app; cbn; lia). cbn [nvcv_assert].
  replace (Z.of_nat (length (l ++ [x])) - 1) with (Z.of_nat (length l)) by (rewrite length_app; cbn; lia). rewrite E. cbn [mbind outcome_bind].
  by apply checked_vec.
Qed.

Lemma clear_vec l rest : room l rest -> clear (vec l rest) = Ok (vec [] (replicate (length l) None ++ rest)).
Proof.
  intros Hr. destruct (shrink_vec [] l rest Hr) as [E Hr']. unfold clear. cbn [m_size m_arena vec].
  change (destroy ((Some <$> l) ++ rest) 0 (Z.of_nat (length l)) = Ok (m_arena (vec [] (replicate (length l) None ++ rest)))) in E.
  rewrite E. cbn [mbind outcome_bind]. by apply (checked_vec []).
Qed.

Lemma erase_vec l1 l2 l3 rest : room (l1 ++ l2 ++ l3) rest ->
  erase (vec (l1 ++ l2 ++ l3) rest) (Z.of_nat (length l1)) (Z.of_nat (length (l1 ++ l2))) =
    Ok (vec (l1 ++ l3) (replicate (length l2) None ++ rest)).
Proof.
  intros Hr. unfold erase. cbn [m_size m_arena vec]. rewrite !length_app, !Nat2Z.inj_add.
  rewrite (proj2 (Z.leb_le 0 _)), !(proj2 (Z.leb_le _ _)) by lia. cbn [andb nvcv_assert]. cbv zeta.
  destruct (swap_ranges_spec l1 l2 l3 rest) as (l2' & Hl & E). rewrite length_app, Nat2Z.inj_add in E.
  replace (Z.of_nat (length l1) + (Z.of_nat (length l2) + Z.of_nat (length l3)) - (Z.of_nat (length l1) + Z.of_nat (length l2)))
    with (Z.of_nat (length l3)) by lia. rewrite E. cbn [mbind outcome_bind].
  replace (Z.of_nat (length l1) + (Z.of_nat (length l2) + Z.of_nat (length l3)) - (Z.of_nat (length l1) + Z.of_nat (length l2) - Z.of_nat (length l1)))
    with (Z.of_nat (length (l1 ++ l3))) by (rewrite length_app; lia).
  assert (MkVector (Z.of_nat (length l1) + (Z.of_nat (length l2) + Z.of_nat (length l3))) ((Some <$> l1 ++ l3 ++ l2') ++ rest) =
    vec ((l1 ++ l3) ++ l2') rest) as ->.
  { unfold vec. rewrite <- app_assoc, !length_app, Hl. f_equal. lia. }
  rewrite resize_shrink; [by rewrite Hl|]. unfold room in *. rewrite !length_app in *. lia.
Qed.
(** ** Whole vectors *)

(** The other vector after its elements were moved from. *)
Definition moved_from (l : list V) (rest : list (option V)) : StaticVector :=
  vec (if trivially_copyable then l else moved <$> l) rest.

Lemma leave_all l rest : (if trivially_copyable then Ok ((Some <$> l) ++ rest) else leave_moved ((Some <$> l) ++ rest) 0 (Z.of_nat (length l))) =
  Ok (m_arena (moved_from l rest)).
Proof. unfold moved_from. destruct trivially_copyable; [done|]. exact (leave_moved_spec [] l rest). Qed.

Lemma moved_from_size l rest : m_size (moved_from l rest) = Z.of_nat (length l).
Proof. unfold moved_from. destruct trivially_copyable; [done|]. cbn. by rewrite length_fmap. Qed.

Lemma moved_from_vector l rest : MkVector (Z.of_nat (length l)) (m_arena (moved_from l rest)) = moved_from l rest.
Proof. rewrite <- (moved_from_size l rest). by destruct (moved_from l rest). Qed.

(** The elements [l] overwritten and continued by [vs]. *)
Lemma store_over l vs rest : room l rest -> (length vs <= N)%nat -> (length l <= length vs)%nat ->
  store ((Some <$> l) ++ rest) 0 vs = Ok (m_arena (vec vs (drop (length vs - length l) rest))) /\ room vs (drop (length vs - length l) rest).
Proof.
  intros Hr Hv Hl. unfold room in *. split; [|rewrite length_drop; lia].
  rewrite <- (take_drop (length vs - length l) rest) at 1. rewrite app_assoc.
  pose proof (store_spec [] ((Some <$> l) ++ take (length vs - length l) rest) vs (drop (length vs - length l) rest)) as E.
  apply E. rewrite length_app, length_fmap, length_take. lia.
Qed.

Lemma store_front l1 l2 vs rest : length l1 = length vs -> store ((Some <$> l1 ++ l2) ++ rest) 0 vs = Ok ((Some <$> vs ++ l2) ++ rest).
Proof.
  intros Hl. rewrite !fmap_app, <- !app_assoc. apply (store_spec [] (Some <$> l1) vs). by rewrite length_fmap.
Qed.

Lemma store_app a i vs ws : store a i (vs ++ ws) = (a ← store a i vs; store a (i + Z.of_nat (length vs)) ws).
Proof.
  revert a i. induction vs as [|v vs IH]; intros a i; [cbn; by rewrite Z.add_0_r|]. cbn [app store].
  destruct (wr a i (Some v)); [|done..]. cbn [mbind outcome_bind]. rewrite IH. cbn [length].
  by replace (i + Z.of_nat (S (length vs))) with (i + 1 + Z.of_nat (length vs)) by lia.
Qed.

(** The slots behind [vs] when a vector of [k] elements and the slots [rest] takes [vs] over. *)
Definition slots_after (k n : nat) (rest : list (option V)) : list (option V) :=
  if (k <=? n)%nat then drop (n - k) rest else replicate (k - n) None ++ rest.

Lemma overwrite_vec l vs rest : room l rest -> (length vs <= N)%nat ->
  (a ← store ((Some <$> l) ++ rest) 0 vs;
   if (length l <=? length vs)%nat then Ok a else destroy a (Z.of_nat (length vs)) (Z.of_nat (length l))) =
    Ok (m_arena (vec vs (slots_after (length l) (length vs) rest))) /\ room vs (slots_after (length l) (length vs) rest).
Proof.
  intros Hr Hv. unfold slots_after. destruct (Nat.leb_spec (length l) (length vs)) as [Hle|Hgt].
  - destruct (store_over l vs rest Hr Hv Hle) as [-> H]. done.
  - rewrite <- (take_drop (length vs) l) at 1. rewrite store_front by (rewrite length_take; lia). cbn [mbind outcome_bind].
    assert (length (vs ++ drop (length vs) l) = length l) as El by (rewrite length_app, length_drop; lia).
    destruct (shrink_vec vs (drop (length vs) l) rest) as [E H]; [unfold room in *; by rewrite El|].
    rewrite El, length_drop in E. rewrite E. rewrite length_drop in H. done.
Qed.

Lemma copy_construct_vec l rest : room l rest -> copy_construct (vec l rest) = Ok (vec l (replicate (N - length l) None)).
Proof.
  intros Hr. unfold copy_construct. cbn [m_size m_arena vec]. rewrite load_all. cbn [mbind outcome_bind].
  pose proof (store_behind [] l (replicate N None)) as E. unfold room in Hr.
  cbn [fmap list_fmap app length] in E. change (Z.of_nat 0) with 0 in E. rewrite E by (rewrite length_replicate; lia).
  cbn [mbind outcome_bind]. by rewrite drop_replicate.
Qed.

Lemma move_construct_vec l rest : room l rest ->
  move_construct (vec l rest) = Ok (vec l (replicate (N - length l) None), moved_from l rest).
Proof.
  intros Hr. pose proof (copy_construct_vec l rest Hr) as E. unfold copy_construct, move_construct in *. cbn [m_size m_arena vec] in *.
  rewrite load_all in *. cbn [mbind outcome_bind] in *. destruct (store _ 0 l) as [a| |]; [|done..]. cbn [mbind outcome_bind] in *.
  rewrite leave_all. cbn [mbind outcome_bind]. injection E as ->. change (MkVector (Z.of_nat (length l)) ((Some <$> l) ++ replicate (N - length l) None)) with (vec l (replicate (N - length l) None)).
  rewrite checked_vec by (unfold room in *; rewrite length_replicate; lia). cbn [mbind outcome_bind]. by rewrite moved_from_vector.
Qed.

Lemma copy_assign_vec l l' rest rest' : room l rest -> room l' rest' ->
  copy_assign (vec l rest) (vec l' rest') = Ok (vec l' (slots_after (length l) (length l') rest)).
Proof.
  intros Hr Hr'. assert (length l' <= N)%nat as Hl' by (unfold room in Hr'; lia). destruct (overwrite_vec l l' rest Hr Hl') as [E _].
  unfold copy_assign. cbn [m_size m_arena vec]. rewrite load_all. cbn [mbind outcome_bind]. cbv zeta. destruct (Nat.leb_spec (length l) (length l')) as [Hle|Hgt].
  - rewrite Z.min_l, Nat2Z.id by lia. rewrite <- (take_drop (length l) l') in E at 1. rewrite store_app in E.
    rewrite length_take, Nat.min_l, Z.add_0_l in E by lia. destruct (store _ 0 _) as [a| |]; [|done..]. cbn [mbind outcome_bind] in *.
    destruct (Z.ltb_spec (Z.of_nat (length l)) (Z.of_nat (length l'))).
    + destruct (store a _ _); [|done..]. cbn [mbind outcome_bind] in *. by injection E as ->.
    + rewrite (proj2 (Z.ltb_ge _ _)) by lia. rewrite drop_ge in E by lia. cbn [store mbind outcome_bind] in *. by injection E as ->.
  - rewrite Z.min_r, Nat2Z.id, take_ge by lia. destruct (store _ 0 _) as [a| |]; [|done..]. cbn [mbind outcome_bind] in *.
    rewrite (proj2 (Z.ltb_ge _ _)), (proj2 (Z.ltb_lt _ _)) by lia. rewrite E. done.
Qed.

Lemma move_assign_vec l l' rest rest' : trivially_copyable = false -> room l rest -> room l' rest' ->
  move_assign (vec l rest) (vec l' rest') = Ok (vec l' (slots_after (length l) (length l') rest), moved_from l' rest').
Proof.
  intros Ht Hr Hr'. pose proof (leave_all l' rest') as EL. pose proof (moved_from_vector l' rest') as EV.
  assert (length l' <= N)%nat as Hl' by (unfold room in Hr'; lia). destruct (overwrite_vec l l' rest Hr Hl') as [E Hroom].
  unfold move_assign. cbn [m_size m_arena vec]. rewrite load_all, Ht in *. cbn [mbind outcome_bind].
  assert (forall a, a = m_arena (vec l' (slots_after (length l) (length l') rest)) ->
    (rest0 ← leave_moved ((Some <$> l') ++ rest') 0 (Z.of_nat (length l'));
     v ← doCheckInvariants (MkVector (Z.of_nat (length l')) a); Ok (v, MkVector (Z.of_nat (length l')) rest0)) =
    Ok (vec l' (slots_after (length l) (length l') rest), moved_from l' rest')) as HF.
  { intros a ->. rewrite EL. cbn [mbind outcome_bind]. rewrite EV. cbn [m_arena vec].
    change (MkVector (Z.of_nat (length l')) ((Some <$> l') ++ slots_after (length l) (length l') rest)) with (vec l' (slots_after (length l) (length l') rest)).
    by rewrite checked_vec. }
  destruct (Nat.leb_spec (length l) (length l')) as [Hle|Hgt].
  - rewrite (proj2 (Z.leb_le _ _)), Nat2Z.id by lia. rewrite <- (take_drop (length l) l') in E at 1. rewrite store_app in E.
    rewrite length_take, Nat.min_l, Z.add_0_l in E by lia. destruct (store _ 0 _) as [a| |]; [|done..]. cbn [mbind outcome_bind] in *.
    destruct (store a _ _); [|done..]. cbn [mbind outcome_bind] in *. apply HF. by injection E as ->.
  - rewrite (proj2 (Z.leb_gt _ _)) by lia. destruct (store _ 0 _) as [a| |]; [|done..]. cbn [mbind outcome_bind] in *. rewrite E. cbn [mbind outcome_bind]. by apply HF.
Qed.

(** ** Refinement *)

(** An operation; the source of an assignment has the elements [l] and the slots [rest]. *)
Inductive operation :=
| PushBack (x : V)
| PopBack
| Resize (n : nat)
| Clear
| Erase (beg end_ : nat)
| CopyAssign (l : list V) (rest : list (option V))
| MoveAssign (l : list V) (rest : list (option V)).

Definition run (o : operation) (v : StaticVector) : outcome StaticVector :=
  match o with
  | PushBack x => push_back v x
  | PopBack => pop_back v
  | Resize n => resize v (Z.of_nat n)
  | Clear => clear v
  | Erase b e => erase v (Z.of_nat b) (Z.of_nat e)
  | CopyAssign l rest => copy_assign v (vec l rest)
  | MoveAssign l rest => fst <$> move_assign v (vec l rest)
  end.

(** The same on lists. *)
Definition list_op (o : operation) (l : list V) : outcome (list V) :=
  match o with
  | PushBack x => if (N <=? length l)%nat then Throw bad_alloc else Ok (l ++ [x])
  | PopBack => if (length l =? 0)%nat then Stuck else Ok (take (length l - 1) l)
  | Resize n =>
      if (N <? n)%nat then Throw bad_alloc
      else if (n <=? length l)%nat then Ok (take n l)
      else if default_constructible then Ok (l ++ replicate (n - length l) dflt) else Throw runtime_error
  | Clear => Ok []
  | Erase b e => if (b <=? e)%nat && (e <=? length l)%nat then Ok (take b l ++ drop e l) else Stuck
  | CopyAssign l' _ | MoveAssign l' _ => Ok l'
  end.

Definition operation_ok (o : operation) : Prop :=
  match o with CopyAssign l rest | MoveAssign l rest => room l rest | _ => True end.

Lemma all_raw_slots_after k n rest : all_raw rest -> all_raw (slots_after k n rest).
Proof.
  intros H. unfold slots_after. destruct (k <=? n)%nat; [by apply Forall_drop|]. apply Forall_app. split; [apply all_raw_replicate|done].
Qed.

Lemma room_slots_after l l' rest : room l rest -> (length l' <= N)%nat -> room l' (slots_after (length l) (length l') rest).
Proof. intros Hr Hl. by destruct (overwrite_vec l l' rest Hr Hl). Qed.

(** A result that has room and leaves no objects behind the elements. *)
Definition implements (r : outcome StaticVector) (l' : outcome (list V)) (rest : list (option V)) : Prop :=
  match l' with
  | Ok l' => exists rest', r = Ok (vec l' rest') /\ room l' rest' /\ (all_raw rest -> all_raw rest')
  | Throw e => r = Throw e
  | Stuck => r = Stuck
  end.

Lemma run_implements o l rest : trivially_copyable = false -> room l rest -> operation_ok o -> implements (run o (vec l rest)) (list_op o l) rest.
Proof.
  intros Ht Hr Ho. assert (forall n, room (take n l ++ drop n l) rest) as Hsplit by (intros n; by rewrite take_drop).
  destruct o as [x| |n| |b e|l' rest'|l' rest']; cbn [run list_op].
  - rewrite push_back_vec by done. destruct (Nat.leb_spec N (length l)); [done|]. eexists. split; [done|]. split; [|by apply Forall_drop].
    unfold room in *. rewrite length_app, length_drop. cbn. lia.
  - destruct (Nat.eqb_spec (length l) 0) as [E|Hne]; [destruct l; [done|done]|].
    destruct l as [|y l0 _] using rev_ind; [done|]. rewrite pop_back_vec by done.
    rewrite length_app. cbn [length]. rewrite Nat.add_sub, take_app_length. eexists. split; [done|].
    split; [unfold room in *; rewrite length_app in Hr; cbn in *; lia|by constructor].
  - destruct (Nat.leb_spec n (length l)) as [Hle|Hgt].
    + rewrite (proj2 (Nat.ltb_ge N n)) by (unfold room in Hr; lia).
      pose proof (resize_shrink (take n l) (drop n l) rest (Hsplit n)) as E. rewrite take_drop, length_take, Nat.min_l in E by done.
      rewrite E. eexists. split; [done|]. split; [|intros H; apply Forall_app; split; [apply all_raw_replicate|done]].
      unfold room in *. rewrite length_app, length_replicate, length_drop, length_take. lia.
    + rewrite resize_grow by done. destruct (Nat.ltb_spec N n); [done|]. destruct default_constructible; [|done].
      eexists. split; [done|]. split; [|by apply Forall_drop]. unfold room in *. rewrite length_app, length_replicate, length_drop. lia.
  - rewrite clear_vec by done. eexists. split; [done|]. split; [|intros H; apply Forall_app; split; [apply all_raw_replicate|done]].
    unfold room in *. rewrite length_app, length_replicate. cbn. lia.
  - destruct (Nat.leb_spec b e) as [Hbe|Hbe], (Nat.leb_spec e (length l)) as [He|He]; cbn [andb implements].
    2-4: unfold erase; cbn [m_size vec]; unfold nvcv_assert;
      (destruct (_ && _) eqn:E; [bool_hyps; lia|done]).
    assert (l = take b l ++ take (e - b) (drop b l) ++ drop e l) as El.
    { rewrite <- (take_drop b l) at 1. f_equal. rewrite <- (take_drop (e - b) (drop b l)) at 1. f_equal. rewrite drop_drop. f_equal. lia. }
    pose proof (erase_vec (take b l) (take (e - b) (drop b l)) (drop e l) rest) as E. rewrite <- El in E. specialize (E Hr).
    rewrite app_assoc in El. rewrite length_app, !length_take, length_drop, !Nat.min_l in E by lia.
    replace (b + (e - b))%nat with e in E by lia. rewrite E. eexists. split; [done|].
    split; [|intros H; apply Forall_app; split; [apply all_raw_replicate|done]].
    unfold room in *. rewrite !length_app, length_replicate, length_drop, length_take. lia.
  - rewrite (copy_assign_vec l l' rest rest') by done. eexists. split; [done|].
    split; [apply room_slots_after; [done|unfold operation_ok, room in Ho; lia]|apply all_raw_slots_after].
  - rewrite (move_assign_vec l l' rest rest') by done. eexists. split; [done|].
    split; [apply room_slots_after; [done|unfold operation_ok, room in Ho; lia]|apply all_raw_slots_after].
Qed.
(** A client goes on with the vector as it was when an operation throws. *)
Definition attempt {S} (s : S) (r : outcome S) : outcome S := match r with Throw _ => Ok s | r => r end.

Definition exec (v : StaticVector) (o : operation) : outcome StaticVector := attempt v (run o v).
Definition list_exec (l : list V) (o : operation) : outcome (list V) := attempt l (list_op o l).

Lemma exec_all ops l rest : trivially_copyable = false -> Forall operation_ok ops -> room l rest -> all_raw rest ->
  match mfold list_exec ops l with
  | Ok l' => exists rest', mfold exec ops (vec l rest) = Ok (vec l' rest') /\ room l' rest' /\ all_raw rest'
  | Throw _ => False
  | Stuck => mfold exec ops (vec l rest) = Stuck
  end.
Proof.
  intros Ht Hops. revert l rest. induction Hops as [|o ops Ho _ IH]; intros l rest Hr Ha; [by exists rest|].
  cbn [mfold]. change (list_exec l o) with (attempt l (list_op o l)).
  change (exec (vec l rest) o) with (attempt (vec l rest) (run o (vec l rest))). pose proof (run_implements o l rest Ht Hr Ho) as H. unfold implements in H.
  destruct (list_op o l) as [l'|e|]; cbn [attempt mbind outcome_bind].
  - destruct H as (rest' & -> & Hr' & Ha'). cbn [attempt mbind outcome_bind]. by apply IH; [|apply Ha'].
  - rewrite H. cbn [attempt mbind outcome_bind]. by apply IH.
  - by rewrite H.
Qed.

Lemma at_vec l rest i : at_ (vec l rest) i =
  if i <? 0 then Throw out_of_range else match l !! Z.to_nat i with Some x => Ok x | None => Throw out_of_range end.
Proof.
  unfold at_. cbn [m_size m_arena vec]. destruct (Z.ltb_spec i 0); [done|]. cbn [orb]. destruct (l !! Z.to_nat i) as [x|] eqn:E.
  - pose proof (lookup_lt_Some _ _ _ E). rewrite (proj2 (Z.leb_gt _ _)) by lia. cbn [throw_if]. apply load_at; [lia|].
    apply lookup_app_l_Some. by rewrite list_lookup_fmap, E.
  - apply lookup_ge_None in E. by rewrite (proj2 (Z.leb_le _ _)) by lia.
Qed.

Lemma index_vec l rest i x : 0 <= i -> l !! Z.to_nat i = Some x -> index (vec l rest) i = Ok x.
Proof.
  intros Hi E. pose proof (lookup_lt_Some _ _ _ E). unfold index. cbn [m_size m_arena vec].
  rewrite (proj2 (Z.leb_le 0 i)), (proj2 (Z.ltb_lt _ _)) by lia. cbn [nvcv_assert]. apply load_at; [lia|].
  apply lookup_app_l_Some. by rewrite list_lookup_fmap, E.
Qed.

Lemma front_vec x l rest : front (vec (x :: l) rest) = Ok x.
Proof. unfold front. cbn [m_size m_arena vec]. rewrite (proj2 (Z.ltb_lt _ _)) by (cbn; lia). by apply load_at. Qed.

Lemma back_vec l x rest : back (vec (l ++ [x]) rest) = Ok x.
Proof.
  unfold back. cbn [m_size m_arena vec]. rewrite length_app. cbn [length]. rewrite (proj2 (Z.ltb_lt _ _)) by lia. cbn [nvcv_assert].
  apply load_at; [lia|]. apply lookup_app_l_Some. replace (Z.to_nat _) with (length l) by lia.
  by rewrite list_lookup_fmap, lookup_app_r, Nat.sub_diag by lia.
Qed.

Lemma finish_vec l rest : room l rest -> all_raw rest -> finish (vec l rest) = Ok (replicate N None).
Proof.
  intros Hr Ha. unfold finish. cbn [m_size m_arena vec]. destruct (shrink_vec [] l rest Hr) as [E _].
  change (destroy ((Some <$> l) ++ rest) 0 (Z.of_nat (length l)) = Ok (replicate (length l) None ++ rest)) in E. rewrite E. f_equal.
  assert (rest = replicate (length rest) None) as ->.
  { clear -Ha. induction Ha as [|o rest -> _ IH]; [done|]. cbn. by f_equal. }
  rewrite <- replicate_add. unfold room in Hr. by rewrite Hr.
Qed.

(** A static vector of objects is a list of at most [N]. After any sequence of
    operations from the empty vector, those that throw included, the vector holds
    the elements the same operations give on lists, has thrown and failed its
    assertions exactly where these do, and reads as that list; no slot behind the
    elements holds an object, so the destructor destroys every object once. *)
Theorem static_vector_refines ops (Ht : trivially_copyable = false) (Hops : Forall operation_ok ops) :
  match mfold list_exec ops [] with
  | Ok l => exists v, mfold exec ops empty_vector = Ok v /\ m_size v = Z.of_nat (length l) /\ (length l <= N)%nat /\
      (forall o, operation_ok o -> match list_op o l with Ok _ => is_ok (run o v) = true | Throw e => run o v = Throw e | Stuck => run o v = Stuck end) /\
      (forall i, at_ v i = if i <? 0 then Throw out_of_range else match l !! Z.to_nat i with Some x => Ok x | None => Throw out_of_range end) /\
      finish v = Ok (replicate N None)
  | Throw _ => False
  | Stuck => mfold exec ops empty_vector = Stuck
  end.
Proof.
  assert (empty_vector = vec [] (replicate N None)) as -> by done.
  pose proof (exec_all ops [] (replicate N None) Ht Hops) as H. unfold room in H at 1. rewrite length_replicate in H.
  specialize (H eq_refl (all_raw_replicate N)). destruct (mfold list_exec ops []) as [l| |]; [|done..].
  destruct H as (rest & E & Hr & Ha). exists (vec l rest). split_and!; [done|done|unfold room in Hr; lia| |apply at_vec|by apply finish_vec].
  intros o Ho. pose proof (run_implements o l rest Ht Hr Ho) as H. unfold implements in H. destruct (list_op o l); [|done..].
  by destruct H as (rest' & -> & _).
Qed.
End Vector.

(** ** Concrete vectors *)

Module Concrete.

(** Three integers that leave -1 behind when they are moved from. *)
Definition ops : list (operation (V := Z)) :=
  [PushBack 5; Resize 3; Resize 4; Erase 0 1; MoveAssign [7; 8] [None]; PopBack].

Lemma static_vector_refines_witness :
  exists v, mfold (exec 3 (fun _ => -1) 0 false true) ops (empty_vector 3) = Ok v /\ m_size v = 1 /\
    finish v = Ok [None; None; None].
Proof.
  pose proof (static_vector_refines 3 (fun _ => -1) 0 false true ops eq_refl) as H.
  assert (Forall (operation_ok 3) ops) as Hops by (repeat constructor). specialize (H Hops).
  destruct H as (v & E & Hs & _ & _ & _ & Hf). exists v. split; [exact E|]. split; [exact Hs|exact Hf].
Defined.

(** Swapping vectors of different sizes leaves the objects moved from behind the
    shorter one: they are never destroyed. *)
Lemma swap_leaves_objects :
  (ab ← swap (V := Z) 3 (fun _ => -1) false (MkVector 1 [Some 1; None; None]) (MkVector 2 [Some 2; Some 3; None]);
   a ← finish ab.1; b ← finish ab.2; Ok (a, b)) = Ok ([None; None; None], [None; Some (-1); None]).
Proof. reflexivity. Qed.

End Concrete.
