(* ===== verification/LockFreeStack.v ===== *)
(** * The lock-free stack of resources (priv/LockFreeStack.hpp)

    Threads run [pop], [push], [pushStack] and [release] on a shared head
    pointer whose lowest bit locks it. Each atomic access is one step; steps of
    different threads interleave in any order and a weak compare-and-exchange
    may fail spuriously. Memory is sequentially consistent: the memory-order
    arguments of the code are not modelled. *)
From S2P Require Import Prelude.
From stdpp Require Import options.

(** ** Pointers and shared memory *)

Definition ptr := Z.
Definition null : ptr := 0.

Definition doGetUnlocked (p : ptr) : ptr := Z.land p (-2).
Definition doGetLocked (p : ptr) : ptr := Z.lor p 1.

(** The head and the [next] field of every node. *)
Record shared := mkShared { m_head : ptr; next : gmap ptr ptr }.

Definition load_next (s : shared) (n : ptr) : option ptr := next s !! n.
Definition store_next (s : shared) (n v : ptr) : option shared :=
  match next s !! n with
  | Some _ => Some (mkShared (m_head s) (<[n := v]> (next s)))
  | None => None
  end.

(** ** Programs

    The position of a thread inside an operation; [first] and [last] are the
    ends of the chain being pushed ([push n] is [pushStack n n]). *)
Inductive pc :=
| Idle
| PopLoad
| PopCas (head : ptr)
| PopLoad2
| PopNext (oldHead : ptr)
| PopCas2 (oldHead newHead : ptr)
| PopDone (result : ptr)
| PushLoad (first last : ptr)
| PushSet (first last oldHead : ptr)
| PushCas (first last oldHead : ptr)
| PushDone
| ReleaseLoad
| ReleaseCas (h : ptr)
| ReleaseDone (result : ptr).

(** One atomic step of a running operation; [spurious] makes a weak
    compare-and-exchange fail. [Stuck] is an access outside the nodes. *)
Definition cas (s : shared) (spurious : bool) (expected desired : ptr) : bool * shared :=
  if negb spurious && (m_head s =? expected) then (true, mkShared desired (next s)) else (false, s).

Definition tstep (spurious : bool) (s : shared) (p : pc) : outcome (shared * pc) :=
  match p with
  | PopLoad =>
      let head := doGetUnlocked (m_head s) in
      if head =? null then Ok (s, PopDone null) else Ok (s, PopCas head)
  | PopCas head =>
      let '(ok, s) := cas s spurious head (doGetLocked head) in
      Ok (s, if ok then PopLoad2 else PopLoad)
  | PopLoad2 => Ok (s, PopNext (m_head s))
  | PopNext oldHead =>
      match load_next s (doGetUnlocked oldHead) with
      | Some newHead => Ok (s, PopCas2 oldHead newHead)
      | None => Stuck
      end
  | PopCas2 oldHead newHead =>
      let '(ok, s) := cas s spurious oldHead newHead in
      Ok (s, if ok then PopDone (doGetUnlocked oldHead) else PopLoad2)
  | PushLoad first last => Ok (s, PushSet first last (doGetUnlocked (m_head s)))
  | PushSet first last oldHead =>
      match store_next s last oldHead with
      | Some s => Ok (s, PushCas first last oldHead)
      | None => Stuck
      end
  | PushCas first last oldHead =>
      let '(ok, s) := cas s spurious oldHead first in
      Ok (s, if ok then PushDone else PushLoad first last)
  | ReleaseLoad => Ok (s, ReleaseCas (m_head s))
  | ReleaseCas h =>
      let '(ok, s') := cas s spurious h null in
      Ok (s', if ok then ReleaseDone h else ReleaseCas (m_head s))
  | Idle | PopDone _ | PushDone | ReleaseDone _ => Stuck
  end.

(** The operations that are a single access. *)
Definition top (s : shared) : ptr := doGetUnlocked (m_head s).
Definition clear (s : shared) : shared := mkShared null (next s).
Definition empty (s : shared) : bool := m_head s =? null.

(** ** Interleavings

    A thread owns the nodes it popped and has not pushed, writes their [next]
    fields at will, and starts operations. *)
Record thread := mkThread { t_pc : pc; held : list ptr; pushing : list ptr }.
Definition threads := nat -> thread.
Record state := mkState { sh : shared; ths : threads }.

Definition upd (f : threads) (t : nat) (th : thread) : threads :=
  fun t' => if decide (t' = t) then th else f t'.

(** The nodes of [l] are linked in order from [first] to [last]. *)
Fixpoint linked (nx : gmap ptr ptr) (l : list ptr) : Prop :=
  match l with
  | a :: ((b :: _) as rest) => nx !! a = Some b /\ linked nx rest
  | _ => True
  end.

Inductive step : state -> state -> Prop :=
| Step_run s f t sp s' p' :
    tstep sp s (t_pc (f t)) = Ok (s', p') ->
    step (mkState s f) (mkState s' (upd f t (mkThread p' (held (f t)) (pushing (f t)))))
| Step_write s f t n v s' :
    t_pc (f t) = Idle -> n ∈ held (f t) -> store_next s n v = Some s' ->
    step (mkState s f) (mkState s' (upd f t (f t)))
| Step_pop s f t :
    t_pc (f t) = Idle ->
    step (mkState s f) (mkState s (upd f t (mkThread PopLoad (held (f t)) [])))
| Step_popped s f t r :
    t_pc (f t) = PopDone r ->
    step (mkState s f)
      (mkState s (upd f t (mkThread Idle (if r =? null then held (f t) else r :: held (f t)) [])))
| Step_push s f t c rest first last :
    t_pc (f t) = Idle -> held (f t) ≡ₚ c ++ rest ->
    head c = Some first -> list.last c = Some last -> linked (next s) c ->
    step (mkState s f) (mkState s (upd f t (mkThread (PushLoad first last) rest c)))
| Step_pushed s f t :
    t_pc (f t) = PushDone ->
    step (mkState s f) (mkState s (upd f t (mkThread Idle (held (f t)) []))).

(** The step a thread with [release] adds; the properties below are about
    clients that do not call it, the last ones show why. *)
Inductive step_release : state -> state -> Prop :=
| Step_release s f t :
    t_pc (f t) = Idle ->
    step_release (mkState s f) (mkState s (upd f t (mkThread ReleaseLoad (held (f t)) []))).

(** ** Abstract stack *)

Inductive aop := APush (c : list ptr) | APop (n : ptr) | AEmpty.

Definition aapply (o : option aop) (stk stk' : list ptr) : Prop :=
  match o with
  | None => stk' = stk
  | Some (APush c) => stk' = c ++ stk
  | Some (APop n) => stk = n :: stk'
  | Some AEmpty => stk = [] /\ stk' = []
  end.

(** The step at which an operation takes effect. *)
Definition lin_point (p p' : pc) (c : list ptr) : option aop :=
  match p, p' with
  | PopCas2 _ _, PopDone n => Some (APop n)
  | PopLoad, PopDone _ => Some AEmpty
  | PushCas _ _ _, PushDone => Some (APush c)
  | _, _ => None
  end.

(** ** Invariant *)

(** The nodes a thread owns. *)
Definition popped (p : pc) : list ptr :=
  match p with PopDone r => if r =? null then [] else [r] | _ => [] end.
Definition in_flight (th : thread) : list ptr :=
  match t_pc th with PushLoad _ _ | PushSet _ _ _ | PushCas _ _ _ => pushing th | _ => [] end.
Definition owned (th : thread) : list ptr := held th ++ in_flight th ++ popped (t_pc th).

(** The thread holds the lock bit. *)
Definition locks (p : pc) : bool :=
  match p with PopLoad2 | PopNext _ | PopCas2 _ _ => true | _ => false end.

Fixpoint chain (nx : gmap ptr ptr) (p : ptr) (l : list ptr) : Prop :=
  match l with
  | [] => p = null
  | n :: rest => p = n /\ exists q, nx !! n = Some q /\ chain nx q rest
  end.

Definition node (s : shared) (n : ptr) : Prop := n <> null /\ Z.Even n /\ is_Some (next s !! n).

Definition ends (nx : gmap ptr ptr) (c : list ptr) (first last : ptr) : Prop :=
  head c = Some first /\ list.last c = Some last /\ linked nx c.

Definition pc_ok (s : shared) (th : thread) : Prop :=
  match t_pc th with
  | PopCas h => h <> null /\ Z.Even h
  | PopNext o => o = m_head s
  | PopCas2 o n => o = m_head s /\ next s !! doGetUnlocked o = Some n
  | PushLoad a b => ends (next s) (pushing th) a b
  | PushSet a b o => ends (next s) (pushing th) a b /\ Z.Even o
  | PushCas a b o => ends (next s) (pushing th) a b /\ next s !! b = Some o /\ Z.Even o
  | ReleaseLoad | ReleaseCas _ | ReleaseDone _ => False
  | _ => True
  end.

Record separate (f : threads) (stk : list ptr) : Prop := {
  sep_stk : NoDup stk;
  sep_own : forall t, NoDup (owned (f t));
  sep_stk_own : forall t n, n ∈ owned (f t) -> n ∉ stk;
  sep_own_own : forall t t' n, n ∈ owned (f t) -> n ∈ owned (f t') -> t = t' }.

Record inv (st : state) (stk : list ptr) : Prop := {
  inv_sep : separate (ths st) stk;
  inv_stk_nodes : Forall (node (sh st)) stk;
  inv_own_nodes : forall t, Forall (node (sh st)) (owned (ths st t));
  inv_chain : chain (next (sh st)) (doGetUnlocked (m_head (sh st))) stk;
  inv_lock : forall t t', locks (t_pc (ths st t)) = true -> locks (t_pc (ths st t')) = true -> t = t';
  inv_locked : forall t, locks (t_pc (ths st t)) = true -> exists n, head stk = Some n /\ m_head (sh st) = doGetLocked n;
  inv_unlocked : (forall t, locks (t_pc (ths st t)) = false) -> Z.Even (m_head (sh st));
  inv_pc : forall t, pc_ok (sh st) (ths st t) }.

(** ** Lemmas *)

Lemma unlocked_even p : Z.Even p -> doGetUnlocked p = p.
Proof.
  intros [k ->]. unfold doGetUnlocked. apply Z.bits_inj'. intros i Hi.
  rewrite Z.land_spec. change (-2) with (Z.lnot 1). rewrite Z.lnot_spec by done.
  destruct (decide (i = 0)) as [->|]; [by rewrite Z.testbit_even_0|].
  replace (Z.testbit 1 i) with false; [by rewrite andb_true_r|].
  symmetry. change 1 with (2 ^ 0). apply Z.pow2_bits_false. lia.
Qed.

Lemma unlocked_is_even p : Z.Even (doGetUnlocked p).
Proof.
  apply Z.even_spec. unfold doGetUnlocked. rewrite <- Z.negb_odd, <- Z.bit0_odd, Z.land_spec.
  change (Z.testbit (-2) 0) with false. by rewrite andb_false_r.
Qed.

Lemma unlocked_locked n : Z.Even n -> doGetUnlocked (doGetLocked n) = n.
Proof.
  intros Hn. rewrite <- (unlocked_even n) at 2 by done. unfold doGetUnlocked, doGetLocked.
  rewrite Z.land_lor_distr_l. change (Z.land 1 (-2)) with 0. by rewrite Z.lor_0_r.
Qed.

Lemma locked_odd n : ~ Z.Even (doGetLocked n).
Proof.
  intros H%Z.even_spec. revert H. unfold doGetLocked. rewrite <- Z.negb_odd, <- Z.bit0_odd, Z.lor_spec.
  by rewrite orb_true_r.
Qed.

Lemma chain_store nx n v p l : n ∉ l -> chain (<[n := v]> nx) p l <-> chain nx p l.
Proof.
  intros Hn. revert p Hn. induction l as [|a l IH]; intros p Hn; cbn; [done|].
  apply not_elem_of_cons in Hn as [Hna Hn]. rewrite lookup_insert_ne by done.
  split; intros (-> & q & Hq & H); (split; [done|]); exists q; (split; [done|]); by apply IH.
Qed.

Lemma linked_store nx n v l : n ∉ l -> linked nx l -> linked (<[n := v]> nx) l.
Proof.
  induction l as [|a [|b l] IH]; intros Hn; [done..|].
  apply not_elem_of_cons in Hn as [Hna Hn]. intros [H1 H2]. split; [by rewrite lookup_insert_ne|]. by apply IH.
Qed.

Lemma linked_store_last nx v l b : NoDup l -> list.last l = Some b -> linked nx l -> linked (<[b := v]> nx) l.
Proof.
  induction l as [|a [|c l] IH]; intros Hnd Hb; [done..|]. intros [H1 H2].
  apply NoDup_cons in Hnd as [Ha Hnd]. split; [|by apply IH].
  rewrite lookup_insert_ne; [done|]. intros ->. apply Ha.
  by apply (last_Some_elem_of (c :: l)).
Qed.

Lemma linked_chain nx c a b p stk : ends nx c a b -> nx !! b = Some p -> chain nx p stk -> chain nx a (c ++ stk).
Proof.
  unfold ends. revert a. induction c as [|x [|y c] IH]; intros a (Ha & Hb & Hl) Hp Hs; cbn in *; simplify_eq.
  - split; [done|]. by exists p.
  - destruct Hl as [H1 H2]. split; [done|]. exists y. split; [done|]. by apply IH.
Qed.

Lemma upd_same f t th : upd f t th t = th.
Proof. unfold upd. by rewrite decide_True. Qed.
Lemma upd_other f t t' th : t' <> t -> upd f t th t' = f t'.
Proof. intros. unfold upd. by rewrite decide_False. Qed.

Ltac upd_case t' t :=
  destruct (decide (t' = t)) as [->|]; [rewrite ?upd_same in *|rewrite ?upd_other in * by done].

(** Nodes move between the stack and one thread. *)
Lemma separate_move f stk stk' t th (l : list ptr) :
  separate f stk -> NoDup stk' -> NoDup (owned th) ->
  (forall n, n ∈ l -> n ∈ stk \/ n ∈ owned (f t)) ->
  (forall n, n ∈ stk' \/ n ∈ owned th <-> n ∈ l) -> (forall n, n ∈ owned th -> n ∉ stk') ->
  separate (upd f t th) stk'.
Proof.
  intros [S1 S2 S3 S4] N1 N2 Hl Hl' Hd. split; [done|..].
  - intros t'. by upd_case t' t.
  - intros t' n. upd_case t' t; [by apply Hd|]. intros Hn Hs.
    destruct (Hl n) as [H|H]; [by apply Hl'; left|by eapply S3|].
    by assert (t' = t) by (by eapply S4).
  - intros t1 t2 n. upd_case t1 t; upd_case t2 t; intros H1 H2; try done.
    + destruct (Hl n) as [H|H]; [by apply Hl'; right|exfalso; by eapply S3|by eapply S4].
    + destruct (Hl n) as [H|H]; [by apply Hl'; right|exfalso; by eapply S3|by eapply S4].
    + by eapply S4.
Qed.

Lemma elem_of_perm (l l' : list ptr) : l ≡ₚ l' -> forall n, n ∈ l <-> n ∈ l'.
Proof. intros H n. by rewrite H. Qed.

Lemma separate_keep f stk t th :
  separate f stk -> owned th ≡ₚ owned (f t) -> separate (upd f t th) stk.
Proof.
  intros S Hp. pose proof S as [S1 S2 S3 S4]. pose proof (elem_of_perm _ _ Hp) as He.
  eapply (separate_move f stk stk t th (stk ++ owned (f t))); [done|done|by rewrite Hp|..].
  - set_solver.
  - set_solver.
  - intros n Hn. apply (S3 t). by apply He.
Qed.

Lemma separate_push f c stk t th :
  separate f stk -> owned (f t) ≡ₚ c ++ owned th -> separate (upd f t th) (c ++ stk).
Proof.
  intros S Hp. pose proof S as [S1 S2 S3 S4]. pose proof (elem_of_perm _ _ Hp) as He.
  pose proof (S2 t) as Hnd. rewrite Hp, NoDup_app in Hnd. destruct Hnd as (N1 & N2 & N3).
  eapply (separate_move f stk (c ++ stk) t th (c ++ stk ++ owned th)); [done|..].
  - apply NoDup_app. split_and!; [done| |done]. intros n Hn. apply (S3 t). set_solver.
  - done.
  - set_solver.
  - set_solver.
  - intros n Hn Hs. apply elem_of_app in Hs as [Hs|Hs]; [by apply (N2 n)|]. apply (S3 t n); [|done]. set_solver.
Qed.

Lemma separate_pop f n stk t th :
  separate f (n :: stk) -> owned th ≡ₚ n :: owned (f t) -> separate (upd f t th) stk.
Proof.
  intros S Hp. pose proof S as [S1 S2 S3 S4]. pose proof (elem_of_perm _ _ Hp) as He.
  apply NoDup_cons in S1 as [N1 N2].
  eapply (separate_move f (n :: stk) stk t th (n :: stk ++ owned (f t))); [done|done|..].
  - rewrite Hp. apply NoDup_cons. split; [|done]. intros H. apply (S3 t n); [done|]. set_solver.
  - set_solver.
  - set_solver.
  - intros m Hm%He H. apply elem_of_cons in Hm as [->|Hm]; [done|]. apply (S3 t m); [done|]. set_solver.
Qed.

Lemma chain_head s p (stk : list ptr) : chain (next s) p stk -> p <> null -> exists rest, stk = p :: rest.
Proof. destruct stk as [|n rest]; cbn; [done|]. intros [-> _] _. by exists rest. Qed.

Lemma chain_even s p stk : chain (next s) p stk -> Forall (node s) stk -> Z.Even p.
Proof.
  destruct stk as [|n rest]; cbn.
  - intros -> _. by exists 0.
  - intros [-> _] H. apply Forall_cons in H as [(_ & H & _) _]. done.
Qed.

Lemma inv_even st stk : inv st stk -> Z.Even (m_head (sh st)) -> forall t, locks (t_pc (ths st t)) = false.
Proof.
  intros I He t. destruct (locks (t_pc (ths st t))) eqn:E; [|done]. exfalso.
  destruct (inv_locked _ _ I t E) as (n & _ & Hn). rewrite Hn in He. by apply locked_odd in He.
Qed.

Lemma pc_ok_head s h th : locks (t_pc th) = false -> pc_ok s th -> pc_ok (mkShared h (next s)) th.
Proof. unfold pc_ok. by destruct (t_pc th). Qed.

Lemma node_head s h n : node s n -> node (mkShared h (next s)) n.
Proof. done. Qed.

(** A thread moves without touching memory. *)
Lemma inv_local s f stk t th :
  inv (mkState s f) stk -> owned th ≡ₚ owned (f t) -> locks (t_pc th) = locks (t_pc (f t)) ->
  pc_ok s th -> inv (mkState s (upd f t th)) stk.
Proof.
  intros [I1 I2 I3 I4 I5 I6 I7 I8] Ho Hl Hp. cbn [sh ths] in *.
  assert (forall t', locks (t_pc (upd f t th t')) = locks (t_pc (f t'))) as Hl'.
  { intros t'. by upd_case t' t. }
  split; cbn [sh ths]; try done.
  - by apply separate_keep.
  - intros t'. upd_case t' t; [|done]. by rewrite Ho.
  - intros t1 t2. rewrite !Hl'. apply I5.
  - intros t'. rewrite Hl'. apply I6.
  - intros H. apply I7. intros t'. by rewrite <- Hl'.
  - intros t'. by upd_case t' t.
Qed.

Lemma node_store s n v s' : store_next s n v = Some s' -> forall m, node s m -> node s' m.
Proof.
  unfold store_next. destruct (next s !! n); [|done]. intros [= <-] m (H1 & H2 & H3).
  split_and!; [done|done|]. cbn. destruct (decide (m = n)) as [->|]; [by rewrite lookup_insert_eq|].
  by rewrite lookup_insert_ne.
Qed.

Lemma in_flight_owned th n : n ∈ in_flight th -> n ∈ owned th.
Proof. unfold owned. set_solver. Qed.

(** A write to a node the thread does not own leaves its position valid. *)
Lemma pc_ok_store s n v s' th : store_next s n v = Some s' -> n ∉ owned th ->
  (locks (t_pc th) = true -> exists m, m_head s = doGetLocked m /\ Z.Even m /\ m <> n) ->
  pc_ok s th -> pc_ok s' th.
Proof.
  unfold store_next. destruct (next s !! n); [|done]. intros [= <-] Hn Hl.
  assert (forall c a b, c = in_flight th -> ends (next s) c a b -> ends (<[n:=v]> (next s)) c a b) as Hends.
  { intros c a b -> (H1 & H2 & H3). split_and!; [done|done|]. apply linked_store; [|done].
    intros H. by apply Hn, in_flight_owned. }
  assert (forall c a b, c = in_flight th -> ends (next s) c a b -> b <> n) as Hb.
  { intros c a b -> (H1 & H2 & H3) ->. apply Hn, in_flight_owned. by apply last_Some_elem_of. }
  unfold pc_ok. unfold in_flight in *. destruct (t_pc th); cbn [m_head next locks] in *; try done.
  - destruct (Hl eq_refl) as (m & Hm & He & Hmn). intros [-> H]. split; [done|].
    rewrite Hm, unlocked_locked in * by done. by rewrite lookup_insert_ne.
  - by apply Hends.
  - intros [H1 H2]. split; [by apply Hends|done].
  - intros (H1 & H2 & H3). split_and!; [by apply Hends| |done].
    rewrite lookup_insert_ne; [done|]. intros ->. by eapply Hb.
Qed.

(** A thread writes the [next] field of a node it owns. *)
Lemma inv_write s f stk t th n v s' :
  inv (mkState s f) stk -> store_next s n v = Some s' -> n ∈ owned (f t) ->
  owned th ≡ₚ owned (f t) -> locks (t_pc th) = false -> locks (t_pc (f t)) = false ->
  pc_ok s' th -> inv (mkState s' (upd f t th)) stk.
Proof.
  intros [I1 I2 I3 I4 I5 I6 I7 I8] Hs Hn Ho Hl0 Hl Hp. cbn [sh ths] in *.
  assert (m_head s' = m_head s) as Hh.
  { unfold store_next in Hs. destruct (next s !! n); by simplify_eq. }
  assert (exists v, next s' = <[n := v]> (next s)) as [v' Hnx].
  { unfold store_next in Hs. destruct (next s !! n); simplify_eq. by exists v. }
  assert (n ∉ stk) as Hns by (by eapply sep_stk_own).
  assert (forall t', locks (t_pc (upd f t th t')) = locks (t_pc (f t'))) as Hl'.
  { intros t'. upd_case t' t; congruence. }
  split; cbn [sh ths]; rewrite ?Hh; try done.
  - by apply separate_keep.
  - eapply Forall_impl; [done|]. by eapply node_store.
  - intros t'. eapply Forall_impl; [|by eapply node_store]. upd_case t' t; [|done]. by rewrite Ho.
  - rewrite Hnx. by apply chain_store.
  - intros t1 t2. rewrite !Hl'. apply I5.
  - intros t'. rewrite Hl'. apply I6.
  - intros H. apply I7. intros t'. by rewrite <- Hl'.
  - intros t'. upd_case t' t; [done|]. eapply pc_ok_store; [done| | |apply I8].
    + intros H. assert (t = t') by (by eapply sep_own_own). done.
    + intros H. destruct (I6 _ H) as (m & Hm & Hm'). exists m. split; [done|].
      destruct stk as [|x stk]; [done|]. injection Hm as ->. apply Forall_cons in I2 as [(_ & He & _) _].
      split; [done|]. set_solver.
Qed.

(** Taking the lock. *)
Lemma inv_lock_head s f stk t th :
  inv (mkState s f) stk -> t_pc (f t) = PopCas (m_head s) -> owned th ≡ₚ owned (f t) -> t_pc th = PopLoad2 ->
  inv (mkState (mkShared (doGetLocked (m_head s)) (next s)) (upd f t th)) stk.
Proof.
  intros I Hpc Ho Hth. pose proof I as [I1 I2 I3 I4 I5 I6 I7 I8]. cbn [sh ths] in *.
  pose proof (I8 t) as Ht. unfold pc_ok in Ht. rewrite Hpc in Ht. destruct Ht as [Hn He].
  pose proof (inv_even _ _ I He) as Hno. cbn [ths] in Hno.
  assert (forall t', locks (t_pc (upd f t th t')) = true -> t' = t) as Honly.
  { intros t'. upd_case t' t; [done|]. by rewrite Hno. }
  rewrite (unlocked_even (m_head s)) in I4 by done. destruct (chain_head _ _ _ I4 Hn) as [rest Hrest].
  split; cbn [sh ths m_head next]; try done.
  - by apply separate_keep.
  - intros t'. upd_case t' t; [|apply I3]. rewrite Ho. apply I3.
  - by rewrite unlocked_locked.
  - intros t1 t2 H1 H2. by rewrite (Honly t1), (Honly t2).
  - intros t' _. exists (m_head s). by rewrite Hrest.
  - intros H. specialize (H t). rewrite upd_same, Hth in H. done.
  - intros t'. upd_case t' t; [unfold pc_ok; by rewrite Hth|]. by apply pc_ok_head.
Qed.

(** Unlocking with the popped node's successor as the new head. *)
Lemma inv_pop_head s f stk t th n q :
  inv (mkState s f) stk -> t_pc (f t) = PopCas2 (m_head s) q -> doGetUnlocked (m_head s) = n ->
  owned th ≡ₚ n :: owned (f t) -> t_pc th = PopDone n ->
  exists stk', stk = n :: stk' /\ inv (mkState (mkShared q (next s)) (upd f t th)) stk'.
Proof.
  intros I Hpc Hn Ho Hth. pose proof I as [I1 I2 I3 I4 I5 I6 I7 I8]. cbn [sh ths] in *.
  pose proof (I8 t) as Ht. unfold pc_ok in Ht. rewrite Hpc in Ht. destruct Ht as [_ Hq].
  assert (locks (t_pc (f t)) = true) as Hlock by (by rewrite Hpc).
  destruct (I6 t Hlock) as (m & Hm & Hm'). destruct stk as [|x stk']; [done|]. injection Hm as ->.
  rewrite Hn in *. destruct I4 as (<- & q' & Hq' & Hc). assert (q' = q) as -> by congruence.
  apply Forall_cons in I2 as [Hnode I2].
  assert (forall t', locks (t_pc (upd f t th t')) = false) as Hno.
  { intros t'. upd_case t' t; [by rewrite Hth|]. destruct (locks (t_pc (f t'))) eqn:E; [|done].
    by rewrite (I5 t' t E Hlock) in *. }
  exists stk'. split; [done|]. pose proof (chain_even _ _ _ Hc I2) as Hqe.
  split; cbn [sh ths m_head next]; try done.
  - by eapply separate_pop.
  - intros t'. upd_case t' t; [|apply I3]. rewrite Ho. apply Forall_cons. split; [done|apply I3].
  - by rewrite unlocked_even.
  - intros t1 t2 H1. by rewrite Hno in H1.
  - intros t1 H1. by rewrite Hno in H1.
  - intros t'. upd_case t' t; [unfold pc_ok; by rewrite Hth|].
    apply pc_ok_head; [|apply I8]. specialize (Hno t'). by rewrite upd_other in Hno.
Qed.

(** Swinging an unlocked head to a pushed chain. *)
Lemma inv_push_head s f stk t th a b :
  inv (mkState s f) stk -> t_pc (f t) = PushCas a b (m_head s) ->
  owned (f t) ≡ₚ pushing (f t) ++ owned th -> t_pc th = PushDone ->
  inv (mkState (mkShared a (next s)) (upd f t th)) (pushing (f t) ++ stk).
Proof.
  intros I Hpc Ho Hth. pose proof I as [I1 I2 I3 I4 I5 I6 I7 I8]. cbn [sh ths] in *.
  pose proof (I8 t) as Ht. unfold pc_ok in Ht. rewrite Hpc in Ht. destruct Ht as (Hends & Hlast & He).
  pose proof (inv_even _ _ I He) as Hno. cbn [ths] in Hno.
  rewrite (unlocked_even (m_head s)) in I4 by done.
  pose proof (linked_chain _ _ _ _ _ _ Hends Hlast I4) as Hc.
  pose proof (I3 t) as It. rewrite Ho, Forall_app in It. destruct It as [It1 It2].
  assert (Forall (node s) (pushing (f t) ++ stk)) as Hall by (by apply Forall_app).
  pose proof (chain_even _ _ _ Hc Hall) as Hae.
  assert (forall t', locks (t_pc (upd f t th t')) = false) as Hno'.
  { intros t'. upd_case t' t; [by rewrite Hth|done]. }
  split; cbn [sh ths m_head next]; try done.
  - by apply separate_push.
  - intros t'. upd_case t' t; [done|apply I3].
  - by rewrite unlocked_even.
  - intros t1 t2 H1. by rewrite Hno' in H1.
  - intros t1 H1. by rewrite Hno' in H1.
  - intros t'. upd_case t' t; [unfold pc_ok; by rewrite Hth|]. by apply pc_ok_head.
Qed.

Lemma cas_cases s sp e d : cas s sp e d = (true, mkShared d (next s)) /\ m_head s = e \/ cas s sp e d = (false, s).
Proof. unfold cas. destruct sp; cbn; [auto|]. destruct (Z.eqb_spec (m_head s) e); auto. Qed.

(** ** Refinement *)

Definition changed_op (st st' : state) (t : nat) : option aop :=
  lin_point (t_pc (ths st t)) (t_pc (ths st' t)) (pushing (ths st t)).

Lemma run_refines s f t sp s' p' stk :
  inv (mkState s f) stk -> tstep sp s (t_pc (f t)) = Ok (s', p') ->
  let th := mkThread p' (held (f t)) (pushing (f t)) in
  exists stk', aapply (lin_point (t_pc (f t)) p' (pushing (f t))) stk stk' /\ inv (mkState s' (upd f t th)) stk'.
Proof.
  intros I Hs. cbv zeta. pose proof (inv_pc _ _ I t) as Hp. unfold pc_ok in Hp. cbn [ths sh] in Hp.
  destruct (t_pc (f t)) as [|  |h| |o|o n|r|a b|a b o|a b o| | |h|r] eqn:Hpc; cbn [tstep] in Hs; try done.
  - (* PopLoad *) destruct (Z.eqb_spec (doGetUnlocked (m_head s)) null) as [E|E]; simplify_eq; cbn [lin_point aapply].
    + exists stk. split.
      { pose proof (inv_chain _ _ I) as Hc. cbn in Hc. rewrite E in Hc.
        destruct stk as [|x stk]; [done|]. destruct Hc as [<- _].
        apply inv_stk_nodes, Forall_cons in I as [[? _] _]. done. }
      apply inv_local; [done| |by rewrite Hpc|done]. unfold owned, in_flight. by rewrite Hpc.
    + exists stk. split; [done|]. apply inv_local; [done| |by rewrite Hpc|].
      { unfold owned, in_flight. by rewrite Hpc. }
      split; [done|apply unlocked_is_even].
  - (* PopCas *) destruct (cas_cases s sp h (doGetLocked h)) as [[E Hh]|E]; rewrite E in Hs; simplify_eq; cbn [lin_point].
    + exists stk. split; [done|]. apply inv_lock_head; [done|done| |done]. unfold owned, in_flight. by rewrite Hpc.
    + exists stk. split; [done|]. apply inv_local; [done| |by rewrite Hpc|done]. unfold owned, in_flight. by rewrite Hpc.
  - (* PopLoad2 *) simplify_eq. exists stk. split; [done|]. apply inv_local; [done| |by rewrite Hpc|done].
    unfold owned, in_flight. by rewrite Hpc.
  - (* PopNext *) destruct (load_next s (doGetUnlocked o)) as [q|] eqn:Eq; simplify_eq.
    exists stk. split; [done|]. apply inv_local; [done| |by rewrite Hpc|by split].
    unfold owned, in_flight. by rewrite Hpc.
  - (* PopCas2 *) destruct Hp as [-> Hq].
    destruct (cas_cases s sp (m_head s) n) as [[E _]|E]; rewrite E in Hs; simplify_eq; cbn [lin_point].
    + assert (doGetUnlocked (m_head s) <> null) as Hnn.
      { destruct (inv_locked _ _ I t) as (m & Hm & Hm'); [cbn; by rewrite Hpc|]. cbn in Hm'.
        destruct stk as [|x stk]; [done|]. injection Hm as ->. rewrite Hm'.
        apply inv_stk_nodes, Forall_cons in I as [(? & ? & _) _]. by rewrite unlocked_locked. }
      edestruct (inv_pop_head s f stk t (mkThread (PopDone (doGetUnlocked (m_head s))) (held (f t)) (pushing (f t))))
        as (stk' & -> & I'); [done|done|done| |done|].
      { unfold owned, in_flight. rewrite Hpc. cbn [t_pc held pushing popped].
        rewrite (proj2 (Z.eqb_neq _ _) Hnn). cbn [app]. rewrite app_nil_r. by rewrite Permutation_app_comm. }
      exists stk'. by split.
    + exists stk. split; [done|]. apply inv_local; [done| |by rewrite Hpc|done]. unfold owned, in_flight. by rewrite Hpc.
  - (* PushLoad *) simplify_eq. exists stk. split; [done|]. apply inv_local; [done| |by rewrite Hpc|].
    { unfold owned, in_flight. by rewrite Hpc. }
    split; [done|apply unlocked_is_even].
  - (* PushSet *) destruct (store_next s b o) as [s2|] eqn:E; simplify_eq. destruct Hp as [(H1 & H2 & H3) He].
    exists stk. split; [done|].
    assert (b ∈ pushing (f t)) as Hb by (by apply last_Some_elem_of).
    assert (b ∈ owned (f t)) as Hbo by (unfold owned, in_flight; rewrite Hpc; set_solver).
    eapply inv_write; [done|done|done| |done|by rewrite Hpc|].
    { unfold owned, in_flight. by rewrite Hpc. }
    unfold store_next in E. destruct (next s !! b); simplify_eq. unfold pc_ok, ends. cbn [t_pc next pushing].
    split_and!; [done|done| |by rewrite lookup_insert_eq|done].
    apply linked_store_last; [|done|done].
    pose proof (sep_own _ _ (inv_sep _ _ I) t) as Hnd. cbn [ths] in Hnd. unfold owned, in_flight in Hnd.
    rewrite Hpc in Hnd. apply NoDup_app in Hnd as (_ & _ & Hnd). by apply NoDup_app in Hnd as (? & _).
  - (* PushCas *) destruct Hp as (Hends & Hl & He).
    destruct (cas_cases s sp o a) as [[E Hh]|E]; rewrite E in Hs; simplify_eq; cbn [lin_point aapply].
    + exists (pushing (f t) ++ stk). split; [done|]. eapply inv_push_head; [done|done| |done].
      unfold owned, in_flight. rewrite Hpc. cbn [t_pc held pushing popped]. rewrite !app_nil_r.
      by rewrite Permutation_app_comm.
    + exists stk. split; [done|]. apply inv_local; [done| |by rewrite Hpc|by destruct Hends].
      unfold owned, in_flight. by rewrite Hpc.
Qed.

(** A step is a step of an operation, or the client's: starting or finishing an
    operation, or writing to its own nodes. *)
Lemma client_step st st' stk : inv st stk -> step st st' ->
  (exists s f t sp s' p', st = mkState s f /\ tstep sp s (t_pc (f t)) = Ok (s', p')
     /\ st' = mkState s' (upd f t (mkThread p' (held (f t)) (pushing (f t)))))
  \/ (inv st' stk /\ m_head (sh st') = m_head (sh st)
      /\ exists t, changed_op st st' t = None /\ forall t', t' <> t -> ths st' t' = ths st t').
Proof.
  intros I Hst. destruct Hst as [s f t sp s' p' Hs|s f t n v s' Hpc Hn Hs|s f t Hpc|s f t r Hpc
    |s f t c rest a b Hpc Hh Hc Hc' Hlk|s f t Hpc]; [left; by exists s, f, t, sp, s', p'|right..];
    unfold changed_op; cbn [ths sh]; (split; [|split; [|exists t; rewrite upd_same, Hpc; split; [done|];
      intros t' Ht; by apply upd_other]]); try done.
  - eapply inv_write; [done|done| |done|by rewrite Hpc|by rewrite Hpc|unfold pc_ok; by rewrite Hpc].
    unfold owned. set_solver.
  - unfold store_next in Hs. destruct (next s !! n); by simplify_eq.
  - apply inv_local; [done| |by rewrite Hpc|done]. unfold owned, in_flight. by rewrite Hpc.
  - apply inv_local; [done| |by rewrite Hpc|done]. unfold owned, in_flight. rewrite Hpc.
    cbn [t_pc held pushing popped]. destruct (r =? null); rewrite ?app_nil_r; [done|]. cbn [app].
    by rewrite (Permutation_app_comm _ [r]).
  - apply inv_local; [done| |by rewrite Hpc|done]. unfold owned, in_flight. rewrite Hpc.
    cbn [t_pc held pushing popped]. rewrite !app_nil_r, Hh. by rewrite Permutation_app_comm.
  - apply inv_local; [done| |by rewrite Hpc|done]. unfold owned, in_flight. by rewrite Hpc.
Qed.

(** The refinement, as the executions below use it. *)
Lemma step_refines st st' stk :
  inv st stk -> step st st' ->
  exists stk' t, aapply (changed_op st st' t) stk stk' /\ inv st' stk'
    /\ (forall t', t' <> t -> ths st' t' = ths st t').
Proof.
  intros I Hst. destruct (client_step _ _ _ I Hst) as [(s & f & t & sp & s' & p' & -> & Hs & ->)|(I' & _ & t & Hc & Ho)].
  - destruct (run_refines s f t sp s' p' stk I Hs) as (stk' & Ha & I'). exists stk', t.
    unfold changed_op. cbn [ths sh]. rewrite upd_same. split_and!; [done|done|]. intros t' Ht. by apply upd_other.
  - exists stk, t. by rewrite Hc.
Qed.

(** Nothing a thread without the lock does takes effect on a locked head. *)
Lemma locked_step x y stk t : inv x stk -> locks (t_pc (ths x t)) = true -> step x y -> ths y t = ths x t ->
  inv y stk /\ m_head (sh y) = m_head (sh x).
Proof.
  intros I Hl Hxy Ht.
  destruct (client_step _ _ _ I Hxy) as [(s & f & u & sp & s' & p' & -> & Hs & ->)|(I' & Hm & _)]; [|done].
  cbn [ths sh] in *. destruct (decide (u = t)) as [->|Hne].
  { exfalso. rewrite upd_same in Ht. apply (f_equal t_pc) in Ht. cbn in Ht.
    destruct (t_pc (f t)); cbn [tstep locks] in *; try done; simplify_eq.
    - destruct (load_next _ _); simplify_eq.
    - destruct (cas _ _ _ _) as [[] ?]; simplify_eq. }
  destruct (locks (t_pc (f u))) eqn:Hu; [by rewrite (inv_lock _ _ I u t Hu Hl) in Hne|].
  destruct (inv_locked _ _ I t Hl) as (n & Hn & Hm). cbn [sh] in Hm. destruct stk as [|z stk]; [done|].
  injection Hn as ->. pose proof (inv_stk_nodes _ _ I) as HN. apply Forall_cons in HN as [(Hz & He & _) _].
  destruct (run_refines s f u sp s' p' _ I Hs) as (stk' & Ha & I').
  pose proof (inv_pc _ _ I u) as Hp. unfold pc_ok in Hp. cbn [ths sh] in Hp.
  assert (forall e d, Z.Even e -> cas s sp e d = (false, s)) as Hcas.
  { intros e d Hee. destruct (cas_cases s sp e d) as [[_ E]|E]; [|done].
    exfalso. apply (locked_odd n). by rewrite <- Hm, E. }
  assert (lin_point (t_pc (f u)) p' (pushing (f u)) = None /\ m_head s' = m_head s) as [HL HM].
  { destruct (t_pc (f u)); cbn [tstep locks] in *; try done.
    - rewrite Hm, unlocked_locked in Hs by done. rewrite (proj2 (Z.eqb_neq _ _) Hz) in Hs. by simplify_eq.
    - rewrite Hcas in Hs by (by destruct Hp). by simplify_eq.
    - by simplify_eq.
    - destruct (store_next s _ _) as [s2|] eqn:E; [|done]. simplify_eq. split; [done|].
      unfold store_next in E. destruct (next s !! _); by simplify_eq.
    - rewrite Hcas in Hs by (by destruct Hp as (_ & _ & ?)). by simplify_eq. }
  rewrite HL in Ha. cbn in Ha. by subst stk'.
Qed.

(** C3: under any interleaving of pops and pushes the structure is a stack.
    Every step of any thread is either invisible or takes effect as one push
    of the thread's chain, one pop of the top node, or the observation that the
    stack is empty; the nodes on the stack and those held by each thread stay
    apart, so no node is lost and none is handed to two threads. *)
Theorem stack_refines st st' stk :
  inv st stk -> step st st' ->
  exists stk' t, aapply (changed_op st st' t) stk stk' /\ inv st' stk'
    /\ (forall t', t' <> t -> ths st' t' = ths st t').
Proof. apply step_refines. Qed.

(** ** Executions *)

(** The stack starts empty; threads are idle and own the nodes between them. *)
Definition initial (st : state) : Prop :=
  m_head (sh st) = null /\ (forall t, t_pc (ths st t) = Idle /\ NoDup (held (ths st t))
    /\ Forall (node (sh st)) (held (ths st t)))
  /\ forall t t' n, n ∈ held (ths st t) -> n ∈ held (ths st t') -> t = t'.

Definition running (p : pc) : bool :=
  match p with Idle | PopDone _ | PushDone | ReleaseDone _ => false | _ => true end.

Lemma initial_inv st : initial st -> inv st [].
Proof.
  intros (Hh & Ht & Hd).
  assert (forall t, owned (ths st t) = held (ths st t)) as Ho.
  { intros t. unfold owned, in_flight. destruct (Ht t) as (-> & _). by rewrite !app_nil_r. }
  assert (forall t, locks (t_pc (ths st t)) = false) as Hl by (intros t; by destruct (Ht t) as (-> & _)).
  split; try done.
  - split; [constructor|..].
    + intros t. rewrite Ho. by destruct (Ht t) as (_ & ? & _).
    + intros t n _. by apply not_elem_of_nil.
    + intros t t' n. rewrite !Ho. apply Hd.
  - intros t. rewrite Ho. by destruct (Ht t) as (_ & _ & ?).
  - by rewrite Hh.
  - intros t t' H. by rewrite Hl in H.
  - intros t H. by rewrite Hl in H.
  - intros _. rewrite Hh. by exists 0.
  - intros t. unfold pc_ok. by destruct (Ht t) as (-> & _).
Qed.

Lemma reachable_inv st0 st : initial st0 -> rtc step st0 st -> exists stk, inv st stk.
Proof.
  intros Hi Hr. assert (exists stk, inv st0 stk) as H by (exists []; by apply initial_inv).
  clear Hi. induction Hr as [|x y z Hxy Hyz IH]; [done|]. destruct H as [stk I].
  destruct (step_refines x y stk I Hxy) as (stk' & t & _ & I' & _). apply IH. by exists stk'.
Qed.

Lemma running_step st stk t sp : inv st stk -> running (t_pc (ths st t)) = true ->
  exists s' p', tstep sp (sh st) (t_pc (ths st t)) = Ok (s', p').
Proof.
  intros I Hrun. pose proof (inv_pc _ _ I t) as Hp. unfold pc_ok in Hp.
  destruct (t_pc (ths st t)) eqn:Hpc; cbn [tstep running] in *; try done; eauto.
  - destruct (_ =? _); eauto.
  - destruct (cas _ _ _ _); eauto.
  - destruct (inv_locked _ _ I t) as (n & Hn & Hm); [by rewrite Hpc|].
    destruct stk as [|x stk]; [done|]. injection Hn as ->.
    apply inv_stk_nodes, Forall_cons in I as [(_ & He & [q Hq]) _].
    subst. unfold load_next. rewrite Hm, unlocked_locked, Hq by done. eauto.
  - destruct (cas _ _ _ _); eauto.
  - destruct Hp as [(H1 & H2 & H3) _].
    match type of H2 with _ = Some ?b => assert (b ∈ owned (ths st t)) as Hb end.
    { unfold owned, in_flight. rewrite Hpc. apply last_Some_elem_of in H2. set_solver. }
    pose proof (inv_own_nodes _ _ I t) as Hn. rewrite Forall_forall in Hn. destruct (Hn _ Hb) as (_ & _ & [q Hq]).
    unfold store_next. rewrite Hq. eauto.
  - destruct (cas _ _ _ _); eauto.
Qed.

(** No execution follows a bad pointer: in every reachable state, an
    operation in progress can take its next step, whether or not its weak
    compare-and-exchange fails spuriously. *)
Theorem stack_never_stuck st0 st t sp :
  initial st0 -> rtc step st0 st -> running (t_pc (ths st t)) = true ->
  exists s' p', tstep sp (sh st) (t_pc (ths st t)) = Ok (s', p').
Proof. intros Hi Hr Hrun. destruct (reachable_inv _ _ Hi Hr) as [stk I]. by eapply running_step. Qed.

(** ** Threads that run alone *)

(** At most [n] steps of one thread, without spurious failures. *)
Fixpoint run_alone (n : nat) (s : shared) (p : pc) : outcome (shared * pc) :=
  match n with
  | O => Ok (s, p)
  | S n => if running p then '(s, p) ← tstep false s p; run_alone n s p else Ok (s, p)
  end.

(** The steps an operation needs at most, if it runs alone; a comparison with an
    outdated head costs one more round. *)
Definition steps_left (s : shared) (p : pc) : nat :=
  match p with
  | PopLoad => 5
  | PopCas h => if (m_head s =? h)%Z then 4 else 6
  | PopLoad2 => 3
  | PopNext _ => 2
  | PopCas2 _ _ => 1
  | PushLoad _ _ => 3
  | PushSet _ _ o => if (m_head s =? o)%Z then 2 else 5
  | PushCas _ _ o => if (m_head s =? o)%Z then 1 else 4
  | _ => 0
  end%nat.

(** What the operation of a thread has done to the stack when it is finished. *)
Definition finished (p : pc) (c stk stk' : list ptr) : Prop :=
  match p with
  | PopDone r => if r =? null then stk = [] /\ stk' = [] else stk = r :: stk'
  | PushDone => stk' = c ++ stk
  | _ => False
  end.

Lemma store_next_head s n v s' : store_next s n v = Some s' -> m_head s' = m_head s.
Proof. unfold store_next. destruct (next s !! n); [|done]. by intros [= <-]. Qed.

Lemma alone_unlocked st stk t : inv st stk -> (forall t', t' <> t -> locks (t_pc (ths st t')) = false) ->
  locks (t_pc (ths st t)) = false -> doGetUnlocked (m_head (sh st)) = m_head (sh st).
Proof.
  intros I Hal Hl. apply unlocked_even, (inv_unlocked _ _ I). intros t'. destruct (decide (t' = t)) as [->|]; [done|by apply Hal].
Qed.

(** Each step alone brings the operation nearer to its end. *)
Lemma step_alone s f t stk s' p' : inv (mkState s f) stk -> (forall t', t' <> t -> locks (t_pc (f t')) = false) ->
  tstep false s (t_pc (f t)) = Ok (s', p') -> (steps_left s' p' < steps_left s (t_pc (f t)))%nat.
Proof.
  intros I Hal Hs. pose proof (inv_pc _ _ I t) as Hp. pose proof (alone_unlocked _ _ t I Hal) as Hu.
  unfold pc_ok in Hp. cbn [ths sh] in *.
  destruct (t_pc (f t)) as [|  |h| |o|o n|r|a b|a b o|a b o| | |h|r]; cbn [tstep locks steps_left] in *; try done.
  - rewrite Hu in Hs by done. destruct (_ =? _); simplify_eq; cbn; [lia|]. rewrite Z.eqb_refl. lia.
  - unfold cas in Hs. cbn [negb andb] in Hs. destruct (m_head s =? h); simplify_eq; cbn; lia.
  - simplify_eq. cbn. lia.
  - destruct (load_next _ _); simplify_eq. cbn. lia.
  - destruct Hp as [-> _]. unfold cas in Hs. rewrite Z.eqb_refl in Hs. cbn [negb andb] in Hs. simplify_eq. cbn. lia.
  - rewrite Hu in Hs by done. simplify_eq. cbn. rewrite Z.eqb_refl. lia.
  - destruct (store_next s b o) as [s2|] eqn:E; [|done]. simplify_eq. cbn. rewrite (store_next_head _ _ _ _ E).
    destruct (m_head s =? o); lia.
  - unfold cas in Hs. cbn [negb andb] in Hs. destruct (m_head s =? o); simplify_eq; cbn; lia.
Qed.

(** A step that ends an operation has its effect; the others have none. *)
Lemma finished_step s f t stk s' p' : inv (mkState s f) stk -> tstep false s (t_pc (f t)) = Ok (s', p') ->
  exists stk', inv (mkState s' (upd f t (mkThread p' (held (f t)) (pushing (f t))))) stk'
  /\ if running p' then stk' = stk else finished p' (pushing (f t)) stk stk'.
Proof.
  intros I Hs. destruct (run_refines s f t false s' p' stk I Hs) as (stk' & Ha & I'). exists stk'. split; [done|].
  pose proof (inv_pc _ _ I t) as Hp. unfold pc_ok in Hp. cbn [ths sh] in Hp.
  destruct (t_pc (f t)) as [|  |h| |o|o n|r|a b|a b o|a b o| | |h|r] eqn:Hpc; cbn [tstep] in Hs; try done.
  - destruct (_ =? _); by simplify_eq.
  - destruct (cas _ _ _ _) as [[] ?]; by simplify_eq.
  - by simplify_eq.
  - destruct (load_next _ _); by simplify_eq.
  - destruct (cas _ _ _ _) as [[] ?]; simplify_eq; [|done]. cbn in Ha |- *. subst stk.
    pose proof (inv_stk_nodes _ _ I) as HN. apply Forall_cons in HN as [(Hn & _) _]. by rewrite (proj2 (Z.eqb_neq _ _) Hn).
  - by simplify_eq.
  - destruct (store_next _ _ _); by simplify_eq.
  - destruct (cas _ _ _ _) as [[] ?]; by simplify_eq.
Qed.

(** An operation that runs alone ends. From every state of the invariant in
    which no other thread has the head locked, a running operation reaches its
    end in at most six of its own steps, and then has had its effect: a pop has
    returned the top of the stack, or null if the stack was empty, a push has
    put its chain on top. *)
Theorem alone_terminates st stk t : inv st stk -> running (t_pc (ths st t)) = true ->
  (forall t', t' <> t -> locks (t_pc (ths st t')) = false) ->
  exists st' stk', run_alone 6 (sh st) (t_pc (ths st t)) = Ok (sh st', t_pc (ths st' t))
    /\ finished (t_pc (ths st' t)) (pushing (ths st t)) stk stk' /\ inv st' stk'
    /\ (forall t', t' <> t -> ths st' t' = ths st t').
Proof.
  intros I Hr Hal. assert (steps_left (sh st) (t_pc (ths st t)) <= 6)%nat as Hn.
  { destruct (t_pc (ths st t)); cbn [steps_left]; try destruct (_ =? _); lia. }
  revert Hn. generalize 6%nat as n. intros n. revert st I Hr Hal. induction n as [|n IH]; intros [s f] I Hr Hal Hn; cbn [sh ths] in *.
  { destruct (running_step _ _ t false I Hr) as (s1 & p1 & Hs). pose proof (step_alone s f t stk s1 p1 I Hal Hs). lia. }
  cbn [run_alone]. rewrite Hr. destruct (running_step _ _ t false I Hr) as (s1 & p1 & Hs). cbn [sh ths] in Hs. rewrite Hs.
  pose proof (step_alone s f t stk s1 p1 I Hal Hs) as Hlt. cbn [mbind outcome_bind].
  destruct (finished_step s f t stk s1 p1 I Hs) as (stk1 & I1 & HF). destruct (running p1) eqn:Er.
  - subst stk1. set (st1 := mkState s1 _) in I1. assert (ths st1 t = mkThread p1 (held (f t)) (pushing (f t))) as Et by apply upd_same.
    assert (forall t', t' <> t -> ths st1 t' = f t') as Eo by (intros; by apply upd_other).
    destruct (IH st1 I1) as (st' & stk' & H1 & H2 & H3 & H4).
    + by rewrite Et.
    + intros t' Ht. rewrite Eo by done. by apply Hal.
    + rewrite Et. cbn [t_pc]. change (sh st1) with s1. lia.
    + rewrite Et in H1, H2. exists st', stk'. split_and!; [done..|]. intros t' Ht. by rewrite H4, Eo by done.
  - exists (mkState s1 (upd f t (mkThread p1 (held (f t)) (pushing (f t))))), stk1. cbn [sh ths]. rewrite upd_same. cbn [t_pc].
    split_and!; [|done|done|intros; by apply upd_other]. destruct n; cbn [run_alone]; [done|]. by rewrite Er.
Qed.

(** while one thread has the head locked, nothing any other thread does
    takes effect: however they are scheduled, as long as that thread does not
    move the head and the contents of the stack stay as they are. The stack is
    lock-free in name only. *)
Theorem locked_head_blocks st st' stk t :
  inv st stk -> locks (t_pc (ths st t)) = true ->
  rtc (fun x y => step x y /\ ths y t = ths x t) st st' ->
  inv st' stk /\ m_head (sh st') = m_head (sh st).
Proof.
  intros I Hl Hr. induction Hr as [|x y z [Hxy Ht] Hyz IH]; [done|].
  destruct (locked_step _ _ _ _ I Hl Hxy Ht) as [I' Hm].
  rewrite <- Hm. apply IH; [done|]. by rewrite Ht.
Qed.

(** ** Concrete executions *)

Module Concrete.

Definition nodes : gmap ptr ptr := <[16 := 0]> (<[32 := 0]> ∅).
Definition f0 : threads := fun t => mkThread Idle (if decide (t = 0%nat) then [16; 32] else []) [].
Definition st0 : state := mkState (mkShared null nodes) f0.

Lemma st0_initial : initial st0.
Proof.
  split; [done|split].
  - intros t. cbn. split; [done|]. destruct (decide (t = 0%nat)).
    + split; [apply (bool_decide_unpack _); vm_compute; exact I|].
      apply Forall_cons; split; [split_and!; [done|by exists 8|by exists 0]|].
      apply Forall_cons; split; [split_and!; [done|by exists 16|by exists 0]|constructor].
    + split; constructor.
  - intros t t' n. cbn. destruct (decide (t = 0%nat)), (decide (t' = 0%nat)); try done; set_solver.
Qed.

(** Thread 0 pushes node 16 and starts popping it: the head is locked. *)
Definition f1 := upd f0 0 (mkThread (PushLoad 16 16) [32] [16]).
Definition s2 := mkShared 16 (<[16 := 0]> nodes).
Definition f2 := upd (upd (upd f1 0 (mkThread (PushSet 16 16 0) [32] [16])) 0 (mkThread (PushCas 16 16 0) [32] [16]))
  0 (mkThread PushDone [32] [16]).
Definition f3 := upd f2 0 (mkThread Idle [32] []).
Definition f4 := upd (upd f3 0 (mkThread PopLoad [32] [])) 0 (mkThread (PopCas 16) [32] []).
Definition s5 := mkShared 17 (next s2).
Definition f5 := upd f4 0 (mkThread PopLoad2 [32] []).

Lemma reach_push : rtc step st0 (mkState s2 f3).
Proof.
  eapply rtc_l.
  { apply (Step_push _ _ 0%nat [16] [32] 16 16); done. }
  eapply rtc_l; [apply (Step_run _ _ 0%nat false); vm_compute; reflexivity|].
  eapply rtc_l; [apply (Step_run _ _ 0%nat false); vm_compute; reflexivity|].
  eapply rtc_l; [apply (Step_run _ _ 0%nat false); vm_compute; reflexivity|].
  eapply rtc_l; [apply (Step_pushed _ _ 0%nat); vm_compute; reflexivity|].
  apply rtc_refl.
Qed.

Lemma reach_locked : rtc step st0 (mkState s5 f5).
Proof.
  etrans; [apply reach_push|].
  eapply rtc_l; [apply (Step_pop _ _ 0%nat); vm_compute; reflexivity|].
  eapply rtc_l; [apply (Step_run _ _ 0%nat false); vm_compute; reflexivity|].
  eapply rtc_l; [apply (Step_run _ _ 0%nat false); vm_compute; reflexivity|].
  apply rtc_refl.
Qed.

Lemma stack_refines_witness :
  exists stk' t, aapply (changed_op st0 (mkState (mkShared null nodes) (upd f0 0 (mkThread PopLoad [16; 32] []))) t) [] stk'
  /\ inv (mkState (mkShared null nodes) (upd f0 0 (mkThread PopLoad [16; 32] []))) stk'.
Proof.
  destruct (stack_refines st0 (mkState (mkShared null nodes) (upd f0 0 (mkThread PopLoad [16; 32] []))) [])
    as (stk' & t & Ha & Hi & _).
  - apply initial_inv, st0_initial.
  - apply (Step_pop (mkShared null nodes) f0 0%nat). reflexivity.
  - exists stk', t. split; [exact Ha|exact Hi].
Defined.

Lemma stack_never_stuck_witness : exists s' p', tstep false s5 (t_pc (f5 0%nat)) = Ok (s', p').
Proof. apply (stack_never_stuck st0 (mkState s5 f5) 0 false); [apply st0_initial|apply reach_locked|reflexivity]. Defined.

Lemma locked_head_blocks_witness :
  m_head (sh (mkState s5 (upd f5 1 (mkThread PopLoad [] [])))) = m_head s5.
Proof.
  destruct (reachable_inv _ _ st0_initial reach_locked) as [stk I].
  apply (locked_head_blocks (mkState s5 f5) _ stk 0 I); [reflexivity|].
  eapply rtc_l; [|apply rtc_refl]. split; [apply (Step_pop s5 f5 1%nat); reflexivity|reflexivity].
Defined.

Lemma alone_terminates_witness :
  exists s' p', run_alone 6 s2 (PopCas 48) = Ok (s', p') /\ p' = PopDone 16.
Proof.
  assert (inv (mkState s2 (upd f3 0 (mkThread (PopCas 48) [32] []))) [16]) as I.
  { destruct (reachable_inv _ _ st0_initial reach_push) as [stk I].
    assert (stk = [16]) as ->.
    { pose proof (inv_chain _ _ I) as Hc. destruct stk as [|x [|y stk]]; cbn in Hc.
      - done.
      - by destruct Hc as [<- _].
      - destruct Hc as (<- & q & Hq & <- & _). vm_compute in Hq. injection Hq as <-.
        pose proof (inv_stk_nodes _ _ I) as HN. apply Forall_cons in HN as [_ HN]. apply Forall_cons in HN as [(H0 & _) _]. done. }
    apply (inv_local s2 f3 [16] 0%nat (mkThread (PopCas 48) [32] [])); [exact I|done|done|split; [done|by exists 24]]. }
  destruct (alone_terminates (mkState s2 (upd f3 0 (mkThread (PopCas 48) [32] []))) [16] 0 I) as (st' & stk' & H1 & H2 & _).
  - reflexivity.
  - intros t' Ht. cbn. rewrite upd_other by done. unfold f3, f2, f1, upd, f0. cbn. by rewrite !decide_False by done.
  - exists (sh st'), (t_pc (ths st' 0%nat)). split; [exact H1|]. vm_compute in H1. injection H1 as _ Hp. symmetry. exact Hp.
Defined.

(** Releasing the stack while a pop is in progress makes the pop read through
    the null pointer: the compare-and-exchange of [release] also succeeds on a
    locked head. *)
Lemma release_breaks_pop : exists st, rtc (fun x y => step x y \/ step_release x y) st0 st
  /\ t_pc (ths st 0%nat) = PopNext null /\ tstep false (sh st) (t_pc (ths st 0%nat)) = Stuck.
Proof.
  eexists. split; [|split].
  - etrans; [eapply rtc_subrel; [|apply reach_locked]; by left|].
    eapply rtc_l; [right; apply (Step_release _ _ 1%nat); reflexivity|].
    eapply rtc_l; [left; apply (Step_run _ _ 1%nat false); vm_compute; reflexivity|].
    eapply rtc_l; [left; apply (Step_run _ _ 1%nat false); vm_compute; reflexivity|].
    eapply rtc_l; [left; apply (Step_run _ _ 0%nat false); vm_compute; reflexivity|].
    apply rtc_refl.
  - reflexivity.
  - reflexivity.
Qed.

End Concrete.
