(* ===== verification/HandleManager.v ===== *)
(** * Handles (priv/HandleManager.hpp, priv/HandleManagerImpl.hpp)

    A manager keeps pools of resources; a handle is the address of a resource
    with a 4-bit generation in its low bits. The model is sequential: the free
    list is a list (LockFreeStack.v shows that the shared structure behaves as
    one). Where the code allocates memory or runs a constructor the operation
    takes the address obtained and the constructor's result as arguments. *)
From S2P Require Import Prelude.
From stdpp Require Import options.

#[local] Open Scope Z_scope.

Definition kResourceAlignment : Z := 16.
Definition kMinHandles : Z := 1024.

Definition doGetHandleGeneration (handle : Z) : Z := Z.land handle (kResourceAlignment - 1).
Definition doGetResourceFromHandle (handle : Z) : Z :=
  if handle =? 0 then 0 else Z.land handle (- kResourceAlignment).

Module HandleManager.

Section Manager.

(** Objects, and [sizeof(Resource)]. *)
Context {A : Type} (rsize : Z).

Record ResourceBase := mkResource { generation : Z; m_ptrObj : option A; m_refCount : Z }.

Record state := mkState {
  resources : gmap Z ResourceBase;     (** every resource of every pool, by address *)
  resourceStack : list (Z * Z);        (** the pools: address of the first resource, count *)
  freeResources : list Z;
  hasFixedSize : bool;
  totalCapacity : Z;
  usedCount : Z }.

Definition init : state := mkState ∅ [] [] false 0 0.

(** Every operation returns the state it leaves, also when it throws. *)
Definition result (R : Type) : Type := state * outcome R.

Definition live (r : ResourceBase) : bool := bool_decide (is_Some (m_ptrObj r)).

Definition set_resource (st : state) (a : Z) (r : ResourceBase) : state :=
  mkState (<[a := r]> (resources st)) (resourceStack st) (freeResources st) (hasFixedSize st)
    (totalCapacity st) (usedCount st).

(** ** Pools *)

Definition pool_addrs (base count : Z) : list Z := (fun i => base + i * rsize) <$> zrange 0 count.

(** [Impl::allocate]: the block obtained starts at [base]. *)
Definition allocate (base count : Z) (st : state) : state :=
  mkState (foldr (fun a m => <[a := mkResource 0 None 0]> m) (resources st) (pool_addrs base count))
    ((base, count) :: resourceStack st) (pool_addrs base count ++ freeResources st) (hasFixedSize st)
    (totalCapacity st) (usedCount st).

Definition doAllocate (base count : Z) (st : state) : result unit :=
  if 0 <? count then (allocate base count st, Ok tt) else (st, Stuck).

Definition doGrow (base : Z) (st : state) : result unit :=
  if hasFixedSize st then (st, Throw NVCV_ERROR_OUT_OF_MEMORY)
  else match freeResources st with
       | [] => doAllocate base (if totalCapacity st =? 0 then kMinHandles else totalCapacity st) st
       | _ => (st, Ok tt)
       end.

(** [for (;;) if (pop) ... else doGrow()]: the second round finds what the
    first one allocated ([doFetchFreeResource_fuel] below). *)
Fixpoint doFetchFreeResource (fuel : nat) (base : Z) (st : state) : result Z :=
  match fuel with
  | O => (st, Stuck)
  | S fuel =>
      match freeResources st with
      | a :: rest =>
          match resources st !! a with
          | Some r =>
              let r' := mkResource (generation r) (m_ptrObj r) (i32 (m_refCount r + 1)) in
              let st' := mkState (<[a := r']> (resources st)) (resourceStack st) rest (hasFixedSize st)
                           (totalCapacity st) (usedCount st + 1) in
              if m_refCount r' =? 1 then (st', Ok a) else (st', Stuck)
          | None => (st, Stuck)
          end
      | [] =>
          match doGrow base st with
          | (st', Ok _) => doFetchFreeResource fuel base st'
          | (st', Throw e) => (st', Throw e)
          | (st', Stuck) => (st', Stuck)
          end
      end
  end.

Definition doReturnResource (a : Z) (st : state) : state :=
  mkState (resources st) (resourceStack st) (a :: freeResources st) (hasFixedSize st) (totalCapacity st)
    (usedCount st - 1).

Definition doGetHandleFromResource (a : Z) (r : ResourceBase) : Z :=
  if a =? 0 then 0 else Z.lor a (generation r).

(** ** Operations on handles *)

(** [create]; [ctor] is the outcome of the object's constructor. *)
Definition create (ctor : outcome A) (base : Z) (st : state) : result (Z * A) :=
  match doFetchFreeResource 2 base st with
  | (st, Ok a) =>
      match resources st !! a with
      | None => (st, Stuck)
      | Some r =>
          if live r then (st, Stuck) else
          match ctor with
          | Ok obj =>
              let r := mkResource (wrapu 4 (generation r + 1)) (Some obj) (m_refCount r) in
              (set_resource st a r, Ok (doGetHandleFromResource a r, obj))
          | Throw e =>
              let r := mkResource (generation r) (m_ptrObj r) (i32 (m_refCount r - 1)) in
              (doReturnResource a (set_resource st a r), Throw e)
          | Stuck => (st, Stuck)
          end
      end
  | (st, Throw e) => (st, Throw e)
  | (st, Stuck) => (st, Stuck)
  end.

Definition isManagedResource (a : Z) (st : state) : bool :=
  existsb (fun p : Z * Z => (p.1 <=? a) && (a <? p.1 + p.2 * rsize)) (resourceStack st).

(** The resource of a valid handle. An address inside a pool that is not the
    start of a resource is read as one: [Stuck]. *)
Definition getValidResource (handle : Z) (st : state) : outcome (option (Z * ResourceBase)) :=
  if handle =? 0 then Ok None else
  let a := doGetResourceFromHandle handle in
  if negb (a =? 0) && isManagedResource a st then
    match resources st !! a with
    | None => Stuck
    | Some r => Ok (if live r && (generation r =? doGetHandleGeneration handle) then Some (a, r) else None)
    end
  else Ok None.

Definition validate (handle : Z) (st : state) : outcome (option A) :=
  o ← getValidResource handle st;
  Ok (match o with Some (_, r) => m_ptrObj r | None => None end).

Definition incRef (handle : Z) (st : state) : result Z :=
  match getValidResource handle st with
  | Ok (Some (a, r)) =>
      let ref := i32 (m_refCount r + 1) in
      (set_resource st a (mkResource (generation r) (m_ptrObj r) ref), Ok ref)
  | Ok None => (st, Throw NVCV_ERROR_INVALID_ARGUMENT)
  | Throw e => (st, Throw e)
  | Stuck => (st, Stuck)
  end.

Definition refCount (handle : Z) (st : state) : result Z :=
  match getValidResource handle st with
  | Ok (Some (_, r)) => (st, Ok (m_refCount r))
  | Ok None => (st, Throw NVCV_ERROR_INVALID_ARGUMENT)
  | Throw e => (st, Throw e)
  | Stuck => (st, Stuck)
  end.

Definition decRef (handle : Z) (st : state) : result Z :=
  if handle =? 0 then (st, Ok 0) else
  match getValidResource handle st with
  | Ok (Some (a, r)) =>
      let ref := i32 (m_refCount r - 1) in
      if ref =? 0
      then (doReturnResource a (set_resource st a (mkResource (generation r) None ref)), Ok ref)
      else (set_resource st a (mkResource (generation r) (m_ptrObj r) ref), Ok ref)
  | Ok None => (st, Throw NVCV_ERROR_INVALID_ARGUMENT)
  | Throw e => (st, Throw e)
  | Stuck => (st, Stuck)
  end.

(** ** Size policy *)

(** What [clear] does about leaks, given NVCV_LEAK_DETECTION and the build:
    [false] is a call of [abort]. *)
Definition leak_check (ndebug : bool) (env : option string) (st : state) : bool :=
  if 0 <? usedCount st then
    let leakDetection := match env with None => if ndebug then None else Some "warn"%string | e => e end in
    match leakDetection with None => true | Some v => String.eqb v "warn" end
  else true.

Definition clear (ndebug : bool) (env : option string) (st : state) : result unit :=
  if leak_check ndebug env st
  then (mkState ∅ [] [] (hasFixedSize st) (totalCapacity st) (usedCount st), Ok tt)
  else (st, Stuck).

Definition setFixedSize (ndebug : bool) (env : option string) (maxSize base : Z) (st : state) : result unit :=
  if 0 <? usedCount st then (st, Throw NVCV_ERROR_INVALID_OPERATION)
  else if maxSize <=? totalCapacity st then (st, Ok tt)
  else match clear ndebug env st with
       | (st, Ok _) =>
           let st := mkState (resources st) (resourceStack st) (freeResources st) true (totalCapacity st)
                       (usedCount st) in
           doAllocate base (maxSize - totalCapacity st) st
       | r => r
       end.

Definition setDynamicSize (minSize base : Z) (st : state) : result unit :=
  let st := mkState (resources st) (resourceStack st) (freeResources st) false (totalCapacity st) (usedCount st) in
  if totalCapacity st <? minSize then doAllocate base minSize st else (st, Ok tt).

End Manager.

(** ** Handles as pairs of an address and a generation *)

Lemma aligned_bits a i : a mod 16 = 0 -> 0 <= i < 4 -> Z.testbit a i = false.
Proof.
  intros Ha Hi. apply Z.mod_divide in Ha as [k ->]; [|done]. change 16 with (2 ^ 4).
  apply Z.mul_pow2_bits_low. lia.
Qed.

Lemma low_bits g i : 0 <= g < 16 -> 4 <= i -> Z.testbit g i = false.
Proof.
  intros Hg Hi. destruct (decide (g = 0)) as [->|]; [apply Z.bits_0|]. apply Z.bits_above_log2; [lia|].
  apply Z.log2_lt_pow2; [lia|]. apply Z.lt_le_trans with 16; [lia|].
  change 16 with (2 ^ 4). apply Z.pow_le_mono_r; lia.
Qed.

Lemma mask_m16 i : 0 <= i -> Z.testbit (-16) i = (4 <=? i).
Proof.
  intros Hi. change (-16) with (Z.lnot (Z.ones 4)). rewrite Z.lnot_spec, Z.testbit_ones by done.
  rewrite (proj2 (Z.leb_le 0 i)) by done. cbn. by rewrite Z.ltb_antisym, negb_involutive.
Qed.

Lemma handle_addr a g : a mod 16 = 0 -> 0 <= g < 16 -> Z.land (Z.lor a g) (-16) = a.
Proof.
  intros Ha Hg. apply Z.bits_inj'. intros i Hi. rewrite Z.land_spec, Z.lor_spec, mask_m16 by done.
  destruct (Z.leb_spec 4 i); [by rewrite (low_bits g), orb_false_r, andb_true_r by lia|].
  by rewrite (aligned_bits a), andb_false_r by (done || lia).
Qed.

Lemma handle_gen a g : a mod 16 = 0 -> 0 <= g < 16 -> Z.land (Z.lor a g) 15 = g.
Proof.
  intros Ha Hg. apply Z.bits_inj'. intros i Hi. rewrite Z.land_spec, Z.lor_spec.
  change 15 with (Z.ones 4). rewrite Z.testbit_ones, (proj2 (Z.leb_le 0 i)) by done. cbn [andb].
  destruct (Z.ltb_spec i 4); [by rewrite (aligned_bits a), andb_true_r by lia|]. by rewrite (low_bits g), andb_false_r by lia.
Qed.

Lemma handle_split h : h = Z.lor (Z.land h (-16)) (Z.land h 15).
Proof.
  apply Z.bits_inj'. intros i Hi. rewrite Z.lor_spec, !Z.land_spec, mask_m16 by done.
  change 15 with (Z.ones 4). rewrite Z.testbit_ones, (proj2 (Z.leb_le 0 i)), Z.leb_antisym by done.
  cbn [andb]. destruct (Z.testbit h i), (i <? 4); done.
Qed.

Lemma gen_range h : 0 <= Z.land h 15 < 16.
Proof. change 15 with (Z.ones 4). rewrite Z.land_ones by done. by apply Z.mod_pos_bound. Qed.

Section Invariant.
Context {A : Type} (rsize : Z).
Implicit Type st : @state A.

(** ** Invariant and abstract view *)

Record wf st : Prop := {
  wf_addr : forall a r, resources st !! a = Some r ->
    a mod 16 = 0 /\ 0 < a /\ isManagedResource rsize a st = true /\ 0 <= generation r < 16;
  wf_free_nodup : NoDup (freeResources st);
  wf_free : forall a, a ∈ freeResources st -> exists g, resources st !! a = Some (mkResource g None 0);
  wf_used : forall a r, resources st !! a = Some r -> a ∉ freeResources st ->
    is_Some (m_ptrObj r) /\ 1 <= m_refCount r < 2 ^ 31 }.

(** What a handle denotes: a reference count and an object. *)
Definition lookup st (h : Z) : option (Z * A) :=
  match resources st !! Z.land h (-16) with
  | Some r => if generation r =? Z.land h 15 then (fun o => (m_refCount r, o)) <$> m_ptrObj r else None
  | None => None
  end.

(** A handle that does not point into the middle of a resource. *)
Definition proper st (h : Z) : Prop :=
  isManagedResource rsize (Z.land h (-16)) st = true -> is_Some (resources st !! Z.land h (-16)).

(** Memory the system hands out for a pool of [count] resources. *)
Definition fresh_pool (base count : Z) st : Prop :=
  0 < rsize /\ forall a, a ∈ pool_addrs rsize base count -> a mod 16 = 0 /\ 0 < a /\ resources st !! a = None.

Lemma wf_init : wf (init : @state A).
Proof. split; cbn; try done; [constructor|set_solver]. Qed.

Lemma getValid_lookup st h : wf st -> proper st h ->
  match lookup st h with
  | Some (n, o) => exists r, getValidResource rsize h st = Ok (Some (Z.land h (-16), r))
      /\ resources st !! Z.land h (-16) = Some r /\ m_refCount r = n /\ m_ptrObj r = Some o
      /\ generation r = Z.land h 15 /\ h <> 0 /\ Z.land h (-16) ∉ freeResources st
  | None => getValidResource rsize h st = Ok None
  end.
Proof.
  intros W Hp. unfold lookup, getValidResource, doGetResourceFromHandle, doGetHandleGeneration, kResourceAlignment.
  change (16 - 1) with 15. destruct (Z.eqb_spec h 0) as [->|Hh].
  { change (Z.land 0 (-16)) with 0. destruct (resources st !! 0) as [r|] eqn:E; [|done].
    apply (wf_addr _ W) in E. lia. }
  cbv iota zeta. change (- (16)) with (-16).
  destruct (resources st !! Z.land h (-16)) as [r|] eqn:E.
  - destruct (wf_addr _ W _ _ E) as (Ha & Hpos & Hm & Hg).
    rewrite (proj2 (Z.eqb_neq (Z.land h (-16)) 0)), Hm by lia. cbn [negb andb]. unfold live.
    destruct (m_ptrObj r) as [o|] eqn:Eo.
    + rewrite bool_decide_eq_true_2 by done. cbn [andb].
      destruct (Z.eqb_spec (generation r) (Z.land h 15)); [|done]. cbn. exists r. split_and!; try done.
      intros Hf. destruct (wf_free _ W _ Hf) as [g Hg']. rewrite Hg' in E. by simplify_eq.
    + rewrite bool_decide_eq_false_2 by (by intros []). cbn [andb].
      by destruct (generation r =? Z.land h 15).
  - destruct (isManagedResource rsize (Z.land h (-16)) st) eqn:Em; [|by rewrite andb_false_r].
    destruct (Hp Em) as [r Hr]. congruence.
Qed.

(** Changing one used resource changes one handle. *)
Lemma lookup_set st a r h :
  lookup (set_resource st a r) h =
    if decide (Z.land h (-16) = a) then
      if generation r =? Z.land h 15 then (fun o => (m_refCount r, o)) <$> m_ptrObj r else None
    else lookup st h.
Proof.
  unfold lookup, set_resource. cbn [resources]. case_decide as E.
  - by rewrite E, lookup_insert_eq.
  - by rewrite lookup_insert_ne by done.
Qed.

(** A state as far as its handles go. *)
Lemma lookup_return st a h : lookup (doReturnResource a st) h = lookup st h.
Proof. done. Qed.

Lemma same_handle h h' a : Z.land h (-16) = a -> Z.land h' (-16) = a -> Z.land h 15 = Z.land h' 15 -> h = h'.
Proof. intros H1 H2 H3. rewrite (handle_split h), (handle_split h'). congruence. Qed.

(** ** Reference counting *)

Lemma wf_set_used st a r r' : wf st -> resources st !! a = Some r -> a ∉ freeResources st ->
  generation r' = generation r -> is_Some (m_ptrObj r') -> 1 <= m_refCount r' < 2 ^ 31 ->
  wf (set_resource st a r').
Proof.
  intros [W1 W2 W3 W4] Hr Hf Hg Ho Hn. split; cbn; try done.
  - intros a' r''. destruct (decide (a' = a)) as [->|].
    + rewrite lookup_insert_eq. intros [= <-]. rewrite Hg. by apply W1.
    + rewrite lookup_insert_ne by done. apply W1.
  - intros a' Ha'. rewrite lookup_insert_ne by (intros ->; done). by apply W3.
  - intros a' r''. destruct (decide (a' = a)) as [->|].
    + rewrite lookup_insert_eq. by intros [= <-].
    + rewrite lookup_insert_ne by done. apply W4.
Qed.

Lemma wf_destroy st a r : wf st -> resources st !! a = Some r -> a ∉ freeResources st ->
  wf (doReturnResource a (set_resource st a (mkResource (generation r) None 0))).
Proof.
  intros [W1 W2 W3 W4] Hr Hf. split; cbn.
  - intros a' r''. destruct (decide (a' = a)) as [->|].
    + rewrite lookup_insert_eq. intros [= <-]. exact (W1 a r Hr).
    + rewrite lookup_insert_ne by done. apply W1.
  - by apply NoDup_cons.
  - intros a' [->|Ha']%elem_of_cons; [rewrite lookup_insert_eq; eauto|].
    rewrite lookup_insert_ne by (intros ->; done). by apply W3.
  - intros a' r''. rewrite not_elem_of_cons. intros Hl [Hne Hf']. rewrite lookup_insert_ne in Hl by done.
    by eapply W4.
Qed.

Lemma lookup_other st a r h h' : Z.land h (-16) = a -> generation r = Z.land h 15 ->
  resources st !! a = Some r -> h' <> h -> Z.land h' (-16) = a -> lookup st h' = None.
Proof.
  intros Ha Hg Hr Hne Ha'. unfold lookup. rewrite Ha', Hr.
  destruct (Z.eqb_spec (generation r) (Z.land h' 15)) as [E|]; [|done].
  exfalso. apply Hne. apply (same_handle h' h a); congruence.
Qed.

(** Reference counting through handles is reference counting of objects:
    for a live handle [incRef] and [decRef] return and store the new count,
    [decRef] of the last reference ends the handle, [refCount] and [validate]
    report what the handle denotes; every other handle denotes what it did
    before; a dead handle is refused, the null handle ignored by [decRef]. *)
Lemma handle_counted st h :
  wf st -> proper st h -> (forall n o, lookup st h = Some (n, o) -> n < 2 ^ 31 - 1) ->
  match lookup st h with
  | Some (n, o) =>
      validate rsize h st = Ok (Some o) /\ refCount rsize h st = (st, Ok n)
      /\ (exists st', incRef rsize h st = (st', Ok (n + 1)) /\ wf st'
          /\ forall h', lookup st' h' = if decide (h' = h) then Some (n + 1, o) else lookup st h')
      /\ (exists st', decRef rsize h st = (st', Ok (n - 1)) /\ wf st'
          /\ forall h', lookup st' h' =
               if decide (h' = h) then (if n =? 1 then None else Some (n - 1, o)) else lookup st h')
  | None =>
      validate rsize h st = Ok None
      /\ incRef rsize h st = (st, Throw NVCV_ERROR_INVALID_ARGUMENT)
      /\ refCount rsize h st = (st, Throw NVCV_ERROR_INVALID_ARGUMENT)
      /\ decRef rsize h st = (st, if h =? 0 then Ok 0 else Throw NVCV_ERROR_INVALID_ARGUMENT)
  end.
Proof.
  intros W Hp Hn. pose proof (getValid_lookup st h W Hp) as HV.
  destruct (lookup st h) as [[n o]|] eqn:HL.
  - destruct HV as (r & Hgv & Hr & Hrn & Hro & Hg & Hh & Hf). specialize (Hn n o eq_refl).
    destruct (wf_used _ W _ _ Hr Hf) as [_ Hpos]. rewrite Hrn in Hpos.
    unfold validate, refCount, incRef, decRef. rewrite Hgv, (proj2 (Z.eqb_neq h 0)) by done.
    cbn [mbind outcome_bind]. rewrite Hrn, Hro, !i32_small by lia. split_and!; [done|done|..].
    + eexists. split; [done|]. split.
      { eapply wf_set_used; try done; cbn; lia. }
      intros h'. rewrite lookup_set. cbn [generation m_ptrObj m_refCount].
      case_decide as E; case_decide as E'; try congruence.
      * subst h'. by rewrite Hg, Z.eqb_refl.
      * rewrite (lookup_other st (Z.land h (-16)) r h h') by done.
        destruct (Z.eqb_spec (generation r) (Z.land h' 15)) as [E2|]; [|done].
        exfalso. apply E'. apply (same_handle h' h (Z.land h (-16))); congruence.
    + destruct (Z.eqb_spec (n - 1) 0) as [E1|E1]; (eexists; split; [done|]).
      * assert (n = 1) as -> by lia. split; [by apply wf_destroy|].
        intros h'. rewrite lookup_return, lookup_set. cbn [generation m_ptrObj m_refCount].
        case_decide as E; case_decide as E'; try congruence.
        -- subst h'. by rewrite Hg, Z.eqb_refl.
        -- rewrite (lookup_other st (Z.land h (-16)) r h h') by done. by destruct (generation r =? _).
      * rewrite (proj2 (Z.eqb_neq n 1)) by lia. split.
        { eapply wf_set_used; try done; cbn; lia. }
        intros h'. rewrite lookup_set. cbn [generation m_ptrObj m_refCount].
        case_decide as E; case_decide as E'; try congruence.
        -- subst h'. by rewrite Hg, Z.eqb_refl.
        -- rewrite (lookup_other st (Z.land h (-16)) r h h') by done.
           destruct (Z.eqb_spec (generation r) (Z.land h' 15)) as [E2|]; [|done].
           exfalso. apply E'. apply (same_handle h' h (Z.land h (-16))); congruence.
  - unfold validate, refCount, incRef, decRef. rewrite HV. cbn [mbind outcome_bind].
    split_and!; try done. by destruct (h =? 0).
Qed.

(** ** Creation *)

Lemma elem_of_pool base count a : a ∈ pool_addrs rsize base count <-> exists i, 0 <= i < count /\ a = base + i * rsize.
Proof.
  unfold pool_addrs. rewrite list_elem_of_fmap. setoid_rewrite elem_of_zrange. naive_solver.
Qed.

Lemma NoDup_pool base count : 0 < rsize -> NoDup (pool_addrs rsize base count).
Proof. intros Hr. unfold pool_addrs. apply NoDup_fmap_2; [intros x y H; nia|apply NoDup_zrange]. Qed.

Lemma lookup_new_resources (l : list Z) (m : gmap Z (@ResourceBase A)) x a :
  foldr (fun a m => <[a := x]> m) m l !! a = if decide (a ∈ l) then Some x else m !! a.
Proof.
  induction l as [|b l IH]; cbn [foldr]; [by rewrite decide_False by (apply not_elem_of_nil)|].
  destruct (decide (a = b)) as [->|Hne].
  - rewrite lookup_insert_eq, decide_True; [done|]. by apply elem_of_cons; left.
  - rewrite lookup_insert_ne, IH by done.
    destruct (decide (a ∈ l)), (decide (a ∈ b :: l)); set_solver.
Qed.

Lemma managed_allocate base count st a :
  isManagedResource rsize a (allocate rsize base count st)
  = (base <=? a) && (a <? base + count * rsize) || isManagedResource rsize a st.
Proof. done. Qed.

Lemma wf_allocate base count st : wf st -> fresh_pool base count st -> wf (allocate rsize base count st).
Proof.
  intros [W1 W2 W3 W4] [Hr Hb].
  assert (forall a, a ∈ freeResources st -> a ∉ pool_addrs rsize base count) as Hfree.
  { intros a Ha Hin. destruct (W3 a Ha) as [g Hg]. destruct (Hb a Hin) as (_ & _ & Hn). congruence. }
  split; cbn [allocate resources freeResources].
  - intros a r. rewrite lookup_new_resources, managed_allocate. case_decide as Hin.
    + intros [= <-]. destruct (Hb a Hin) as (? & ? & _). split_and!; try done.
      apply elem_of_pool in Hin as (i & Hi & ->). apply orb_true_iff. left.
      rewrite andb_true_iff, Z.leb_le, Z.ltb_lt. nia.
    + intros Hl. destruct (W1 a r Hl) as (? & ? & -> & ?). by rewrite orb_true_r.
  - apply NoDup_app. split_and!; [by apply NoDup_pool| |done]. intros a H1 H2. by apply (Hfree a).
  - intros a. rewrite lookup_new_resources. case_decide; [eauto|].
    intros [?|Ha]%elem_of_app; [done|]. by apply W3.
  - intros a r. rewrite lookup_new_resources. case_decide; [set_solver|].
    intros Hl Hn. eapply W4; [done|]. set_solver.
Qed.

Lemma lookup_allocate base count st h : wf st -> fresh_pool base count st ->
  lookup (allocate rsize base count st) h = lookup st h.
Proof.
  intros W [_ Hb]. unfold lookup. cbn [allocate resources]. rewrite lookup_new_resources.
  case_decide as Hin; [|done]. destruct (Hb _ Hin) as (_ & _ & ->). cbn. by case_match.
Qed.

(** Taking the first free resource. *)
Lemma fetch_free base fuel st a rest : wf st -> freeResources st = a :: rest ->
  exists g, resources st !! a = Some (mkResource g None 0)
  /\ doFetchFreeResource rsize (S fuel) base st
     = (mkState (<[a := mkResource g None 1]> (resources st)) (resourceStack st) rest (hasFixedSize st)
          (totalCapacity st) (usedCount st + 1), Ok a).
Proof.
  intros W Hf. destruct (wf_free _ W a) as [g Hg]; [rewrite Hf; by left|].
  exists g. split; [done|]. cbn [doFetchFreeResource]. by rewrite Hf, Hg.
Qed.

(** The state a creation starts from: the given one, or the one with a new
    pool when there is no free resource. *)
Definition grown (base : Z) st : state :=
  match freeResources st with
  | [] => allocate rsize base (if totalCapacity st =? 0 then kMinHandles else totalCapacity st) st
  | _ => st
  end.

Definition can_grow (base : Z) st : Prop :=
  0 <= totalCapacity st /\ (freeResources st = [] -> hasFixedSize st = false
    /\ fresh_pool base (if totalCapacity st =? 0 then kMinHandles else totalCapacity st) st).

Lemma fetch_grow base fuel st st' : freeResources st = [] -> doGrow rsize base st = (st', Ok tt) ->
  doFetchFreeResource rsize (S fuel) base st = doFetchFreeResource rsize fuel base st'.
Proof. intros Hf HG. cbn [doFetchFreeResource]. by rewrite Hf, HG. Qed.

Lemma grown_spec base st : wf st -> can_grow base st ->
  wf (grown base st) /\ (forall h, lookup (grown base st) h = lookup st h)
  /\ (exists a rest, freeResources (grown base st) = a :: rest)
  /\ doFetchFreeResource rsize 2 base st = doFetchFreeResource rsize 2 base (grown base st).
Proof.
  intros W [Hc Hg]. unfold grown. destruct (freeResources st) as [|a rest] eqn:Hf; [|split_and!; eauto].
  destruct (Hg eq_refl) as [Hfix Hb]. set (count := if _ =? _ then _ else _) in *.
  assert (0 < count) as Hcount by (unfold count, kMinHandles; destruct (Z.eqb_spec (totalCapacity st) 0); lia).
  assert (exists a rest, freeResources (allocate rsize base count st) = a :: rest) as (a & rest & Ha).
  { cbn [allocate freeResources]. unfold pool_addrs. rewrite zrange_cons by lia. cbn. eauto. }
  split_and!; [by apply wf_allocate|intros; by apply lookup_allocate|by exists a, rest|].
  assert (doGrow rsize base st = (allocate rsize base count st, Ok tt)) as HG.
  { unfold doGrow, doAllocate. rewrite Hfix, Hf. fold count. by rewrite (proj2 (Z.ltb_lt 0 count)). }
  rewrite (fetch_grow base 1 _ _ Hf HG). pose proof (wf_allocate base count st W Hb) as W'.
  destruct (fetch_free base 0 _ _ _ W' Ha) as (g & Hl & ->).
  destruct (fetch_free base 1 _ _ _ W' Ha) as (g' & Hl' & ->). congruence.
Qed.

Lemma wf_ext st st' : resources st' = resources st -> resourceStack st' = resourceStack st ->
  freeResources st' = freeResources st -> wf st -> wf st'.
Proof.
  intros H1 H2 H3 [W1 W2 W3 W4]. split; rewrite ?H1, ?H3; try done.
  intros a r Hr. unfold isManagedResource. rewrite H2. by apply W1.
Qed.

(** The first free resource becomes used. *)
Lemma wf_take st st' a rest r : wf st -> freeResources st = a :: rest ->
  resources st' = <[a := r]> (resources st) -> resourceStack st' = resourceStack st -> freeResources st' = rest ->
  0 <= generation r < 16 -> is_Some (m_ptrObj r) -> 1 <= m_refCount r < 2 ^ 31 -> wf st'.
Proof.
  intros [W1 W2 W3 W4] Hf H1 H2 H3 Hg Ho Hn. rewrite Hf in *. apply NoDup_cons in W2 as [Ha W2].
  split; rewrite ?H1, ?H3; try done.
  - intros b r'. unfold isManagedResource. rewrite H2. destruct (decide (b = a)) as [->|].
    + rewrite lookup_insert_eq. intros [= <-]. destruct (W3 a) as [g Hg']; [by left|].
      destruct (W1 a _ Hg') as (? & ? & ? & _). done.
    + rewrite lookup_insert_ne by done. apply W1.
  - intros b Hb. rewrite lookup_insert_ne by (intros ->; done). apply W3. by right.
  - intros b r'. destruct (decide (b = a)) as [->|].
    + rewrite lookup_insert_eq. by intros [= <-].
    + rewrite lookup_insert_ne by done. intros Hl Hn'. eapply W4; [done|]. by apply not_elem_of_cons.
Qed.

Lemma gen_wrap g : 0 <= wrapu 4 g < 16.
Proof. apply (wrapu_range 4). lia. Qed.

(** What [create] does when the first free resource is [a]. *)
Lemma create_free (ctor : outcome A) base st a rest g : resources st !! a = Some (mkResource g None 0) ->
  doFetchFreeResource rsize 2 base st
    = (mkState (<[a := mkResource g None 1]> (resources st)) (resourceStack st) rest (hasFixedSize st)
          (totalCapacity st) (usedCount st + 1), Ok a) ->
  let st1 := mkState (<[a := mkResource g None 1]> (resources st)) (resourceStack st) rest (hasFixedSize st)
          (totalCapacity st) (usedCount st + 1) in
  create rsize ctor base st =
    match ctor with
    | Ok o => let r := mkResource (wrapu 4 (g + 1)) (Some o) 1 in
              (set_resource st1 a r, Ok (doGetHandleFromResource a r, o))
    | Throw e => (doReturnResource a (set_resource st1 a (mkResource g None 0)), Throw e)
    | Stuck => (st1, Stuck)
    end.
Proof.
  intros Hl Hfetch. unfold create. rewrite Hfetch. cbn [resources]. rewrite lookup_insert_eq.
  cbn [live m_ptrObj generation m_refCount]. unfold live. cbn [m_ptrObj].
  rewrite bool_decide_eq_false_2 by (by intros []). by destruct ctor.
Qed.

(** C23: a created handle is new and denotes the new object with one reference;
    every other handle denotes what it did before. When the object's
    constructor throws, the exception passes through and no handle changes. *)
Theorem create_handle (ctor : outcome A) base st :
  wf st -> can_grow base st ->
  match ctor with
  | Ok o => exists st' h, create rsize ctor base st = (st', Ok (h, o)) /\ wf st' /\ h <> 0
      /\ lookup st h = None /\ forall h', lookup st' h' = if decide (h' = h) then Some (1, o) else lookup st h'
  | Throw e => exists st', create rsize ctor base st = (st', Throw e) /\ wf st'
      /\ forall h', lookup st' h' = lookup st h'
  | Stuck => True
  end.
Proof.
  intros W Hg. destruct (grown_spec base st W Hg) as (W' & Hlk & (a & rest & Hf) & Hfetch).
  destruct (fetch_free base 1 _ a rest W' Hf) as (g & Hl & Hfetch'). rewrite Hfetch' in Hfetch.
  assert (create rsize ctor base st = create rsize ctor base (grown base st)) as ->.
  { unfold create. by rewrite Hfetch, Hfetch'. }
  rewrite (create_free ctor base _ a rest g Hl Hfetch'). cbv zeta.
  destruct (wf_addr _ W' _ _ Hl) as (Ha & Hpos & _ & _).
  destruct ctor as [o|e|]; [|..|done].
  - pose proof (gen_wrap (g + 1)) as Hgen. set (r := mkResource (wrapu 4 (g + 1)) (Some o) 1).
    unfold doGetHandleFromResource. rewrite (proj2 (Z.eqb_neq a 0)) by lia. cbn [generation r].
    set (h := Z.lor a (wrapu 4 (g + 1))). pose proof (handle_addr a _ Ha Hgen) as Hha. fold h in Hha.
    pose proof (handle_gen a _ Ha Hgen) as Hhg. fold h in Hhg.
    assert (forall h', Z.land h' (-16) = a -> lookup st h' = None) as Hnone.
    { intros h' Eh. rewrite <- Hlk. unfold lookup. rewrite Eh, Hl. cbn. by case_match. }
    eexists _, h. split; [done|]. split_and!.
    + eapply (wf_take (grown base st) _ a rest r); try done. cbn. apply insert_insert_eq.
    + intros E0. rewrite E0 in Hha. change (Z.land 0 (-16)) with 0 in Hha. lia.
    + by apply Hnone.
    + intros h'. rewrite lookup_set. cbn [generation m_ptrObj m_refCount r].
      case_decide as E; case_decide as E'; try congruence.
      * subst h'. by rewrite Hhg, Z.eqb_refl.
      * rewrite Hnone by done. destruct (Z.eqb_spec (wrapu 4 (g + 1)) (Z.land h' 15)) as [E2|]; [|done].
        exfalso. apply E'. apply (same_handle h' h a); congruence.
      * rewrite <- Hlk. unfold lookup. cbn [resources]. by rewrite lookup_insert_ne by done.
  - eexists. split; [done|].
    assert (<[a := mkResource g None 0]> (<[a := mkResource g None 1]> (resources (grown base st)))
      = resources (grown base st)) as E by (rewrite insert_insert_eq; by apply insert_id).
    split.
    + eapply (wf_ext (grown base st)); [exact E|done| |done]. cbn. by rewrite Hf.
    + intros h'. rewrite <- Hlk. unfold lookup. cbn [doReturnResource set_resource resources]. by rewrite E.
Qed.

(** Under the fixed-size policy an exhausted manager refuses to create and
    is left as it was. *)
Theorem create_exhausted (ctor : outcome A) base st :
  freeResources st = [] -> hasFixedSize st = true ->
  create rsize ctor base st = (st, Throw NVCV_ERROR_OUT_OF_MEMORY).
Proof.
  intros Hf Hx. unfold create. cbn [doFetchFreeResource]. rewrite Hf. unfold doGrow. by rewrite Hx.
Qed.

(** ** Reuse of a resource *)

(** Create an object in the resource on top of the free list and give it up
    again, once per object of [os]. *)
Fixpoint churn (base : Z) (os : list A) st : state :=
  match os with
  | [] => st
  | o :: os =>
      match create rsize (Ok o) base st with
      | (st, Ok (h, _)) => churn base os (decRef rsize h st).1
      | (st, _) => st
      end
  end.

(** The resource [a] is free, on top, and had generation [g]. *)
Definition on_top a g st : Prop :=
  wf st /\ 0 <= g < 16 /\ resources st !! a = Some (mkResource g None 0) /\ exists rest, freeResources st = a :: rest.

Lemma create_on_top a g base o st : on_top a g st ->
  exists st', create rsize (Ok o) base st = (st', Ok (Z.lor a (wrapu 4 (g + 1)), o)) /\ wf st'
    /\ resources st' !! a = Some (mkResource (wrapu 4 (g + 1)) (Some o) 1) /\ a ∉ freeResources st'
    /\ a mod 16 = 0 /\ 0 < a.
Proof.
  intros (W & Hg & Hl & rest & Hf). destruct (wf_addr _ W _ _ Hl) as (Ha & Hpos & _ & _).
  destruct (fetch_free base 1 _ a rest W Hf) as (g' & Hl' & Hfetch). rewrite Hl in Hl'. injection Hl' as <-.
  rewrite (create_free (Ok o) base _ a rest g Hl Hfetch). cbv zeta.
  unfold doGetHandleFromResource. rewrite (proj2 (Z.eqb_neq a 0)) by lia. cbn [generation].
  eexists. split; [done|]. cbn [set_resource resources freeResources].
  pose proof (gen_wrap (g + 1)) as Hgen.
  split_and!; [|by rewrite lookup_insert_eq| |done|done].
  - eapply (wf_take st _ a rest (mkResource (wrapu 4 (g + 1)) (Some o) 1)); try done.
    cbn. apply insert_insert_eq.
  - pose proof (wf_free_nodup _ W) as HN. rewrite Hf in HN. by apply NoDup_cons in HN as [? _].
Qed.

Lemma decRef_last st a r : wf st -> resources st !! a = Some r -> a ∉ freeResources st -> m_refCount r = 1 ->
  is_Some (m_ptrObj r) ->
  exists st', decRef rsize (Z.lor a (generation r)) st = (st', Ok 0) /\ on_top a (generation r) st'.
Proof.
  intros W Hl Hf Hn [o Ho]. destruct (wf_addr _ W _ _ Hl) as (Ha & Hpos & Hm & Hg).
  pose proof (handle_addr a _ Ha Hg) as Hha. pose proof (handle_gen a _ Ha Hg) as Hhg.
  set (h := Z.lor a (generation r)) in *.
  assert (lookup st h = Some (1, o)) as HL by (unfold lookup; rewrite Hha, Hl, Hhg, Z.eqb_refl, Ho, Hn; done).
  assert (proper st h) as Hp by (intros _; rewrite Hha, Hl; eauto).
  pose proof (getValid_lookup st h W Hp) as HV. rewrite HL in HV.
  destruct HV as (r' & Hgv & Hr' & _ & _ & _ & Hh & _). rewrite Hha in Hgv, Hr'. rewrite Hl in Hr'. injection Hr' as <-.
  unfold decRef. rewrite (proj2 (Z.eqb_neq h 0)), Hgv, Hn by done. change (i32 (1 - 1)) with 0. cbn [Z.eqb].
  eexists. split; [done|]. unfold on_top. split_and!; [by apply wf_destroy|lia|lia| |].
  - cbn. by rewrite lookup_insert_eq.
  - by eexists.
Qed.

Lemma churn_on_top a base os g st : on_top a g st ->
  on_top a (wrapu 4 (g + Z.of_nat (length os))) (churn base os st).
Proof.
  revert g st. induction os as [|o os IH]; intros g st H.
  - cbn [churn length]. pose proof H as (_ & Hg & _). rewrite Z.add_0_r.
    unfold wrapu. change (2 ^ 4) with 16. rewrite Z.mod_small by done. by unfold on_top.
  - cbn [churn]. destruct (create_on_top a g base o st H) as (st1 & -> & W1 & Hl1 & Hf1 & Ha & Hpos).
    destruct (decRef_last st1 a _ W1 Hl1 Hf1) as (st2 & E & H2); [done|by eexists|].
    cbn [generation] in E, H2. rewrite E. cbn [fst]. apply IH in H2.
    replace (wrapu 4 (g + Z.of_nat (length (o :: os))))
      with (wrapu 4 (wrapu 4 (g + 1) + Z.of_nat (length os))); [done|].
    unfold wrapu. rewrite Zplus_mod_idemp_l. f_equal. cbn [length]. lia.
Qed.

(** C40: a handle whose object was destroyed is refused while its resource is
    used for new objects, with one exception: every sixteenth reuse of the
    resource gives the old handle out again, and the stale handle then denotes
    the new object. *)
Theorem stale_handle_window st h o os o' base :
  wf st -> lookup st h = Some (1, o) ->
  exists st1 st3 h', decRef rsize h st = (st1, Ok 0)
    /\ create rsize (Ok o') base (churn base os st1) = (st3, Ok (h', o'))
    /\ lookup st3 h' = Some (1, o')
    /\ if Z.of_nat (S (length os)) mod 16 =? 0 then h' = h else lookup st3 h = None.
Proof.
  intros W HL. unfold lookup in HL. destruct (resources st !! Z.land h (-16)) as [r|] eqn:Hl; [|done].
  destruct (Z.eqb_spec (generation r) (Z.land h 15)) as [Hg|]; [|done].
  destruct (m_ptrObj r) as [o0|] eqn:Ho; [|done]. cbn in HL. injection HL as Hn ->.
  set (a := Z.land h (-16)) in *.
  assert (a ∉ freeResources st) as Hf.
  { intros Hin. destruct (wf_free _ W _ Hin) as [g E]. rewrite Hl in E. by injection E as ->. }
  destruct (decRef_last st a r W Hl Hf Hn) as (st1 & E1 & H1); [by rewrite Ho|].
  assert (h = Z.lor a (generation r)) as Hh by (rewrite Hg; apply handle_split).
  rewrite <- Hh in E1. exists st1. apply (churn_on_top a base os) in H1.
  destruct (create_on_top _ _ base o' _ H1) as (st3 & E3 & W3 & Hl3 & _ & Ha & Hpos).
  set (n := Z.of_nat (S (length os))).
  assert (wrapu 4 (wrapu 4 (generation r + Z.of_nat (length os)) + 1) = wrapu 4 (generation r + n)) as Egen.
  { unfold wrapu, n. rewrite Zplus_mod_idemp_l. f_equal. lia. }
  rewrite Egen in E3, Hl3. exists st3, (Z.lor a (wrapu 4 (generation r + n))).
  pose proof (gen_wrap (generation r + n)) as Hgen.
  split_and!; [done|done|..].
  - unfold lookup. by rewrite handle_addr, handle_gen, Hl3, Z.eqb_refl by done.
  - pose proof (gen_range h) as Hr. rewrite <- Hg in Hr. unfold wrapu in *. change (2 ^ 4) with 16 in *.
    destruct (Z.eqb_spec (n mod 16) 0) as [E0|E0].
    + rewrite Hh. f_equal. rewrite <- Zplus_mod_idemp_r, E0, Z.add_0_r. by apply Z.mod_small.
    + unfold lookup. fold a. rewrite Hl3. cbn [generation]. rewrite <- Hg.
      destruct (Z.eqb_spec ((generation r + n) mod 16) (generation r)) as [E|]; [|done].
      exfalso. apply E0. pose proof (Z.div_mod (generation r + n) 16). pose proof (Z.div_mod n 16).
      pose proof (Z.mod_pos_bound n 16). lia.
Qed.

(** ** The recorded capacity *)

Inductive op :=
  | OpCreate (ctor : outcome A) (base : Z)
  | OpIncRef (handle : Z)
  | OpDecRef (handle : Z)
  | OpSetFixedSize (ndebug : bool) (env : option string) (maxSize base : Z)
  | OpSetDynamicSize (minSize base : Z)
  | OpClear (ndebug : bool) (env : option string).

(** The state an operation leaves, also when it throws. *)
Definition exec (o : op) st : state :=
  match o with
  | OpCreate ctor base => (create rsize ctor base st).1
  | OpIncRef h => (incRef rsize h st).1
  | OpDecRef h => (decRef rsize h st).1
  | OpSetFixedSize nd env n base => (setFixedSize rsize nd env n base st).1
  | OpSetDynamicSize n base => (setDynamicSize rsize n base st).1
  | OpClear nd env => (clear nd env st).1
  end.

Definition run (l : list op) : state := foldl (fun st o => exec o st) init l.

Lemma doAllocate_capacity base n st : totalCapacity (doAllocate rsize base n st).1 = totalCapacity st.
Proof. unfold doAllocate. by case_match. Qed.

Lemma fetch_capacity fuel base st : totalCapacity (doFetchFreeResource rsize fuel base st).1 = totalCapacity st.
Proof.
  revert st. induction fuel as [|fuel IH]; intros st; [done|]. cbn [doFetchFreeResource].
  destruct (freeResources st) as [|a rest] eqn:Hf.
  - unfold doGrow. rewrite Hf. destruct (hasFixedSize st); [done|].
    pose proof (doAllocate_capacity base (if totalCapacity st =? 0 then kMinHandles else totalCapacity st) st) as E.
    destruct (doAllocate _ _ _ _) as [st' [u|e|]]; cbn [fst] in *; try done. by rewrite IH.
  - destruct (resources st !! a); [|done]. by case_match.
Qed.

Lemma exec_capacity o st : totalCapacity (exec o st) = totalCapacity st.
Proof.
  destruct o as [ctor base|h|h|nd env n base|n base|nd env]; cbn [exec].
  - unfold create. pose proof (fetch_capacity 2 base st) as E.
    destruct (doFetchFreeResource _ _ _ _) as [st' [a|e|]]; cbn [fst] in *; try done.
    destruct (resources st' !! a) as [r|]; [|done]. destruct (live r); [done|]. by destruct ctor.
  - unfold incRef. by destruct (getValidResource _ _ _) as [[[a r]|]|e|].
  - unfold decRef. destruct (h =? 0); [done|].
    destruct (getValidResource _ _ _) as [[[a r]|]|e|]; try done. cbv zeta. by case_match.
  - unfold setFixedSize, clear. destruct (0 <? usedCount st); [done|]. destruct (n <=? totalCapacity st); [done|].
    destruct (leak_check nd env st); [|done]. by rewrite doAllocate_capacity.
  - unfold setDynamicSize. cbn [totalCapacity]. destruct (_ <? _); [|done]. by rewrite doAllocate_capacity.
  - unfold clear. by destruct (leak_check _ _ _).
Qed.

(** no operation ever records the capacity: after any sequence of
    operations it is 0. So a pool grown on demand always has 1024 resources;
    fixing the size of an idle manager always drops every pool and makes a
    new one of exactly the size asked for (also a smaller one than before),
    and fixing it at zero or less changes nothing. *)
Theorem capacity_never_recorded (l : list op) (nd : bool) (env : option string) (maxSize base : Z) :
  totalCapacity (run l) = 0
  /\ (freeResources (run l) = [] -> hasFixedSize (run l) = false ->
        doGrow rsize base (run l) = (allocate rsize base 1024 (run l), Ok tt))
  /\ (usedCount (run l) <= 0 ->
        setFixedSize rsize nd env maxSize base (run l) =
          if maxSize <=? 0 then (run l, Ok tt)
          else (allocate rsize base maxSize (mkState ∅ [] [] true 0 (usedCount (run l))), Ok tt)).
Proof.
  assert (totalCapacity (run l) = 0) as HC.
  { unfold run. assert (totalCapacity (init : @state A) = 0) as H0 by done. revert H0.
    generalize (init : @state A) as st. induction l as [|o l IH]; intros st H0; [done|].
    cbn [foldl]. apply IH. by rewrite exec_capacity. }
  generalize dependent (run l). intros st HC. split_and!; [done|..].
  - intros Hf Hx. unfold doGrow, doAllocate. by rewrite Hf, Hx, HC.
  - intros Hu. unfold setFixedSize, clear, leak_check, doAllocate.
    rewrite (proj2 (Z.ltb_ge 0 (usedCount st))) by done. rewrite HC.
    destruct (Z.leb_spec maxSize 0); [done|].
    cbn [hasFixedSize totalCapacity resources resourceStack freeResources usedCount].
    rewrite ?HC, Z.sub_0_r, (proj2 (Z.ltb_lt 0 maxSize)) by lia. done.
Qed.
End Invariant.

(** ** Witnesses: two resources of 64 bytes at 4096, the first one used *)
Module Concrete.

Definition pool_st : state (A := nat) := allocate 64 4096 2 init.
Definition one_used : state (A := nat) :=
  mkState (<[4096 := mkResource 1 (Some 7%nat) 1]> (resources pool_st)) [(4096, 2)] [4160] true 0 1.
Definition none_free : state (A := nat) :=
  mkState {[4096 := mkResource 1 (Some 7%nat) 1]} [(4096, 1)] [] true 0 1.

Lemma pool_fresh base count st : 0 < base -> base mod 16 = 0 -> resources (A := nat) st = ∅ ->
  fresh_pool 64 base count st.
Proof.
  intros Hb Hm E. split; [done|]. intros a (i & Hi & ->)%elem_of_pool. rewrite E, lookup_empty.
  split_and!; [|lia|done]. change 64 with (4 * 16). rewrite Z.mul_assoc, Z.mod_add; done.
Qed.

Lemma one_used_wf : wf 64 one_used.
Proof.
  apply (wf_take 64 pool_st one_used 4096 [4160] (mkResource 1 (Some 7%nat) 1)); try done.
  apply wf_allocate; [apply wf_init|by apply pool_fresh].
Qed.

Lemma one_used_can_grow : can_grow 64 8192 one_used.
Proof. split; [done|]. intros [=]. Qed.

Lemma create_handle_witness :
  exists st' h, create 64 (Ok 9%nat) 8192 one_used = (st', Ok (h, 9%nat)) /\ lookup st' h = Some (1, 9%nat)
    /\ lookup st' 4097 = Some (1, 7%nat).
Proof.
  destruct (create_handle 64 (Ok 9%nat) 8192 one_used one_used_wf one_used_can_grow)
    as (st' & h & H1 & _ & _ & H3 & H4).
  exists st', h. split; [exact H1|]. rewrite !H4. split; [by rewrite decide_True|].
  assert (lookup one_used 4097 = Some (1, 7%nat)) as E by (vm_compute; reflexivity).
  case_decide as D; [|exact E]. rewrite D in E. congruence.
Defined.

Lemma create_exhausted_witness :
  create 64 (Ok 9%nat) 8192 none_free = (none_free, Throw NVCV_ERROR_OUT_OF_MEMORY).
Proof. exact (create_exhausted 64 (Ok 9%nat) 8192 none_free eq_refl eq_refl). Defined.

(** Fifteen objects come and go, then the sixteenth gets the first handle. *)
Lemma stale_handle_window_witness :
  exists st1 st3, decRef 64 4097 one_used = (st1, Ok 0)
    /\ create 64 (Ok 9%nat) 8192 (churn 64 8192 (replicate 15 8%nat) st1) = (st3, Ok (4097, 9%nat)).
Proof.
  assert (lookup one_used 4097 = Some (1, 7%nat)) as E by (vm_compute; reflexivity).
  destruct (stale_handle_window 64 one_used 4097 7%nat (replicate 15 8%nat) 9%nat 8192 one_used_wf E)
    as (st1 & st3 & h' & H1 & H2 & _ & H3).
  change (h' = 4097) in H3. rewrite H3 in H2. exists st1, st3. split; [exact H1|exact H2].
Defined.

(** A manager fixed at ten resources can be fixed again, at five. *)
Lemma capacity_never_recorded_witness :
  setFixedSize 64 true None 5 8192 (run 64 [OpSetFixedSize true None 10 4096] : state (A := nat))
  = (allocate 64 8192 5 (mkState ∅ [] [] true 0 0), Ok tt).
Proof.
  destruct (capacity_never_recorded 64 [OpSetFixedSize true None 10 4096 : op (A := nat)] true None 5 8192)
    as (_ & _ & H).
  assert (usedCount (run 64 [OpSetFixedSize true None 10 4096] : state (A := nat)) = 0) as E by (vm_compute; reflexivity).
  rewrite E in H. exact (H ltac:(lia)).
Defined.

(** NVCV_LEAK_DETECTION=0 aborts, although the message it prints says that it
    disables the check. *)
Lemma leak_detection_0 : clear true (Some "0"%string) one_used = (one_used, Stuck).
Proof. reflexivity. Qed.

(** An address inside a pool that is not the start of a resource passes the
    membership test. *)
Lemma interior_address : isManagedResource 64 4112 one_used = true /\ resources one_used !! 4112 = None.
Proof. split; vm_compute; reflexivity. Qed.

End Concrete.

End HandleManager.
