(* ===== verification/Handles.v ===== *)
(** * Objects behind handles (priv/ICoreObject.hpp)

    What the handle manager promises to the classes that keep handles: a finite
    map from the valid handles to a reference count and an object. The classes
    are verified against this interface; [manager_implements] shows that the
    manager, with its pools and generations, is an implementation of it. *)
From S2P Require Import Prelude Effects HandleManager.
From stdpp Require Import options.

#[local] Open Scope Z_scope.

Abbreviation objects O := (gmap Z (Z * O)) (only parsing).

Section objects.
Context {O : Type}.

Definition refs_to (m : objects O) (h : Z) : Z := match m !! h with Some (n, _) => n | None => 0 end.
Definition object_of (m : objects O) (h : Z) : option O := snd <$> m !! h.

(** A reference more, and one less: the last one destroys the object. *)
Definition inc_ref (h : Z) (m : objects O) : objects O :=
  match m !! h with Some (n, o) => <[h := (n + 1, o)]> m | None => m end.
Definition dec_ref (h : Z) (m : objects O) : objects O :=
  match m !! h with Some (n, o) => if n =? 1 then delete h m else <[h := (n - 1, o)]> m | None => m end.

Definition positive (m : objects O) : Prop := forall h n o, m !! h = Some (n, o) -> 0 < n.

Lemma refs_object m h : positive m -> 0 < refs_to m h <-> is_Some (object_of m h).
Proof.
  intros P. unfold refs_to, object_of. destruct (m !! h) as [[n o]|] eqn:E; cbn; [|split; [lia|by intros []]].
  split; [by eauto|]. intros _. by eapply P.
Qed.

Lemma refs_nonneg m h : positive m -> 0 <= refs_to m h.
Proof. intros P. unfold refs_to. destruct (m !! h) as [[n o]|] eqn:E; [|done]. specialize (P _ _ _ E). lia. Qed.

Lemma inc_positive h m : positive m -> positive (inc_ref h m).
Proof.
  intros P g n o. unfold inc_ref. destruct (m !! h) as [[k x]|] eqn:E; [|apply P].
  destruct (decide (g = h)) as [->|]; [rewrite lookup_insert_eq|rewrite lookup_insert_ne by done; apply P].
  intros [= <- <-]. specialize (P _ _ _ E). lia.
Qed.

Lemma dec_positive h m : positive m -> positive (dec_ref h m).
Proof.
  intros P g n o. unfold dec_ref. destruct (m !! h) as [[k x]|] eqn:E; [|apply P]. specialize (P _ _ _ E) as Hk.
  destruct (Z.eqb_spec k 1).
  - intros H. apply lookup_delete_Some in H as [_ H]. by eapply P.
  - destruct (decide (g = h)) as [->|]; [rewrite lookup_insert_eq|rewrite lookup_insert_ne by done; apply P].
    intros [= <- <-]. lia.
Qed.

Lemma refs_inc h m g : is_Some (object_of m h) -> refs_to (inc_ref h m) g = refs_to m g + (if decide (g = h) then 1 else 0).
Proof.
  unfold refs_to, inc_ref, object_of. intros [o Ho]. destruct (m !! h) as [[n x]|] eqn:E; [|done].
  case_decide as D; [subst g; by rewrite lookup_insert_eq, E|]. rewrite lookup_insert_ne by done. lia.
Qed.

Lemma refs_dec h m g : is_Some (object_of m h) -> refs_to (dec_ref h m) g = refs_to m g - (if decide (g = h) then 1 else 0).
Proof.
  unfold refs_to, dec_ref, object_of. intros [o Ho]. destruct (m !! h) as [[n x]|] eqn:E; [|done].
  destruct (Z.eqb_spec n 1) as [->|]; case_decide as D; subst;
    rewrite ?lookup_delete_eq, ?lookup_insert_eq, ?lookup_delete_ne, ?lookup_insert_ne, ?E by done; lia.
Qed.

Lemma object_inc h m g : object_of (inc_ref h m) g = object_of m g.
Proof.
  unfold object_of, inc_ref. destruct (m !! h) as [[n o]|] eqn:E; [|done].
  destruct (decide (g = h)) as [->|]; [by rewrite lookup_insert_eq, E|by rewrite lookup_insert_ne].
Qed.

(** Dropping a reference to one of several, or to another object. *)
Lemma object_dec h m g : g <> h \/ 1 < refs_to m h -> object_of (dec_ref h m) g = object_of m g.
Proof.
  unfold object_of, dec_ref, refs_to. destruct (m !! h) as [[n o]|] eqn:E; [|done]. intros H.
  destruct (Z.eqb_spec n 1), (decide (g = h)) as [->|];
    rewrite ?lookup_delete_ne, ?lookup_insert_eq, ?lookup_insert_ne, ?E by done; (done || lia).
Qed.

End objects.

Create HintDb handles.
#[export] Hint Resolve inc_positive dec_positive : handles.

(** ** Access from the classes that keep handles *)

(** A state that contains the objects. *)
Class HasObjects (S O : Type) := { objs : S -> objects O; set_objs : objects O -> S -> S }.

Section access.
Context {S O : Type} `{HO : HasObjects S O}.

(** Every object of this library has the current version, so that the version
    test of the code does not fail. *)
Definition ToStaticRef (h : Z) : M S O :=
  s ← get; lift (match object_of (objs s) h with Some o => Ok o | None => Throw NVCV_ERROR_INVALID_ARGUMENT end).

Definition CoreObjectIncRef (h : Z) : M S Z :=
  s ← get;
  match objs s !! h with
  | Some (n, _) => _ ← modify (set_objs (inc_ref h (objs s))); mret (n + 1)
  | None => lift (Throw NVCV_ERROR_INVALID_ARGUMENT)
  end.

Definition CoreObjectDecRef (h : Z) : M S Z :=
  if h =? 0 then mret 0 else
  s ← get;
  match objs s !! h with
  | Some (n, _) => _ ← modify (set_objs (dec_ref h (objs s))); mret (n - 1)
  | None => lift (Throw NVCV_ERROR_INVALID_ARGUMENT)
  end.

Lemma ToStaticRef_run h s :
  ToStaticRef h s = (s, match object_of (objs s) h with Some o => Ok o | None => Throw NVCV_ERROR_INVALID_ARGUMENT end).
Proof. done. Qed.

Lemma IncRef_eq h s :
  CoreObjectIncRef h s = match objs s !! h with
                         | Some (n, _) => (set_objs (inc_ref h (objs s)) s, Ok (n + 1))
                         | None => (s, Throw NVCV_ERROR_INVALID_ARGUMENT)
                         end.
Proof. unfold CoreObjectIncRef. rewrite bind_run. cbn [get]. by destruct (objs s !! h) as [[n o]|]. Qed.

Lemma DecRef_eq h s :
  CoreObjectDecRef h s = if h =? 0 then (s, Ok 0) else
                         match objs s !! h with
                         | Some (n, _) => (set_objs (dec_ref h (objs s)) s, Ok (n - 1))
                         | None => (s, Throw NVCV_ERROR_INVALID_ARGUMENT)
                         end.
Proof.
  unfold CoreObjectDecRef. destruct (h =? 0); [done|]. rewrite bind_run. cbn [get]. by destruct (objs s !! h) as [[n o]|].
Qed.

Lemma IncRef_ok h s : is_Some (object_of (objs s) h) ->
  CoreObjectIncRef h s = (set_objs (inc_ref h (objs s)) s, Ok (refs_to (objs s) h + 1)).
Proof. intros [o Ho]. rewrite IncRef_eq. unfold object_of, refs_to in *. by destruct (objs s !! h) as [[n x]|]. Qed.

Lemma DecRef_ok h s : h <> 0 -> is_Some (object_of (objs s) h) ->
  CoreObjectDecRef h s = (set_objs (dec_ref h (objs s)) s, Ok (refs_to (objs s) h - 1)).
Proof.
  intros Hh [o Ho]. rewrite DecRef_eq, (proj2 (Z.eqb_neq h 0)) by done. unfold object_of, refs_to in *.
  by destruct (objs s !! h) as [[n x]|].
Qed.

End access.

(** ** The handle manager is an implementation *)

Section manager.
Context {O : Type} (rsize : Z).

Record implements (st : @HandleManager.state O) (m : objects O) : Prop := {
  imp_wf : HandleManager.wf rsize st;
  imp_lookup : forall h, HandleManager.lookup st h = m !! h }.

#[local] Instance objects_itself : HasObjects (objects O) O := {| objs := fun m => m; set_objs := fun m _ => m |}.

(** The result and the next state agree. *)
Definition agrees {R} (r : HandleManager.state * outcome R) (r' : objects O * outcome R) : Prop :=
  r.2 = r'.2 /\ implements r.1 r'.1.

(** C22: the handle manager implements counted references. On a manager whose
    handles denote the objects of a map, validating a handle, taking a reference
    and dropping one, the last included, give the result and the effect they
    have on the map, for valid handles and for invalid ones, except those whose
    address is in a pool of the manager but not the start of a resource: such a
    handle is taken for one ([HandleManager.Concrete.interior_address]). The counter
    of the references is below its greatest value. *)
Theorem manager_implements st m h : implements st m -> HandleManager.proper rsize st h -> m !! 0 = None ->
  refs_to m h < 2 ^ 31 - 1 ->
  HandleManager.validate rsize h st = Ok (object_of m h)
  /\ agrees (HandleManager.incRef rsize h st) (CoreObjectIncRef h m)
  /\ agrees (HandleManager.decRef rsize h st) (CoreObjectDecRef h m).
Proof.
  intros [W HL] Hp H0 Hn. pose proof (HandleManager.handle_counted rsize st h W Hp) as HC.
  rewrite IncRef_eq, DecRef_eq. unfold agrees, object_of, refs_to in *. cbn [objs set_objs objects_itself].
  rewrite HL in HC. destruct (m !! h) as [[n o]|] eqn:E.
  - destruct HC as (-> & _ & (si & -> & Wi & Li) & (sd & -> & Wd & Ld)); [by intros ? ? [= <- <-]|].
    rewrite (proj2 (Z.eqb_neq h 0)) by congruence.
    split; [done|]. split; (split; [done|]); (split; [done|]); intros g; cbn [fst]; rewrite ?Li, ?Ld, HL.
    + unfold inc_ref. rewrite E. case_decide as D; [subst g; by rewrite lookup_insert_eq|by rewrite lookup_insert_ne].
    + unfold dec_ref. rewrite E.
      destruct (n =? 1); case_decide as D; subst; by rewrite ?lookup_delete_eq, ?lookup_delete_ne, ?lookup_insert_eq, ?lookup_insert_ne.
  - destruct HC as (-> & -> & _ & ->); [done|]. split; [done|]. split; [done|]. by destruct (h =? 0).
Qed.

End manager.

(** ** A concrete manager *)

Module Concrete.

Definition one_object : objects nat := {[4097 := (1, 7%nat)]}.

Lemma one_used_implements : implements 64 HandleManager.Concrete.one_used one_object.
Proof.
  split; [exact HandleManager.Concrete.one_used_wf|]. intros h. unfold one_object, HandleManager.lookup.
  destruct (decide (h = 4097)) as [->|Hne]; [vm_compute; reflexivity|]. rewrite lookup_singleton_ne by done.
  assert (HandleManager.resources HandleManager.Concrete.one_used =
    <[4096 := HandleManager.mkResource 1 (Some 7%nat) 1]>
      (foldr (fun a m => <[a := HandleManager.mkResource 0 None 0]> m) ∅ [4096; 4160])) as -> by (vm_compute; reflexivity).
  destruct (decide (Z.land h (-16) = 4096)) as [E|Ha].
  - rewrite E, lookup_insert_eq. cbn [HandleManager.generation HandleManager.m_ptrObj]. destruct (Z.eqb_spec 1 (Z.land h 15)) as [E1|]; [|done].
    destruct Hne. by apply (HandleManager.same_handle h 4097 4096).
  - rewrite lookup_insert_ne by done. rewrite HandleManager.lookup_new_resources.
    case_decide; [|done]. cbn [HandleManager.generation HandleManager.m_ptrObj]. by destruct (_ =? _).
Qed.

Lemma manager_implements_witness :
  HandleManager.validate 64 4097 HandleManager.Concrete.one_used = Ok (Some 7%nat)
  /\ (HandleManager.decRef 64 4097 HandleManager.Concrete.one_used).2 = Ok 0.
Proof.
  destruct (manager_implements 64 HandleManager.Concrete.one_used one_object 4097) as (Hv & _ & Hd & _).
  - exact one_used_implements.
  - intros _. vm_compute. eexists. reflexivity.
  - reflexivity.
  - reflexivity.
  - split; [exact Hv|exact Hd].
Defined.

End Concrete.
