(* ===== verification/TensorLayout.v ===== *)
(** * Tensor layouts and shapes (nvcv/TensorLayout.h, priv/TensorLayout.cpp, priv/TensorShape.cpp)

    A layout labels the dimensions of a tensor with characters. Its buffer has
    room for 16; the model keeps the part that was written, so that reading a
    label nobody wrote is [Stuck]. *)
From Stdlib Require Import Ascii.
From S2P Require Import Prelude.
From stdpp Require Import options.

#[local] Open Scope Z_scope.

Definition NVCV_TENSOR_MAX_RANK : Z := 15.

(** [data]: the bytes of the buffer that have been written, from its start. *)
Record NVCVTensorLayout := mkLayout { data : list ascii; rank : Z }.

#[global] Instance NVCVTensorLayout_eq_dec : EqDecision NVCVTensorLayout.
Proof. solve_decision. Defined.

Definition NVCV_TENSOR_LAYOUT_MAKE (layout : string) : NVCVTensorLayout :=
  mkLayout (String.list_ascii_of_string layout ++ [zero]) (Z.of_nat (String.length layout)).

Definition NVCV_TENSOR_NONE := NVCV_TENSOR_LAYOUT_MAKE "".
Definition NVCV_TENSOR_WC := NVCV_TENSOR_LAYOUT_MAKE "WC".
Definition NVCV_TENSOR_NCHW := NVCV_TENSOR_LAYOUT_MAKE "NCHW".
Definition NVCV_TENSOR_NHWC := NVCV_TENSOR_LAYOUT_MAKE "NHWC".

Definition NVCV_TENSOR_IMPLICIT : list NVCVTensorLayout :=
  NVCV_TENSOR_LAYOUT_MAKE <$> ["" : string; "W"; "HW"; "NHW"; "NCHW"; "NCDHW"; "NCFDHW"]%string.

(** The bytes [beg, end) of a buffer. *)
Definition copy_range (d : list ascii) (b e : Z) : outcome (list ascii) :=
  if (0 <=? b) && (b <=? e) && (e <=? Z.of_nat (length d))
  then Ok (take (Z.to_nat (e - b)) (drop (Z.to_nat b) d)) else Stuck.

(** ** Construction *)

(** [CreateLayout(beg, end)]: [buf] holds the bytes from [beg] on, [len] is [end - beg]. *)
Definition CreateLayout_range (buf : option (list ascii)) (len : Z) : outcome NVCVTensorLayout :=
  match buf with
  | None => Throw NVCV_ERROR_INVALID_ARGUMENT
  | Some b =>
      throw_if (len <? 0) NVCV_ERROR_INVALID_ARGUMENT (
      throw_if (NVCV_TENSOR_MAX_RANK <? len) NVCV_ERROR_INVALID_ARGUMENT (
      d ← copy_range b 0 len; Ok (mkLayout d len)))
  end.

(** The labels copied from [cur], at most [n], and where the loop stops. *)
Fixpoint copy_labels (n : nat) (cur : string) : list ascii * string :=
  match n, cur with
  | S n, String c rest =>
      if ascii_dec c zero then ([], cur) else let '(l, cur) := copy_labels n rest in (c :: l, cur)
  | _, _ => ([], cur)
  end.

(** The byte a C string pointer points at. *)
Definition c_head (s : string) : ascii := match s with EmptyString => zero | String c _ => c end.

Definition CreateLayout (descr : option string) : outcome NVCVTensorLayout :=
  match descr with
  | None => Ok (mkLayout (replicate 16 zero) 0)
  | Some d =>
      let '(l, cur) := copy_labels (Z.to_nat NVCV_TENSOR_MAX_RANK) d in
      throw_if (negb (bool_decide (c_head cur = zero))) NVCV_ERROR_INVALID_ARGUMENT
        (let n := Z.of_nat (length l) in
         nvcv_assert ((0 <=? n) && (n <? 16)) (Ok (mkLayout (l ++ [zero]) n)))
  end.

(** ** Queries *)

Fixpoint list_index (x : ascii) (l : list ascii) (i : Z) : option Z :=
  match l with
  | [] => None
  | y :: l => if ascii_dec x y then Some i else list_index x l (i + 1)
  end.

(** [memchr(d + b, x, n)] as an offset from [d]; the search stops at the first match. *)
Definition memchr (d : list ascii) (b : Z) (x : ascii) (n : Z) : outcome (option Z) :=
  if (b <? 0) || (n <? 0) then Stuck else
  match list_index x (take (Z.to_nat n) (drop (Z.to_nat b) d)) b with
  | Some i => Ok (Some i)
  | None => if b + n <=? Z.of_nat (length d) then Ok None else Stuck
  end.

Definition FindDimIndex (layout : NVCVTensorLayout) (dimLabel : ascii) : outcome Z :=
  p ← memchr (data layout) 0 dimLabel (rank layout); Ok (default (-1) p).

Definition nvcvTensorLayoutFindDimIndex (layout : NVCVTensorLayout) (dimLabel : ascii) (idxStart : Z) : outcome Z :=
  idxStart ← (if idxStart <? 0 then int32 (rank layout + idxStart) else Ok idxStart);
  n ← int32 (rank layout - idxStart);
  if 0 <? n then p ← memchr (data layout) idxStart dimLabel n; Ok (default (-1) p) else Ok (-1).

Definition nvcvTensorLayoutGetLabel (layout : NVCVTensorLayout) (idx : Z) : outcome ascii :=
  if idx <? 0 then
    i ← int32 (rank layout + idx);
    if (0 <=? i) && (i <? rank layout) then rd (data layout) i else Ok zero
  else if idx <? rank layout then rd (data layout) idx else Ok zero.

Definition nvcvTensorLayoutGetNumDim (layout : NVCVTensorLayout) : Z := rank layout.

Definition IsChannelLast (layout : NVCVTensorLayout) : outcome bool :=
  if rank layout =? 0 then Ok true
  else c ← rd (data layout) (rank layout - 1); Ok (bool_decide (c = "C"%char)).

(** [memcmp(a + i, b + j, n) == 0]. *)
Definition same_bytes (a : list ascii) (i : Z) (b : list ascii) (j n : Z) : outcome bool :=
  x ← copy_range a i (i + n); y ← copy_range b j (j + n); Ok (bool_decide (x = y)).

Definition layout_eqb (a b : NVCVTensorLayout) : outcome bool :=
  if rank a =? rank b then same_bytes (data a) 0 (data b) 0 (rank a) else Ok false.

(** The sign of [memcmp]; bytes compare as unsigned. *)
Fixpoint memcmp (a b : list ascii) : Z :=
  match a, b with
  | x :: a, y :: b => if ascii_dec x y then memcmp a b else if (N_of_ascii x <? N_of_ascii y)%N then -1 else 1
  | _, _ => 0
  end.

Definition nvcvTensorLayoutCompare (a b : NVCVTensorLayout) : outcome Z :=
  if rank a =? rank b then
    x ← copy_range (data a) 0 (rank a); y ← copy_range (data b) 0 (rank b); Ok (memcmp x y)
  else int32 (rank a - rank b).

Definition nvcvTensorLayoutStartsWith (layout test : NVCVTensorLayout) : outcome bool :=
  if rank test <=? rank layout then same_bytes (data test) 0 (data layout) 0 (rank test) else Ok false.

Definition nvcvTensorLayoutEndsWith (layout test : NVCVTensorLayout) : outcome bool :=
  if rank test <=? rank layout
  then same_bytes (data test) 0 (data layout) (rank layout - rank test) (rank test) else Ok false.

(** The string at [layout->data]: the bytes up to the terminating zero. *)
Fixpoint c_string (d : list ascii) : outcome string :=
  match d with
  | [] => Stuck
  | c :: d => if ascii_dec c zero then Ok EmptyString else s ← c_string d; Ok (String c s)
  end.

Definition nvcvTensorLayoutGetName (layout : option NVCVTensorLayout) : outcome string :=
  match layout with None => Ok EmptyString | Some l => c_string (data l) end.

(** ** Parts of a layout *)

Definition first_labels (layout : NVCVTensorLayout) (n : Z) : outcome NVCVTensorLayout :=
  let r := Z.min n (rank layout) in
  throw_if (NVCV_TENSOR_MAX_RANK <? r) NVCV_ERROR_INVALID_ARGUMENT
    (d ← copy_range (data layout) 0 r; Ok (mkLayout d r)).

Definition last_labels (layout : NVCVTensorLayout) (n : Z) : outcome NVCVTensorLayout :=
  let r := Z.min n (rank layout) in
  throw_if (NVCV_TENSOR_MAX_RANK <? r) NVCV_ERROR_INVALID_ARGUMENT
    (d ← copy_range (data layout) (rank layout - r) (rank layout); Ok (mkLayout d r)).

(** The two functions call each other for a negative count, once. *)
Definition CreateFirst (layout : NVCVTensorLayout) (n : Z) : outcome NVCVTensorLayout :=
  if 0 <=? n then first_labels layout n else n ← int32 (- n); last_labels layout n.

Definition CreateLast (layout : NVCVTensorLayout) (n : Z) : outcome NVCVTensorLayout :=
  if 0 <=? n then last_labels layout n else n ← int32 (- n); first_labels layout n.

Definition clamp_index (r i : Z) : outcome Z :=
  if i <? 0 then s ← int32 (r + i); Ok (Z.max 0 s) else Ok (Z.min i r).

Definition CreateSubRange (layout : NVCVTensorLayout) (b e : Z) : outcome NVCVTensorLayout :=
  b ← clamp_index (rank layout) b;
  e ← clamp_index (rank layout) e;
  r ← int32 (e - b);
  if 0 <? r then
    throw_if (NVCV_TENSOR_MAX_RANK <? r) NVCV_ERROR_INVALID_ARGUMENT
      (d ← copy_range (data layout) b e; Ok (mkLayout d r))
  else Ok (mkLayout [] 0).

(** ** Permuting a shape *)

(** The loop [for (i = 0; i < srcLayout.rank; ++i)]. *)
Definition permute_step (srcLayout : NVCVTensorLayout) (srcShape : list Z) (dstLayout : NVCVTensorLayout)
    (dstShape : list Z) (i : Z) : outcome (list Z) :=
  label ← rd (data srcLayout) i;
  dstIdx ← FindDimIndex dstLayout label;
  if 0 <=? dstIdx then x ← rd srcShape i; wr dstShape dstIdx x else Ok dstShape.

(** [dstShape] points to [dstLayout.rank] integers. *)
Definition PermuteShape (srcLayout : NVCVTensorLayout) (srcShape : option (list Z))
    (dstLayout : NVCVTensorLayout) (dstNull : bool) : outcome (list Z) :=
  match srcShape with
  | None => Throw NVCV_ERROR_INVALID_ARGUMENT
  | Some src =>
      throw_if dstNull NVCV_ERROR_INVALID_ARGUMENT
        (mfold (permute_step srcLayout src dstLayout) (zrange 0 (rank srcLayout))
           (replicate (Z.to_nat (rank dstLayout)) 1))
  end.

(** ** Labels *)

Definition valid_layout (L : NVCVTensorLayout) : Prop :=
  0 <= rank L <= NVCV_TENSOR_MAX_RANK /\ rank L <= Z.of_nat (length (data L)).

#[global] Instance valid_layout_dec L : Decision (valid_layout L).
Proof. unfold valid_layout. apply _. Defined.

Definition labels (L : NVCVTensorLayout) : list ascii := take (Z.to_nat (rank L)) (data L).

Lemma length_labels L : valid_layout L -> Z.of_nat (length (labels L)) = rank L.
Proof. intros [? ?]. unfold labels. rewrite length_take. lia. Qed.

Lemma copy_range_ok d b e : 0 <= b <= e -> e <= Z.of_nat (length d) ->
  copy_range d b e = Ok (take (Z.to_nat (e - b)) (drop (Z.to_nat b) d)).
Proof.
  intros Hb He. unfold copy_range.
  by rewrite (proj2 (Z.leb_le 0 b)), (proj2 (Z.leb_le b e)), (proj2 (Z.leb_le e _)) by lia.
Qed.

(** A part of the buffer within the rank is the same part of the labels. *)
Lemma labels_range L b e : valid_layout L -> 0 <= b <= e -> e <= rank L ->
  copy_range (data L) b e = Ok (take (Z.to_nat (e - b)) (drop (Z.to_nat b) (labels L))).
Proof.
  intros [? ?] Hb He. rewrite copy_range_ok by lia. unfold labels. f_equal.
  rewrite skipn_firstn_comm, take_take. f_equal. lia.
Qed.

Lemma list_index_Some x l k i : list_index x l k = Some i ->
  k <= i < k + Z.of_nat (length l) /\ l !! Z.to_nat (i - k) = Some x
  /\ forall j, k <= j < i -> l !! Z.to_nat (j - k) <> Some x.
Proof.
  revert k. induction l as [|y l IH]; intros k; cbn [list_index]; [done|].
  destruct (ascii_dec x y) as [->|Hne].
  - intros [= <-]. rewrite Z.sub_diag. cbn. split_and!; [lia|lia|done|lia].
  - intros H. apply IH in H as (H1 & H2 & H3). cbn [length].
    replace (Z.to_nat (i - k)) with (S (Z.to_nat (i - (k + 1)))) by lia. split_and!; [lia|lia|done|].
    intros j Hj. destruct (decide (j = k)) as [->|]; [rewrite Z.sub_diag; intros E; injection E; congruence|].
    replace (Z.to_nat (j - k)) with (S (Z.to_nat (j - (k + 1)))) by lia. apply H3. lia.
Qed.

Lemma list_index_None x l k : list_index x l k = None <-> x ∉ l.
Proof.
  revert k. induction l as [|y l IH]; intros k; cbn [list_index]; [split; [intros _; apply not_elem_of_nil|done]|].
  rewrite not_elem_of_cons. destruct (ascii_dec x y); [naive_solver|]. rewrite IH. naive_solver.
Qed.

Lemma memchr_labels L x : valid_layout L -> memchr (data L) 0 x (rank L) = Ok (list_index x (labels L) 0).
Proof.
  intros [? ?]. unfold memchr. rewrite (proj2 (Z.ltb_ge (rank L) 0)) by lia. cbn [Z.ltb orb].
  change (drop (Z.to_nat 0) (data L)) with (data L). fold (labels L).
  destruct (list_index x (labels L) 0); [done|]. by rewrite (proj2 (Z.leb_le _ _)) by lia.
Qed.

Lemma FindDimIndex_labels L x : valid_layout L ->
  FindDimIndex L x = Ok (default (-1) (list_index x (labels L) 0)).
Proof. intros V. unfold FindDimIndex. by rewrite memchr_labels. Qed.

Lemma valid_prefix d n : 0 <= n <= NVCV_TENSOR_MAX_RANK -> Z.of_nat (length d) = n -> valid_layout (mkLayout d n).
Proof. unfold valid_layout. cbn. lia. Qed.

Lemma labels_exact d n : Z.of_nat (length d) = n -> labels (mkLayout d n) = d.
Proof. intros <-. unfold labels. cbn. by rewrite Nat2Z.id, firstn_all. Qed.

(** ** Parts of layouts *)

Lemma first_labels_spec L n : valid_layout L -> 0 <= n ->
  exists F, first_labels L n = Ok F /\ valid_layout F /\ labels F = take (Z.to_nat n) (labels L).
Proof.
  intros V Hn. pose proof V as [? ?]. pose proof (length_labels L V). unfold first_labels.
  rewrite (proj2 (Z.ltb_ge _ _)) by lia. cbn [throw_if]. rewrite labels_range by (done || lia).
  cbn [mbind outcome_bind drop]. rewrite drop_0, Z.sub_0_r. eexists. split; [done|].
  assert (Z.of_nat (length (take (Z.to_nat (Z.min n (rank L))) (labels L))) = Z.min n (rank L)) as E
    by (rewrite length_take; lia).
  split; [apply valid_prefix; lia|]. rewrite labels_exact by done.
  destruct (Z.le_gt_cases n (rank L)); [by rewrite Z.min_l by lia|].
  rewrite Z.min_r by lia. rewrite !firstn_all2 by lia. done.
Qed.

Lemma last_labels_spec L n : valid_layout L -> 0 <= n ->
  exists F, last_labels L n = Ok F /\ valid_layout F /\ labels F = drop (Z.to_nat (rank L - n)) (labels L).
Proof.
  intros V Hn. pose proof V as [? ?]. pose proof (length_labels L V). unfold last_labels.
  rewrite (proj2 (Z.ltb_ge _ _)) by lia. cbn [throw_if]. rewrite labels_range by (done || lia).
  cbn [mbind outcome_bind]. eexists. split; [done|].
  replace (Z.to_nat (rank L - Z.min n (rank L))) with (Z.to_nat (rank L - n)) by lia.
  rewrite firstn_all2 by (rewrite length_drop; lia).
  assert (Z.of_nat (length (drop (Z.to_nat (rank L - n)) (labels L))) = Z.min n (rank L)) as E
    by (rewrite length_drop; lia).
  split; [apply valid_prefix; lia|]. by apply labels_exact.
Qed.

(** The index a possibly negative, possibly too large index stands for. *)
Definition slice_index (r i : Z) : Z := if i <? 0 then Z.max 0 (r + i) else Z.min i r.

Lemma clamp_index_ok r i : 0 <= r <= NVCV_TENSOR_MAX_RANK -> in_s 32 i ->
  clamp_index r i = Ok (slice_index r i) /\ 0 <= slice_index r i <= r.
Proof.
  unfold NVCV_TENSOR_MAX_RANK, in_s, clamp_index, slice_index. intros Hr Hi. destruct (Z.ltb_spec i 0); [|split; [done|lia]].
  rewrite int32_ok by (unfold in_s; lia). cbn. split; [done|lia].
Qed.

(** C39: the functions that take a layout apart return well-formed layouts with
    the labels the documentation promises: the first [n], the last [n] (a
    negative count selects from the other end, a large one everything), or the
    slice between two indices that count from the end when negative and are
    clamped to the layout; the first labels are a prefix of the layout, the
    last ones a suffix. *)
Theorem layout_slices L n b e :
  valid_layout L -> - 2 ^ 31 < n < 2 ^ 31 -> in_s 32 b -> in_s 32 e ->
  exists F T S, CreateFirst L n = Ok F /\ CreateLast L n = Ok T /\ CreateSubRange L b e = Ok S
  /\ valid_layout F /\ valid_layout T /\ valid_layout S
  /\ labels F = (if 0 <=? n then take (Z.to_nat n) (labels L) else drop (Z.to_nat (rank L + n)) (labels L))
  /\ labels T = (if 0 <=? n then drop (Z.to_nat (rank L - n)) (labels L) else take (Z.to_nat (- n)) (labels L))
  /\ labels S = take (Z.to_nat (slice_index (rank L) e - slice_index (rank L) b))
                  (drop (Z.to_nat (slice_index (rank L) b)) (labels L)).
Proof.
  intros V Hn Hb He. pose proof V as [Hr ?]. pose proof (length_labels L V).
  assert (exists S, CreateSubRange L b e = Ok S /\ valid_layout S
    /\ labels S = take (Z.to_nat (slice_index (rank L) e - slice_index (rank L) b))
                  (drop (Z.to_nat (slice_index (rank L) b)) (labels L))) as (S & HS & VS & LS).
  { unfold CreateSubRange. destruct (clamp_index_ok (rank L) b Hr Hb) as [-> ?].
    destruct (clamp_index_ok (rank L) e Hr He) as [-> ?]. cbn [mbind outcome_bind].
    unfold NVCV_TENSOR_MAX_RANK in Hr. rewrite int32_ok by (unfold in_s; lia). cbn [mbind outcome_bind].
    destruct (Z.ltb_spec 0 (slice_index (rank L) e - slice_index (rank L) b)).
    - rewrite (proj2 (Z.ltb_ge _ _)) by (unfold NVCV_TENSOR_MAX_RANK; lia). cbn [throw_if].
      rewrite labels_range by (done || lia). cbn [mbind outcome_bind]. eexists. split; [done|].
      rewrite labels_exact by (rewrite length_take, length_drop; lia). split; [|done].
      apply valid_prefix; [unfold NVCV_TENSOR_MAX_RANK; lia|]. rewrite length_take, length_drop. lia.
    - eexists. split; [done|]. split; [apply valid_prefix; unfold NVCV_TENSOR_MAX_RANK; cbn; lia|].
      replace (Z.to_nat (_ - _)) with 0%nat by lia. done. }
  unfold CreateFirst, CreateLast. destruct (Z.leb_spec 0 n).
  - destruct (first_labels_spec L n V) as (F & -> & VF & LF); [lia|].
    destruct (last_labels_spec L n V) as (T & -> & VT & LT); [lia|]. by exists F, T, S.
  - rewrite !int32_ok by (unfold in_s; lia). cbn [mbind outcome_bind].
    destruct (first_labels_spec L (- n) V) as (T & -> & VT & LT); [lia|].
    destruct (last_labels_spec L (- n) V) as (F & -> & VF & LF); [lia|].
    exists F, T, S. rewrite LF, Z.sub_opp_r. by split_and!.
Qed.

Lemma layout_slices_witness :
  exists F, CreateFirst NVCV_TENSOR_NHWC (-1) = Ok F /\ labels F = ["C"%char].
Proof.
  destruct (layout_slices NVCV_TENSOR_NHWC (-1) 1 (-1)) as (F & T & S & HF & _ & _ & _ & _ & _ & LF & _);
    [vm_compute; repeat split; discriminate|lia|unfold in_s; lia|unfold in_s; lia|].
  exists F. split; [exact HF|exact LF].
Defined.

(** ** Permuting a shape *)

(** The extent a labelled shape gives to a label; a missing label has extent 1. *)
Definition extent (ls : list ascii) (shape : list Z) (x : ascii) : Z :=
  match list_index x ls 0 with Some i => default 1 (shape !! Z.to_nat i) | None => 1 end.

Lemma list_index_NoDup ls x i : NoDup ls -> 0 <= i -> ls !! Z.to_nat i = Some x -> list_index x ls 0 = Some i.
Proof.
  intros ND Hi Hx. destruct (list_index x ls 0) as [j|] eqn:E.
  - apply list_index_Some in E as (H1 & H2 & _). rewrite Z.sub_0_r in H2. f_equal.
    pose proof (NoDup_lookup _ _ _ _ ND Hx H2). lia.
  - exfalso. apply list_index_None in E. apply E. by eapply list_elem_of_lookup_2.
Qed.

(** The extents that the first [k] labels of the source have contributed. *)
Definition extent_upto (k : Z) (ls : list ascii) (shape : list Z) (x : ascii) : Z :=
  match list_index x ls 0 with
  | Some i => if i <? k then default 1 (shape !! Z.to_nat i) else 1
  | None => 1
  end.

Definition permute_inv src shape dst (k : Z) (out : list Z) : Prop :=
  Z.of_nat (length out) = rank dst
  /\ forall j x, labels dst !! j = Some x -> out !! j = Some (extent_upto k (labels src) shape x).

Lemma permute_step_inv src shape dst i out :
  valid_layout src -> valid_layout dst -> NoDup (labels src) -> NoDup (labels dst) ->
  Z.of_nat (length shape) = rank src -> 0 <= i < rank src -> permute_inv src shape dst i out ->
  exists out', permute_step src shape dst out i = Ok out' /\ permute_inv src shape dst (i + 1) out'.
Proof.
  intros Vs Vd NDs NDd Hl Hi [Hlen Hinv]. pose proof Vs as [_ Hd].
  pose proof (length_labels src Vs) as Hls. pose proof (length_labels dst Vd) as Hld.
  destruct (lookup_lt_is_Some_2 (labels src) (Z.to_nat i)) as [x Hx]; [lia|].
  destruct (lookup_lt_is_Some_2 shape (Z.to_nat i)) as [v Hv]; [lia|].
  pose proof (list_index_NoDup _ _ _ NDs (proj1 Hi) Hx) as Ex.
  assert (data src !! Z.to_nat i = Some x) as Hdx.
  { unfold labels in Hx. by apply lookup_take_Some in Hx as [? _]. }
  assert (forall y, y <> x -> extent_upto (i + 1) (labels src) shape y = extent_upto i (labels src) shape y) as Hother.
  { intros y Hy. unfold extent_upto. destruct (list_index y (labels src) 0) as [j|] eqn:Ej; [|done].
    destruct (decide (j = i)) as [->|].
    - apply list_index_Some in Ej as (_ & Ej & _). rewrite Z.sub_0_r in Ej. congruence.
    - destruct (Z.ltb_spec j (i + 1)), (Z.ltb_spec j i); done || lia. }
  unfold permute_step. rewrite (proj2 (rd_Ok _ i x)) by (split; [lia|done]). cbn [mbind outcome_bind].
  rewrite FindDimIndex_labels by done. cbn [mbind outcome_bind].
  destruct (list_index x (labels dst) 0) as [k|] eqn:Ek.
  - change (default (-1) (Some k)) with k. apply list_index_Some in Ek as (Hk & Hkx & _). rewrite Z.sub_0_r in Hkx.
    rewrite (proj2 (Z.leb_le 0 k)) by lia. rewrite (proj2 (rd_Ok shape i v)) by (split; [lia|done]). cbn [mbind outcome_bind].
    rewrite (proj2 (wr_Ok out k v (<[Z.to_nat k := v]> out))) by (split; [lia|done]).
    eexists. split; [done|]. split; [by rewrite length_insert|]. intros j y Hy.
    destruct (decide (j = Z.to_nat k)) as [->|Hne].
    + rewrite list_lookup_insert_eq by lia. assert (y = x) as -> by congruence.
      unfold extent_upto. rewrite Ex, Hv. by rewrite (proj2 (Z.ltb_lt i (i + 1))) by lia.
    + rewrite list_lookup_insert_ne by done. rewrite Hother; [by apply Hinv|].
      intros ->. apply Hne. by eapply NoDup_lookup.
  - change (0 <=? default (-1) None) with false. cbn iota. eexists. split; [done|]. split; [done|]. intros j y Hy.
    rewrite Hother; [by apply Hinv|]. intros ->. apply list_index_None in Ek. apply Ek.
    by eapply list_elem_of_lookup_2.
Qed.

Lemma PermuteShape_extents src shape dst :
  valid_layout src -> valid_layout dst -> NoDup (labels src) -> NoDup (labels dst) ->
  Z.of_nat (length shape) = rank src ->
  exists out, PermuteShape src (Some shape) dst false = Ok out /\ Z.of_nat (length out) = rank dst
  /\ forall j x, labels dst !! j = Some x -> out !! j = Some (extent (labels src) shape x).
Proof.
  intros Vs Vd NDs NDd Hl. pose proof (length_labels src Vs). pose proof (length_labels dst Vd).
  destruct (mfold_zrange (permute_step src shape dst) (permute_inv src shape dst) 0 (rank src)
    (replicate (Z.to_nat (rank dst)) 1)) as (out & Hout & Hlen & Hinv).
  - apply Vs.
  - split; [rewrite length_replicate; destruct Vd; lia|]. intros j x Hx. rewrite lookup_replicate_2.
    + unfold extent_upto. destruct (list_index x (labels src) 0) as [i|] eqn:E; [|done].
      apply list_index_Some in E as [? _]. by rewrite (proj2 (Z.ltb_ge i 0)) by lia.
    + apply lookup_lt_Some in Hx. lia.
  - intros i s Hi Hs. by apply permute_step_inv.
  - exists out. split; [done|]. split; [done|]. intros j x Hx. rewrite (Hinv j x Hx). f_equal.
    unfold extent_upto, extent. destruct (list_index x (labels src) 0) as [i|] eqn:E; [|done].
    apply list_index_Some in E as [? _]. by rewrite (proj2 (Z.ltb_lt i _)) by lia.
Qed.

(** Permuting a shape keeps the extent of every label: the result gives
    each label of the destination layout the extent it had in the source, and
    extent 1 to the labels the source does not have. When no label is dropped,
    permuting back gives the original shape. *)
Theorem permute_shape_extents src shape dst :
  valid_layout src -> valid_layout dst -> NoDup (labels src) -> NoDup (labels dst) ->
  Z.of_nat (length shape) = rank src ->
  exists out, PermuteShape src (Some shape) dst false = Ok out /\ Z.of_nat (length out) = rank dst
  /\ (forall x, x ∈ labels dst -> extent (labels dst) out x = extent (labels src) shape x)
  /\ (labels src ⊆ labels dst -> PermuteShape dst (Some out) src false = Ok shape).
Proof.
  intros Vs Vd NDs NDd Hl. destruct (PermuteShape_extents src shape dst) as (out & H1 & H2 & H3); [done..|].
  assert (forall x, x ∈ labels dst -> extent (labels dst) out x = extent (labels src) shape x) as H4.
  { intros x [j Hj]%list_elem_of_lookup_1. unfold extent at 1. rewrite <- (Nat2Z.id j) in Hj.
    rewrite (list_index_NoDup _ _ _ NDd (Nat2Z.is_nonneg j) Hj), (H3 _ _ Hj). done. }
  exists out. split_and!; [done..|]. intros Hsub.
  destruct (PermuteShape_extents dst out src) as (back & -> & B2 & B3); [done..|]. f_equal.
  apply list_eq_same_length with (n := length shape); [done|lia|]. intros i a v Hi Ha Hv.
  destruct (lookup_lt_is_Some_2 (labels src) i) as [x Hx]; [pose proof (length_labels src Vs); lia|].
  rewrite (B3 _ _ Hx) in Ha. injection Ha as <-.
  rewrite H4 by (apply Hsub; by eapply list_elem_of_lookup_2). unfold extent.
  rewrite <- (Nat2Z.id i) in Hx. rewrite (list_index_NoDup _ _ _ NDs (Nat2Z.is_nonneg i) Hx), Nat2Z.id, Hv. done.
Qed.

Lemma permute_shape_extents_witness :
  exists out, PermuteShape NVCV_TENSOR_NCHW (Some [2; 3; 480; 640]) NVCV_TENSOR_NHWC false = Ok out
    /\ PermuteShape NVCV_TENSOR_NHWC (Some out) NVCV_TENSOR_NCHW false = Ok [2; 3; 480; 640].
Proof.
  destruct (permute_shape_extents NVCV_TENSOR_NCHW [2; 3; 480; 640] NVCV_TENSOR_NHWC) as (out & H1 & _ & _ & H2);
    [vm_compute; repeat split; discriminate|vm_compute; repeat split; discriminate
    |apply (bool_decide_unpack _); vm_compute; exact I|apply (bool_decide_unpack _); vm_compute; exact I|reflexivity|].
  exists out. split; [exact H1|]. apply H2. intros x.
  change (x ∈ ["N"; "C"; "H"; "W"]%char -> x ∈ ["N"; "H"; "W"; "C"]%char). rewrite !elem_of_cons. tauto.
Defined.

Lemma memcmp_0 a b : length a = length b -> memcmp a b = 0 <-> a = b.
Proof.
  revert b. induction a as [|x a IH]; intros [|y b] H; try done. cbn in *. destruct (ascii_dec x y) as [->|Hne].
  - rewrite IH by lia. split; [by intros ->|by intros [= ->]].
  - split; [by destruct (_ <? _)%N|by intros [= ? _]].
Qed.

(** The comparison finds layouts equal that have the same labels. *)
Lemma layout_compare A B : valid_layout A -> valid_layout B ->
  exists c, nvcvTensorLayoutCompare A B = Ok c /\ (c = 0 <-> labels A = labels B).
Proof.
  intros VA VB. pose proof (length_labels A VA) as LA. pose proof (length_labels B VB) as LB. destruct VA as [? ?], VB as [? ?].
  unfold nvcvTensorLayoutCompare. destruct (Z.eqb_spec (rank A) (rank B)) as [E|Hne].
  - rewrite !copy_range_ok by lia. cbn [mbind outcome_bind]. eexists. split; [done|]. rewrite !Z.sub_0_r. cbn [Z.to_nat drop].
    apply memcmp_0. fold (labels A) (labels B). lia.
  - unfold NVCV_TENSOR_MAX_RANK in *. rewrite int32_ok by (unfold in_s; lia). eexists. split; [done|].
    split; [lia|]. intros E. rewrite E in LA. lia.
Qed.

(** The results of the slicing functions are not terminated, so that their
    name runs past what was written. *)
Lemma sliced_name_unterminated :
  exists F, CreateFirst NVCV_TENSOR_NHWC 2 = Ok F /\ nvcvTensorLayoutGetName (Some F) = Stuck.
Proof. eexists. split; reflexivity. Qed.

(** The message about a long description speaks of 16 labels; 15 is the limit. *)
Lemma sixteen_labels_refused :
  CreateLayout (Some "ABCDEFGHIJKLMNOP"%string) = Throw NVCV_ERROR_INVALID_ARGUMENT.
Proof. reflexivity. Qed.
