(* ===== verification/Strides.v ===== *)
(** * Strided dimensions

    The specification of every strided buffer in the development. A dimension is
    an extent and a stride in bytes; [offs] lists the byte offsets of the elements
    in row-major order. Dimensions form a monoid under concatenation, which
    [offs] maps to sums of progressions. *)
From S2P Require Import Prelude.
From stdpp Require Import options.

#[local] Open Scope Z_scope.

(** ** Offsets of the elements *)

(** All sums of an element of [a] and one of [b], [b] running faster. *)
Definition sums (a b : list Z) : list Z := a ≫= fun x => Z.add x <$> b.

(** [0, s, 2s, .., (n-1)s]. *)
Definition prog (n s : Z) : list Z := (fun i => i * s) <$> zseq (Z.to_nat n).

(** The byte offsets of the elements in row-major order. *)
Fixpoint offs (ds : list (Z * Z)) : list Z :=
  match ds with [] => [0] | (n, s) :: ds => sums (prog n s) (offs ds) end.

Definition extents (ds : list (Z * Z)) : list Z := ds.*1.

Definition prod (l : list Z) : Z := foldr Z.mul 1 l.

Lemma sums_0_l b : sums [0] b = b.
Proof. unfold sums. cbn. rewrite app_nil_r. rewrite <- (list_fmap_id b) at 2. by apply list_fmap_ext. Qed.

Lemma sums_0_r a : sums a [0] = a.
Proof. unfold sums. induction a as [|x a IH]; [done|]. cbn in *. by rewrite IH, Z.add_0_r. Qed.

Lemma sums_app a b c : sums (a ++ b) c = sums a c ++ sums b c.
Proof. unfold sums. by rewrite bind_app. Qed.

Lemma sums_shift x a b : sums (Z.add x <$> a) b = Z.add x <$> sums a b.
Proof.
  unfold sums. induction a as [|y a IH]; [done|]. cbn in *. rewrite IH, fmap_app. f_equal.
  rewrite <- list_fmap_compose. apply list_fmap_ext. intros i z _. cbn. lia.
Qed.

Lemma sums_assoc a b c : sums (sums a b) c = sums a (sums b c).
Proof.
  induction a as [|x a IH]; [done|]. change (x :: a) with ([x] ++ a). rewrite !sums_app, IH. f_equal.
  unfold sums at 2. cbn [mbind list_bind]. rewrite app_nil_r, sums_shift. unfold sums. cbn. by rewrite app_nil_r.
Qed.

Lemma offs_app d1 d2 : offs (d1 ++ d2) = sums (offs d1) (offs d2).
Proof. induction d1 as [|[n s] d1 IH]; cbn [offs app]; [by rewrite sums_0_l|]. by rewrite IH, sums_assoc. Qed.

Lemma prog_1 s : prog 1 s = [0].
Proof. done. Qed.

Lemma zseq_add a b : zseq (a + b) = zseq a ++ (Z.add (Z.of_nat a) <$> zseq b).
Proof.
  unfold zseq. rewrite seq_app, fmap_app. f_equal. cbn [Nat.add].
  replace (seq a b) with (Nat.add a <$> seq 0 b) by (rewrite fmap_add_seq; f_equal; lia).
  rewrite <- !list_fmap_compose. apply list_fmap_ext. intros i x _. cbn. lia.
Qed.

Lemma prog_add a b s : 0 <= a -> 0 <= b -> prog (a + b) s = prog a s ++ (Z.add (a * s) <$> prog b s).
Proof.
  intros Ha Hb. unfold prog. rewrite Z2Nat.inj_add, zseq_add, fmap_app by done. f_equal.
  rewrite <- !list_fmap_compose. apply list_fmap_ext. intros i x _. cbn. rewrite Z2Nat.id by done. ring.
Qed.

(** Two dimensions without a gap between them are one. *)
Lemma prog_merge a b s : 0 <= a -> 0 <= b -> sums (prog a (b * s)) (prog b s) = prog (a * b) s.
Proof.
  intros Ha Hb. revert a Ha. apply natlike_ind; [done|]. intros a Ha IH. rewrite <- Z.add_1_r.
  rewrite prog_add, sums_app, IH by lia. rewrite Z.mul_add_distr_r, Z.mul_1_l, prog_add by nia. f_equal.
  rewrite sums_shift, prog_1, sums_0_l. apply list_fmap_ext. intros i x _. lia.
Qed.

Lemma prod_app l1 l2 : prod (l1 ++ l2) = prod l1 * prod l2.
Proof. unfold prod. induction l1 as [|x l1 IH]; cbn [app foldr]; [lia|]. rewrite IH. ring. Qed.

Lemma prod_pos l : Forall (fun n => 0 < n) l -> 0 < prod l.
Proof. unfold prod. induction 1; cbn [foldr]; [lia|]. by apply Z.mul_pos_pos. Qed.

Lemma prod_nonneg l : Forall (fun n => 0 <= n) l -> 0 <= prod l.
Proof. unfold prod. induction 1; cbn [foldr]; [lia|]. by apply Z.mul_nonneg_nonneg. Qed.

(** Dimensions of extent one contribute nothing. *)
Lemma offs_ones g l : Forall (fun n => n = 1) g -> offs (zip g l) = [0].
Proof.
  intros HF. revert l. induction HF as [|n g -> _ IH]; intros [|s l]; [done..|].
  change (offs (zip (1 :: g) (s :: l))) with (sums (prog 1 s) (offs (zip g l))). by rewrite prog_1, sums_0_l.
Qed.

Lemma prod_ones g : Forall (fun n => 0 < n) g -> prod g = 1 -> Forall (fun n => n = 1) g.
Proof.
  induction 1 as [|n g Hn HF IH]; [done|]. unfold prod in *. cbn [foldr]. intros E.
  pose proof (prod_pos g HF) as Hp. unfold prod in Hp. assert (n = 1) by nia. subst n.
  constructor; [done|]. apply IH. lia.
Qed.

Lemma length_sums a b : length (sums a b) = (length a * length b)%nat.
Proof. unfold sums. induction a as [|x a IH]; [done|]. cbn in *. by rewrite length_app, length_fmap, IH. Qed.

Lemma length_offs ds : Forall (fun n => 0 <= n) (extents ds) -> Z.of_nat (length (offs ds)) = prod (extents ds).
Proof.
  unfold extents, prod. induction ds as [|[n s] ds IH]; intros HF; [done|]. apply Forall_cons in HF as [Hn HF].
  cbn [offs fmap list_fmap fst foldr] in *. rewrite length_sums, Nat2Z.inj_mul, (IH HF). f_equal.
  unfold prog, zseq. rewrite !length_fmap, length_seq. lia.
Qed.

Lemma offs_empty ds : Forall (fun n => 0 <= n) (extents ds) -> prod (extents ds) = 0 -> offs ds = [].
Proof. intros HF E. apply length_zero_iff_nil. apply length_offs in HF. lia. Qed.

Lemma pos_of_prod l : Forall (fun n => 0 <= n) l -> prod l <> 0 -> Forall (fun n => 0 < n) l.
Proof.
  unfold prod. induction 1 as [|n l Hn HF IH]; [done|]. cbn [foldr]. intros H. apply Z.neq_mul_0 in H as [H1 H2]. constructor; [lia|by apply IH].
Qed.

Lemma offs_dims_ones ds : Forall (fun n => 0 < n) (extents ds) -> prod (extents ds) = 1 -> offs ds = [0].
Proof. intros HF E. rewrite <- (zip_fst_snd ds). apply offs_ones. by apply prod_ones. Qed.

Lemma take_zip_app {A B} (a b : list A) (c : list B) : take (length a) (zip (a ++ b) c) = zip a c.
Proof. revert c. induction a as [|x a IH]; intros [|y c]; cbn; [done..|]. f_equal. apply IH. Qed.

Lemma zip_app_same {A B} (a : list A) (b c : list B) : length a = length b -> zip a (b ++ c) = zip a b.
Proof. revert b. induction a as [|x a IH]; intros [|y b]; cbn; intros E; [done..|]. f_equal. apply IH. lia. Qed.

(** ** Elements that do not overlap *)

(** Elements of [es] bytes at these offsets lie in [0, B) and are disjoint, in increasing order. *)
Definition spaced (es : Z) : list Z -> Prop := StronglySorted (fun a b => a + es <= b).
Definition inside (es B : Z) : list Z -> Prop := Forall (fun o => 0 <= o /\ o + es <= B).

(** The bytes spanned by dimensions whose innermost elements take [es]. *)
Definition span (es : Z) (ds : list (Z * Z)) : Z :=
  match ds with [] => es | (n, s) :: _ => n * s end.

(** Every stride leaves room for what it contains. *)
Fixpoint nested (es : Z) (ds : list (Z * Z)) : Prop :=
  match ds with [] => True | (n, s) :: ds => 0 < n /\ span es ds <= s /\ nested es ds end.

Lemma sums_prog_spaced es B s n l : 0 <= n -> B <= s -> 0 <= B -> spaced es l -> inside es B l ->
  spaced es (sums (prog n s) l) /\ inside es (n * s) (sums (prog n s) l).
Proof.
  intros Hn HB HB0 Hl Hi. revert n Hn. apply natlike_ind; [split; constructor|].
  intros n Hn [IH1 IH2]. rewrite <- Z.add_1_r. rewrite prog_add, sums_app by lia.
  rewrite sums_shift, prog_1, sums_0_l. split.
  - apply StronglySorted_app. split_and!; [|done|].
    + intros x1 x2 H1 H2. apply list_elem_of_fmap in H2 as (o & -> & Ho).
      apply (proj1 (Forall_forall _ _) IH2) in H1. apply (proj1 (Forall_forall _ _) Hi) in Ho. lia.
    + clear -Hl. induction Hl as [|x l Hl IH HF]; cbn; [constructor|]. constructor; [done|].
      apply Forall_fmap. eapply Forall_impl; [exact HF|cbn; lia].
  - apply Forall_app. split.
    + eapply Forall_impl; [exact IH2|cbn; lia].
    + apply Forall_fmap. eapply Forall_impl; [exact Hi|cbn; nia].
Qed.

Lemma span_nonneg es ds : 0 <= es -> nested es ds -> 0 <= span es ds.
Proof.
  intros He. induction ds as [|[n s] ds IH]; cbn [nested span]; [done|]. intros (Hn & Hs & H). specialize (IH H). nia.
Qed.

(** Nested strides put the elements next to each other, in order. *)
Lemma nested_offs es ds : 0 <= es -> nested es ds -> spaced es (offs ds) /\ inside es (span es ds) (offs ds).
Proof.
  intros He. induction ds as [|[n s] ds IH]; cbn [nested span offs].
  - intros _. split; repeat constructor; lia.
  - intros (Hn & Hs & H). destruct (IH H) as [I1 I2].
    apply (sums_prog_spaced es (span es ds)); [lia|lia|by apply span_nonneg|done|done].
Qed.

(** Dimensions of extent one can be left out. *)
Lemma offs_filter ds : offs (filter (fun d => d.1 <> 1) ds) = offs ds.
Proof.
  induction ds as [|[n s] ds IH]; [done|]. rewrite filter_cons. cbn [fst]. case_decide as H; cbn [offs]; rewrite IH; [done|].
  assert (n = 1) as -> by lia. by rewrite prog_1, sums_0_l.
Qed.
