(* ===== verification/Border.v ===== *)
(** * Indices outside an image
    ([cvcuda/cuda_tools/BorderWrap.hpp], [nvcv/BorderType.h])

    [IsOutside] and [GetIndexWithBorder] on signed coordinates of [w] bits, with
    the arithmetic of the code. The specification says of which index a coordinate
    is an image, by congruences; it determines the index. *)
From S2P Require Import Prelude.
From stdpp Require Import options.

#[local] Open Scope Z_scope.

(** ** Definitions *)

Inductive NVCVBorderType :=
| NVCV_BORDER_CONSTANT
| NVCV_BORDER_REPLICATE
| NVCV_BORDER_REFLECT
| NVCV_BORDER_WRAP
| NVCV_BORDER_REFLECT101.

#[global] Instance NVCVBorderType_eq_dec : EqDecision NVCVBorderType.
Proof. solve_decision. Defined.

(** Signed arithmetic of [w] bits. *)
Definition sint (w z : Z) : outcome Z := if bool_decide (in_s w z) then Ok z else Stuck.

Lemma sint_ok w z : in_s w z -> sint w z = Ok z.
Proof. intros H. unfold sint. by rewrite bool_decide_eq_true_2. Qed.

Definition IsOutside (Active : bool) (c s : Z) : bool := if Active then (c <? 0) || (s <=? c) else false.

(** The function is not instantiated for [NVCV_BORDER_CONSTANT]. *)
Definition GetIndexWithBorder (w : Z) (B : NVCVBorderType) (Active : bool) (c s : Z) : outcome Z :=
  if Active then
    nvcv_assert (0 <? s) (
    c ← match B with
        | NVCV_BORDER_CONSTANT => Stuck
        | NVCV_BORDER_REPLICATE => Ok (if c <? 0 then 0 else if s <=? c then s - 1 else c)
        | NVCV_BORDER_WRAP =>
            let c := Z.rem c s in
            if c <? 0 then sint w (c + s) else Ok c
        | NVCV_BORDER_REFLECT =>
            s2 ← sint w (s * 2);
            let c := Z.rem c s2 in
            c ← (if c <? 0 then sint w (c + s2) else Ok c);
            c2 ← sint w (2 * c);
            c2 ← sint w (c2 + 1);
            d ← sint w (c2 - s2);
            d ← sint w (Z.abs d);
            sint w (s - 1 - Z.shiftr d 1)
        | NVCV_BORDER_REFLECT101 =>
            if s =? 1 then Ok 0 else
            s2 ← sint w (2 * s);
            let p := s2 - 2 in
            let c := Z.rem c p in
            c ← (if c <? 0 then sint w (c + p) else Ok c);
            d ← sint w (s - 1 - c);
            d ← sint w (Z.abs d);
            sint w (s - 1 - d)
        end;
    nvcv_assert ((0 <=? c) && (c <? s)) (Ok c))
  else Ok c.

(** ** Specification *)

(** [r] is the index of [0, s) whose image is [c]. *)
Definition border_image (B : NVCVBorderType) (s c r : Z) : Prop :=
  0 <= r < s /\
  match B with
  | NVCV_BORDER_CONSTANT => r = c
  | NVCV_BORDER_REPLICATE => r = Z.max 0 (Z.min c (s - 1))
  | NVCV_BORDER_WRAP => (s | c - r)
  | NVCV_BORDER_REFLECT => (2 * s | c - r) \/ (2 * s | c + r + 1)
  | NVCV_BORDER_REFLECT101 => s = 1 \/ (2 * s - 2 | c - r) \/ (2 * s - 2 | c + r)
  end.

(** Multiples of [m] less than [m] apart are equal. *)
Lemma close_multiples m x y : (m | x) -> (m | y) -> - m < x - y < m -> x = y.
Proof. intros [p ->] [q ->] H. destruct (Z.eq_dec p q) as [->|]; [done|]. nia. Qed.

(** The specification determines the index. *)
Lemma border_image_unique B s c r r' : border_image B s c r -> border_image B s c r' -> r = r'.
Proof.
  intros [Hr H] [Hr' H']. destruct B; try congruence.
  - destruct H as [H|H], H' as [H'|H']; pose proof (close_multiples _ _ _ H H'); lia.
  - pose proof (close_multiples _ _ _ H H'). lia.
  - destruct (Z.eq_dec s 1) as [->|]; [lia|].
    destruct H as [?|[H|H]], H' as [?|[H'|H']]; try lia; pose proof (close_multiples _ _ _ H H'); lia.
Qed.

(** ** The code computes it *)

(** [c % m], and [m] added to a negative remainder. *)
Lemma rem_shifted w c m : 0 < m -> in_s w m -> (if Z.rem c m <? 0 then sint w (Z.rem c m + m) else Ok (Z.rem c m)) = Ok (c mod m).
Proof.
  intros Hm Hin. pose proof (Z.mod_pos_bound c m Hm). unfold in_s in Hin.
  pose proof (Z.rem_bound_abs c m ltac:(lia)). pose proof (Z.quot_rem' c m) as E.
  destruct (Z.ltb_spec (Z.rem c m) 0).
  - assert (Z.rem c m + m = c mod m) as ->; [|by rewrite sint_ok by (unfold in_s; lia)].
    apply Z.mod_unique with (Z.quot c m - 1); lia.
  - f_equal. apply Z.mod_unique with (Z.quot c m); lia.
Qed.

Lemma mod_image c m : 0 < m -> (m | c - c mod m).
Proof. intros Hm. exists (c / m). pose proof (Z.div_mod c m). lia. Qed.

(** Room for the intermediate values. *)
Definition border_room (w : Z) (B : NVCVBorderType) (s : Z) : Prop :=
  match B with
  | NVCV_BORDER_REFLECT => 4 * s <= 2 ^ (w - 1)
  | NVCV_BORDER_REFLECT101 => 2 * s < 2 ^ (w - 1)
  | _ => s < 2 ^ (w - 1)
  end.

Lemma border_checked s r : 0 <= r < s ->
  nvcv_assert ((0 <=? r) && (r <? s)) (Ok r) = Ok r.
Proof. intros Hr. by rewrite (proj2 (Z.leb_le 0 r)), (proj2 (Z.ltb_lt r s)) by lia. Qed.

Lemma reflect_index w c s : 0 < s -> 4 * s <= 2 ^ (w - 1) ->
  let m := c mod (2 * s) in
  GetIndexWithBorder w NVCV_BORDER_REFLECT true c s = Ok (if m <? s then m else 2 * s - 1 - m).
Proof.
  intros Hs Hw m. unfold GetIndexWithBorder. rewrite (proj2 (Z.ltb_lt 0 s)) by done. cbn [nvcv_assert].
  rewrite sint_ok by (unfold in_s; lia). cbn [mbind outcome_bind]. rewrite Z.mul_comm.
  rewrite rem_shifted by (lia || (unfold in_s; lia)). fold m. cbn [mbind outcome_bind].
  pose proof (Z.mod_pos_bound c (2 * s) ltac:(lia)) as Hm. fold m in Hm.
  rewrite sint_ok by (unfold in_s; lia). cbn [mbind outcome_bind].
  rewrite sint_ok by (unfold in_s; lia). cbn [mbind outcome_bind].
  rewrite sint_ok by (unfold in_s; lia). cbn [mbind outcome_bind].
  rewrite sint_ok by (unfold in_s; lia). cbn [mbind outcome_bind].
  assert (s - 1 - Z.shiftr (Z.abs (2 * m + 1 - 2 * s)) 1 = if m <? s then m else 2 * s - 1 - m) as ->.
  { rewrite Z.shiftr_div_pow2 by lia. change (2 ^ 1) with 2. destruct (Z.ltb_spec m s).
    - assert (s - 1 - m = Z.abs (2 * m + 1 - 2 * s) / 2); [|lia]. apply Z.div_unique with 1; lia.
    - assert (m - s = Z.abs (2 * m + 1 - 2 * s) / 2); [|lia]. apply Z.div_unique with 1; lia. }
  assert (0 <= (if m <? s then m else 2 * s - 1 - m) < s) by (destruct (Z.ltb_spec m s); lia).
  rewrite sint_ok by (unfold in_s; lia). cbn [mbind outcome_bind]. by apply border_checked.
Qed.

Lemma reflect101_index w c s : 1 < s -> 2 * s < 2 ^ (w - 1) ->
  let m := c mod (2 * s - 2) in
  GetIndexWithBorder w NVCV_BORDER_REFLECT101 true c s = Ok (if m <? s then m else 2 * s - 2 - m).
Proof.
  intros Hs Hw m. unfold GetIndexWithBorder. rewrite (proj2 (Z.ltb_lt 0 s)) by lia. cbn [nvcv_assert].
  rewrite (proj2 (Z.eqb_neq s 1)) by lia. rewrite sint_ok by (unfold in_s; lia). cbn [mbind outcome_bind]. cbv zeta.
  rewrite rem_shifted by (lia || (unfold in_s; lia)). fold m. cbn [mbind outcome_bind].
  pose proof (Z.mod_pos_bound c (2 * s - 2) ltac:(lia)) as Hm. fold m in Hm.
  rewrite sint_ok by (unfold in_s; lia). cbn [mbind outcome_bind].
  rewrite sint_ok by (unfold in_s; lia). cbn [mbind outcome_bind].
  assert (s - 1 - Z.abs (s - 1 - m) = if m <? s then m else 2 * s - 2 - m) as -> by (destruct (Z.ltb_spec m s); lia).
  assert (0 <= (if m <? s then m else 2 * s - 2 - m) < s) by (destruct (Z.ltb_spec m s); lia).
  rewrite sint_ok by (unfold in_s; lia). cbn [mbind outcome_bind]. by apply border_checked.
Qed.

Lemma border_index_image w B c s : B <> NVCV_BORDER_CONSTANT -> 0 < s -> border_room w B s ->
  exists r, GetIndexWithBorder w B true c s = Ok r /\ border_image B s c r.
Proof.
  intros HB Hs Hw. destruct B; [done|..]; cbn [border_room] in Hw.
  - exists (Z.max 0 (Z.min c (s - 1))). split; [|split; [lia|done]]. unfold GetIndexWithBorder.
    rewrite (proj2 (Z.ltb_lt 0 s)) by done. cbn [nvcv_assert mbind outcome_bind].
    assert ((if c <? 0 then 0 else if s <=? c then s - 1 else c) = Z.max 0 (Z.min c (s - 1))) as ->.
    { destruct (Z.ltb_spec c 0), (Z.leb_spec s c); lia. }
    apply border_checked; lia.
  - eexists. split; [by apply reflect_index|]. pose proof (Z.mod_pos_bound c (2 * s) ltac:(lia)).
    pose proof (mod_image c (2 * s) ltac:(lia)) as Hd. cbv zeta. destruct (Z.ltb_spec (c mod (2 * s)) s).
    + split; [lia|by left].
    + split; [lia|right]. replace (c + (2 * s - 1 - c mod (2 * s)) + 1) with ((c - c mod (2 * s)) + 2 * s) by lia.
      by apply Z.divide_add_r; [|exists 1; lia].
  - exists (c mod s). pose proof (Z.mod_pos_bound c s Hs). split; [|split; [done|by apply mod_image]].
    unfold GetIndexWithBorder. rewrite (proj2 (Z.ltb_lt 0 s)) by done. cbn [nvcv_assert]. cbv zeta.
    rewrite rem_shifted by (lia || (unfold in_s; lia)). cbn [mbind outcome_bind]. apply border_checked; lia.
  - destruct (Z.eq_dec s 1) as [->|Hne]; [exists 0; split; [done|split; [lia|by left]]|].
    eexists. split; [apply reflect101_index; lia|]. pose proof (Z.mod_pos_bound c (2 * s - 2) ltac:(lia)).
    pose proof (mod_image c (2 * s - 2) ltac:(lia)) as Hd. cbv zeta. destruct (Z.ltb_spec (c mod (2 * s - 2)) s).
    + split; [lia|right; by left].
    + split; [lia|right; right]. replace (c + (2 * s - 2 - c mod (2 * s - 2))) with ((c - c mod (2 * s - 2)) + (2 * s - 2)) by lia.
      by apply Z.divide_add_r; [|exists 1; lia].
Qed.

(** Coordinates inside are left as they are. *)
Lemma border_index_inside w B c s : B <> NVCV_BORDER_CONSTANT -> border_room w B s -> 0 <= c < s ->
  GetIndexWithBorder w B true c s = Ok c.
Proof.
  intros HB Hw Hc. destruct (border_index_image w B c s HB ltac:(lia) Hw) as (r & -> & Hr). f_equal.
  apply (border_image_unique B s c); [done|]. split; [done|]. destruct B; try done.
  - lia.
  - left. exists 0. lia.
  - exists 0. lia.
  - right; left. exists 0. lia.
Qed.

(** In 32 bits the reflection overflows on images of more than 2^29 elements. *)
Lemma reflect_overflows : GetIndexWithBorder 32 NVCV_BORDER_REFLECT true (2 ^ 30 + 1) (2 ^ 29 + 1) = Stuck.
Proof. reflexivity. Qed.
