(* ===== verification/TensorData.v ===== *)
(** * Tensor data and reshaping (nvcv/TensorData.h, priv/TensorData.cpp)

    The strided description of a tensor and the routine that gives it another
    shape without moving its elements. *)
From S2P Require Import Prelude TensorLayout Strides.
From stdpp Require Import options.

#[local] Open Scope Z_scope.

(** ** Data *)

Inductive NVCVTensorBufferType := NVCV_TENSOR_BUFFER_NONE | NVCV_TENSOR_BUFFER_STRIDED_CUDA.

#[global] Instance NVCVTensorBufferType_eq_dec : EqDecision NVCVTensorBufferType.
Proof. solve_decision. Defined.

(** [int64_t strides[15]; NVCVByte *basePtr]. *)
Record NVCVTensorBufferStrided := mkTensorBuffer { strides : list Z; basePtr : Z }.

#[global] Instance NVCVTensorBufferStrided_eq_dec : EqDecision NVCVTensorBufferStrided.
Proof. solve_decision. Defined.

Record NVCVTensorData := mkTensorData {
  dtype : Z;
  layout : NVCVTensorLayout;
  td_rank : Z;
  shape : list Z;
  bufferType : NVCVTensorBufferType;
  buffer : NVCVTensorBufferStrided }.

#[global] Instance NVCVTensorData_eq_dec : EqDecision NVCVTensorData.
Proof. solve_decision. Defined.

(** The pairs of extent and stride of the dimensions, outermost first. *)
Definition dims (td : NVCVTensorData) : list (Z * Z) :=
  take (Z.to_nat (td_rank td)) (zip (shape td) (strides (buffer td))).

(** ** Operations *)

(** The loop of [Simplify]: [vol] and [prev] are the volume of the open group and
    the stride of its innermost dimension. *)
Fixpoint Simplify_loop (vol prev : Z) (rest : list (Z * Z)) : outcome (list (Z * Z)) :=
  match rest with
  | [] => Ok [(vol, prev)]
  | (n, s) :: rest =>
      p ← int64 (n * s);
      if negb (prev =? p) then l ← Simplify_loop n s rest; Ok ((vol, prev) :: l)
      else vol ← int64 (vol * n); Simplify_loop vol s rest
  end.

(** The shape and strides written, as pairs. *)
Definition Simplify (ds : list (Z * Z)) : outcome (list (Z * Z)) :=
  match ds with
  | [] => Ok []
  | [d] => Ok [d]
  | (n, s) :: rest => Simplify_loop n s rest
  end.

(** [while (j < target_rank && out_v * target_shape[j] <= in_e) out_v *= target_shape[j++]]:
    the extents consumed, [out_v] and the extents left. *)
Fixpoint take_group (in_e out_v : Z) (target : list Z) : outcome (list Z * Z * list Z) :=
  match target with
  | [] => Ok ([], out_v, [])
  | t :: rest =>
      p ← int64 (out_v * t);
      if p <=? in_e then '(g, v, r) ← take_group in_e p rest; Ok (t :: g, v, r)
      else Ok ([], out_v, t :: rest)
  end.

(** The loop over [d], innermost first: the strides of the group and the last [s]. *)
Fixpoint group_strides (s : Z) (group : list Z) : outcome (list Z * Z) :=
  match group with
  | [] => Ok ([], s)
  | t :: rest => '(l, s) ← group_strides s rest; s' ← int64 (s * t); Ok (s :: l, s')
  end.

(** The strides written, from the first on, and the value returned. *)
Fixpoint ReshapeSimplified (ins : list (Z * Z)) (target : list Z) : outcome (list Z * bool) :=
  match ins, target with
  | [], _ | _, [] => Ok ([], true)
  | (in_e, in_s) :: ins, _ =>
      '(g, out_v, rest) ← take_group in_e 1 target;
      if negb (out_v =? in_e) then Ok ([], false)
      else '(l, _) ← group_strides in_s g; '(w, ret) ← ReshapeSimplified ins rest; Ok (l ++ w, ret)
  end.

(** [for (d = 0; d < rank; d++) volume *= shape[d]]. *)
Definition volume (rank : Z) (shape : list Z) : outcome Z :=
  mfold (fun v d => n ← rd shape d; int64 (v * n)) (zrange 0 rank) 1.

(** The elements [w] stored at the start of the array [l]. *)
Definition overwrite (w l : list Z) : list Z := w ++ drop (length w) l.

(** The checks that come before the first change. *)
Definition reshape_checks (td : NVCVTensorData) (new_rank : Z) (new_shape : list Z)
    (new_layout : NVCVTensorLayout) : outcome unit :=
  old_volume ← volume (td_rank td) (shape td);
  throw_if ((new_rank <? 1) || (NVCV_TENSOR_MAX_RANK <? new_rank)) NVCV_ERROR_INVALID_ARGUMENT (
  new_volume ← volume new_rank new_shape;
  throw_if (negb (new_volume =? old_volume)) NVCV_ERROR_INVALID_ARGUMENT (
  throw_if ((0 <? rank new_layout) && negb (rank new_layout =? new_rank)) NVCV_ERROR_INVALID_ARGUMENT (Ok tt))).

(** The strides computed for the new shape. *)
Definition reshape_strides (td : NVCVTensorData) (target : list Z) : outcome (list Z * bool) :=
  nvcv_assert (bool_decide (bufferType td = NVCV_TENSOR_BUFFER_STRIDED_CUDA))
    (simplified ← Simplify (dims td); ReshapeSimplified simplified target).

(** The tensor data when the function is left, and how it is left. *)
Definition ReshapeTensorData (td : NVCVTensorData) (new_rank : Z) (new_shape : list Z)
    (new_layout : NVCVTensorLayout) : NVCVTensorData * outcome unit :=
  let target := take (Z.to_nat new_rank) new_shape in
  match reshape_checks td new_rank new_shape new_layout with
  | Throw st => (td, Throw st)
  | Stuck => (td, Stuck)
  | Ok _ =>
      match reshape_strides td target with
      | Throw st => (td, Throw st)
      | Stuck => (td, Stuck)
      | Ok (w, ret) =>
          let buf := mkTensorBuffer (overwrite w (strides (buffer td))) (basePtr (buffer td)) in
          if (ret : bool) then
            (mkTensorData (dtype td) new_layout new_rank (overwrite target (shape td)) (bufferType td) buf, Ok tt)
          else
            (mkTensorData (dtype td) new_layout (td_rank td) (shape td) (bufferType td) buf,
             Throw NVCV_ERROR_INVALID_ARGUMENT)
      end
  end.

(** ** Simplification and reshaping *)

Lemma Simplify_loop_offs rest vol prev l : 0 <= vol -> Forall (fun n => 0 <= n) (extents rest) ->
  Simplify_loop vol prev rest = Ok l ->
  offs l = sums (prog vol prev) (offs rest) /\ prod (extents l) = vol * prod (extents rest)
  /\ Forall (fun n => 0 <= n) (extents l).
Proof.
  unfold extents. revert vol prev l. induction rest as [|[n s] rest IH]; intros vol prev l Hv HF; cbn [Simplify_loop].
  - intros [= <-]. cbn [offs fmap list_fmap fst]. split_and!; [done|done|by repeat constructor].
  - apply Forall_cons in HF as [Hn HF]. cbn [fst] in Hn. intros H. ok_inv.
    apply int64_Ok in H as [_ ->]. destruct (Z.eqb_spec prev (n * s)) as [->|_]; cbn [negb] in *; ok_inv.
    + apply int64_Ok in H as [_ ->]. apply IH in H0 as (-> & -> & ?); [|nia|done].
      cbn [offs fmap list_fmap fst prod foldr]. rewrite <- sums_assoc, prog_merge by done.
      split_and!; [done|unfold prod; ring|done].
    + subst l. apply IH in H as (E1 & E2 & ?); [|done..]. cbn [offs fmap list_fmap fst prod foldr]. rewrite E1.
      split_and!; [done|unfold prod in *; lia|by constructor].
Qed.

Lemma Simplify_offs ds l : Forall (fun n => 0 <= n) (extents ds) -> Simplify ds = Ok l ->
  offs l = offs ds /\ prod (extents l) = prod (extents ds) /\ Forall (fun n => 0 <= n) (extents l).
Proof.
  intros HF. destruct ds as [|[n s] [|d rest]]; cbn [Simplify]; [by intros [= <-]..|].
  apply Forall_cons in HF as [Hn HF]. cbn in Hn. intros H. by apply Simplify_loop_offs in H.
Qed.

Lemma take_group_Ok target in_e out_v g v rest : take_group in_e out_v target = Ok (g, v, rest) ->
  target = g ++ rest /\ v = out_v * prod g.
Proof.
  revert out_v g v rest. induction target as [|t target IH]; intros out_v g v rest; cbn [take_group].
  - intros [= <- <- <-]. cbn. split; [done|lia].
  - intros H. ok_inv. apply int64_Ok in H as [_ ->]. destruct (_ <=? in_e).
    + ok_inv. destruct x as [[g' v'] r']. ok_inv. apply IH in H as [-> ->]. simplify_eq.
      split; [done|]. unfold prod. cbn [foldr]. ring.
    + ok_inv. simplify_eq. split; [done|]. cbn. lia.
Qed.

Lemma group_strides_Ok g s l s' : Forall (fun n => 0 <= n) g -> group_strides s g = Ok (l, s') ->
  length l = length g /\ s' = prod g * s /\ offs (zip g l) = prog (prod g) s.
Proof.
  intros HF. revert l s'. induction HF as [|t g Ht HF IH]; intros l s'; cbn [group_strides].
  - intros [= <- <-]. rewrite Z.mul_1_l. done.
  - intros H. ok_inv. destruct x as [l1 s1]. ok_inv. apply int64_Ok in H0 as [_ ->].
    destruct (IH _ _ H) as (E1 & -> & E3). simplify_eq. unfold prod in *. cbn [length foldr]. split_and!.
    + lia.
    + ring.
    + change (offs (zip (t :: g) (foldr Z.mul 1 g * s :: l1)))
        with (sums (prog t (foldr Z.mul 1 g * s)) (offs (zip g l1))).
      rewrite E3. apply prog_merge; [done|]. by apply prod_nonneg.
Qed.

Lemma ReshapeSimplified_offs ins target w tail :
  Forall (fun n => 0 < n) (extents ins) -> Forall (fun n => 0 < n) target -> prod (extents ins) = prod target ->
  ReshapeSimplified ins target = Ok (w, true) -> offs (zip target (w ++ tail)) = offs ins.
Proof.
  unfold extents. revert target w. induction ins as [|[e s] ins IH]; intros target w Hi Ht E; cbn [ReshapeSimplified].
  { intros _. apply offs_ones. by apply prod_ones. }
  destruct target as [|t target]; [intros _; symmetry; by apply offs_dims_ones|].
  intros H. ok_inv. destruct x as [[g v] rest]. apply take_group_Ok in H as [Et ->]. rewrite Et in *. clear Et t target.
  rewrite Z.mul_1_l in *. destruct (Z.eqb_spec (prod g) e) as [<-|_]; cbn [negb] in *; [|simplify_eq].
  ok_inv. destruct x as [l s']. ok_inv. destruct x as [w' ret]. simplify_eq. ok_inv. simplify_eq.
  apply Forall_app in Ht as [Hg Hr]. pose proof (prod_pos g Hg) as Hp.
  apply Forall_cons in Hi as [_ Hi]. rewrite prod_app in E. cbn [fmap list_fmap fst] in E.
  change (prod (prod g :: ins.*1)) with (prod g * prod (ins.*1)) in E. apply Z.mul_reg_l in E; [|lia].
  apply group_strides_Ok in H as (El & _ & Eo); [|eapply Forall_impl; [exact Hg|cbn; lia]].
  rewrite <- app_assoc, zip_with_app by done. rewrite offs_app, Eo. cbn [offs]. f_equal. by apply IH.
Qed.

Lemma ReshapeSimplified_length ins target w ret :
  ReshapeSimplified ins target = Ok (w, ret) -> (length w <= length target)%nat.
Proof.
  revert target w. induction ins as [|[e s] ins IH]; intros target w; cbn [ReshapeSimplified].
  { intros H. ok_inv. simplify_eq. cbn. lia. }
  destruct target as [|t target]; [intros H; ok_inv; simplify_eq; done|].
  intros H. ok_inv. destruct x as [[g v] rest]. apply take_group_Ok in H as [-> ->].
  destruct (negb _); [simplify_eq; ok_inv; simplify_eq; cbn; lia|].
  ok_inv. destruct x as [l s']. ok_inv. destruct x as [w' ret']. ok_inv. simplify_eq.
  match goal with H : ReshapeSimplified _ _ = _ |- _ => apply IH in H end.
  rewrite !length_app. assert (length l = length g); [|lia].
  match goal with H : group_strides _ _ = _ |- _ => clear -H; revert l s' H end. induction g as [|t g IH]; intros l s'; cbn [group_strides]; intros H; ok_inv.
  - by simplify_eq.
  - destruct x as [l1 s1]. ok_inv. simplify_eq. cbn [length]. f_equal. by eapply IH.
Qed.

(** ** Volumes *)

Lemma volume_loop sh lo hi acc v : 0 <= lo ->
  mfold (fun v d => n ← rd sh d; int64 (v * n)) (zrange lo hi) acc = Ok v ->
  v = acc * prod (take (Z.to_nat (hi - lo)) (drop (Z.to_nat lo) sh)) /\ (lo < hi -> hi <= Z.of_nat (length sh)).
Proof.
  remember (Z.to_nat (hi - lo)) as n eqn:En. revert lo acc En. induction n as [|n IH]; intros lo acc En Hlo.
  - unfold zrange. rewrite <- En. intros [= ->]. split; [change (prod (take 0 _)) with 1|]; lia.
  - rewrite zrange_cons by lia. cbn [mfold]. intros H. ok_inv. apply rd_Ok in H as [_ Hx]. apply int64_Ok in H1 as [_ ->].
    apply IH in H0 as [-> Hb]; [|lia..]. rewrite (drop_S _ _ _ Hx). cbn [take]. split.
    + replace (S (Z.to_nat lo)) with (Z.to_nat (lo + 1)) by lia. unfold prod. cbn [foldr]. ring.
    + apply lookup_lt_Some in Hx. lia.
Qed.

Lemma volume_Ok r sh v : volume r sh = Ok v ->
  v = prod (take (Z.to_nat r) sh) /\ (0 < r -> r <= Z.of_nat (length sh)).
Proof. intros H. apply volume_loop in H as [-> ?]; [|done]. rewrite Z.sub_0_r, drop_0, Z.mul_1_l. done. Qed.

Lemma volume_loop_ok sh lo hi acc : 0 <= lo <= hi -> hi <= Z.of_nat (length sh) -> 0 < acc ->
  let l := take (Z.to_nat (hi - lo)) (drop (Z.to_nat lo) sh) in
  Forall (fun n => 0 < n) l -> acc * prod l < 2 ^ 63 ->
  mfold (fun v d => n ← rd sh d; int64 (v * n)) (zrange lo hi) acc = Ok (acc * prod l).
Proof.
  cbn zeta. remember (Z.to_nat (hi - lo)) as n eqn:En. revert lo acc En. induction n as [|n IH]; intros lo acc En Hlo Hh Ha.
  - unfold zrange. rewrite <- En. change (prod (take 0 _)) with 1. intros _ _. cbn. f_equal. lia.
  - destruct (lookup_lt_is_Some_2 sh (Z.to_nat lo)) as [x Hx]; [lia|].
    rewrite (drop_S _ _ _ Hx). cbn [take]. intros HF Hb. apply Forall_cons in HF as [Hp HF].
    change (prod (x :: take n (drop (S (Z.to_nat lo)) sh))) with (x * prod (take n (drop (S (Z.to_nat lo)) sh))) in *.
    pose proof (prod_pos _ HF) as Hq. rewrite zrange_cons by lia. cbn [mfold].
    rewrite (proj2 (rd_Ok sh lo x)) by (split; [lia|done]). cbn [mbind outcome_bind].
    rewrite int64_ok by (unfold in_s; nia). cbn [mbind outcome_bind].
    replace (S (Z.to_nat lo)) with (Z.to_nat (lo + 1)) in * by lia. rewrite Z.mul_assoc.
    rewrite (IH (lo + 1)) by (done || lia || nia). done.
Qed.

Lemma volume_ok r sh : 0 <= r <= Z.of_nat (length sh) ->
  Forall (fun n => 0 < n) (take (Z.to_nat r) sh) -> prod (take (Z.to_nat r) sh) < 2 ^ 63 ->
  volume r sh = Ok (prod (take (Z.to_nat r) sh)).
Proof.
  intros Hr HF Hb. unfold volume. rewrite volume_loop_ok; rewrite ?Z.sub_0_r, ?drop_0, ?Z.mul_1_l; (done || lia).
Qed.

(** ** The shape of a tensor *)

Definition valid_td (td : NVCVTensorData) : Prop :=
  0 <= td_rank td <= NVCV_TENSOR_MAX_RANK /\ length (shape td) = 15%nat /\ length (strides (buffer td)) = 15%nat
  /\ Forall (fun n => 0 <= n) (take (Z.to_nat (td_rank td)) (shape td)).

#[global] Instance valid_td_dec td : Decision (valid_td td).
Proof. unfold valid_td. apply _. Defined.

Lemma extents_dims td : valid_td td -> extents (dims td) = take (Z.to_nat (td_rank td)) (shape td).
Proof. intros (? & ? & ? & ?). unfold extents, dims. rewrite fmap_take, fst_zip by lia. done. Qed.

Lemma length_overwrite w l : (length w <= length l)%nat -> length (overwrite w l) = length l.
Proof. intros. unfold overwrite. rewrite length_app, length_drop. lia. Qed.

(** The tensor data after a reshape that wrote the strides [w]. *)
Definition reshaped (td : NVCVTensorData) (L : NVCVTensorLayout) (r : Z) (target w : list Z) : NVCVTensorData :=
  mkTensorData (dtype td) L r (overwrite target (shape td)) (bufferType td)
    (mkTensorBuffer (overwrite w (strides (buffer td))) (basePtr (buffer td))).

Lemma reshape_checks_Ok td r sh L : valid_td td -> reshape_checks td r sh L = Ok tt ->
  1 <= r <= NVCV_TENSOR_MAX_RANK /\ length (take (Z.to_nat r) sh) = Z.to_nat r
  /\ prod (extents (dims td)) = prod (take (Z.to_nat r) sh) /\ (rank L <= 0 \/ rank L = r).
Proof.
  intros V H. unfold reshape_checks in H. ok_inv. bool_hyps. rewrite (extents_dims td V).
  repeat match goal with H : volume _ _ = Ok _ |- _ => apply volume_Ok in H as [-> ?] end.
  split_and!; [lia|lia|rewrite length_take; lia|lia|].
  destruct (Z.ltb_spec 0 (rank L)); [|lia]. cbn [andb] in *. bool_hyps. lia.
Qed.

Lemma ReshapeTensorData_Ok td r sh L td' : valid_td td -> ReshapeTensorData td r sh L = (td', Ok tt) ->
  let target := take (Z.to_nat r) sh in exists ins w,
  reshape_checks td r sh L = Ok tt /\ Simplify (dims td) = Ok ins /\ ReshapeSimplified ins target = Ok (w, true)
  /\ td' = reshaped td L r target w.
Proof.
  intros V. unfold ReshapeTensorData. cbn zeta. destruct (reshape_checks td r sh L) as [[]| |] eqn:EC; [|done..].
  unfold reshape_strides, nvcv_assert. destruct (bool_decide _); [|done].
  destruct (Simplify (dims td)) as [ins| |]; [|done..]. cbn [mbind outcome_bind].
  destruct (ReshapeSimplified ins _) as [[w []]| |] eqn:ER; [|done..]. intros [= <-]. by exists ins, w.
Qed.

Lemma reshaped_valid td L r target w : valid_td td -> 1 <= r <= NVCV_TENSOR_MAX_RANK ->
  length target = Z.to_nat r -> Forall (fun n => 0 <= n) target -> (length w <= length target)%nat ->
  valid_td (reshaped td L r target w)
  /\ dims (reshaped td L r target w) = zip target (w ++ drop (length w) (strides (buffer td)))
  /\ extents (dims (reshaped td L r target w)) = target.
Proof.
  intros (? & Hs & Ht & HF) Hr El Hn Hw. unfold NVCV_TENSOR_MAX_RANK in *.
  assert (take (Z.to_nat r) (overwrite target (shape td)) = target) as E.
  { unfold overwrite. rewrite <- El. apply take_app_length. }
  assert (valid_td (reshaped td L r target w)) as V.
  { unfold valid_td, reshaped, NVCV_TENSOR_MAX_RANK. cbn [td_rank shape buffer strides]. rewrite E, !length_overwrite by lia. split_and!; (done || lia). }
  split_and!; [done| |by rewrite extents_dims].
  unfold dims, reshaped. cbn [td_rank shape buffer strides]. unfold overwrite. rewrite <- El. apply take_zip_app.
Qed.

(** C34: reshaping keeps the elements in place. Whenever a reshape of well-formed data
    to extents none of which is negative succeeds (that none is, the code does not
    check: see [negative_extents_accepted]), the
    k-th element of the new shape in row-major order is the k-th element of the
    old shape, at the same byte offset from an unchanged base address; the data
    has the shape and the layout asked for and is well-formed. *)
Theorem reshape_preserves_elements td r sh L td' :
  valid_td td -> Forall (fun n => 0 <= n) (take (Z.to_nat r) sh) ->
  ReshapeTensorData td r sh L = (td', Ok tt) ->
  offs (dims td') = offs (dims td) /\ extents (dims td') = take (Z.to_nat r) sh
  /\ layout td' = L /\ (rank L <= 0 \/ rank L = r) /\ basePtr (buffer td') = basePtr (buffer td)
  /\ dtype td' = dtype td /\ valid_td td'.
Proof.
  intros V HF H. apply (ReshapeTensorData_Ok _ _ _ _ _ V) in H as (ins & w & HC & HS & HR & ->).
  apply (reshape_checks_Ok _ _ _ _ V) in HC as (Hr & El & Ep & HL).
  destruct (reshaped_valid td L r _ w V Hr El HF (ReshapeSimplified_length _ _ _ _ HR)) as (V' & Ed & Ee).
  split_and!; [|done..]. pose proof V as (_ & _ & _ & HF0). rewrite <- (extents_dims td V) in HF0.
  destruct (Simplify_offs _ _ HF0 HS) as (Eo & Ei & Hi).
  destruct (Z.eq_dec (prod (extents (dims td))) 0) as [E0|E0].
  - rewrite (offs_empty (dims td)) by done. apply offs_empty; rewrite Ee; [done|congruence].
  - rewrite Ed, <- Eo. apply ReshapeSimplified_offs; [apply pos_of_prod; [done|]|apply pos_of_prod; [done|]| |done]; congruence.
Qed.

(** ** Packed tensors *)

(** Row-major strides without gaps, for elements [s] bytes apart. *)
Fixpoint packed_strides (s : Z) (l : list Z) : list Z :=
  match l with [] => [] | _ :: l => prod l * s :: packed_strides s l end.

Lemma length_packed_strides s l : length (packed_strides s l) = length l.
Proof. induction l; cbn; congruence. Qed.

(** The magnitudes that the routine computes for dimensions of volume [v]. *)
Definition in_range (v s : Z) : Prop := v < 2 ^ 63 /\ v * Z.abs s < 2 ^ 63.

Lemma in_range_le v v' s : 0 <= v' <= v -> in_range v s -> in_range v' s.
Proof. unfold in_range. nia. Qed.

Lemma in_range_int64 v s : 0 <= v -> in_range v s -> int64 (v * s) = Ok (v * s).
Proof. intros Hv [? ?]. apply int64_ok. unfold in_s. nia. Qed.

Lemma Simplify_loop_packed s l vol : 0 < vol -> Forall (fun n => 0 < n) l -> in_range (vol * prod l) s ->
  Simplify_loop vol (prod l * s) (zip l (packed_strides s l)) = Ok [(vol * prod l, s)].
Proof.
  intros Hv HF. revert vol Hv. induction HF as [|n l Hn HF IH]; intros vol Hv Hr.
  - cbn [packed_strides zip_with Simplify_loop prod foldr]. by rewrite Z.mul_1_r, Z.mul_1_l.
  - change (prod (n :: l)) with (n * prod l) in *. pose proof (Z.mul_pos_pos n (prod l) Hn (prod_pos l HF)).
    pose proof (Z.mul_pos_pos vol n Hv Hn). pose proof (prod_pos l HF).
    cbn [packed_strides zip_with Simplify_loop]. replace (n * (prod l * s)) with (n * prod l * s) by ring.
    rewrite (in_range_int64 (n * prod l) s); [|lia|apply (in_range_le (vol * (n * prod l))); [nia|exact Hr]].
    cbn [mbind outcome_bind]. rewrite Z.eqb_refl. cbn [negb]. destruct Hr as [? ?].
    rewrite int64_ok by (unfold in_s; nia). cbn [mbind outcome_bind].
    rewrite IH; [by rewrite Z.mul_assoc|nia|by rewrite <- Z.mul_assoc].
Qed.

Lemma Simplify_packed s l : l <> [] -> Forall (fun n => 0 < n) l -> in_range (prod l) s ->
  Simplify (zip l (packed_strides s l)) = Ok [(prod l, s)].
Proof.
  destruct l as [|n [|m l]]; [done|..]; intros _ HF Hr.
  - cbn. by rewrite Z.mul_1_r, Z.mul_1_l.
  - apply Forall_cons in HF as [Hn HF]. by apply (Simplify_loop_packed s (m :: l) n).
Qed.

Lemma take_group_all l acc s : 0 < acc -> Forall (fun n => 0 < n) l -> in_range (acc * prod l) s ->
  take_group (acc * prod l) acc l = Ok (l, acc * prod l, []).
Proof.
  intros Ha HF. revert acc Ha. induction HF as [|n l Hn HF IH]; intros acc Ha Hr; cbn [take_group].
  - by rewrite Z.mul_1_r.
  - change (prod (n :: l)) with (n * prod l) in *. pose proof (prod_pos l HF). destruct Hr as [H1 H2].
    rewrite Z.mul_assoc in *. pose proof (Z.mul_pos_pos acc n Ha Hn) as Hm.
    rewrite int64_ok by (unfold in_s; nia). cbn [mbind outcome_bind]. rewrite (proj2 (Z.leb_le _ _)) by nia.
    by rewrite IH.
Qed.

Lemma group_strides_packed s l : Forall (fun n => 0 < n) l -> in_range (prod l) s ->
  group_strides s l = Ok (packed_strides s l, prod l * s).
Proof.
  induction 1 as [|n l Hn HF IH]; intros Hr; cbn [group_strides packed_strides].
  - by rewrite Z.mul_1_l.
  - change (prod (n :: l)) with (n * prod l) in *. pose proof (prod_pos l HF) as Hp.
    rewrite IH by (apply (in_range_le (n * prod l)); [nia|done]). cbn [mbind outcome_bind].
    replace (prod l * s * n) with (n * prod l * s) by ring. by rewrite in_range_int64 by (done || nia).
Qed.

Lemma ReshapeSimplified_packed s l : l <> [] -> Forall (fun n => 0 < n) l -> in_range (prod l) s ->
  ReshapeSimplified [(prod l, s)] l = Ok (packed_strides s l, true).
Proof.
  intros Hl HF Hr. destruct l as [|t l]; [done|]. cbn [ReshapeSimplified].
  pose proof (take_group_all (t :: l) 1 s ltac:(lia) HF) as E. rewrite Z.mul_1_l in E. rewrite E by done.
  cbn [mbind outcome_bind]. rewrite Z.eqb_refl. cbn [negb]. rewrite group_strides_packed by done.
  cbn [mbind outcome_bind ReshapeSimplified]. by rewrite app_nil_r.
Qed.

(** C35: a packed tensor can be given every shape of the same volume. When the
    elements are [s] bytes apart without gaps and the sizes fit 64 bits, the
    call returns, and the data it leaves is packed again with the same distance
    between elements. *)
Theorem packed_reshape_succeeds td r sh L s :
  valid_td td -> bufferType td = NVCV_TENSOR_BUFFER_STRIDED_CUDA -> 1 <= td_rank td ->
  dims td = zip (extents (dims td)) (packed_strides s (extents (dims td))) ->
  1 <= r <= NVCV_TENSOR_MAX_RANK -> r <= Z.of_nat (length sh) -> (rank L <= 0 \/ rank L = r) ->
  let target := take (Z.to_nat r) sh in
  Forall (fun n => 0 < n) target -> prod target = prod (extents (dims td)) -> in_range (prod target) s ->
  exists td', ReshapeTensorData td r sh L = (td', Ok tt)
  /\ dims td' = zip target (packed_strides s target) /\ valid_td td'.
Proof.
  cbn zeta. intros V HB H1 HP Hr Hl HL HF Ep Hin. pose proof (prod_pos _ HF) as Hpos.
  assert (length (take (Z.to_nat r) sh) = Z.to_nat r) as El by (rewrite length_take; lia).
  assert (take (Z.to_nat r) sh <> []) as Hne by (intros E; rewrite E in El; cbn in El; lia).
  pose proof V as (HR & Hs & Ht & HF0). rewrite <- (extents_dims td V) in HF0.
  assert (Forall (fun n => 0 < n) (extents (dims td))) as HFp by (apply pos_of_prod; [done|lia]).
  assert (length (extents (dims td)) = Z.to_nat (td_rank td)) as Ed.
  { rewrite extents_dims, length_take by done. unfold NVCV_TENSOR_MAX_RANK in *. lia. }
  assert (reshape_checks td r sh L = Ok tt) as HC.
  { unfold reshape_checks. rewrite (volume_ok (td_rank td)); rewrite <- ?(extents_dims td V);
      [|unfold NVCV_TENSOR_MAX_RANK in *; lia|done|destruct Hin; lia].
    cbn [mbind outcome_bind]. rewrite (proj2 (Z.ltb_ge r 1)), (proj2 (Z.ltb_ge _ r)) by lia. cbn [orb throw_if].
    rewrite volume_ok by (done || lia || (destruct Hin; lia)). cbn [mbind outcome_bind].
    rewrite Ep, Z.eqb_refl. cbn [negb throw_if]. destruct (Z.ltb_spec 0 (rank L)); [|done].
    rewrite (proj2 (Z.eqb_eq (rank L) r)) by lia. done. }
  assert (reshape_strides td (take (Z.to_nat r) sh) = Ok (packed_strides s (take (Z.to_nat r) sh), true)) as HS.
  { unfold reshape_strides. rewrite bool_decide_eq_true_2 by done. cbn [nvcv_assert].
    rewrite HP, Simplify_packed; [|intros E; rewrite E in Ed; cbn in Ed; lia|done|by rewrite <- Ep].
    cbn [mbind outcome_bind]. rewrite <- Ep. by apply ReshapeSimplified_packed. }
  unfold ReshapeTensorData. rewrite HC, HS. eexists. split; [done|].
  destruct (reshaped_valid td L r (take (Z.to_nat r) sh) (packed_strides s (take (Z.to_nat r) sh)))
    as (V' & Ed' & _); [done..| |rewrite length_packed_strides; lia|].
  { eapply Forall_impl; [exact HF|cbn; lia]. }
  unfold reshaped in *. rewrite Ed'. split; [|done].
  apply zip_app_same. by rewrite length_packed_strides.
Qed.

(** ** Concrete tensors *)

Definition pad15 (x : Z) (l : list Z) : list Z := l ++ replicate (15 - length l) x.

(** A strided tensor without labels. *)
Definition strided (sh st : list Z) : NVCVTensorData :=
  mkTensorData 0 NVCV_TENSOR_NONE (Z.of_nat (length sh)) (pad15 0 sh) NVCV_TENSOR_BUFFER_STRIDED_CUDA
    (mkTensorBuffer (pad15 0 st) 4096).

(** Two images of two rows of three bytes, rows padded to four: the rows can be joined. *)
Lemma reshape_preserves_elements_witness :
  exists td', ReshapeTensorData (strided [2; 2; 3] [8; 4; 1]) 2 [4; 3] NVCV_TENSOR_NONE = (td', Ok tt)
  /\ offs (dims td') = [0; 1; 2; 4; 5; 6; 8; 9; 10; 12; 13; 14] /\ dims td' = [(4, 4); (3, 1)].
Proof.
  destruct (ReshapeTensorData (strided [2; 2; 3] [8; 4; 1]) 2 [4; 3] NVCV_TENSOR_NONE) as [td' o] eqn:E.
  assert (o = Ok tt) as -> by (by vm_compute in E; injection E).
  exists td'. split; [done|].
  destruct (reshape_preserves_elements (strided [2; 2; 3] [8; 4; 1]) 2 [4; 3] NVCV_TENSOR_NONE td') as (-> & _).
  - vm_compute. repeat constructor; discriminate.
  - repeat constructor; lia.
  - exact E.
  - split; [vm_compute; reflexivity|]. vm_compute in E. injection E as <-. vm_compute. reflexivity.
Defined.

Lemma packed_reshape_succeeds_witness :
  exists td', ReshapeTensorData (strided [2; 3; 4] [48; 16; 4]) 2 [6; 4] NVCV_TENSOR_NONE = (td', Ok tt)
  /\ dims td' = [(6, 16); (4, 4)].
Proof.
  destruct (packed_reshape_succeeds (strided [2; 3; 4] [48; 16; 4]) 2 [6; 4] NVCV_TENSOR_NONE 4)
    as (td' & H1 & H2 & _);
    [vm_compute; repeat constructor; discriminate|reflexivity|vm_compute; discriminate|reflexivity
    |split; vm_compute; discriminate|vm_compute; discriminate|by left|by repeat constructor|reflexivity
    |by split|].
  exists td'. split; [exact H1|exact H2].
Defined.

(** A tensor whose rows are padded cannot be flattened; its layout is gone all the same. *)
Lemma failed_reshape_drops_layout :
  let td := mkTensorData 0 NVCV_TENSOR_NHWC 4 (pad15 0 [1; 2; 2; 3]) NVCV_TENSOR_BUFFER_STRIDED_CUDA
              (mkTensorBuffer (pad15 0 [16; 8; 3; 1]) 4096) in
  let '(td', o) := ReshapeTensorData td 1 [12] NVCV_TENSOR_NONE in
  o = Throw NVCV_ERROR_INVALID_ARGUMENT /\ layout td' = NVCV_TENSOR_NONE.
Proof. vm_compute. done. Qed.

(** A later group that does not fit is found after strides were overwritten. *)
Lemma failed_reshape_changes_strides :
  let td := strided [4; 2; 3] [16; 6; 1] in
  let '(td', o) := ReshapeTensorData td 4 [2; 2; 3; 2] NVCV_TENSOR_NONE in
  o = Throw NVCV_ERROR_INVALID_ARGUMENT /\ dims td' = [(4, 32); (2, 16); (3, 1)].
Proof. vm_compute. done. Qed.

(** Negative extents whose product is the volume are accepted, and the data left is
    not well-formed. *)
Lemma negative_extents_accepted :
  let '(td', o) := ReshapeTensorData (strided [3; 4] [4; 1]) 2 [-2; -6] NVCV_TENSOR_NONE in
  o = Ok tt /\ dims td' = [(-2, -6); (-6, 1)] /\ ~ valid_td td'.
Proof.
  vm_compute. split; [done|]. split; [done|]. intros (_ & _ & _ & H). apply Forall_cons in H as [H _]. by apply H.
Qed.

(** Dimensions of extent one with an unrelated stride prevent the merge of their neighbours. *)
Lemma unit_dimension_blocks_reshape :
  let td := strided [2; 1; 2] [2; 7; 1] in
  offs (dims td) = offs [(4, 1)]
  /\ (ReshapeTensorData td 1 [4] NVCV_TENSOR_NONE).2 = Throw NVCV_ERROR_INVALID_ARGUMENT.
Proof. vm_compute. done. Qed.
