(* ===== verification/Tensor.v ===== *)
(** * Tensors (priv/Tensor.cpp)

    The memory layout of a tensor the library allocates. The attributes of the device (texture pitch alignment
    and texture alignment) are arguments. *)
From S2P Require Import Prelude Allocators MathUtil Requirements DataLayout FormatCode ImageFormat TensorLayout Strides TensorData.
From stdpp Require Import options.

#[local] Open Scope Z_scope.

(** ** Data *)

Record NVCVTensorRequirements := mkTensorReqs {
  tr_dtype : Z;
  tr_layout : NVCVTensorLayout;
  tr_rank : Z;
  tr_shape : list Z;
  tr_strides : list Z;
  alignBytes : Z;
  mem : NVCVRequirements }.

(** What the driver reports: [cudaDevAttrTexturePitchAlignment] and [cudaDevAttrTextureAlignment]. *)
Record device := mkDevice { texturePitchAlignment : Z; textureAlignment : Z }.

(** ** Alignments *)

(** [int] arithmetic; [std::lcm] of an [int] and an [int64_t] is an [int64_t] cut to an [int]. *)
Definition tensor_rowAlign (dev : device) (dtype userRowAlign : Z) : outcome Z :=
  if userRowAlign =? 0 then
    es ← noexcept (DataType.strideBytes dtype);
    l ← int64 (Z.lcm (texturePitchAlignment dev) (RoundUpNextPowerOfTwo 32 es));
    Ok (i32 l)
  else
    throw_if (negb (IsPowerOfTwo userRowAlign)) NVCV_ERROR_INVALID_ARGUMENT (
    a ← noexcept (DataType.alignment dtype); int32 (Z.lcm userRowAlign a)).

Definition tensor_baseAlign (dev : device) (rowAlign userBaseAlign : Z) : outcome Z :=
  if userBaseAlign =? 0 then
    l ← int32 (Z.lcm (textureAlignment dev) rowAlign);
    let alignBytes := i32 (RoundUpNextPowerOfTwo 32 l) in
    throw_if (NVCV_MAX_MEM_REQUIREMENTS_BLOCK_SIZE <? alignBytes) NVCV_ERROR_INVALID_ARGUMENT (Ok alignBytes)
  else
    throw_if (negb (IsPowerOfTwo userBaseAlign)) NVCV_ERROR_INVALID_ARGUMENT (
    int32 (Z.lcm rowAlign userBaseAlign)).

(** ** Requirements *)

(** [RoundUpPowerOfTwo] on [int64_t], with its assertions. *)
Definition round_up64 (value multiple : Z) : outcome Z :=
  nvcv_assert ((0 <=? value) && (0 <=? multiple) && IsPowerOfTwo multiple)
    (_ ← int64 (value + (multiple - 1)); Ok (RoundUpPowerOfTwo value multiple)).

Definition first_packed (layout : NVCVTensorLayout) (rank : Z) : outcome Z :=
  l ← CreateLast layout 2;
  wc ← layout_eqb l NVCV_TENSOR_WC;
  Ok (if (wc : bool) then Z.max 0 (rank - 2) else rank - 1).

(** The indices of [for (d = n - 1; d >= 0; --d)]. *)
Fixpoint down (n : nat) : list Z := match n with O => [] | S n => Z.of_nat n :: down n end.

Definition stride_step (rowAlign firstPacked : Z) (shape strides : list Z) (d : Z) : outcome (list Z) :=
  n ← rd shape (d + 1);
  s ← rd strides (d + 1);
  p ← int64 (n * s);
  v ← (if d =? firstPacked - 1 then round_up64 p rowAlign else Ok p);
  wr strides d v.

(** [std::copy_n(src, n, dst)]. *)
Definition copy_n (src : list Z) (n : Z) (dst : list Z) : outcome (list Z) :=
  mfold (fun dst i => x ← rd src i; wr dst i x) (zrange 0 n) dst.

(** [undef] stands for the indeterminate contents of [reqs.shape] and [reqs.strides]. *)
Definition CalcRequirements (dev : device) (undef : list Z * list Z) (rank : Z) (shape : list Z) (dtype : Z)
    (layout : NVCVTensorLayout) (userBaseAlign userRowAlign : Z) : outcome NVCVTensorRequirements :=
  throw_if ((0 <? TensorLayout.rank layout) && negb (rank =? TensorLayout.rank layout)) NVCV_ERROR_INVALID_ARGUMENT (
  throw_if (rank <=? 0) NVCV_ERROR_INVALID_ARGUMENT (
  shape ← copy_n shape rank undef.1;
  rowAlign ← tensor_rowAlign dev dtype userRowAlign;
  alignBytes ← tensor_baseAlign dev rowAlign userBaseAlign;
  firstPacked ← first_packed layout rank;
  es ← noexcept (DataType.strideBytes dtype);
  strides ← wr undef.2 (rank - 1) es;
  strides ← mfold (stride_step rowAlign firstPacked shape) (down (Z.to_nat (rank - 1))) strides;
  s0 ← rd strides 0;
  n0 ← rd shape 0;
  size ← int64 (s0 * n0);
  cuda ← AddBuffer (cudaMem Init) size alignBytes;
  Ok (mkTensorReqs dtype layout rank shape strides alignBytes
        (mkRequirements cuda (hostMem Init) (hostPinnedMem Init))))).

(** ** Tensors for images *)

Definition GetTensorLayoutFor (fmt : Z) (nbatches : Z) : outcome NVCVTensorLayout :=
  let nplanes := ImageFormat.numPlanes fmt in
  if nplanes =? 1 then Ok NVCV_TENSOR_NHWC
  else if nplanes =? ImageFormat.numChannels fmt then Ok NVCV_TENSOR_NCHW
  else Throw NVCV_ERROR_INVALID_ARGUMENT.

(** Every plane has the packing of the first. *)
Definition same_plane_packings (fmt : Z) : bool :=
  forallb (fun p => planePacking fmt p =? planePacking fmt 0) (zrange 1 (ImageFormat.numPlanes fmt)).

Definition CalcRequirements_images (dev : device) (undef : list Z * list Z) (numImages : Z) (imgSize : Size2D) (fmt : Z)
    (userBaseAlign userRowAlign : Z) : outcome NVCVTensorRequirements :=
  throw_if (negb (ImageFormat.memLayout fmt =? NVCV_MEM_LAYOUT_PL)) NVCV_ERROR_NOT_IMPLEMENTED (
  throw_if (negb (ImageFormat.css fmt =? ColorSpec.NVCV_CSS_444)) NVCV_ERROR_NOT_IMPLEMENTED (
  throw_if (negb (ImageFormat.numPlanes fmt =? 1)
            && negb (ImageFormat.numPlanes fmt =? ImageFormat.numChannels fmt)) NVCV_ERROR_INVALID_ARGUMENT (
  throw_if (negb (same_plane_packings fmt)) NVCV_ERROR_INVALID_ARGUMENT (
  layout ← GetTensorLayoutFor fmt numImages;
  shape ← PermuteShape NVCV_TENSOR_NCHW (Some [numImages; ImageFormat.numChannels fmt; h imgSize; w imgSize]) layout false;
  params ← GetPackingParams (planePacking fmt 0);
  let params := mkPackingParams (byteOrder params) (DataLayout.alignment params) NVCV_SWIZZLE_X000
                  (take 1 (bits params) ++ replicate (length (bits params) - 1) 0) in
  match MakeNVCVPacking params with
  | None => Throw NVCV_ERROR_INVALID_ARGUMENT
  | Some chPacking =>
      CalcRequirements dev undef (TensorLayout.rank layout) shape (DataType.make (ImageFormat.dataKind fmt) chPacking)
        layout userBaseAlign userRowAlign
  end)))).

(** ** Tensors *)

(** [m_reqs] and [m_memBuffer]. *)
Record Tensor := mkTensor { m_reqs : NVCVTensorRequirements; m_memBuffer : Z }.

(** The size and alignment a tensor asks its allocator for. *)
Definition AllocateBuffer_args (reqs : NVCVTensorRequirements) : outcome (Z * Z) :=
  bufSize ← CalcTotalSizeBytes (cudaMem (mem reqs)); Ok (bufSize, alignBytes reqs).

Definition exportData (t : Tensor) : NVCVTensorData :=
  mkTensorData (tr_dtype (m_reqs t)) (tr_layout (m_reqs t)) (tr_rank (m_reqs t)) (tr_shape (m_reqs t))
    NVCV_TENSOR_BUFFER_STRIDED_CUDA (mkTensorBuffer (tr_strides (m_reqs t)) (m_memBuffer t)).

(** ** Alignments *)

(** Powers of two up to 2^20. *)
Definition is_pow2 (z : Z) : Prop := exists k, 0 <= k <= 20 /\ z = 2 ^ k.

Lemma is_pow2_bounds z : is_pow2 z -> 1 <= z <= 2 ^ 20.
Proof.
  intros (k & Hk & ->). pose proof (Z.pow_pos_nonneg 2 k). pose proof (Z.pow_le_mono_r 2 k 20). lia.
Qed.

Lemma is_pow2_IsPowerOfTwo z : is_pow2 z -> IsPowerOfTwo z = true.
Proof. intros (k & Hk & ->). apply IsPowerOfTwo_pow2; lia. Qed.

Lemma lcm_pow2 a b : 0 <= a <= b -> Z.lcm (2 ^ a) (2 ^ b) = 2 ^ b.
Proof.
  intros H. apply Z.divide_lcm_iff; [apply Z.pow_nonneg; lia|]. exists (2 ^ (b - a)). rewrite <- Z.pow_add_r by lia. f_equal. lia.
Qed.

Lemma is_pow2_lcm x y : is_pow2 x -> is_pow2 y -> is_pow2 (Z.lcm x y) /\ (x | Z.lcm x y) /\ (y | Z.lcm x y).
Proof.
  intros (a & Ha & ->) (b & Hb & ->). split; [|split; [apply Z.divide_lcm_l|apply Z.divide_lcm_r]].
  destruct (Z.le_ge_cases a b); [|rewrite Z.lcm_comm]; rewrite lcm_pow2 by lia; [by exists b|by exists a].
Qed.

Lemma next_pow2_small x : 1 <= x <= 2 ^ 20 -> is_pow2 (RoundUpNextPowerOfTwo 32 x) /\ x <= RoundUpNextPowerOfTwo 32 x.
Proof.
  intros Hx. destruct (decide (x = 1)) as [->|]; [split; [by exists 0|done]|].
  split; [|apply (RoundUpNextPowerOfTwo_spec 32 x); lia].
  rewrite RoundUpNextPowerOfTwo_log2 by lia. exists (Z.log2 (x - 1) + 1). split; [|done].
  pose proof (Z.log2_nonneg (x - 1)). assert (Z.log2 (x - 1) < 20); [|lia]. apply Z.log2_lt_pow2; lia.
Qed.

Lemma next_pow2_fixed x : is_pow2 x -> RoundUpNextPowerOfTwo 32 x = x.
Proof.
  intros H. pose proof (is_pow2_bounds x H). destruct H as (k & Hk & E). destruct (decide (x = 1)) as [->|]; [done|].
  rewrite RoundUpNextPowerOfTwo_log2 by lia. rewrite E, Z.sub_1_r, Z.log2_pred_pow2 by (destruct (decide (k = 0)); subst; lia).
  f_equal. lia.
Qed.

Definition valid_device (dev : device) : Prop :=
  is_pow2 (texturePitchAlignment dev) /\ is_pow2 (textureAlignment dev).

(** A user's alignment: 0 for the default, or a power of two. *)
Definition valid_align (a : Z) : Prop := a = 0 \/ is_pow2 a.

(** An element type whose size and alignment are sensible. *)
Definition valid_element (dtype es : Z) : Prop :=
  DataType.strideBytes dtype = Ok es /\ 1 <= es <= 2 ^ 20
  /\ exists a, DataType.alignment dtype = Ok a /\ is_pow2 a.

Lemma tensor_rowAlign_ok dev dtype es u : valid_device dev -> valid_element dtype es -> valid_align u ->
  exists ra, tensor_rowAlign dev dtype u = Ok ra /\ is_pow2 ra.
Proof.
  intros [Hp _] (He & Hr & a & Ha & Ha') Hu. unfold tensor_rowAlign. destruct Hu as [->|Hu].
  - rewrite He. cbn [Z.eqb noexcept mbind outcome_bind]. destruct (next_pow2_small es Hr) as [Hn _].
    destruct (is_pow2_lcm _ _ Hp Hn) as [Hl _]. pose proof (is_pow2_bounds _ Hl).
    rewrite int64_ok by (unfold in_s; lia). cbn [mbind outcome_bind].
    rewrite wraps_small by (unfold in_s; lia). by eexists.
  - pose proof (is_pow2_bounds _ Hu). rewrite (proj2 (Z.eqb_neq u 0)) by lia.
    rewrite is_pow2_IsPowerOfTwo, Ha by done. cbn [negb throw_if noexcept mbind outcome_bind].
    destruct (is_pow2_lcm _ _ Hu Ha') as [Hl _]. pose proof (is_pow2_bounds _ Hl).
    rewrite int32_ok by (unfold in_s; lia). by eexists.
Qed.

Lemma tensor_baseAlign_ok dev ra u : valid_device dev -> is_pow2 ra -> valid_align u ->
  exists ba, tensor_baseAlign dev ra u = Ok ba /\ is_pow2 ba /\ (ra | ba).
Proof.
  intros [_ Ht] Hr Hu. unfold tensor_baseAlign. destruct Hu as [->|Hu].
  - destruct (is_pow2_lcm _ _ Ht Hr) as (Hl & _ & Hd). pose proof (is_pow2_bounds _ Hl). cbn [Z.eqb].
    rewrite int32_ok by (unfold in_s; lia). cbn [mbind outcome_bind]. rewrite next_pow2_fixed by done.
    rewrite wraps_small by (unfold in_s; lia). rewrite (proj2 (Z.ltb_ge _ _)); [by eexists|].
    assert (NVCV_MAX_MEM_REQUIREMENTS_BLOCK_SIZE = 2 ^ 32) as -> by done. lia.
  - pose proof (is_pow2_bounds _ Hu). rewrite (proj2 (Z.eqb_neq u 0)) by lia.
    rewrite is_pow2_IsPowerOfTwo by done. cbn [negb throw_if].
    destruct (is_pow2_lcm _ _ Hr Hu) as (Hl & Hd & _). pose proof (is_pow2_bounds _ Hl).
    rewrite int32_ok by (unfold in_s; lia). by eexists.
Qed.

(** ** Strides *)

(** The strides of the dimensions [l] from index [d] on: packed, but for the one
    in front of the packed dimensions, which is aligned. *)
Fixpoint row_strides (es al fp d : Z) (l : list Z) : list Z :=
  match l with
  | [] => []
  | _ :: rest =>
      let st := row_strides es al fp (d + 1) rest in
      match rest with
      | [] => [es]
      | m :: _ => let p := m * hd 0 st in (if d =? fp - 1 then round_up p al else p) :: st
      end
  end.

Definition row_dims (es al fp d : Z) (l : list Z) : list (Z * Z) := zip l (row_strides es al fp d l).

Lemma length_row_strides es al fp d l : length (row_strides es al fp d l) = length l.
Proof.
  revert d. induction l as [|n l IH]; intros d; [done|]. cbn [row_strides]. destruct l; [done|].
  cbn [length] in *. by rewrite IH.
Qed.

Lemma row_strides_cons es al fp d n m l :
  row_strides es al fp d (n :: m :: l)
  = let p := span es (row_dims es al fp (d + 1) (m :: l)) in
    (if d =? fp - 1 then round_up p al else p) :: row_strides es al fp (d + 1) (m :: l).
Proof.
  unfold row_dims. pose proof (length_row_strides es al fp (d + 1) (m :: l)) as E.
  change (row_strides es al fp d (n :: m :: l)) with
    (let st := row_strides es al fp (d + 1) (m :: l) in
     let p := m * hd 0 st in (if d =? fp - 1 then round_up p al else p) :: st).
  destruct (row_strides es al fp (d + 1) (m :: l)); [done|]. done.
Qed.

Lemma row_dims_cons es al fp d n m l :
  row_dims es al fp d (n :: m :: l)
  = let p := span es (row_dims es al fp (d + 1) (m :: l)) in
    (n, if d =? fp - 1 then round_up p al else p) :: row_dims es al fp (d + 1) (m :: l).
Proof. unfold row_dims at 1. by rewrite row_strides_cons. Qed.

Lemma row_dims_nested es al fp d l : 0 <= es -> 0 < al -> Forall (fun n => 0 < n) l -> nested es (row_dims es al fp d l).
Proof.
  intros He Ha HF. revert d. induction HF as [|n l Hn HF IH]; intros d; [done|]. destruct l as [|m l].
  - cbn. lia.
  - specialize (IH (d + 1)). rewrite row_dims_cons. cbn zeta. cbn [nested]. split_and!; [done| |done].
    pose proof (span_nonneg es _ He IH). destruct (RoundUp_spec (span es (row_dims es al fp (d + 1) (m :: l))) al) as [? _]; [done..|].
    destruct (d =? fp - 1); lia.
Qed.

(** A bound that does not depend on where the padding is. *)
Lemma row_dims_span es al fp d l : 0 <= es -> 0 < al -> Forall (fun n => 0 < n) l -> l <> [] ->
  span es (row_dims es al fp d l) <= prod l * (es + if d <? fp then al - 1 else 0).
Proof.
  intros He Ha HF _. revert d. induction HF as [|n l Hn HF IH]; intros d.
  { cbn. destruct (d <? fp); lia. }
  destruct l as [|m l].
  - cbn. destruct (d <? fp); nia.
  - specialize (IH (d + 1)). rewrite row_dims_cons. cbn zeta. cbn [span].
    change (prod (n :: m :: l)) with (n * prod (m :: l)). pose proof (prod_pos _ HF) as Hp.
    pose proof (span_nonneg es _ He (row_dims_nested es al fp (d + 1) (m :: l) He Ha HF)) as H0.
    destruct (RoundUp_spec _ al H0 Ha) as [Hr _]. rewrite <- Z.mul_assoc. apply Z.mul_le_mono_nonneg_l; [lia|].
    destruct (Z.eqb_spec d (fp - 1)) as [->|Hne].
    + rewrite (proj2 (Z.ltb_lt _ fp)) by lia. rewrite (proj2 (Z.ltb_ge (fp - 1 + 1) fp)) in IH by lia. nia.
    + destruct (Z.ltb_spec d fp), (Z.ltb_spec (d + 1) fp); try lia; nia.
Qed.

Lemma prod_drop k l : Forall (fun n => 0 < n) l -> 0 < prod (drop k l) <= prod l.
Proof.
  intros HF. assert (prod l = prod (take k l) * prod (drop k l)) as -> by by rewrite <- prod_app, take_drop.
  rewrite <- (take_drop k l) in HF.
  apply Forall_app in HF as [H1 H2]. pose proof (prod_pos _ H1). pose proof (prod_pos _ H2). nia.
Qed.

Definition small (es al : Z) (l : list Z) : Prop := prod l * (es + al) + al < 2 ^ 63.

Lemma suffix_span es al fp d k l : 0 <= es -> 0 < al -> Forall (fun n => 0 < n) l -> drop k l <> [] -> small es al l ->
  let p := span es (row_dims es al fp d (drop k l)) in 0 <= p /\ p + al < 2 ^ 63.
Proof.
  intros He Ha HF Hne Hs p. pose proof (prod_drop k l HF) as Hp. assert (Forall (fun n => 0 < n) (drop k l)) as HF' by by apply Forall_drop.
  pose proof (row_dims_span es al fp d _ He Ha HF' Hne) as Hb. fold p in Hb.
  split; [apply span_nonneg; [done|by apply row_dims_nested]|].
  unfold small in Hs. destruct (d <? fp); nia.
Qed.

Lemma stride_step_ok es al fp l us a x u k :
  0 <= es -> 0 < al -> IsPowerOfTwo al = true -> Forall (fun n => 0 < n) l -> small es al l ->
  length a = k -> (S k < length l)%nat ->
  stride_step al fp (l ++ us) (a ++ x :: row_strides es al fp (Z.of_nat (S k)) (drop (S k) l) ++ u) (Z.of_nat k)
  = Ok (a ++ row_strides es al fp (Z.of_nat k) (drop k l) ++ u).
Proof.
  intros He Ha Hp HF Hs El Hk. destruct (lookup_lt_is_Some_2 l k) as [n Hn]; [lia|].
  destruct (lookup_lt_is_Some_2 l (S k)) as [m Hm]; [lia|].
  assert (drop (S k) l <> []) as Hne by (rewrite (drop_S _ _ _ Hm); done).
  pose proof (suffix_span es al fp (Z.of_nat (S k)) (S k) l He Ha HF Hne Hs) as [H0 Hb].
  rewrite (drop_S _ _ _ Hn), (drop_S _ _ _ Hm) in *. rewrite row_strides_cons. cbn zeta.
  replace (Z.of_nat k + 1) with (Z.of_nat (S k)) by lia.
  set (p := span es _) in *. set (st := row_strides es al fp (Z.of_nat (S k)) (m :: drop (S (S k)) l)) in *.
  assert (exists s st', st = s :: st' /\ m * s = p) as (s & st' & E & Ep).
  { unfold p, row_dims. fold st. pose proof (length_row_strides es al fp (Z.of_nat (S k)) (m :: drop (S (S k)) l)) as L.
    fold st in L. destruct st as [|s st']; [done|]. by exists s, st'. }
  unfold stride_step. rewrite (proj2 (rd_Ok (l ++ us) (Z.of_nat k + 1) m));
    [|split; [lia|]; replace (Z.to_nat (Z.of_nat k + 1)) with (S k) by lia; by apply lookup_app_l_Some].
  rewrite (proj2 (rd_Ok _ (Z.of_nat k + 1) s)); cycle 1.
  { split; [lia|]. replace (Z.to_nat (Z.of_nat k + 1)) with (length a + 1)%nat by lia.
    rewrite lookup_app_r by lia. replace (length a + 1 - length a)%nat with 1%nat by lia. by rewrite E. }
  cbn [mbind outcome_bind]. rewrite Ep, int64_ok by (unfold in_s; lia). cbn [mbind outcome_bind].
  assert ((if Z.of_nat k =? fp - 1 then round_up64 p al else Ok p)
    = Ok (if Z.of_nat k =? fp - 1 then round_up p al else p)) as ->.
  { destruct (_ =? _); [|done]. unfold round_up64. rewrite (proj2 (Z.leb_le 0 p)), (proj2 (Z.leb_le 0 al)), Hp by lia.
    cbn [andb nvcv_assert]. rewrite int64_ok by (unfold in_s; lia). cbn [mbind outcome_bind].
    by rewrite RoundUpPowerOfTwo_RoundUp. }
  cbn [mbind outcome_bind]. apply wr_Ok. rewrite length_app. cbn [length]. split; [lia|].
  rewrite Nat2Z.id, <- El, insert_app_r_alt, Nat.sub_diag by lia. done.
Qed.

Lemma stride_loop es al fp l us a u :
  0 <= es -> 0 < al -> IsPowerOfTwo al = true -> Forall (fun n => 0 < n) l -> small es al l ->
  (length a < length l)%nat ->
  mfold (stride_step al fp (l ++ us)) (down (length a)) (a ++ row_strides es al fp (Z.of_nat (length a)) (drop (length a) l) ++ u)
  = Ok (row_strides es al fp 0 l ++ u).
Proof.
  intros He Ha Hp HF Hs. remember (length a) as k eqn:Ek. revert a Ek. induction k as [|k IH]; intros a Ek Hl.
  - apply symmetry, length_zero_iff_nil in Ek. by subst a.
  - destruct a as [|x a _] using rev_ind; [done|]. rewrite length_app in Ek. cbn [length] in Ek.
    rewrite <- app_assoc. cbn [app down mfold].
    rewrite stride_step_ok by (done || lia). cbn [mbind outcome_bind]. apply IH; lia.
Qed.

Lemma strides_ok es al fp r l us u :
  0 <= es -> 0 < al -> IsPowerOfTwo al = true -> Forall (fun n => 0 < n) l -> small es al l ->
  1 <= r -> length l = Z.to_nat r -> (Z.to_nat r <= length u)%nat ->
  (st ← wr u (r - 1) es; mfold (stride_step al fp (l ++ us)) (down (Z.to_nat (r - 1))) st)
  = Ok (row_strides es al fp 0 l ++ drop (Z.to_nat r) u).
Proof.
  intros He Ha Hp HF Hs Hr El Hu. set (k := Z.to_nat (r - 1)). assert (Z.to_nat r = S k) as E by lia. rewrite E in *.
  destruct (lookup_lt_is_Some_2 l k) as [n Hn]; [lia|]. destruct (lookup_lt_is_Some_2 u k) as [y Hy]; [lia|].
  unfold wr. rewrite (proj2 (Z.leb_le 0 (r - 1))), (proj2 (Z.ltb_lt (r - 1) _)) by lia. cbn [andb mbind outcome_bind].
  fold k. assert (<[k := es]> u = take k u ++ row_strides es al fp (Z.of_nat k) (drop k l) ++ drop (S k) u) as ->.
  { rewrite (drop_S _ _ _ Hn), (drop_ge l (S k)) by lia. cbn [row_strides app].
    rewrite insert_take_drop by lia. done. }
  assert (k = length (take k u)) as Ek by (rewrite length_take; lia).
  pose proof (stride_loop es al fp l us (take k u) (drop (S k) u) He Ha Hp HF Hs) as HL. rewrite <- Ek in HL. apply HL. lia.
Qed.

Lemma copy_n_ok src n dst : 0 <= n -> (Z.to_nat n <= length src)%nat -> (Z.to_nat n <= length dst)%nat ->
  copy_n src n dst = Ok (take (Z.to_nat n) src ++ drop (Z.to_nat n) dst).
Proof.
  intros Hn Hs Hd.
  destruct (mfold_zrange (fun dst i => x ← rd src i; wr dst i x)
    (fun i s => s = take (Z.to_nat i) src ++ drop (Z.to_nat i) dst) 0 n dst) as (s' & E & ->); [done|done| |exact E].
  intros i s Hi ->. destruct (lookup_lt_is_Some_2 src (Z.to_nat i)) as [x Hx]; [lia|].
  destruct (lookup_lt_is_Some_2 dst (Z.to_nat i)) as [y Hy]; [lia|].
  rewrite (proj2 (rd_Ok src i x)) by (split; [lia|done]). cbn [mbind outcome_bind].
  eexists. split; [apply wr_Ok; split; [rewrite length_app, length_take, length_drop; lia|reflexivity]|].
  replace (Z.to_nat (i + 1)) with (S (Z.to_nat i)) by lia.
  rewrite (take_S_r _ _ _ Hx), (drop_S _ _ _ Hy).
  rewrite insert_app_r_alt by (rewrite length_take; lia). rewrite length_take, Nat.min_l, Nat.sub_diag by lia.
  by rewrite <- app_assoc.
Qed.

Lemma same_bytes_ok a b n : 0 <= n -> n <= Z.of_nat (length a) -> n <= Z.of_nat (length b) ->
  same_bytes a 0 b 0 n = Ok (bool_decide (take (Z.to_nat n) a = take (Z.to_nat n) b)).
Proof.
  intros Hn Ha Hb. unfold same_bytes. rewrite !copy_range_ok by lia. cbn [mbind outcome_bind].
  by rewrite Z.add_0_l, Z.sub_0_r, !drop_0.
Qed.

(** Equal layouts are layouts with the same labels. *)
Lemma layout_eqb_labels A B : valid_layout A -> valid_layout B -> layout_eqb A B = Ok (bool_decide (labels A = labels B)).
Proof.
  intros VA VB. pose proof (length_labels A VA). pose proof (length_labels B VB). destruct VA, VB. unfold layout_eqb.
  destruct (Z.eqb_spec (rank A) (rank B)) as [E|Hne].
  - rewrite same_bytes_ok by lia. unfold labels. by rewrite E.
  - f_equal. symmetry. apply bool_decide_eq_false_2. intros E. rewrite E in *. lia.
Qed.

(** Whether the last two labels are W and C. *)
Definition ends_in_WC (L : NVCVTensorLayout) : bool :=
  bool_decide (drop (Z.to_nat (rank L - 2)) (labels L) = labels NVCV_TENSOR_WC).

Lemma first_packed_ok L r : valid_layout L ->
  first_packed L r = Ok (if ends_in_WC L then Z.max 0 (r - 2) else r - 1).
Proof.
  intros V. unfold first_packed, CreateLast. cbn [Z.leb Z.compare].
  destruct (last_labels_spec L 2 V) as (T & -> & VT & LT); [lia|]. cbn [mbind outcome_bind].
  rewrite layout_eqb_labels by (done || (vm_compute; repeat split; discriminate)).
  cbn [mbind outcome_bind]. by rewrite LT.
Qed.

Lemma layout_rank_checks {A} L r (k : outcome A) : 1 <= r -> rank L = 0 \/ rank L = r ->
  throw_if ((0 <? rank L) && negb (r =? rank L)) NVCV_ERROR_INVALID_ARGUMENT (throw_if (r <=? 0) NVCV_ERROR_INVALID_ARGUMENT k) = k.
Proof.
  intros Hr HL. rewrite (proj2 (Z.leb_gt r 0)) by lia. cbn [throw_if].
  destruct HL as [-> | ->]; [done|]. by rewrite Z.eqb_refl, andb_false_r.
Qed.

(** The arguments with which a tensor can be created. *)
Record valid_request (dev : device) (undef : list Z * list Z) (r : Z) (sh : list Z) (dt : Z) (L : NVCVTensorLayout)
    (uba ura es : Z) : Prop := {
  vr_dev : valid_device dev;
  vr_undef : length undef.1 = 15%nat /\ length undef.2 = 15%nat;
  vr_rank : 1 <= r <= NVCV_TENSOR_MAX_RANK /\ r <= Z.of_nat (length sh);
  vr_layout : valid_layout L /\ (rank L = 0 \/ rank L = r);
  vr_shape : Forall (fun n => 0 < n) (take (Z.to_nat r) sh);
  vr_elem : valid_element dt es;
  vr_aligns : valid_align uba /\ valid_align ura;
  vr_size : prod (take (Z.to_nat r) sh) * (es + 2 ^ 20) + 2 ^ 20 < 2 ^ 63 }.

Lemma CalcRequirements_ok dev undef r sh dt L uba ura es : valid_request dev undef r sh dt L uba ura es ->
  let l := take (Z.to_nat r) sh in exists ra ba fp cuda,
  is_pow2 ra /\ is_pow2 ba /\ (ra | ba) /\ tensor_rowAlign dev dt ura = Ok ra
  /\ fp = (if ends_in_WC L then Z.max 0 (r - 2) else r - 1)
  /\ let size := span es (row_dims es ra fp 0 l) in
  AddBuffer mem_zero size ba = Ok cuda /\ 0 <= size /\ size + 2 ^ 21 < 2 ^ 63
  /\ CalcRequirements dev undef r sh dt L uba ura
     = Ok (mkTensorReqs dt L r (l ++ drop (Z.to_nat r) undef.1) (row_strides es ra fp 0 l ++ drop (Z.to_nat r) undef.2) ba
             (mkRequirements cuda mem_zero mem_zero)).
Proof.
  intros [Hd [U1 U2] [Hr Hl] [VL HL] HF He [Hb Ha] Hs] l. fold l in HF, Hs. unfold NVCV_TENSOR_MAX_RANK in Hr.
  pose proof He as (Ees & Hes & _).
  destruct (tensor_rowAlign_ok dev dt es ura Hd He Ha) as (ra & Era & Pra).
  destruct (tensor_baseAlign_ok dev ra uba Hd Pra Hb) as (ba & Eba & Pba & Hdv).
  pose proof (is_pow2_bounds _ Pra) as Bra. pose proof (is_pow2_bounds _ Pba) as Bba.
  set (fp := if ends_in_WC L then Z.max 0 (r - 2) else r - 1).
  assert (length l = Z.to_nat r) as El by (unfold l; rewrite length_take; lia).
  assert (l <> []) as Hne by (intros E; rewrite E in El; cbn in El; lia).
  pose proof (prod_pos l HF) as Hp.
  assert (small es ra l) as Hsm by (unfold small; nia).
  destruct (suffix_span es ra fp 0 0 l) as [Hs0 Hsb]; [lia|lia|done|done|done|]. rewrite drop_0 in Hs0, Hsb.
  pose proof (row_dims_span es ra fp 0 l ltac:(lia) ltac:(lia) HF Hne) as Hsp.
  assert (span es (row_dims es ra fp 0 l) + 2 ^ 21 < 2 ^ 63) as Hs2.
  { assert (prod l * (ra - 1) <= prod l * 2 ^ 20 - prod l) by nia. destruct (0 <? fp); [|nia].
    destruct (Z.le_gt_cases (2 ^ 20) (prod l)); nia. }
  set (size := span es (row_dims es ra fp 0 l)) in *.
  pose proof Pba as (kb & Hkb & Ebp).
  destruct (AddBuffer_size mem_zero size kb mem_zero_valid) as (cuda & Ec & _ & _); [lia|done| |].
  { rewrite mem_zero_size, <- Ebp. destruct (RoundUp_spec size ba Hs0) as [? _]; lia. }
  rewrite <- Ebp in Ec. exists ra, ba, fp, cuda. split_and!; [done..|]. cbn zeta. split_and!; [done..|].
  unfold CalcRequirements. rewrite layout_rank_checks by (done || lia).
  rewrite copy_n_ok by lia. cbn [mbind outcome_bind]. fold l. rewrite Era. cbn [mbind outcome_bind]. rewrite Eba.
  cbn [mbind outcome_bind]. rewrite first_packed_ok by done. fold fp. cbn [mbind outcome_bind]. rewrite Ees. cbn [noexcept].
  pose proof (strides_ok es ra fp r l (drop (Z.to_nat r) undef.1) undef.2 ltac:(lia) ltac:(lia)
    (is_pow2_IsPowerOfTwo _ Pra) HF Hsm ltac:(lia) El ltac:(lia)) as EL.
  cbn [mbind outcome_bind]. destruct (wr undef.2 (r - 1) es) as [st| |]; cbn [mbind outcome_bind] in *; [|done..].
  rewrite EL. cbn [mbind outcome_bind].
  destruct l as [|n l0] eqn:El0; [done|]. pose proof (length_row_strides es ra fp 0 (n :: l0)) as Els.
  assert (exists s st', row_strides es ra fp 0 (n :: l0) = s :: st' /\ n * s = size) as (s & st' & Est & Esz).
  { unfold size, row_dims. destruct (row_strides es ra fp 0 (n :: l0)) as [|s st']; [done|]. by exists s, st'. }
  assert (forall (x : Z) y, rd (x :: y) 0 = Ok x) as Hrd by done.
  rewrite Est. cbn [app]. rewrite !Hrd. cbn [mbind outcome_bind].
  rewrite (Z.mul_comm s n), Esz, int64_ok by (unfold in_s; lia). cbn [mbind outcome_bind cudaMem Init]. by rewrite Ec.
Qed.

(** What [allocCudaMem] checks of the sizes of requirements: the sum that rounds
    overflows for the largest multiple of the alignment only. *)
Lemma alloc_checks_multiple size ba : 0 <= size < 2 ^ 63 -> is_pow2 ba -> (ba | size) ->
  alloc_checks size ba = if size + ba <? 2 ^ 63 then Ok tt else Stuck.
Proof.
  intros Hs Hb Hd. pose proof (is_pow2_bounds _ Hb).
  unfold alloc_checks. rewrite (proj2 (Z.ltb_ge _ 0)), is_pow2_IsPowerOfTwo by (done || lia). cbn [negb throw_if].
  rewrite int32_ok by (unfold in_s; lia). cbn [mbind outcome_bind]. rewrite RoundUp_round_up by lia.
  destruct (size + ba <? 2 ^ 63); [|done]. cbn [mbind outcome_bind]. by rewrite RoundUp_multiple, Z.eqb_refl by (done || lia).
Qed.

Lemma alloc_checks_ok size ba : 0 <= size -> size + 2 ^ 21 < 2 ^ 63 -> is_pow2 ba -> alloc_checks (round_up size ba) ba = Ok tt.
Proof.
  intros Hs Hsm Hb. pose proof (is_pow2_bounds _ Hb). destruct (RoundUp_spec size ba Hs) as [? Hd]; [lia|].
  rewrite alloc_checks_multiple by (done || lia). by rewrite (proj2 (Z.ltb_lt _ _)) by lia.
Qed.

Lemma AddBuffer_zero_total size ba cuda : 0 <= size -> size + 2 ^ 21 < 2 ^ 63 -> is_pow2 ba ->
  AddBuffer mem_zero size ba = Ok cuda -> CalcTotalSizeBytes cuda = Ok (round_up size ba).
Proof.
  intros Hs Hb Hba HA. pose proof (is_pow2_bounds _ Hba). destruct Hba as (k & Hk & ->).
  destruct (RoundUp_spec size (2 ^ k) Hs) as [? _]; [lia|].
  destruct (AddBuffer_size mem_zero size k mem_zero_valid) as (l' & E & V & Es);
    [lia|done|rewrite mem_zero_size; lia|]. rewrite HA in E. injection E as ->.
  rewrite mem_zero_size, Z.add_0_l in Es. rewrite CalcTotalSizeBytes_size by (done || lia). by rewrite Es.
Qed.

Lemma dims_written l rs us u r dt L ba m buf : length l = Z.to_nat r -> length rs = length l ->
  dims (exportData (mkTensor (mkTensorReqs dt L r (l ++ us) (rs ++ u) ba m) buf)) = zip l rs.
Proof.
  intros El Er. unfold dims, exportData. cbn [m_reqs tr_rank tr_shape tr_strides td_rank shape buffer strides].
  rewrite <- El, take_zip_app. by apply zip_app_same.
Qed.

(** The memory of a created tensor: its strides, its size and where its elements are. *)
Lemma created_memory dev undef r sh dt L uba ura es buf :
  valid_request dev undef r sh dt L uba ura es ->
  let l := take (Z.to_nat r) sh in
  exists reqs ra total, CalcRequirements dev undef r sh dt L uba ura = Ok reqs
  /\ tensor_rowAlign dev dt ura = Ok ra /\ (ra | alignBytes reqs)
  /\ dims (exportData (mkTensor reqs buf))
     = row_dims es ra (if ends_in_WC L then Z.max 0 (r - 2) else r - 1) 0 l
  /\ AllocateBuffer_args reqs = Ok (total, alignBytes reqs)
  /\ alloc_checks total (alignBytes reqs) = Ok tt
  /\ spaced es (offs (dims (exportData (mkTensor reqs buf))))
  /\ inside es total (offs (dims (exportData (mkTensor reqs buf)))).
Proof.
  intros V l. pose proof (CalcRequirements_ok _ _ _ _ _ _ _ _ _ V) as HC. cbn zeta in HC. fold l in HC.
  destruct HC as (ra & ba & fp & cuda & Pra & Pba & Hdv & Era & Efp & HA & Hs0 & Hs & HC).
  destruct V as [_ _ [Hr Hl] _ HF (_ & He & _) _ _]. fold l in HF.
  pose proof (is_pow2_bounds _ Pra). pose proof (is_pow2_bounds _ Pba).
  eexists _, ra, (round_up _ ba). split; [exact HC|]. cbn [alignBytes].
  rewrite dims_written; [|unfold l; rewrite length_take; lia|by rewrite length_row_strides].
  fold (row_dims es ra fp 0 l). rewrite Efp in *.
  unfold AllocateBuffer_args. cbn [mem cudaMem alignBytes]. erewrite AddBuffer_zero_total by done.
  destruct (nested_offs es _ ltac:(lia) (row_dims_nested es ra (if ends_in_WC L then Z.max 0 (r - 2) else r - 1) 0 l
    ltac:(lia) ltac:(lia) HF)) as [S1 S2].
  split_and!; [done..|by apply alloc_checks_ok|done|].
  eapply Forall_impl; [exact S2|]. cbn. intros o [? ?]. split; [done|].
  pose proof (RoundUp_spec _ ba Hs0) as [? _]; lia.
Qed.

(** C27: the memory of a tensor. For every well-formed request whose size fits 64
    bits the requirements are computed, without overflow or failed assertion;
    the allocator accepts the size and the alignment asked for; the strides are
    packed but for the aligned rows; and in row-major order the elements follow
    each other without overlap, all inside the buffer. *)
Theorem tensor_memory dev undef r sh dt L uba ura es buf :
  valid_request dev undef r sh dt L uba ura es ->
  let l := take (Z.to_nat r) sh in
  exists reqs ra total, CalcRequirements dev undef r sh dt L uba ura = Ok reqs
  /\ tensor_rowAlign dev dt ura = Ok ra /\ (ra | alignBytes reqs)
  /\ dims (exportData (mkTensor reqs buf))
     = row_dims es ra (if ends_in_WC L then Z.max 0 (r - 2) else r - 1) 0 l
  /\ AllocateBuffer_args reqs = Ok (total, alignBytes reqs)
  /\ alloc_checks total (alignBytes reqs) = Ok tt
  /\ spaced es (offs (dims (exportData (mkTensor reqs buf))))
  /\ inside es total (offs (dims (exportData (mkTensor reqs buf)))).
Proof. exact (created_memory dev undef r sh dt L uba ura es buf). Qed.

(** ** Concrete tensors *)

Definition device0 : device := mkDevice 32 512.
Definition undef0 : list Z * list Z := (replicate 15 7, replicate 15 9).
Definition U8 : Z := DataType.make NVCV_DATA_KIND_UNSIGNED NVCV_PACKING_X8.

Lemma small_request_valid :
  valid_request device0 undef0 4 [2; 3; 5; 3] U8 NVCV_TENSOR_NHWC 0 0 1.
Proof.
  split.
  - split; [by exists 5|by exists 9].
  - done.
  - by vm_compute.
  - split; [vm_compute; repeat split; discriminate|right; reflexivity].
  - by repeat constructor.
  - split; [vm_compute; reflexivity|]. split; [lia|]. exists 1. split; [vm_compute; reflexivity|by exists 0].
  - split; by left.
  - vm_compute. reflexivity.
Qed.

(** Rows of 15 bytes are 32 bytes apart, and the buffer is aligned to 512. *)
Lemma tensor_memory_witness :
  exists reqs total, CalcRequirements device0 undef0 4 [2; 3; 5; 3] U8 NVCV_TENSOR_NHWC 0 0 = Ok reqs
  /\ dims (exportData (mkTensor reqs 4096)) = [(2, 96); (3, 32); (5, 3); (3, 1)]
  /\ AllocateBuffer_args reqs = Ok (total, alignBytes reqs)
  /\ inside 1 total (offs (dims (exportData (mkTensor reqs 4096)))).
Proof.
  destruct (tensor_memory device0 undef0 4 [2; 3; 5; 3] U8 NVCV_TENSOR_NHWC 0 0 1 4096 small_request_valid)
    as (reqs & ra & total & HC & Hra & _ & Hd & Ht & _ & _ & Hi).
  exists reqs, total. split; [exact HC|]. split; [|split; [exact Ht|exact Hi]].
  rewrite Hd. vm_compute in Hra. injection Hra as <-. vm_compute. reflexivity.
Defined.

(** A request of more than 15 dimensions without a layout writes outside [reqs.shape]. *)
Lemma rank_16_overflows :
  CalcRequirements device0 undef0 16 (replicate 16 1) U8 NVCV_TENSOR_NONE 0 0 = Stuck.
Proof. vm_compute. done. Qed.

(** Negative extents are accepted: the tensor asks for an empty buffer. *)
Lemma negative_extent_accepted :
  (reqs ← CalcRequirements device0 undef0 1 [-4] U8 NVCV_TENSOR_NONE 0 0; AllocateBuffer_args reqs) = Ok (0, 512).
Proof. vm_compute. done. Qed.
