(* ===== verification/TensorView.v ===== *)
(** * Views of tensors in kernels
    ([cvcuda/cuda_tools/TensorWrap.hpp], [FullTensorWrap.hpp], [BorderWrap.hpp],
    [nvcv/detail/TensorDataImpl.hpp])

    The wrappers kernels address tensors with: a base pointer with strides of [w]
    bits, some of them fixed at compile time, and the same behind a border. Offsets
    are computed in [w] bits as in the code. *)
From S2P Require Import Prelude Effects Allocators ImageFormat TensorLayout Tensor Strides TensorData Border.
From stdpp Require Import options.

#[local] Open Scope Z_scope.

(** ** Definitions *)

(** [TensorDataStrided::stride(d)] and [TensorData::shape(d)]. *)
Definition td_stride (td : NVCVTensorData) (d : Z) : outcome Z :=
  throw_if ((d <? 0) || (td_rank td <=? d)) NVCV_ERROR_INVALID_ARGUMENT (rd (strides (buffer td)) d).

Definition td_shape (td : NVCVTensorData) (d : Z) : outcome Z :=
  throw_if ((d <? 0) || (td_rank td <=? d)) NVCV_ERROR_INVALID_ARGUMENT (rd (shape td) d).

(** [TypeTraits<StrideType>::max]. *)
Definition stride_max (w : Z) : Z := 2 ^ (w - 1) - 1.

Record TensorWrap := MkWrap { m_data : Z; m_strides : list Z }.

(** [kVariableStrides]: the strides given as -1. *)
Definition kVariableStrides (Strides : list Z) : Z := Z.of_nat (length (filter (fun k => k = -1) Strides)).

Definition wrap_step (w : Z) (Strides : list Z) (td : NVCVTensorData) (m_strides : list Z) (i : Z) : outcome (list Z) :=
  kStride ← rd Strides i;
  if negb (kStride =? -1) then
    s ← td_stride td i;
    nvcv_assert (s =? kStride) (Ok m_strides)
  else if i <? kVariableStrides Strides then
    s ← td_stride td i;
    nvcv_assert (s <=? stride_max w) (wr m_strides i (wraps w s))
  else Ok m_strides.

(** The constructor from [TensorDataStridedCuda]; the stride array starts zeroed. *)
Definition TensorWrap_of_tensor (w : Z) (Strides : list Z) (td : NVCVTensorData) : outcome TensorWrap :=
  nvcv_assert (Z.of_nat (length Strides) <=? td_rank td) (
  m_strides ← mfold (wrap_step w Strides td) (zrange 0 (Z.of_nat (length Strides)))
                (replicate (Z.to_nat (kVariableStrides Strides)) 0);
  Ok (MkWrap (basePtr (buffer td)) m_strides)).

(** [offset += coords[i] * stride]. *)
Definition add_step (w offset c s : Z) : outcome Z :=
  p ← sint w (c * s);
  sint w (offset + p).

Definition doGetPtr (w : Z) (Strides : list Z) (t : TensorWrap) (coords : list Z) : outcome Z :=
  let kArgSize := Z.of_nat (length coords) in
  let kVar := kVariableStrides Strides in
  let kVarSize := if kArgSize <? kVar then kArgSize else kVar in
  let kDimSize := if kArgSize <? Z.of_nat (length Strides) then kArgSize else Z.of_nat (length Strides) in
  offset ← mfold (fun offset i => c ← rd coords i; s ← rd (m_strides t) i; add_step w offset c s) (zrange 0 kVarSize) 0;
  offset ← mfold (fun offset i => c ← rd coords i; s ← rd Strides i; add_step w offset c s) (zrange kVar kDimSize) offset;
  Ok (m_data t + offset).

(** [FullTensorWrap]: every stride at run time, 32 bits, with the shape. *)
Record FullTensorWrap := MkFull { f_data : Z; f_strides : list Z; f_shapes : list Z }.

Definition full_step (td : NVCVTensorData) (st : list Z * list Z) (i : Z) : outcome (list Z * list Z) :=
  s ← td_stride td i;
  nvcv_assert (s <=? stride_max 32) (
  n ← td_shape td i;
  nvcv_assert (n <=? stride_max 32) (
  ss ← wr st.1 i (i32 s);
  ns ← wr st.2 i (i32 n);
  Ok (ss, ns))).

Definition FullTensorWrap_of_tensor (N : nat) (td : NVCVTensorData) : outcome FullTensorWrap :=
  st ← mfold (full_step td) (zrange 0 (Z.of_nat N)) (replicate N 0, replicate N 0);
  Ok (MkFull (basePtr (buffer td)) st.1 st.2).

Definition full_doGetPtr (t : FullTensorWrap) (coords : list Z) : outcome Z :=
  offset ← mfold (fun offset i => c ← rd coords i; s ← rd (f_strides t) i; add_step 32 offset c s)
             (zrange 0 (Z.of_nat (length coords))) 0;
  Ok (f_data t + offset).

(** [BorderWrap]: the shape of the active dimensions beside a wrapper. *)
Record BorderWrap := MkBorder { m_tensorWrap : TensorWrap; m_tensorShape : list Z }.

(** [kMap.from]: where the shape of a dimension is, 0 for inactive ones. *)
Fixpoint active_map (j : Z) (Active : list bool) : list Z :=
  match Active with
  | [] => []
  | true :: Active => j :: active_map (j + 1) Active
  | false :: Active => 0 :: active_map j Active
  end.

(** The shapes of the active dimensions, [i] being the first index. *)
Fixpoint active_shapes (w : Z) (td : NVCVTensorData) (i : Z) (Active : list bool) : outcome (list Z) :=
  match Active with
  | [] => Ok []
  | false :: Active => active_shapes w td (i + 1) Active
  | true :: Active =>
      n ← td_shape td i;
      nvcv_assert (n <=? stride_max 32) (
      ns ← active_shapes w td (i + 1) Active;
      Ok (wraps w n :: ns))
  end.

Definition BorderWrap_of_tensor (w : Z) (Strides : list Z) (Active : list bool) (td : NVCVTensorData) : outcome BorderWrap :=
  tw ← TensorWrap_of_tensor w Strides td;
  nvcv_assert (Z.of_nat (length Strides) <=? td_rank td) (
  ns ← active_shapes w td 0 Active;
  Ok (MkBorder tw ns)).

(** The coordinates with the border applied, [coords] being in front. *)
Fixpoint border_coords (w : Z) (B : NVCVBorderType) (shapes : list Z) (Active : list bool) (from coords : list Z) : outcome (list Z) :=
  match coords, Active, from with
  | [], _, _ => Ok []
  | c :: coords, a :: Active, f :: from =>
      s ← (if a then rd shapes f else Ok 0);
      r ← GetIndexWithBorder w B a c s;
      rs ← border_coords w B shapes Active from coords;
      Ok (r :: rs)
  | _, _, _ => Stuck
  end.

Definition border_doGetPtr (w : Z) (Strides : list Z) (B : NVCVBorderType) (Active : list bool) (t : BorderWrap) (coords : list Z) : outcome Z :=
  rs ← border_coords w B (m_tensorShape t) Active (active_map 0 Active) coords;
  doGetPtr w Strides (m_tensorWrap t) rs.

(** Whether some active coordinate is outside. *)
Fixpoint any_outside (shapes : list Z) (Active : list bool) (from coords : list Z) : outcome bool :=
  match coords, Active, from with
  | [], _, _ => Ok false
  | c :: coords, a :: Active, f :: from =>
      s ← (if a then rd shapes f else Ok 0);
      if IsOutside a c s then Ok true else any_outside shapes Active from coords
  | _, _, _ => Stuck
  end.

(** The constant border has no address: [None] is the null pointer. *)
Definition constant_doGetPtr (w : Z) (Strides : list Z) (Active : list bool) (t : BorderWrap) (coords : list Z) : outcome (option Z) :=
  out ← any_outside (m_tensorShape t) Active (active_map 0 Active) coords;
  if (out : bool) then Ok None else
  p ← doGetPtr w Strides (m_tensorWrap t) coords;
  Ok (Some p).

(** [operator[]] behind a constant border, memory being a function of the address. *)
Definition constant_read {V} (w : Z) (Strides : list Z) (Active : list bool) (t : BorderWrap) (m_borderValue : V)
  (memory : Z -> V) (coords : list Z) : outcome V :=
  p ← constant_doGetPtr w Strides Active t coords;
  Ok (match p with None => m_borderValue | Some p => memory p end).

(** ** Elements of strided dimensions *)

(** The offset of an element; coordinates left out are 0. *)
Fixpoint elem_offset (ds : list (Z * Z)) (cs : list Z) : Z :=
  match ds, cs with
  | (_, s) :: ds, c :: cs => c * s + elem_offset ds cs
  | _, _ => 0
  end.

(** Coordinates within the extents, of as many dimensions as there are coordinates. *)
Fixpoint in_dims (ds : list (Z * Z)) (cs : list Z) : Prop :=
  match ds, cs with
  | _, [] => True
  | (n, _) :: ds, c :: cs => 0 <= c < n /\ in_dims ds cs
  | [], _ => False
  end.

Definition nonempty (ds : list (Z * Z)) : Prop := Forall (fun d => 0 < d.1) ds.

Lemma in_prog n s c : 0 <= c < n -> c * s ∈ prog n s.
Proof. intros Hc. apply list_elem_of_fmap. exists c. split; [done|]. apply elem_of_zseq. lia. Qed.

Lemma in_sums a b x y : x ∈ a -> y ∈ b -> x + y ∈ sums a b.
Proof.
  intros Hx Hy. unfold sums. apply list_elem_of_bind. exists x. split; [|done]. apply list_elem_of_fmap. by exists y.
Qed.

Lemma elem_offset_in ds cs : nonempty ds -> in_dims ds cs -> elem_offset ds cs ∈ offs ds.
Proof.
  intros Hn. revert cs. induction Hn as [|[n s] ds Hn _ IH]; intros [|c cs]; cbn; intros Hc; try done; try by left.
  - replace 0 with (0 * s + elem_offset ds []) by (by destruct ds as [|[]]; cbn; lia). apply in_sums; [by apply in_prog|]. by apply IH; destruct ds as [|[]].
  - destruct Hc as [Hc Hcs]. apply in_sums; [by apply in_prog|by apply IH].
Qed.

(** ** Offsets in [w] bits *)

(** Every element of the dimensions has an offset of [w] bits. *)
Definition offsets_fit (w : Z) (ds : list (Z * Z)) : Prop := forall cs, in_dims ds cs -> in_s w (elem_offset ds cs).

Lemma in_dims_length ds cs : in_dims ds cs -> (length cs <= length ds)%nat.
Proof. revert cs. induction ds as [|[] ds IH]; intros [|c cs]; cbn; try done; try lia. intros [_ H]. apply IH in H. lia. Qed.

Lemma in_dims_snoc ds cs c : in_dims ds (cs ++ [c]) <-> in_dims ds cs /\ exists n s, ds !! length cs = Some (n, s) /\ 0 <= c < n.
Proof.
  revert cs. induction ds as [|[n s] ds IH]; intros [|d cs]; cbn; try naive_solver.
  split; [intros [? _]; split; [done|by exists n, s]|]. intros [_ (n' & s' & [= <- <-] & ?)]. by destruct ds as [|[]].
Qed.

Lemma elem_offset_snoc ds cs c n s : ds !! length cs = Some (n, s) -> elem_offset ds (cs ++ [c]) = elem_offset ds cs + c * s.
Proof.
  revert cs. induction ds as [|[n' s'] ds IH]; intros [|d cs]; cbn; try done.
  - intros [= -> ->]. by destruct ds as [|[]]; cbn; lia.
  - intros H. rewrite (IH cs H). lia.
Qed.

Lemma in_dims_zeros ds k : nonempty ds -> (k <= length ds)%nat -> in_dims ds (replicate k 0) /\ elem_offset ds (replicate k 0) = 0.
Proof.
  intros Hn. revert k. induction Hn as [|[n s] ds Hn _ IH]; intros [|k]; cbn; intros Hk; try done; try lia.
  destruct (IH k) as [H1 H2]; [lia|]. rewrite H2. split; [split; [cbn in Hn; lia|done]|lia].
Qed.

Lemma zip_snoc {A B} (l : list A) (k : list B) x y : k !! length l = Some y -> zip (l ++ [x]) k = zip l k ++ [(x, y)].
Proof.
  revert k. induction l as [|z l IH]; intros [|b k]; cbn; try done.
  - intros [= ->]. by destruct k.
  - intros H. f_equal. by apply IH.
Qed.

(** The loop over coordinates and strides computes the offset. *)
Lemma offset_fold w ds cs : nonempty ds -> offsets_fit w ds -> in_dims ds cs ->
  mfold (fun off p => add_step w off p.1 p.2) (zip cs ds.*2) 0 = Ok (elem_offset ds cs).
Proof.
  intros Hn Hfit. induction cs as [|c cs IH] using rev_ind; [by destruct ds as [|[]]|].
  intros Hin. apply in_dims_snoc in Hin as HI. destruct HI as (Hcs & n & s & Hl & Hc).
  rewrite (zip_snoc cs ds.*2 c s) by (by rewrite list_lookup_fmap, Hl). rewrite mfold_app, IH by done.
  cbn [mbind outcome_bind mfold fst snd]. unfold add_step. rewrite (elem_offset_snoc _ _ _ _ _ Hl).
  destruct (in_dims_zeros ds (length cs) Hn (in_dims_length _ _ Hcs)) as [Z1 Z2].
  rewrite sint_ok.
  - cbn [mbind outcome_bind]. rewrite sint_ok; [done|]. rewrite <- (elem_offset_snoc _ _ _ _ _ Hl). by apply Hfit.
  - assert (elem_offset ds (replicate (length cs) 0 ++ [c]) = c * s) as <-.
    { erewrite elem_offset_snoc by (by rewrite length_replicate). by rewrite Z2. }
    apply Hfit, in_dims_snoc. split; [done|]. rewrite length_replicate. by exists n, s.
Qed.

(** ** Wrapped tensors *)

Lemma kVariableStrides_first kv consts : Forall (fun k => k <> -1) consts ->
  kVariableStrides (replicate kv (-1) ++ consts) = Z.of_nat kv.
Proof.
  intros HF. unfold kVariableStrides. f_equal. rewrite filter_app, length_app.
  replace (filter _ consts) with (@nil Z).
  - rewrite Nat.add_0_r. induction kv as [|kv IH]; [done|]. cbn [replicate]. rewrite filter_cons_True by done. cbn. by rewrite IH.
  - symmetry. induction HF as [|k l Hk _ IH]; [done|]. by rewrite filter_cons_False.
Qed.

(** A loop that reads coordinates and strides from [lo] on. *)
Lemma mfold_strided w lo coords strides cs ss hi off :
  (forall k c s, cs !! k = Some c -> ss !! k = Some s ->
    rd coords (lo + Z.of_nat k) = Ok c /\ rd strides (lo + Z.of_nat k) = Ok s) ->
  hi = lo + Z.of_nat (length (zip cs ss)) ->
  mfold (fun offset i => c ← rd coords i; s ← rd strides i; add_step w offset c s) (zrange lo hi) off =
  mfold (fun off p => add_step w off p.1 p.2) (zip cs ss) off.
Proof.
  intros H ->. apply mfold_Forall2, Forall2_zrange. intros k [c s] Hk t. apply lookup_zip_with_Some in Hk as (? & ? & [= -> ->] & Hc & Hs).
  destruct (H k _ _ Hc Hs) as [-> ->]. done.
Qed.

Lemma zrange_empty lo hi : hi <= lo -> zrange lo hi = [].
Proof. intros H. unfold zrange. by replace (Z.to_nat (hi - lo)) with 0%nat by lia. Qed.

Lemma rd_at {A} (l : list A) (k : nat) x : l !! k = Some x -> rd l (Z.of_nat k) = Ok x.
Proof. intros H. apply rd_Ok. rewrite Nat2Z.id. split; [lia|done]. Qed.

Lemma zip_split {A B} n (l : list A) (k1 k2 : list B) : length k1 = n ->
  zip l (k1 ++ k2) = zip (take n l) k1 ++ zip (drop n l) k2.
Proof.
  intros <-. revert l. induction k1 as [|y k1 IH]; intros l; [by destruct l|]. destruct l as [|x l]; [done|]. cbn. f_equal. apply IH.
Qed.

(** With the variable strides in front the two loops are one. *)
Lemma doGetPtr_fold w kv consts d ms coords : Forall (fun k => k <> -1) consts -> length ms = kv ->
  (length coords <= kv + length consts)%nat ->
  doGetPtr w (replicate kv (-1) ++ consts) (MkWrap d ms) coords =
  (off ← mfold (fun off p => add_step w off p.1 p.2) (zip coords (ms ++ consts)) 0; Ok (d + off)).
Proof.
  intros HF Hms Hlen. unfold doGetPtr. rewrite kVariableStrides_first by done. cbn [m_strides m_data].
  rewrite length_app, length_replicate. rewrite (zip_split kv), mfold_app by done.
  destruct (decide (length coords <= kv)%nat) as [Hle|Hgt].
  - rewrite (take_ge coords), (drop_ge coords) by lia. cbn [zip zip_with mfold].
    rewrite (mfold_strided w 0 coords ms coords ms).
    + destruct (mfold _ _ 0) as [off| |]; [|done..]. cbn [mbind outcome_bind]. rewrite zrange_empty; [done|].
      destruct (Z.ltb_spec (Z.of_nat (length coords)) (Z.of_nat (kv + length consts))); lia.
    + intros k c s Hc Hs. by split; apply rd_at.
    + rewrite length_zip_with. destruct (Z.ltb_spec (Z.of_nat (length coords)) (Z.of_nat kv)); lia.
  - rewrite (mfold_strided w 0 coords ms (take kv coords) ms).
    + destruct (mfold _ _ 0) as [off| |]; [|done..]. cbn [mbind outcome_bind].
      rewrite (mfold_strided w (Z.of_nat kv) coords _ (drop kv coords) consts); [done| |].
      * intros k c s Hc Hs. rewrite lookup_drop in Hc. rewrite <- Nat2Z.inj_add. split; apply rd_at; [done|].
        rewrite lookup_app_r by (rewrite length_replicate; lia). rewrite length_replicate. by replace (kv + k - kv)%nat with k by lia.
      * rewrite length_zip_with, length_drop.
        destruct (Z.ltb_spec (Z.of_nat (length coords)) (Z.of_nat (kv + length consts))); lia.
    + intros k c s Hc Hs. apply lookup_take_Some in Hc as [Hc _]. by split; apply rd_at.
    + rewrite length_zip_with, length_take. destruct (Z.ltb_spec (Z.of_nat (length coords)) (Z.of_nat kv)); lia.
Qed.

(** A view of the outer dimensions of a tensor: [kv] strides at run time that fit
    [w] bits, then the constant ones, which are those of the tensor. *)
Record view_ok (w : Z) (kv : nat) (consts : list Z) (td : NVCVTensorData) : Prop := {
  vo_width : 0 < w;
  vo_consts : Forall (fun k => k <> -1) consts;
  vo_length : length (dims td) = Z.to_nat (td_rank td);
  vo_rank : Z.of_nat (kv + length consts) <= td_rank td;
  vo_fit : forall i s, (i < kv)%nat -> (dims td).*2 !! i = Some s -> in_s w s;
  vo_match : forall i k, consts !! i = Some k -> (dims td).*2 !! (kv + i)%nat = Some k }.

Lemma dims_stride td i n s : dims td !! i = Some (n, s) -> td_stride td (Z.of_nat i) = Ok s /\ td_shape td (Z.of_nat i) = Ok n.
Proof.
  unfold dims. rewrite lookup_take_Some. intros [(? & ? & [= -> ->] & Hn & Hs)%lookup_zip_with_Some Hi].
  unfold td_stride, td_shape. rewrite (proj2 (Z.ltb_ge (Z.of_nat i) 0)), (proj2 (Z.leb_gt (td_rank td) (Z.of_nat i))) by lia.
  split; by apply rd_at.
Qed.

Lemma TensorWrap_of_tensor_ok w kv consts td : view_ok w kv consts td ->
  TensorWrap_of_tensor w (replicate kv (-1) ++ consts) td = Ok (MkWrap (basePtr (buffer td)) (take kv (dims td).*2)).
Proof.
  intros [Hw HF Hlen Hrank Hfit Hmatch]. unfold TensorWrap_of_tensor. rewrite length_app, length_replicate.
  rewrite (proj2 (Z.leb_le _ _)) by done. cbn [nvcv_assert]. rewrite kVariableStrides_first, Nat2Z.id by done.
  assert (kv + length consts <= length (dims td))%nat as Hle by lia.
  destruct (mfold_zrange (wrap_step w (replicate kv (-1) ++ consts) td)
    (fun i ms => ms = take (min (Z.to_nat i) kv) (dims td).*2 ++ replicate (kv - Z.to_nat i) 0)
    0 (Z.of_nat (kv + length consts)) (replicate kv 0)) as (ms & -> & ->); [lia|cbn; by rewrite Nat.sub_0_r| |].
  - intros i ms Hi ->. destruct (lookup_lt_is_Some_2 (dims td) (Z.to_nat i)) as [[n s] Hd]; [lia|].
    destruct (dims_stride _ _ _ _ Hd) as [Hs _]. rewrite Z2Nat.id in Hs by lia.
    assert ((dims td).*2 !! Z.to_nat i = Some s) as Hd2 by (by rewrite list_lookup_fmap, Hd).
    unfold wrap_step. rewrite kVariableStrides_first by done. destruct (decide (Z.to_nat i < kv)%nat) as [Hlt|Hge].
    + rewrite (proj2 (rd_Ok _ i (-1))); [|split; [lia|rewrite lookup_app_l by (rewrite length_replicate; lia); by apply lookup_replicate_2]].
      cbn [mbind outcome_bind Z.eqb Pos.eqb negb]. rewrite (proj2 (Z.ltb_lt i (Z.of_nat kv))) by lia. rewrite Hs. cbn [mbind outcome_bind].
      pose proof (Hfit _ _ Hlt Hd2) as Hin. rewrite (proj2 (Z.leb_le s (stride_max w))) by (unfold stride_max, in_s in *; lia).
      cbn [nvcv_assert]. rewrite wraps_small by done. eexists. split.
      * apply wr_Ok. split; [|reflexivity]. rewrite length_app, length_take, length_fmap, length_replicate. lia.
      * rewrite insert_app_r_alt by (rewrite length_take; lia). rewrite length_take, length_fmap.
        replace (Z.to_nat (i + 1)) with (S (Z.to_nat i)) by lia. rewrite !Nat.min_l by lia.
        rewrite (take_S_r _ _ s) by done. rewrite <- app_assoc. f_equal.
        rewrite Nat.sub_diag.
        by replace (kv - Z.to_nat i)%nat with (S (kv - S (Z.to_nat i))) by lia.
    + destruct (lookup_lt_is_Some_2 consts (Z.to_nat i - kv)) as [k Hk]; [lia|].
      rewrite (proj2 (rd_Ok _ i k)); [|split; [lia|rewrite lookup_app_r by (rewrite length_replicate; lia); by rewrite length_replicate]].
      cbn [mbind outcome_bind]. pose proof (proj1 (Forall_lookup _ _) HF _ _ Hk) as Hne. cbn in Hne.
      rewrite (proj2 (Z.eqb_neq k (-1))) by done. cbn [negb]. rewrite Hs. cbn [mbind outcome_bind].
      assert (s = k) as -> by (specialize (Hmatch _ _ Hk); replace (kv + (Z.to_nat i - kv))%nat with (Z.to_nat i) in Hmatch by lia; congruence).
      rewrite Z.eqb_refl. cbn [nvcv_assert]. eexists. split; [done|]. rewrite !Nat.min_r by lia.
      by replace (kv - Z.to_nat (i + 1))%nat with (kv - Z.to_nat i)%nat by lia.
  - cbn [mbind outcome_bind]. rewrite Nat2Z.id, Nat.min_r by lia. by replace (kv - (kv + length consts))%nat with 0%nat by lia; rewrite app_nil_r.
Qed.

(** Reading through a view of a tensor reaches its elements. *)
Lemma doGetPtr_ok w kv consts td cs : view_ok w kv consts td -> nonempty (dims td) -> offsets_fit w (dims td) ->
  in_dims (dims td) cs -> (length cs <= kv + length consts)%nat ->
  doGetPtr w (replicate kv (-1) ++ consts) (MkWrap (basePtr (buffer td)) (take kv (dims td).*2)) cs =
    Ok (basePtr (buffer td) + elem_offset (dims td) cs).
Proof.
  intros [Hw HF Hlen Hrank Hfit Hmatch] Hn Hoff Hcs Hl.
  assert (kv + length consts <= length (dims td))%nat as Hle by lia.
  rewrite doGetPtr_fold by (done || (rewrite length_take, length_fmap; lia)).
  assert (take kv (dims td).*2 ++ consts = take (kv + length consts) (dims td).*2) as ->.
  { rewrite <- take_take_drop. f_equal. apply list_eq_same_length with (length consts);
      [by rewrite length_take, length_drop, length_fmap; lia|done|].
    intros i x y Hi Hx Hy. apply Hmatch in Hx. rewrite lookup_take_lt, lookup_drop in Hy by done. congruence. }
  assert (forall (ss : list Z) n, (length cs <= n)%nat -> zip cs (take n ss) = zip cs ss) as HZ.
  { clear. induction cs as [|c cs IH]; intros [|s ss] [|n]; cbn; intros; try done; try lia. f_equal. apply IH. lia. }
  rewrite HZ by done. by rewrite offset_fold.
Qed.

(** ** Views behind a border *)

(** The extents of the active dimensions. *)
Fixpoint shapes_of (Active : list bool) (ds : list (Z * Z)) : list Z :=
  match Active, ds with
  | true :: Active, (n, _) :: ds => n :: shapes_of Active ds
  | false :: Active, _ :: ds => shapes_of Active ds
  | _, _ => []
  end.

(** What a view needs of a coordinate: an active dimension has room for the border
    arithmetic, in an inactive one the coordinate is in range. *)
Fixpoint usable (w : Z) (B : NVCVBorderType) (Active : list bool) (ds : list (Z * Z)) (cs : list Z) : Prop :=
  match cs, Active, ds with
  | [], _, _ => True
  | c :: cs, a :: Active, (n, _) :: ds =>
      0 < n /\ (if a then border_room w B n else c < n /\ 0 <= c) /\ usable w B Active ds cs
  | _, _, _ => False
  end.

(** Each coordinate of [rs] has the one of [cs] as an image, or is it. *)
Fixpoint imaged (B : NVCVBorderType) (Active : list bool) (ds : list (Z * Z)) (cs rs : list Z) : Prop :=
  match cs, rs, Active, ds with
  | [], [], _, _ => True
  | c :: cs, r :: rs, a :: Active, (n, _) :: ds =>
      (if a then border_image B n c r else r = c) /\ imaged B Active ds cs rs
  | _, _, _, _ => False
  end.

Lemma border_coords_ok w B Active ds cs pre : B <> NVCV_BORDER_CONSTANT -> usable w B Active ds cs ->
  exists rs, border_coords w B (pre ++ shapes_of Active ds) Active (active_map (Z.of_nat (length pre)) Active) cs = Ok rs /\
    imaged B Active ds cs rs /\ in_dims ds rs /\ length rs = length cs.
Proof.
  intros HB. revert Active ds pre. induction cs as [|c cs IH]; intros Active ds pre Hu.
  - exists []. by split_and!; destruct Active, ds as [|[]].
  - destruct Active as [|a Active]; [done|]. destruct ds as [|[n s] ds]; [done|]. destruct Hu as (Hn & Ha & Hu). destruct a.
    + destruct (border_index_image w B c n HB Hn Ha) as (r & Er & Hr).
      destruct (IH Active ds (pre ++ [n]) Hu) as (rs & Ers & Hi & Hd & Hl). exists (r :: rs). cbn [border_coords active_map shapes_of].
      rewrite (rd_at _ (length pre) n) by (rewrite lookup_app_r, Nat.sub_diag by lia; done). cbn [mbind outcome_bind]. rewrite Er.
      replace (Z.of_nat (length (pre ++ [n]))) with (Z.of_nat (length pre) + 1) in Ers by (rewrite length_app; cbn; lia).
      rewrite <- app_assoc in Ers. cbn [app mbind outcome_bind] in Ers |- *. rewrite Ers. cbn.
      split_and!; [done|done|done|apply Hr|apply Hr|done|by rewrite Hl].
    + destruct (IH Active ds pre Hu) as (rs & Ers & Hi & Hd & Hl). exists (c :: rs). cbn. rewrite Ers. cbn.
      split_and!; [done|done|done|lia|lia|done|by rewrite Hl].
Qed.

(** The shape that the constructor stores. *)
Lemma active_shapes_ok w td Active i : 32 <= w -> (i + length Active <= length (dims td))%nat ->
  Forall (fun n => 0 < n <= stride_max 32) (shapes_of Active (drop i (dims td))) ->
  active_shapes w td (Z.of_nat i) Active = Ok (shapes_of Active (drop i (dims td))).
Proof.
  intros Hw. revert i. induction Active as [|a Active IH]; intros i Hlen HF; [done|]. cbn [length] in Hlen.
  destruct (lookup_lt_is_Some_2 (dims td) i) as [[n s] Hd]; [lia|]. rewrite (drop_S _ _ _ Hd) in *.
  destruct (dims_stride _ _ _ _ Hd) as [_ Hs]. cbn [active_shapes shapes_of] in *.
  replace (Z.of_nat i + 1) with (Z.of_nat (S i)) by lia. destruct a.
  - apply Forall_cons in HF as [Hn HF]. rewrite Hs. cbn [mbind outcome_bind]. rewrite (proj2 (Z.leb_le n (stride_max 32))) by lia.
    cbn [nvcv_assert]. rewrite IH by (done || lia). cbn [mbind outcome_bind]. rewrite wraps_small; [done|lia|].
    unfold in_s, stride_max in *. assert (2 ^ (32 - 1) <= 2 ^ (w - 1)) by (apply Z.pow_le_mono_r; lia). lia.
  - rewrite IH by (done || lia). done.
Qed.

(** Elements inside a buffer of less than 2^(w-1) bytes have offsets of [w] bits. *)
Lemma inside_fit w es total ds : nonempty ds -> 0 < es -> total <= 2 ^ (w - 1) -> inside es total (offs ds) -> offsets_fit w ds.
Proof.
  intros Hn He Ht Hi cs Hcs. apply (elem_offset_in ds cs Hn) in Hcs. apply (proj1 (Forall_forall _ _) Hi) in Hcs.
  assert (0 <= 2 ^ (w - 1)) by (apply Z.pow_nonneg; lia). unfold in_s. lia.
Qed.

Lemma row_dims_nonempty es al fp d l : Forall (fun n => 0 < n) l -> nonempty (row_dims es al fp d l).
Proof.
  intros HF. apply Forall_lookup. intros i [n s] (? & ? & [= -> ->] & Hn & _)%lookup_zip_with_Some.
  by apply (proj1 (Forall_lookup _ _) HF i).
Qed.

(** C29: A kernel that reads a tensor through a border stays inside the tensor. A
    view with [w]-bit strides of a created tensor of at most 2^(w-1) bytes, whose
    extents in the active dimensions leave room for the arithmetic of the border (at
    most 2^(w-3) for the reflection, below 2^(w-2) for the one without repetition and
    below 2^(w-1) for the others; beyond, the class accepts extents for which the
    reflection overflows, see [Border.reflect_overflows]) and fit 31 bits, is
    constructed without a failed assertion; at any coordinates whatever in the
    active dimensions (and coordinates in range in the others) the pointer is then
    computed without overflow, addresses the element of which the coordinates are
    the border image, and this element lies inside the allocated memory. The border
    is any but the constant one. *)
Theorem border_view_inside dev undef r sh dt L uba ura es buf reqs total al w kv consts B Active cs
  (Hreq : valid_request dev undef r sh dt L uba ura es) (HC : CalcRequirements dev undef r sh dt L uba ura = Ok reqs)
  (Htotal : AllocateBuffer_args reqs = Ok (total, al)) (Hw : w = 32 \/ w = 64) (Hfit : total <= 2 ^ (w - 1)) :
  let td := exportData (mkTensor reqs buf) in
  forall (Hview : view_ok w kv consts td) (HB : B <> NVCV_BORDER_CONSTANT)
    (Hactive : length Active = (kv + length consts)%nat) (Hcs : (length cs <= kv + length consts)%nat)
    (Hshape : Forall (fun n => n <= stride_max 32) (shapes_of Active (dims td))) (Husable : usable w B Active (dims td) cs),
  exists bw rs p, BorderWrap_of_tensor w (replicate kv (-1) ++ consts) Active td = Ok bw /\
    border_doGetPtr w (replicate kv (-1) ++ consts) B Active bw cs = Ok p /\
    imaged B Active (dims td) cs rs /\ p = buf + elem_offset (dims td) rs /\
    0 <= p - buf /\ p - buf + es <= total.
Proof.
  intros td Hview HB Hactive Hcs Hshape Husable.
  destruct (created_memory dev undef r sh dt L uba ura es buf Hreq) as (reqs' & ra & total' & HC' & _ & _ & Hd & Ht' & _ & _ & Hi).
  rewrite HC in HC'. injection HC' as <-. rewrite Htotal in Ht'. injection Ht' as <-. fold td in Hd, Hi.
  assert (nonempty (dims td)) as Hn by (rewrite Hd; apply row_dims_nonempty, (vr_shape _ _ _ _ _ _ _ _ _ Hreq)).
  assert (0 < es) as Hes by (destruct (vr_elem _ _ _ _ _ _ _ _ _ Hreq) as (_ & ? & _); lia).
  pose proof (inside_fit w es total (dims td) Hn Hes Hfit Hi) as Hoff.
  destruct Hview as [V1 V2 V3 V4 V5 V6] eqn:EV. clear EV.
  destruct (border_coords_ok w B Active (dims td) cs [] HB Husable) as (rs & Ers & Him & Hin & Hl).
  exists (MkBorder (MkWrap (basePtr (buffer td)) (take kv (dims td).*2)) (shapes_of Active (dims td))), rs, (buf + elem_offset (dims td) rs).
  assert (view_ok w kv consts td) as Hv by done. split_and!.
  - unfold BorderWrap_of_tensor. rewrite TensorWrap_of_tensor_ok by done. cbn [mbind outcome_bind].
    rewrite (proj2 (Z.leb_le _ _)) by (rewrite length_app, length_replicate; lia). cbn [nvcv_assert].
    change 0 with (Z.of_nat 0). rewrite active_shapes_ok; [done|lia|lia|]. rewrite drop_0.
    clear -Hn Hshape. revert Hn Hshape. generalize (dims td). intros ds Hn. revert Active.
    induction Hn as [|[n s] ds Hn _ IH]; intros [|[] Active]; cbn; try constructor; try (apply IH; done);
      try (apply Forall_cons in Hshape as [? ?]; cbn in Hn; lia); apply Forall_cons in Hshape as [? ?]; by apply IH.
  - unfold border_doGetPtr. cbn [m_tensorShape m_tensorWrap]. cbn [app length] in Ers. change (Z.of_nat 0) with 0 in Ers. rewrite Ers.
    cbn [mbind outcome_bind]. by rewrite doGetPtr_ok by (done || lia).
  - done.
  - done.
  - apply (elem_offset_in _ _ Hn) in Hin. apply (proj1 (Forall_forall _ _) Hi) in Hin. lia.
  - apply (elem_offset_in _ _ Hn) in Hin. apply (proj1 (Forall_forall _ _) Hi) in Hin. lia.
Qed.

(** Behind a constant border a coordinate outside has no address, others are
    addressed as without a border. *)
Lemma any_outside_spec Active ds cs pre :
  (length cs <= length Active)%nat -> (length Active <= length ds)%nat ->
  exists out, any_outside (pre ++ shapes_of Active ds) Active (active_map (Z.of_nat (length pre)) Active) cs = Ok out /\
    (out = false <-> forall i c n s, cs !! i = Some c -> Active !! i = Some true -> ds !! i = Some (n, s) -> 0 <= c < n).
Proof.
  revert ds cs pre. induction Active as [|a Active IH]; intros ds cs pre Hc Hd.
  - destruct cs; [|cbn in Hc; lia]. by exists false.
  - destruct cs as [|c cs]; [by exists false|]. destruct ds as [|[n s] ds]; [cbn in Hd; lia|]. cbn [length] in *. destruct a.
    + destruct (IH ds cs (pre ++ [n])) as (out & E & Hout); [lia|lia|].
      replace (Z.of_nat (length (pre ++ [n]))) with (Z.of_nat (length pre) + 1) in E by (rewrite length_app; cbn; lia).
      rewrite <- app_assoc in E. cbn [app] in E. cbn [any_outside active_map shapes_of].
      rewrite (rd_at _ (length pre) n) by (rewrite lookup_app_r, Nat.sub_diag by lia; done). cbn [mbind outcome_bind].
      unfold IsOutside. destruct (Z.ltb_spec c 0), (Z.leb_spec n c); cbn [orb].
      1-3: exists true; split; [done|]; split; [done|]; intros H'; specialize (H' 0%nat c n s eq_refl eq_refl eq_refl); lia.
      exists out. split; [done|]. rewrite Hout. split.
      * intros H' [|i] c' n' s'; cbn; [intros [= <-] _ [= <- <-]; lia|apply H'].
      * intros H' i c' n' s'. apply (H' (S i)).
    + destruct (IH ds cs pre) as (out & E & Hout); [lia|lia|]. exists out. split; [done|]. rewrite Hout. split.
      * intros H' [|i] c' n' s'; cbn; [done|apply H'].
      * intros H' i c' n' s'. apply (H' (S i)).
Qed.

Lemma constant_view w kv consts td Active cs : view_ok w kv consts td -> nonempty (dims td) -> offsets_fit w (dims td) ->
  (length cs <= kv + length consts)%nat -> length Active = (kv + length consts)%nat -> (length Active <= length (dims td))%nat ->
  let t := MkBorder (MkWrap (basePtr (buffer td)) (take kv (dims td).*2)) (shapes_of Active (dims td)) in
  let inside := forall i c n s, cs !! i = Some c -> Active !! i = Some true -> dims td !! i = Some (n, s) -> 0 <= c < n in
  (inside -> in_dims (dims td) cs ->
    constant_doGetPtr w (replicate kv (-1) ++ consts) Active t cs = Ok (Some (basePtr (buffer td) + elem_offset (dims td) cs))) /\
  (~ inside -> constant_doGetPtr w (replicate kv (-1) ++ consts) Active t cs = Ok None).
Proof.
  intros Hv Hn Hfit Hcs HA HAd t ins. destruct (any_outside_spec Active (dims td) cs []) as (out & E & Hout); [lia|done|].
  cbn [app length] in E. change (Z.of_nat 0) with 0 in E. unfold constant_doGetPtr, t. cbn [m_tensorShape m_tensorWrap]. rewrite E. cbn [mbind outcome_bind].
  split.
  - intros Hi Hd. destruct out; [exfalso; by apply Hout in Hi|]. by rewrite doGetPtr_ok.
  - intros Hi. destruct out; [done|]. exfalso. exact (Hi (proj1 Hout eq_refl)).
Qed.

(** A view with all strides at run time is the full wrapper's address. *)
Lemma full_wrap_same N td cs : (length cs <= N)%nat -> N = length (take N (dims td).*2) ->
  full_doGetPtr (MkFull (basePtr (buffer td)) (take N (dims td).*2) (take N (dims td).*1)) cs =
  doGetPtr 32 (replicate N (-1) ++ []) (MkWrap (basePtr (buffer td)) (take N (dims td).*2)) cs.
Proof.
  intros Hl HN. rewrite doGetPtr_fold by (done || (cbn; lia)). unfold full_doGetPtr. cbn [f_strides f_data]. rewrite app_nil_r.
  rewrite (mfold_strided 32 0 cs (take N (dims td).*2) cs (take N (dims td).*2)); [done| |].
  - intros k c s Hc Hs. by split; apply rd_at.
  - rewrite length_zip_with. lia.
Qed.

(** ** Concrete views *)

Module Concrete.

(** Two images of three rows of five RGB pixels, rows 32 bytes apart. *)
Definition td0 : NVCVTensorData :=
  match CalcRequirements device0 undef0 4 [2; 3; 5; 3] U8 NVCV_TENSOR_NHWC 0 0 with
  | Ok reqs => exportData (mkTensor reqs 4096)
  | _ => mkTensorData 0 NVCV_TENSOR_NONE 0 [] NVCV_TENSOR_BUFFER_NONE (mkTensorBuffer [] 0)
  end.

Definition Strides0 : list Z := replicate 3 (-1) ++ [1].
Definition Active0 : list bool := [false; true; true; false].

Lemma td0_view : view_ok 64 3 [1] td0.
Proof.
  split; [lia|by constructor|reflexivity|by vm_compute| |].
  - assert ((dims td0).*2 = [96; 32; 3; 1]) as -> by (vm_compute; reflexivity).
    intros [|[|[|i]]] s Hi; cbn; [intros [= <-]; vm_compute; by split..|lia].
  - intros [|i] k; cbn; [|done]. intros [= <-]. vm_compute. reflexivity.
Qed.

(** The row above the first but one and two columns behind the last. *)
Lemma border_view_inside_witness :
  exists bw p, BorderWrap_of_tensor 64 Strides0 Active0 td0 = Ok bw /\
    border_doGetPtr 64 Strides0 NVCV_BORDER_REFLECT Active0 bw [1; -2; 6; 2] = Ok p /\ p = 4096 + 96 + 32 + 9 + 2.
Proof.
  assert (dims td0 = [(2, 96); (3, 32); (5, 3); (3, 1)]) as Hd by (vm_compute; reflexivity).
  destruct (CalcRequirements device0 undef0 4 [2; 3; 5; 3] U8 NVCV_TENSOR_NHWC 0 0) as [reqs| |] eqn:HC; [|vm_compute in HC; discriminate HC..].
  assert (td0 = exportData (mkTensor reqs 4096)) as Htd by (unfold td0; rewrite HC; reflexivity).
  destruct (border_view_inside device0 undef0 4 [2; 3; 5; 3] U8 NVCV_TENSOR_NHWC 0 0 1 4096 reqs 512 512 64 3 [1]
    NVCV_BORDER_REFLECT Active0 [1; -2; 6; 2]) as (bw & rs & p & E & Ep & _).
  - exact small_request_valid.
  - exact HC.
  - vm_compute in HC. injection HC as <-. vm_compute. reflexivity.
  - by right.
  - lia.
  - rewrite <- Htd. exact td0_view.
  - done.
  - done.
  - cbn. lia.
  - rewrite <- Htd, Hd. repeat constructor; vm_compute; discriminate.
  - rewrite <- Htd, Hd. vm_compute. repeat split; discriminate.
  - rewrite <- Htd in E. exists bw, p. split; [exact E|]. split; [exact Ep|].
    vm_compute in E. injection E as <-. vm_compute in Ep. by injection Ep as <-.
Defined.

(** A variable stride behind a constant one is left at zero. *)
Lemma late_stride_dropped : TensorWrap_of_tensor 64 [96; -1] td0 = Ok (MkWrap 4096 [0]).
Proof. vm_compute. reflexivity. Qed.

End Concrete.
