(* ===== verification/Saturate.v ===== *)
(** * Saturating casts between integers
    ([cvcuda/cuda_tools/detail/SaturateCastImpl.hpp])

    The integer branches of [BaseSaturateCastImpl], with the comparisons done in
    the common type of their operands as the language prescribes, are shown to
    clamp for every pair of types. The device instructions and the floating-point
    branches are not modelled. *)
From S2P Require Import Prelude.
From stdpp Require Import options.

#[local] Open Scope Z_scope.

(** ** Integer types *)

Inductive int_type := Int8 | UInt8 | Int16 | UInt16 | Int32 | UInt32 | Int64 | UInt64.

#[global] Instance int_type_eq_dec : EqDecision int_type.
Proof. solve_decision. Defined.

Definition bits (T : int_type) : Z :=
  match T with Int8 | UInt8 => 8 | Int16 | UInt16 => 16 | Int32 | UInt32 => 32 | Int64 | UInt64 => 64 end.

Definition is_signed (T : int_type) : bool := match T with Int8 | Int16 | Int32 | Int64 => true | _ => false end.

(** [TypeTraits<T>::min] and [max]. *)
Definition tmin (T : int_type) : Z := if is_signed T then - 2 ^ (bits T - 1) else 0.
Definition tmax (T : int_type) : Z := if is_signed T then 2 ^ (bits T - 1) - 1 else 2 ^ bits T - 1.

Definition in_type (T : int_type) (z : Z) : Prop := tmin T <= z <= tmax T.

(** Conversion to a type. *)
Definition conv (T : int_type) (z : Z) : Z := if is_signed T then wraps (bits T) z else wrapu (bits T) z.

(** Types smaller than [int] are promoted to [int]. *)
Definition promote (T : int_type) : int_type := if bits T <? 32 then Int32 else T.

(** The usual arithmetic conversions. *)
Definition common (A B : int_type) : int_type :=
  let A := promote A in
  let B := promote B in
  if Bool.eqb (is_signed A) (is_signed B) then (if bits A <? bits B then B else A)
  else
    let '(sg, us) := if is_signed A then (A, B) else (B, A) in
    if bits sg <=? bits us then us else sg.

(** [a <= b] and [a >= b] for operands of types [A] and [B]. *)
Definition le (A B : int_type) (a b : Z) : bool := conv (common A B) a <=? conv (common A B) b.
Definition ge (A B : int_type) (a b : Z) : bool := conv (common A B) b <=? conv (common A B) a.

(** ** The cast *)

Definition BaseSaturateCastImpl (T U : int_type) (u : Z) : Z :=
  let SmallToBig := bits U <=? bits T in
  let BigToSmall := bits T <? bits U in
  if is_signed U && negb (is_signed T) && SmallToBig then
    if le U Int32 u 0 then 0 else conv T u
  else if Bool.eqb (is_signed U) (is_signed T) && BigToSmall then
    if le U T u (tmin T) then tmin T else if ge U T u (tmax T) then tmax T else conv T u
  else if negb (is_signed U) && is_signed T then
    if ge U T u (tmax T) then tmax T else conv T u
  else if is_signed U && negb (is_signed T) && BigToSmall then
    if le U U u (conv U (tmin T)) then tmin T else if ge U U u (conv U (tmax T)) then tmax T else conv T u
  else conv T u.

(** ** Clamping *)

Lemma conv_id T z : in_type T z -> conv T z = z.
Proof.
  unfold in_type, tmin, tmax, conv. intros Hz.
  destruct (is_signed T); [apply wraps_small; [by destruct T|unfold in_s; lia]|apply wrapu_small; unfold in_u; lia].
Qed.

(** The conversion to the common type keeps a value of either type, unless a
    negative value meets an unsigned type that is not smaller. *)
Lemma common_keeps A B z : in_type A z \/ in_type B z -> is_signed (common A B) = true \/ 0 <= z -> conv (common A B) z = z.
Proof.
  intros Hz Hs. apply conv_id. unfold in_type in *.
  destruct A, B; unfold common, promote, tmin, tmax in *; cbn [is_signed bits Z.ltb Z.leb Z.compare Pos.compare Pos.compare_cont Bool.eqb] in *; lia.
Qed.

Lemma le_spec A B a b : in_type A a -> in_type B b -> is_signed (common A B) = true \/ (0 <= a /\ 0 <= b) -> le A B a b = (a <=? b).
Proof. intros Ha Hb Hs. unfold le. rewrite !common_keeps; naive_solver. Qed.

Lemma ge_spec A B a b : in_type A a -> in_type B b -> is_signed (common A B) = true \/ (0 <= a /\ 0 <= b) -> ge A B a b = (b <=? a).
Proof. intros Ha Hb Hs. unfold ge. rewrite !common_keeps; naive_solver. Qed.

Lemma bits_order T U : (bits U <=? bits T) = negb (bits T <? bits U).
Proof. by destruct T, U. Qed.

Lemma in_type_limits T : in_type T (tmin T) /\ in_type T (tmax T) /\ tmin T <= 0 < tmax T.
Proof. destruct T; unfold in_type, tmin, tmax; cbn [is_signed bits]; lia. Qed.

Lemma common_signed T U : is_signed U = true -> is_signed (common U Int32) = true /\ is_signed (common U U) = true /\
  (is_signed T = true -> is_signed (common U T) = true).
Proof. by destruct T, U. Qed.

(** A larger type holds the limits of a smaller one of either sign. *)
Lemma larger_holds T U : bits T < bits U -> in_type U (tmax T) /\ (is_signed U = true -> in_type U (tmin T)).
Proof. destruct T, U; unfold in_type, tmin, tmax; cbn [is_signed bits]; intros; split; try lia; intros; (discriminate || lia). Qed.

(** A type of the same sign that is not smaller, or a larger signed one, holds every value. *)
Lemma not_smaller_holds T U u : in_type U u -> bits U <= bits T -> is_signed U = is_signed T \/ (is_signed U = true /\ 0 <= u) -> in_type T u.
Proof.
  destruct T, U; unfold in_type, tmin, tmax; cbn [is_signed bits]; intros Hu Hb [Hs|[Hs Hp]]; try discriminate; lia.
Qed.

Lemma unsigned_nonneg U u : is_signed U = false -> in_type U u -> 0 <= u /\ tmin U = 0.
Proof. intros Hs. unfold in_type, tmin. rewrite Hs. lia. Qed.

(** Saturating casts clamp. For every pair of integer types and every value of
    the source type, the cast yields the value of the target type nearest to it:
    no comparison is spoilt by the conversions of the language. *)
Theorem saturate_cast_clamps T U u (Hu : in_type U u) : BaseSaturateCastImpl T U u = Z.max (tmin T) (Z.min (tmax T) u).
Proof.
  unfold BaseSaturateCastImpl. rewrite bits_order. destruct (in_type_limits T) as (Lmin & Lmax & L0).
  destruct (is_signed U) eqn:EU, (is_signed T) eqn:ET, (Z.ltb_spec (bits T) (bits U)) as [Hlt|Hge]; cbn [negb andb Bool.eqb].
  - destruct (larger_holds T U Hlt) as [_ H2]. destruct (common_signed T U EU) as (_ & _ & Hc).
    rewrite le_spec, ge_spec by (by auto).
    destruct (Z.leb_spec u (tmin T)), (Z.leb_spec (tmax T) u); try lia. rewrite conv_id by (unfold in_type; lia). lia.
  - assert (in_type T u) as Hin by (apply (not_smaller_holds T U); [done|done|left; congruence]).
    rewrite conv_id by done. unfold in_type in Hin. lia.
  - destruct (larger_holds T U Hlt) as [H1 H2]. destruct (common_signed T U EU) as (_ & Hc & _).
    rewrite !(conv_id U) by auto. rewrite le_spec, ge_spec by auto.
    destruct (Z.leb_spec u (tmin T)), (Z.leb_spec (tmax T) u); try lia. rewrite conv_id by (unfold in_type; lia). lia.
  - destruct (common_signed T U EU) as (Hc & _). assert (tmin T = 0) as E0 by (unfold tmin; by rewrite ET).
    rewrite le_spec by (auto || (unfold in_type, tmin, tmax; cbn; lia)). destruct (Z.leb_spec u 0); [lia|].
    assert (in_type T u) as Hin by (apply (not_smaller_holds T U); [done|done|right; split; [done|lia]]).
    rewrite conv_id by done. unfold in_type in Hin. lia.
  - destruct (unsigned_nonneg U u EU Hu). rewrite ge_spec by (auto || (right; lia)).
    destruct (Z.leb_spec (tmax T) u); [lia|]. rewrite conv_id by (unfold in_type; lia). lia.
  - destruct (unsigned_nonneg U u EU Hu). rewrite ge_spec by (auto || (right; lia)).
    destruct (Z.leb_spec (tmax T) u); [lia|]. rewrite conv_id by (unfold in_type; lia). lia.
  - destruct (unsigned_nonneg U u EU Hu). assert (tmin T = 0) as E0 by (unfold tmin; by rewrite ET).
    rewrite le_spec, ge_spec by (auto || (right; lia)).
    destruct (Z.leb_spec u (tmin T)), (Z.leb_spec (tmax T) u); try lia. rewrite conv_id by (unfold in_type; lia). lia.
  - assert (in_type T u) as Hin by (apply (not_smaller_holds T U); [done|done|left; congruence]).
    rewrite conv_id by done. unfold in_type in Hin. lia.
Qed.

Lemma saturate_cast_clamps_witness : BaseSaturateCastImpl UInt8 Int32 (-5) = 0 /\ BaseSaturateCastImpl Int16 UInt32 70000 = 32767.
Proof.
  split.
  - rewrite saturate_cast_clamps by (vm_compute; by split). reflexivity.
  - rewrite saturate_cast_clamps by (vm_compute; by split). reflexivity.
Defined.
