(* ===== verification/TensorWrap.v ===== *)
(** * Wrapped tensors (priv/TensorWrapDataStrided.cpp, Tensor.cpp)

    The validation of a buffer that a tensor is made from. The loops work on
    [int] copies of 64-bit strides and extents. *)
From S2P Require Import Prelude MathUtil Requirements DataLayout ImageFormat TensorLayout Strides TensorData Tensor.
From stdpp Require Import options.

#[local] Open Scope Z_scope.

(** ** Wrapping a buffer *)

(** [dim], [prevStrideConsidered] and [prevSizeConsidered]. *)
Definition considered : Type := Z * Z.

(** One round of the loop over the packed dimensions. *)
Definition packed_step (td : NVCVTensorData) (prev : considered) (dim : Z) : outcome considered :=
  n ← rd (shape td) dim;
  if n <=? 1 then Ok prev else
  correctPitch ← 
    (if dim =? td_rank td - 1 then noexcept (DataType.strideBytes (dtype td)) else int32 (prev.1 * prev.2));
  s ← rd (strides (buffer td)) dim;
  throw_if (negb (s =? correctPitch)) NVCV_ERROR_INVALID_ARGUMENT (Ok (i32 s, i32 n)).

(** One round of the loop over the other dimensions. *)
Definition pitch_step (td : NVCVTensorData) (prev : considered) (dim : Z) : outcome considered :=
  n ← rd (shape td) dim;
  if n <=? 1 then Ok prev else
  minPitch ← int32 (prev.1 * prev.2);
  s ← rd (strides (buffer td)) dim;
  throw_if (s <? minPitch) NVCV_ERROR_INVALID_ARGUMENT (Ok (i32 s, i32 n)).

Definition ValidateTensorBufferStrided (td : NVCVTensorData) : outcome unit :=
  nvcv_assert (bool_decide (bufferType td = NVCV_TENSOR_BUFFER_STRIDED_CUDA)) (
  throw_if (basePtr (buffer td) =? 0) NVCV_ERROR_INVALID_ARGUMENT (
  throw_if (td_rank td <=? 0) NVCV_ERROR_INVALID_ARGUMENT (
  _ ← mfold (fun _ i => n ← rd (shape td) i; throw_if (n <? 1) NVCV_ERROR_INVALID_ARGUMENT (Ok tt))
        (zrange 0 (td_rank td)) tt;
  cl ← IsChannelLast (layout td);
  let firstPacked := if (cl : bool) then Z.max 0 (td_rank td - 2) else td_rank td - 1 in
  s ← rd (strides (buffer td)) (td_rank td - 1);
  n ← rd (shape td) (td_rank td - 1);
  prev ← mfold (packed_step td) (rev (zrange firstPacked (td_rank td))) (i32 s, i32 n);
  _ ← mfold (pitch_step td) (rev (zrange 0 firstPacked)) prev;
  Ok tt))).

(** [m_tdata]; the cleanup callback is not modelled. *)
Definition TensorWrapDataStrided (td : NVCVTensorData) : outcome NVCVTensorData :=
  _ ← ValidateTensorBufferStrided td; Ok td.

Definition nvcvTensorWrapData (td : NVCVTensorData) : outcome NVCVTensorData :=
  match bufferType td with
  | NVCV_TENSOR_BUFFER_STRIDED_CUDA => TensorWrapDataStrided td
  | _ => Throw NVCV_ERROR_INVALID_ARGUMENT
  end.

(** The data of the tensor made by reshaping one whose data is [td]. *)
Definition nvcvTensorReshape (td : NVCVTensorData) (rank : Z) (shape : list Z) (layout : NVCVTensorLayout)
    : outcome NVCVTensorData :=
  let '(new, ret) := ReshapeTensorData td rank shape layout in
  _ ← ret; TensorWrapDataStrided new.

(** ** Accepted buffers *)

(** The dimensions from index [k] on. *)
Definition inner (td : NVCVTensorData) (k : Z) : list (Z * Z) := drop (Z.to_nat k) (dims td).

(** The dimensions that the loops look at. *)
Abbreviation wide := (filter (fun d : Z * Z => d.1 <> 1)).

Lemma length_dims td : valid_td td -> length (dims td) = Z.to_nat (td_rank td).
Proof.
  intros (Hr & Hs & Ht & _). unfold NVCV_TENSOR_MAX_RANK in Hr. unfold dims.
  rewrite length_take, length_zip_with, Hs, Ht. lia.
Qed.

Lemma dims_lookup td k : valid_td td -> 0 <= k < td_rank td -> exists n s,
  dims td !! Z.to_nat k = Some (n, s) /\ rd (shape td) k = Ok n /\ rd (strides (buffer td)) k = Ok s
  /\ inner td k = (n, s) :: inner td (k + 1).
Proof.
  intros V Hk. destruct (lookup_lt_is_Some_2 (dims td) (Z.to_nat k)) as [[n s] E]; [rewrite length_dims by done; lia|].
  exists n, s. split; [done|]. unfold inner. rewrite (drop_S _ _ _ E). replace (Z.to_nat (k + 1)) with (S (Z.to_nat k)) by lia.
  unfold dims in E. rewrite lookup_take_lt in E by lia.
  apply lookup_zip_with_Some in E as (x & y & Exy & Hx & Hy). simplify_eq. split_and!; [|..|done]; apply rd_Ok; (split; [lia|done]).
Qed.

Lemma inner_0 td : inner td 0 = dims td.
Proof. apply drop_0. Qed.

Lemma inner_rank td : valid_td td -> inner td (td_rank td) = [].
Proof. intros V. apply drop_ge. rewrite length_dims by done. lia. Qed.

(** Extents and strides that an [int] holds. *)
Definition int_dims (td : NVCVTensorData) : Prop := Forall (fun d => in_s 32 d.1 /\ in_s 32 d.2) (dims td).

(** What the loops have established for the dimensions from [k] on. *)
Definition room (td : NVCVTensorData) (es k : Z) (prev : considered) : Prop :=
  nested es (wide (inner td k)) /\ span es (wide (inner td k)) <= prev.1 * prev.2.

Lemma room_skip td es k s prev : inner td k = (1, s) :: inner td (k + 1) -> room td es (k + 1) prev -> room td es k prev.
Proof. unfold room. intros ->. rewrite filter_cons. case_decide as H; [by cbn in H|done]. Qed.

Lemma room_wide td es k n s prev : inner td k = (n, s) :: inner td (k + 1) -> 1 < n ->
  room td es (k + 1) prev -> span es (wide (inner td (k + 1))) <= s -> room td es k (s, n).
Proof.
  unfold room. intros -> Hn [H1 H2] Hs. rewrite filter_cons. case_decide as H; cbn in H; [|lia].
  cbn [nested span fst snd]. split_and!; [lia|done|done|lia].
Qed.

Section validation.
  Context (td : NVCVTensorData) (es : Z).
  Context (V : valid_td td) (HI : int_dims td) (HP : Forall (fun n => 0 < n) (extents (dims td))).
  Context (Hes : DataType.strideBytes (dtype td) = Ok es).

Lemma dim_ints k : 0 <= k < td_rank td -> exists n s,
  rd (shape td) k = Ok n /\ rd (strides (buffer td)) k = Ok s /\ inner td k = (n, s) :: inner td (k + 1)
  /\ 0 < n /\ wraps 32 n = n /\ wraps 32 s = s.
Proof using V HI HP.
  intros Hk. destruct (dims_lookup td k V Hk) as (n & s & E & Hn & Hs & Ei). exists n, s.
  destruct (proj1 (Forall_lookup _ _) HI _ _ E) as [? ?]. cbn in *.
  assert (0 < n). { apply (proj1 (Forall_lookup _ _) HP (Z.to_nat k)). unfold extents. by rewrite list_lookup_fmap, E. }
  split_and!; try done; by apply wraps_small.
Qed.

Lemma pitch_step_room k prev prev' : 0 <= k < td_rank td -> room td es (k + 1) prev ->
  pitch_step td prev k = Ok prev' -> room td es k prev'.
Proof using V HI HP.
  intros Hk HR H. destruct (dim_ints k Hk) as (n & s & Hn & Hs & Ei & Hpos & Wn & Ws).
  unfold pitch_step in H. rewrite Hn, Hs in H. cbn [mbind outcome_bind] in H. destruct (Z.leb_spec n 1).
  - assert (n = 1) as -> by lia. injection H as <-. by eapply room_skip.
  - ok_inv. match goal with H : int32 _ = Ok _ |- _ => apply int32_Ok in H as [_ ->] end. bool_hyps.
    subst prev'. rewrite Wn, Ws. eapply room_wide; [done|done|exact HR|]. destruct HR. lia.
Qed.

Lemma packed_step_room k prev prev' : 0 <= k < td_rank td -> room td es (k + 1) prev ->
  packed_step td prev k = Ok prev' -> room td es k prev'.
Proof using V HI HP Hes.
  intros Hk HR H. destruct (dim_ints k Hk) as (n & s & Hn & Hs & Ei & Hpos & Wn & Ws).
  unfold packed_step in H. rewrite Hn, Hs in H. cbn [mbind outcome_bind] in H. destruct (Z.leb_spec n 1).
  - assert (n = 1) as -> by lia. injection H as <-. by eapply room_skip.
  - ok_inv. bool_hyps. subst prev'. rewrite Wn, Ws. eapply room_wide; [done|done|exact HR|].
    destruct (Z.eqb_spec k (td_rank td - 1)) as [->|].
    + replace (td_rank td - 1 + 1) with (td_rank td) in * by lia. rewrite inner_rank by done.
      rewrite Hes in *. cbn [noexcept filter list_filter span] in *. ok_inv. lia.
    + match goal with H : int32 _ = Ok _ |- _ => apply int32_Ok in H as [_ ->] end. destruct HR. lia.
Qed.

(** The round for the innermost dimension. *)
Lemma last_step_room prev n s : 1 <= td_rank td ->
  rd (shape td) (td_rank td - 1) = Ok n -> rd (strides (buffer td)) (td_rank td - 1) = Ok s -> 1 < n \/ es <= s ->
  packed_step td (i32 s, i32 n) (td_rank td - 1) = Ok prev -> room td es (td_rank td - 1) prev.
Proof using V HI HP Hes.
  intros Hr Hn Hs Hl H. destruct (dim_ints (td_rank td - 1)) as (n' & s' & Hn' & Hs' & Ei & Hpos & Wn & Ws); [lia|].
  rewrite Hn in Hn'. injection Hn' as <-. rewrite Hs in Hs'. injection Hs' as <-. rewrite Wn, Ws in H.
  replace (td_rank td - 1 + 1) with (td_rank td) in Ei by lia. rewrite inner_rank in Ei by done.
  unfold packed_step in H. rewrite Hn, Hs in H. cbn [mbind outcome_bind] in H. unfold room. rewrite Ei, filter_cons.
  rewrite filter_nil. destruct (Z.leb_spec n 1).
  - assert (n = 1) as -> by lia. injection H as <-. case_decide as H; [by cbn in H|]. cbn [nested span fst snd].
    split; [done|lia].
  - rewrite Z.eqb_refl, Hes in H. cbn [noexcept mbind outcome_bind] in H. ok_inv. bool_hyps. subst prev s. rewrite Wn, Ws.
    case_decide as Hw; cbn in Hw; [|lia]. cbn [nested span fst snd]. split_and!; [lia|lia|done|lia].
Qed.

End validation.

Lemma extent_check_Ok sh lo hi : lo <= hi ->
  mfold (fun _ i => n ← rd sh i; throw_if (n <? 1) NVCV_ERROR_INVALID_ARGUMENT (Ok tt)) (zrange lo hi) tt = Ok tt ->
  forall k, lo <= k < hi -> exists n, rd sh k = Ok n /\ 0 < n.
Proof.
  intros Hle. remember (Z.to_nat (hi - lo)) as m eqn:Em. revert lo Hle Em.
  induction m as [|m IH]; intros lo Hle Em H k Hk; [lia|].
  rewrite zrange_cons in H by lia. cbn [mfold] in H. ok_inv. bool_hyps. destruct x.
  destruct (decide (k = lo)) as [->|]; [eexists; split; [done|lia]|].
  apply (IH (lo + 1)); [lia|lia|done|lia].
Qed.

(** C36: a buffer that passes the validation holds separate elements. When the
    extents and strides fit an [int], and the innermost extent is not 1 or its
    stride is at least the element's size (the validation does not look at the
    stride of an extent of 1), the elements of an accepted tensor do not overlap. *)
Theorem accepted_elements_separate td es :
  valid_td td -> int_dims td -> DataType.strideBytes (dtype td) = Ok es -> 0 <= es ->
  ValidateTensorBufferStrided td = Ok tt ->
  (forall n s, rd (shape td) (td_rank td - 1) = Ok n -> rd (strides (buffer td)) (td_rank td - 1) = Ok s -> 1 < n \/ es <= s) ->
  spaced es (offs (dims td)) /\ Forall (fun n => 0 < n) (extents (dims td)).
Proof.
  intros V HI Hes He H Hlast. unfold ValidateTensorBufferStrided in H. ok_inv. bool_hyps.
  destruct x. pose proof (extent_check_Ok (shape td) 0 (td_rank td) ltac:(lia) ltac:(eassumption)) as HX.
  assert (Forall (fun n => 0 < n) (extents (dims td))) as HP.
  { apply Forall_lookup. intros k n Hk. unfold extents in Hk. rewrite list_lookup_fmap in Hk.
    destruct (dims td !! k) as [[n' s']|] eqn:E; [|done]. injection Hk as <-.
    pose proof (lookup_lt_Some _ _ _ E) as Hl. rewrite length_dims in Hl by done.
    destruct (HX (Z.of_nat k)) as (n & Hn & Hp); [lia|].
    destruct (dims_lookup td (Z.of_nat k) V) as (n2 & s2 & E2 & Hn2 & _); [lia|].
    rewrite Nat2Z.id, E in E2. simplify_eq. cbn. congruence. }
  split; [|done].
  destruct (dim_ints td V HI HP (td_rank td - 1)) as (nl & sl & Hn & Hs & Ei & Hpos & Wn & Ws); [lia|].
  specialize (Hlast nl sl Hn Hs).
  repeat match goal with
  | H1 : rd (shape td) (td_rank td - 1) = Ok ?a |- _ => rewrite Hn in H1; injection H1 as <-
  | H1 : rd (strides (buffer td)) (td_rank td - 1) = Ok ?a |- _ => rewrite Hs in H1; injection H1 as <-
  end.
  set (fp := if (_ : bool) then _ else _) in *. assert (0 <= fp <= td_rank td - 1) as Hfp by (unfold fp; case_match; lia).
  rewrite rev_zrange_snoc in H6 by lia. cbn [mfold] in H6. apply bind_Ok in H6 as (p1 & Hp1 & Hp2).
  apply (last_step_room td es V HI HP Hes) in Hp1; [|lia|done..].
  apply (mfold_down_inv _ (room td es)) in Hp2; [|lia|done|].
  2:{ intros i t t' Hi. apply (packed_step_room td es V HI HP Hes). lia. }
  apply (mfold_down_inv _ (room td es)) in H7; [|lia|done|].
  2:{ intros i t t' Hi. apply (pitch_step_room td es V HI HP). lia. }
  destruct H7 as [HN _]. rewrite inner_0 in HN. rewrite <- offs_filter. by apply nested_offs.
Qed.

(** ** Created tensors *)

Lemma drop_row_dims es al fp d l k : drop k (row_dims es al fp d l) = row_dims es al fp (d + Z.of_nat k) (drop k l).
Proof.
  revert d l. induction k as [|k IH]; intros d l; [by rewrite !drop_0, Z.add_0_r|].
  destruct l as [|n [|m l]]; [done|rewrite !drop_ge by (cbn; lia); done|]. rewrite row_dims_cons. cbn zeta. cbn [drop].
  rewrite IH. f_equal. lia.
Qed.

Section created.
  Context (td : NVCVTensorData) (es al fp : Z) (l : list Z).
  Context (V : valid_td td) (ED : dims td = row_dims es al fp 0 l) (HF : Forall (fun n => 0 < n) l).
  Context (He : 1 <= es) (Ha : 0 < al) (HB : span es (dims td) < 2 ^ 31) (Hr : 1 <= td_rank td).
  Context (Hes : DataType.strideBytes (dtype td) = Ok es).

(** The bytes spanned by the dimensions from [k] on. *)
Definition span_at (k : Z) : Z := span es (inner td k).

Lemma created_nested k : nested es (inner td k).
Proof using All. unfold inner. rewrite ED, drop_row_dims. apply row_dims_nested; [lia|lia|by apply Forall_drop]. Qed.

Lemma created_dim k : 0 <= k < td_rank td -> exists n s,
  rd (shape td) k = Ok n /\ rd (strides (buffer td)) k = Ok s
  /\ 0 < n /\ span_at k = n * s /\ span_at (k + 1) <= s
  /\ (k = td_rank td - 1 -> s = es) /\ (fp <= k -> s = span_at (k + 1)).
Proof using All.
  intros Hk. destruct (dims_lookup td k V Hk) as (n & s & E & Hn & Hs & Ei). exists n, s.
  pose proof (created_nested k) as HN. rewrite Ei in HN. destruct HN as (Hp & Hsp & _).
  unfold span_at. rewrite Ei. split_and!; [done..| |]; revert Ei; unfold inner; rewrite ED, !drop_row_dims.
  - intros Ei ->. assert (length (drop (Z.to_nat (td_rank td - 1)) l) = 1%nat) as El1.
    { pose proof (length_dims td V) as El. rewrite ED in El. unfold row_dims in El.
      rewrite length_zip_with, length_row_strides in El. rewrite length_drop. lia. }
    destruct (drop _ l) as [|x [|y l']]; [done| |done]. cbn in Ei. by injection Ei as _ ->.
  - intros Ei Hfp. rewrite Z2Nat.id, Z.add_0_l in Ei by lia. rewrite Z2Nat.id, Z.add_0_l by lia.
    replace (Z.to_nat (k + 1)) with (S (Z.to_nat k)) in * by lia.
    rewrite <- (Nat.add_1_r (Z.to_nat k)), <- drop_drop in *.
    destruct (drop (Z.to_nat k) l) as [|x [|y l']]; [done| |].
    + cbn in Ei. by injection Ei as _ ->.
    + rewrite row_dims_cons in Ei. cbn zeta in Ei. injection Ei as _ Es _.
      rewrite (proj2 (Z.eqb_neq k (fp - 1))) in Es by lia. by rewrite <- Es.
Qed.

Lemma span_at_bounds k : 0 <= k <= td_rank td -> es <= span_at k < 2 ^ 31.
Proof using All.
  intros Hk. split.
  - assert (forall m, 0 <= m -> m <= td_rank td -> es <= span_at (td_rank td - m)) as HL.
    { apply (natlike_ind (fun m => m <= td_rank td -> es <= span_at (td_rank td - m))).
      - intros _. rewrite Z.sub_0_r. unfold span_at. rewrite inner_rank by done. cbn. lia.
      - intros m Hm IH Hm2. destruct (created_dim (td_rank td - Z.succ m)) as (n & s & _ & _ & Hp & -> & Hs & _); [lia|].
        replace (td_rank td - Z.succ m + 1) with (td_rank td - m) in Hs by lia. specialize (IH ltac:(lia)). nia. }
    replace k with (td_rank td - (td_rank td - k)) by lia. apply HL; lia.
  - assert (forall m, 0 <= m -> m <= td_rank td -> span_at m < 2 ^ 31) as HL; [|apply HL; lia].
    apply (natlike_ind (fun m => m <= td_rank td -> span_at m < 2 ^ 31)).
    + intros _. unfold span_at. by rewrite inner_0.
    + intros m Hm IH Hm2. destruct (created_dim m) as (n & s & _ & _ & Hp & E & Hs & _); [lia|].
      rewrite E in IH. specialize (IH ltac:(lia)). rewrite <- Z.add_1_r.
      pose proof (span_nonneg es _ ltac:(lia) (created_nested (m + 1))) as H0. fold (span_at (m + 1)) in H0. nia.
Qed.

(** A dimension fits an [int]. *)
Lemma created_ints n s k : 0 <= k <= td_rank td -> 0 < n -> span_at k = n * s -> es <= s -> i32 n = n /\ i32 s = s.
Proof using All.
  intros Hk Hn E Hs. pose proof (span_at_bounds k Hk) as Hb. rewrite E in Hb. split; apply wraps_small; unfold in_s; nia.
Qed.

Lemma packed_step_ok k prev : 0 <= k < td_rank td -> fp <= k ->
  ((k = td_rank td - 1 /\ (forall n s, rd (shape td) k = Ok n -> rd (strides (buffer td)) k = Ok s -> prev = (i32 s, i32 n)))
   \/ prev.1 * prev.2 = span_at (k + 1)) ->
  exists prev', packed_step td prev k = Ok prev' /\ prev'.1 * prev'.2 = span_at k.
Proof using All.
  intros Hk Hfp Hprev. destruct (created_dim k Hk) as (n & s & Hn & Hs & Hp & Esp & Hle & Hl & Ht). specialize (Ht Hfp).
  pose proof (span_at_bounds (k + 1) ltac:(lia)) as Hb1.
  destruct (created_ints n s k) as [Wn Ws]; [lia|done|done|lia|].
  unfold packed_step. rewrite Hn, Hs. cbn [mbind outcome_bind]. destruct (Z.leb_spec n 1).
  - assert (n = 1) as -> by lia. exists prev. split; [done|]. rewrite Esp, Z.mul_1_l.
    destruct Hprev as [[_ HE]| ->]; [|lia]. rewrite (HE _ _ Hn Hs). cbn [fst snd]. rewrite Wn, Ws. lia.
  - assert ((if k =? td_rank td - 1 then noexcept (DataType.strideBytes (dtype td)) else int32 (prev.1 * prev.2)) = Ok s) as ->.
    { destruct (Z.eqb_spec k (td_rank td - 1)) as [E|]; [rewrite Hes; cbn; f_equal; symmetry; by apply Hl|].
      destruct Hprev as [[? _]| ->]; [done|]. rewrite int32_ok by (unfold in_s; lia). by rewrite <- Ht. }
    cbn [mbind outcome_bind]. rewrite Z.eqb_refl. cbn [negb throw_if]. rewrite Wn, Ws.
    eexists. split; [done|]. cbn [fst snd]. lia.
Qed.

Lemma pitch_step_ok k prev : 0 <= k < td_rank td -> 0 <= prev.1 * prev.2 <= span_at (k + 1) ->
  exists prev', pitch_step td prev k = Ok prev' /\ 0 <= prev'.1 * prev'.2 <= span_at k.
Proof using All.
  intros Hk Hprev. destruct (created_dim k Hk) as (n & s & Hn & Hs & Hp & Esp & Hle & _ & _).
  pose proof (span_at_bounds (k + 1) ltac:(lia)) as Hb1.
  destruct (created_ints n s k) as [Wn Ws]; [lia|done|done|lia|].
  unfold pitch_step. rewrite Hn, Hs. cbn [mbind outcome_bind]. destruct (Z.leb_spec n 1).
  - assert (n = 1) as -> by lia. exists prev. split; [done|]. lia.
  - rewrite int32_ok by (unfold in_s; lia). cbn [mbind outcome_bind]. rewrite (proj2 (Z.ltb_ge s _)) by lia. cbn [throw_if].
    rewrite Wn, Ws. eexists. split; [done|]. cbn [fst snd]. nia.
Qed.

Lemma created_loops : 0 <= fp <= td_rank td - 1 -> exists n s prev prev',
  rd (shape td) (td_rank td - 1) = Ok n /\ rd (strides (buffer td)) (td_rank td - 1) = Ok s
  /\ mfold (packed_step td) (rev (zrange fp (td_rank td))) (i32 s, i32 n) = Ok prev
  /\ mfold (pitch_step td) (rev (zrange 0 fp)) prev = Ok prev'.
Proof using All.
  intros Hfp. destruct (created_dim (td_rank td - 1)) as (n & s & Hn & Hs & _); [lia|]. exists n, s.
  destruct (packed_step_ok (td_rank td - 1) (i32 s, i32 n)) as (p1 & E1 & H1); [lia|lia| |].
  { left. split; [done|]. intros n' s' Hn' Hs'. congruence. }
  destruct (mfold_down (packed_step td) (fun k p => p.1 * p.2 = span_at k) fp (td_rank td - 1) p1) as (p2 & E2 & H2);
    [lia|done| |].
  { intros i p Hi Hp. apply packed_step_ok; [lia|lia|by right]. }
  pose proof (span_at_bounds fp ltac:(lia)).
  destruct (mfold_down (pitch_step td) (fun k p => 0 <= p.1 * p.2 <= span_at k) 0 fp p2) as (p3 & E3 & _); [lia|lia| |].
  { intros i p Hi Hp. apply pitch_step_ok; [lia|done]. }
  exists p2, p3. split_and!; [done..| |done]. rewrite rev_zrange_snoc by lia. cbn [mfold]. by rewrite E1.
Qed.

Lemma extent_check_ok hi : 0 <= hi <= td_rank td ->
  mfold (fun _ i => n ← rd (shape td) i; throw_if (n <? 1) NVCV_ERROR_INVALID_ARGUMENT (Ok tt)) (zrange 0 hi) tt = Ok tt.
Proof using All.
  intros Hhi. destruct (mfold_zrange (fun _ i => n ← rd (shape td) i; throw_if (n <? 1) NVCV_ERROR_INVALID_ARGUMENT (Ok tt))
    (fun _ _ => True) 0 hi tt) as ([] & E & _); [lia|done| |done].
  intros i [] Hi _. destruct (created_dim i) as (n & s & Hn & _ & Hp & _); [lia|].
  exists tt. rewrite Hn. cbn [mbind outcome_bind]. by rewrite (proj2 (Z.ltb_ge n 1)) by lia.
Qed.

Lemma created_validates c :
  bufferType td = NVCV_TENSOR_BUFFER_STRIDED_CUDA -> basePtr (buffer td) <> 0 -> IsChannelLast (layout td) = Ok c ->
  fp = (if c then Z.max 0 (td_rank td - 2) else td_rank td - 1) -> ValidateTensorBufferStrided td = Ok tt.
Proof using All.
  intros Hb Hp Hc Efp. destruct created_loops as (n & s & prev & prev' & Hn & Hst & E1 & E2); [rewrite Efp; destruct c; lia|].
  unfold ValidateTensorBufferStrided. rewrite bool_decide_eq_true_2 by done. cbn [nvcv_assert].
  rewrite (proj2 (Z.eqb_neq _ 0) Hp), (proj2 (Z.leb_gt (td_rank td) 0)) by lia. cbn [throw_if].
  rewrite (extent_check_ok (td_rank td)) by lia. cbn [mbind outcome_bind]. rewrite Hc. cbn [mbind outcome_bind].
  rewrite <- Efp, Hst, Hn. cbn [mbind outcome_bind]. rewrite E1. cbn [mbind outcome_bind]. by rewrite E2.
Qed.

End created.

Lemma exported_valid dt L r l us rs u ba m buf : 0 <= r <= NVCV_TENSOR_MAX_RANK -> Forall (fun n => 0 < n) l ->
  length l = Z.to_nat r -> length rs = length l -> length us = 15%nat -> length u = 15%nat ->
  valid_td (exportData (mkTensor (mkTensorReqs dt L r (l ++ drop (Z.to_nat r) us) (rs ++ drop (Z.to_nat r) u) ba m) buf)).
Proof.
  unfold NVCV_TENSOR_MAX_RANK. intros Hr HF El Ers Eu1 Eu2. unfold valid_td, exportData.
  cbn [m_reqs tr_rank tr_shape tr_strides td_rank shape buffer strides m_memBuffer]. split_and!.
  - lia.
  - unfold NVCV_TENSOR_MAX_RANK. lia.
  - rewrite length_app, length_drop. lia.
  - rewrite length_app, length_drop. lia.
  - rewrite <- El, take_app_length. eapply Forall_impl; [exact HF|cbn; lia].
Qed.

(** C37: what the library creates can be wrapped. The data exported by a created
    tensor passes the validation of wrapped buffers and comes back unchanged,
    if its buffer is smaller than 2 GB, and its layout ends in C exactly when
    it ends in WC (creation pads rows by the second criterion, the validation
    takes them as packed by the first). *)
Theorem created_tensor_wraps dev undef r sh dt L uba ura es buf c :
  valid_request dev undef r sh dt L uba ura es -> buf <> 0 ->
  IsChannelLast L = Ok c -> (c = ends_in_WC L \/ r = 1) ->
  exists reqs total, CalcRequirements dev undef r sh dt L uba ura = Ok reqs
  /\ AllocateBuffer_args reqs = Ok (total, alignBytes reqs)
  /\ let td := exportData (mkTensor reqs buf) in (total < 2 ^ 31 -> nvcvTensorWrapData td = Ok td).
Proof.
  intros V Hbuf Hc Hwc. pose proof (CalcRequirements_ok _ _ _ _ _ _ _ _ _ V) as HC. cbn zeta in HC.
  set (l := take (Z.to_nat r) sh) in *.
  destruct HC as (ra & ba & fp & cuda & Pra & Pba & Hdv & Era & Efp & HA & Hs0 & Hs & HC).
  destruct V as [_ [U1 U2] [Hr Hl] _ HF (Hes & He & _) _ _]. fold l in HF.
  pose proof (is_pow2_bounds _ Pra). pose proof (is_pow2_bounds _ Pba).
  eexists _, (round_up _ ba). split; [exact HC|]. unfold AllocateBuffer_args. cbn [mem cudaMem alignBytes].
  erewrite AddBuffer_zero_total by done. split; [done|]. cbn zeta. intros Ht.
  assert (length l = Z.to_nat r) as El by (unfold l; rewrite length_take; lia).
  set (rs := row_strides es ra fp 0 l) in *. set (td := exportData _).
  assert (valid_td td) as Vt by (apply exported_valid; [lia|done|done|by apply length_row_strides|done|done]).
  assert (dims td = row_dims es ra fp 0 l) as Ed by (apply dims_written; [done|by apply length_row_strides]).
  destruct (RoundUp_spec _ ba Hs0) as [? _]; [lia|].
  unfold nvcvTensorWrapData, TensorWrapDataStrided. change (bufferType td) with NVCV_TENSOR_BUFFER_STRIDED_CUDA. cbn match.
  rewrite (created_validates td es ra fp l Vt Ed HF) with (c := c); try done; try lia; change (td_rank td) with r.
  - rewrite Ed. lia.
  - lia.
  - rewrite Efp. destruct Hwc as [-> | ->]; [done|]. by destruct c, (ends_in_WC L).
Qed.

(** The tensor of the example above, wrapped again. *)
Lemma created_tensor_wraps_witness :
  exists reqs, CalcRequirements device0 undef0 4 [2; 3; 5; 3] U8 NVCV_TENSOR_NHWC 0 0 = Ok reqs
  /\ nvcvTensorWrapData (exportData (mkTensor reqs 4096)) = Ok (exportData (mkTensor reqs 4096)).
Proof.
  destruct (created_tensor_wraps device0 undef0 4 [2; 3; 5; 3] U8 NVCV_TENSOR_NHWC 0 0 1 4096 true small_request_valid)
    as (reqs & total & HC & Ht & HW); [discriminate|reflexivity|left; vm_compute; reflexivity|].
  exists reqs. split; [exact HC|]. apply HW.
  assert (total = 512) as ->; [|reflexivity].
  revert Ht. assert (HC' := HC). vm_compute in HC'. injection HC' as <-. vm_compute. intros Ht. injection Ht as <-. reflexivity.
Defined.
Definition wrapped (L : NVCVTensorLayout) (sh st : list Z) : NVCVTensorData :=
  mkTensorData U8 L (Z.of_nat (length sh)) (pad15 0 sh) NVCV_TENSOR_BUFFER_STRIDED_CUDA
    (mkTensorBuffer (pad15 0 st) 4096).

(** When the innermost extent is 1 its stride is not compared with the element:
    elements that all lie at the same address are accepted. *)
Lemma overlapping_elements_accepted :
  ValidateTensorBufferStrided (wrapped (NVCV_TENSOR_LAYOUT_MAKE "HW") [4; 1] [0; 0]) = Ok tt.
Proof. vm_compute. done. Qed.

(** The layout of a wrapped tensor may have more labels than the tensor dimensions. *)
Lemma layout_rank_unchecked :
  ValidateTensorBufferStrided (wrapped NVCV_TENSOR_NHWC [4] [1]) = Ok tt.
Proof. vm_compute. done. Qed.

(** A tensor laid out "NHC" is created with padded rows, which the validation of the
    exported data then refuses: it takes every layout that ends in C as packed. *)
Lemma created_tensor_not_wrappable :
  let td := reqs ← CalcRequirements device0 undef0 3 [2; 5; 3] U8 (NVCV_TENSOR_LAYOUT_MAKE "NHC") 0 0; Ok (exportData (mkTensor reqs 4096)) in
  dims <$> td = Ok [(2, 160); (5, 32); (3, 1)] /\ (td ≫= ValidateTensorBufferStrided) = Throw NVCV_ERROR_INVALID_ARGUMENT.
Proof. vm_compute. done. Qed.

Lemma unlabelled_tensor_not_wrappable :
  let td := reqs ← CalcRequirements device0 undef0 2 [5; 3] U8 NVCV_TENSOR_NONE 0 0; Ok (exportData (mkTensor reqs 4096)) in
  dims <$> td = Ok [(5, 32); (3, 1)] /\ (td ≫= ValidateTensorBufferStrided) = Throw NVCV_ERROR_INVALID_ARGUMENT.
Proof. vm_compute. done. Qed.

(** Two images with padded rows. *)
Lemma accepted_elements_separate_witness :
  let td := wrapped NVCV_TENSOR_NHWC [2; 3; 5; 3] [100; 32; 3; 1] in
  ValidateTensorBufferStrided td = Ok tt /\ spaced 1 (offs (dims td)).
Proof.
  split; [vm_compute; reflexivity|].
  apply (accepted_elements_separate (wrapped NVCV_TENSOR_NHWC [2; 3; 5; 3] [100; 32; 3; 1]) 1);
    [vm_compute; repeat constructor; discriminate|repeat constructor; vm_compute; (discriminate || reflexivity)
    |vm_compute; reflexivity|discriminate|vm_compute; reflexivity|].
  intros n s Hn Hs. vm_compute in Hn. injection Hn as <-. by left.
Defined.
