(* ===== verification/Image.v ===== *)
(** * Images (priv/Image.cpp, FillTensorData of priv/TensorData.cpp)

    The planes of an image in one buffer, the validation of wrapped planes, and
    the tensor an image is seen as. The attributes of the device are arguments,
    as for tensors. *)
From S2P Require Import Prelude Allocators MathUtil Requirements DataLayout FormatCode ImageFormat Predefined TensorLayout Strides TensorData Tensor.
From stdpp Require Import options.

#[local] Open Scope Z_scope.

(** ** Data *)

Definition NVCV_MAX_PLANE_COUNT : Z := 6.

Record NVCVImagePlaneStrided := mkPlane { width : Z; height : Z; rowStride : Z; plane_basePtr : Z }.

#[global] Instance NVCVImagePlaneStrided_eq_dec : EqDecision NVCVImagePlaneStrided.
Proof. solve_decision. Defined.

(** [planes]: the elements of the array that were written, from the first. *)
Record NVCVImageBufferStrided := mkImageBuffer { numPlanes : Z; planes : list NVCVImagePlaneStrided }.

Inductive NVCVImageBufferType :=
| NVCV_IMAGE_BUFFER_NONE
| NVCV_IMAGE_BUFFER_STRIDED_CUDA
| NVCV_IMAGE_BUFFER_STRIDED_HOST
| NVCV_IMAGE_BUFFER_CUDA_ARRAY.

#[global] Instance NVCVImageBufferType_eq_dec : EqDecision NVCVImageBufferType.
Proof. solve_decision. Defined.

(** Of the union of buffers the library reads the strided one only. *)
Record NVCVImageData := mkImageData {
  format : Z; img_bufferType : NVCVImageBufferType; strided_buffer : NVCVImageBufferStrided }.

Record NVCVImageRequirements := mkImageReqs {
  ir_width : Z; ir_height : Z; ir_format : Z;
  planeRowStride : list Z; ir_alignBytes : Z; ir_mem : NVCVRequirements }.

(** ** Requirements *)

(** The loop that is to make the row alignment fit the planes declares a variable
    of the same name; nothing of what it computes is left but its failures. *)
Definition plane_alignment_loop (fmt userRowAlign : Z) : outcome unit :=
  mfold (fun _ p =>
      a ← noexcept (if userRowAlign =? 0 then planePixelStrideBytes fmt p else planeRowAlignment fmt p);
      _ ← int32 (Z.lcm a a); Ok tt)
    (zrange 0 (ImageFormat.numPlanes fmt)) tt.

Definition image_rowAlign (dev : device) (fmt userRowAlign : Z) : outcome Z :=
  rowAlign ← (if userRowAlign =? 0 then Ok (texturePitchAlignment dev)
              else throw_if (negb (IsPowerOfTwo userRowAlign)) NVCV_ERROR_INVALID_ARGUMENT (Ok userRowAlign));
  _ ← plane_alignment_loop fmt userRowAlign;
  Ok (i32 (RoundUpNextPowerOfTwo 32 rowAlign)).

Definition image_baseAlign (dev : device) (rowAlign userBaseAlign : Z) : outcome Z :=
  baseAlign ← (if userBaseAlign =? 0 then Ok (textureAlignment dev)
               else throw_if (negb (IsPowerOfTwo userBaseAlign)) NVCV_ERROR_INVALID_ARGUMENT (Ok userBaseAlign));
  baseAlign ← int32 (Z.lcm baseAlign rowAlign);
  throw_if (NVCV_MAX_MEM_REQUIREMENTS_BLOCK_SIZE <? baseAlign) NVCV_ERROR_INVALID_ARGUMENT (Ok baseAlign).

(** One plane: its row stride, an [int32_t], is appended, its memory added. *)
Definition plane_req_step (fmt : Z) (size : Size2D) (rowAlign baseAlign : Z)
    (st : list Z * NVCVMemRequirements) (p : Z) : outcome (list Z * NVCVMemRequirements) :=
  planeSize ← ImageFormat.planeSize fmt size p;
  nvcv_assert (p <? NVCV_MAX_PLANE_COUNT) (
  s ← noexcept (planePixelStrideBytes fmt p);
  row ← int64 (w planeSize * s);
  stride ← round_up64 row rowAlign;
  let stride := i32 stride in
  bytes ← int64 (stride * h planeSize);
  cuda ← AddBuffer st.2 bytes baseAlign;
  Ok (st.1 ++ [stride], cuda)).

Definition CalcRequirements (dev : device) (size : Size2D) (fmt userBaseAlign userRowAlign : Z)
    : outcome NVCVImageRequirements :=
  rowAlign ← image_rowAlign dev fmt userRowAlign;
  baseAlign ← image_baseAlign dev rowAlign userBaseAlign;
  '(strides, cuda) ← mfold (plane_req_step fmt size rowAlign baseAlign)
                        (zrange 0 (ImageFormat.numPlanes fmt)) ([], cudaMem Init);
  Ok (mkImageReqs (w size) (h size) fmt strides baseAlign (mkRequirements cuda (hostMem Init) (hostPinnedMem Init))).

(** ** Images *)

Record Image := mkImage { im_reqs : NVCVImageRequirements; im_memBuffer : Z }.

Definition AllocateBuffer_args (reqs : NVCVImageRequirements) : outcome (Z * Z) :=
  throw_if (negb (ImageFormat.memLayout (ir_format reqs) =? NVCV_MEM_LAYOUT_PL)) NVCV_ERROR_NOT_IMPLEMENTED (
  bufSize ← CalcTotalSizeBytes (cudaMem (ir_mem reqs)); Ok (bufSize, ir_alignBytes reqs)).

Definition export_step (img : Image) (st : list NVCVImagePlaneStrided * Z) (p : Z)
    : outcome (list NVCVImagePlaneStrided * Z) :=
  planeSize ← ImageFormat.planeSize (ir_format (im_reqs img)) (mkSize2D (ir_width (im_reqs img)) (ir_height (im_reqs img))) p;
  stride ← rd (planeRowStride (im_reqs img)) p;
  bytes ← int64 (h planeSize * stride);
  next ← int64 (st.2 + bytes);
  Ok (st.1 ++ [mkPlane (w planeSize) (h planeSize) stride (im_memBuffer img + st.2)], next).

Definition exportData (img : Image) : outcome NVCVImageData :=
  let fmt := ir_format (im_reqs img) in
  nvcv_assert (ImageFormat.memLayout fmt =? NVCV_MEM_LAYOUT_PL) (
  '(pl, planeOffsetBytes) ← mfold (export_step img) (zrange 0 (ImageFormat.numPlanes fmt)) ([], 0);
  total ← CalcTotalSizeBytes (cudaMem (ir_mem (im_reqs img)));
  nvcv_assert (planeOffsetBytes <=? total)
    (Ok (mkImageData fmt NVCV_IMAGE_BUFFER_STRIDED_CUDA (mkImageBuffer (ImageFormat.numPlanes fmt) pl)))).

(** ** Wrapped images *)

Definition plane_check (pl : list NVCVImagePlaneStrided) (_ : unit) (p : Z) : outcome unit :=
  plane ← rd pl p;
  throw_if ((width plane <? 1) || (height plane <? 1)) NVCV_ERROR_INVALID_ARGUMENT (
  throw_if (plane_basePtr plane =? 0) NVCV_ERROR_INVALID_ARGUMENT (Ok tt)).

Definition doValidateData (data : NVCVImageData) : outcome unit :=
  match img_bufferType data with
  | NVCV_IMAGE_BUFFER_STRIDED_CUDA =>
      let buf := strided_buffer data in
      throw_if (negb (ImageFormat.memLayout (format data) =? NVCV_MEM_LAYOUT_PL)) NVCV_ERROR_INVALID_ARGUMENT (
      throw_if (numPlanes buf <? 1) NVCV_ERROR_INVALID_ARGUMENT (
      mfold (plane_check (planes buf)) (zrange 0 (numPlanes buf)) tt))
  | _ => Throw NVCV_ERROR_INVALID_ARGUMENT
  end.

Definition ImageWrapData (data : NVCVImageData) : outcome NVCVImageData := _ ← doValidateData data; Ok data.

Definition ImageWrapData_size (m_data : NVCVImageData) : outcome Size2D :=
  match img_bufferType m_data with
  | NVCV_IMAGE_BUFFER_STRIDED_CUDA =>
      p ← rd (planes (strided_buffer m_data)) 0; Ok (mkSize2D (width p) (height p))
  | NVCV_IMAGE_BUFFER_NONE => Ok (mkSize2D 0 0)
  | _ => Stuck
  end.

(** ** The interface of images *)

Record IImage := mkIImage {
  img_size : outcome Size2D; img_format : Z; img_exportData : outcome NVCVImageData }.

Definition Image_IImage (img : Image) : IImage :=
  mkIImage (Ok (mkSize2D (ir_width (im_reqs img)) (ir_height (im_reqs img)))) (ir_format (im_reqs img)) (exportData img).

Definition ImageWrapData_IImage (m_data : NVCVImageData) : IImage :=
  mkIImage (ImageWrapData_size m_data) (format m_data) (Ok m_data).

(** ** The layout of the planes *)

(** Width, height and bytes per pixel of a plane. *)
Record plane_dim := mkPlaneDim { pw : Z; ph : Z; ps : Z }.

Definition plane_dim_of (fmt : Z) (size : Size2D) (p : Z) : outcome plane_dim :=
  sz ← ImageFormat.planeSize fmt size p; s ← planePixelStrideBytes fmt p; Ok (mkPlaneDim (w sz) (h sz) s).

(** The planes from [p] on. *)
Definition planes_from (fmt : Z) (size : Size2D) (p : Z) (P : list plane_dim) : Prop :=
  forall k d, P !! k = Some d -> plane_dim_of fmt size (p + Z.of_nat k) = Ok d.

Definition pitch (ra : Z) (d : plane_dim) : Z := round_up (pw d * ps d) ra.

(** A plane whose rows fit an [int]. *)
Definition plane_ok (ra : Z) (d : plane_dim) : Prop :=
  0 <= pw d < 2 ^ 31 /\ 0 <= ph d < 2 ^ 31 /\ 1 <= ps d <= 2 ^ 20 /\ pitch ra d < 2 ^ 31.

#[global] Instance plane_ok_dec ra d : Decision (plane_ok ra d).
Proof. unfold plane_ok. apply _. Defined.

(** The bytes of the planes, and of the blocks they take. *)
Definition planes_bytes (ra : Z) (P : list plane_dim) : Z := foldr (fun d acc => pitch ra d * ph d + acc) 0 P.
Definition planes_blocks (ra ba : Z) (P : list plane_dim) : Z := foldr (fun d acc => round_up (pitch ra d * ph d) ba + acc) 0 P.

(** The planes one after the other from an address on. *)
Fixpoint layout_planes (ra base : Z) (P : list plane_dim) : list NVCVImagePlaneStrided :=
  match P with
  | [] => []
  | d :: P => mkPlane (pw d) (ph d) (pitch ra d) base :: layout_planes ra (base + pitch ra d * ph d) P
  end.

Lemma planes_from_cons fmt size p d P : planes_from fmt size p (d :: P) <->
  plane_dim_of fmt size p = Ok d /\ planes_from fmt size (p + 1) P.
Proof.
  unfold planes_from. split.
  - intros H. split; [by rewrite <- (Z.add_0_r p); apply (H 0%nat)|].
    intros k e Hk. replace (p + 1 + Z.of_nat k) with (p + Z.of_nat (S k)) by lia. by apply H.
  - intros [H0 H] [|k] e Hk; [injection Hk as <-; by rewrite Z.add_0_r|].
    replace (p + Z.of_nat (S k)) with (p + 1 + Z.of_nat k) by lia. by apply H.
Qed.

Lemma plane_ok_pitch ra d : 0 < ra -> plane_ok ra d ->
  0 <= pw d * ps d <= pitch ra d /\ pitch ra d < 2 ^ 31 /\ (ra | pitch ra d) /\ pitch ra d < pw d * ps d + ra.
Proof.
  intros Ha (Hw & Hh & Hs & Hp). assert (0 <= pw d * ps d) as H0 by nia.
  destruct (RoundUp_spec (pw d * ps d) ra H0 Ha) as [? ?]. unfold pitch in *. split_and!; (done || lia).
Qed.

Lemma plane_req_step_ok fmt size ra kb rs memr p d :
  is_pow2 ra -> 0 <= kb < 32 -> plane_dim_of fmt size p = Ok d -> plane_ok ra d -> 0 <= p < NVCV_MAX_PLANE_COUNT ->
  valid_req memr -> req_size memr + round_up (pitch ra d * ph d) (2 ^ kb) < 2 ^ 63 ->
  exists memr', plane_req_step fmt size ra (2 ^ kb) (rs, memr) p = Ok (rs ++ [pitch ra d], memr')
  /\ valid_req memr' /\ req_size memr' = req_size memr + round_up (pitch ra d * ph d) (2 ^ kb).
Proof.
  intros Ha Hkb Hd Hok Hp V Hs. pose proof (is_pow2_bounds _ Ha) as Hra.
  destruct (plane_ok_pitch ra d ltac:(lia) Hok) as (H1 & H2 & _ & H3).
  pose proof Hok as (Hw & Hh & Hps & _). unfold plane_dim_of in Hd. ok_inv. subst d. cbn [pw ph ps] in *.
  unfold plane_req_step. rewrite H. cbn [mbind outcome_bind]. rewrite (proj2 (Z.ltb_lt p _)) by lia. cbn [nvcv_assert].
  rewrite H0. cbn [noexcept mbind outcome_bind]. rewrite int64_ok by (unfold in_s; lia). cbn [mbind outcome_bind].
  unfold round_up64. rewrite (proj2 (Z.leb_le 0 _)), (proj2 (Z.leb_le 0 ra)), is_pow2_IsPowerOfTwo by (done || lia).
  cbn [andb nvcv_assert]. rewrite int64_ok by (unfold in_s; lia). cbn [mbind outcome_bind].
  rewrite RoundUpPowerOfTwo_RoundUp by first [lia|by apply is_pow2_IsPowerOfTwo].
  set (d := mkPlaneDim (w x) (h x) x0) in *. change (round_up (w x * x0) ra) with (pitch ra d).
  rewrite wraps_small by (unfold in_s; lia). rewrite int64_ok by (unfold in_s; nia). cbn [mbind outcome_bind snd fst].
  destruct (AddBuffer_size memr (pitch ra d * h x) kb V Hkb) as (m' & E & V' & E'); [nia|done|].
  rewrite E. cbn [mbind outcome_bind]. by exists m'.
Qed.

Lemma planes_blocks_nonneg ra ba P : 0 < ra -> 0 < ba -> Forall (plane_ok ra) P -> 0 <= planes_blocks ra ba P.
Proof.
  intros Ha Hb. unfold planes_blocks. induction 1 as [|d P Hd _ IH]; cbn [foldr]; [done|].
  destruct (plane_ok_pitch ra d Ha Hd) as (H1 & _). destruct Hd as (_ & Hh & _).
  destruct (RoundUp_spec (pitch ra d * ph d) ba) as [? _]; [nia|done|]. nia.
Qed.

Lemma plane_req_loop fmt size ra kb P rs memr p n :
  is_pow2 ra -> 0 <= kb < 32 -> Forall (plane_ok ra) P -> planes_from fmt size p P -> 0 <= p ->
  n = p + Z.of_nat (length P) -> n <= NVCV_MAX_PLANE_COUNT ->
  valid_req memr -> req_size memr + planes_blocks ra (2 ^ kb) P < 2 ^ 63 ->
  exists memr', mfold (plane_req_step fmt size ra (2 ^ kb)) (zrange p n) (rs, memr) = Ok (rs ++ map (pitch ra) P, memr')
  /\ valid_req memr' /\ req_size memr' = req_size memr + planes_blocks ra (2 ^ kb) P.
Proof.
  intros Ha Hkb HF. pose proof (is_pow2_bounds _ Ha). revert rs memr p n. induction HF as [|d P Hd HF IH]; intros rs memr p n HP Hp En Hn V Hs.
  - cbn in En. unfold zrange. replace (n - p) with 0 by lia. cbn. rewrite app_nil_r. exists memr. split_and!; (done || lia).
  - apply planes_from_cons in HP as [H0 HP]. cbn [length] in En.
    pose proof (planes_blocks_nonneg ra (2 ^ kb) P ltac:(lia) ltac:(apply Z.pow_pos_nonneg; lia) HF) as Hnn.
    change (planes_blocks ra (2 ^ kb) (d :: P)) with (round_up (pitch ra d * ph d) (2 ^ kb) + planes_blocks ra (2 ^ kb) P) in *.
    rewrite zrange_cons by lia. cbn [mfold].
    destruct (plane_req_step_ok fmt size ra kb rs memr p d) as (m1 & -> & V1 & E1); [done..|lia|done|lia|].
    cbn [mbind outcome_bind]. destruct (IH (rs ++ [pitch ra d]) m1 (p + 1) n) as (m2 & -> & V2 & E2); [done|lia|lia|done|done|lia|].
    exists m2. rewrite <- app_assoc. split_and!; (done || lia).
Qed.

Lemma planes_bytes_nonneg ra P : 0 < ra -> Forall (plane_ok ra) P -> 0 <= planes_bytes ra P.
Proof.
  intros Ha. unfold planes_bytes. induction 1 as [|e P He _ IH]; cbn [foldr]; [done|].
  destruct (plane_ok_pitch ra e Ha He) as (? & _). destruct He as (_ & ? & _). nia.
Qed.

(** The requirements of an image of this format and size, with these row strides. *)
Definition reqs_for (img : Image) (fmt : Z) (size : Size2D) : Prop :=
  ir_format (im_reqs img) = fmt /\ ir_width (im_reqs img) = w size /\ ir_height (im_reqs img) = h size.

Lemma export_step_ok fmt size ra img pl off p d :
  0 < ra -> reqs_for img fmt size -> plane_ok ra d -> plane_dim_of fmt size p = Ok d -> 0 <= p ->
  planeRowStride (im_reqs img) !! Z.to_nat p = Some (pitch ra d) -> 0 <= off -> off + pitch ra d * ph d < 2 ^ 63 ->
  export_step img (pl, off) p
  = Ok (pl ++ [mkPlane (pw d) (ph d) (pitch ra d) (im_memBuffer img + off)], off + pitch ra d * ph d).
Proof.
  intros Ha (Ef & Ew & Eh) Hd H0 Hp Hl Ho Hs. destruct (plane_ok_pitch ra d Ha Hd) as (H1 & H2 & _).
  pose proof Hd as (_ & Hh & _). unfold export_step. rewrite Ef, Ew, Eh.
  replace (mkSize2D (w size) (h size)) with size by by destruct size.
  unfold plane_dim_of in H0. ok_inv. rewrite H. cbn [mbind outcome_bind].
  rewrite (proj2 (rd_Ok _ p _)) by (split; [lia|exact Hl]). cbn [mbind outcome_bind snd fst].
  assert (pw d = w x /\ ph d = h x) as [Epw Eph] by (by subst d). rewrite <- Epw, <- Eph.
  rewrite int64_ok by (unfold in_s; nia). cbn [mbind outcome_bind]. rewrite int64_ok by (unfold in_s; nia).
  cbn [mbind outcome_bind]. by rewrite (Z.mul_comm (ph d)).
Qed.

Lemma export_loop fmt size ra P img pl off p n :
  0 < ra -> reqs_for img fmt size -> Forall (plane_ok ra) P -> planes_from fmt size p P -> 0 <= p ->
  n = p + Z.of_nat (length P) -> drop (Z.to_nat p) (planeRowStride (im_reqs img)) = map (pitch ra) P ->
  0 <= off -> off + planes_bytes ra P < 2 ^ 63 ->
  mfold (export_step img) (zrange p n) (pl, off)
  = Ok (pl ++ layout_planes ra (im_memBuffer img + off) P, off + planes_bytes ra P).
Proof.
  intros Ha HQ HF. revert pl off p n. induction HF as [|d P Hd HF IH]; intros pl off p n HP Hp En Hr Ho Hs.
  - cbn in En. unfold zrange. replace (n - p) with 0 by lia. cbn. by rewrite app_nil_r, Z.add_0_r.
  - apply planes_from_cons in HP as [H0 HP]. cbn [length] in En. cbn [map] in Hr.
    pose proof (planes_bytes_nonneg ra P Ha HF) as Hnn. destruct (plane_ok_pitch ra d Ha Hd) as (H1 & _).
    pose proof Hd as (_ & Hh & _).
    change (planes_bytes ra (d :: P)) with (pitch ra d * ph d + planes_bytes ra P) in *.
    rewrite zrange_cons by lia. cbn [mfold].
    assert (planeRowStride (im_reqs img) !! Z.to_nat p = Some (pitch ra d)) as Hl.
    { rewrite <- (Nat.add_0_r (Z.to_nat p)), <- lookup_drop, Hr. done. }
    rewrite (export_step_ok fmt size ra img pl off p d) by (done || lia).
    cbn [mbind outcome_bind layout_planes]. rewrite (IH _ _ (p + 1) n HP); [|lia|lia| |nia|nia].
    + rewrite <- app_assoc, !Z.add_assoc. done.
    + replace (Z.to_nat (p + 1)) with (Z.to_nat p + 1)%nat by lia. by rewrite <- drop_drop, Hr.
Qed.

(** ** Images that can be created *)

Definition row_align (dev : device) (ura : Z) : Z := if ura =? 0 then texturePitchAlignment dev else ura.
Definition base_align (dev : device) (uba ura : Z) : Z :=
  Z.lcm (if uba =? 0 then textureAlignment dev else uba) (row_align dev ura).

Record valid_image_request (dev : device) (size : Size2D) (fmt uba ura : Z) (P : list plane_dim) : Prop := {
  vi_dev : valid_device dev;
  vi_aligns : valid_align uba /\ valid_align ura;
  vi_layout : ImageFormat.memLayout fmt = NVCV_MEM_LAYOUT_PL;
  vi_planes : planes_from fmt size 0 P /\ Z.of_nat (length P) = ImageFormat.numPlanes fmt;
  vi_count : Z.of_nat (length P) <= NVCV_MAX_PLANE_COUNT;
  vi_rows : Forall (plane_ok (row_align dev ura)) P;
  vi_row_align : forall p, 0 <= p < ImageFormat.numPlanes fmt -> exists a, planeRowAlignment fmt p = Ok a /\ 0 <= a < 2 ^ 31;
  vi_size : planes_blocks (row_align dev ura) (base_align dev uba ura) P < 2 ^ 63 }.

Lemma plane_alignment_loop_ok dev size fmt uba ura P : valid_image_request dev size fmt uba ura P ->
  plane_alignment_loop fmt ura = Ok tt.
Proof.
  intros [_ _ _ [HP Hn] _ HF Ha _]. unfold plane_alignment_loop.
  destruct (mfold_zrange (fun (_ : unit) p =>
      a ← noexcept (if ura =? 0 then planePixelStrideBytes fmt p else planeRowAlignment fmt p);
      _ ← int32 (Z.lcm a a); Ok tt) (fun _ _ => True) 0 (ImageFormat.numPlanes fmt) tt) as ([] & E & _); [lia|done| |exact E].
  intros p [] Hp _. exists tt. split; [|done].
  assert (forall a, 0 <= a < 2 ^ 31 -> (_ ← int32 (Z.lcm a a); Ok tt) = Ok tt) as HL.
  { intros a Hb. rewrite Z.lcm_diag_nonneg, int32_ok by (unfold in_s; lia). done. }
  destruct (Z.eqb_spec ura 0).
  - destruct (lookup_lt_is_Some_2 P (Z.to_nat p)) as [d Hd]; [lia|]. pose proof (HP _ _ Hd) as E.
    rewrite Z.add_0_l, Z2Nat.id in E by lia. apply (proj1 (Forall_lookup _ _) HF) in Hd as (_ & _ & Hs & _).
    unfold plane_dim_of in E. ok_inv. subst d. cbn [ps] in Hs. rewrite H0. cbn [noexcept mbind outcome_bind]. apply HL. lia.
  - destruct (Ha p Hp) as (a & -> & Hb). cbn [noexcept mbind outcome_bind]. by apply HL.
Qed.

Lemma chosen_pow2 u d : is_pow2 d -> valid_align u ->
  is_pow2 (if u =? 0 then d else u)
  /\ (if u =? 0 then Ok d else throw_if (negb (IsPowerOfTwo u)) NVCV_ERROR_INVALID_ARGUMENT (Ok u))
     = Ok (if u =? 0 then d else u).
Proof.
  intros Hd [->|Hu]; [done|]. pose proof (is_pow2_bounds _ Hu). rewrite (proj2 (Z.eqb_neq u 0)) by lia.
  by rewrite is_pow2_IsPowerOfTwo.
Qed.

Lemma image_aligns_ok dev size fmt uba ura P : valid_image_request dev size fmt uba ura P ->
  is_pow2 (row_align dev ura) /\ is_pow2 (base_align dev uba ura)
  /\ image_rowAlign dev fmt ura = Ok (row_align dev ura)
  /\ image_baseAlign dev (row_align dev ura) uba = Ok (base_align dev uba ura).
Proof.
  intros V. pose proof (plane_alignment_loop_ok _ _ _ _ _ _ V) as EL. destruct V as [[Hp Ht] [Hb Ha] _ _ _ _ _ _].
  destruct (chosen_pow2 ura _ Hp Ha) as [Pr Er]. destruct (chosen_pow2 uba _ Ht Hb) as [Pb Eb].
  fold (row_align dev ura) in Pr, Er. destruct (is_pow2_lcm _ _ Pb Pr) as (Pl & _ & _). fold (base_align dev uba ura) in Pl.
  pose proof (is_pow2_bounds _ Pr). pose proof (is_pow2_bounds _ Pl). split_and!; [done..| |].
  - unfold image_rowAlign. rewrite Er. cbn [mbind outcome_bind]. rewrite EL. cbn [mbind outcome_bind].
    rewrite next_pow2_fixed by done. by rewrite wraps_small by (unfold in_s; lia).
  - unfold image_baseAlign. rewrite Eb. cbn [mbind outcome_bind]. fold (base_align dev uba ura).
    rewrite int32_ok by (unfold in_s; lia). cbn [mbind outcome_bind].
    assert (NVCV_MAX_MEM_REQUIREMENTS_BLOCK_SIZE = 2 ^ 32) as -> by done. by rewrite (proj2 (Z.ltb_ge _ _)) by lia.
Qed.

Lemma planes_bytes_blocks ra ba P : 0 < ra -> 0 < ba -> Forall (plane_ok ra) P ->
  planes_bytes ra P <= planes_blocks ra ba P /\ (ba | planes_blocks ra ba P).
Proof.
  intros Ha Hb. unfold planes_bytes, planes_blocks. induction 1 as [|d P Hd _ [I1 I2]]; cbn [foldr].
  { split; [done|apply Z.divide_0_r]. }
  destruct (plane_ok_pitch ra d Ha Hd) as (H1 & _). destruct Hd as (_ & Hh & _).
  destruct (RoundUp_spec (pitch ra d * ph d) ba) as [? ?]; [nia|done|]. split; [lia|]. by apply Z.divide_add_r.
Qed.

(** A plane of these dimensions: its rows hold its pixels and are aligned. *)
Definition plane_fits (ra : Z) (d : plane_dim) (q : NVCVImagePlaneStrided) : Prop :=
  width q = pw d /\ height q = ph d /\ pw d * ps d <= rowStride q < pw d * ps d + ra /\ (ra | rowStride q).

Definition plane_end (q : NVCVImagePlaneStrided) : Z := plane_basePtr q + height q * rowStride q.

(** The planes lie in [lo, hi), one after the other. *)
Fixpoint planes_within (lo hi : Z) (l : list NVCVImagePlaneStrided) : Prop :=
  match l with [] => lo <= hi | q :: l => lo <= plane_basePtr q /\ planes_within (plane_end q) hi l end.

Lemma layout_planes_fit ra P base : 0 < ra -> Forall (plane_ok ra) P ->
  Forall2 (plane_fits ra) P (layout_planes ra base P)
  /\ planes_within base (base + planes_bytes ra P) (layout_planes ra base P).
Proof.
  intros Ha HF. revert base. induction HF as [|d P Hd HF IH]; intros base; cbn [layout_planes].
  - split; [constructor|]. cbn. lia.
  - destruct (plane_ok_pitch ra d Ha Hd) as (H1 & H2 & H3 & H4). destruct (IH (base + pitch ra d * ph d)) as [I1 I2]. split.
    + constructor; [|done]. unfold plane_fits. cbn. split_and!; (done || lia).
    + cbn [planes_within plane_basePtr]. split; [lia|]. unfold plane_end. cbn [plane_basePtr height rowStride].
      change (planes_bytes ra (d :: P)) with (pitch ra d * ph d + planes_bytes ra P).
      rewrite (Z.mul_comm (ph d)), Z.add_assoc. done.
Qed.

Lemma planes_within_le lo hi hi' l : hi <= hi' -> planes_within lo hi l -> planes_within lo hi' l.
Proof. intros Hh. revert lo. induction l as [|q l IH]; intros lo; cbn [planes_within]; [lia|]. intros [? ?]. split; [done|by apply IH]. Qed.

Lemma image_CalcRequirements_ok dev size fmt uba ura P : valid_image_request dev size fmt uba ura P ->
  let ra := row_align dev ura in let ba := base_align dev uba ura in
  exists cuda, CalcRequirements dev size fmt uba ura
    = Ok (mkImageReqs (w size) (h size) fmt (map (pitch ra) P) ba (mkRequirements cuda mem_zero mem_zero))
  /\ valid_req cuda /\ CalcTotalSizeBytes cuda = Ok (planes_blocks ra ba P).
Proof.
  intros V. cbn zeta. destruct (image_aligns_ok _ _ _ _ _ _ V) as (Pr & Pb & Er & Eb).
  destruct V as [_ _ _ [HP Hn] Hc HF _ Hs]. pose proof Pb as (kb & Hkb & Ekb). rewrite Ekb in *.
  destruct (plane_req_loop fmt size (row_align dev ura) kb P [] mem_zero 0 (ImageFormat.numPlanes fmt))
    as (cuda & E & Vc & Es); try done; try lia; [apply mem_zero_valid|]. rewrite mem_zero_size, Z.add_0_l in Es.
  exists cuda. split; [|split; [done|rewrite CalcTotalSizeBytes_size by (done || lia); by rewrite Es]].
  unfold CalcRequirements. rewrite Er. cbn [mbind outcome_bind]. rewrite Eb. cbn [mbind outcome_bind].
  cbn [cudaMem Init]. rewrite E. done.
Qed.

Lemma created_export dev size fmt uba ura P buf reqs :
  valid_image_request dev size fmt uba ura P -> CalcRequirements dev size fmt uba ura = Ok reqs ->
  exportData (mkImage reqs buf) = Ok (mkImageData fmt NVCV_IMAGE_BUFFER_STRIDED_CUDA
    (mkImageBuffer (ImageFormat.numPlanes fmt) (layout_planes (row_align dev ura) buf P))).
Proof.
  intros V HC. destruct (image_CalcRequirements_ok _ _ _ _ _ _ V) as (cuda & E & _ & Ht). rewrite HC in E. injection E as ->.
  destruct (image_aligns_ok _ _ _ _ _ _ V) as (Pr & Pb & _ & _). destruct V as [_ _ Hm [HP Hn] Hc HF _ Hs].
  set (ra := row_align dev ura) in *. set (ba := base_align dev uba ura) in *.
  pose proof (is_pow2_bounds _ Pr). pose proof (is_pow2_bounds _ Pb).
  destruct (planes_bytes_blocks ra ba P ltac:(lia) ltac:(lia) HF) as [Hbb _].
  unfold exportData. cbn [im_reqs ir_format ir_mem cudaMem]. rewrite Hm. cbn [nvcv_assert Z.eqb].
  rewrite (export_loop fmt size ra P _ [] 0 0 _ ltac:(lia)); [|done|done|done|done|lia|done|done|lia].
  cbn [mbind outcome_bind im_memBuffer]. rewrite Ht. cbn [mbind outcome_bind].
  rewrite (proj2 (Z.leb_le _ _)) by lia. by rewrite Z.add_0_r.
Qed.

(** C28: the memory of an image. For every well-formed request the requirements
    are computed without overflow, the allocator accepts the size asked for unless
    it is the largest multiple of the alignment below 2^63, whose check overflows, and
    exporting the image succeeds, so its assertion on the buffer size never
    fails; each plane exported has the size the format gives it and rows that
    hold its pixels and are aligned, and the planes lie in the buffer one after
    the other. *)
Theorem image_memory dev size fmt uba ura P buf :
  valid_image_request dev size fmt uba ura P ->
  exists reqs total data, CalcRequirements dev size fmt uba ura = Ok reqs
  /\ AllocateBuffer_args reqs = Ok (total, base_align dev uba ura)
  /\ alloc_checks total (base_align dev uba ura) = (if total + base_align dev uba ura <? 2 ^ 63 then Ok tt else Stuck)
  /\ img_exportData (Image_IImage (mkImage reqs buf)) = Ok data
  /\ numPlanes (strided_buffer data) = ImageFormat.numPlanes fmt
  /\ Forall2 (plane_fits (row_align dev ura)) P (planes (strided_buffer data))
  /\ planes_within buf (buf + total) (planes (strided_buffer data)).
Proof.
  intros V. destruct (image_CalcRequirements_ok _ _ _ _ _ _ V) as (cuda & HC & _ & Ht).
  pose proof (created_export _ _ _ _ _ _ buf _ V HC) as HE.
  destruct (image_aligns_ok _ _ _ _ _ _ V) as (Pr & Pb & _ & _). destruct V as [_ _ Hm _ _ HF _ Hs].
  set (ra := row_align dev ura) in *. set (ba := base_align dev uba ura) in *.
  pose proof (is_pow2_bounds _ Pr). pose proof (is_pow2_bounds _ Pb).
  destruct (planes_bytes_blocks ra ba P ltac:(lia) ltac:(lia) HF) as [Hbb Hdv].
  pose proof (planes_bytes_nonneg ra P ltac:(lia) HF) as Hnn.
  eexists _, (planes_blocks ra ba P), _. split; [exact HC|]. unfold AllocateBuffer_args. cbn [ir_format ir_mem cudaMem ir_alignBytes].
  rewrite Hm, Ht. split; [done|]. split.
  { apply alloc_checks_multiple; [lia|done|done]. }
  split; [exact HE|]. cbn [strided_buffer numPlanes planes].
  destruct (layout_planes_fit ra P buf ltac:(lia) HF) as [F1 F2]. split_and!; [done|done|].
  by apply (planes_within_le _ (buf + planes_bytes ra P)); [lia|].
Qed.

(** ** Concrete images *)

Definition nv12_planes : list plane_dim := [mkPlaneDim 641 479 1; mkPlaneDim 321 240 2].

Lemma nv12_request_valid : valid_image_request device0 (mkSize2D 641 479) NVCV_IMAGE_FORMAT_NV12 0 0 nv12_planes.
Proof.
  split.
  - split; [by exists 5|by exists 9].
  - split; by left.
  - vm_compute. reflexivity.
  - split; [|vm_compute; reflexivity].
    intros [|[|k]] d Hd; [injection Hd as <-; vm_compute; reflexivity..|done].
  - vm_compute. discriminate.
  - repeat constructor; vm_compute; (discriminate || reflexivity).
  - intros p Hp. assert (ImageFormat.numPlanes NVCV_IMAGE_FORMAT_NV12 = 2) as E by (vm_compute; reflexivity). rewrite E in Hp.
    assert (p = 0 \/ p = 1) as [-> | ->] by lia; eexists; (split; [vm_compute; reflexivity|lia]).
  - vm_compute. reflexivity.
Qed.

(** The rows of both planes are padded to a multiple of 32. *)
Lemma image_memory_witness :
  exists reqs data, CalcRequirements device0 (mkSize2D 641 479) NVCV_IMAGE_FORMAT_NV12 0 0 = Ok reqs
  /\ exportData (mkImage reqs 4096) = Ok data
  /\ planes_within 4096 (4096 + 483328) (planes (strided_buffer data)).
Proof.
  destruct (image_memory device0 (mkSize2D 641 479) NVCV_IMAGE_FORMAT_NV12 0 0 nv12_planes 4096 nv12_request_valid)
    as (reqs & total & data & HC & Ht & _ & HE & _ & _ & HW).
  exists reqs, data. split; [exact HC|]. split; [exact HE|].
  assert (total = 483328) as <-; [|exact HW].
  revert Ht. assert (HC' := HC). vm_compute in HC'. injection HC' as <-. vm_compute. intros Ht. injection Ht as <-. reflexivity.
Defined.

(** The row alignment ignores the planes: it need not be a multiple of the size of a pixel. *)
Lemma row_alignment_ignores_planes :
  image_rowAlign (mkDevice 1 1) NVCV_IMAGE_FORMAT_RGBA8 0 = Ok 1
  /\ planePixelStrideBytes NVCV_IMAGE_FORMAT_RGBA8 0 = Ok 4.
Proof. vm_compute. done. Qed.

(** The number of planes of wrapped data is compared neither with the format nor
    with the length of the array. *)
Lemma seven_planes_read_outside :
  doValidateData (mkImageData NVCV_IMAGE_FORMAT_RGBA8 NVCV_IMAGE_BUFFER_STRIDED_CUDA
    (mkImageBuffer 7 (replicate 6 (mkPlane 1 1 4 4096)))) = Stuck.
Proof. vm_compute. done. Qed.

Lemma rows_may_overlap :
  doValidateData (mkImageData NVCV_IMAGE_FORMAT_RGBA8 NVCV_IMAGE_BUFFER_STRIDED_CUDA
    (mkImageBuffer 1 [mkPlane 10 10 0 4096])) = Ok tt.
Proof. vm_compute. done. Qed.
