(* ===== verification/ImageTensor.v ===== *)
(** * Images as tensors (FillTensorData of priv/TensorData.cpp)

    The tensor that shares the buffer of an image. The refinement states that
    its elements are the pixels of the image, at the same addresses. *)
From S2P Require Import Prelude DataLayout FormatCode ImageFormat Predefined TensorLayout Strides TensorData Tensor TensorWrap Image.
From stdpp Require Import options.

#[local] Open Scope Z_scope.

(** ** Checks *)

Definition same_plane_types (fmt : Z) : bool :=
  forallb (fun p => ImageFormat.planeDataType fmt p =? ImageFormat.planeDataType fmt 0) (zrange 1 (ImageFormat.numPlanes fmt)).

(** The checks of plane [p >= 1] against the planes before it. *)
Definition plane_compat (pl : list NVCVImagePlaneStrided) (_ : unit) (p : Z) : outcome unit :=
  q ← rd pl p;
  q0 ← rd pl 0;
  throw_if (negb (width q =? width q0) || negb (height q =? height q0)) NVCV_ERROR_INVALID_ARGUMENT (
  throw_if (negb (rowStride q =? rowStride q0)) NVCV_ERROR_INVALID_ARGUMENT (
  throw_if (plane_basePtr q <=? plane_basePtr q0) NVCV_ERROR_INVALID_ARGUMENT (
  if 2 <=? p then
    q1 ← rd pl 1;
    prev ← rd pl (p - 1);
    throw_if (negb (plane_basePtr q - plane_basePtr prev =? plane_basePtr q1 - plane_basePtr q0))
      NVCV_ERROR_INVALID_ARGUMENT (Ok tt)
  else Ok tt))).

(** Whether the channels have the same number of bits. *)
Definition sameBPC (fmt : Z) : outcome bool :=
  bits ← ImageFormat.bpc fmt;
  b0 ← rd bits 0;
  mfold (fun acc i => b ← rd bits i; Ok (acc && (b =? b0))) (zrange 1 (ImageFormat.numChannels fmt)) true.

(** ** The tensor *)

Definition array15 (l : list Z) : list Z := l ++ replicate (15 - length l) 0.

Definition nhwc_data (fmt : Z) (q0 : NVCVImagePlaneStrided) : outcome NVCVTensorData :=
  ps ← noexcept (planePixelStrideBytes fmt 0);
  let nch := ImageFormat.numChannels fmt in
  s0 ← int64 (rowStride q0 * height q0);
  dtype ← DataType.channelType (ImageFormat.planeDataType fmt 0) 0;
  Ok (mkTensorData dtype NVCV_TENSOR_NHWC 4 (array15 [1; height q0; width q0; nch]) NVCV_TENSOR_BUFFER_STRIDED_CUDA
        (mkTensorBuffer (array15 [s0; rowStride q0; ps; Z.quot ps nch]) (plane_basePtr q0))).

Definition nchw_data (fmt nplanes : Z) (q0 : NVCVImagePlaneStrided) : outcome NVCVTensorData :=
  ps ← noexcept (planePixelStrideBytes fmt 0);
  s1 ← int64 (rowStride q0 * height q0);
  s0 ← int64 (s1 * nplanes);
  Ok (mkTensorData (ImageFormat.planeDataType fmt 0) NVCV_TENSOR_NCHW 4 (array15 [1; nplanes; height q0; width q0])
        NVCV_TENSOR_BUFFER_STRIDED_CUDA
        (mkTensorBuffer (array15 [s0; s1; rowStride q0; ps]) (plane_basePtr q0))).

Definition FillTensorData (img : IImage) : outcome NVCVTensorData :=
  let fmt := img_format img in
  throw_if (negb (ImageFormat.memLayout fmt =? NVCV_MEM_LAYOUT_PL)) NVCV_ERROR_INVALID_ARGUMENT (
  throw_if (negb (ImageFormat.css fmt =? ColorSpec.NVCV_CSS_444)) NVCV_ERROR_INVALID_ARGUMENT (
  throw_if (negb (same_plane_types fmt)) NVCV_ERROR_INVALID_ARGUMENT (
  imgData ← img_exportData img;
  throw_if (negb (bool_decide (img_bufferType imgData = NVCV_IMAGE_BUFFER_STRIDED_CUDA))) NVCV_ERROR_INVALID_ARGUMENT (
  let imgStrided := strided_buffer imgData in
  _ ← mfold (plane_compat (planes imgStrided)) (zrange 1 (numPlanes imgStrided)) tt;
  same ← sameBPC fmt;
  q0 ← rd (planes imgStrided) 0;
  if (numPlanes imgStrided =? 1) && (2 <=? ImageFormat.numChannels fmt) && same
  then nhwc_data fmt q0
  else nchw_data fmt (numPlanes imgStrided) q0)))).

(** The data of the tensor made from an image. *)
Definition nvcvTensorWrapImage (img : IImage) : outcome NVCVTensorData :=
  td ← FillTensorData img; TensorWrapDataStrided td.

(** Queries of symbolic formats are not to be computed. *)
#[local] Opaque planePixelStrideBytes ImageFormat.planeDataType DataType.channelType ImageFormat.numChannels.

(** ** Pixels *)

(** The addresses of the pixels of an image, plane by plane and row by row. *)
Definition pixels (ps : Z) (l : list NVCVImagePlaneStrided) : list Z :=
  l ≫= fun q => Z.add (plane_basePtr q) <$> offs [(height q, rowStride q); (width q, ps)].

(** The addresses of the elements of a tensor. *)
Definition elements (td : NVCVTensorData) : list Z := Z.add (basePtr (buffer td)) <$> offs (dims td).

(** Planes of one size, each right behind the one before it. *)
Definition stacked (q0 : NVCVImagePlaneStrided) (l : list NVCVImagePlaneStrided) : Prop :=
  forall i q, l !! i = Some q ->
    q = mkPlane (width q0) (height q0) (rowStride q0) (plane_basePtr q0 + Z.of_nat i * (rowStride q0 * height q0)).

Lemma stacked_planes q0 l : stacked q0 l ->
  l = (fun i => mkPlane (width q0) (height q0) (rowStride q0) (plane_basePtr q0 + i * (rowStride q0 * height q0))) <$> zseq (length l).
Proof.
  intros H. apply list_eq. intros i. unfold zseq. rewrite !list_lookup_fmap. destruct (l !! i) as [q|] eqn:E.
  - pose proof (lookup_lt_Some _ _ _ E). rewrite lookup_seq_lt by done. cbn. f_equal. by apply H.
  - apply lookup_ge_None in E. by rewrite lookup_seq_ge.
Qed.

(** The pixels of stacked planes are those of one block with one more dimension. *)
Lemma pixels_stacked ps q0 l : stacked q0 l ->
  pixels ps l = Z.add (plane_basePtr q0)
    <$> offs [(Z.of_nat (length l), rowStride q0 * height q0); (height q0, rowStride q0); (width q0, ps)].
Proof.
  intros H. rewrite (stacked_planes q0 l H) at 1. unfold pixels.
  set (X := offs [(height q0, rowStride q0); (width q0, ps)]).
  change (offs ((Z.of_nat (length l), rowStride q0 * height q0) :: [(height q0, rowStride q0); (width q0, ps)]))
    with (sums (prog (Z.of_nat (length l)) (rowStride q0 * height q0)) X).
  unfold sums, prog. rewrite Nat2Z.id. induction (zseq (length l)) as [|i r IH]; [done|].
  cbn [fmap list_fmap mbind list_bind]. rewrite fmap_app, <- IH. f_equal. cbn [plane_basePtr height rowStride width].
  fold X. rewrite <- list_fmap_compose. apply list_fmap_ext. intros k x _. cbn. lia.
Qed.

Lemma dims_rank4 dt L a b c d e f g k bt p :
  dims (mkTensorData dt L 4 (array15 [a; b; c; d]) bt (mkTensorBuffer (array15 [e; f; g; k]) p))
  = [(a, e); (b, f); (c, g); (d, k)].
Proof. reflexivity. Qed.

Lemma offs_unit s ds : offs ((1, s) :: ds) = offs ds.
Proof. cbn [offs]. by rewrite prog_1, sums_0_l. Qed.

Lemma nhwc_elements fmt q0 l td : nhwc_data fmt q0 = Ok td -> stacked q0 l -> length l = 1%nat ->
  exists ps, planePixelStrideBytes fmt 0 = Ok ps /\ layout td = NVCV_TENSOR_NHWC
  /\ elements td = sums (pixels ps l) (prog (ImageFormat.numChannels fmt) (Z.quot ps (ImageFormat.numChannels fmt))).
Proof.
  intros H Hst Hl. unfold nhwc_data in H. destruct (planePixelStrideBytes fmt 0) as [ps| |]; [|done..].
  cbn [noexcept mbind outcome_bind] in H. ok_inv. subst td. exists ps. split; [done|]. split; [done|].
  rewrite (pixels_stacked ps q0), Hl by done. unfold elements. cbn [buffer basePtr]. rewrite sums_shift. f_equal.
  rewrite dims_rank4. change (Z.of_nat 1) with 1. rewrite !offs_unit.
  match goal with |- context [offs [?a; ?b; ?c]] => change [a; b; c] with ([a; b] ++ [c]) end.
  rewrite offs_app. f_equal. cbn [offs]. by rewrite sums_0_r.
Qed.

Lemma nchw_elements fmt q0 l td : nchw_data fmt (Z.of_nat (length l)) q0 = Ok td -> stacked q0 l ->
  exists ps, planePixelStrideBytes fmt 0 = Ok ps /\ layout td = NVCV_TENSOR_NCHW /\ elements td = pixels ps l.
Proof.
  intros H Hst. unfold nchw_data in H. destruct (planePixelStrideBytes fmt 0) as [ps| |]; [|done..].
  cbn [noexcept mbind outcome_bind] in H. ok_inv. subst td. exists ps. split; [done|]. split; [done|].
  match goal with H : int64 (rowStride q0 * height q0) = Ok _ |- _ => apply int64_Ok in H as [_ ->] end.
  rewrite (pixels_stacked ps q0) by done. unfold elements. cbn [buffer basePtr]. f_equal.
  by rewrite dims_rank4, offs_unit.
Qed.

(** C38: the tensor of an image holds the image's pixels. When the planes lie one
    behind the other, as in the images the library creates, the elements of the
    tensor in row-major order are the pixels of the planes in order, at the same
    addresses; in a tensor with a channel dimension each pixel is followed by its
    channels, at equal distances. *)
Theorem image_tensor_pixels img data td q0 :
  FillTensorData img = Ok td -> img_exportData img = Ok data ->
  planes (strided_buffer data) !! 0%nat = Some q0 -> stacked q0 (planes (strided_buffer data)) ->
  numPlanes (strided_buffer data) = Z.of_nat (length (planes (strided_buffer data))) ->
  exists ps, planePixelStrideBytes (img_format img) 0 = Ok ps
  /\ let nch := ImageFormat.numChannels (img_format img) in
     (layout td = NVCV_TENSOR_NCHW /\ elements td = pixels ps (planes (strided_buffer data))
      \/ layout td = NVCV_TENSOR_NHWC
         /\ elements td = sums (pixels ps (planes (strided_buffer data))) (prog nch (Z.quot ps nch))).
Proof.
  intros H He H0 Hst Hn. unfold FillTensorData in H. rewrite He in H. ok_inv. simplify_eq.
  match goal with H : rd (planes _) 0 = Ok ?q |- _ =>
    apply rd_Ok in H as [_ H]; change (Z.to_nat 0) with 0%nat in H; rewrite H0 in H; injection H as H; subst q end.
  match goal with H : (if ?b then _ else _) = Ok td |- _ => destruct b eqn:EC; rename H into HF end.
  - bool_hyps. destruct (nhwc_elements _ _ _ _ HF Hst) as (ps & ? & ? & ?); [lia|]. exists ps. split; [done|]. by right.
  - rewrite Hn in HF. destruct (nchw_elements _ _ _ _ HF Hst) as (ps & ? & ? & ?). exists ps. split; [done|]. by left.
Qed.

(** ** Concrete images *)

Definition rgb8p_planes : list plane_dim := replicate 3 (mkPlaneDim 5 3 1).

(** A planar image of 5x3 pixels: its rows are padded to 32 bytes. *)
Definition rgb8p_image : Image :=
  match CalcRequirements device0 (mkSize2D 5 3) NVCV_IMAGE_FORMAT_RGB8p 0 0 with
  | Ok reqs => mkImage reqs 4096
  | _ => mkImage (mkImageReqs 0 0 0 [] 0 Requirements.Init) 0
  end.

Lemma image_tensor_pixels_witness :
  exists data td, img_exportData (Image_IImage rgb8p_image) = Ok data /\ FillTensorData (Image_IImage rgb8p_image) = Ok td
  /\ elements td = pixels 1 (planes (strided_buffer data)).
Proof.
  set (r := img_exportData (Image_IImage rgb8p_image)). assert (img_exportData (Image_IImage rgb8p_image) = r) as Er by reflexivity.
  vm_compute in r. set (t := FillTensorData (Image_IImage rgb8p_image)).
  assert (FillTensorData (Image_IImage rgb8p_image) = t) as Et by reflexivity. vm_compute in t.
  eexists _, _. split; [exact Er|]. split; [exact Et|].
  destruct (image_tensor_pixels _ _ _ (mkPlane 5 3 32 4096) Et Er) as (ps & Hps & Hp).
  - reflexivity.
  - intros [|[|[|i]]] q Hq; [injection Hq as <-; reflexivity..|done].
  - reflexivity.
  - assert (planePixelStrideBytes (img_format (Image_IImage rgb8p_image)) 0 = Ok 1) as E by (vm_compute; reflexivity).
    rewrite E in Hps. injection Hps as <-. destruct Hp as [[_ Hp]|[Hl _]]; [exact Hp|]. vm_compute in Hl. discriminate Hl.
Defined.

(** The distance between the planes is checked but not used: for wrapped planes
    1000 bytes apart the tensor takes the plane pitch to be that of the rows. *)
Lemma plane_pitch_ignored :
  let q i := mkPlane 5 3 32 (4096 + i * 1000) in
  let img := ImageWrapData_IImage (mkImageData NVCV_IMAGE_FORMAT_RGB8p NVCV_IMAGE_BUFFER_STRIDED_CUDA
               (mkImageBuffer 3 [q 0; q 1; q 2])) in
  dims <$> nvcvTensorWrapImage img = Ok [(1, 288); (3, 96); (3, 32); (5, 1)].
Proof. vm_compute. reflexivity. Qed.
