(* ===== verification/ImageBatch.v ===== *)
(** * Batches of images of different shapes (priv/ImageBatchVarShape.cpp)

    A batch keeps the descriptions of its images in a host buffer and copies the
    part that changed to a device buffer when it is exported. The copies are
    asynchronous: they are queued, and read the host buffer when they run. *)
From S2P Require Import Prelude Effects MathUtil Requirements DataLayout ImageFormat TensorLayout Image.
From stdpp Require Import options.

#[local] Open Scope Z_scope.

(** ** State *)

Record NVCVImageBatchVarShapeRequirements := mkBatchReqs {
  req_capacity : Z; req_alignBytes : Z; req_mem : NVCVRequirements }.

(** The host buffers and their device copies. *)
Record buffers := mkBuffers {
  m_hostImagesBuffer : list NVCVImageBufferStrided;
  m_devImagesBuffer : list NVCVImageBufferStrided;
  m_hostFormatsBuffer : list Z;
  m_devFormatsBuffer : list Z }.

Record caches := mkCaches { m_cacheMaxSize : option Size2D; m_cacheUniqueFormat : option Z }.

(** [pending]: the ranges of the copies queued and not finished that the event
    [m_evPostFence] covers, oldest first; [stray]: a copy was queued that no event covers,
    because a later call of the export failed: nothing waits for it, and from then on the
    contents of the device buffers are not known;
    [refs]: for each image, the references taken less the references dropped. *)
Record batch := mkBatch {
  capacity : Z;
  m_dirtyStartingFromIndex : Z;
  m_numImages : Z;
  bufs : buffers;
  m_imgHandleBuffer : list Z;
  cache : caches;
  pending : list (Z * Z);
  stray : bool;
  refs : gmap Z Z }.

Definition set_num (n : Z) (b : batch) : batch :=
  mkBatch (capacity b) (m_dirtyStartingFromIndex b) n (bufs b) (m_imgHandleBuffer b) (cache b) (pending b) (stray b) (refs b).
Definition set_dirty (d : Z) (b : batch) : batch :=
  mkBatch (capacity b) d (m_numImages b) (bufs b) (m_imgHandleBuffer b) (cache b) (pending b) (stray b) (refs b).
Definition set_bufs (x : buffers) (b : batch) : batch :=
  mkBatch (capacity b) (m_dirtyStartingFromIndex b) (m_numImages b) x (m_imgHandleBuffer b) (cache b) (pending b) (stray b) (refs b).
Definition set_handles (x : list Z) (b : batch) : batch :=
  mkBatch (capacity b) (m_dirtyStartingFromIndex b) (m_numImages b) (bufs b) x (cache b) (pending b) (stray b) (refs b).
Definition set_cache (x : caches) (b : batch) : batch :=
  mkBatch (capacity b) (m_dirtyStartingFromIndex b) (m_numImages b) (bufs b) (m_imgHandleBuffer b) x (pending b) (stray b) (refs b).
Definition set_pending (x : list (Z * Z)) (b : batch) : batch :=
  mkBatch (capacity b) (m_dirtyStartingFromIndex b) (m_numImages b) (bufs b) (m_imgHandleBuffer b) (cache b) x (stray b) (refs b).
Definition set_stray (b : batch) : batch :=
  mkBatch (capacity b) (m_dirtyStartingFromIndex b) (m_numImages b) (bufs b) (m_imgHandleBuffer b) (cache b) (pending b) true (refs b).
Definition set_refs (x : gmap Z Z) (b : batch) : batch :=
  mkBatch (capacity b) (m_dirtyStartingFromIndex b) (m_numImages b) (bufs b) (m_imgHandleBuffer b) (cache b) (pending b) (stray b) x.

(** ** Copies *)

(** The two [cudaMemcpyAsync] of an export, when they run. *)
Definition run_copy (x : buffers) (r : Z * Z) : buffers :=
  mkBuffers (m_hostImagesBuffer x) (copy_back (m_hostImagesBuffer x) (m_devImagesBuffer x) r)
    (m_hostFormatsBuffer x) (copy_back (m_hostFormatsBuffer x) (m_devFormatsBuffer x) r).

(** [cudaEventSynchronize(m_evPostFence)]: every copy queued has finished. *)
Definition synchronize (b : batch) : batch := set_pending [] (set_bufs (foldl run_copy (bufs b) (pending b)) b).

(** The oldest copy queued finishes. *)
Definition copy_step (b : batch) : batch :=
  match pending b with
  | [] => b
  | r :: rest => set_pending rest (set_bufs (run_copy (bufs b) r) b)
  end.

(** ** Calls of the CUDA runtime *)

(** [NVCV_CHECK_THROW] of the waits for the event, of the two copies and of the event's
    recording. *)
Inductive runtime_call :=
| cudaEventSynchronize | cudaStreamWaitEvent | cudaMemcpyAsync_images | cudaMemcpyAsync_formats | cudaEventRecord.

(** [fails]: the statuses that the macro makes of the calls that fail; [failed]: what is
    left behind of the calls before. *)
Definition check_throw (fails : runtime_call -> option NVCVStatus) (c : runtime_call) (failed : batch -> batch) : M batch unit :=
  fun b => match fails c with Some st => (failed b, Throw st) | None => (b, Ok tt) end.

(** ** References *)

Definition CoreObjectIncRef (h : Z) : M batch unit := modify (fun b => set_refs (<[h := refs_of (refs b) h + 1]> (refs b)) b).
Definition CoreObjectDecRef (h : Z) : M batch unit := modify (fun b => set_refs (<[h := refs_of (refs b) h - 1]> (refs b)) b).

(** ** Requirements *)

(** On the 64-bit platforms supported. *)
Definition sizeof_NVCVImageBufferStrided : Z := 152.
Definition sizeof_NVCVImageFormat : Z := 8.
Definition sizeof_NVCVImageHandle : Z := 8.
Definition alignof_NVCVImageBufferStrided : Z := 8.
Definition alignof_NVCVImageFormat : Z := 8.
Definition alignof_NVCVImageHandle : Z := 8.

(** [capacity * sizeof(T)] is a [size_t], passed as an [int64_t]. *)
Definition buf_size (capacity size : Z) : Z := i64 (u64 (u64 capacity * size)).

Definition CalcRequirements (capacity : Z) : outcome NVCVImageBatchVarShapeRequirements :=
  let align := Z.lcm alignof_NVCVImageFormat (Z.lcm alignof_NVCVImageHandle alignof_NVCVImageBufferStrided) in
  let align := i32 (RoundUpNextPowerOfTwo 32 align) in
  throw_if (NVCV_MAX_MEM_REQUIREMENTS_BLOCK_SIZE <? align) NVCV_ERROR_INVALID_ARGUMENT (
  c ← AddBuffer (cudaMem Init) (buf_size capacity sizeof_NVCVImageBufferStrided) align;
  c ← AddBuffer c (buf_size capacity sizeof_NVCVImageFormat) align;
  m ← AddBuffer (hostMem Init) (buf_size capacity sizeof_NVCVImageBufferStrided) align;
  m ← AddBuffer m (buf_size capacity sizeof_NVCVImageFormat) align;
  m ← AddBuffer m (buf_size capacity sizeof_NVCVImageHandle) align;
  Ok (mkBatchReqs capacity align (mkRequirements c m (hostPinnedMem Init)))).

(** The batch after construction; the contents of the buffers are indeterminate. *)
Definition construct (reqs : NVCVImageBatchVarShapeRequirements) (x : buffers) (handles : list Z) : batch :=
  mkBatch (req_capacity reqs) 0 0 x handles (mkCaches (Some (mkSize2D 0 0)) None) [] false ∅.

(** ** The cached size and format *)

Definition size_max (a b : Size2D) : Size2D := mkSize2D (Z.max (w a) (w b)) (Z.max (h a) (h b)).

(** The size of image [i]: that of its first plane. *)
Definition host_size (x : buffers) (i : Z) : outcome Size2D :=
  im ← rd (m_hostImagesBuffer x) i; p ← rd (planes im) 0; Ok (mkSize2D (width p) (height p)).

Definition update_step (x : buffers) (c : caches) (i : Z) : outcome caches :=
  mx ← match m_cacheMaxSize c with
       | Some sz => s ← host_size x i; Ok (Some (size_max sz s))
       | None => Ok None
       end;
  uf ← match m_cacheUniqueFormat c with
       | None => f ← rd (m_hostFormatsBuffer x) i; Ok (Some f)
       | Some u =>
           if negb (u =? NVCV_IMAGE_FORMAT_NONE)
           then f ← rd (m_hostFormatsBuffer x) i; Ok (Some (if negb (u =? f) then NVCV_IMAGE_FORMAT_NONE else u))
           else Ok (Some u)
       end;
  Ok (mkCaches mx uf).

Definition update_cache (x : buffers) (num : Z) (c : caches) : outcome caches :=
  match m_cacheMaxSize c, m_cacheUniqueFormat c with
  | Some _, Some _ => Ok c
  | mx, uf =>
      let c := mkCaches (Some (default (mkSize2D 0 0) mx)) uf in
      c ← mfold (update_step x) (zrange 0 num) c;
      match m_cacheUniqueFormat c with
      | Some _ => Ok c
      | None => nvcv_assert (num =? 0) (Ok (mkCaches (m_cacheMaxSize c) (Some NVCV_IMAGE_FORMAT_NONE)))
      end
  end.

Definition doUpdateCache : M batch unit :=
  b ← get;
  c ← lift (update_cache (bufs b) (m_numImages b) (cache b));
  modify (set_cache c).

(** [*optional] of an empty optional is undefined. *)
Definition deref {A} (o : option A) : outcome A := match o with Some a => Ok a | None => Stuck end.

Definition maxSize : M batch Size2D := _ ← doUpdateCache; b ← get; lift (deref (m_cacheMaxSize (cache b))).
Definition uniqueFormat : M batch Z := _ ← doUpdateCache; b ← get; lift (deref (m_cacheUniqueFormat (cache b))).

(** ** Exporting *)

Record NVCVImageBatchData := mkBatchData { d_numImages : Z; d_maxWidth : Z; d_maxHeight : Z; d_uniqueFormat : Z }.

(** The device pointers exported are those of the batch. *)
Definition exportData (fails : runtime_call -> option NVCVStatus) : M batch NVCVImageBatchData :=
  b ← get;
  _ ← lift (nvcv_assert (m_dirtyStartingFromIndex b <=? m_numImages b) (Ok tt));
  _ ← (if m_dirtyStartingFromIndex b <? m_numImages b then
         _ ← check_throw fails cudaStreamWaitEvent id;
         _ ← check_throw fails cudaMemcpyAsync_images id;
         _ ← check_throw fails cudaMemcpyAsync_formats set_stray;
         _ ← check_throw fails cudaEventRecord set_stray;
         modify (fun b => set_dirty (m_numImages b) (set_pending (pending b ++ [(m_dirtyStartingFromIndex b, m_numImages b)]) b))
       else mret tt);
  _ ← doUpdateCache;
  b ← get;
  sz ← lift (match m_cacheMaxSize (cache b) with Some sz => Ok sz | None => Stuck end);
  f ← lift (match m_cacheUniqueFormat (cache b) with Some f => Ok f | None => Stuck end);
  mret (mkBatchData (m_numImages b) (w sz) (h sz) f).

(** ** Changing the batch *)

Section images.
  (** The images that handles stand for; [ToStaticRef] throws on other handles. *)
  Context (image : Z -> option IImage).
  (** The calls of the CUDA runtime that fail. *)
  Context (fails : runtime_call -> option NVCVStatus).

(** The caches after image number [num] of this size and format was added. *)
Definition push_cache (num : Z) (c : caches) (imgSize : Size2D) (fmt : Z) : caches :=
  if num =? 1 then mkCaches (Some imgSize) (Some fmt)
  else
    mkCaches (match m_cacheMaxSize c with Some sz => Some (size_max sz imgSize) | None => None end)
      (match m_cacheUniqueFormat c with
       | Some u => Some (if negb (u =? fmt) then NVCV_IMAGE_FORMAT_NONE else u)
       | None => None
       end).

Definition doPushImage (imgHandle : Z) : M batch unit :=
  b ← get;
  _ ← lift (nvcv_assert (m_numImages b <? capacity b) (Ok tt));
  img ← lift (match image imgHandle with Some img => Ok img | None => Throw NVCV_ERROR_INVALID_ARGUMENT end);
  _ ← lift (throw_if (negb (ImageFormat.memLayout (img_format img) =? NVCV_MEM_LAYOUT_PL)) NVCV_ERROR_INVALID_ARGUMENT (Ok tt));
  imgData ← lift (img_exportData img);
  _ ← lift (throw_if (negb (bool_decide (img_bufferType imgData = NVCV_IMAGE_BUFFER_STRIDED_CUDA)))
              NVCV_ERROR_INVALID_ARGUMENT (Ok tt));
  hi ← lift (wr (m_hostImagesBuffer (bufs b)) (m_numImages b) (strided_buffer imgData));
  hf ← lift (wr (m_hostFormatsBuffer (bufs b)) (m_numImages b) (format imgData));
  hh ← lift (wr (m_imgHandleBuffer b) (m_numImages b) imgHandle);
  _ ← modify (fun b => set_handles hh
        (set_bufs (mkBuffers hi (m_devImagesBuffer (bufs b)) hf (m_devFormatsBuffer (bufs b))) b));
  imgSize ← lift (img_size img);
  modify (fun b => set_cache (push_cache (m_numImages b + 1) (cache b) imgSize (format imgData))
    (set_num (m_numImages b + 1) b)).

(** [images]: the array, or a null pointer. *)
Definition pushImages (images : option (list Z)) (numImages : Z) : M batch unit :=
  match images with
  | None => lift (Throw NVCV_ERROR_INVALID_ARGUMENT)
  | Some images =>
      b ← get;
      n ← lift (int32 (numImages + m_numImages b));
      _ ← lift (throw_if (capacity b <? n) NVCV_ERROR_OVERFLOW (Ok tt));
      _ ← check_throw fails cudaEventSynchronize id;
      _ ← modify synchronize;
      on_throw
        (each (fun i =>
           h ← lift (rd images i);
           _ ← doPushImage h;
           if h =? 0 then mret tt else CoreObjectIncRef h) (zrange 0 numImages))
        (set_num (m_numImages b))
  end.

(** The callback returns the handles of [images], then null. Each carries a
    reference, which passes to the batch. *)
Definition pushImages_callback (images : list Z) : M batch unit :=
  b ← get;
  _ ← check_throw fails cudaEventSynchronize id;
  _ ← modify synchronize;
  on_throw
    (each (fun h =>
       b ← get;
       _ ← lift (throw_if (m_numImages b =? capacity b) NVCV_ERROR_OVERFLOW (Ok tt));
       doPushImage h) images)
    (set_num (m_numImages b)).

End images.

Definition popImages (numImages : Z) : M batch unit :=
  b ← get;
  _ ← lift (throw_if (numImages <? 0) NVCV_ERROR_INVALID_ARGUMENT (Ok tt));
  n ← lift (int32 (m_numImages b - numImages));
  _ ← lift (throw_if (n <? 0) NVCV_ERROR_UNDERFLOW (Ok tt));
  _ ← each (fun i =>
        h ← lift (rd (m_imgHandleBuffer b) i);
        if h =? 0 then mret tt else CoreObjectDecRef h) (rev (zrange n (m_numImages b)));
  modify (fun b =>
    let b := set_num n b in
    let b := if m_numImages b <? m_dirtyStartingFromIndex b then set_dirty (m_numImages b) b else b in
    set_cache (mkCaches None (if m_numImages b =? 0 then None else m_cacheUniqueFormat (cache b))) b).

(** The handles written to [outImages], with a reference each. *)
Definition getImages (begIndex numImages : Z) : M batch (list Z) :=
  b ← get;
  _ ← lift (throw_if (begIndex <? 0) NVCV_ERROR_INVALID_ARGUMENT (Ok tt));
  n ← lift (int32 (begIndex + numImages));
  _ ← lift (throw_if (m_numImages b <? n) NVCV_ERROR_OVERFLOW (Ok tt));
  hs ← lift (mfold (fun l i => h ← rd (m_imgHandleBuffer b) (i + begIndex); Ok (l ++ [h])) (zrange 0 numImages) []);
  _ ← each (fun h => if h =? 0 then mret tt else CoreObjectIncRef h) hs;
  mret hs.

Definition clear : M batch unit :=
  b ← get;
  _ ← each (fun i =>
        b ← get;
        h ← lift (rd (m_imgHandleBuffer b) i);
        if h =? 0 then mret tt
        else _ ← CoreObjectDecRef h;
             hh ← lift (wr (m_imgHandleBuffer b) i 0);
             modify (set_handles hh)) (zrange 0 (m_numImages b));
  modify (fun b => set_cache (mkCaches (Some (mkSize2D 0 0)) None) (set_dirty 0 (set_num 0 b))).
