(* ===== verification/ImageBatchProps.v ===== *)
(** * Properties of image batches

    The methods of a batch are shown equal to updates of its state without
    failures ([pushed], [popped], ..); the invariant and the accounting of
    references are then properties of those updates. *)
From S2P Require Import Prelude Effects MathUtil Requirements DataLayout ImageFormat Predefined TensorLayout Tensor Image ImageBatch.
From stdpp Require Import options.

#[local] Open Scope Z_scope.

(** ** Contents of a batch *)

Definition img_size_of (im : NVCVImageBufferStrided) : Size2D :=
  match planes im !! 0%nat with Some p => mkSize2D (width p) (height p) | None => mkSize2D 0 0 end.

Definition num (b : batch) : nat := Z.to_nat (m_numImages b).
Definition images (b : batch) : list NVCVImageBufferStrided := take (num b) (m_hostImagesBuffer (bufs b)).
Definition formats (b : batch) : list Z := take (num b) (m_hostFormatsBuffer (bufs b)).
Definition handles (b : batch) : list Z := take (num b) (m_imgHandleBuffer b).

(** The union of the sizes of images. *)
Definition max_of (l : list NVCVImageBufferStrided) : Size2D := foldl size_max (mkSize2D 0 0) (img_size_of <$> l).

(** The format that all have, if there is one. *)
Definition unique_of (l : list Z) : Z :=
  match l with [] => NVCV_IMAGE_FORMAT_NONE | f :: l => if forallb (Z.eqb f) l then f else NVCV_IMAGE_FORMAT_NONE end.

Definition size_le (a b : Size2D) : Prop := w a <= w b /\ h a <= h b.

Definition has_plane (im : NVCVImageBufferStrided) : Prop :=
  exists p, planes im !! 0%nat = Some p /\ 0 <= width p /\ 0 <= height p.

#[global] Instance size_le_po : PreOrder size_le.
Proof. split; [intros a|intros a b c]; unfold size_le; lia. Qed.

Lemma max_of_snoc l im : max_of (l ++ [im]) = size_max (max_of l) (img_size_of im).
Proof. unfold max_of. by rewrite fmap_app, foldl_app. Qed.

Lemma size_max_le a b c : size_le (size_max a b) c <-> size_le a c /\ size_le b c.
Proof. unfold size_le, size_max. cbn. lia. Qed.

Lemma max_of_nonneg l : size_le (mkSize2D 0 0) (max_of l).
Proof.
  induction l as [|im l IH] using rev_ind; [done|]. rewrite max_of_snoc. unfold size_le, size_max in *. cbn in *. lia.
Qed.

Lemma max_of_le l sz : size_le (mkSize2D 0 0) sz -> size_le (max_of l) sz <-> Forall (fun im => size_le (img_size_of im) sz) l.
Proof.
  intros H0. induction l as [|im l IH] using rev_ind; [split; [constructor|done]|].
  rewrite max_of_snoc, size_max_le, IH, Forall_app, Forall_singleton. done.
Qed.

Lemma unique_of_snoc l f u : l <> [] -> u = unique_of l ->
  unique_of (l ++ [f]) = if negb (u =? f) then NVCV_IMAGE_FORMAT_NONE else u.
Proof.
  destruct l as [|g l]; [done|]. intros _ ->. cbn [unique_of app]. rewrite forallb_app. cbn [forallb].
  rewrite andb_true_r. destruct (forallb (Z.eqb g) l); cbn [andb].
  - by destruct (Z.eqb_spec g f).
  - by destruct (NVCV_IMAGE_FORMAT_NONE =? f).
Qed.

(** ** The invariant *)

(** The two buffers agree up to [n]. *)
Definition synced (n : Z) (x : buffers) : Prop :=
  take (Z.to_nat n) (m_devImagesBuffer x) = take (Z.to_nat n) (m_hostImagesBuffer x)
  /\ take (Z.to_nat n) (m_devFormatsBuffer x) = take (Z.to_nat n) (m_hostFormatsBuffer x).

Record lengths (c : nat) (x : buffers) : Prop := {
  len_hi : length (m_hostImagesBuffer x) = c; len_di : length (m_devImagesBuffer x) = c;
  len_hf : length (m_hostFormatsBuffer x) = c; len_df : length (m_devFormatsBuffer x) = c }.

Record inv (b : batch) : Prop := {
  inv_counts : 0 <= m_dirtyStartingFromIndex b <= m_numImages b /\ m_numImages b <= capacity b < 2 ^ 31;
  inv_lengths : lengths (Z.to_nat (capacity b)) (bufs b) /\ length (m_imgHandleBuffer b) = Z.to_nat (capacity b);
  inv_pending : Forall (range_ok (capacity b)) (pending b);
  (** once the queued copies are done, what is not dirty is on the device, if an event
      covers all of them *)
  inv_synced : stray b = false -> synced (m_dirtyStartingFromIndex b) (bufs (synchronize b));
  inv_planes : Forall has_plane (images b);
  inv_size : forall sz, m_cacheMaxSize (cache b) = Some sz -> size_le (max_of (images b)) sz;
  inv_format : match m_cacheUniqueFormat (cache b) with
               | Some u => u = NVCV_IMAGE_FORMAT_NONE \/ Forall (fun f => f = u) (formats b)
               | None => m_numImages b = 0
               end }.

(** The caches hold the values they stand for. *)
Definition exact_size (b : batch) : Prop := forall sz, m_cacheMaxSize (cache b) = Some sz -> sz = max_of (images b).
Definition exact_format (b : batch) : Prop := forall u, m_cacheUniqueFormat (cache b) = Some u -> u = unique_of (formats b).

(** ** Copies *)

Lemma run_copy_lengths c x r : range_ok (Z.of_nat c) r -> lengths c x -> lengths c (run_copy x r).
Proof. intros Hr [? ? ? ?]. split; cbn; try done; by apply length_copy_back. Qed.

Lemma synchronize_bufs c b : lengths c (bufs b) -> Forall (range_ok (Z.of_nat c)) (pending b) ->
  lengths c (bufs (synchronize b)) /\ m_hostImagesBuffer (bufs (synchronize b)) = m_hostImagesBuffer (bufs b)
  /\ m_hostFormatsBuffer (bufs (synchronize b)) = m_hostFormatsBuffer (bufs b).
Proof.
  unfold synchronize. cbn [bufs set_pending set_bufs]. intros HL HF. revert HL. generalize (bufs b).
  induction HF as [|r l Hr _ IH]; intros x HL; cbn [foldl]; [done|].
  destruct (IH (run_copy x r)) as (? & -> & ->); [by apply run_copy_lengths|done].
Qed.

(** Running a copy early changes nothing in the end. *)
Lemma synchronize_copy_step b : synchronize (copy_step b) = synchronize b.
Proof. unfold copy_step. destruct b as [c d n x hs ca [|r l] st rf]; [done|]. done. Qed.

(** ** What batches need of images *)

(** The interface of the images behind handles: null is no image, and an image
    that is pitch-linear exports its planes, the first of its own size. *)
Class ImageHandles (image : Z -> option IImage) : Prop := {
  null_handle : image 0 = None;
  image_export h img : image h = Some img -> ImageFormat.memLayout (img_format img) = NVCV_MEM_LAYOUT_PL ->
    exists data, img_exportData img = Ok data
    /\ (img_bufferType data = NVCV_IMAGE_BUFFER_STRIDED_CUDA ->
        has_plane (strided_buffer data) /\ img_size img = Ok (img_size_of (strided_buffer data))) }.

(** What a batch stores of an image, if it accepts it. *)
Definition accept (image : Z -> option IImage) (hd : Z) : option (NVCVImageBufferStrided * Z) :=
  img ← image hd;
  if ImageFormat.memLayout (img_format img) =? NVCV_MEM_LAYOUT_PL then
    match img_exportData img with
    | Ok data =>
        if bool_decide (img_bufferType data = NVCV_IMAGE_BUFFER_STRIDED_CUDA)
        then Some (strided_buffer data, format data) else None
    | _ => None
    end
  else None.

(** The batch with one more image. *)
Definition pushed (hd : Z) (e : NVCVImageBufferStrided * Z) (b : batch) : batch :=
  let n := num b in
  set_cache (push_cache (m_numImages b + 1) (cache b) (img_size_of e.1) e.2)
    (set_num (m_numImages b + 1)
      (set_handles (<[n := hd]> (m_imgHandleBuffer b))
        (set_bufs (mkBuffers (<[n := e.1]> (m_hostImagesBuffer (bufs b))) (m_devImagesBuffer (bufs b))
                     (<[n := e.2]> (m_hostFormatsBuffer (bufs b))) (m_devFormatsBuffer (bufs b))) b))).

Lemma accept_planes image `{!ImageHandles image} hd e : accept image hd = Some e -> has_plane e.1.
Proof.
  unfold accept. intros H. destruct (image hd) as [img|] eqn:Ei; [|done]. cbn in H.
  destruct (Z.eqb_spec (ImageFormat.memLayout (img_format img)) NVCV_MEM_LAYOUT_PL) as [El|]; [|done].
  destruct (image_export hd img Ei El) as (data & Ed & Hd). rewrite Ed in H. case_bool_decide; [|done].
  injection H as <-. by apply Hd.
Qed.

Lemma accept_handle image `{!ImageHandles image} hd e : accept image hd = Some e -> hd <> 0.
Proof. unfold accept. intros H ->. by rewrite null_handle in H. Qed.

Lemma doPushImage_spec image `{!ImageHandles image} hd b : inv b -> m_numImages b < capacity b ->
  doPushImage image hd b = match accept image hd with
                           | Some e => (pushed hd e b, Ok tt)
                           | None => (b, Throw NVCV_ERROR_INVALID_ARGUMENT)
                           end.
Proof.
  intros [[Hd Hn] [[Lhi _ Lhf _] Lh] _ _ _ _ _] Hc. unfold doPushImage, accept.
  unfold mbind, M_bind, get, lift, modify. rewrite (proj2 (Z.ltb_lt _ _) Hc). cbn [nvcv_assert].
  destruct (image hd) as [img|] eqn:Ei; [|done]. cbn [option_bind].
  destruct (Z.eqb_spec (ImageFormat.memLayout (img_format img)) NVCV_MEM_LAYOUT_PL) as [El|]; [|done].
  cbn [negb throw_if]. destruct (image_export hd img Ei El) as (data & Ed & HD). rewrite Ed. case_bool_decide as Hb; [|done].
  destruct (HD Hb) as [_ Es]. cbn [negb throw_if]. unfold wr. rewrite Lhi, Lhf, Lh.
  rewrite (proj2 (Z.leb_le 0 (m_numImages b))), (proj2 (Z.ltb_lt (m_numImages b) _)) by lia. cbn [andb].
  rewrite Es. done.
Qed.

Lemma pushed_contents hd e b : inv b -> m_numImages b < capacity b ->
  images (pushed hd e b) = images b ++ [e.1] /\ formats (pushed hd e b) = formats b ++ [e.2]
  /\ handles (pushed hd e b) = handles b ++ [hd].
Proof.
  intros [[Hd Hn] [[Lhi _ Lhf _] Lh] _ _ _ _ _] Hc. unfold images, formats, handles, pushed.
  assert (num (set_num (m_numImages b + 1) b) = S (num b)) as E by (unfold num; cbn; lia).
  unfold num in E |- *. cbn in *. rewrite E. split_and!; apply take_insert_snoc; lia.
Qed.

Lemma synchronize_idle b : pending b = [] -> bufs (synchronize b) = bufs b.
Proof. unfold synchronize. by intros ->. Qed.

Lemma inv_pushed hd e b : inv b -> m_numImages b < capacity b -> pending b = [] -> has_plane e.1 -> inv (pushed hd e b).
Proof.
  intros I Hc Hp He. pose proof (pushed_contents hd e b I Hc) as (EI & EF & EH).
  destruct I as [[Hd Hn] [[Lhi Ldi Lhf Ldf] Lh] _ Hs Hpl Hsz Hfm]. rewrite (synchronize_idle b Hp) in Hs. split.
  - cbn. lia.
  - cbn. rewrite length_insert. split; [|done]. by split; cbn; rewrite ?length_insert.
  - cbn. rewrite Hp. constructor.
  - rewrite synchronize_idle by done. intros Hst. destruct (Hs Hst) as [S1 S2]. split; cbn; rewrite take_insert_ge; try done; unfold num; lia.
  - rewrite EI. apply Forall_app. split; [done|]. by constructor.
  - rewrite EI, max_of_snoc. cbn. unfold push_cache. intros sz. destruct (Z.eqb_spec (m_numImages b + 1) 1) as [E|].
    + cbn. intros [= <-]. assert (images b = []) as -> by (unfold images, num; by replace (Z.to_nat (m_numImages b)) with 0%nat by lia).
      destruct He as (p & Hp0 & Hw & Hh). unfold img_size_of. rewrite Hp0. unfold size_le, size_max, max_of. cbn. lia.
    + cbn. destruct (m_cacheMaxSize (cache b)) as [s0|]; [|done]. intros [= <-]. specialize (Hsz s0 eq_refl).
      unfold size_le, size_max in *. cbn. lia.
  - rewrite EF. cbn. unfold push_cache. destruct (Z.eqb_spec (m_numImages b + 1) 1) as [E|]; cbn.
    + right. assert (formats b = []) as -> by (unfold formats, num; by replace (Z.to_nat (m_numImages b)) with 0%nat by lia).
      by constructor.
    + destruct (m_cacheUniqueFormat (cache b)) as [u|]; [|lia]. destruct (Z.eqb_spec u e.2) as [->|]; cbn [negb]; [|by left].
      destruct Hfm as [?|Hall]; [by left|right]. apply Forall_app. split; [done|]. by constructor.
Qed.

Lemma exact_pushed hd e b : inv b -> m_numImages b < capacity b -> has_plane e.1 ->
  exact_size b -> exact_size (pushed hd e b).
Proof.
  intros I Hc He HE. pose proof (pushed_contents hd e b I Hc) as (EI & _ & _).
  unfold exact_size. rewrite EI, max_of_snoc. cbn. unfold push_cache. intros sz.
  destruct (Z.eqb_spec (m_numImages b + 1) 1) as [E|]; cbn.
  - intros [= <-]. assert (images b = []) as -> by (unfold images, num; by replace (Z.to_nat (m_numImages b)) with 0%nat by lia).
    destruct He as (p & Hp0 & Hw & Hh). unfold img_size_of. rewrite Hp0. unfold size_max, max_of. cbn. f_equal; lia.
  - destruct (m_cacheMaxSize (cache b)) as [s0|] eqn:Es; [|done]. intros [= <-]. by rewrite (HE s0 Es).
Qed.

Lemma exact_format_pushed hd e b : inv b -> m_numImages b < capacity b -> exact_format b -> exact_format (pushed hd e b).
Proof.
  intros I Hc HE. pose proof (pushed_contents hd e b I Hc) as (_ & EF & _). pose proof (inv_format b I) as Hfm.
  pose proof (inv_counts b I) as [Hd Hn]. pose proof (inv_lengths b I) as [[_ _ Lf _] _].
  unfold exact_format. rewrite EF. cbn. unfold push_cache. intros u.
  destruct (Z.eqb_spec (m_numImages b + 1) 1) as [E|]; cbn.
  - intros [= <-]. assert (formats b = []) as -> by (unfold formats, num; by replace (Z.to_nat (m_numImages b)) with 0%nat by lia). done.
  - destruct (m_cacheUniqueFormat (cache b)) as [v|] eqn:Ev; [|done]. intros [= <-]. symmetry. apply unique_of_snoc; [|by apply HE].
    intros E. assert (length (formats b) = num b) as El by (unfold formats; rewrite length_take; unfold num; lia).
    rewrite E in El. cbn in El. unfold num in El. lia.
Qed.

(** ** Pushing *)

(** The images pushed until one is refused. *)
Fixpoint push_all (image : Z -> option IImage) (hs : list Z) (b : batch) : batch * bool :=
  match hs with
  | [] => (b, true)
  | hd :: hs =>
      match accept image hd with
      | Some e => push_all image hs (set_refs (<[hd := refs_of (refs b) hd + 1]> (refs b)) (pushed hd e b))
      | None => (b, false)
      end
  end.

Lemma inv_set_refs m b : inv b -> inv (set_refs m b).
Proof. by intros []; split. Qed.

Lemma inv_synchronize b : inv b -> inv (synchronize b).
Proof.
  intros [Hn [HL Lh] Hp Hs Hpl Hsz Hfm]. destruct Hn as [Hd Hn].
  destruct (synchronize_bufs (Z.to_nat (capacity b)) b HL) as (HL' & Ei & Ef).
  { eapply Forall_impl; [exact Hp|]. intros r [? ?]. split; lia. }
  split; try done; unfold images, formats; rewrite ?Ei, ?Ef; done.
Qed.

(** Giving up the last images. *)
Lemma inv_rollback n b : inv b -> m_dirtyStartingFromIndex b <= n <= m_numImages b -> inv (set_num n b).
Proof.
  intros [[Hd Hn] HL Hp Hs Hpl Hsz Hfm] Hn'.
  assert (images (set_num n b) = take (Z.to_nat n) (images b)) as EI.
  { unfold images, num. cbn. rewrite take_take. f_equal. lia. }
  assert (formats (set_num n b) = take (Z.to_nat n) (formats b)) as EF.
  { unfold formats, num. cbn. rewrite take_take. f_equal. lia. }
  split; try done.
  - cbn. lia.
  - rewrite EI. by apply Forall_take.
  - rewrite EI. intros sz Hc. specialize (Hsz sz Hc). pose proof (max_of_nonneg (images b)) as H0.
    assert (size_le (mkSize2D 0 0) sz) as H0' by (by etrans). apply max_of_le; [done|].
    apply max_of_le in Hsz; [|done]. by apply Forall_take.
  - rewrite EF. cbn. destruct (m_cacheUniqueFormat (cache b)); [|lia]. destruct Hfm as [?|Hall]; [by left|right]. by apply Forall_take.
Qed.

(** What a sequence of pushes has done when it stops. *)
Record pushed_all (b : batch) (hs : list Z) (es : list (NVCVImageBufferStrided * Z)) (b' : batch) : Prop := {
  pa_inv : inv b';
  pa_idle : pending b' = [];
  pa_cap : capacity b' = capacity b;
  pa_dirty : m_dirtyStartingFromIndex b' = m_dirtyStartingFromIndex b;
  pa_num : m_numImages b' = m_numImages b + Z.of_nat (length es);
  pa_images : images b' = images b ++ es.*1;
  pa_formats : formats b' = formats b ++ es.*2;
  pa_handles : handles b' = handles b ++ hs;
  pa_exact : (exact_size b -> exact_size b') /\ (exact_format b -> exact_format b') }.

Lemma push_all_spec image `{!ImageHandles image} hs b b' ok : inv b -> pending b = [] ->
  m_numImages b + Z.of_nat (length hs) <= capacity b -> push_all image hs b = (b', ok) ->
  exists hs' es, pushed_all b hs' es b' /\ Forall2 (fun hd e => accept image hd = Some e) hs' es
  /\ (if ok then hs' = hs else exists hd rest, hs = hs' ++ hd :: rest /\ accept image hd = None)
  /\ (forall hd, refs_of (refs b') hd = refs_of (refs b) hd + Z.of_nat (count_occ Z.eq_dec hs' hd)).
Proof.
  revert b. induction hs as [|hd hs IH]; intros b I Hp Hc; cbn [push_all].
  - intros [= <- <-]. exists [], []. split; [|split_and!; [constructor|done|intros; cbn; lia]].
    split; try done; cbn; rewrite ?app_nil_r; (done || lia).
  - cbn [length] in Hc. destruct (accept image hd) as [e|] eqn:Ea; cycle 1.
    { intros [= <- <-]. exists [], []. split; [|split_and!; [constructor|by exists hd, hs|intros; cbn; lia]].
      split; try done; cbn; rewrite ?app_nil_r; (done || lia). }
    pose proof (accept_planes image hd e Ea) as He. set (b1 := set_refs _ _). intros H.
    pose proof (pushed_contents hd e b I ltac:(lia)) as (EI & EF & EH).
    assert (inv b1) as I1 by (apply inv_set_refs, inv_pushed; (done || lia)).
    destruct (IH b1 I1 Hp) as (hs' & es & PA & HF & Hok & HR); [cbn; lia|done|].
    exists (hd :: hs'), (e :: es). split; [|split_and!].
    + destruct PA as [A1 A2 A3 A4 A5 A6 A7 A8 [A9 A10]]. split; try done.
      * rewrite A5. cbn. lia.
      * rewrite A6. unfold b1. change (images (set_refs ?m ?x)) with (images x). by rewrite EI, <- app_assoc.
      * rewrite A7. unfold b1. change (formats (set_refs ?m ?x)) with (formats x). by rewrite EF, <- app_assoc.
      * rewrite A8. unfold b1. change (handles (set_refs ?m ?x)) with (handles x). by rewrite EH, <- app_assoc.
      * split; intros HE; [apply A9; apply (exact_pushed hd e b I)|apply A10; apply (exact_format_pushed hd e b I)]; (done || lia).
    + by constructor.
    + destruct ok; [by rewrite Hok|]. destruct Hok as (hd2 & rest & -> & ?). by exists hd2, rest.
    + intros h. rewrite HR. unfold b1. cbn [refs set_refs count_occ]. unfold refs_of at 1.
      destruct (Z.eq_dec hd h) as [->|]; [rewrite lookup_insert_eq; cbn; lia|rewrite lookup_insert_ne by done; fold (refs_of (refs b) h); lia].
Qed.

Lemma each_push image `{!ImageHandles image} hs b : inv b -> pending b = [] ->
  m_numImages b + Z.of_nat (length hs) <= capacity b ->
  each (fun hd => _ ← doPushImage image hd; if hd =? 0 then mret tt else CoreObjectIncRef hd) hs b
  = let '(b', ok) := push_all image hs b in (b', if ok then Ok tt else Throw NVCV_ERROR_INVALID_ARGUMENT).
Proof.
  revert b. induction hs as [|hd hs IH]; intros b I Hp Hc; [done|]. cbn [length] in Hc. cbn [each push_all].
  rewrite !bind_run, doPushImage_spec by (done || lia).
  destruct (accept image hd) as [e|] eqn:Ea; [|done]. pose proof (accept_planes image hd e Ea) as He.
  rewrite (proj2 (Z.eqb_neq hd 0)) by exact (accept_handle image hd e Ea). unfold CoreObjectIncRef, modify.
  apply IH; [apply inv_set_refs, inv_pushed; (done || lia)|done|cbn; lia].
Qed.

(** The method in terms of [push_all]. *)
Lemma pushImages_spec image `{!ImageHandles image} fails l n b : inv b -> in_s 32 n -> n <= Z.of_nat (length l) ->
  in_s 32 (n + m_numImages b) ->
  pushImages image fails (Some l) n b =
    if capacity b <? n + m_numImages b then (b, Throw NVCV_ERROR_OVERFLOW)
    else if fails cudaEventSynchronize is Some st then (b, Throw st)
    else let '(b', ok) := push_all image (take (Z.to_nat n) l) (synchronize b) in
         if ok then (b', Ok tt) else (set_num (m_numImages b) b', Throw NVCV_ERROR_INVALID_ARGUMENT).
Proof.
  intros I Hn Hl Hs. unfold pushImages. unfold mbind at 1 2 3 4, M_bind, get, lift at 1 2, modify.
  rewrite int32_ok by done. destruct (Z.ltb_spec (capacity b) (n + m_numImages b)); [done|]. cbn [throw_if].
  unfold check_throw. destruct (fails cudaEventSynchronize); [done|]. unfold mbind at 1, M_bind, on_throw. pose proof (inv_counts b I) as [? ?].
  rewrite (each_rd l (fun h => _ ← doPushImage image h; if h =? 0 then mret tt else CoreObjectIncRef h) _ (take (Z.to_nat n) l));
    [|rewrite <- slice_take; apply rd_slice; lia]. rewrite (each_push image); [|by apply inv_synchronize|done|].
  - by destruct (push_all _ _ _) as [b' []].
  - rewrite length_take. cbn [m_numImages capacity synchronize set_pending set_bufs]. lia.
Qed.


(** ** Caches *)

Definition format_fold : option Z -> list Z -> option Z :=
  foldl (fun u f => match u with
                    | None => Some f
                    | Some u => if negb (u =? NVCV_IMAGE_FORMAT_NONE)
                                then Some (if negb (u =? f) then NVCV_IMAGE_FORMAT_NONE else u) else Some u
                    end).

Lemma format_fold_same u l : u = NVCV_IMAGE_FORMAT_NONE \/ Forall (fun f => f = u) l -> format_fold (Some u) l = Some u.
Proof.
  intros H. induction l as [|f l IH]; [done|]. unfold format_fold in *. cbn [foldl]. destruct (Z.eqb_spec u NVCV_IMAGE_FORMAT_NONE) as [->|Hne].
  - apply IH. by left.
  - destruct H as [?|H]; [done|]. apply Forall_cons in H as [-> H]. cbn [negb]. rewrite Z.eqb_refl. apply IH. by right.
Qed.

Lemma host_size_ok x i im : rd (m_hostImagesBuffer x) i = Ok im -> has_plane im -> host_size x i = Ok (img_size_of im).
Proof.
  intros Hi (p & Hp & _). unfold host_size. rewrite Hi. cbn [mbind outcome_bind].
  rewrite (proj2 (rd_Ok (planes im) 0 p)) by done. cbn [mbind outcome_bind]. unfold img_size_of. by rewrite Hp.
Qed.

Lemma update_step_ok x i im f sz uf : rd (m_hostImagesBuffer x) i = Ok im -> rd (m_hostFormatsBuffer x) i = Ok f -> has_plane im ->
  update_step x (mkCaches (Some sz) uf) i = Ok (mkCaches (Some (size_max sz (img_size_of im))) (format_fold uf [f])).
Proof.
  intros Hi Hf Hp. unfold update_step. cbn [m_cacheMaxSize m_cacheUniqueFormat]. rewrite (host_size_ok x i im Hi Hp).
  cbn [mbind outcome_bind]. unfold format_fold. cbn [foldl].
  destruct uf as [u|]; [destruct (negb (u =? NVCV_IMAGE_FORMAT_NONE))|]; by rewrite ?Hf.
Qed.

Lemma update_loop x ix ims fs sz uf :
  Forall2 (fun i im => rd (m_hostImagesBuffer x) i = Ok im) ix ims -> Forall2 (fun i f => rd (m_hostFormatsBuffer x) i = Ok f) ix fs ->
  Forall has_plane ims ->
  mfold (update_step x) ix (mkCaches (Some sz) uf) = Ok (mkCaches (Some (foldl size_max sz (img_size_of <$> ims))) (format_fold uf fs)).
Proof.
  intros HI. revert fs sz uf. induction HI as [|i im ix ims Hi HI IH]; intros fs sz uf HF HP.
  - apply Forall2_nil_inv_l in HF as ->. done.
  - apply Forall2_cons_inv_l in HF as (f & fs' & Hf & HF & ->). apply Forall_cons in HP as [Hp HP].
    cbn [mfold]. rewrite (update_step_ok x i im f) by done. cbn [mbind outcome_bind]. by rewrite (IH fs').
Qed.

Definition updated (b : batch) : batch :=
  set_cache (mkCaches (Some (default (max_of (images b)) (m_cacheMaxSize (cache b))))
               (Some (default NVCV_IMAGE_FORMAT_NONE (m_cacheUniqueFormat (cache b))))) b.

Lemma doUpdateCache_spec b : inv b -> doUpdateCache b = (updated b, Ok tt).
Proof.
  intros [[Hd Hn] [[Li _ Lf _] _] _ _ Hpl _ Hfm]. unfold doUpdateCache. rewrite !bind_run. cbn [get].
  assert (update_cache (bufs b) (m_numImages b) (cache b) = Ok (cache (updated b))) as E; [|unfold lift; by rewrite E].
  pose proof (rd_slice (m_hostImagesBuffer (bufs b)) 0 (m_numImages b) ltac:(lia) ltac:(lia)) as HI.
  pose proof (rd_slice (m_hostFormatsBuffer (bufs b)) 0 (m_numImages b) ltac:(lia) ltac:(lia)) as HF.
  rewrite slice_take in HI; rewrite slice_take in HF. unfold update_cache, updated. cbn [cache set_cache].
  destruct (cache b) as [mx uf]. cbn [m_cacheMaxSize m_cacheUniqueFormat default] in *.
  assert (uf = None -> m_numImages b = 0) as H0 by (intros ->; done).
  assert (mfold (update_step (bufs b)) (zrange 0 (m_numImages b)) (mkCaches (Some (default (mkSize2D 0 0) mx)) uf)
    = Ok (mkCaches (Some (foldl size_max (default (mkSize2D 0 0) mx) (img_size_of <$> images b))) uf)) as E.
  { rewrite (update_loop _ _ _ _ _ _ HI HF Hpl). do 2 f_equal. destruct uf as [u|]; [by apply format_fold_same|].
    rewrite H0 by done. done. }
  destruct mx as [s|], uf as [u|]; cbn [default from_option] in *; [done|..]; rewrite E; cbn [mbind outcome_bind m_cacheUniqueFormat m_cacheMaxSize]; try done;
    rewrite (H0 eq_refl); cbn [Z.eqb nvcv_assert]; unfold images, num; rewrite (H0 eq_refl); done.
Qed.

Lemma inv_updated b : inv b -> inv (updated b).
Proof.
  intros [Hn HL Hp Hs Hpl Hsz Hfm]. split; try done.
  - cbn. intros sz [= <-]. destruct (m_cacheMaxSize (cache b)); [by apply Hsz|done].
  - cbn. destruct (m_cacheUniqueFormat (cache b)); [done|by left].
Qed.

(** ** Exporting *)

(** The copy of the dirty part queued. *)
Definition queued (b : batch) : batch :=
  if m_dirtyStartingFromIndex b <? m_numImages b
  then set_dirty (m_numImages b) (set_pending (pending b ++ [(m_dirtyStartingFromIndex b, m_numImages b)]) b)
  else b.

Lemma inv_queued b : inv b ->
  inv (queued b) /\ (stray b = false -> synced (m_numImages b) (bufs (synchronize (queued b)))).
Proof.
  intros I. pose proof I as [[Hd Hn] [HL Lh] Hp Hs Hpl Hsz Hfm]. unfold queued.
  destruct (Z.ltb_spec (m_dirtyStartingFromIndex b) (m_numImages b)).
  - destruct (synchronize_bufs (Z.to_nat (capacity b)) b HL) as ([L1 L2 L3 L4] & Ei & Ef).
    { eapply Forall_impl; [exact Hp|]. intros r [? ?]. split; lia. }
    assert (range_ok (Z.of_nat (Z.to_nat (capacity b))) (m_dirtyStartingFromIndex b, m_numImages b)) as Hr by (split; cbn; lia).
    set (b' := set_dirty _ _).
    assert (stray b = false -> synced (m_numImages b) (bufs (synchronize b'))) as HS.
    { intros Hst. unfold synchronize, b'. cbn [pending set_dirty set_pending bufs set_bufs]. rewrite foldl_app. cbn [foldl].
      change (foldl run_copy (bufs b) (pending b)) with (bufs (synchronize b)). destruct (Hs Hst) as [S1 S2].
      split; cbn [run_copy m_devImagesBuffer m_hostImagesBuffer m_devFormatsBuffer m_hostFormatsBuffer].
      - by apply (copy_back_all _ _ (m_dirtyStartingFromIndex b, m_numImages b) (Z.to_nat (capacity b))).
      - by apply (copy_back_all _ _ (m_dirtyStartingFromIndex b, m_numImages b) (Z.to_nat (capacity b))). }
    split; [|done]. split; try done.
    + cbn. lia.
    + cbn. apply Forall_app. split; [done|]. constructor; [|constructor]. split; cbn; lia.
  - assert (m_numImages b = m_dirtyStartingFromIndex b) as -> by lia. done.
Qed.

Definition export_result (b : batch) : NVCVImageBatchData :=
  mkBatchData (m_numImages b) (w (default (max_of (images b)) (m_cacheMaxSize (cache b))))
    (h (default (max_of (images b)) (m_cacheMaxSize (cache b)))) (default NVCV_IMAGE_FORMAT_NONE (m_cacheUniqueFormat (cache b))).

(** The checked calls of an export: all succeed and the copies are queued, or one fails,
    perhaps after a copy. *)
Definition queue_result (fails : runtime_call -> option NVCVStatus) (b : batch) (r : batch * outcome unit) : Prop :=
  r = (queued b, Ok tt) \/
  exists c st, fails c = Some st /\ m_dirtyStartingFromIndex b < m_numImages b
  /\ (r = (b, Throw st) \/ r = (set_stray b, Throw st)).

Lemma queue_cases fails b :
  queue_result fails b
    ((if m_dirtyStartingFromIndex b <? m_numImages b then
        _ ← check_throw fails cudaStreamWaitEvent id;
        _ ← check_throw fails cudaMemcpyAsync_images id;
        _ ← check_throw fails cudaMemcpyAsync_formats set_stray;
        _ ← check_throw fails cudaEventRecord set_stray;
        modify (fun b => set_dirty (m_numImages b) (set_pending (pending b ++ [(m_dirtyStartingFromIndex b, m_numImages b)]) b))
      else mret tt) b).
Proof.
  unfold queue_result, queued. destruct (Z.ltb_spec (m_dirtyStartingFromIndex b) (m_numImages b)); [|by left].
  assert (forall c f (k : M batch unit), (f b = b \/ f b = set_stray b) ->
    (fails c = None -> queue_result fails b (k b)) -> queue_result fails b ((_ ← check_throw fails c f; k) b)) as Step.
  { intros c f k Hf Hk. rewrite bind_run. unfold check_throw. destruct (fails c) as [st|] eqn:Ec; [|by apply Hk].
    right. exists c, st. split_and!; [done|done|]. destruct Hf as [-> | ->]; [by left|by right]. }
  unfold queue_result, queued in Step. rewrite (proj2 (Z.ltb_lt _ _)) in Step by done.
  do 4 (apply Step; [first [by left|by right]|intros _]). by left.
Qed.

Lemma inv_set_stray b : inv b -> inv (set_stray b).
Proof. by intros []; split. Qed.

Lemma exportData_spec fails b : inv b ->
  exportData fails b = (updated (queued b), Ok (export_result b))
  \/ exists c st, fails c = Some st /\ (exportData fails b = (b, Throw st) \/ exportData fails b = (set_stray b, Throw st)).
Proof.
  intros I. pose proof (inv_counts b I) as [Hd _]. pose proof (inv_queued b I) as [Iq _].
  unfold exportData. rewrite !bind_run. cbn [get]. rewrite !bind_run. unfold lift at 1 4 7. rewrite (proj2 (Z.leb_le _ _)) by lia. cbn [nvcv_assert].
  rewrite !bind_run. destruct (queue_cases fails b) as [->|(c & st & Hc & _ & HQ)].
  - left. rewrite !bind_run, (doUpdateCache_spec _ Iq). rewrite !bind_run. cbn [get]. rewrite !bind_run. unfold lift. cbn [updated cache set_cache m_cacheMaxSize m_cacheUniqueFormat].
    rewrite !bind_run. unfold queued. by destruct (_ <? _).
  - right. exists c, st. split; [done|]. by destruct HQ as [-> | ->]; [left|right].
Qed.

Lemma exportData_ok fails b : inv b -> (forall c, fails c = None) -> exportData fails b = (updated (queued b), Ok (export_result b)).
Proof. intros I Hf. destruct (exportData_spec fails b I) as [?|(c & st & Hc & _)]; [done|]. by rewrite Hf in Hc. Qed.

Lemma inv_copy_step b : inv b -> inv (copy_step b).
Proof.
  intros [Hn [HL Lh] Hp Hs Hpl Hsz Hfm]. rewrite <- synchronize_copy_step in Hs. unfold copy_step in *.
  destruct (pending b) as [|r rest] eqn:Ep; [by split; rewrite ?Ep|]. apply Forall_cons in Hp as [Hr Hp].
  split; try done. cbn. split; [|done]. apply run_copy_lengths; [|done]. destruct Hr. split; lia.
Qed.

(** C26: exporting a batch brings the device up to date. Whichever calls of the CUDA
    runtime fail, the images, formats, handles and references stay as they were, and so
    does the invariant. If none fails the call succeeds; when it succeeds, then
    once the queued copies have run, at this point or one by one, the device holds the
    descriptions and formats of all images, unless an earlier export had left a copy that
    no event covers; the maximum size bounds every image, and is the exact one when
    the cached size is; a format reported as unique is that of every image. When a call
    fails the status is that of the call, and what was changed stays marked. *)
Theorem export_synchronizes fails b : inv b ->
  exists b' r, exportData fails b = (b', r) /\ inv b'
  /\ images b' = images b /\ formats b' = formats b /\ handles b' = handles b /\ refs b' = refs b
  /\ ((forall c, fails c = None) -> is_ok r = true)
  /\ ((exists d, r = Ok d /\ d_numImages d = m_numImages b
        /\ (stray b = false ->
             synced (m_numImages b) (bufs (synchronize b')) /\ synced (m_numImages b) (bufs (synchronize (copy_step b'))))
        /\ size_le (max_of (images b)) (mkSize2D (d_maxWidth d) (d_maxHeight d))
        /\ (exact_size b -> mkSize2D (d_maxWidth d) (d_maxHeight d) = max_of (images b))
        /\ (d_uniqueFormat d <> NVCV_IMAGE_FORMAT_NONE -> Forall (fun f => f = d_uniqueFormat d) (formats b))
        /\ (exact_format b -> d_uniqueFormat d = unique_of (formats b)))
      \/ exists c st, fails c = Some st /\ r = Throw st /\ m_dirtyStartingFromIndex b' = m_dirtyStartingFromIndex b).
Proof.
  intros I. destruct (inv_queued b I) as [Iq HS]. destruct (exportData_spec fails b I) as [->|(c & st & Hc & HE)]; cycle 1.
  { assert (exists b' r, exportData fails b = (b', r) /\ r = Throw st /\ (b' = b \/ b' = set_stray b)) as (b' & r & -> & -> & Hb)
      by (destruct HE as [-> | ->]; eexists _, _; eauto).
    exists b', (Throw st). split_and!; try (by destruct Hb as [-> | ->]).
    - destruct Hb as [-> | ->]; [done|by apply inv_set_stray].
    - intros Hf. by rewrite Hf in Hc.
    - right. exists c, st. by destruct Hb as [-> | ->]. }
  eexists _, _. split; [done|].
  pose proof I as [Hn _ _ _ _ Hsz Hfm].
  assert (forall s : Size2D, mkSize2D (w s) (h s) = s) as Eta by by intros [].
  assert (images (updated (queued b)) = images b /\ formats (updated (queued b)) = formats b
    /\ handles (updated (queued b)) = handles b /\ refs (updated (queued b)) = refs b) as (-> & -> & -> & ->)
    by (unfold queued; by destruct (_ <? _)).
  split_and!; try done; [by apply inv_updated|]. left. exists (export_result b). rewrite synchronize_copy_step.
  unfold export_result. cbn [d_numImages d_maxWidth d_maxHeight d_uniqueFormat].
  split_and!; try done; rewrite ?Eta.
  - intros Hst. by split; apply HS.
  - destruct (m_cacheMaxSize (cache b)); [by apply Hsz|done].
  - unfold exact_size. destruct (m_cacheMaxSize (cache b)); [|done]. intros HE. by apply HE.
  - destruct (m_cacheUniqueFormat (cache b)) as [u|]; [|done]. cbn. intros Hu. by destruct Hfm.
  - unfold exact_format. destruct (m_cacheUniqueFormat (cache b)) as [u|]; [intros HE; by apply HE|].
    intros _. unfold formats, num. by rewrite Hfm.
Qed.

(** ** Removing images *)

Lemma each_DecRef hs b : each (fun hd => if hd =? 0 then mret tt else CoreObjectDecRef hd) hs b
  = (set_refs (drop_refs hs (refs b)) b, Ok tt).
Proof.
  revert b. induction hs as [|hd hs IH]; intros b; [by destruct b|]. cbn [each]. rewrite bind_run.
  unfold drop_refs. cbn [foldl]. destruct (hd =? 0); [apply IH|]. unfold CoreObjectDecRef, modify. by rewrite IH.
Qed.

Definition popped (k : Z) (b : batch) : batch :=
  let n := m_numImages b - k in
  let d := Z.min (m_dirtyStartingFromIndex b) n in
  set_cache (mkCaches None (if n =? 0 then None else m_cacheUniqueFormat (cache b)))
    (set_dirty d (set_num n (set_refs (drop_refs (rev (slice n (m_numImages b) (m_imgHandleBuffer b))) (refs b)) b))).

Lemma popImages_spec k b : inv b -> in_s 32 k ->
  popImages k b = if k <? 0 then (b, Throw NVCV_ERROR_INVALID_ARGUMENT)
                  else if m_numImages b <? k then (b, Throw NVCV_ERROR_UNDERFLOW) else (popped k b, Ok tt).
Proof.
  intros I Hk. pose proof (inv_counts b I) as [Hd Hn]. pose proof (inv_lengths b I) as [_ Lh]. unfold popImages.
  rewrite !bind_run. cbn [get]. rewrite !bind_run. unfold lift at 1. destruct (Z.ltb_spec k 0); [done|]. cbn [throw_if].
  rewrite !bind_run. unfold lift at 1. rewrite int32_ok by (unfold in_s in *; lia). rewrite !bind_run. unfold lift at 1.
  destruct (Z.ltb_spec (m_numImages b) k).
  { by rewrite (proj2 (Z.ltb_lt _ _)) by lia. }
  rewrite (proj2 (Z.ltb_ge _ 0)) by lia. cbn [throw_if]. rewrite !bind_run.
  rewrite (each_rd (m_imgHandleBuffer b) (fun h => if h =? 0 then mret tt else CoreObjectDecRef h) _
    (rev (slice (m_numImages b - k) (m_numImages b) (m_imgHandleBuffer b)))), each_DecRef.
  - unfold modify, popped. f_equal. cbv zeta. cbn [m_numImages set_num set_refs m_dirtyStartingFromIndex].
    destruct (Z.ltb_spec (m_numImages b - k) (m_dirtyStartingFromIndex b)); [rewrite Z.min_r by lia; done|].
    rewrite Z.min_l by lia. by destruct b.
  - rewrite !rev_alt. apply Forall2_reverse, rd_slice; lia.
Qed.

Lemma popped_contents k b : 0 <= k <= m_numImages b ->
  images (popped k b) = take (Z.to_nat (m_numImages b - k)) (images b)
  /\ formats (popped k b) = take (Z.to_nat (m_numImages b - k)) (formats b)
  /\ handles (popped k b) = take (Z.to_nat (m_numImages b - k)) (handles b).
Proof.
  intros Hk. unfold images, formats, handles, num, popped. cbn. rewrite !take_take. split_and!; f_equal; lia.
Qed.

Lemma synced_le n n' x : n' <= n -> synced n x -> synced n' x.
Proof.
  intros Hn [S1 S2]. assert (forall {A} (l : list A), take (Z.to_nat n') l = take (Z.to_nat n') (take (Z.to_nat n) l)) as E.
  { intros A l. rewrite take_take. f_equal. lia. }
  split.
  - rewrite (E _ (m_devImagesBuffer x)), (E _ (m_hostImagesBuffer x)). congruence.
  - rewrite (E _ (m_devFormatsBuffer x)), (E _ (m_hostFormatsBuffer x)). congruence.
Qed.

Lemma inv_set_dirty d b : inv b -> 0 <= d <= m_dirtyStartingFromIndex b -> inv (set_dirty d b).
Proof.
  intros [[Hd Hn] HL Hp Hs Hpl Hsz Hfm] Hd'. split; try done; [cbn; lia|]. intros Hst. eapply synced_le; [|by apply Hs]. cbn. lia.
Qed.

Lemma inv_popped k b : inv b -> 0 <= k <= m_numImages b -> inv (popped k b) /\ exact_size (popped k b).
Proof.
  intros I Hk. pose proof (inv_counts b I) as [Hd Hn]. split; [|by intros sz].
  set (n := m_numImages b - k). set (d := Z.min (m_dirtyStartingFromIndex b) n).
  assert (inv (set_num n (set_dirty d b))) as I1.
  { apply inv_rollback; [apply inv_set_dirty; [done|]|]; cbn; lia. }
  destruct I1 as [[H1 H2] HL Hp Hs Hpl Hsz Hfm]. split; try done.
  unfold popped. cbn. fold n. destruct (Z.eqb_spec n 0); [done|exact Hfm].
Qed.

(** Removing images undoes pushing them. Removing [k] of at most as many
    images as there are leaves the others in place, drops one reference per
    image removed, and makes the cached size exact again; the batch is
    unchanged when [k] is negative or too large, and the error says which. *)
Theorem pop_images k b : inv b -> in_s 32 k ->
  exists b' o, popImages k b = (b', o) /\ inv b'
  /\ if k <? 0 then o = Throw NVCV_ERROR_INVALID_ARGUMENT /\ b' = b
     else if m_numImages b <? k then o = Throw NVCV_ERROR_UNDERFLOW /\ b' = b
     else o = Ok tt
       /\ images b' = take (Z.to_nat (m_numImages b - k)) (images b)
       /\ formats b' = take (Z.to_nat (m_numImages b - k)) (formats b)
       /\ handles b' = take (Z.to_nat (m_numImages b - k)) (handles b)
       /\ (forall hd, hd <> 0 -> refs_of (refs b) hd = refs_of (refs b') hd
             + Z.of_nat (count_occ Z.eq_dec (drop (Z.to_nat (m_numImages b - k)) (handles b)) hd))
       /\ exact_size b'.
Proof.
  intros I Hk. rewrite popImages_spec by done. destruct (Z.ltb_spec k 0); [by exists b, (Throw NVCV_ERROR_INVALID_ARGUMENT)|].
  destruct (Z.ltb_spec (m_numImages b) k); [by exists b, (Throw NVCV_ERROR_UNDERFLOW)|].
  eexists _, _. split; [done|]. destruct (inv_popped k b I) as [I' HE]; [lia|].
  destruct (popped_contents k b) as (EI & EF & EH); [lia|]. split_and!; try done.
  intros hd Hne. unfold popped. cbn [refs set_cache set_dirty set_num set_refs]. rewrite refs_of_drop by done.
  pose proof (inv_counts b I) as [? ?].
  assert (slice (m_numImages b - k) (m_numImages b) (m_imgHandleBuffer b) = drop (Z.to_nat (m_numImages b - k)) (handles b)) as ->.
  { unfold slice, handles, num. rewrite take_drop_commute. f_equal. f_equal. lia. }
  rewrite count_occ_rev. lia.
Qed.

Definition cleared (b : batch) : batch :=
  set_cache (mkCaches (Some (mkSize2D 0 0)) None) (set_dirty 0 (set_num 0
    (set_handles (replicate (num b) 0 ++ drop (num b) (m_imgHandleBuffer b)) (set_refs (drop_refs (handles b) (refs b)) b)))).

Lemma clear_loop b pre l post n : m_imgHandleBuffer b = pre ++ l ++ post ->
  n = Z.of_nat (length pre + length l) ->
  each (fun i =>
        b ← get;
        h ← lift (rd (m_imgHandleBuffer b) i);
        if h =? 0 then mret tt
        else _ ← CoreObjectDecRef h;
             hh ← lift (wr (m_imgHandleBuffer b) i 0);
             modify (set_handles hh)) (zrange (Z.of_nat (length pre)) n) b
  = (set_handles (pre ++ replicate (length l) 0 ++ post) (set_refs (drop_refs l (refs b)) b), Ok tt).
Proof.
  revert b pre. induction l as [|hd l IH]; intros b pre Eb En.
  - unfold zrange. replace (n - Z.of_nat (length pre)) with 0 by (cbn in En; lia). cbn in Eb |- *. rewrite <- Eb. by destruct b.
  - cbn [length] in En. rewrite zrange_cons by lia. cbn [each]. rewrite !bind_run. cbn [get]. rewrite !bind_run. unfold lift at 1.
    rewrite (proj2 (rd_Ok _ _ hd)); [|split; [lia|rewrite Eb, Nat2Z.id, lookup_app_r, Nat.sub_diag by lia; done]].
    replace (Z.of_nat (length pre) + 1) with (Z.of_nat (length (pre ++ [0]))) by (rewrite length_app; cbn; lia).
    assert (forall (x : list Z), pre ++ replicate (length (hd :: l)) 0 ++ x = (pre ++ [0]) ++ replicate (length l) 0 ++ x) as Er.
    { intros x. rewrite <- app_assoc. done. }
    unfold drop_refs. cbn [foldl]. destruct (Z.eqb_spec hd 0) as [->|Hne].
    + rewrite Er. apply IH; [by rewrite <- app_assoc|rewrite length_app; cbn; lia].
    + rewrite !bind_run. unfold CoreObjectDecRef, modify at 1. rewrite !bind_run. unfold lift, wr. rewrite Eb.
      rewrite (proj2 (Z.leb_le 0 _)), (proj2 (Z.ltb_lt _ _)) by (rewrite ?length_app; cbn; lia). cbn [andb]. unfold modify.
      rewrite Nat2Z.id, insert_app_r_alt, Nat.sub_diag by lia. cbn [app list_insert insert].
      rewrite (IH _ (pre ++ [0])); [by rewrite Er|cbn; by rewrite <- app_assoc|rewrite length_app; cbn; lia].
Qed.

Lemma clear_spec b : inv b -> clear b = (cleared b, Ok tt).
Proof.
  intros I. pose proof (inv_counts b I) as [Hd Hn]. pose proof (inv_lengths b I) as [_ Lh]. unfold clear. rewrite !bind_run. cbn [get].
  rewrite !bind_run.
  pose proof (clear_loop b [] (handles b) (drop (num b) (m_imgHandleBuffer b)) (m_numImages b)) as E.
  assert (length (handles b) = num b) as El by (unfold handles; rewrite length_take; unfold num; lia).
  cbn [length Nat.add app] in E. change (Z.of_nat 0) with 0 in E. rewrite E.
  - unfold modify. by rewrite El.
  - unfold handles. by rewrite take_drop.
  - rewrite El. unfold num. lia.
Qed.

Lemma inv_cleared b : inv b -> inv (cleared b).
Proof.
  intros [[Hd Hn] [HL Lh] Hp Hs Hpl Hsz Hfm]. split; try done.
  - cbn. lia.
  - cbn. split; [done|]. rewrite length_app, length_replicate, length_drop. unfold num. lia.
  - cbn. intros sz [= <-]. by split.
Qed.

(** ** Pushing through a callback *)

Fixpoint push_cb (image : Z -> option IImage) (hs : list Z) (b : batch) : batch * outcome unit :=
  match hs with
  | [] => (b, Ok tt)
  | hd :: hs =>
      if m_numImages b =? capacity b then (b, Throw NVCV_ERROR_OVERFLOW)
      else match accept image hd with
           | Some e => push_cb image hs (pushed hd e b)
           | None => (b, Throw NVCV_ERROR_INVALID_ARGUMENT)
           end
  end.

Lemma each_push_cb image `{!ImageHandles image} hs b : inv b -> pending b = [] ->
  each (fun h =>
       b ← get;
       _ ← lift (throw_if (m_numImages b =? capacity b) NVCV_ERROR_OVERFLOW (Ok tt));
       doPushImage image h) hs b = push_cb image hs b.
Proof.
  revert b. induction hs as [|hd hs IH]; intros b I Hp; [done|]. cbn [each push_cb]. rewrite !bind_run. cbn [get].
  rewrite !bind_run. unfold lift. pose proof (inv_counts b I) as [? ?].
  destruct (Z.eqb_spec (m_numImages b) (capacity b)); [done|]. cbn [throw_if]. rewrite doPushImage_spec by (done || lia).
  destruct (accept image hd) as [e|] eqn:Ea; [|done]. pose proof (accept_planes image hd e Ea).
  apply IH; [apply inv_pushed; (done || lia)|done].
Qed.

Lemma push_cb_inv image `{!ImageHandles image} hs b b' o : inv b -> pending b = [] -> push_cb image hs b = (b', o) ->
  inv b' /\ m_numImages b <= m_numImages b' /\ m_dirtyStartingFromIndex b' = m_dirtyStartingFromIndex b /\ o <> Stuck.
Proof.
  revert b. induction hs as [|hd hs IH]; intros b I Hp; cbn [push_cb]; [by intros [= <- <-]|].
  pose proof (inv_counts b I) as [? ?]. destruct (Z.eqb_spec (m_numImages b) (capacity b)); [by intros [= <- <-]|].
  destruct (accept image hd) as [e|] eqn:Ea; [|by intros [= <- <-]]. pose proof (accept_planes image hd e Ea).
  intros H2. apply IH in H2 as (? & Hn & Hd & ?); [|apply inv_pushed; (done || lia)|done]. cbn in Hn, Hd. split_and!; (done || lia).
Qed.

Lemma pushImages_callback_inv image `{!ImageHandles image} fails hs b b' o : inv b -> pushImages_callback image fails hs b = (b', o) ->
  inv b' /\ o <> Stuck.
Proof.
  intros I. unfold pushImages_callback. rewrite !bind_run. cbn [get]. rewrite !bind_run. unfold check_throw.
  destruct (fails cudaEventSynchronize); [by intros [= <- <-]|]. rewrite !bind_run. unfold modify at 1, on_throw.
  rewrite each_push_cb by first [by apply inv_synchronize|done]. destruct (push_cb image hs _) as [b1 o1] eqn:E.
  apply push_cb_inv in E as (I1 & Hn & Hd & Ho); [|done|by apply inv_synchronize|done]. cbn in Hn, Hd.
  pose proof (inv_counts b I) as [? ?].
  destruct o1 as [[]| st |]; intros [= <- <-]; [done| |done]. split; [|done]. apply inv_rollback; [done|lia].
Qed.

(** ** Reading the handles *)

Definition take_refs (hs : list Z) (m : gmap Z Z) : gmap Z Z :=
  foldl (fun m hd => if hd =? 0 then m else <[hd := refs_of m hd + 1]> m) m hs.

Lemma each_IncRef hs b : each (fun hd => if hd =? 0 then mret tt else CoreObjectIncRef hd) hs b
  = (set_refs (take_refs hs (refs b)) b, Ok tt).
Proof.
  revert b. induction hs as [|hd hs IH]; intros b; [by destruct b|]. cbn [each]. rewrite bind_run.
  unfold take_refs. cbn [foldl]. destruct (hd =? 0); [apply IH|]. unfold CoreObjectIncRef, modify. by rewrite IH.
Qed.

Lemma collect_rd (l : list Z) k ix hs acc : Forall2 (fun i x => rd l (i + k) = Ok x) ix hs ->
  mfold (fun l' i => h ← rd l (i + k); Ok (l' ++ [h])) ix acc = Ok (acc ++ hs).
Proof.
  intros HF. revert acc. induction HF as [|i x ix hs Hx _ IH]; intros acc; cbn [mfold]; [by rewrite app_nil_r|].
  rewrite Hx. cbn [mbind outcome_bind]. by rewrite IH, <- app_assoc.
Qed.

Lemma getImages_spec beg n b : inv b -> in_s 32 (beg + n) ->
  getImages beg n b = if beg <? 0 then (b, Throw NVCV_ERROR_INVALID_ARGUMENT)
    else if m_numImages b <? beg + n then (b, Throw NVCV_ERROR_OVERFLOW)
    else let hs := slice beg (beg + n) (m_imgHandleBuffer b) in (set_refs (take_refs hs (refs b)) b, Ok hs).
Proof.
  intros I Hs. pose proof (inv_counts b I) as [Hd Hn]. pose proof (inv_lengths b I) as [_ Lh]. unfold getImages.
  rewrite !bind_run. cbn [get]. rewrite !bind_run. unfold lift at 1. destruct (Z.ltb_spec beg 0); [done|]. cbn [throw_if].
  rewrite !bind_run. unfold lift at 1. rewrite int32_ok by done. rewrite !bind_run. unfold lift at 1.
  destruct (Z.ltb_spec (m_numImages b) (beg + n)); [done|]. cbn [throw_if]. rewrite !bind_run. unfold lift.
  rewrite (collect_rd (m_imgHandleBuffer b) beg (zrange 0 n) (slice beg (beg + n) (m_imgHandleBuffer b)) []).
  - rewrite !bind_run. cbn [app]. by rewrite each_IncRef.
  - pose proof (rd_slice (m_imgHandleBuffer b) beg (beg + n) ltac:(lia) ltac:(lia)) as HF.
    replace (zrange beg (beg + n)) with ((fun i => i + beg) <$> zrange 0 n) in HF; [by apply Forall2_fmap_l in HF|].
    unfold zrange. replace (beg + n - beg) with (n - 0) by lia. rewrite <- list_fmap_compose. apply list_fmap_ext. intros i x _. cbn. lia.
Qed.

(** ** Every operation *)

(** [fails]: the calls of the CUDA runtime that fail meanwhile. *)
Inductive op :=
| Push (fails : runtime_call -> option NVCVStatus) (images : option (list Z)) (numImages : Z)
| PushCallback (fails : runtime_call -> option NVCVStatus) (images : list Z)
| Pop (numImages : Z)
| Clear
| Export (fails : runtime_call -> option NVCVStatus)
| MaxSize
| UniqueFormat
| GetImages (begIndex numImages : Z)
| CopyDone.

Definition ignore {A} (r : batch * outcome A) : batch * outcome unit :=
  (r.1, match r.2 with Ok _ => Ok tt | Throw st => Throw st | Stuck => Stuck end).

Definition run (image : Z -> option IImage) (o : op) (b : batch) : batch * outcome unit :=
  match o with
  | Push fails l n => pushImages image fails l n b
  | PushCallback fails l => pushImages_callback image fails l b
  | Pop n => popImages n b
  | Clear => clear b
  | Export fails => ignore (exportData fails b)
  | MaxSize => ignore (maxSize b)
  | UniqueFormat => ignore (uniqueFormat b)
  | GetImages beg n => ignore (getImages beg n b)
  | CopyDone => (copy_step b, Ok tt)
  end.

(** Arguments an [int] holds, and arrays as long as they are said to be. *)
Definition valid_op (o : op) (b : batch) : Prop :=
  match o with
  | Push _ (Some l) n => in_s 32 n /\ in_s 32 (n + m_numImages b) /\ n <= Z.of_nat (length l)
  | Pop n => in_s 32 n
  | GetImages beg n => in_s 32 (beg + n)
  | _ => True
  end.

Lemma pushImages_inv image `{!ImageHandles image} fails l n b b' o : inv b -> valid_op (Push fails (Some l) n) b ->
  pushImages image fails (Some l) n b = (b', o) -> inv b' /\ o <> Stuck.
Proof.
  intros I (H1 & H2 & H3). rewrite pushImages_spec by done. destruct (Z.ltb_spec (capacity b) (n + m_numImages b)); [by intros [= <- <-]|].
  destruct (fails cudaEventSynchronize); [by intros [= <- <-]|]. pose proof (inv_counts b I) as [? ?].
  destruct (push_all _ _ _) as [b1 ok] eqn:EP. apply (push_all_spec image) in EP as (hs' & es & [A1 _ _ A4 A5 _ _ _ _] & _);
    [|by apply inv_synchronize|done|cbn; rewrite length_take; lia]. cbn in A4, A5.
  destruct ok; intros [= <- <-]; [done|]. split; [|done]. apply inv_rollback; [done|lia].
Qed.

Lemma maxSize_spec b : inv b -> maxSize b = (updated b, Ok (default (max_of (images b)) (m_cacheMaxSize (cache b)))).
Proof. intros I. unfold maxSize. rewrite !bind_run, doUpdateCache_spec by done. by rewrite !bind_run. Qed.

Lemma uniqueFormat_spec b : inv b ->
  uniqueFormat b = (updated b, Ok (default NVCV_IMAGE_FORMAT_NONE (m_cacheUniqueFormat (cache b)))).
Proof. intros I. unfold uniqueFormat. rewrite !bind_run, doUpdateCache_spec by done. by rewrite !bind_run. Qed.

Lemma run_inv image `{!ImageHandles image} o b b' r : inv b -> valid_op o b -> run image o b = (b', r) -> inv b' /\ r <> Stuck.
Proof.
  intros I V. destruct o as [fails [l|] n|fails l|k| |fails| | |beg n|]; cbn [run].
  - by apply pushImages_inv.
  - by intros [= <- <-].
  - by apply pushImages_callback_inv.
  - rewrite popImages_spec by done. destruct (Z.ltb_spec k 0); [by intros [= <- <-]|].
    destruct (Z.ltb_spec (m_numImages b) k); intros [= <- <-]; [done|]. split; [apply inv_popped; (done || lia)|done].
  - rewrite clear_spec by done. intros [= <- <-]. split; [by apply inv_cleared|done].
  - destruct (exportData_spec fails b I) as [->|(c & st & _ & [-> | ->])]; intros [= <- <-]; (split; [|done]);
      [apply inv_updated, inv_queued; done|done|by apply inv_set_stray].
  - rewrite maxSize_spec by done. intros [= <- <-]. split; [by apply inv_updated|done].
  - rewrite uniqueFormat_spec by done. intros [= <- <-]. split; [by apply inv_updated|done].
  - rewrite getImages_spec by done. destruct (beg <? 0); [by intros [= <- <-]|].
    destruct (m_numImages b <? beg + n); intros [= <- <-]; [done|]. split; [by apply inv_set_refs|done].
  - intros [= <- <-]. split; [by apply inv_copy_step|done].
Qed.

(** The batches that operations lead to, from one just constructed. *)
Inductive reachable (image : Z -> option IImage) : batch -> Prop :=
| reach_construct reqs x hs : 0 <= req_capacity reqs < 2 ^ 31 -> lengths (Z.to_nat (req_capacity reqs)) x ->
    length hs = Z.to_nat (req_capacity reqs) -> reachable image (construct reqs x hs)
| reach_run o b b' r : reachable image b -> valid_op o b -> run image o b = (b', r) -> reachable image b'.

Lemma inv_construct reqs x hs : 0 <= req_capacity reqs < 2 ^ 31 -> lengths (Z.to_nat (req_capacity reqs)) x ->
  length hs = Z.to_nat (req_capacity reqs) -> inv (construct reqs x hs).
Proof.
  intros Hc HL Hh. split; try done. cbn. intros sz [= <-]. by split.
Qed.

Lemma reachable_batch_inv image `{!ImageHandles image} b : reachable image b -> inv b.
Proof. induction 1 as [|o b b' r _ I V H]; [by apply inv_construct|]. by eapply run_inv. Qed.

(** C25: the invariant of image batches. In every state that any sequence of
    operations leads to, failed ones included, whichever calls of the CUDA runtime fail, and with
    the queued copies finishing at any time between them, the counters are in range, what is not
    marked dirty reaches the device as long as no export failed after it queued a copy, and the caches are sound; and no operation
    on such a state fails an assertion or leaves its buffers. *)
Theorem batch_invariant image `{!ImageHandles image} b o :
  reachable image b -> inv b /\ (valid_op o b -> (run image o b).2 <> Stuck).
Proof.
  intros HR. pose proof (reachable_batch_inv image b HR) as I. split; [done|]. intros V.
  destruct (run image o b) as [b' r] eqn:E. by apply (run_inv image o b b' r).
Qed.

(** ** References *)

(** One reference for each place an image has in the batch. *)
Definition balanced (b : batch) : Prop :=
  forall hd, hd <> 0 -> refs_of (refs b) hd = Z.of_nat (count_occ Z.eq_dec (handles b) hd).

(** A batch owns one reference per image it holds. Starting with an empty
    batch, every successful push, removal, clearing and export keeps the
    references taken less the references dropped, for each image, equal to the
    number of its places in the batch. *)
Theorem references_balanced image `{!ImageHandles image} b o b' :
  reachable image b -> balanced b -> valid_op o b -> run image o b = (b', Ok tt) ->
  match o with PushCallback _ _ | GetImages _ _ => False | Push _ (Some _) n => 0 <= n | _ => True end ->
  balanced b'.
Proof.
  intros HR HB V H Ho. pose proof (reachable_batch_inv image b HR) as I. pose proof (inv_counts b I) as [Hd Hn].
  destruct o as [fails [l|] n|fails l|k| |fails| | |beg n|]; cbn [run] in H; try done.
  - destruct V as (V1 & V2 & V3). rewrite (pushImages_spec image) in H by done.
    destruct (Z.ltb_spec (capacity b) (n + m_numImages b)); [done|].
    destruct (fails cudaEventSynchronize); [done|]. destruct (push_all _ _ _) as [b1 []] eqn:EP; [|done]. injection H as <-.
    apply (push_all_spec image) in EP as (hs' & es & [_ _ _ _ _ _ _ A8 _] & _ & -> & HRf);
      [|by apply inv_synchronize|done|cbn; rewrite length_take; lia].
    intros hd Hne. rewrite HRf, A8, count_occ_app. change (refs (synchronize b)) with (refs b).
    change (handles (synchronize b)) with (handles b). rewrite (HB hd Hne). lia.
  - cbn in V. rewrite popImages_spec in H by done. destruct (Z.ltb_spec k 0); [done|].
    destruct (Z.ltb_spec (m_numImages b) k); [done|]. injection H as <-.
    destruct (popped_contents k b) as (_ & _ & EH); [lia|]. intros hd Hne. rewrite EH. unfold popped. cbn [refs set_cache set_dirty set_num set_refs].
    rewrite refs_of_drop, HB, count_occ_rev by done.
    rewrite <- (take_drop (Z.to_nat (m_numImages b - k)) (handles b)) at 1. rewrite count_occ_app.
    assert (slice (m_numImages b - k) (m_numImages b) (m_imgHandleBuffer b) = drop (Z.to_nat (m_numImages b - k)) (handles b)) as ->; [|lia].
    unfold slice, handles, num. rewrite take_drop_commute. f_equal. f_equal. lia.
  - rewrite clear_spec in H by done. injection H as <-. intros hd Hne. assert (handles (cleared b) = []) as -> by done.
    unfold cleared. cbn [refs set_cache set_dirty set_num set_handles set_refs]. rewrite refs_of_drop, HB by done. cbn. lia.
  - destruct (exportData_spec fails b I) as [E|(c & st & _ & [E|E])]; rewrite E in H; try done.
    injection H as <-. unfold queued. by destruct (_ <? _).
  - rewrite maxSize_spec in H by done. by injection H as <-.
  - rewrite uniqueFormat_spec in H by done. by injection H as <-.
  - injection H as <-. unfold copy_step. by destruct (pending b).
Qed.

(** ** Images that the library creates *)

(** Images with requirements computed by the library provide the interface. *)
Definition created (img : Image) : Prop :=
  exists dev size fmt uba ura d P, valid_image_request dev size fmt uba ura (d :: P)
  /\ Image.CalcRequirements dev size fmt uba ura = Ok (im_reqs img).

#[local] Opaque planePixelStrideBytes ImageFormat.css.

Lemma created_handles (store : Z -> option Image) :
  store 0 = None -> (forall hd img, store hd = Some img -> created img) -> ImageHandles (fun hd => Image_IImage <$> store hd).
Proof.
  intros H0 HC. split; [by rewrite H0|]. intros hd img' H _. destruct (store hd) as [img|] eqn:E; [|done].
  injection H as <-. destruct (HC hd img E) as (dev & size & fmt & uba & ura & d & P & V & HR).
  destruct img as [reqs buf]. cbn [im_reqs] in HR. eexists. split; [by eapply created_export|]. intros _.
  destruct (Image.image_CalcRequirements_ok _ _ _ _ _ _ V) as (cuda & E2 & _ & _). rewrite HR in E2. injection E2 as ->.
  destruct V as [_ _ _ [HP _] _ HF _ _]. apply Forall_cons in HF as [(Hw & Hh & _) _].
  pose proof (HP 0%nat d eq_refl) as E0. change (0 + Z.of_nat 0) with 0 in E0. unfold plane_dim_of in E0.
  change (ImageFormat.planeSize fmt size 0) with (Ok size) in E0. cbn [mbind outcome_bind] in E0. ok_inv.
  unfold has_plane, img_size_of. cbn [strided_buffer planes layout_planes img_size Image_IImage im_reqs ir_width ir_height lookup list_lookup].
  split; [eexists; split; [done|]; cbn; lia|]. subst d. done.
Qed.

(** ** Concrete batches *)

Module Concrete.

Definition image_of (size : Size2D) (fmt : Z) : Image :=
  match Image.CalcRequirements device0 size fmt 0 0 with
  | Ok reqs => mkImage reqs 4096
  | _ => mkImage (mkImageReqs 0 0 0 [] 0 Init) 0
  end.

Definition nv12 : Image := image_of (mkSize2D 641 479) NVCV_IMAGE_FORMAT_NV12.
Definition gray : Image := image_of (mkSize2D 7 5) NVCV_IMAGE_FORMAT_U8.

(** Handles 1 and 3 are images of one format, handle 2 of another. *)
Definition store (hd : Z) : option Image :=
  if hd =? 1 then Some gray else if hd =? 2 then Some nv12 else if hd =? 3 then Some gray else None.

Definition image (hd : Z) : option IImage := Image_IImage <$> store hd.

Lemma gray_valid : valid_image_request device0 (mkSize2D 7 5) NVCV_IMAGE_FORMAT_U8 0 0 [mkPlaneDim 7 5 1].
Proof.
  split.
  - split; [by exists 5|by exists 9].
  - split; by left.
  - vm_compute. reflexivity.
  - split; [|vm_compute; reflexivity]. intros [|k] d Hd; [injection Hd as <-; vm_compute; reflexivity|done].
  - vm_compute. discriminate.
  - repeat constructor; vm_compute; (discriminate || reflexivity).
  - intros p Hp. assert (ImageFormat.numPlanes NVCV_IMAGE_FORMAT_U8 = 1) as E by (vm_compute; reflexivity). rewrite E in Hp.
    assert (p = 0) as -> by lia. eexists; (split; [vm_compute; reflexivity|lia]).
  - vm_compute. reflexivity.
Qed.

#[export] Instance image_handles : ImageHandles image.
Proof.
  apply (created_handles store); [done|]. intros hd img. unfold store.
  assert (created gray) as Hg.
  { exists device0, (mkSize2D 7 5), NVCV_IMAGE_FORMAT_U8, 0, 0, (mkPlaneDim 7 5 1), []. split; [exact gray_valid|].
    vm_compute. reflexivity. }
  assert (created nv12) as Hn.
  { exists device0, (mkSize2D 641 479), NVCV_IMAGE_FORMAT_NV12, 0, 0, (mkPlaneDim 641 479 1), [mkPlaneDim 321 240 2].
    split; [exact nv12_request_valid|]. vm_compute. reflexivity. }
  assert (forall a b : Image, Some a = Some b -> created a -> created b) as Hs by (intros a b E Ha; injection E as E; by rewrite <- E).
  destruct (hd =? 1); [intros E; exact (Hs gray img E Hg)|]. destruct (hd =? 2); [intros E; exact (Hs nv12 img E Hn)|].
  destruct (hd =? 3); [intros E; exact (Hs gray img E Hg)|discriminate].
Qed.

Definition junk : NVCVImageBufferStrided := mkImageBuffer 9 [].

Definition buffers0 : buffers := mkBuffers (replicate 3 junk) (replicate 3 junk) (replicate 3 77) (replicate 3 78).

(** An empty batch with room for three images. *)
Definition batch0 : batch := construct (mkBatchReqs 3 8 Init) buffers0 (replicate 3 79).

Lemma batch0_reachable : reachable image batch0.
Proof. by apply reach_construct. Qed.

(** No call fails. *)
Definition cuda_ok (c : runtime_call) : option NVCVStatus := None.

(** Sequences of operations, with the last outcome. *)
Fixpoint run_all (l : list op) (b : batch) : batch * outcome unit :=
  match l with [] => (b, Ok tt) | [o] => run image o b | o :: l => run_all l (run image o b).1 end.

Lemma batch_invariant_witness : (run image (Export cuda_ok) batch0).2 <> Stuck.
Proof. exact (proj2 (batch_invariant image batch0 (Export cuda_ok) batch0_reachable) I). Defined.


Lemma pop_images_witness : exists b' o, popImages 1 batch0 = (b', o) /\ o = Throw NVCV_ERROR_UNDERFLOW.
Proof.
  destruct (pop_images 1 batch0) as (b' & o & E & _ & H);
    [apply (reachable_batch_inv image), batch0_reachable|unfold in_s; lia|].
  exists b', o. split; [exact E|]. change (1 <? 0) with false in H. change (m_numImages batch0 <? 1) with true in H. exact (proj1 H).
Defined.

Definition batch2 : batch := (run image (Push cuda_ok (Some [1; 2]) 2) batch0).1.

Lemma batch2_reachable : reachable image batch2.
Proof.
  apply (reach_run image (Push cuda_ok (Some [1; 2]) 2) batch0 batch2 (run image (Push cuda_ok (Some [1; 2]) 2) batch0).2 batch0_reachable).
  - repeat split; vm_compute; discriminate.
  - vm_compute. reflexivity.
Qed.

Lemma export_synchronizes_witness :
  exists b' d, exportData cuda_ok batch2 = (b', Ok d) /\ synced 2 (bufs (synchronize b')).
Proof.
  destruct (export_synchronizes cuda_ok batch2) as (b' & r & E & _ & _ & _ & _ & _ & _ & [(d & -> & _ & H & _)|(c & st & Hc & _)]);
    [apply (reachable_batch_inv image), batch2_reachable| |discriminate Hc].
  exists b', d. split; [exact E|]. apply H. vm_compute. reflexivity.
Defined.

(** When the second copy of an export fails, the first was queued all the same, and
    nothing waits for it. *)
Lemma failed_export_strays :
  let r := exportData (fun c => match c with cudaMemcpyAsync_formats => Some NVCV_ERROR_INTERNAL | _ => None end) batch2 in
  r.2 = Throw NVCV_ERROR_INTERNAL /\ stray r.1 = true /\ m_dirtyStartingFromIndex r.1 = 0 /\ pending r.1 = [].
Proof. vm_compute. done. Qed.

Lemma references_balanced_witness :
  exists b', run image (Push cuda_ok (Some [1; 1]) 2) batch0 = (b', Ok tt) /\ balanced b'.
Proof.
  destruct (run image (Push cuda_ok (Some [1; 1]) 2) batch0) as [b' o] eqn:E. assert (o = Ok tt) as -> by (vm_compute in E; by injection E).
  exists b'. split; [reflexivity|].
  apply (references_balanced image batch0 (Push cuda_ok (Some [1; 1]) 2) b' batch0_reachable).
  - intros hd _. reflexivity.
  - repeat split; vm_compute; discriminate.
  - exact E.
  - lia.
Defined.

(** When a push fails, the references to the images before the failing one stay. *)
Lemma failed_push_leaks :
  let '(b, o) := pushImages image cuda_ok (Some [1; 5]) 2 batch0 in
  o = Throw NVCV_ERROR_INVALID_ARGUMENT /\ m_numImages b = 0 /\ refs_of (refs b) 1 = 1.
Proof. vm_compute. done. Qed.

(** A failed push of a large image leaves its size as the maximum. *)
Lemma failed_push_spoils_maximum :
  let b := (pushImages image cuda_ok (Some [1]) 1 batch0).1 in
  let b := (pushImages image cuda_ok (Some [2; 5]) 2 b).1 in
  max_of (images b) = mkSize2D 7 5 /\ (maxSize b).2 = Ok (mkSize2D 641 479).
Proof. vm_compute. done. Qed.

(** After a failed push an empty batch has a format. *)
Lemma failed_push_leaves_format :
  let b := (pushImages image cuda_ok (Some [1; 5]) 2 batch0).1 in
  m_numImages b = 0 /\ (uniqueFormat b).2 = Ok NVCV_IMAGE_FORMAT_U8.
Proof. vm_compute. done. Qed.

(** Removing the only image of another format does not restore the unique format. *)
Lemma pop_keeps_mixed_format :
  let b := (run_all [Push cuda_ok (Some [1; 2]) 2; Pop 1] batch0).1 in
  formats b = [NVCV_IMAGE_FORMAT_U8] /\ (uniqueFormat b).2 = Ok NVCV_IMAGE_FORMAT_NONE.
Proof. vm_compute. done. Qed.

End Concrete.
