(* ===== verification/Array.v ===== *)
(** * Arrays (priv/Array.cpp, priv/ArrayWrapData.cpp, nvcv/Array.h, nvcv/ArrayData.h)

    An array of elements of one type with a capacity fixed at creation and a
    length that can change: how its memory is sized and aligned, what it exports,
    and the length. Memory of the caller can be wrapped as an array. *)
From S2P Require Import Prelude Allocators MathUtil Requirements DataLayout ImageFormat Tensor.
From stdpp Require Import options.

#[local] Open Scope Z_scope.

(** ** Data *)

(** [Unknown]: a value of the C type that is none of the enumerators. *)
Inductive NVCVResourceType := NVCV_RESOURCE_MEM_HOST | NVCV_RESOURCE_MEM_CUDA | NVCV_RESOURCE_MEM_HOST_PINNED | Unknown.

#[global] Instance NVCVResourceType_eq_dec : EqDecision NVCVResourceType.
Proof. solve_decision. Defined.

Inductive NVCVArrayBufferType :=
| NVCV_ARRAY_BUFFER_NONE | NVCV_ARRAY_BUFFER_CUDA | NVCV_ARRAY_BUFFER_HOST | NVCV_ARRAY_BUFFER_HOST_PINNED.

Record NVCVArrayBufferStrided := mkArrayBuffer { stride : Z; basePtr : Z }.

Record NVCVArrayData := mkArrayData {
  dtype : Z; length : Z; capacity : Z; bufferType : NVCVArrayBufferType; buffer : NVCVArrayBufferStrided }.

Record NVCVArrayRequirements := mkArrayReqs {
  ar_dtype : Z; ar_capacity : Z; ar_stride : Z; ar_alignBytes : Z; ar_mem : NVCVRequirements }.

Definition ResourceToBufferType (target : NVCVResourceType) : outcome NVCVArrayBufferType :=
  match target with
  | NVCV_RESOURCE_MEM_CUDA => Ok NVCV_ARRAY_BUFFER_CUDA
  | NVCV_RESOURCE_MEM_HOST => Ok NVCV_ARRAY_BUFFER_HOST
  | NVCV_RESOURCE_MEM_HOST_PINNED => Ok NVCV_ARRAY_BUFFER_HOST_PINNED
  | Unknown => Throw NVCV_ERROR_INVALID_ARGUMENT
  end.

(** ** Requirements *)

Definition array_align (dtype alignment : Z) (target : NVCVResourceType) : outcome Z :=
  if alignment =? 0 then
    align ← (match target with
             | Unknown => Throw NVCV_ERROR_INVALID_ARGUMENT
             | _ => noexcept (DataType.alignment dtype)
             end);
    es ← noexcept (DataType.strideBytes dtype);
    int32 (Z.lcm align (i32 (RoundUpNextPowerOfTwo 32 es)))
  else
    throw_if (negb (IsPowerOfTwo alignment)) NVCV_ERROR_INVALID_ARGUMENT (
    align ← noexcept (DataType.alignment dtype); int32 (Z.lcm alignment align)).

(** [cudaGetDevice] is called for nothing; its failure is not modelled. *)
Definition CalcRequirements (capacity dtype alignment : Z) (target : NVCVResourceType) : outcome NVCVArrayRequirements :=
  align ← array_align dtype alignment target;
  stride ← noexcept (DataType.strideBytes dtype);
  let add (m : NVCVMemRequirements) := size ← int64 (stride * capacity); AddBuffer m size align in
  mem ← (match target with
         | NVCV_RESOURCE_MEM_CUDA => m ← add (cudaMem Init); Ok (mkRequirements m (hostMem Init) (hostPinnedMem Init))
         | NVCV_RESOURCE_MEM_HOST => m ← add (hostMem Init); Ok (mkRequirements (cudaMem Init) m (hostPinnedMem Init))
         | NVCV_RESOURCE_MEM_HOST_PINNED => m ← add (hostPinnedMem Init); Ok (mkRequirements (cudaMem Init) (hostMem Init) m)
         | Unknown => Throw NVCV_ERROR_INVALID_ARGUMENT
         end);
  Ok (mkArrayReqs dtype capacity stride align mem).

(** ** Arrays *)

Record Array := mkArray { m_reqs : NVCVArrayRequirements; m_target : NVCVResourceType; m_memBuffer : Z; m_length : Z }.

(** The memory of the kind that the array is for. *)
Definition target_mem (reqs : NVCVRequirements) (target : NVCVResourceType) : outcome NVCVMemRequirements :=
  match target with
  | NVCV_RESOURCE_MEM_CUDA => Ok (cudaMem reqs)
  | NVCV_RESOURCE_MEM_HOST => Ok (hostMem reqs)
  | NVCV_RESOURCE_MEM_HOST_PINNED => Ok (hostPinnedMem reqs)
  | Unknown => Throw NVCV_ERROR_INVALID_ARGUMENT
  end.

(** The constructor. [alloc] is what the allocator returns for a size and an
    alignment; the three allocation methods make the same checks first. *)
Definition construct (alloc : Z -> Z -> Z) (reqs : NVCVArrayRequirements) (target : NVCVResourceType) : outcome Array :=
  m ← target_mem (ar_mem reqs) target;
  bufSize ← CalcTotalSizeBytes m;
  _ ← alloc_checks bufSize (ar_alignBytes reqs);
  let p := alloc bufSize (ar_alignBytes reqs) in
  nvcv_assert (negb (p =? 0)) (Ok (mkArray reqs target p 0)).

Definition exportData (a : Array) : outcome NVCVArrayData :=
  t ← ResourceToBufferType (m_target a);
  Ok (mkArrayData (ar_dtype (m_reqs a)) (m_length a) (ar_capacity (m_reqs a)) t
    (mkArrayBuffer (ar_stride (m_reqs a)) (m_memBuffer a))).

Definition resize (length : Z) (a : Array) : Array :=
  if length <=? ar_capacity (m_reqs a) then mkArray (m_reqs a) (m_target a) (m_memBuffer a) length else a.

(** ** Wrapped memory *)

(** What the runtime knows of a pointer ([cudaPointerGetAttributes]). *)
Inductive cudaMemoryType := cudaMemoryTypeUnregistered | cudaMemoryTypeHost | cudaMemoryTypeDevice | cudaMemoryTypeManaged.

Definition ValidateArrayBuffer (attributes : Z -> option cudaMemoryType) (data : NVCVArrayData) : outcome NVCVResourceType :=
  throw_if (basePtr (buffer data) =? 0) NVCV_ERROR_INVALID_ARGUMENT (
  match attributes (basePtr (buffer data)) with
  | Some cudaMemoryTypeUnregistered => Ok NVCV_RESOURCE_MEM_HOST
  | Some (cudaMemoryTypeDevice | cudaMemoryTypeManaged) => Ok NVCV_RESOURCE_MEM_CUDA
  | Some cudaMemoryTypeHost => Ok NVCV_RESOURCE_MEM_HOST_PINNED
  | None => Throw NVCV_ERROR_INVALID_ARGUMENT
  end).

Record ArrayWrapData := mkArrayWrap { m_data : NVCVArrayData; w_target : NVCVResourceType }.

Definition wrap (attributes : Z -> option cudaMemoryType) (data : NVCVArrayData) : outcome ArrayWrapData :=
  t ← ValidateArrayBuffer attributes data; Ok (mkArrayWrap data t).

Definition wrap_exportData (a : ArrayWrapData) : NVCVArrayData := m_data a.

Definition wrap_resize (len : Z) (a : ArrayWrapData) : ArrayWrapData :=
  if len <=? capacity (m_data a)
  then mkArrayWrap (mkArrayData (dtype (m_data a)) len (capacity (m_data a)) (bufferType (m_data a)) (buffer (m_data a))) (w_target a)
  else a.

(** ** Memory *)

Lemma array_align_ok dt es al target : valid_element dt es -> valid_align al -> target <> Unknown ->
  exists a d, array_align dt al target = Ok a /\ is_pow2 a /\ DataType.alignment dt = Ok d /\ (d | a)
  /\ (al = 0 -> es <= a) /\ (al <> 0 -> (al | a)).
Proof.
  intros (Hs & He & d & Hd & Pd) Va Ht. unfold array_align. rewrite Hs, Hd. cbn [noexcept].
  destruct (Z.eqb_spec al 0) as [->|Hne].
  - assert ((match target with Unknown => Throw NVCV_ERROR_INVALID_ARGUMENT | _ => Ok d end) = Ok d) as -> by by destruct target.
    cbn [mbind outcome_bind]. destruct (next_pow2_small es He) as [Pn Hn]. pose proof (is_pow2_bounds _ Pn).
    rewrite wraps_small by (unfold in_s; lia). destruct (is_pow2_lcm d _ Pd Pn) as (Pl & D1 & D2). pose proof (is_pow2_bounds _ Pl).
    rewrite int32_ok by (unfold in_s; lia). eexists _, d. split_and!; [done|done|done|done| |done]. intros _.
    apply Z.divide_pos_le in D2; lia.
  - destruct Va as [->|Pa]; [done|]. rewrite is_pow2_IsPowerOfTwo by done. cbn [negb throw_if mbind outcome_bind].
    destruct (is_pow2_lcm al d Pa Pd) as (Pl & D1 & D2). pose proof (is_pow2_bounds _ Pl).
    rewrite int32_ok by (unfold in_s; lia). eexists _, d. by split_and!.
Qed.

(** Any number of calls of [resize]. *)
Definition resizes (ls : list Z) (a : Array) : Array := foldl (fun a l => resize l a) a ls.

Lemma resizes_same ls a : m_reqs (resizes ls a) = m_reqs a /\ m_target (resizes ls a) = m_target a
  /\ m_memBuffer (resizes ls a) = m_memBuffer a /\ (m_length a <= ar_capacity (m_reqs a) -> m_length (resizes ls a) <= ar_capacity (m_reqs a)).
Proof.
  revert a. induction ls as [|l ls IH]; intros a; [done|]. unfold resizes in *. cbn [foldl].
  destruct (IH (resize l a)) as (-> & -> & -> & HL). unfold resize in *. destruct (Z.leb_spec l (ar_capacity (m_reqs a))); [|done].
  cbn in *. split_and!; [done..|]. intros _. by apply HL.
Qed.

(** The memory of an array. For every element type of sensible size, valid
    alignment and kind of memory, and a capacity whose size fits 64 bits, the
    requirements are computed and the array is constructed; after any calls of
    [resize] its length is within the capacity and every element below the
    length lies within the memory that was allocated; and the address is aligned for the
    element type when the allocator keeps the alignment it is asked for. *)
Theorem array_memory alloc dt es al target c : valid_element dt es -> valid_align al -> target <> Unknown ->
  0 <= c -> es * c + 2 ^ 21 < 2 ^ 63 -> (forall s a, alloc s a <> 0) ->
  exists reqs arr size, CalcRequirements c dt al target = Ok reqs /\ construct alloc reqs target = Ok arr
  /\ m_memBuffer arr = alloc size (ar_alignBytes reqs)
  /\ forall ls, exists data, exportData (resizes ls arr) = Ok data
     /\ length data <= capacity data /\ capacity data = c
     /\ (forall i, 0 <= i < length data -> 0 <= i * stride (buffer data) /\ i * stride (buffer data) + es <= size)
     /\ (forall i d, DataType.alignment dt = Ok d -> (ar_alignBytes reqs | alloc size (ar_alignBytes reqs)) ->
           (d | es) -> (d | basePtr (buffer data) + i * stride (buffer data))).
Proof.
  intros VE Va Ht Hc Hs Hal. destruct (array_align_ok dt es al target VE Va Ht) as (a & d & Ha & Pa & Hd & Hda & _).
  pose proof VE as (Hes & He & _). destruct (RoundUp_spec (es * c) a) as [HR _]; [lia|pose proof (is_pow2_bounds _ Pa); lia|].
  pose proof (is_pow2_bounds _ Pa) as Ba. pose proof Pa as (k & Hk & Ek).
  destruct (AddBuffer_size mem_zero (es * c) k mem_zero_valid) as (l & HA & _); [lia|lia|rewrite mem_zero_size, <- Ek; lia|].
  rewrite <- Ek in HA. pose proof (AddBuffer_zero_total (es * c) a l ltac:(lia) ltac:(lia) Pa HA) as HT.
  set (mem := match target with
              | NVCV_RESOURCE_MEM_CUDA => mkRequirements l mem_zero mem_zero
              | NVCV_RESOURCE_MEM_HOST => mkRequirements mem_zero l mem_zero
              | _ => mkRequirements mem_zero mem_zero l end).
  exists (mkArrayReqs dt c es a mem), (mkArray (mkArrayReqs dt c es a mem) target (alloc (round_up (es * c) a) a) 0), (round_up (es * c) a).
  split_and!; [| |done|].
  - unfold CalcRequirements. rewrite Ha, Hes. cbn [noexcept mbind outcome_bind]. rewrite int64_ok by (unfold in_s; lia).
    cbn [mbind outcome_bind]. unfold Init. cbn [cudaMem hostMem hostPinnedMem]. rewrite HA. by destruct target.
  - unfold construct, target_mem. cbn [ar_mem]. assert (target_mem mem target = Ok l) as HM by by destruct target.
    unfold target_mem in HM. rewrite HM. cbn [mbind outcome_bind ar_alignBytes]. rewrite HT. cbn [mbind outcome_bind].
    rewrite alloc_checks_ok by (done || lia). cbn [mbind outcome_bind].
    pose proof (Hal (round_up (es * c) a) a) as Hn. cbv zeta. by rewrite (proj2 (Z.eqb_neq _ _) Hn).
  - intros ls. destruct (resizes_same ls (mkArray (mkArrayReqs dt c es a mem) target (alloc (round_up (es * c) a) a) 0))
      as (ER & ET & EM & HL). unfold exportData. rewrite ER, ET, EM. cbn [m_target].
    assert (exists b, ResourceToBufferType target = Ok b) as [b ->] by (destruct target; [by eexists..|done]).
    cbn [mbind outcome_bind]. eexists. split; [done|].
    cbn [length capacity buffer stride basePtr ar_capacity ar_stride m_reqs m_memBuffer ar_alignBytes m_length] in *.
    specialize (HL ltac:(lia)). split_and!; [done|done|intros i Hi; nia|].
    intros i d' Hd' Hdiv Hde. assert (d' = d) as -> by congruence. apply Z.divide_add_r; [by apply (Z.divide_trans d a)|]. by apply Z.divide_mul_r.
Qed.

(** ** A concrete array *)

Lemma U8_valid : valid_element U8 1.
Proof. split; [by vm_compute|]. split; [done|]. exists 1. split; [by vm_compute|by exists 0]. Qed.

Lemma array_memory_witness :
  exists reqs arr, CalcRequirements 100 U8 16 NVCV_RESOURCE_MEM_HOST = Ok reqs
  /\ construct (fun _ _ => 4096) reqs NVCV_RESOURCE_MEM_HOST = Ok arr /\ m_memBuffer arr = 4096.
Proof.
  destruct (array_memory (fun _ _ => 4096) U8 1 16 NVCV_RESOURCE_MEM_HOST 100) as (reqs & arr & size & H1 & H2 & H3 & H4).
  - exact U8_valid.
  - right. exists 4. split; [lia|reflexivity].
  - discriminate.
  - lia.
  - lia.
  - intros s a. discriminate.
  - exists reqs, arr. split; [exact H1|]. split; [exact H2|exact H3].
Defined.

(** A length beyond the capacity is ignored without an error, a negative one is accepted. *)
Lemma resize_unchecked :
  let a := mkArray (mkArrayReqs U8 100 1 1 Init) NVCV_RESOURCE_MEM_CUDA 4096 5 in
  m_length (resize 101 a) = 5 /\ m_length (resize (-7) a) = -7.
Proof. by vm_compute. Qed.

(** The alignment of a type narrower than a byte is computed as 0, so there are no
    arrays of such types, whatever alignment is asked for. *)
Lemma narrow_type_refused :
  let X4 := DataType.make NVCV_DATA_KIND_UNSIGNED NVCV_PACKING_X4 in
  CalcRequirements 8 X4 0 NVCV_RESOURCE_MEM_CUDA = Throw NVCV_ERROR_INVALID_ARGUMENT
  /\ CalcRequirements 8 X4 8 NVCV_RESOURCE_MEM_CUDA = Throw NVCV_ERROR_INVALID_ARGUMENT.
Proof. by vm_compute. Qed.
