(* ===== verification/TensorBatch.v ===== *)
(** * Batches of tensors (priv/TensorBatch.cpp)

    A batch keeps the handles of its tensors, a reference to each, and the range
    of those that changed since the last export. An export describes the changed
    tensors in a pinned buffer and queues its copy to the device. *)
From S2P Require Import Prelude Effects MathUtil Requirements ImageFormat TensorLayout Handles TensorData.
From stdpp Require Import options.

#[local] Open Scope Z_scope.

(** ** State *)

(** [shape] and [stride] are arrays of [NVCV_TENSOR_MAX_RANK] integers. *)
Record NVCVTensorBatchElementStrided := mkElement { e_data : Z; e_shape : list Z; e_stride : list Z }.

Record NVCVTensorBatchRequirements := mkBatchReqs { req_capacity : Z; req_alignBytes : Z; req_mem : NVCVRequirements }.

(** [pending]: the ranges of the copies queued and not finished that the event
    [m_evPostFence] covers, oldest first; [stray]: a copy was queued that no event
    covers, because recording the event failed: nothing waits for it, and from then on
    the contents of the device buffer are not known;
    [tensors]: the objects behind all handles. The accessors of a tensor return
    the fields of the data it exports, which stands for it. *)
Record batch := mkBatch {
  capacity : Z;
  m_dirtyBegin : Z;
  m_dirtyEnd : Z;
  m_numTensors : Z;
  m_Tensors : list Z;
  m_pinnedTensorsBuffer : list NVCVTensorBatchElementStrided;
  m_devTensorsBuffer : list NVCVTensorBatchElementStrided;
  m_dtype : Z;
  m_layout : NVCVTensorLayout;
  m_rank : Z;
  pending : list (Z * Z);
  stray : bool;
  tensors : objects NVCVTensorData }.

Definition set_dirty (lo hi : Z) (b : batch) : batch :=
  mkBatch (capacity b) lo hi (m_numTensors b) (m_Tensors b) (m_pinnedTensorsBuffer b) (m_devTensorsBuffer b)
    (m_dtype b) (m_layout b) (m_rank b) (pending b) (stray b) (tensors b).
Definition set_num (n : Z) (b : batch) : batch :=
  mkBatch (capacity b) (m_dirtyBegin b) (m_dirtyEnd b) n (m_Tensors b) (m_pinnedTensorsBuffer b) (m_devTensorsBuffer b)
    (m_dtype b) (m_layout b) (m_rank b) (pending b) (stray b) (tensors b).
Definition set_handles (l : list Z) (b : batch) : batch :=
  mkBatch (capacity b) (m_dirtyBegin b) (m_dirtyEnd b) (m_numTensors b) l (m_pinnedTensorsBuffer b) (m_devTensorsBuffer b)
    (m_dtype b) (m_layout b) (m_rank b) (pending b) (stray b) (tensors b).
Definition set_pinned (l : list NVCVTensorBatchElementStrided) (b : batch) : batch :=
  mkBatch (capacity b) (m_dirtyBegin b) (m_dirtyEnd b) (m_numTensors b) (m_Tensors b) l (m_devTensorsBuffer b)
    (m_dtype b) (m_layout b) (m_rank b) (pending b) (stray b) (tensors b).
Definition set_copies (dev : list NVCVTensorBatchElementStrided) (p : list (Z * Z)) (b : batch) : batch :=
  mkBatch (capacity b) (m_dirtyBegin b) (m_dirtyEnd b) (m_numTensors b) (m_Tensors b) (m_pinnedTensorsBuffer b) dev
    (m_dtype b) (m_layout b) (m_rank b) p (stray b) (tensors b).
Definition set_type (dt : Z) (L : NVCVTensorLayout) (r : Z) (b : batch) : batch :=
  mkBatch (capacity b) (m_dirtyBegin b) (m_dirtyEnd b) (m_numTensors b) (m_Tensors b) (m_pinnedTensorsBuffer b)
    (m_devTensorsBuffer b) dt L r (pending b) (stray b) (tensors b).
Definition set_stray (b : batch) : batch :=
  mkBatch (capacity b) (m_dirtyBegin b) (m_dirtyEnd b) (m_numTensors b) (m_Tensors b) (m_pinnedTensorsBuffer b)
    (m_devTensorsBuffer b) (m_dtype b) (m_layout b) (m_rank b) (pending b) true (tensors b).
Definition set_tensors (m : objects NVCVTensorData) (b : batch) : batch :=
  mkBatch (capacity b) (m_dirtyBegin b) (m_dirtyEnd b) (m_numTensors b) (m_Tensors b) (m_pinnedTensorsBuffer b)
    (m_devTensorsBuffer b) (m_dtype b) (m_layout b) (m_rank b) (pending b) (stray b) m.

#[global] Instance batch_objects : HasObjects batch NVCVTensorData := {| objs := tensors; set_objs := set_tensors |}.

(** ** Requirements and construction *)

Definition sizeof_BatchElement : Z := 256.
Definition alignof_BatchElement : Z := 128.

(** [capacity * sizeof(BatchElement)] is a [size_t], passed as an [int64_t]. *)
Definition buf_size (capacity : Z) : Z := i64 (u64 (u64 capacity * sizeof_BatchElement)).

Definition CalcRequirements (capacity : Z) : outcome NVCVTensorBatchRequirements :=
  let align := i32 (RoundUpNextPowerOfTwo 32 alignof_BatchElement) in
  throw_if (NVCV_MAX_MEM_REQUIREMENTS_BLOCK_SIZE <? align) NVCV_ERROR_INVALID_ARGUMENT (
  c ← AddBuffer (cudaMem Init) (buf_size capacity) align;
  p ← AddBuffer (hostPinnedMem Init) (buf_size capacity) align;
  m ← AddBuffer (hostMem Init) (buf_size capacity) align;
  Ok (mkBatchReqs capacity align (mkRequirements c m p))).

(** The batch after construction; the contents of the buffers are indeterminate. *)
Definition construct (reqs : NVCVTensorBatchRequirements) (handles : list Z)
    (pinned dev : list NVCVTensorBatchElementStrided) (m : objects NVCVTensorData) : batch :=
  mkBatch (req_capacity reqs) 0 0 0 handles pinned dev NVCV_DATA_TYPE_NONE (NVCV_TENSOR_LAYOUT_MAKE "") (-1) [] false m.

(** ** Exporting *)

(** [cudaEventSynchronize(m_evPostFence)]: every copy queued has finished. *)
Definition synchronize (b : batch) : batch :=
  set_copies (foldl (copy_back (m_pinnedTensorsBuffer b)) (m_devTensorsBuffer b) (pending b)) [] b.

(** The oldest copy queued finishes. *)
Definition copy_step (b : batch) : batch :=
  match pending b with
  | [] => b
  | r :: rest => set_copies (copy_back (m_pinnedTensorsBuffer b) (m_devTensorsBuffer b) r) rest b
  end.

(** The loop over the dimensions. *)
Definition fill_step (td : NVCVTensorData) (e : NVCVTensorBatchElementStrided) (d : Z) : outcome NVCVTensorBatchElementStrided :=
  n ← rd (shape td) d;
  s ← rd (strides (buffer td)) d;
  sh ← wr (e_shape e) d n;
  st ← wr (e_stride e) d s;
  Ok (mkElement (e_data e) sh st).

Definition fill (td : NVCVTensorData) (e : NVCVTensorBatchElementStrided) : outcome NVCVTensorBatchElementStrided :=
  mfold (fill_step td) (zrange 0 (td_rank td)) (mkElement (basePtr (buffer td)) (e_shape e) (e_stride e)).

(** One round of the loop over the changed tensors. *)
Definition describe_step (i : Z) : M batch unit :=
  b ← get;
  h ← lift (rd (m_Tensors b) i);
  t ← ToStaticRef h;
  e ← lift (rd (m_pinnedTensorsBuffer b) i);
  e ← lift (fill t e);
  l ← lift (wr (m_pinnedTensorsBuffer b) i e);
  modify (set_pinned l).

Record NVCVTensorBatchData := mkBatchData { d_dtype : Z; d_layout : NVCVTensorLayout; d_rank : Z; d_numTensors : Z }.

(** The calls of the CUDA runtime that an export makes. *)
Inductive runtime_call := cudaEventSynchronize | cudaMemcpyAsync | cudaEventRecord.

Section Exporting.
(** The statuses that [NVCV_CHECK_THROW] makes of the calls that fail. *)
Context (fails : runtime_call -> option NVCVStatus).

(** [NVCV_CHECK_THROW(c)]; [failed] is what is left behind of the calls before. *)
Definition check_throw (c : runtime_call) (failed : batch -> batch) : M batch unit := fun b =>
  match fails c with Some st => (failed b, Throw st) | None => (b, Ok tt) end.

Definition exportData : M batch NVCVTensorBatchData :=
  b ← get;
  _ ← (if m_dirtyBegin b <? m_dirtyEnd b then
         _ ← check_throw cudaEventSynchronize id;
         _ ← modify synchronize;
         _ ← each describe_step (zrange (m_dirtyBegin b) (m_dirtyEnd b));
         _ ← check_throw cudaMemcpyAsync id;
         _ ← check_throw cudaEventRecord set_stray;
         modify (fun b => set_dirty (m_dirtyEnd b) (m_dirtyEnd b)
           (set_copies (m_devTensorsBuffer b) (pending b ++ [(m_dirtyBegin b, m_dirtyEnd b)]) b))
       else mret tt);
  b ← get;
  mret (mkBatchData (m_dtype b) (m_layout b) (m_rank b) (m_numTensors b)).
End Exporting.

(** ** Changing the batch

    [hs]: the array of handles that the caller passes. *)

Definition validate_step (hs : list Z) (i : Z) : M batch unit :=
  h ← lift (rd hs i);
  t ← ToStaticRef h;
  b ← get;
  _ ← lift (throw_if (negb (m_rank b =? -1) && negb (td_rank t =? m_rank b)) NVCV_ERROR_INVALID_ARGUMENT (Ok tt));
  _ ← lift (throw_if (negb (dtype t =? m_dtype b)) NVCV_ERROR_INVALID_ARGUMENT (Ok tt));
  c ← lift (nvcvTensorLayoutCompare (layout t) (m_layout b));
  lift (throw_if (negb (c =? 0)) NVCV_ERROR_INVALID_ARGUMENT (Ok tt)).

Definition validateTensors (hs : list Z) (numTensors : Z) : M batch unit := each (validate_step hs) (zrange 0 numTensors).

Definition setLayoutAndDType (hs : list Z) (numTensors : Z) : M batch unit :=
  b ← get;
  if (0 <? numTensors) && (m_numTensors b =? 0) then
    h ← lift (rd hs 0);
    t ← ToStaticRef h;
    modify (set_type (dtype t) (layout t) (td_rank t))
  else mret tt.

Definition push_step (hs : list Z) (i : Z) : M batch unit :=
  h ← lift (rd hs i);
  _ ← CoreObjectIncRef h;
  b ← get;
  l ← lift (wr (m_Tensors b) (m_numTensors b + i) h);
  modify (set_handles l).

Definition pushTensors (hs : list Z) (numTensors : Z) : M batch unit :=
  if numTensors =? 0 then mret tt else
  _ ← lift (throw_if (numTensors <? 0) NVCV_ERROR_INVALID_ARGUMENT (Ok tt));
  b ← get;
  n ← lift (int32 (m_numTensors b + numTensors));
  _ ← lift (throw_if (capacity b <? n) NVCV_ERROR_OVERFLOW (Ok tt));
  _ ← setLayoutAndDType hs numTensors;
  _ ← validateTensors hs numTensors;
  _ ← each (push_step hs) (zrange 0 numTensors);
  modify (fun b =>
    let b := if m_dirtyEnd b =? m_dirtyBegin b then set_dirty (m_numTensors b) (m_dirtyEnd b) b else b in
    let b := set_num (i32 (m_numTensors b + numTensors)) b in
    set_dirty (m_dirtyBegin b) (m_numTensors b) b).

Definition drop_step (i : Z) : M batch unit :=
  b ← get; h ← lift (rd (m_Tensors b) i); _ ← CoreObjectDecRef h; mret tt.

(** The batch is empty again. *)
Definition reset_type (b : batch) : batch := set_type NVCV_DATA_TYPE_NONE (NVCV_TENSOR_LAYOUT_MAKE "") (-1) b.

Definition popTensors (numTensors : Z) : M batch unit :=
  _ ← lift (throw_if (numTensors <? 0) NVCV_ERROR_INVALID_ARGUMENT (Ok tt));
  b ← get;
  _ ← lift (throw_if (m_numTensors b <? numTensors) NVCV_ERROR_UNDERFLOW (Ok tt));
  _ ← each drop_step (zrange (m_numTensors b - numTensors) (m_numTensors b));
  modify (fun b =>
    let b := set_num (m_numTensors b - numTensors) b in
    let b := set_dirty (m_dirtyBegin b) (Z.min (m_dirtyEnd b) (m_numTensors b)) b in
    let b := set_dirty (Z.min (m_dirtyBegin b) (m_dirtyEnd b)) (m_dirtyEnd b) b in
    if m_numTensors b =? 0 then reset_type b else b).

(** The handles written to [tensors]. [std::copy] of a range that ends before it
    begins is undefined. *)
Definition getTensors (index numTensors : Z) : M batch (list Z) :=
  b ← get;
  n ← lift (int32 (index + numTensors));
  _ ← lift (throw_if (m_numTensors b <? n) NVCV_ERROR_OVERFLOW (Ok tt));
  _ ← lift (throw_if (index <? 0) NVCV_ERROR_INVALID_ARGUMENT (Ok tt));
  hs ← lift (if numTensors <? 0 then Stuck else
             mfold (fun l i => h ← rd (m_Tensors b) (index + i); Ok (l ++ [h])) (zrange 0 numTensors) []);
  _ ← each (fun h => _ ← CoreObjectIncRef h; mret tt) hs;
  mret hs.

Definition set_step (index : Z) (hs : list Z) (idx : Z) : M batch unit :=
  b ← get;
  old ← lift (rd (m_Tensors b) (idx + index));
  _ ← CoreObjectDecRef old;
  h ← lift (rd hs idx);
  _ ← CoreObjectIncRef h;
  l ← lift (wr (m_Tensors b) (idx + index) h);
  modify (set_handles l).

Definition setTensors (index : Z) (hs : list Z) (numTensors : Z) : M batch unit :=
  b ← get;
  n ← lift (int32 (index + numTensors));
  _ ← lift (throw_if (m_numTensors b <? n) NVCV_ERROR_OVERFLOW (Ok tt));
  _ ← lift (throw_if (index <? 0) NVCV_ERROR_INVALID_ARGUMENT (Ok tt));
  _ ← validateTensors hs numTensors;
  _ ← each (set_step index hs) (zrange 0 numTensors);
  modify (fun b =>
    if negb (m_dirtyBegin b =? m_dirtyEnd b)
    then set_dirty (Z.min (m_dirtyBegin b) index) (Z.max (m_dirtyEnd b) n) b
    else set_dirty index n b).

Definition clear : M batch unit :=
  b ← get;
  _ ← each drop_step (zrange 0 (m_numTensors b));
  modify (fun b => reset_type (set_dirty 0 0 (set_num 0 b))).

(** ** The functions of the library

    [None] stands for a null pointer. *)

Definition nvcvTensorBatchPushTensors (hs : option (list Z)) (numTensors : Z) : M batch unit :=
  match hs with
  | None => lift (Throw NVCV_ERROR_INVALID_ARGUMENT)
  | Some hs => pushTensors hs numTensors
  end.

Definition nvcvTensorBatchGetTensors (index numTensors : Z) (outNull : bool) : M batch (list Z) :=
  _ ← lift (throw_if outNull NVCV_ERROR_INVALID_ARGUMENT (Ok tt));
  _ ← lift (throw_if (index <? 0) NVCV_ERROR_INVALID_ARGUMENT (Ok tt));
  _ ← lift (throw_if (numTensors <? 0) NVCV_ERROR_INVALID_ARGUMENT (Ok tt));
  getTensors index numTensors.

Definition nvcvTensorBatchSetTensors (index : Z) (hs : option (list Z)) (numTensors : Z) : M batch unit :=
  match hs with
  | None => lift (Throw NVCV_ERROR_INVALID_ARGUMENT)
  | Some hs =>
      _ ← lift (throw_if (index <? 0) NVCV_ERROR_INVALID_ARGUMENT (Ok tt));
      _ ← lift (throw_if (numTensors <? 0) NVCV_ERROR_INVALID_ARGUMENT (Ok tt));
      setTensors index hs numTensors
  end.
