(* ===== verification/TensorBatchProps.v ===== *)
(** * Properties of tensor batches

    Each method is shown to do what the corresponding operation on a list of
    handles does, to keep the references exact and the device in step. *)
From S2P Require Import Prelude Effects MathUtil Requirements ImageFormat TensorLayout Handles TensorData TensorBatch.
From stdpp Require Import options.

#[local] Open Scope Z_scope.

(** ** The invariant *)

Definition num (b : batch) : nat := Z.to_nat (m_numTensors b).
Definition handles (b : batch) : list Z := take (num b) (m_Tensors b).
Definition object (b : batch) (h : Z) : option NVCVTensorData := object_of (tensors b) h.
Definition occurrences (l : list Z) (h : Z) : Z := Z.of_nat (count_occ Z.eq_dec l h).

(** What the library guarantees of every tensor. *)
Definition good (t : NVCVTensorData) : Prop :=
  0 <= td_rank t <= NVCV_TENSOR_MAX_RANK /\ length (shape t) = 15%nat /\ length (strides (buffer t)) = 15%nat
  /\ valid_layout (layout t).

(** The tensor is of the type of the batch. *)
Definition fits (b : batch) (t : NVCVTensorData) : bool :=
  (td_rank t =? m_rank b) && (dtype t =? m_dtype b) && bool_decide (labels (layout t) = labels (m_layout b)).

Definition fits_handle (b : batch) (h : Z) : bool := match object b h with Some t => fits b t | None => false end.

(** The element describes the tensor. *)
Definition describes (e : NVCVTensorBatchElementStrided) (t : NVCVTensorData) : Prop :=
  e_data e = basePtr (buffer t)
  /\ take (Z.to_nat (td_rank t)) (e_shape e) = take (Z.to_nat (td_rank t)) (shape t)
  /\ take (Z.to_nat (td_rank t)) (e_stride e) = take (Z.to_nat (td_rank t)) (strides (buffer t)).

Definition arrays (e : NVCVTensorBatchElementStrided) : Prop := length (e_shape e) = 15%nat /\ length (e_stride e) = 15%nat.

(** The references: [own h] of them are the client's, the others the batch's. *)
Record owns (own : Z -> Z) (b : batch) : Prop := {
  o_num : 0 <= m_numTensors b <= capacity b;
  o_cap : capacity b < 2 ^ 31;
  o_len : length (m_Tensors b) = Z.to_nat (capacity b);
  o_pos : positive (tensors b);
  o_good : forall h t, object b h = Some t -> h <> 0 /\ good t;
  o_own : forall h, 0 <= own h;
  o_count : forall h, refs_to (tensors b) h = own h + occurrences (handles b) h;
  o_type : Forall (fun h => fits_handle b h = true) (handles b);
  o_layout : valid_layout (m_layout b) }.

(** The device buffer when the queued copies are done. *)
Definition on_device (b : batch) : list NVCVTensorBatchElementStrided := m_devTensorsBuffer (synchronize b).

Definition shown (b : batch) (i : nat) (h : Z) : Prop :=
  stray b = false -> exists e t, on_device b !! i = Some e /\ object b h = Some t /\ describes e t.

Record inv (own : Z -> Z) (b : batch) : Prop := {
  i_owns : owns own b;
  i_dirty : 0 <= m_dirtyBegin b <= m_dirtyEnd b /\ m_dirtyEnd b <= m_numTensors b;
  i_bufs : length (m_pinnedTensorsBuffer b) = Z.to_nat (capacity b) /\ length (m_devTensorsBuffer b) = Z.to_nat (capacity b);
  i_arrays : Forall arrays (m_pinnedTensorsBuffer b);
  i_pending : Forall (range_ok (capacity b)) (pending b);
  (** what is not dirty is on the device, once the queued copies are done, if an event
      covers all of them *)
  i_shown : forall i h, handles b !! i = Some h -> ~ (m_dirtyBegin b <= Z.of_nat i < m_dirtyEnd b) -> shown b i h }.

(** ** Lemmas *)

Lemma occurrences_app l k h : occurrences (l ++ k) h = occurrences l h + occurrences k h.
Proof. unfold occurrences. rewrite count_occ_app. lia. Qed.

Lemma occurrences_one x h : occurrences [x] h = if decide (h = x) then 1 else 0.
Proof. unfold occurrences. cbn. destruct (Z.eq_dec x h), (decide (h = x)); (done || congruence). Qed.

Lemma occurrences_nonneg l h : 0 <= occurrences l h.
Proof. unfold occurrences. lia. Qed.

Lemma occurrences_elem l h : h ∈ l -> 0 < occurrences l h.
Proof. intros H. unfold occurrences. apply list_elem_of_In, (count_occ_In Z.eq_dec) in H. lia. Qed.

Lemma length_handles own b : owns own b -> length (handles b) = num b.
Proof. intros O. unfold handles. rewrite length_take, (o_len _ _ O). pose proof (o_num _ _ O). unfold num. lia. Qed.

(** Every tensor in the batch is alive. *)
Lemma handle_alive own b h : owns own b -> h ∈ handles b -> exists t, object b h = Some t /\ fits b t = true.
Proof.
  intros O Hh. pose proof (o_type _ _ O) as HF. rewrite Forall_forall in HF. specialize (HF h Hh). unfold fits_handle in HF.
  destruct (object b h) as [t|]; [|done]. by exists t.
Qed.

Lemma held_alive own b h : owns own b -> 0 < own h -> is_Some (object b h).
Proof.
  intros O H. apply (refs_object (tensors b) h (o_pos _ _ O)). rewrite (o_count _ _ O).
  pose proof (occurrences_nonneg (handles b) h). lia.
Qed.

Lemma rank_of_batch own b : owns own b -> 0 < m_numTensors b -> m_rank b <> -1.
Proof.
  intros O Hn. pose proof (length_handles _ _ O) as HL. unfold num in HL. destruct (handles b) as [|h l] eqn:E; [cbn in HL; lia|].
  destruct (handle_alive _ _ h O) as (t & Ht & HF); [rewrite E; by apply elem_of_cons; left|].
  destruct (o_good _ _ O _ _ Ht) as (_ & Hr & _). unfold fits in HF. bool_hyps. lia.
Qed.

(** ** Checks before a change *)

Lemma validate_step_run b hs i h : valid_layout (m_layout b) -> (forall h t, object b h = Some t -> good t) -> m_rank b <> -1 ->
  rd hs i = Ok h -> validate_step hs i b = (b, if fits_handle b h then Ok tt else Throw NVCV_ERROR_INVALID_ARGUMENT).
Proof.
  intros VL HG Hr Hi. unfold validate_step, fits_handle. rewrite !bind_run. unfold lift at 1. rewrite Hi.
  rewrite bind_run, ToStaticRef_run. cbn [objs batch_objects]. fold (object b h). destruct (object b h) as [t|] eqn:Ht; [|done].
  rewrite bind_run. cbn [get]. rewrite (proj2 (Z.eqb_neq _ _) Hr). cbn [negb andb]. unfold fits.
  destruct (td_rank t =? m_rank b); [|done]. destruct (dtype t =? m_dtype b); [|done]. rewrite !bind_run. unfold lift at 1.
  cbn [negb throw_if andb]. rewrite !bind_run. unfold lift at 1. rewrite !bind_run. unfold lift at 1.
  destruct (HG _ _ Ht) as (_ & _ & _ & VT). destruct (layout_compare (layout t) (m_layout b) VT VL) as (c & -> & Hc).
  destruct (Z.eqb_spec c 0) as [E|E].
  - rewrite bool_decide_eq_true_2 by (by apply Hc). done.
  - rewrite bool_decide_eq_false_2 by (intros H; by apply Hc in H). done.
Qed.

Lemma validate_run b hs : valid_layout (m_layout b) -> (forall h t, object b h = Some t -> good t) ->
  hs = [] \/ m_rank b <> -1 ->
  validateTensors hs (Z.of_nat (length hs)) b
  = (b, if forallb (fits_handle b) hs then Ok tt else Throw NVCV_ERROR_INVALID_ARGUMENT).
Proof.
  intros VL HG [->|Hr]; [done|]. unfold validateTensors.
  assert (forall ix xs, Forall2 (fun i x => rd hs i = Ok x) ix xs ->
    each (validate_step hs) ix b = (b, if forallb (fits_handle b) xs then Ok tt else Throw NVCV_ERROR_INVALID_ARGUMENT)) as HA.
  { induction 1 as [|i x ix xs Hi _ IH]; [done|]. cbn [each forallb]. rewrite bind_run, (validate_step_run b hs i x VL HG Hr Hi).
    by destruct (fits_handle b x). }
  apply HA. pose proof (rd_slice hs 0 (Z.of_nat (length hs))) as HS. rewrite slice_take, take_ge in HS by lia. apply HS; lia.
Qed.

(** The type of the first tensor is the type of an empty batch. *)
Definition typed (hs : list Z) (b : batch) : batch :=
  if m_numTensors b =? 0 then
    match head hs ≫= object b with Some t => set_type (dtype t) (layout t) (td_rank t) b | None => b end
  else b.

Lemma setLayout_run b hs : hs <> [] ->
  setLayoutAndDType hs (Z.of_nat (length hs)) b
  = (typed hs b, if (m_numTensors b =? 0) && bool_decide (head hs ≫= object b = None) then Throw NVCV_ERROR_INVALID_ARGUMENT else Ok tt).
Proof.
  intros Hne. unfold setLayoutAndDType, typed. rewrite bind_run. cbn [get].
  rewrite (proj2 (Z.ltb_lt 0 _)) by (destruct hs; [done|cbn; lia]). cbn [andb].
  destruct (m_numTensors b =? 0); [|done]. destruct hs as [|h hs]; [done|]. cbn [head mbind option_bind andb].
  change (lift (rd (h :: hs) 0)) with (lift (S := batch) (Ok h)). rewrite !bind_run. unfold lift.
  rewrite bind_run, ToStaticRef_run. cbn [objs batch_objects]. fold (object b h).
  destruct (object b h) as [t|]; [|done]. by rewrite bool_decide_eq_false_2 by done.
Qed.

(** ** Pushing *)

(** The loop of [pushTensors] after [k] rounds. *)
Definition pushing (b : batch) (hs : list Z) (k : Z) (s : batch) : Prop :=
  exists L m, s = set_handles L (set_tensors m b) /\ length L = length (m_Tensors b)
  /\ take (num b + Z.to_nat k) L = handles b ++ take (Z.to_nat k) hs
  /\ positive m /\ (forall h, object_of m h = object b h)
  /\ forall h, refs_to m h = refs_to (tensors b) h + occurrences (take (Z.to_nat k) hs) h.

Lemma take_snoc {A} (l : list A) k x : l !! k = Some x -> take (S k) l = take k l ++ [x].
Proof. apply take_S_r. Qed.

Lemma push_step_run b hs k s : 0 <= m_numTensors b -> 0 <= k < Z.of_nat (length hs) ->
  m_numTensors b + Z.of_nat (length hs) <= Z.of_nat (length (m_Tensors b)) ->
  Forall (fun h => is_Some (object b h)) hs -> pushing b hs k s ->
  exists s', push_step hs k s = (s', Ok tt) /\ pushing b hs (k + 1) s'.
Proof.
  intros Hn Hk Hc HA (L & m & -> & HL & HT & Hp & Ho & Hr).
  destruct (lookup_lt_is_Some_2 hs (Z.to_nat k)) as [h Hh]; [lia|].
  pose proof (Forall_lookup_1 _ _ _ _ HA Hh) as Hal. unfold push_step.
  rewrite bind_run. unfold lift at 1. rewrite (proj2 (rd_Ok hs k h)) by (split; [lia|done]).
  rewrite bind_run, IncRef_ok by (cbn; by rewrite Ho). rewrite bind_run. cbn [get].
  rewrite bind_run. unfold lift. cbn [m_Tensors m_numTensors set_objs objs batch_objects set_tensors set_handles tensors].
  rewrite (proj2 (wr_Ok L (m_numTensors b + k) h _)) by (split; [lia|reflexivity]).
  eexists. split; [done|]. exists (<[Z.to_nat (m_numTensors b + k) := h]> L), (inc_ref h m).
  replace (Z.to_nat (m_numTensors b + k)) with (num b + Z.to_nat k)%nat by (unfold num; lia).
  replace (Z.to_nat (k + 1)) with (S (Z.to_nat k)) by lia.
  split_and!; [done|by rewrite length_insert| | |intros g; by rewrite object_inc|].
  - rewrite Nat.add_succ_r, take_insert_snoc by (unfold num; lia). by rewrite HT, (take_snoc hs _ h Hh), app_assoc.
  - by apply inc_positive.
  - intros g. rewrite refs_inc by (by rewrite Ho). rewrite Hr, (take_snoc hs _ h Hh), occurrences_app, occurrences_one. lia.
Qed.

Lemma push_loop b hs : 0 <= m_numTensors b -> m_numTensors b + Z.of_nat (length hs) <= Z.of_nat (length (m_Tensors b)) ->
  Forall (fun h => is_Some (object b h)) hs -> positive (tensors b) ->
  exists s, each (push_step hs) (zrange 0 (Z.of_nat (length hs))) b = (s, Ok tt) /\ pushing b hs (Z.of_nat (length hs)) s.
Proof.
  intros Hn Hc HA Hp. apply (each_zrange _ (pushing b hs)); [lia| |].
  - exists (m_Tensors b), (tensors b). split_and!; [by destruct b|done| |done|done|].
    + unfold handles. cbn. by rewrite app_nil_r, Nat.add_0_r.
    + intros h. symmetry. apply Z.add_0_r.
  - intros k s Hk. by apply push_step_run.
Qed.

(** The batch after a push that succeeded. *)
Definition pushed (b : batch) (hs : list Z) (b' : batch) : Prop :=
  capacity b' = capacity b /\ m_numTensors b' = m_numTensors b + Z.of_nat (length hs)
  /\ handles b' = handles b ++ hs
  /\ (m_dirtyBegin b' = (if m_dirtyEnd b =? m_dirtyBegin b then m_numTensors b else m_dirtyBegin b))
  /\ m_dirtyEnd b' = m_numTensors b'
  /\ length (m_Tensors b') = length (m_Tensors b)
  /\ m_pinnedTensorsBuffer b' = m_pinnedTensorsBuffer b /\ m_devTensorsBuffer b' = m_devTensorsBuffer b /\ pending b' = pending b
  /\ stray b' = stray b /\ m_rank b' = m_rank b /\ m_dtype b' = m_dtype b /\ m_layout b' = m_layout b
  /\ positive (tensors b') /\ (forall h, object b' h = object b h)
  /\ forall h, refs_to (tensors b') h = refs_to (tensors b) h + occurrences hs h.

Lemma typed_same hs b : capacity (typed hs b) = capacity b /\ m_numTensors (typed hs b) = m_numTensors b
  /\ m_Tensors (typed hs b) = m_Tensors b /\ tensors (typed hs b) = tensors b /\ m_dirtyBegin (typed hs b) = m_dirtyBegin b
  /\ m_dirtyEnd (typed hs b) = m_dirtyEnd b /\ on_device (typed hs b) = on_device b /\ pending (typed hs b) = pending b
  /\ m_pinnedTensorsBuffer (typed hs b) = m_pinnedTensorsBuffer b /\ m_devTensorsBuffer (typed hs b) = m_devTensorsBuffer b.
Proof. unfold typed. destruct (_ =? 0); [|done]. by destruct (_ ≫= _). Qed.

Lemma fits_handle_ext b b' h : object b' h = object b h -> m_rank b' = m_rank b -> m_dtype b' = m_dtype b ->
  m_layout b' = m_layout b -> fits_handle b' h = fits_handle b h.
Proof. unfold fits_handle, fits. intros -> -> -> ->. done. Qed.

Lemma fits_all_alive b hs : forallb (fits_handle b) hs = true -> Forall (fun h => is_Some (object b h)) hs.
Proof.
  rewrite forallb_forall. intros H. apply Forall_forall. intros h Hh%list_elem_of_In. specialize (H h Hh).
  unfold fits_handle in H. destruct (object b h); [by eexists|done].
Qed.

Lemma typed_rank own hs b : owns own b -> hs <> [] -> is_Some (head hs ≫= object b) -> m_rank (typed hs b) <> -1.
Proof.
  intros O Hne [t Ht]. unfold typed. destruct (Z.eqb_spec (m_numTensors b) 0) as [E|E].
  - rewrite Ht. cbn. destruct hs as [|h hs]; [done|]. cbn in Ht. destruct (o_good _ _ O _ _ Ht) as (_ & ? & _). lia.
  - apply (rank_of_batch own); [done|]. pose proof (o_num _ _ O). lia.
Qed.

Lemma owns_typed own hs b : owns own b -> owns own (typed hs b).
Proof.
  intros O. destruct (Z.eqb_spec (m_numTensors b) 0) as [E|E].
  - destruct (head hs ≫= object b) as [t|] eqn:Ht; unfold typed; rewrite E, Ht; [|done]. cbn [Z.eqb].
    destruct hs as [|h hs]; [done|]. cbn in Ht. destruct (o_good _ _ O _ _ Ht) as (_ & _ & _ & _ & VL).
    destruct O as [? ? ? ? ? ? ? HT ?]. split; try done. unfold handles, num. cbn. by rewrite E.
  - unfold typed. by rewrite (proj2 (Z.eqb_neq _ _) E).
Qed.

(** The method, case by case. *)
Lemma push_failed own b hs : owns own b -> hs <> [] -> in_s 32 (m_numTensors b + Z.of_nat (length hs)) ->
  m_numTensors b + Z.of_nat (length hs) <= capacity b -> forallb (fits_handle (typed hs b)) hs = false ->
  pushTensors hs (Z.of_nat (length hs)) b = (typed hs b, Throw NVCV_ERROR_INVALID_ARGUMENT).
Proof.
  intros O Hne Hs Hc HF. pose proof (owns_typed own hs b O) as OT. unfold pushTensors.
  assert (0 < Z.of_nat (length hs)) as Hl by (destruct hs; [done|cbn; lia]).
  rewrite (proj2 (Z.eqb_neq _ 0)), (proj2 (Z.ltb_ge _ 0)) by lia. rewrite guard_run, get_run.
  rewrite (lift_run _ _ _ _ (int32_ok _ Hs)), guard_run, (proj2 (Z.ltb_ge _ _)) by lia.
  rewrite bind_run, setLayout_run by done. destruct ((m_numTensors b =? 0) && _) eqn:Eh; [done|]. rewrite bind_run, validate_run.
  - by rewrite HF.
  - apply (o_layout _ _ OT).
  - intros h t Ht. by apply (o_good _ _ OT) in Ht as [_ ?].
  - right. destruct (Z.eqb_spec (m_numTensors b) 0) as [E|E].
    + cbn [andb] in Eh. apply bool_decide_eq_false in Eh. apply (typed_rank own); [done|done|]. by apply not_eq_None_Some.
    + apply (rank_of_batch own); [done|]. unfold typed. rewrite (proj2 (Z.eqb_neq _ _) E). pose proof (o_num _ _ O). lia.
Qed.

Lemma push_succeeded own b hs : owns own b -> hs <> [] -> in_s 32 (m_numTensors b + Z.of_nat (length hs)) ->
  m_numTensors b + Z.of_nat (length hs) <= capacity b -> forallb (fits_handle (typed hs b)) hs = true ->
  exists b', pushTensors hs (Z.of_nat (length hs)) b = (b', Ok tt) /\ pushed (typed hs b) hs b'.
Proof.
  intros O Hne Hs Hc HF. pose proof (owns_typed own hs b O) as OT. unfold pushTensors.
  destruct (typed_same hs b) as (E1 & E2 & E3 & E4 & E5 & E6 & _ & E8 & E9 & E10).
  assert (0 < Z.of_nat (length hs)) as Hl by (destruct hs; [done|cbn; lia]).
  pose proof (fits_all_alive _ _ HF) as HA. pose proof (o_num _ _ O) as Hn.
  assert (is_Some (head hs ≫= object b)) as Hh.
  { destruct hs as [|h hs']; [done|]. apply Forall_cons in HA as [HA _]. cbn. unfold object in *. by rewrite E4 in HA. }
  rewrite (proj2 (Z.eqb_neq _ 0)), (proj2 (Z.ltb_ge _ 0)) by lia. rewrite guard_run, get_run.
  rewrite (lift_run _ _ _ _ (int32_ok _ Hs)), guard_run, (proj2 (Z.ltb_ge _ _)) by lia.
  rewrite bind_run, setLayout_run by done. rewrite (bool_decide_eq_false_2 (_ = None)), andb_false_r by (by apply not_eq_None_Some).
  rewrite bind_run, validate_run; [|apply (o_layout _ _ OT)| |right; by apply (typed_rank own)].
  2: { intros h t Ht. by apply (o_good _ _ OT) in Ht as [_ ?]. }
  rewrite HF, bind_run. destruct (push_loop (typed hs b) hs) as (s & -> & L & m & -> & HL & HT & Hp & Ho & Hr).
  - rewrite E2. lia.
  - rewrite E2, E3, (o_len _ _ O). lia.
  - done.
  - rewrite E4. apply (o_pos _ _ O).
  - eexists. split; [done|]. rewrite Nat2Z.id in *. rewrite (take_ge hs) in HT by lia. setoid_rewrite (take_ge hs) in Hr; [|lia]. unfold pushed, handles, num, object.
    cbn [m_dirtyEnd m_dirtyBegin set_handles set_tensors].
    destruct (m_dirtyEnd (typed hs b) =? m_dirtyBegin (typed hs b));
      cbn [m_numTensors set_num set_dirty set_handles set_tensors]; rewrite (wraps_small 32) by (done || (rewrite E2; done));
      (split_and!; [done|done| |done..]); cbn [m_Tensors set_num set_dirty set_handles set_tensors]; unfold handles, num in HT; rewrite <- HT; f_equal; lia.
Qed.

(** ** The invariant under pushing *)

Lemma on_device_eq b b' : m_pinnedTensorsBuffer b' = m_pinnedTensorsBuffer b -> m_devTensorsBuffer b' = m_devTensorsBuffer b ->
  pending b' = pending b -> on_device b' = on_device b.
Proof. unfold on_device, synchronize. cbn. by intros -> -> ->. Qed.

Lemma shown_ext b b' i h : on_device b' = on_device b -> stray b' = stray b -> object b' h = object b h -> shown b i h -> shown b' i h.
Proof. unfold shown. by intros -> -> ->. Qed.

Lemma inv_typed own hs b : inv own b -> inv own (typed hs b).
Proof.
  intros [O Hd Hb Ha Hp Hs]. destruct (typed_same hs b) as (E1 & E2 & E3 & E4 & E5 & E6 & E7 & E8 & E9 & E10).
  split; rewrite ?E1, ?E2, ?E5, ?E6, ?E8, ?E9, ?E10; [by apply owns_typed|done..|].
  intros i h. unfold handles, num. rewrite E2, E3. intros Hi Hc. apply (shown_ext b); [done|by unfold typed; repeat case_match|unfold object; by rewrite E4|by apply Hs].
Qed.

Lemma owns_pushed own b hs b' : owns own b -> m_numTensors b + Z.of_nat (length hs) <= capacity b ->
  Forall (fun h => fits_handle b h = true) hs -> pushed b hs b' -> owns own b'.
Proof.
  intros O Hc HF (E1 & E2 & E3 & _ & _ & E6 & _ & _ & _ & _ & Er & Ed & El & Hp & Ho & Hr). pose proof (o_num _ _ O).
  split; rewrite ?E1, ?E2, ?E3, ?E6; [lia|apply (o_cap _ _ O)|apply (o_len _ _ O)|done|..].
  - intros h t. rewrite Ho. apply (o_good _ _ O).
  - apply (o_own _ _ O).
  - intros h. rewrite Hr, (o_count _ _ O), occurrences_app. lia.
  - assert (forall h, fits_handle b' h = fits_handle b h) as Hext by (intros h; by apply fits_handle_ext).
    apply Forall_app. split; (eapply Forall_impl; [|intros h Hh; rewrite Hext; exact Hh]); [apply (o_type _ _ O)|done].
  - rewrite El. apply (o_layout _ _ O).
Qed.

Lemma pushed_inv own b hs b' : inv own b -> m_numTensors b + Z.of_nat (length hs) <= capacity b ->
  Forall (fun h => fits_handle b h = true) hs -> pushed b hs b' -> inv own b'.
Proof.
  intros [O Hd Hb Ha Hp Hs] Hc HF HP. split; [by eapply owns_pushed|..];
    destruct HP as (E1 & E2 & E3 & E4 & E5 & E6 & E7 & E8 & E9 & Est & Er & Ed & El & Hpo & Ho & Hr).
  - rewrite E4, E5, E2. destruct (Z.eqb_spec (m_dirtyEnd b) (m_dirtyBegin b)); lia.
  - by rewrite E7, E8, E1.
  - by rewrite E7.
  - by rewrite E9, E1.
  - intros i h. rewrite E3, E4, E5, E2. pose proof (length_handles _ _ O) as HL. unfold num in HL. intros Hi Hcl.
    apply (shown_ext b); [by apply on_device_eq|done|done|]. apply lookup_app_Some in Hi as [Hi|[Hge Hi]].
    + apply Hs; [done|]. destruct (Z.eqb_spec (m_dirtyEnd b) (m_dirtyBegin b)); [lia|]. apply lookup_lt_Some in Hi. lia.
    + apply lookup_lt_Some in Hi. destruct Hcl. destruct (Z.eqb_spec (m_dirtyEnd b) (m_dirtyBegin b)); lia.
Qed.

(** ** Removing *)

(** References dropped: an object is kept as long as there is a reference to it. *)
Definition dropped (m m' : objects NVCVTensorData) (hs : list Z) : Prop :=
  positive m' /\ (forall h, refs_to m' h = refs_to m h - occurrences hs h)
  /\ forall h, 0 < refs_to m' h -> object_of m' h = object_of m h.

Lemma dropped_one m m' hs h : dropped m m' hs -> 0 < refs_to m' h -> dropped m (dec_ref h m') (hs ++ [h]).
Proof.
  intros (Hp & Hr & Ho) Hh. assert (is_Some (object_of m' h)) as Hal by (by apply refs_object). split_and!.
  - by apply dec_positive.
  - intros g. rewrite refs_dec, Hr, occurrences_app, occurrences_one by done. lia.
  - intros g. rewrite refs_dec by done. intros Hg. rewrite object_dec.
    + apply Ho. case_decide; lia.
    + case_decide; subst; [right; lia|by left].
Qed.

Lemma slice_handles b hi : hi <= m_numTensors b -> slice 0 hi (handles b) = slice 0 hi (m_Tensors b).
Proof. intros H. rewrite !slice_take. unfold handles, num. rewrite take_take. f_equal. lia. Qed.

Lemma occurrences_slice own b lo hi h : owns own b -> 0 <= lo <= hi -> hi <= m_numTensors b ->
  occurrences (slice lo hi (m_Tensors b)) h <= occurrences (handles b) h.
Proof.
  intros O H1 H2. assert (handles b = slice 0 (m_numTensors b) (m_Tensors b)) as -> by (by rewrite slice_take).
  rewrite (slice_split 0 lo (m_numTensors b)), (slice_split lo hi (m_numTensors b)) by lia. rewrite !occurrences_app.
  pose proof (occurrences_nonneg (slice 0 lo (m_Tensors b)) h). pose proof (occurrences_nonneg (slice hi (m_numTensors b) (m_Tensors b)) h). lia.
Qed.

Lemma drop_loop own b lo hi : owns own b -> 0 <= lo <= hi -> hi <= m_numTensors b ->
  exists m, each drop_step (zrange lo hi) b = (set_tensors m b, Ok tt) /\ dropped (tensors b) m (slice lo hi (m_Tensors b)).
Proof.
  intros O Hlo Hhi. pose proof (o_num _ _ O) as Hn.
  destruct (each_zrange drop_step (fun i s => exists m, s = set_tensors m b /\ dropped (tensors b) m (slice lo i (m_Tensors b)))
    lo hi b) as (s & -> & m & -> & Hm); [lia| | |by exists m].
  - exists (tensors b). split; [by destruct b|]. rewrite slice_empty by lia. split_and!; [apply (o_pos _ _ O)| |done].
    intros h. unfold occurrences. cbn. lia.
  - intros i s Hi (m & -> & Hm). destruct (lookup_lt_is_Some_2 (m_Tensors b) (Z.to_nat i)) as [h Hh]; [rewrite (o_len _ _ O); lia|].
    assert (slice lo (i + 1) (m_Tensors b) = slice lo i (m_Tensors b) ++ [h]) as ES.
    { rewrite (slice_split lo i (i + 1)) by lia. by rewrite (slice_one i _ h) by (done || lia). }
    assert (0 < refs_to m h) as Href.
    { destruct Hm as (_ & -> & _). rewrite (o_count _ _ O). pose proof (o_own _ _ O h).
      pose proof (occurrences_slice own b lo (i + 1) h O) as Ho. rewrite ES, occurrences_app, occurrences_one, decide_True in Ho by done. lia. }
    assert (h <> 0) as Hne.
    { destruct (handle_alive own b h O) as (t & Ht & _); [|by apply (o_good _ _ O) in Ht as [? _]].
      apply list_elem_of_lookup. exists (Z.to_nat i). unfold handles, num. rewrite lookup_take_lt; [done|lia]. }
    exists (set_tensors (dec_ref h m) b). split; [|exists (dec_ref h m); split; [done|]; rewrite ES; by apply dropped_one].
    unfold drop_step. rewrite bind_run. cbn [get]. rewrite bind_run. unfold lift. cbn [m_Tensors set_tensors].
    rewrite (proj2 (rd_Ok _ i h)) by (split; [lia|done]). rewrite bind_run, DecRef_ok; [done|done|].
    destruct Hm as (Hp & _). by apply refs_object.
Qed.

Lemma handles_split own b n : owns own b -> 0 <= n <= m_numTensors b ->
  handles b = take (Z.to_nat n) (m_Tensors b) ++ slice n (m_numTensors b) (m_Tensors b).
Proof.
  intros O Hn. assert (handles b = slice 0 (m_numTensors b) (m_Tensors b)) as -> by (by rewrite slice_take).
  rewrite (slice_split 0 n) by lia. by rewrite slice_take.
Qed.

(** The batch with its first [n] tensors. *)
Definition kept (n : Z) (m : objects NVCVTensorData) (b : batch) : batch := set_num n (set_tensors m b).

Lemma owns_kept own b n m : owns own b -> 0 <= n <= m_numTensors b ->
  dropped (tensors b) m (slice n (m_numTensors b) (m_Tensors b)) -> owns own (kept n m b).
Proof.
  intros O Hn (Hp & Hr & Ho). pose proof (o_num _ _ O). pose proof (handles_split own b n O Hn) as ES.
  assert (handles (kept n m b) = take (Z.to_nat n) (m_Tensors b)) as EH by done.
  assert (forall h, refs_to m h = own h + occurrences (take (Z.to_nat n) (m_Tensors b)) h) as HC.
  { intros h. rewrite Hr, (o_count _ _ O), ES, occurrences_app. lia. }
  assert (forall h, 0 < refs_to m h -> object (kept n m b) h = object b h) as HO by done.
  destruct O as [O1 O2 O3 O4 O5 O6 O7 O8 O9]. split; try done.
  - cbn. lia.
  - intros h t Ht. destruct (Z.ltb_spec 0 (refs_to m h)) as [Hpos|Hz]; [rewrite HO in Ht by done; by apply O5|].
    exfalso. assert (0 < refs_to m h); [|lia]. apply refs_object; [done|]. by exists t.
  - rewrite EH. apply Forall_forall. intros h Hh. assert (0 < refs_to m h) as Hpos.
    { rewrite HC. pose proof (occurrences_elem _ _ Hh). specialize (O6 h). lia. }
    rewrite (fits_handle_ext b) by (done || by apply HO). rewrite Forall_forall in O8. apply O8. rewrite ES. set_solver.
Qed.

Lemma owns_set_dirty own lo hi b : owns own b -> owns own (set_dirty lo hi b).
Proof. by intros []; split. Qed.

Lemma owns_reset own b : owns own b -> m_numTensors b = 0 -> owns own (reset_type b).
Proof.
  intros [] E. split; try done.
  - unfold handles, num. cbn. by rewrite E.
Qed.

Definition popped (k : Z) (m : objects NVCVTensorData) (b : batch) : batch :=
  let n := m_numTensors b - k in
  let hi := Z.min (m_dirtyEnd b) n in
  let b' := set_dirty (Z.min (m_dirtyBegin b) hi) hi (kept n m b) in
  if n =? 0 then reset_type b' else b'.

Lemma popped_inv own b k m : inv own b -> 0 <= k <= m_numTensors b ->
  dropped (tensors b) m (slice (m_numTensors b - k) (m_numTensors b) (m_Tensors b)) -> inv own (popped k m b).
Proof.
  intros [O Hd Hb Ha Hp Hs] Hk Hm. pose proof (owns_kept own b (m_numTensors b - k) m O ltac:(lia) Hm) as OK.
  assert (owns own (popped k m b)) as OP.
  { unfold popped. case_match eqn:E; [apply owns_reset|]; [by apply owns_set_dirty|cbn; lia|by apply owns_set_dirty]. }
  assert (m_numTensors (popped k m b) = m_numTensors b - k /\ m_dirtyEnd (popped k m b) = Z.min (m_dirtyEnd b) (m_numTensors b - k)
    /\ m_dirtyBegin (popped k m b) = Z.min (m_dirtyBegin b) (Z.min (m_dirtyEnd b) (m_numTensors b - k))
    /\ capacity (popped k m b) = capacity b /\ pending (popped k m b) = pending b
    /\ m_pinnedTensorsBuffer (popped k m b) = m_pinnedTensorsBuffer b /\ m_devTensorsBuffer (popped k m b) = m_devTensorsBuffer b
    /\ m_Tensors (popped k m b) = m_Tensors b /\ tensors (popped k m b) = m) as (E1 & E2 & E3 & E4 & E5 & E6 & E7 & E8 & E9).
  { unfold popped. by destruct (_ =? _). }
  split; rewrite ?E4, ?E5, ?E6, ?E7; try done.
  - rewrite E1, E2, E3. lia.
  - intros i h. rewrite E2, E3. unfold handles, num. rewrite E1, E8. intros Hi Hc.
    apply lookup_take_Some in Hi as [Hi Hlt].
    assert (h ∈ handles (popped k m b)) as Hin.
    { apply list_elem_of_lookup. exists i. unfold handles, num. rewrite E1, E8. by rewrite lookup_take_lt by lia. }
    apply (shown_ext b); [by apply on_device_eq|by unfold popped; destruct (_ =? _)| |].
    + destruct Hm as (_ & _ & Ho). unfold object. rewrite E9. apply Ho. rewrite <- E9, (o_count _ _ OP).
      pose proof (occurrences_elem _ _ Hin). pose proof (o_own _ _ OP h). lia.
    + apply Hs; [|lia]. unfold handles, num. by rewrite lookup_take_lt by lia.
Qed.

Lemma popTensors_run own b k : owns own b -> in_s 32 k ->
  if k <? 0 then popTensors k b = (b, Throw NVCV_ERROR_INVALID_ARGUMENT)
  else if m_numTensors b <? k then popTensors k b = (b, Throw NVCV_ERROR_UNDERFLOW)
  else exists m, popTensors k b = (popped k m b, Ok tt)
       /\ dropped (tensors b) m (slice (m_numTensors b - k) (m_numTensors b) (m_Tensors b)).
Proof.
  intros O Hk. unfold popTensors. rewrite guard_run. destruct (Z.ltb_spec k 0); [done|].
  rewrite get_run, guard_run. destruct (Z.ltb_spec (m_numTensors b) k); [done|].
  rewrite bind_run. destruct (drop_loop own b (m_numTensors b - k) (m_numTensors b) O) as (m & -> & Hm); [lia|lia|].
  by exists m.
Qed.

Definition cleared (m : objects NVCVTensorData) (b : batch) : batch := reset_type (set_dirty 0 0 (kept 0 m b)).

Lemma clear_run own b : owns own b ->
  exists m, clear b = (cleared m b, Ok tt) /\ dropped (tensors b) m (slice 0 (m_numTensors b) (m_Tensors b)).
Proof.
  intros O. pose proof (o_num _ _ O). unfold clear. rewrite bind_run. cbn [get]. rewrite bind_run.
  destruct (drop_loop own b 0 (m_numTensors b) O) as (m & -> & Hm); [lia|lia|]. by exists m.
Qed.

Lemma cleared_inv own b m : inv own b -> dropped (tensors b) m (slice 0 (m_numTensors b) (m_Tensors b)) -> inv own (cleared m b).
Proof.
  intros [O Hd Hb Ha Hp Hs] Hm. pose proof (o_num _ _ O). pose proof (owns_kept own b 0 m O ltac:(lia) Hm) as OK. split; try done.
  - apply owns_reset; [by apply owns_set_dirty|done].
Qed.

(** ** Replacing *)

Lemma occurrences_insert l i x y h : l !! i = Some x ->
  occurrences (<[i := y]> l) h = occurrences l h - (if decide (h = x) then 1 else 0) + (if decide (h = y) then 1 else 0).
Proof.
  intros Hx. pose proof (lookup_lt_Some _ _ _ Hx). rewrite <- (take_drop_middle l i x Hx) at 2.
  rewrite insert_take_drop by done. rewrite !occurrences_app.
  change (x :: drop (S i) l) with ([x] ++ drop (S i) l). change (y :: drop (S i) l) with ([y] ++ drop (S i) l).
  rewrite !occurrences_app, !occurrences_one. lia.
Qed.

(** [s] is [b] with other handles and the references that go with them. *)
Definition rewired (own : Z -> Z) (b s : batch) : Prop :=
  owns own s /\ s = set_handles (m_Tensors s) (set_tensors (tensors s) b)
  /\ forall h, 0 < refs_to (tensors s) h -> object s h = object b h.

Definition rewire (s : batch) (i : nat) (old h : Z) : batch :=
  set_handles (<[i := h]> (m_Tensors s)) (set_tensors (inc_ref h (dec_ref old (tensors s))) s).

(** Dropping the reference to [old] and taking one to [h], which the client holds. *)
Lemma rewire_objects own b s i old h : rewired own b s -> handles s !! i = Some old -> 0 < own h ->
  is_Some (object s old) /\ old <> 0 /\ is_Some (object_of (dec_ref old (tensors s)) h)
  /\ handles (rewire s i old h) = <[i := h]> (handles s)
  /\ (forall g, refs_to (tensors (rewire s i old h)) g = own g + occurrences (<[i := h]> (handles s)) g)
  /\ forall g, 0 < refs_to (tensors (rewire s i old h)) g -> object (rewire s i old h) g = object b g.
Proof.
  intros (O & ES & HO) Hi Hh. pose proof (o_num _ _ O) as Hn.
  assert (old ∈ handles s) as Hin by (apply list_elem_of_lookup; by exists i).
  destruct (handle_alive own s old O Hin) as (t & Ht & _). assert (is_Some (object s old)) as Hal by (by exists t).
  pose proof (dec_positive old _ (o_pos _ _ O)) as Hp. pose proof (occurrences_elem _ _ Hin) as Hocc.
  assert (0 < refs_to (dec_ref old (tensors s)) h) as Hh'.
  { rewrite refs_dec, (o_count _ _ O) by done. pose proof (occurrences_nonneg (handles s) h). case_decide; subst; lia. }
  assert (is_Some (object_of (dec_ref old (tensors s)) h)) as Hal' by (by apply refs_object).
  split_and!; [done|by apply (o_good _ _ O) in Ht as [? _]|done|..].
  - unfold handles, num, rewire. cbn. apply take_insert_lt. apply lookup_lt_Some in Hi. by rewrite (length_handles own) in Hi.
  - intros g. rewrite (occurrences_insert _ _ old) by done. cbn. rewrite refs_inc, refs_dec, (o_count _ _ O) by done. lia.
  - intros g. unfold object, rewire. cbn. rewrite object_inc, refs_inc by done. intros Hg.
    assert (0 < refs_to (dec_ref old (tensors s)) g) as Hg' by (destruct (decide (g = h)) as [->|]; [done|lia]).
    rewrite refs_dec in Hg' by done. rewrite object_dec.
    + apply HO. destruct (decide (g = old)); lia.
    + destruct (decide (g = old)) as [->|]; [right; lia|by left].
Qed.

Lemma rewire_one own b s i old h : rewired own b s -> handles s !! i = Some old -> 0 < own h -> fits_handle b h = true ->
  rewired own b (rewire s i old h).
Proof.
  intros R Hi Hh HF. destruct (rewire_objects own b s i old h R Hi Hh) as (_ & _ & _ & EH & HC & HO').
  destruct R as (O & ES & HO). split_and!; [|unfold rewire; cbn; by rewrite ES|done].
  assert (positive (tensors (rewire s i old h))) as Hp by (apply inc_positive, dec_positive, (o_pos _ _ O)).
  assert (forall g, g ∈ handles s -> fits_handle b g = true) as HB.
  { intros g Hg. pose proof (o_type _ _ O) as HT. rewrite Forall_forall in HT. rewrite <- (HT g Hg).
    apply fits_handle_ext; [|by rewrite ES..]. symmetry. apply HO. rewrite (o_count _ _ O).
    pose proof (occurrences_elem _ _ Hg). pose proof (o_own _ _ O g). lia. }
  assert (forall g, g ∈ <[i := h]> (handles s) -> fits_handle b g = true) as HB'.
  { intros g [j Hj]%list_elem_of_lookup. apply list_lookup_insert_Some in Hj as [(<- & <- & _)|(_ & Hj)]; [done|].
    apply HB, list_elem_of_lookup. by exists j. }
  destruct O as [O1 O2 O3 O4 O5 O6 O7 O8 O9]. split; try done.
  - cbn. by rewrite length_insert.
  - intros g u Hu. assert (0 < refs_to (tensors (rewire s i old h)) g) as Hg by (apply refs_object; [done|by exists u]).
    assert (g ∈ handles s \/ 0 < own g) as Hcase.
    { rewrite HC, (occurrences_insert _ _ old) in Hg by done. destruct (decide (g = h)) as [->|]; [by right|].
      destruct (decide (0 < own g)); [by right|left]. apply list_elem_of_In, (count_occ_In Z.eq_dec). unfold occurrences in Hg.
      case_decide; lia. }
    rewrite HO' in Hu by done. rewrite <- HO in Hu; [by apply O5|]. rewrite O7. specialize (O6 g).
    pose proof (occurrences_nonneg (handles s) g). destruct Hcase as [Hin|]; [|lia]. pose proof (occurrences_elem _ _ Hin). lia.
  - intros g. rewrite EH. apply HC.
  - rewrite EH. apply Forall_forall. intros g Hg. rewrite <- (HB' g Hg).
    apply fits_handle_ext; [|unfold rewire; by rewrite ES..]. apply HO'. rewrite HC. pose proof (occurrences_elem _ _ Hg). specialize (O6 g). lia.
Qed.

(** The first [k] of the handles [hs] written from position [i] on. *)
Definition overwritten (i k : nat) (hs l : list Z) : list Z := take i l ++ take k hs ++ drop (i + k) l.

Lemma overwritten_step i k hs l x h : l !! (i + k)%nat = Some x -> hs !! k = Some h ->
  overwritten i k hs l !! (i + k)%nat = Some x /\ <[(i + k)%nat := h]> (overwritten i k hs l) = overwritten i (S k) hs l.
Proof.
  intros Hx Hh. pose proof (lookup_lt_Some _ _ _ Hx). pose proof (lookup_lt_Some _ _ _ Hh). unfold overwritten.
  assert (length (take i l ++ take k hs) = (i + k)%nat) as HL by (rewrite length_app, !length_take; lia).
  rewrite (drop_S _ _ _ Hx), !(app_assoc (take i l)). split.
  - rewrite lookup_app_r by lia. by rewrite HL, Nat.sub_diag.
  - rewrite insert_app_r_alt by lia. rewrite HL, Nat.sub_diag. cbn [insert list_insert].
    rewrite (take_snoc hs k h Hh), <- !app_assoc. by rewrite Nat.add_succ_r.
Qed.

Lemma set_step_run own b s index hs k : rewired own b s -> 0 <= index -> 0 <= k < Z.of_nat (length hs) ->
  index + Z.of_nat (length hs) <= m_numTensors b -> owns own b ->
  handles s = overwritten (Z.to_nat index) (Z.to_nat k) hs (handles b) ->
  Forall (fun h => 0 < own h /\ fits_handle b h = true) hs ->
  exists s', set_step index hs k s = (s', Ok tt) /\ rewired own b s'
  /\ handles s' = overwritten (Z.to_nat index) (Z.to_nat (k + 1)) hs (handles b).
Proof.
  intros R Hi Hk Hc O EH HF. destruct (lookup_lt_is_Some_2 hs (Z.to_nat k)) as [h Hh]; [lia|].
  pose proof (Forall_lookup_1 _ _ _ _ HF Hh) as [Hown Hfit].
  destruct (lookup_lt_is_Some_2 (handles b) (Z.to_nat index + Z.to_nat k)) as [x Hx].
  { rewrite (length_handles own) by done. unfold num. lia. }
  destruct (overwritten_step _ _ _ _ _ _ Hx Hh) as [HL HI]. rewrite <- EH in HL, HI. set (i := (Z.to_nat index + Z.to_nat k)%nat) in *.
  destruct (rewire_objects own b s i x h R HL Hown) as (Hal & Hne & Hal' & EH' & _).
  exists (rewire s i x h). split; [|split; [by apply rewire_one|]].
  2: { rewrite EH', HI. f_equal. lia. }
  assert (rd (m_Tensors s) (k + index) = Ok x) as Hrd.
  { apply rd_Ok. split; [lia|]. unfold handles in HL. apply lookup_take_Some in HL as [HL _].
    by replace (Z.to_nat (k + index)) with i by (unfold i; lia). }
  unfold set_step. rewrite get_run, (lift_run _ _ _ _ Hrd), bind_run, DecRef_ok by done.
  assert (rd hs k = Ok h) as Hrk by (apply rd_Ok; split; [lia|done]).
  rewrite (lift_run _ _ _ _ Hrk), bind_run, IncRef_ok by done.
  assert (Z.of_nat (length (m_Tensors s)) = Z.of_nat (Z.to_nat (capacity s))) as Hlen by (by rewrite (o_len _ _ (proj1 R))).
  assert (m_numTensors s = m_numTensors b) as En by (destruct R as (_ & -> & _); done).
  pose proof (o_num _ _ (proj1 R)).
  assert (wr (m_Tensors s) (k + index) h = Ok (<[i := h]> (m_Tensors s))) as Hwr.
  { apply wr_Ok. split; [lia|]. f_equal. unfold i. lia. }
  erewrite lift_run by exact Hwr. done.
Qed.

Lemma set_loop own b index hs : owns own b -> 0 <= index -> index + Z.of_nat (length hs) <= m_numTensors b ->
  Forall (fun h => 0 < own h /\ fits_handle b h = true) hs ->
  exists s, each (set_step index hs) (zrange 0 (Z.of_nat (length hs))) b = (s, Ok tt) /\ rewired own b s
  /\ handles s = take (Z.to_nat index) (handles b) ++ hs ++ drop (Z.to_nat index + length hs) (handles b).
Proof.
  intros O Hi Hc HF.
  destruct (each_zrange (set_step index hs) (fun k s => rewired own b s
    /\ handles s = overwritten (Z.to_nat index) (Z.to_nat k) hs (handles b)) 0 (Z.of_nat (length hs)) b)
    as (s & Hs & R & EH); [lia| | |].
  - split; [split_and!; [done|by destruct b|done]|]. unfold overwritten. change (Z.to_nat 0) with 0%nat. rewrite take_0, Nat.add_0_r. cbn [app]. by rewrite take_drop.
  - intros k s Hk [R EH]. by eapply set_step_run.
  - exists s. split_and!; [done|done|]. rewrite EH. unfold overwritten. rewrite Nat2Z.id. by rewrite (take_ge hs) by lia.
Qed.

Lemma setTensors_failed own b index hs : owns own b -> in_s 32 (index + Z.of_nat (length hs)) -> 0 <= index ->
  index + Z.of_nat (length hs) <= m_numTensors b -> forallb (fits_handle b) hs = false ->
  setTensors index hs (Z.of_nat (length hs)) b = (b, Throw NVCV_ERROR_INVALID_ARGUMENT).
Proof.
  intros O Hs Hi Hc HF. unfold setTensors. rewrite get_run, (lift_run _ _ _ _ (int32_ok _ Hs)), !guard_run.
  rewrite (proj2 (Z.ltb_ge _ _)), (proj2 (Z.ltb_ge _ 0)) by lia. rewrite bind_run, validate_run; [by rewrite HF|..].
  - apply (o_layout _ _ O).
  - intros h t Ht. by apply (o_good _ _ O) in Ht as [_ ?].
  - destruct hs as [|h hs]; [by left|right]. apply (rank_of_batch own); [done|]. cbn in Hc. lia.
Qed.

Definition set_range (b s : batch) (index n : Z) : batch :=
  if negb (m_dirtyBegin b =? m_dirtyEnd b) then set_dirty (Z.min (m_dirtyBegin b) index) (Z.max (m_dirtyEnd b) n) s
  else set_dirty index n s.

Lemma setTensors_succeeded own b index hs : owns own b -> in_s 32 (index + Z.of_nat (length hs)) -> 0 <= index ->
  index + Z.of_nat (length hs) <= m_numTensors b -> Forall (fun h => 0 < own h) hs -> forallb (fits_handle b) hs = true ->
  exists s, setTensors index hs (Z.of_nat (length hs)) b = (set_range b s index (index + Z.of_nat (length hs)), Ok tt)
  /\ rewired own b s
  /\ handles s = take (Z.to_nat index) (handles b) ++ hs ++ drop (Z.to_nat index + length hs) (handles b).
Proof.
  intros O Hs Hi Hc HO HF. unfold setTensors. rewrite get_run, (lift_run _ _ _ _ (int32_ok _ Hs)), !guard_run.
  rewrite (proj2 (Z.ltb_ge _ _)), (proj2 (Z.ltb_ge _ 0)) by lia. rewrite bind_run, validate_run.
  - rewrite HF, bind_run. destruct (set_loop own b index hs O Hi Hc) as (s & -> & R & EH).
    { rewrite forallb_forall in HF. rewrite Forall_forall in HO |- *. intros h Hh. split; [by apply HO|].
      by apply HF, list_elem_of_In. }
    exists s. split_and!; [|done|done]. unfold modify, set_range. destruct R as (_ & -> & _). done.
  - apply (o_layout _ _ O).
  - intros h t Ht. by apply (o_good _ _ O) in Ht as [_ ?].
  - destruct hs as [|h hs]; [by left|right]. apply (rank_of_batch own); [done|]. cbn in Hc. lia.
Qed.

Lemma inv_set own b s index hs : inv own b -> 0 <= index -> index + Z.of_nat (length hs) <= m_numTensors b ->
  rewired own b s -> handles s = take (Z.to_nat index) (handles b) ++ hs ++ drop (Z.to_nat index + length hs) (handles b) ->
  inv own (set_range b s index (index + Z.of_nat (length hs))).
Proof.
  intros [O Hd Hb Ha Hp Hsh] Hi Hc R EH. set (n := index + Z.of_nat (length hs)) in *. set (b' := set_range b s index n).
  assert (owns own b') as O' by (unfold b', set_range; destruct (negb _); apply owns_set_dirty, R).
  assert (handles b' = handles s /\ tensors b' = tensors s) as [EH' ET] by (unfold b', set_range; by destruct (negb _)).
  assert (m_numTensors b' = m_numTensors b /\ capacity b' = capacity b /\ pending b' = pending b
    /\ m_pinnedTensorsBuffer b' = m_pinnedTensorsBuffer b /\ m_devTensorsBuffer b' = m_devTensorsBuffer b) as (E1 & E2 & E3 & E4 & E5).
  { unfold b', set_range. destruct R as (_ & -> & _). by destruct (negb _). }
  assert (forall i, m_dirtyBegin b <= i < m_dirtyEnd b \/ index <= i < n -> m_dirtyBegin b' <= i < m_dirtyEnd b') as Hdirty.
  { intros i. unfold b', set_range. destruct (Z.eqb_spec (m_dirtyBegin b) (m_dirtyEnd b)); cbn; lia. }
  split; rewrite ?E1, ?E2, ?E3, ?E4, ?E5; try done.
  - unfold b', set_range. destruct (Z.eqb_spec (m_dirtyBegin b) (m_dirtyEnd b)); cbn; lia.
  - intros i h Hi' Hcl. apply (shown_ext b); [by apply on_device_eq| |..].
    + unfold b', set_range. destruct R as (_ & -> & _). by destruct (negb _).
    + unfold object. rewrite ET. apply (proj2 (proj2 R)). rewrite <- ET, (o_count _ _ O').
      assert (h ∈ handles b') as Hin by (apply list_elem_of_lookup; by exists i).
      pose proof (occurrences_elem _ _ Hin). pose proof (o_own _ _ O' h). lia.
    + apply Hsh; [|intros H; apply Hcl, Hdirty; by left]. rewrite EH', EH in Hi'.
      assert (~ (index <= Z.of_nat i < n)) as Hout by (intros H; apply Hcl, Hdirty; by right).
      pose proof (length_handles _ _ O) as HL. unfold num in HL. apply lookup_app_Some in Hi' as [Hi'|[Hge Hi']].
      * by apply lookup_take_Some in Hi' as [? _].
      * rewrite length_take in Hge, Hi'. apply lookup_app_Some in Hi' as [Hi'|[Hge' Hi']].
        { apply lookup_lt_Some in Hi'. unfold n in Hout. lia. }
        rewrite lookup_drop in Hi'. rewrite <- Hi'. f_equal. unfold n in Hout. lia.
Qed.

(** ** Exporting *)

Lemma fill_ok t e : good t -> arrays e -> exists e', fill t e = Ok e' /\ describes e' t /\ arrays e'.
Proof.
  intros (Hr & Ls & Lt & _) [A1 A2]. unfold NVCV_TENSOR_MAX_RANK in Hr. unfold fill.
  destruct (mfold_zrange (fill_step t) (fun d e' => e_data e' = basePtr (buffer t) /\ arrays e'
    /\ take (Z.to_nat d) (e_shape e') = take (Z.to_nat d) (shape t)
    /\ take (Z.to_nat d) (e_stride e') = take (Z.to_nat d) (strides (buffer t))) 0 (td_rank t)
    (mkElement (basePtr (buffer t)) (e_shape e) (e_stride e))) as (e' & -> & H1 & H2 & H3 & H4); [lia|by repeat split| |].
  - intros d [ed es et] Hd (H1 & [H2 H2'] & H3 & H4). cbn [e_data e_shape e_stride] in *.
    destruct (lookup_lt_is_Some_2 (shape t) (Z.to_nat d)) as [n Hn]; [lia|].
    destruct (lookup_lt_is_Some_2 (strides (buffer t)) (Z.to_nat d)) as [k Hk]; [lia|].
    assert (rd (shape t) d = Ok n) as Rn by (apply rd_Ok; split; [lia|done]).
    assert (rd (strides (buffer t)) d = Ok k) as Rk by (apply rd_Ok; split; [lia|done]).
    eexists. unfold fill_step. rewrite Rn, Rk. cbn [mbind outcome_bind e_shape e_stride]. rewrite !(proj2 (wr_Ok _ d _ _)) by (split; [lia|reflexivity]).
    split; [done|]. replace (Z.to_nat (d + 1)) with (S (Z.to_nat d)) by lia. cbn [e_data e_shape e_stride].
    split_and!; [done|by split; cbn; rewrite length_insert|..]; rewrite take_insert_snoc by lia; symmetry.
    + rewrite H3. by apply take_snoc.
    + rewrite H4. by apply take_snoc.
  - exists e'. by split_and!.
Qed.

(** The loop of [exportData] before position [i]. *)
Definition describing (b : batch) (i : Z) (s : batch) : Prop :=
  exists p, s = set_pinned p (synchronize b) /\ length p = Z.to_nat (capacity b) /\ Forall arrays p
  /\ forall j h, handles b !! j = Some h -> m_dirtyBegin b <= Z.of_nat j < i ->
     exists e t, p !! j = Some e /\ object b h = Some t /\ describes e t.

Lemma describe_loop own b : inv own b ->
  exists s, each describe_step (zrange (m_dirtyBegin b) (m_dirtyEnd b)) (synchronize b) = (s, Ok tt)
  /\ describing b (m_dirtyEnd b) s.
Proof.
  intros [O Hd Hb Ha Hp Hs]. pose proof (o_num _ _ O) as Hn. apply (each_zrange _ (describing b)); [lia| |].
  - exists (m_pinnedTensorsBuffer b). split_and!; [done|by destruct Hb|done|intros; lia].
  - intros i s Hi (p & -> & Lp & Fp & HD). pose proof (length_handles _ _ O) as HL. unfold num in HL.
    destruct (lookup_lt_is_Some_2 (handles b) (Z.to_nat i)) as [h Hh]; [lia|].
    destruct (lookup_lt_is_Some_2 p (Z.to_nat i)) as [e He]; [lia|].
    destruct (handle_alive own b h O) as (t & Ht & _); [apply list_elem_of_lookup; by exists (Z.to_nat i)|].
    destruct (o_good _ _ O _ _ Ht) as [_ Hg]. destruct (fill_ok t e Hg) as (e' & Hf & Hde & Hae); [by eapply Forall_lookup_1|].
    exists (set_pinned (<[Z.to_nat i := e']> p) (synchronize b)). split.
    + assert (rd (m_Tensors b) i = Ok h) as Hrd.
      { apply rd_Ok. split; [lia|]. unfold handles in Hh. by apply lookup_take_Some in Hh as [? _]. }
      assert (rd p i = Ok e) as Hre by (apply rd_Ok; split; [lia|done]).
      unfold describe_step. rewrite get_run. erewrite lift_run by exact Hrd. rewrite bind_run, ToStaticRef_run.
      cbn [objs batch_objects tensors set_pinned synchronize set_copies]. unfold object in Ht. rewrite Ht.
      erewrite lift_run by exact Hre. erewrite lift_run by exact Hf.
      erewrite lift_run by (apply wr_Ok; split; [cbn; lia|reflexivity]). done.
    + exists (<[Z.to_nat i := e']> p). split_and!; [done|by rewrite length_insert|by apply Forall_insert|].
      intros j g Hj Hji. destruct (decide (j = Z.to_nat i)) as [->|Hne].
      * exists e', t. rewrite list_lookup_insert_eq by lia. by simplify_eq.
      * rewrite list_lookup_insert_ne by done. apply HD; [done|lia].
Qed.

(** An export changes nothing but the buffers and the marks of what is dirty. *)
Record exported (own : Z -> Z) (b b' : batch) : Prop := {
  x_inv : inv own b';
  x_num : m_numTensors b' = m_numTensors b;
  x_handles : handles b' = handles b;
  x_tensors : tensors b' = tensors b;
  x_type : m_rank b' = m_rank b /\ m_dtype b' = m_dtype b /\ m_layout b' = m_layout b }.

(** Everything is clean after a success, nothing more than before after a failure. *)
Definition export_marks (fails : runtime_call -> option NVCVStatus) (b b' : batch) (r : outcome NVCVTensorBatchData) : Prop :=
  (r = Ok (mkBatchData (m_dtype b) (m_layout b) (m_rank b) (m_numTensors b)) /\ m_dirtyBegin b' = m_dirtyEnd b' /\ stray b' = stray b) \/
  (exists c st, fails c = Some st /\ r = Throw st /\ m_dirtyBegin b' = m_dirtyBegin b /\ m_dirtyEnd b' = m_dirtyEnd b).

Lemma length_on_device own b : inv own b -> length (on_device b) = Z.to_nat (capacity b).
Proof.
  intros [O _ [Lp Ld] _ Hp _]. unfold on_device, synchronize. cbn. pose proof (o_num _ _ O).
  revert Ld. generalize (m_devTensorsBuffer b). induction Hp as [|r l Hr _ IH]; intros d Ld; [done|]. cbn [foldl].
  apply IH. apply length_copy_back; [|done|done]. by rewrite Z2Nat.id by lia.
Qed.

(** What the loop leaves is within the invariant, whether or not a copy then strays. *)
Lemma describing_exported own b s : inv own b -> describing b (m_dirtyEnd b) s -> exported own b s /\ exported own b (set_stray s).
Proof.
  intros I (p & -> & Lp' & Fp & _). pose proof I as [O Hd [Lp Ld] Ha Hp Hs].
  assert (forall b', b' = set_pinned p (synchronize b) \/ b' = set_stray (set_pinned p (synchronize b)) -> exported own b b') as H.
  { intros b' Hb. split; try (by destruct Hb as [->| ->]). split.
    - by destruct Hb as [->| ->]; destruct O; split.
    - by destruct Hb as [->| ->].
    - destruct Hb as [->| ->]; cbn; (split; [done|by eapply length_on_device]).
    - by destruct Hb as [->| ->].
    - destruct Hb as [->| ->]; constructor.
    - intros i h Hi Hc. destruct Hb as [->| ->]; [|done]. by apply (shown_ext b); [done..|by apply Hs]. }
  split; apply H; auto.
Qed.

Lemma exportData_run own fails b : inv own b ->
  exists b' r, exportData fails b = (b', r) /\ exported own b b' /\ export_marks fails b b' r.
Proof.
  intros I. pose proof I as [O Hd [Lp Ld] Ha Hp Hs]. pose proof (o_num _ _ O) as Hn. unfold exportData. rewrite get_run.
  destruct (Z.ltb_spec (m_dirtyBegin b) (m_dirtyEnd b)) as [Hlt|Hge].
  2: { exists b. eexists. split; [done|]. split; [done|]. left. split_and!; [done|lia|done]. }
  destruct (describe_loop own b I) as (s & Hl & HD). destruct (describing_exported own b s I HD) as [X1 X2].
  rewrite !bind_run. unfold check_throw at 1. destruct (fails cudaEventSynchronize) as [st|] eqn:F1.
  { exists b. eexists. split; [done|]. split; [done|]. right. by exists cudaEventSynchronize, st. }
  rewrite !bind_run. unfold modify at 1. rewrite bind_run, Hl. rewrite bind_run. unfold check_throw at 1.
  assert (m_dirtyBegin s = m_dirtyBegin b /\ m_dirtyEnd s = m_dirtyEnd b) as [M1 M2] by (by destruct HD as (p & -> & _)).
  destruct (fails cudaMemcpyAsync) as [st|] eqn:F2.
  { exists s. eexists. split; [done|]. split; [done|]. right. by exists cudaMemcpyAsync, st. }
  rewrite bind_run. unfold check_throw. destruct (fails cudaEventRecord) as [st|] eqn:F3.
  { exists (set_stray s). eexists. split; [done|]. split; [done|]. right. by exists cudaEventRecord, st. }
  unfold modify. rewrite bind_run. cbn [get]. eexists _, _. split; [done|]. destruct HD as (p & -> & Lp' & Fp & HD). clear X2 M1 M2.
  set (b' := set_dirty _ _ _).
  assert (on_device b' = copy_back p (on_device b) (m_dirtyBegin b, m_dirtyEnd b)) as ED by done. split; [|by left].
  split; try done. split; try done.
  - by destruct O; split.
  - cbn. lia.
  - cbn. split; [done|]. by eapply length_on_device.
  - cbn. constructor; [|constructor]. split; cbn; lia.
  - intros i h Hi _ Hst. rewrite ED, (lookup_copy_back p _ _ (Z.to_nat (capacity b))); [|split; cbn; lia|done|by eapply length_on_device].
    cbn [fst snd]. change (handles b' !! i) with (handles b !! i) in Hi. case_decide as Hin.
    + destruct (HD i h Hi) as (e & t & He & Ht & Hde); [lia|]. by exists e, t.
    + destruct (Hs i h Hi Hin Hst) as (e & t & He & Ht & Hde). by exists e, t.
Qed.

(** ** Reading the handles *)

Lemma inc_loop b hs m : Forall (fun h => is_Some (object b h)) hs -> positive m -> (forall h, object_of m h = object b h) ->
  exists m', each (fun h => _ ← CoreObjectIncRef h; mret tt) hs (set_tensors m b) = (set_tensors m' b, Ok tt)
  /\ positive m' /\ (forall h, object_of m' h = object b h) /\ forall h, refs_to m' h = refs_to m h + occurrences hs h.
Proof.
  intros HA. revert m. induction HA as [|h l Hh _ IH]; intros m Hp Ho.
  - exists m. split_and!; try done. intros h. symmetry. apply Z.add_0_r.
  - cbn [each]. rewrite bind_run, bind_run, IncRef_ok by (cbn; by rewrite Ho). cbn [mret M_ret].
    destruct (IH (inc_ref h m)) as (m' & HE & Hp' & Ho' & Hr); [by apply inc_positive|intros g; by rewrite object_inc|].
    exists m'. split_and!; [exact HE|done|done|]. intros g. rewrite Hr, refs_inc by (by rewrite Ho).
    change (h :: l) with ([h] ++ l). rewrite occurrences_app, occurrences_one. lia.
Qed.

Lemma collect_handles own b index n : owns own b -> 0 <= index -> 0 <= n -> index + n <= m_numTensors b ->
  mfold (fun l i => h ← rd (m_Tensors b) (index + i); Ok (l ++ [h])) (zrange 0 n) [] = Ok (slice index (index + n) (handles b)).
Proof.
  intros O Hi Hn Hc. pose proof (length_handles _ _ O) as HL. unfold num in HL.
  destruct (mfold_zrange (fun l i => h ← rd (m_Tensors b) (index + i); Ok (l ++ [h]))
    (fun i l => l = slice index (index + i) (handles b)) 0 n []) as (l & -> & ->); [lia| | |done].
  - by rewrite slice_empty by lia.
  - intros i l Hik ->. destruct (lookup_lt_is_Some_2 (handles b) (Z.to_nat (index + i))) as [h Hh]; [lia|].
    rewrite (proj2 (rd_Ok _ _ h)). 2: { split; [lia|]. unfold handles in Hh. by apply lookup_take_Some in Hh as [? _]. }
    eexists. split; [done|]. rewrite (slice_split index (index + i) (index + (i + 1))) by lia. f_equal.
    replace (index + (i + 1)) with (index + i + 1) by lia. by rewrite (slice_one _ _ h) by (done || lia).
Qed.

Lemma getTensors_run own b index n : owns own b -> in_s 32 (index + n) -> 0 <= index -> 0 <= n -> index + n <= m_numTensors b ->
  exists m, getTensors index n b = (set_tensors m b, Ok (slice index (index + n) (handles b)))
  /\ positive m /\ (forall h, object_of m h = object b h)
  /\ forall h, refs_to m h = refs_to (tensors b) h + occurrences (slice index (index + n) (handles b)) h.
Proof.
  intros O Hs Hi Hn Hc. unfold getTensors. rewrite get_run, (lift_run _ _ _ _ (int32_ok _ Hs)), !guard_run.
  rewrite (proj2 (Z.ltb_ge _ _)), (proj2 (Z.ltb_ge index 0)), (proj2 (Z.ltb_ge n 0)) by lia.
  erewrite lift_run by (by eapply collect_handles). rewrite bind_run.
  destruct (inc_loop b (slice index (index + n) (handles b)) (tensors b)) as (m & Hm & ?); [|apply (o_pos _ _ O)|done|].
  - apply Forall_forall. intros h Hh. destruct (handle_alive own b h O) as (t & Ht & _); [|by exists t].
    by apply elem_of_slice in Hh.
  - assert (set_tensors (tensors b) b = b) as Eb by (by destruct b). rewrite Eb in Hm. rewrite Hm. by exists m.
Qed.

Lemma inv_got own b m hs : inv own b -> positive m -> (forall h, object_of m h = object b h) ->
  (forall h, refs_to m h = refs_to (tensors b) h + occurrences hs h) -> inv (fun h => own h + occurrences hs h) (set_tensors m b).
Proof.
  intros [O Hd Hb Ha Hp Hs] HP Ho Hr. destruct O as [O1 O2 O3 O4 O5 O6 O7 O8 O9]. split; try done.
  - split; try done.
    + intros h t Ht. apply (O5 h). unfold object in Ht. cbn in Ht. by rewrite Ho in Ht.
    + intros h. pose proof (occurrences_nonneg hs h). specialize (O6 h). lia.
    + intros h. cbn. rewrite Hr, O7. change (handles (set_tensors m b)) with (handles b). lia.
    + eapply Forall_impl; [exact O8|]. intros h <-. apply fits_handle_ext; [apply Ho|done..].
  - intros i h Hi Hc. apply (shown_ext b); [done|done|apply Ho|by apply Hs].
Qed.
