(* ===== verification/TensorBatchSpec.v ===== *)
(** * Tensor batches against a list of handles

    The abstract batch is the list of its handles. The functions of the library
    refine the operations on that list, in every state that clients which own the
    handles they pass can reach; exports bring the device up to date. *)
From S2P Require Import Prelude Effects MathUtil Requirements ImageFormat TensorLayout Handles TensorData TensorBatch TensorBatchProps.
From stdpp Require Import options.

#[local] Open Scope Z_scope.

(** ** The abstract batch *)

Abbreviation len l := (Z.of_nat (length l)).

(** [ok]: the tensors are alive and of one type, that of the batch if it is not empty. *)
Definition spec_push (capacity : Z) (ok : bool) (hs l : list Z) : list Z * outcome unit :=
  if bool_decide (hs = []) then (l, Ok tt)
  else if capacity <? len l + len hs then (l, Throw NVCV_ERROR_OVERFLOW)
  else if ok then (l ++ hs, Ok tt) else (l, Throw NVCV_ERROR_INVALID_ARGUMENT).

Definition spec_set (ok : bool) (index : Z) (hs l : list Z) : list Z * outcome unit :=
  if index <? 0 then (l, Throw NVCV_ERROR_INVALID_ARGUMENT)
  else if len l <? index + len hs then (l, Throw NVCV_ERROR_OVERFLOW)
  else if ok then (take (Z.to_nat index) l ++ hs ++ drop (Z.to_nat index + length hs) l, Ok tt)
  else (l, Throw NVCV_ERROR_INVALID_ARGUMENT).

Definition spec_pop (k : Z) (l : list Z) : list Z * outcome unit :=
  if k <? 0 then (l, Throw NVCV_ERROR_INVALID_ARGUMENT)
  else if len l <? k then (l, Throw NVCV_ERROR_UNDERFLOW)
  else (take (Z.to_nat (len l - k)) l, Ok tt).

Definition spec_get (index n : Z) (l : list Z) : outcome (list Z) :=
  if (index <? 0) || (n <? 0) then Throw NVCV_ERROR_INVALID_ARGUMENT
  else if len l <? index + n then Throw NVCV_ERROR_OVERFLOW
  else Ok (slice index (index + n) l).

(** The call ends in a state of the invariant, with the contents and the result given;
    if it is refused, in one of the states [kept]. *)
Definition does {A} (own : Z -> Z) (kept : list batch) (call : batch * outcome A) (spec : list Z * outcome A) : Prop :=
  exists b', call = (b', spec.2) /\ handles b' = spec.1 /\ inv own b' /\ forall st, spec.2 = Throw st -> b' ∈ kept.

Lemma len_handles own b : owns own b -> len (handles b) = m_numTensors b.
Proof. intros O. rewrite (length_handles own) by done. pose proof (o_num _ _ O). unfold num. lia. Qed.

Lemma does_nothing {A} own b kept (r : outcome A) : inv own b -> does own (b :: kept) (b, r) (handles b, r).
Proof. intros I. exists b. split_and!; [done..|]. intros st _. by left. Qed.

Lemma push_does own b hs : inv own b -> in_s 32 (m_numTensors b + len hs) ->
  does own [b; typed hs b] (nvcvTensorBatchPushTensors (Some hs) (len hs) b)
    (spec_push (capacity b) (forallb (fits_handle (typed hs b)) hs) hs (handles b)).
Proof.
  intros I Hs. pose proof (i_owns _ _ I) as O. pose proof (o_num _ _ O) as Hn. unfold spec_push, nvcvTensorBatchPushTensors.
  case_bool_decide as Hne; [subst hs; by apply does_nothing|]. rewrite (len_handles own) by done.
  destruct (typed_same hs b) as (E1 & E2 & E3 & _).
  destruct (Z.ltb_spec (capacity b) (m_numTensors b + len hs)) as [Hov|Hc].
  - assert (pushTensors hs (len hs) b = (b, Throw NVCV_ERROR_OVERFLOW)) as ->; [|by apply does_nothing].
    unfold pushTensors. assert (0 < len hs) by (destruct hs; [done|cbn; lia]).
    rewrite (proj2 (Z.eqb_neq _ 0)), (proj2 (Z.ltb_ge _ 0)) by lia.
    by rewrite guard_run, get_run, (lift_run _ _ _ _ (int32_ok _ Hs)), guard_run, (proj2 (Z.ltb_lt _ _)).
  - destruct (forallb (fits_handle (typed hs b)) hs) eqn:HF.
    + destruct (push_succeeded own b hs O Hne Hs Hc HF) as (b' & -> & HP). exists b'. split; [done|].
      pose proof HP as (_ & _ & EH & _). split.
      * cbn. rewrite EH. unfold handles, num. by rewrite E2, E3.
      * split; [|done]. apply (pushed_inv own (typed hs b) hs); [by apply inv_typed|lia| |done]. apply Forall_forall. intros h Hh.
        rewrite forallb_forall in HF. by apply HF, list_elem_of_In.
    + rewrite (push_failed own) by done. exists (typed hs b). split_and!; [done| |by apply inv_typed|].
      * unfold handles, num. cbn. by rewrite E2, E3.
      * intros st _. right. by left.
Qed.

Lemma set_does own b index hs : inv own b -> in_s 32 (index + len hs) -> Forall (fun h => 0 < own h) hs ->
  does own [b] (nvcvTensorBatchSetTensors index (Some hs) (len hs) b) (spec_set (forallb (fits_handle b) hs) index hs (handles b)).
Proof.
  intros I Hs HO. pose proof (i_owns _ _ I) as O. unfold spec_set, nvcvTensorBatchSetTensors. rewrite guard_run.
  destruct (Z.ltb_spec index 0); [by apply does_nothing|]. rewrite guard_run, (proj2 (Z.ltb_ge _ 0)) by lia.
  rewrite (len_handles own) by done. destruct (Z.ltb_spec (m_numTensors b) (index + len hs)) as [Hov|Hc].
  - assert (setTensors index hs (len hs) b = (b, Throw NVCV_ERROR_OVERFLOW)) as ->; [|by apply does_nothing].
    unfold setTensors. by rewrite get_run, (lift_run _ _ _ _ (int32_ok _ Hs)), guard_run, (proj2 (Z.ltb_lt _ _)).
  - destruct (forallb (fits_handle b) hs) eqn:HF; [|rewrite (setTensors_failed own) by done; by apply does_nothing].
    destruct (setTensors_succeeded own b index hs O Hs) as (s & -> & R & EH); [done..|].
    exists (set_range b s index (index + len hs)). split; [done|]. split; [|split; [by eapply inv_set|done]].
    cbn. rewrite <- EH. unfold set_range. by destruct (negb _).
Qed.

Lemma pop_does own b k : inv own b -> in_s 32 k -> does own [b] (popTensors k b) (spec_pop k (handles b)).
Proof.
  intros I Hk. pose proof (i_owns _ _ I) as O. pose proof (o_num _ _ O). pose proof (popTensors_run own b k O Hk) as HR.
  unfold spec_pop. rewrite (len_handles own) by done. destruct (Z.ltb_spec k 0); [rewrite HR; by apply does_nothing|].
  destruct (Z.ltb_spec (m_numTensors b) k); [rewrite HR; by apply does_nothing|].
  destruct HR as (m & -> & Hm). exists (popped k m b). split_and!; [done| |by apply popped_inv|done].
  unfold popped. destruct (_ =? 0); unfold handles, num; cbn; rewrite take_take; f_equal; lia.
Qed.

Lemma clear_does own b : inv own b -> does own [b] (clear b) ([], Ok tt).
Proof.
  intros I. destruct (clear_run own b (i_owns _ _ I)) as (m & -> & Hm). exists (cleared m b).
  split_and!; [done|done|by apply cleared_inv|done].
Qed.

Lemma get_does own b index n : inv own b -> in_s 32 (index + n) ->
  exists b', nvcvTensorBatchGetTensors index n false b = (b', spec_get index n (handles b)) /\ handles b' = handles b
  /\ (forall st, spec_get index n (handles b) = Throw st -> b' = b)
  /\ inv (fun h => own h + match spec_get index n (handles b) with Ok hs => occurrences hs h | _ => 0 end) b'.
Proof.
  intros I Hs. pose proof (i_owns _ _ I) as O. unfold spec_get, nvcvTensorBatchGetTensors. rewrite !guard_run.
  assert (inv (fun h => own h + 0) b) as I0.
  { destruct I as [O' Hd Hb Ha Hp Hsh]. split; try done. destruct O' as [O1 O2 O3 O4 O5 O6 O7 O8 O9].
    split; try done; intros h; [specialize (O6 h); lia|rewrite O7; lia]. }
  destruct (Z.ltb_spec index 0); [by exists b|]. destruct (Z.ltb_spec n 0); [by exists b|]. cbn [orb].
  rewrite (len_handles own) by done. destruct (Z.ltb_spec (m_numTensors b) (index + n)) as [Hov|Hc].
  - exists b. split; [|by split_and!]. unfold getTensors.
    by rewrite get_run, (lift_run _ _ _ _ (int32_ok _ Hs)), guard_run, (proj2 (Z.ltb_lt _ _)).
  - destruct (getTensors_run own b index n O Hs) as (m & -> & Hp & Ho & Hr); [done..|].
    exists (set_tensors m b). split_and!; [done|done|done|by apply inv_got].
Qed.


(** C6: an export brings the device up to date. Whichever calls of the CUDA runtime
    fail, it keeps the handles, the tensors and the invariant. If none fails it
    succeeds; when it succeeds it reports the type and the number of the tensors and
    marks everything clean, and once the copies queued are done, unless an
    earlier export had left a copy that no event covers, the device holds for every
    tensor of the batch a description of it: its address, extents and strides. When a
    call fails the status is that of the call, and all that was changed stays marked. *)
Theorem tensor_batch_export own fails b : inv own b ->
  exists b' r, exportData fails b = (b', r) /\ handles b' = handles b /\ tensors b' = tensors b /\ inv own b'
  /\ ((forall c, fails c = None) -> is_ok r = true)
  /\ ((r = Ok (mkBatchData (m_dtype b) (m_layout b) (m_rank b) (m_numTensors b)) /\ m_dirtyBegin b' = m_dirtyEnd b'
        /\ (stray b = false -> forall i h, handles b !! i = Some h ->
              exists e t, m_devTensorsBuffer (synchronize b') !! i = Some e /\ object b h = Some t
              /\ describes e t /\ td_rank t = m_rank b))
      \/ exists c st, fails c = Some st /\ r = Throw st /\ m_dirtyBegin b' = m_dirtyBegin b /\ m_dirtyEnd b' = m_dirtyEnd b).
Proof.
  intros I. pose proof (i_owns _ _ I) as O. destruct (exportData_run own fails b I) as (b' & r & -> & X & HX).
  exists b', r. pose proof (x_handles _ _ _ X) as EH. pose proof (x_tensors _ _ _ X) as ET.
  split_and!; [done|done|done|apply (x_inv _ _ _ X)|..].
  { intros Hf. destruct HX as [(-> & _)|(c & st & Hc & _)]; [done|]. by rewrite Hf in Hc. }
  destruct HX as [(-> & Hcl & Hst)|HX]; [left|by right]. split_and!; [done|done|]. intros Hs i h Hi. pose proof Hi as Hi'. rewrite <- EH in Hi'.
  destruct (i_shown _ _ (x_inv _ _ _ X) i h Hi') as (e & t & He & Ht & Hd); [rewrite Hcl; lia|congruence|].
  unfold object in Ht. rewrite ET in Ht. exists e, t. split_and!; [done|done|done|].
  destruct (handle_alive own b h O) as (u & Hu & HF); [apply list_elem_of_lookup; by exists i|].
  assert (u = t) as -> by (unfold object in Hu; congruence). unfold fits in HF. bool_hyps. lia.
Qed.

(** ** Executions *)

(** Copies finish, and clients make tensors and take and drop references. *)
Definition more (own : Z -> Z) (h n : Z) : Z -> Z := fun g => own g + (if decide (g = h) then n else 0).

Inductive step : batch * (Z -> Z) -> batch * (Z -> Z) -> Prop :=
| step_push b own hs b' r : in_s 32 (m_numTensors b + len hs) ->
    nvcvTensorBatchPushTensors (Some hs) (len hs) b = (b', r) -> step (b, own) (b', own)
| step_set b own index hs b' r : in_s 32 (index + len hs) -> Forall (fun h => 0 < own h) hs ->
    nvcvTensorBatchSetTensors index (Some hs) (len hs) b = (b', r) -> step (b, own) (b', own)
| step_pop b own k b' r : in_s 32 k -> popTensors k b = (b', r) -> step (b, own) (b', own)
| step_clear b own b' r : clear b = (b', r) -> step (b, own) (b', own)
| step_get b own index n b' r : in_s 32 (index + n) -> nvcvTensorBatchGetTensors index n false b = (b', r) ->
    step (b, own) (b', fun h => own h + match r with Ok hs => occurrences hs h | _ => 0 end)
| step_export b own fails b' r : exportData fails b = (b', r) -> step (b, own) (b', own)
| step_copy b own : step (b, own) (copy_step b, own)
| step_new b own h t : tensors b !! h = None -> h <> 0 -> good t ->
    step (b, own) (set_tensors (<[h := (1, t)]> (tensors b)) b, more own h 1)
| step_inc b own h b' n : CoreObjectIncRef h b = (b', Ok n) -> step (b, own) (b', more own h 1)
| step_dec b own h b' n : 0 < own h -> CoreObjectDecRef h b = (b', Ok n) -> step (b, own) (b', more own h (-1)).

(** A new batch beside objects that clients own. *)
Definition initial (st : batch * (Z -> Z)) : Prop :=
  exists c reqs hs pinned dev m, 0 <= c < 2 ^ 31 /\ CalcRequirements c = Ok reqs
  /\ st = (construct reqs hs pinned dev m, refs_to m)
  /\ length hs = Z.to_nat c /\ length pinned = Z.to_nat c /\ length dev = Z.to_nat c /\ Forall arrays pinned
  /\ positive m /\ forall h t, object_of m h = Some t -> h <> 0 /\ good t.

Lemma reqs_capacity c reqs : CalcRequirements c = Ok reqs -> req_capacity reqs = c.
Proof. unfold CalcRequirements. cbv zeta. intros H. ok_inv. by subst. Qed.

Lemma inv_initial b own : initial (b, own) -> inv own b.
Proof.
  intros (c & reqs & hs & p & d & m & Hc & HR & [= -> ->] & Lh & Lp & Ld & Ha & Hp & Hg).
  pose proof (reqs_capacity c reqs HR) as Ec. split; cbn; rewrite ?Ec; try done.
  split; cbn; rewrite ?Ec; try done; try lia.
  - intros h. by apply refs_nonneg.
  - intros h. change (handles _) with (@nil Z). symmetry. apply Z.add_0_r.
Qed.

(** Changing the objects without touching those in the batch. *)
Lemma inv_objects own own' b m : inv own b -> positive m -> (forall h, 0 <= own' h) ->
  (forall h t, object_of m h = Some t -> h <> 0 /\ good t) ->
  (forall h, refs_to m h = own' h + occurrences (handles b) h) ->
  (forall h, h ∈ handles b -> object_of m h = object b h) -> inv own' (set_tensors m b).
Proof.
  intros [[O1 O2 O3 O4 O5 O6 O7 O8 O9] Hd Hb Ha Hp Hs] HP Ho Hg Hr Hk. split; try done.
  - split; try done. change (handles (set_tensors m b)) with (handles b). rewrite Forall_forall in O8 |- *. intros h Hh.
    rewrite <- (O8 h Hh). apply fits_handle_ext; [by apply Hk|done..].
  - intros i h Hi Hc. apply (shown_ext b); [done|done| |by apply Hs]. apply Hk. apply list_elem_of_lookup. by exists i.
Qed.

Lemma inv_new own b h t : inv own b -> tensors b !! h = None -> h <> 0 -> good t ->
  inv (more own h 1) (set_tensors (<[h := (1, t)]> (tensors b)) b).
Proof.
  intros I Hn Hne Hg. pose proof (i_owns _ _ I) as O. assert (own h = 0 /\ occurrences (handles b) h = 0) as [Hz Hz'].
  { pose proof (o_count _ _ O h) as Hc. unfold refs_to in Hc. rewrite Hn in Hc. pose proof (o_own _ _ O h).
    pose proof (occurrences_nonneg (handles b) h). lia. }
  apply (inv_objects own); [done| | | | |].
  - intros g n o. destruct (decide (g = h)) as [->|]; [rewrite lookup_insert_eq; by intros [= <- <-]|].
    rewrite lookup_insert_ne by done. apply (o_pos _ _ O).
  - intros g. unfold more. pose proof (o_own _ _ O g). case_decide; lia.
  - intros g u. unfold object_of. destruct (decide (g = h)) as [->|]; [rewrite lookup_insert_eq; by intros [= <-]|].
    rewrite lookup_insert_ne by done. apply (o_good _ _ O).
  - intros g. unfold refs_to, more. destruct (decide (g = h)) as [->|]; [rewrite lookup_insert_eq; lia|].
    rewrite lookup_insert_ne by done. pose proof (o_count _ _ O g) as Hc. unfold refs_to in Hc. lia.
  - intros g Hg'. unfold object_of, object. rewrite lookup_insert_ne; [done|]. intros ->. pose proof (occurrences_elem _ _ Hg'). lia.
Qed.

Lemma inv_client_inc own b h b' n : inv own b -> CoreObjectIncRef h b = (b', Ok n) -> inv (more own h 1) b'.
Proof.
  intros I. pose proof (i_owns _ _ I) as O. rewrite IncRef_eq. destruct (objs b !! h) as [[k t]|] eqn:E; [|done]. intros [= <- _].
  assert (is_Some (object_of (tensors b) h)) as Hal by (unfold object_of; cbn in E; rewrite E; by eexists).
  apply (inv_objects own); [done| | | | |].
  - by apply inc_positive, (o_pos _ _ O).
  - intros g. unfold more. pose proof (o_own _ _ O g). case_decide; lia.
  - intros g u. rewrite object_inc. apply (o_good _ _ O).
  - intros g. cbn. rewrite refs_inc, (o_count _ _ O) by done. unfold more. lia.
  - intros g _. by rewrite object_inc.
Qed.

Lemma inv_client_dec own b h b' n : inv own b -> 0 < own h -> CoreObjectDecRef h b = (b', Ok n) -> inv (more own h (-1)) b'.
Proof.
  intros I Hh. pose proof (i_owns _ _ I) as O. pose proof (held_alive own b h O Hh) as Hal.
  assert (h <> 0) as Hne by (destruct Hal as [t Ht]; by apply (o_good _ _ O) in Ht as [? _]).
  rewrite DecRef_ok by done. intros [= <- _]. pose proof (dec_positive h _ (o_pos _ _ O)) as Hp.
  apply (inv_objects own); [done|done| | | |].
  - intros g. unfold more. pose proof (o_own _ _ O g). case_decide; subst; lia.
  - intros g u Hu. destruct (decide (g = h)) as [->|]; [|rewrite object_dec in Hu by (by left); by apply (o_good _ _ O)].
    destruct Hal as [t Ht]. split; [done|]. assert (object_of (dec_ref h (tensors b)) h = object_of (tensors b) h) as Eo.
    { apply object_dec. right. assert (0 < refs_to (dec_ref h (tensors b)) h) as Hr by (apply refs_object; [done|by exists u]).
      rewrite refs_dec in Hr by (by exists t). rewrite decide_True in Hr by done. lia. }
    cbn in Hu. rewrite Eo in Hu. by apply (o_good _ _ O) in Hu as [_ ?].
  - intros g. cbn. rewrite refs_dec, (o_count _ _ O) by done. unfold more. case_decide; lia.
  - intros g Hg. apply object_dec. destruct (decide (g = h)) as [->|]; [right|by left].
    rewrite (o_count _ _ O). pose proof (occurrences_elem _ _ Hg). lia.
Qed.

Lemma copy_step_inv own b : inv own b -> inv own (copy_step b).
Proof.
  intros [O Hd [Lp Ld] Ha Hp Hs]. assert (on_device (copy_step b) = on_device b) as ED.
  { unfold copy_step. destruct b as [? ? ? ? ? ? ? ? ? ? [|r l] ?]; done. }
  assert (exists d l, copy_step b = set_copies d l b /\ length d = Z.to_nat (capacity b) /\ Forall (range_ok (capacity b)) l) as (d & l & E & ? & ?).
  { unfold copy_step. destruct (pending b) as [|r l] eqn:EP; [exists (m_devTensorsBuffer b), []; split; [by destruct b; cbn in *; subst|done]|].
    apply Forall_cons in Hp as [Hr Hl]. eexists _, l. split; [done|]. split; [|done].
    pose proof (o_num _ _ O). apply length_copy_back; [|done|done]. by rewrite Z2Nat.id by lia. }
  split; rewrite ?E; try done; [by destruct O; split|].
  intros i h Hi Hc. rewrite <- E. apply (shown_ext b); [done|by rewrite E..|by apply Hs].
Qed.

Lemma does_inv {A} own kept (c : batch * outcome A) s b' r : does own kept c s -> c = (b', r) -> inv own b'.
Proof. intros (b1 & E & _ & I & _) ->. by injection E as -> _. Qed.

Lemma step_inv b own b' own' : inv own b -> step (b, own) (b', own') -> inv own' b'.
Proof.
  intros I H. inversion H; subst; clear H.
  - eapply does_inv; [by eapply push_does|done].
  - eapply does_inv; [by eapply set_does|done].
  - eapply does_inv; [by eapply pop_does|done].
  - eapply does_inv; [by eapply clear_does|done].
  - match goal with H : nvcvTensorBatchGetTensors ?i ?n _ _ = _ |- _ =>
      destruct (get_does own b i n I) as (b1 & E & _ & _ & I1); [done|]; rewrite E in H; injection H as <- <- end. exact I1.
  - match goal with H : exportData ?f _ = _ |- _ => destruct (exportData_run own' f b I) as (b1 & r1 & E & X & _); rewrite E in H; injection H as <- _ end.
    exact (x_inv _ _ _ X).
  - by apply copy_step_inv.
  - by apply inv_new.
  - by eapply inv_client_inc.
  - by eapply inv_client_dec.
Qed.

(** C5: the invariant of tensor batches. In every state that clients which own
    the handles they pass can reach, with copies finishing at any time and any calls of
    the CUDA runtime failing: every
    tensor in the batch exists and has the rank, the type and the labels of the
    batch; the references to every object are those the clients own and one for
    each place in the batch; and the device is up to date outside the range
    marked as changed, as long as no export failed after it queued its copy. *)
Theorem tensor_batch_invariant st b own : initial st -> rtc step st (b, own) ->
  0 <= m_dirtyBegin b <= m_dirtyEnd b /\ m_dirtyEnd b <= m_numTensors b <= capacity b
  /\ (forall h, refs_to (tensors b) h = own h + occurrences (handles b) h)
  /\ (forall i h, handles b !! i = Some h -> exists t, object b h = Some t /\ td_rank t = m_rank b /\ dtype t = m_dtype b
        /\ labels (layout t) = labels (m_layout b)
        /\ (m_dirtyBegin b <= Z.of_nat i < m_dirtyEnd b \/ stray b = true
            \/ exists e, m_devTensorsBuffer (synchronize b) !! i = Some e /\ describes e t)).
Proof.
  intros Hi Hr. assert (inv own b) as I.
  { destruct st as [b0 own0]. pose proof (inv_initial _ _ Hi) as I0. clear Hi. remember (b0, own0) as x eqn:Ex. remember (b, own) as y eqn:Ey.
    revert b0 own0 Ex I0. induction Hr as [x|x [b1 own1] y Hst _ IH]; intros b0 own0 Ex I0; subst; [by simplify_eq|].
    eapply IH; [done|done|]. by eapply step_inv. }
  pose proof I as [O Hd _ _ _ Hs]. pose proof (o_num _ _ O). split_and!; [lia..|apply (o_count _ _ O)|].
  intros i h Hh. destruct (handle_alive own b h O) as (t & Ht & HF); [apply list_elem_of_lookup; by exists i|].
  exists t. unfold fits in HF. bool_hyps. split_and!; try done.
  destruct (decide (m_dirtyBegin b <= Z.of_nat i < m_dirtyEnd b)); [by left|right]. destruct (stray b) eqn:Est; [by left|right].
  destruct (Hs i h Hh) as (e & u & He & Hu & Hde); [done|done|]. exists e. simplify_eq. done.
Qed.

(** ** Concrete executions *)

Module Concrete.

Definition zeros : list Z := replicate 15 0.
Definition element0 : NVCVTensorBatchElementStrided := mkElement 0 zeros zeros.
Definition pad (l : list Z) : list Z := l ++ drop (length l) zeros.

(** A tensor of bytes at the address [p]. *)
Definition tensor (L : NVCVTensorLayout) (sh st : list Z) (p : Z) : NVCVTensorData :=
  mkTensorData 0 L (Z.of_nat (length sh)) (pad sh) NVCV_TENSOR_BUFFER_STRIDED_CUDA (mkTensorBuffer (pad st) p).

Definition HW : NVCVTensorLayout := NVCV_TENSOR_LAYOUT_MAKE "HW".
Definition t1 : NVCVTensorData := tensor HW [4; 5] [8; 1] 4096.
Definition t2 : NVCVTensorData := tensor HW [2; 3] [4; 1] 8192.
Definition t3 : NVCVTensorData := tensor (NVCV_TENSOR_LAYOUT_MAKE "W") [9] [1] 12288.
Definition objects0 : objects NVCVTensorData := <[16 := (1, t1)]> (<[32 := (1, t2)]> (<[48 := (1, t3)]> ∅)).

Definition reqs2 : NVCVTensorBatchRequirements :=
  Eval vm_compute in match CalcRequirements 2 with Ok r => r | _ => mkBatchReqs 0 0 Init end.
Definition batch0 : batch := construct reqs2 [0; 0] [element0; element0] [element0; element0] objects0.
Definition own0 : Z -> Z := refs_to objects0.

Lemma objects0_cases (P : Z -> Z * NVCVTensorData -> Prop) : P 16 (1, t1) -> P 32 (1, t2) -> P 48 (1, t3) ->
  forall h x, objects0 !! h = Some x -> P h x.
Proof.
  intros H1 H2 H3 h x. unfold objects0.
  destruct (decide (h = 16)) as [->|]; [rewrite lookup_insert_eq; by intros [= <-]|rewrite lookup_insert_ne by done].
  destruct (decide (h = 32)) as [->|]; [rewrite lookup_insert_eq; by intros [= <-]|rewrite lookup_insert_ne by done].
  destruct (decide (h = 48)) as [->|]; [rewrite lookup_insert_eq; by intros [= <-]|rewrite lookup_insert_ne by done].
  by rewrite lookup_empty.
Qed.

Lemma batch0_initial : initial (batch0, own0).
Proof.
  exists 2, reqs2, [0; 0], [element0; element0], [element0; element0], objects0.
  split_and!; try done; [by repeat constructor| |].
  - intros h n o H. pattern h, (n, o). refine (objects0_cases (fun _ x => 0 < x.1) _ _ _ h (n, o) H); done.
  - intros h t Ht. unfold object_of in Ht. destruct (objects0 !! h) as [[n o]|] eqn:E; [|done]. injection Ht as <-.
    refine (objects0_cases (fun h x => h <> 0 /\ good x.2) _ _ _ h (n, o) E);
      (split; [done|split_and!; cbn; try done; vm_compute; repeat split; discriminate]).
Qed.

Definition pushed0 : batch := (nvcvTensorBatchPushTensors (Some [16; 32]) 2 batch0).1.
(** No call fails. *)
Definition cuda_ok (c : runtime_call) : option NVCVStatus := None.

Definition exported0 : batch := (exportData cuda_ok pushed0).1.

Lemma tensor_batch_invariant_witness :
  handles exported0 = [16; 32] /\ refs_to (tensors exported0) 16 = own0 16 + occurrences (handles exported0) 16.
Proof.
  split; [reflexivity|].
  apply (tensor_batch_invariant (batch0, own0) exported0 own0); [exact batch0_initial|].
  apply (rtc_l _ _ (pushed0, own0)).
  - apply (step_push batch0 own0 [16; 32] pushed0 (Ok tt)); [split; vm_compute; (reflexivity || discriminate)|vm_compute; reflexivity].
  - apply (rtc_l _ _ (exported0, own0)); [|apply rtc_refl].
    apply (step_export pushed0 own0 cuda_ok exported0 (exportData cuda_ok pushed0).2). destruct (exportData cuda_ok pushed0) eqn:E.
    unfold exported0. rewrite E. reflexivity.
Defined.


Lemma tensor_batch_export_witness : exists b', exportData cuda_ok pushed0 = (b', Ok (mkBatchData 0 HW 2 2)) /\ handles b' = [16; 32].
Proof.
  assert (inv own0 pushed0) as I.
  { destruct (push_does own0 batch0 [16; 32] (inv_initial _ _ batch0_initial)) as (b' & E & _ & I & _);
      [split; vm_compute; (reflexivity || discriminate)|]. unfold pushed0. change 2 with (len [16; 32]). rewrite E. exact I. }
  destruct (tensor_batch_export own0 cuda_ok pushed0 I) as (b' & r & E & Hh & _ & _ & _ & [(Er & _)|(c & st & Hc & _)]); [|discriminate Hc].
  exists b'. rewrite Er in E. split; [exact E|exact Hh].
Defined.

(** When recording the event fails, the copy was queued all the same, and the next
    export cannot wait for it. *)
Lemma failed_record_strays :
  let r := exportData (fun c => match c with cudaEventRecord => Some NVCV_ERROR_INTERNAL | _ => None end) pushed0 in
  r.2 = Throw NVCV_ERROR_INTERNAL /\ stray r.1 = true /\ m_dirtyBegin r.1 = 0 /\ m_dirtyEnd r.1 = 2 /\ is_ok (exportData cuda_ok r.1).2 = true.
Proof. by vm_compute. Qed.

(** A push that is refused leaves the type of its first tensor behind. *)
Lemma failed_push_keeps_type :
  let r := nvcvTensorBatchPushTensors (Some [16; 48]) 2 batch0 in
  r.2 = Throw NVCV_ERROR_INVALID_ARGUMENT /\ m_numTensors r.1 = 0 /\ m_rank r.1 = 2 /\ m_layout r.1 = HW.
Proof. by vm_compute. Qed.

(** The client gave up its reference after the push: replacing a tensor by
    itself destroys it, and the batch keeps an invalid handle. *)
Lemma replacing_by_itself_dangles :
  let b := (CoreObjectDecRef 16 pushed0).1 in
  let r := nvcvTensorBatchSetTensors 0 (Some [16]) 1 b in
  r.2 = Throw NVCV_ERROR_INVALID_ARGUMENT /\ handles r.1 = [16; 32] /\ object r.1 16 = None
  /\ (exportData cuda_ok r.1).2 = Throw NVCV_ERROR_INVALID_ARGUMENT.
Proof. by vm_compute. Qed.

(** The method accepts a negative number; the range it marks hides later changes. *)
Lemma negative_set_hides_changes :
  let b := (popTensors 1 exported0).1 in
  let b := (setTensors 10 [] (-9) b).1 in
  let r := pushTensors [16] 1 b in
  r.2 = Ok tt /\ handles r.1 = [16; 16]
  /\ e_data <$> m_devTensorsBuffer (synchronize (exportData cuda_ok r.1).1) = [4096; 8192].
Proof. by vm_compute. Qed.

End Concrete.
