(* ===== verification/Float.v ===== *)
(** * Floating-point numbers of the host code

    The [float] and [double] of C++, rounding to nearest with ties to even. A
    finite number is an integer count of the smallest positive number of its
    format, its unit; zeros have no sign. Used by [HQFilter] and [HQResize]. *)
From S2P Require Import Prelude.
From stdpp Require Import options.

#[local] Open Scope Z_scope.

Inductive fp := NaN | Inf (negative : bool) | Fin (units : Z).

#[global] Instance fp_eq_dec : EqDecision fp.
Proof. solve_decision. Defined.

(** A format: the digits, the exponents of 1 and of the bound of the finite
    numbers, in units. *)
Record format := Format { digits : Z; unit_exp : Z; msb : Z }.

Definition binary32 : format := Format 24 149 277.
Definition binary64 : format := Format 53 1074 2098.

Definition one (F : format) : Z := 2 ^ unit_exp F.

(** ** Rounding *)

(** The integer nearest to [n / d], the even one of two. *)
Definition nearest (n d : Z) : Z :=
  let t := n / d in
  let r := 2 * (n mod d) in
  if r <? d then t else if d <? r then t + 1 else if Z.even t then t else t + 1.

(** The exponent of the last digit that is kept of a number with integer part [m]. *)
Definition quantum (F : format) (m : Z) : Z := Z.max 0 (Z.log2 m - (digits F - 1)).

Definition round_mag (F : format) (n d : Z) : Z :=
  let e := quantum F (n / d) in nearest n (d * 2 ^ e) * 2 ^ e.

(** The number of the format nearest to [n / d] units. *)
Definition rnd (F : format) (n d : Z) : fp :=
  let k := round_mag F (Z.abs n) d in
  if 2 ^ msb F <=? k then Inf (n <? 0) else Fin (if n <? 0 then - k else k).

(** ** Arithmetic *)

Definition is_neg (x : fp) : bool := match x with Inf s => s | Fin k => k <? 0 | NaN => false end.

Definition fadd (F : format) (x y : fp) : fp :=
  match x, y with
  | Fin a, Fin b => rnd F (a + b) 1
  | NaN, _ | _, NaN => NaN
  | Inf s, Inf t => if Bool.eqb s t then Inf s else NaN
  | Inf s, Fin _ | Fin _, Inf s => Inf s
  end.

Definition fneg (x : fp) : fp := match x with NaN => NaN | Inf s => Inf (negb s) | Fin k => Fin (- k) end.
Definition fsub (F : format) (x y : fp) : fp := fadd F x (fneg y).
Definition fabs (x : fp) : fp := match x with NaN => NaN | Inf _ => Inf false | Fin k => Fin (Z.abs k) end.

Definition fmul (F : format) (x y : fp) : fp :=
  match x, y with
  | Fin a, Fin b => rnd F (a * b) (one F)
  | NaN, _ | _, NaN => NaN
  | x, y => if bool_decide (x = Fin 0 \/ y = Fin 0) then NaN else Inf (xorb (is_neg x) (is_neg y))
  end.

Definition fdiv (F : format) (x y : fp) : fp :=
  match x, y with
  | NaN, _ | _, NaN | Inf _, Inf _ => NaN
  | Inf s, y => Inf (xorb s (is_neg y))
  | Fin _, Inf _ => Fin 0
  | Fin a, Fin b => if b =? 0 then if a =? 0 then NaN else Inf (a <? 0) else rnd F (a * Z.sgn b * one F) (Z.abs b)
  end.

(** Comparisons; false on a NaN. *)
Definition fle (x y : fp) : bool :=
  match x, y with
  | NaN, _ | _, NaN => false
  | Inf true, _ | _, Inf false => true
  | Inf false, _ | _, Inf true => false
  | Fin a, Fin b => a <=? b
  end.
Definition flt (x y : fp) : bool :=
  match x, y with NaN, _ | _, NaN => false | x, y => negb (fle y x) end.

(** [std::max<float>(x, y)]. *)
Definition fmax (x y : fp) : fp := if flt x y then y else x.

(** ** Conversions *)

Definition of_int (F : format) (n : Z) : fp := rnd F (n * one F) 1.
(** A constant [n / d]. *)
Definition of_ratio (F : format) (n d : Z) : fp := rnd F (n * one F) d.
(** From the format [F] to the format [G]. *)
Definition convert (F G : format) (x : fp) : fp :=
  match x with Fin k => rnd G (k * one G) (one F) | x => x end.

(** The conversions of [floor(x)] and [ceil(x)] to [int]; undefined outside its range. *)
Definition floor_int (F : format) (x : fp) : outcome Z := match x with Fin k => int32 (k / one F) | _ => Stuck end.
Definition ceil_int (F : format) (x : fp) : outcome Z := match x with Fin k => int32 (- (- k / one F)) | _ => Stuck end.

(** ** Rounding is monotone *)

Lemma nearest_spec n d : 0 < d -> 2 * Z.abs (nearest n d * d - n) <= d.
Proof.
  intros Hd. pose proof (Z.div_mod n d ltac:(lia)). pose proof (Z.mod_pos_bound n d Hd). unfold nearest.
  destruct (Z.ltb_spec (2 * (n mod d)) d); [nia|]. destruct (Z.ltb_spec d (2 * (n mod d))); [nia|].
  destruct Z.even; nia.
Qed.

Lemma nearest_exact k d : 0 < d -> nearest (k * d) d = k.
Proof. intros Hd. unfold nearest. rewrite Z.mod_mul, Z.div_mul by lia. by destruct (Z.ltb_spec (2 * 0) d); [|lia]. Qed.

(** Of two adjacent integers the same one is chosen at a tie. *)
Lemma nearest_mono_same n1 n2 d : 0 < d -> n1 <= n2 -> nearest n1 d <= nearest n2 d.
Proof.
  intros Hd Hle. pose proof (Z.div_le_mono n1 n2 d Hd Hle) as Hq.
  pose proof (Z.div_mod n1 d ltac:(lia)) as E1. pose proof (Z.div_mod n2 d ltac:(lia)) as E2. unfold nearest.
  assert (n1 / d = n2 / d -> n1 mod d <= n2 mod d) as Hr by (intros E; rewrite E in E1; lia).
  destruct (Z.eq_dec (n1 / d) (n2 / d)) as [E|Hne].
  - specialize (Hr E). rewrite E. destruct (Z.ltb_spec (2 * (n1 mod d)) d), (Z.ltb_spec (2 * (n2 mod d)) d),
      (Z.ltb_spec d (2 * (n1 mod d))), (Z.ltb_spec d (2 * (n2 mod d))), (Z.even (n2 / d)); lia.
  - destruct (Z.ltb_spec (2 * (n1 mod d)) d), (Z.ltb_spec (2 * (n2 mod d)) d),
      (Z.ltb_spec d (2 * (n1 mod d))), (Z.ltb_spec d (2 * (n2 mod d))), (Z.even (n1 / d)), (Z.even (n2 / d)); lia.
Qed.

Lemma nearest_scale n d c : 0 < d -> 0 < c -> nearest (n * c) (d * c) = nearest n d.
Proof.
  intros Hd Hc. unfold nearest. rewrite Z.div_mul_cancel_r, Z.mul_mod_distr_r by lia.
  replace (2 * (n mod d * c) <? d * c) with (2 * (n mod d) <? d) by (apply eq_true_iff_eq; rewrite !Z.ltb_lt; nia).
  by replace (d * c <? 2 * (n mod d * c)) with (d <? 2 * (n mod d)) by (apply eq_true_iff_eq; rewrite !Z.ltb_lt; nia).
Qed.

Lemma nearest_mono n1 d1 n2 d2 : 0 < d1 -> 0 < d2 -> n1 * d2 <= n2 * d1 -> nearest n1 d1 <= nearest n2 d2.
Proof.
  intros H1 H2 Hle. rewrite <- (nearest_scale n1 d1 d2), <- (nearest_scale n2 d2 d1) by done.
  rewrite (Z.mul_comm d2 d1). apply nearest_mono_same; [nia|done].
Qed.

Definition format_ok (F : format) : Prop := 1 <= digits F /\ 0 <= unit_exp F /\ unit_exp F + digits F < msb F.

Lemma binary32_ok : format_ok binary32. Proof. done. Qed.
Lemma binary64_ok : format_ok binary64. Proof. done. Qed.

(** The counts with at most [digits] digits. *)
Definition repr (F : format) (k : Z) : Prop := exists m e, 0 <= e /\ Z.abs m <= 2 ^ digits F /\ k = m * 2 ^ e.

Lemma pow_pos e : 0 <= e -> 0 < 2 ^ e.
Proof. by apply Z.pow_pos_nonneg. Qed.

Section Rounding.
Context (F : format) (HF : format_ok F).
#[local] Set Default Proof Using "Type*".

Lemma quantum_mono m1 m2 : m1 <= m2 -> quantum F m1 <= quantum F m2.
Proof. intros H. unfold quantum. pose proof (Z.log2_le_mono m1 m2 H). lia. Qed.

Lemma quantum_nonneg m : 0 <= quantum F m.
Proof. destruct HF as (? & ? & ?). unfold quantum. lia. Qed.

(** What is kept has at most [digits] digits. *)
Lemma nearest_digits n d : 0 <= n -> 0 < d ->
  0 <= nearest n (d * 2 ^ quantum F (n / d)) <= 2 ^ digits F.
Proof.
  intros Hn Hd. destruct HF as (Hp & Hl & _). set (e := quantum F (n / d)).
  pose proof (quantum_nonneg (n / d)) as He. fold e in He. pose proof (pow_pos e He).
  pose proof (pow_pos (digits F) ltac:(lia)). assert (0 < d * 2 ^ e) by nia.
  assert (n / d < 2 ^ (digits F + e)) as Hm.
  { destruct (Z.eq_dec (n / d) 0) as [->|Hnz]; [apply pow_pos; lia|]. pose proof (Z.div_pos n d Hn Hd).
    apply Z.log2_lt_pow2; [lia|]. unfold e, quantum. lia. }
  split.
  - rewrite <- (nearest_exact 0 (d * 2 ^ e)) by done. apply nearest_mono; nia.
  - rewrite <- (nearest_exact (2 ^ digits F) (d * 2 ^ e)) by done. apply nearest_mono; [done..|].
    rewrite Z.pow_add_r in Hm by lia. pose proof (Z.div_mod n d ltac:(lia)). pose proof (Z.mod_pos_bound n d Hd).
    apply Z.mul_le_mono_nonneg_r; [lia|]. assert (n < d * (n / d + 1)) by lia.
    assert (d * (n / d + 1) <= d * (2 ^ digits F * 2 ^ e)) by (apply Z.mul_le_mono_nonneg_l; lia). lia.
Qed.

Lemma round_mag_nonneg n d : 0 <= n -> 0 < d -> 0 <= round_mag F n d.
Proof.
  intros Hn Hd. pose proof (nearest_digits n d Hn Hd). pose proof (pow_pos _ (quantum_nonneg (n / d))). unfold round_mag. nia.
Qed.

Lemma round_mag_repr n d : 0 <= n -> 0 < d -> repr F (round_mag F n d).
Proof.
  intros Hn Hd. pose proof (nearest_digits n d Hn Hd). eexists _, (quantum F (n / d)). split_and!; [unfold quantum; lia| |done]. lia.
Qed.

Lemma round_mag_exact k : 0 <= k -> repr F k -> round_mag F k 1 = k.
Proof.
  intros Hk (m & e & He & Hm & ->). destruct HF as (Hp & Hl & _). unfold round_mag. rewrite Z.div_1_r.
  set (q := quantum F (m * 2 ^ e)). pose proof (pow_pos e ltac:(lia)). pose proof (quantum_nonneg (m * 2 ^ e)) as Hq. fold q in Hq.
  assert (exists c, m * 2 ^ e = c * 2 ^ q) as [c ->].
  { assert (0 <= m) by nia. destruct (Z.eq_dec m 0) as [->|]; [by exists 0|].
    assert (Z.log2 (m * 2 ^ e) = e + Z.log2 m) as El by (apply Z.log2_mul_pow2; lia).
    destruct (Z.eq_dec m (2 ^ digits F)) as [->|Hne].
    - exists (2 ^ (digits F + e - q)). rewrite <- !Z.pow_add_r; unfold q, quantum in *; rewrite ?El, ?Z.log2_pow2 in * by lia; [f_equal|..]; lia.
    - assert (Z.log2 m < digits F) by (apply Z.log2_lt_pow2; lia). assert (q <= e) by (unfold q, quantum; rewrite El; lia).
      exists (m * 2 ^ (e - q)). rewrite <- Z.mul_assoc, <- Z.pow_add_r by lia. do 2 f_equal. lia. }
  rewrite Z.mul_1_l, nearest_exact; [done|by apply pow_pos].
Qed.

Lemma round_mag_mono n1 d1 n2 d2 : 0 <= n1 -> 0 < d1 -> 0 < d2 -> n1 * d2 <= n2 * d1 -> round_mag F n1 d1 <= round_mag F n2 d2.
Proof.
  intros Hn H1 H2 Hle. assert (0 <= n2) as Hn2 by nia. destruct HF as (Hp & Hl & _).
  assert (n1 / d1 <= n2 / d2) as Hm.
  { apply Z.div_le_lower_bound; [done|]. pose proof (Z.mul_div_le n1 d1 H1). nia. }
  pose proof (quantum_mono _ _ Hm) as Hq. pose proof (quantum_nonneg (n1 / d1)) as Hq0.
  unfold round_mag. set (e1 := quantum F (n1 / d1)) in *. set (e2 := quantum F (n2 / d2)) in *.
  pose proof (pow_pos e1 Hq0). pose proof (pow_pos e2 ltac:(lia)). destruct (Z.eq_dec e1 e2) as [E|Hne].
  { rewrite <- E in *. apply Z.mul_le_mono_nonneg_r; [lia|]. apply nearest_mono; [by apply Z.mul_pos_pos..|].
    rewrite !Z.mul_assoc. apply Z.mul_le_mono_nonneg_r; lia. }
  pose proof (nearest_digits n1 d1 Hn H1) as [_ U]. fold e1 in U.
  assert (e2 = Z.log2 (n2 / d2) - (digits F - 1)) as E2 by (unfold e1, e2, quantum in *; lia).
  assert (2 ^ (digits F - 1) <= nearest n2 (d2 * 2 ^ e2)) as L.
  { rewrite <- (nearest_exact (2 ^ (digits F - 1)) (d2 * 2 ^ e2)) by nia. apply nearest_mono; [by apply Z.mul_pos_pos..|].
    assert (0 < n2 / d2) as Hpos.
    { destruct (Z.lt_ge_cases 0 (n2 / d2)) as [|Hle0]; [done|]. rewrite (Z.log2_nonpos _ Hle0) in E2. lia. }
    pose proof (Z.log2_spec (n2 / d2) Hpos) as [Hlo _]. replace (Z.log2 (n2 / d2)) with (digits F - 1 + e2) in Hlo by lia.
    rewrite Z.pow_add_r in Hlo by lia. pose proof (Z.mul_div_le n2 d2 H2). apply Z.mul_le_mono_nonneg_r; [lia|].
    assert (d2 * (2 ^ (digits F - 1) * 2 ^ e2) <= d2 * (n2 / d2)) by (apply Z.mul_le_mono_nonneg_l; lia). lia. }
  assert (2 ^ digits F * 2 ^ e1 <= 2 ^ (digits F - 1) * 2 ^ e2) by (rewrite <- !Z.pow_add_r by lia; apply Z.pow_le_mono_r; lia). nia.
Qed.

(** ** Numbers of the format *)

Definition valid (x : fp) : Prop := match x with Fin k => repr F k /\ Z.abs k < 2 ^ msb F | NaN => False | Inf _ => True end.

Lemma repr_opp k : repr F k -> repr F (- k).
Proof. intros (m & e & ? & ? & ->). exists (- m), e. split_and!; lia. Qed.

Lemma repr_int m e : Z.abs m <= 2 ^ digits F -> 0 <= e -> repr F (m * 2 ^ e).
Proof. intros. by exists m, e. Qed.

Lemma rnd_valid n d : 0 < d -> valid (rnd F n d).
Proof.
  intros Hd. unfold rnd. pose proof (round_mag_nonneg (Z.abs n) d ltac:(lia) Hd).
  pose proof (round_mag_repr (Z.abs n) d ltac:(lia) Hd). destruct (Z.leb_spec (2 ^ msb F) (round_mag F (Z.abs n) d)); [done|].
  destruct (n <? 0); (split; [|lia]); [by apply repr_opp|done].
Qed.

Lemma rnd_exact k : valid (Fin k) -> rnd F k 1 = Fin k.
Proof.
  intros [Hr Hk]. unfold rnd. assert (round_mag F (Z.abs k) 1 = Z.abs k) as ->.
  { apply round_mag_exact; [lia|]. destruct (Z.abs_eq_or_opp k) as [-> | ->]; [done|by apply repr_opp]. }
  destruct (Z.leb_spec (2 ^ msb F) (Z.abs k)); [lia|]. f_equal. destruct (Z.ltb_spec k 0); lia.
Qed.

Lemma rnd_mono n1 d1 n2 d2 : 0 < d1 -> 0 < d2 -> n1 * d2 <= n2 * d1 -> fle (rnd F n1 d1) (rnd F n2 d2) = true.
Proof.
  intros H1 H2 Hle. unfold rnd.
  pose proof (round_mag_nonneg (Z.abs n1) d1 ltac:(lia) H1). pose proof (round_mag_nonneg (Z.abs n2) d2 ltac:(lia) H2).
  assert (0 <= n1 -> round_mag F (Z.abs n1) d1 <= round_mag F (Z.abs n2) d2) as P by (intros; apply round_mag_mono; nia).
  assert (n2 < 0 -> round_mag F (Z.abs n2) d2 <= round_mag F (Z.abs n1) d1) as N by (intros; apply round_mag_mono; nia).
  destruct (Z.ltb_spec n1 0), (Z.ltb_spec n2 0);
    destruct (Z.leb_spec (2 ^ msb F) (round_mag F (Z.abs n1) d1)), (Z.leb_spec (2 ^ msb F) (round_mag F (Z.abs n2) d2));
    cbn [fle]; try done; try apply Z.leb_le; try nia.
Qed.

(** Rounding does not cross a number of the format. *)
Lemma rnd_le n d b : 0 < d -> valid (Fin b) -> n <= b * d -> fle (rnd F n d) (Fin b) = true.
Proof. intros Hd Hb Hle. rewrite <- (rnd_exact b Hb). apply rnd_mono; lia. Qed.

Lemma rnd_ge n d b : 0 < d -> valid (Fin b) -> b * d <= n -> fle (Fin b) (rnd F n d) = true.
Proof. intros Hd Hb Hle. rewrite <- (rnd_exact b Hb). apply rnd_mono; lia. Qed.

End Rounding.

(** ** Order *)

Lemma fle_trans x y z : fle x y = true -> fle y z = true -> fle x z = true.
Proof. destruct x as [|[]|a], y as [|[]|b], z as [|[]|c]; cbn; intros; bool_hyps; try done. apply Z.leb_le. lia. Qed.

Lemma fle_total x y : x <> NaN -> y <> NaN -> fle x y = false -> fle y x = true.
Proof. destruct x as [|[]|a], y as [|[]|b]; cbn; intros; bool_hyps; try done. apply Z.leb_le. lia. Qed.

Lemma fle_refl x : x <> NaN -> fle x x = true.
Proof. destruct x as [|[]|a]; cbn; [done..|]. intros _. apply Z.leb_refl. Qed.

(** ** Bounds of results *)

Section Bounds.
Context (F : format) (HF : format_ok F).
#[local] Set Default Proof Using "Type*".

Lemma one_pos : 0 < one F.
Proof. apply pow_pos. apply HF. Qed.

Lemma valid_pow2 e : 0 <= e < msb F -> valid F (Fin (2 ^ e)).
Proof.
  intros He. pose proof (pow_pos (digits F) ltac:(destruct HF; lia)). pose proof (pow_pos e ltac:(lia)). split.
  - exists 1, e. split_and!; lia.
  - rewrite Z.abs_eq by lia. apply Z.pow_lt_mono_r; lia.
Qed.

Lemma valid_scaled m e : 0 <= e -> Z.abs m <= 2 ^ digits F -> digits F + e < msb F -> valid F (Fin (m * 2 ^ e)).
Proof.
  intros He Hm Hlt. split; [by exists m, e|]. pose proof (pow_pos e He). rewrite Z.abs_mul, (Z.abs_eq (2 ^ e)) by lia.
  apply Z.le_lt_trans with (2 ^ digits F * 2 ^ e); [nia|]. rewrite <- Z.pow_add_r by (destruct HF; lia). apply Z.pow_lt_mono_r; destruct HF; lia.
Qed.

Lemma of_int_exact n : Z.abs n <= 2 ^ digits F -> of_int F n = Fin (n * one F).
Proof. intros Hn. apply rnd_exact; [done|]. destruct HF as (? & ? & ?). apply valid_scaled; (done || lia). Qed.

Lemma rnd_in n d lo hi : 0 < d -> valid F (Fin lo) -> valid F (Fin hi) -> lo * d <= n <= hi * d ->
  exists k, rnd F n d = Fin k /\ lo <= k <= hi /\ valid F (Fin k).
Proof.
  intros Hd Hlo Hhi [H1 H2]. pose proof (rnd_ge F HF n d lo Hd Hlo H1) as L. pose proof (rnd_le F HF n d hi Hd Hhi H2) as U.
  pose proof (rnd_valid F HF n d Hd) as V. destruct (rnd F n d) as [|[]|k]; cbn in L, U; try done.
  apply Z.leb_le in L, U. by exists k.
Qed.

(** A finite number between 0 and 2^[e] units. *)
Definition upto (e : Z) (x : fp) : Prop := exists k, x = Fin k /\ 0 <= k <= 2 ^ e /\ valid F x.

Lemma valid_0 : valid F (Fin 0).
Proof.
  pose proof (pow_pos (digits F) ltac:(destruct HF; lia)). split; [exists 0, 0; split_and!; lia|].
  cbn [Z.abs]. apply pow_pos. destruct HF; lia.
Qed.

Lemma upto_rnd n d e : 0 < d -> 0 <= e < msb F -> 0 <= n <= 2 ^ e * d -> upto e (rnd F n d).
Proof.
  intros Hd He Hn. destruct (rnd_in n d 0 (2 ^ e)) as (k & E & ? & V); [done|apply valid_0|by apply valid_pow2|lia|].
  exists k. by rewrite E.
Qed.

Lemma upto_le e e' x : e <= e' -> upto e x -> upto e' x.
Proof. intros He (k & -> & ? & ?). exists k. split_and!; [done|lia| |done]. etrans; [|apply (Z.pow_le_mono_r 2 e e'); lia]. lia. Qed.

Lemma upto_fmul e1 e2 x y : 0 <= e1 + e2 - unit_exp F < msb F -> 0 <= e1 -> 0 <= e2 -> upto e1 x -> upto e2 y ->
  upto (e1 + e2 - unit_exp F) (fmul F x y).
Proof.
  intros He H1 H2 (a & -> & Ha & _) (b & -> & Hb & _). cbn [fmul]. apply upto_rnd; [apply one_pos|done|]. unfold one.
  rewrite <- Z.pow_add_r by (destruct HF; lia). replace (e1 + e2 - unit_exp F + unit_exp F) with (e1 + e2) by lia.
  rewrite Z.pow_add_r by lia. split; [nia|]. apply Z.mul_le_mono_nonneg; lia.
Qed.

Lemma upto_fdiv e c x b : 0 <= e + unit_exp F - c < msb F -> 0 <= e -> 0 <= c -> upto e x -> 2 ^ c <= b ->
  upto (e + unit_exp F - c) (fdiv F x (Fin b)).
Proof.
  intros He H1 Hc (a & -> & Ha & _) Hb. pose proof (pow_pos c Hc). pose proof (pow_pos (e + unit_exp F - c) ltac:(lia)).
  cbn [fdiv]. destruct (Z.eqb_spec b 0); [lia|]. apply upto_rnd; [lia|done|]. rewrite Z.sgn_pos, Z.abs_eq by lia. pose proof one_pos.
  split; [nia|]. apply Z.le_trans with (2 ^ (e + unit_exp F - c) * 2 ^ c); [|nia]. rewrite <- Z.pow_add_r by lia.
  replace (e + unit_exp F - c + c) with (e + unit_exp F) by lia. rewrite Z.pow_add_r by (destruct HF; lia). unfold one in *. nia.
Qed.

Lemma upto_fmax e x y : upto e x -> upto e y ->
  upto e (fmax x y) /\ fle x (fmax x y) = true.
Proof.
  intros (a & -> & Ha & Va) (b & -> & Hb & Vb). unfold fmax, flt. destruct (fle (Fin b) (Fin a)) eqn:E; cbn [negb].
  - split; [by exists a|]. by apply fle_refl.
  - split; [by exists b|]. by apply fle_total.
Qed.

(** Rounding at most doubles. *)
Lemma rnd_double n d k : 0 < d -> d <= n -> n < 2 ^ (msb F - 2) * d -> rnd F n d = Fin k -> k * d <= 2 * n.
Proof.
  intros Hd Hn Hlt E. assert (1 <= n / d) as Hq by (apply Z.div_le_lower_bound; lia).
  set (j := Z.log2 (n / d)). pose proof (Z.log2_spec (n / d) ltac:(lia)) as [L U]. fold j in L, U.
  pose proof (Z.log2_nonneg (n / d)) as Hj. fold j in Hj. pose proof (Z.mul_div_le n d Hd) as Hm. pose proof (Z.div_mod n d ltac:(lia)).
  pose proof (Z.mod_pos_bound n d Hd). rewrite Z.pow_succ_r in U by done.
  assert (j < msb F - 2) as Hj2. { apply (Z.pow_lt_mono_r_iff 2); destruct HF; [lia..|]. nia. }
  assert (fle (Fin k) (Fin (2 * 2 ^ j)) = true) as Hle.
  { rewrite <- E. apply rnd_le; [done|done| |nia]. rewrite <- Z.pow_succ_r by done. apply valid_pow2. lia. }
  apply Z.leb_le in Hle. assert (d * 2 ^ j <= d * (n / d)) by (apply Z.mul_le_mono_nonneg_l; lia). nia.
Qed.
End Bounds.

Lemma upto_convert F G e x : format_ok F -> format_ok G -> 0 <= e - unit_exp F + unit_exp G < msb G -> 0 <= e ->
  upto F e x -> upto G (e - unit_exp F + unit_exp G) (convert F G x).
Proof.
  intros HF HG He H0 (a & -> & Ha & _). cbn [convert]. pose proof (one_pos F HF). pose proof (one_pos G HG). apply upto_rnd; [done..|].
  unfold one in *. rewrite <- Z.pow_add_r by (destruct HF; lia).
  replace (e - unit_exp F + unit_exp G + unit_exp F) with (e + unit_exp G) by lia. rewrite Z.pow_add_r by (destruct HG; lia). nia.
Qed.
