(* ===== verification/HQFilter.v ===== *)
(** * Filters of the HQResize operator ([cvcuda/priv/OpHQResizeFilter.cuh])

    The tables of coefficients, the filters made from them for a size of input and
    output, and their supports. The functions [expf] and [sin] are arguments. *)
From S2P Require Import Prelude Effects Float.
From stdpp Require Import options.

#[local] Open Scope Z_scope.

Abbreviation f_add := (fadd binary32).
Abbreviation f_sub := (fsub binary32).
Abbreviation f_mul := (fmul binary32).
Abbreviation f_div := (fdiv binary32).
Abbreviation f_int := (of_int binary32).
Abbreviation f_const := (of_ratio binary32).

(** ** Types of filters *)

Inductive NVCVInterpolationType :=
| NVCV_INTERP_NEAREST | NVCV_INTERP_LINEAR | NVCV_INTERP_CUBIC | NVCV_INTERP_AREA | NVCV_INTERP_LANCZOS
| NVCV_INTERP_GAUSSIAN | NVCV_INTERP_MAX | NVCV_WARP_INVERSE_MAP | NVCV_INTERP_HAMMING | NVCV_INTERP_BOX.

Inductive FilterType := Nearest | Linear | Triangular | Gaussian | Cubic | Lanczos3.
Inductive FilterTypeKind := KindNearest | KindLinear | ShmFilter.

#[global] Instance FilterTypeKind_eq_dec : EqDecision FilterTypeKind.
Proof. solve_decision. Defined.

Definition GetFilterTypeKind (t : FilterType) : FilterTypeKind :=
  match t with Nearest => KindNearest | Linear => KindLinear | _ => ShmFilter end.

Record FilterMode := MkMode { filterType : FilterType; antialias : bool }.

Definition GetFilterMode (interpolation : NVCVInterpolationType) (antialias : bool) : outcome FilterMode :=
  t ← match interpolation with
      | NVCV_INTERP_NEAREST => Ok Nearest
      | NVCV_INTERP_LINEAR => Ok Linear
      | NVCV_INTERP_CUBIC => Ok Cubic
      | NVCV_INTERP_LANCZOS => Ok Lanczos3
      | NVCV_INTERP_GAUSSIAN => Ok Gaussian
      | _ => Throw NVCV_ERROR_NOT_IMPLEMENTED
      end;
  let t := match t with Linear => if antialias then Triangular else Linear | t => t end in
  Ok (MkMode t antialias).

Definition GetFilterModes (minInterpolation magInterpolation : NVCVInterpolationType) (antialias : bool) : outcome (FilterMode * FilterMode) :=
  minFilter ← GetFilterMode minInterpolation antialias;
  magFilter ← GetFilterMode magInterpolation false;
  Ok (minFilter, magFilter).

(** ** Filters *)

(** [coeffs] is the index of the first coefficient in the factory's table. *)
Record ResamplingFilter := MkFilter { coeffs : option Z; numCoeffs : Z; anchor : fp; scale : fp }.

Definition rescale (f : ResamplingFilter) (support : fp) : ResamplingFilter :=
  let scale' := f_div (f_int (numCoeffs f - 1)) support in
  MkFilter (coeffs f) (numCoeffs f) (f_div (f_mul (anchor f) (scale f)) scale') scale'.

Definition support (f : ResamplingFilter) : outcome Z := ceil_int binary32 (f_div (f_int (numCoeffs f - 1)) (scale f)).

(** [operator()]: the two coefficients read around [x], if any. *)
Definition eval_reads (table : list fp) (f : ResamplingFilter) (x : fp) : outcome (option (fp * fp)) :=
  if negb (flt (f_int (-1)) x) then Ok None else
  if fle (f_int (numCoeffs f)) x then Ok None else
  x0 ← floor_int binary32 x;
  let x1 := x0 + 1 in
  base ← match coeffs f with Some base => Ok base | None => Stuck end;
  f0 ← (if x0 <? 0 then Ok (Fin 0) else rd table (base + x0));
  f1 ← (if numCoeffs f <=? x1 then Ok (Fin 0) else rd table (base + x1));
  Ok (Some (f0, f1)).

(** ** The tables *)

Section Windows.
Context (expf sinf : fp -> fp).

Definition M_PI : fp := of_ratio binary64 314159265358979323846 (10 ^ 20).

Definition sinc (x : fp) : fp :=
  let x := f_mul x (convert binary64 binary32 M_PI) in
  if flt (fabs x) (convert binary64 binary32 (of_ratio binary64 1 (10 ^ 5)))
  then f_sub (f_int 1) (f_mul (f_mul x x) (f_div (f_int 1) (f_int 6)))
  else f_div (sinf x) x.

Definition LanczosWindow (x a : fp) : fp :=
  if fle a (fabs x) then Fin 0 else f_mul (sinc x) (sinc (f_div x a)).

Definition CubicWindow (x : fp) : fp :=
  let x := fabs x in
  if fle (f_int 2) x then Fin 0 else
  let x2 := f_mul x x in
  let x3 := f_mul (f_mul x x) x in
  if flt (f_int 1) x
  then f_add (f_sub (f_add (f_mul (f_const (-1) 2) x3) (f_mul (f_const 5 2) x2)) (f_mul (f_int 4) x)) (f_int 2)
  else f_add (f_sub (f_mul (f_const 3 2) x3) (f_mul (f_const 5 2) x2)) (f_int 1).

(** [i - (filter.numCoeffs - 1) * 0.5f] *)
Definition centred (n i : Z) : fp := f_sub (f_int i) (f_mul (f_int (n - 1)) (f_const 1 2)).

Definition GaussianCoeff (n i : Z) : fp :=
  let x := f_div (f_mul (f_int 4) (centred n i)) (f_int (n - 1)) in expf (f_mul (fneg x) x).
Definition LanczosCoeff (a : fp) (n i : Z) : fp :=
  let x := f_div (f_mul (f_mul (f_int 2) a) (centred n i)) (f_int (n - 1)) in LanczosWindow x a.
Definition CubicCoeff (n i : Z) : fp :=
  CubicWindow (f_div (f_mul (f_int 4) (centred n i)) (f_int (n - 1))).

(** [filter.coeffs[i] = v] *)
Definition set_coeff (f : ResamplingFilter) (table : list fp) (i : Z) (v : fp) : outcome (list fp) :=
  match coeffs f with Some base => wr table (base + i) v | None => Stuck end.

Definition InitFilter (f : ResamplingFilter) (F : Z -> fp) (table : list fp) : outcome (list fp) :=
  mfold (fun t i => set_coeff f t i (F i)) (zrange 0 (numCoeffs f)) table.

Definition InitTriangularFilter (f : ResamplingFilter) (table : list fp) : outcome (list fp) :=
  table ← set_coeff f table 0 (Fin 0);
  table ← set_coeff f table 1 (f_int 1);
  set_coeff f table 2 (Fin 0).

(** The filters are passed by value: the [rescale]s at the end of the last two
    change a copy. *)
Definition InitGaussianFilter (f : ResamplingFilter) (table : list fp) : outcome (list fp) :=
  InitFilter f (GaussianCoeff (numCoeffs f)) table.
Definition InitLanczosFilter (f : ResamplingFilter) (a : fp) (table : list fp) : outcome (list fp) :=
  InitFilter f (LanczosCoeff a (numCoeffs f)) table.
Definition InitCubicFilter (f : ResamplingFilter) (table : list fp) : outcome (list fp) :=
  InitFilter f (CubicCoeff (numCoeffs f)) table.

(** ** The factory *)

Inductive FilterIdx := Idx_Triangular | Idx_Gaussian | Idx_Lanczos3 | Idx_Cubic.

Definition idx (i : FilterIdx) : Z :=
  match i with Idx_Triangular => 0 | Idx_Gaussian => 1 | Idx_Lanczos3 => 2 | Idx_Cubic => 3 end.

Definition kLanczosResolution : Z := 32.
Definition kLanczosA : Z := 3.
Definition kTriangularSize : Z := 3.
Definition kGaussianSize : Z := 65.
Definition kCubicSize : Z := 129.
Definition kLanczosSize : Z := 2 * kLanczosA * kLanczosResolution + 1.
Definition kTotalSize : Z := kTriangularSize + kGaussianSize + kCubicSize + kLanczosSize.

(** The filters and their coefficients, which are copied to the device. *)
Record ResamplingFiltersFactory := MkFactory { m_filters : list ResamplingFilter; m_filterData : list fp }.

Definition addFilter (filters : list ResamplingFilter) (filterIdx : FilterIdx) (size : Z) : outcome (list ResamplingFilter) :=
  base ← (if idx filterIdx =? 0 then Ok (Some 0) else
    prev ← rd filters (idx filterIdx - 1); Ok ((fun b => b + numCoeffs prev) <$> coeffs prev));
  wr filters (idx filterIdx) (MkFilter base size (f_int 1) (f_mul (f_int (size - 1)) (f_const 1 2))).

(** Nothing is in the arrays before they are filled. *)
Definition no_filter : ResamplingFilter := MkFilter None 0 NaN NaN.

Definition make_factory : outcome ResamplingFiltersFactory :=
  let data := replicate (Z.to_nat kTotalSize) NaN in
  let filters := replicate 4 no_filter in
  filters ← addFilter filters Idx_Triangular kTriangularSize;
  f ← rd filters (idx Idx_Triangular); data ← InitTriangularFilter f data;
  filters ← addFilter filters Idx_Gaussian kGaussianSize;
  f ← rd filters (idx Idx_Gaussian); data ← InitGaussianFilter f data;
  filters ← addFilter filters Idx_Lanczos3 kLanczosSize;
  f ← rd filters (idx Idx_Lanczos3); data ← InitLanczosFilter f (f_int kLanczosA) data;
  filters ← addFilter filters Idx_Cubic kCubicSize;
  f ← rd filters (idx Idx_Cubic); data ← InitCubicFilter f data;
  Ok (MkFactory filters data).
End Windows.

(** ** Making filters *)

Section Create.
(** Whether the current device is the one of the factory. *)
Context (same_device : bool) (factory : ResamplingFiltersFactory).

Definition validateDeviceId : outcome unit := throw_if (negb same_device) NVCV_ERROR_DEVICE (Ok tt).

Definition CreateCubic (radius : fp) : outcome ResamplingFilter := noexcept (
  _ ← validateDeviceId; f ← rd (m_filters factory) (idx Idx_Cubic);
  Ok (rescale f (f_mul (f_int 2) (fmax (f_int 2) radius)))).

Definition M_SQRT2 : fp := of_ratio binary64 141421356237309504880 (10 ^ 20).

Definition CreateGaussian (sigma : fp) : outcome ResamplingFilter := noexcept (
  _ ← validateDeviceId; f ← rd (m_filters factory) (idx Idx_Gaussian);
  Ok (rescale f (fmax (f_int 1) (f_mul (convert binary64 binary32 (fmul binary64 (of_int binary64 4) M_SQRT2)) sigma)))).

Definition CreateLanczos3 (radius : fp) : outcome ResamplingFilter := noexcept (
  _ ← validateDeviceId; f ← rd (m_filters factory) (idx Idx_Lanczos3);
  Ok (rescale f (f_mul (f_int 2) (fmax (f_int 3) radius)))).

Definition CreateTriangular (radius : fp) : outcome ResamplingFilter := noexcept (
  _ ← validateDeviceId; f ← rd (m_filters factory) (idx Idx_Triangular);
  Ok (rescale f (fmax (f_int 1) (f_mul (f_int 2) radius)))).

Definition GetResamplingFilter (mode : FilterMode) (inSize outSize : fp) : outcome ResamplingFilter :=
  let antialias := antialias mode && flt outSize inSize in
  match filterType mode with
  | Linear => CreateTriangular (f_int 1)
  | Triangular => CreateTriangular (if antialias then f_div inSize outSize else f_int 1)
  | Gaussian =>
      let radius := if antialias then f_div inSize outSize else f_int 1 in
      CreateGaussian (convert binary64 binary32 (fdiv binary64 (convert binary32 binary64 (f_mul radius (f_const 1 2))) M_SQRT2))
  | Cubic => CreateCubic (if antialias then f_div (f_mul (f_int 2) inSize) outSize else f_int 2)
  | Lanczos3 => CreateLanczos3 (if antialias then f_div (f_mul (f_int 3) inSize) outSize else f_int 3)
  | Nearest => Ok (MkFilter None 0 (f_int 0) (f_int 1))
  end.

Definition kMaxGPUFilterSupport : Z := 8192.

(** The body of the loop of [SetupFilters], for one axis. *)
Definition setup_filter (minFilter magFilter : FilterMode) (inSize outSize : fp) : outcome (FilterTypeKind * ResamplingFilter) :=
  let filterMode := if flt outSize inSize then minFilter else magFilter in
  filter ← GetResamplingFilter filterMode inSize outSize;
  s ← support filter;
  let filter := if kMaxGPUFilterSupport <? s then rescale filter (f_int kMaxGPUFilterSupport) else filter in
  Ok (GetFilterTypeKind (filterType filterMode), filter).
End Create.

(** ** The tables are filled *)

Lemma length_zrange lo hi : length (zrange lo hi) = Z.to_nat (hi - lo).
Proof. unfold zrange. by rewrite length_fmap, length_seq. Qed.

Lemma zrange_snoc lo hi : lo <= hi -> zrange lo (hi + 1) = zrange lo hi ++ [hi].
Proof.
  intros H. unfold zrange. replace (Z.to_nat (hi + 1 - lo)) with (S (Z.to_nat (hi - lo))) by lia.
  rewrite seq_S, fmap_app. cbn. do 2 f_equal. lia.
Qed.

(** [InitFilter] writes the coefficients of its filter and nothing else. *)
Lemma InitFilter_run f F pre mid post : coeffs f = Some (Z.of_nat (length pre)) -> numCoeffs f = Z.of_nat (length mid) ->
  InitFilter f F (pre ++ mid ++ post) = Ok (pre ++ (F <$> zrange 0 (numCoeffs f)) ++ post).
Proof.
  intros Hc Hn. unfold InitFilter.
  destruct (mfold_zrange (fun t i => set_coeff f t i (F i))
    (fun i t => t = (pre ++ (F <$> zrange 0 i)) ++ drop (Z.to_nat i) mid ++ post) 0 (numCoeffs f) (pre ++ mid ++ post)) as (t & -> & ->);
    [lia|cbn; by rewrite app_nil_r| |].
  2:{ rewrite drop_ge by lia. by rewrite <- app_assoc. }
  intros i t Hi ->. eexists. split; [|reflexivity]. unfold set_coeff. rewrite Hc. unfold wr.
  assert (length (pre ++ (F <$> zrange 0 i)) = Z.to_nat (Z.of_nat (length pre) + i)) as El
    by (rewrite length_app, length_fmap, length_zrange; lia).
  destruct (lookup_lt_is_Some_2 mid (Z.to_nat i)) as [x Hx]; [lia|]. rewrite (drop_S _ _ _ Hx). rewrite length_app, El.
  cbn [app length]. rewrite length_app, length_drop, (proj2 (Z.leb_le 0 _)), (proj2 (Z.ltb_lt _ _)) by lia. cbn [andb]. f_equal.
  rewrite insert_app_r_alt, El, Nat.sub_diag, zrange_snoc, fmap_app, <- !app_assoc by lia. cbn. by replace (Z.to_nat (i + 1)) with (S (Z.to_nat i)) by lia.
Qed.

(** The factory's filters before they are rescaled: each of support 2 around 1. *)
Definition base_filter (base n : Z) : ResamplingFilter := MkFilter (Some base) n (Fin (2 ^ 149)) (Fin ((n - 1) * 2 ^ 148)).

Definition base_filters : list ResamplingFilter := [base_filter 0 3; base_filter 3 65; base_filter 68 193; base_filter 261 129].

(** The factory's coefficients: one table after the other. *)
Definition base_table (expf sinf : fp -> fp) : list fp :=
  [Fin 0; f_int 1; Fin 0] ++ (GaussianCoeff expf 65 <$> zrange 0 65) ++
  (LanczosCoeff sinf (f_int 3) 193 <$> zrange 0 193) ++ (CubicCoeff 129 <$> zrange 0 129).

Lemma addFilter_runs :
  addFilter (replicate 4 no_filter) Idx_Triangular kTriangularSize = Ok (base_filter 0 3 :: replicate 3 no_filter) /\
  addFilter (base_filter 0 3 :: replicate 3 no_filter) Idx_Gaussian kGaussianSize =
    Ok (base_filter 0 3 :: base_filter 3 65 :: replicate 2 no_filter) /\
  addFilter (base_filter 0 3 :: base_filter 3 65 :: replicate 2 no_filter) Idx_Lanczos3 kLanczosSize =
    Ok (base_filter 0 3 :: base_filter 3 65 :: base_filter 68 193 :: replicate 1 no_filter) /\
  addFilter (base_filter 0 3 :: base_filter 3 65 :: base_filter 68 193 :: replicate 1 no_filter) Idx_Cubic kCubicSize = Ok base_filters.
Proof. split_and!; by vm_compute. Qed.

Lemma factory_filled expf sinf : make_factory expf sinf = Ok (MkFactory base_filters (base_table expf sinf)).
Proof.
  destruct addFilter_runs as (E1 & E2 & E3 & E4). unfold make_factory. cbv zeta. rewrite E1. cbn [mbind outcome_bind].
  change (rd _ (idx Idx_Triangular)) with (Ok (base_filter 0 3)). cbn [mbind outcome_bind].
  assert (InitTriangularFilter (base_filter 0 3) (replicate (Z.to_nat kTotalSize) NaN) =
    Ok ([Fin 0; f_int 1; Fin 0] ++ replicate 65 NaN ++ replicate 193 NaN ++ replicate 129 NaN)) as -> by (vm_compute; reflexivity).
  cbn [mbind outcome_bind]. rewrite E2. cbn [mbind outcome_bind].
  change (rd _ (idx Idx_Gaussian)) with (Ok (base_filter 3 65)). cbn [mbind outcome_bind]. unfold InitGaussianFilter.
  rewrite InitFilter_run by done. cbn [mbind outcome_bind]. rewrite E3. cbn [mbind outcome_bind].
  change (rd _ (idx Idx_Lanczos3)) with (Ok (base_filter 68 193)). cbn [mbind outcome_bind]. unfold InitLanczosFilter.
  rewrite app_assoc, InitFilter_run by (rewrite ?length_app, ?length_fmap, ?length_zrange; done).
  cbn [mbind outcome_bind]. rewrite E4. cbn [mbind outcome_bind].
  change (rd _ (idx Idx_Cubic)) with (Ok (base_filter 261 129)). cbn [mbind outcome_bind]. unfold InitCubicFilter.
  rewrite (app_assoc (_ ++ _)). rewrite <- (app_nil_r (replicate 129 NaN)).
  rewrite InitFilter_run by (rewrite ?length_app, ?length_fmap, ?length_zrange; done). cbn [mbind outcome_bind].
  unfold base_table. by rewrite app_nil_r, <- !app_assoc.
Qed.

(** ** Supports and anchors *)

Abbreviation valid32 := (valid binary32).
Abbreviation upto32 := (upto binary32).

Definition steps (N : Z) : Prop := N = 2 \/ N = 64 \/ N = 128 \/ N = 192.

Lemma valid_steps N e : steps N -> 0 <= e < 250 -> valid32 (Fin (N * 2 ^ e)).
Proof. intros HN He. apply valid_scaled; [done|lia|..]; cbn; destruct HN as [->|[->|[->| ->]]]; lia. Qed.

Lemma f_int_steps N : steps N -> f_int N = Fin (N * 2 ^ 149).
Proof. intros HN. apply of_int_exact; [done|]. cbn. destruct HN as [->|[->|[->| ->]]]; lia. Qed.

(** A filter of the factory, rescaled to the support [s], a number from 1 to 2^29. *)
Lemma rescale_base base N s : steps N -> upto32 178 (Fin s) -> 2 ^ 149 <= s ->
  exists a k, rescale (base_filter base (N + 1)) (Fin s) = MkFilter (Some base) (N + 1) (Fin a) (Fin k) /\
    0 <= a /\ N * 2 ^ 120 <= k <= N * 2 ^ 149 /\ valid32 (Fin k) /\ rnd binary32 (N * 2 ^ 148 * 2 ^ 149) k = Fin a.
Proof.
  intros HN (s' & [= <-] & [Hs0 Hs] & Vs) Hs1. assert (0 < N) as HN0 by (destruct HN as [->|[->|[->| ->]]]; lia).
  unfold rescale, base_filter. cbn [numCoeffs coeffs anchor scale]. rewrite Z.add_simpl_r, f_int_steps by done.
  cbn [fdiv]. rewrite (proj2 (Z.eqb_neq s 0)), Z.sgn_pos, Z.abs_eq by lia.
  destruct (rnd_in binary32 binary32_ok (N * 2 ^ 149 * 1 * one binary32) s (N * 2 ^ 120) (N * 2 ^ 149)) as (k & -> & [L U] & V).
  { lia. } { by apply valid_steps. } { by apply valid_steps. }
  { change (one binary32) with (2 ^ 149). split; nia. }
  cbn [fmul]. assert (rnd binary32 (2 ^ 149 * (N * 2 ^ 148)) (one binary32) = Fin (N * 2 ^ 148)) as E.
  { destruct (rnd_in binary32 binary32_ok (2 ^ 149 * (N * 2 ^ 148)) (one binary32) (N * 2 ^ 148) (N * 2 ^ 148)) as (k' & -> & ? & _);
      [done|by apply valid_steps|by apply valid_steps|change (one binary32) with (2 ^ 149); lia|]. f_equal. lia. }
  replace (N + 1 - 1) with N by lia. rewrite E. cbn [fdiv]. rewrite (proj2 (Z.eqb_neq k 0)), Z.sgn_pos, Z.abs_eq by lia.
  replace (N * 2 ^ 148 * 1 * one binary32) with (N * 2 ^ 148 * 2 ^ 149) by (change (one binary32) with (2 ^ 149); lia).
  destruct (rnd_in binary32 binary32_ok (N * 2 ^ 148 * 2 ^ 149) k 0 (2 ^ 177)) as (a & Ea & [La Ua] & Va);
    [lia|by apply valid_0|by apply valid_pow2|nia|].
  exists a, k. by rewrite Ea.
Qed.

Lemma ceil_ok t b : 2 ^ 149 <= t <= b * 2 ^ 149 -> b <= 2 ^ 29 ->
  exists c, ceil_int binary32 (Fin t) = Ok c /\ 1 <= c <= b /\ t <= c * 2 ^ 149.
Proof.
  intros Ht Hb. unfold ceil_int. change (one binary32) with (2 ^ 149).
  pose proof (Z.div_mod (- t) (2 ^ 149) ltac:(lia)). pose proof (Z.mod_pos_bound (- t) (2 ^ 149) ltac:(lia)).
  exists (- (- t / 2 ^ 149)). rewrite int32_ok by (unfold in_s; nia). split_and!; [done|nia..].
Qed.

Lemma support_of base N a k : steps N -> 0 < k -> support (MkFilter (Some base) (N + 1) a (Fin k)) = ceil_int binary32 (rnd binary32 (N * 2 ^ 149 * 2 ^ 149) k).
Proof.
  intros HN Hk. unfold support. cbn [numCoeffs scale]. rewrite Z.add_simpl_r, f_int_steps by done. cbn [fdiv].
  rewrite (proj2 (Z.eqb_neq k 0)), Z.sgn_pos, Z.abs_eq by lia. by rewrite Z.mul_1_r.
Qed.

(** What is promised of a filter whose coefficients are kept in shared memory. *)
Record bounded_filter (f : ResamplingFilter) : Prop := {
  bf_support : exists s, support f = Ok s /\ 1 <= s <= kMaxGPUFilterSupport;
  bf_anchor : exists a, anchor f = Fin a /\ 0 <= a <= kMaxGPUFilterSupport * 2 ^ 149 /\ valid32 (anchor f);
  bf_table : exists base N, coeffs f = Some base /\ numCoeffs f = N + 1 /\ steps N /\ In (base_filter base (N + 1)) base_filters }.

Lemma limit_support base N s : steps N -> In (base_filter base (N + 1)) base_filters -> upto32 178 (Fin s) -> 2 ^ 149 <= s ->
  let f := rescale (base_filter base (N + 1)) (Fin s) in
  exists c, support f = Ok c /\ bounded_filter (if kMaxGPUFilterSupport <? c then rescale f (f_int kMaxGPUFilterSupport) else f).
Proof.
  intros HN Hin Hs Hs1. assert (0 < N) as HN0 by (destruct HN as [->|[->|[->| ->]]]; lia). cbv zeta.
  destruct (rescale_base base N s HN Hs Hs1) as (a & k & -> & Ha & Hk & Vk & Ea). assert (0 < k) as Hk0 by lia.
  rewrite support_of by done.
  destruct (rnd_in binary32 binary32_ok (N * 2 ^ 149 * 2 ^ 149) k (2 ^ 149) (2 ^ 178)) as (t & Et & Ht & Vt);
    [done|by apply valid_pow2|by apply valid_pow2|nia|].
  destruct (ceil_ok t (2 ^ 29)) as (c & Ec & Hc & Htc); [lia..|]. rewrite Et. exists c. split; [done|].
  assert (valid32 (Fin a)) as Va by (rewrite <- Ea; by apply rnd_valid).
  assert (a <= t) as Hat. { apply Z.leb_le. change (fle (Fin a) (Fin t) = true). rewrite <- Ea, <- Et. apply rnd_mono; [done|done..|nia]. }
  destruct (Z.ltb_spec kMaxGPUFilterSupport c) as [Hlt|Hle].
  - unfold rescale. cbn [numCoeffs coeffs anchor scale]. rewrite Z.add_simpl_r, f_int_steps by done.
    assert (f_int kMaxGPUFilterSupport = Fin (2 ^ 162)) as -> by (vm_compute; reflexivity).
    assert (f_div (Fin (N * 2 ^ 149)) (Fin (2 ^ 162)) = Fin (N * 2 ^ 136)) as ->.
    { destruct HN as [->|[->|[->| ->]]]; vm_compute; reflexivity. }
    assert (a * k <= 2 * (N * 2 ^ 148 * 2 ^ 149)) as Hak.
    { apply (rnd_double binary32 binary32_ok); [done|nia| |done]. change (msb binary32 - 2) with 275. nia. }
    cbn [fmul]. destruct (rnd_in binary32 binary32_ok (a * k) (one binary32) 0 (N * 2 ^ 149)) as (m & -> & Hm & Vm);
      [done|by apply valid_0|by apply valid_steps|change (one binary32) with (2 ^ 149); nia|].
    cbn [fdiv]. rewrite (proj2 (Z.eqb_neq (N * 2 ^ 136) 0)), Z.sgn_pos, Z.abs_eq by lia. change (one binary32) with (2 ^ 149).
    destruct (rnd_in binary32 binary32_ok (m * 1 * 2 ^ 149) (N * 2 ^ 136) 0 (2 ^ 162)) as (a2 & -> & Ha2 & Va2);
      [lia|by apply valid_0|by apply valid_pow2|nia|].
    constructor.
    + exists 8192. split; [|by unfold kMaxGPUFilterSupport]. rewrite support_of by (done || lia).
      destruct HN as [->|[->|[->| ->]]]; vm_compute; reflexivity.
    + exists a2. split_and!; [done|unfold kMaxGPUFilterSupport; lia..|done].
    + exists base, N. by split_and!.
  - constructor.
    + exists c. rewrite support_of, Et by done. split; [done|]. unfold kMaxGPUFilterSupport in *. lia.
    + exists a. split_and!; [done|done|nia|done].
    + exists base, N. by split_and!.
Qed.

(** ** The filter of an axis *)

Section Filters.
Context (factory : ResamplingFiltersFactory) (Hfactory : m_filters factory = base_filters).
#[local] Set Default Proof Using "Type*".

(** The factory's filter, rescaled to at least a number. *)
Lemma created base N (n : fp) (x : fp) : steps N -> In (base_filter base (N + 1)) base_filters ->
  n = Fin (2 ^ 149) -> upto32 177 x ->
  exists c, support (rescale (base_filter base (N + 1)) (fmax n x)) = Ok c /\
    bounded_filter (let f := rescale (base_filter base (N + 1)) (fmax n x) in
                    if kMaxGPUFilterSupport <? c then rescale f (f_int kMaxGPUFilterSupport) else f).
Proof.
  intros HN Hin -> Hx. destruct (upto_fmax binary32 binary32_ok 177 (Fin (2 ^ 149)) x) as [(s & Es & Hs & Vs) Hge]; [|done|].
  { eexists. split; [done|]. split; [lia|by apply valid_pow2]. }
  rewrite Es in *. apply Z.leb_le in Hge. apply limit_support; [done|done| |done]. exists s. split_and!; [done|lia|lia|done].
Qed.

(** The same for twice a number that is at least 1. *)
Lemma created_twice base N (m : Z) (x : fp) : steps N -> In (base_filter base (N + 1)) base_filters ->
  1 <= m <= 8 -> upto32 176 x ->
  exists c, support (rescale (base_filter base (N + 1)) (f_mul (f_int 2) (fmax (f_int m) x))) = Ok c /\
    bounded_filter (let f := rescale (base_filter base (N + 1)) (f_mul (f_int 2) (fmax (f_int m) x)) in
                    if kMaxGPUFilterSupport <? c then rescale f (f_int kMaxGPUFilterSupport) else f).
Proof.
  intros HN Hin Hm Hx. assert (forall i, 1 <= i <= 8 -> f_int i = Fin (i * 2 ^ 149) /\ valid32 (Fin (i * 2 ^ 149))) as HI.
  { intros i Hi. split; [apply of_int_exact; [done|cbn; lia]|]. apply valid_scaled; cbn; lia || done. }
  destruct (HI m Hm) as [-> Vm]. destruct (HI 2 ltac:(lia)) as [-> _].
  destruct (upto_fmax binary32 binary32_ok 176 (Fin (m * 2 ^ 149)) x) as [(r & Er & Hr & Vr) Hge]; [|done|].
  { eexists. split; [done|]. split; [lia|done]. }
  rewrite Er in *. apply Z.leb_le in Hge. cbn [fmul].
  destruct (rnd_in binary32 binary32_ok (2 * 2 ^ 149 * r) (one binary32) (2 ^ 149) (2 ^ 177)) as (s & -> & Hs & Vs);
    [done|by apply valid_pow2|by apply valid_pow2|change (one binary32) with (2 ^ 149); lia|].
  apply limit_support; [done|done| |lia]. exists s. split_and!; [done|lia|lia|done].
Qed.

Lemma upto_quotient a b e : upto32 e a -> 149 <= e < 200 -> 2 ^ 149 <= b -> upto32 e (f_div a (Fin b)).
Proof.
  intros Ha He Hb. replace e with (e + unit_exp binary32 - 149) by (cbn; lia). apply upto_fdiv; try done; cbn; lia.
Qed.

Lemma f_int_upto n e : 0 <= n <= 2 ^ e -> 0 <= e <= 24 -> upto32 (e + 149) (f_int n).
Proof.
  intros Hn He. assert (2 ^ e <= 2 ^ 24) by (apply Z.pow_le_mono_r; lia). exists (n * 2 ^ 149).
  assert (f_int n = Fin (n * 2 ^ 149)) as -> by (apply of_int_exact; [done|cbn; lia]). split; [done|]. rewrite Z.pow_add_r by lia. split; [nia|]. apply valid_scaled; cbn; lia || done.
Qed.

Lemma upto_times n a e e1 : upto32 e a -> 0 <= n <= 2 ^ e1 -> 0 <= e1 <= 24 -> 149 <= e < 200 -> upto32 (e1 + e) (f_mul (f_int n) a).
Proof.
  intros Ha Hn He1 He. replace (e1 + e) with (e1 + 149 + e - unit_exp binary32) by (cbn; lia).
  apply upto_fmul; try done; cbn; [lia..|]. by apply f_int_upto.
Qed.

Lemma gaussian_sigma r : upto32 173 r -> upto32 172 (convert binary64 binary32 (fdiv binary64 (convert binary32 binary64 (f_mul r (f_const 1 2))) M_SQRT2)).
Proof.
  intros Hr. assert (upto32 148 (f_const 1 2)) as Hh.
  { eexists. split; [vm_compute; reflexivity|]. split; [lia|]. exact (valid_pow2 binary32 binary32_ok 148 ltac:(cbn; lia)). }
  assert (upto32 172 (f_mul r (f_const 1 2))) as H1.
  { change 172 with (173 + 148 - unit_exp binary32). apply upto_fmul; try done; cbn; lia. }
  assert (upto binary64 1097 (convert binary32 binary64 (f_mul r (f_const 1 2)))) as H2.
  { change 1097 with (172 - unit_exp binary32 + unit_exp binary64). apply upto_convert; try done; cbn; lia. }
  assert (exists b, M_SQRT2 = Fin b /\ 2 ^ 1074 <= b) as (b & -> & Hb).
  { eexists. split; [vm_compute; reflexivity|]. apply Z.leb_le. vm_compute. reflexivity. }
  change 172 with (1097 - unit_exp binary64 + unit_exp binary32). apply upto_convert; try done; try (cbn; lia).
  replace 1097 with (1097 + unit_exp binary64 - 1074) by (cbn; lia). apply upto_fdiv; try done; cbn; lia.
Qed.

(** For every mode of filters and every size of input up to 2^24, the filter of an
    axis has a support that fits into the shared memory. *)
Lemma setup_filter_bounded minFilter magFilter a b : upto32 173 a -> 2 ^ 149 <= b ->
  exists kind f, setup_filter true factory minFilter magFilter a (Fin b) = Ok (kind, f) /\
    (kind = KindNearest /\ f = MkFilter None 0 (f_int 0) (f_int 1) \/ kind <> KindNearest /\ bounded_filter f).
Proof.
  intros Ha Hb. unfold setup_filter. set (mode := if flt (Fin b) a then minFilter else magFilter). clearbody mode.
  assert (forall x e, upto32 e x -> 149 <= e < 200 -> upto32 e (f_div x (Fin b))) as HQ by (intros; by apply upto_quotient).
  unfold GetResamplingFilter. set (aa := antialias mode && flt (Fin b) a). clearbody aa.
  assert (upto32 173 (if aa then f_div a (Fin b) else f_int 1)) as HR.
  { destruct aa; [apply HQ; (done || lia)|]. apply (upto_le _ binary32_ok 149); [lia|]. apply (f_int_upto 1 0); lia. }
  destruct (filterType mode) eqn:Et; cbn [GetFilterTypeKind].
  - cbn [mbind outcome_bind]. assert (support (MkFilter None 0 (f_int 0) (f_int 1)) = Ok (-1)) as -> by (vm_compute; reflexivity).
    eexists _, _. split; [done|]. by left.
  - unfold CreateTriangular. cbn [validateDeviceId negb throw_if mbind outcome_bind]. rewrite Hfactory.
    change (rd base_filters _) with (Ok (base_filter 0 (2 + 1))). cbn [mbind outcome_bind noexcept].
    destruct (created 0 2 (f_int 1) (f_mul (f_int 2) (f_int 1))) as (c & -> & Hf); [by left|by left|by vm_compute| |].
    { apply (upto_le _ binary32_ok 150); [lia|]. apply (upto_times 2 (f_int 1) 149 1); [|lia..]. apply (f_int_upto 1 0); lia. }
    cbn [mbind outcome_bind]. eexists _, _. split; [done|]. by right.
  - unfold CreateTriangular. cbn [validateDeviceId negb throw_if mbind outcome_bind]. rewrite Hfactory.
    change (rd base_filters _) with (Ok (base_filter 0 (2 + 1))). cbn [mbind outcome_bind noexcept].
    destruct (created 0 2 (f_int 1) (f_mul (f_int 2) (if aa then f_div a (Fin b) else f_int 1))) as (c & -> & Hf); [by left|by left|by vm_compute| |].
    { apply (upto_le _ binary32_ok 174); [lia|]. by apply (upto_times 2 _ 173 1). }
    cbn [mbind outcome_bind]. eexists _, _. split; [done|]. by right.
  - unfold CreateGaussian. cbn [validateDeviceId negb throw_if mbind outcome_bind]. rewrite Hfactory.
    change (rd base_filters _) with (Ok (base_filter 3 (64 + 1))). cbn [mbind outcome_bind noexcept].
    destruct (created 3 64 (f_int 1) (f_mul (convert binary64 binary32 (fmul binary64 (of_int binary64 4) M_SQRT2))
      (convert binary64 binary32 (fdiv binary64 (convert binary32 binary64 (f_mul (if aa then f_div a (Fin b) else f_int 1) (f_const 1 2))) M_SQRT2))))
      as (c & -> & Hf); [by right; left|by right; left|by vm_compute| |].
    { change 177 with (154 + 172 - unit_exp binary32). apply upto_fmul; try done; try (cbn; lia); [|by apply gaussian_sigma].
      apply (upto_le _ binary32_ok 152); [lia|]. eexists. split; [vm_compute; reflexivity|]. split; [vm_compute; split; discriminate|].
      apply (valid_scaled binary32 binary32_ok 11863283 128); vm_compute; (done || discriminate). }
    cbn [mbind outcome_bind]. eexists _, _. split; [done|]. by right.
  - unfold CreateCubic. cbn [validateDeviceId negb throw_if mbind outcome_bind]. rewrite Hfactory.
    change (rd base_filters _) with (Ok (base_filter 261 (128 + 1))). cbn [mbind outcome_bind noexcept].
    destruct (created_twice 261 128 2 (if aa then f_div (f_mul (f_int 2) a) (Fin b) else f_int 2)) as (c & -> & Hf);
      [by right; right; left|by do 3 right; left|lia| |].
    { apply (upto_le _ binary32_ok 174); [lia|]. destruct aa; [apply HQ; [by apply (upto_times 2 a 173 1)|lia]|].
      apply (upto_le _ binary32_ok 150); [lia|]. apply (f_int_upto 2 1); lia. }
    cbn [mbind outcome_bind]. eexists _, _. split; [done|]. by right.
  - unfold CreateLanczos3. cbn [validateDeviceId negb throw_if mbind outcome_bind]. rewrite Hfactory.
    change (rd base_filters _) with (Ok (base_filter 68 (192 + 1))). cbn [mbind outcome_bind noexcept].
    destruct (created_twice 68 192 3 (if aa then f_div (f_mul (f_int 3) a) (Fin b) else f_int 3)) as (c & -> & Hf);
      [by do 3 right|by do 2 right; left|lia| |].
    { apply (upto_le _ binary32_ok 175); [lia|]. destruct aa; [apply HQ; [by apply (upto_times 3 a 173 2)|lia]|].
      apply (upto_le _ binary32_ok 151); [lia|]. apply (f_int_upto 3 2); lia. }
    cbn [mbind outcome_bind]. eexists _, _. split; [done|]. by right.
Qed.
End Filters.

(** ** Reading the tables *)

Lemma base_table_length expf sinf : length (base_table expf sinf) = 390%nat.
Proof. unfold base_table. by rewrite !length_app, !length_fmap, !length_zrange. Qed.

Lemma rd_inside {A} (l : list A) i : 0 <= i < Z.of_nat (length l) -> exists x, rd l i = Ok x.
Proof.
  intros Hi. destruct (lookup_lt_is_Some_2 l (Z.to_nat i)) as [x Hx]; [lia|]. exists x. apply rd_Ok. split; [lia|done].
Qed.

Lemma eval_reads_safe expf sinf f x : bounded_filter f -> is_ok (eval_reads (base_table expf sinf) f x) = true.
Proof.
  intros [_ _ (base & N & Ec & En & HN & Hin)]. unfold eval_reads. rewrite Ec, En.
  assert (f_int (-1) = Fin (- 2 ^ 149)) as -> by (vm_compute; reflexivity).
  assert (f_int (N + 1) = Fin ((N + 1) * 2 ^ 149)) as -> by (apply of_int_exact; [done|cbn; destruct HN as [->|[->|[->| ->]]]; lia]).
  destruct x as [|[]|k]; [done..|]. unfold flt, fle. destruct (Z.leb_spec k (- 2 ^ 149)); [done|]. cbn [negb].
  destruct (Z.leb_spec ((N + 1) * 2 ^ 149) k); [done|]. unfold floor_int. change (one binary32) with (2 ^ 149).
  pose proof (Z.div_mod k (2 ^ 149) ltac:(lia)). pose proof (Z.mod_pos_bound k (2 ^ 149) ltac:(lia)).
  set (q := k / 2 ^ 149) in *. assert (-1 <= q <= N) as Hq by nia.
  assert (0 < N <= 192 /\ 0 <= base /\ base + N + 1 <= 390) as (? & ? & ?).
  { split; [destruct HN as [->|[->|[->| ->]]]; lia|]. unfold base_filters, base_filter in Hin.
    repeat (destruct Hin as [Hin|Hin]; [injection Hin as <- HE _; lia|]). done. }
  rewrite int32_ok by (unfold in_s; lia). cbn [mbind outcome_bind].
  assert (forall i, 0 <= i <= N -> exists v, rd (base_table expf sinf) (base + i) = Ok v) as Hrd.
  { intros i Hi. apply rd_inside. rewrite base_table_length. lia. }
  destruct (Z.ltb_spec q 0).
  - cbn [mbind outcome_bind]. destruct (Z.leb_spec (N + 1) (q + 1)); [done|]. destruct (Hrd (q + 1)) as [v ->]; [lia|done].
  - destruct (Hrd q) as [v ->]; [lia|]. cbn [mbind outcome_bind]. destruct (Z.leb_spec (N + 1) (q + 1)); [done|].
    destruct (Hrd (q + 1)) as [v' ->]; [lia|done].
Qed.

(** The coefficients of a type of filter, and where they are in the factory's array. *)
Definition own_table (expf sinf : fp -> fp) (t : FilterType) : list fp :=
  match t with
  | Nearest => []
  | Linear | Triangular => [Fin 0; f_int 1; Fin 0]
  | Gaussian => GaussianCoeff expf 65 <$> zrange 0 65
  | Lanczos3 => LanczosCoeff sinf (f_int 3) 193 <$> zrange 0 193
  | Cubic => CubicCoeff 129 <$> zrange 0 129
  end.

Definition own_base (t : FilterType) : Z :=
  match t with Nearest | Linear | Triangular => 0 | Gaussian => 3 | Lanczos3 => 68 | Cubic => 261 end.

(** The filter whose coefficients are alone in an array. *)
Definition alone (f : ResamplingFilter) : ResamplingFilter := MkFilter (Some 0) (numCoeffs f) (anchor f) (scale f).

Lemma slice_app_r {A} (pre l : list A) lo hi : Z.of_nat (length pre) <= lo ->
  slice lo hi (pre ++ l) = slice (lo - Z.of_nat (length pre)) (hi - Z.of_nat (length pre)) l.
Proof.
  intros H. unfold slice. rewrite drop_app_ge by lia. f_equal; [f_equal; lia|]. f_equal. lia.
Qed.

Lemma slice_prefix {A} (l post : list A) hi : hi = Z.of_nat (length l) -> slice 0 hi (l ++ post) = l.
Proof. intros ->. rewrite slice_take, Nat2Z.id. apply take_app_length. Qed.

Lemma own_slice expf sinf t : t <> Nearest -> let n := Z.of_nat (length (own_table expf sinf t)) in
  slice (own_base t) (own_base t + n) (base_table expf sinf) = own_table expf sinf t.
Proof.
  intros Ht. destruct t; [done|..]; cbn [own_base own_table]; unfold base_table; rewrite ?length_fmap, ?length_zrange; cbn zeta.
  - reflexivity.
  - reflexivity.
  - rewrite slice_app_r by done. by apply slice_prefix; rewrite length_fmap, length_zrange.
  - rewrite slice_app_r by done. rewrite slice_app_r by (by rewrite length_fmap, length_zrange).
    rewrite slice_app_r by (by rewrite !length_fmap, !length_zrange). rewrite !length_fmap, !length_zrange.
    rewrite <- (app_nil_r (CubicCoeff 129 <$> zrange 0 129)) at 1. by apply slice_prefix; rewrite length_fmap, length_zrange.
  - rewrite slice_app_r by done. rewrite slice_app_r by (by rewrite length_fmap, length_zrange). rewrite !length_fmap, !length_zrange.
    by apply slice_prefix; rewrite length_fmap, length_zrange.
Qed.

(** Rescaling keeps the table of a filter. *)
Lemma setup_filter_table expf sinf minFilter magFilter a b kind f :
  setup_filter true (MkFactory base_filters (base_table expf sinf)) minFilter magFilter a b = Ok (kind, f) ->
  let t := filterType (if flt b a then minFilter else magFilter) in
  kind = GetFilterTypeKind t /\ (t <> Nearest -> coeffs f = Some (own_base t) /\ numCoeffs f = Z.of_nat (length (own_table expf sinf t))).
Proof.
  unfold setup_filter. set (mode := if flt b a then minFilter else magFilter). clearbody mode. cbv zeta.
  assert (forall f0 g, (s ← support f0; Ok (GetFilterTypeKind (filterType mode), if kMaxGPUFilterSupport <? s then rescale f0 (f_int kMaxGPUFilterSupport) else f0)) = Ok (kind, g) ->
    kind = GetFilterTypeKind (filterType mode) /\ coeffs g = coeffs f0 /\ numCoeffs g = numCoeffs f0) as H.
  { intros f0 g. destruct (support f0) as [s| |]; [|done..]. cbn [mbind outcome_bind]. intros [= <- <-]. split; [done|]. by destruct (_ <? _). }
  unfold GetResamplingFilter, CreateTriangular, CreateGaussian, CreateCubic, CreateLanczos3, own_table.
  destruct (filterType mode); cbn [validateDeviceId negb throw_if mbind outcome_bind noexcept m_filters own_base];
    rewrite ?length_fmap, ?length_zrange; intros E; apply H in E as (-> & -> & ->); by split.
Qed.

Lemma eval_reads_own expf sinf f t x : t <> Nearest -> bounded_filter f ->
  coeffs f = Some (own_base t) -> numCoeffs f = Z.of_nat (length (own_table expf sinf t)) ->
  eval_reads (base_table expf sinf) f x = eval_reads (own_table expf sinf t) (alone f) x.
Proof.
  intros Ht [_ _ (base & N & _ & En & HN & _)] Ec Hn. rewrite <- (own_slice expf sinf t Ht), <- Hn.
  assert (0 <= own_base t /\ own_base t + numCoeffs f <= 390) as Hb.
  { rewrite Hn. destruct t; cbn [own_base own_table]; rewrite ?length_fmap, ?length_zrange; cbn; lia. }
  assert (forall i, 0 <= i < numCoeffs f -> rd (base_table expf sinf) (own_base t + i) =
    rd (slice (own_base t) (own_base t + numCoeffs f) (base_table expf sinf)) (0 + i)) as Hrd.
  { intros i Hi. destruct (rd_inside (base_table expf sinf) (own_base t + i)) as [v Hv]; [rewrite base_table_length; lia|]. rewrite Hv. symmetry.
    apply rd_Ok in Hv as [_ Hv]. apply rd_Ok. split; [lia|]. unfold slice. rewrite lookup_take_lt by lia. rewrite lookup_drop, <- Hv. f_equal. lia. }
  unfold eval_reads. cbn [alone numCoeffs coeffs]. rewrite Ec. rewrite En in *.
  assert (f_int (-1) = Fin (- 2 ^ 149)) as -> by (vm_compute; reflexivity).
  assert (f_int (N + 1) = Fin ((N + 1) * 2 ^ 149)) as -> by (apply of_int_exact; [done|cbn; destruct HN as [->|[->|[->| ->]]]; lia]).
  destruct x as [|[]|k]; [done..|]. unfold flt, fle. destruct (Z.leb_spec k (- 2 ^ 149)); [done|]. cbn [negb].
  destruct (Z.leb_spec ((N + 1) * 2 ^ 149) k); [done|]. unfold floor_int. change (one binary32) with (2 ^ 149).
  pose proof (Z.div_mod k (2 ^ 149) ltac:(lia)). pose proof (Z.mod_pos_bound k (2 ^ 149) ltac:(lia)).
  set (q := k / 2 ^ 149) in *. assert (-1 <= q <= N) as Hq by nia.
  rewrite int32_ok by (unfold in_s; destruct HN as [->|[->|[->| ->]]]; lia). cbn [mbind outcome_bind].
  destruct (Z.ltb_spec q 0), (Z.leb_spec (N + 1) (q + 1)); cbn [mbind outcome_bind]; rewrite ?Hrd by lia; done.
Qed.

(** C21: The filters of HQResize. The factory fills every table; and for every
    pair of modes, every length of input up to 2^24 and every output of at least
    one pixel, the filter that an axis gets is of the kind of the mode that applies,
    and either the nearest neighbour, or a filter with a support from 1 to the limit
    of the shared memory whose coefficients are exactly the table of its type in the
    factory's array, and which reads only these: whatever it is evaluated at, it reads
    the same as it would from an array that holds its own table and nothing else,
    and every read succeeds. *)
Theorem hq_filters_bounded expf sinf minFilter magFilter a b (Ha : upto32 173 (Fin a)) (Hb : 2 ^ 149 <= b) :
  exists factory kind f, make_factory expf sinf = Ok factory /\
    m_filterData factory = base_table expf sinf /\
    setup_filter true factory minFilter magFilter (Fin a) (Fin b) = Ok (kind, f) /\
    let t := filterType (if flt (Fin b) (Fin a) then minFilter else magFilter) in
    kind = GetFilterTypeKind t /\
    (t = Nearest /\ numCoeffs f = 0 /\ support f = Ok (-1) \/
     t <> Nearest /\ (exists s, support f = Ok s /\ 1 <= s <= kMaxGPUFilterSupport) /\
     coeffs f = Some (own_base t) /\ slice (own_base t) (own_base t + numCoeffs f) (m_filterData factory) = own_table expf sinf t /\
     forall x, eval_reads (m_filterData factory) f x = eval_reads (own_table expf sinf t) (alone f) x /\
       is_ok (eval_reads (own_table expf sinf t) (alone f) x) = true).
Proof.
  destruct (setup_filter_bounded (MkFactory base_filters (base_table expf sinf)) eq_refl minFilter magFilter (Fin a) b Ha Hb)
    as (kind & f & E & H).
  exists (MkFactory base_filters (base_table expf sinf)), kind, f. split_and!; [apply factory_filled|done|done|].
  destruct (setup_filter_table expf sinf _ _ _ _ _ _ E) as [-> Ht]. cbv zeta in *. cbn [m_filterData].
  set (t := filterType _) in *. split; [done|]. destruct H as [[Hk ->]|[Hk Hf]]; [left|right].
  - assert (t = Nearest) as -> by (by destruct t). split; [done|]. split; [done|]. vm_compute. reflexivity.
  - assert (t <> Nearest) as Hne by (intros Et; by rewrite Et in Hk). destruct (Ht Hne) as [Hc Hn].
    split; [done|]. split; [by apply Hf|]. split; [done|]. split; [rewrite Hn; by apply own_slice|].
    intros x. rewrite <- (eval_reads_own expf sinf f t x) by done. split; [done|]. by apply eval_reads_safe.
Qed.

Module Concrete.

Lemma hq_filters_bounded_witness : exists factory kind f, make_factory (fun x => x) (fun x => x) = Ok factory /\
  setup_filter true factory (MkMode Cubic true) (MkMode Linear false) (Fin (3 * 2 ^ 149)) (Fin (2 ^ 149)) = Ok (kind, f) /\
  is_ok (support f) = true.
Proof.
  destruct (hq_filters_bounded (fun x => x) (fun x => x) (MkMode Cubic true) (MkMode Linear false) (3 * 2 ^ 149) (2 ^ 149))
    as (factory & kind & f & E & _ & Es & H).
  - exists (3 * 2 ^ 149). split_and!; [reflexivity|lia|lia|]. apply (valid_scaled binary32 binary32_ok 3 149); cbn; lia.
  - lia.
  - exists factory, kind, f. split_and!; [exact E|exact Es|].
    destruct H as (_ & [(_ & _ & Hs)|(_ & (s & Hs & _) & _)]); rewrite Hs; reflexivity.
Defined.

(** A device other than the factory's is answered by an exception from a
    [noexcept] function: the program ends. *)
Lemma other_device_terminates factory mode a b : filterType mode <> Nearest -> GetResamplingFilter false factory mode a b = Stuck.
Proof. by destruct mode as [[]]. Qed.

(** Shrinking 5 000 000 pixels to 100 would need a support of 100 000. *)
Lemma huge_support_limited :
  (f ← GetResamplingFilter true (MkFactory base_filters []) (MkMode Triangular true) (f_int 5000000) (f_int 100); support f) = Ok 100000 /\
  ('(_, f) ← setup_filter true (MkFactory base_filters []) (MkMode Triangular true) (MkMode Linear false) (f_int 5000000) (f_int 100); support f) = Ok 8192.
Proof. split; vm_compute; reflexivity. Qed.
End Concrete.
