(* ===== verification/HQResize.v ===== *)
(** * The HQResize operator on the host ([cvcuda/priv/OpHQResize.cu])

    The description of a sample - filters, region of interest, order of the passes,
    shapes between them - its block layout, and the requirements of the operator's
    workspace. Vectors hold the horizontal axis first. *)
From S2P Require Import Prelude Effects MathUtil Align Workspace Float HQFilter.
From stdpp Require Import options.

#[local] Open Scope Z_scope.

(** ** Arguments *)

Record HQResizeTensorShapeI := MkShape { extent : list Z; s_ndim : Z; numChannels : Z }.
Record HQResizeTensorShapesI := MkShapes { shape : list HQResizeTensorShapeI; shapes_size : Z; shapes_ndim : Z; shapes_numChannels : Z }.
Record HQResizeRoiF := MkRoi { roi_lo : list fp; roi_hi : list fp }.
Record HQResizeRoisF := MkRois { rois_size : Z; rois_ndim : Z; roi : list HQResizeRoiF }.

(** ** Utilities *)

Definition Volume (v : list Z) : outcome Z := mfold (fun vol x => int64 (vol * x)) v 1.

(** A signed division; by zero it is undefined. *)
Definition DivCeil (a b : Z) : outcome Z :=
  s ← int32 (a + b); s ← int32 (s - 1); if b =? 0 then Stuck else Ok (Z.quot s b).

Definition clamp (u lo hi : Z) : Z := if u <=? lo then lo else if hi <=? u then hi else u.

(** Element-wise operations on vectors. *)
Definition vmap2 (f : Z -> Z -> outcome Z) (a b : list Z) : outcome (list Z) :=
  mfold (fun r '(x, y) => z ← f x y; Ok (r ++ [z])) (zip a b) [].

(** ** Validation *)

Definition inOutNumberOfChannels (inShape outShape : HQResizeTensorShapeI) : outcome unit :=
  throw_if (negb (numChannels inShape =? numChannels outShape)) NVCV_ERROR_INVALID_ARGUMENT (
  throw_if (numChannels inShape <=? 0) NVCV_ERROR_INVALID_ARGUMENT (Ok tt)).

Definition sameInOutNdim (inShape outShape : HQResizeTensorShapeI) : outcome unit :=
  throw_if (negb (s_ndim inShape =? s_ndim outShape)) NVCV_ERROR_INVALID_ARGUMENT (Ok tt).

Definition inOutShapes (numSamples : Z) (inShapes outShapes : HQResizeTensorShapesI) : outcome unit :=
  throw_if (negb (shapes_ndim inShapes =? shapes_ndim outShapes)) NVCV_ERROR_INVALID_ARGUMENT (
  throw_if (negb (numSamples =? shapes_size inShapes) || negb (numSamples =? shapes_size outShapes)) NVCV_ERROR_INVALID_ARGUMENT (
  throw_if (negb (shapes_ndim inShapes =? shapes_ndim outShapes)) NVCV_ERROR_INVALID_ARGUMENT (
  throw_if (negb (shapes_numChannels inShapes =? shapes_numChannels outShapes)) NVCV_ERROR_INVALID_ARGUMENT (
  if shapes_numChannels inShapes <? 0 then
    mfold (fun _ i => a ← rd (shape inShapes) i; b ← rd (shape outShapes) i; inOutNumberOfChannels a b) (zrange 0 numSamples) tt
  else throw_if (shapes_numChannels inShapes =? 0) NVCV_ERROR_INVALID_ARGUMENT (Ok tt))))).

Definition roiBatch (numSamples ndim : Z) (rois : HQResizeRoisF) : outcome unit :=
  let numRois := rois_size rois in
  throw_if (negb (numRois =? 0) && negb (numRois =? 1) && negb (numRois =? numSamples)) NVCV_ERROR_INVALID_ARGUMENT (
  if negb (numRois =? 0) then throw_if (negb (rois_ndim rois =? ndim)) NVCV_ERROR_INVALID_ARGUMENT (Ok tt) else Ok tt).

(** ** Shapes *)

Definition SampleRoi (rois : HQResizeRoisF) (sampleIdx : Z) : outcome (option HQResizeRoiF) :=
  if rois_size rois =? 0 then Ok None
  else if rois_size rois =? 1 then r ← rd (roi rois) 0; Ok (Some r)
  else r ← rd (roi rois) sampleIdx; Ok (Some r).

(** The extents come in the order (D)HW. *)
Definition TensorShape (N : nat) (s : HQResizeTensorShapeI) : outcome (list Z) :=
  mfold (fun v d => x ← rd (extent s) (Z.of_nat N - d - 1); Ok (v ++ [x])) (zrange 0 (Z.of_nat N)) [].

Definition SampleShape (N : nat) (s : HQResizeTensorShapesI) (sampleIdx : Z) : outcome (list Z) :=
  x ← rd (shape s) (if shapes_size s =? 1 then 0 else sampleIdx); TensorShape N x.

(** ** The order of the passes *)

Definition size_bias : fp := f_int 3.

Definition PassCost (filterSupport currSize : list Z) (axis : nat) : outcome fp :=
  let axisCost := if (axis =? 0)%nat then f_const 14 10 else if (1 <? axis)%nat then f_const 12 10 else f_int 1 in
  vol ← Volume currSize;
  compute ← int64 (filterSupport !!! axis * vol);
  Ok (f_add (f_mul axisCost (f_int compute)) (f_mul (f_int vol) size_bias)).

Record Search := MkSearch {
  m_minCost : fp; m_currSize : list Z; m_bestOrder : list nat; m_currOrder : list nat; m_axisVisited : list bool }.

(** [rem] passes are left: [pass == ndim] when it is 0. *)
Fixpoint Run (outSize filterSupport : list Z) (rem pass : nat) (totalCost : fp) (s : Search) : outcome Search :=
  if fle (m_minCost s) totalCost then Ok s else
  match rem with
  | O => Ok (MkSearch totalCost (m_currSize s) (m_currOrder s) (m_currOrder s) (m_axisVisited s))
  | S rem =>
      mfold (fun (s : Search) (a : nat) =>
        if (m_axisVisited s !!! a : bool) then Ok s else
        let prevSize := m_currSize s !!! a in
        let s := MkSearch (m_minCost s) (<[a := outSize !!! a]> (m_currSize s)) (m_bestOrder s)
                          (<[pass := a]> (m_currOrder s)) (<[a := true]> (m_axisVisited s)) in
        passCost ← PassCost filterSupport (m_currSize s) a;
        s ← Run outSize filterSupport rem (S pass) (f_add totalCost passCost) s;
        Ok (MkSearch (m_minCost s) (<[a := prevSize]> (m_currSize s)) (m_bestOrder s)
                     (m_currOrder s) (<[a := false]> (m_axisVisited s))))
      (seq 0 (length outSize)) s
  end.

Definition ProcessingOrder (inSize outSize filterSupport : list Z) : outcome (list nat) :=
  let n := length outSize in
  s ← Run outSize filterSupport n 0 (f_int 0)
        (MkSearch (f_const (10 ^ 30) 1) inSize (seq 0 n) (replicate n 0%nat) (replicate n false));
  Ok (m_bestOrder s).

(** ** Descriptions of samples *)

Record SampleDesc := MkDesc {
  shapes : list (list Z);
  channels : Z;
  processingOrder : list nat;
  origin : list fp;
  pass_scale : list fp;
  filterKind : list FilterTypeKind;
  filter : list ResamplingFilter;
  inRoiOffset : list Z;
  blockShape : list (list Z) }.

Record Roi (T : Type) := MkRoiOf { lo : list T; hi : list T }.
Arguments MkRoiOf {T}.
Arguments lo {T}.
Arguments hi {T}.

#[global] Instance fp_inhabited : Inhabited fp := populate NaN.
#[global] Instance filter_inhabited : Inhabited ResamplingFilter := populate no_filter.
#[global] Instance kind_inhabited : Inhabited FilterTypeKind := populate KindNearest.

Section Host.
Context (same_device : bool) (factory : ResamplingFiltersFactory).
(** The number of lanes, from the environment. *)
Context (lanes : Z).
(** The number of spatial dimensions, 2 or 3. *)
Context (N : nat).

Abbreviation axes := (seq 0 N).

Definition ParseROI (r : option HQResizeRoiF) (inShape : list Z) : Roi fp :=
  let start axis := match r with Some r => roi_lo r !!! (N - 1 - axis)%nat | None => f_int 0 end in
  let stop axis := match r with Some r => roi_hi r !!! (N - 1 - axis)%nat | None => f_int (inShape !!! axis) end in
  MkRoiOf (start <$> axes) (stop <$> axes).

(** The filters of the axes, with their kinds. *)
Definition SetupFilters (r : Roi fp) (outShape : list Z) (minFilter magFilter : FilterMode) : outcome (list (FilterTypeKind * ResamplingFilter)) :=
  mfold (fun fs axis =>
    let inSize := fabs (f_sub (hi r !!! axis) (lo r !!! axis)) in
    let outSize := f_int (outShape !!! axis) in
    f ← setup_filter same_device factory minFilter magFilter inSize outSize;
    Ok (fs ++ [f])) axes [].

(** One axis of [AdjustRoiForFilter]. *)
Definition adjust_axis (axisLo axisHi : fp) (f : ResamplingFilter) (axisSize : Z) : outcome (Z * Z) :=
  s ← (if HQFilter.numCoeffs f =? 0 then Ok 1 else support f);
  let '(adjustedLo, adjustedHi) :=
    if fle axisLo axisHi
    then (f_sub axisLo (anchor f), f_add (f_sub axisHi (anchor f)) (f_int s))
    else (f_sub axisHi (anchor f), f_add (f_sub axisLo (anchor f)) (f_int s)) in
  l ← floor_int binary32 adjustedLo;
  h ← ceil_int binary32 adjustedHi;
  Ok (Z.max 0 (Z.min axisSize l), Z.max 0 (Z.min axisSize h)).

Definition AdjustRoiForFilter (r : Roi fp) (inShape : list Z) (filters : list ResamplingFilter) : outcome (Roi Z) :=
  mfold (fun roi axis =>
    '(l, h) ← adjust_axis (lo r !!! axis) (hi r !!! axis) (filters !!! axis) (inShape !!! axis);
    Ok (MkRoiOf (lo roi ++ [l]) (hi roi ++ [h]))) axes (MkRoiOf [] []).

Definition SetupProcessingOrder (inRoiSize outSize : list Z) (filters : list ResamplingFilter) : outcome (list nat) :=
  filterSupport ← mfold (fun ss f => s ← support f; Ok (ss ++ [Z.max 1 s])) filters [];
  ProcessingOrder inRoiSize outSize filterSupport.

(** The loop of [SetupSampleDescFilterShapeScale] over the passes; the state is the
    description so far and the intermediate shape. *)
Definition setup_pass (outShape adjustedLo adjustedSize : list Z) (parsed : Roi fp) (fs : list (FilterTypeKind * ResamplingFilter))
  (order : list nat) (st : SampleDesc * list Z) (pass : nat) : outcome (SampleDesc * list Z) :=
  let '(d, intermediateShape) := st in
  let axis := order !!! pass in
  let axisOutShape := outShape !!! axis in
  let roiStart := lo parsed !!! axis in
  let roiEnd := hi parsed !!! axis in
  let intermediateShape := <[axis := axisOutShape]> intermediateShape in
  let shapes' := shapes d ++ [intermediateShape] in
  let scale' := f_div (f_sub roiEnd roiStart) (f_int axisOutShape) in
  let '(shapes', offset', origin') :=
    if (pass =? 0)%nat then (shapes', <[axis := 0]> (inRoiOffset d), roiStart)
    else (alter (<[axis := adjustedSize !!! axis]>) 0%nat shapes',
          <[axis := adjustedLo !!! axis]> (inRoiOffset d),
          f_sub roiStart (f_int (adjustedLo !!! axis))) in
  Ok (MkDesc shapes' (channels d) order (origin d ++ [origin']) (pass_scale d ++ [scale'])
             (filterKind d ++ [(fs !!! axis).1]) (filter d ++ [(fs !!! axis).2]) offset' (blockShape d), intermediateShape).

Definition SetupSampleDescFilterShapeScale (inShape outShape : list Z) (numChannels : Z) (minFilter magFilter : FilterMode)
  (r : option HQResizeRoiF) : outcome SampleDesc :=
  let parsedRoi := ParseROI r inShape in
  fs ← SetupFilters parsedRoi outShape minFilter magFilter;
  adjustedRoi ← AdjustRoiForFilter parsedRoi inShape fs.*2;
  let adjustedRoiSize := zip_with Z.sub (hi adjustedRoi) (lo adjustedRoi) in
  order ← SetupProcessingOrder adjustedRoiSize outShape fs.*2;
  '(d, _) ← mfold (setup_pass outShape (lo adjustedRoi) adjustedRoiSize parsedRoi fs order) axes
               (MkDesc [inShape] numChannels order [] [] [] [] (replicate N 0) [], adjustedRoiSize);
  Ok d.

Definition kBlockDim : list Z := [32; 8; 1].

(** The block of a pass before it is clamped to the output. *)
Definition block_of (resamplingAxis : nat) : outcome (list Z) :=
  if (N =? 2)%nat then
    x ← int32 ([32; 8] !!! (1 - resamplingAxis)%nat * lanes); Ok (<[(1 - resamplingAxis)%nat := x]> [32; 8])
  else
    x ← int32 (1 * lanes);
    nvcv_assert ((resamplingAxis <? 2)%nat || (resamplingAxis =? 2)%nat) (
    Ok (if (resamplingAxis <? 2)%nat then [32; 8; x] else [32; x; 8])).

Definition SetupBlockLayout (d : SampleDesc) : outcome SampleDesc :=
  blocks ← mfold (fun bs pass =>
    b ← block_of (processingOrder d !!! pass);
    Ok (bs ++ [zip_with (fun u h => clamp u 1 h) b (shapes d !!! S pass)])) axes [];
  Ok (MkDesc (shapes d) (channels d) (processingOrder d) (origin d) (pass_scale d) (filterKind d) (filter d) (inRoiOffset d) blocks).

Definition SetupSampleDesc (srcShape dstShape : list Z) (numChannels : Z) (r : option HQResizeRoiF) (minFilter magFilter : FilterMode)
  : outcome SampleDesc :=
  d ← SetupSampleDescFilterShapeScale srcShape dstShape numChannels minFilter magFilter r;
  SetupBlockLayout d.

Definition GetPassOutputVolume (d : SampleDesc) (pass : nat) : outcome Z :=
  vol ← Volume (shapes d !!! S pass); int64 (vol * channels d).
End Host.

(** ** Loops over lists and volumes *)

(** A loop that appends an element for each axis. *)
Lemma mfold_collect {A B} (g : A -> outcome B) (P : A -> B -> Prop) l : Forall (fun a => exists b, g a = Ok b /\ P a b) l ->
  exists bs, mfold (fun r a => b ← g a; Ok (r ++ [b])) l [] = Ok bs /\ Forall2 P l bs.
Proof.
  intros HF. apply (mfold_list _ (fun pre r => Forall2 P pre r)); [constructor|]. intros pre x post r -> Hr.
  apply Forall_app in HF as [_ HF]. apply Forall_cons in HF as [(b & E & Hb) _]. rewrite E. eexists. split; [done|].
  apply Forall2_app; [done|by repeat constructor].
Qed.

Definition prod (v : list Z) : Z := foldr Z.mul 1 v.

(** A shape within a bound. *)
Definition within (M v : list Z) : Prop := Forall2 (fun m x => 0 <= x <= m) M v.

Definition bound_ok (M : list Z) (c : Z) : Prop := Forall (fun m => 1 <= m) M /\ 1 <= c /\ prod M * c < 2 ^ 63.

Lemma prod_ge_1 M : Forall (fun m => 1 <= m) M -> 1 <= prod M.
Proof. unfold prod. induction 1; cbn; nia. Qed.

Lemma prod_within M v : within M v -> 0 <= prod v <= prod M.
Proof. unfold prod. induction 1; cbn; nia. Qed.

Lemma Volume_run M v a : Forall (fun m => 1 <= m) M -> within M v -> 0 <= a -> a * prod M < 2 ^ 63 ->
  mfold (fun vol x => int64 (vol * x)) v a = Ok (a * prod v).
Proof.
  intros HM Hv. revert a. induction Hv as [|m x M v Hx Hv IH]; intros a Ha Hb; cbn [mfold prod foldr] in *; [by rewrite Z.mul_1_r|].
  apply Forall_cons in HM as [Hm HM]. fold (prod M) (prod v) in *. pose proof (prod_ge_1 M HM).
  assert (0 <= a * x <= a * m) by nia. assert (a * m * 1 <= a * m * prod M) by nia. assert (a * x * prod M <= a * m * prod M) by nia.
  rewrite int64_ok by (unfold in_s; lia). cbn [mbind outcome_bind]. rewrite IH; [|done|lia|lia]. f_equal. ring.
Qed.

Lemma Volume_ok M v c : bound_ok M c -> within M v -> Volume v = Ok (prod v) /\ 0 <= prod v * c < 2 ^ 63.
Proof.
  intros (HM & Hc & Hb) Hv. pose proof (prod_within M v Hv). pose proof (prod_ge_1 M HM). split; [|nia].
  unfold Volume. rewrite (Volume_run M) by (done || nia). by rewrite Z.mul_1_l.
Qed.

Lemma within_insert M v i x : within M v -> 0 <= x <= M !!! i -> within M (<[i := x]> v).
Proof.
  intros Hv Hx. unfold within in *. apply Forall2_lookup. intros j. destruct (decide (i = j)) as [<-|Hne].
  - destruct (decide (i < length v)%nat) as [Hlt|Hge].
    + rewrite list_lookup_insert_eq by done. rewrite (list_lookup_lookup_total_lt M) by (rewrite (Forall2_length _ _ _ Hv); done). by constructor.
    + rewrite !lookup_ge_None_2; [constructor|rewrite length_insert; lia|rewrite (Forall2_length _ _ _ Hv); lia].
  - rewrite list_lookup_insert_ne by done. by apply Forall2_lookup.
Qed.

Lemma within_lookup M v i : within M v -> (i < length v)%nat -> 0 <= v !!! i <= M !!! i.
Proof.
  intros Hv Hi. apply (Forall2_lookup_lr (fun m x => 0 <= x <= m) M v i); [exact Hv|..]; apply list_lookup_lookup_total_lt; [|done].
  by rewrite (Forall2_length _ _ _ Hv).
Qed.

(** ** The order of the passes is a cheapest one *)

Lemma f_int_bound v : 0 <= v < 2 ^ 63 -> upto32 212 (f_int v).
Proof.
  intros Hv. apply upto_rnd; [done|done|cbn; lia|]. change (one binary32) with (2 ^ 149). lia.
Qed.

Lemma const_bound c : c = f_const 14 10 \/ c = f_const 12 10 \/ c = f_int 1 -> upto32 150 c.
Proof.
  assert (forall k m e, k = m * 2 ^ e -> 0 <= e <= 149 -> 0 <= m <= 2 ^ 24 -> k <= 2 ^ 150 -> upto32 150 (Fin k)) as H.
  { intros k m e -> He Hm Hk. exists (m * 2 ^ e). pose proof (pow_pos e ltac:(lia)). split_and!; [done|nia|done|].
    apply valid_scaled; cbn; (done || lia). }
  intros [->|[->| ->]].
  - assert (f_const 14 10 = Fin (11744051 * 2 ^ 126)) as -> by (vm_compute; reflexivity). eapply H; [done|lia..].
  - assert (f_const 12 10 = Fin (10066330 * 2 ^ 126)) as -> by (vm_compute; reflexivity). eapply H; [done|lia..].
  - assert (f_int 1 = Fin (1 * 2 ^ 149)) as -> by (vm_compute; reflexivity). eapply H; [done|lia..].
Qed.

Lemma upto_fadd e x y : 0 <= e -> e + 1 < 277 -> upto32 e x -> upto32 e y -> upto32 (e + 1) (f_add x y).
Proof.
  intros He He1 (a & -> & ? & _) (b & -> & ? & _). cbn [fadd]. rewrite Z.add_1_r.
  apply upto_rnd; [done|done|cbn; lia|]. rewrite Z.pow_succ_r by lia. lia.
Qed.

Lemma f_add_ge e e' x c : upto32 e x -> upto32 e' c -> fle x (f_add x c) = true.
Proof.
  intros (a & -> & ? & V) (b & -> & ? & _). cbn [fadd]. apply rnd_ge; [done|lia|done|lia].
Qed.

Section Order.
Context (outSize filterSupport : list Z) (M : list Z).
Context (HM : bound_ok M (2 ^ 13)) (Hout : within M outSize).
Context (Hsupport : Forall (fun s => 1 <= s <= 2 ^ 13) filterSupport) (Hlen : length filterSupport = length outSize).
#[local] Set Default Proof Using "Type*".

Abbreviation n := (length outSize).

(** The cost of the passes over the axes left, added up as [Run] does. *)
Fixpoint path_cost (total : fp) (size : list Z) (axes : list nat) : outcome fp :=
  match axes with
  | [] => Ok total
  | a :: axes =>
      let size := <[a := outSize !!! a]> size in
      c ← PassCost filterSupport size a; path_cost (f_add total c) size axes
  end.

Lemma PassCost_ok size a : within M size -> (a < n)%nat -> exists c, PassCost filterSupport size a = Ok c /\ upto32 215 c.
Proof.
  intros Hs Ha. unfold PassCost. destruct (Volume_ok M size (2 ^ 13) HM Hs) as [-> Hv]. cbn [mbind outcome_bind].
  assert (1 <= filterSupport !!! a <= 2 ^ 13) as Hf.
  { rewrite Forall_forall in Hsupport. apply Hsupport, list_elem_of_lookup_total_2. by rewrite Hlen. }
  assert (0 <= prod size) by (by apply (prod_within M)). rewrite int64_ok by (unfold in_s; nia). cbn [mbind outcome_bind].
  eexists. split; [done|]. apply (upto_fadd 214); [done|done|..].
  - apply (upto_le _ binary32_ok 213); [lia|]. change 213 with (150 + 212 - unit_exp binary32).
    apply upto_fmul; try done; [apply const_bound|apply f_int_bound; nia].
    destruct (a =? 0)%nat; [by left|]. destruct (1 <? a)%nat; [by right; left|by right; right].
  - change 214 with (212 + 151 - unit_exp binary32). apply upto_fmul; try done; [apply f_int_bound; nia|].
    apply (f_int_upto 3 2); lia.
Qed.
Lemma path_cost_ok axes : forall j total size, within M size -> Forall (fun a => (a < n)%nat) axes -> 0 <= j ->
  j + Z.of_nat (length axes) <= 45 -> upto32 (215 + j) total ->
  exists c, path_cost total size axes = Ok c /\ upto32 (215 + j + Z.of_nat (length axes)) c /\ fle total c = true.
Proof.
  induction axes as [|a axes IH]; intros j total size Hs Ha Hj Hl Ht.
  - exists total. rewrite Z.add_0_r. split_and!; [done|done|]. destruct Ht as (k & -> & _). by apply fle_refl.
  - apply Forall_cons in Ha as [Ha Haxes]. cbn [path_cost length] in *.
    assert (within M (<[a := outSize !!! a]> size)) as Hs'. { apply within_insert; [done|]. by apply within_lookup. }
    destruct (PassCost_ok _ a Hs' Ha) as (c & -> & Hc). cbn [mbind outcome_bind].
    destruct (IH (j + 1) (f_add total c) (<[a := outSize !!! a]> size)) as (c' & -> & Hc' & Hle); [done|done|lia|lia| |].
    + rewrite Z.add_assoc. apply upto_fadd; [lia|lia|done|]. apply (upto_le _ binary32_ok 215); [lia|done].
    + exists c'. split_and!; [done| |].
      * by replace (215 + j + Z.of_nat (S (length axes))) with (215 + (j + 1) + Z.of_nat (length axes)) by lia.
      * eapply fle_trans; [|exact Hle]. by eapply f_add_ge.
Qed.

(** The axes of the passes made so far are marked. *)
Definition marks (p : list nat) : list bool := (fun a => bool_decide (a ∈ p)) <$> seq 0 n.

Lemma marks_lookup p a : (a < n)%nat -> marks p !! a = Some (bool_decide (a ∈ p)).
Proof. intros Ha. unfold marks. rewrite list_lookup_fmap, lookup_seq_lt by done. done. Qed.

Lemma marks_total p a : (a < n)%nat -> marks p !!! a = bool_decide (a ∈ p).
Proof. intros Ha. apply list_lookup_total_correct. by apply marks_lookup. Qed.

Lemma marks_set p p' a b : (a < n)%nat -> bool_decide (a ∈ p') = b -> (forall x, x <> a -> x ∈ p' <-> x ∈ p) ->
  <[a := b]> (marks p) = marks p'.
Proof.
  intros Ha Hb Hx. apply list_eq. intros i. destruct (decide (i < n)%nat).
  - destruct (decide (i = a)) as [->|Hne].
    + rewrite list_lookup_insert_eq by (unfold marks; by rewrite length_fmap, length_seq). by rewrite marks_lookup, Hb.
    + rewrite list_lookup_insert_ne by done. rewrite !marks_lookup by done. f_equal. apply bool_decide_ext. by rewrite Hx.
  - rewrite !lookup_ge_None_2; rewrite ?length_insert; unfold marks; rewrite ?length_fmap, ?length_seq; (done || lia).
Qed.

Definition at_pass (p : list nat) (size : list Z) (s : Search) : Prop :=
  m_currSize s = size /\ m_axisVisited s = marks p /\ take (length p) (m_currOrder s) = p /\ length (m_currOrder s) = n.

Definition completes (p ax : list nat) : Prop := p ++ ax ≡ₚ seq 0 n.

Lemma completes_axes p ax : completes p ax -> Forall (fun a => (a < n)%nat) ax /\ (length p + length ax)%nat = n /\ NoDup (p ++ ax).
Proof.
  unfold completes. intros H. split_and!.
  - apply Forall_forall. intros a Ha. assert (a ∈ seq 0 n) as Hin by (rewrite <- H; apply elem_of_app; by right).
    apply elem_of_seq in Hin. lia.
  - rewrite <- length_app, H. apply length_seq.
  - rewrite H. apply NoDup_seq.
Qed.

(** What a search from a pass achieves: no completion is cheaper than the best
    order found, which is the one known before or one of the completions. *)
Definition found (p : list nat) (total : fp) (size : list Z) (done_ : list nat -> Prop) (s s' : Search) : Prop :=
  at_pass p size s' /\ upto32 260 (m_minCost s') /\ fle (m_minCost s') (m_minCost s) = true /\
  (forall ax c, completes p ax -> done_ ax -> path_cost total size ax = Ok c -> fle (m_minCost s') c = true) /\
  (m_minCost s' = m_minCost s /\ m_bestOrder s' = m_bestOrder s \/
   exists ax, completes p ax /\ m_bestOrder s' = p ++ ax /\ path_cost total size ax = Ok (m_minCost s')).

Context (Hn : (n <= 20)%nat).

Lemma run_cut rem p total size s : at_pass p size s -> within M size -> upto32 (215 + Z.of_nat (length p)) total ->
  upto32 260 (m_minCost s) -> fle (m_minCost s) total = true ->
  Run outSize filterSupport rem (length p) total s = Ok s /\ found p total size (fun _ => True) s s.
Proof.
  intros Hat Hs Ht Hmin Hle. split; [by destruct rem; cbn; rewrite Hle|].
  split_and!; [done|done|destruct Hmin as (k & -> & _); by apply fle_refl| |by left].
  intros ax c Hc _ E. destruct (completes_axes _ _ Hc) as (Hax & Hl & _).
  destruct (path_cost_ok ax (Z.of_nat (length p)) total size) as (c' & E' & _ & H); [done|done|lia|lia|done|].
  rewrite E in E'. injection E' as <-. by eapply fle_trans.
Qed.

(** A pass over the axis [a]: the search goes on from there, and the state is put back. *)
Lemma at_pass_next p size s a : at_pass p size s -> (length p < n)%nat -> (a < n)%nat -> a ∉ p ->
  at_pass (p ++ [a]) (<[a := outSize !!! a]> size)
    (MkSearch (m_minCost s) (<[a := outSize !!! a]> (m_currSize s)) (m_bestOrder s)
              (<[length p := a]> (m_currOrder s)) (<[a := true]> (m_axisVisited s))).
Proof.
  intros (Es & Ev & Et & El) Hp Ha Hnot. unfold at_pass. cbn [m_currSize m_axisVisited m_currOrder]. split_and!.
  - by rewrite Es.
  - rewrite Ev. apply marks_set; [done|apply bool_decide_eq_true_2; set_solver|set_solver].
  - rewrite length_app, Nat.add_1_r, take_insert_snoc by (cbn in *; lia). by rewrite Et.
  - by rewrite length_insert.
Qed.

Lemma at_pass_back p size s a : at_pass (p ++ [a]) (<[a := outSize !!! a]> size) s -> (a < n)%nat -> a ∉ p -> (a < length size)%nat ->
  at_pass p size (MkSearch (m_minCost s) (<[a := size !!! a]> (m_currSize s)) (m_bestOrder s) (m_currOrder s) (<[a := false]> (m_axisVisited s))).
Proof.
  intros (Es & Ev & Et & El) Ha Hnot Hsz. unfold at_pass. cbn [m_currSize m_axisVisited m_currOrder]. split_and!.
  - rewrite Es, list_insert_insert_eq. apply list_insert_id. by apply list_lookup_lookup_total_lt.
  - rewrite Ev. apply marks_set; [done|by apply bool_decide_eq_false_2|set_solver].
  - rewrite length_app in Et. apply (f_equal (take (length p))) in Et. rewrite take_take, take_app_length in Et.
    by rewrite Nat.min_l in Et by lia.
  - done.
Qed.

(** The last pass is made: the order is complete and cheaper than the best so far. *)
Lemma run_leaf p total size s : NoDup p -> Forall (fun a => (a < n)%nat) p -> length p = n ->
  upto32 (215 + Z.of_nat (length p)) total -> upto32 260 (m_minCost s) -> at_pass p size s -> fle (m_minCost s) total = false ->
  found p total size (fun _ => True) s (MkSearch total (m_currSize s) (m_currOrder s) (m_currOrder s) (m_axisVisited s)).
Proof.
  intros Hnd Hpn Hl Ht Hmin Hat Hcut. assert (completes p []) as Hc.
  { unfold completes. rewrite app_nil_r. apply submseteq_length_Permutation; [|rewrite length_seq; lia].
    apply NoDup_submseteq; [done|]. intros a Ha. apply elem_of_seq. rewrite Forall_forall in Hpn. specialize (Hpn a Ha). lia. }
  unfold found. cbn [m_minCost m_bestOrder]. split_and!; [done| | | |].
  - apply (upto_le _ binary32_ok (215 + Z.of_nat (length p))); [lia|done].
  - apply fle_total; [|destruct Ht as (k & -> & _); done|done]. by destruct Hmin as (k & -> & _).
  - intros ax c Hax _ E. destruct (completes_axes _ _ Hax) as (_ & Hlen' & _). destruct ax; cbn in Hlen'; [|lia].
    injection E as <-. destruct Ht as (k & -> & _). by apply fle_refl.
  - right. exists []. rewrite app_nil_r. split_and!; [done| |done]. destruct Hat as (_ & _ & Et & El). rewrite <- Et. symmetry. apply take_ge. lia.
Qed.

Lemma Run_spec rem : forall p total size s, NoDup p -> Forall (fun a => (a < n)%nat) p -> (length p + rem)%nat = n ->
  within M size -> upto32 (215 + Z.of_nat (length p)) total -> upto32 260 (m_minCost s) -> at_pass p size s ->
  exists s', Run outSize filterSupport rem (length p) total s = Ok s' /\ found p total size (fun _ => True) s s'.
Proof.
  induction rem as [|rem IH]; intros p total size s Hnd Hpn Hl Hs Ht Hmin Hat;
    (destruct (fle (m_minCost s) total) eqn:Hcut; [exists s; by apply run_cut|]); cbn [Run]; rewrite Hcut.
  - eexists. split; [done|]. apply run_leaf; (done || lia).
  - match goal with |- exists s', mfold ?f ?l ?s = _ /\ _ => destruct (mfold_list f (fun pre s' => found p total size (fun ax => exists a, head ax = Some a /\ a ∈ pre) s s') l s) as (s' & E & Hf) end.
    + split_and!; [done|done|destruct Hmin as (k & -> & _); by apply fle_refl|by intros ax c _ (a & _ & ?%not_elem_of_nil)|by left].
    + intros pre a post s1 Epre (Hat1 & Hmin1 & Hle1 & Hdone1 & Hbest1).
      assert (a < n)%nat as Ha. { assert (a ∈ seq 0 n) as Hin by (rewrite Epre; set_solver). apply elem_of_seq in Hin. lia. }
      destruct Hat1 as (Es1 & Ev1 & Et1 & El1). rewrite Ev1, marks_total by done. case_bool_decide as Hap.
      { exists s1. split; [done|]. split_and!; [done|done|done| |done]. intros ax c Hax (a' & Hh & [Hin| ->%list_elem_of_singleton]%elem_of_app) Ec; [by eapply Hdone1; eauto|].
        destruct (completes_axes _ _ Hax) as (_ & _ & Hnd'). destruct ax; [done|]. injection Hh as ->. apply NoDup_app in Hnd' as (_ & Hd & _).
        exfalso. apply (Hd a); [done|set_solver]. }
      assert (within M (<[a := outSize !!! a]> size)) as Hs'. { apply within_insert; [done|]. by apply within_lookup. }
      cbn [m_currSize]. rewrite Es1. destruct (PassCost_ok _ a Hs' Ha) as (c1 & Ec1 & Hc1). rewrite Ec1. cbn [mbind outcome_bind].
      assert (upto32 (215 + Z.of_nat (length (p ++ [a]))) (f_add total c1)) as Ht'.
      { rewrite length_app, Nat2Z.inj_add, Z.add_assoc. apply upto_fadd; [lia|lia|done|]. apply (upto_le _ binary32_ok 215); [lia|done]. }
      destruct (IH (p ++ [a]) (f_add total c1) (<[a := outSize !!! a]> size)
        (MkSearch (m_minCost s1) (<[a := outSize !!! a]> (m_currSize s1)) (m_bestOrder s1) (<[length p := a]> (m_currOrder s1)) (<[a := true]> (m_axisVisited s1))))
        as (s2 & E2 & Hat2 & Hmin2 & Hle2 & Hdone2 & Hbest2); [| | |done|done|done| |].
      { apply NoDup_app. split_and!; [done|set_solver|apply NoDup_singleton]. }
      { apply Forall_app. by repeat constructor. }
      { rewrite length_app. cbn. lia. }
      { by apply at_pass_next; [|lia|..]. }
      rewrite length_app, Nat.add_1_r, Es1, Ev1 in E2. rewrite E2. cbn [mbind outcome_bind]. eexists. split; [done|].
      assert (a < length size)%nat as Hsz by (rewrite <- (Forall2_length _ _ _ Hs), (Forall2_length _ _ _ Hout); done).
      unfold found. cbn [m_minCost m_bestOrder] in *. split_and!; [by apply at_pass_back|done|by eapply fle_trans| |].
      * intros ax c Hax (a' & Hh & [Hin| ->%list_elem_of_singleton]%elem_of_app) Ec.
        { eapply fle_trans; [exact Hle2|]. by eapply Hdone1; eauto. }
        destruct ax as [|a' ax]; [done|]. injection Hh as ->. apply (Hdone2 ax); [|done|].
        { unfold completes in *. by rewrite <- app_assoc. }
        { cbn [path_cost] in Ec. by rewrite Ec1 in Ec. }
      * destruct Hbest2 as [[-> ->]|(ax & Hax & -> & Ep)]; [done|]. right. exists (a :: ax). unfold completes in *. rewrite <- app_assoc in *.
        split_and!; [done|done|]. cbn [path_cost]. by rewrite Ec1.
    + rewrite E. exists s'. split; [done|]. destruct Hf as (H1 & H2 & H3 & H4 & H5). split_and!; [done..| |done].
      intros ax c Hax _ Ec. apply (H4 ax c Hax); [|done]. destruct (completes_axes _ _ Hax) as (Hax' & Hl' & _).
      destruct ax as [|a ax]; [cbn in *; lia|]. exists a. split; [done|]. apply elem_of_seq. apply Forall_cons in Hax' as [? _]. lia.
Qed.

End Order.

(** The cost of an order of the passes. *)
Definition order_cost (inSize outSize filterSupport : list Z) (order : list nat) : outcome fp :=
  path_cost outSize filterSupport (f_int 0) inSize order.

Lemma cheapest_order inSize outSize filterSupport M (HM : bound_ok M (2 ^ 13)) (Hn : (length outSize <= 20)%nat)
  (Hin : within M inSize) (Hout : within M outSize)
  (Hsupport : Forall (fun s => 1 <= s <= 2 ^ 13) filterSupport) (Hlen : length filterSupport = length outSize) :
  exists order c, ProcessingOrder inSize outSize filterSupport = Ok order /\ order ≡ₚ seq 0 (length outSize) /\
    order_cost inSize outSize filterSupport order = Ok c /\
    forall order' c', order' ≡ₚ seq 0 (length outSize) -> order_cost inSize outSize filterSupport order' = Ok c' -> fle c c' = true.
Proof.
  set (n := length outSize). unfold ProcessingOrder. fold n.
  set (s0 := MkSearch (f_const (10 ^ 30) 1) inSize (seq 0 n) (replicate n 0%nat) (replicate n false)).
  assert (upto32 260 (m_minCost s0) /\ upto32 215 (f_int 0)) as [Hmin H0].
  { split; [|apply (upto_le _ binary32_ok (0 + 149)); [lia|]; by apply (f_int_upto 0 0)].
    apply (upto_rnd binary32 binary32_ok); [done|cbn; lia|]. change (one binary32) with (2 ^ 149). lia. }
  destruct (Run_spec outSize filterSupport M HM Hout Hsupport Hlen Hn n [] (f_int 0) inSize s0) as (s' & E & Hf);
    [constructor|constructor|done|done|done|done| |].
  { unfold at_pass, s0. cbn. split_and!; [done| |done|by rewrite length_replicate]. unfold marks. fold n.
    apply list_eq. intros i. rewrite list_lookup_fmap. destruct (decide (i < n)%nat).
    - by rewrite lookup_seq_lt, lookup_replicate_2 by done.
    - rewrite !lookup_ge_None_2; [done|rewrite length_seq; lia|rewrite length_replicate; lia]. }
  cbn [length] in E. rewrite E. cbn [mbind outcome_bind]. destruct Hf as (_ & _ & _ & Hall & Hbest).
  destruct (path_cost_ok outSize filterSupport M HM Hout Hsupport Hlen (seq 0 n) 0 (f_int 0) inSize) as (c0 & E0 & (k0 & -> & Hk0 & _) & _);
    [done|apply Forall_forall; intros a Ha%elem_of_seq; lia|done|rewrite length_seq; lia|done|].
  assert (completes outSize [] (seq 0 n)) as Hid by (unfold completes; reflexivity).
  destruct Hbest as [[Em _]|(ax & Hax & -> & Eax)].
  - specialize (Hall (seq 0 n) (Fin k0) Hid I E0). rewrite Em in Hall. exfalso.
    assert (exists k, m_minCost s0 = Fin k /\ 2 ^ 240 <= k) as (k & Ek & Hk).
    { eexists. split; [vm_compute; reflexivity|]. apply Z.leb_le. vm_compute. reflexivity. }
    rewrite Ek in Hall. apply Z.leb_le in Hall. rewrite length_seq in Hk0.
    assert (2 ^ (215 + 0 + Z.of_nat n) <= 2 ^ 235) by (apply Z.pow_le_mono_r; lia). lia.
  - exists ax, (m_minCost s'). split_and!; [done|exact Hax|exact Eax|]. intros order' c' Ho Ec. by apply (Hall order').
Qed.

(** ** The region of interest *)

(** A coordinate of a region: a number of magnitude at most 2^23. *)
Definition coordinate (x : fp) : Prop := exists k, x = Fin k /\ Z.abs k <= 2 ^ 172 /\ valid32 x.

Definition good_filter (f : ResamplingFilter) : Prop := f = MkFilter None 0 (f_int 0) (f_int 1) \/ bounded_filter f.

(** A filter with its kind: those that use the shared memory are bounded. *)
Definition paired (f : FilterTypeKind * ResamplingFilter) : Prop := good_filter f.2 /\ (f.1 = ShmFilter -> bounded_filter f.2).

(** What the region needs of a filter. *)
Lemma filter_halo f : good_filter f -> exists s a, (if HQFilter.numCoeffs f =? 0 then Ok 1 else support f) = Ok s /\ 1 <= s <= 8192 /\
  anchor f = Fin a /\ 0 <= a <= 2 ^ 162.
Proof.
  intros [->|[(s & Es & Hs) (a & Ea & Ha & _) (base & N & _ & En & HN & _)]].
  - exists 1, 0. split_and!; [done|lia|lia|vm_compute; reflexivity|lia|lia].
  - exists s, a. rewrite Es, En. unfold kMaxGPUFilterSupport in *. destruct (Z.eqb_spec (N + 1) 0).
    { destruct HN as [->|[->|[->| ->]]]; lia. }
    split_and!; (done || lia).
Qed.

Lemma valid_wide e : 0 <= e < 250 -> valid32 (Fin (2 ^ e)) /\ valid32 (Fin (- 2 ^ e)).
Proof.
  intros He. split; [apply valid_pow2; (done || cbn; lia)|]. replace (- 2 ^ e) with (-1 * 2 ^ e) by lia.
  apply valid_scaled; cbn; (done || lia).
Qed.

(** The region of an axis, widened by the filter, is an interval of the input. *)
Lemma adjust_axis_ok x y f size : coordinate x -> coordinate y -> good_filter f -> 0 <= size ->
  exists l h, adjust_axis x y f size = Ok (l, h) /\ 0 <= l <= h /\ h <= size.
Proof.
  intros Hx Hy Hf Hsize. destruct (filter_halo f Hf) as (s & a & Es & Hs & Ea & Ha).
  assert (forall x y, coordinate x -> coordinate y -> fle x y = true -> exists l h,
    (l ← floor_int binary32 (f_sub x (anchor f)); h ← ceil_int binary32 (f_add (f_sub y (anchor f)) (f_int s));
     Ok (Z.max 0 (Z.min size l), Z.max 0 (Z.min size h))) = Ok (l, h) /\ 0 <= l <= h /\ h <= size) as H.
  { clear x y Hx Hy. intros x y (k1 & -> & H1 & _) (k2 & -> & H2 & _) Hle%Z.leb_le. rewrite Ea. cbn [fsub fneg fadd].
    destruct (valid_wide 174 ltac:(lia)) as [V1 V2].
    destruct (rnd_in binary32 binary32_ok (k1 + - a) 1 (- 2 ^ 174) (2 ^ 174)) as (p & Ep & Hp & _); [done..|lia|].
    destruct (rnd_in binary32 binary32_ok (k2 + - a) 1 (- 2 ^ 174) (2 ^ 174)) as (q & Eq & Hq & Vq); [done..|lia|].
    assert (p <= q) as Hpq. { apply Z.leb_le. change (fle (Fin p) (Fin q) = true). rewrite <- Ep, <- Eq. apply rnd_mono; (done || lia). }
    unfold fsub. cbn [fneg fadd]. rewrite Ep, Eq. assert (f_int s = Fin (s * 2 ^ 149)) as -> by (apply of_int_exact; [done|cbn; lia]).
    cbn [fadd]. destruct (valid_wide 176 ltac:(lia)) as [V3 _].
    destruct (rnd_in binary32 binary32_ok (q + s * 2 ^ 149) 1 q (2 ^ 176)) as (r & -> & Hr & _); [done..|lia|].
    unfold floor_int, ceil_int. change (one binary32) with (2 ^ 149).
    pose proof (Z.div_mod p (2 ^ 149) ltac:(lia)). pose proof (Z.mod_pos_bound p (2 ^ 149) ltac:(lia)).
    pose proof (Z.div_mod (- r) (2 ^ 149) ltac:(lia)). pose proof (Z.mod_pos_bound (- r) (2 ^ 149) ltac:(lia)).
    rewrite !int32_ok by (unfold in_s; lia). cbn [mbind outcome_bind]. eexists _, _. split; [done|]. lia. }
  unfold adjust_axis. rewrite Es. cbn [mbind outcome_bind]. destruct (fle x y) eqn:E; [by apply H|].
  apply H; [done|done|]. destruct Hx as (k1 & -> & _), Hy as (k2 & -> & _). by apply fle_total.
Qed.

Lemma seq_at (pre post : list nat) N x : seq 0 N = pre ++ x :: post -> x = length pre /\ (length pre < N)%nat.
Proof.
  intros E. assert (length pre < N)%nat as Hl. { apply (f_equal length) in E. rewrite length_seq, length_app in E. cbn in E. lia. }
  split; [|done]. apply (f_equal (lookup (length pre))) in E. rewrite lookup_seq_lt, list_lookup_middle in E by done. by injection E as <-.
Qed.

(** A region given by the user has three coordinates in each direction. *)
Definition roi_ok (r : option HQResizeRoiF) : Prop :=
  forall r', r = Some r' -> Forall coordinate (roi_lo r') /\ Forall coordinate (roi_hi r') /\ length (roi_lo r') = 3%nat /\ length (roi_hi r') = 3%nat.

(** ** The description of a sample *)

Lemma f_int_coordinate n : 0 <= n <= 2 ^ 23 -> coordinate (f_int n).
Proof.
  intros Hn. assert (f_int n = Fin (n * 2 ^ 149)) as -> by (apply of_int_exact; [done|cbn; lia]). eexists. split; [done|].
  split; [lia|]. apply valid_scaled; cbn; (done || lia).
Qed.

Lemma difference_upto x y : coordinate x -> coordinate y -> upto32 173 (fabs (f_sub x y)).
Proof.
  intros (k1 & -> & H1 & _) (k2 & -> & H2 & _). unfold fsub. cbn [fneg fadd]. destruct (valid_wide 173 ltac:(lia)) as [V1 V2].
  destruct (rnd_in binary32 binary32_ok (k1 + - k2) 1 (- 2 ^ 173) (2 ^ 173)) as (p & -> & Hp & [Hr Hb]); [done..|lia|].
  cbn [fabs]. exists (Z.abs p). split_and!; [done|lia|lia|]. split; [|lia].
  destruct (Z.abs_eq_or_opp p) as [-> | ->]; [done|by apply repr_opp].
Qed.

Lemma f_int_pos n : 1 <= n <= 2 ^ 31 -> exists b, f_int n = Fin b /\ 2 ^ 149 <= b.
Proof.
  intros Hn. destruct (valid_wide 149 ltac:(lia)) as [V1 _]. destruct (valid_wide 180 ltac:(lia)) as [V2 _].
  destruct (rnd_in binary32 binary32_ok (n * one binary32) 1 (2 ^ 149) (2 ^ 180)) as (b & E & ? & _);
    [done..|change (one binary32) with (2 ^ 149); lia|]. exists b. split; [exact E|lia].
Qed.

Lemma map_seq_total {A} `{Inhabited A} (g : nat -> A) n i : (i < n)%nat -> (g <$> seq 0 n) !!! i = g i.
Proof. intros Hi. apply list_lookup_total_correct. by rewrite list_lookup_fmap, lookup_seq_lt. Qed.

Lemma snoc_total {A} `{Inhabited A} (l : list A) x i : (l ++ [x]) !!! i = if decide (i = length l) then x else l !!! i.
Proof.
  destruct (decide (i = length l)) as [->|Hne].
  - apply list_lookup_total_correct. by rewrite list_lookup_middle.
  - rewrite !list_lookup_total_alt. destruct (decide (i < length l)%nat).
    + by rewrite lookup_app_l by done.
    + rewrite !lookup_ge_None_2; [done|lia|rewrite length_app; cbn; lia].
Qed.

(** Setting some axes of a vector to those of another. *)
Definition upd (v s : list Z) (a : nat) : list Z := <[a := v !!! a]> s.

Lemma foldl_upd_length v l s : length (foldl (upd v) s l) = length s.
Proof. revert s. induction l as [|a l IH]; intros s; [done|]. cbn. rewrite IH. apply length_insert. Qed.

Lemma foldl_upd_total v l s i : (i < length s)%nat -> foldl (upd v) s l !!! i = if bool_decide (i ∈ l) then v !!! i else s !!! i.
Proof.
  revert s. induction l as [|a l IH]; intros s Hi; [done|]. cbn. rewrite IH by (unfold upd; by rewrite length_insert).
  unfold upd. destruct (decide (i = a)) as [->|Hne].
  - rewrite (bool_decide_eq_true_2 (a ∈ a :: l)) by left. rewrite list_lookup_total_insert_eq by done. by destruct (bool_decide (a ∈ l)).
  - rewrite list_lookup_total_insert_ne by done. by rewrite (bool_decide_ext (i ∈ a :: l) (i ∈ l)) by set_solver.
Qed.

(** The shape after the first passes, and the offset of the region after them. *)
Definition pass_shape (outShape adj : list Z) (order : list nat) (p : nat) : list Z := foldl (upd outShape) adj (take p order).
Definition pass_offset (N : nat) (adjLo : list Z) (order : list nat) (p : nat) : list Z :=
  match p with O => replicate N 0 | S _ => foldl (upd adjLo) (<[order !!! 0%nat := 0]> (replicate N 0)) (drop 1 (take p order)) end.

Lemma take_S_total {A} `{Inhabited A} (l : list A) p : (p < length l)%nat -> take (S p) l = take p l ++ [l !!! p].
Proof. intros Hp. apply take_S_r. by apply list_lookup_lookup_total_lt. Qed.

(** The description that the passes up to [p] leave. *)
Definition desc_after (N : nat) (inShape outShape adjLo adj : list Z) (c : Z) (fs : list (FilterTypeKind * ResamplingFilter)) (order : list nat)
  (p : nat) (d : SampleDesc) : Prop :=
  shapes d = foldl (upd adj) inShape (drop 1 (take p order)) :: ((fun k => pass_shape outShape adj order (S k)) <$> seq 0 p) /\
  channels d = c /\ processingOrder d = order /\ inRoiOffset d = pass_offset N adjLo order p /\
  filterKind d = (fun a => (fs !!! a).1) <$> take p order /\ filter d = (fun a => (fs !!! a).2) <$> take p order.

Lemma setup_pass_after N inShape outShape adjLo adj c parsed fs order p d : (p < length order)%nat ->
  desc_after N inShape outShape adjLo adj c fs order p d ->
  exists d', setup_pass outShape adjLo adj parsed fs order (d, pass_shape outShape adj order p) p = Ok (d', pass_shape outShape adj order (S p)) /\
    desc_after N inShape outShape adjLo adj c fs order (S p) d'.
Proof.
  intros Hp (Es & Ec & Eo & Ef & Ek & Efl). unfold setup_pass.
  assert (<[order !!! p := outShape !!! (order !!! p)]> (pass_shape outShape adj order p) = pass_shape outShape adj order (S p)) as ->.
  { unfold pass_shape. by rewrite take_S_total, foldl_app by done. }
  set (sh := shapes d ++ _). destruct p as [|p].
  - cbn [Nat.eqb]. eexists. split; [done|]. unfold desc_after. cbn [shapes channels processingOrder inRoiOffset filterKind filter].
    subst sh. rewrite Es, Ef, Ek, Efl. destruct order as [|a order]; [cbn in Hp; lia|]. by split_and!.
  - cbn [Nat.eqb]. eexists. split; [done|]. unfold desc_after. cbn [shapes channels processingOrder inRoiOffset filterKind filter].
    assert (drop 1 (take (S (S p)) order) = drop 1 (take (S p) order) ++ [order !!! S p]) as Ed.
    { rewrite (take_S_total order (S p)) by done. rewrite drop_app_le; [done|]. rewrite length_take. lia. }
    subst sh. rewrite Es, Ef, Ek, Efl. split_and!; try done.
    + rewrite Ed, foldl_app. apply (f_equal2 cons); [done|]. by rewrite (seq_S (S p)), fmap_app.
    + unfold pass_offset. rewrite Ed, foldl_app. done.
    + by rewrite (take_S_total order (S p)), fmap_app by done.
    + by rewrite (take_S_total order (S p)), fmap_app by done.
Qed.

Lemma list_eq_total {A} `{Inhabited A} (l1 l2 : list A) : length l1 = length l2 ->
  (forall i, (i < length l1)%nat -> l1 !!! i = l2 !!! i) -> l1 = l2.
Proof.
  intros Hl HE. apply list_eq. intros i. destruct (decide (i < length l1)%nat) as [Hi|].
  - rewrite !list_lookup_lookup_total_lt, HE by lia. done.
  - by rewrite !lookup_ge_None_2 by lia.
Qed.

Lemma within_upd M v s a : within M v -> within M s -> (a < length v)%nat -> within M (upd v s a).
Proof. intros Hv Hs Ha. apply within_insert; [done|]. by apply within_lookup. Qed.

Lemma within_foldl_upd M v s l : within M v -> within M s -> Forall (fun a => (a < length v)%nat) l -> within M (foldl (upd v) s l).
Proof.
  intros Hv Hs Hl. revert s Hs. induction Hl as [|a l Ha _ IH]; intros s Hs; [done|]. cbn. apply IH. by apply within_upd.
Qed.

Section Setup.
Context (factory : ResamplingFiltersFactory) (Hfactory : m_filters factory = base_filters).
Context (lanes : Z) (Hlanes : 1 <= lanes <= 2 ^ 25).
Context (N : nat) (HN : N = 2%nat \/ N = 3%nat).
#[local] Set Default Proof Using "Type*".

(** The shapes of a sample, within a bound on both. *)
Record shapes_ok (M inShape outShape : list Z) : Prop := {
  so_bound : bound_ok M (2 ^ 13);
  so_small : Forall (fun m => m <= 2 ^ 23) M;
  so_in : within M inShape;
  so_out : within M outShape;
  so_out_pos : Forall (fun x => 1 <= x) outShape;
  so_length : length M = N }.

Lemma parse_ok M r inShape outShape : shapes_ok M inShape outShape -> roi_ok r ->
  forall axis, (axis < N)%nat -> coordinate (lo (ParseROI N r inShape) !!! axis) /\ coordinate (hi (ParseROI N r inShape) !!! axis).
Proof.
  intros [_ Hsm Hin _ _ Hl] Hr axis Ha. unfold ParseROI. cbn [lo hi].
  rewrite !map_seq_total by done.
  destruct r as [r'|]; [destruct (Hr r' eq_refl) as (H1 & H2 & L1 & L2)|].
  - rewrite Forall_forall in H1, H2. split; [apply H1|apply H2]; apply list_elem_of_lookup_total_2; lia.
  - split; [by apply f_int_coordinate|]. pose proof (Forall2_length _ _ _ Hin) as Hl2.
    pose proof (within_lookup M inShape axis Hin ltac:(lia)). rewrite Forall_forall in Hsm.
    assert (M !!! axis <= 2 ^ 23) by (apply Hsm, list_elem_of_lookup_total_2; lia). apply f_int_coordinate. lia.
Qed.

Lemma SetupFilters_ok M r inShape outShape minFilter magFilter : shapes_ok M inShape outShape -> roi_ok r ->
  exists fs, SetupFilters true factory N (ParseROI N r inShape) outShape minFilter magFilter = Ok fs /\
    length fs = N /\ Forall paired fs.
Proof.
  intros Hs Hr. unfold SetupFilters.
  destruct (mfold_collect (fun axis => setup_filter true factory minFilter magFilter
      (fabs (f_sub (hi (ParseROI N r inShape) !!! axis) (lo (ParseROI N r inShape) !!! axis))) (f_int (outShape !!! axis)))
    (fun _ f => paired f) (seq 0 N)) as (fs & E & HF).
  - apply Forall_forall. intros axis Ha%elem_of_seq. destruct (parse_ok M r inShape outShape Hs Hr axis ltac:(lia)) as [H1 H2].
    destruct Hs as [_ Hsm _ Hout Hpos Hl]. pose proof (Forall2_length _ _ _ Hout) as Hl2.
    pose proof (within_lookup M outShape axis Hout ltac:(lia)). rewrite Forall_forall in Hsm, Hpos.
    assert (M !!! axis <= 2 ^ 23) by (apply Hsm, list_elem_of_lookup_total_2; lia).
    assert (1 <= outShape !!! axis) by (apply Hpos, list_elem_of_lookup_total_2; lia).
    destruct (f_int_pos (outShape !!! axis)) as (b & -> & Hb); [lia|].
    destruct (setup_filter_bounded factory Hfactory minFilter magFilter _ b (difference_upto _ _ H2 H1) Hb) as (kind & f & -> & Hf).
    exists (kind, f). split; [done|]. destruct Hf as [[-> ->]|[_ Hf]]; split; [by left|done|by right|done].
  - exists fs. split; [exact E|]. split; [by rewrite <- (Forall2_length _ _ _ HF), length_seq|]. by eapply Forall2_Forall_r; [exact HF|apply Forall_true].
Qed.

Lemma AdjustRoi_ok M r inShape outShape fs : shapes_ok M inShape outShape -> roi_ok r -> length fs = N -> Forall good_filter fs ->
  exists roi, AdjustRoiForFilter N (ParseROI N r inShape) inShape fs = Ok roi /\ length (lo roi) = N /\ length (hi roi) = N /\
    forall axis, (axis < N)%nat -> 0 <= lo roi !!! axis <= hi roi !!! axis /\ hi roi !!! axis <= inShape !!! axis.
Proof.
  intros Hs Hr Hl Hf. unfold AdjustRoiForFilter.
  destruct (mfold_list (fun (roi : Roi Z) axis =>
    '(l, h) ← adjust_axis (lo (ParseROI N r inShape) !!! axis) (hi (ParseROI N r inShape) !!! axis) (fs !!! axis) (inShape !!! axis);
    Ok (MkRoiOf (lo roi ++ [l]) (hi roi ++ [h])))
    (fun pre roi => length (lo roi) = length pre /\ length (hi roi) = length pre /\
      forall axis, (axis < length pre)%nat -> 0 <= lo roi !!! axis <= hi roi !!! axis /\ hi roi !!! axis <= inShape !!! axis)
    (seq 0 N) (MkRoiOf [] [])) as (roi & E & H1 & H2 & H3).
  - split_and!; [done|done|]. cbn. lia.
  - intros pre x post roi E (L1 & L2 & H). apply seq_at in E as [-> Hlt].
    destruct (parse_ok M r inShape outShape Hs Hr (length pre) Hlt) as [C1 C2].
    destruct Hs as [_ _ Hin _ _ HlM]. pose proof (Forall2_length _ _ _ Hin) as Hl2.
    pose proof (within_lookup M inShape (length pre) Hin ltac:(lia)) as Hsz. rewrite Forall_forall in Hf.
    assert (good_filter (fs !!! length pre)) as Hfl by (apply Hf, list_elem_of_lookup_total_2; lia).
    destruct (adjust_axis_ok _ _ _ (inShape !!! length pre) C1 C2 Hfl (proj1 Hsz)) as (l & h & -> & Hlh). cbn [mbind outcome_bind].
    eexists. split; [done|]. cbn [lo hi]. rewrite !length_app, Nat.add_1_r. cbn [length]. split_and!; [lia|lia|].
    intros axis Haxis. rewrite !snoc_total, L1, L2. destruct (decide (axis = length pre)) as [->|]; [done|]. apply H. lia.
  - exists roi. rewrite length_seq in *. split_and!; done.
Qed.

(** What a description promises to the kernels and to the workspace. *)
Record desc_ok (M inShape outShape : list Z) (c : Z) (d : SampleDesc) : Prop := {
  do_channels : channels d = c;
  do_order : processingOrder d ≡ₚ seq 0 N;
  do_count : length (shapes d) = S N;
  do_within : Forall (within M) (shapes d);
  (** a pass changes the extent of its axis to the output's, and no other *)
  do_chain : forall pass, (pass < N)%nat -> let axis := processingOrder d !!! pass in
    shapes d !!! S pass = <[axis := outShape !!! axis]> (shapes d !!! pass);
  do_last : shapes d !!! N = outShape;
  (** what the first pass reads lies inside the input *)
  do_offset : length (inRoiOffset d) = N /\ forall axis, (axis < N)%nat ->
    0 <= inRoiOffset d !!! axis /\ inRoiOffset d !!! axis + shapes d !!! 0%nat !!! axis <= inShape !!! axis;
  do_filters : length (filter d) = N /\ Forall good_filter (filter d);
  do_kinds : forall pass, (pass < N)%nat -> filterKind d !!! pass = ShmFilter -> bounded_filter (filter d !!! pass);
  do_blocks : length (blockShape d) = N /\ forall pass, (pass < N)%nat -> exists b, length b = N /\
    Forall (fun u => 1 <= u <= 2 ^ 30) b /\ blockShape d !!! pass = zip_with (fun u h => clamp u 1 h) b (shapes d !!! S pass) }.

Lemma block_of_ok axis : (axis < N)%nat -> exists b, block_of lanes N axis = Ok b /\ length b = N /\ Forall (fun u => 1 <= u <= 2 ^ 30) b.
Proof.
  intros Ha. unfold block_of. destruct HN as [->| ->]; cbn [Nat.eqb].
  - assert (axis = 0 \/ axis = 1)%nat as [->| ->] by lia; cbn -[Z.mul]; rewrite int32_ok by (unfold in_s; lia);
      (eexists; split; [done|]; split; [done|]; repeat constructor; lia).
  - rewrite int32_ok by (unfold in_s; lia). cbn [mbind outcome_bind]. assert (axis = 0 \/ axis = 1 \/ axis = 2)%nat as [->|[->| ->]] by lia;
      (eexists; split; [done|]; split; [done|]; repeat constructor; lia).
Qed.

Lemma SetupBlockLayout_ok d : processingOrder d ≡ₚ seq 0 N -> exists bs,
  SetupBlockLayout lanes N d = Ok (MkDesc (shapes d) (channels d) (processingOrder d) (origin d) (pass_scale d) (filterKind d) (filter d) (inRoiOffset d) bs) /\
  length bs = N /\ forall pass, (pass < N)%nat -> exists b, length b = N /\ Forall (fun u => 1 <= u <= 2 ^ 30) b /\
    bs !!! pass = zip_with (fun u h => clamp u 1 h) b (shapes d !!! S pass).
Proof.
  intros Ho. unfold SetupBlockLayout.
  destruct (mfold_list (fun bs pass => b ← block_of lanes N (processingOrder d !!! pass);
      Ok (bs ++ [zip_with (fun u h => clamp u 1 h) b (shapes d !!! S pass)]))
    (fun pre bs => length bs = length pre /\ forall pass, (pass < length pre)%nat -> exists b, length b = N /\ Forall (fun u => 1 <= u <= 2 ^ 30) b /\
      bs !!! pass = zip_with (fun u h => clamp u 1 h) b (shapes d !!! S pass)) (seq 0 N) []) as (bs & -> & Hl & Hb).
  - split; [done|]. cbn. lia.
  - intros pre x post bs E (L & H). apply seq_at in E as [-> Hlt].
    assert (processingOrder d !!! length pre < N)%nat as Hax.
    { assert (length (processingOrder d) = N) as Hlo by (by rewrite Ho, length_seq).
      assert (processingOrder d !!! length pre ∈ seq 0 N) as Hin by (rewrite <- Ho; apply list_elem_of_lookup_total_2; lia).
      apply elem_of_seq in Hin. lia. }
    destruct (block_of_ok _ Hax) as (b & -> & Hbl & Hb). cbn [mbind outcome_bind]. eexists. split; [done|].
    rewrite !length_app, Nat.add_1_r. cbn [length]. split; [lia|]. intros pass Hp. rewrite snoc_total, L.
    destruct (decide (pass = length pre)) as [->|]; [by exists b|]. apply H. lia.
  - rewrite length_seq in *. cbn [mbind outcome_bind]. exists bs. by split_and!.
Qed.

(** The shapes that the loop over the passes leaves. *)
Lemma passes_chain inShape outShape adjLo adj c fs order d : order ≡ₚ seq 0 N -> length inShape = N -> length outShape = N -> length adj = N ->
  desc_after N inShape outShape adjLo adj c fs order N d ->
  length (shapes d) = S N /\
  (forall pass, (pass < N)%nat -> shapes d !!! S pass = <[order !!! pass := outShape !!! (order !!! pass)]> (shapes d !!! pass)) /\
  shapes d !!! N = outShape.
Proof.
  intros Ho Li Lo La (Es & _). assert (length order = N) as Hlo by (by rewrite Ho, length_seq).
  assert (forall k, (k < N)%nat -> shapes d !!! S k = pass_shape outShape adj order (S k)) as HS.
  { intros k Hk. rewrite Es. change (((fun k => pass_shape outShape adj order (S k)) <$> seq 0 N) !!! k = pass_shape outShape adj order (S k)).
    by rewrite map_seq_total. }
  split_and!.
  - rewrite Es. cbn. by rewrite length_fmap, length_seq.
  - intros [|k] Hk; rewrite HS by done.
    + rewrite Es. cbn [lookup_total list_lookup_total]. rewrite (take_ge order N) by lia.
      unfold pass_shape. rewrite (take_S_total order 0) by lia. change (take 0 order) with (@nil nat). cbn [app foldl]. unfold upd at 1.
      apply list_eq_total; [by rewrite !length_insert, foldl_upd_length, La, Li|]. rewrite length_insert. intros i Hi.
      destruct (decide (i = order !!! 0%nat)) as [->|Hne].
      { rewrite !list_lookup_total_insert_eq by (rewrite ?foldl_upd_length; lia). done. }
      rewrite !list_lookup_total_insert_ne by done. rewrite foldl_upd_total by lia. rewrite bool_decide_eq_true_2; [done|].
      assert (i ∈ order) as Hin by (rewrite Ho; apply elem_of_seq; lia). destruct order as [|o0 order]; [cbn in *; lia|].
      apply elem_of_cons in Hin as [->|]; [done|]. cbn. by rewrite drop_0.
    + rewrite HS by lia. unfold pass_shape at 1. rewrite (take_S_total order (S k)) by lia. by rewrite foldl_app.
  - destruct (Nat.eq_dec N 0) as [->|]; [by destruct HN|].
    replace N with (S (N - 1)) by lia. rewrite HS by lia. replace (S (N - 1)) with N by lia. unfold pass_shape. rewrite (take_ge order N) by lia.
    apply list_eq_total; [by rewrite foldl_upd_length, La, Lo|]. rewrite foldl_upd_length. intros i Hi. rewrite foldl_upd_total by done.
    by rewrite bool_decide_eq_true_2 by (rewrite Ho; apply elem_of_seq; lia).
Qed.

Lemma passes_offset inShape outShape adjLo adjHi c fs order d : order ≡ₚ seq 0 N -> length inShape = N ->
  length adjLo = N -> length adjHi = N ->
  (forall axis, (axis < N)%nat -> 0 <= adjLo !!! axis <= adjHi !!! axis /\ adjHi !!! axis <= inShape !!! axis) ->
  desc_after N inShape outShape adjLo (zip_with Z.sub adjHi adjLo) c fs order N d ->
  length (inRoiOffset d) = N /\ forall axis, (axis < N)%nat ->
    0 <= inRoiOffset d !!! axis /\ inRoiOffset d !!! axis + shapes d !!! 0%nat !!! axis <= inShape !!! axis.
Proof.
  intros Ho Li L1 L2 HR (Es & _ & _ & Ef & _). assert (length order = N) as Hlo by (by rewrite Ho, length_seq).
  assert (NoDup order) as Hnd by (rewrite Ho; apply NoDup_seq).
  destruct order as [|o0 order]; [destruct HN; cbn in Hlo; lia|]. rewrite Es, Ef. cbn [lookup_total list_lookup_total].
  unfold pass_offset. destruct N as [|n] eqn:EN; [by destruct HN|]. rewrite <- EN in *. clear EN. rewrite (take_ge (o0 :: order) N) by lia. cbn [drop].
  rewrite drop_0. change ((o0 :: order) !!! 0%nat) with o0.
  split; [by rewrite foldl_upd_length, length_insert, length_replicate|]. intros axis Ha.
  rewrite !foldl_upd_total by (rewrite ?length_insert, ?length_replicate; lia). apply NoDup_cons in Hnd as [Hnot _]. destruct (HR axis Ha).
  assert (o0 < N)%nat. { assert (o0 ∈ seq 0 N) as Hin by (rewrite <- Ho; by left). apply elem_of_seq in Hin. lia. }
  destruct (decide (axis ∈ order)) as [Hin|Hno].
  - rewrite (bool_decide_eq_true_2 _ Hin). assert (zip_with Z.sub adjHi adjLo !!! axis = adjHi !!! axis - adjLo !!! axis) as ->; [|lia].
    apply list_lookup_total_correct. rewrite lookup_zip_with, !list_lookup_lookup_total_lt by lia. done.
  - rewrite (bool_decide_eq_false_2 _ Hno). assert (axis ∈ o0 :: order) as Hall by (rewrite Ho; apply elem_of_seq; lia).
    apply elem_of_cons in Hall as [->|]; [|done]. rewrite list_lookup_total_insert_eq by (rewrite length_replicate; done). lia.
Qed.

Lemma setup_passes inShape outShape adjLo adj c parsed fs order : length order = N ->
  exists d sh, mfold (setup_pass outShape adjLo adj parsed fs order) (seq 0 N) (MkDesc [inShape] c order [] [] [] [] (replicate N 0) [], adj) = Ok (d, sh) /\
    desc_after N inShape outShape adjLo adj c fs order N d.
Proof.
  intros Hl. destruct (mfold_list (setup_pass outShape adjLo adj parsed fs order)
    (fun pre st => st.2 = pass_shape outShape adj order (length pre) /\ desc_after N inShape outShape adjLo adj c fs order (length pre) st.1)
    (seq 0 N) (MkDesc [inShape] c order [] [] [] [] (replicate N 0) [], adj)) as ([d sh] & E & Hsh & Hd).
  - by split_and!.
  - intros pre x post [d sh] E [Hsh Hd]. apply seq_at in E as [-> Hlt]. cbn [fst snd] in *. subst sh.
    destruct (setup_pass_after N inShape outShape adjLo adj c parsed fs order (length pre) d) as (d' & E' & Hd'); [lia|done|].
    rewrite E'. eexists. split; [done|]. rewrite length_app, Nat.add_1_r. by split.
  - rewrite length_seq in *. by exists d, sh.
Qed.

Lemma pass_shape_within M outShape adj order p : within M outShape -> within M adj -> Forall (fun a => (a < length outShape)%nat) order ->
  within M (pass_shape outShape adj order p).
Proof. intros. apply within_foldl_upd; [done..|]. by apply Forall_take. Qed.

Lemma supports_ok fs : length fs = N -> Forall good_filter fs -> exists ss,
  mfold (fun ss f => s ← support f; Ok (ss ++ [Z.max 1 s])) fs [] = Ok ss /\ length ss = N /\ Forall (fun s => 1 <= s <= 2 ^ 13) ss.
Proof.
  intros Hl Hf. destruct (mfold_list (fun ss f => s ← support f; Ok (ss ++ [Z.max 1 s]))
    (fun pre ss => length ss = length pre /\ Forall (fun s => 1 <= s <= 2 ^ 13) ss) fs []) as (ss & E & L & H).
  - by split; [|constructor].
  - intros pre f post ss -> [L H]. apply Forall_app in Hf as [_ Hf]. apply Forall_cons in Hf as [Hf _].
    assert (exists s, support f = Ok s /\ s <= 2 ^ 13) as (s & -> & Hs).
    { destruct Hf as [->|[(s & Es & Hs) _ _]]; [exists (-1); split; [vm_compute; reflexivity|lia]|]. exists s. split; [done|]. unfold kMaxGPUFilterSupport in Hs. lia. }
    eexists. split; [done|]. rewrite !length_app. cbn [length]. split; [lia|]. apply Forall_app. split; [done|]. repeat constructor; lia.
  - exists ss. split_and!; [done|lia|done].
Qed.

Lemma SetupSampleDesc_ok M inShape outShape c r minFilter magFilter : shapes_ok M inShape outShape -> roi_ok r ->
  exists d, SetupSampleDesc true factory lanes N inShape outShape c r minFilter magFilter = Ok d /\ desc_ok M inShape outShape c d.
Proof.
  intros Hs Hr. unfold SetupSampleDesc, SetupSampleDescFilterShapeScale. cbv zeta.
  destruct (SetupFilters_ok M r inShape outShape minFilter magFilter Hs Hr) as (fs & -> & Hfl & Hf). cbn [mbind outcome_bind].
  assert (length fs.*2 = N) as Hfl2 by (by rewrite length_fmap). assert (Forall good_filter fs.*2) as Hf2 by (apply Forall_fmap; eapply Forall_impl; [exact Hf|]; by intros f []).
  destruct (AdjustRoi_ok M r inShape outShape fs.*2 Hs Hr Hfl2 Hf2) as (roi & -> & L1 & L2 & HR). cbn [mbind outcome_bind].
  pose proof Hs as [HB _ Hin Hout _ HlM]. pose proof (Forall2_length _ _ _ Hin) as Li. pose proof (Forall2_length _ _ _ Hout) as Lo.
  set (adj := zip_with Z.sub (hi roi) (lo roi)). assert (length adj = N) as La by (unfold adj; rewrite length_zip_with; lia).
  assert (forall i, (i < N)%nat -> adj !!! i = hi roi !!! i - lo roi !!! i) as Eadj.
  { intros i Hi. apply list_lookup_total_correct. unfold adj. by rewrite lookup_zip_with, !list_lookup_lookup_total_lt by lia. }
  assert (within M adj) as Hadj.
  { apply Forall2_same_length_lookup_2; [lia|]. intros i m x Hm Hx. pose proof (lookup_lt_Some _ _ _ Hx). apply list_lookup_total_correct in Hm, Hx.
    pose proof (within_lookup M inShape i Hin ltac:(lia)). destruct (HR i ltac:(lia)). rewrite <- Hx, Eadj by lia. subst m. lia. }
  unfold SetupProcessingOrder. destruct (supports_ok fs.*2 Hfl2 Hf2) as (ss & -> & Lss & Hss). cbn [mbind outcome_bind].
  destruct (cheapest_order adj outShape ss M HB) as (order & cost & -> & Ho & _); [destruct HN; lia|done|done|done|lia|]. cbn [mbind outcome_bind].
  replace (length outShape) with N in Ho by lia. assert (length order = N) as Hlo by (by rewrite Ho, length_seq).
  destruct (setup_passes inShape outShape (lo roi) adj c (ParseROI N r inShape) fs order Hlo) as (d & sh & -> & Hd). cbn [mbind outcome_bind].
  assert (length inShape = N) as Hli by lia. assert (length outShape = N) as Hlout by lia.
  destruct (passes_chain _ _ _ _ _ _ _ _ Ho Hli Hlout La Hd) as (Hc1 & Hc2 & Hc3).
  pose proof (passes_offset _ _ _ _ _ _ _ _ Ho Hli L1 L2 HR Hd) as Hoff. destruct Hd as (Es & Ec & Eo & _ & Ek & Efl).
  assert (Forall (fun a => (a < N)%nat) order) as Hax by (apply Forall_forall; intros a Ha; rewrite Ho in Ha; apply elem_of_seq in Ha; lia).
  destruct (SetupBlockLayout_ok d) as (bs & -> & Hb); [by rewrite Eo|]. eexists. split; [done|].
  constructor; cbn [channels processingOrder shapes inRoiOffset filter filterKind blockShape]; rewrite ?Eo; try done.
  - rewrite Es. constructor; [|apply Forall_fmap, Forall_forall; intros k _; apply pass_shape_within; [done|done|by rewrite <- Lo, HlM]].
    apply within_foldl_upd; [done|done|]. apply Forall_drop, Forall_take. by rewrite La.
  - rewrite Efl, (take_ge order N) by lia. split; [by rewrite length_fmap|]. apply Forall_fmap, Forall_forall. intros a Ha. cbn.
    rewrite Forall_forall in Hax. rewrite Forall_forall in Hf. apply Hf, list_elem_of_lookup_total_2. rewrite Hfl. by apply Hax.
  - intros pass Hp. rewrite Ek, Efl, (take_ge order N) by lia.
    destruct (lookup_lt_is_Some_2 order pass ltac:(lia)) as [a Ea]. rewrite !list_lookup_total_alt, !list_lookup_fmap, Ea. cbn [fmap option_fmap option_map default].
    rewrite Forall_forall in Hf. intros Hk. apply Hf; [|exact Hk]. apply list_elem_of_lookup_total_2. rewrite Hfl.
    rewrite Forall_forall in Hax. by apply Hax, (list_elem_of_lookup_2 _ pass).
Qed.
End Setup.

(** C19: The description of a sample. For two or three dimensions, input and output
    within a shape whose extents are at most 2^23 and whose volume is below 2^50, so
    that its product with the largest support, 2^13, fits 64 bits, with an output
    that is not empty, up to 2^25 lanes, and any region of interest with
    coordinates up to 2^23, flipped, empty or outside the input, a description is
    made: every pass resamples one axis to the extent of the output and keeps the
    others, each axis once, from the input to the output; and what the first pass
    reads lies inside the input. *)
Theorem hq_sample_described expf sinf lanes N M inShape outShape c r minFilter magFilter (HN : N = 2%nat \/ N = 3%nat)
  (Hlanes : 1 <= lanes <= 2 ^ 25) (Hs : shapes_ok N M inShape outShape) (Hr : roi_ok r) :
  exists factory d, make_factory expf sinf = Ok factory /\
    SetupSampleDesc true factory lanes N inShape outShape c r minFilter magFilter = Ok d /\
    channels d = c /\ processingOrder d ≡ₚ seq 0 N /\
    (forall pass, (pass < N)%nat -> let axis := processingOrder d !!! pass in
       shapes d !!! S pass = <[axis := outShape !!! axis]> (shapes d !!! pass)) /\
    shapes d !!! N = outShape /\
    (forall axis, (axis < N)%nat -> 0 <= inRoiOffset d !!! axis /\ 0 <= shapes d !!! 0%nat !!! axis /\
       inRoiOffset d !!! axis + shapes d !!! 0%nat !!! axis <= inShape !!! axis).
Proof.
  destruct (SetupSampleDesc_ok (MkFactory base_filters (base_table expf sinf)) eq_refl lanes Hlanes N HN M inShape outShape c r minFilter magFilter Hs Hr) as (d & E & Hd).
  exists (MkFactory base_filters (base_table expf sinf)), d. split; [apply factory_filled|]. split; [exact E|].
  pose proof Hd as [H1 H2 H3 H4 H5 H6 [H7 H8] _ _ _]. split_and!; try done. intros axis Ha. destruct (H8 axis Ha). split_and!; [done| |done].
  assert (within M (shapes d !!! 0%nat)) as Hw by (rewrite Forall_forall in H4; apply H4, list_elem_of_lookup_total_2; lia).
  apply (within_lookup M); [done|]. rewrite <- (Forall2_length _ _ _ Hw), (so_length _ _ _ _ Hs). done.
Qed.

(** C20: The order of the passes is a cheapest one: for sizes whose volume times the
    largest support fits into 64 bits, the search with pruning returns, what it
    returns is a permutation of the axes, and no other permutation has a smaller
    cost, in the floating-point arithmetic of the code. *)
Theorem processing_order_cheapest inSize outSize filterSupport M (HM : bound_ok M (2 ^ 13)) (Hn : (length outSize <= 20)%nat)
  (Hin : within M inSize) (Hout : within M outSize)
  (Hsupport : Forall (fun s => 1 <= s <= 2 ^ 13) filterSupport) (Hlen : length filterSupport = length outSize) :
  exists order c, ProcessingOrder inSize outSize filterSupport = Ok order /\ order ≡ₚ seq 0 (length outSize) /\
    order_cost inSize outSize filterSupport order = Ok c /\
    forall order' c', order' ≡ₚ seq 0 (length outSize) -> order_cost inSize outSize filterSupport order' = Ok c' -> fle c c' = true.
Proof. by apply (cheapest_order inSize outSize filterSupport M). Qed.

Module Concrete.

Lemma shapes_hd : shapes_ok 2 [640; 1000] [640; 480] [320; 1000].
Proof.
  constructor; [split_and!; [repeat constructor; lia|lia|cbn; lia]|repeat constructor; lia..|done].
Qed.

(** Rows 10 to 20, columns 100 to 300. *)
Definition roi1 : HQResizeRoiF := MkRoi [f_int 10; f_int 100; f_int 0] [f_int 20; f_int 300; f_int 0].

Lemma roi1_ok : roi_ok (Some roi1).
Proof.
  intros r [= <-]. assert (forall n, 0 <= n <= 2 ^ 23 -> coordinate (f_int n)) as H by apply f_int_coordinate.
  split_and!; [repeat constructor; apply H; lia..|done|done].
Qed.

Lemma described table : (fun d => (shapes d, inRoiOffset d)) <$>
  SetupSampleDesc true (MkFactory base_filters table) 8 2 [640; 480] [320; 1000] 3 (Some roi1) (MkMode Triangular true) (MkMode Linear false) =
  Ok ([[640; 12]; [320; 12]; [320; 1000]], [0; 9]).
Proof. vm_compute. reflexivity. Qed.

Lemma hq_sample_described_witness : exists factory d, make_factory (fun x => x) (fun x => x) = Ok factory /\
  SetupSampleDesc true factory 8 2 [640; 480] [320; 1000] 3 (Some roi1) (MkMode Triangular true) (MkMode Linear false) = Ok d /\
  shapes d = [[640; 12]; [320; 12]; [320; 1000]] /\ inRoiOffset d = [0; 9].
Proof.
  destruct (hq_sample_described (fun x => x) (fun x => x) 8 2 [640; 1000] [640; 480] [320; 1000] 3 (Some roi1)
    (MkMode Triangular true) (MkMode Linear false)) as (factory & d & Ef & E & _).
  - by left.
  - lia.
  - apply shapes_hd.
  - apply roi1_ok.
  - exists factory, d. split; [exact Ef|]. split; [exact E|]. rewrite factory_filled in Ef. injection Ef as <-.
    pose proof (described (base_table (fun x => x) (fun x => x))) as E2. rewrite E in E2. injection E2 as -> ->. by split.
Defined.

(** Beyond the bound on the volume the sizes of the passes overflow. *)
Lemma huge_volume_overflows table :
  SetupSampleDesc true (MkFactory base_filters table) 8 3 [2 ^ 23; 2 ^ 23; 2 ^ 23] [2 ^ 23; 2 ^ 23; 2 ^ 23] 1 None (MkMode Linear false) (MkMode Linear false) = Stuck.
Proof. vm_compute. reflexivity. Qed.

(** A region below the image leaves nothing to resample from, but the size of the
    input is kept for the axis of the first pass. *)
Lemma region_outside : (fun d => (shapes d, processingOrder d, blockShape d)) <$>
  SetupSampleDesc true (MkFactory base_filters []) 8 2 [640; 480] [320; 240] 3
    (Some (MkRoi [f_int 500; f_int 0; f_int 0] [f_int 600; f_int 640; f_int 0])) (MkMode Linear false) (MkMode Linear false) =
  Ok ([[640; 0]; [320; 0]; [320; 240]], [0; 1]%nat, [[32; 0]; [256; 8]]).
Proof. vm_compute. reflexivity. Qed.

Lemma processing_order_cheapest_witness : exists order c, ProcessingOrder [640; 480; 30] [320; 1000; 70] [4; 4; 4] = Ok order /\
  order_cost [640; 480; 30] [320; 1000; 70] [4; 4; 4] order = Ok c /\ order = [0; 2; 1]%nat.
Proof.
  destruct (processing_order_cheapest [640; 480; 30] [320; 1000; 70] [4; 4; 4] [1000; 1000; 1000]) as (order & c & E & _ & Ec & _).
  - split_and!; [repeat constructor; lia|lia|cbn; lia].
  - cbn. lia.
  - repeat constructor; lia.
  - repeat constructor; lia.
  - repeat constructor; lia.
  - done.
  - exists order, c. split_and!; [exact E|exact Ec|]. vm_compute in E. injection E as <-. reflexivity.
Defined.
End Concrete.
