(* ===== verification/HQWorkspace.v ===== *)
(** * The workspace of HQResize ([cvcuda/priv/OpHQResize.cu], OpHQResizeBatchWrap.cuh)

    What the operator asks for and what it takes: the requirements for a tensor,
    for a batch and for any batch up to a maximum, and the buffers taken by the two
    kinds of calls. *)
From S2P Require Import Prelude Effects MathUtil Align Allocators Workspace WorkspaceOwner Float HQFilter HQResize.
From stdpp Require Import options.

#[local] Open Scope Z_scope.

(** ** Elements *)

(** [sizeof(SampleDesc<N>)]: 136 and 216 bytes for 2 and 3 dimensions. *)
Definition sizeof_SampleDesc (N : nat) : Z := if (N =? 2)%nat then 136 else 216.

(** [TensorAccessDesc<StrideT>]: a pointer and three strides. *)
Definition sizeof_TensorAccessDesc (wide : bool) : Z := if wide then 32 else 24.

Definition sizeof_IntermediateBaseT : Z := 4.
(** [alignof(Vec<float, 4>)] *)
Definition kIntermediateAlignment : Z := 16.

Definition desc_entry (N : nat) (count : Z) : entry := Entry (sizeof_SampleDesc N) 8 (wrapu 64 count) 8.
Definition meta_entry (wide : bool) (count : Z) : entry := Entry (sizeof_TensorAccessDesc wide) 8 (wrapu 64 count) 8.
Definition intermediate_entry (count : Z) : entry := Entry sizeof_IntermediateBaseT 4 (wrapu 64 count) kIntermediateAlignment.

Definition AddDynamicBatchWrapMeta (est : WorkspaceRequirements) (numSamples : Z) : WorkspaceRequirements :=
  addCuda (addPinned est (meta_entry true numSamples)) (meta_entry true numSamples).

(** ** Requirements *)

Section Requirements.
Context (same_device : bool) (factory : ResamplingFiltersFactory) (lanes : Z) (N : nat).

Definition kNumTmpBuffers : nat := N - 1.

Abbreviation setup := (SetupSampleDesc same_device factory lanes N).

(** For a tensor. *)
Definition getTensorRequirements (numSamples : Z) (inputShape outputShape : HQResizeTensorShapeI)
  (minInterpolation magInterpolation : NVCVInterpolationType) (antialias : bool) (r : option HQResizeRoiF) : outcome WorkspaceRequirements :=
  _ ← inOutNumberOfChannels inputShape outputShape;
  _ ← sameInOutNdim inputShape outputShape;
  srcShape ← TensorShape N inputShape;
  dstShape ← TensorShape N outputShape;
  '(minFilter, magFilter) ← GetFilterModes minInterpolation magInterpolation antialias;
  d ← setup srcShape dstShape (HQResize.numChannels inputShape) r minFilter magFilter;
  est ← mfold (fun est t =>
    v ← GetPassOutputVolume d t; n ← int64 (v * numSamples);
    Ok (addCuda est (intermediate_entry n))) (seq 0 kNumTmpBuffers) WorkspaceEstimator;
  Ok (AlignUpReqs est).

(** [intermediateSizes[t] += GetPassOutputVolume(sampleDesc, t)] for every buffer. *)
Definition add_volumes (sizes : list Z) (d : SampleDesc) : outcome (list Z) :=
  mfold (fun sizes t => v ← GetPassOutputVolume d t; Ok (<[t := wrapu 64 (sizes !!! t + v)]> sizes)) (seq 0 kNumTmpBuffers) sizes.

(** The number of channels of a sample. *)
Definition sample_channels (inputShapes : HQResizeTensorShapesI) (sampleIdx : Z) : outcome Z :=
  if shapes_numChannels inputShapes <? 0
  then s ← rd (shape inputShapes) sampleIdx; Ok (HQResize.numChannels s) else Ok (shapes_numChannels inputShapes).

(** For a batch of samples of different shapes. *)
Definition getBatchRequirements (numSamples : Z) (inputShapes outputShapes : HQResizeTensorShapesI)
  (minInterpolation magInterpolation : NVCVInterpolationType) (antialias : bool) (rois : HQResizeRoisF) : outcome WorkspaceRequirements :=
  _ ← roiBatch numSamples (Z.of_nat N) rois;
  _ ← inOutShapes numSamples inputShapes outputShapes;
  '(minFilter, magFilter) ← GetFilterModes minInterpolation magInterpolation antialias;
  sizes ← mfold (fun sizes sampleIdx =>
    srcShape ← SampleShape N inputShapes sampleIdx;
    dstShape ← SampleShape N outputShapes sampleIdx;
    sampleRoi ← SampleRoi rois sampleIdx;
    numChannels ← sample_channels inputShapes sampleIdx;
    d ← setup srcShape dstShape numChannels sampleRoi minFilter magFilter;
    add_volumes sizes d) (zrange 0 numSamples) (replicate kNumTmpBuffers 0);
  let est := addPinned WorkspaceEstimator (desc_entry N numSamples) in
  let est := addCuda est (desc_entry N numSamples) in
  let est := Nat.iter kNumTmpBuffers (fun est => AddDynamicBatchWrapMeta est numSamples) est in
  let est := foldl (fun est n => addCuda est (intermediate_entry n)) est sizes in
  Ok (AlignUpReqs est).

(** The upper bound for every call with at most [maxNumSamples] samples whose
    shapes do not exceed [maxShape]. *)
Definition getMaxRequirements (maxNumSamples : Z) (maxShape : HQResizeTensorShapeI) : outcome WorkspaceRequirements :=
  _ ← inOutNumberOfChannels maxShape maxShape;
  let est := addPinned WorkspaceEstimator (desc_entry N maxNumSamples) in
  let est := addCuda est (desc_entry N maxNumSamples) in
  let est := Nat.iter kNumTmpBuffers (fun est => AddDynamicBatchWrapMeta est maxNumSamples) est in
  shape ← TensorShape N maxShape;
  est ← mfold (fun est (t : nat) =>
    v ← Volume shape; n ← int64 (v * maxNumSamples); n ← int64 (n * HQResize.numChannels maxShape);
    Ok (addCuda est (intermediate_entry n))) (seq 0 kNumTmpBuffers) est;
  Ok (AlignUpReqs est).
End Requirements.

(** [HQResizeImpl::getWorkspaceRequirements] picks the number of dimensions. *)
Definition by_ndim {A} (ndim : Z) (f : nat -> outcome A) : outcome A :=
  if ndim =? 2 then f 2%nat else if ndim =? 3 then f 3%nat else Throw NVCV_ERROR_INVALID_ARGUMENT.

Definition HQResize_getTensorRequirements same_device factory lanes numSamples inputShape outputShape minI magI antialias r : outcome WorkspaceRequirements :=
  by_ndim (s_ndim inputShape) (fun N => getTensorRequirements same_device factory lanes N numSamples inputShape outputShape minI magI antialias r).
Definition HQResize_getBatchRequirements same_device factory lanes numSamples inputShapes outputShapes minI magI antialias rois : outcome WorkspaceRequirements :=
  by_ndim (shapes_ndim inputShapes) (fun N => getBatchRequirements same_device factory lanes N numSamples inputShapes outputShapes minI magI antialias rois).
Definition HQResize_getMaxRequirements maxBatchSize maxShape : outcome WorkspaceRequirements :=
  by_ndim (s_ndim maxShape) (fun N => getMaxRequirements N maxBatchSize maxShape).

(** ** Taking the buffers *)

(** The members [hostMem], [pinnedMem] and [cudaMem]. *)
Record WorkspaceAllocator := MkWsAlloc { hostAlloc : WorkspaceMemAllocator; pinnedAlloc : WorkspaceMemAllocator; cudaAlloc : WorkspaceMemAllocator }.

Definition on_pinnedMem {A} (m : M WorkspaceMemAllocator A) : M WorkspaceAllocator A := fun s =>
  let '(p, r) := m (pinnedAlloc s) in (MkWsAlloc (hostAlloc s) p (cudaAlloc s), r).
Definition on_cudaMem {A} (m : M WorkspaceMemAllocator A) : M WorkspaceAllocator A := fun s =>
  let '(c, r) := m (cudaAlloc s) in (MkWsAlloc (hostAlloc s) (pinnedAlloc s) c, r).

Section Buffers.
Context (cudaSuccess : list cuda_call -> cuda_call -> bool).
(** The status that [NVCV_CHECK_THROW] makes of the failure of a call. *)
Context (check_status : cuda_call -> NVCVStatus).
Context (N : nat).

Definition getPinned (e : entry) : M WorkspaceAllocator Z := on_pinnedMem (Workspace.get cudaSuccess e).
Definition getCuda (e : entry) : M WorkspaceAllocator Z := on_cudaMem (Workspace.get cudaSuccess e).

(** [WorkspaceAllocator(ws)] *)
Definition make_ws_allocator (ws : NVCVWorkspace) : WorkspaceAllocator :=
  MkWsAlloc (make_allocator (hostMem ws) None None) (make_allocator (pinnedMem ws) None None) (make_allocator (cudaMem ws) None None).

(** [NVCV_CHECK_THROW(call)] *)
Definition check_throw (c : cuda_call) : M WorkspaceMemAllocator unit := fun s =>
  (add_call c s, if cudaSuccess (m_calls s) c then Ok tt else Throw (check_status c)).

(** [if (mem.ready != nullptr) NVCV_CHECK_THROW(call(mem.ready))] *)
Definition wait_ready (call : Z -> cuda_call) : M WorkspaceMemAllocator unit :=
  s ← Effects.get; match ready (m_mem s) with Some event => check_throw (call event) | None => mret tt end.

Fixpoint collect {S A B} (f : A -> M S B) (l : list A) : M S (list B) :=
  match l with [] => mret [] | x :: l => y ← f x; ys ← collect f l; mret (y :: ys) end.

(** The buffers of a call with tensors: the intermediate ones. *)
Definition tensor_buffers (stream : Z) (d : SampleDesc) (numSamples : Z) : M WorkspaceAllocator (list Z) :=
  _ ← on_cudaMem (wait_ready (cudaStreamWaitEvent stream));
  collect (fun t =>
    n ← lift (v ← GetPassOutputVolume d t; int64 (v * numSamples));
    getCuda (intermediate_entry n)) (seq 0 (kNumTmpBuffers N)).

Record batch_buffers := MkBuffers {
  sampleDescsCpu : Z; sampleDescsGpu : Z; intermediateMeta : list (Z * Z); intermediate : list Z }.

Definition AllocateDynamicBatchWrapMeta (numSamples : Z) (wideStride : bool) : M WorkspaceAllocator (Z * Z) :=
  cpu ← getPinned (meta_entry wideStride numSamples);
  gpu ← getCuda (meta_entry wideStride numSamples);
  mret (cpu, gpu).

(** The buffers of a call with batches. [setups] are the calls of
    [SetupSampleDesc] for the samples, [copied] that of [cudaMemcpyAsync]. *)
Definition take_batch_buffers (stream : Z) (setups : list (outcome SampleDesc)) (wideStride : bool) (copied : outcome unit)
  : M WorkspaceAllocator (list SampleDesc * batch_buffers) :=
  let numSamples := Z.of_nat (length setups) in
  _ ← on_pinnedMem (wait_ready cudaEventSynchronize);
  _ ← on_cudaMem (wait_ready (cudaStreamWaitEvent stream));
  cpu ← getPinned (desc_entry N numSamples);
  gpu ← getCuda (desc_entry N numSamples);
  '(ds, sizes) ← lift (mfold (fun '(ds, sizes) setup =>
    d ← setup; sizes ← add_volumes N sizes d; Ok (ds ++ [d], sizes)) setups ([], replicate (kNumTmpBuffers N) 0));
  _ ← lift copied;
  meta ← collect (fun _ => AllocateDynamicBatchWrapMeta numSamples wideStride) (seq 0 (kNumTmpBuffers N));
  inter ← collect (fun n => getCuda (intermediate_entry n)) sizes;
  mret (ds, MkBuffers cpu gpu meta inter).
End Buffers.

(** ** Entries that need less *)

Definition entry_le (a b : entry) : Prop := e_alignment a = e_alignment b /\ bytes a <= bytes b.

Lemma needs_mono es es' o o' : Forall2 entry_le es es' -> Forall entry_ok es -> 0 <= o <= o' ->
  foldl need o es <= foldl need o' es'.
Proof.
  intros HF Hok. revert o o'. induction HF as [|e e' es es' [Ha Hb] _ IH]; intros o o' Ho; [cbn; lia|].
  apply Forall_cons in Hok as [He Hok]. cbn [foldl]. pose proof (need_bounds o e He ltac:(lia)). pose proof (entry_bytes e He).
  apply IH; [done|]. unfold need in *. rewrite <- Ha. assert (0 < e_alignment e) by (apply pow2_word_range, He).
  pose proof (RoundUp_mono o o' (e_alignment e) Ho ltac:(lia)). pose proof (RoundUp_mono (bytes e) (bytes e') (e_alignment e) ltac:(lia) ltac:(lia)). lia.
Qed.

Lemma entries_ok_gen sz al n : 0 < sz -> (al = 8 \/ al = 16) -> 0 <= n < 2 ^ 63 -> forall a, a <= al -> entry_ok (Entry sz a (wrapu 64 n) al).
Proof.
  intros Hsz Hal Hn a Ha. rewrite wrapu_small by (unfold in_u; lia). split_and!; cbn; [done|lia| |done].
  destruct Hal as [->| ->]; [by exists 3|by exists 4].
Qed.

Lemma desc_entry_ok N n : 0 <= n < 2 ^ 63 -> entry_ok (desc_entry N n) /\ bytes (desc_entry N n) = n * sizeof_SampleDesc N.
Proof.
  intros Hn. assert (0 < sizeof_SampleDesc N) by (unfold sizeof_SampleDesc; by destruct (N =? 2)%nat).
  split; [apply entries_ok_gen; (done || lia || by left)|]. unfold bytes. cbn. rewrite wrapu_small by (unfold in_u; lia). done.
Qed.

Lemma meta_entry_ok w n : 0 <= n < 2 ^ 63 -> entry_ok (meta_entry w n) /\ bytes (meta_entry w n) = n * sizeof_TensorAccessDesc w.
Proof.
  intros Hn. assert (0 < sizeof_TensorAccessDesc w) by (by destruct w).
  split; [apply entries_ok_gen; (done || lia || by left)|]. unfold bytes. cbn. rewrite wrapu_small by (unfold in_u; lia). done.
Qed.

Lemma intermediate_entry_ok n : 0 <= n < 2 ^ 63 -> entry_ok (intermediate_entry n) /\ bytes (intermediate_entry n) = n * 4.
Proof.
  intros Hn. split; [apply entries_ok_gen; unfold kIntermediateAlignment; (done || lia || by right)|]. unfold bytes. cbn.
  rewrite wrapu_small by (unfold in_u; lia). done.
Qed.

(** ** Taking entries one by one *)

Section Taking.
Context (cudaSuccess : list cuda_call -> cuda_call -> bool) (check_status : cuda_call -> NVCVStatus).

Lemma get_all_cons_inv e es s s' ps : get_all cudaSuccess (e :: es) s = (s', Ok ps) ->
  exists s1 p ps', ps = p :: ps' /\ Workspace.get cudaSuccess e s = (s1, Ok p) /\ get_all cudaSuccess es s1 = (s', Ok ps').
Proof.
  cbn [get_all]. rewrite bind_run. destruct (Workspace.get cudaSuccess e s) as [s1 [p| |]]; [|done..]. rewrite bind_run.
  destruct (get_all cudaSuccess es s1) as [s2 [ps'| |]] eqn:E; [|done..]. intros [= <- <-]. by exists s1, p, ps'.
Qed.

Lemma get_all_app_inv es1 es2 s s' ps : get_all cudaSuccess (es1 ++ es2) s = (s', Ok ps) ->
  exists s1 ps1 ps2, ps = ps1 ++ ps2 /\ get_all cudaSuccess es1 s = (s1, Ok ps1) /\ get_all cudaSuccess es2 s1 = (s', Ok ps2).
Proof.
  revert s ps. induction es1 as [|e es1 IH]; intros s ps E; [by exists s, [], ps|].
  apply get_all_cons_inv in E as (s1 & p & ps' & -> & E1 & E2). destruct (IH _ _ E2) as (s2 & ps1 & ps2 & -> & E3 & E4).
  exists s2, (p :: ps1), ps2. split_and!; [done| |done]. cbn [get_all]. by rewrite bind_run, E1, bind_run, E3.
Qed.

Lemma get_all_length es s s' ps : get_all cudaSuccess es s = (s', Ok ps) -> length ps = length es.
Proof.
  revert s ps. induction es as [|e es IH]; intros s ps E; [by injection E as <- <-|].
  apply get_all_cons_inv in E as (s1 & p & ps' & -> & _ & E). cbn. f_equal. by eapply IH.
Qed.

Lemma getPinned_run e h pm cm pm' p : Workspace.get cudaSuccess e pm = (pm', Ok p) ->
  getPinned cudaSuccess e (MkWsAlloc h pm cm) = (MkWsAlloc h pm' cm, Ok p).
Proof. intros E. unfold getPinned, on_pinnedMem. cbn. by rewrite E. Qed.

Lemma getCuda_run e h pm cm cm' p : Workspace.get cudaSuccess e cm = (cm', Ok p) ->
  getCuda cudaSuccess e (MkWsAlloc h pm cm) = (MkWsAlloc h pm cm', Ok p).
Proof. intros E. unfold getCuda, on_cudaMem. cbn. by rewrite E. Qed.

Lemma collect_meta w n l h pm cm pm' cm' ps qs :
  get_all cudaSuccess (replicate (length l) (meta_entry w n)) pm = (pm', Ok ps) ->
  get_all cudaSuccess (replicate (length l) (meta_entry w n)) cm = (cm', Ok qs) ->
  collect (fun _ : nat => AllocateDynamicBatchWrapMeta cudaSuccess n w) l (MkWsAlloc h pm cm) = (MkWsAlloc h pm' cm', Ok (zip ps qs)).
Proof.
  revert pm cm ps qs. induction l as [|x l IH]; intros pm cm ps qs E1 E2; [by injection E1 as <- <-; injection E2 as <- <-|].
  apply get_all_cons_inv in E1 as (pm1 & p & ps' & -> & G1 & E1). apply get_all_cons_inv in E2 as (cm1 & q & qs' & -> & G2 & E2).
  cbn [collect]. rewrite bind_run. unfold AllocateDynamicBatchWrapMeta at 1. rewrite bind_run, (getPinned_run _ _ _ _ _ _ G1).
  rewrite bind_run, (getCuda_run _ _ _ _ _ _ G2). cbn. by rewrite bind_run, (IH _ _ _ _ E1 E2).
Qed.

Lemma collect_cuda {A} (f : A -> outcome Z) l ns h pm cm cm' qs : Forall2 (fun x n => f x = Ok n) l ns ->
  get_all cudaSuccess (intermediate_entry <$> ns) cm = (cm', Ok qs) ->
  collect (fun x => n ← lift (f x); getCuda cudaSuccess (intermediate_entry n)) l (MkWsAlloc h pm cm) = (MkWsAlloc h pm cm', Ok qs).
Proof.
  intros HF. revert cm qs. induction HF as [|x n l ns Hx _ IH]; intros cm qs E; [by injection E as <- <-|].
  apply get_all_cons_inv in E as (cm1 & q & qs' & -> & G & E). cbn [collect]. rewrite bind_run.
  erewrite lift_run by exact Hx. rewrite (getCuda_run _ _ _ _ _ _ G). by rewrite bind_run, (IH _ _ E).
Qed.

(** Waiting changes nothing but the calls that were made. *)
Lemma wait_ready_run call s : (forall h c, cudaSuccess h c = true) ->
  exists s', wait_ready cudaSuccess check_status call s = (s', Ok tt) /\ m_mem s' = m_mem s /\ m_offset s' = m_offset s /\ m_released s' = m_released s.
Proof.
  intros Hok. unfold wait_ready. rewrite get_run. destruct (ready (m_mem s)); [|by exists s].
  unfold check_throw. rewrite Hok. by eexists.
Qed.
End Taking.

(** ** The volumes of the passes *)

(** The size of an intermediate buffer of a sample. *)
Definition pass_volume (d : SampleDesc) (t : nat) : Z := prod (shapes d !!! S t) * channels d.

(** The volumes of a sample between the passes are at most [V]. *)
Definition volumes_ok (N : nat) (V : Z) (d : SampleDesc) : Prop :=
  forall t, (t < kNumTmpBuffers N)%nat -> GetPassOutputVolume d t = Ok (pass_volume d t) /\ 0 <= pass_volume d t <= V.

Lemma desc_volumes N M inShape outShape c C d : shapes_ok N M inShape outShape -> desc_ok N M inShape outShape c d ->
  1 <= c <= C -> prod M * C < 2 ^ 63 -> volumes_ok N (prod M * C) d.
Proof.
  intros Hs Hd Hc HC t Ht. unfold kNumTmpBuffers in Ht. unfold GetPassOutputVolume, pass_volume. rewrite (do_channels _ _ _ _ _ _ Hd).
  assert (within M (shapes d !!! S t)) as Hw.
  { pose proof (do_within _ _ _ _ _ _ Hd) as HW. rewrite Forall_forall in HW. apply HW, list_elem_of_lookup_total_2. rewrite (do_count _ _ _ _ _ _ Hd). lia. }
  destruct (Volume_ok M _ (2 ^ 13) (so_bound _ _ _ _ Hs) Hw) as [-> _]. cbn [mbind outcome_bind]. pose proof (prod_within M _ Hw).
  assert (prod (shapes d !!! S t) * c <= prod M * C) by nia. rewrite int64_ok by (unfold in_s; nia). split; [done|nia].
Qed.

Lemma add_volumes_run N V d sizes : volumes_ok N V d -> length sizes = kNumTmpBuffers N ->
  (forall t, (t < kNumTmpBuffers N)%nat -> 0 <= sizes !!! t /\ sizes !!! t + V < 2 ^ 64) ->
  exists sizes', add_volumes N sizes d = Ok sizes' /\ length sizes' = kNumTmpBuffers N /\
    forall t, (t < kNumTmpBuffers N)%nat -> sizes' !!! t = sizes !!! t + pass_volume d t.
Proof.
  intros Hd Hl Hs. unfold add_volumes.
  destruct (mfold_list (fun sizes t => v ← GetPassOutputVolume d t; Ok (<[t := wrapu 64 (sizes !!! t + v)]> sizes))
    (fun pre s' => length s' = kNumTmpBuffers N /\ forall t, (t < kNumTmpBuffers N)%nat ->
       s' !!! t = sizes !!! t + (if decide (t < length pre)%nat then pass_volume d t else 0)) (seq 0 (kNumTmpBuffers N)) sizes) as (s' & E & L & H).
  - split; [done|]. intros t Ht. rewrite decide_False by (cbn; lia). lia.
  - intros pre x post s1 E (L & H). apply seq_at in E as [-> Hlt]. destruct (Hd _ Hlt) as [-> Hv]. cbn [mbind outcome_bind]. eexists. split; [done|].
    rewrite length_insert, length_app, Nat.add_1_r. split; [done|]. intros t Ht. destruct (Hs t Ht) as [H1 H2]. destruct (decide (t = length pre)) as [->|Hne].
    + rewrite list_lookup_total_insert_eq by lia. rewrite H by done. rewrite decide_False, decide_True by lia.
      rewrite wrapu_small by (unfold in_u; lia). lia.
    + rewrite list_lookup_total_insert_ne by done. rewrite H by done. destruct (decide (t < length pre)%nat), (decide (t < S (length pre))%nat); lia.
  - exists s'. split_and!; [done|done|]. intros t Ht. rewrite length_seq in H. rewrite H by done. by rewrite decide_True.
Qed.

(** The sizes of the intermediate buffers of a batch. *)
Definition batch_size (ds : list SampleDesc) (t : nat) : Z := foldr (fun d a => pass_volume d t + a) 0 ds.

Lemma batch_size_app a b t : batch_size (a ++ b) t = batch_size a t + batch_size b t.
Proof. unfold batch_size. induction a as [|d a IH]; cbn in *; lia. Qed.

Lemma batch_size_bounds N V ds t : Forall (volumes_ok N V) ds -> (t < kNumTmpBuffers N)%nat -> 0 <= V ->
  0 <= batch_size ds t <= Z.of_nat (length ds) * V.
Proof.
  intros Hd Ht HV. induction Hd as [|d ds Hd _ IH]; [cbn; lia|]. destruct (Hd t Ht) as [_ Hv].
  change (batch_size (d :: ds) t) with (pass_volume d t + batch_size ds t). cbn [length]. nia.
Qed.

(** Adding up over the samples, as both loops do. *)
Lemma add_all_volumes N V ds : Forall (volumes_ok N V) ds -> 0 <= V -> Z.of_nat (length ds) * V < 2 ^ 63 -> V < 2 ^ 63 ->
  mfold (fun sizes d => add_volumes N sizes d) ds (replicate (kNumTmpBuffers N) 0) = Ok (batch_size ds <$> seq 0 (kNumTmpBuffers N)).
Proof.
  intros Hd HV Hlt HV2. destruct (mfold_list (fun sizes d => add_volumes N sizes d)
    (fun pre s' => length s' = kNumTmpBuffers N /\ forall t, (t < kNumTmpBuffers N)%nat -> s' !!! t = batch_size pre t)
    ds (replicate (kNumTmpBuffers N) 0)) as (s' & -> & L & H).
  - split; [apply length_replicate|]. intros t Ht. by rewrite lookup_total_replicate_2.
  - intros pre d post s1 -> [L H]. apply Forall_app in Hd as [Hpre Hd]. apply Forall_cons in Hd as [Hd _].
    destruct (add_volumes_run N V d s1 Hd L) as (s2 & E & L2 & H2).
    { intros t Ht. rewrite H by done. pose proof (batch_size_bounds N V pre t Hpre Ht HV). rewrite length_app in Hlt. cbn in Hlt. nia. }
    rewrite E. exists s2. split_and!; [done..|]. intros t Ht. rewrite H2, H, batch_size_app by done. cbn. lia.
  - f_equal. apply list_eq_total; [by rewrite length_fmap, length_seq|]. intros t Ht. rewrite L in Ht. rewrite H by done. by rewrite map_seq_total.
Qed.

(** The loop of the call over the samples keeps the descriptions and adds up. *)
Lemma mfold_setups N setups ds acc sizes sizes' : Forall2 (fun o d => o = Ok d) setups ds ->
  mfold (fun sizes d => add_volumes N sizes d) ds sizes = Ok sizes' ->
  mfold (fun '(ds, sizes) (setup : outcome SampleDesc) => d ← setup; sizes ← add_volumes N sizes d; Ok (ds ++ [d], sizes)) setups (acc, sizes) =
    Ok (acc ++ ds, sizes').
Proof.
  intros HF. revert acc sizes. induction HF as [|o d setups ds -> _ IH]; intros acc sizes; cbn [mfold]; [by intros [= ->]; rewrite app_nil_r|].
  intros (s1 & E & Hs)%bind_Ok. cbn [mbind outcome_bind]. rewrite E. cbn [mbind outcome_bind].
  rewrite (IH (acc ++ [d]) s1 Hs). by rewrite <- app_assoc.
Qed.

(** ** What the calls take *)

Definition pinned_entries (N : nat) (wide : bool) (n : Z) : list entry :=
  desc_entry N n :: replicate (kNumTmpBuffers N) (meta_entry wide n).
Definition cuda_entries (N : nat) (wide : bool) (n : Z) (sizes : list Z) : list entry :=
  (desc_entry N n :: replicate (kNumTmpBuffers N) (meta_entry wide n)) ++ (intermediate_entry <$> sizes).

(** Memory in which entries can be taken one after the other. *)
Definition serves (m : WorkspaceMem) (es : list entry) : Prop :=
  Forall entry_ok es /\ foldl need 0 es <= 2 ^ 62 /\ foldl need 0 es <= size (req m) /\ Forall (fun e => (e_alignment e | data m)) es.

Section Calls.
Context (cudaSuccess : list cuda_call -> cuda_call -> bool) (check_status : cuda_call -> NVCVStatus).
Context (Hcuda : forall h c, cudaSuccess h c = true).
#[local] Set Default Proof Using "Type*".

Lemma serves_run m es s : serves m es -> m_mem s = m -> m_offset s = 0 -> m_released s = false ->
  exists s' ps, get_all cudaSuccess es s = (s', Ok ps) /\ laid_out (data m) (data m + size (req m)) es ps.
Proof.
  intros (Hok & H1 & H2 & Hal) <- Ho Hr.
  destruct (get_all_ok cudaSuccess es s Hcuda Hok Hr) as (s' & ps & E & _ & HL); rewrite ?Ho; try done; [lia|].
  exists s', ps. split; [done|]. rewrite Ho, Z.add_0_r in HL. eapply laid_out_hi; [|exact HL]. lia.
Qed.

(** A call with batches succeeds on memory that serves its entries, and its
    buffers are apart from each other, inside the memory and aligned. *)
Lemma take_batch_ok N V wide stream setups ds ws :
  Forall2 (fun o d => o = Ok d) setups ds -> Forall (volumes_ok N V) ds -> 0 <= V -> Z.of_nat (length ds) * V < 2 ^ 63 -> V < 2 ^ 63 ->
  let n := Z.of_nat (length ds) in let sizes := batch_size ds <$> seq 0 (kNumTmpBuffers N) in
  serves (pinnedMem ws) (pinned_entries N wide n) -> serves (cudaMem ws) (cuda_entries N wide n sizes) ->
  exists s' b, take_batch_buffers cudaSuccess check_status N stream setups wide (Ok tt) (make_ws_allocator ws) = (s', Ok (ds, b)) /\
    laid_out (data (pinnedMem ws)) (data (pinnedMem ws) + size (req (pinnedMem ws))) (pinned_entries N wide n) (sampleDescsCpu b :: (intermediateMeta b).*1) /\
    laid_out (data (cudaMem ws)) (data (cudaMem ws) + size (req (cudaMem ws))) (cuda_entries N wide n sizes) (sampleDescsGpu b :: (intermediateMeta b).*2 ++ intermediate b).
Proof.
  intros Hsetups Hv HV Hlt HV2 n sizes Hp Hc. unfold take_batch_buffers, make_ws_allocator. rewrite (Forall2_length _ _ _ Hsetups). fold n.
  destruct (wait_ready_run cudaSuccess check_status cudaEventSynchronize (make_allocator (pinnedMem ws) None None) Hcuda) as (pm & Ep & Mp & Op & Rp).
  destruct (wait_ready_run cudaSuccess check_status (cudaStreamWaitEvent stream) (make_allocator (cudaMem ws) None None) Hcuda) as (cm & Ec & Mc & Oc & Rc).
  destruct (serves_run (pinnedMem ws) _ pm Hp Mp Op Rp) as (pm' & ps & Gp & Lp). destruct (serves_run (cudaMem ws) _ cm Hc Mc Oc Rc) as (cm' & qs & Gc & Lc).
  unfold pinned_entries in Gp. apply get_all_cons_inv in Gp as (pm1 & p & ps' & -> & G1 & Gp).
  unfold cuda_entries in Gc. cbn [app] in Gc. apply get_all_cons_inv in Gc as (cm1 & q & qs' & -> & G2 & Gc).
  apply get_all_app_inv in Gc as (cm2 & q1 & q2 & -> & Gm & Gi).
  assert (length (seq 0 (kNumTmpBuffers N)) = kNumTmpBuffers N) as Els by apply length_seq.
  rewrite bind_run. unfold on_pinnedMem at 1. cbn [pinnedAlloc hostAlloc cudaAlloc]. rewrite Ep.
  rewrite bind_run. unfold on_cudaMem at 1. cbn [pinnedAlloc hostAlloc cudaAlloc]. rewrite Ec.
  rewrite bind_run, (getPinned_run _ _ _ _ _ _ _ G1), bind_run, (getCuda_run _ _ _ _ _ _ _ G2).
  erewrite lift_run by exact (mfold_setups N setups ds [] _ sizes Hsetups (add_all_volumes N V ds Hv HV Hlt HV2)).
  cbv beta iota. erewrite lift_run by done.
  rewrite bind_run, (collect_meta _ wide n (seq 0 (kNumTmpBuffers N)) _ pm1 cm1 pm' cm2 ps' q1) by (by rewrite Els).
  assert (collect (fun n => getCuda cudaSuccess (intermediate_entry n)) sizes (MkWsAlloc (make_allocator (hostMem ws) None None) pm' cm2) =
    (MkWsAlloc (make_allocator (hostMem ws) None None) pm' cm', Ok q2)) as Hi.
  { apply (collect_cuda cudaSuccess Ok sizes sizes); [|exact Gi]. clear. induction sizes; by constructor. }
  rewrite bind_run, Hi. eexists _, _. split; [done|]. cbn [sampleDescsCpu sampleDescsGpu intermediateMeta intermediate].
  assert (length ps' = length q1) as El by (by rewrite (get_all_length _ _ _ _ _ Gp), (get_all_length _ _ _ _ _ Gm)).
  rewrite fst_zip, snd_zip by lia. by split.
Qed.
End Calls.

(** ** What the requirements promise *)

Lemma iter_meta T n est : Nat.iter T (fun est => AddDynamicBatchWrapMeta est n) est =
  MkReq (hostReq est) (foldl add (pinnedReq est) (replicate T (meta_entry true n))) (foldl add (cudaReq est) (replicate T (meta_entry true n))).
Proof.
  revert est. induction T as [|T IH]; intros est; [by destruct est|]. rewrite Nat.iter_succ_r, IH. by destruct est.
Qed.

Lemma foldl_intermediate sizes est : foldl (fun est n => addCuda est (intermediate_entry n)) est sizes =
  MkReq (hostReq est) (pinnedReq est) (foldl add (cudaReq est) (intermediate_entry <$> sizes)).
Proof. revert est. induction sizes as [|x sizes IH]; intros est; [by destruct est|]. cbn. by rewrite IH. Qed.

(** The estimate of a batch, by kinds of memory. *)
Definition batch_estimate (N : nat) (n : Z) (sizes : list Z) : WorkspaceRequirements :=
  MkReq (WorkspaceMemEstimator 0 16) (foldl add (WorkspaceMemEstimator 0 256) (pinned_entries N true n))
        (foldl add (WorkspaceMemEstimator 0 256) (cuda_entries N true n sizes)).

Lemma batch_estimate_run N n sizes :
  foldl (fun est n => addCuda est (intermediate_entry n))
    (Nat.iter (kNumTmpBuffers N) (fun est => AddDynamicBatchWrapMeta est n) (addCuda (addPinned WorkspaceEstimator (desc_entry N n)) (desc_entry N n))) sizes =
  batch_estimate N n sizes.
Proof.
  rewrite iter_meta, foldl_intermediate. cbn [hostReq pinnedReq cudaReq]. unfold batch_estimate, pinned_entries, cuda_entries. by rewrite foldl_app.
Qed.

Lemma needs_upper es o : Forall entry_ok es -> 0 <= o ->
  foldl need o es <= o + foldr (fun e a => bytes e + 2 * e_alignment e + a) 0 es.
Proof.
  intros Hok. revert o. induction Hok as [|e es He Hok IH]; intros o Ho; [cbn; lia|]. cbn [foldl foldr].
  pose proof (need_bounds o e He Ho). pose proof (entry_bytes e He). pose proof (IH (need o e) ltac:(lia)).
  assert (0 < e_alignment e) as Ha by (apply pow2_word_range, He).
  destruct (RoundUp_spec o (e_alignment e)) as [? _]; [lia..|]. destruct (RoundUp_spec (bytes e) (e_alignment e)) as [? _]; [lia..|].
  unfold need in *. lia.
Qed.

(** A workspace that meets requirements. *)
Definition meets (ws : NVCVWorkspace) (r : WorkspaceRequirements) : Prop :=
  forall k, covers (req_for k r) (req (mem_for k ws)) /\ (alignment (req (mem_for k ws)) | data (mem_for k ws)).

(** Memory that meets the requirement of some entries serves entries that need less. *)
Lemma aligned_serves base es es' m : pow2_word base -> base <= 2 ^ 30 -> Forall entry_ok es -> Forall (fun e => e_alignment e <= 2 ^ 30) es ->
  foldl need 0 es <= 2 ^ 62 -> Forall entry_ok es' -> foldl need 0 es' <= foldl need 0 es ->
  Forall (fun e' => Exists (fun e => e_alignment e' = e_alignment e) es) es' ->
  covers (AlignUpReq (foldl add (WorkspaceMemEstimator 0 base) es)) (req m) -> (alignment (req m) | data m) -> serves m es'.
Proof.
  intros Hb Hb2 Hok Hal Hfit Hok' Hle Hsame [Hsz Hdiv] Hdata.
  destruct (add_covers es (WorkspaceMemEstimator 0 base) Hok Hb) as (_ & HA & HE); [cbn; lia|cbn [WorkspaceMemEstimator size]; lia|].
  set (r := foldl add (WorkspaceMemEstimator 0 base) es) in *.
  assert (pow2_word (alignment r)) as Hp by (by apply add_alignment_pow2). pose proof (pow2_word_range _ Hp).
  assert (alignment r <= 2 ^ 30) by (by apply add_alignment_le). pose proof (needs_le es 0 Hok ltac:(lia)). cbn [WorkspaceMemEstimator size] in HE.
  unfold AlignUpReq in *. cbn [size alignment] in *. rewrite AlignUp_RoundUp in Hsz by (done || lia).
  destruct (RoundUp_spec (size r) (alignment r)) as [? _]; [lia..|]. split_and!; [done|lia|lia|].
  eapply Forall_impl; [exact Hsame|]. intros e' (e & Hin & ->)%Exists_exists. rewrite Forall_forall in HA.
  etrans; [by apply HA|]. by etrans.
Qed.

Lemma inter_entries_ok sizes : Forall (fun x => 0 <= x < 2 ^ 63) sizes ->
  Forall entry_ok (intermediate_entry <$> sizes) /\ Forall (fun e => e_alignment e = 16) (intermediate_entry <$> sizes).
Proof.
  intros Hs. split; apply Forall_fmap; (eapply Forall_impl; [exact Hs|]); intros x Hx; [by apply intermediate_entry_ok|done].
Qed.

Lemma inter_entries_le sizes sizes' : Forall2 (fun x x' => 0 <= x <= x' /\ x' < 2 ^ 63) sizes sizes' ->
  Forall2 entry_le (intermediate_entry <$> sizes) (intermediate_entry <$> sizes').
Proof.
  intros HF. apply Forall2_fmap. eapply Forall2_impl; [exact HF|]. intros x x' [? ?]. split; [done|].
  destruct (intermediate_entry_ok x ltac:(lia)) as [_ ->]. destruct (intermediate_entry_ok x' ltac:(lia)) as [_ ->]. lia.
Qed.

Section Sizes.
Context (N : nat) (HN : N = 2%nat \/ N = 3%nat).
#[local] Set Default Proof Using "Type*".

Lemma buffers_pos : (1 <= kNumTmpBuffers N <= 2)%nat.
Proof. unfold kNumTmpBuffers. lia. Qed.

Lemma sizeof_desc_bounds : 0 < sizeof_SampleDesc N <= 216.
Proof. unfold sizeof_SampleDesc. destruct (N =? 2)%nat; lia. Qed.

Lemma head_entries_ok w n : 0 <= n < 2 ^ 31 ->
  Forall entry_ok (pinned_entries N w n) /\ Forall (fun e => e_alignment e = 8) (pinned_entries N w n) /\
  foldl need 0 (pinned_entries N w n) <= 2 ^ 40.
Proof.
  intros Hn. destruct (desc_entry_ok N n ltac:(lia)) as [D1 D2]. destruct (meta_entry_ok w n ltac:(lia)) as [M1 M2].
  assert (Forall entry_ok (pinned_entries N w n)) as Hok by (constructor; [done|by apply Forall_replicate]).
  split_and!; [done|constructor; [done|by apply Forall_replicate]|].
  etrans; [by apply needs_upper|]. pose proof sizeof_desc_bounds. assert (sizeof_TensorAccessDesc w <= 32) by (by destruct w).
  unfold pinned_entries, kNumTmpBuffers. destruct HN as [->| ->]; cbn [Nat.sub replicate foldr]; rewrite D2, M2; cbn [e_alignment desc_entry meta_entry]; nia.
Qed.

Lemma cuda_entries_ok w n sizes V : 0 <= n < 2 ^ 31 -> Forall (fun x => 0 <= x <= V) sizes -> V <= 2 ^ 57 -> length sizes = kNumTmpBuffers N ->
  Forall entry_ok (cuda_entries N w n sizes) /\ Forall (fun e => e_alignment e = 8 \/ e_alignment e = 16) (cuda_entries N w n sizes) /\
  foldl need 0 (cuda_entries N w n sizes) <= 2 ^ 62.
Proof.
  intros Hn Hs HV Hl. destruct (head_entries_ok w n Hn) as (H1 & H2 & H3).
  destruct (inter_entries_ok sizes) as [I1 I2]; [eapply Forall_impl; [exact Hs|cbn; lia]|].
  split_and!; [by apply Forall_app|apply Forall_app; split; [eapply Forall_impl; [exact H2|cbn; lia]|eapply Forall_impl; [exact I2|cbn; lia]]|].
  change (cuda_entries N w n sizes) with (pinned_entries N w n ++ (intermediate_entry <$> sizes)). rewrite foldl_app.
  pose proof (needs_le _ 0 H1 ltac:(lia)). etrans; [by apply needs_upper|].
  assert (foldr (fun e a => bytes e + 2 * e_alignment e + a) 0 (intermediate_entry <$> sizes) <= Z.of_nat (length sizes) * (4 * V + 32)) as HS.
  { clear I1 I2 Hl. induction Hs as [|x sizes Hx _ IH]; [cbn; lia|]. destruct (intermediate_entry_ok x ltac:(lia)) as [_ Eb].
    cbn [fmap list_fmap foldr length]. rewrite Eb. cbn [e_alignment intermediate_entry] in *. unfold kIntermediateAlignment in *. lia. }
  pose proof buffers_pos. nia.
Qed.

Lemma head_entries_le w n n' : 0 <= n <= n' -> n' < 2 ^ 31 -> Forall2 entry_le (pinned_entries N w n) (pinned_entries N true n').
Proof.
  intros Hn Hn'. pose proof sizeof_desc_bounds. constructor.
  - split; [done|]. destruct (desc_entry_ok N n ltac:(lia)) as [_ ->]. destruct (desc_entry_ok N n' ltac:(lia)) as [_ ->]. nia.
  - apply Forall2_replicate. split; [done|]. destruct (meta_entry_ok w n ltac:(lia)) as [_ ->]. destruct (meta_entry_ok true n' ltac:(lia)) as [_ ->].
    destruct w; cbn; lia.
Qed.

(** A workspace for a batch of [n'] samples with buffers of [sizes'] serves one of
    at most as many samples with buffers no larger, and a uniform batch. *)
Lemma batch_estimate_serves ws n' sizes' V : 0 <= n' < 2 ^ 31 -> length sizes' = kNumTmpBuffers N -> Forall (fun x => 0 <= x <= V) sizes' -> V <= 2 ^ 57 ->
  meets ws (AlignUpReqs (batch_estimate N n' sizes')) ->
  forall n sizes wide, 0 <= n <= n' -> Forall2 (fun x x' => 0 <= x <= x') sizes sizes' ->
    serves (pinnedMem ws) (pinned_entries N wide n) /\ serves (cudaMem ws) (cuda_entries N wide n sizes) /\
    serves (cudaMem ws) (intermediate_entry <$> sizes).
Proof.
  intros Hn' Hl' Hs' HV Hm n sizes wide Hn Hss. pose proof (Forall2_length _ _ _ Hss) as Hl.
  destruct (head_entries_ok true n' Hn') as (P1 & P2 & P3). destruct (head_entries_ok wide n ltac:(lia)) as (Q1 & Q2 & _).
  destruct (cuda_entries_ok true n' sizes' V Hn' Hs' HV Hl') as (C1 & C2 & C3).
  assert (Forall2 (fun x x' => 0 <= x <= x' /\ x' < 2 ^ 63) sizes sizes') as Hss2.
  { apply Forall2_same_length_lookup_2; [done|]. intros i x x' Hx Hx'. rewrite Forall_forall in Hs'.
    pose proof (Forall2_lookup_lr _ _ _ _ _ _ Hss Hx Hx'). specialize (Hs' x' (list_elem_of_lookup_2 _ _ _ Hx')). cbn in *. lia. }
  assert (Forall (fun x => 0 <= x <= V) sizes) as Hs.
  { apply Forall_lookup. intros i x Hx. destruct (Forall2_lookup_l _ _ _ _ _ Hss2 Hx) as (x' & Hx' & ?). rewrite Forall_forall in Hs'.
    specialize (Hs' x' (list_elem_of_lookup_2 _ _ _ Hx')). cbn in *. lia. }
  destruct (cuda_entries_ok wide n sizes V ltac:(lia) Hs HV ltac:(lia)) as (D1 & D2 & _).
  destruct (inter_entries_ok sizes) as [I1 I2]; [eapply Forall_impl; [exact Hs|cbn; lia]|].
  destruct (Hm host_pinned_mem) as [Hcp Hdp]. destruct (Hm cuda_mem) as [Hcc Hdc]. cbn [req_for mem_for AlignUpReqs batch_estimate pinnedReq cudaReq] in *.
  assert (pow2_word 256) as H256 by (exists 8; split; [lia|done]).
  assert (Exists (fun e => 8 = e_alignment e) (cuda_entries N true n' sizes')) as X8 by (by left).
  assert (Exists (fun e => 16 = e_alignment e) (cuda_entries N true n' sizes')) as X16.
  { apply Exists_app. right. pose proof buffers_pos. destruct sizes'; [cbn in *; lia|]. by left. }
  split_and!.
  - apply (aligned_serves 256 (pinned_entries N true n')); try done; [eapply Forall_impl; [exact P2|cbn; lia]|lia| |].
    + apply needs_mono; [apply head_entries_le; lia|done|lia].
    + eapply Forall_impl; [exact Q2|]. intros e ->. by left.
  - apply (aligned_serves 256 (cuda_entries N true n' sizes')); try done; [eapply Forall_impl; [exact C2|cbn; lia]| |].
    + apply needs_mono; [|done|lia]. apply Forall2_app; [apply head_entries_le; lia|by apply inter_entries_le].
    + eapply Forall_impl; [exact D2|]. intros e [->| ->]; done.
  - apply (aligned_serves 256 (cuda_entries N true n' sizes')); try done; [eapply Forall_impl; [exact C2|cbn; lia]| |].
    + change (cuda_entries N true n' sizes') with (pinned_entries N true n' ++ (intermediate_entry <$> sizes')). rewrite foldl_app.
      apply needs_mono; [by apply inter_entries_le|done|]. split; [lia|]. apply needs_le; (done || lia).
    + eapply Forall_impl; [exact I2|]. by intros e ->.
Qed.
End Sizes.

(** ** Every call is served *)

Record sample := MkSample { in_shape : list Z; out_shape : list Z; n_channels : Z; s_roi : option HQResizeRoiF }.

(** A sample within a maximal shape and number of channels. *)
Definition sample_ok (N : nat) (M : list Z) (C : Z) (sm : sample) : Prop :=
  shapes_ok N M (in_shape sm) (out_shape sm) /\ roi_ok (s_roi sm) /\ 1 <= n_channels sm <= C.

Definition setup_of (factory : ResamplingFiltersFactory) (lanes : Z) (N : nat) (minFilter magFilter : FilterMode) (sm : sample) : outcome SampleDesc :=
  SetupSampleDesc true factory lanes N (in_shape sm) (out_shape sm) (n_channels sm) (s_roi sm) minFilter magFilter.

Section Served.
Context (cudaSuccess : list cuda_call -> cuda_call -> bool) (check_status : cuda_call -> NVCVStatus).
Context (Hcuda : forall h c, cudaSuccess h c = true).
Context (factory : ResamplingFiltersFactory) (Hfactory : m_filters factory = base_filters).
Context (lanes : Z) (Hlanes : 1 <= lanes <= 2 ^ 25) (N : nat) (HN : N = 2%nat \/ N = 3%nat).
Context (minFilter magFilter : FilterMode) (M : list Z) (C : Z).
#[local] Set Default Proof Using "Type*".

Abbreviation setup_sample := (setup_of factory lanes N minFilter magFilter).
Abbreviation V := (prod M * C).

Lemma setup_sample_ok sm : sample_ok N M C sm -> V < 2 ^ 63 -> exists d, setup_sample sm = Ok d /\ volumes_ok N V d.
Proof.
  intros (Hs & Hr & Hc) HV. destruct (SetupSampleDesc_ok factory Hfactory lanes Hlanes N HN M _ _ (n_channels sm) (s_roi sm) minFilter magFilter Hs Hr) as (d & E & Hd).
  exists d. split; [exact E|]. by eapply desc_volumes.
Qed.

Lemma setup_samples_ok samples : Forall (sample_ok N M C) samples -> V < 2 ^ 63 ->
  exists ds, Forall2 (fun o d => o = Ok d) (setup_sample <$> samples) ds /\ Forall (volumes_ok N V) ds /\ length ds = length samples.
Proof.
  intros Hs HV. induction Hs as [|sm samples Hsm _ (ds & H1 & H2 & H3)]; [by exists []|].
  destruct (setup_sample_ok sm Hsm HV) as (d & E & Hd). exists (d :: ds). cbn. split_and!; [by constructor|by constructor|lia].
Qed.

(** Memory for [n'] samples with buffers of [sizes'] serves calls with batches. *)
Lemma batch_call_ok ws n' sizes' samples ds wide stream : 0 <= V -> V * Z.max 1 n' <= 2 ^ 57 -> 0 <= n' < 2 ^ 31 ->
  length sizes' = kNumTmpBuffers N -> Forall (fun x => 0 <= x <= 2 ^ 57) sizes' -> meets ws (AlignUpReqs (batch_estimate N n' sizes')) ->
  Forall2 (fun o d => o = Ok d) (setup_sample <$> samples) ds -> Forall (volumes_ok N V) ds -> Z.of_nat (length ds) <= n' ->
  Forall2 (fun x x' => 0 <= x <= x') (batch_size ds <$> seq 0 (kNumTmpBuffers N)) sizes' ->
  exists s' b, take_batch_buffers cudaSuccess check_status N stream (setup_sample <$> samples) wide (Ok tt) (make_ws_allocator ws) = (s', Ok (ds, b)) /\
    laid_out (data (pinnedMem ws)) (data (pinnedMem ws) + size (req (pinnedMem ws)))
      (pinned_entries N wide (Z.of_nat (length ds))) (sampleDescsCpu b :: (intermediateMeta b).*1) /\
    laid_out (data (cudaMem ws)) (data (cudaMem ws) + size (req (cudaMem ws)))
      (cuda_entries N wide (Z.of_nat (length ds)) (batch_size ds <$> seq 0 (kNumTmpBuffers N))) (sampleDescsGpu b :: (intermediateMeta b).*2 ++ intermediate b).
Proof.
  intros HV0 HV Hn' Hl Hs' Hm Hset Hv Hle Hsz.
  destruct (batch_estimate_serves N HN ws n' sizes' (2 ^ 57) Hn' Hl Hs' ltac:(lia) Hm (Z.of_nat (length ds)) _ wide ltac:(lia) Hsz) as (Sp & Sc & _).
  apply (take_batch_ok cudaSuccess check_status Hcuda N V); try done; [nia|nia].
Qed.

Lemma batch_sizes_le ds n' : Forall (volumes_ok N V) ds -> 0 <= V -> Z.of_nat (length ds) <= n' ->
  Forall2 (fun x x' => 0 <= x <= x') (batch_size ds <$> seq 0 (kNumTmpBuffers N)) (replicate (kNumTmpBuffers N) (prod M * n' * C)).
Proof.
  intros Hv HV Hle. apply Forall2_same_length_lookup_2; [by rewrite length_fmap, length_seq, length_replicate|].
  intros t x x' Hx [-> Ht]%lookup_replicate. rewrite list_lookup_fmap, lookup_seq_lt in Hx by done. injection Hx as <-.
  destruct (batch_size_bounds N V ds t Hv Ht HV). nia.
Qed.

(** The same for a uniform batch. *)
Lemma tensor_call_ok ws n' d n stream : 0 <= V -> V * Z.max 1 n' <= 2 ^ 57 -> volumes_ok N V d -> 0 <= n <= n' ->
  let sizes := (fun t => pass_volume d t * n) <$> seq 0 (kNumTmpBuffers N) in serves (cudaMem ws) (intermediate_entry <$> sizes) ->
  exists s' ps, tensor_buffers cudaSuccess check_status N stream d n (make_ws_allocator ws) = (s', Ok ps) /\
    laid_out (data (cudaMem ws)) (data (cudaMem ws) + size (req (cudaMem ws))) (intermediate_entry <$> sizes) ps.
Proof.
  intros HV0 HV Hd Hn sizes Hserve. unfold tensor_buffers, make_ws_allocator.
  destruct (wait_ready_run cudaSuccess check_status (cudaStreamWaitEvent stream) (make_allocator (cudaMem ws) None None) Hcuda) as (cm & Ec & Mc & Oc & Rc).
  destruct (serves_run cudaSuccess Hcuda (cudaMem ws) _ cm Hserve Mc Oc Rc) as (cm' & ps & G & L).
  rewrite bind_run. unfold on_cudaMem at 1. cbn [pinnedAlloc hostAlloc cudaAlloc]. rewrite Ec.
  rewrite (collect_cuda cudaSuccess (fun t => v ← GetPassOutputVolume d t; int64 (v * n)) (seq 0 (kNumTmpBuffers N)) sizes _ _ cm cm' ps); [|
    |exact G]; [by eexists _, ps|].
  apply Forall2_fmap_r, Forall_Forall2_diag, Forall_forall. intros t Ht%elem_of_seq. destruct (Hd t ltac:(lia)) as [-> Hv]. cbn [mbind outcome_bind].
  assert (0 <= pass_volume d t * n <= V * Z.max 1 n') by nia. apply int64_ok. unfold in_s. lia.
Qed.

Lemma tensor_sizes_le d n n' : volumes_ok N V d -> 0 <= V -> 0 <= n <= n' ->
  Forall2 (fun x x' => 0 <= x <= x') ((fun t => pass_volume d t * n) <$> seq 0 (kNumTmpBuffers N)) (replicate (kNumTmpBuffers N) (prod M * n' * C)).
Proof.
  intros Hd HV Hn. apply Forall2_same_length_lookup_2; [by rewrite length_fmap, length_seq, length_replicate|].
  intros t x x' Hx [-> Ht]%lookup_replicate. rewrite list_lookup_fmap, lookup_seq_lt in Hx by done. injection Hx as <-.
  destruct (Hd t Ht) as [_ Hv]. cbn [Nat.add]. nia.
Qed.
End Served.

Lemma getMax_run N n' maxShape M : N = 2%nat \/ N = 3%nat -> TensorShape N maxShape = Ok M -> s_ndim maxShape = Z.of_nat N ->
  bound_ok M (2 ^ 13) -> 1 <= HQResize.numChannels maxShape -> 0 <= n' -> prod M * HQResize.numChannels maxShape * Z.max 1 n' <= 2 ^ 57 ->
  HQResize_getMaxRequirements n' maxShape =
    Ok (AlignUpReqs (batch_estimate N n' (replicate (kNumTmpBuffers N) (prod M * n' * HQResize.numChannels maxShape)))).
Proof.
  intros HN HM Hndim HB HC Hn' Hfit. unfold HQResize_getMaxRequirements, by_ndim. rewrite Hndim.
  assert ((if Z.of_nat N =? 2 then getMaxRequirements 2 n' maxShape else if Z.of_nat N =? 3 then getMaxRequirements 3 n' maxShape
    else Throw NVCV_ERROR_INVALID_ARGUMENT) = getMaxRequirements N n' maxShape) as -> by (by destruct HN as [->| ->]).
  unfold getMaxRequirements, inOutNumberOfChannels. rewrite Z.eqb_refl. cbn [negb throw_if].
  destruct (Z.leb_spec (HQResize.numChannels maxShape) 0); [lia|]. cbn [mbind outcome_bind throw_if]. rewrite HM. cbn [mbind outcome_bind].
  assert (within M M) as HW by (apply Forall_Forall2_diag; eapply Forall_impl; [apply HB|cbn; lia]).
  destruct (Volume_ok M M (2 ^ 13) HB HW) as [EV _]. pose proof (prod_ge_1 M (proj1 HB)).
  set (C := HQResize.numChannels maxShape) in *. assert (0 <= prod M * n' * C <= 2 ^ 57) by nia. assert (0 <= prod M * n' <= prod M * n' * C) by nia.
  rewrite EV. cbn [mbind outcome_bind]. rewrite int64_ok by (unfold in_s; lia). cbn [mbind outcome_bind].
  rewrite int64_ok by (unfold in_s; lia). cbn [mbind outcome_bind].
  match goal with |- (mfold ?f ?l ?s ≫= _) = _ => assert (forall est, mfold f l est = Ok (foldl (fun est n => addCuda est (intermediate_entry n)) est (replicate (kNumTmpBuffers N) (prod M * n' * C)))) as -> end.
  { generalize 0%nat at 1. induction (kNumTmpBuffers N) as [|T IH]; intros k est; [done|]. cbn [seq mfold replicate foldl mbind outcome_bind]. apply IH. }
  cbn [mbind outcome_bind]. by rewrite batch_estimate_run.
Qed.

(** The arrays of shapes and regions of a batch describe its samples. *)
Definition describes (N : nat) (inputShapes outputShapes : HQResizeTensorShapesI) (rois : HQResizeRoisF) (samples : list sample) : Prop :=
  Forall2 (fun i sm => SampleShape N inputShapes i = Ok (in_shape sm) /\ SampleShape N outputShapes i = Ok (out_shape sm) /\
      SampleRoi rois i = Ok (s_roi sm) /\ sample_channels inputShapes i = Ok (n_channels sm))
    (zrange 0 (Z.of_nat (length samples))) samples.

Lemma getBatch_run factory lanes N n inputShapes outputShapes minI magI antialias rois minFilter magFilter samples ds V :
  N = 2%nat \/ N = 3%nat -> shapes_ndim inputShapes = Z.of_nat N -> n = Z.of_nat (length samples) ->
  roiBatch n (Z.of_nat N) rois = Ok tt -> inOutShapes n inputShapes outputShapes = Ok tt ->
  GetFilterModes minI magI antialias = Ok (minFilter, magFilter) -> describes N inputShapes outputShapes rois samples ->
  Forall2 (fun o d => o = Ok d) (setup_of factory lanes N minFilter magFilter <$> samples) ds ->
  Forall (volumes_ok N V) ds -> 0 <= V -> V * Z.max 1 n <= 2 ^ 57 ->
  HQResize_getBatchRequirements true factory lanes n inputShapes outputShapes minI magI antialias rois =
    Ok (AlignUpReqs (batch_estimate N n (batch_size ds <$> seq 0 (kNumTmpBuffers N)))).
Proof.
  intros HN Hndim En H1 H2 H3 Hdesc Hset Hv HV Hfit. unfold HQResize_getBatchRequirements, by_ndim. rewrite Hndim.
  transitivity (getBatchRequirements true factory lanes N n inputShapes outputShapes minI magI antialias rois); [by destruct HN as [->| ->]|].
  unfold getBatchRequirements. rewrite H1, H2, H3. cbn [mbind outcome_bind]. rewrite En.
  assert (length samples = length ds) as El by (rewrite <- (Forall2_length _ _ _ Hset), length_fmap; done).
  rewrite (mfold_Forall2 _ (fun sizes d => add_volumes N sizes d) _ ds).
  2:{ apply Forall2_fmap_l in Hset. eapply Forall2_trans; [|exact Hdesc|exact Hset]. intros i sm d (-> & -> & -> & ->) Hd s.
      cbn [mbind outcome_bind compose] in *. unfold setup_of in Hd. by rewrite Hd. }
  rewrite (add_all_volumes N V) by (done || nia). cbn [mbind outcome_bind]. by rewrite batch_estimate_run.
Qed.

(** C16: One workspace for every call. A workspace that meets what
    [getWorkspaceRequirements] answers for a maximal shape and number of samples
    serves every call within them: a call with a batch, of whatever samples,
    regions, filters and width of strides, gets all its buffers, and so does a call
    with tensors; each buffer is aligned and lies inside the memory, apart from the
    others. *)
Theorem hq_max_workspace_serves cudaSuccess check_status expf sinf lanes N maxShape M n' minFilter magFilter
  (Hcuda : forall h c, cudaSuccess h c = true) (HN : N = 2%nat \/ N = 3%nat) (Hlanes : 1 <= lanes <= 2 ^ 25)
  (HM : TensorShape N maxShape = Ok M) (Hndim : s_ndim maxShape = Z.of_nat N) (HB : bound_ok M (2 ^ 13))
  (HC : 1 <= HQResize.numChannels maxShape) (Hn' : 0 <= n' < 2 ^ 31)
  (Hfit : prod M * HQResize.numChannels maxShape * Z.max 1 n' <= 2 ^ 57) :
  exists factory r, make_factory expf sinf = Ok factory /\ HQResize_getMaxRequirements n' maxShape = Ok r /\
    forall ws, meets ws r ->
      (forall samples wide stream, Forall (sample_ok N M (HQResize.numChannels maxShape)) samples -> Z.of_nat (length samples) <= n' ->
        exists s' ds b, take_batch_buffers cudaSuccess check_status N stream (setup_of factory lanes N minFilter magFilter <$> samples) wide (Ok tt)
            (make_ws_allocator ws) = (s', Ok (ds, b)) /\
          laid_out (data (pinnedMem ws)) (data (pinnedMem ws) + size (req (pinnedMem ws)))
            (pinned_entries N wide (Z.of_nat (length samples))) (sampleDescsCpu b :: (intermediateMeta b).*1) /\
          laid_out (data (cudaMem ws)) (data (cudaMem ws) + size (req (cudaMem ws)))
            (cuda_entries N wide (Z.of_nat (length samples)) (batch_size ds <$> seq 0 (kNumTmpBuffers N)))
            (sampleDescsGpu b :: (intermediateMeta b).*2 ++ intermediate b)) /\
      (forall sm n stream, sample_ok N M (HQResize.numChannels maxShape) sm -> 0 <= n <= n' ->
        exists d s' ps, setup_of factory lanes N minFilter magFilter sm = Ok d /\
          tensor_buffers cudaSuccess check_status N stream d n (make_ws_allocator ws) = (s', Ok ps) /\
          laid_out (data (cudaMem ws)) (data (cudaMem ws) + size (req (cudaMem ws)))
            (intermediate_entry <$> ((fun t => pass_volume d t * n) <$> seq 0 (kNumTmpBuffers N))) ps).
Proof.
  set (C := HQResize.numChannels maxShape) in *. set (factory := MkFactory base_filters (base_table expf sinf)).
  pose proof (prod_ge_1 M (proj1 HB)). assert (0 <= prod M * C) as HV0 by nia. assert (prod M * C < 2 ^ 63) as HV by nia.
  exists factory, (AlignUpReqs (batch_estimate N n' (replicate (kNumTmpBuffers N) (prod M * n' * C)))).
  split; [apply factory_filled|]. split; [apply (getMax_run N n' maxShape M); (done || lia)|]. intros ws Hm.
  assert (Forall (fun x => 0 <= x <= 2 ^ 57) (replicate (kNumTmpBuffers N) (prod M * n' * C))) as Hs' by (apply Forall_replicate; nia).
  assert (length (replicate (kNumTmpBuffers N) (prod M * n' * C)) = kNumTmpBuffers N) as Hl' by apply length_replicate.
  split.
  - intros samples wide stream Hsm Hle. destruct (setup_samples_ok factory eq_refl lanes Hlanes N HN minFilter magFilter M C samples Hsm HV) as (ds & Hset & Hv & El).
    rewrite <- El in *. destruct (batch_call_ok cudaSuccess check_status Hcuda factory eq_refl lanes Hlanes N HN minFilter magFilter M C ws n' _ samples ds wide stream HV0 Hfit Hn' Hl' Hs' Hm Hset Hv Hle)
      as (s' & b & ?); [by apply batch_sizes_le|]. by exists s', ds, b.
  - intros sm n stream Hsm Hn. destruct (setup_sample_ok factory eq_refl lanes Hlanes N HN minFilter magFilter M C sm Hsm HV) as (d & E & Hd).
    destruct (batch_estimate_serves N HN ws n' _ (2 ^ 57) Hn' Hl' Hs' ltac:(lia) Hm n _ true Hn (tensor_sizes_le N HN M C d n n' Hd HV0 Hn)) as (_ & _ & Hserve).
    destruct (tensor_call_ok cudaSuccess check_status Hcuda N HN M C ws n' d n stream HV0 Hfit Hd Hn Hserve) as (s' & ps & ?).
    by exists d, s', ps.
Qed.

(** C17: The requirements for the shapes of a batch. When the arrays of shapes and
    regions pass the checks and describe the samples, requirements are computed
    without overflow, and a workspace that meets them serves the call with a batch
    of these samples, with narrow or wide strides. *)
Theorem hq_batch_workspace_serves cudaSuccess check_status expf sinf lanes N inputShapes outputShapes minI magI antialias rois minFilter magFilter samples M C
  (Hcuda : forall h c, cudaSuccess h c = true) (HN : N = 2%nat \/ N = 3%nat) (Hlanes : 1 <= lanes <= 2 ^ 25)
  (Hndim : shapes_ndim inputShapes = Z.of_nat N) (Hrois : roiBatch (Z.of_nat (length samples)) (Z.of_nat N) rois = Ok tt)
  (Hshapes : inOutShapes (Z.of_nat (length samples)) inputShapes outputShapes = Ok tt)
  (Hmodes : GetFilterModes minI magI antialias = Ok (minFilter, magFilter)) (Hdesc : describes N inputShapes outputShapes rois samples)
  (Hsamples : Forall (sample_ok N M C) samples) (Hlen : Z.of_nat (length samples) < 2 ^ 31) (HM : 0 <= prod M * C)
  (Hfit : prod M * C * Z.max 1 (Z.of_nat (length samples)) <= 2 ^ 57) :
  exists factory r, make_factory expf sinf = Ok factory /\
    HQResize_getBatchRequirements true factory lanes (Z.of_nat (length samples)) inputShapes outputShapes minI magI antialias rois = Ok r /\
    forall ws wide stream, meets ws r ->
      exists s' ds b, take_batch_buffers cudaSuccess check_status N stream (setup_of factory lanes N minFilter magFilter <$> samples) wide (Ok tt)
          (make_ws_allocator ws) = (s', Ok (ds, b)) /\
        laid_out (data (pinnedMem ws)) (data (pinnedMem ws) + size (req (pinnedMem ws)))
          (pinned_entries N wide (Z.of_nat (length samples))) (sampleDescsCpu b :: (intermediateMeta b).*1) /\
        laid_out (data (cudaMem ws)) (data (cudaMem ws) + size (req (cudaMem ws)))
          (cuda_entries N wide (Z.of_nat (length samples)) (batch_size ds <$> seq 0 (kNumTmpBuffers N)))
          (sampleDescsGpu b :: (intermediateMeta b).*2 ++ intermediate b).
Proof.
  set (factory := MkFactory base_filters (base_table expf sinf)). assert (prod M * C < 2 ^ 63) as HV by nia.
  destruct (setup_samples_ok factory eq_refl lanes Hlanes N HN minFilter magFilter M C samples Hsamples HV) as (ds & Hset & Hv & El).
  exists factory, (AlignUpReqs (batch_estimate N (Z.of_nat (length samples)) (batch_size ds <$> seq 0 (kNumTmpBuffers N)))).
  split; [apply factory_filled|]. split; [by eapply getBatch_run|]. intros ws wide stream Hm. rewrite <- El in *.
  assert (Forall (fun x => 0 <= x <= 2 ^ 57) (batch_size ds <$> seq 0 (kNumTmpBuffers N))) as Hs'.
  { apply Forall_fmap, Forall_forall. intros t Ht%elem_of_seq. destruct (batch_size_bounds N (prod M * C) ds t Hv ltac:(lia) HM). cbn. nia. }
  destruct (batch_call_ok cudaSuccess check_status Hcuda factory eq_refl lanes Hlanes N HN minFilter magFilter M C ws (Z.of_nat (length ds))
    (batch_size ds <$> seq 0 (kNumTmpBuffers N)) samples ds wide stream HM Hfit) as (s' & b & ?); try done; [lia|by rewrite length_fmap, length_seq| |].
  { apply Forall_Forall2_diag, Forall_fmap, Forall_forall. intros t Ht%elem_of_seq.
    destruct (batch_size_bounds N (prod M * C) ds t Hv ltac:(lia) HM). cbn. lia. }
  by exists s', ds, b.
Qed.

Module Concrete.

Definition max_shape : HQResizeTensorShapeI := MkShape [480; 640; 0] 2 3.
Definition small : sample := MkSample [640; 480] [320; 240] 3 None.
Definition cuda_ok (h : list cuda_call) (c : cuda_call) : bool := true.
Definition any_status (c : cuda_call) : NVCVStatus := NVCV_ERROR_INTERNAL.
Definition bilinear : FilterMode := MkMode Linear false.

Lemma small_ok : sample_ok 2 [640; 480] 3 small.
Proof.
  split_and!; [|by intros r|cbn; lia..].
  constructor; [split_and!; [repeat constructor; lia|lia|cbn; lia]|repeat constructor; cbn; lia..|done].
Qed.

(** Memory from 4096 on for every kind. *)
Definition workspace (r : WorkspaceRequirements) : NVCVWorkspace := ws_of r 4096 4096 4096.

Lemma hq_max_workspace_serves_witness : exists factory r, make_factory (fun x => x) (fun x => x) = Ok factory /\
  HQResize_getMaxRequirements 4 max_shape = Ok r /\ size (cudaReq r) = 14746368 /\
  exists s' ds b, take_batch_buffers cuda_ok any_status 2 1 (setup_of factory 8 2 bilinear bilinear <$> [small; small]) false (Ok tt)
    (make_ws_allocator (workspace r)) = (s', Ok (ds, b)) /\ 4096 <= sampleDescsCpu b.
Proof.
  destruct (hq_max_workspace_serves cuda_ok any_status (fun x => x) (fun x => x) 8 2 max_shape [640; 480] 4 bilinear bilinear)
    as (factory & r & Ef & Er & H).
  - done.
  - by left.
  - lia.
  - reflexivity.
  - done.
  - split_and!; [repeat constructor; lia|lia|cbn; lia].
  - cbn. lia.
  - lia.
  - cbn. lia.
  - exists factory, r. split; [exact Ef|]. split; [exact Er|]. assert (r = MkReq (MkMemReq 0 16) (MkMemReq 768 256) (MkMemReq 14746368 256)) as Hr.
    { vm_compute in Er. injection Er as <-. reflexivity. }
    split; [by rewrite Hr|]. destruct (H (workspace r)) as [Hb _].
    { rewrite Hr. intros k. split; [by destruct k|]. exists (if k is host_mem then 256 else 16). by destruct k. }
    destruct (Hb [small; small] false 1) as (s' & ds & b & E & Hp & _); [|cbn; lia|].
    { apply Forall_cons; split; [apply small_ok|]. apply Forall_cons; split; [apply small_ok|apply Forall_nil_2]. }
    exists s', ds, b. split; [exact E|]. destruct Hp as [Hp _]. exact Hp.
Defined.

Definition in_shapes : HQResizeTensorShapesI := MkShapes [MkShape [480; 640; 0] 2 3; MkShape [480; 640; 0] 2 3] 2 2 3.
Definition out_shapes : HQResizeTensorShapesI := MkShapes [MkShape [240; 320; 0] 2 3; MkShape [240; 320; 0] 2 3] 2 2 3.
Definition no_rois : HQResizeRoisF := MkRois 0 0 [].

Lemma hq_batch_workspace_serves_witness : exists factory r, make_factory (fun x => x) (fun x => x) = Ok factory /\
  HQResize_getBatchRequirements true factory 8 2 in_shapes out_shapes NVCV_INTERP_LINEAR NVCV_INTERP_LINEAR false no_rois = Ok r /\
  forall ws, meets ws r -> exists s' ds b, take_batch_buffers cuda_ok any_status 2 1 (setup_of factory 8 2 bilinear bilinear <$> [small; small]) true (Ok tt)
    (make_ws_allocator ws) = (s', Ok (ds, b)).
Proof.
  destruct (hq_batch_workspace_serves cuda_ok any_status (fun x => x) (fun x => x) 8 2 in_shapes out_shapes NVCV_INTERP_LINEAR NVCV_INTERP_LINEAR false
    no_rois bilinear bilinear [small; small] [640; 480] 3) as (factory & r & Ef & Er & H).
  - done.
  - by left.
  - lia.
  - done.
  - reflexivity.
  - reflexivity.
  - reflexivity.
  - unfold describes. repeat constructor; reflexivity.
  - apply Forall_cons; split; [apply small_ok|]. apply Forall_cons; split; [apply small_ok|apply Forall_nil_2].
  - cbn. lia.
  - cbn. lia.
  - cbn. lia.
  - exists factory, r. split; [exact Ef|]. split; [exact Er|]. intros ws Hm. destruct (H ws true 1 Hm) as (s' & ds & b & E & _). by exists s', ds, b.
Defined.
End Concrete.
