(* ===== verification/HQLayout.v ===== *)
(** * Intermediate buffers of HQResize ([cvcuda/priv/OpHQResizeBatchWrap.cuh])

    How the samples of a batch lie in an intermediate buffer, and how the kernels
    address them through the strides written for them. *)
From S2P Require Import Prelude Effects Float HQFilter HQResize HQWorkspace.
From stdpp Require Import options.

#[local] Open Scope Z_scope.

(** ** Strides *)

(** [ComputeDenseStrides], of the extents from the innermost one; [T] is the size
    of an element of the innermost extent. *)
Definition ComputeDenseStrides (T : Z) (extents : list Z) : outcome (list Z) :=
  match extents with
  | [] => Stuck
  | x :: rest =>
      '(ss, _) ← mfold (fun '(ss, s) x => s ← int64 (s * x); Ok (ss ++ [s], s)) rest ([x * T], x * T); Ok ss
  end.

(** One channel per element if their number is dynamic, all of them otherwise. *)
Definition sample_strides (dynamic : bool) (d : SampleDesc) (pass : nat) : outcome (list Z) :=
  let outputShape := shapes d !!! S pass in
  if dynamic then ComputeDenseStrides 4 (channels d :: outputShape)
  else ComputeDenseStrides (4 * channels d) outputShape.

Definition max_stride (wide : bool) : Z := if wide then 2 ^ 63 - 1 else 2 ^ 31 - 1.

(** [SetupTensorAccessStrides]: all but the last stride, the outermost first. *)
Definition SetupTensorAccessStrides (wide : bool) (strides : list Z) : outcome (list Z) :=
  let ss := take (length strides - 1) strides in
  mfold (fun r s => nvcv_assert (s <=? max_stride wide) (Ok (s :: r))) ss [].

(** The base pointers and the strides that [CreateDynamicBatchWrap] writes; [copied]
    is the result of copying them to the device. *)
Definition CreateDynamicBatchWrap (wide dynamic : bool) (pass : nat) (base : Z) (ds : list SampleDesc) (copied : outcome unit)
  : outcome (list (Z * list Z)) :=
  '(r, _) ← mfold (fun '(r, sampleOffset) d =>
    strides ← sample_strides dynamic d pass;
    ss ← SetupTensorAccessStrides wide strides;
    last ← rd strides (Z.of_nat (length strides) - 1);
    next ← int64 (sampleOffset + last);
    Ok (r ++ [(base + sampleOffset, ss)], next)) ds ([], 0);
  _ ← copied;
  Ok r.

(** [CreateDenseWrap] of a uniform batch: the strides, the samples' first. *)
Definition CreateDenseWrap (wide dynamic : bool) (d : SampleDesc) (pass : nat) : outcome (list Z) :=
  strides ← sample_strides dynamic d pass;
  mfold (fun r s => nvcv_assert (s <=? max_stride wide) (Ok (s :: r))) strides [].

(** [wideStride] of a call, from the largest sizes in bytes of its input and output. *)
Definition wideStride (inMaxStride outMaxStride : Z) : bool := max_stride false <? Z.max inMaxStride outMaxStride.

(** The address of an element of a sample, as a wrapper of element size [T] with
    the given strides, the outermost first, computes it; the indices come with the
    innermost one first. *)
Definition element_address (T : Z) (view : Z * list Z) (idx : list Z) : Z :=
  match idx with
  | [] => view.1
  | i :: rest => view.1 + T * i + foldr (fun '(s, j) a => s * j + a) 0 (zip (reverse view.2) rest)
  end.

(** The extents that a view has, and the size of its elements. *)
Definition view_extents (dynamic : bool) (d : SampleDesc) (pass : nat) : list Z :=
  if dynamic then channels d :: shapes d !!! S pass else shapes d !!! S pass.
Definition view_element (dynamic : bool) (d : SampleDesc) : Z := if dynamic then 4 else 4 * channels d.

(** ** Dense strides *)

Definition inside (extents idx : list Z) : Prop := Forall2 (fun e i => 0 <= i < e) extents idx.

(** The number of the element at an index. *)
Fixpoint flat (extents idx : list Z) : Z :=
  match extents, idx with e :: es, i :: is_ => i + e * flat es is_ | _, _ => 0 end.

Lemma flat_bounds es idx : inside es idx -> 0 <= flat es idx < prod es.
Proof. induction 1 as [|e i es idx Hi _ IH]; [cbn; lia|]. cbn [flat prod foldr]. fold (prod es). nia. Qed.

Lemma flat_inj es idx idx' : inside es idx -> inside es idx' -> flat es idx = flat es idx' -> idx = idx'.
Proof.
  intros H. revert idx'. induction H as [|e i es idx Hi Hes IH]; intros idx' H' E; inversion H' as [|? i' ? idx2 Hi' Hes']; subst; [done|].
  cbn [flat] in E. assert (flat es idx = flat es idx2) as E2.
  { pose proof (flat_bounds _ _ Hes). pose proof (flat_bounds _ _ Hes'). nia. }
  rewrite E2 in E. f_equal; [lia|]. by apply IH.
Qed.

(** The strides of a dense sample: the running products of its extents. *)
Fixpoint running (s : Z) (rest : list Z) : list Z :=
  match rest with [] => [] | x :: rest => s * x :: running (s * x) rest end.

Lemma running_length s rest : length (running s rest) = length rest.
Proof. revert s. induction rest; intros; cbn; auto. Qed.

Lemma running_lookup_last s rest : (s :: running s rest) !! length rest = Some (s * prod rest).
Proof.
  revert s. induction rest as [|x rest IH]; intros s; [by rewrite Z.mul_1_r|].
  change ((s * x :: running (s * x) rest) !! length rest = Some (s * (x * prod rest))). rewrite IH. f_equal. ring.
Qed.

Lemma ComputeDenseStrides_run T x rest : 0 <= T -> Forall (fun e => 0 <= e) (x :: rest) ->
  (forall r, x * T * prod (take r rest) < 2 ^ 63) ->
  ComputeDenseStrides T (x :: rest) = Ok (x * T :: running (x * T) rest).
Proof.
  intros HT [Hx Hrest]%Forall_cons Hfit. unfold ComputeDenseStrides.
  assert (forall rest s acc, Forall (fun e => 0 <= e) rest -> 0 <= s -> (forall r, s * prod (take r rest) < 2 ^ 63) ->
    exists s', mfold (fun '(ss, s) x => s ← int64 (s * x); Ok (ss ++ [s], s)) rest (acc, s) = Ok (acc ++ running s rest, s')) as H.
  { clear. induction rest as [|x rest IH]; intros s acc Hr Hs Hfit; cbn [mfold running]; [rewrite app_nil_r; by exists s|].
    apply Forall_cons in Hr as [Hx Hr]. assert (s * x < 2 ^ 63). { pose proof (Hfit 1%nat) as H1. change (s * (x * 1) < 2 ^ 63) in H1. lia. }
    rewrite int64_ok by (unfold in_s; nia). cbn [mbind outcome_bind]. destruct (IH (s * x) (acc ++ [s * x])) as [s' ->]; [done|nia| |].
    - intros r. pose proof (Hfit (S r)) as H1. change (s * (x * prod (take r rest)) < 2 ^ 63) in H1. by rewrite Z.mul_assoc in H1.
    - exists s'. by rewrite <- app_assoc. }
  destruct (H rest (x * T) [x * T]) as [s' ->]; [done|nia|done|done].
Qed.

(** The element at an index, through dense strides. *)
Lemma dense_address T base x rest idx : length idx = S (length rest) ->
  element_address T (base, reverse (take (length rest) (x * T :: running (x * T) rest))) idx = base + T * flat (x :: rest) idx.
Proof.
  intros Hl. destruct idx as [|i is_]; [done|]. cbn [element_address fst snd flat]. rewrite reverse_involutive.
  assert (forall rest s is_, length is_ = length rest ->
    foldr (fun '(s, j) a => s * j + a) 0 (zip (take (length rest) (s :: running s rest)) is_) = s * flat rest is_) as H.
  { clear. induction rest as [|e rest IH]; intros s [|j is_] Hl; try done; [cbn; lia|]. cbn [length take zip zip_with foldr flat].
    cbn [running]. rewrite (IH (s * e)) by (by injection Hl). ring. }
  rewrite H by (by injection Hl). ring.
Qed.

(** ** The views of a batch *)

Lemma prod_take_within M v r : Forall (fun m => 1 <= m) M -> within M v -> 0 <= prod (take r v) <= prod M.
Proof.
  intros HM Hv. revert r. induction Hv as [|m x M v Hx _ IH]; intros r; [rewrite take_nil; cbn; lia|].
  apply Forall_cons in HM as [Hm HM]. pose proof (prod_ge_1 M HM). destruct r as [|r]; [change (0 <= 1 <= m * prod M); nia|].
  change (prod (take (S r) (x :: v))) with (x * prod (take r v)). change (prod (m :: M)) with (m * prod M). specialize (IH HM r). nia.
Qed.

Lemma asserted_strides m l : Forall (fun s => s <= m) l ->
  mfold (fun r s => nvcv_assert (s <=? m) (Ok (s :: r))) l [] = Ok (reverse l).
Proof.
  intros Hl. assert (forall acc, mfold (fun r s => nvcv_assert (s <=? m) (Ok (s :: r))) l acc = Ok (reverse l ++ acc)) as H;
    [|by rewrite H, app_nil_r]. induction Hl as [|s l Hs _ IH]; intros acc; [done|]. cbn [mfold].
  rewrite (proj2 (Z.leb_le s m) Hs). cbn [nvcv_assert mbind outcome_bind]. rewrite IH, reverse_cons, <- app_assoc. done.
Qed.

Lemma running_bound s rest m : 0 <= s -> Forall (fun e => 0 <= e) rest -> (forall r, s * prod (take r rest) <= m) -> Forall (fun x => x <= m) (running s rest).
Proof.
  revert s. induction rest as [|e rest IH]; intros s Hs Hr Hm; [constructor|]. apply Forall_cons in Hr as [He Hr]. cbn [running]. constructor.
  - pose proof (Hm 1%nat) as H1. change (s * (e * 1) <= m) in H1. lia.
  - apply IH; [nia|done|]. intros r. pose proof (Hm (S r)) as H1. change (s * (e * prod (take r rest)) <= m) in H1. by rewrite Z.mul_assoc in H1.
Qed.

(** A description whose samples between two passes stay within a bound. *)
Definition pass_within (M : list Z) (C : Z) (pass : nat) (d : SampleDesc) : Prop :=
  within M (shapes d !!! S pass) /\ 1 <= channels d <= C.

Section Views.
Context (M : list Z) (HM : Forall (fun m => 1 <= m) M) (HMne : M <> []) (C : Z) (wide dynamic : bool) (pass : nat).
Context (Hfit : 4 * (prod M * C) <= max_stride wide).
#[local] Set Default Proof Using "Type*".

Lemma max_stride_bound : max_stride wide < 2 ^ 63.
Proof. destruct wide; cbn; lia. Qed.

Lemma pass_size ds : Forall (pass_within M C pass) ds -> 0 <= batch_size ds pass <= Z.of_nat (length ds) * (prod M * C).
Proof.
  induction 1 as [|d ds [Hw Hc] _ IH]; [cbn; lia|]. change (batch_size (d :: ds) pass) with (pass_volume d pass + batch_size ds pass).
  pose proof (prod_within M _ Hw). unfold pass_volume. cbn [length]. nia.
Qed.

Lemma pass_mono ds i j : Forall (pass_within M C pass) ds -> (i <= j)%nat -> batch_size (take i ds) pass <= batch_size (take j ds) pass.
Proof.
  intros Hds Hij. replace (take i ds) with (take i (take j ds)) by (rewrite take_take; f_equal; lia). generalize (Forall_take _ j _ Hds). generalize (take j ds).
  intros l Hl. rewrite <- (take_drop i l) at 2. rewrite batch_size_app. pose proof (pass_size (drop i l) (Forall_drop _ _ _ Hl)). lia.
Qed.

(** The extents of a view, the first of them apart. *)
Lemma view_parts d : pass_within M C pass d -> exists x rest, view_extents dynamic d pass = x :: rest /\
  0 <= view_element dynamic d /\ Forall (fun e => 0 <= e) (x :: rest) /\ (forall r, x * view_element dynamic d * prod (take r rest) <= 4 * (prod M * C)) /\
  view_element dynamic d * prod (x :: rest) = 4 * pass_volume d pass.
Proof.
  intros [Hw Hc]. unfold view_extents, view_element, pass_volume. set (sh := shapes d !!! S pass) in *.
  assert (Forall (fun e => 0 <= e) sh) as Hpos by (eapply Forall2_Forall_r; [exact Hw|apply Forall_true; cbn; lia]).
  assert (forall r, 0 <= prod (take r sh) <= prod M) as HP by (intros r; by apply prod_take_within). destruct dynamic.
  - exists (channels d), sh. split_and!; [done|lia|constructor; (done || lia)| |].
    + intros r. specialize (HP r). nia.
    + change (prod (channels d :: sh)) with (channels d * prod sh). ring.
  - destruct sh as [|x rest] eqn:Esh; [inversion Hw; subst; done|]. exists x, rest. split_and!; [done|lia|done| |].
    + intros r. specialize (HP (S r)). change (prod (take (S r) (x :: rest))) with (x * prod (take r rest)) in HP. nia.
    + ring.
Qed.

(** The view that is written for one sample. *)
Lemma sample_view d : pass_within M C pass d -> exists strides ss, sample_strides dynamic d pass = Ok strides /\
  SetupTensorAccessStrides wide strides = Ok ss /\ rd strides (Z.of_nat (length strides) - 1) = Ok (4 * pass_volume d pass) /\
  forall base idx, inside (view_extents dynamic d pass) idx ->
    element_address (view_element dynamic d) (base, ss) idx = base + view_element dynamic d * flat (view_extents dynamic d pass) idx.
Proof.
  intros Hd. destruct (view_parts d Hd) as (x & rest & Ee & HT & Hpos & Hb & Hvol). pose proof max_stride_bound.
  set (T := view_element dynamic d) in *. pose proof Hpos as [Hx Hrest]%Forall_cons.
  assert (sample_strides dynamic d pass = Ok (x * T :: running (x * T) rest)) as E1.
  { transitivity (ComputeDenseStrides T (x :: rest)).
    - rewrite <- Ee. unfold sample_strides, view_extents, T, view_element. by destruct dynamic.
    - apply ComputeDenseStrides_run; [done|done|]. intros r. specialize (Hb r). lia. }
  exists (x * T :: running (x * T) rest), (reverse (take (length rest) (x * T :: running (x * T) rest))). split_and!; [done| | |].
  - unfold SetupTensorAccessStrides. cbn [length]. rewrite running_length, Nat.sub_1_r. cbn [Nat.pred]. apply asserted_strides, Forall_take.
    constructor; [pose proof (Hb 0%nat) as H0; change (prod (take 0 rest)) with 1 in H0; lia|]. apply running_bound; [nia|done|]. intros r. specialize (Hb r). lia.
  - apply rd_Ok. cbn [length]. rewrite running_length. split; [lia|].
    replace (Z.to_nat (Z.of_nat (S (length rest)) - 1)) with (length rest) by lia.
    rewrite <- Hvol. change (prod (x :: rest)) with (x * prod rest).
    replace (T * (x * prod rest)) with (x * T * prod rest) by ring. apply running_lookup_last.
  - intros base idx Hin. rewrite Ee in *. apply dense_address. apply Forall2_length in Hin. cbn in Hin. lia.
Qed.

(** The loop that writes the views. *)
Lemma views_written base ds : Forall (pass_within M C pass) ds -> 4 * (Z.of_nat (length ds) * (prod M * C)) < 2 ^ 63 ->
  exists views, CreateDynamicBatchWrap wide dynamic pass base ds (Ok tt) = Ok views /\ length views = length ds /\
    forall i d, ds !! i = Some d -> exists v, views !! i = Some v /\ forall idx, inside (view_extents dynamic d pass) idx ->
      element_address (view_element dynamic d) v idx =
        base + 4 * batch_size (take i ds) pass + view_element dynamic d * flat (view_extents dynamic d pass) idx.
Proof.
  intros Hds Hlen. unfold CreateDynamicBatchWrap.
  destruct (mfold_list (fun '(r, sampleOffset) d =>
      strides ← sample_strides dynamic d pass;
      ss ← SetupTensorAccessStrides wide strides;
      last ← rd strides (Z.of_nat (length strides) - 1);
      next ← int64 (sampleOffset + last);
      Ok (r ++ [(base + sampleOffset, ss)], next))
    (fun pre '(r, o) => o = 4 * batch_size pre pass /\ length r = length pre /\
      forall i d, pre !! i = Some d -> exists v, r !! i = Some v /\ forall idx, inside (view_extents dynamic d pass) idx ->
        element_address (view_element dynamic d) v idx =
          base + 4 * batch_size (take i pre) pass + view_element dynamic d * flat (view_extents dynamic d pass) idx) ds ([], 0))
    as ([views o] & E & _ & Hl & Hv).
  - split_and!; [done|done|]. by intros i d Hi.
  - intros pre d post [r o] -> (-> & Hl & Hr). apply Forall_app in Hds as [Hpre [Hd Hpost]%Forall_cons].
    destruct (sample_view d Hd) as (strides & ss & -> & Hss & Hrd & Hadr). cbn [mbind outcome_bind]. rewrite Hss. cbn [mbind outcome_bind].
    rewrite Hrd. cbn [mbind outcome_bind]. rewrite length_app in Hlen. cbn [length] in Hlen.
    pose proof (pass_size pre Hpre). pose proof (pass_size [d] (proj2 (Forall_singleton _ d) Hd)) as H1. change (batch_size [d] pass) with (pass_volume d pass + 0) in H1. cbn [length] in H1.
    assert (0 <= prod M * C) by (destruct Hd as [_ ?]; pose proof (prod_ge_1 M HM); nia).
    rewrite int64_ok by (unfold in_s; nia). cbn [mbind outcome_bind]. eexists. split; [done|]. cbn. split_and!.
    + rewrite batch_size_app. change (batch_size [d] pass) with (pass_volume d pass + 0). lia.
    + rewrite !length_app. cbn. lia.
    + intros i x [Hi|[Hi ->]]%lookup_snoc_Some.
      * destruct (Hr i x (proj2 Hi)) as (v & Hv & Ha). exists v. rewrite take_app_le by lia. split; [|done]. rewrite lookup_app_l by lia. done.
      * exists (base + 4 * batch_size pre pass, ss). subst i. rewrite lookup_app_r, Hl, Nat.sub_diag, take_app_length by lia. split; [done|apply Hadr].
  - exists views. rewrite E. by split_and!.
Qed.
End Views.

(** The bytes of the element at an index of a sample's view. *)
Inductive element (dynamic : bool) (pass : nat) (ds : list SampleDesc) (views : list (Z * list Z)) (i : nat) (idx : list Z) : Z -> Z -> Prop :=
  Element d v a : ds !! i = Some d -> views !! i = Some v -> inside (view_extents dynamic d pass) idx ->
    a = element_address (view_element dynamic d) v idx -> element dynamic pass ds views i idx a (a + view_element dynamic d).


(** C18: Views of intermediate samples. When the samples of a batch stay within a bound
    whose bytes fit the chosen stride type, the loop that writes the views of an
    intermediate buffer succeeds, every element of every view lies in the buffer's
    [4 * batch_size] bytes, in the part of its sample, and no two elements, of one
    sample or of two, share a byte. *)
Theorem hq_intermediate_layout M C wide dynamic pass base ds
  (HM : Forall (fun m => 1 <= m) M) (HMne : M <> []) (Hstride : 4 * (prod M * C) <= max_stride wide)
  (Hds : Forall (pass_within M C pass) ds) (Hlen : 4 * (Z.of_nat (length ds) * (prod M * C)) < 2 ^ 63) :
  exists views, CreateDynamicBatchWrap wide dynamic pass base ds (Ok tt) = Ok views /\ length views = length ds /\
    (forall i d idx, ds !! i = Some d -> inside (view_extents dynamic d pass) idx -> exists a b, element dynamic pass ds views i idx a b) /\
    (forall i idx a b, element dynamic pass ds views i idx a b ->
      base + 4 * batch_size (take i ds) pass <= a /\ b <= base + 4 * batch_size (take (S i) ds) pass /\ b <= base + 4 * batch_size ds pass) /\
    (forall i idx a b j jdx a' b', element dynamic pass ds views i idx a b -> element dynamic pass ds views j jdx a' b' ->
      (i, idx) <> (j, jdx) -> b <= a' \/ b' <= a).
Proof.
  destruct (views_written M HM HMne C wide dynamic pass Hstride base ds Hds Hlen) as (views & E & Hl & Hv).
  assert (forall i idx a b, element dynamic pass ds views i idx a b -> exists d, ds !! i = Some d /\ inside (view_extents dynamic d pass) idx /\
    a = base + 4 * batch_size (take i ds) pass + view_element dynamic d * flat (view_extents dynamic d pass) idx /\ b = a + view_element dynamic d) as Hel.
  { intros i idx a b [d v a' Hd Hv' Hin ->]. destruct (Hv i d Hd) as (v2 & Hv2 & Ha). simplify_eq. exists d. split_and!; [done..| |done]. by apply Ha. }
  assert (forall i idx a b, element dynamic pass ds views i idx a b ->
    base + 4 * batch_size (take i ds) pass <= a /\ b <= base + 4 * batch_size (take (S i) ds) pass) as Hin.
  { intros i idx a b (d & Hd & Hi & -> & ->)%Hel. pose proof (flat_bounds _ _ Hi).
    destruct (view_parts M HM HMne C wide dynamic pass Hstride d (Forall_lookup_1 _ _ _ _ Hds Hd)) as (x & rest & Ee & HT & _ & _ & Hvol).
    rewrite Ee in *. rewrite (take_S_r _ _ _ Hd), batch_size_app. change (batch_size [d] pass) with (pass_volume d pass + 0). nia. }
  exists views. split_and!; [done|done| | |].
  - intros i d idx Hd Hi. destruct (Hv i d Hd) as (v & Hv' & _). eexists _, _. by econstructor.
  - intros i idx a b He. destruct (Hin _ _ _ _ He). pose proof (pass_mono M HM HMne C wide pass Hstride ds (S i) (S i + length ds) Hds ltac:(lia)) as Hm.
    rewrite (take_ge ds (S i + length ds)) in Hm by lia. lia.
  - intros i idx a b j jdx a' b' Ha Hb Hne. destruct (decide (i = j)) as [<-|Hij].
    + apply Hel in Ha as (d & Hd & Hi & -> & ->), Hb as (d' & Hd' & Hi' & -> & ->). simplify_eq.
      destruct (Z.eq_dec (flat (view_extents dynamic d pass) idx) (flat (view_extents dynamic d pass) jdx)) as [F|F];
        [apply (flat_inj _ _ _ Hi Hi') in F; congruence|].
      destruct (view_parts M HM HMne C wide dynamic pass Hstride d (Forall_lookup_1 _ _ _ _ Hds Hd)) as (? & ? & _ & HT & _). nia.
    + apply Hin in Ha, Hb. destruct (decide (i < j)%nat) as [Hlt|Hge].
      * pose proof (pass_mono M HM HMne C wide pass Hstride ds (S i) j Hds ltac:(lia)). lia.
      * pose proof (pass_mono M HM HMne C wide pass Hstride ds (S j) i Hds ltac:(lia)). lia.
Qed.

Module Concrete.

(** Two samples of different sizes with three channels. *)
Definition desc (w h : Z) : SampleDesc := MkDesc [[2 * w; h]; [w; h]; [w; 5]] 3 [0; 1]%nat [] [] [] [] [0; 0] [].

Lemma hq_intermediate_layout_witness : exists views,
  CreateDynamicBatchWrap false false 0 4096 [desc 4 3; desc 2 7] (Ok tt) = Ok views /\ views = [(4096, [48]); (4240, [24])] /\
  forall i idx a b, element false 0 [desc 4 3; desc 2 7] views i idx a b -> 4096 <= a /\ b <= 4408.
Proof.
  destruct (hq_intermediate_layout [10; 10] 3 false false 0 4096 [desc 4 3; desc 2 7]) as (views & E & _ & _ & Hin & _).
  - repeat constructor; lia.
  - done.
  - cbn. lia.
  - repeat constructor; cbn; lia.
  - cbn. lia.
  - exists views. split; [exact E|]. split; [vm_compute in E; by injection E as <-|]. intros i idx a b He. destruct (Hin i idx a b He) as (H1 & _ & H3).
    change (batch_size [desc 4 3; desc 2 7] 0) with 78 in H3. split; [|lia]. enough (0 <= batch_size (take i [desc 4 3; desc 2 7]) 0) by lia.
    destruct i as [|[|[|i]]]; [done..|]. rewrite take_ge by (cbn; lia). done.
Defined.

(** The width of the strides comes from the sizes in bytes of the input and the
    output; the elements of an intermediate image may be larger. A one-channel image
    of bytes with 30000 columns and 20000 rows takes narrow strides, and its
    intermediate image of 4-byte elements has a stride that does not fit. *)
Lemma narrow_strides : wideStride (30000 * 20000) (30000 * 20000) = false /\
  CreateDenseWrap (wideStride (30000 * 20000) (30000 * 20000)) false
    (MkDesc [[30000; 20000]; [30000; 20000]; [30000; 20000]] 1 [0; 1]%nat [] [] [] [] [0; 0] []) 0 = Stuck.
Proof. split; reflexivity. Qed.
End Concrete.
