(* ===== verification/HQKernel.v ===== *)
(** * Kernels of HQResize ([cvcuda/priv/OpHQResize.cu])

    The grid a pass is launched on and the size of its shared memory; which pixels
    of the output a thread writes, in which order, and which pixels of the input it
    reads for each; the slots of the shared memory it fills and reads. What is
    computed from the pixels is not modelled. Vectors hold the horizontal axis
    first. *)
From S2P Require Import Prelude Effects Float HQFilter HQResize HQWorkspace HQLayout.
From stdpp Require Import options.

#[local] Open Scope Z_scope.

(** ** The launch of a pass *)

Definition CanComputeCoefPerThread (support resamplingAxisBlockSize : Z) : outcome bool :=
  n ← int32 (support * resamplingAxisBlockSize); Ok (n <=? kMaxGPUFilterSupport).

Definition RequiredSharedMemoryElements (support resamplingAxisBlockSize : Z) : outcome Z :=
  per_thread ← CanComputeCoefPerThread support resamplingAxisBlockSize;
  if per_thread : bool then int32 (support * resamplingAxisBlockSize) else Ok support.

Definition RequiredSharedMemorySize (d : SampleDesc) (whichPass : nat) : outcome Z :=
  if decide (filterKind d !!! whichPass <> ShmFilter) then Ok 0 else
  s ← support (filter d !!! whichPass);
  let axis := processingOrder d !!! whichPass in
  let resamplingAxisBlockSize := if (axis =? 0)%nat then kBlockDim !!! 0%nat else kBlockDim !!! 1%nat in
  n ← RequiredSharedMemoryElements s resamplingAxisBlockSize;
  Ok (i32 (4 * n)).

Definition GetKernelGrid (numBlocks : list Z) (numSamples : Z) : outcome (Z * Z) :=
  n ← mfold (fun n x => int32 (n * x)) (tail numBlocks) (hd 0 numBlocks); Ok (n, numSamples).

Record launch := MkLaunch { l_numBlocks : list Z; l_grid : Z * Z; l_shared : Z }.

Section Run.
(** What [cudaGetLastError] returns after the launch of a kernel on a grid, with blocks
    of [kBlockDim] threads and dynamic shared memory: nothing, or the status that
    [NVCV_CHECK_THROW] makes of the error. *)
Context (launch_error : launch -> option NVCVStatus).

(** The launch of a kernel and [NVCV_CHECK_THROW(cudaGetLastError())]. *)
Definition launch_kernel (l : launch) : outcome (option launch) :=
  match launch_error l with Some st => Throw st | None => Ok (Some l) end.

(** [RunPass] for a uniform batch; nothing is launched for an empty output. *)
Definition RunPass (d : SampleDesc) (whichPass : nat) (numSamples : Z) : outcome (option launch) :=
  numBlocks ← vmap2 DivCeil (shapes d !!! S whichPass) (blockShape d !!! whichPass);
  v ← Volume numBlocks;
  if v =? 0 then Ok None else
  grid ← GetKernelGrid numBlocks numSamples;
  sharedMemSize ← RequiredSharedMemorySize d whichPass;
  launch_kernel (MkLaunch numBlocks grid sharedMemSize).

(** [RunPass] for samples of different shapes. *)
Definition RunPassBatch (N : nat) (ds : list SampleDesc) (whichPass : nat) : outcome (option launch) :=
  '(maxSharedMemSize, maxNumBlocks) ← mfold (fun '(maxSharedMemSize, maxNumBlocks) d =>
    sharedMemSize ← RequiredSharedMemorySize d whichPass;
    numBlocks ← vmap2 DivCeil (shapes d !!! S whichPass) (blockShape d !!! whichPass);
    Ok (Z.max maxSharedMemSize sharedMemSize, zip_with Z.max maxNumBlocks numBlocks)) ds (0, replicate N 0);
  v ← Volume maxNumBlocks;
  if v =? 0 then Ok None else
  grid ← GetKernelGrid maxNumBlocks (Z.of_nat (length ds));
  launch_kernel (MkLaunch maxNumBlocks grid maxSharedMemSize).

(** The limits of the CUDA programming guide on the extents of a grid and on the shared
    memory of a block, of which a launch may use 48 KiB without further ado. *)
Definition within_limits (l : launch) : Prop :=
  1 <= (l_grid l).1 < 2 ^ 31 /\ 1 <= (l_grid l).2 <= 65535 /\ 0 <= l_shared l <= 49152.

(** Launches within the limits succeed: no error of an earlier call is pending. *)
Definition limits_suffice : Prop := forall l, within_limits l -> launch_error l = None.
End Run.

(** ** Threads *)

Record cuda_thread := MkThread { blockIdx_x : Z; blockIdx_y : Z; threadIdx : list Z }.

(** Loops over the first axes, nested, with what the innermost body gives. *)
Definition loops2 {A} (ys xs : list Z) (f : Z -> Z -> A) : list A := ys ≫= fun y => f y <$> xs.
Definition loops3 {A} (zs ys xs : list Z) (f : Z -> Z -> Z -> A) : list A := zs ≫= fun z => loops2 ys xs (f z).

Definition block_threads : list (list Z) :=
  loops3 (zrange 0 (kBlockDim !!! 2%nat)) (zrange 0 (kBlockDim !!! 1%nat)) (zrange 0 (kBlockDim !!! 0%nat)) (fun z y x => [x; y; z]).

Definition grid_threads (l : launch) : list cuda_thread :=
  zrange 0 (l_grid l).2 ≫= fun y => zrange 0 (l_grid l).1 ≫= fun x => MkThread x y <$> block_threads.

(** [for (x = x; x < hi; x += step)] *)
Fixpoint strided (fuel : nat) (x hi step : Z) : list Z :=
  match fuel with
  | O => []
  | S fuel => if x <? hi then x :: strided fuel (i32 (x + step)) hi step else []
  end.

(** [GridHelperDevice::CurrentBlock]: the coordinates of a block, and the bounds of
    its region. *)
Definition currentBlock (numBlocks : list Z) (block : Z) : outcome (list Z) :=
  match numBlocks with
  | [nx; _] => if nx =? 0 then Stuck else Ok [Z.rem block nx; Z.quot block nx]
  | [nx; ny; _] =>
      if (nx =? 0) || (ny =? 0) then Stuck else
      let block' := Z.quot block nx in Ok [Z.rem block nx; Z.rem block' ny; Z.quot block' ny]
  | _ => Stuck
  end.
Definition CurrentBlock (numBlocks blockShape : list Z) (block : Z) : outcome (list Z * list Z) :=
  currentBlock ← currentBlock numBlocks block;
  lo ← vmap2 (fun a b => int32 (a * b)) blockShape currentBlock;
  hi ← vmap2 (fun a b => int32 (a + b)) lo blockShape;
  Ok (lo, hi).

Section Thread.
(** The number of spatial axes, the region of the block and the thread. *)
Context (N : nat) (lo hi t : list Z).

(** [for (x = lo + threadIdx; x < hi; x += blockDim)] for a component of the region
    and a component of the thread. *)
Definition thread_loop (a ta : nat) : list Z :=
  strided (Z.to_nat (hi !!! a - lo !!! a)) (i32 (lo !!! a + t !!! ta)) (hi !!! a) (kBlockDim !!! ta).

(** [for (j = lo; j < hi; j += blockDim) { x = j + threadIdx; if (x >= hi) continue; ... }] *)
Definition span_loop (a ta : nat) : list Z :=
  base.filter (fun x => x < hi !!! a)
    ((fun j => i32 (j + t !!! ta)) <$> strided (Z.to_nat (hi !!! a - lo !!! a)) (lo !!! a) (hi !!! a) (kBlockDim !!! ta)).

(** [nn::ForAllPixels] *)
Definition ForAllPixels : list (list Z) :=
  if (N =? 2)%nat then loops2 (thread_loop 1 1) (thread_loop 0 0) (fun y x => [x; y])
  else loops3 (thread_loop 2 2) (thread_loop 1 1) (thread_loop 0 0) (fun z y x => [x; y; z]).

Definition ForAllPixelsHorz : list (list Z) :=
  if (N =? 2)%nat then loops2 (thread_loop 0 0) (thread_loop 1 1) (fun x y => [x; y])
  else loops3 (thread_loop 0 0) (thread_loop 2 2) (thread_loop 1 1) (fun x z y => [x; y; z]).

Definition ForAllPixelsVert : list (list Z) :=
  if (N =? 2)%nat then loops2 (thread_loop 1 1) (thread_loop 0 0) (fun y x => [x; y])
  else loops3 (thread_loop 2 2) (thread_loop 1 1) (thread_loop 0 0) (fun z y x => [x; y; z]).

(** The loops of [linear::ResampleDepth]; the threads' second component traverses the
    third axis. *)
Definition linear_depth : list (list Z) :=
  loops3 (thread_loop 2 1) (thread_loop 1 2) (thread_loop 0 0) (fun z y x => [x; y; z]).

Definition ForAllOrthogonalToHorz : list (list Z) :=
  if (N =? 2)%nat then (fun y => [0; y]) <$> thread_loop 1 1
  else loops2 (thread_loop 2 2) (thread_loop 1 1) (fun z y => [0; y; z]).

Definition ForAllOrthogonalToVert : list (list Z) :=
  if (N =? 2)%nat then (fun x => [x; 0]) <$> thread_loop 0 0
  else loops2 (thread_loop 2 2) (thread_loop 0 0) (fun z x => [x; 0; z]).

(** The pixels of [filter_support::ResampleHorz], [ResampleVert] and [ResampleDepth]. *)
Definition filter_horz : list (list Z) := span_loop 0 0 ≫= fun x => <[0%nat := x]> <$> ForAllOrthogonalToHorz.
Definition filter_vert : list (list Z) := span_loop 1 1 ≫= fun y => <[1%nat := y]> <$> ForAllOrthogonalToVert.
Definition filter_depth : list (list Z) :=
  span_loop 2 1 ≫= fun z => loops2 (thread_loop 1 2) (thread_loop 0 0) (fun y x => [x; y; z]).

(** The pixels that a thread writes in a pass along an axis, in order. *)
Definition written (kind : FilterTypeKind) (axis : nat) : list (list Z) :=
  match kind with
  | KindNearest => ForAllPixels
  | KindLinear => match axis with 0%nat => ForAllPixelsHorz | 1%nat => ForAllPixelsVert | _ => if (N =? 3)%nat then linear_depth else [] end
  | ShmFilter => match axis with 0%nat => filter_horz | 1%nat => filter_vert | _ => if (N =? 3)%nat then filter_depth else [] end
  end.
End Thread.

(** What a thread reads for a pixel that it writes. [src axis x] is the coordinate
    of the input, rounded to an integer, that the coordinate [x] of the output is
    mapped to. *)
Definition pixel_reads (src : nat -> Z -> Z) (kind : FilterTypeKind) (f : ResamplingFilter) (axis : nat) (inShape outIdx : list Z)
  : outcome (list (list Z)) :=
  let at_ s := x ← int32 s; Ok (<[axis := clamp x 0 (inShape !!! axis - 1)]> outIdx) in
  match kind with
  | KindNearest => Ok [imap (fun a x => clamp (src a x) 0 (inShape !!! a - 1)) outIdx]
  | KindLinear =>
      let s := src axis (outIdx !!! axis) in
      inIdx0 ← at_ s; inIdx1 ← at_ (s + 1); Ok [inIdx0; inIdx1]
  | ShmFilter =>
      let s := src axis (outIdx !!! axis) in
      n ← support f;
      mfold (fun r k => inIdx ← at_ (s + k); Ok (r ++ [inIdx])) (zrange 0 n) []
  end.

(** One pixel: the index in the output, and those read in the input. *)
Definition write : Type := list Z * list (list Z).

(** The body of the kernels for one thread, once its region is known. *)
Definition RunResamplingPass (src : nat -> Z -> Z) (d : SampleDesc) (whichPass : nat) (lo hi t : list Z) : outcome (list write) :=
  let inShape := shapes d !!! whichPass in
  let axis := processingOrder d !!! whichPass in
  let kind := filterKind d !!! whichPass in
  mfold (fun ws outIdx => rs ← pixel_reads src kind (filter d !!! whichPass) axis inShape outIdx; Ok (ws ++ [(outIdx, rs)]))
    (written (length inShape) lo hi t kind axis) [].

(** [SeparableResamplingKernel] of a uniform batch. *)
Definition SeparableResamplingKernel (src : Z -> nat -> Z -> Z) (d : SampleDesc) (whichPass : nat) (numBlocks : list Z) (th : cuda_thread)
  : outcome (list write) :=
  '(lo, hi) ← CurrentBlock numBlocks (blockShape d !!! whichPass) (blockIdx_x th);
  RunResamplingPass (src (blockIdx_y th)) d whichPass lo (zip_with Z.min hi (shapes d !!! S whichPass)) (threadIdx th).

(** [SeparableResamplingKernel] of samples of different shapes: the blocks outside a
    smaller sample exit early. *)
Definition SeparableResamplingKernelBatch (src : Z -> nat -> Z -> Z) (ds : list SampleDesc) (whichPass : nat) (numBlocks : list Z) (th : cuda_thread)
  : outcome (list write) :=
  d ← rd ds (blockIdx_y th);
  let outShape := shapes d !!! S whichPass in
  '(lo, hi) ← CurrentBlock numBlocks (blockShape d !!! whichPass) (blockIdx_x th);
  if existsb (fun '(l, n) => n <=? l) (zip lo outShape) then Ok [] else
  RunResamplingPass (src (blockIdx_y th)) d whichPass lo (zip_with Z.min hi outShape) (threadIdx th).

(** All the threads of a launch: the pixels written, with the sample. *)
Definition run_grid (kernel : cuda_thread -> outcome (list write)) (threads : list cuda_thread) : outcome (list (Z * write)) :=
  mfold (fun ws th => w ← kernel th; Ok (ws ++ (pair (blockIdx_y th) <$> w))) threads [].

(** The sample and the pixel of a result. *)
Definition pixel_of (r : Z * write) : Z * list Z := (r.1, r.2.1).

(** The indices of a shape. *)
Definition pixels (shape : list Z) : list (list Z) :=
  match shape with
  | [w; h] => loops2 (zrange 0 h) (zrange 0 w) (fun y x => [x; y])
  | [w; h; n] => loops3 (zrange 0 n) (zrange 0 h) (zrange 0 w) (fun z y x => [x; y; z])
  | _ => []
  end.

(** ** Shared memory *)

(** The slots of the coefficients that a thread fills and reads in a round of the
    filter along an axis. *)
Definition coeffs_filled (axis : nat) (support : Z) (t : list Z) : outcome (list Z) :=
  let x := t !!! 0%nat in let y := t !!! 1%nat in
  let dx := kBlockDim !!! 0%nat in let dy := kBlockDim !!! 1%nat in
  let fuel := Z.to_nat support in
  per_thread ← CanComputeCoefPerThread support (if (axis =? 0)%nat then dx else dy);
  Ok (if negb per_thread then strided fuel (x + dx * y) support (dx * dy)
      else if (axis =? 0)%nat then (fun k => x + dx * k) <$> strided fuel y support dy
      else (fun k => support * y + k) <$> strided fuel x support dx).

Definition coeffs_read (axis : nat) (support : Z) (t : list Z) : outcome (list Z) :=
  let dx := kBlockDim !!! 0%nat in let dy := kBlockDim !!! 1%nat in
  per_thread ← CanComputeCoefPerThread support (if (axis =? 0)%nat then dx else dy);
  let coeffBase := if negb per_thread then 0 else if (axis =? 0)%nat then t !!! 0%nat else support * t !!! 1%nat in
  let coeffStride := if (axis =? 0)%nat then if negb per_thread then 1 else dx else 1 in
  Ok ((fun k => coeffBase + coeffStride * k) <$> zrange 0 support).

(** ** Strided loops *)

(** A loop over the coordinates of [lo..hi-1] that are [t] beyond a multiple of [D]
    steps from [lo]. *)
Definition strides_over (lo hi D t : Z) (l : list Z) : Prop :=
  NoDup l /\ forall z, z ∈ l <-> lo <= z < hi /\ (z - lo) mod D = t.

Lemma strided_spec fuel x hi step : 0 < step -> - 2 ^ 31 <= x -> hi + step < 2 ^ 31 -> hi - x <= Z.of_nat fuel ->
  strides_over x hi step 0 (strided fuel x hi step).
Proof.
  intros Hs Hx Hhi. revert x Hx. induction fuel as [|fuel IH]; intros x Hx Hf; cbn [strided].
  - split; [constructor|]. intros z. split; [by intros ?%elem_of_nil|]. lia.
  - destruct (Z.ltb_spec x hi) as [Hlt|Hge]; [|split; [constructor|intros z; split; [by intros ?%elem_of_nil|lia]]].
    rewrite wraps_small by (unfold in_s; lia). destruct (IH (x + step)) as [Hnd Hin]; [lia|lia|]. split.
    + constructor; [|done]. rewrite Hin. lia.
    + intros z. rewrite elem_of_cons, Hin. replace (z - (x + step)) with (z - x + (-1) * step) by ring. rewrite Z_mod_plus_full.
      split; [intros [->|[? ?]]; [rewrite Z.sub_diag|]; (split; [lia|done])|]. intros [Hz Hm].
      destruct (decide (z = x)) as [->|Hne]; [by left|]. right. split; [|done].
        apply Z.mod_divide in Hm as [q Hq]; [|lia]. assert (1 <= q) by nia. nia.
Qed.

(** Which elements an offset of the start selects. *)
Lemma mod_offset z lo t D : 0 <= t < D -> lo <= z -> (lo + t <= z /\ (z - (lo + t)) mod D = 0 <-> (z - lo) mod D = t).
Proof.
  intros Ht Hz. pose proof (Z.div_mod (z - lo) D ltac:(lia)). pose proof (Z.mod_pos_bound (z - lo) D ltac:(lia)). split.
  - intros [Hge Hm]. apply Z.mod_divide in Hm as [q Hq]; [|lia]. replace (z - lo) with (t + q * D) by lia. rewrite Z_mod_plus_full. by apply Z.mod_small.
  - intros Hm. assert (0 <= (z - lo) / D) by (apply Z.div_pos; lia). split; [nia|].
    replace (z - (lo + t)) with ((z - lo) / D * D) by lia. apply Z_mod_mult.
Qed.

Section Region.
Context (lo hi t : list Z).

(** A component of the region, not so far that a step could overflow, and a component
    of the thread. *)
Definition axis_ok (a ta : nat) : Prop :=
  0 <= lo !!! a /\ lo !!! a + 64 < 2 ^ 31 /\ hi !!! a + 64 < 2 ^ 31 /\ 0 <= t !!! ta < kBlockDim !!! ta /\ kBlockDim !!! ta <= 32.

Definition axis_loop (a ta : nat) (l : list Z) : Prop := strides_over (lo !!! a) (hi !!! a) (kBlockDim !!! ta) (t !!! ta) l.

Lemma thread_loop_spec a ta : axis_ok a ta -> axis_loop a ta (thread_loop lo hi t a ta).
Proof.
  intros (H1 & H2 & H3 & H4 & H5). unfold thread_loop. rewrite wraps_small by (unfold in_s; lia).
  destruct (strided_spec (Z.to_nat (hi !!! a - lo !!! a)) (lo !!! a + t !!! ta) (hi !!! a) (kBlockDim !!! ta)) as [Hnd Hin]; [lia..|].
  split; [done|]. intros z. rewrite Hin. pose proof (mod_offset z (lo !!! a) (t !!! ta) (kBlockDim !!! ta) H4). intuition lia.
Qed.

Lemma span_loop_spec a ta : axis_ok a ta -> axis_loop a ta (span_loop lo hi t a ta).
Proof.
  intros (H1 & H2 & H3 & H4 & H5). unfold span_loop.
  destruct (strided_spec (Z.to_nat (hi !!! a - lo !!! a)) (lo !!! a) (hi !!! a) (kBlockDim !!! ta)) as [Hnd Hin]; [lia..|].
  assert (forall j, j ∈ strided (Z.to_nat (hi !!! a - lo !!! a)) (lo !!! a) (hi !!! a) (kBlockDim !!! ta) -> i32 (j + t !!! ta) = j + t !!! ta) as Hw.
  { intros j [Hj _]%Hin. apply wraps_small; unfold in_s; lia. }
  split.
  - apply NoDup_filter, NoDup_fmap_2_strong; [|done]. intros x y Hx Hy. rewrite !Hw by done. lia.
  - intros z. rewrite list_elem_of_filter, list_elem_of_fmap. pose proof (mod_offset z (lo !!! a) (t !!! ta) (kBlockDim !!! ta) H4) as Hm. split.
    + intros [Hz (j & -> & Hj)]. rewrite Hw in * by done. apply Hin in Hj as [Hj E]. split; [lia|]. apply Hm; [lia|]. split; [lia|].
      by replace (j + t !!! ta - (lo !!! a + t !!! ta)) with (j - lo !!! a) by lia.
    + intros [Hz E]. apply Hm in E as [Hge E]; [|lia]. split; [lia|]. exists (z - t !!! ta).
      assert (z - t !!! ta ∈ strided (Z.to_nat (hi !!! a - lo !!! a)) (lo !!! a) (hi !!! a) (kBlockDim !!! ta)) as Hj.
      { apply Hin. split; [lia|]. by replace (z - t !!! ta - lo !!! a) with (z - (lo !!! a + t !!! ta)) by lia. }
      rewrite Hw by done. split; [lia|done].
Qed.
End Region.

(** ** Nested loops *)

Lemma loops2_in {A} ys xs (f : Z -> Z -> A) i : i ∈ loops2 ys xs f <-> exists y x, i = f y x /\ y ∈ ys /\ x ∈ xs.
Proof.
  unfold loops2. rewrite list_elem_of_bind. setoid_rewrite list_elem_of_fmap. split.
  - intros (y & (x & -> & ?) & ?). by exists y, x.
  - intros (y & x & -> & ? & ?). exists y. split; [by exists x|done].
Qed.

Lemma loops3_in {A} zs ys xs (f : Z -> Z -> Z -> A) i :
  i ∈ loops3 zs ys xs f <-> exists z y x, i = f z y x /\ z ∈ zs /\ y ∈ ys /\ x ∈ xs.
Proof.
  unfold loops3. rewrite list_elem_of_bind. setoid_rewrite loops2_in. split.
  - intros (z & (y & x & -> & ? & ?) & ?). by exists z, y, x.
  - intros (z & y & x & -> & ? & ? & ?). exists z. split; [by exists y, x|done].
Qed.

Lemma loops2_NoDup {A} ys xs (f : Z -> Z -> A) : (forall y x y' x', f y x = f y' x' -> y = y' /\ x = x') ->
  NoDup ys -> NoDup xs -> NoDup (loops2 ys xs f).
Proof.
  intros Hf Hy Hx. apply NoDup_bind; [|intros y _; apply NoDup_fmap_2_strong; [|done]|done].
  - intros y y' i _ _ (x & -> & _)%list_elem_of_fmap (x' & E & _)%list_elem_of_fmap. by apply Hf in E as [-> _].
  - intros x x' _ _ E. by apply Hf in E as [_ ->].
Qed.

Lemma loops3_NoDup {A} zs ys xs (f : Z -> Z -> Z -> A) : (forall z y x z' y' x', f z y x = f z' y' x' -> z = z' /\ y = y' /\ x = x') ->
  NoDup zs -> NoDup ys -> NoDup xs -> NoDup (loops3 zs ys xs f).
Proof.
  intros Hf Hz Hy Hx. apply NoDup_bind; [|intros z _; apply loops2_NoDup; try done|done].
  - intros z z' i _ _ (y & x & -> & _)%loops2_in (y' & x' & E & _)%loops2_in. by apply Hf in E as [-> _].
  - intros y x y' x' E. by apply Hf in E as (_ & -> & ->).
Qed.

Lemma fmap_loops2 {A B} (g : A -> B) ys xs f : g <$> loops2 ys xs f = loops2 ys xs (fun y x => g (f y x)).
Proof.
  unfold loops2. induction ys as [|y ys IH]; [done|]. cbn [mbind list_bind]. rewrite fmap_app, IH. f_equal. by rewrite <- list_fmap_compose.
Qed.

(** ** The pixels of a thread *)

(** The component of the thread that traverses an axis. *)
Definition thread_axis (kind : FilterTypeKind) (axis a : nat) : nat :=
  if decide (kind <> KindNearest /\ axis = 2%nat) then match a with 1%nat => 2%nat | 2%nat => 1%nat | _ => a end else a.

(** The pixels of a region that belong to a thread. *)
Definition belongs (N : nat) (lo hi t : list Z) (s : nat -> nat) (idx : list Z) : Prop :=
  length idx = N /\ forall a, (a < N)%nat ->
    lo !!! a <= idx !!! a < hi !!! a /\ (idx !!! a - lo !!! a) mod (kBlockDim !!! s a) = t !!! s a.

Lemma belongs_2 lo hi t s (P : list Z -> Prop) :
  (forall idx, P idx <-> exists x y, idx = [x; y] /\ (lo !!! 0%nat <= x < hi !!! 0%nat /\ (x - lo !!! 0%nat) mod (kBlockDim !!! s 0%nat) = t !!! s 0%nat) /\
    (lo !!! 1%nat <= y < hi !!! 1%nat /\ (y - lo !!! 1%nat) mod (kBlockDim !!! s 1%nat) = t !!! s 1%nat)) ->
  forall idx, P idx <-> belongs 2 lo hi t s idx.
Proof.
  intros HP idx. rewrite HP. split.
  - intros (x & y & -> & Hx & Hy). split; [done|]. intros a Ha. destruct a as [|[|a]]; [done|done|lia].
  - intros [Hl Ha]. destruct idx as [|x [|y [|z idx]]]; try discriminate Hl. exists x, y. split; [done|]. split; [exact (Ha 0%nat ltac:(lia))|exact (Ha 1%nat ltac:(lia))].
Qed.

Lemma belongs_3 lo hi t s (P : list Z -> Prop) :
  (forall idx, P idx <-> exists x y z, idx = [x; y; z] /\ (lo !!! 0%nat <= x < hi !!! 0%nat /\ (x - lo !!! 0%nat) mod (kBlockDim !!! s 0%nat) = t !!! s 0%nat) /\
    (lo !!! 1%nat <= y < hi !!! 1%nat /\ (y - lo !!! 1%nat) mod (kBlockDim !!! s 1%nat) = t !!! s 1%nat) /\
    (lo !!! 2%nat <= z < hi !!! 2%nat /\ (z - lo !!! 2%nat) mod (kBlockDim !!! s 2%nat) = t !!! s 2%nat)) ->
  forall idx, P idx <-> belongs 3 lo hi t s idx.
Proof.
  intros HP idx. rewrite HP. split.
  - intros (x & y & z & -> & Hx & Hy & Hz). split; [done|]. intros a Ha. destruct a as [|[|[|a]]]; [done|done|done|lia].
  - intros [Hl Ha]. destruct idx as [|x [|y [|z [|? idx]]]]; try discriminate Hl. exists x, y, z. split; [done|].
    split; [exact (Ha 0%nat ltac:(lia))|]. split; [exact (Ha 1%nat ltac:(lia))|exact (Ha 2%nat ltac:(lia))].
Qed.

(** Nested loops over the axes, in any order, visit what belongs to the thread. *)
Ltac visit2 Hx Hy :=
  let into H := first [apply (proj2 Hx) in H|apply (proj2 Hy) in H] in
  let nodup := first [apply (proj1 Hx)|apply (proj1 Hy)] in
  split; [apply loops2_NoDup; [by intros ? ? ? ? [= -> ->]|nodup..]|];
  refine (belongs_2 _ _ _ _ (fun idx => idx ∈ _) _); intros idx; cbv beta; rewrite loops2_in; split; intros (? & ? & -> & H1 & H2);
  eexists _, _; (split; [done|]); [into H1; into H2; by split|split; first [by apply (proj2 Hx)|by apply (proj2 Hy)]].
Ltac visit3 Hx Hy Hz :=
  let into H := first [apply (proj2 Hx) in H|apply (proj2 Hy) in H|apply (proj2 Hz) in H] in
  let nodup := first [apply (proj1 Hx)|apply (proj1 Hy)|apply (proj1 Hz)] in
  split; [apply loops3_NoDup; [by intros ? ? ? ? ? ? [= -> -> ->]|nodup..]|];
  refine (belongs_3 _ _ _ _ (fun idx => idx ∈ _) _); intros idx; cbv beta; rewrite loops3_in; split;
  [intros (? & ? & ? & -> & H1 & H2 & H3); eexists _, _, _; (split; [done|]); into H1; into H2; into H3; by (split; [|split])
  |intros (? & ? & ? & -> & H1 & H2 & H3); eexists _, _, _; (split; [done|]); (split; [|split]);
   first [by apply (proj2 Hx)|by apply (proj2 Hy)|by apply (proj2 Hz)]].

Section Written.
Context (lo hi t : list Z).

Definition region_ok (N : nat) : Prop :=
  (forall a, (a < N)%nat -> 0 <= lo !!! a /\ lo !!! a + 64 < 2 ^ 31 /\ hi !!! a + 64 < 2 ^ 31) /\
  forall ta, (ta < 3)%nat -> 0 <= t !!! ta < kBlockDim !!! ta.

Lemma region_axis N a ta : region_ok N -> (a < N)%nat -> (ta < 3)%nat -> axis_ok lo hi t a ta.
Proof.
  intros [Ha Ht] Hlt Hta. destruct (Ha a Hlt) as (? & ? & ?). split_and!; try done; try (by apply Ht).
  destruct ta as [|[|[|ta]]]; cbn; lia.
Qed.

(** The loops of the filters, with the coordinate of the axis put in. *)
Lemma filter_loops_2 :
  filter_horz 2 lo hi t = loops2 (span_loop lo hi t 0 0) (thread_loop lo hi t 1 1) (fun x y => [x; y]) /\
  filter_vert 2 lo hi t = loops2 (span_loop lo hi t 1 1) (thread_loop lo hi t 0 0) (fun y x => [x; y]).
Proof.
  unfold filter_horz, filter_vert, ForAllOrthogonalToHorz, ForAllOrthogonalToVert, loops2. cbn [Nat.eqb].
  split; apply list_bind_ext; try done; intros x; by rewrite <- list_fmap_compose.
Qed.

Lemma filter_loops_3 :
  filter_horz 3 lo hi t = loops3 (span_loop lo hi t 0 0) (thread_loop lo hi t 2 2) (thread_loop lo hi t 1 1) (fun x z y => [x; y; z]) /\
  filter_vert 3 lo hi t = loops3 (span_loop lo hi t 1 1) (thread_loop lo hi t 2 2) (thread_loop lo hi t 0 0) (fun y z x => [x; y; z]) /\
  filter_depth lo hi t = loops3 (span_loop lo hi t 2 1) (thread_loop lo hi t 1 2) (thread_loop lo hi t 0 0) (fun z y x => [x; y; z]).
Proof.
  unfold filter_horz, filter_vert, ForAllOrthogonalToHorz, ForAllOrthogonalToVert, loops3. cbn [Nat.eqb].
  split_and!; [| |done]; apply list_bind_ext; try done; intros x; by rewrite fmap_loops2.
Qed.

Lemma written_spec_2 kind axis : (axis < 2)%nat -> region_ok 2 ->
  NoDup (written 2 lo hi t kind axis) /\
  forall idx, idx ∈ written 2 lo hi t kind axis <-> belongs 2 lo hi t (thread_axis kind axis) idx.
Proof.
  intros Ha Hr. assert (forall a, (a < 2)%nat -> axis_loop lo hi t a a (thread_loop lo hi t a a) /\ axis_loop lo hi t a a (span_loop lo hi t a a)) as H.
  { intros a Hlt. pose proof (region_axis 2 a a Hr Hlt ltac:(lia)). by split; [apply thread_loop_spec|apply span_loop_spec]. }
  destruct (H 0%nat ltac:(lia)) as [Hx Sx], (H 1%nat ltac:(lia)) as [Hy Sy], filter_loops_2 as [Eh Ev].
  destruct kind; [|destruct axis as [|[|axis]]; [| |lia]..]; unfold written; rewrite ?Eh, ?Ev;
    unfold ForAllPixels, ForAllPixelsHorz, ForAllPixelsVert; cbn [Nat.eqb]; first [visit2 Hx Hy|visit2 Sx Hy|visit2 Hx Sy].
Qed.

Lemma written_spec_3 kind axis : (axis < 3)%nat -> region_ok 3 ->
  NoDup (written 3 lo hi t kind axis) /\
  forall idx, idx ∈ written 3 lo hi t kind axis <-> belongs 3 lo hi t (thread_axis kind axis) idx.
Proof.
  intros Ha Hr. assert (forall a ta, (a < 3)%nat -> (ta < 3)%nat ->
    axis_loop lo hi t a ta (thread_loop lo hi t a ta) /\ axis_loop lo hi t a ta (span_loop lo hi t a ta)) as H.
  { intros a ta Hlt Hta. pose proof (region_axis 3 a ta Hr Hlt Hta). by split; [apply thread_loop_spec|apply span_loop_spec]. }
  destruct (H 0%nat 0%nat ltac:(lia) ltac:(lia)) as [Hx Sx], (H 1%nat 1%nat ltac:(lia) ltac:(lia)) as [Hy Sy],
    (H 2%nat 2%nat ltac:(lia) ltac:(lia)) as [Hz _], (H 1%nat 2%nat ltac:(lia) ltac:(lia)) as [Dy _],
    (H 2%nat 1%nat ltac:(lia) ltac:(lia)) as [Dz Sz], filter_loops_3 as (Eh & Ev & Ed).
  destruct kind; [|destruct axis as [|[|[|axis]]]; [| | |lia]..]; unfold written; cbn [Nat.eqb]; rewrite ?Eh, ?Ev, ?Ed;
    unfold ForAllPixels, ForAllPixelsHorz, ForAllPixelsVert, linear_depth; cbn [Nat.eqb];
    first [visit3 Hx Hy Hz|visit3 Sx Hy Hz|visit3 Hx Sy Hz|visit3 Hx Dy Dz|visit3 Hx Dy Sz].
Qed.

Lemma written_spec N kind axis : N = 2%nat \/ N = 3%nat -> (axis < N)%nat -> region_ok N ->
  NoDup (written N lo hi t kind axis) /\
  forall idx, idx ∈ written N lo hi t kind axis <-> belongs N lo hi t (thread_axis kind axis) idx.
Proof. intros [->| ->]; [apply written_spec_2|apply written_spec_3]. Qed.
End Written.

(** ** Blocks *)

Lemma vmap2_run (f : Z -> Z -> outcome Z) (g : Z -> Z -> Z) a b : Forall2 (fun x y => f x y = Ok (g x y)) a b -> vmap2 f a b = Ok (zip_with g a b).
Proof.
  intros HF. unfold vmap2.
  assert (forall acc, mfold (fun r '(x, y) => z ← f x y; Ok (r ++ [z])) (zip a b) acc = Ok (acc ++ zip_with g a b)) as H; [|by rewrite H].
  induction HF as [|x y a b Hxy _ IH]; intros acc; cbn [zip zip_with mfold]; [by rewrite app_nil_r|].
  rewrite Hxy. cbn [mbind outcome_bind]. by rewrite IH, <- app_assoc.
Qed.

(** The numbers of blocks reach over the block shapes without overflow. *)
Definition reach (nb bs : list Z) : Prop := Forall2 (fun n s => 1 <= n /\ 1 <= s /\ n * s + s + 64 < 2 ^ 31) nb bs.

Lemma CurrentBlock_ok N nb bs b : N = 2%nat \/ N = 3%nat -> length nb = N -> reach nb bs -> 0 <= b < prod nb ->
  exists cb, inside nb cb /\ flat nb cb = b /\
    CurrentBlock nb bs b = Ok (zip_with Z.mul bs cb, zip_with Z.add (zip_with Z.mul bs cb) bs).
Proof.
  intros HN Hl Hr Hb.
  assert (forall cb, inside nb cb -> vmap2 (fun a b => int32 (a * b)) bs cb = Ok (zip_with Z.mul bs cb) /\
    vmap2 (fun a b => int32 (a + b)) (zip_with Z.mul bs cb) bs = Ok (zip_with Z.add (zip_with Z.mul bs cb) bs)) as Hv.
  { intros cb Hcb. split; apply vmap2_run; revert cb Hcb; clear -Hr; induction Hr as [|n s nb bs (H1 & H2 & H3) Hr IH];
      intros cb Hcb; inversion Hcb as [|? c ? cb' Hc Hcb']; subst; cbn [zip_with]; constructor; try (by apply IH); apply int32_ok; unfold in_s; nia. }
  assert (exists cb, inside nb cb /\ flat nb cb = b /\ currentBlock nb b = Ok cb) as (cb & Hin & Hf & Hcb).
  { unfold currentBlock. destruct HN as [->| ->].
    - destruct nb as [|nx [|ny [|? ?]]]; try discriminate Hl. inversion Hr as [|? sx ? ? Hx Hr1]; subst. inversion Hr1 as [|? sy ? ? Hy _]; subst.
      change (prod [nx; ny]) with (nx * (ny * 1)) in Hb. exists [Z.rem b nx; Z.quot b nx].
      rewrite (proj2 (Z.eqb_neq nx 0)) by lia. rewrite Z.rem_mod_nonneg, Z.quot_div_nonneg by lia.
      pose proof (Z.div_mod b nx ltac:(lia)). pose proof (Z.mod_pos_bound b nx ltac:(lia)). pose proof (Z.div_pos b nx ltac:(lia) ltac:(lia)).
      split_and!; [|cbn [flat]; lia|done]. repeat constructor; nia.
    - destruct nb as [|nx [|ny [|nz [|? ?]]]]; try discriminate Hl. inversion Hr as [|? sx ? ? Hx Hr1]; subst. inversion Hr1 as [|? sy ? ? Hy Hr2]; subst.
      inversion Hr2 as [|? sz ? ? Hz _]; subst. change (prod [nx; ny; nz]) with (nx * (ny * (nz * 1))) in Hb.
      assert (0 <= b / nx) by (apply Z.div_pos; lia). exists [b mod nx; (b / nx) mod ny; b / nx / ny].
      rewrite (proj2 (Z.eqb_neq nx 0)), (proj2 (Z.eqb_neq ny 0)) by lia. cbn [orb]. cbv zeta.
      rewrite (Z.rem_mod_nonneg b), (Z.quot_div_nonneg b) by lia. rewrite Z.rem_mod_nonneg, Z.quot_div_nonneg by lia.
      pose proof (Z.div_mod b nx ltac:(lia)). pose proof (Z.mod_pos_bound b nx ltac:(lia)).
      pose proof (Z.div_mod (b / nx) ny ltac:(lia)). pose proof (Z.mod_pos_bound (b / nx) ny ltac:(lia)). pose proof (Z.div_pos (b / nx) ny ltac:(lia) ltac:(lia)).
      assert (b / nx < ny * nz) by nia. split_and!; [|cbn [flat]; nia|done]. repeat constructor; nia. }
  exists cb. split_and!; [done|done|]. unfold CurrentBlock. rewrite Hcb. cbn [mbind outcome_bind].
  destruct (Hv cb Hin) as [-> E2]. cbn [mbind outcome_bind]. rewrite E2. done.
Qed.

(** ** The pixels of a block *)

(** The block and the thread of a pixel. *)
Definition block_index (nb bs idx : list Z) : Z := flat nb (zip_with Z.div idx bs).
Definition thread_of (N : nat) (s : nat -> nat) (bs idx : list Z) : list Z :=
  (fun ta => if (s ta <? N)%nat then (idx !!! s ta mod bs !!! s ta) mod (kBlockDim !!! ta) else 0) <$> seq 0 3.

Lemma thread_of_at N s bs idx ta : (ta < 3)%nat ->
  thread_of N s bs idx !!! ta = if (s ta <? N)%nat then (idx !!! s ta mod bs !!! s ta) mod (kBlockDim !!! ta) else 0.
Proof. intros Hta. destruct ta as [|[|[|ta]]]; [done..|lia]. Qed.

Lemma inside_lookup e i : inside e i <-> length i = length e /\ forall a, (a < length e)%nat -> 0 <= i !!! a < e !!! a.
Proof.
  unfold inside. split.
  - intros H. split; [by rewrite (Forall2_length _ _ _ H)|]. intros a Ha. destruct (lookup_lt_is_Some_2 e a Ha) as [x Hx].
    destruct (Forall2_lookup_l _ _ _ _ _ H Hx) as (y & Hy & Hxy). by rewrite (list_lookup_total_correct _ _ _ Hx), (list_lookup_total_correct _ _ _ Hy).
  - intros [Hl H]. apply Forall2_same_length_lookup_2; [done|]. intros a x y Hx Hy.
    specialize (H a (lookup_lt_Some _ _ _ Hx)). by rewrite (list_lookup_total_correct _ _ _ Hx), (list_lookup_total_correct _ _ _ Hy) in H.
Qed.

Lemma zip_with_total (f : Z -> Z -> Z) a b i : (i < length a)%nat -> (i < length b)%nat -> zip_with f a b !!! i = f (a !!! i) (b !!! i).
Proof.
  intros Ha Hb. destruct (lookup_lt_is_Some_2 a i Ha) as [x Hx], (lookup_lt_is_Some_2 b i Hb) as [y Hy].
  rewrite (list_lookup_total_correct _ _ _ Hx), (list_lookup_total_correct _ _ _ Hy). apply list_lookup_total_correct. by rewrite lookup_zip_with, Hx, Hy.
Qed.

Lemma thread_axis_involutive kind axis a : thread_axis kind axis (thread_axis kind axis a) = a.
Proof. unfold thread_axis. destruct (decide _); [|done]. by destruct a as [|[|[|a]]]. Qed.

Lemma thread_axis_bound N kind axis a : N = 2%nat \/ N = 3%nat -> (axis < N)%nat -> (a < 3)%nat ->
  (thread_axis kind axis a < 3)%nat /\ (N = 2%nat -> thread_axis kind axis a = a).
Proof. intros HN Hx Ha. unfold thread_axis. destruct (decide _) as [[_ ->]|]; [|lia]. split; [destruct a as [|[|[|a]]]; lia|lia]. Qed.

Lemma in_block_threads t : t ∈ block_threads <-> length t = 3%nat /\ forall ta, (ta < 3)%nat -> 0 <= t !!! ta < kBlockDim !!! ta.
Proof.
  unfold block_threads. rewrite loops3_in. setoid_rewrite elem_of_zrange. split.
  - intros (z & y & x & -> & Hz & Hy & Hx). split; [done|]. intros ta Hta. destruct ta as [|[|[|ta]]]; [done..|lia].
  - intros [Hl Ht]. destruct t as [|x [|y [|z [|? t]]]]; try discriminate Hl. exists z, y, x.
    split; [done|]. split; [exact (Ht 2%nat ltac:(lia))|]. split; [exact (Ht 1%nat ltac:(lia))|exact (Ht 0%nat ltac:(lia))].
Qed.

(** A coordinate in the part of a block. *)
Lemma block_coordinate S c x h : 1 <= S -> 0 <= c ->
  S * c <= x < Z.min (S * c + S) h <-> 0 <= x < h /\ x / S = c.
Proof.
  intros HS Hc. pose proof (Z.div_mod x S ltac:(lia)). pose proof (Z.mod_pos_bound x S ltac:(lia)). split.
  - intros Hx. split; [nia|]. symmetry. apply (Z.div_unique x S c (x - S * c)); lia.
  - intros [Hx <-]. nia.
Qed.

Section Block.
Context (N : nat) (HN : N = 2%nat \/ N = 3%nat) (nb bs out : list Z).
Context (Hnb : length nb = N) (Hbs : length bs = N) (Hout : length out = N).
Context (Hreach : reach nb bs) (Hcover : forall a, (a < N)%nat -> out !!! a <= nb !!! a * bs !!! a).
#[local] Set Default Proof Using "Type*".

Lemma reach_at a : (a < N)%nat -> 1 <= nb !!! a /\ 1 <= bs !!! a /\ nb !!! a * bs !!! a + bs !!! a + 64 < 2 ^ 31.
Proof.
  intros Ha. destruct (lookup_lt_is_Some_2 nb a ltac:(lia)) as [n En], (lookup_lt_is_Some_2 bs a ltac:(lia)) as [s Es].
  rewrite (list_lookup_total_correct _ _ _ En), (list_lookup_total_correct _ _ _ Es). by apply (Forall2_lookup_lr _ _ _ _ _ _ Hreach En Es).
Qed.

(** The block of a pixel. *)
Lemma pixel_block idx : inside out idx -> inside nb (zip_with Z.div idx bs).
Proof.
  intros [Hl Hi]%inside_lookup. apply inside_lookup. rewrite length_zip_with. split; [lia|]. intros a Ha. rewrite zip_with_total by lia.
  destruct (reach_at a ltac:(lia)) as (H1 & H2 & _). specialize (Hi a ltac:(lia)). specialize (Hcover a ltac:(lia)).
  split; [apply Z.div_pos; lia|]. apply Z.div_lt_upper_bound; lia.
Qed.

(** What belongs to a thread of a block, of the whole output. *)
Lemma belongs_block kind axis cb t idx : (axis < N)%nat -> inside nb cb -> t ∈ block_threads ->
  let lo := zip_with Z.mul bs cb in
  belongs N lo (zip_with Z.min (zip_with Z.add lo bs) out) t (thread_axis kind axis) idx <->
  inside out idx /\ cb = zip_with Z.div idx bs /\ t = thread_of N (thread_axis kind axis) bs idx.
Proof.
  intros Hax Hcb Ht lo. apply in_block_threads in Ht as [Hlt Ht]. pose proof Hcb as [Hlc Hci]%inside_lookup.
  assert (forall a, (a < N)%nat -> lo !!! a = bs !!! a * cb !!! a /\ zip_with Z.min (zip_with Z.add lo bs) out !!! a = Z.min (bs !!! a * cb !!! a + bs !!! a) (out !!! a)) as Hlo.
  { intros a Ha. unfold lo. rewrite !zip_with_total by (rewrite ?length_zip_with; lia). done. }
  set (s := thread_axis kind axis). split.
  - intros [Hl Hb]. assert (forall a, (a < N)%nat -> 0 <= idx !!! a < out !!! a /\ idx !!! a / bs !!! a = cb !!! a /\
      (idx !!! a mod bs !!! a) mod (kBlockDim !!! s a) = t !!! s a) as H.
    { intros a Ha. destruct (Hb a Ha) as [H1 H2]. destruct (Hlo a Ha) as [E1 E2]. rewrite E1, E2 in *. destruct (reach_at a Ha) as (_ & Hs & _).
      apply block_coordinate in H1 as [H1 Hq]; [|done|apply Hci; lia]. split; [done|]. split; [done|]. rewrite <- H2, <- Hq. f_equal. apply Z.mod_eq. lia. }
    split_and!.
    + apply inside_lookup. split; [lia|]. intros a Ha. apply H. lia.
    + apply (list_eq_same_length _ _ N); [rewrite length_zip_with; lia|lia|]. intros a x y Ha Hx Hy.
      apply list_lookup_total_correct in Hx, Hy. rewrite zip_with_total in Hy by lia. subst. by destruct (H a Ha) as (_ & -> & _).
    + apply (list_eq_same_length _ _ 3); [done|done|]. intros ta x y Hta Hx Hy. apply list_lookup_total_correct in Hx.
      apply list_lookup_total_correct in Hy. rewrite thread_of_at in Hy by done. subst x y.
      destruct (thread_axis_bound N kind axis ta HN Hax Hta) as [Hs3 Hs2]. fold s in Hs3, Hs2. destruct (Nat.ltb_spec (s ta) N) as [Hlt2|Hge].
      * destruct (H (s ta) Hlt2) as (_ & _ & H3). assert (s (s ta) = ta) as Hinv by apply thread_axis_involutive.
        rewrite Hinv in H3. by rewrite H3.
      * destruct HN as [HN2|HN3]; [|lia]. rewrite Hs2 in Hge by done. assert (ta = 2%nat) as -> by lia.
        specialize (Ht 2%nat ltac:(lia)). change (kBlockDim !!! 2%nat) with 1 in Ht. lia.
  - intros ([Hl Hi]%inside_lookup & -> & ->). split; [lia|]. intros a Ha. destruct (Hlo a Ha) as [-> ->]. destruct (reach_at a Ha) as (_ & Hs & _).
    rewrite zip_with_total by lia. specialize (Hi a ltac:(lia)). assert (0 <= idx !!! a / bs !!! a) by (apply Z.div_pos; lia). split.
    + by apply block_coordinate.
    + rewrite <- Z.mod_eq by lia. assert (a < 3)%nat by lia. destruct (thread_axis_bound N kind axis a HN Hax ltac:(lia)) as [Hs3 _]. fold s in Hs3.
      rewrite thread_of_at by done.
      assert (s (s a) = a) as -> by apply thread_axis_involutive. by rewrite (proj2 (Nat.ltb_lt _ _) Ha).
Qed.
End Block.

(** ** What is read *)

Lemma clamp_inside x n : 1 <= n -> 0 <= clamp x 0 (n - 1) < n.
Proof. intros Hn. unfold clamp. destruct (Z.leb_spec x 0); [lia|]. destruct (Z.leb_spec (n - 1) x); lia. Qed.

(** Replacing the coordinate of the axis moves an index of the output into the input. *)
Lemma inside_axis inSh axis h idx x : inside (<[axis := h]> inSh) idx -> (axis < length inSh)%nat -> 0 <= x < inSh !!! axis ->
  inside inSh (<[axis := x]> idx).
Proof.
  intros [Hl Hi]%inside_lookup Ha Hx. rewrite length_insert in Hl, Hi. apply inside_lookup. rewrite length_insert. split; [done|]. intros a Hlt.
  destruct (decide (a = axis)) as [->|Hne]; [by rewrite list_lookup_total_insert_eq by lia|]. rewrite list_lookup_total_insert_ne by done.
  specialize (Hi a Hlt). by rewrite list_lookup_total_insert_ne in Hi by done.
Qed.

Lemma good_support f : good_filter f -> exists s, support f = Ok s /\ s <= 8192.
Proof.
  intros [->|[(s & Es & Hs) _ _]]; [exists (-1); split; [vm_compute; reflexivity|lia]|]. exists s. split; [done|]. unfold kMaxGPUFilterSupport in Hs. lia.
Qed.

Lemma pixel_reads_ok src kind f axis inSh h idx : good_filter f -> (axis < length inSh)%nat -> inside (<[axis := h]> inSh) idx ->
  (forall a x, (a < length inSh)%nat -> 0 <= x < <[axis := h]> inSh !!! a -> Z.abs (src a x) <= 2 ^ 30) ->
  exists rs, pixel_reads src kind f axis inSh idx = Ok rs /\ (Forall (fun n => 1 <= n) inSh -> Forall (inside inSh) rs).
Proof.
  intros Hf Ha Hi Hsrc. pose proof Hi as [Hl Hi']%inside_lookup. rewrite length_insert in Hl, Hi'.
  assert (Z.abs (src axis (idx !!! axis)) <= 2 ^ 30) as Hs by (apply Hsrc; [done|apply Hi'; done]).
  assert (forall x, Forall (fun n => 1 <= n) inSh -> inside inSh (<[axis := clamp x 0 (inSh !!! axis - 1)]> idx)) as Hat.
  { intros x Hpos. eapply inside_axis; [done|done|]. apply clamp_inside. rewrite Forall_forall in Hpos. by apply Hpos, list_elem_of_lookup_total_2. }
  unfold pixel_reads. destruct kind.
  - eexists. split; [done|]. intros Hpos. constructor; [|constructor]. apply inside_lookup. rewrite length_imap. split; [done|]. intros a Hlt.
    destruct (lookup_lt_is_Some_2 idx a ltac:(lia)) as [x Hx]. rewrite (list_lookup_total_correct _ a (clamp (src a x) 0 (inSh !!! a - 1)));
      [|by rewrite list_lookup_imap, Hx]. apply clamp_inside. rewrite Forall_forall in Hpos. by apply Hpos, list_elem_of_lookup_total_2.
  - rewrite !int32_ok by (unfold in_s; lia). eexists. split; [done|]. intros Hpos. by repeat constructor; apply Hat.
  - destruct (good_support f Hf) as (n & -> & Hn). cbn [mbind outcome_bind].
    destruct (mfold_list (fun r k => inIdx ← (x ← int32 (src axis (idx !!! axis) + k); Ok (<[axis := clamp x 0 (inSh !!! axis - 1)]> idx)); Ok (r ++ [inIdx]))
      (fun _ r => Forall (fun n => 1 <= n) inSh -> Forall (inside inSh) r) (zrange 0 n) []) as (rs & E & Hrs); [by constructor| |by exists rs].
    intros pre k post r E Hr. assert (0 <= k < n) as Hk by (apply elem_of_zrange; rewrite E; set_solver).
    rewrite int32_ok by (unfold in_s; lia). eexists. split; [done|]. intros Hpos. apply Forall_app. split; [by apply Hr|]. constructor; [by apply Hat|constructor].
Qed.

(** ** One thread *)

(** The pixels of a thread are written once each, and the reads have the property. *)
Record thread_writes (P : list Z -> Prop) (R : list (list Z) -> Prop) (r : outcome (list write)) : Prop := {
  tw_result : exists ws, r = Ok ws;
  tw_distinct : forall ws, r = Ok ws -> NoDup ws.*1;
  tw_pixels : forall ws, r = Ok ws -> forall idx, idx ∈ ws.*1 <-> P idx;
  tw_reads : forall ws, r = Ok ws -> Forall (fun w => R w.2) ws }.

Lemma thread_writes_intro P R r ws : r = Ok ws -> NoDup ws.*1 -> (forall idx, idx ∈ ws.*1 <-> P idx) -> Forall (fun w => R w.2) ws -> thread_writes P R r.
Proof. intros -> H1 H2 H3. split; [by exists ws|by intros ? [= <-]..]. Qed.

Lemma writes_run (g : list Z -> outcome (list (list Z))) (R : list (list Z) -> Prop) l :
  Forall (fun idx => exists rs, g idx = Ok rs /\ R rs) l ->
  exists ws, mfold (fun ws idx => rs ← g idx; Ok (ws ++ [(idx, rs)])) l [] = Ok ws /\ ws.*1 = l /\ Forall (fun w : write => R w.2) ws.
Proof.
  intros HF. apply (mfold_list _ (fun pre (ws : list write) => ws.*1 = pre /\ Forall (fun w => R w.2) ws)); [by split|].
  intros pre idx post ws -> [Hw HR]. apply Forall_app in HF as [_ HF]. apply Forall_cons in HF as [(rs & -> & Hrs) _].
  eexists. split; [done|]. rewrite fmap_app, Hw. split; [done|]. apply Forall_app. split; [done|]. by repeat constructor.
Qed.

(** A pass of a sample over a grid of blocks that covers its output. *)
Record pass_ready (N : nat) (d : SampleDesc) (pass : nat) (nb : list Z) : Prop := {
  pr_dims : N = 2%nat \/ N = 3%nat;
  pr_lengths : length nb = N /\ length (blockShape d !!! pass) = N /\ length (shapes d !!! pass) = N;
  pr_reach : reach nb (blockShape d !!! pass);
  pr_cover : forall a, (a < N)%nat -> shapes d !!! S pass !!! a <= nb !!! a * (blockShape d !!! pass) !!! a;
  pr_axis : (processingOrder d !!! pass < N)%nat;
  pr_chain : shapes d !!! S pass = <[processingOrder d !!! pass := shapes d !!! S pass !!! (processingOrder d !!! pass)]> (shapes d !!! pass);
  pr_small : Forall (fun n => n <= 2 ^ 23) (shapes d !!! S pass);
  pr_filter : good_filter (filter d !!! pass) }.

(** What a thread of a sample's pass owes. *)
Definition owes (N : nat) (d : SampleDesc) (pass : nat) (nb : list Z) (b : Z) (t idx : list Z) : Prop :=
  inside (shapes d !!! S pass) idx /\ block_index nb (blockShape d !!! pass) idx = b /\
  t = thread_of N (thread_axis (filterKind d !!! pass) (processingOrder d !!! pass)) (blockShape d !!! pass) idx.
Definition reads_inside (d : SampleDesc) (pass : nat) (rs : list (list Z)) : Prop :=
  Forall (fun n => 1 <= n) (shapes d !!! pass) -> Forall (inside (shapes d !!! pass)) rs.
Definition source_bounded (src : nat -> Z -> Z) : Prop := forall a x, 0 <= x < 2 ^ 23 -> Z.abs (src a x) <= 2 ^ 30.

Lemma thread_run N d pass nb src b t : pass_ready N d pass nb -> source_bounded src -> 0 <= b < prod nb -> t ∈ block_threads ->
  exists lo hi, CurrentBlock nb (blockShape d !!! pass) b = Ok (lo, hi) /\ length lo = N /\
    (forall idx, owes N d pass nb b t idx -> forall a, (a < N)%nat -> lo !!! a < (shapes d !!! S pass) !!! a) /\
    thread_writes (owes N d pass nb b t) (reads_inside d pass)
      (RunResamplingPass src d pass lo (zip_with Z.min hi (shapes d !!! S pass)) t).
Proof.
  intros [HN (Hnb & Hbs & Hin) Hr Hcov Hax Hch Hsm Hf] Hsrc Hb Ht. set (out := shapes d !!! S pass) in *. set (bs := blockShape d !!! pass) in *.
  assert (length out = N) as Hout by (rewrite Hch, length_insert; done).
  destruct (CurrentBlock_ok N nb bs b HN Hnb Hr Hb) as (cb & Hcb & Hflat & ->). eexists _, _. split; [done|].
  pose proof (belongs_block N HN nb bs out Hnb Hbs Hout Hr Hcov (filterKind d !!! pass) (processingOrder d !!! pass) cb t) as Hbel.
  assert (forall idx, belongs N (zip_with Z.mul bs cb) (zip_with Z.min (zip_with Z.add (zip_with Z.mul bs cb) bs) out) t
      (thread_axis (filterKind d !!! pass) (processingOrder d !!! pass)) idx <-> owes N d pass nb b t idx) as Howes.
  { intros idx. rewrite Hbel by done. unfold owes, block_index. split.
    - intros (Hi & -> & ->). split_and!; done.
    - intros (Hi & Hfl & ->). split_and!; [done| |done]. apply (flat_inj nb); [done| |by rewrite Hflat]. by apply (pixel_block N HN nb bs out). }
  pose proof Hcb as [Hlc Hci]%inside_lookup. split; [rewrite length_zip_with; lia|]. split.
  { intros idx Hi a Ha. apply Howes in Hi as [_ Hi]. specialize (Hi a Ha). rewrite (zip_with_total Z.min) in Hi by (rewrite ?length_zip_with; lia).
    fold out. lia. }
  unfold RunResamplingPass. rewrite Hin.
  assert (region_ok (zip_with Z.mul bs cb) (zip_with Z.min (zip_with Z.add (zip_with Z.mul bs cb) bs) out) t N) as Hreg.
  { split; [|by apply in_block_threads]. intros a Ha. destruct (reach_at N HN nb bs out Hnb Hbs Hout Hr Hcov a Ha) as (H1 & H2 & H3).
    rewrite !zip_with_total by (rewrite ?length_zip_with; lia). specialize (Hci a ltac:(lia)). nia. }
  destruct (written_spec (zip_with Z.mul bs cb) (zip_with Z.min (zip_with Z.add (zip_with Z.mul bs cb) bs) out) t N
    (filterKind d !!! pass) (processingOrder d !!! pass) HN Hax Hreg) as [Hnd Hel].
  destruct (writes_run (pixel_reads src (filterKind d !!! pass) (filter d !!! pass) (processingOrder d !!! pass) (shapes d !!! pass)) (reads_inside d pass)
    (written N (zip_with Z.mul bs cb) (zip_with Z.min (zip_with Z.add (zip_with Z.mul bs cb) bs) out) t (filterKind d !!! pass) (processingOrder d !!! pass)))
    as (ws & E & Ew & HR).
  { apply Forall_forall. intros idx Hidx%Hel%Howes. destruct Hidx as [Hi _]. fold out in Hi. rewrite Hch in Hi. apply (pixel_reads_ok src _ _ _ _ (out !!! (processingOrder d !!! pass)) idx Hf); [lia|done|].
    rewrite <- Hch. intros a x Ha Hx. apply Hsrc. rewrite Forall_forall in Hsm. assert (out !!! a <= 2 ^ 23) by (apply Hsm, list_elem_of_lookup_total_2; lia). lia. }
  apply (thread_writes_intro _ _ _ ws); [done|by rewrite Ew| |done]. intros idx. by rewrite Ew, Hel.
Qed.

(** ** The whole grid *)

Lemma block_threads_NoDup : NoDup block_threads.
Proof. apply loops3_NoDup; [by intros ? ? ? ? ? ? [= -> -> ->]|apply NoDup_zrange..]. Qed.

Lemma grid_threads_NoDup l : NoDup (grid_threads l).
Proof.
  unfold grid_threads. apply NoDup_bind; [| |apply NoDup_zrange].
  - intros y y' th _ _ (x & (t & -> & _)%list_elem_of_fmap & _)%list_elem_of_bind (x' & (t' & E & _)%list_elem_of_fmap & _)%list_elem_of_bind. by injection E.
  - intros y _. apply NoDup_bind; [| |apply NoDup_zrange].
    + intros x x' th _ _ (t & -> & _)%list_elem_of_fmap (t' & E & _)%list_elem_of_fmap. by injection E.
    + intros x _. apply NoDup_fmap_2_strong; [by intros ? ? _ _ [= ->]|apply block_threads_NoDup].
Qed.

Lemma in_grid l th : th ∈ grid_threads l <->
  0 <= blockIdx_x th < (l_grid l).1 /\ 0 <= blockIdx_y th < (l_grid l).2 /\ threadIdx th ∈ block_threads.
Proof.
  unfold grid_threads. rewrite list_elem_of_bind. split.
  - intros (y & (x & (t & -> & ?)%list_elem_of_fmap & ?%elem_of_zrange)%list_elem_of_bind & ?%elem_of_zrange). done.
  - intros (? & ? & ?). exists (blockIdx_y th). rewrite elem_of_zrange. split; [|done]. apply list_elem_of_bind. exists (blockIdx_x th).
    rewrite elem_of_zrange. split; [|done]. apply list_elem_of_fmap. exists (threadIdx th). by destruct th.
Qed.

Lemma thread_of_in N s bs idx : thread_of N s bs idx ∈ block_threads.
Proof.
  apply in_block_threads. split; [done|]. intros ta Hta. rewrite thread_of_at by done.
  assert (0 < kBlockDim !!! ta) by (destruct ta as [|[|[|ta]]]; [done..|lia]). destruct (_ <? _)%nat; [by apply Z.mod_pos_bound|lia].
Qed.

Lemma in_pixels out : length out = 2%nat \/ length out = 3%nat -> NoDup (pixels out) /\ forall idx, idx ∈ pixels out <-> inside out idx.
Proof.
  intros [Hl|Hl].
  - destruct out as [|w [|h [|? ?]]]; try discriminate Hl. split; [apply loops2_NoDup; [by intros ? ? ? ? [= -> ->]|apply NoDup_zrange..]|].
    intros idx. cbn [pixels]. rewrite loops2_in. setoid_rewrite elem_of_zrange. split.
    + intros (y & x & -> & Hy & Hx). constructor; [done|constructor; [done|constructor]].
    + intros (x & i1 & Hx & H1 & ->)%Forall2_cons_inv_l. apply Forall2_cons_inv_l in H1 as (y & i2 & Hy & H2 & ->). inversion H2. by exists y, x.
  - destruct out as [|w [|h [|n [|? ?]]]]; try discriminate Hl. split; [apply loops3_NoDup; [by intros ? ? ? ? ? ? [= -> -> ->]|apply NoDup_zrange..]|].
    intros idx. cbn [pixels]. rewrite loops3_in. setoid_rewrite elem_of_zrange. split.
    + intros (z & y & x & -> & Hz & Hy & Hx). constructor; [done|constructor; [done|constructor; [done|constructor]]].
    + intros (x & i1 & Hx & H1 & ->)%Forall2_cons_inv_l. apply Forall2_cons_inv_l in H1 as (y & i2 & Hy & H2 & ->).
      apply Forall2_cons_inv_l in H2 as (z & i3 & Hz & H3 & ->). inversion H3. by exists z, y, x.
Qed.

(** What a kernel gives for a thread. *)
Definition result_of (kernel : cuda_thread -> outcome (list write)) (th : cuda_thread) : list write :=
  match kernel th with Ok w => w | _ => [] end.

Lemma run_grid_run kernel l : Forall (fun th => exists w, kernel th = Ok w) l ->
  run_grid kernel l = Ok (l ≫= fun th => pair (blockIdx_y th) <$> result_of kernel th).
Proof.
  intros HF. unfold run_grid. assert (forall acc, mfold (fun ws th => w ← kernel th; Ok (ws ++ (pair (blockIdx_y th) <$> w))) l acc =
    Ok (acc ++ (l ≫= fun th => pair (blockIdx_y th) <$> result_of kernel th))) as H; [|by rewrite H].
  induction HF as [|th l (w & Hw) _ IH]; intros acc; [by rewrite app_nil_r|]. cbn [mfold mbind list_bind]. unfold result_of at 1. rewrite Hw.
  cbn [mbind outcome_bind]. by rewrite IH, <- app_assoc.
Qed.

Lemma pixel_results kernel ths : pixel_of <$> (ths ≫= fun th => pair (blockIdx_y th) <$> result_of kernel th) =
  (ths ≫= fun th => pair (blockIdx_y th) <$> (result_of kernel th).*1).
Proof. induction ths as [|th ths IH]; [done|]. cbn [mbind list_bind]. rewrite fmap_app, IH. f_equal. by rewrite <- !list_fmap_compose. Qed.

Section Grid.
Context (N : nat) (pass : nat) (l : launch) (ds : Z -> SampleDesc) (kernel : cuda_thread -> outcome (list write)).
Context (Hready : forall s, 0 <= s < (l_grid l).2 -> pass_ready N (ds s) pass (l_numBlocks l)).
Context (Hgrid : (l_grid l).1 = prod (l_numBlocks l)).
Context (Hkernel : forall th, th ∈ grid_threads l ->
  thread_writes (owes N (ds (blockIdx_y th)) pass (l_numBlocks l) (blockIdx_x th) (threadIdx th)) (reads_inside (ds (blockIdx_y th)) pass) (kernel th)).
#[local] Set Default Proof Using "Type*".

Lemma result_writes th : th ∈ grid_threads l -> kernel th = Ok (result_of kernel th).
Proof. intros H. unfold result_of. by destruct (tw_result _ _ _ (Hkernel th H)) as [ws ->]. Qed.

Lemma result_owes th idx : th ∈ grid_threads l -> idx ∈ (result_of kernel th).*1 <->
  owes N (ds (blockIdx_y th)) pass (l_numBlocks l) (blockIdx_x th) (threadIdx th) idx.
Proof. intros H. apply (tw_pixels _ _ _ (Hkernel th H)). by apply result_writes. Qed.

Lemma grid_distinct : NoDup (grid_threads l ≫= fun th => pair (blockIdx_y th) <$> (result_of kernel th).*1).
Proof.
  apply NoDup_bind; [| |apply grid_threads_NoDup].
  - intros th th' [s idx] Hth Hth' (i & [= -> ->] & Hi)%list_elem_of_fmap (i' & [= E ->] & Hi')%list_elem_of_fmap.
    apply result_owes in Hi as (_ & Hb & Ht); [|done]. apply result_owes in Hi' as (_ & Hb' & Ht'); [|done].
    destruct th, th'. cbn in *. by subst.
  - intros th Hth. apply NoDup_fmap_2_strong; [by intros ? ? _ _ [= ->]|]. apply (tw_distinct _ _ _ (Hkernel th Hth)). by apply result_writes.
Qed.

Lemma grid_complete s idx :
  (s, idx) ∈ (grid_threads l ≫= fun th => pair (blockIdx_y th) <$> (result_of kernel th).*1) <->
  0 <= s < (l_grid l).2 /\ inside (shapes (ds s) !!! S pass) idx.
Proof.
  rewrite list_elem_of_bind. setoid_rewrite list_elem_of_fmap. split.
  - intros (th & (i & [= -> ->] & Hi) & Hth). pose proof Hth as (_ & Hs & _)%in_grid. apply result_owes in Hi as (Hi & _); [|done]. done.
  - intros [Hs Hi]. destruct (Hready s Hs) as [HN (Hnb & Hbs & Hin) Hr Hcov Hax Hch Hsm Hf].
    assert (length (shapes (ds s) !!! S pass) = N) as Hout by (rewrite Hch, length_insert; done).
    exists (MkThread (block_index (l_numBlocks l) (blockShape (ds s) !!! pass) idx) s
      (thread_of N (thread_axis (filterKind (ds s) !!! pass) (processingOrder (ds s) !!! pass)) (blockShape (ds s) !!! pass) idx)).
    assert (MkThread (block_index (l_numBlocks l) (blockShape (ds s) !!! pass) idx) s
      (thread_of N (thread_axis (filterKind (ds s) !!! pass) (processingOrder (ds s) !!! pass)) (blockShape (ds s) !!! pass) idx) ∈ grid_threads l) as Hth.
    { apply in_grid. cbn [blockIdx_x blockIdx_y threadIdx]. split_and!; [| |lia|lia|apply thread_of_in]; rewrite ?Hgrid;
        apply flat_bounds; by apply (pixel_block N HN _ _ (shapes (ds s) !!! S pass)). }
    split; [|done]. exists idx. split; [done|]. apply result_owes; [done|]. by split_and!.
Qed.

(** The grid writes every pixel of every sample once. *)
Lemma grid_covers : exists ws, run_grid kernel (grid_threads l) = Ok ws /\
  pixel_of <$> ws ≡ₚ (zrange 0 (l_grid l).2 ≫= fun s => pair s <$> pixels (shapes (ds s) !!! S pass)) /\
  Forall (fun r : Z * write => reads_inside (ds r.1) pass r.2.2) ws.
Proof.
  eexists. split; [apply run_grid_run, Forall_forall; intros th Hth; eexists; by apply result_writes|]. split.
  - rewrite pixel_results.
    assert (forall s, 0 <= s < (l_grid l).2 -> NoDup (pixels (shapes (ds s) !!! S pass)) /\
      forall idx, idx ∈ pixels (shapes (ds s) !!! S pass) <-> inside (shapes (ds s) !!! S pass) idx) as Hpx.
    { intros s Hs. destruct (Hready s Hs) as [HN (Hnb & Hbs & Hin) _ _ _ Hch _ _]. apply in_pixels. rewrite Hch, length_insert, Hin. by destruct HN; [left|right]. }
    apply NoDup_Permutation; [apply grid_distinct| |].
    + apply NoDup_bind; [| |apply NoDup_zrange].
      * by intros s s' y _ _ (i & -> & _)%list_elem_of_fmap (i' & [= ->] & _)%list_elem_of_fmap.
      * intros s Hs%elem_of_zrange. apply NoDup_fmap_2_strong; [by intros ? ? _ _ [= ->]|by apply Hpx].
    + intros [s idx]. rewrite grid_complete, list_elem_of_bind. split.
      * intros [Hs Hi]. exists s. split; [|by apply elem_of_zrange]. apply list_elem_of_fmap. exists idx. split; [done|]. by apply Hpx.
      * intros (s' & (i & [= -> ->] & Hi)%list_elem_of_fmap & Hs%elem_of_zrange). split; [done|]. by apply Hpx.
  - apply Forall_forall. intros [s w] (th & (w' & [= -> ->] & Hw)%list_elem_of_fmap & Hth)%list_elem_of_bind.
    pose proof (tw_reads _ _ _ (Hkernel th Hth) _ (result_writes th Hth)) as HR. rewrite Forall_forall in HR. by apply HR.
Qed.
End Grid.

(** ** Launches *)

Lemma block_extent u h : 1 <= u -> 1 <= h -> 1 <= clamp u 1 h <= h.
Proof. intros Hu Hh. unfold clamp. destruct (Z.leb_spec u 1); [lia|]. destruct (Z.leb_spec h u); lia. Qed.

(** The number of blocks along an axis. *)
Definition ceil (h s : Z) : Z := (h + s - 1) / s.

Lemma ceil_bounds h s : 1 <= s <= h -> 1 <= ceil h s <= h /\ h <= ceil h s * s <= h + s.
Proof.
  intros Hs. unfold ceil. pose proof (Z.div_mod (h + s - 1) s ltac:(lia)). pose proof (Z.mod_pos_bound (h + s - 1) s ltac:(lia)).
  set (q := (h + s - 1) / s) in *. nia.
Qed.

Lemma DivCeil_run h s : 1 <= s <= h -> h <= 2 ^ 23 -> DivCeil h s = Ok (ceil h s).
Proof.
  intros Hs Hh. unfold DivCeil. rewrite !int32_ok by (unfold in_s; lia). cbn [mbind outcome_bind]. rewrite int32_ok by (unfold in_s; lia).
  cbn [mbind outcome_bind]. rewrite (proj2 (Z.eqb_neq s 0)) by lia. rewrite Z.quot_div_nonneg by lia. done.
Qed.

Lemma shared_size_ok d pass : (filterKind d !!! pass = ShmFilter -> bounded_filter (filter d !!! pass)) ->
  exists m, RequiredSharedMemorySize d pass = Ok m /\ 0 <= m <= 32768.
Proof.
  intros Hf. unfold RequiredSharedMemorySize. destruct (decide _) as [|Hk%dec_stable]; [by exists 0|].
  destruct (Hf Hk) as [(s & -> & Hs) _ _]. unfold kMaxGPUFilterSupport in Hs.
  cbn [mbind outcome_bind]. set (r := if (_ =? 0)%nat then _ else _). assert (r = 32 \/ r = 8) as Hr by (unfold r; destruct (_ =? 0)%nat; [by left|by right]).
  unfold RequiredSharedMemoryElements, CanComputeCoefPerThread, kMaxGPUFilterSupport. rewrite !int32_ok by (unfold in_s; lia). cbn [mbind outcome_bind].
  destruct (Z.leb_spec (s * r) 8192); rewrite ?int32_ok by (unfold in_s; lia); cbn [mbind outcome_bind];
    (rewrite wraps_small by (unfold in_s; lia)); eexists; (split; [done|lia]).
Qed.

(** Numbers of blocks within a bound whose product fits. *)
Definition blocks_within (M nb : list Z) : Prop := Forall2 (fun m n => 1 <= n <= m) M nb.

Lemma grid_ok N M nb n : N = 2%nat \/ N = 3%nat -> length nb = N -> blocks_within M nb -> prod M < 2 ^ 31 ->
  Volume nb = Ok (prod nb) /\ 0 < prod nb < 2 ^ 31 /\ GetKernelGrid nb n = Ok (prod nb, n).
Proof.
  intros HN Hl Hw HM. assert (forall nb M, blocks_within M nb -> 1 <= prod nb <= prod M) as Hp.
  { clear. intros nb M. induction 1 as [|m x M nb Hx _ IH]; [done|]. change (1 <= x * prod nb <= m * prod M). nia. }
  pose proof (Hp _ _ Hw). split; [|split; [lia|]].
  - destruct (Volume_ok M nb 1) as [-> _]; [|eapply Forall2_impl; [exact Hw|cbn; lia]|done]. split; [|lia].
    eapply Forall2_Forall_l; [exact Hw|]. apply Forall_true. lia.
  - unfold GetKernelGrid. destruct HN as [->| ->].
    + destruct nb as [|x [|y [|? ?]]]; try discriminate Hl. change (prod [x; y]) with (x * (y * 1)) in *. rewrite Z.mul_1_r in *.
      cbn [tail hd mfold]. by rewrite int32_ok by (unfold in_s; lia).
    + destruct nb as [|x [|y [|z [|? ?]]]]; try discriminate Hl. change (prod [x; y; z]) with (x * (y * (z * 1))) in *. rewrite Z.mul_1_r, Z.mul_assoc in *.
      inversion Hw as [|m1 ? M1 ? H1 Hw1]; subst. inversion Hw1 as [|m2 ? M2 ? H2 Hw2]; subst. inversion Hw2 as [|m3 ? M3 ? H3 _]; subst.
      assert (x * y <= x * y * z) by nia. cbn [tail hd mfold]. rewrite int32_ok by (unfold in_s; lia). cbn [mbind outcome_bind].
      by rewrite int32_ok by (unfold in_s; lia).
Qed.

Lemma ceils_within M hs ss : Forall2 (fun h s => 1 <= s <= h /\ h <= 2 ^ 23) hs ss -> within M hs -> blocks_within M (zip_with ceil hs ss).
Proof.
  intros HF. revert M. induction HF as [|h s hs ss [Hs _] _ IH]; intros M Hw; inversion Hw as [|m ? M' ? Hm Hw']; subst; cbn [zip_with]; constructor.
  - pose proof (ceil_bounds h s Hs). lia.
  - by apply IH.
Qed.

Section Launch.
Context (N : nat) (HN : N = 2%nat \/ N = 3%nat) (M : list Z).
#[local] Set Default Proof Using "Type*".

(** A description whose samples have something in every pass. *)
Record launchable (d : SampleDesc) : Prop := {
  la_desc : exists inShape outShape c, shapes_ok N M inShape outShape /\ desc_ok N M inShape outShape c d;
  la_input : Forall (fun n => 1 <= n) (shapes d !!! 0%nat) }.

Lemma launch_shape d pass : launchable d -> (pass <= N)%nat ->
  within M (shapes d !!! pass) /\ length (shapes d !!! pass) = N /\ Forall (fun n => 1 <= n <= 2 ^ 23) (shapes d !!! pass).
Proof.
  intros [(i & o & c & Hs & Hd) Hin] Hp. destruct Hd as [_ Ho Hcount Hw Hch _ _ _ _ _]. destruct Hs as [_ Hsm _ Hout Hpos HlM].
  assert (forall p, (p <= N)%nat -> within M (shapes d !!! p)) as HW.
  { intros p Hlt. rewrite Forall_forall in Hw. apply Hw, list_elem_of_lookup_total_2. lia. }
  assert (forall p, (p <= N)%nat -> Forall (fun n => 1 <= n) (shapes d !!! p)) as Hp1.
  { intros p. induction p as [|p IH]; intros Hle; [done|]. rewrite (Hch p) by lia. apply Forall_insert; [apply IH; lia|].
    rewrite Forall_forall in Hpos. apply Hpos, list_elem_of_lookup_total_2. rewrite <- (Forall2_length _ _ _ Hout), HlM.
    assert (processingOrder d !!! p ∈ seq 0 N) as Ha%elem_of_seq; [|lia]. rewrite <- Ho. apply list_elem_of_lookup_total_2. rewrite Ho, length_seq. lia. }
  split; [by apply HW|]. split; [by rewrite <- (Forall2_length _ _ _ (HW pass Hp))|]. apply Forall_forall. intros x Hx. split.
  - specialize (Hp1 pass Hp). rewrite Forall_forall in Hp1. by apply Hp1.
  - apply list_elem_of_lookup in Hx as [a Ha]. destruct (Forall2_lookup_r _ _ _ _ _ (HW pass Hp) Ha) as (m & Hm & Hle).
    rewrite Forall_forall in Hsm. assert (m <= 2 ^ 23) by (apply Hsm, list_elem_of_lookup; by eexists). cbn in Hle. lia.
Qed.

Lemma launch_shared d pass : launchable d -> (pass < N)%nat -> exists m, RequiredSharedMemorySize d pass = Ok m /\ 0 <= m <= 32768.
Proof. intros [(i & o & c & _ & Hd) _] Hp. apply shared_size_ok. by apply (do_kinds _ _ _ _ _ _ Hd). Qed.

(** The blocks that a sample needs in a pass. *)
Definition needed (d : SampleDesc) (pass : nat) : list Z := zip_with ceil (shapes d !!! S pass) (blockShape d !!! pass).

Lemma launch_blocks d pass : launchable d -> (pass < N)%nat ->
  Forall2 (fun h s => 1 <= s <= h /\ h <= 2 ^ 23) (shapes d !!! S pass) (blockShape d !!! pass).
Proof.
  intros Hl Hp. destruct (launch_shape d (S pass) Hl ltac:(lia)) as (_ & HlN & Hpos). destruct Hl as [(i & o & c & Hs & Hd) _].
  destruct (do_blocks _ _ _ _ _ _ Hd) as [_ Hb]. destruct (Hb pass Hp) as (b & Hlb & Hbp & ->). clear -HlN Hpos Hlb Hbp.
  rewrite <- HlN in Hlb. clear HlN. revert b Hlb Hbp. induction Hpos as [|h hs Hh _ IH]; intros [|u b] Hlb Hbp; try discriminate Hlb; [constructor|].
  apply Forall_cons in Hbp as [Hu Hbp]. cbn [zip_with]. constructor; [|apply IH; [by injection Hlb|done]].
  pose proof (block_extent u h ltac:(lia) ltac:(lia)). lia.
Qed.

Lemma needed_run d pass : launchable d -> (pass < N)%nat ->
  vmap2 DivCeil (shapes d !!! S pass) (blockShape d !!! pass) = Ok (needed d pass) /\ length (needed d pass) = N /\ blocks_within M (needed d pass).
Proof.
  intros Hl Hp. pose proof (launch_blocks d pass Hl Hp) as HF. destruct (launch_shape d (S pass) Hl ltac:(lia)) as (Hw & HlN & _). split_and!.
  - apply vmap2_run. eapply Forall2_impl; [exact HF|]. intros h s [Hs Hh]. by apply DivCeil_run.
  - unfold needed. rewrite length_zip_with, <- (Forall2_length _ _ _ HF). lia.
  - by apply ceils_within.
Qed.

(** Any grid of at least the needed blocks, within the bound, is ready. *)
Lemma launch_ready d pass nb : launchable d -> (pass < N)%nat -> Forall2 (fun n n' => n <= n') (needed d pass) nb ->
  reach nb (blockShape d !!! pass) -> pass_ready N d pass nb.
Proof.
  intros Hl Hp Hle Hr. destruct (launch_shape d (S pass) Hl ltac:(lia)) as (_ & HlS & Hpos), (launch_shape d pass Hl ltac:(lia)) as (_ & HlN & _).
  pose proof (launch_blocks d pass Hl Hp) as Hb. destruct (needed_run d pass Hl Hp) as (_ & Hln & _). destruct Hl as [(i & o & c & Hs & Hd) _].
  pose proof Hd as [_ Ho _ _ Hch _ _ [Hlf Hf] _ _].
  assert (processingOrder d !!! pass < N)%nat as Hax.
  { assert (processingOrder d !!! pass ∈ seq 0 N) as Ha%elem_of_seq; [|lia]. rewrite <- Ho. apply list_elem_of_lookup_total_2. rewrite Ho, length_seq. lia. }
  split; try done.
  - split_and!; [by rewrite <- (Forall2_length _ _ _ Hle)|by rewrite <- (Forall2_length _ _ _ Hb)|done].
  - intros a Ha. destruct (lookup_lt_is_Some_2 (shapes d !!! S pass) a ltac:(lia)) as [h Eh].
    destruct (Forall2_lookup_l _ _ _ _ _ Hb Eh) as (s & Es & Hs1 & _). destruct (lookup_lt_is_Some_2 nb a ltac:(rewrite <- (Forall2_length _ _ _ Hle); lia)) as [n En].
    destruct (Forall2_lookup_r _ _ _ _ _ Hle En) as (n0 & En0 & Hn). unfold needed in En0. rewrite lookup_zip_with, Eh, Es in En0. injection En0 as <-.
    rewrite (list_lookup_total_correct _ _ _ Eh), (list_lookup_total_correct _ _ _ Es), (list_lookup_total_correct _ _ _ En).
    pose proof (ceil_bounds h s Hs1). nia.
  - rewrite (Hch pass Hp). by rewrite list_lookup_total_insert_eq by lia.
  - eapply Forall_impl; [exact Hpos|]. cbn. lia.
  - rewrite Forall_forall in Hf. apply Hf, list_elem_of_lookup_total_2. lia.
Qed.
End Launch.

(** Blocks reach no further than twice the extents. *)
Lemma reach_within bs nb M hs : Forall2 (fun h s => 1 <= s <= h /\ h <= 2 ^ 23) hs bs -> within M hs -> blocks_within M nb ->
  (Forall2 (fun n '(h, s) => n = ceil h s) nb (zip hs bs) \/ Forall (fun m => m <= 40000) M) -> reach nb bs.
Proof.
  intros HF. revert M nb. induction HF as [|h s hs bs [Hs Hh] _ IH]; intros M nb Hw Hn Hor; inversion Hw as [|m ? M' ? Hm Hw']; subst;
    inversion Hn as [|? n ? nb' Hnm Hn']; subst; constructor.
  - destruct Hor as [Heq|Hsq].
    + inversion Heq as [|? ? ? ? E]; subst. pose proof (ceil_bounds h s Hs). split_and!; [lia|lia|]. nia.
    + apply Forall_cons in Hsq as [Hm4 _]. split_and!; [lia|lia|]. nia.
  - apply (IH M'); [done|done|]. destruct Hor as [Heq|Hsq]; [left; by inversion Heq|right; by apply Forall_cons in Hsq as [_ ?]].
Qed.

Lemma needed_reach N M d pass : N = 2%nat \/ N = 3%nat -> launchable N M d -> (pass < N)%nat -> reach (needed d pass) (blockShape d !!! pass).
Proof.
  intros HN Hl Hp. destruct (needed_run N HN M d pass Hl Hp) as (_ & _ & Hb), (launch_shape N HN M d (S pass) Hl ltac:(lia)) as (Hw & _).
  pose proof (launch_blocks N HN M d pass Hl Hp) as HF. apply (reach_within _ _ M (shapes d !!! S pass)); [done..|left]. unfold needed. clear -HF.
  induction HF as [|h s hs bs _ _ IH]; [constructor|]. cbn [zip_with zip]. by constructor.
Qed.

(** The grid of a uniform batch. *)
Lemma RunPass_ok launch_error N M d pass n : limits_suffice launch_error -> 1 <= n <= 65535 -> N = 2%nat \/ N = 3%nat -> launchable N M d ->
  (pass < N)%nat -> prod M < 2 ^ 31 ->
  let l m := MkLaunch (needed d pass) (prod (needed d pass), n) m in
  exists m, RunPass launch_error d pass n = Ok (Some (l m)) /\ within_limits (l m) /\ pass_ready N d pass (needed d pass).
Proof.
  intros Hlim Hn HN Hl Hp HM l. destruct (needed_run N HN M d pass Hl Hp) as (E & Hln & Hb). unfold RunPass. rewrite E. cbn [mbind outcome_bind].
  destruct (grid_ok N M (needed d pass) n HN Hln Hb HM) as (-> & Hpos & ->). cbn [mbind outcome_bind]. rewrite (proj2 (Z.eqb_neq _ 0)) by lia.
  assert (pass_ready N d pass (needed d pass)) as Hready.
  { apply (launch_ready N HN M); [done|done| |by apply (needed_reach N M)]. apply Forall_Forall2_diag, Forall_true. lia. }
  destruct (launch_shared N HN M d pass Hl Hp) as (m & -> & Hm). exists m. cbn [mbind outcome_bind]. unfold launch_kernel.
  assert (within_limits (l m)) as Hw by (split_and!; cbn; lia). fold (l m). by rewrite (Hlim _ Hw).
Qed.

(** The grid of samples of different shapes. *)
Lemma RunPassBatch_ok launch_error N M ds pass : limits_suffice launch_error -> Z.of_nat (length ds) <= 65535 -> N = 2%nat \/ N = 3%nat -> Forall (launchable N M) ds -> ds <> [] -> (pass < N)%nat -> length M = N ->
  prod M < 2 ^ 31 -> Forall (fun m => 1 <= m <= 40000) M ->
  let l nb m := MkLaunch nb (prod nb, Z.of_nat (length ds)) m in
  exists nb m, RunPassBatch launch_error N ds pass = Ok (Some (l nb m)) /\ within_limits (l nb m) /\ Forall (fun d => pass_ready N d pass nb) ds.
Proof.
  intros Hlim Hn HN Hds Hne Hp HlM HM HM4 l. unfold RunPassBatch.
  destruct (mfold_list (fun '(maxSharedMemSize, maxNumBlocks) d =>
      sharedMemSize ← RequiredSharedMemorySize d pass;
      numBlocks ← vmap2 DivCeil (shapes d !!! S pass) (blockShape d !!! pass);
      Ok (Z.max maxSharedMemSize sharedMemSize, zip_with Z.max maxNumBlocks numBlocks))
    (fun pre '(m, nb) => 0 <= m <= 32768 /\ length nb = N /\ Forall2 (fun m n => 0 <= n <= m) M nb /\ (pre <> [] -> blocks_within M nb) /\
      Forall (fun d => Forall2 (fun n n' => n <= n') (needed d pass) nb) pre) ds (0, replicate N 0)) as ([m nb] & E & Hm & Hlnb & _ & Hb & Hle).
  - split_and!; [done|done|apply length_replicate| |done|constructor]. rewrite <- HlM. clear -HM4. induction HM4 as [|m M Hm _ IH]; cbn; constructor; [lia|done].
  - intros pre d post [m nb] -> (Hm & Hl1 & H0 & H1 & H2). apply Forall_app in Hds as [_ Hd]. apply Forall_cons in Hd as [Hd _].
    destruct (needed_run N HN M d pass Hd Hp) as (E & Hln & Hb).
    destruct (launch_shared N HN M d pass Hd Hp) as (m' & -> & Hm'). rewrite E. cbn [mbind outcome_bind]. eexists. split; [done|].
    assert (blocks_within M (zip_with Z.max nb (needed d pass))) as Hmax.
    { revert Hb H0. generalize (needed d pass). clear. intros l Hb H0. unfold blocks_within in *. revert l Hb.
      induction H0 as [|m n M nb Hn _ IH]; intros l Hb; inversion Hb as [|? x ? l' Hx Hb']; subst; cbn [zip_with]; constructor; [lia|by apply IH]. }
    split_and!; [lia|lia|rewrite length_zip_with; lia|eapply Forall2_impl; [exact Hmax|cbn; lia]|done|]. apply Forall_app. split.
    + eapply Forall_impl; [exact H2|]. intros d' Hd'. cbn in *. clear -Hd' Hl1 Hln. rewrite <- Hln in Hl1. clear Hln. revert Hl1. generalize (needed d pass).
      induction Hd' as [|x y l1 l2 Hxy _ IH]; intros l Hl1; destruct l as [|z l]; try discriminate Hl1; cbn [zip_with]; constructor; [lia|apply IH; by injection Hl1].
    + constructor; [|constructor]. rewrite <- Hln in Hl1. clear -Hl1. revert Hl1. generalize (needed d pass). induction nb as [|y nb IH]; intros [|z l] Hl1;
        try discriminate Hl1; cbn [zip_with]; constructor; [lia|apply IH; by injection Hl1].
  - rewrite E. cbn [mbind outcome_bind]. specialize (Hb Hne). destruct (grid_ok N M nb (Z.of_nat (length ds)) HN Hlnb Hb HM) as (-> & Hpos & ->).
    cbn [mbind outcome_bind]. rewrite (proj2 (Z.eqb_neq _ 0)) by lia. exists nb, m. unfold launch_kernel.
    assert (within_limits (l nb m)) as Hwl by (assert (length ds <> 0%nat) by (by destruct ds); split_and!; cbn; lia).
    fold (l nb m). rewrite (Hlim _ Hwl). split; [done|]. split; [done|].
    apply Forall_forall. intros d Hd.
    rewrite Forall_forall in Hds, Hle. specialize (Hds d Hd). apply (launch_ready N HN M); [done|done|by apply Hle|].
    destruct (launch_shape N HN M d (S pass) Hds ltac:(lia)) as (Hw & _). apply (reach_within _ _ M (shapes d !!! S pass)); [by apply (launch_blocks N HN M)|done|done|].
    right. eapply Forall_impl; [exact HM4|]. cbn. lia.
Qed.

(** ** Passes *)

#[global] Instance desc_inhabited : Inhabited SampleDesc := populate (MkDesc [] 0 [] [] [] [] [] [] []).

Section Passes.
Context (factory : ResamplingFiltersFactory) (Hfactory : m_filters factory = base_filters).
Context (lanes : Z) (Hlanes : 1 <= lanes <= 2 ^ 25) (N : nat) (HN : N = 2%nat \/ N = 3%nat) (minFilter magFilter : FilterMode) (M : list Z).
#[local] Set Default Proof Using "Type*".

Lemma setup_launchable C sm : sample_ok N M C sm -> exists d, setup_of factory lanes N minFilter magFilter sm = Ok d /\
  (Forall (fun n => 1 <= n) (shapes d !!! 0%nat) -> launchable N M d).
Proof.
  intros (Hs & Hr & Hc).
  destruct (SetupSampleDesc_ok factory Hfactory lanes Hlanes N HN M _ _ (n_channels sm) (s_roi sm) minFilter magFilter Hs Hr) as (d & E & Hd).
  exists d. split; [exact E|]. intros Hin. split; [|done]. by exists (in_shape sm), (out_shape sm), (n_channels sm).
Qed.
End Passes.

Lemma collect_exists {A B} (P : A -> B -> Prop) l : Forall (fun a => exists b, P a b) l -> exists bs, Forall2 P l bs.
Proof. induction 1 as [|a l (b & Hb) _ (bs & H)]; [by exists []|]. exists (b :: bs). by constructor. Qed.

Lemma uniform_kernel N d pass nb grid m src th : pass_ready N d pass nb -> (forall s, source_bounded (src s)) ->
  grid.1 = prod nb -> th ∈ grid_threads (MkLaunch nb grid m) ->
  thread_writes (owes N d pass nb (blockIdx_x th) (threadIdx th)) (reads_inside d pass) (SeparableResamplingKernel src d pass nb th).
Proof.
  intros Hr Hsrc Hg (Hb & _ & Ht)%in_grid. cbn in Hb. rewrite Hg in Hb.
  destruct (thread_run N d pass nb (src (blockIdx_y th)) (blockIdx_x th) (threadIdx th) Hr (Hsrc _) Hb Ht) as (lo & hi & E & _ & _ & Hw).
  unfold SeparableResamplingKernel. rewrite E. exact Hw.
Qed.

(** An early exit of a block leaves no pixel of the sample behind. *)
Lemma batch_kernel N ds pass nb grid m src th d : pass_ready N d pass nb -> (forall s, source_bounded (src s)) ->
  grid.1 = prod nb -> th ∈ grid_threads (MkLaunch nb grid m) -> rd ds (blockIdx_y th) = Ok d ->
  thread_writes (owes N d pass nb (blockIdx_x th) (threadIdx th)) (reads_inside d pass) (SeparableResamplingKernelBatch src ds pass nb th).
Proof.
  intros Hr Hsrc Hg (Hb & _ & Ht)%in_grid Hd. cbn in Hb. rewrite Hg in Hb.
  destruct (thread_run N d pass nb (src (blockIdx_y th)) (blockIdx_x th) (threadIdx th) Hr (Hsrc _) Hb Ht) as (lo & hi & E & Hl & Hlo & Hw).
  unfold SeparableResamplingKernelBatch. rewrite Hd. cbn [mbind outcome_bind]. rewrite E. cbn [mbind outcome_bind].
  destruct (existsb _ _) eqn:Eout; [|exact Hw]. apply existsb_exists in Eout as ([l h] & Hin & Hle%Z.leb_le).
  apply list_elem_of_In, list_elem_of_lookup in Hin as [a Ha]. apply lookup_zip_with_Some in Ha as (x & y & [= <- <-] & Hx & Hy).
  apply (thread_writes_intro _ _ _ []); [done|constructor| |constructor]. intros idx. split; [by intros ?%elem_of_nil|]. intros Ho.
  specialize (Hlo idx Ho a). rewrite (list_lookup_total_correct _ _ _ Hx), (list_lookup_total_correct _ _ _ Hy) in Hlo.
  apply lookup_lt_Some in Hx. lia.
Qed.

(** C13: A pass over a uniform batch. For two or three dimensions, extents up to 2^23
    within a shape whose volume is below 2^31, 1 to 65535 samples (the grid's second
    extent), up to 2^25 lanes, any filters and any region of interest with coordinates
    up to 2^23, when the part of the input that is used is not empty, the launch of a pass is within the limits of CUDA and so
    succeeds, its threads together write every pixel of every sample's output exactly
    once and nothing else, and every pixel they read lies inside the input of the pass.
    The function that maps the coordinates of the output to those of the input is any
    one whose values for coordinates below 2^23 are at most 2^30 in magnitude. *)
Theorem hq_pass_writes_once launch_error expf sinf lanes N M C sm minFilter magFilter pass n src
  (HN : N = 2%nat \/ N = 3%nat) (Hlanes : 1 <= lanes <= 2 ^ 25) (Hsample : sample_ok N M C sm) (Hpass : (pass < N)%nat) (HM : prod M < 2 ^ 31)
  (Hsrc : forall s, source_bounded (src s)) (Hlim : limits_suffice launch_error) (Hn : 1 <= n <= 65535) :
  exists factory d, make_factory expf sinf = Ok factory /\ setup_of factory lanes N minFilter magFilter sm = Ok d /\
    (Forall (fun x => 1 <= x) (shapes d !!! 0%nat) -> exists l ws, RunPass launch_error d pass n = Ok (Some l) /\ within_limits l /\
       run_grid (SeparableResamplingKernel src d pass (l_numBlocks l)) (grid_threads l) = Ok ws /\
       pixel_of <$> ws ≡ₚ (zrange 0 n ≫= fun s => pair s <$> pixels (shapes d !!! S pass)) /\
       Forall (fun r => Forall (inside (shapes d !!! pass)) r.2.2) ws).
Proof.
  exists (MkFactory base_filters (base_table expf sinf)).
  destruct (setup_launchable (MkFactory base_filters (base_table expf sinf)) eq_refl lanes Hlanes N HN minFilter magFilter M C sm Hsample) as (d & E & Hla).
  exists d. split; [apply factory_filled|]. split; [exact E|]. intros Hin. specialize (Hla Hin).
  destruct (RunPass_ok launch_error N M d pass n Hlim Hn HN Hla Hpass HM) as (m & E2 & Hw & Hready).
  destruct (grid_covers N pass (MkLaunch (needed d pass) (prod (needed d pass), n) m) (fun _ => d) (SeparableResamplingKernel src d pass (needed d pass)))
    as (ws & E3 & Hp & Hr); [done|done|intros th Hth; by apply (uniform_kernel N d pass _ (prod (needed d pass), n) m)|].
  exists (MkLaunch (needed d pass) (prod (needed d pass), n) m), ws. split; [done|]. split; [exact Hw|]. split; [done|]. split; [done|].
  destruct (launch_shape N HN M d pass Hla ltac:(lia)) as (_ & _ & Hpos). eapply Forall_impl; [exact Hr|]. intros r H. apply H.
  eapply Forall_impl; [exact Hpos|]. cbn. lia.
Qed.

(** C14: A pass over samples of different shapes, in one grid of the largest numbers of
    blocks. For 1 to 65535 samples (the grid's second extent) of two or three
    dimensions, extents up to 40 000 within a shape whose volume is below 2^31, up to
    2^25 lanes, any filters, any regions of interest with coordinates up to 2^23, and
    coordinates of the output mapped to at most 2^30 in magnitude, when the part of the input that is used is not empty for any sample, the
    launch is within the limits of CUDA and so succeeds, and although blocks beyond
    a smaller sample exit early, every pixel of every sample's output is written
    exactly once, nothing else is, and every read lies inside the sample's input. *)
Theorem hq_batch_pass_writes_once launch_error expf sinf lanes N M C samples minFilter magFilter pass src
  (HN : N = 2%nat \/ N = 3%nat) (Hlanes : 1 <= lanes <= 2 ^ 25) (Hsamples : Forall (sample_ok N M C) samples) (Hne : samples <> [])
  (Hpass : (pass < N)%nat) (HM : prod M < 2 ^ 31) (Hsmall : Forall (fun m => 1 <= m <= 40000) M) (Hsrc : forall s, source_bounded (src s))
  (Hlim : limits_suffice launch_error) (Hn : Z.of_nat (length samples) <= 65535) :
  exists factory ds, make_factory expf sinf = Ok factory /\ Forall2 (fun sm d => setup_of factory lanes N minFilter magFilter sm = Ok d) samples ds /\
    (Forall (fun d => Forall (fun x => 1 <= x) (shapes d !!! 0%nat)) ds -> exists l ws, RunPassBatch launch_error N ds pass = Ok (Some l) /\ within_limits l /\
       run_grid (SeparableResamplingKernelBatch src ds pass (l_numBlocks l)) (grid_threads l) = Ok ws /\
       pixel_of <$> ws ≡ₚ (zrange 0 (Z.of_nat (length ds)) ≫= fun s => pair s <$> pixels (shapes (ds !!! Z.to_nat s) !!! S pass)) /\
       Forall (fun r => Forall (inside (shapes (ds !!! Z.to_nat r.1) !!! pass)) r.2.2) ws).
Proof.
  set (factory := MkFactory base_filters (base_table expf sinf)).
  assert (exists ds, Forall2 (fun sm d => setup_of factory lanes N minFilter magFilter sm = Ok d /\
    (Forall (fun x => 1 <= x) (shapes d !!! 0%nat) -> launchable N M d)) samples ds) as [ds Hds].
  { apply collect_exists. eapply Forall_impl; [exact Hsamples|]. intros sm Hsm. by apply (setup_launchable factory eq_refl lanes Hlanes N HN minFilter magFilter M C). }
  exists factory, ds. split; [apply factory_filled|]. split; [eapply Forall2_impl; [exact Hds|]; by intros ? ? [? _]|]. intros Hin.
  assert (Forall (launchable N M) ds) as Hla.
  { apply Forall_forall. intros d Hd. apply list_elem_of_lookup in Hd as [i Hi]. destruct (Forall2_lookup_r _ _ _ _ _ Hds Hi) as (sm & _ & _ & H).
    apply H. rewrite Forall_forall in Hin. apply Hin, list_elem_of_lookup. by exists i. }
  assert (ds <> []) as Hdne by (intros ->; by apply Forall2_nil_inv_r in Hds). assert (length M = N) as HlM.
  { destruct Hsamples as [|sm ? (Hs & _) _]; [done|]. apply Hs. }
  assert (length ds = length samples) as Hlds by (symmetry; by eapply Forall2_length).
  destruct (RunPassBatch_ok launch_error N M ds pass Hlim ltac:(lia) HN Hla Hdne Hpass HlM HM Hsmall) as (nb & m & E2 & Hw & Hready). set (l := MkLaunch nb (prod nb, Z.of_nat (length ds)) m).
  assert (forall s, 0 <= s < Z.of_nat (length ds) -> rd ds s = Ok (ds !!! Z.to_nat s) /\ ds !!! Z.to_nat s ∈ ds) as Hrd.
  { intros s Hs. destruct (lookup_lt_is_Some_2 ds (Z.to_nat s) ltac:(lia)) as [d Hd]. rewrite (list_lookup_total_correct _ _ _ Hd).
    split; [apply rd_Ok; split; [lia|done]|by eapply list_elem_of_lookup_2]. }
  rewrite Forall_forall in Hready, Hla.
  destruct (grid_covers N pass l (fun s => ds !!! Z.to_nat s) (SeparableResamplingKernelBatch src ds pass nb)) as (ws & E3 & Hp & Hr).
  - intros s Hs. exact (Hready _ (proj2 (Hrd s Hs))).
  - done.
  - intros th Hth. pose proof Hth as (_ & Hs & _)%in_grid. destruct (Hrd _ Hs) as [E4 H4].
    apply (batch_kernel N ds pass nb (prod nb, Z.of_nat (length ds)) m); [by apply Hready|done|done|done|done].
  - exists l, ws. split; [done|]. split; [exact Hw|]. split; [done|]. split; [done|]. apply Forall_forall. intros r Hrs. rewrite Forall_forall in Hr. apply (Hr r Hrs).
    assert (pixel_of r ∈ pixel_of <$> ws) as Hrp by (by apply list_elem_of_fmap_2). rewrite Hp in Hrp.
    apply list_elem_of_bind in Hrp as (s & (i & [= Es _]%eq_sym & _)%list_elem_of_fmap & Hs%elem_of_zrange). rewrite <- Es.
    destruct (launch_shape N HN M _ pass (Hla _ (proj2 (Hrd s Hs))) ltac:(lia)) as (_ & _ & Hpos). eapply Forall_impl; [exact Hpos|]. cbn. lia.
Qed.

(** ** Coefficients in shared memory *)

Lemma strided_from x s step : 0 <= x < step -> step <= 256 -> 0 <= s <= 2 ^ 13 -> strides_over 0 s step x (strided (Z.to_nat s) x s step).
Proof.
  intros Hx Hst Hs. destruct (strided_spec (Z.to_nat s) x s step) as [Hnd Hin]; [lia..|]. split; [done|]. intros z. rewrite Hin, Z.sub_0_r.
  pose proof (mod_offset z 0 x step Hx) as Hm. rewrite Z.sub_0_r, Z.add_0_l in Hm. intuition lia.
Qed.

(** Threads that fill the slots assigned to them fill all of them once. *)
Lemma fills_all (F : list Z -> list Z) (T : Z -> list Z) n :
  (forall t, t ∈ block_threads -> NoDup (F t) /\ forall i, i ∈ F t <-> 0 <= i < n /\ t = T i) ->
  (forall i, 0 <= i < n -> T i ∈ block_threads) -> (block_threads ≫= F) ≡ₚ zrange 0 n.
Proof.
  intros HF HT. apply NoDup_Permutation; [|apply NoDup_zrange|].
  - apply NoDup_bind; [|intros t Ht; by apply HF|apply block_threads_NoDup]. intros t t' i Ht Ht' Hi Hi'.
    apply (proj2 (HF t Ht)) in Hi as [_ ->]. by apply (proj2 (HF t' Ht')) in Hi' as [_ ->].
  - intros i. rewrite list_elem_of_bind, elem_of_zrange. split.
    + intros (t & Hi & Ht). apply (proj2 (HF t Ht)) in Hi as [Hi _]. done.
    + intros Hi. exists (T i). split; [|by apply HT]. by apply (proj2 (HF (T i) (HT i Hi))).
Qed.

Lemma thread_in x y : 0 <= x < 32 -> 0 <= y < 8 -> [x; y; 0] ∈ block_threads.
Proof. intros Hx Hy. apply loops3_in. exists 0, y, x. rewrite !elem_of_zrange. change (kBlockDim !!! 2%nat) with 1. change (kBlockDim !!! 1%nat) with 8. change (kBlockDim !!! 0%nat) with 32. by split_and!; (lia || done). Qed.

Lemma thread_inv t : t ∈ block_threads -> exists x y, t = [x; y; 0] /\ 0 <= x < 32 /\ 0 <= y < 8.
Proof.
  intros (z & y & x & -> & Hz & Hy & Hx)%loops3_in. rewrite elem_of_zrange in Hz, Hy, Hx.
  change (kBlockDim !!! 2%nat) with 1 in Hz. change (kBlockDim !!! 1%nat) with 8 in Hy. change (kBlockDim !!! 0%nat) with 32 in Hx.
  exists x, y. split; [|done]. by replace z with 0 by lia.
Qed.

(** Adding an offset that depends on the thread. *)
Lemma fmap_slots (g : Z -> Z) l x s step i : strides_over 0 s step x l -> (forall a b, g a = g b -> a = b) ->
  NoDup (g <$> l) /\ (i ∈ g <$> l <-> exists k, i = g k /\ 0 <= k < s /\ k mod step = x).
Proof.
  intros [Hnd Hin] Hg. split; [apply NoDup_fmap_2_strong; [intros a b _ _; apply Hg|done]|]. rewrite list_elem_of_fmap. setoid_rewrite Hin.
  by setoid_rewrite Z.sub_0_r.
Qed.

Lemma fill_huge s : 0 <= s <= 2 ^ 13 ->
  (block_threads ≫= fun t => strided (Z.to_nat s) (t !!! 0%nat + 32 * t !!! 1%nat) s (32 * 8)) ≡ₚ zrange 0 s.
Proof.
  intros Hs. apply (fills_all _ (fun i => [i mod 256 mod 32; i mod 256 / 32; 0])).
  - intros t (x & y & -> & Hx & Hy)%thread_inv. cbn [lookup_total list_lookup_total]. destruct (strided_from (x + 32 * y) s 256) as [Hnd Hin]; [lia..|].
    split; [exact Hnd|]. intros i. change (32 * 8) with 256. rewrite Hin, Z.sub_0_r. split; (intros [Hi Hm]; split; [done|]).
    + rewrite Hm. f_equal; [|f_equal]; symmetry.
      * rewrite (Z.mul_comm 32), Z_mod_plus_full. by apply Z.mod_small.
      * rewrite (Z.mul_comm 32), Z.div_add by lia. rewrite Z.div_small; lia.
    + injection Hm as -> ->. pose proof (Z.div_mod (i mod 256) 32 ltac:(lia)). lia.
  - intros i Hi. pose proof (Z.mod_pos_bound i 256 ltac:(lia)). apply thread_in; [by apply Z.mod_pos_bound|].
    split; [apply Z.div_pos; lia|apply Z.div_lt_upper_bound; lia].
Qed.

Lemma fill_horz s : 0 <= s <= 2 ^ 13 ->
  (block_threads ≫= fun t => (fun k => t !!! 0%nat + 32 * k) <$> strided (Z.to_nat s) (t !!! 1%nat) s 8) ≡ₚ zrange 0 (s * 32).
Proof.
  intros Hs. apply (fills_all _ (fun i => [i mod 32; (i / 32) mod 8; 0])).
  - intros t (x & y & -> & Hx & Hy)%thread_inv. cbn [lookup_total list_lookup_total].
    split; [apply (fmap_slots _ _ y s 8 0); [apply strided_from; lia|intros ? ?; cbn beta; lia]|]. intros i.
    rewrite (proj2 (fmap_slots (fun k => x + 32 * k) _ y s 8 i (strided_from y s 8 ltac:(lia) ltac:(lia) ltac:(lia)) ltac:(intros ? ?; cbn beta; lia))). split.
    + intros (k & -> & Hk & Hm). split; [lia|]. rewrite (Z.mul_comm 32), Z_mod_plus_full, Z.div_add by lia. rewrite (Z.mod_small x), (Z.div_small x) by lia.
      by rewrite Z.add_0_l, Hm.
    + intros [Hi [= -> ->]]. exists (i / 32). pose proof (Z.div_mod i 32 ltac:(lia)). split; [lia|]. split; [|done].
      split; [apply Z.div_pos; lia|apply Z.div_lt_upper_bound; lia].
  - intros i Hi. apply thread_in; by apply Z.mod_pos_bound.
Qed.

Lemma fill_vert s : 1 <= s <= 2 ^ 13 ->
  (block_threads ≫= fun t => (fun k => s * t !!! 1%nat + k) <$> strided (Z.to_nat s) (t !!! 0%nat) s 32) ≡ₚ zrange 0 (s * 8).
Proof.
  intros Hs. apply (fills_all _ (fun i => [(i mod s) mod 32; i / s; 0])).
  - intros t (x & y & -> & Hx & Hy)%thread_inv. cbn [lookup_total list_lookup_total].
    split; [apply (fmap_slots _ _ x s 32 0); [apply strided_from; lia|intros ? ?; cbn beta; lia]|]. intros i.
    rewrite (proj2 (fmap_slots (fun k => s * y + k) _ x s 32 i (strided_from x s 32 ltac:(lia) ltac:(lia) ltac:(lia)) ltac:(intros ? ?; cbn beta; lia))). split.
    + intros (k & -> & Hk & Hm). split; [nia|]. rewrite (Z.add_comm (s * y)), (Z.mul_comm s), Z_mod_plus_full, Z.div_add by lia.
      rewrite (Z.mod_small k), (Z.div_small k) by lia. by rewrite Z.add_0_l, Hm.
    + intros [Hi [= -> ->]]. exists (i mod s). pose proof (Z.div_mod i s ltac:(lia)). split; [lia|]. split; [|done]. apply Z.mod_pos_bound. lia.
  - intros i Hi. apply thread_in; [by apply Z.mod_pos_bound|]. split; [apply Z.div_pos; lia|apply Z.div_lt_upper_bound; lia].
Qed.

Lemma mapped {A B} (f : A -> outcome B) (g : A -> B) l : (forall a, a ∈ l -> f a = Ok (g a)) -> Forall2 (fun a b => f a = Ok b) l (g <$> l).
Proof.
  induction l as [|a l IH]; intros H; [constructor|]. cbn. constructor; [apply H; set_solver|]. apply IH. intros x Hx. apply H. set_solver.
Qed.

Lemma join_fmap {A B} (g : A -> list B) l : mjoin (g <$> l) = l ≫= g.
Proof. induction l as [|a l IH]; [done|]. cbn. by rewrite <- IH. Qed.

(** One way of sharing: the slots, and that they are filled once. *)
Ltac share n filled :=
  exists n; eexists _, _; split; [cbn [mbind outcome_bind]; rewrite wraps_small; [done|done|unfold in_s; lia]|];
  split; [lia|]; split; [by apply mapped|]; split; [by apply mapped|]; rewrite !join_fmap; split; [apply filled; lia|];
  apply Forall_forall; intros i (t & (k & -> & Hk%elem_of_zrange)%list_elem_of_fmap & (x & y & -> & Hx & Hy)%thread_inv)%list_elem_of_bind;
  cbn [lookup_total list_lookup_total]; nia.

(** C15: The coefficients in shared memory. For a filter whose support is within the
    limit, the threads of a block together fill every coefficient of the shared memory
    that the launch reserves exactly once per round, whichever way of sharing applies
    and whichever axis is resampled, every coefficient a thread reads is one of them,
    and the memory is at most 32 KiB. *)
Theorem hq_shared_coefficients d pass s (Hkind : filterKind d !!! pass = ShmFilter) (Hsupport : support (filter d !!! pass) = Ok s)
  (Hlimit : 1 <= s <= kMaxGPUFilterSupport) :
  exists n fills reads, RequiredSharedMemorySize d pass = Ok (4 * n) /\ 4 * n <= 32768 /\
    Forall2 (fun t l => coeffs_filled (processingOrder d !!! pass) s t = Ok l) block_threads fills /\
    Forall2 (fun t l => coeffs_read (processingOrder d !!! pass) s t = Ok l) block_threads reads /\
    mjoin fills ≡ₚ zrange 0 n /\ Forall (fun i => 0 <= i < n) (mjoin reads).
Proof.
  unfold kMaxGPUFilterSupport in Hlimit. unfold RequiredSharedMemorySize. rewrite Hkind, decide_False by naive_solver. rewrite Hsupport. cbn [mbind outcome_bind].
  unfold RequiredSharedMemoryElements, coeffs_filled, coeffs_read, CanComputeCoefPerThread, kMaxGPUFilterSupport.
  change (kBlockDim !!! 0%nat) with 32. change (kBlockDim !!! 1%nat) with 8. destruct (Nat.eqb_spec (processingOrder d !!! pass) 0) as [Ha|Ha].
  - rewrite int32_ok by (unfold in_s; lia). cbn [mbind outcome_bind]. destruct (Z.leb_spec (s * 32) 8192); cbn [negb]; [share (s * 32) fill_horz|share s fill_huge].
  - rewrite int32_ok by (unfold in_s; lia). cbn [mbind outcome_bind]. destruct (Z.leb_spec (s * 8) 8192); cbn [negb]; [share (s * 8) fill_vert|share s fill_huge].
Qed.

Module Concrete.

Definition small : sample := MkSample [640; 480] [320; 240] 3 None.
Definition tall : sample := MkSample [30; 400] [60; 20] 3 None.
Definition bilinear : FilterMode := MkMode Linear false.
(** A runtime that checks the limits. *)
Definition checks_limits (l : launch) : option NVCVStatus :=
  if (1 <=? (l_grid l).1) && ((l_grid l).1 <? 2 ^ 31) && (1 <=? (l_grid l).2) && ((l_grid l).2 <=? 65535) && (0 <=? l_shared l) && (l_shared l <=? 49152)
  then None else Some NVCV_ERROR_INVALID_ARGUMENT.

Lemma checks_limits_suffice : limits_suffice checks_limits.
Proof. intros l (H1 & H2 & H3). unfold checks_limits. rewrite !(proj2 (Z.leb_le _ _)), (proj2 (Z.ltb_lt _ _)) by lia. done. Qed.

Definition same_coordinate : Z -> nat -> Z -> Z := fun _ _ x => x.

Lemma samples_ok : sample_ok 2 [640; 480] 3 small /\ sample_ok 2 [640; 480] 3 tall.
Proof.
  assert (forall i o, within [640; 480] i -> within [640; 480] o -> Forall (fun x => 1 <= x) o -> sample_ok 2 [640; 480] 3 (MkSample i o 3 None)) as H.
  { intros i o Hi Ho Hp. split_and!; [|by intros r|cbn; lia..]. constructor; [split_and!; [repeat constructor; lia|lia|cbn; lia]|repeat constructor; lia|done..]. }
  split; apply H; repeat constructor; lia.
Qed.

(** The descriptions do not depend on the coefficients. *)
Lemma small_described table : shapes <$> setup_of (MkFactory base_filters table) 8 2 bilinear bilinear small = Ok [[640; 480]; [640; 240]; [320; 240]].
Proof. vm_compute. reflexivity. Qed.
Lemma tall_described table : shapes <$> setup_of (MkFactory base_filters table) 8 2 bilinear bilinear tall = Ok [[30; 400]; [30; 20]; [60; 20]].
Proof. vm_compute. reflexivity. Qed.

Lemma same_coordinate_bounded s : source_bounded (same_coordinate s).
Proof. intros a x Hx. unfold same_coordinate. lia. Qed.

Lemma hq_pass_writes_once_witness : exists factory d l ws, make_factory (fun x => x) (fun x => x) = Ok factory /\
  setup_of factory 8 2 bilinear bilinear small = Ok d /\ RunPass checks_limits d 0 2 = Ok (Some l) /\
  run_grid (SeparableResamplingKernel same_coordinate d 0 (l_numBlocks l)) (grid_threads l) = Ok ws /\ (1, [639; 239]) ∈ pixel_of <$> ws.
Proof.
  destruct (hq_pass_writes_once checks_limits (fun x => x) (fun x => x) 8 2 [640; 480] 3 small bilinear bilinear 0 2 same_coordinate) as (factory & d & Ef & E & H).
  - by left.
  - lia.
  - apply samples_ok.
  - lia.
  - cbn. lia.
  - apply same_coordinate_bounded.
  - apply checks_limits_suffice.
  - lia.
  - assert (shapes d = [[640; 480]; [640; 240]; [320; 240]]) as Hd.
    { rewrite factory_filled in Ef. injection Ef as <-. pose proof (small_described (base_table (fun x => x) (fun x => x))) as E2. rewrite E in E2. by injection E2. }
    destruct H as (l & ws & E3 & _ & E4 & Hp & _); [rewrite Hd; repeat constructor; lia|]. exists factory, d, l, ws.
    split; [exact Ef|]. split; [exact E|]. split; [exact E3|]. split; [exact E4|]. rewrite Hp, Hd. apply list_elem_of_bind. exists 1. rewrite elem_of_zrange.
    split; [|lia]. apply list_elem_of_fmap. exists [639; 239]. split; [done|]. apply in_pixels; [by left|]. repeat constructor; lia.
Defined.

Lemma hq_batch_pass_writes_once_witness : exists factory ds l ws, make_factory (fun x => x) (fun x => x) = Ok factory /\
  Forall2 (fun sm d => setup_of factory 8 2 bilinear bilinear sm = Ok d) [small; tall] ds /\ RunPassBatch checks_limits 2 ds 1 = Ok (Some l) /\
  run_grid (SeparableResamplingKernelBatch same_coordinate ds 1 (l_numBlocks l)) (grid_threads l) = Ok ws /\
  (1, [59; 19]) ∈ pixel_of <$> ws /\ (1, [60; 19]) ∉ pixel_of <$> ws.
Proof.
  destruct (hq_batch_pass_writes_once checks_limits (fun x => x) (fun x => x) 8 2 [640; 480] 3 [small; tall] bilinear bilinear 1 same_coordinate) as (factory & ds & Ef & E & H).
  - by left.
  - lia.
  - apply Forall_cons; split; [apply samples_ok|]. apply Forall_cons; split; [apply samples_ok|apply Forall_nil_2].
  - done.
  - lia.
  - cbn. lia.
  - repeat constructor; lia.
  - apply same_coordinate_bounded.
  - apply checks_limits_suffice.
  - cbn. lia.
  - assert (shapes <$> ds = [[[640; 480]; [640; 240]; [320; 240]]; [[30; 400]; [30; 20]; [60; 20]]]) as Hds.
    { rewrite factory_filled in Ef. injection Ef as <-. inversion E as [|? d1 ? ? E1 Er]; subst. inversion Er as [|? d2 ? ? E2 Er2]; subst. inversion Er2; subst.
      pose proof (small_described (base_table (fun x => x) (fun x => x))) as S1. pose proof (tall_described (base_table (fun x => x) (fun x => x))) as S2.
      rewrite E1 in S1. rewrite E2 in S2. injection S1 as S1. injection S2 as S2. cbn. by rewrite S1, S2. }
    destruct ds as [|d1 [|d2 [|? ?]]]; try discriminate Hds. injection Hds as Hd1 Hd2.
    destruct H as (l & ws & E3 & _ & E4 & Hp & _); [repeat constructor; rewrite ?Hd1, ?Hd2; repeat constructor; lia|]. exists factory, [d1; d2], l, ws.
    split; [exact Ef|]. split; [exact E|]. split; [exact E3|]. split; [exact E4|]. rewrite Hp. split.
    + apply list_elem_of_bind. exists 1. rewrite elem_of_zrange. split; [|cbn; lia]. apply list_elem_of_fmap. exists [59; 19]. split; [done|].
      change ([d1; d2] !!! Z.to_nat 1) with d2. rewrite Hd2. apply in_pixels; [by left|]. repeat constructor; lia.
    + intros (s & (i & [= <- <-] & Hi)%list_elem_of_fmap & _)%list_elem_of_bind. change ([d1; d2] !!! Z.to_nat 1) with d2 in Hi. rewrite Hd2 in Hi.
      apply in_pixels in Hi; [|by left]. inversion Hi as [|? ? ? ? Hx _]; subst. lia.
Defined.

(** A filter over four pixels, along the vertical axis. *)
Definition vertical : SampleDesc := MkDesc [[64; 48]; [64; 24]] 3 [1; 0]%nat [] [] [ShmFilter; ShmFilter] [MkFilter (Some 0) 5 (f_int 2) (f_int 1)] [0; 0] [].

Lemma hq_shared_coefficients_witness : RequiredSharedMemorySize vertical 0 = Ok 128 /\
  exists fills, Forall2 (fun t l => coeffs_filled 1 4 t = Ok l) block_threads fills /\ mjoin fills ≡ₚ zrange 0 32.
Proof.
  destruct (hq_shared_coefficients vertical 0 4) as (n & fills & reads & E & _ & Hf & _ & Hp & _).
  - reflexivity.
  - vm_compute. reflexivity.
  - unfold kMaxGPUFilterSupport. lia.
  - assert (RequiredSharedMemorySize vertical 0 = Ok 128) as E2 by (vm_compute; reflexivity). split; [exact E2|].
    rewrite E2 in E. injection E as E. exists fills. split; [exact Hf|]. replace 32 with n by lia. exact Hp.
Defined.

(** The second extent of the grid is the number of samples, which the operator does not
    bound: a launch for more than 65535 is refused. *)
Lemma many_samples_refused : (d ← setup_of (MkFactory base_filters []) 8 2 bilinear bilinear small; RunPass checks_limits d 0 65535) <> Throw NVCV_ERROR_INVALID_ARGUMENT /\
  (d ← setup_of (MkFactory base_filters []) 8 2 bilinear bilinear small; RunPass checks_limits d 0 65536) = Throw NVCV_ERROR_INVALID_ARGUMENT.
Proof. split; [vm_compute; discriminate|vm_compute; reflexivity]. Qed.

(** The region outside the image gives blocks of extent 0, and the division by them
    comes before the test for an empty output. *)
Lemma empty_region_divides_by_zero :
  (d ← SetupSampleDesc true (MkFactory base_filters []) 8 2 [640; 480] [320; 240] 3
    (Some (MkRoi [f_int 500; f_int 0; f_int 0] [f_int 600; f_int 640; f_int 0])) bilinear bilinear;
   RunPass checks_limits d 0 1) = Stuck.
Proof. vm_compute. reflexivity. Qed.
End Concrete.
