(* ===== verification/LabelMachine.v ===== *)
(** * Threads on shared memory: the machine the kernels of Label run on ([cvcuda/priv/OpLabel.cu])

    A thread's program is a tree of reads, writes and atomic operations on an array
    of labels; threads take steps in any order. Two rules to reason about all the
    orders: one for threads that write what a fixed function says (path
    compression), one for threads that unite classes with [atomicMin]. *)
From S2P Require Import Prelude.
From stdpp Require Import relations functions.
From stdpp Require Import options.

#[local] Open Scope Z_scope.

(** ** Programs, stores, steps *)

Inductive prog (A : Type) : Type :=
  | Ret (a : A)
  | Read (i : Z) (k : Z -> prog A)
  | Write (i v : Z) (k : prog A)
  | AtomicMin (i v : Z) (k : Z -> prog A)
  | OutOfFuel.
Arguments Ret {A} _.
Arguments Read {A} _ _.
Arguments Write {A} _ _ _.
Arguments AtomicMin {A} _ _ _.
Arguments OutOfFuel {A}.

Fixpoint prog_bind {A B} (p : prog A) (f : A -> prog B) : prog B :=
  match p with
  | Ret a => f a
  | Read i k => Read i (fun v => prog_bind (k v) f)
  | Write i v k => Write i v (prog_bind k f)
  | AtomicMin i v k => AtomicMin i v (fun w => prog_bind (k w) f)
  | OutOfFuel => OutOfFuel
  end.

Declare Scope prog_scope.
Delimit Scope prog_scope with prog.
Notation "x ⇐ p ; q" := (prog_bind p (fun x => q))
  (at level 20, p at level 100, q at level 200, right associativity) : prog_scope.

(** The labels, by their index. *)
Notation store := (Z -> Z) (only parsing).

(** One operation of a thread; an atomic minimum gives the value it replaced. *)
Definition advance {A} (s : store) (p : prog A) : option (store * prog A) :=
  match p with
  | Read i k => Some (s, k (s i))
  | Write i v k => Some (<[i := v]> s, k)
  | AtomicMin i v k => Some (<[i := Z.min (s i) v]> s, k (s i))
  | Ret _ | OutOfFuel => None
  end.

(** Any thread that is not done takes the next step. *)
Inductive step {A} : store * list (prog A) -> store * list (prog A) -> Prop :=
  | step_thread s s' ts t p p' :
      ts !! t = Some p -> advance s p = Some (s', p') -> step (s, ts) (s', <[t := p']> ts).

(** A run of all the threads to their ends, and what each gives. *)
Definition Runs {A} (s : store) (ts : list (prog A)) (s' : store) (rs : list A) : Prop :=
  rtc step (s, ts) (s', Ret <$> rs).

(** One thread to its end. *)
Fixpoint run_thread {A} (p : prog A) (s : store) : option (store * A) :=
  match p with
  | Ret a => Some (s, a)
  | Read i k => run_thread (k (s i)) s
  | Write i v k => run_thread k (<[i := v]> s)
  | AtomicMin i v k => run_thread (k (s i)) (<[i := Z.min (s i) v]> s)
  | OutOfFuel => None
  end.

(** The threads one after the other. *)
Fixpoint run_seq {A} (ts : list (prog A)) (s : store) : option (store * list A) :=
  match ts with
  | [] => Some (s, [])
  | p :: ts =>
      match run_thread p s with
      | Some (s1, a) => match run_seq ts s1 with Some (s2, rs) => Some (s2, a :: rs) | None => None end
      | None => None
      end
  end.

Definition stuck_free {A} (ts : list (prog A)) : Prop := OutOfFuel ∉ ts.

(** ** Every order of the steps ends *)

Definition child {A} (q p : prog A) : Prop := exists s s', advance s p = Some (s', q).

Lemma child_wf {A} : well_founded (@child A).
Proof.
  intros p; induction p as [a|i k IH|i v k IH|i v k IH|]; constructor; intros q (s & s' & H); cbn in H; simplify_eq; auto.
Qed.

Definition some_child {A} (ts' ts : list (prog A)) : Prop :=
  exists t p p', ts !! t = Some p /\ child p' p /\ ts' = <[t := p']> ts.

Lemma some_child_acc {A} (ts : list (prog A)) : Acc some_child ts.
Proof.
  induction ts as [|p ts IH]; [constructor; intros ? (t & p & p' & Ht & _); done|].
  revert ts IH; induction (child_wf p) as [p _ IHp]; intros ts Hts.
  induction Hts as [ts Hts IHts]; constructor; intros ts' (t & q & q' & Ht & Hq & ->).
  destruct t as [|t]; cbn in *; simplify_eq.
  - apply (IHp _ Hq); by constructor.
  - apply IHts. by exists t, q, q'.
Qed.

Lemma step_sn {A} (c : store * list (prog A)) : sn step c.
Proof.
  destruct c as [s ts]; revert s; induction (some_child_acc ts) as [ts _ IH]; intros s.
  constructor; intros c' H; red in H. inversion H as [? s' ? t p p' Ht Ha]; subst.
  apply IH. exists t, p, p'. split_and!; [done| |done]. by exists s, s'.
Qed.

Lemma not_stuck_runs {A} (s : store) (ts : list (prog A)) :
  (forall s' ts', rtc step (s, ts) (s', ts') -> stuck_free ts') -> exists s' rs, Runs s ts s' rs.
Proof.
  unfold Runs. induction (step_sn (s, ts)) as [[s0 ts0] _ IH]. intros Hfree.
  destruct (decide (Forall (fun p => advance s0 p = None) ts0)) as [Hall|Hex].
  - exists s0.
    assert (Hr : exists rs, ts0 = Ret <$> rs).
    { specialize (Hfree s0 ts0 (rtc_refl _ _)). red in Hfree. clear IH.
      induction Hall as [|p l Hp Hall IHl]; [by exists []|].
      destruct IHl as (rs & ->); [by intros ?; apply Hfree; right|].
      destruct p; try done; [by exists (a :: rs)|]. exfalso; apply Hfree; left. }
    destruct Hr as (rs & ->). exists rs; constructor.
  - apply not_Forall_Exists in Hex; [|intros p; destruct (advance s0 p); [right|left]; done].
    apply Exists_exists in Hex as (p & Hin & Hp).
    apply list_elem_of_In, list_elem_of_lookup in Hin as (t & Ht).
    cbn in Hp. destruct (advance s0 p) as [[s1 p1]|] eqn:Ha; [|done].
    assert (Hs : step (s0, ts0) (s1, <[t := p1]> ts0)) by (econstructor; eauto).
    destruct (IH _ Hs) as (s' & rs & Hrun).
    { intros s' ts' Hr. apply (Hfree s'). eapply rtc_l; eauto. }
    exists s', rs. eapply rtc_l; eauto.
Qed.

(** No run goes on for ever, and each, wherever it is, goes on to the end. *)
Definition Ends {A} (s : store) (ts : list (prog A)) : Prop :=
  sn step (s, ts) /\ forall s1 ts1, rtc step (s, ts) (s1, ts1) -> exists s' rs, Runs s1 ts1 s' rs.

Lemma Ends_run {A} (s : store) (ts : list (prog A)) : Ends s ts -> exists s' rs, Runs s ts s' rs.
Proof. intros [_ H]. by apply H. Qed.

Lemma not_stuck_ends {A} (s : store) (ts : list (prog A)) :
  (forall s' ts', rtc step (s, ts) (s', ts') -> stuck_free ts') -> Ends s ts.
Proof.
  intros Hfree. split; [apply step_sn|]. intros s1 ts1 H1. apply not_stuck_runs. intros s' ts' H. apply (Hfree s').
  by trans (s1, ts1).
Qed.

(** ** The sequential order is one of the orders *)

Lemma run_thread_steps {A} (p : prog A) s s' a (pre ts : list (prog A)) :
  run_thread p s = Some (s', a) -> rtc step (s, pre ++ p :: ts) (s', pre ++ Ret a :: ts).
Proof.
  revert s; induction p as [b|i k IH|i v k IH|i v k IH|]; intros s H; cbn in H; simplify_eq; try constructor.
  all: eapply rtc_l; [econstructor; [by apply list_lookup_middle|done]|].
  all: rewrite insert_app_r_alt, Nat.sub_diag by done; cbn; auto.
Qed.

Lemma run_seq_Runs {A} (ts : list (prog A)) s s' rs : run_seq ts s = Some (s', rs) -> Runs s ts s' rs.
Proof.
  intros H. change (rtc step (s, (Ret <$> []) ++ ts) (s', (Ret <$> ([] : list A)) ++ (Ret <$> rs))).
  generalize ([] : list A) as done_. revert s rs H; induction ts as [|p ts IH]; intros s rs H d; cbn in H; simplify_eq.
  { constructor. }
  destruct (run_thread p s) as [[s1 a]|] eqn:H1; [|done].
  destruct (run_seq ts s1) as [[s2 rs2]|] eqn:H2; [|done]. simplify_eq.
  etrans; [by apply (run_thread_steps p s s1 a)|].
  specialize (IH _ _ H2 (d ++ [a])). rewrite fmap_app, <- !app_assoc in IH. exact IH.
Qed.

Lemma Runs_length {A} (s s' : store) (ts : list (prog A)) rs : Runs s ts s' rs -> length rs = length ts.
Proof.
  unfold Runs. intros H. rewrite <- (length_fmap Ret rs).
  change (length ((s', Ret <$> rs).2) = length ((s, ts).2)).
  induction H as [|c c1 c2 H _ IH]; [done|]. rewrite IH. destruct H; cbn. apply length_insert.
Qed.

(** ** Threads under interference

    [rg Q p s]: from [s] on, while the others change the store only within [G],
    the program stays within [G], keeps [I], does not run out of fuel and ends with
    a result and a store in [Q]. *)
#[local] Set Default Proof Using "Type*".

Section Interference.
Context {A : Type} (I : store -> Prop) (G : store -> store -> Prop).
Context `{!PreOrder G}.

Fixpoint rg (Q : A -> store -> Prop) (p : prog A) (s : store) : Prop :=
  forall s1, G s s1 -> I s1 ->
  match p with
  | Ret a => Q a s1
  | Read i k => rg Q (k (s1 i)) s1
  | Write i v k => let s2 := <[i := v]> s1 in G s1 s2 /\ I s2 /\ rg Q k s2
  | AtomicMin i v k => let s2 := <[i := Z.min (s1 i) v]> s1 in G s1 s2 /\ I s2 /\ rg Q (k (s1 i)) s2
  | OutOfFuel => False
  end.

Lemma rg_later Q p s s1 : G s s1 -> rg Q p s -> rg Q p s1.
Proof. intros H; destruct p; cbn; intros Hp s2 H2 HI; exact (Hp s2 (transitivity H H2) HI). Qed.

Lemma rg_here Q p s : (forall s1, G s s1 -> I s1 -> rg Q p s1) -> rg Q p s.
Proof. intros H; destruct p; intros s1 HG HI; exact (H s1 HG HI s1 (reflexivity _) HI). Qed.

Lemma rg_weaken (Q Q' : A -> store -> Prop) p s : (forall a s1, Q a s1 -> Q' a s1) -> rg Q p s -> rg Q' p s.
Proof.
  intros HQ. revert s; induction p as [a|i k IH|i v k IH|i v k IH|]; intros s Hp s1 HG HI; specialize (Hp s1 HG HI); cbn in Hp |- *;
    naive_solver.
Qed.

Lemma rg_step Q p s s' p' : I s -> rg Q p s -> advance s p = Some (s', p') -> G s s' /\ I s' /\ rg Q p' s'.
Proof.
  intros HI Hp H; destruct p; cbn in H; simplify_eq; specialize (Hp _ (reflexivity _) HI); cbn in Hp; auto.
  by split_and!.
Qed.

Lemma rg_run (Q : nat -> A -> store -> Prop) s ts s' ts' : I s ->
  (forall t p, ts !! t = Some p -> rg (Q t) p s) -> rtc step (s, ts) (s', ts') ->
  G s s' /\ I s' /\ forall t p, ts' !! t = Some p -> rg (Q t) p s'.
Proof.
  intros HI Hts H. apply (rtc_ind_r (R := step) (fun c => G s c.1 /\ I c.1 /\ forall t p, c.2 !! t = Some p -> rg (Q t) p c.1) (s, ts))
    with (z := (s', ts')); [done| |done].
  intros c c' _ Hst (HG & HI1 & IH). destruct Hst as [s1 s2 us t p p' Ht Ha]; cbn in *.
  destruct (rg_step _ _ _ _ _ HI1 (IH _ _ Ht) Ha) as (HG2 & HI2 & Hp').
  split; [by trans s1|]. split; [done|]. intros u q Hu.
  apply list_lookup_insert_Some in Hu as [(<- & <- & _)|(_ & Hu)]; eauto using rg_later.
Qed.

Lemma rg_stuck_free (Q : nat -> A -> store -> Prop) s ts : I s -> (forall t p, ts !! t = Some p -> rg (Q t) p s) -> stuck_free ts.
Proof.
  intros HI H Hin. apply list_elem_of_lookup in Hin as (t & Ht).
  exact (H t _ Ht s (reflexivity _) HI).
Qed.

(** Every run ends, within [G], every thread with its [Q]. *)
Lemma rg_runs (Q : nat -> A -> store -> Prop) s ts : I s ->
  (forall t p, ts !! t = Some p -> rg (Q t) p s) ->
  Ends s ts /\
  forall s' rs, Runs s ts s' rs -> G s s' /\ I s' /\ forall t a, rs !! t = Some a -> Q t a s'.
Proof.
  intros HI Hts. split.
  - apply not_stuck_ends. intros s' ts' Hr.
    destruct (rg_run Q _ _ _ _ HI Hts Hr) as (_ & HI' & H). by eapply rg_stuck_free.
  - intros s' rs Hr. destruct (rg_run Q _ _ _ _ HI Hts Hr) as (HG & HI' & H).
    split_and!; [done..|]. intros t a Ha.
    apply (H t (Ret a)); [by rewrite list_lookup_fmap, Ha|done|done].
Qed.
End Interference.

Lemma rg_bind {A B} I G `{!PreOrder G} (Q : B -> store -> Prop) (p : prog A) (k : A -> prog B) s :
  rg I G (fun a s1 => rg I G Q (k a) s1) p s -> rg I G Q (prog_bind p k) s.
Proof.
  revert s; induction p as [a|i f IH|i v f IH|i v f IH|]; intros s Hp; cbn in *.
  - by apply rg_here.
  - intros s1 HG HI. by apply IH, Hp.
  - intros s1 HG HI. destruct (Hp s1 HG HI) as (? & ? & ?); eauto.
  - intros s1 HG HI. destruct (Hp s1 HG HI) as (? & ? & ?); eauto.
  - intros s1 HG HI. exact (Hp s1 HG HI).
Qed.

(** ** Two things one after the other

    A thread that does [p] and then, whatever [p] gave, [q], does nothing two threads
    that do [p] and [q] could not do. *)
Section Split.
Context {A B : Type} (p q : B -> prog A) (L : list B).
Definition in_turn (x : B) : prog A := prog_bind (p x) (fun _ => q x).

(** What is left of the thread for [x], and of the two. *)
Definition split_thread (x : B) (t u v : prog A) : Prop :=
  (t = prog_bind u (fun _ => q x) /\ v = q x) \/ (exists a, u = Ret a) /\ t = v.

Record split_rel (ts us vs : list (prog A)) : Prop := {
  sr_us : length us = length L;
  sr_vs : length vs = length L;
  sr_ts : length ts = length L;
  sr_threads : forall i x t u v, L !! i = Some x -> ts !! i = Some t -> us !! i = Some u -> vs !! i = Some v ->
    split_thread x t u v;
}.

Lemma split_init : split_rel (in_turn <$> L) (p <$> L) (q <$> L).
Proof.
  split; rewrite ?length_fmap; try done. intros i x t u v Hx. rewrite !list_lookup_fmap, Hx. intros [= <-] [= <-] [= <-].
  by left.
Qed.

Lemma split_update ts us vs i x t u v : split_rel ts us vs -> L !! i = Some x -> split_thread x t u v ->
  split_rel (<[i := t]> ts) (<[i := u]> us) (<[i := v]> vs).
Proof.
  intros [Hu Hv Ht H] Hx Hs. split; rewrite ?length_insert; try done.
  intros j y t' u' v' Hy. pose proof (lookup_lt_Some _ _ _ Hy). destruct (decide (i = j)) as [<-|Hne].
  - rewrite !list_lookup_insert_eq by lia. intros [= <-] [= <-] [= <-]. by simplify_eq.
  - rewrite !list_lookup_insert_ne by done. by apply H.
Qed.

Lemma advance_bind s s' (u : prog A) (k : A -> prog A) r' : advance s (prog_bind u k) = Some (s', r') ->
  (exists a, u = Ret a /\ advance s (k a) = Some (s', r')) \/ exists u', advance s u = Some (s', u') /\ r' = prog_bind u' k.
Proof. destruct u; cbn; intros H; simplify_eq; eauto. Qed.

Lemma split_step ts us vs s s' ts' : split_rel ts us vs -> step (s, ts) (s', ts') ->
  exists us' vs', rtc step (s, us ++ vs) (s', us' ++ vs') /\ split_rel ts' us' vs'.
Proof.
  intros HR Hstep. inversion Hstep as [? ? ? i t t' Ht Ha]; subst. pose proof HR as [Hu Hv Hl H].
  pose proof (lookup_lt_Some _ _ _ Ht) as Hi.
  destruct (lookup_lt_is_Some_2 L i) as [x Hx]; [lia|]. destruct (lookup_lt_is_Some_2 us i) as [u Hui]; [lia|].
  destruct (lookup_lt_is_Some_2 vs i) as [v Hvi]; [lia|].
  assert (Hsecond : forall a, u = Ret a -> t = v -> exists us' vs', rtc step (s, us ++ vs) (s', us' ++ vs') /\
    split_rel (<[i := t']> ts) us' vs').
  { intros a -> ->. exists (<[i := Ret a]> us), (<[i := t']> vs). split.
    - rewrite (list_insert_id us) by done. apply rtc_once. rewrite <- (insert_app_r us vs i t').
      econstructor; [|exact Ha]. by rewrite lookup_app_r, Nat.add_comm, Nat.add_sub by lia.
    - apply (split_update _ _ _ _ x); [done..|]. right. by split; [eexists|]. }
  destruct (H i x t u v Hx Ht Hui Hvi) as [[-> ->]|[(a & ->) ->]]; [|by apply (Hsecond a)].
  apply advance_bind in Ha as Hb. destruct Hb as [(a & -> & Hb)|(u' & Hb & ->)]; [by apply (Hsecond a)|].
  exists (<[i := u']> us), (<[i := q x]> vs). split.
  - rewrite (list_insert_id vs) by done. apply rtc_once. rewrite <- insert_app_l by lia.
    econstructor; [|exact Hb]. by rewrite lookup_app_l by lia.
  - apply (split_update _ _ _ _ x); [done..|]. by left.
Qed.

Lemma split_reach s c : rtc step (s, in_turn <$> L) c ->
  exists us vs, rtc step (s, (p <$> L) ++ (q <$> L)) (c.1, us ++ vs) /\ split_rel c.2 us vs.
Proof.
  intros H. apply (rtc_ind_r (R := step) (fun c => exists us vs, rtc step (s, (p <$> L) ++ (q <$> L)) (c.1, us ++ vs) /\
    split_rel c.2 us vs) (s, in_turn <$> L)); [|clear c H|done].
  - exists (p <$> L), (q <$> L). split; [done|apply split_init].
  - intros [s1 ts1] [s2 ts2] _ Hst (us & vs & Hr & HR). destruct (split_step _ _ _ _ _ _ HR Hst) as (us' & vs' & Hr' & HR').
    exists us', vs'. split; [|done]. by etrans.
Qed.
End Split.

Lemma fuel_stays {A} (s s' : store) (ts ts' : list (prog A)) : rtc step (s, ts) (s', ts') -> OutOfFuel ∈ ts -> OutOfFuel ∈ ts'.
Proof.
  intros H. change (OutOfFuel ∈ (s, ts).2 -> OutOfFuel ∈ (s', ts').2).
  induction H as [|c c1 c2 Hst _ IH]; [done|]. intros Hin. apply IH. destruct Hst as [? ? us t p p' Ht Ha]. cbn in *.
  apply list_elem_of_lookup in Hin as (i & Hi). apply list_elem_of_lookup. exists i.
  rewrite list_lookup_insert_ne; [done|]. by intros ->; simplify_eq.
Qed.

Lemma Ends_stuck_free {A} (s s' : store) (ts ts' : list (prog A)) : Ends s ts -> rtc step (s, ts) (s', ts') -> stuck_free ts'.
Proof.
  intros [_ H] Hr Hin. destruct (H _ _ Hr) as (s2 & rs & H2). apply (fuel_stays _ _ _ _ H2) in Hin.
  by apply list_elem_of_fmap in Hin as (a & Ha & _).
Qed.

(** The runs of the threads in turn are among those of the threads apart. *)
Lemma split_runs {A B} (p q : B -> prog A) (L : list B) s : Ends s ((p <$> L) ++ (q <$> L)) ->
  Ends s (in_turn p q <$> L) /\
  forall s' rs, Runs s (in_turn p q <$> L) s' rs -> exists rs1, Runs s ((p <$> L) ++ (q <$> L)) s' (rs1 ++ rs).
Proof.
  intros Hend. split.
  - apply not_stuck_ends. intros s' ts' Hr Hin. destruct (split_reach p q L _ _ Hr) as (us & vs & Hr' & [Hu Hv Ht H]).
    pose proof (Ends_stuck_free _ _ _ _ Hend Hr') as Hfree. cbn in *.
    apply list_elem_of_lookup in Hin as (i & Hi). pose proof (lookup_lt_Some _ _ _ Hi).
    destruct (lookup_lt_is_Some_2 L i) as [x Hx]; [lia|]. destruct (lookup_lt_is_Some_2 us i) as [u Hui]; [lia|].
    destruct (lookup_lt_is_Some_2 vs i) as [v Hvi]; [lia|]. apply Hfree, elem_of_app.
    destruct (H i x _ u v Hx Hi Hui Hvi) as [[E ->]|[_ <-]]; [|right; by eapply list_elem_of_lookup_2].
    destruct u; cbn in E; try discriminate E; [right; rewrite E|left]; by eapply list_elem_of_lookup_2.
  - intros s' rs Hr. destruct (split_reach p q L _ _ Hr) as (us & vs & Hr' & [Hu Hv Ht H]). cbn in *.
    rewrite length_fmap in Ht.
    assert (Hall : forall i x u v, L !! i = Some x -> us !! i = Some u -> vs !! i = Some v ->
      exists a b, u = Ret a /\ rs !! i = Some b /\ v = Ret b).
    { intros i x u v Hx Hui Hvi. pose proof (lookup_lt_Some _ _ _ Hx). destruct (lookup_lt_is_Some_2 rs i) as [b Hb]; [lia|].
      assert (Hrs : (Ret <$> rs) !! i = Some (Ret b)) by (by rewrite list_lookup_fmap, Hb).
      destruct (H i x _ u v Hx Hrs Hui Hvi) as [[E ->]|[(a & ->) <-]]; [|by exists a, b].
      destruct u; cbn in E; try discriminate E. rewrite <- E. eauto. }
    assert (Hus : exists rs1, us = Ret <$> rs1).
    { assert (Hret : Forall (fun u => exists a, u = Ret a) us).
      { apply Forall_lookup. intros i u Hui. pose proof (lookup_lt_Some _ _ _ Hui).
        destruct (lookup_lt_is_Some_2 L i) as [x Hx]; [lia|]. destruct (lookup_lt_is_Some_2 vs i) as [v Hvi]; [lia|].
        destruct (Hall i x u v Hx Hui Hvi) as (a & _ & -> & _). eauto. }
      clear -Hret. induction Hret as [|u us (a & ->) _ (rs1 & ->)]; [by exists []|by exists (a :: rs1)]. }
    destruct Hus as (rs1 & ->). exists rs1. unfold Runs. rewrite fmap_app. replace (Ret <$> rs) with vs; [done|].
    apply list_eq_same_length with (n := length L); [rewrite length_fmap; lia|lia|]. intros i v w Hi Hvi Hwi.
    destruct (lookup_lt_is_Some_2 L i) as [x Hx]; [done|]. destruct (lookup_lt_is_Some_2 (Ret <$> rs1) i) as [u Hui]; [lia|].
    destruct (Hall i x u v Hx Hui Hvi) as (a & b & _ & Hb & ->). rewrite list_lookup_fmap, Hb in Hwi. by injection Hwi.
Qed.
