(* ===== verification/LabelForest.v ===== *)
(** * The forest of labels ([cvcuda/priv/OpLabel.cu]: [FindRoot], [Reduction])

    The two device functions Label is built on, as programs of [LabelMachine], and
    what they do whatever the other threads do at the same time: [FindRoot] ends at
    the root of its label, [Reduction] ends with its two labels in one class and no
    other class changed. *)
From S2P Require Import Prelude LabelMachine.
From stdpp Require Import relations functions.
From stdpp Require Import options.

#[local] Open Scope Z_scope.
#[local] Open Scope prog_scope.
#[local] Set Default Proof Using "Type*".

(** ** The code *)

(** The loop of [FindRoot]. *)
Fixpoint find_loop (fuel : nat) (label next : Z) : prog Z :=
  match fuel with
  | O => OutOfFuel
  | S fuel => if label =? next then Ret label else Read next (fun next' => find_loop fuel next next')
  end.

Definition FindRoot (label : Z) : prog Z :=
  Read label (fun next => find_loop (S (Z.to_nat label)) label next).

(** The first two loops of [Reduction]: one label goes up to its root, unless it meets the other. *)
Fixpoint walk (fuel : nat) (label next other : Z) : prog Z :=
  match fuel with
  | O => OutOfFuel
  | S fuel =>
      if negb (label =? other) && negb (label =? next)
      then Read next (fun next' => walk fuel next next' other)
      else Ret label
  end.

(** The third loop. *)
Fixpoint merge (fuel : nat) (label1 label2 : Z) : prog Z :=
  match fuel with
  | O => OutOfFuel
  | S fuel =>
      if label1 =? label2 then Ret label1 else
      let '(label1, label2) := if label1 <? label2 then (label2, label1) else (label1, label2) in
      AtomicMin label1 label2 (fun label3 => merge fuel (if label1 =? label3 then label2 else label3) label2)
  end.

Definition read_if (b : bool) (i : Z) : prog Z := if b then Read i Ret else Ret 0.

Definition Reduction (label1 label2 : Z) : prog Z :=
  next1 ⇐ read_if (negb (label1 =? label2)) label1;
  next2 ⇐ read_if (negb (label1 =? label2)) label2;
  label1 ⇐ walk (S (Z.to_nat label1)) label1 next1 label2;
  label2 ⇐ walk (S (Z.to_nat label2)) label2 next2 label1;
  merge (S (Z.to_nat label1 + Z.to_nat label2)) label1 label2.

(** ** Closures of relations and pairs *)

Definition cl (R : relation Z) (o : list (Z * Z)) : relation Z := rtsc (fun a b => R a b \/ (a, b) ∈ o).

(** Equal and smaller relations. *)
Definition rel_sub (R S : relation Z) : Prop := forall a b, R a b -> S a b.
Definition rel_eq (R S : relation Z) : Prop := forall a b, R a b <-> S a b.

#[export] Instance rel_eq_equiv : Equivalence rel_eq.
Proof. unfold rel_eq; split; [by intros ??|intros ? ? H a b; by rewrite H|intros ??? H1 H2 a b; by rewrite H1]. Qed.
#[export] Instance rel_sub_po : PreOrder rel_sub.
Proof. unfold rel_sub; split; [by intros ??|intros ??? H1 H2 a b Hab; auto]. Qed.
Lemma rel_eq_sub R S : rel_eq R S <-> rel_sub R S /\ rel_sub S R.
Proof. unfold rel_eq, rel_sub; firstorder. Qed.

Lemma rel_eq_ge R S : rel_eq R S -> rel_sub S R.
Proof. by intros [_ H]%rel_eq_sub. Qed.

Lemma rtsc_least (R S : relation Z) : Equivalence S -> rel_sub R S -> rel_sub (rtsc R) S.
Proof.
  intros HS HR a b H. induction H as [x|x y z [H|H] _ IH]; [reflexivity|trans y; auto..].
  symmetry; auto.
Qed.

Lemma rtsc_mono (R S : relation Z) : rel_sub R S -> rel_sub (rtsc R) (rtsc S).
Proof. intros H; apply rtsc_least; [apply _|]. intros a b Hab. apply rtsc_lr; auto. Qed.

Lemma rtsc_eq (R S : relation Z) : rel_eq R S -> rel_eq (rtsc R) (rtsc S).
Proof. rewrite !rel_eq_sub. intros [H1 H2]; split; by apply rtsc_mono. Qed.

Lemma cl_pair R o a b : (a, b) ∈ o -> cl R o a b.
Proof. intros H; apply rtsc_lr; by right. Qed.
Lemma cl_base R o a b : R a b -> cl R o a b.
Proof. intros H; apply rtsc_lr; by left. Qed.

(** A closure is below another when its generators are. *)
Lemma cl_sub R S o o' : rel_sub R (cl S o') -> (forall a b, (a, b) ∈ o -> cl S o' a b) -> rel_sub (cl R o) (cl S o').
Proof. intros HR Ho; apply rtsc_least; [apply _|]. intros a b [H|H]; auto. Qed.

#[export] Instance cl_equivalence R o : Equivalence (cl R o).
Proof. unfold cl; apply _. Qed.

(** A base counts only by its classes. *)
Lemma cl_base_eq R S o : rel_eq (rtsc R) (rtsc S) -> rel_eq (cl R o) (cl S o).
Proof.
  assert (H : forall R S, rel_eq (rtsc R) (rtsc S) -> rel_sub (cl R o) (cl S o)).
  { intros R' S' HRS; apply cl_sub; [|apply cl_pair]. intros a b Hab.
    apply (rtsc_mono S' (fun x y => S' x y \/ (x, y) ∈ o)); [by left|]. by apply HRS, rtsc_lr. }
  intros HRS; apply rel_eq_sub; split; apply H; [done|by symmetry].
Qed.

(** An equal closure over a larger base. *)
Lemma cl_base_grow C C' o o' : rel_sub C C' -> rel_eq (cl C o) (cl C o') -> rel_eq (cl C' o) (cl C' o').
Proof.
  intros HC Ho.
  assert (Hsub : forall p, rel_sub (cl C p) (cl C' p)).
  { intros p. apply cl_sub; [intros a b Hab; apply cl_base; auto|apply cl_pair]. }
  rewrite rel_eq_sub; split; (apply cl_sub; [intros a b; apply cl_base|intros a b Hab; apply Hsub, Ho, cl_pair, Hab]).
Qed.

(** ** Threads that unite classes

    A thread owes pairs it has to put in one class. While it only reads, what it
    knows is kept by the others, and its pairs stay as they are ([soft]); from its
    first [atomicMin] on, what it owes is what the edge it replaced took away
    ([hard]). *)
Inductive duty := Soft (o : list (Z * Z)) | Hard (o : list (Z * Z)).
Definition duty_pairs (d : duty) : list (Z * Z) := match d with Soft o | Hard o => o end.
Definition hard_pairs (d : duty) : list (Z * Z) := match d with Soft _ => [] | Hard o => o end.

(** The edges of the forest over the valid labels, and labels that never go up. *)
Definition edges (V : Z -> Prop) (s : store) : relation Z := fun a b => V a /\ b = s a.
Definition forest (V : Z -> Prop) (s : store) : Prop := forall i, V i -> V (s i) /\ s i <= i.

Definition owed (f : duty -> list (Z * Z)) (ds : list duty) : relation Z :=
  fun a b => exists u d, ds !! u = Some d /\ (a, b) ∈ f d.

Lemma owed_update f (ds : list duty) t d a b : ds !! t = Some d ->
  owed f ds a b <-> (a, b) ∈ f d \/ exists u d', u <> t /\ ds !! u = Some d' /\ (a, b) ∈ f d'.
Proof.
  intros Ht; unfold owed; split; [|intros [H|(u & d' & _ & Hu & H)]; eauto].
  intros (u & d' & Hu & H). destruct (decide (u = t)) as [->|]; [simplify_eq; by left|right; eauto].
Qed.

Lemma owed_insert f (ds : list duty) t d d' a b : ds !! t = Some d ->
  owed f (<[t := d']> ds) a b <-> (a, b) ∈ f d' \/ exists u e, u <> t /\ ds !! u = Some e /\ (a, b) ∈ f e.
Proof.
  intros Ht. rewrite (owed_update f _ t d') by (apply list_lookup_insert_eq; by apply lookup_lt_Some in Ht).
  split; (intros [H|(u & e & Hu & He & H)]; [by left|right; exists u, e]).
  - by rewrite list_lookup_insert_ne in He.
  - by rewrite list_lookup_insert_ne.
Qed.

Section Unite.
Context {A : Type} (V : Z -> Prop) (T : relation Z).

Fixpoint hard (Q : A -> Prop) (o : list (Z * Z)) (p : prog A) : Prop :=
  match p with
  | Ret a => (forall a b, (a, b) ∈ o -> a = b) /\ Q a
  | AtomicMin i x k =>
      V i /\ V x /\ x <= i /\
      forall v, V v -> v <= i -> T i v ->
      exists o', (forall D, rel_eq (cl D ((i, Z.min v x) :: o')) (cl D ((i, v) :: o))) /\ hard Q o' (k v)
  | _ => False
  end.

Fixpoint soft (Q : A -> Prop) (o : list (Z * Z)) (C : relation Z) (p : prog A) : Prop :=
  match p with
  | Ret a => (forall a b, (a, b) ∈ o -> C a b) /\ Q a
  | Read i k =>
      V i /\ forall C' v, Equivalence C' -> rel_sub C C' -> V v -> v <= i -> T i v -> C' i v -> soft Q o C' (k v)
  | AtomicMin i x k => exists o', rel_eq (cl C o') (cl C o) /\ hard Q o' p
  | _ => False
  end.

Lemma soft_mono Q o C C' p : Equivalence C' -> rel_sub C C' -> soft Q o C p -> soft Q o C' p.
Proof.
  intros HC' Hsub; destruct p as [a|i k|i v k|i v k|]; cbn; [| |done| |done].
  - intros [H HQ]; split; auto.
  - intros [Hi H]; split; [done|]. intros C2 v H2 Hs; apply H; [done|by trans C'].
  - intros (o' & Ho & H); exists o'; split; [|done]. by apply (cl_base_grow C).
Qed.

Definition cur (f : duty -> list (Z * Z)) (s : store) (ds : list duty) : relation Z :=
  rtsc (fun a b => edges V s a b \/ owed f ds a b).

Definition thread_ok (C : relation Z) (Q : nat -> A -> Prop) (t : nat) (d : duty) (p : prog A) : Prop :=
  match d with Soft o => soft (Q t) o C p | Hard o => hard (Q t) o p end.

Record united (Q : nat -> A -> Prop) (s0 s : store) (ts : list (prog A)) (ds : list duty) : Prop := {
  u_forest : forest V s;
  u_outside : forall i, ~ V i -> s i = s0 i;
  u_total : rel_eq (cur duty_pairs s ds) T;
  u_length : length ds = length ts;
  u_threads : forall t p d, ts !! t = Some p -> ds !! t = Some d -> thread_ok (cur hard_pairs s ds) Q t d p;
}.

(** What all the threads but one owe, with all the edges but one. *)
Definition frame (f : duty -> list (Z * Z)) (s : store) (ds : list duty) (t : nat) (i : Z) : relation Z :=
  fun a b => (a <> i /\ edges V s a b) \/ exists u d, u <> t /\ ds !! u = Some d /\ (a, b) ∈ f d.

Lemma cur_frame f s ds t d i : ds !! t = Some d -> V i ->
  rel_eq (cur f s ds) (cl (frame f s ds t i) ((i, s i) :: f d)).
Proof.
  intros Ht Hi. apply rtsc_eq. intros a b. unfold frame, edges, owed. rewrite elem_of_cons. split.
  - intros [[Ha ->]|(u & d' & Hu & Hab)].
    + destruct (decide (a = i)) as [->|]; auto.
    + destruct (decide (u = t)) as [->|]; [simplify_eq; auto|]. left; right. eauto.
  - intros [[[? ?]|(u & d' & ? & ? & ?)]|[?|?]]; simplify_eq; eauto 8.
Qed.

Lemma frame_update f s ds t d' i v : rel_eq (frame f (<[i := v]> s) (<[t := d']> ds) t i) (frame f s ds t i).
Proof.
  intros a b. unfold frame, edges. split.
  - intros [(Ha & HV & Hb)|(u & d & Hu & Hd & Hab)]; [left|right].
    + rewrite fn_lookup_insert_ne in Hb by done; auto.
    + rewrite list_lookup_insert_ne in Hd by done; eauto.
  - intros [(Ha & HV & Hb)|(u & d & Hu & Hd & Hab)]; [left|right].
    + rewrite fn_lookup_insert_ne by done; auto.
    + exists u, d. by rewrite list_lookup_insert_ne by done.
Qed.

Lemma cl_rel_eq R S o : rel_eq R S -> rel_eq (cl R o) (cl S o).
Proof. intros H; apply rtsc_eq. intros a b; by rewrite (H a b). Qed.

(** The replaced edge and the new duty give the same classes, whichever duties count. *)
Lemma cur_atomic f s ds t o o' i v : ds !! t = Some (Hard o) -> f (Hard o) = o -> f (Hard o') = o' -> V i ->
  (forall D, rel_eq (cl D ((i, v) :: o')) (cl D ((i, s i) :: o))) ->
  rel_eq (cur f (<[i := v]> s) (<[t := Hard o']> ds)) (cur f s ds).
Proof.
  intros Ht Hf Hf' Hi H.
  etrans; [apply (cur_frame f _ _ t (Hard o') i); [|done]|].
  { apply list_lookup_insert_eq. by apply lookup_lt_Some in Ht. }
  rewrite Hf', fn_lookup_insert. etrans; [apply cl_rel_eq, frame_update|].
  etrans; [apply H|]. symmetry. rewrite <- Hf at 1. by apply cur_frame.
Qed.

Lemma forest_update s i v : forest V s -> V v -> v <= i -> forest V (<[i := v]> s).
Proof.
  intros Hs HV Hle j Hj. destruct (decide (i = j)) as [<-|].
  - by rewrite fn_lookup_insert.
  - rewrite fn_lookup_insert_ne by done. auto.
Qed.

#[local] Instance cur_equivalence f s ds : Equivalence (cur f s ds).
Proof. unfold cur; apply _. Qed.

Lemma cur_hard_total s ds : rel_sub (cur hard_pairs s ds) (cur duty_pairs s ds).
Proof.
  apply rtsc_mono. intros a b [H|(u & d & Hu & H)]; [by left|right]. exists u, d; split; [done|].
  destruct d; cbn in *; [set_solver|done].
Qed.

(** The edge of a valid label is known. *)
Lemma cur_edge f s ds i : V i -> cur f s ds i (s i).
Proof. intros Hi; apply rtsc_lr; by left. Qed.

Lemma thread_ok_mono C C' Q t d p : Equivalence C' -> rel_sub C C' -> thread_ok C Q t d p -> thread_ok C' Q t d p.
Proof. intros HC Hs; destruct d; cbn; [by apply soft_mono|done]. Qed.

Lemma threads_update C C' Q (ts : list (prog A)) (ds : list duty) t d d' p' : Equivalence C' -> rel_sub C C' ->
  (forall u q e, ts !! u = Some q -> ds !! u = Some e -> thread_ok C Q u e q) ->
  ds !! t = Some d -> thread_ok C' Q t d' p' ->
  forall u q e, <[t := p']> ts !! u = Some q -> <[t := d']> ds !! u = Some e -> thread_ok C' Q u e q.
Proof.
  intros HC Hs H Ht Hp u q e Hq He.
  apply list_lookup_insert_Some in Hq as [(<- & <- & _)|(Hne & Hq)].
  - rewrite list_lookup_insert_eq in He by (by apply lookup_lt_Some in Ht). by simplify_eq.
  - rewrite list_lookup_insert_ne in He by done. eauto using thread_ok_mono.
Qed.

(** Before its first [atomicMin] a thread turns what it owes into the pair it unites. *)
Lemma united_to_hard Q s0 s ts ds t o o' p : united Q s0 s ts ds -> ts !! t = Some p -> ds !! t = Some (Soft o) ->
  rel_eq (cl (cur hard_pairs s ds) o') (cl (cur hard_pairs s ds) o) -> hard (Q t) o' p ->
  united Q s0 s ts (<[t := Hard o']> ds).
Proof.
  intros [Hf Hout HT Hl Hth] Ht Hd Ho Hp.
  assert (Hgrow : rel_sub (cur hard_pairs s ds) (cur hard_pairs s (<[t := Hard o']> ds))).
  { apply rtsc_mono. intros a b [H|H]; [by left|right].
    apply (owed_insert _ _ _ _ _ _ _ Hd). apply (owed_update _ _ _ _ _ _ Hd) in H as [H|H]; [cbn in H; set_solver|by right]. }
  assert (Hin : forall a b, (a, b) ∈ o' -> cur duty_pairs s (<[t := Hard o']> ds) a b).
  { intros a b H. apply rtsc_lr; right. apply (owed_insert _ _ _ _ _ _ _ Hd). by left. }
  assert (Hin' : forall a b, (a, b) ∈ o -> cur duty_pairs s ds a b).
  { intros a b H. apply rtsc_lr; right. apply (owed_update _ _ _ _ _ _ Hd). by left. }
  assert (Hlift : forall S p, Equivalence S -> rel_sub (cur hard_pairs s ds) S -> (forall a b, (a, b) ∈ p -> S a b) ->
    rel_sub (cl (cur hard_pairs s ds) p) S).
  { intros S q HS HC Hq; apply rtsc_least; [done|]. intros a b [H|H]; auto. }
  split; [done|done| |by rewrite length_insert|].
  - etrans; [|exact HT]. apply rel_eq_sub; split; (apply rtsc_least; [apply _|]); intros a b [H|H];
      try (apply rtsc_lr; by left).
    + apply (owed_insert _ _ _ _ _ _ _ Hd) in H as [H|H].
      * apply (Hlift (cur duty_pairs s ds) o); [apply _|apply cur_hard_total|done|]. apply Ho, cl_pair, H.
      * apply rtsc_lr; right. apply (owed_update _ _ _ _ _ _ Hd). by right.
    + apply (owed_update _ _ _ _ _ _ Hd) in H as [H|H].
      * apply (Hlift (cur duty_pairs s (<[t := Hard o']> ds)) o'); [apply _|etrans; [exact Hgrow|apply cur_hard_total]|done|].
        apply Ho, cl_pair, H.
      * apply rtsc_lr; right. apply (owed_insert _ _ _ _ _ _ _ Hd). by right.
  - rewrite <- (list_insert_id ts t p Ht).
    apply (threads_update (cur hard_pairs s ds) _ Q ts ds t (Soft o)); [apply _|done..].
Qed.

Lemma united_atomic Q s0 s ts ds t o i x k : united Q s0 s ts ds -> ts !! t = Some (AtomicMin i x k) ->
  ds !! t = Some (Hard o) ->
  exists o', united Q s0 (<[i := Z.min (s i) x]> s) (<[t := k (s i)]> ts) (<[t := Hard o']> ds).
Proof.
  intros [Hf Hout HT Hl Hth] Ht Hd. destruct (Hth _ _ _ Ht Hd) as (Hi & Hx & Hxi & H); cbn in *.
  destruct (Hf i Hi) as [HVs Hle].
  destruct (H (s i) HVs Hle) as (o' & Ho & Hk).
  { apply HT, cur_edge, Hi. }
  exists o'. split.
  - apply forest_update; [done| |lia]. destruct (Z.min_spec (s i) x) as [[_ ->]|[_ ->]]; done.
  - intros j Hj. rewrite fn_lookup_insert_ne by (by intros ->). auto.
  - etrans; [|exact HT]. by apply (cur_atomic _ _ _ _ o).
  - by rewrite !length_insert.
  - apply (threads_update (cur hard_pairs s ds) _ Q ts ds t (Hard o)); [apply _| |done..].
    apply rel_eq_ge. by apply (cur_atomic _ _ _ _ o).
Qed.

Lemma united_step Q s0 c c' ds : united Q s0 c.1 c.2 ds -> step c c' -> exists ds', united Q s0 c'.1 c'.2 ds'.
Proof.
  intros HU Hst. destruct Hst as [s s' ts t p p' Ht Ha]; cbn in *.
  destruct (lookup_lt_is_Some_2 ds t) as [d Hd].
  { rewrite (u_length _ _ _ _ _ HU). by eapply lookup_lt_Some. }
  pose proof (u_threads _ _ _ _ _ HU _ _ _ Ht Hd) as Hp.
  destruct p as [a|i k|i v k|i x k|]; cbn in Ha; simplify_eq.
  - destruct d as [o|o]; [|done]. destruct Hp as [Hi Hk]. exists ds.
    destruct HU as [Hf Hout HT Hl Hth]. split; [done..|by rewrite length_insert|].
    rewrite <- (list_insert_id ds t _ Hd).
    apply (threads_update (cur hard_pairs s' ds) _ Q ts ds t (Soft o)); rewrite ?list_insert_id by done; [apply _|done..|].
    cbn. apply Hk; [apply _|done|by apply Hf..|apply HT, cur_edge, Hi|apply cur_edge, Hi].
  - by destruct d.
  - destruct d as [o|o].
    + destruct Hp as (o' & Ho & Hp').
      pose proof (united_to_hard _ _ _ _ _ _ _ _ _ HU Ht Hd Ho Hp') as HU'.
      destruct (united_atomic _ _ _ _ _ _ o' _ _ _ HU' Ht) as (o2 & H2); [|by eexists].
      apply list_lookup_insert_eq. by apply lookup_lt_Some in Hd.
    + destruct (united_atomic _ _ _ _ _ _ o _ _ _ HU Ht Hd) as (o2 & H2); by eexists.
Qed.
End Unite.

(** Every order of the steps unites exactly the pairs owed. *)
Section UniteRuns.
Context {A : Type} (V : Z -> Prop) (Q : nat -> A -> Prop) (s : store) (ts : list (prog A)) (os : list (list (Z * Z))).
Let T : relation Z := cl (edges V s) (concat os).
Hypothesis Hforest : forest V s.
Hypothesis Hlength : length os = length ts.
Hypothesis Hthreads : forall t p o, ts !! t = Some p -> os !! t = Some o -> soft V T (Q t) o (rtsc (edges V s)) p.

Lemma owed_soft a b : owed duty_pairs (Soft <$> os) a b <-> (a, b) ∈ concat os.
Proof.
  unfold owed. rewrite list_elem_of_In, in_concat. split.
  - intros (u & d & Hd & H). apply list_lookup_fmap_Some in Hd as (o & -> & Ho).
    exists o. split; [|by apply list_elem_of_In]. apply list_elem_of_In, list_elem_of_lookup; eauto.
  - intros (o & Ho & H). apply list_elem_of_In, list_elem_of_lookup in Ho as (u & Ho).
    exists u, (Soft o). rewrite list_lookup_fmap, Ho. split; [done|]. by apply list_elem_of_In.
Qed.

Lemma united_init : united V T Q s s ts (Soft <$> os).
Proof.
  split; [done|done| |by rewrite length_fmap|].
  - apply rtsc_eq. intros a b. by rewrite owed_soft.
  - intros t p d Ht Hd. apply list_lookup_fmap_Some in Hd as (o & -> & Ho). cbn.
    apply (soft_mono V T (Q t) o (rtsc (edges V s))); [unfold cur; apply _| |eauto].
    apply rtsc_mono. by left.
Qed.

Lemma united_reach s' ts' : rtc step (s, ts) (s', ts') -> exists ds, united V T Q s s' ts' ds.
Proof.
  intros H. apply (rtc_ind_r (R := step) (fun c => exists ds, united V T Q s c.1 c.2 ds) (s, ts)) with (z := (s', ts')); [| |done].
  - eexists; apply united_init.
  - intros c c' _ Hst (ds & HU). by eapply united_step.
Qed.

Lemma united_stuck_free s' ts' ds : united V T Q s s' ts' ds -> stuck_free ts'.
Proof.
  intros HU Hin. apply list_elem_of_lookup in Hin as (t & Ht).
  destruct (lookup_lt_is_Some_2 ds t) as [d Hd].
  { rewrite (u_length _ _ _ _ _ _ _ HU). by eapply lookup_lt_Some. }
  pose proof (u_threads _ _ _ _ _ _ _ HU _ _ _ Ht Hd) as H. by destruct d.
Qed.

Lemma united_done s' rs ds : united V T Q s s' (Ret <$> rs) ds ->
  rel_eq (rtsc (edges V s')) T /\ forall t a, rs !! t = Some a -> Q t a.
Proof.
  intros HU. destruct HU as [Hf Hout HT Hl Hth]. rewrite length_fmap in Hl.
  assert (Hret : forall t d, ds !! t = Some d -> exists a, rs !! t = Some a /\ thread_ok V T (cur V hard_pairs s' ds) Q t d (Ret a)).
  { intros t d Hd. destruct (lookup_lt_is_Some_2 rs t) as [a Ha].
    { rewrite <- Hl. by eapply lookup_lt_Some. }
    exists a; split; [done|]. apply Hth; [by rewrite list_lookup_fmap, Ha|done]. }
  assert (Hhard : rel_sub (cur V hard_pairs s' ds) (rtsc (edges V s'))).
  { apply rtsc_least; [apply _|]. intros a b [H|(u & d & Hu & H)]; [by apply rtsc_lr|].
    destruct (Hret _ _ Hu) as (r & _ & Hok). destruct d as [o|o]; cbn in H; [set_solver|].
    destruct Hok as [Hok _]. rewrite (Hok _ _ H). reflexivity. }
  split.
  - etrans; [|exact HT]. apply rel_eq_sub; split; [apply rtsc_mono; by left|].
    apply rtsc_least; [apply _|]. intros a b [H|(u & d & Hu & H)]; [by apply rtsc_lr|].
    destruct (Hret _ _ Hu) as (r & _ & Hok). destruct d as [o|o]; cbn in H; destruct Hok as [Hok _]; [by apply Hhard, Hok|].
    rewrite (Hok _ _ H). reflexivity.
  - intros t a Ha. destruct (lookup_lt_is_Some_2 ds t) as [d Hd].
    { rewrite Hl. by eapply lookup_lt_Some. }
    destruct (Hret _ _ Hd) as (a' & Ha' & Hok). simplify_eq. by destruct d; destruct Hok.
Qed.

Lemma unite_runs :
  Ends s ts /\
  forall s' rs, Runs s ts s' rs -> (forest V s' /\ forall i, ~ V i -> s' i = s i) /\
    rel_eq (rtsc (edges V s')) T /\ forall t a, rs !! t = Some a -> Q t a.
Proof.
  split.
  - apply not_stuck_ends. intros s' ts' Hr. destruct (united_reach _ _ Hr) as (ds & HU). by eapply united_stuck_free.
  - intros s' rs Hr. destruct (united_reach _ _ Hr) as (ds & HU).
    split; [by destruct HU|]. by eapply united_done.
Qed.
End UniteRuns.

(** ** Reduction unites its labels *)
Lemma cl_flip D o1 a b o2 : rel_eq (cl D (o1 ++ (a, b) :: o2)) (cl D (o1 ++ (b, a) :: o2)).
Proof.
  assert (H : forall a b, rel_sub (cl D (o1 ++ (a, b) :: o2)) (cl D (o1 ++ (b, a) :: o2))).
  { intros c d. apply cl_sub; [intros ??; apply cl_base|].
    intros e f [Hin|[[= -> ->]|Hin]%elem_of_cons]%elem_of_app; [|symmetry|]; apply cl_pair; set_solver. }
  apply rel_eq_sub; auto.
Qed.

(** The edge to the old parent and the pair, or the edge to the smaller and the rest of the pair. *)
Lemma min_exchange hi lo v D :
  rel_eq (cl D ((hi, Z.min v lo) :: [(v, lo)])) (cl D ((hi, v) :: [(hi, lo)])).
Proof.
  apply rel_eq_sub; split; (apply cl_sub; [intros ??; apply cl_base|]); intros a b H;
    destruct (Z.min_spec v lo) as [[_ E]|[_ E]]; rewrite E in *;
    rewrite !elem_of_cons, elem_of_nil in H; destruct H as [?|[?|[]]]; simplify_eq; try (apply cl_pair; set_solver).
  - trans hi; [symmetry|]; apply cl_pair; set_solver.
  - trans hi; [symmetry|]; apply cl_pair; set_solver.
  - trans v; apply cl_pair; set_solver.
  - trans lo; [|symmetry]; apply cl_pair; set_solver.
Qed.

(** Nothing is left to unite when the label was a root. *)
Lemma root_exchange hi lo D : lo <= hi ->
  rel_eq (cl D ((hi, Z.min hi lo) :: [(lo, lo)])) (cl D ((hi, hi) :: [(hi, lo)])).
Proof.
  intros Hle. rewrite Z.min_r by done.
  apply rel_eq_sub; split; (apply cl_sub; [intros ??; apply cl_base|]); intros a b H;
    rewrite !elem_of_cons, elem_of_nil in H; destruct H as [?|[?|[]]]; simplify_eq; try reflexivity; apply cl_pair; set_solver.
Qed.

Lemma cl_shift C a b c d : Equivalence C -> C a c -> C b d -> rel_eq (cl C [(c, d)]) (cl C [(a, b)]).
Proof.
  intros HC H1 H2. apply rel_eq_sub; split; (apply cl_sub; [intros ??; apply cl_base|]);
    intros x y [= -> ->]%list_elem_of_singleton.
  - trans a; [apply cl_base; by symmetry|]. trans b; [apply cl_pair; set_solver|by apply cl_base].
  - trans c; [by apply cl_base|]. trans d; [apply cl_pair; set_solver|apply cl_base; by symmetry].
Qed.

Section ReductionSpec.
Context (V : Z -> Prop) (T : relation Z).
Hypothesis HT : Equivalence T.
Hypothesis Hpos : forall i, V i -> 0 <= i.

(** [T] relates the result to [x]. *)
Definition ends_at (x a : Z) : Prop := V a /\ T x a.

Lemma merge_hard fuel l1 l2 x : V l1 -> V l2 -> T x l1 -> T l1 l2 ->
  (Z.to_nat l1 + Z.to_nat l2 < fuel)%nat -> hard V T (ends_at x) [(l1, l2)] (merge fuel l1 l2).
Proof.
  revert l1 l2; induction fuel as [|fuel IH]; intros l1 l2 H1 H2 Hx H12 Hf; [lia|]. cbn.
  destruct (Z.eqb_spec l1 l2) as [->|Hne].
  { cbn. split; [|done]. intros a b. rewrite elem_of_cons, elem_of_nil. naive_solver. }
  assert (Hmain : forall hi lo, V hi -> V lo -> T x hi -> T hi lo -> lo < hi ->
    (Z.to_nat hi + Z.to_nat lo < S fuel)%nat ->
    hard V T (ends_at x) [(hi, lo)] (AtomicMin hi lo (fun l3 => merge fuel (if hi =? l3 then lo else l3) lo))).
  { intros hi lo Hhi Hlo Hxh Hhl Hlt Hfu. pose proof (Hpos _ Hhi). pose proof (Hpos _ Hlo). cbn.
    split_and!; [done..|lia|]. intros v Hv Hvle HTv. pose proof (Hpos _ Hv).
    destruct (Z.eqb_spec hi v) as [<-|Hnv].
    - exists [(lo, lo)]. split; [intros D; apply root_exchange; lia|].
      apply IH; [done..|by trans hi|reflexivity|lia].
    - exists [(v, lo)]. split; [apply min_exchange|].
      apply IH; [done..|by trans hi| |lia]. trans hi; [by symmetry|done]. }
  destruct (Z.ltb_spec l1 l2).
  - assert (Hsw : hard V T (ends_at x) [(l2, l1)] (AtomicMin l2 l1 (fun l3 => merge fuel (if l2 =? l3 then l1 else l3) l1))).
    { apply Hmain; [done..|by trans l1|by symmetry|lia|lia]. }
    destruct Hsw as (Ha & Hb & Hc & Hd). split_and!; [done..|]. intros v Hv Hvl HTv.
    destruct (Hd v Hv Hvl HTv) as (o' & Ho & Hk). exists o'. split; [|done].
    intros D. etrans; [apply Ho|]. apply (cl_flip D [(l2, v)] l2 l1 []).
  - apply Hmain; [done..|lia|lia].
Qed.
Lemma merge_soft C fuel l1 l2 a b x : Equivalence C -> V l1 -> V l2 -> C a l1 -> C b l2 -> T l1 l2 -> T x l1 ->
  (Z.to_nat l1 + Z.to_nat l2 < fuel)%nat -> soft V T (ends_at x) [(a, b)] C (merge fuel l1 l2).
Proof.
  intros HC H1 H2 Ha Hb H12 Hx Hf.
  pose proof (merge_hard fuel l1 l2 x H1 H2 Hx H12 Hf) as Hh.
  destruct fuel as [|fuel]; [lia|]. cbn in *.
  destruct (Z.eqb_spec l1 l2) as [->|Hne].
  - split; [|done]. intros c d [= -> ->]%list_elem_of_singleton. trans l2; [done|by symmetry].
  - destruct (l1 <? l2); exists [(l1, l2)]; (split; [by apply cl_shift|exact Hh]).
Qed.

Lemma walk_soft {A} (Q : A -> Prop) o (k : Z -> prog A) other fuel l n C : Equivalence C -> V l -> V n -> n <= l -> C l n -> T l n ->
  (Z.to_nat l < fuel)%nat ->
  (forall C' r, Equivalence C' -> rel_sub C C' -> V r -> r <= l -> C' l r -> T l r -> soft V T Q o C' (k r)) ->
  soft V T Q o C (prog_bind (walk fuel l n other) k).
Proof.
  revert l n C; induction fuel as [|fuel IH]; intros l n C HC Hl Hn Hle HCn HTn Hf Hk; [lia|]. cbn.
  destruct (negb (l =? other) && negb (l =? n)) eqn:E; cbn.
  - split; [done|]. intros C' v HC' Hs Hv Hvn HTv HCv.
    assert (n <> l) by (intros ->; rewrite Z.eqb_refl, andb_false_r in E; done).
    pose proof (Hpos _ Hl). pose proof (Hpos _ Hn).
    apply IH; [done..|lia|]. intros C2 r HC2 Hs2 Hr Hrn HCr HTr.
    apply Hk; [done|by trans C'|done|lia|trans n; [auto|done]|by trans n].
  - apply Hk; [done..|lia|reflexivity|reflexivity].
Qed.

Lemma Reduction_soft C l1 l2 a b x : Equivalence C -> V l1 -> V l2 -> C a l1 -> C b l2 -> T l1 l2 -> T x l1 ->
  soft V T (ends_at x) [(a, b)] C (Reduction l1 l2).
Proof.
  intros HC H1 H2 Ha Hb H12 Hx. unfold Reduction.
  destruct (Z.eqb_spec l1 l2) as [->|Hne].
  - cbn. rewrite Z.eqb_refl. cbn. rewrite Z.eqb_refl. cbn. rewrite Z.eqb_refl. cbn.
    split; [|done]. intros c d [= -> ->]%list_elem_of_singleton. trans l2; [done|by symmetry].
  - cbn [negb read_if prog_bind soft]. split; [done|].
    intros C1 n1 HC1 Hs1 Hn1 Hle1 HT1 HCn1. split; [done|].
    intros C2 n2 HC2 Hs2 Hn2 Hle2 HT2 HCn2.
    apply walk_soft; [done..|by apply Hs2|done|lia|]. intros C3 r1 HC3 Hs3 Hr1 Hrl1 HCr1 HTr1.
    apply walk_soft; [done..|by apply Hs3|done|lia|]. intros C4 r2 HC4 Hs4 Hr2 Hrl2 HCr2 HTr2.
    assert (Hall : rel_sub C C4) by (repeat (etrans; [eassumption|]); reflexivity).
    apply merge_soft; [done..| | | | |lia].
    + trans l1; [by apply Hall|by apply Hs4].
    + trans l2; [by apply Hall|done].
    + trans l1; [by symmetry|]. by trans l2.
    + by trans l1.
Qed.
End ReductionSpec.

(** ** Roots *)

(** Labels of [V] change to what [f] gives for them, or not at all. *)
Definition towards (V : Z -> Prop) (f : Z -> Z) (s1 s2 : store) : Prop :=
  forall i, s2 i = s1 i \/ (V i /\ s2 i = f i).

#[export] Instance towards_po V f : PreOrder (towards V f).
Proof.
  split; [intros s1 i; by left|]. intros s1 s2 s3 H12 H23 i.
  destruct (H23 i) as [->|H]; [apply H12|by right].
Qed.

(** A thread that writes what [f] gives leaves it there for good. *)
Lemma towards_write {A} (I : store -> Prop) (V : Z -> Prop) f i (a : A) (Q : A -> store -> Prop) s : V i ->
  (forall s1, I s1 -> I (<[i := f i]> s1)) -> (forall s1, s1 i = f i -> Q a s1) ->
  rg I (towards V f) Q (Write i (f i) (Ret a)) s.
Proof.
  intros HV HI HQ s1 _ H1. split_and!.
  - intros j. destruct (decide (i = j)) as [<-|]; [right; by rewrite fn_lookup_insert|left; by rewrite fn_lookup_insert_ne].
  - auto.
  - intros s2 H2 _. apply HQ. destruct (H2 i) as [->|[_ ->]]; [|done]. by rewrite fn_lookup_insert.
Qed.

(** The root of a label: as many steps up as the label is large. *)
Definition root (s : store) (i : Z) : Z := Nat.iter (Z.to_nat i) s i.

Section Roots.
Context (V : Z -> Prop) (s : store).
Hypothesis Hpos : forall i, V i -> 0 <= i.
Hypothesis Hs : forest V s.

Lemma iter_root n i : V i -> (Z.to_nat i <= n)%nat -> s (Nat.iter n s i) = Nat.iter n s i.
Proof.
  revert i; induction n as [|n IH]; intros i Hi Hn; destruct (Hs i Hi) as [HVi Hle];
    pose proof (Hpos _ Hi); pose proof (Hpos _ HVi); [cbn; lia|].
  rewrite Nat.iter_succ_r. destruct (decide (s i = i)) as [E|E]; [|apply IH; [done|lia]].
  rewrite E. clear -E. induction n as [|n IH]; [done|]. by rewrite Nat.iter_succ, IH.
Qed.

Lemma iter_enough n i : V i -> (Z.to_nat i <= n)%nat -> Nat.iter n s i = root s i.
Proof.
  intros Hi Hn. replace n with (n - Z.to_nat i + Z.to_nat i)%nat by lia.
  generalize (n - Z.to_nat i)%nat as k. induction k as [|k IH]; [done|].
  change (S k + Z.to_nat i)%nat with (S (k + Z.to_nat i)). rewrite Nat.iter_succ, IH. by apply iter_root.
Qed.

Lemma iter_below n i : V i -> V (Nat.iter n s i) /\ Nat.iter n s i <= i /\ rtsc (edges V s) i (Nat.iter n s i).
Proof.
  intros Hi; induction n as [|n (HV & Hle & Hr)]; [split_and!; [done|cbn; lia|reflexivity]|rewrite Nat.iter_succ].
  destruct (Hs _ HV). split_and!; [done|lia|]. trans (Nat.iter n s i); [done|]. by apply rtsc_lr.
Qed.

Lemma root_below i : V i -> V (root s i) /\ root s i <= i /\ rtsc (edges V s) i (root s i).
Proof. apply iter_below. Qed.

Lemma root_fixed i : V i -> s (root s i) = root s i.
Proof. intros Hi. by apply iter_root. Qed.

Lemma root_parent i : V i -> root s (s i) = root s i.
Proof.
  intros Hi. destruct (Hs i Hi) as [HVi Hle]. pose proof (Hpos _ HVi).
  rewrite <- (iter_enough (Z.to_nat i) (s i)) by (done || lia).
  rewrite <- Nat.iter_succ_r, Nat.iter_succ. by apply root_fixed.
Qed.

Lemma root_of_fixed i : s i = i -> root s i = i.
Proof. intros H. unfold root. induction (Z.to_nat i) as [|n IH]; [done|]. by rewrite Nat.iter_succ, IH. Qed.

(** Labels are in one class when they have one root, ... *)
Lemma root_classes i j : V i -> V j -> rtsc (edges V s) i j <-> root s i = root s j.
Proof.
  intros Hi Hj. split.
  - apply (rtsc_least _ (fun a b => root s a = root s b)).
    + split; [by intros ?|by intros ?|intros ??? -> ->; done].
    + intros a b [Ha ->]. by rewrite root_parent.
  - intros E. trans (root s i); [by apply root_below|]. rewrite E. symmetry. by apply root_below.
Qed.

(** ... the least label of the class. *)
Lemma root_least i j : V i -> V j -> rtsc (edges V s) i j -> root s i <= j.
Proof. intros Hi Hj H. apply root_classes in H as ->; [|done..]. by apply root_below. Qed.

(** ** FindRoot finds the root, whoever shortens the paths at the same time *)

Definition shortened (s' : store) : Prop :=
  forest V s' /\ forall i, V i -> root s (s' i) = root s i /\ (s' i = i <-> root s i = i).

Lemma shortened_refl : shortened s.
Proof.
  split; [done|]. intros i Hi. split; [by apply root_parent|]. split; [apply root_of_fixed|].
  intros E. rewrite <- E at 1. by rewrite root_fixed.
Qed.

(** Writing the root of a label at the label shortens a path. *)
Lemma shortened_write s1 i : V i -> shortened s1 -> shortened (<[i := root s i]> s1).
Proof.
  intros Hi [Hf Hr]. destruct (root_below i Hi) as (HV & Hle & _). split.
  - by apply forest_update.
  - intros j Hj. destruct (decide (i = j)) as [<-|]; [|rewrite fn_lookup_insert_ne by done; auto].
    rewrite fn_lookup_insert. split; [|done]. by apply root_of_fixed, root_fixed.
Qed.

Lemma find_loop_rg G `{!PreOrder G} fuel label next s1 : V label -> V next -> next <= label ->
  root s next = root s label -> (next = label -> root s label = label) -> (Z.to_nat label < fuel)%nat ->
  rg shortened G (fun a _ => a = root s label) (find_loop fuel label next) s1.
Proof.
  revert label next s1; induction fuel as [|fuel IH]; intros l n s1 Hl Hn Hle Hr Hroot Hf; [lia|]. cbn.
  destruct (Z.eqb_spec l n) as [->|Hne].
  - intros s2 _ _. symmetry. auto.
  - intros s2 _ [Hf2 Hr2]. destruct (Hf2 _ Hn) as [HV2 Hle2]. destruct (Hr2 _ Hn) as [E2 [Hfix _]].
    pose proof (Hpos _ Hl). pose proof (Hpos _ Hn). rewrite <- Hr.
    apply IH; [done..|lia].
Qed.

Lemma FindRoot_rg G `{!PreOrder G} label s1 : V label ->
  rg shortened G (fun a _ => a = root s label) (FindRoot label) s1.
Proof.
  intros Hl s2 HG [Hf Hr]. destruct (Hf _ Hl) as [HV2 Hle2]. destruct (Hr _ Hl) as [E2 [Hfix _]].
  apply find_loop_rg; [done..|lia].
Qed.
End Roots.

(** ** The rules for threads given by a list *)

Lemma rg_runs_map {A B} I G `{!PreOrder G} (f : B -> prog A) (Q : B -> A -> store -> Prop) s (L : list B) : I s ->
  (forall x, x ∈ L -> rg I G (Q x) (f x) s) ->
  Ends s (f <$> L) /\
  forall s' rs, Runs s (f <$> L) s' rs -> G s s' /\ I s' /\ Forall2 (fun x a => Q x a s') L rs.
Proof.
  intros HI H.
  destruct (rg_runs I G (fun t a s' => forall x, L !! t = Some x -> Q x a s') s (f <$> L) HI) as [Hex Hall].
  - intros t p Hp. apply list_lookup_fmap_Some in Hp as (x & -> & Hx).
    assert (Hw : forall p s1, rg I G (Q x) p s1 -> rg I G (fun a s' => forall x, L !! t = Some x -> Q x a s') p s1).
    { induction p as [a|i k IH|i v k IH|i v k IH|]; intros s1 Hp s2 HG HI2; specialize (Hp s2 HG HI2); cbn in Hp.
      - intros y Hy. by simplify_eq.
      - by apply IH.
      - destruct Hp as (? & ? & ?); auto.
      - destruct Hp as (? & ? & ?); auto.
      - done. }
    apply Hw, H. by eapply list_elem_of_lookup_2.
  - split; [done|]. intros s' rs Hr. destruct (Hall _ _ Hr) as (HG & HI' & HQ). split_and!; [done..|].
    apply Forall2_same_length_lookup_2; [by rewrite (Runs_length _ _ _ _ Hr), length_fmap|].
    intros t x a Hx Ha. by eapply HQ.
Qed.

(** A thread's duty follows what it gives. *)
Section SoftWeaken.
Context {A : Type} (V : Z -> Prop) (T : relation Z) (Q Q' : A -> Prop).
Hypothesis HQ : forall a, Q a -> Q' a.

Lemma hard_weaken o p : hard V T Q o p -> hard V T Q' o p.
Proof.
  revert o; induction p as [a|i k IH|i v k IH|i v k IH|]; intros o H; cbn in *; try done; [naive_solver|].
  destruct H as (Hi & Hv & Hle & H). split_and!; [done..|]. intros w Hw Hwi HTw.
  destruct (H w Hw Hwi HTw) as (o' & Ho & Hk). eauto.
Qed.

Lemma soft_weaken o C p : soft V T Q o C p -> soft V T Q' o C p.
Proof.
  revert o C; induction p as [a|i k IH|i v k IH|i v k IH|]; intros o C H; try done; cbn in *.
  - naive_solver.
  - destruct H as [Hi H]; split; [done|]. intros; apply IH; auto.
  - destruct H as (o' & Ho & H). exists o'. split; [done|]. by apply (hard_weaken o' (AtomicMin i v k)).
Qed.
End SoftWeaken.

Lemma unite_runs_map {A B} V (f : B -> prog A) (g : B -> list (Z * Z)) (Q : B -> A -> Prop) s (L : list B) : forest V s ->
  (forall x, x ∈ L -> soft V (cl (edges V s) (L ≫= g)) (Q x) (g x) (rtsc (edges V s)) (f x)) ->
  Ends s (f <$> L) /\
  forall s' rs, Runs s (f <$> L) s' rs ->
    (forest V s' /\ forall i, ~ V i -> s' i = s i) /\
    rel_eq (rtsc (edges V s')) (cl (edges V s) (L ≫= g)) /\ Forall2 Q L rs.
Proof.
  intros Hs H.
  assert (Hcat : concat (g <$> L) = L ≫= g) by by (clear; induction L as [|x L IH]; [done|]; cbn; by rewrite <- IH).
  destruct (unite_runs V (fun t a => forall x, L !! t = Some x -> Q x a) s (f <$> L) (g <$> L) Hs) as [Hex Hall].
  - by rewrite !length_fmap.
  - intros t p o Hp Ho. rewrite Hcat.
    apply list_lookup_fmap_Some in Hp as (x & -> & Hx). rewrite list_lookup_fmap, Hx in Ho. cbn in Ho. simplify_eq.
    apply soft_weaken with (Q := Q x); [intros a Ha y Hy; by simplify_eq|].
    apply H. by eapply list_elem_of_lookup_2.
  - split; [done|]. intros s' rs Hr. destruct (Hall _ _ Hr) as (Hf & HT & HQ).
    rewrite Hcat in HT. split; [done|]. split; [done|].
    apply Forall2_same_length_lookup_2; [by rewrite (Runs_length _ _ _ _ Hr), length_fmap|].
    intros t x a Hx Ha. by eapply HQ.
Qed.

(** A store that holds the roots of a forest: the same classes, each label at its root. *)
Lemma compressed V s s' : (forall i, V i -> 0 <= i) -> forest V s -> (forall i, V i -> s' i = root s i) ->
  forest V s' /\ rel_eq (rtsc (edges V s')) (rtsc (edges V s)).
Proof.
  intros Hpos Hs H. split.
  - intros i Hi. rewrite H by done. by destruct (root_below V s Hpos Hs i Hi) as (? & ? & _).
  - apply rel_eq_sub; split; (apply rtsc_least; [apply _|]); intros a b [Ha ->].
    + rewrite H by done. by apply root_below.
    + destruct (Hs a Ha) as [Hb _].
      trans (s' a); [by apply rtsc_lr|]. symmetry.
      replace (s' a) with (s' (s a)); [by apply rtsc_lr|].
      rewrite !H by done. by apply (root_parent V).
Qed.

(** ** Any number of unions at once *)

Definition reduce_pair (p : Z * Z) : prog Z := Reduction p.1 p.2.

(** C10: any number of threads that each run [Reduction] on the labels of a forest,
    their reads and [atomicMin]s interleaved in any order, come to an end: no run is
    endless, and any run, wherever it is, goes on to the end of all the threads. They leave
    a forest whose classes are those it had with each pair united and no other, and
    each gives a label of the class of its pair. *)
Theorem reductions_unite (V : Z -> Prop) (s : store) (ps : list (Z * Z))
    (Hpos : forall i, V i -> 0 <= i) (Hs : forest V s) (Hps : Forall (fun p => V p.1 /\ V p.2) ps) :
  Ends s (reduce_pair <$> ps) /\
  forall s' rs, Runs s (reduce_pair <$> ps) s' rs ->
    forest V s' /\ (forall i, ~ V i -> s' i = s i) /\
    rel_eq (rtsc (edges V s')) (cl (edges V s) ps) /\
    Forall2 (fun p r => V r /\ cl (edges V s) ps p.1 r) ps rs.
Proof.
  rewrite Forall_forall in Hps.
  assert (Hps' : (ps ≫= fun p => [p]) = ps) by (clear; induction ps as [|p ps IH]; [done|]; cbn; by rewrite IH).
  destruct (unite_runs_map V reduce_pair (fun p => [p]) (fun p r => V r /\ cl (edges V s) ps p.1 r) s ps Hs) as [Hex Hall].
  - rewrite Hps'. intros [a b] Hp. destruct (Hps (a, b)) as [Ha Hb]; [by apply list_elem_of_In|].
    apply Reduction_soft; [apply _|done|apply _|done|done|reflexivity|reflexivity|by apply cl_pair|reflexivity].
  - split; [done|]. intros s' rs Hr. destruct (Hall _ _ Hr) as ((Hf & Ho) & Hc & HQ). rewrite Hps' in Hc.
    split; [done|]. by split.
Qed.

Definition five (i : Z) : Prop := 0 <= i < 5.

Lemma reductions_unite_witness :
  exists s' rs, Runs (fun i => i) (reduce_pair <$> [(1, 3); (4, 3); (0, 2)]) s' rs /\
    rtsc (edges five s') 1 4 /\ ~ rtsc (edges five s') 0 1.
Proof.
  destruct (reductions_unite five (fun i => i) [(1, 3); (4, 3); (0, 2)]) as [Hend H].
  - by intros i [? _].
  - intros i Hi. split; [done|reflexivity].
  - repeat constructor; done.
  - destruct (Ends_run _ _ Hend) as (s' & rs & Hr).
    exists s', rs. split; [done|]. destruct (H s' rs Hr) as (_ & _ & Hc & _). split.
    + apply Hc. trans 3; [|symmetry]; apply cl_pair; set_solver.
    + rewrite (Hc 0 1).
      assert (Hs : rel_sub (cl (edges five (fun i => i)) [(1, 3); (4, 3); (0, 2)]) (fun a b => (a = 0 \/ a = 2) <-> (b = 0 \/ b = 2))).
      { apply rtsc_least; [split; [by intros ?|by intros ? ? ->|by intros ? ? ? -> ->]|].
        intros a b [[_ ->]|Hin]; [done|]. rewrite !elem_of_cons, elem_of_nil in Hin. naive_solver lia. }
      intros Hcon. apply Hs in Hcon. lia.
Defined.
