(* ===== verification/LabelKernel.v ===== *)
(** * The labelling kernels of Label on images ([cvcuda/priv/OpLabel.cu])

    [BlockLabel2D], [YLabelReduction2D], [XLabelReduction2D], [ResolveLabels2D] and
    their launches, for one sample: threads of a block meet at [__syncthreads], the
    threads between two barriers, and those of different blocks, interleave in any
    order. *)
From S2P Require Import Prelude MathUtil LabelMachine LabelForest.
From stdpp Require Import relations functions.
From stdpp Require Import options.

#[local] Open Scope Z_scope.
#[local] Open Scope prog_scope.

(** ** Blocks, threads, warps *)

Definition BW : Z := 32.
Definition BH : Z := 4.
Definition warpSize : Z := 32.

(** The pairs [(x, y)] of a grid or of a block, rows one after the other. *)
Definition pairs2 (nx ny : Z) : list (Z * Z) := zrange 0 ny ≫= fun y => (fun x => (x, y)) <$> zrange 0 nx.

Record gthread := MkGThread { blockIdx : Z * Z; threadIdx : Z * Z }.

Definition grid2 (blocks : Z * Z) : list gthread :=
  pairs2 blocks.1 blocks.2 ≫= fun b => MkGThread b <$> pairs2 BW BH.

(** [__shfl_up_sync(mask, v, 1)] for the thread of number [tid] in its block: the
    value of the lane below; its own value at lane 0. What it is when the lane below
    does not take part is not said: [undef]. *)
Definition shfl_up (undef : Z -> Z) (active : Z -> bool) (v : Z -> Z) (tid : Z) : Z :=
  if tid mod warpSize <? 1 then v tid
  else if active (tid - 1) then v (tid - 1) else undef tid.

(** The values a mask or thresholds make of a pixel. *)
Definition thresh (minThresh maxThresh : option Z) (p : Z) : Z :=
  match minThresh, maxThresh with
  | Some minThreshold, Some maxThreshold => if (p <? minThreshold) || (maxThreshold <? p) then 0 else 1
  | Some minThreshold, None => if p <? minThreshold then 0 else 1
  | None, Some maxThreshold => if maxThreshold <? p then 0 else 1
  | None, None => p
  end.

(** One sample: its size, its pixels by row and column, the thresholds of the
    sample, the row pitch of the labels in bytes. *)
Record Sample := MkSample {
  size_x : Z; size_y : Z;
  src : Z -> Z -> Z;
  minThresh : option Z; maxThresh : option Z;
  dst_strides1 : Z
}.

(** ** The kernels *)

Section Kernels.
Variables (undef : Z -> Z) (im : Sample).

Definition pixel (y x : Z) : Z := thresh (minThresh im) (maxThresh im) (src im y x).
Definition dstStrideH : Z := dst_strides1 im / 4.

(** The index of [dst.ptr(z, y, x)] among the labels of its sample. *)
Definition dst_at (y x : Z) : Z := i32 (y * dst_strides1 im + x * 4) / 4.

Definition in_size (gy gx : Z) : bool := (gx <? size_x im) && (gy <? size_y im).

(** *** BlockLabel2D *)

Section Block.
Variable blockIdx : Z * Z.

(** The thread of number [i] in the block is at row [i / BW] and column [i mod BW]. *)
Definition gc_x (i : Z) : Z := i32 (blockIdx.1 * BW) + i mod BW.
Definition gc_y (i : Z) : Z := i32 (blockIdx.2 * BH) + i / BW.
Definition inside_block (i : Z) : bool := in_size (gc_y i) (gc_x i).

Definition pyx (i : Z) : Z := pixel (gc_y i) (gc_x i).
Definition pym1x (i : Z) : Z := if 0 <? i / BW then pixel (gc_y i - 1) (gc_x i) else 0.
Definition pyxm1 (i : Z) : Z := shfl_up undef inside_block pyx i.
Definition pym1xm1 (i : Z) : Z := shfl_up undef inside_block pym1x i.

Definition nym1x (i : Z) : bool := if 0 <? i / BW then pyx i =? pym1x i else false.
Definition nyxm1 (i : Z) : bool := if 0 <? i mod BW then pyx i =? pyxm1 i else false.
Definition nym1xm1 (i : Z) : bool :=
  if (0 <? i / BW) && (0 <? i mod BW) then pyx i =? pym1xm1 i else false.

Definition label1 (i : Z) : Z :=
  let label1 := if nyxm1 i then i / BW * BW + (i mod BW - 1) else i / BW * BW + i mod BW in
  if nym1x i then (i / BW - 1) * BW + i mod BW else label1.

Definition own (i : Z) : Z := i / BW * BW + i mod BW.

(** What a thread does from one barrier to the next, on the shared labels. *)
Definition block_init (i : Z) : prog Z :=
  if inside_block i then Write (own i) (label1 i) (Ret (label1 i)) else Ret 0.

Definition block_find (i : Z) : prog Z :=
  if inside_block i then r ⇐ FindRoot (label1 i); Write (own i) r (Ret (label1 i)) else Ret 0.

Definition block_reduce (i : Z) : prog Z :=
  if inside_block i then
    if nym1x i && nyxm1 i && negb (nym1xm1 i)
    then Read (own i - 1) (fun label2 => Reduction (label1 i) label2)
    else Ret (label1 i)
  else Ret 0.

(** The root, as the label of the whole image, with its place in [dst]. *)
Definition block_store (i label1 : Z) : prog (list (Z * Z)) :=
  if inside_block i then
    label1 ⇐ FindRoot label1;
    let lx := label1 mod BW in
    let ly := (label1 / BW) mod BH in
    Ret [(dst_at (gc_y i) (gc_x i), u32 ((blockIdx.2 * BH + ly) * dstStrideH + blockIdx.1 * BW + lx))]
  else Ret [].

Definition block_tids : list Z := zrange 0 (BW * BH).

(** A block from its start to its end; the labels it starts with are whatever the
    shared memory holds. *)
Inductive block_runs : list (Z * Z) -> Prop :=
  | block_run s0 s1 s2 s3 s4 rs1 rs2 rs3 rs4 :
      Runs s0 (block_init <$> block_tids) s1 rs1 ->
      Runs s1 (block_find <$> block_tids) s2 rs2 ->
      Runs s2 (block_reduce <$> block_tids) s3 rs3 ->
      Runs s3 (zip_with block_store block_tids rs3) s4 rs4 ->
      block_runs (concat rs4).
End Block.

Definition store_all (ws : list (Z * Z)) (d : store) : store := foldl (fun d w => <[w.1 := w.2]> d) d ws.

Definition labBlocks : Z * Z := (DivUp (size_x im) BW, DivUp (size_y im) BH).

(** The stores of all the blocks, in any order. *)
Inductive BlockLabel2D (d : store) : store -> Prop :=
  | block_label outs ws :
      Forall2 block_runs (pairs2 labBlocks.1 labBlocks.2) outs -> ws ≡ₚ concat outs ->
      BlockLabel2D d (store_all ws d).

(** *** The reductions across blocks *)

(** A thread of the same block, by its number. *)
Definition sibling (th : gthread) (i : Z) : gthread := MkGThread (blockIdx th) (i mod BW, i / BW).

Definition unite_with (i j : Z) : prog Z :=
  Read i (fun label1 => Read j (fun label2 => Reduction label1 label2)).

Definition y_gc_x (th : gthread) : Z := i32 ((blockIdx th).1 * BW + (threadIdx th).1).
Definition y_gc_y (th : gthread) : Z := i32 (((blockIdx th).2 * BH + (threadIdx th).2) * BH + BH).
Definition y_runs_on (th : gthread) : bool := in_size (y_gc_y th) (y_gc_x th).

Definition y_unites (th : gthread) : bool :=
  let tid := (threadIdx th).2 * BW + (threadIdx th).1 in
  let up (v : gthread -> Z) := shfl_up undef (fun i => y_runs_on (sibling th i)) (fun i => v (sibling th i)) tid in
  let pyx th := pixel (y_gc_y th) (y_gc_x th) in
  let pym1x th := pixel (y_gc_y th - 1) (y_gc_x th) in
  (pyx th =? pym1x th)
  && (((threadIdx th).1 =? 0) || negb (pyx th =? up pyx) || negb (pyx th =? up pym1x)).

Definition y_thread (th : gthread) : prog Z :=
  if negb (y_runs_on th) then Ret 0 else
  if y_unites th
  then unite_with (dst_at (y_gc_y th) (y_gc_x th)) (dst_at (y_gc_y th - 1) (y_gc_x th))
  else Ret 0.

Definition redBlocksY : Z * Z := (DivUp (size_x im) BW, DivUp labBlocks.2 BH).

Definition YLabelReduction2D (d d' : store) : Prop := exists rs, Runs d (y_thread <$> grid2 redBlocksY) d' rs.

Definition x_gc_x (th : gthread) : Z := i32 (((blockIdx th).2 * BH + (threadIdx th).2) * BW + BW).
Definition x_gc_y (th : gthread) : Z := i32 ((blockIdx th).1 * BW + (threadIdx th).1).
Definition x_runs_on (th : gthread) : bool := in_size (x_gc_y th) (x_gc_x th).

Definition x_unites (th : gthread) : bool :=
  let tid := (threadIdx th).2 * BW + (threadIdx th).1 in
  let up (v : gthread -> Z) := shfl_up undef (fun i => x_runs_on (sibling th i)) (fun i => v (sibling th i)) tid in
  let pyx th := pixel (x_gc_y th) (x_gc_x th) in
  let pyxm1 th := pixel (x_gc_y th) (x_gc_x th - 1) in
  let thread_y := x_gc_y th mod BH =? 0 in
  (pyx th =? pyxm1 th)
  && (thread_y || negb (pyx th =? up pyx) || negb (pyx th =? up pyxm1)).

Definition x_thread (th : gthread) : prog Z :=
  if negb (x_runs_on th) then Ret 0 else
  if x_unites th
  then unite_with (dst_at (x_gc_y th) (x_gc_x th)) (dst_at (x_gc_y th) (x_gc_x th - 1))
  else Ret 0.

Definition redBlocksX : Z * Z := (DivUp (size_y im) BW, DivUp labBlocks.1 BH).

Definition XLabelReduction2D (d d' : store) : Prop := exists rs, Runs d (x_thread <$> grid2 redBlocksX) d' rs.

(** *** ResolveLabels2D *)

Definition lab_gc_x (th : gthread) : Z := i32 ((blockIdx th).1 * BW + (threadIdx th).1).
Definition lab_gc_y (th : gthread) : Z := i32 ((blockIdx th).2 * BH + (threadIdx th).2).

Definition resolve_thread (th : gthread) : prog Z :=
  if negb (in_size (lab_gc_y th) (lab_gc_x th)) then Ret 0 else
  let gc := dst_at (lab_gc_y th) (lab_gc_x th) in
  Read gc (fun label => r ⇐ FindRoot label; Write gc r (Ret 0)).

Definition ResolveLabels2D (d d' : store) : Prop := exists rs, Runs d (resolve_thread <$> grid2 labBlocks) d' rs.

(** The four kernels, one after the other on the stream. *)
Definition label_kernels (d d' : store) : Prop :=
  exists d1 d2 d3, BlockLabel2D d d1 /\ YLabelReduction2D d1 d2 /\ XLabelReduction2D d2 d3 /\ ResolveLabels2D d3 d'.
End Kernels.
