(* ===== verification/LabelGrid.v ===== *)
(** * Blocks and seams of a grid ([cvcuda/priv/OpLabel.cu])

    What the labelling kernels on images and on volumes have in common: the phases
    of a block on its shared labels, the blocks together, the kernels that unite
    classes across the sides of blocks, the last kernel. *)
From S2P Require Import Prelude LabelMachine LabelForest LabelKernel.
From stdpp Require Import relations functions.
From stdpp Require Import options.

#[local] Open Scope Z_scope.
#[local] Open Scope prog_scope.
#[local] Set Default Proof Using "Type*".

(** A list of threads whose results are known. *)
Lemma rg_runs_values {A B} I G `{!PreOrder G} (f : B -> prog A) (w : B -> A) s (L : list B) : I s ->
  (forall x, x ∈ L -> rg I G (fun a _ => a = w x) (f x) s) ->
  Ends s (f <$> L) /\ forall s' rs, Runs s (f <$> L) s' rs -> rs = w <$> L.
Proof.
  intros HI H. destruct (rg_runs_map I G f (fun x a _ => a = w x) s L HI H) as [Hend Hall].
  split; [done|]. intros s' rs Hr. destruct (Hall _ _ Hr) as (_ & _ & HQ). clear -HQ.
  induction HQ as [|x a L rs Hx _ IH]; [done|]. cbn. by rewrite Hx, IH.
Qed.

(** ** The phases of a block *)

Section Phases.
Variables (n : Z) (local : Z -> Prop) (inside : Z -> bool) (par : Z -> Z).
Hypothesis Hrange : forall i, local i -> 0 <= i < n.
Hypothesis Hinside : forall i, 0 <= i < n -> inside i = true <-> local i.
Hypothesis Hpar : forall i, local i -> local (par i) /\ par i <= i.

Let local_pos i : local i -> 0 <= i.
Proof. intros H. by apply Hrange in H as [? _]. Qed.

Definition par_edges : relation Z := fun i j => local i /\ j = par i.

Lemma par_forest s : (forall i, local i -> s i = par i) -> forest local s /\ rel_eq (rtsc (edges local s)) (rtsc par_edges).
Proof.
  intros H. split; [intros i Hi; rewrite H by done; by apply Hpar|]. apply rtsc_eq. intros i j. unfold edges, par_edges.
  split; (intros [Hi ->]; split; [done|]); [by apply H|symmetry; by apply H].
Qed.

(** A phase in which each thread writes at its own number. *)
Lemma own_phase I v f s0 : I s0 ->
  (forall i, 0 <= i < n -> ~ local i -> f i = Ret 0) ->
  (forall i, local i -> rg I (towards local v) (fun _ s => s i = v i) (f i) s0) ->
  Ends s0 (f <$> zrange 0 n) /\
  forall s1 rs, Runs s0 (f <$> zrange 0 n) s1 rs -> forall i, local i -> s1 i = v i.
Proof using Hrange Hinside.
  intros HI Hout Hin.
  destruct (rg_runs_map I (towards local v) f (fun i _ s => local i -> s i = v i) s0 (zrange 0 n) HI) as [Hend Hall].
  - intros i Hi%elem_of_zrange. destruct (decide (inside i = true)) as [E|E].
    + apply Hinside in E; [|done]. eapply rg_weaken; [apply _| |by apply Hin]. by intros a s1 ? _.
    + rewrite Hinside in E by done. rewrite Hout by done. by intros s1 _ _ Hl.
  - split; [done|]. intros s1 rs Hr i Hi. destruct (Hall _ _ Hr) as (_ & _ & HQ).
    pose proof (proj2 (elem_of_zrange 0 n i) (Hrange i Hi)) as Hz. apply list_elem_of_lookup in Hz as (t & Ht).
    destruct (Forall2_lookup_l _ _ _ _ _ HQ Ht) as (a & _ & Ha). auto.
Qed.

Lemma init_phase f s0 : (forall i, 0 <= i < n -> f i = if inside i then Write i (par i) (Ret (par i)) else Ret 0) ->
  Ends s0 (f <$> zrange 0 n) /\ forall s1 rs, Runs s0 (f <$> zrange 0 n) s1 rs -> forall i, local i -> s1 i = par i.
Proof using Hrange Hinside.
  intros Hf. apply (own_phase (fun _ => True) par f s0 I).
  - intros i Hi Hl. rewrite Hf by done. destruct (inside i) eqn:E; [|done]. by apply Hinside in E.
  - intros i Hl. rewrite Hf, (proj2 (Hinside i (Hrange i Hl)) Hl) by auto. by apply towards_write.
Qed.

Lemma find_phase f s1 : (forall i, local i -> s1 i = par i) ->
  (forall i, 0 <= i < n -> f i = if inside i then r ⇐ FindRoot (par i); Write i r (Ret (par i)) else Ret 0) ->
  Ends s1 (f <$> zrange 0 n) /\
  forall s2 rs, Runs s1 (f <$> zrange 0 n) s2 rs -> forest local s2 /\ rel_eq (rtsc (edges local s2)) (rtsc par_edges).
Proof.
  intros Hs1 Hf. destruct (par_forest s1 Hs1) as [Hfo Hcl].
  destruct (own_phase (shortened local s1) (root s1) f s1) as [Hend Hall].
  - by apply shortened_refl.
  - intros i Hi Hl. rewrite Hf by done. destruct (inside i) eqn:E; [|done]. by apply Hinside in E.
  - intros i Hl. rewrite Hf, (proj2 (Hinside i (Hrange i Hl)) Hl) by auto. apply rg_bind; [apply _|].
    apply rg_weaken with (Q := fun a _ => a = root s1 (par i)); [apply _| |apply FindRoot_rg; [done..|apply _|by apply Hpar]].
    intros a s ->. rewrite <- Hs1, (root_parent local) by done.
    apply towards_write; [done| |done]. intros s' Hs'. by apply shortened_write.
  - split; [done|]. intros s2 rs Hr. destruct (compressed local s1 s2 local_pos Hfo (Hall _ _ Hr)) as [Hf2 Hc2].
    split; [done|]. by etrans.
Qed.
End Phases.

(** What a block leaves: for each of its labels the least it is connected to. *)
Record block_roots (local : Z -> Prop) (touching : relation Z) (r : Z -> Z) : Prop := {
  br_local : forall i, local i -> local (r i) /\ r i <= i;
  br_classes : forall i j, local i -> local j -> r i = r j <-> rtsc touching i j;
  br_self : forall i, local i -> rtsc touching i (r i);
}.

Lemma roots_block local touching s : (forall i, local i -> 0 <= i) -> forest local s ->
  rel_eq (rtsc (edges local s)) (rtsc touching) -> block_roots local touching (root s).
Proof.
  intros Hpos Hf Hc. split.
  - intros i Hi. by destruct (root_below local s Hpos Hf i Hi) as (? & ? & _).
  - intros i j Hi Hj. rewrite <- (root_classes local s Hpos Hf i j Hi Hj). apply Hc.
  - intros i Hi. apply Hc. by destruct (root_below local s Hpos Hf i Hi) as (_ & _ & ?).
Qed.

Lemma block_roots_unique local touching r r' i : block_roots local touching r -> block_roots local touching r' ->
  local i -> r i = r' i.
Proof.
  intros [L C S] [L' C' S'] Hi.
  destruct (L i Hi) as [Hr _], (L' i Hi) as [Hr' _].
  assert (r (r' i) = r i) by (apply C; [done..|symmetry; auto]).
  assert (r' (r i) = r' i) by (apply C'; [done..|symmetry; auto]).
  pose proof (L (r' i) Hr') as [_ ?]. pose proof (L' (r i) Hr) as [_ ?]. lia.
Qed.

(** ** Grids *)

(** Pixels [P] with their offsets and neighbours, cut into blocks [B] of [g_size]
    places. *)
Record grid (P B : Type) := MkGrid {
  g_img : P -> Prop;
  g_off : P -> Z;
  g_adj : relation P;
  g_size : Z;
  g_place : B -> Z -> P;
  g_blk : P -> B;
  g_idx : P -> Z;
  g_has : B -> Prop;
}.
Arguments g_img {P B} _ _.
Arguments g_off {P B} _ _.
Arguments g_adj {P B} _ _ _.
Arguments g_size {P B} _.
Arguments g_place {P B} _ _ _.
Arguments g_blk {P B} _ _.
Arguments g_idx {P B} _ _.
Arguments g_has {P B} _ _.

Section Grid.
Context {P B : Type} (G : grid P B).

Definition g_local (b : B) (i : Z) : Prop := 0 <= i < g_size G /\ g_img G (g_place G b i).
Definition g_touching (b : B) (i j : Z) : Prop :=
  g_local b i /\ g_local b j /\ g_adj G (g_place G b i) (g_place G b j).
Definition g_valid (i : Z) : Prop := exists p, g_img G p /\ i = g_off G p.
Definition g_connected : relation P := rtsc (g_adj G).

(** Adjacent pixels that are related by [Pr], as labels. *)
Definition g_labelled (Pr : P -> P -> Prop) : relation Z :=
  fun i j => exists p q, g_adj G p q /\ Pr p q /\ i = g_off G p /\ j = g_off G q.
Definition g_within : relation Z := g_labelled (fun p q => g_blk G p = g_blk G q).

Record grid_ok : Prop := {
  g_pos : forall p, g_img G p -> 0 <= g_off G p;
  g_inj : forall p q, g_img G p -> g_img G q -> g_off G p = g_off G q -> p = q;
  g_adj_img : forall p q, g_adj G p q -> g_img G p /\ g_img G q;
  g_place_idx : forall p, g_img G p -> g_place G (g_blk G p) (g_idx G p) = p;
  g_blk_place : forall b i, 0 <= i < g_size G -> g_blk G (g_place G b i) = b /\ g_idx G (g_place G b i) = i;
  g_pixel : forall p, g_img G p -> g_has G (g_blk G p) /\ 0 <= g_idx G p < g_size G;
  g_mono : forall b i j, g_local b i -> g_local b j -> i <= j -> g_off G (g_place G b i) <= g_off G (g_place G b j);
}.
Hypothesis HG : grid_ok.

Lemma g_valid_off p : g_img G p -> g_valid (g_off G p).
Proof using Type. intros H; by exists p. Qed.
Lemma g_valid_pos i : g_valid i -> 0 <= i.
Proof. intros (p & Hp & ->). by apply (g_pos HG). Qed.

Lemma g_local_pixel p : g_img G p -> g_local (g_blk G p) (g_idx G p).
Proof.
  intros Hp. destruct (g_pixel HG p Hp) as [_ Hi]. split; [done|]. by rewrite (g_place_idx HG p Hp).
Qed.

Lemma store_all_spec ws d k v : (forall k v v', (k, v) ∈ ws -> (k, v') ∈ ws -> v = v') ->
  ((k, v) ∈ ws -> store_all ws d k = v) /\ ((forall v, (k, v) ∉ ws) -> store_all ws d k = d k).
Proof using Type.
  clear. revert d. induction ws as [|[k1 v1] ws IH] using rev_ind; intros d Hf.
  { split; [set_solver|done]. }
  unfold store_all in *. rewrite foldl_app. cbn.
  assert (Hf' : forall k v v', (k, v) ∈ ws -> (k, v') ∈ ws -> v = v') by (intros k2 w w' ??; apply (Hf k2); set_solver).
  specialize (IH d Hf'). split.
  - intros Hin. destruct (decide (k1 = k)) as [->|Hne]; [rewrite fn_lookup_insert; apply (Hf k); set_solver|].
    rewrite fn_lookup_insert_ne by done. apply IH. set_solver.
  - intros Hout. assert (k1 <> k) by (intros ->; apply (Hout v1); set_solver).
    rewrite fn_lookup_insert_ne by done. apply IH. set_solver.
Qed.

(** ** The kernel of blocks *)

(** What a block stores when it has found the roots [r]. *)
Definition g_writes (inside : Z -> bool) (b : B) (r : Z -> Z) : list (Z * Z) :=
  zrange 0 (g_size G) ≫= fun i => if inside i then [(g_off G (g_place G b i), g_off G (g_place G b (r i)))] else [].

Section Blocks.
Variables (inside : B -> Z -> bool) (runs : B -> list (Z * Z) -> Prop) (bs : list B).
Hypothesis Hinside : forall b i, g_has G b -> 0 <= i < g_size G -> inside b i = true <-> g_local b i.
Hypothesis Hbs : forall b, b ∈ bs <-> g_has G b.
Hypothesis Hruns : forall b ws, g_has G b -> runs b ws ->
  exists r, block_roots (g_local b) (g_touching b) r /\ ws = g_writes (inside b) b r.

Lemma g_writes_in b r k v : g_has G b -> (k, v) ∈ g_writes (inside b) b r <->
  exists i, g_local b i /\ k = g_off G (g_place G b i) /\ v = g_off G (g_place G b (r i)).
Proof.
  intros Hb. unfold g_writes. rewrite list_elem_of_bind. split.
  - intros (i & Hin & Hi%elem_of_zrange).
    destruct (inside b i) eqn:E; [|by apply elem_of_nil in Hin]. apply list_elem_of_singleton in Hin as [= -> ->].
    exists i. split; [by apply Hinside in E|done].
  - intros (i & Hi & -> & ->). exists i. pose proof Hi as [Hr _]. split; [|by apply elem_of_zrange].
    rewrite (proj2 (Hinside b i Hb Hr) Hi). by apply list_elem_of_singleton.
Qed.

Lemma blocks_label outs ws d : Forall2 runs bs outs -> ws ≡ₚ concat outs ->
  (forall b, g_has G b -> exists r, block_roots (g_local b) (g_touching b) r /\
     forall i, g_local b i -> store_all ws d (g_off G (g_place G b i)) = g_off G (g_place G b (r i))) /\
  (forall i, ~ g_valid i -> store_all ws d i = d i).
Proof.
  intros Hall Hperm.
  assert (Hws : forall k v, (k, v) ∈ ws <-> exists b r i, g_has G b /\
    block_roots (g_local b) (g_touching b) r /\ g_local b i /\ k = g_off G (g_place G b i) /\ v = g_off G (g_place G b (r i)) /\
    g_writes (inside b) b r ∈ outs).
  { intros k v. rewrite Hperm, list_elem_of_In, in_concat. split.
    - intros (out & Hout & Hin). apply list_elem_of_In in Hout, Hin.
      apply list_elem_of_lookup in Hout as (t & Ht).
      destruct (Forall2_lookup_r _ _ _ _ _ Hall Ht) as (b & Hb & Hrun).
      assert (Hbin : g_has G b) by (apply Hbs; by eapply list_elem_of_lookup_2).
      destruct (Hruns b _ Hbin Hrun) as (r & Hr & ->).
      apply g_writes_in in Hin as (i & Hi & -> & ->); [|done].
      exists b, r, i. split_and!; [done..|]. by eapply list_elem_of_lookup_2.
    - intros (b & r & i & Hb & Hr & Hi & -> & -> & Hin). exists (g_writes (inside b) b r).
      split; apply list_elem_of_In; [done|]. apply g_writes_in; [done|]. by exists i. }
  assert (Hfun : forall k v v', (k, v) ∈ ws -> (k, v') ∈ ws -> v = v').
  { intros k v v' H1 H2. apply Hws in H1 as (b & r & i & Hb & Hr & [Hri Hi] & -> & -> & _).
    apply Hws in H2 as (b' & r' & i' & Hb' & Hr' & [Hri' Hi'] & E & -> & _).
    apply (g_inj HG) in E; [|done..].
    destruct (g_blk_place HG b i Hri) as [E1 E2], (g_blk_place HG b' i' Hri') as [E1' E2'].
    rewrite E in E1, E2. rewrite E1 in E1'. rewrite E2 in E2'. subst b' i'.
    do 2 f_equal. by apply (block_roots_unique (g_local b) (g_touching b)). }
  split.
  - intros b Hb. pose proof Hb as Hbin. apply Hbs in Hbin.
    apply list_elem_of_lookup in Hbin as (t & Ht).
    destruct (Forall2_lookup_l _ _ _ _ _ Hall Ht) as (out & Hout & Hrun).
    destruct (Hruns b _ Hb Hrun) as (r & Hr & ->).
    exists r. split; [done|]. intros i Hi. apply store_all_spec; [done|]. apply Hws.
    exists b, r, i. split_and!; [done..|]. by eapply list_elem_of_lookup_2.
  - intros i Hi. apply (store_all_spec ws d i 0); [done|]. intros v Hin.
    apply Hws in Hin as (b & r & j & _ & _ & [_ Hj] & -> & _). apply Hi. by apply g_valid_off.
Qed.

(** After the kernel, the classes are those of the pixels of each block. *)
Lemma blocks_classes outs ws d : Forall2 runs bs outs -> ws ≡ₚ concat outs ->
  forest g_valid (store_all ws d) /\ rel_eq (rtsc (edges g_valid (store_all ws d))) (rtsc g_within) /\
  forall i, ~ g_valid i -> store_all ws d i = d i.
Proof.
  intros Hall Hperm. destruct (blocks_label outs ws d Hall Hperm) as [Hb Hout]. set (d1 := store_all ws d) in *.
  assert (Hat : forall p, g_img G p -> exists r, block_roots (g_local (g_blk G p)) (g_touching (g_blk G p)) r /\
    forall q, g_img G q -> g_blk G q = g_blk G p -> d1 (g_off G q) = g_off G (g_place G (g_blk G p) (r (g_idx G q)))).
  { intros p Hp. destruct (g_pixel HG p Hp) as [Hbp _]. destruct (Hb _ Hbp) as (r & Hr & Hd).
    exists r. split; [done|]. intros q Hq E. pose proof (g_local_pixel q Hq) as Hl. rewrite E in Hl.
    rewrite <- (Hd _ Hl). by rewrite <- E, (g_place_idx HG q Hq). }
  split_and!; [| |done].
  - intros i (p & Hp & ->). destruct (Hat p Hp) as (r & Hr & Hd). rewrite (Hd p Hp eq_refl).
    pose proof (g_local_pixel p Hp) as Hl. destruct (br_local _ _ _ Hr _ Hl) as [Hrl Hle].
    split; [apply g_valid_off; by destruct Hrl|].
    pose proof (g_mono HG _ _ _ Hrl Hl Hle) as Hm. by rewrite (g_place_idx HG p Hp) in Hm.
  - apply rel_eq_sub; split; (apply rtsc_least; [apply _|]).
    + intros i j [(p & Hp & ->) ->]. destruct (Hat p Hp) as (r & Hr & Hd). rewrite (Hd p Hp eq_refl).
      pose proof (g_local_pixel p Hp) as Hl.
      replace (g_off G p) with (g_off G (g_place G (g_blk G p) (g_idx G p))) by (by rewrite (g_place_idx HG p Hp)).
      apply (rtsc_congruence (R := g_touching (g_blk G p)) (fun k => g_off G (g_place G (g_blk G p) k)) g_within (g_idx G p));
        [|by apply (br_self _ _ _ Hr)].
      intros k l ([Hk _] & [Hl' _] & Hadj). eexists _, _. split_and!; [exact Hadj| |done..].
      by rewrite (proj1 (g_blk_place HG _ k Hk)), (proj1 (g_blk_place HG _ l Hl')).
    + intros i j (p & q & Hadj & E & -> & ->). destruct (g_adj_img HG _ _ Hadj) as [Hp Hq].
      destruct (Hat p Hp) as (r & Hr & Hd).
      trans (d1 (g_off G p)); [apply rtsc_lr; split; [by apply g_valid_off|done]|].
      symmetry. replace (d1 (g_off G p)) with (d1 (g_off G q)); [apply rtsc_lr; split; [by apply g_valid_off|done]|].
      rewrite (Hd p Hp eq_refl), (Hd q Hq (eq_sym E)). do 2 f_equal.
      pose proof (g_local_pixel p Hp) as Hlp. pose proof (g_local_pixel q Hq) as Hlq. rewrite <- E in Hlq.
      apply (br_classes _ _ _ Hr); [done..|]. symmetry. apply rtsc_lr. split_and!; [done..|].
      rewrite (g_place_idx HG p Hp). rewrite E, (g_place_idx HG q Hq). exact Hadj.
Qed.
End Blocks.

(** ** Kernels that unite across the sides of blocks *)

Section Reductions.
Context {Th : Type} (f : Th -> prog Z) (pr : Th -> list (P * P)) (L : list Th).
Definition pair_offs (pq : P * P) : Z * Z := (g_off G pq.1, g_off G pq.2).

Lemma elem_of_offs i j : (i, j) ∈ (L ≫= fun th => pair_offs <$> pr th) <->
  exists th p q, th ∈ L /\ (p, q) ∈ pr th /\ i = g_off G p /\ j = g_off G q.
Proof using Type.
  rewrite list_elem_of_bind. split.
  - intros (th & H & Hth). apply list_elem_of_fmap in H as ([p q] & [= -> ->] & H). eauto 8.
  - intros (th & p & q & Hth & H & -> & ->). exists th. split; [|done]. apply list_elem_of_fmap. by exists (p, q).
Qed.

(** A kernel whose threads unite pairs of pixels, or do nothing. *)
Lemma reduction_kernel d : forest g_valid d ->
  (forall th, th ∈ L -> (pr th = [] /\ f th = Ret 0) \/
    exists p q, g_img G p /\ g_img G q /\ pr th = [(p, q)] /\ f th = unite_with (g_off G p) (g_off G q)) ->
  Ends d (f <$> L) /\
  forall d' rs, Runs d (f <$> L) d' rs ->
    forest g_valid d' /\ (forall i, ~ g_valid i -> d' i = d i) /\
    rel_eq (rtsc (edges g_valid d')) (cl (edges g_valid d) (L ≫= fun th => pair_offs <$> pr th)).
Proof.
  intros Hd Hf. set (g := fun th => pair_offs <$> pr th).
  destruct (unite_runs_map g_valid f g (fun _ _ => True) d L Hd) as [Hex Hall].
  - intros th Hth. unfold g. destruct (Hf th Hth) as [[-> ->]|(p & q & Hp & Hq & Hpr & ->)]; [by split; [set_solver|]|].
    rewrite Hpr. cbn. split; [by apply g_valid_off|]. intros C1 l1 HC1 Hs1 Hv1 _ HT1 HCl1.
    split; [by apply g_valid_off|]. intros C2 l2 HC2 Hs2 Hv2 _ HT2 HCl2.
    set (T := cl (edges g_valid d) (L ≫= g)) in *.
    apply soft_weaken with (Q := ends_at g_valid T l1); [done|].
    apply Reduction_soft; [apply _|exact g_valid_pos|done..|by apply Hs2|done| |reflexivity].
    trans (g_off G p); [by symmetry|]. trans (g_off G q); [|done].
    apply cl_pair, list_elem_of_bind. exists th. split; [|done]. unfold g. rewrite Hpr. by apply list_elem_of_singleton.
  - split; [done|]. intros d' rs Hr. destruct (Hall _ _ Hr) as ((? & ?) & ? & _). by split_and!.
Qed.

(** A pair of neighbours on a seam that no thread unites is joined through the pair
    next to it; [mu] counts how far that goes. *)
Lemma seam_united W (seam : P -> Prop) (nb : P -> P) (mu : P -> nat) :
  (forall th p q, th ∈ L -> (p, q) ∈ pr th -> seam p /\ q = nb p /\ g_adj G p q) ->
  (forall p, seam p -> g_adj G p (nb p) -> (exists th, th ∈ L /\ (p, nb p) ∈ pr th) \/
    exists p', (mu p' < mu p)%nat /\ seam p' /\ g_adj G p' (nb p') /\
      rtsc W (g_off G p) (g_off G p') /\ rtsc W (g_off G (nb p)) (g_off G (nb p'))) ->
  rel_eq (cl W (L ≫= fun th => pair_offs <$> pr th))
    (rtsc (fun i j => W i j \/ g_labelled (fun p q => seam p /\ q = nb p) i j)).
Proof using Type.
  intros Hsound Hcomplete. set (T := cl _ _). apply rel_eq_sub; split; (apply rtsc_least; [apply _|]).
  - intros i j [H|H]; [apply rtsc_lr; by left|]. apply elem_of_offs in H as (th & p & q & Hth & Hpq & -> & ->).
    destruct (Hsound th p q Hth Hpq) as (? & ? & ?). apply rtsc_lr; right. by exists p, q.
  - assert (HW : rel_sub (rtsc W) T) by (apply rtsc_mono; by left).
    assert (Hind : forall n p, (mu p < n)%nat -> seam p -> g_adj G p (nb p) -> T (g_off G p) (g_off G (nb p))).
    { induction n as [|n IH]; intros p Hn Hs Ha; [lia|].
      destruct (Hcomplete p Hs Ha) as [(th & Hth & Hpq)|(p' & Hmu & Hs' & Ha' & H1 & H2)].
      - apply cl_pair, elem_of_offs. by exists th, p, (nb p).
      - trans (g_off G p'); [by apply HW|]. trans (g_off G (nb p')); [apply IH; [lia|done..]|].
        symmetry. by apply HW. }
    intros i j [H|(p & q & Hadj & [Hs ->] & -> & ->)]; [by apply cl_base|]. by apply (Hind (S (mu p))); [lia|..].
Qed.
End Reductions.

(** ** The last kernel, and the labels it leaves *)

Lemma g_resolve {Th} (f : Th -> prog Z) (px : Th -> option P) (L : list Th) d : forest g_valid d ->
  (forall th, th ∈ L -> match px th with
    | None => f th = Ret 0
    | Some p => g_img G p /\ f th = Read (g_off G p) (fun label => r ⇐ FindRoot label; Write (g_off G p) r (Ret 0))
    end) ->
  (forall p, g_img G p -> exists th, th ∈ L /\ px th = Some p) ->
  Ends d (f <$> L) /\
  forall d' rs, Runs d (f <$> L) d' rs ->
    (forall p, g_img G p -> d' (g_off G p) = root d (g_off G p)) /\ forall i, ~ g_valid i -> d' i = d i.
Proof.
  intros Hf Hth Hcover.
  destruct (rg_runs_map (shortened g_valid d) (towards g_valid (root d)) f
    (fun th _ s => match px th with Some p => s (g_off G p) = root d (g_off G p) | None => True end) d L) as [Hend Hall].
  - apply shortened_refl; [exact g_valid_pos|done].
  - intros th Hin. specialize (Hth th Hin). destruct (px th) as [p|]; [|by rewrite Hth; intros s _ _].
    destruct Hth as [Hp ->]. pose proof (g_valid_off p Hp) as Hv.
    intros s1 _ [Hf1 Hr1]. destruct (Hr1 _ Hv) as [Hroot _]. destruct (Hf1 _ Hv) as [Hv1 _].
    apply rg_bind; [apply _|].
    apply rg_weaken with (Q := fun r _ => r = root d (s1 (g_off G p)));
      [apply _| |apply FindRoot_rg; [exact g_valid_pos|done|apply _|done]].
    intros r s ->. rewrite Hroot. apply towards_write; [done| |done].
    intros s' Hs'. apply shortened_write; [exact g_valid_pos|done..].
  - split; [done|]. intros d' rs Hr. destruct (Hall _ _ Hr) as (Hto & _ & HQ). split.
    + intros p Hp. destruct (Hcover p Hp) as (th & Hin & E). apply list_elem_of_lookup in Hin as (t & Ht).
      destruct (Forall2_lookup_l _ _ _ _ _ HQ Ht) as (a & _ & Ha). cbn in Ha. by rewrite E in Ha.
    + intros i Hi. destruct (Hto i) as [|[Hv _]]; done.
Qed.

Lemma g_connected_img p q : g_img G p -> g_connected p q -> g_img G q.
Proof.
  intros Hp H. induction H as [|p r q H _ IH]; [done|]. apply IH. by destruct H as [[??]%(g_adj_img HG)|[??]%(g_adj_img HG)].
Qed.

(** The label a pixel has is the least of its component. *)
Definition g_least (p : P) (l : Z) : Prop :=
  exists q, g_connected p q /\ l = g_off G q /\ forall r, g_connected p r -> l <= g_off G r.

Lemma g_least_root d p : forest g_valid d -> rel_eq (rtsc (edges g_valid d)) (rtsc (g_labelled (fun _ _ => True))) ->
  g_img G p -> g_least p (root d (g_off G p)).
Proof.
  intros Hf Hc Hp. pose proof (g_valid_off p Hp) as Hv.
  destruct (root_below g_valid d g_valid_pos Hf _ Hv) as (Hrv & _ & Hr).
  assert (Hsound : forall i j, rtsc (g_labelled (fun _ _ => True)) i j -> forall p, g_img G p -> i = g_off G p ->
    exists q, g_connected p q /\ j = g_off G q).
  { intros i j H. induction H as [i|i k j H _ IH]; intros p' Hp' ->; [exists p'; split; [reflexivity|done]|].
    assert (exists r, g_connected p' r /\ k = g_off G r) as (r & Hpr & ->).
    { destruct H as [(q & r & Ha & _ & E & ->)|(q & r & Ha & _ & -> & E)]; destruct (g_adj_img HG _ _ Ha) as (Hq & Hr');
        apply (g_inj HG) in E; try done; subst; eexists; (split; [|done]); [by apply rtsc_lr|by apply rtsc_rl]. }
    destruct (IH r (g_connected_img _ _ Hp' Hpr) eq_refl) as (q & Hrq & ->). exists q. split; [by trans r|done]. }
  assert (Hcomplete : forall q, g_connected p q -> rtsc (edges g_valid d) (g_off G p) (g_off G q)).
  { intros q H. apply Hc. apply (rtsc_congruence (R := g_adj G)); [|done]. intros a b Ha. by exists a, b. }
  destruct (Hsound _ _ (proj1 (Hc _ _) Hr) p Hp eq_refl) as (q & Hq & E).
  exists q. split_and!; [done..|]. intros r Hpr.
  apply (root_least g_valid d g_valid_pos Hf); [done|apply g_valid_off; by apply (g_connected_img p)|by apply Hcomplete].
Qed.

(** Pixels whose labels are the least of their components have one label when they are connected, and only then. *)
Lemma g_least_same p q l l' : g_img G p -> g_img G q -> g_least p l -> g_least q l' -> l = l' <-> g_connected p q.
Proof.
  intros Hp Hq (p' & Hp' & -> & Hpl) (q' & Hq' & -> & Hql). split.
  - intros E. apply (g_inj HG) in E; [|by apply (g_connected_img p)|by apply (g_connected_img q)].
    subst q'. trans p'; [done|by symmetry].
  - intros Hpq.
    assert (g_off G p' <= g_off G q') by (apply Hpl; by trans q).
    assert (g_off G q' <= g_off G p') by (apply Hql; trans p; [by symmetry|done]). lia.
Qed.
End Grid.
