(* ===== verification/LabelConnect.v ===== *)
(** * The labels are the connected components ([cvcuda/priv/OpLabel.cu])

    Whatever the order of the threads, the four kernels leave at each pixel the
    least offset of the pixels its component has. *)
From S2P Require Import Prelude MathUtil LabelMachine LabelForest LabelKernel LabelGrid.
From stdpp Require Import relations functions.
From stdpp Require Import options.

#[local] Open Scope Z_scope.
#[local] Open Scope prog_scope.
#[local] Set Default Proof Using "Type*".
#[local] Ltac dlia :=
  repeat match goal with f : Z -> Z |- _ => clear f end; Z.to_euclidean_division_equations; lia.

(** ** What a sample is, and the components of its pixels *)

(** A nonempty image whose rows of labels follow one another within [int] bytes. *)
Record sample_ok (im : Sample) : Prop := {
  so_x : 0 < size_x im;
  so_y : 0 < size_y im;
  so_pitch : (4 | dst_strides1 im);
  so_row : 4 * size_x im <= dst_strides1 im;
  so_bytes : size_y im * dst_strides1 im < 2 ^ 31;
}.

(** A pixel is its row and its column. *)
Definition in_image (im : Sample) (p : Z * Z) : Prop := 0 <= p.1 < size_y im /\ 0 <= p.2 < size_x im.
Definition value (im : Sample) (p : Z * Z) : Z := pixel im p.1 p.2.

(** Two pixels of the image that share an edge and a value. *)
Definition adjacent (im : Sample) (p q : Z * Z) : Prop :=
  in_image im p /\ in_image im q /\ value im p = value im q /\
  (q = (p.1, p.2 - 1) \/ q = (p.1 - 1, p.2)).
Definition connected (im : Sample) : relation (Z * Z) := rtsc (adjacent im).

(** The label of a pixel: its offset from the first, in elements. *)
Definition offset (im : Sample) (p : Z * Z) : Z := p.1 * dstStrideH im + p.2.

Lemma own_id i : own i = i.
Proof. unfold own, BW. dlia. Qed.

(** ** Threads *)

Lemma elem_of_pairs2 nx ny b : b ∈ pairs2 nx ny <-> 0 <= b.1 < nx /\ 0 <= b.2 < ny.
Proof.
  destruct b as [x y]. unfold pairs2. rewrite list_elem_of_bind. split.
  - intros (y' & Hx & Hy). apply list_elem_of_fmap in Hx as (x' & [= -> ->] & Hx).
    apply elem_of_zrange in Hx, Hy. done.
  - intros [Hx Hy]. exists y. split; [|by apply elem_of_zrange].
    apply list_elem_of_fmap. exists x. split; [done|by apply elem_of_zrange].
Qed.

Lemma elem_of_grid2 blocks th : th ∈ grid2 blocks <->
  (0 <= (blockIdx th).1 < blocks.1 /\ 0 <= (blockIdx th).2 < blocks.2) /\
  (0 <= (threadIdx th).1 < 32 /\ 0 <= (threadIdx th).2 < 4).
Proof.
  unfold grid2. rewrite list_elem_of_bind. split.
  - intros (b & Hth & Hb). apply list_elem_of_fmap in Hth as (t & -> & Ht).
    by apply elem_of_pairs2 in Hb, Ht.
  - intros [Hb Ht]. exists (blockIdx th). split; [|by apply elem_of_pairs2].
    apply list_elem_of_fmap. exists (threadIdx th). split; [by destruct th|by apply elem_of_pairs2].
Qed.

(** The thread one lane below. *)
Lemma sibling_grid blocks th : th ∈ grid2 blocks -> 0 < (threadIdx th).1 ->
  sibling th ((threadIdx th).2 * BW + (threadIdx th).1 - 1) = MkGThread (blockIdx th) ((threadIdx th).1 - 1, (threadIdx th).2) /\
  sibling th ((threadIdx th).2 * BW + (threadIdx th).1 - 1) ∈ grid2 blocks.
Proof.
  intros [[Hb1 Hb2] [Ht1 Ht2]]%elem_of_grid2 H.
  assert (E : sibling th ((threadIdx th).2 * BW + (threadIdx th).1 - 1)
    = MkGThread (blockIdx th) ((threadIdx th).1 - 1, (threadIdx th).2)).
  { unfold sibling, BW. do 2 f_equal; dlia. }
  split; [done|]. rewrite E. apply elem_of_grid2; cbn. lia.
Qed.

Lemma shfl_thread undef (runs_on : gthread -> bool) (v : gthread -> Z) blocks th : th ∈ grid2 blocks -> 0 < (threadIdx th).1 ->
  let th' := MkGThread (blockIdx th) ((threadIdx th).1 - 1, (threadIdx th).2) in
  runs_on th' = true ->
  shfl_up undef (fun i => runs_on (sibling th i)) (fun i => v (sibling th i)) ((threadIdx th).2 * BW + (threadIdx th).1) = v th'.
Proof.
  intros Hth H th' Hr. destruct (sibling_grid _ _ Hth H) as [E _].
  apply elem_of_grid2 in Hth as [_ [Ht1 _]]. unfold shfl_up. cbv beta. rewrite E. fold th'. rewrite Hr.
  unfold warpSize, BW. by replace (((threadIdx th).2 * 32 + (threadIdx th).1) mod 32 <? 1) with false by dlia.
Qed.

(** ** Offsets *)

Section Connect.
Variable im : Sample.
Hypothesis Him : sample_ok im.

Lemma stride_bytes : dst_strides1 im = 4 * dstStrideH im /\ size_x im <= dstStrideH im /\ size_y im * dstStrideH im < 2 ^ 29.
Proof.
  destruct Him as [Hx Hy [S HS] Hrow Hb]. unfold dstStrideH. rewrite HS, Z.div_mul by done. lia.
Qed.

Lemma offset_bound p : in_image im p -> 0 <= offset im p < 2 ^ 29.
Proof.
  intros [Hp1 Hp2]. destruct stride_bytes as (_ & Hrow & Hb). unfold offset. nia.
Qed.

Lemma size_bounds : 0 < size_x im < 2 ^ 29 /\ 0 < size_y im < 2 ^ 29.
Proof. pose proof Him as [Hx Hy _ _ _]. destruct stride_bytes as (_ & Hrow & Hb). nia. Qed.

Lemma offset_inj p q : in_image im p -> in_image im q -> offset im p = offset im q -> p = q.
Proof.
  destruct p as [y x], q as [y' x']. intros [Hy Hx] [Hy' Hx'] H. unfold offset in H. cbn in *.
  destruct stride_bytes as (_ & Hrow & _).
  assert (y = y') by nia. assert (x = x') by nia. by subst.
Qed.

Lemma dst_at_offset p : in_image im p -> dst_at im p.1 p.2 = offset im p.
Proof.
  intros Hp. pose proof (offset_bound _ Hp). destruct stride_bytes as (E & _ & _).
  unfold dst_at. rewrite wraps_small; [|done|unfold in_s, offset in *; lia].
  unfold offset. rewrite E. replace (p.1 * (4 * dstStrideH im) + p.2 * 4) with ((p.1 * dstStrideH im + p.2) * 4) by lia.
  by rewrite Z.div_mul.
Qed.

(** ** The image as a grid *)

(** The place of a thread of a block, the block of a pixel and its number there. *)
Definition place (b : Z * Z) (i : Z) : Z * Z := (b.2 * 4 + i / 32, b.1 * 32 + i mod 32).
Definition blk (p : Z * Z) : Z * Z := (p.2 / 32, p.1 / 4).
Definition idx (p : Z * Z) : Z := p.1 mod 4 * 32 + p.2 mod 32.
Definition in_blocks (b : Z * Z) : Prop := (0 <= b.1 /\ b.1 * 32 < size_x im) /\ (0 <= b.2 /\ b.2 * 4 < size_y im).

Definition image_grid : grid (Z * Z) (Z * Z) :=
  MkGrid _ _ (in_image im) (offset im) (adjacent im) 128 place blk idx in_blocks.

(** The labels of the image. *)
Definition valid (i : Z) : Prop := exists p, in_image im p /\ i = offset im p.
(** The label a pixel has is the least of its component. *)
Definition least_label (p : Z * Z) (l : Z) : Prop :=
  exists q, connected im p q /\ l = offset im q /\ forall r, connected im p r -> l <= offset im r.

Let local := g_local image_grid.
Let touching := g_touching image_grid.

Lemma image_grid_ok : grid_ok image_grid.
Proof.
  split; cbn.
  - intros p Hp. by apply offset_bound.
  - exact offset_inj.
  - by intros p q (? & ? & _).
  - intros [y x] _. unfold place, blk, idx; cbn. f_equal; dlia.
  - intros [bx by_] i Hi. unfold place, blk, idx; cbn. split; [f_equal|]; dlia.
  - intros [y x] [Hy Hx]. unfold in_blocks, blk, idx; cbn in *. split; [dlia|dlia].
  - intros b i j [Hi [_ Hi2]] [Hj [_ Hj2]] Hle. destruct stride_bytes as (_ & Hrow & _).
    unfold offset, place in *; cbn in *.
    destruct (decide (i / 32 = j / 32)) as [E|Hne].
    { assert (i mod 32 <= j mod 32) by (clear -E Hle; dlia). rewrite E. lia. }
    assert (i / 32 + 1 <= j / 32) by (clear -Hne Hle; dlia). nia.
Qed.

Definition up (p : Z * Z) : Z * Z := (p.1 - 1, p.2).
Definition left (p : Z * Z) : Z * Z := (p.1, p.2 - 1).
Definition alike (p q : Z * Z) : bool := value im p =? value im q.

Lemma alike_sym p q : alike p q = alike q p.
Proof. apply Z.eqb_sym. Qed.
Lemma alike_trans p q r : alike p q = true -> alike q r = true -> alike p r = true.
Proof. unfold alike. rewrite !Z.eqb_eq. congruence. Qed.
Lemma alike_square p q r : alike p q = true -> alike p r = true -> alike q r = true.
Proof. unfold alike. rewrite !Z.eqb_eq. congruence. Qed.

Lemma up_in_image p : in_image im p -> 0 < p.1 -> in_image im (up p).
Proof. intros [H1 H2] H. split; cbn; lia. Qed.
Lemma left_in_image p : in_image im p -> 0 < p.2 -> in_image im (left p).
Proof. intros [H1 H2] H. split; cbn; lia. Qed.

Lemma adjacent_left p : in_image im p -> 0 < p.2 -> alike p (left p) = true -> adjacent im p (left p).
Proof.
  intros Hp H Ha. split_and!; [done|by apply left_in_image|by apply Z.eqb_eq|by left].
Qed.
Lemma adjacent_up p : in_image im p -> 0 < p.1 -> alike p (up p) = true -> adjacent im p (up p).
Proof.
  intros Hp H Ha. split_and!; [done|by apply up_in_image|by apply Z.eqb_eq|by right].
Qed.
Lemma adjacent_alike p q : adjacent im p q -> alike p q = true.
Proof. intros (_ & _ & H & _). by apply Z.eqb_eq. Qed.

(** ** One block *)

Section OneBlock.
Variable b : Z * Z.
Hypothesis Hb : in_blocks b.

Lemma place_left i : 0 < i mod 32 -> place b (i - 1) = left (place b i).
Proof. intros H. unfold place, left. f_equal; cbn; dlia. Qed.
Lemma place_up i : place b (i - 32) = up (place b i).
Proof. unfold place, up. f_equal; cbn; dlia. Qed.

Lemma local_left i : local b i -> 0 < i mod 32 -> local b (i - 1).
Proof.
  intros [Hi Hp] H. cbn in *. split; [cbn; dlia|]. cbn. rewrite place_left by done.
  apply left_in_image; [done|]. destruct Hb. unfold place; cbn; dlia.
Qed.
Lemma local_up i : local b i -> 0 < i / 32 -> local b (i - 32).
Proof.
  intros [Hi Hp] H. cbn in *. split; [cbn; dlia|]. cbn. rewrite place_up.
  apply up_in_image; [done|]. destruct Hb as [_ Hb2]. unfold place; cbn; dlia.
Qed.

Definition same (i j : Z) : bool := alike (place b i) (place b j).

Lemma local_range i : local b i -> 0 <= i < 128.
Proof using Type. by intros [? _]. Qed.
Lemma local_pos i : local b i -> 0 <= i.
Proof using Type. by intros [[? _] _]. Qed.

(** Neighbours in the block that are in one component. *)
Lemma touching_cases i j : touching b i j <->
  local b i /\ same i j = true /\ ((j = i - 1 /\ 0 < i mod 32) \/ (j = i - 32 /\ 0 < i / 32)).
Proof.
  split.
  - intros (Hi & Hj & Hadj). split_and!; [done|by apply adjacent_alike|]. destruct Hadj as (_ & _ & _ & H).
    destruct Hi as [Hi _], Hj as [Hj _]. unfold place in H; cbn in *.
    destruct H as [[= E1 E2]|[= E1 E2]]; [left|right]; dlia.
  - intros (Hi & Hs & [[-> H]|[-> H]]).
    + pose proof (local_left i Hi H) as Hl. split_and!; [done..|]. cbn. unfold same in Hs. rewrite place_left in * by done.
      apply adjacent_left; [by destruct Hi| |done]. destruct Hb. unfold place; cbn. dlia.
    + pose proof (local_up i Hi H) as Hl. split_and!; [done..|]. cbn. unfold same in Hs. rewrite place_up in *.
      apply adjacent_up; [by destruct Hi| |done]. destruct Hb. unfold place; cbn. dlia.
Qed.

Lemma block_at i : 0 <= i < 128 -> gc_y b i = (place b i).1 /\ gc_x b i = (place b i).2.
Proof.
  intros Hi. pose proof size_bounds. destruct Hb. unfold gc_y, gc_x, place, BW, BH. cbn.
  by rewrite !wraps_small by (unfold in_s; dlia).
Qed.

Lemma inside_local i : 0 <= i < 128 -> inside_block im b i = true <-> local b i.
Proof.
  intros Hi. unfold inside_block, in_size, local, g_local; cbn. unfold in_image.
  destruct (block_at i Hi) as [-> ->]. destruct Hb. unfold place; cbn. dlia.
Qed.

Lemma pyx_value i : 0 <= i < 128 -> pyx im b i = value im (place b i).
Proof. intros Hi. unfold pyx, value. by destruct (block_at i Hi) as [-> ->]. Qed.

Lemma pym1x_value i : 0 <= i < 128 -> 0 < i / 32 -> pym1x im b i = value im (place b (i - 32)).
Proof.
  intros Hi H. unfold pym1x, value. destruct (block_at i Hi) as [-> ->].
  unfold BW. rewrite place_up. by replace (0 <? i / 32) with true by dlia.
Qed.

Lemma nym1x_spec i : local b i -> nym1x im b i = (0 <? i / 32) && same i (i - 32).
Proof.
  intros [Hi _]. unfold nym1x, BW, same, alike. destruct (Z.ltb_spec 0 (i / 32)); [|done].
  by rewrite pyx_value, pym1x_value.
Qed.

Variable undef : Z -> Z.

(** A shuffle reads the pixel on the left. *)
Lemma shfl_left v i : local b i -> 0 < i mod 32 -> shfl_up undef (inside_block im b) v i = v (i - 1).
Proof.
  intros Hi H. pose proof (local_left i Hi H) as Hl. unfold shfl_up, warpSize.
  replace (i mod 32 <? 1) with false by dlia.
  by rewrite (proj2 (inside_local (i - 1) (local_range _ Hl)) Hl).
Qed.

Lemma nyxm1_spec i : local b i -> nyxm1 undef im b i = (0 <? i mod 32) && same i (i - 1).
Proof.
  intros Hi. unfold nyxm1, BW, same, alike, pyxm1. destruct (Z.ltb_spec 0 (i mod 32)) as [H|]; [|done].
  rewrite shfl_left by done. destruct (local_left i Hi H), Hi. by rewrite !pyx_value.
Qed.

Lemma nym1xm1_spec i : local b i ->
  nym1xm1 undef im b i = (0 <? i / 32) && (0 <? i mod 32) && same i (i - 33).
Proof.
  intros Hi. unfold nym1xm1, BW, same, alike, pym1xm1.
  destruct (Z.ltb_spec 0 (i / 32)) as [H1|]; [|done]. destruct (Z.ltb_spec 0 (i mod 32)) as [H|]; [|done]. cbn.
  rewrite shfl_left by done. destruct (local_left i Hi H) as [Hl _], Hi as [Hi _]. cbn in *.
  rewrite pyx_value, pym1x_value by (done || dlia). by replace (i - 1 - 32) with (i - 33) by dlia.
Qed.

Lemma label1_spec i : local b i ->
  label1 undef im b i =
    if (0 <? i / 32) && same i (i - 32) then i - 32
    else if (0 <? i mod 32) && same i (i - 1) then i - 1 else i.
Proof.
  intros Hi. unfold label1. rewrite nym1x_spec, nyxm1_spec by done. unfold BW.
  destruct (_ && _); [dlia|]. destruct (_ && _); dlia.
Qed.
Let par (i : Z) : Z := label1 undef im b i.
Let reduces (i : Z) : bool := inside_block im b i && nym1x im b i && nyxm1 undef im b i && negb (nym1xm1 undef im b i).
Let duties (i : Z) : list (Z * Z) := if reduces i then [(par i, i - 1)] else [].

Lemma par_step i : local b i -> par i = i \/ touching b i (par i).
Proof.
  intros Hi. unfold par. rewrite label1_spec by done. rewrite touching_cases.
  destruct (Z.ltb_spec 0 (i / 32)) as [H|], (same i (i - 32)) eqn:E; cbn; [right; eauto|..].
  all: destruct (Z.ltb_spec 0 (i mod 32)) as [H'|], (same i (i - 1)) eqn:E'; cbn; eauto 6.
Qed.

Lemma par_local i : local b i -> local b (par i) /\ par i <= i.
Proof.
  intros Hi. destruct (par_step i Hi) as [->|H]; [split; [done|dlia]|].
  split; [by destruct H as (_ & ? & _)|]. apply touching_cases in H as (_ & _ & [[-> _]|[-> _]]); dlia.
Qed.

Lemma reduces_touching i : local b i -> reduces i = true -> touching b i (i - 1).
Proof.
  intros Hi H. unfold reduces in H. rewrite nyxm1_spec in H by done. bool_hyps.
  apply touching_cases. split_and!; [done..|]. left. split; [done|dlia].
Qed.

(** The parents and the reductions connect what touches, row after row. *)
Lemma block_classes : rel_eq (cl (par_edges (local b) par) (block_tids ≫= duties)) (rtsc (touching b)).
Proof.
  set (T := cl _ _).
  assert (Hpar : forall i, local b i -> T i (par i)) by (intros i Hi; by apply cl_base).
  assert (Hred : forall i, local b i -> reduces i = true -> T (par i) (i - 1)).
  { intros i Hi H. apply cl_pair. apply list_elem_of_bind. exists i. split.
    - unfold duties. rewrite H. by apply list_elem_of_singleton.
    - apply elem_of_zrange. exact (local_range i Hi). }
  apply rel_eq_sub; split.
  - apply rtsc_least; [apply _|]. intros i j [[Hi ->]|Hij].
    + destruct (par_step i Hi) as [E|H]; [by rewrite E|by apply rtsc_lr].
    + apply list_elem_of_bind in Hij as (t & Hij & Ht). unfold duties in Hij.
      destruct (reduces t) eqn:E; [|by apply elem_of_nil in Hij]. apply list_elem_of_singleton in Hij as [= -> ->].
      apply elem_of_zrange in Ht.
      assert (Hl : local b t) by (apply inside_local; [exact Ht|unfold reduces in E; by bool_hyps]).
      trans t; [|by apply rtsc_lr, reduces_touching].
      destruct (par_step t Hl) as [->|H]; [done|by apply rtsc_rl].
  - apply rtsc_least; [apply _|].
    assert (Hup : forall i, local b i -> same i (i - 32) = true -> 0 < i / 32 -> T i (i - 32)).
    { intros i Hi Hs H. replace (i - 32) with (par i); [by apply Hpar|].
      unfold par. rewrite label1_spec by done. by rewrite Hs, (proj2 (Z.ltb_lt _ _) H). }
    assert (Hleft : forall n i, (Z.to_nat (i / 32) < n)%nat -> local b i -> same i (i - 1) = true -> 0 < i mod 32 -> T i (i - 1)).
    { induction n as [|n IH]; intros i Hn Hi Hs H; [lia|].
      destruct ((0 <? i / 32) && same i (i - 32)) eqn:Eup.
      2:{ replace (i - 1) with (par i); [by apply Hpar|]. unfold par. rewrite label1_spec by done.
          by rewrite Eup, Hs, (proj2 (Z.ltb_lt _ _) H). }
      apply andb_true_iff in Eup as [Eup Es]. apply Z.ltb_lt in Eup.
      destruct (same i (i - 33)) eqn:Ed.
      2:{ trans (par i); [by apply Hpar|]. apply Hred; [done|].
          unfold reduces. rewrite nym1x_spec, nyxm1_spec, nym1xm1_spec, Es, Hs, Ed by done.
          rewrite (proj2 (inside_local i (local_range i Hi))) by done.
          by rewrite (proj2 (Z.ltb_lt _ _) Eup), (proj2 (Z.ltb_lt _ _) H). }
      trans (i - 32); [by apply Hup|].
      replace (i - 33) with (i - 32 - 1) in Ed by lia.
      trans (i - 32 - 1); [apply IH; [dlia|by apply local_up|by apply (alike_square (place b i))|dlia]|].
      symmetry. replace (i - 32 - 1) with (i - 1 - 32) in * by lia.
      apply Hup; [by apply local_left|by apply (alike_square (place b i))|dlia]. }
    intros i j Hij. apply touching_cases in Hij as (Hi & Hs & [[-> H]|[-> H]]); [|by apply Hup].
    by apply (Hleft (S (Z.to_nat (i / 32)))); [lia|..].
Qed.

(** The phases of the block. *)
Lemma reduce_phase s2 : forest (local b) s2 -> rel_eq (rtsc (edges (local b) s2)) (rtsc (par_edges (local b) par)) ->
  Ends s2 (block_reduce undef im b <$> block_tids) /\
  forall s3 rs, Runs s2 (block_reduce undef im b <$> block_tids) s3 rs ->
    forest (local b) s3 /\ rel_eq (rtsc (edges (local b) s3)) (rtsc (touching b)) /\
    Forall2 (fun i a => local b i -> local b a /\ rtsc (touching b) i a) block_tids rs.
Proof.
  intros Hf Hcl. set (T := cl (edges (local b) s2) (block_tids ≫= duties)).
  assert (HT : rel_eq T (rtsc (touching b))).
  { etrans; [by apply cl_base_eq|]. apply block_classes. }
  assert (Hsub : rel_sub (rtsc (edges (local b) s2)) T) by (apply rtsc_mono; by left).
  destruct (unite_runs_map (local b) (block_reduce undef im b) duties
    (fun i a => local b i -> local b a /\ rtsc (touching b) i a) s2 block_tids Hf) as [Hex Hall].
  - intros i Hi. apply elem_of_zrange in Hi. unfold block_reduce, duties, reduces. rewrite own_id.
    destruct (inside_block im b i) eqn:E; cbn.
    2:{ split; [by intros ? ? ?%elem_of_nil|]. intros Hl. apply inside_local in Hl; [congruence|exact Hi]. }
    apply inside_local in E as Hl; [|exact Hi]. destruct (par_local i Hl) as [Hp Hpi].
    assert (Hip : rtsc (touching b) i (par i)).
    { apply HT, Hsub, Hcl, rtsc_lr. by split. }
    destruct (nym1x im b i && nyxm1 undef im b i && negb (nym1xm1 undef im b i)) eqn:Ec; cbn.
    2:{ split; [by intros ? ? ?%elem_of_nil|]. by intros _. }
    fold (par i).
    assert (Hr : reduces i = true) by (unfold reduces; by rewrite E).
    pose proof (reduces_touching i Hl Hr) as Ht. split; [by destruct Ht as (_ & ? & _)|].
    intros C' v HC' Hs Hv Hvi HTv HCv.
    apply soft_weaken with (Q := ends_at (local b) T i).
    { intros a [Ha Hia] _. split; [done|]. by apply HT. }
    apply Reduction_soft; [apply _|exact local_pos|done..|reflexivity|done| |by apply HT].
    trans (i - 1); [|done]. apply HT. trans i; [by symmetry|by apply rtsc_lr].
  - split; [done|]. intros s3 rs Hr. destruct (Hall _ _ Hr) as ((Hf3 & _) & HT3 & HQ).
    split_and!; [done| |done]. etrans; [exact HT3|exact HT].
Qed.

Lemma store_phase s3 rs3 : forest (local b) s3 -> rel_eq (rtsc (edges (local b) s3)) (rtsc (touching b)) ->
  Forall2 (fun i a => local b i -> local b a /\ rtsc (touching b) i a) block_tids rs3 ->
  Ends s3 (zip_with (block_store im b) block_tids rs3) /\
  forall s4 rs, Runs s3 (zip_with (block_store im b) block_tids rs3) s4 rs ->
    concat rs = g_writes image_grid (inside_block im b) b (root s3).
Proof.
  intros Hf Hc HQ. rewrite zip_with_zip.
  set (w i := if inside_block im b i then [(offset im (place b i), offset im (place b (root s3 i)))] else []).
  destruct (rg_runs_values (shortened (local b) s3) (towards (local b) (root s3)) (fun '(i, a) => block_store im b i a)
    (fun p => w p.1) s3 (zip block_tids rs3)) as [Hex Hall].
  - apply shortened_refl; [exact local_pos|done].
  - intros [i a] Hin. apply list_elem_of_lookup in Hin as (t & Ht).
    apply lookup_zip_Some in Ht as [Hi Ha]. cbn.
    pose proof (Forall2_lookup_lr _ _ _ _ _ _ HQ Hi Ha) as Hia.
    assert (Hin : i ∈ block_tids) by (by eapply list_elem_of_lookup_2). apply elem_of_zrange in Hin.
    unfold block_store, w. destruct (inside_block im b i) eqn:E; [|by intros s _ _].
    apply inside_local in E as Hl; [|exact Hin]. destruct (Hia Hl) as [Hla Hcon].
    apply rg_bind; [apply _|].
    apply rg_weaken with (Q := fun r _ => r = root s3 a); [| |apply FindRoot_rg; [exact local_pos|done|apply _|done]].
    { apply _. }
    intros r s ->. intros s' _ _.
    apply Hc, (root_classes (local b)) in Hcon; [|exact local_pos|done..]. rewrite <- Hcon.
    destruct (root_below (local b) s3 local_pos Hf i Hl) as ([Hr1 Hr2] & _ & _).
    destruct (block_at i Hin) as [-> ->]. rewrite dst_at_offset by (by destruct Hl). repeat f_equal.
    pose proof (offset_bound _ Hr2) as Hbd. cbn in Hr1, Hbd.
    replace ((root s3 i / BW) mod BH) with (root s3 i / BW) by (clear -Hr1; unfold BW, BH; dlia).
    replace (_ + _ + root s3 i mod BW) with (offset im (place b (root s3 i))).
    + apply wrapu_small. unfold in_u. lia.
    + unfold offset, place, BW, BH; cbn. lia.
  - split; [done|]. intros s4 rs Hr. rewrite (Hall _ _ Hr). unfold g_writes, w; cbn.
    assert (Hlen : length block_tids = length rs3) by (by eapply Forall2_length). change (zrange 0 128) with block_tids.
    clear -Hlen. revert rs3 Hlen; induction block_tids as [|i l IH]; intros [|a rs3] Hlen; try done.
    cbn. f_equal. apply IH. by injection Hlen.
Qed.

(** No phase of the block runs for ever or gets stuck. *)
Definition block_ends : Prop :=
  forall s0, Ends s0 (block_init undef im b <$> block_tids) /\ forall s1 rs1, Runs s0 (block_init undef im b <$> block_tids) s1 rs1 ->
  Ends s1 (block_find undef im b <$> block_tids) /\ forall s2 rs2, Runs s1 (block_find undef im b <$> block_tids) s2 rs2 ->
  Ends s2 (block_reduce undef im b <$> block_tids) /\ forall s3 rs3, Runs s2 (block_reduce undef im b <$> block_tids) s3 rs3 ->
  Ends s3 (zip_with (block_store im b) block_tids rs3).

Lemma block_init_eq i : block_init undef im b i = if inside_block im b i then Write i (par i) (Ret (par i)) else Ret 0.
Proof using Type. unfold block_init. by rewrite own_id. Qed.
Lemma block_find_eq i : block_find undef im b i =
  if inside_block im b i then r ⇐ FindRoot (par i); Write i r (Ret (par i)) else Ret 0.
Proof using Type. unfold block_find. by rewrite own_id. Qed.

Lemma block_spec : block_ends /\
  forall ws, block_runs undef im b ws ->
    exists r, block_roots (local b) (touching b) r /\ ws = g_writes image_grid (inside_block im b) b r.
Proof.
  pose proof (init_phase 128 (local b) (inside_block im b) par local_range inside_local (block_init undef im b)) as Hinit.
  pose proof (find_phase 128 (local b) (inside_block im b) par local_range inside_local par_local (block_find undef im b)) as Hfind.
  split.
  - intros s0. destruct (Hinit s0) as [E0 H0]; [intros; apply block_init_eq|]. split; [exact E0|]. intros s1 rs1 R1.
    destruct (Hfind s1 (H0 _ _ R1)) as [E1 H1]; [intros; apply block_find_eq|]. split; [exact E1|]. intros s2 rs2 R2.
    destruct (H1 _ _ R2) as [Hf2 Hc2]. destruct (reduce_phase s2 Hf2 Hc2) as [E2 H2]. split; [exact E2|]. intros s3 rs3 R3.
    destruct (H2 _ _ R3) as (Hf3 & Hc3 & HQ3). by apply store_phase.
  - intros ws [s0 s1 s2 s3 s4 rs1 rs2 rs3 rs4 R1 R2 R3 R4].
    destruct (Hinit s0) as [_ H0]; [intros; apply block_init_eq|].
    destruct (Hfind s1 (H0 _ _ R1)) as [_ H1]; [intros; apply block_find_eq|]. destruct (H1 _ _ R2) as [Hf2 Hc2].
    destruct (proj2 (reduce_phase s2 Hf2 Hc2) _ _ R3) as (Hf3 & Hc3 & HQ3).
    exists (root s3). split; [by apply roots_block; [exact local_pos|..]|].
    exact (proj2 (store_phase s3 rs3 Hf3 Hc3 HQ3) _ _ R4).
Qed.

Lemma block_exists : exists ws, block_runs undef im b ws.
Proof.
  destruct block_spec as [H _]. destruct (H (fun _ => 0)) as [E0 H0]. apply Ends_run in E0 as (s1 & rs1 & R1).
  destruct (H0 _ _ R1) as [E1 H1]. apply Ends_run in E1 as (s2 & rs2 & R2).
  destruct (H1 _ _ R2) as [E2 H2]. apply Ends_run in E2 as (s3 & rs3 & R3).
  pose proof (H2 _ _ R3) as (s4 & rs4 & R4)%Ends_run. eexists. by eapply block_run.
Qed.
End OneBlock.

(** ** All the blocks *)

Lemma elem_of_labBlocks b : b ∈ pairs2 (labBlocks im).1 (labBlocks im).2 <-> in_blocks b.
Proof.
  rewrite elem_of_pairs2. destruct size_bounds as [[Hx _] [Hy _]]. unfold labBlocks, in_blocks, BW, BH; cbn.
  rewrite !DivUp_spec by lia. dlia.
Qed.

Let within := g_within image_grid.

Lemma within_left p : in_image im p -> p.2 mod 32 <> 0 -> alike p (left p) = true ->
  within (offset im p) (offset im (left p)).
Proof.
  intros Hp Hm Ha. exists p, (left p). destruct p as [y x], Hp as [Hy Hx]; cbn in *.
  split_and!; [apply adjacent_left; [by split|cbn; dlia|done]| |done..].
  unfold blk; cbn. f_equal; dlia.
Qed.

Lemma within_up p : in_image im p -> p.1 mod 4 <> 0 -> alike p (up p) = true ->
  within (offset im p) (offset im (up p)).
Proof.
  intros Hp Hm Ha. exists p, (up p). destruct p as [y x], Hp as [Hy Hx]; cbn in *.
  split_and!; [apply adjacent_up; [by split|cbn; dlia|done]| |done..].
  unfold blk; cbn. f_equal; dlia.
Qed.

(** ** Threads and pixels of the reductions across blocks *)

Definition y_pixel (th : gthread) : Z * Z := (y_gc_y th, y_gc_x th).
Definition x_pixel (th : gthread) : Z * Z := (x_gc_y th, x_gc_x th).

Lemma redBlocks_val :
  redBlocksY im = ((size_x im + 31) / 32, ((size_y im + 3) / 4 + 3) / 4) /\
  redBlocksX im = ((size_y im + 31) / 32, ((size_x im + 31) / 32 + 3) / 4).
Proof.
  destruct size_bounds as [Hx Hy]. unfold redBlocksY, redBlocksX, labBlocks, BW, BH; cbn.
  rewrite (DivUp_spec (size_x im)), (DivUp_spec (size_y im) 4), (DivUp_spec (size_y im) 32) by lia.
  rewrite !DivUp_spec by dlia. split; f_equal; dlia.
Qed.

Lemma y_pixel_at th : th ∈ grid2 (redBlocksY im) ->
  y_pixel th = (((blockIdx th).2 * 4 + (threadIdx th).2) * 4 + 4, (blockIdx th).1 * 32 + (threadIdx th).1).
Proof.
  intros [[Hb1 Hb2] [Ht1 Ht2]]%elem_of_grid2. destruct size_bounds as [Hx Hy].
  rewrite (proj1 redBlocks_val) in *; cbn in *.
  unfold y_pixel, y_gc_y, y_gc_x, BW, BH. rewrite !wraps_small by (unfold in_s; dlia). done.
Qed.

Lemma x_pixel_at th : th ∈ grid2 (redBlocksX im) ->
  x_pixel th = ((blockIdx th).1 * 32 + (threadIdx th).1, ((blockIdx th).2 * 4 + (threadIdx th).2) * 32 + 32).
Proof.
  intros [[Hb1 Hb2] [Ht1 Ht2]]%elem_of_grid2. destruct size_bounds as [Hx Hy].
  rewrite (proj2 redBlocks_val) in *; cbn in *.
  unfold x_pixel, x_gc_y, x_gc_x, BW, BH. rewrite !wraps_small by (unfold in_s; dlia). done.
Qed.

Lemma in_size_image p : 0 <= p.1 -> 0 <= p.2 -> in_size im p.1 p.2 = true <-> in_image im p.
Proof using Type. intros H1 H2. unfold in_size, in_image. lia. Qed.

(** Every pixel on the upper side of a block but the first has its thread. *)
Lemma y_thread_of p : in_image im p -> 4 <= p.1 -> p.1 mod 4 = 0 -> exists th, th ∈ grid2 (redBlocksY im) /\ y_pixel th = p.
Proof.
  intros [Hp1 Hp2] H4 Hm. destruct p as [y x]; cbn in *.
  set (th := MkGThread (x / 32, (y / 4 - 1) / 4) (x mod 32, (y / 4 - 1) mod 4)).
  assert (Hin : th ∈ grid2 (redBlocksY im)).
  { apply elem_of_grid2. rewrite (proj1 redBlocks_val). unfold th; cbn. dlia. }
  exists th. split; [done|]. rewrite y_pixel_at by done. unfold th; cbn. f_equal; dlia.
Qed.

Lemma x_thread_of p : in_image im p -> 32 <= p.2 -> p.2 mod 32 = 0 -> exists th, th ∈ grid2 (redBlocksX im) /\ x_pixel th = p.
Proof.
  intros [Hp1 Hp2] H4 Hm. destruct p as [y x]; cbn in *.
  set (th := MkGThread (y / 32, (x / 32 - 1) / 4) (y mod 32, (x / 32 - 1) mod 4)).
  assert (Hin : th ∈ grid2 (redBlocksX im)).
  { apply elem_of_grid2. rewrite (proj2 redBlocks_val). unfold th; cbn. dlia. }
  exists th. split; [done|]. rewrite x_pixel_at by done. unfold th; cbn. f_equal; dlia.
Qed.

Variable undef : Z -> Z.

Lemma y_unites_at th : th ∈ grid2 (redBlocksY im) -> y_runs_on im th = true -> let p := y_pixel th in
  (in_image im p /\ 4 <= p.1 /\ p.1 mod 4 = 0) /\
  y_unites undef im th = alike p (up p) && ((p.2 mod 32 =? 0) || negb (alike p (left p)) || negb (alike p (up (left p)))).
Proof.
  intros Hth Hr p. pose proof (y_pixel_at th Hth) as E. pose proof Hth as [[Hb1 Hb2] [Ht1 Ht2]]%elem_of_grid2.
  assert (Hp : in_image im p /\ 4 <= p.1 /\ p.1 mod 4 = 0).
  { assert (Hn : 0 <= p.1 /\ 0 <= p.2) by (unfold p; rewrite E; cbn; lia).
    split; [by apply (in_size_image p (proj1 Hn) (proj2 Hn))|]. unfold p; rewrite E; cbn. dlia. }
  split; [done|]. unfold y_unites. cbv zeta. change (pixel im (y_gc_y th) (y_gc_x th)) with (value im p).
  change (pixel im (y_gc_y th - 1) (y_gc_x th)) with (value im (up p)). unfold alike. f_equal.
  replace (p.2 mod 32) with (threadIdx th).1 by (unfold p; rewrite E; cbn; dlia).
  destruct (Z.eqb_spec (threadIdx th).1 0) as [|Hne]; [done|]. cbn [orb].
  assert (Hlane : 0 < (threadIdx th).1) by lia.
  set (th' := MkGThread (blockIdx th) ((threadIdx th).1 - 1, (threadIdx th).2)).
  assert (El : y_pixel th' = left p).
  { destruct (sibling_grid _ _ Hth Hlane) as [Es Hs]. rewrite Es in Hs. rewrite (y_pixel_at th' Hs).
    unfold left, p. rewrite E. cbn. f_equal; lia. }
  assert (Hr' : y_runs_on im th' = true).
  { change (in_size im (y_pixel th').1 (y_pixel th').2 = true). rewrite El.
    assert (Hl : in_image im (left p)) by (apply left_in_image; [apply Hp|unfold p; rewrite E; cbn; lia]).
    by apply in_size_image; [apply Hl..|]. }
  cbv zeta. rewrite (shfl_thread undef (y_runs_on im) (fun th => pixel im (y_gc_y th) (y_gc_x th)) _ _ Hth Hlane Hr').
  rewrite (shfl_thread undef (y_runs_on im) (fun th => pixel im (y_gc_y th - 1) (y_gc_x th)) _ _ Hth Hlane Hr').
  fold th'. change (pixel im (y_gc_y th') (y_gc_x th')) with (value im (y_pixel th')).
  change (pixel im (y_gc_y th' - 1) (y_gc_x th')) with (value im (up (y_pixel th'))). by rewrite El.
Qed.

Lemma x_unites_at th : th ∈ grid2 (redBlocksX im) -> x_runs_on im th = true -> let p := x_pixel th in
  (in_image im p /\ 32 <= p.2 /\ p.2 mod 32 = 0) /\
  x_unites undef im th = alike p (left p) && ((p.1 mod 4 =? 0) || negb (alike p (up p)) || negb (alike p (up (left p)))).
Proof.
  intros Hth Hr p. pose proof (x_pixel_at th Hth) as E. pose proof Hth as [[Hb1 Hb2] [Ht1 Ht2]]%elem_of_grid2.
  assert (Hp : in_image im p /\ 32 <= p.2 /\ p.2 mod 32 = 0).
  { assert (Hn : 0 <= p.1 /\ 0 <= p.2) by (unfold p; rewrite E; cbn; lia).
    split; [by apply (in_size_image p (proj1 Hn) (proj2 Hn))|]. unfold p; rewrite E; cbn. dlia. }
  split; [done|]. unfold x_unites. cbv zeta. change (pixel im (x_gc_y th) (x_gc_x th)) with (value im p).
  change (pixel im (x_gc_y th) (x_gc_x th - 1)) with (value im (left p)). unfold alike. f_equal.
  change (x_gc_y th) with p.1. unfold BH.
  destruct (Z.eqb_spec (p.1 mod 4) 0) as [|Hne]; [done|]. cbn [orb].
  assert (Hlane : 0 < (threadIdx th).1) by (unfold p in Hne; rewrite E in Hne; cbn in Hne; dlia).
  set (th' := MkGThread (blockIdx th) ((threadIdx th).1 - 1, (threadIdx th).2)).
  assert (El : x_pixel th' = up p).
  { destruct (sibling_grid _ _ Hth Hlane) as [Es Hs]. rewrite Es in Hs. rewrite (x_pixel_at th' Hs).
    unfold up, p. rewrite E. cbn. f_equal; lia. }
  assert (Hr' : x_runs_on im th' = true).
  { change (in_size im (x_pixel th').1 (x_pixel th').2 = true). rewrite El.
    assert (Hl : in_image im (up p)) by (apply up_in_image; [apply Hp|unfold p; rewrite E; cbn; lia]).
    by apply in_size_image; [apply Hl..|]. }
  cbv zeta. rewrite (shfl_thread undef (x_runs_on im) (fun th => pixel im (x_gc_y th) (x_gc_x th)) _ _ Hth Hlane Hr').
  rewrite (shfl_thread undef (x_runs_on im) (fun th => pixel im (x_gc_y th) (x_gc_x th - 1)) _ _ Hth Hlane Hr').
  fold th'. change (pixel im (x_gc_y th') (x_gc_x th')) with (value im (x_pixel th')).
  change (pixel im (x_gc_y th') (x_gc_x th' - 1)) with (value im (left (x_pixel th'))). by rewrite El.
Qed.

(** ** What the reductions unite *)

Definition seam_y (p : Z * Z) : Prop := in_image im p /\ 4 <= p.1 /\ p.1 mod 4 = 0.
Definition seam_x (p : Z * Z) : Prop := in_image im p /\ 32 <= p.2 /\ p.2 mod 32 = 0.
Definition across_y : relation Z := g_labelled image_grid (fun p q => seam_y p /\ q = up p).
Definition across_x : relation Z := g_labelled image_grid (fun p q => seam_x p /\ q = left p).

Definition y_pairs (th : gthread) : list ((Z * Z) * (Z * Z)) :=
  if y_runs_on im th && y_unites undef im th then [(y_pixel th, up (y_pixel th))] else [].
Definition x_pairs (th : gthread) : list ((Z * Z) * (Z * Z)) :=
  if x_runs_on im th && x_unites undef im th then [(x_pixel th, left (x_pixel th))] else [].

Lemma y_pairs_sound th p q : th ∈ grid2 (redBlocksY im) -> (p, q) ∈ y_pairs th -> seam_y p /\ q = up p /\ adjacent im p q.
Proof.
  intros Hth Hpq. unfold y_pairs in Hpq. destruct (y_runs_on im th) eqn:Hr; [|by apply elem_of_nil in Hpq].
  destruct (y_unites undef im th) eqn:Hu; [|by apply elem_of_nil in Hpq]. apply list_elem_of_singleton in Hpq as [= -> ->].
  destruct (y_unites_at th Hth Hr) as [Hs E]. rewrite E in Hu. apply andb_true_iff in Hu as [Ha _].
  split_and!; [done..|]. apply adjacent_up; [apply Hs|lia|done].
Qed.

Lemma x_pairs_sound th p q : th ∈ grid2 (redBlocksX im) -> (p, q) ∈ x_pairs th -> seam_x p /\ q = left p /\ adjacent im p q.
Proof.
  intros Hth Hpq. unfold x_pairs in Hpq. destruct (x_runs_on im th) eqn:Hr; [|by apply elem_of_nil in Hpq].
  destruct (x_unites undef im th) eqn:Hu; [|by apply elem_of_nil in Hpq]. apply list_elem_of_singleton in Hpq as [= -> ->].
  destruct (x_unites_at th Hth Hr) as [Hs E]. rewrite E in Hu. apply andb_true_iff in Hu as [Ha _].
  split_and!; [done..|]. apply adjacent_left; [apply Hs|lia|done].
Qed.

Lemma y_thread_pairs th : th ∈ grid2 (redBlocksY im) -> (y_pairs th = [] /\ y_thread undef im th = Ret 0) \/
  exists p q, in_image im p /\ in_image im q /\ y_pairs th = [(p, q)] /\
    y_thread undef im th = unite_with (offset im p) (offset im q).
Proof.
  intros Hth. pose proof (y_pairs_sound th) as Hs. unfold y_pairs, y_thread in *.
  destruct (y_runs_on im th); [|by left]. cbn in *. destruct (y_unites undef im th); [|by left]. right.
  destruct (Hs _ _ Hth (list_elem_of_here _ _)) as ((Hp & _) & _ & (_ & Hq & _)).
  exists (y_pixel th), (up (y_pixel th)). split_and!; [done..|]. by rewrite <- !dst_at_offset by done.
Qed.

Lemma x_thread_pairs th : th ∈ grid2 (redBlocksX im) -> (x_pairs th = [] /\ x_thread undef im th = Ret 0) \/
  exists p q, in_image im p /\ in_image im q /\ x_pairs th = [(p, q)] /\
    x_thread undef im th = unite_with (offset im p) (offset im q).
Proof.
  intros Hth. pose proof (x_pairs_sound th) as Hs. unfold x_pairs, x_thread in *.
  destruct (x_runs_on im th); [|by left]. cbn in *. destruct (x_unites undef im th); [|by left]. right.
  destruct (Hs _ _ Hth (list_elem_of_here _ _)) as ((Hp & _) & _ & (_ & Hq & _)).
  exists (x_pixel th), (left (x_pixel th)). split_and!; [done..|]. by rewrite <- !dst_at_offset by done.
Qed.

(** A pair that no thread unites is united through its neighbours. *)
Lemma y_united W : rel_sub within W -> rel_eq
  (cl W (grid2 (redBlocksY im) ≫= fun th => pair_offs image_grid <$> y_pairs th)) (rtsc (fun i j => W i j \/ across_y i j)).
Proof.
  intros HW. apply (seam_united image_grid y_pairs _ W seam_y up (fun p => Z.to_nat p.2)); [exact y_pairs_sound|].
  intros p Hs Hadj. pose proof Hs as (Hp & H4 & Hm). pose proof (adjacent_alike _ _ Hadj) as Ha.
  destruct (y_thread_of p Hp H4 Hm) as (th & Hth & E).
  assert (Hr : y_runs_on im th = true).
  { change (in_size im (y_pixel th).1 (y_pixel th).2 = true). rewrite E. apply in_size_image; [apply Hp..|exact Hp]. }
  destruct (y_unites_at th Hth Hr) as [_ Hu]. rewrite E in Hu.
  destruct (y_unites undef im th) eqn:Hu'.
  { left. exists th. split; [done|]. unfold y_pairs. rewrite Hr, Hu', E. by apply list_elem_of_singleton. }
  right. rewrite Ha in Hu. cbn [andb] in Hu. symmetry in Hu. apply orb_false_iff in Hu as [[Hx Hl]%orb_false_iff Hul].
  apply Z.eqb_neq in Hx. apply negb_false_iff in Hl, Hul.
  assert (Hx1 : 0 < p.2) by (destruct Hp as [_ Hp]; destruct (decide (p.2 = 0)) as [E0|]; [rewrite E0 in Hx; done|lia]).
  assert (Hlp : in_image im (left p)) by (by apply left_in_image).
  exists (left p). split_and!; [cbn; lia|done..| | |].
  - apply adjacent_up; [done|cbn; lia|by apply (alike_square p)].
  - apply rtsc_lr, HW. by apply within_left.
  - apply rtsc_lr, HW. change (up (left p)) with (left (up p)).
    apply within_left; [apply up_in_image; [done|lia]|done|]. by apply (alike_square p).
Qed.

Lemma x_united W : rel_sub within W -> rel_eq
  (cl W (grid2 (redBlocksX im) ≫= fun th => pair_offs image_grid <$> x_pairs th)) (rtsc (fun i j => W i j \/ across_x i j)).
Proof.
  intros HW. apply (seam_united image_grid x_pairs _ W seam_x left (fun p => Z.to_nat p.1)); [exact x_pairs_sound|].
  intros p Hs Hadj. pose proof Hs as (Hp & H32 & Hm). pose proof (adjacent_alike _ _ Hadj) as Ha.
  destruct (x_thread_of p Hp H32 Hm) as (th & Hth & E).
  assert (Hr : x_runs_on im th = true).
  { change (in_size im (x_pixel th).1 (x_pixel th).2 = true). rewrite E. apply in_size_image; [apply Hp..|exact Hp]. }
  destruct (x_unites_at th Hth Hr) as [_ Hu]. rewrite E in Hu.
  destruct (x_unites undef im th) eqn:Hu'.
  { left. exists th. split; [done|]. unfold x_pairs. rewrite Hr, Hu', E. by apply list_elem_of_singleton. }
  right. rewrite Ha in Hu. cbn [andb] in Hu. symmetry in Hu. apply orb_false_iff in Hu as [[Hy Hl]%orb_false_iff Hul].
  apply Z.eqb_neq in Hy. apply negb_false_iff in Hl, Hul.
  assert (Hy1 : 0 < p.1) by (destruct Hp as [Hp _]; destruct (decide (p.1 = 0)) as [E0|]; [rewrite E0 in Hy; done|lia]).
  assert (Hup : in_image im (up p)) by (by apply up_in_image).
  exists (up p). split_and!; [cbn; lia|done..| | |].
  - apply adjacent_left; [done|cbn; lia|by apply (alike_square p)].
  - apply rtsc_lr, HW. by apply within_up.
  - apply rtsc_lr, HW. change (left (up p)) with (up (left p)).
    apply within_up; [apply left_in_image; [done|lia]|done|]. by apply (alike_square p).
Qed.

(** ** The four kernels *)

Lemma blocks_kernel d d1 : BlockLabel2D undef im d d1 ->
  forest valid d1 /\ rel_eq (rtsc (edges valid d1)) (rtsc within) /\ forall i, ~ valid i -> d1 i = d i.
Proof.
  intros [outs ws Hall Hperm].
  apply (blocks_classes image_grid image_grid_ok (inside_block im) (block_runs undef im)
    (pairs2 (labBlocks im).1 (labBlocks im).2)) with (outs := outs); [| | |done..].
  - intros b i Hb. by apply inside_local.
  - exact elem_of_labBlocks.
  - intros b ws' Hb. by apply block_spec.
Qed.

Lemma blocks_exist d : exists d1, BlockLabel2D undef im d d1.
Proof.
  assert (H : exists outs, Forall2 (block_runs undef im) (pairs2 (labBlocks im).1 (labBlocks im).2) outs).
  { assert (Hin : forall b, b ∈ pairs2 (labBlocks im).1 (labBlocks im).2 -> in_blocks b) by (intros; by apply elem_of_labBlocks).
    induction (pairs2 (labBlocks im).1 (labBlocks im).2) as [|b l IH]; [by exists []|].
    destruct IH as (outs & Ho); [intros; apply Hin; by right|].
    destruct (block_exists b (Hin b (list_elem_of_here _ _)) undef) as (ws & Hws). exists (ws :: outs). by constructor. }
  destruct H as (outs & H). eexists. by eapply block_label.
Qed.

Lemma y_kernel d1 : forest valid d1 -> rel_eq (rtsc (edges valid d1)) (rtsc within) ->
  Ends d1 (y_thread undef im <$> grid2 (redBlocksY im)) /\
  forall d2, YLabelReduction2D undef im d1 d2 -> forest valid d2 /\ (forall i, ~ valid i -> d2 i = d1 i) /\
    rel_eq (rtsc (edges valid d2)) (rtsc (fun i j => within i j \/ across_y i j)).
Proof.
  intros Hf Hc. destruct (reduction_kernel image_grid image_grid_ok (y_thread undef im) y_pairs (grid2 (redBlocksY im)) d1 Hf y_thread_pairs)
    as [Hend Hall].
  split; [done|]. intros d2' [rs Hr]. destruct (Hall _ _ Hr) as (Hf2 & Hout & Hc2). split_and!; [done..|].
  etrans; [exact Hc2|]. etrans; [by apply cl_base_eq|]. by apply y_united.
Qed.

Lemma x_kernel d2 : forest valid d2 -> rel_eq (rtsc (edges valid d2)) (rtsc (fun i j => within i j \/ across_y i j)) ->
  Ends d2 (x_thread undef im <$> grid2 (redBlocksX im)) /\
  forall d3, XLabelReduction2D undef im d2 d3 -> forest valid d3 /\ (forall i, ~ valid i -> d3 i = d2 i) /\
    rel_eq (rtsc (edges valid d3)) (rtsc (fun i j => (within i j \/ across_y i j) \/ across_x i j)).
Proof.
  intros Hf Hc. destruct (reduction_kernel image_grid image_grid_ok (x_thread undef im) x_pairs (grid2 (redBlocksX im)) d2 Hf x_thread_pairs)
    as [Hend Hall].
  split; [done|]. intros d3' [rs Hr]. destruct (Hall _ _ Hr) as (Hf2 & Hout & Hc2). split_and!; [done..|].
  etrans; [exact Hc2|]. etrans; [by apply cl_base_eq|]. apply x_united. by left.
Qed.

Lemma lab_pixel_at th : th ∈ grid2 (labBlocks im) ->
  0 <= lab_gc_y th /\ 0 <= lab_gc_x th /\
  (lab_gc_y th, lab_gc_x th) = ((blockIdx th).2 * 4 + (threadIdx th).2, (blockIdx th).1 * 32 + (threadIdx th).1).
Proof.
  intros [[Hb1 Hb2] [Ht1 Ht2]]%elem_of_grid2. destruct size_bounds as [Hx Hy].
  unfold labBlocks, BW, BH in *; cbn in *. rewrite !DivUp_spec in * by lia.
  unfold lab_gc_x, lab_gc_y, BW, BH. rewrite !wraps_small by (unfold in_s; dlia). split_and!; [lia..|done].
Qed.

Lemma lab_thread_of p : in_image im p -> exists th, th ∈ grid2 (labBlocks im) /\ (lab_gc_y th, lab_gc_x th) = p.
Proof.
  intros Hp. destruct (g_pixel _ image_grid_ok p Hp) as [Hb Hi]. apply elem_of_labBlocks, elem_of_pairs2 in Hb. cbn in Hi.
  set (th := MkGThread (blk p) (idx p mod 32, idx p / 32)).
  assert (Hin : th ∈ grid2 (labBlocks im)) by (apply elem_of_grid2; split; [exact Hb|cbn; dlia]).
  exists th. split; [done|]. destruct (lab_pixel_at th Hin) as (_ & _ & ->).
  etrans; [|apply (g_place_idx _ image_grid_ok p Hp)]. done.
Qed.

Lemma resolve_kernel d3 : forest valid d3 ->
  Ends d3 (resolve_thread im <$> grid2 (labBlocks im)) /\
  forall d', ResolveLabels2D im d3 d' -> (forall p, in_image im p -> d' (offset im p) = root d3 (offset im p)) /\
    forall i, ~ valid i -> d' i = d3 i.
Proof.
  intros Hf. set (px th := if in_size im (lab_gc_y th) (lab_gc_x th) then Some (lab_gc_y th, lab_gc_x th) else None).
  destruct (g_resolve image_grid image_grid_ok (resolve_thread im) px (grid2 (labBlocks im)) d3 Hf) as [Hend Hall].
  - intros th Hth. destruct (lab_pixel_at th Hth) as (Hy & Hx & _). unfold px, resolve_thread.
    destruct (in_size im (lab_gc_y th) (lab_gc_x th)) eqn:E; [|done]. cbn [negb].
    apply (in_size_image (lab_gc_y th, lab_gc_x th)) in E; [|done..]. split; [done|].
    change (dst_at im (lab_gc_y th) (lab_gc_x th)) with (dst_at im (lab_gc_y th, lab_gc_x th).1 (lab_gc_y th, lab_gc_x th).2).
    by rewrite (dst_at_offset _ E).
  - intros p Hp. destruct (lab_thread_of p Hp) as (th & Hth & E). exists th. split; [done|]. unfold px.
    change (in_size im (lab_gc_y th) (lab_gc_x th)) with (in_size im (lab_gc_y th, lab_gc_x th).1 (lab_gc_y th, lab_gc_x th).2).
    rewrite E. by rewrite (proj2 (in_size_image p (proj1 (proj1 Hp)) (proj1 (proj2 Hp))) Hp).
  - split; [done|]. intros d' [rs Hr]. exact (Hall _ _ Hr).
Qed.

Lemma all_edges : rel_eq (rtsc (fun i j => (within i j \/ across_y i j) \/ across_x i j))
  (rtsc (g_labelled image_grid (fun _ _ => True))).
Proof.
  apply rtsc_eq. intros i j. split.
  - intros [[H|H]|H]; destruct H as (p & q & Ha & _ & -> & ->); by exists p, q.
  - intros (p & q & Ha & _ & -> & ->). pose proof Ha as (Hp & Hq & _ & H).
    destruct (decide (blk p = blk q)) as [|Hne]; [left; left; by exists p, q|].
    destruct p as [y x], Hp as [Hy Hx], Hq as [Hy' Hx']. destruct H as [-> | ->]; cbn in *.
    + right. eexists _, _. split; [exact Ha|]. split; [|done]. split; [|done]. split; [done|]. unfold blk in Hne; cbn in *.
      destruct (decide (x mod 32 = 0)); [dlia|]. exfalso; apply Hne. f_equal. dlia.
    + left; right. eexists _, _. split; [exact Ha|]. split; [|done]. split; [|done]. split; [done|]. unfold blk in Hne; cbn in *.
      destruct (decide (y mod 4 = 0)); [dlia|]. exfalso; apply Hne. f_equal. dlia.
Qed.

(** No kernel runs for ever or gets stuck. *)
Definition kernels_end (d : store) : Prop :=
  (forall b, b ∈ pairs2 (labBlocks im).1 (labBlocks im).2 -> block_ends b undef) /\
  forall d1, BlockLabel2D undef im d d1 ->
  Ends d1 (y_thread undef im <$> grid2 (redBlocksY im)) /\ forall d2, YLabelReduction2D undef im d1 d2 ->
  Ends d2 (x_thread undef im <$> grid2 (redBlocksX im)) /\ forall d3, XLabelReduction2D undef im d2 d3 ->
  Ends d3 (resolve_thread im <$> grid2 (labBlocks im)).

Lemma kernels_finish d : kernels_end d /\ exists d', label_kernels undef im d d'.
Proof.
  assert (Hend : kernels_end d).
  { split; [intros b Hb%elem_of_labBlocks; by apply block_spec|]. intros d1 R1. destruct (blocks_kernel d d1 R1) as (Hf1 & Hc1 & _).
    destruct (y_kernel d1 Hf1 Hc1) as [E1 H2]. split; [done|]. intros d2 R2. destruct (H2 _ R2) as (Hf2 & _ & Hc2).
    destruct (x_kernel d2 Hf2 Hc2) as [E2 H3]. split; [done|]. intros d3 R3. destruct (H3 _ R3) as (Hf3 & _ & _).
    by apply resolve_kernel. }
  split; [done|]. destruct Hend as [_ Hend]. destruct (blocks_exist d) as [d1 R1]. destruct (Hend d1 R1) as [(d2 & rs2 & R2)%Ends_run H2].
  destruct (H2 d2) as [(d3 & rs3 & R3)%Ends_run H3]; [by exists rs2|].
  assert (E3 : Ends d3 (resolve_thread im <$> grid2 (labBlocks im))) by (apply H3; by exists rs3).
  apply Ends_run in E3 as (d' & rs & R).
  exists d', d1, d2, d3. split; [done|]. split; [by exists rs2|]. split; [by exists rs3|by exists rs].
Qed.

Lemma kernels_least d d' : label_kernels undef im d d' ->
  (forall p, in_image im p -> least_label p (d' (offset im p))) /\ forall i, ~ valid i -> d' i = d i.
Proof.
  intros (d1 & d2 & d3 & R1 & R2 & R3 & R').
  destruct (blocks_kernel d d1 R1) as (Hf1 & Hc1 & Ho1).
  destruct (proj2 (y_kernel d1 Hf1 Hc1) _ R2) as (Hf2 & Ho2 & Hc2).
  destruct (proj2 (x_kernel d2 Hf2 Hc2) _ R3) as (Hf3 & Ho3 & Hc3).
  destruct (proj2 (resolve_kernel d3 Hf3) _ R') as [Hd' Ho'].
  split; [|intros i Hi; by rewrite Ho', Ho3, Ho2, Ho1].
  intros p Hp. rewrite Hd' by done. apply (g_least_root image_grid image_grid_ok); [done| |done].
  etrans; [exact Hc3|]. apply all_edges.
Qed.

Lemma connected_image p q : in_image im p -> connected im p q -> in_image im q.
Proof. apply (g_connected_img image_grid image_grid_ok). Qed.
End Connect.

(** C7: the four labelling kernels, whatever the order in which the threads of a
    block take their steps between two barriers, and the blocks theirs, and whatever
    the shared memory and the labels hold at first: no run goes on for ever and each
    goes on to the end of the last kernel; then each pixel has the least offset among
    the pixels of its connected component, and nothing outside the image is written. *)
Theorem labels_are_components (undef : Z -> Z) (im : Sample) (d : store) (Him : sample_ok im) :
  (kernels_end im undef d /\ exists d', label_kernels undef im d d') /\
  forall d', label_kernels undef im d d' ->
    (forall p, in_image im p -> least_label im p (d' (offset im p))) /\ forall i, ~ valid im i -> d' i = d i.
Proof. split; [by apply kernels_finish|]. intros d'. by apply kernels_least. Qed.

(** After the kernels two pixels have one label exactly when they are connected. *)
Theorem same_label_connected (undef : Z -> Z) (im : Sample) (d d' : store) (p q : Z * Z) (Him : sample_ok im)
    (Hrun : label_kernels undef im d d') (Hp : in_image im p) (Hq : in_image im q) :
  d' (offset im p) = d' (offset im q) <-> connected im p q.
Proof.
  destruct (kernels_least im Him undef d d' Hrun) as [H _].
  by apply (g_least_same (image_grid im) (image_grid_ok im Him)); [..|apply H|apply H].
Qed.

(** ** A sample *)

Definition run_then {A B} (ts : list (prog A)) (s : store) (f : store -> list A -> option B) : option B :=
  match run_seq ts s with Some (s', rs) => f s' rs | None => None end.

Lemma run_then_Runs {A B} (ts : list (prog A)) s (f : store -> list A -> option B) b : run_then ts s f = Some b ->
  exists s' rs, Runs s ts s' rs /\ f s' rs = Some b.
Proof.
  unfold run_then. destruct (run_seq ts s) as [[s' rs]|] eqn:E; [|done]. intros H. exists s', rs.
  split; [by apply run_seq_Runs|done].
Qed.

(** The threads in the order of their numbers, the blocks likewise. *)
Definition block_seq (undef : Z -> Z) (im : Sample) (b : Z * Z) : option (list (Z * Z)) :=
  run_then (block_init undef im b <$> block_tids) (fun _ => 0) (fun s1 _ =>
  run_then (block_find undef im b <$> block_tids) s1 (fun s2 _ =>
  run_then (block_reduce undef im b <$> block_tids) s2 (fun s3 rs =>
  run_then (zip_with (block_store im b) block_tids rs) s3 (fun _ rs => Some (concat rs))))).

Fixpoint blocks_seq (undef : Z -> Z) (im : Sample) (bs : list (Z * Z)) : option (list (list (Z * Z))) :=
  match bs with
  | [] => Some []
  | b :: bs =>
      match block_seq undef im b, blocks_seq undef im bs with
      | Some ws, Some outs => Some (ws :: outs)
      | _, _ => None
      end
  end.

Definition label_seq (undef : Z -> Z) (im : Sample) (d : store) : option store :=
  match blocks_seq undef im (pairs2 (labBlocks im).1 (labBlocks im).2) with
  | None => None
  | Some outs =>
      run_then (y_thread undef im <$> grid2 (redBlocksY im)) (store_all (concat outs) d) (fun d2 _ =>
      run_then (x_thread undef im <$> grid2 (redBlocksX im)) d2 (fun d3 _ =>
      run_then (resolve_thread im <$> grid2 (labBlocks im)) d3 (fun d' _ => Some d')))
  end.

Lemma block_seq_runs undef im b ws : block_seq undef im b = Some ws -> block_runs undef im b ws.
Proof.
  intros (s1 & rs1 & R1 & (s2 & rs2 & R2 & (s3 & rs3 & R3 & (s4 & rs4 & R4 & [= <-])%run_then_Runs)%run_then_Runs)%run_then_Runs)%run_then_Runs.
  by eapply block_run.
Qed.

Lemma blocks_seq_runs undef im bs outs : blocks_seq undef im bs = Some outs -> Forall2 (block_runs undef im) bs outs.
Proof.
  revert outs; induction bs as [|b bs IH]; intros outs H; cbn in H; [simplify_eq; constructor|].
  destruct (block_seq undef im b) as [ws|] eqn:E1; [|done].
  destruct (blocks_seq undef im bs) as [outs'|] eqn:E2; [|done]. simplify_eq.
  constructor; [by apply block_seq_runs|auto].
Qed.

Lemma label_seq_kernels undef im d d' : label_seq undef im d = Some d' -> label_kernels undef im d d'.
Proof.
  unfold label_seq. destruct (blocks_seq undef im _) as [outs|] eqn:E; [|done].
  intros (d2 & rs2 & R2 & (d3 & rs3 & R3 & (d4 & rs4 & R4 & [= <-])%run_then_Runs)%run_then_Runs)%run_then_Runs.
  exists (store_all (concat outs) d), d2, d3. split; [|split; [by exists rs2|split; [by exists rs3|by exists rs4]]].
  apply block_label with (outs := outs); [by apply blocks_seq_runs|done].
Qed.

Module Concrete.

(** Pixels given by rows. *)
Definition rows (l : list (list Z)) (y x : Z) : Z := (l !!! Z.to_nat y) !!! Z.to_nat x.

Definition picture : list (list Z) := [[0; 0; 0; 0]; [1; 1; 0; 1]; [0; 0; 0; 1]; [0; 1; 1; 1]].
Definition image : Sample := MkSample 4 4 (rows picture) None None 16.

Definition labels_of (im : Sample) (d : store) : list (list Z) :=
  (fun y => (fun x => d (offset im (y, x))) <$> zrange 0 (size_x im)) <$> zrange 0 (size_y im).

(** The example of [cvcuda/OpLabel.h]. *)
Example label_picture :
  (labels_of image <$> label_seq (fun _ => 9) image (fun _ => 77)) =
  Some [[0; 0; 0; 0]; [4; 4; 0; 7]; [0; 0; 0; 7]; [0; 7; 7; 7]].
Proof. vm_compute. reflexivity. Qed.

(** Blocks that meet: a ring around a hole, two blocks wide and two high. *)
Definition ring (y x : Z) : Z := if (y =? 0) || (y =? 5) || (x =? 0) || (x =? 33) then 9 else 4.
Definition wide : Sample := MkSample 34 6 ring (Some 5) None 144.

Example label_ring :
  (labels_of wide <$> label_seq (fun _ => 9) wide (fun _ => 77)) =
  Some ((fun y => (fun x => if ring y x =? 9 then 0 else 37) <$> zrange 0 34) <$> zrange 0 6).
Proof. vm_compute. reflexivity. Qed.

Example ring_corners :
  (fun d => (d (offset wide (0, 0)), d (offset wide (5, 33)), d (offset wide (1, 1)))) <$> label_seq (fun _ => 9) wide (fun _ => 77)
  = Some (0, 0, 37).
Proof. vm_compute. reflexivity. Qed.

Lemma corners_read (o : option store) :
  (fun d => (d (offset wide (0, 0)), d (offset wide (5, 33)), d (offset wide (1, 1)))) <$> o = Some (0, 0, 37) ->
  forall d', o = Some d' -> d' (offset wide (0, 0)) = 0 /\ d' (offset wide (5, 33)) = 0 /\ d' (offset wide (1, 1)) = 37.
Proof. intros H d' ->. by injection H. Qed.

Lemma wide_ok : sample_ok wide.
Proof. split; cbn; try lia. by exists 36. Defined.

Lemma labels_are_components_witness :
  (kernels_end wide (fun _ => 9) (fun _ => 77) /\ exists d', label_kernels (fun _ => 9) wide (fun _ => 77) d') /\
  forall d', label_kernels (fun _ => 9) wide (fun _ => 77) d' -> forall i, ~ valid wide i -> d' i = 77.
Proof.
  destruct (labels_are_components (fun _ => 9) wide (fun _ => 77) wide_ok) as [Hex H].
  split; [exact Hex|]. intros d' Hd. exact (proj2 (H d' Hd)).
Defined.

Lemma same_label_connected_witness : connected wide (0, 0) (5, 33) /\ ~ connected wide (0, 0) (1, 1).
Proof.
  destruct (label_seq (fun _ => 9) wide (fun _ => 77)) as [d'|] eqn:E; [|exfalso; pose proof ring_corners as H; rewrite E in H; discriminate H].
  assert (Ha : d' (offset wide (0, 0)) = 0 /\ d' (offset wide (5, 33)) = 0 /\ d' (offset wide (1, 1)) = 37).
  { exact (corners_read _ ring_corners d' E). }
  apply label_seq_kernels in E.
  assert (Hin : forall y x, 0 <= y < 6 -> 0 <= x < 34 -> in_image wide (y, x)) by (intros; done).
  destruct Ha as (H0 & H1 & H2). split.
  - apply (same_label_connected (fun _ => 9) wide (fun _ => 77) d' (0, 0) (5, 33) wide_ok E); [by apply Hin|by apply Hin|congruence].
  - intros Hc. apply (same_label_connected (fun _ => 9) wide (fun _ => 77) d' (0, 0) (1, 1) wide_ok E) in Hc; [congruence|by apply Hin|by apply Hin].
Defined.
End Concrete.
