(* ===== verification/LabelVolume.v ===== *)
(** * The labelling kernels of Label on volumes ([cvcuda/priv/OpLabel.cu])

    [BlockLabel3D], [ZLabelReduction3D], [YLabelReduction3D], [XLabelReduction3D],
    [ResolveLabels3D] and their launches. A block goes through the samples one after
    the other with the same shared labels; between two samples it does not meet at
    [__syncthreads]. *)
From S2P Require Import Prelude MathUtil LabelMachine LabelForest LabelKernel.
From stdpp Require Import relations functions.
From stdpp Require Import options.

#[local] Open Scope Z_scope.
#[local] Open Scope prog_scope.

Definition BD : Z := 2.

(** [dim3], also the place of a voxel. *)
Record dim3 := Dim3 { d_x : Z; d_y : Z; d_z : Z }.
#[export] Instance dim3_eq_dec : EqDecision dim3.
Proof. solve_decision. Defined.

Definition triples (n : dim3) : list dim3 :=
  zrange 0 (d_z n) ≫= fun z => (fun p => Dim3 p.1 p.2 z) <$> pairs2 (d_x n) (d_y n).

Definition larThreads : dim3 := Dim3 BW BH BD.

Record gthread3 := MkGThread3 { blockIdx3 : dim3; threadIdx3 : dim3 }.

Definition grid3 (blocks : dim3) : list gthread3 :=
  triples blocks ≫= fun b => MkGThread3 b <$> triples larThreads.

(** The threads of a block by their numbers: 32 consecutive ones are a warp. *)
Definition tc3 (i : Z) : dim3 := Dim3 (i mod BW) (i / BW mod BH) (i / (BW * BH)).
Definition tid (t : dim3) : Z := d_z t * BW * BH + d_y t * BW + d_x t.

(** One sample: its size, its voxels by depth, row and column, its thresholds, the
    pitches of the labels in bytes. *)
Record Volume := MkVolume {
  shape_x : Z; shape_y : Z; shape_z : Z;
  vsrc : Z -> Z -> Z -> Z;
  vminThresh : option Z; vmaxThresh : option Z;
  vdst_strides1 : Z; vdst_strides2 : Z
}.

Section Kernels.
Variables (undef : Z -> Z) (im : Volume).

Definition voxel (z y x : Z) : Z := thresh (vminThresh im) (vmaxThresh im) (vsrc im z y x).
Definition vdstStrideD : Z := vdst_strides1 im / 4.
Definition vdstStrideH : Z := vdst_strides2 im / 4.

(** The index of [dst.ptr(w, z, y, x)] among the labels of its sample. *)
Definition vdst_at (z y x : Z) : Z := i32 (z * vdst_strides1 im + y * vdst_strides2 im + x * 4) / 4.

Definition in_shape (gz gy gx : Z) : bool := (gx <? shape_x im) && (gy <? shape_y im) && (gz <? shape_z im).

(** ** BlockLabel3D, on one sample *)

Section Block.
Variable blockIdx : dim3.

Definition bgc_x (i : Z) : Z := i32 (d_x blockIdx * BW + d_x (tc3 i)).
Definition bgc_y (i : Z) : Z := i32 (d_y blockIdx * BH + d_y (tc3 i)).
Definition bgc_z (i : Z) : Z := i32 (d_z blockIdx * BD + d_z (tc3 i)).
Definition inside_block3 (i : Z) : bool := in_shape (bgc_z i) (bgc_y i) (bgc_x i).

Definition pzyx (i : Z) : Z := voxel (bgc_z i) (bgc_y i) (bgc_x i).
Definition pzym1x (i : Z) : Z := if 0 <? d_y (tc3 i) then voxel (bgc_z i) (bgc_y i - 1) (bgc_x i) else 0.
Definition pzm1yx (i : Z) : Z := if 0 <? d_z (tc3 i) then voxel (bgc_z i - 1) (bgc_y i) (bgc_x i) else 0.
Definition pzm1ym1x (i : Z) : Z :=
  if (0 <? d_z (tc3 i)) && (0 <? d_y (tc3 i)) then voxel (bgc_z i - 1) (bgc_y i - 1) (bgc_x i) else 0.
Definition pzyxm1 (i : Z) : Z := shfl_up undef inside_block3 pzyx i.
Definition pzym1xm1 (i : Z) : Z := shfl_up undef inside_block3 pzym1x i.
Definition pzm1yxm1 (i : Z) : Z := shfl_up undef inside_block3 pzm1yx i.

Definition nzm1yx (i : Z) : bool := (0 <? d_z (tc3 i)) && (pzyx i =? pzm1yx i).
Definition nzym1x (i : Z) : bool := (0 <? d_y (tc3 i)) && (pzyx i =? pzym1x i).
Definition nzyxm1 (i : Z) : bool := (0 <? d_x (tc3 i)) && (pzyx i =? pzyxm1 i).
Definition nzym1xm1 (i : Z) : bool := (0 <? d_y (tc3 i)) && (0 <? d_x (tc3 i)) && (pzyx i =? pzym1xm1 i).
Definition nzm1yxm1 (i : Z) : bool := (0 <? d_z (tc3 i)) && (0 <? d_x (tc3 i)) && (pzyx i =? pzm1yxm1 i).
Definition nzm1ym1x (i : Z) : bool := (0 <? d_z (tc3 i)) && (0 <? d_y (tc3 i)) && (pzyx i =? pzm1ym1x i).

Definition own3 (i : Z) : Z := d_z (tc3 i) * BW * BH + d_y (tc3 i) * BW + d_x (tc3 i).

Definition label3 (i : Z) : Z :=
  let t := tc3 i in
  let label := if nzyxm1 i then d_z t * BW * BH + d_y t * BW + (d_x t - 1) else d_z t * BW * BH + d_y t * BW + d_x t in
  let label := if nzym1x i then d_z t * BW * BH + (d_y t - 1) * BW + d_x t else label in
  if nzm1yx i then (d_z t - 1) * BW * BH + d_y t * BW + d_x t else label.

(** What a thread does from one barrier to the next. *)
Definition block3_init (i : Z) : prog Z :=
  if inside_block3 i then Write (own3 i) (label3 i) (Ret (label3 i)) else Ret 0.

Definition block3_find (i : Z) : prog Z :=
  if inside_block3 i then r ⇐ FindRoot (label3 i); Write (own3 i) r (Ret (label3 i)) else Ret 0.

Definition reduce_y (i : Z) : prog Z :=
  if inside_block3 i && (nzym1x i && nzm1yx i && negb (nzm1ym1x i))
  then Read (d_z (tc3 i) * BW * BH + (d_y (tc3 i) - 1) * BW + d_x (tc3 i)) (fun label2 => Reduction (label3 i) label2)
  else Ret 0.

Definition reduce_x (i : Z) : prog Z :=
  if inside_block3 i && (nzyxm1 i && ((nzm1yx i && negb (nzm1yxm1 i)) || (nzym1x i && negb (nzym1xm1 i))))
  then Read (d_z (tc3 i) * BW * BH + d_y (tc3 i) * BW + d_x (tc3 i) - 1) (fun label2 => Reduction (label3 i) label2)
  else Ret 0.

Definition block3_reduce (i : Z) : prog Z := _ ⇐ reduce_y i; reduce_x i.

Definition block3_store (i : Z) : prog (list (Z * Z)) :=
  if inside_block3 i then
    Read (own3 i) (fun label =>
      label ⇐ FindRoot label;
      let lx := label mod BW in
      let ly := (label / BW) mod BH in
      let lz := (label / (BW * BH)) mod BD in
      Ret [(vdst_at (bgc_z i) (bgc_y i) (bgc_x i),
            u32 ((d_z blockIdx * BD + lz) * vdstStrideD + (d_y blockIdx * BH + ly) * vdstStrideH + d_x blockIdx * BW + lx))])
  else Ret [].
End Block.

Definition block_tids3 : list Z := zrange 0 (BW * BH * BD).
Definition labBlocks3 : dim3 := Dim3 (DivUp (shape_x im) BW) (DivUp (shape_y im) BH) (DivUp (shape_z im) BD).

(** ** The reductions across blocks, on one sample *)

Definition sibling3 (th : gthread3) (i : Z) : gthread3 := MkGThread3 (blockIdx3 th) (tc3 i).

(** The value the lane below has. *)
Definition shfl3 (runs_on : gthread3 -> bool) (th : gthread3) (v : gthread3 -> Z) : Z :=
  shfl_up undef (fun i => runs_on (sibling3 th i)) (fun i => v (sibling3 th i)) (tid (threadIdx3 th)).

Section ZLabel.
Definition z_gc (th : gthread3) : dim3 :=
  let b := blockIdx3 th in let t := threadIdx3 th in
  Dim3 (i32 (d_x b * BW + d_x t)) (i32 (d_y b * BH + d_y t)) (i32 ((d_z b * BD + d_z t) * BD + BD)).
Definition z_runs_on3 (th : gthread3) : bool := in_shape (d_z (z_gc th)) (d_y (z_gc th)) (d_x (z_gc th)).

Definition z_unites3 (th : gthread3) : bool :=
  let gc := z_gc th in
  let thread_x := d_x gc mod BW =? 0 in
  let thread_y := d_y gc mod BH =? 0 in
  let pzyx th := voxel (d_z (z_gc th)) (d_y (z_gc th)) (d_x (z_gc th)) in
  let pzm1yx th := voxel (d_z (z_gc th) - 1) (d_y (z_gc th)) (d_x (z_gc th)) in
  let nzym1x := if thread_y then false else pzyx th =? voxel (d_z gc) (d_y gc - 1) (d_x gc) in
  let nzm1ym1x := if thread_y then false else pzyx th =? voxel (d_z gc - 1) (d_y gc - 1) (d_x gc) in
  (pzyx th =? pzm1yx th)
  && ((thread_x || negb (pzyx th =? shfl3 z_runs_on3 th pzyx) || negb (pzyx th =? shfl3 z_runs_on3 th pzm1yx))
      && (negb nzym1x || negb nzm1ym1x)).

Definition z_thread3 (th : gthread3) : prog Z :=
  let gc := z_gc th in
  if negb (z_runs_on3 th) then Ret 0 else
  if z_unites3 th
  then unite_with (vdst_at (d_z gc) (d_y gc) (d_x gc)) (vdst_at (d_z gc - 1) (d_y gc) (d_x gc))
  else Ret 0.

Definition redBlocksZ3 : dim3 :=
  Dim3 (DivUp (shape_x im) BW) (DivUp (shape_y im) BH) (DivUp (d_z labBlocks3) BD).

Definition ZLabelReduction3D (d d' : store) : Prop := exists rs, Runs d (z_thread3 <$> grid3 redBlocksZ3) d' rs.
End ZLabel.

Section YLabel.
Definition y_gc (th : gthread3) : dim3 :=
  let b := blockIdx3 th in let t := threadIdx3 th in
  Dim3 (i32 (d_x b * BW + d_x t)) (i32 ((d_z b * BD + d_z t) * BH + BH)) (i32 (d_y b * BH + d_y t)).
Definition y_runs_on3 (th : gthread3) : bool := in_shape (d_z (y_gc th)) (d_y (y_gc th)) (d_x (y_gc th)).

Definition y_unites3 (th : gthread3) : bool :=
  let gc := y_gc th in
  let thread_x := d_x gc mod BW =? 0 in
  let thread_z := d_z gc mod BD =? 0 in
  let pzyx th := voxel (d_z (y_gc th)) (d_y (y_gc th)) (d_x (y_gc th)) in
  let pzym1x th := voxel (d_z (y_gc th)) (d_y (y_gc th) - 1) (d_x (y_gc th)) in
  let nzm1yx := if thread_z then false else pzyx th =? voxel (d_z gc - 1) (d_y gc) (d_x gc) in
  let nzm1ym1x := if thread_z then false else pzyx th =? voxel (d_z gc - 1) (d_y gc - 1) (d_x gc) in
  (pzyx th =? pzym1x th)
  && ((negb nzm1yx || negb nzm1ym1x)
      && (thread_x || negb (pzyx th =? shfl3 y_runs_on3 th pzyx) || negb (pzyx th =? shfl3 y_runs_on3 th pzym1x))).

Definition y_thread3 (th : gthread3) : prog Z :=
  let gc := y_gc th in
  if negb (y_runs_on3 th) then Ret 0 else
  if y_unites3 th
  then unite_with (vdst_at (d_z gc) (d_y gc) (d_x gc)) (vdst_at (d_z gc) (d_y gc - 1) (d_x gc))
  else Ret 0.

Definition redBlocksY3 : dim3 :=
  Dim3 (DivUp (shape_x im) BW) (DivUp (shape_z im) BH) (DivUp (d_y labBlocks3) BD).

Definition YLabelReduction3D (d d' : store) : Prop := exists rs, Runs d (y_thread3 <$> grid3 redBlocksY3) d' rs.
End YLabel.

Section XLabel.
Definition x_gc (th : gthread3) : dim3 :=
  let b := blockIdx3 th in let t := threadIdx3 th in
  Dim3 (i32 ((d_z b * BD + d_z t) * BW + BW)) (i32 (d_y b * BH + d_y t)) (i32 (d_x b * BW + d_x t)).
Definition x_runs_on3 (th : gthread3) : bool := in_shape (d_z (x_gc th)) (d_y (x_gc th)) (d_x (x_gc th)).

Definition x_unites3 (th : gthread3) : bool :=
  let gc := x_gc th in
  let thread_y := d_y gc mod BH =? 0 in
  let thread_z := d_z gc mod BD =? 0 in
  let pzyx th := voxel (d_z (x_gc th)) (d_y (x_gc th)) (d_x (x_gc th)) in
  let pzyxm1 th := voxel (d_z (x_gc th)) (d_y (x_gc th)) (d_x (x_gc th) - 1) in
  let nzym1x := if thread_y then false else pzyx th =? voxel (d_z gc) (d_y gc - 1) (d_x gc) in
  let nzym1xm1 := if thread_y then false else pzyx th =? voxel (d_z gc) (d_y gc - 1) (d_x gc - 1) in
  (pzyx th =? pzyxm1 th)
  && ((thread_z || negb (pzyx th =? shfl3 x_runs_on3 th pzyx) || negb (pzyx th =? shfl3 x_runs_on3 th pzyxm1))
      && (negb nzym1x || negb nzym1xm1)).

Definition x_thread3 (th : gthread3) : prog Z :=
  let gc := x_gc th in
  if negb (x_runs_on3 th) then Ret 0 else
  if x_unites3 th
  then unite_with (vdst_at (d_z gc) (d_y gc) (d_x gc)) (vdst_at (d_z gc) (d_y gc) (d_x gc - 1))
  else Ret 0.

Definition redBlocksX3 : dim3 :=
  Dim3 (DivUp (shape_z im) BW) (DivUp (shape_y im) BH) (DivUp (d_x labBlocks3) BD).

Definition XLabelReduction3D (d d' : store) : Prop := exists rs, Runs d (x_thread3 <$> grid3 redBlocksX3) d' rs.
End XLabel.

(** ** ResolveLabels3D *)

Definition lab_gc3 (th : gthread3) : dim3 :=
  let b := blockIdx3 th in let t := threadIdx3 th in
  Dim3 (i32 (d_x b * BW + d_x t)) (i32 (d_y b * BH + d_y t)) (i32 (d_z b * BD + d_z t)).

Definition resolve_thread3 (th : gthread3) : prog Z :=
  let gc := lab_gc3 th in
  if negb (in_shape (d_z gc) (d_y gc) (d_x gc)) then Ret 0 else
  let at_ := vdst_at (d_z gc) (d_y gc) (d_x gc) in
  Read at_ (fun label => r ⇐ FindRoot label; Write at_ r (Ret 0)).

Definition ResolveLabels3D (d d' : store) : Prop := exists rs, Runs d (resolve_thread3 <$> grid3 labBlocks3) d' rs.
End Kernels.

(** ** BlockLabel3D, through the samples *)

Section Samples.
Variables (undef : Z -> Z) (blockIdx : dim3).

(** A thread that has stored a label of one sample starts on the next. *)
Definition store_then_init (im im' : Volume) (i : Z) : prog (list (Z * Z)) :=
  out ⇐ block3_store im blockIdx i; _ ⇐ block3_init undef im' blockIdx i; Ret out.

(** From the barrier behind the first labels of a sample on: what is stored for it
    and for each of the samples that follow. *)
Inductive block3_loop : list Volume -> store -> list (list (Z * Z)) -> Prop :=
  | loop_last im s1 s2 s3 s4 rs2 rs3 rs4 :
      Runs s1 (block3_find undef im blockIdx <$> block_tids3) s2 rs2 ->
      Runs s2 (block3_reduce undef im blockIdx <$> block_tids3) s3 rs3 ->
      Runs s3 (block3_store im blockIdx <$> block_tids3) s4 rs4 ->
      block3_loop [im] s1 [concat rs4]
  | loop_next im im' ims s1 s2 s3 s4 rs2 rs3 rs4 outs :
      Runs s1 (block3_find undef im blockIdx <$> block_tids3) s2 rs2 ->
      Runs s2 (block3_reduce undef im blockIdx <$> block_tids3) s3 rs3 ->
      Runs s3 (store_then_init im im' <$> block_tids3) s4 rs4 ->
      block3_loop (im' :: ims) s4 outs ->
      block3_loop (im :: im' :: ims) s1 (concat rs4 :: outs).

Inductive block3_runs : list Volume -> list (list (Z * Z)) -> Prop :=
  | block3_none : block3_runs [] []
  | block3_some im ims s0 s1 rs1 outs :
      Runs s0 (block3_init undef im blockIdx <$> block_tids3) s1 rs1 ->
      block3_loop (im :: ims) s1 outs ->
      block3_runs (im :: ims) outs.
End Samples.

(** The stores of all the blocks, in any order, sample by sample. *)
Inductive BlockLabel3D (undef : Z -> Z) (blocks : dim3) (ims : list Volume) (ds : list store) : list store -> Prop :=
  | block_label3 outs wss :
      Forall2 (fun b out => block3_runs undef b ims out) (triples blocks) outs ->
      length wss = length ds ->
      (forall w ws, wss !! w = Some ws -> ws ≡ₚ concat ((fun out => default [] (out !! w)) <$> outs)) ->
      BlockLabel3D undef blocks ims ds (zip_with store_all wss ds).

(** The kernels for one sample, one after the other on the stream. *)
Definition label_kernels3 (undef : Z -> Z) (im : Volume) (d d' : store) : Prop :=
  exists d1 d2 d3 d4, BlockLabel3D undef (labBlocks3 im) [im] [d] [d1] /\ ZLabelReduction3D undef im d1 d2 /\
    YLabelReduction3D undef im d2 d3 /\ XLabelReduction3D undef im d3 d4 /\ ResolveLabels3D im d4 d'.
