(* ===== verification/LabelVolumeProps.v ===== *)
(** * The labels of a volume are its connected components ([cvcuda/priv/OpLabel.cu])

    Whatever the order of the threads, the five kernels leave at each voxel the least
    offset of the voxels its component has, when the call is for one sample; with
    more, the threads of a block that are at the next sample already may spoil the
    labels others still have to read. *)
From S2P Require Import Prelude MathUtil LabelMachine LabelForest LabelKernel LabelGrid LabelConnect LabelVolume.
From stdpp Require Import relations functions.
From stdpp Require Import options.

#[local] Open Scope Z_scope.
#[local] Open Scope prog_scope.
#[local] Set Default Proof Using "Type*".
#[local] Ltac dlia :=
  repeat match goal with f : Z -> Z |- _ => clear f end; Z.to_euclidean_division_equations; lia.

(** ** What a volume is, and the components of its voxels *)

(** A nonempty volume whose rows of labels, and layers of rows, follow one another
    within [int] bytes. *)
Record volume_ok (im : Volume) : Prop := {
  vo_x : 0 < shape_x im;
  vo_y : 0 < shape_y im;
  vo_z : 0 < shape_z im;
  vo_pitch : (4 | vdst_strides2 im);
  vo_layer : (4 | vdst_strides1 im);
  vo_row : 4 * shape_x im <= vdst_strides2 im;
  vo_rows : shape_y im * vdst_strides2 im <= vdst_strides1 im;
  vo_bytes : shape_z im * vdst_strides1 im < 2 ^ 31;
}.

Definition in_volume (im : Volume) (p : dim3) : Prop :=
  0 <= d_x p < shape_x im /\ 0 <= d_y p < shape_y im /\ 0 <= d_z p < shape_z im.
Definition vvalue (im : Volume) (p : dim3) : Z := voxel im (d_z p) (d_y p) (d_x p).

(** One step back along an axis, the coordinate there, the extent of a block. *)
Inductive axis := AX | AY | AZ.
#[export] Instance axis_eq_dec : EqDecision axis.
Proof. solve_decision. Defined.
Definition back (a : axis) (p : dim3) : dim3 :=
  match a with
  | AX => Dim3 (d_x p - 1) (d_y p) (d_z p)
  | AY => Dim3 (d_x p) (d_y p - 1) (d_z p)
  | AZ => Dim3 (d_x p) (d_y p) (d_z p - 1)
  end.
Definition coord (a : axis) (p : dim3) : Z := match a with AX => d_x p | AY => d_y p | AZ => d_z p end.
Definition width (a : axis) : Z := coord a larThreads.

(** Two voxels that share a face and a value. *)
Definition vadjacent (im : Volume) (p q : dim3) : Prop :=
  in_volume im p /\ in_volume im q /\ vvalue im p = vvalue im q /\ exists a, q = back a p.
Definition vconnected (im : Volume) : relation dim3 := rtsc (vadjacent im).

(** The label of a voxel: its offset from the first, in elements. *)
Definition voffset (im : Volume) (p : dim3) : Z := d_z p * vdstStrideD im + d_y p * vdstStrideH im + d_x p.

Lemma back_comm a l p : back a (back l p) = back l (back a p).
Proof. by destruct a, l. Qed.
Lemma coord_back a p : coord a (back a p) = coord a p - 1.
Proof. by destruct a. Qed.
Lemma coord_back_ne a l p : a <> l -> coord a (back l p) = coord a p.
Proof. by destruct a, l. Qed.

(** ** Places of the threads of a block *)

Definition vplace (b : dim3) (i : Z) : dim3 :=
  Dim3 (d_x b * 32 + i mod 32) (d_y b * 4 + i / 32 mod 4) (d_z b * 2 + i / 128).
Definition vblk (p : dim3) : dim3 := Dim3 (d_x p / 32) (d_y p / 4) (d_z p / 2).
Definition vidx (p : dim3) : Z := d_z p mod 2 * 128 + d_y p mod 4 * 32 + d_x p mod 32.
(** One step back along an axis, in the numbers of a block. *)
Definition hop (a : axis) : Z := match a with AX => 1 | AY => 32 | AZ => 128 end.

Lemma own3_id i : own3 i = i.
Proof. unfold own3, tc3, BW, BH; cbn. dlia. Qed.

Lemma tc3_hop a i : 0 < coord a (tc3 i) -> tc3 (i - hop a) = back a (tc3 i).
Proof. unfold tc3, BW, BH. destruct a; cbn; intros H; f_equal; dlia. Qed.

Lemma hop_range a i : 0 <= i < 256 -> 0 < coord a (tc3 i) -> 0 <= i - hop a < 256.
Proof. unfold tc3, BW, BH. intros Hi. destruct a; cbn; intros H; dlia. Qed.

Lemma tc3_bound i : 0 <= i < 256 -> 0 <= d_x (tc3 i) < 32 /\ 0 <= d_y (tc3 i) < 4 /\ 0 <= d_z (tc3 i) < 2.
Proof. intros Hi. unfold tc3, BW, BH; cbn. dlia. Qed.

Lemma vplace_coord b a i : coord a (vplace b i) = coord a b * width a + coord a (tc3 i).
Proof. by destruct a. Qed.

Lemma vplace_hop b a i : 0 < coord a (tc3 i) -> vplace b (i - hop a) = back a (vplace b i).
Proof. unfold vplace, tc3, BW, BH. destruct a; cbn; intros H; f_equal; dlia. Qed.

Lemma elem_of_triples n t : t ∈ triples n <-> 0 <= d_x t < d_x n /\ 0 <= d_y t < d_y n /\ 0 <= d_z t < d_z n.
Proof.
  destruct t as [x y z]. unfold triples. rewrite list_elem_of_bind. split.
  - intros (z' & H & Hz%elem_of_zrange). apply list_elem_of_fmap in H as ([x' y'] & [= -> -> ->] & [Hx Hy]%elem_of_pairs2). done.
  - intros (Hx & Hy & Hz). exists z. split; [|by apply elem_of_zrange].
    apply list_elem_of_fmap. exists (x, y). split; [done|by apply elem_of_pairs2].
Qed.

Lemma elem_of_grid3 blocks th : th ∈ grid3 blocks <->
  (0 <= d_x (blockIdx3 th) < d_x blocks /\ 0 <= d_y (blockIdx3 th) < d_y blocks /\ 0 <= d_z (blockIdx3 th) < d_z blocks) /\
  (0 <= d_x (threadIdx3 th) < 32 /\ 0 <= d_y (threadIdx3 th) < 4 /\ 0 <= d_z (threadIdx3 th) < 2).
Proof.
  unfold grid3. rewrite list_elem_of_bind. split.
  - intros (b & Hth & Hb). apply list_elem_of_fmap in Hth as (t & -> & Ht). by apply elem_of_triples in Hb, Ht.
  - intros [Hb Ht]. exists (blockIdx3 th). split; [|by apply elem_of_triples].
    apply list_elem_of_fmap. exists (threadIdx3 th). split; [by destruct th|by apply elem_of_triples].
Qed.

(** The thread one lane below. *)
Definition lane_below (th : gthread3) : gthread3 := MkGThread3 (blockIdx3 th) (back AX (threadIdx3 th)).

Lemma sibling3_below blocks th : th ∈ grid3 blocks -> 0 < d_x (threadIdx3 th) ->
  sibling3 th (tid (threadIdx3 th) - 1) = lane_below th /\ lane_below th ∈ grid3 blocks.
Proof.
  intros Hth H. pose proof Hth as [Hb (Hx & Hy & Hz)]%elem_of_grid3. split.
  - unfold sibling3, lane_below. f_equal. destruct th as [b [x y z]]. unfold tc3, tid, BW, BH in *; cbn in *. f_equal; dlia.
  - apply elem_of_grid3. unfold lane_below; cbn. lia.
Qed.

Lemma shfl3_below undef runs_on blocks th v : th ∈ grid3 blocks -> 0 < d_x (threadIdx3 th) -> runs_on (lane_below th) = true ->
  shfl3 undef runs_on th v = v (lane_below th).
Proof.
  intros Hth H Hr. destruct (sibling3_below _ _ Hth H) as [E _]. pose proof Hth as [_ (Hx & Hy & Hz)]%elem_of_grid3.
  unfold shfl3, shfl_up. cbv beta. rewrite E, Hr. unfold warpSize, tid, BW, BH.
  by replace ((d_z (threadIdx3 th) * 32 * 4 + d_y (threadIdx3 th) * 32 + d_x (threadIdx3 th)) mod 32 <? 1) with false by dlia.
Qed.

Section Volumes.
Variable im : Volume.
Hypothesis Him : volume_ok im.

Lemma vstride_bytes : vdst_strides1 im = 4 * vdstStrideD im /\ vdst_strides2 im = 4 * vdstStrideH im /\
  shape_x im <= vdstStrideH im /\ shape_y im * vdstStrideH im <= vdstStrideD im /\ shape_z im * vdstStrideD im < 2 ^ 29.
Proof.
  destruct Him as [Hx Hy Hz [S2 HS2] [S1 HS1] Hrow Hrows Hb]. unfold vdstStrideD, vdstStrideH.
  rewrite HS1, HS2, !Z.div_mul by done. split_and!; nia.
Qed.

Lemma voffset_bound p : in_volume im p -> 0 <= voffset im p < 2 ^ 29.
Proof.
  intros (Hx & Hy & Hz). destruct vstride_bytes as (_ & _ & Hrow & Hl & Hb). unfold voffset.
  assert (0 <= d_y p * vdstStrideH im) by nia.
  assert (d_y p * vdstStrideH im + d_x p < vdstStrideD im) by nia.
  assert (0 <= d_z p * vdstStrideD im) by nia. nia.
Qed.

Lemma shape_bounds : 0 < shape_x im < 2 ^ 29 /\ 0 < shape_y im < 2 ^ 29 /\ 0 < shape_z im < 2 ^ 29.
Proof.
  pose proof Him as [Hx Hy Hz _ _ _ _ _]. destruct vstride_bytes as (_ & _ & Hrow & Hl & Hb).
  assert (vdstStrideH im <= shape_y im * vdstStrideH im /\ shape_y im <= shape_y im * vdstStrideH im) by nia.
  assert (vdstStrideD im <= shape_z im * vdstStrideD im /\ shape_z im <= shape_z im * vdstStrideD im) by nia. lia.
Qed.

Lemma voffset_inj p q : in_volume im p -> in_volume im q -> voffset im p = voffset im q -> p = q.
Proof.
  destruct p as [x y z], q as [x' y' z']. intros (Hx & Hy & Hz) (Hx' & Hy' & Hz') H. unfold voffset in H. cbn in *.
  destruct vstride_bytes as (_ & _ & Hrow & Hl & _).
  assert (0 <= y * vdstStrideH im + x < vdstStrideD im) by nia.
  assert (0 <= y' * vdstStrideH im + x' < vdstStrideD im) by nia.
  assert (z = z') by nia. subst. assert (y = y') by nia. assert (x = x') by nia. by subst.
Qed.

Lemma vdst_at_offset p : in_volume im p -> vdst_at im (d_z p) (d_y p) (d_x p) = voffset im p.
Proof.
  intros Hp. pose proof (voffset_bound _ Hp). destruct vstride_bytes as (E1 & E2 & _).
  unfold vdst_at. rewrite E1, E2.
  replace (d_z p * (4 * vdstStrideD im) + d_y p * (4 * vdstStrideH im) + d_x p * 4) with (voffset im p * 4) by (unfold voffset; lia).
  rewrite wraps_small by (done || (unfold in_s; lia)). by rewrite Z.div_mul.
Qed.

(** ** The volume as a grid *)

Definition in_vblocks (b : dim3) : Prop :=
  (0 <= d_x b /\ d_x b * 32 < shape_x im) /\ (0 <= d_y b /\ d_y b * 4 < shape_y im) /\ (0 <= d_z b /\ d_z b * 2 < shape_z im).

Definition volume_grid : grid dim3 dim3 :=
  MkGrid _ _ (in_volume im) (voffset im) (vadjacent im) 256 vplace vblk vidx in_vblocks.

(** The labels of the volume. *)
Definition vvalid (i : Z) : Prop := exists p, in_volume im p /\ i = voffset im p.
(** The label a voxel has is the least of its component. *)
Definition vleast_label (p : dim3) (l : Z) : Prop :=
  exists q, vconnected im p q /\ l = voffset im q /\ forall r, vconnected im p r -> l <= voffset im r.

Let local := g_local volume_grid.
Let touching := g_touching volume_grid.
Let within := g_within volume_grid.

Lemma vplace_mono b i j : local b i -> local b j -> i <= j -> voffset im (vplace b i) <= voffset im (vplace b j).
Proof.
  intros [Hi (Hix & Hiy & _)] [Hj (Hjx & Hjy & _)] Hle. destruct vstride_bytes as (_ & _ & Hrow & Hl & _).
  unfold voffset, vplace in *; cbn in *.
  destruct (decide (i / 128 = j / 128)) as [E|Hne].
  - rewrite E. destruct (decide (i / 32 mod 4 = j / 32 mod 4)) as [E2|Hne2].
    { rewrite E2. assert (i mod 32 <= j mod 32) by (clear -E E2 Hle; dlia). lia. }
    assert (i / 32 mod 4 + 1 <= j / 32 mod 4) by (clear -E Hne2 Hle; dlia). nia.
  - assert (i / 128 + 1 <= j / 128) by (clear -Hne Hle; dlia).
    assert (forall y x, 0 <= y < shape_y im -> 0 <= x < shape_x im -> 0 <= y * vdstStrideH im + x < vdstStrideD im) as Hin by (intros; nia).
    pose proof (Hin _ _ Hiy Hix). pose proof (Hin _ _ Hjy Hjx). nia.
Qed.

Lemma volume_grid_ok : grid_ok volume_grid.
Proof.
  split; cbn.
  - intros p Hp. by apply voffset_bound.
  - exact voffset_inj.
  - by intros p q (? & ? & _).
  - intros [x y z] _. unfold vplace, vblk, vidx; cbn. f_equal; dlia.
  - intros [bx by_ bz] i Hi. unfold vplace, vblk, vidx; cbn. split; [f_equal|]; dlia.
  - intros [x y z] (Hx & Hy & Hz). unfold in_vblocks, vblk, vidx; cbn in *. split; [dlia|dlia].
  - exact vplace_mono.
Qed.

Definition valike (p q : dim3) : bool := vvalue im p =? vvalue im q.

Lemma valike_square p q r : valike p q = true -> valike p r = true -> valike q r = true.
Proof using Type. unfold valike. rewrite !Z.eqb_eq. congruence. Qed.

Lemma back_in_volume a p : in_volume im p -> 0 < coord a p -> in_volume im (back a p).
Proof using Type. intros (Hx & Hy & Hz) H. unfold in_volume. destruct a; cbn in *; lia. Qed.

Lemma vadjacent_back a p : in_volume im p -> 0 < coord a p -> valike p (back a p) = true -> vadjacent im p (back a p).
Proof using Type.
  intros Hp H Ha. split_and!; [done|by apply back_in_volume|by apply Z.eqb_eq|by exists a].
Qed.
Lemma vadjacent_alike p q : vadjacent im p q -> valike p q = true.
Proof using Type. intros (_ & _ & H & _). by apply Z.eqb_eq. Qed.

Lemma coord_pos a p : in_volume im p -> 0 <= coord a p.
Proof using Type. intros (Hx & Hy & Hz). destruct a; cbn; lia. Qed.

(** Neighbours of one block. *)
Lemma within_back a p : in_volume im p -> coord a p mod width a <> 0 -> valike p (back a p) = true ->
  within (voffset im p) (voffset im (back a p)).
Proof using Type.
  intros Hp Hm Ha. exists p, (back a p).
  assert (H0 : 0 < coord a p).
  { pose proof (coord_pos a p Hp). destruct (decide (coord a p = 0)) as [E|]; [by rewrite E in Hm|lia]. }
  split_and!; [by apply vadjacent_back| |done..].
  cbn. destruct p as [x y z]. unfold vblk, width, larThreads, BW, BH, BD in *. destruct a; cbn in *; f_equal; dlia.
Qed.

(** ** One block *)

Section OneBlock.
Variable b : dim3.
Hypothesis Hb : in_vblocks b.

Lemma vlocal_range i : local b i -> 0 <= i < 256.
Proof using Type. by intros [? _]. Qed.
Lemma vlocal_pos i : local b i -> 0 <= i.
Proof using Type. by intros [[? _] _]. Qed.

Lemma vplace_positive a i : 0 < coord a (tc3 i) -> 0 < coord a (vplace b i).
Proof. rewrite vplace_coord. destruct Hb as ((?&_)&(?&_)&(?&_)). unfold width, larThreads, BW, BH, BD. destruct a; cbn; lia. Qed.

Lemma vlocal_hop a i : local b i -> 0 < coord a (tc3 i) -> local b (i - hop a).
Proof.
  intros [Hi Hp] H. split; [by apply hop_range|]. cbn. rewrite vplace_hop by done.
  apply back_in_volume; [done|by apply vplace_positive].
Qed.

Definition vsame (i j : Z) : bool := valike (vplace b i) (vplace b j).

(** Neighbours in the block that are in one component. *)
Lemma vtouching_cases i j : touching b i j <->
  local b i /\ exists a, 0 < coord a (tc3 i) /\ j = i - hop a /\ vsame i (i - hop a) = true.
Proof.
  split.
  - intros (Hi & Hj & Hadj). split; [done|]. pose proof (vadjacent_alike _ _ Hadj) as Ha. destruct Hadj as (_ & _ & _ & a & E).
    exists a. destruct Hi as [Hi _], Hj as [Hj _]. cbn in Hi, Hj.
    assert (H : 0 < coord a (tc3 i) /\ j = i - hop a).
    { unfold vplace in E. unfold tc3, BW, BH. destruct a; cbn in *; injection E as E1 E2 E3; dlia. }
    destruct H as [H ->]. by split_and!.
  - intros (Hi & a & H & -> & Hs). pose proof (vlocal_hop a i Hi H) as Hl. split_and!; [done..|]. cbn.
    unfold vsame in Hs. rewrite vplace_hop in * by done. apply vadjacent_back; [by destruct Hi|by apply vplace_positive|done].
Qed.

Lemma bgc_at i : 0 <= i < 256 -> Dim3 (bgc_x b i) (bgc_y b i) (bgc_z b i) = vplace b i.
Proof.
  intros Hi. pose proof shape_bounds. pose proof (tc3_bound i Hi). destruct Hb as (?&?&?).
  unfold bgc_x, bgc_y, bgc_z, vplace, BD. unfold BW at 1, BH at 1. rewrite !wraps_small by (unfold in_s; lia). done.
Qed.

Lemma bgc_coord i : 0 <= i < 256 ->
  bgc_x b i = d_x (vplace b i) /\ bgc_y b i = d_y (vplace b i) /\ bgc_z b i = d_z (vplace b i).
Proof. intros Hi. by rewrite <- (bgc_at i Hi). Qed.

Lemma vinside_local i : 0 <= i < 256 -> inside_block3 im b i = true <-> local b i.
Proof.
  intros Hi. unfold inside_block3, in_shape, local, g_local; cbn. unfold in_volume.
  destruct (bgc_coord i Hi) as (-> & -> & ->). pose proof (tc3_bound i Hi) as Ht. destruct Hb as (?&?&?).
  unfold vplace, tc3, BW, BH in *; cbn in *. change (32 * 4) with 128 in *. rewrite !andb_true_iff, !Z.ltb_lt. lia.
Qed.

(** What the threads compare. *)
Lemma pzyx_value i : 0 <= i < 256 -> pzyx im b i = vvalue im (vplace b i).
Proof. intros Hi. unfold pzyx, vvalue. by destruct (bgc_coord i Hi) as (-> & -> & ->). Qed.
Lemma pzym1x_value i : 0 <= i < 256 -> 0 < d_y (tc3 i) -> pzym1x im b i = vvalue im (vplace b (i - 32)).
Proof.
  intros Hi H. unfold pzym1x, vvalue. destruct (bgc_coord i Hi) as (-> & -> & ->).
  rewrite (proj2 (Z.ltb_lt _ _) H). change 32 with (hop AY). by rewrite (vplace_hop b AY).
Qed.
Lemma pzm1yx_value i : 0 <= i < 256 -> 0 < d_z (tc3 i) -> pzm1yx im b i = vvalue im (vplace b (i - 128)).
Proof.
  intros Hi H. unfold pzm1yx, vvalue. destruct (bgc_coord i Hi) as (-> & -> & ->).
  rewrite (proj2 (Z.ltb_lt _ _) H). change 128 with (hop AZ). by rewrite (vplace_hop b AZ).
Qed.
Lemma pzm1ym1x_value i : 0 <= i < 256 -> 0 < d_y (tc3 i) -> 0 < d_z (tc3 i) ->
  pzm1ym1x im b i = vvalue im (vplace b (i - 32 - 128)).
Proof.
  intros Hi H1 H2. unfold pzm1ym1x, vvalue. destruct (bgc_coord i Hi) as (-> & -> & ->).
  rewrite (proj2 (Z.ltb_lt _ _) H1), (proj2 (Z.ltb_lt _ _) H2). change 32 with (hop AY). change 128 with (hop AZ).
  rewrite (vplace_hop b AZ), (vplace_hop b AY); [done..|]. by rewrite (tc3_hop AY).
Qed.

Variable undef : Z -> Z.

(** A shuffle reads the voxel on the left. *)
Lemma vshfl_left v i : local b i -> 0 < d_x (tc3 i) -> shfl_up undef (inside_block3 im b) v i = v (i - 1).
Proof.
  intros Hi H. pose proof (vlocal_hop AX i Hi H) as Hl. unfold shfl_up, warpSize.
  replace (i mod 32 <? 1) with false by (unfold tc3, BW in H; cbn in H; lia).
  by rewrite (proj2 (vinside_local (i - 1) (vlocal_range _ Hl)) Hl).
Qed.

Definition has (a : axis) (i : Z) : bool := (0 <? coord a (tc3 i)) && vsame i (i - hop a).

Lemma has_z i : local b i -> nzm1yx im b i = has AZ i.
Proof.
  intros [Hi _]. unfold nzm1yx, has, vsame, valike. cbn [coord hop]. destruct (Z.ltb_spec 0 (d_z (tc3 i))); [|done]. cbn.
  by rewrite pzyx_value, pzm1yx_value.
Qed.
Lemma has_y i : local b i -> nzym1x im b i = has AY i.
Proof.
  intros [Hi _]. unfold nzym1x, has, vsame, valike. cbn [coord hop]. destruct (Z.ltb_spec 0 (d_y (tc3 i))); [|done]. cbn.
  by rewrite pzyx_value, pzym1x_value.
Qed.
Lemma has_x i : local b i -> nzyxm1 undef im b i = has AX i.
Proof.
  intros Hi. unfold nzyxm1, has, vsame, valike, pzyxm1. cbn [coord hop]. destruct (Z.ltb_spec 0 (d_x (tc3 i))) as [H|]; [|done]. cbn.
  rewrite vshfl_left by done. pose proof (vlocal_range _ (vlocal_hop AX i Hi H)) as Hr. destruct Hi. cbn in Hr. by rewrite !pzyx_value.
Qed.
Lemma has_zy i : local b i -> nzm1ym1x im b i = (0 <? d_z (tc3 i)) && (0 <? d_y (tc3 i)) && vsame i (i - 32 - 128).
Proof.
  intros [Hi _]. unfold nzm1ym1x, vsame, valike. destruct (Z.ltb_spec 0 (d_z (tc3 i))); [|done].
  destruct (Z.ltb_spec 0 (d_y (tc3 i))); [|done]. cbn. by rewrite pzyx_value, pzm1ym1x_value.
Qed.
Lemma has_yx i : local b i -> nzym1xm1 undef im b i = (0 <? d_y (tc3 i)) && (0 <? d_x (tc3 i)) && vsame i (i - 1 - 32).
Proof.
  intros Hi. unfold nzym1xm1, vsame, valike, pzym1xm1. destruct (Z.ltb_spec 0 (d_y (tc3 i))); [|done].
  destruct (Z.ltb_spec 0 (d_x (tc3 i))) as [H'|]; [|done]. cbn. rewrite vshfl_left by done.
  pose proof (vlocal_range _ (vlocal_hop AX i Hi H')) as Hr. destruct Hi. cbn in Hr. rewrite pzyx_value, pzym1x_value by (done || by change 1 with (hop AX); rewrite (tc3_hop AX)). done.
Qed.
Lemma has_zx i : local b i -> nzm1yxm1 undef im b i = (0 <? d_z (tc3 i)) && (0 <? d_x (tc3 i)) && vsame i (i - 1 - 128).
Proof.
  intros Hi. unfold nzm1yxm1, vsame, valike, pzm1yxm1. destruct (Z.ltb_spec 0 (d_z (tc3 i))); [|done].
  destruct (Z.ltb_spec 0 (d_x (tc3 i))) as [H'|]; [|done]. cbn. rewrite vshfl_left by done.
  pose proof (vlocal_range _ (vlocal_hop AX i Hi H')) as Hr. destruct Hi. cbn in Hr. rewrite pzyx_value, pzm1yx_value by (done || by change 1 with (hop AX); rewrite (tc3_hop AX)). done.
Qed.

Lemma label3_spec i : local b i -> label3 undef im b i =
  if has AZ i then i - 128 else if has AY i then i - 32 else if has AX i then i - 1 else i.
Proof.
  intros Hi. unfold label3. rewrite has_z, has_y, has_x by done. unfold tc3, BW, BH; cbn.
  destruct (has AZ i); [dlia|]. destruct (has AY i); [dlia|]. destruct (has AX i); dlia.
Qed.

Let par (i : Z) : Z := label3 undef im b i.
Let red_y (i : Z) : bool := inside_block3 im b i && (nzym1x im b i && nzm1yx im b i && negb (nzm1ym1x im b i)).
Let red_x (i : Z) : bool :=
  inside_block3 im b i && (nzyxm1 undef im b i &&
    ((nzm1yx im b i && negb (nzm1yxm1 undef im b i)) || (nzym1x im b i && negb (nzym1xm1 undef im b i)))).
Let duty_y (i : Z) : list (Z * Z) := if red_y i then [(par i, i - 32)] else [].
Let duty_x (i : Z) : list (Z * Z) := if red_x i then [(par i, i - 1)] else [].

Lemma has_at a i : has a i = true -> (0 <? coord a (tc3 i)) = true.
Proof using Type. by intros [? _]%andb_true_iff. Qed.
Lemma has_touching a i : local b i -> has a i = true -> touching b i (i - hop a).
Proof. intros Hi [H Hs]%andb_true_iff. apply vtouching_cases. split; [done|]. exists a. by rewrite <- Z.ltb_lt. Qed.

Lemma vpar_step i : local b i -> par i = i \/ touching b i (par i).
Proof.
  intros Hi. unfold par. rewrite label3_spec by done.
  destruct (has AZ i) eqn:Ez; [right; by apply (has_touching AZ)|].
  destruct (has AY i) eqn:Ey; [right; by apply (has_touching AY)|].
  destruct (has AX i) eqn:Ex; [right; by apply (has_touching AX)|by left].
Qed.

Lemma vpar_local i : local b i -> local b (par i) /\ par i <= i.
Proof.
  intros Hi. destruct (vpar_step i Hi) as [->|H]; [split; [done|lia]|].
  split; [by destruct H as (_ & ? & _)|]. apply vtouching_cases in H as (_ & a & _ & -> & _). destruct a; cbn; lia.
Qed.

Lemma red_y_touching i : local b i -> red_y i = true -> touching b i (i - 32).
Proof. intros Hi H. unfold red_y in H. rewrite has_y in H by done. bool_hyps. by apply (has_touching AY). Qed.
Lemma red_x_touching i : local b i -> red_x i = true -> touching b i (i - 1).
Proof. intros Hi H. unfold red_x in H. rewrite has_x in H by done. bool_hyps. by apply (has_touching AX). Qed.

(** The parents and the reductions connect what touches: what is not connected at
    once is connected along the other sides of a square. *)
Section Classes.
Variable T : relation Z.
Hypothesis HT : Equivalence T.
Hypothesis Hpar : forall i, local b i -> T i (par i).
Hypothesis Hy : forall i, local b i -> red_y i = true -> T (par i) (i - 32).
Hypothesis Hx : forall i, local b i -> red_x i = true -> T (par i) (i - 1).

Lemma edge_z i : local b i -> has AZ i = true -> T i (i - 128).
Proof. intros Hi H. replace (i - 128) with (par i); [by apply Hpar|]. unfold par. by rewrite label3_spec, H. Qed.

(** The square of [i] along two axes: its far corner is alike. *)
Lemma has_square a l i : a <> l -> local b i -> has a i = true -> has l i = true -> vsame i (i - hop a - hop l) = true ->
  local b (i - hop a) /\ local b (i - hop l) /\ has l (i - hop a) = true /\ has a (i - hop l) = true.
Proof.
  intros Hne Hi [H Hs]%andb_true_iff [H' Hs']%andb_true_iff Hd. apply Z.ltb_lt in H, H'.
  split; [by apply vlocal_hop|]. split; [by apply vlocal_hop|].
  unfold has. rewrite !tc3_hop, !coord_back_ne, (proj2 (Z.ltb_lt _ _) H), (proj2 (Z.ltb_lt _ _) H') by done. cbn [andb].
  split; [by apply (valike_square (vplace b i))|].
  replace (i - hop l - hop a) with (i - hop a - hop l) by lia. by apply (valike_square (vplace b i)).
Qed.

Lemma edge_y n i : (Z.to_nat i < n)%nat -> local b i -> has AY i = true -> T i (i - 32).
Proof.
  revert i; induction n as [|n IH]; intros i Hn Hi H; [lia|].
  destruct (has AZ i) eqn:Ez.
  2:{ replace (i - 32) with (par i); [by apply Hpar|]. unfold par. by rewrite label3_spec, Ez, H. }
  destruct (vsame i (i - 32 - 128)) eqn:Ed.
  - destruct (has_square AY AZ i ltac:(done) Hi H Ez Ed) as (Hy' & Hz & H1 & H2). cbn in Hy', Hz, H1, H2.
    pose proof (vlocal_pos _ Hz). pose proof (vlocal_pos _ Hi).
    trans (i - 128); [by apply edge_z|]. trans (i - 128 - 32); [apply IH; [lia|done..]|].
    symmetry. replace (i - 128 - 32) with (i - 32 - 128) by lia. by apply edge_z.
  - trans (par i); [by apply Hpar|]. apply Hy; [done|]. unfold red_y.
    pose proof (has_at AZ i Ez : (0 <? d_z (tc3 i)) = true) as Hz. pose proof (has_at AY i H : (0 <? d_y (tc3 i)) = true) as Hy'.
    by rewrite (proj2 (vinside_local i (vlocal_range i Hi)) Hi), has_y, has_z, has_zy, H, Ez, Hz, Hy', Ed by done.
Qed.

Lemma edge_x n i : (Z.to_nat i < n)%nat -> local b i -> has AX i = true -> T i (i - 1).
Proof.
  revert i; induction n as [|n IH]; intros i Hn Hi H; [lia|]. pose proof (vlocal_pos _ Hi).
  pose proof (has_at AX i H : (0 <? d_x (tc3 i)) = true) as Hx'.
  destruct (has AZ i && vsame i (i - 1 - 128)) eqn:Ez.
  { apply andb_true_iff in Ez as [Ez Ed]. destruct (has_square AX AZ i ltac:(done) Hi H Ez Ed) as (Hl & Hz & H1 & H2).
    cbn in Hl, Hz, H1, H2. pose proof (vlocal_pos _ Hz).
    trans (i - 128); [by apply edge_z|]. trans (i - 128 - 1); [apply IH; [lia|done..]|].
    symmetry. replace (i - 128 - 1) with (i - 1 - 128) by lia. by apply edge_z. }
  destruct (has AY i && vsame i (i - 1 - 32)) eqn:Ey.
  { apply andb_true_iff in Ey as [Ey Ed]. destruct (has_square AX AY i ltac:(done) Hi H Ey Ed) as (Hl & Hz & H1 & H2).
    cbn in Hl, Hz, H1, H2. pose proof (vlocal_pos _ Hz).
    trans (i - 32); [by apply (edge_y (S (Z.to_nat i))); [lia|..]|]. trans (i - 32 - 1); [apply IH; [lia|done..]|].
    symmetry. replace (i - 32 - 1) with (i - 1 - 32) by lia. by apply (edge_y (S (Z.to_nat (i - 1)))); [lia|..]. }
  assert (Hred : has AZ i || has AY i = true -> T i (i - 1)).
  { intros Hor. trans (par i); [by apply Hpar|]. apply Hx; [done|]. unfold red_x.
    rewrite (proj2 (vinside_local i (vlocal_range i Hi)) Hi), has_x, has_y, has_z, has_zx, has_yx, H by done. cbn [andb].
    apply orb_true_iff in Hor. apply orb_true_iff. destruct Hor as [Hor|Hor]; [left|right]; rewrite Hor in *; cbn in Ez, Ey.
    - by rewrite Ez, andb_false_r.
    - by rewrite Ey, andb_false_r. }
  destruct (has AZ i) eqn:Ez'; [by apply Hred|]. destruct (has AY i) eqn:Ey'; [by apply Hred|].
  replace (i - 1) with (par i); [by apply Hpar|]. unfold par. by rewrite label3_spec, Ez', Ey', H.
Qed.

Lemma edges_all : rel_sub (rtsc (touching b)) T.
Proof.
  apply rtsc_least; [done|]. intros i j (Hi & a & H & -> & Hs)%vtouching_cases.
  assert (Ha : has a i = true) by (unfold has; by rewrite (proj2 (Z.ltb_lt _ _) H)).
  destruct a; [by apply (edge_x (S (Z.to_nat i))); [lia|..]|by apply (edge_y (S (Z.to_nat i))); [lia|..]|by apply edge_z].
Qed.
End Classes.

Definition both : list (Z + Z) := (inl <$> block_tids3) ++ (inr <$> block_tids3).
Definition duties3 (x : Z + Z) : list (Z * Z) := match x with inl i => duty_y i | inr i => duty_x i end.

Lemma elem_of_both x : x ∈ both <-> match x with inl i | inr i => 0 <= i < 256 end.
Proof.
  unfold both. rewrite elem_of_app, !list_elem_of_fmap. change (BW * BH * BD) with 256. split.
  - intros [(i & -> & Hi%elem_of_zrange)|(i & -> & Hi%elem_of_zrange)]; exact Hi.
  - destruct x as [i|i]; intros Hi; [left|right]; exists i; (split; [done|by apply elem_of_zrange]).
Qed.

Lemma block_classes3 : rel_eq (cl (par_edges (local b) par) (both ≫= duties3)) (rtsc (touching b)).
Proof.
  apply rel_eq_sub; split.
  - apply rtsc_least; [apply _|].
    assert (Hup : forall i, local b i -> rtsc (touching b) (par i) i).
    { intros i Hi. destruct (vpar_step i Hi) as [->|H]; [done|by apply rtsc_rl]. }
    assert (Hin : forall i, 0 <= i < 256 -> inside_block3 im b i = true -> local b i) by (intros i Hi; by apply vinside_local).
    intros i j [[Hi ->]|Hij]; [symmetry; by apply Hup|].
    apply list_elem_of_bind in Hij as ([t|t] & Hij & Ht%elem_of_both); cbn in Hij; unfold duty_y, duty_x in Hij.
    + destruct (red_y t) eqn:E; [|by apply elem_of_nil in Hij]. apply list_elem_of_singleton in Hij as [= -> ->].
      assert (Hl : local b t) by (apply Hin; [done|unfold red_y in E; by bool_hyps]).
      trans t; [by apply Hup|by apply rtsc_lr, red_y_touching].
    + destruct (red_x t) eqn:E; [|by apply elem_of_nil in Hij]. apply list_elem_of_singleton in Hij as [= -> ->].
      assert (Hl : local b t) by (apply Hin; [done|unfold red_x in E; by bool_hyps]).
      trans t; [by apply Hup|by apply rtsc_lr, red_x_touching].
  - apply edges_all; [apply _|..].
    + intros i Hi. by apply cl_base.
    + intros i Hi H. apply cl_pair, list_elem_of_bind. exists (inl i). split; [|apply elem_of_both; by apply vlocal_range].
      cbn. unfold duty_y. rewrite H. by apply list_elem_of_singleton.
    + intros i Hi H. apply cl_pair, list_elem_of_bind. exists (inr i). split; [|apply elem_of_both; by apply vlocal_range].
      cbn. unfold duty_x. rewrite H. by apply list_elem_of_singleton.
Qed.

(** ** The phases of the block *)

Definition reduce_part (x : Z + Z) : prog Z := match x with inl i => reduce_y undef im b i | inr i => reduce_x undef im b i end.

Lemma reduce_parts : reduce_part <$> both = (reduce_y undef im b <$> block_tids3) ++ (reduce_x undef im b <$> block_tids3).
Proof using Type. unfold both. by rewrite fmap_app, <- !list_fmap_compose. Qed.

(** A reduction with the label read at a neighbour. *)
Lemma reduce_soft s2 (T := cl (edges (local b) s2) (both ≫= duties3)) i j : forest (local b) s2 -> local b i ->
  rel_eq (rtsc (edges (local b) s2)) (rtsc (par_edges (local b) par)) -> local b j -> T (par i) j ->
  soft (local b) T (fun _ => True) [(par i, j)] (rtsc (edges (local b) s2)) (Read j (fun label2 => Reduction (par i) label2)).
Proof.
  intros Hf Hi Hcl Hj HT. destruct (vpar_local i Hi) as [Hp Hpi].
  split; [done|]. intros C' v HC' Hs Hv Hvi HTv HCv.
  apply soft_weaken with (Q := ends_at (local b) T (par i)); [done|].
  apply Reduction_soft; [apply _|exact vlocal_pos|done..|reflexivity|done| |reflexivity]. by trans j.
Qed.

Lemma reduce_phase3 s2 : forest (local b) s2 -> rel_eq (rtsc (edges (local b) s2)) (rtsc (par_edges (local b) par)) ->
  Ends s2 (block3_reduce undef im b <$> block_tids3) /\
  forall s3 rs, Runs s2 (block3_reduce undef im b <$> block_tids3) s3 rs ->
    forest (local b) s3 /\ rel_eq (rtsc (edges (local b) s3)) (rtsc (touching b)).
Proof.
  intros Hf Hcl. set (T := cl (edges (local b) s2) (both ≫= duties3)).
  assert (HT : rel_eq T (rtsc (touching b))) by (etrans; [by apply cl_base_eq|]; apply block_classes3).
  assert (Hin : forall i, 0 <= i < 256 -> inside_block3 im b i = true -> local b i) by (intros i Hi; by apply vinside_local).
  assert (Hpair : forall x p, x ∈ both -> p ∈ duties3 x -> T p.1 p.2).
  { intros x [p q] Hx Hp. apply cl_pair, list_elem_of_bind. by exists x. }
  destruct (unite_runs_map (local b) reduce_part duties3 (fun _ _ => True) s2 both Hf) as [Hend Hall].
  - intros [i|i] Hi; pose proof Hi as Hr; apply elem_of_both in Hr; pose proof (Hpair _ (par i, i - 32) Hi) as Hp1; pose proof (Hpair _ (par i, i - 1) Hi) as Hp2;
      unfold reduce_part, duties3, duty_y, duty_x in *; cbn [fst snd] in *; fold T.
    + assert (E : reduce_y undef im b i = if red_y i then Read (i - 32) (fun label2 => Reduction (par i) label2) else Ret 0).
      { unfold reduce_y, red_y. destruct (_ && _); [|done]. f_equal. unfold tc3, BW, BH; cbn. clear. dlia. }
      rewrite E. destruct (red_y i) eqn:Er; [|by split; [intros ? ? ?%elem_of_nil|]].
      assert (Hl : local b i) by (apply Hin; [done|unfold red_y in Er; by bool_hyps]).
      destruct (red_y_touching i Hl Er) as (_ & Hj & _). apply reduce_soft; [done..|]. apply Hp1. by apply list_elem_of_singleton.
    + assert (E : reduce_x undef im b i = if red_x i then Read (i - 1) (fun label2 => Reduction (par i) label2) else Ret 0).
      { unfold reduce_x, red_x. destruct (_ && _); [|done]. f_equal. unfold tc3, BW, BH; cbn. clear. dlia. }
      rewrite E. destruct (red_x i) eqn:Er; [|by split; [intros ? ? ?%elem_of_nil|]].
      assert (Hl : local b i) by (apply Hin; [done|unfold red_x in Er; by bool_hyps]).
      destruct (red_x_touching i Hl Er) as (_ & Hj & _). apply reduce_soft; [done..|]. apply Hp2. by apply list_elem_of_singleton.
  - rewrite reduce_parts in *. destruct (split_runs _ _ _ _ Hend) as [Hend' Hsim]. split; [exact Hend'|].
    intros s3 rs Hr. destruct (Hsim s3 rs Hr) as (rs1 & Hr'). destruct (Hall _ _ Hr') as ((Hf3 & _) & HT3 & _).
    split; [done|]. etrans; [exact HT3|exact HT].
Qed.

Lemma store_phase3 s3 : forest (local b) s3 ->
  Ends s3 (block3_store im b <$> block_tids3) /\
  forall s4 rs, Runs s3 (block3_store im b <$> block_tids3) s4 rs ->
    concat rs = g_writes volume_grid (inside_block3 im b) b (root s3).
Proof.
  intros Hf.
  set (w i := if inside_block3 im b i then [(voffset im (vplace b i), voffset im (vplace b (root s3 i)))] else []).
  destruct (rg_runs_values (shortened (local b) s3) (towards (local b) (root s3)) (block3_store im b) w s3 block_tids3) as [Hend Hall].
  - apply shortened_refl; [exact vlocal_pos|done].
  - intros i Hi%elem_of_zrange. change (BW * BH * BD) with 256 in Hi. unfold block3_store, w.
    destruct (inside_block3 im b i) eqn:E; [|by intros s _ _]. apply vinside_local in E as Hl; [|done].
    rewrite own3_id. intros s1 _ [Hf1 Hr1]. destruct (Hr1 _ Hl) as [Hroot _]. destruct (Hf1 _ Hl) as [Hv1 _].
    apply rg_bind; [apply _|].
    apply rg_weaken with (Q := fun r _ => r = root s3 (s1 i)); [apply _| |apply FindRoot_rg; [exact vlocal_pos|done|apply _|done]].
    intros r s ->. rewrite Hroot. intros s' _ _.
    destruct (root_below (local b) s3 vlocal_pos Hf i Hl) as ([Hr1' Hr2] & _ & _).
    destruct (bgc_coord i Hi) as (-> & -> & ->). rewrite vdst_at_offset by (by destruct Hl). repeat f_equal.
    pose proof (voffset_bound _ Hr2) as Hbd. cbn in Hr1', Hbd. pose proof (tc3_bound _ Hr1') as Ht.
    replace ((root s3 i / (BW * BH)) mod BD) with (root s3 i / 128)
      by (clear -Ht; unfold tc3, BW, BH, BD in *; cbn in Ht; change (32 * 4) with 128 in *; dlia).
    replace (_ + _ + _ + root s3 i mod BW) with (voffset im (vplace b (root s3 i))) by (unfold voffset, vplace, BW, BH, BD; cbn; lia).
    apply wrapu_small. unfold in_u. lia.
  - split; [done|]. intros s4 rs Hr. rewrite (Hall _ _ Hr). unfold g_writes, w; cbn. change (zrange 0 256) with block_tids3.
    clear. induction block_tids3 as [|i l IH]; [done|]. cbn. by rewrite IH.
Qed.

(** No phase of the block runs for ever or gets stuck. *)
Definition block3_ends : Prop :=
  forall s0, Ends s0 (block3_init undef im b <$> block_tids3) /\ forall s1 rs1, Runs s0 (block3_init undef im b <$> block_tids3) s1 rs1 ->
  Ends s1 (block3_find undef im b <$> block_tids3) /\ forall s2 rs2, Runs s1 (block3_find undef im b <$> block_tids3) s2 rs2 ->
  Ends s2 (block3_reduce undef im b <$> block_tids3) /\ forall s3 rs3, Runs s2 (block3_reduce undef im b <$> block_tids3) s3 rs3 ->
  Ends s3 (block3_store im b <$> block_tids3).

Lemma block3_init_eq i : block3_init undef im b i = if inside_block3 im b i then Write i (par i) (Ret (par i)) else Ret 0.
Proof using Type. unfold block3_init. by rewrite own3_id. Qed.
Lemma block3_find_eq i : block3_find undef im b i =
  if inside_block3 im b i then r ⇐ FindRoot (par i); Write i r (Ret (par i)) else Ret 0.
Proof using Type. unfold block3_find. by rewrite own3_id. Qed.

Lemma block3_spec : block3_ends /\
  forall outs, block3_runs undef b [im] outs ->
    exists r, block_roots (local b) (touching b) r /\ outs = [g_writes volume_grid (inside_block3 im b) b r].
Proof.
  pose proof (init_phase 256 (local b) (inside_block3 im b) par vlocal_range vinside_local (block3_init undef im b)) as Hinit.
  pose proof (find_phase 256 (local b) (inside_block3 im b) par vlocal_range vinside_local vpar_local (block3_find undef im b)) as Hfind.
  split.
  - intros s0. destruct (Hinit s0) as [E0 H0]; [intros; apply block3_init_eq|]. split; [exact E0|]. intros s1 rs1 R1.
    destruct (Hfind s1 (H0 _ _ R1)) as [E1 H1]; [intros; apply block3_find_eq|]. split; [exact E1|]. intros s2 rs2 R2.
    destruct (H1 _ _ R2) as [Hf2 Hc2]. destruct (reduce_phase3 s2 Hf2 Hc2) as [E2 H2]. split; [exact E2|]. intros s3 rs3 R3.
    destruct (H2 _ _ R3) as (Hf3 & _). by apply store_phase3.
  - intros outs Hruns. inversion Hruns as [|? ? s0 s1 rs1 ? R1 Hloop]; subst.
    inversion Hloop as [? ? s2 s3 s4 rs2 rs3 rs4 R2 R3 R4|]; subst.
    destruct (Hinit s0) as [_ H0]; [intros; apply block3_init_eq|].
    destruct (Hfind s1 (H0 _ _ R1)) as [_ H1]; [intros; apply block3_find_eq|]. destruct (H1 _ _ R2) as [Hf2 Hc2].
    destruct (proj2 (reduce_phase3 s2 Hf2 Hc2) _ _ R3) as (Hf3 & Hc3).
    exists (root s3). split; [by apply roots_block; [exact vlocal_pos|..]|]. by rewrite (proj2 (store_phase3 s3 Hf3) _ _ R4).
Qed.

Lemma block3_exists : exists ws, block3_runs undef b [im] [ws].
Proof.
  destruct block3_spec as [H _]. destruct (H (fun _ => 0)) as [E0 H0]. apply Ends_run in E0 as (s1 & rs1 & R1).
  destruct (H0 _ _ R1) as [E1 H1]. apply Ends_run in E1 as (s2 & rs2 & R2).
  destruct (H1 _ _ R2) as [E2 H2]. apply Ends_run in E2 as (s3 & rs3 & R3).
  pose proof (H2 _ _ R3) as (s4 & rs4 & R4)%Ends_run.
  eexists. eapply block3_some; [exact R1|]. by eapply loop_last.
Qed.
End OneBlock.

(** ** The reductions across blocks *)

Definition seam (a : axis) (p : dim3) : Prop := in_volume im p /\ width a <= coord a p /\ coord a p mod width a = 0.
Definition across (a : axis) : relation Z := g_labelled volume_grid (fun p q => seam a p /\ q = back a p).

(** A voxel is joined to the one before it along [a] when they are alike and the
    squares along [l] and along [o] do not join them already. *)
Definition joins (a l o : axis) (p : dim3) : bool :=
  let open c := (coord c p mod width c =? 0) || negb (valike p (back c p)) || negb (valike p (back a (back c p))) in
  valike p (back a p) && (open l && open o).

(** What the three kernels have in common: [a] is the axis they join along, [l] that of the lanes. *)
Record joining (a l o : axis) (blocks : dim3) (gc : gthread3 -> dim3) (unites : gthread3 -> bool) (f : gthread3 -> prog Z) : Prop := {
  j_ne : a <> l /\ a <> o;
  j_seam : forall th, th ∈ grid3 blocks -> in_shape im (d_z (gc th)) (d_y (gc th)) (d_x (gc th)) = true ->
    seam a (gc th) /\ unites th = joins a l o (gc th);
  j_all : forall p, seam a p -> exists th, th ∈ grid3 blocks /\ gc th = p;
  j_thread : forall th, th ∈ grid3 blocks ->
    f th = if in_shape im (d_z (gc th)) (d_y (gc th)) (d_x (gc th)) && unites th
           then unite_with (vdst_at im (d_z (gc th)) (d_y (gc th)) (d_x (gc th)))
                  (let q := back a (gc th) in vdst_at im (d_z q) (d_y q) (d_x q))
           else Ret 0;
}.

Lemma width_pos a : 0 < width a.
Proof using Type. by destruct a. Qed.

Lemma seam_back a p : seam a p -> in_volume im (back a p).
Proof using Type. intros (Hp & Hw & _). pose proof (width_pos a). apply back_in_volume; [done|lia]. Qed.

Lemma in_shape_volume p : 0 <= d_x p -> 0 <= d_y p -> 0 <= d_z p -> in_shape im (d_z p) (d_y p) (d_x p) = true <-> in_volume im p.
Proof using Type. intros H1 H2 H3. unfold in_shape, in_volume. rewrite !andb_true_iff, !Z.ltb_lt. lia. Qed.

(** A square whose sides along [c] lie in blocks moves the seam one back along [c]. *)
Lemma seam_square W a c p : rel_sub within W -> a <> c -> seam a p -> valike p (back a p) = true ->
  coord c p mod width c <> 0 -> valike p (back c p) = true -> valike p (back a (back c p)) = true ->
  seam a (back c p) /\ vadjacent im (back c p) (back a (back c p)) /\ 0 < coord c p /\
  rtsc W (voffset im p) (voffset im (back c p)) /\ rtsc W (voffset im (back a p)) (voffset im (back a (back c p))).
Proof using Type.
  intros HW Hne Hs Ha Hm Hc Hac. pose proof Hs as (Hp & Hw & Hm').
  assert (Hc0 : 0 < coord c p).
  { pose proof (coord_pos c p Hp). destruct (decide (coord c p = 0)) as [E|]; [by rewrite E in Hm|lia]. }
  assert (Hs' : seam a (back c p)).
  { split; [by apply back_in_volume|]. by rewrite coord_back_ne. }
  split_and!; [done| |done|..].
  - apply vadjacent_back; [apply Hs'| |by apply (valike_square p)]. pose proof (width_pos a). destruct Hs' as (_ & ? & _). lia.
  - apply rtsc_lr, HW. by apply within_back.
  - rewrite back_comm. apply rtsc_lr, HW. apply within_back; [by apply seam_back| |].
    + by rewrite coord_back_ne by congruence.
    + apply (valike_square p); [done|]. by rewrite back_comm.
Qed.

Section Joining.
Variables (a l o : axis) (blocks : dim3) (gc : gthread3 -> dim3) (unites : gthread3 -> bool) (f : gthread3 -> prog Z).
Hypothesis HJ : joining a l o blocks gc unites f.
Let on (th : gthread3) : bool := in_shape im (d_z (gc th)) (d_y (gc th)) (d_x (gc th)) && unites th.
Let pairs (th : gthread3) : list (dim3 * dim3) := if on th then [(gc th, back a (gc th))] else [].

Lemma pairs_sound th p q : th ∈ grid3 blocks -> (p, q) ∈ pairs th -> seam a p /\ q = back a p /\ vadjacent im p q.
Proof.
  intros Hth Hpq. unfold pairs, on in Hpq.
  destruct (in_shape im _ _ _) eqn:Hr; [|by apply elem_of_nil in Hpq].
  destruct (unites th) eqn:Hu; [|by apply elem_of_nil in Hpq]. apply list_elem_of_singleton in Hpq as [= -> ->].
  destruct (j_seam _ _ _ _ _ _ _ HJ th Hth Hr) as [Hs E]. rewrite E in Hu. apply andb_true_iff in Hu as [Ha _].
  split_and!; [done..|]. apply vadjacent_back; [apply Hs| |done]. pose proof (width_pos a). destruct Hs as (_ & ? & _). lia.
Qed.

Lemma pairs_thread th : th ∈ grid3 blocks -> (pairs th = [] /\ f th = Ret 0) \/
  exists p q, in_volume im p /\ in_volume im q /\ pairs th = [(p, q)] /\ f th = unite_with (voffset im p) (voffset im q).
Proof.
  intros Hth. pose proof (pairs_sound th) as Hs. rewrite (j_thread _ _ _ _ _ _ _ HJ th Hth). unfold pairs in *. fold (on th).
  destruct (on th); [|by left]. right. destruct (Hs _ _ Hth (list_elem_of_here _ _)) as (_ & _ & (Hp & Hq & _)).
  exists (gc th), (back a (gc th)). split_and!; [done..|]. cbv zeta. by rewrite !vdst_at_offset.
Qed.

Lemma pairs_united W : rel_sub within W -> rel_eq
  (cl W (grid3 blocks ≫= fun th => pair_offs volume_grid <$> pairs th)) (rtsc (fun i j => W i j \/ across a i j)).
Proof.
  intros HW. apply (seam_united volume_grid pairs _ W (seam a) (back a) (fun p => Z.to_nat (coord l p) + Z.to_nat (coord o p))%nat);
    [exact pairs_sound|].
  intros p Hs Hadj. pose proof (vadjacent_alike _ _ Hadj) as Ha. destruct (j_all _ _ _ _ _ _ _ HJ p Hs) as (th & Hth & E).
  assert (Hr : in_shape im (d_z (gc th)) (d_y (gc th)) (d_x (gc th)) = true).
  { rewrite E. destruct Hs as (Hp & _). apply in_shape_volume; by destruct Hp as ([? ?] & [? ?] & [? ?]). }
  destruct (j_seam _ _ _ _ _ _ _ HJ th Hth Hr) as [_ Hu]. rewrite E in Hu.
  destruct (unites th) eqn:Hu'.
  { left. exists th. split; [done|]. unfold pairs, on. rewrite Hr, Hu', E. by apply list_elem_of_singleton. }
  right. unfold joins in Hu. rewrite Ha in Hu. cbn [andb] in Hu. symmetry in Hu. destruct (j_ne _ _ _ _ _ _ _ HJ) as [Hal Hao].
  assert (Hmu : forall c, c = l \/ c = o -> 0 < coord c p ->
    (Z.to_nat (coord l (back c p)) + Z.to_nat (coord o (back c p)) < Z.to_nat (coord l p) + Z.to_nat (coord o p))%nat).
  { intros c Hc H. destruct (decide (c = l)), (decide (c = o)); try (subst; by destruct Hc).
    all: pose proof (coord_pos l p (proj1 Hs)); pose proof (coord_pos o p (proj1 Hs)).
    all: destruct Hc; subst; rewrite ?coord_back, ?coord_back_ne by congruence; lia. }
  assert (Hback : forall c, c = l \/ c = o -> a <> c ->
    (coord c p mod width c =? 0) || negb (valike p (back c p)) || negb (valike p (back a (back c p))) = false ->
    exists p', (Z.to_nat (coord l p') + Z.to_nat (coord o p') < Z.to_nat (coord l p) + Z.to_nat (coord o p))%nat /\ seam a p' /\
      vadjacent im p' (back a p') /\ rtsc W (voffset im p) (voffset im p') /\ rtsc W (voffset im (back a p)) (voffset im (back a p'))).
  { intros c Hc Hac [[Hm H1]%orb_false_iff H2]%orb_false_iff. apply Z.eqb_neq in Hm. apply negb_false_iff in H1, H2.
    destruct (seam_square W a c p HW Hac Hs Ha Hm H1 H2) as (? & ? & ? & ? & ?). exists (back c p).
    split_and!; [by apply Hmu|done..]. }
  apply andb_false_iff in Hu as [Hu|Hu]; [by apply (Hback l); [left|..]|by apply (Hback o); [right|..]].
Qed.

Lemma joining_kernel W d : forest vvalid d -> rel_eq (rtsc (edges vvalid d)) (rtsc W) -> rel_sub within W ->
  Ends d (f <$> grid3 blocks) /\
  forall d' rs, Runs d (f <$> grid3 blocks) d' rs -> forest vvalid d' /\ (forall i, ~ vvalid i -> d' i = d i) /\
    rel_eq (rtsc (edges vvalid d')) (rtsc (fun i j => W i j \/ across a i j)).
Proof.
  intros Hf Hc HW. destruct (reduction_kernel volume_grid volume_grid_ok f pairs (grid3 blocks) d Hf pairs_thread) as [Hend Hall].
  split; [done|]. intros d' rs Hr. destruct (Hall _ _ Hr) as (Hf2 & Hout & Hc2). split_and!; [done..|].
  etrans; [exact Hc2|]. etrans; [by apply cl_base_eq|]. by apply pairs_united.
Qed.
End Joining.

(** ** The three kernels *)

Lemma labBlocks3_val : labBlocks3 im = Dim3 ((shape_x im + 31) / 32) ((shape_y im + 3) / 4) ((shape_z im + 1) / 2).
Proof.
  destruct shape_bounds as (Hx & Hy & Hz). unfold labBlocks3, BW, BH, BD. rewrite !DivUp_spec by lia. f_equal; dlia.
Qed.

Lemma redBlocks3_val :
  redBlocksZ3 im = Dim3 ((shape_x im + 31) / 32) ((shape_y im + 3) / 4) (((shape_z im + 1) / 2 + 1) / 2) /\
  redBlocksY3 im = Dim3 ((shape_x im + 31) / 32) ((shape_z im + 3) / 4) (((shape_y im + 3) / 4 + 1) / 2) /\
  redBlocksX3 im = Dim3 ((shape_z im + 31) / 32) ((shape_y im + 3) / 4) (((shape_x im + 31) / 32 + 1) / 2).
Proof.
  destruct shape_bounds as (Hx & Hy & Hz). unfold redBlocksZ3, redBlocksY3, redBlocksX3. rewrite labBlocks3_val; cbn.
  unfold BW, BH, BD. rewrite !DivUp_spec by dlia. split_and!; f_equal; dlia.
Qed.

Lemma z_gc_at th : th ∈ grid3 (redBlocksZ3 im) -> let b := blockIdx3 th in let t := threadIdx3 th in
  z_gc th = Dim3 (d_x b * 32 + d_x t) (d_y b * 4 + d_y t) ((d_z b * 2 + d_z t) * 2 + 2).
Proof.
  intros [Hb Ht]%elem_of_grid3 b t. destruct shape_bounds as (Hx & Hy & Hz). rewrite (proj1 redBlocks3_val) in Hb; cbn in Hb.
  unfold z_gc, BW, BH, BD. fold b t in Hb, Ht |- *. rewrite !wraps_small by (unfold in_s; dlia). done.
Qed.
Lemma y_gc_at th : th ∈ grid3 (redBlocksY3 im) -> let b := blockIdx3 th in let t := threadIdx3 th in
  y_gc th = Dim3 (d_x b * 32 + d_x t) ((d_z b * 2 + d_z t) * 4 + 4) (d_y b * 4 + d_y t).
Proof.
  intros [Hb Ht]%elem_of_grid3 b t. destruct shape_bounds as (Hx & Hy & Hz).
  rewrite (proj1 (proj2 redBlocks3_val)) in Hb; cbn in Hb.
  unfold y_gc, BW, BH, BD. fold b t in Hb, Ht |- *. rewrite !wraps_small by (unfold in_s; dlia). done.
Qed.
Lemma x_gc_at th : th ∈ grid3 (redBlocksX3 im) -> let b := blockIdx3 th in let t := threadIdx3 th in
  x_gc th = Dim3 ((d_z b * 2 + d_z t) * 32 + 32) (d_y b * 4 + d_y t) (d_x b * 32 + d_x t).
Proof.
  intros [Hb Ht]%elem_of_grid3 b t. destruct shape_bounds as (Hx & Hy & Hz).
  rewrite (proj2 (proj2 redBlocks3_val)) in Hb; cbn in Hb.
  unfold x_gc, BW, BH, BD. fold b t in Hb, Ht |- *. rewrite !wraps_small by (unfold in_s; dlia). done.
Qed.

Lemma open_choice (b : bool) (v x y : Z) :
  negb (if b then false else v =? x) || negb (if b then false else v =? y) = b || negb (v =? x) || negb (v =? y).
Proof using Type. by destruct b, (v =? x), (v =? y). Qed.

Lemma open_lane (b : bool) (v x y x' y' : Z) : (b = false -> x = x' /\ y = y') ->
  b || negb (v =? x) || negb (v =? y) = b || negb (v =? x') || negb (v =? y').
Proof using Type. destruct b; [done|]. by intros [-> ->]. Qed.

(** The lane below is at the voxel before along the axis of the lanes, when it is in the volume. *)
Lemma lane_value undef blocks (gc : gthread3 -> dim3) runs_on l th (f : dim3 -> dim3) :
  (forall th, runs_on th = in_shape im (d_z (gc th)) (d_y (gc th)) (d_x (gc th))) ->
  th ∈ grid3 blocks -> 0 < d_x (threadIdx3 th) -> gc (lane_below th) = back l (gc th) -> in_volume im (back l (gc th)) ->
  shfl3 undef runs_on th (fun th => vvalue im (f (gc th))) = vvalue im (f (back l (gc th))).
Proof using Type.
  intros Hruns Hth H E Hv. rewrite (shfl3_below _ _ blocks); [by rewrite E|done..|].
  rewrite Hruns, E. destruct Hv as ([??]&[??]&[??]). by apply in_shape_volume.
Qed.

Variable undef : Z -> Z.

Lemma z_joining : joining AZ AX AY (redBlocksZ3 im) z_gc (z_unites3 undef im) (z_thread3 undef im).
Proof.
  split; [done| | |].
  - intros th Hth Hr. pose proof (z_gc_at th Hth) as E. cbv zeta in E. pose proof Hth as [Hb Ht]%elem_of_grid3.
    assert (Hp : in_volume im (z_gc th)) by (apply in_shape_volume; [rewrite E; cbn; lia..|done]).
    split; [split; [done|]; rewrite E; unfold width, larThreads, BD; cbn; dlia|].
    change (z_unites3 undef im th) with (valike (z_gc th) (back AZ (z_gc th)) &&
      (((d_x (z_gc th) mod BW =? 0) || negb (vvalue im (z_gc th) =? shfl3 undef (z_runs_on3 im) th (fun th => vvalue im (z_gc th)))
        || negb (vvalue im (z_gc th) =? shfl3 undef (z_runs_on3 im) th (fun th => vvalue im (back AZ (z_gc th))))) &&
       (negb (if d_y (z_gc th) mod BH =? 0 then false else vvalue im (z_gc th) =? vvalue im (back AY (z_gc th))) ||
        negb (if d_y (z_gc th) mod BH =? 0 then false else vvalue im (z_gc th) =? vvalue im (back AZ (back AY (z_gc th))))))).
    rewrite open_choice. unfold joins. f_equal. f_equal. apply open_lane. intros Hm%Z.eqb_neq.
    assert (Hlane : 0 < d_x (threadIdx3 th)) by (change (d_x (z_gc th) mod 32 <> 0) in Hm; rewrite E in Hm; cbn [d_x d_z] in Hm; clear -Hm Ht; dlia).
    assert (El : z_gc (lane_below th) = back AX (z_gc th)).
    { destruct (sibling3_below _ _ Hth Hlane) as [_ Hs]. rewrite (z_gc_at _ Hs), E. unfold lane_below; cbn. f_equal; lia. }
    assert (Hv : in_volume im (back AX (z_gc th))) by (apply back_in_volume; [done|rewrite E; cbn; lia]).
    split; [exact (lane_value undef _ z_gc (z_runs_on3 im) AX th (fun p => p) ltac:(done) Hth Hlane El Hv)|
            exact (lane_value undef _ z_gc (z_runs_on3 im) AX th (back AZ) ltac:(done) Hth Hlane El Hv)].
  - intros [x y z] (Hp & Hw & Hm). destruct Hp as (Hx & Hy & Hz). unfold width, larThreads, BD in Hw, Hm; cbn in *.
    set (th := MkGThread3 (Dim3 (x / 32) (y / 4) ((z / 2 - 1) / 2)) (Dim3 (x mod 32) (y mod 4) ((z / 2 - 1) mod 2))).
    assert (Hin : th ∈ grid3 (redBlocksZ3 im)).
    { apply elem_of_grid3. rewrite (proj1 redBlocks3_val). unfold th; cbn. dlia. }
    exists th. split; [done|]. rewrite (z_gc_at th Hin). unfold th; cbn. f_equal; dlia.
  - intros th _. unfold z_thread3, z_runs_on3. destruct (in_shape im _ _ _); [|done]. cbn. by destruct (z_unites3 undef im th).
Qed.

Lemma y_joining : joining AY AX AZ (redBlocksY3 im) y_gc (y_unites3 undef im) (y_thread3 undef im).
Proof.
  split; [done| | |].
  - intros th Hth Hr. pose proof (y_gc_at th Hth) as E. cbv zeta in E. pose proof Hth as [Hb Ht]%elem_of_grid3.
    assert (Hp : in_volume im (y_gc th)) by (apply in_shape_volume; [rewrite E; cbn; lia..|done]).
    split; [split; [done|]; rewrite E; unfold width, larThreads, BH; cbn; dlia|].
    change (y_unites3 undef im th) with (valike (y_gc th) (back AY (y_gc th)) &&
      ((negb (if d_z (y_gc th) mod BD =? 0 then false else vvalue im (y_gc th) =? vvalue im (back AZ (y_gc th))) ||
        negb (if d_z (y_gc th) mod BD =? 0 then false else vvalue im (y_gc th) =? vvalue im (back AY (back AZ (y_gc th))))) &&
       ((d_x (y_gc th) mod BW =? 0) || negb (vvalue im (y_gc th) =? shfl3 undef (y_runs_on3 im) th (fun th => vvalue im (y_gc th)))
        || negb (vvalue im (y_gc th) =? shfl3 undef (y_runs_on3 im) th (fun th => vvalue im (back AY (y_gc th))))))).
    rewrite open_choice, (andb_comm (_ || _ || _)). unfold joins. f_equal. f_equal. apply open_lane. intros Hm%Z.eqb_neq.
    assert (Hlane : 0 < d_x (threadIdx3 th)) by (change (d_x (y_gc th) mod 32 <> 0) in Hm; rewrite E in Hm; cbn [d_x d_z] in Hm; clear -Hm Ht; dlia).
    assert (El : y_gc (lane_below th) = back AX (y_gc th)).
    { destruct (sibling3_below _ _ Hth Hlane) as [_ Hs]. rewrite (y_gc_at _ Hs), E. unfold lane_below; cbn. f_equal; lia. }
    assert (Hv : in_volume im (back AX (y_gc th))) by (apply back_in_volume; [done|rewrite E; cbn; lia]).
    split; [exact (lane_value undef _ y_gc (y_runs_on3 im) AX th (fun p => p) ltac:(done) Hth Hlane El Hv)|
            exact (lane_value undef _ y_gc (y_runs_on3 im) AX th (back AY) ltac:(done) Hth Hlane El Hv)].
  - intros [x y z] (Hp & Hw & Hm). destruct Hp as (Hx & Hy & Hz). unfold width, larThreads, BH in Hw, Hm; cbn in *.
    set (th := MkGThread3 (Dim3 (x / 32) (z / 4) ((y / 4 - 1) / 2)) (Dim3 (x mod 32) (z mod 4) ((y / 4 - 1) mod 2))).
    assert (Hin : th ∈ grid3 (redBlocksY3 im)).
    { apply elem_of_grid3. rewrite (proj1 (proj2 redBlocks3_val)). unfold th; cbn. dlia. }
    exists th. split; [done|]. rewrite (y_gc_at th Hin). unfold th; cbn. f_equal; dlia.
  - intros th _. unfold y_thread3, y_runs_on3. destruct (in_shape im _ _ _); [|done]. cbn. by destruct (y_unites3 undef im th).
Qed.

Lemma x_joining : joining AX AZ AY (redBlocksX3 im) x_gc (x_unites3 undef im) (x_thread3 undef im).
Proof.
  split; [done| | |].
  - intros th Hth Hr. pose proof (x_gc_at th Hth) as E. cbv zeta in E. pose proof Hth as [Hb Ht]%elem_of_grid3.
    assert (Hp : in_volume im (x_gc th)) by (apply in_shape_volume; [rewrite E; cbn; lia..|done]).
    split; [split; [done|]; rewrite E; unfold width, larThreads, BW; cbn; dlia|].
    change (x_unites3 undef im th) with (valike (x_gc th) (back AX (x_gc th)) &&
      (((d_z (x_gc th) mod BD =? 0) || negb (vvalue im (x_gc th) =? shfl3 undef (x_runs_on3 im) th (fun th => vvalue im (x_gc th)))
        || negb (vvalue im (x_gc th) =? shfl3 undef (x_runs_on3 im) th (fun th => vvalue im (back AX (x_gc th))))) &&
       (negb (if d_y (x_gc th) mod BH =? 0 then false else vvalue im (x_gc th) =? vvalue im (back AY (x_gc th))) ||
        negb (if d_y (x_gc th) mod BH =? 0 then false else vvalue im (x_gc th) =? vvalue im (back AX (back AY (x_gc th))))))).
    rewrite open_choice. unfold joins. f_equal. f_equal. apply open_lane. intros Hm%Z.eqb_neq.
    assert (Hlane : 0 < d_x (threadIdx3 th)) by (change (d_z (x_gc th) mod 2 <> 0) in Hm; rewrite E in Hm; cbn [d_x d_z] in Hm; clear -Hm Ht; dlia).
    assert (El : x_gc (lane_below th) = back AZ (x_gc th)).
    { destruct (sibling3_below _ _ Hth Hlane) as [_ Hs]. rewrite (x_gc_at _ Hs), E. unfold lane_below; cbn. f_equal; lia. }
    assert (Hv : in_volume im (back AZ (x_gc th))) by (apply back_in_volume; [done|rewrite E; cbn; lia]).
    split; [exact (lane_value undef _ x_gc (x_runs_on3 im) AZ th (fun p => p) ltac:(done) Hth Hlane El Hv)|
            exact (lane_value undef _ x_gc (x_runs_on3 im) AZ th (back AX) ltac:(done) Hth Hlane El Hv)].
  - intros [x y z] (Hp & Hw & Hm). destruct Hp as (Hx & Hy & Hz). unfold width, larThreads, BW in Hw, Hm; cbn in *.
    set (th := MkGThread3 (Dim3 (z / 32) (y / 4) ((x / 32 - 1) / 2)) (Dim3 (z mod 32) (y mod 4) ((x / 32 - 1) mod 2))).
    assert (Hin : th ∈ grid3 (redBlocksX3 im)).
    { apply elem_of_grid3. rewrite (proj2 (proj2 redBlocks3_val)). unfold th; cbn. dlia. }
    exists th. split; [done|]. rewrite (x_gc_at th Hin). unfold th; cbn. f_equal; dlia.
  - intros th _. unfold x_thread3, x_runs_on3. destruct (in_shape im _ _ _); [|done]. cbn. by destruct (x_unites3 undef im th).
Qed.

(** ** The five kernels *)

Lemma elem_of_labBlocks3 b : b ∈ triples (labBlocks3 im) <-> in_vblocks b.
Proof.
  rewrite elem_of_triples, labBlocks3_val; cbn. destruct shape_bounds as (Hx & Hy & Hz). unfold in_vblocks. dlia.
Qed.

Lemma blocks_kernel3 d d1 : BlockLabel3D undef (labBlocks3 im) [im] [d] [d1] ->
  forest vvalid d1 /\ rel_eq (rtsc (edges vvalid d1)) (rtsc within) /\ forall i, ~ vvalid i -> d1 i = d i.
Proof.
  intros H. inversion H as [outs wss Hall Hlen Hperm E]; subst. destruct wss as [|ws [|]]; try done. injection E as <-.
  specialize (Hperm 0%nat ws eq_refl).
  apply (blocks_classes volume_grid volume_grid_ok (inside_block3 im) (fun b ws => block3_runs undef b [im] [ws])
    (triples (labBlocks3 im))) with (outs := (fun out => default [] (out !! 0%nat)) <$> outs); [| | |..|done].
  - intros b i Hb. by apply vinside_local.
  - exact elem_of_labBlocks3.
  - intros b ws' Hb Hr. destruct (proj2 (block3_spec b Hb undef) _ Hr) as (r & Hr' & [= ->]). by exists r.
  - apply Forall2_fmap_r. eapply Forall2_impl; [|exact Hall]. intros b out Hr. cbn.
    inversion Hr as [|? ? s0 s1 rs1 ? R1 Hloop]; subst. by inversion Hloop; subst.
Qed.

Lemma blocks_exist3 d : exists d1, BlockLabel3D undef (labBlocks3 im) [im] [d] [d1].
Proof.
  assert (H : exists outs, Forall2 (fun b out => block3_runs undef b [im] out) (triples (labBlocks3 im)) outs).
  { assert (Hin : forall b, b ∈ triples (labBlocks3 im) -> in_vblocks b) by (intros; by apply elem_of_labBlocks3).
    induction (triples (labBlocks3 im)) as [|b l IH]; [by exists []|].
    destruct IH as (outs & Ho); [intros; apply Hin; by right|].
    destruct (block3_exists b (Hin b (list_elem_of_here _ _)) undef) as (ws & Hws). exists ([ws] :: outs). by constructor. }
  destruct H as (outs & H). set (ws := concat ((fun out => default [] (out !! 0%nat)) <$> outs)).
  exists (store_all ws d). apply (block_label3 undef _ _ [d] outs [ws]); [done..|].
  intros [|w] ws'; [|done]. by intros [= <-].
Qed.

Lemma lab_gc3_at th : th ∈ grid3 (labBlocks3 im) -> let b := blockIdx3 th in let t := threadIdx3 th in
  lab_gc3 th = Dim3 (d_x b * 32 + d_x t) (d_y b * 4 + d_y t) (d_z b * 2 + d_z t).
Proof.
  intros [Hb Ht]%elem_of_grid3 b t. destruct shape_bounds as (Hx & Hy & Hz). rewrite labBlocks3_val in Hb; cbn in Hb.
  unfold lab_gc3, BW, BH, BD. fold b t in Hb, Ht |- *. rewrite !wraps_small by (unfold in_s; dlia). done.
Qed.

Lemma lab_gc3_pos th : th ∈ grid3 (labBlocks3 im) -> 0 <= d_x (lab_gc3 th) /\ 0 <= d_y (lab_gc3 th) /\ 0 <= d_z (lab_gc3 th).
Proof. intros Hth. rewrite (lab_gc3_at th Hth). apply elem_of_grid3 in Hth as [Hb Ht]. cbn. lia. Qed.

Lemma lab_thread3_of p : in_volume im p -> exists th, th ∈ grid3 (labBlocks3 im) /\ lab_gc3 th = p.
Proof.
  intros Hp. destruct (g_pixel _ volume_grid_ok p Hp) as [Hb Hi]. cbn in Hb, Hi.
  set (th := MkGThread3 (vblk p) (tc3 (vidx p))).
  assert (Hin : th ∈ grid3 (labBlocks3 im)).
  { apply elem_of_grid3. split; [by apply elem_of_triples, elem_of_labBlocks3|]. by apply tc3_bound. }
  exists th. split; [done|]. rewrite (lab_gc3_at th Hin). exact (g_place_idx _ volume_grid_ok p Hp).
Qed.

Lemma resolve_kernel3 d : forest vvalid d ->
  Ends d (resolve_thread3 im <$> grid3 (labBlocks3 im)) /\
  forall d', ResolveLabels3D im d d' -> (forall p, in_volume im p -> d' (voffset im p) = root d (voffset im p)) /\
    forall i, ~ vvalid i -> d' i = d i.
Proof.
  intros Hf. set (px th := let gc := lab_gc3 th in if in_shape im (d_z gc) (d_y gc) (d_x gc) then Some gc else None).
  destruct (g_resolve volume_grid volume_grid_ok (resolve_thread3 im) px (grid3 (labBlocks3 im)) d Hf) as [Hend Hall].
  - intros th Hth. destruct (lab_gc3_pos th Hth) as (Hx & Hy & Hz). unfold px, resolve_thread3. cbv zeta.
    destruct (in_shape im _ _ _) eqn:E; [|done]. cbn [negb]. apply in_shape_volume in E; [|done..]. split; [done|].
    by rewrite vdst_at_offset.
  - intros p Hp. destruct (lab_thread3_of p Hp) as (th & Hth & E). exists th. split; [done|]. unfold px. rewrite E. cbv zeta.
    pose proof Hp as ([? _] & [? _] & [? _]). by rewrite (proj2 (in_shape_volume p ltac:(done) ltac:(done) ltac:(done)) Hp).
  - split; [done|]. intros d' [rs Hr]. exact (Hall _ _ Hr).
Qed.

(** The edges inside the blocks and across their sides are all there are. *)
Lemma all_edges3 : rel_eq
  (rtsc (fun i j => ((within i j \/ across AZ i j) \/ across AY i j) \/ across AX i j))
  (rtsc (g_labelled volume_grid (fun _ _ => True))).
Proof.
  apply rtsc_eq. intros i j. split.
  - intros [[[H|H]|H]|H]; destruct H as (p & q & Ha & _ & -> & ->); by exists p, q.
  - intros (p & q & Ha & _ & -> & ->). pose proof Ha as (Hp & Hq & _ & a & ->).
    destruct (decide (coord a p mod width a = 0)) as [Hm|Hm].
    2:{ left; left; left. apply within_back; [done..|]. by apply vadjacent_alike. }
    assert (H : across a (voffset im p) (voffset im (back a p))).
    { exists p, (back a p). split; [done|]. split; [|done]. split; [|done]. split; [done|]. split; [|done].
      pose proof (coord_pos a _ Hq) as H0. rewrite coord_back in H0. pose proof (width_pos a) as Hw.
      pose proof (Z_div_mod_eq_full (coord a p) (width a)) as Hd. clear -H0 Hw Hd Hm. rewrite Hm in Hd.
      assert (0 < coord a p / width a) by nia. nia. }
    destruct a; [by right|left; by right|left; left; by right].
Qed.

(** No kernel runs for ever or gets stuck. *)
Definition vkernels_end (d : store) : Prop :=
  (forall b, b ∈ triples (labBlocks3 im) -> block3_ends b undef) /\
  forall d1, BlockLabel3D undef (labBlocks3 im) [im] [d] [d1] ->
  Ends d1 (z_thread3 undef im <$> grid3 (redBlocksZ3 im)) /\ forall d2, ZLabelReduction3D undef im d1 d2 ->
  Ends d2 (y_thread3 undef im <$> grid3 (redBlocksY3 im)) /\ forall d3, YLabelReduction3D undef im d2 d3 ->
  Ends d3 (x_thread3 undef im <$> grid3 (redBlocksX3 im)) /\ forall d4, XLabelReduction3D undef im d3 d4 ->
  Ends d4 (resolve_thread3 im <$> grid3 (labBlocks3 im)).

Definition joined (d' : store) (W : relation Z) : Prop := forest vvalid d' /\ rel_eq (rtsc (edges vvalid d')) (rtsc W).

Lemma joining_step a l o blocks gc unites f W d : joining a l o blocks gc unites f -> joined d W -> rel_sub within W ->
  Ends d (f <$> grid3 blocks) /\
  forall d', (exists rs, Runs d (f <$> grid3 blocks) d' rs) ->
    joined d' (fun i j => W i j \/ across a i j) /\ forall i, ~ vvalid i -> d' i = d i.
Proof.
  intros HJ [Hf Hc] HW. destruct (joining_kernel a l o blocks gc unites f HJ W d Hf Hc HW) as [Hend Hall].
  split; [done|]. intros d' [rs Hr]. destruct (Hall d' rs Hr) as (? & ? & ?). by split.
Qed.

Lemma vkernels_spec d :
  vkernels_end d /\
  forall d', label_kernels3 undef im d d' ->
    (forall p, in_volume im p -> vleast_label p (d' (voffset im p))) /\ forall i, ~ vvalid i -> d' i = d i.
Proof.
  assert (H1 : forall d1, BlockLabel3D undef (labBlocks3 im) [im] [d] [d1] -> joined d1 within /\ forall i, ~ vvalid i -> d1 i = d i).
  { intros d1 R1. destruct (blocks_kernel3 d d1 R1) as (? & ? & ?). by split. }
  assert (Hs1 : rel_sub within within) by done.
  assert (Hs2 : forall W a, rel_sub within W -> rel_sub within (fun i j => W i j \/ across a i j)) by (intros W a HW i j ?; left; by apply HW).
  pose proof (fun d1 J1 => joining_step _ _ _ _ _ _ _ within d1 z_joining J1 Hs1) as H2.
  pose proof (fun d2 J2 => joining_step _ _ _ _ _ _ _ _ d2 y_joining J2 (Hs2 _ AZ Hs1)) as H3.
  pose proof (fun d3 J3 => joining_step _ _ _ _ _ _ _ _ d3 x_joining J3 (Hs2 _ AY (Hs2 _ AZ Hs1))) as H4.
  split.
  - split; [intros b Hb%elem_of_labBlocks3; by apply block3_spec|]. intros d1 R1. destruct (H1 d1 R1) as [J1 _].
    split; [by apply H2|]. intros d2 R2. destruct (proj2 (H2 d1 J1) d2 R2) as [J2 _].
    split; [by apply H3|]. intros d3 R3. destruct (proj2 (H3 d2 J2) d3 R3) as [J3 _].
    split; [by apply H4|]. intros d4 R4. destruct (proj2 (H4 d3 J3) d4 R4) as [[Hf _] _]. by apply resolve_kernel3.
  - intros d' (d1 & d2 & d3 & d4 & R1 & R2 & R3 & R4 & R').
    destruct (H1 d1 R1) as [J1 O1]. destruct (proj2 (H2 d1 J1) d2 R2) as [J2 O2].
    destruct (proj2 (H3 d2 J2) d3 R3) as [J3 O3]. destruct (proj2 (H4 d3 J3) d4 R4) as [[Hf4 Hc4] O4].
    destruct (proj2 (resolve_kernel3 d4 Hf4) _ R') as [Hd' O5].
    split; [|intros i Hi; by rewrite O5, O4, O3, O2, O1].
    intros p Hp. rewrite Hd' by done. apply (g_least_root volume_grid volume_grid_ok); [done| |done].
    etrans; [exact Hc4|]. apply all_edges3.
Qed.

Lemma vkernels_exist d : exists d', label_kernels3 undef im d d'.
Proof.
  destruct (vkernels_spec d) as [[_ Hend] _]. destruct (blocks_exist3 d) as [d1 R1].
  destruct (Hend d1 R1) as [(d2 & rs2 & R2)%Ends_run H2]. destruct (H2 d2) as [(d3 & rs3 & R3)%Ends_run H3]; [by exists rs2|].
  destruct (H3 d3) as [(d4 & rs4 & R4)%Ends_run H4]; [by exists rs3|].
  assert (E4 : Ends d4 (resolve_thread3 im <$> grid3 (labBlocks3 im))) by (apply H4; by exists rs4).
  apply Ends_run in E4 as (d' & rs & R').
  exists d', d1, d2, d3, d4. split_and!; [done|by exists rs2|by exists rs3|by exists rs4|by exists rs].
Qed.

Lemma vconnected_volume p q : in_volume im p -> vconnected im p q -> in_volume im q.
Proof. apply (g_connected_img volume_grid volume_grid_ok). Qed.
End Volumes.

(** C8: on a volume the five labelling kernels, in a call for one sample and whatever
    the order in which the threads take their steps and whatever the shared memory and
    the labels hold at first: no run goes on for ever and each goes on to the end of
    the last kernel; then each voxel has the least offset among the voxels of its
    connected component, two voxels have one label exactly when they are connected,
    and nothing outside the volume is written. *)
Theorem volume_labels_are_components (undef : Z -> Z) (im : Volume) (d : store) (Him : volume_ok im) :
  (vkernels_end im undef d /\ exists d', label_kernels3 undef im d d') /\
  forall d', label_kernels3 undef im d d' ->
    (forall p, in_volume im p -> vleast_label im p (d' (voffset im p))) /\
    (forall p q, in_volume im p -> in_volume im q -> d' (voffset im p) = d' (voffset im q) <-> vconnected im p q) /\
    forall i, ~ vvalid im i -> d' i = d i.
Proof.
  split; [split; [by apply vkernels_spec|by apply vkernels_exist]|]. intros d' Hrun.
  destruct (proj2 (vkernels_spec im Him undef d) d' Hrun) as [Hleast Hout].
  split_and!; [done| |done]. intros p q Hp Hq.
  by apply (g_least_same (volume_grid im) (volume_grid_ok im Him)); [..|apply Hleast|apply Hleast].
Qed.

(** ** Samples *)

(** The threads in the order of their numbers, the blocks likewise. *)
Definition block3_seq (undef : Z -> Z) (im : Volume) (b : dim3) : option (list (Z * Z)) :=
  run_then (block3_init undef im b <$> block_tids3) (fun _ => 0) (fun s1 _ =>
  run_then (block3_find undef im b <$> block_tids3) s1 (fun s2 _ =>
  run_then (block3_reduce undef im b <$> block_tids3) s2 (fun s3 _ =>
  run_then (block3_store im b <$> block_tids3) s3 (fun _ rs => Some (concat rs))))).

Fixpoint blocks3_seq (undef : Z -> Z) (im : Volume) (bs : list dim3) : option (list (list (Z * Z))) :=
  match bs with
  | [] => Some []
  | b :: bs =>
      match block3_seq undef im b, blocks3_seq undef im bs with
      | Some ws, Some outs => Some (ws :: outs)
      | _, _ => None
      end
  end.

Definition label_seq3 (undef : Z -> Z) (im : Volume) (d : store) : option store :=
  match blocks3_seq undef im (triples (labBlocks3 im)) with
  | None => None
  | Some outs =>
      run_then (z_thread3 undef im <$> grid3 (redBlocksZ3 im)) (store_all (concat outs) d) (fun d2 _ =>
      run_then (y_thread3 undef im <$> grid3 (redBlocksY3 im)) d2 (fun d3 _ =>
      run_then (x_thread3 undef im <$> grid3 (redBlocksX3 im)) d3 (fun d4 _ =>
      run_then (resolve_thread3 im <$> grid3 (labBlocks3 im)) d4 (fun d' _ => Some d'))))
  end.

Lemma block3_seq_runs undef im b ws : block3_seq undef im b = Some ws -> block3_runs undef b [im] [ws].
Proof.
  intros (s1 & rs1 & R1 & (s2 & rs2 & R2 & (s3 & rs3 & R3 & (s4 & rs4 & R4 & [= <-])%run_then_Runs)%run_then_Runs)%run_then_Runs)%run_then_Runs.
  eapply block3_some; [exact R1|]. by eapply loop_last.
Qed.

Lemma blocks3_seq_runs undef im bs outs : blocks3_seq undef im bs = Some outs ->
  Forall2 (fun b out => block3_runs undef b [im] out) bs ((fun ws => [ws]) <$> outs).
Proof.
  revert outs; induction bs as [|b bs IH]; intros outs H; cbn in H; [simplify_eq; constructor|].
  destruct (block3_seq undef im b) as [ws|] eqn:E1; [|done].
  destruct (blocks3_seq undef im bs) as [outs'|] eqn:E2; [|done]. simplify_eq.
  constructor; [by apply block3_seq_runs|auto].
Qed.

Lemma label_seq3_kernels undef im d d' : label_seq3 undef im d = Some d' -> label_kernels3 undef im d d'.
Proof.
  unfold label_seq3. destruct (blocks3_seq undef im _) as [outs|] eqn:E; [|done].
  intros (d2 & rs2 & R2 & (d3 & rs3 & R3 & (d4 & rs4 & R4 & (d5 & rs5 & R5 & [= <-])%run_then_Runs)%run_then_Runs)%run_then_Runs)%run_then_Runs.
  exists (store_all (concat outs) d), d2, d3, d4. split_and!; [|by exists rs2|by exists rs3|by exists rs4|by exists rs5].
  apply (block_label3 undef _ _ [d] ((fun ws => [ws]) <$> outs) [concat outs]); [by apply blocks3_seq_runs|done|].
  intros [|w] ws; [|done]. intros [= <-]. rewrite <- list_fmap_compose. by rewrite list_fmap_id.
Qed.

Module Shapes.

(** Voxels given by layers of rows. *)
Definition layers (l : list (list (list Z))) (z y x : Z) : Z := ((l !!! Z.to_nat z) !!! Z.to_nat y) !!! Z.to_nat x.
Definition volume (l : list (list (list Z))) : Volume :=
  let ny := Z.of_nat (length (hd [] l)) in
  let nx := Z.of_nat (length (hd [] (hd [] l))) in
  MkVolume nx ny (Z.of_nat (length l)) (layers l) None None (4 * (ny * nx)) (4 * nx).

Definition labels_of3 (im : Volume) (d : store) : list (list (list Z)) :=
  (fun z => (fun y => (fun x => d (voffset im (Dim3 x y z))) <$> zrange 0 (shape_x im)) <$> zrange 0 (shape_y im)) <$> zrange 0 (shape_z im).

(** Two corners of the first layer that meet in the third only, across the side of blocks. *)
Definition bridge : Volume := volume [[[1; 0; 1]; [2; 0; 2]]; [[1; 0; 1]; [3; 0; 3]]; [[1; 1; 1]; [3; 3; 0]]].

Example bridge_labels : (labels_of3 bridge <$> label_seq3 (fun _ => 9) bridge (fun _ => 77)) =
  Some [[[0; 1; 0]; [3; 1; 5]]; [[0; 1; 0]; [9; 1; 11]]; [[0; 0; 0]; [9; 9; 17]]].
Proof. vm_compute. reflexivity. Qed.

Lemma bridge_ok : volume_ok bridge.
Proof. split; cbn; try lia; [by exists 3|by exists 6]. Defined.

Example bridge_corners :
  (fun d => (d (voffset bridge (Dim3 0 0 0)), d (voffset bridge (Dim3 2 0 0)), d (voffset bridge (Dim3 1 0 0))))
    <$> label_seq3 (fun _ => 9) bridge (fun _ => 77) = Some (0, 0, 1).
Proof. vm_compute. reflexivity. Qed.

Lemma corners_read3 (o : option store) :
  (fun d => (d (voffset bridge (Dim3 0 0 0)), d (voffset bridge (Dim3 2 0 0)), d (voffset bridge (Dim3 1 0 0)))) <$> o = Some (0, 0, 1) ->
  exists d', o = Some d' /\ d' (voffset bridge (Dim3 0 0 0)) = 0 /\ d' (voffset bridge (Dim3 2 0 0)) = 0 /\ d' (voffset bridge (Dim3 1 0 0)) = 1.
Proof. destruct o as [d'|]; intros H; [|discriminate H]. exists d'. by injection H. Qed.

Lemma volume_labels_are_components_witness :
  vconnected bridge (Dim3 0 0 0) (Dim3 2 0 0) /\ ~ vconnected bridge (Dim3 0 0 0) (Dim3 1 0 0).
Proof.
  destruct (corners_read3 _ bridge_corners) as (d' & E & H0 & H1 & H2). apply label_seq3_kernels in E.
  destruct (proj2 (volume_labels_are_components (fun _ => 9) bridge (fun _ => 77) bridge_ok) d' E) as (_ & Hsame & _).
  assert (Hin : forall x, 0 <= x < 3 -> in_volume bridge (Dim3 x 0 0)) by (intros; done).
  split.
  - apply Hsame; [by apply Hin|by apply Hin|congruence].
  - intros Hc. apply Hsame in Hc; [congruence|by apply Hin|by apply Hin].
Defined.

(** *** Two samples in one call

    No barrier separates the last reads of the labels of a sample from the first
    writes of the next. In the first sample the voxels 1 and 2 of a column are alike,
    in the second the voxels 0 and 1 are. The thread of voxel 1 is at the second
    sample, and has put its label below voxel 0, when the thread of voxel 2 looks for
    the root of its label in the first: it finds 0. *)
Definition column (a b c : Z) : Volume := volume [[[a]; [b]; [c]]].
Definition first_sample : Volume := column 5 6 6.
Definition second_sample : Volume := column 5 5 6.

Definition samples_seq (undef : Z -> Z) (im im' : Volume) (b : dim3) : option (list (Z * Z) * list (Z * Z)) :=
  run_then (block3_init undef im b <$> block_tids3) (fun _ => 0) (fun s1 _ =>
  run_then (block3_find undef im b <$> block_tids3) s1 (fun s2 _ =>
  run_then (block3_reduce undef im b <$> block_tids3) s2 (fun s3 _ =>
  run_then (store_then_init undef b im im' <$> block_tids3) s3 (fun s4 rs =>
  run_then (block3_find undef im' b <$> block_tids3) s4 (fun s5 _ =>
  run_then (block3_reduce undef im' b <$> block_tids3) s5 (fun s6 _ =>
  run_then (block3_store im' b <$> block_tids3) s6 (fun _ rs' => Some (concat rs, concat rs')))))))).

Lemma samples_seq_runs undef im im' b out out' : samples_seq undef im im' b = Some (out, out') ->
  block3_runs undef b [im; im'] [out; out'].
Proof.
  intros (s1 & rs1 & R1 & (s2 & rs2 & R2 & (s3 & rs3 & R3 & (s4 & rs4 & R4 & (s5 & rs5 & R5 & (s6 & rs6 & R6 &
    (s7 & rs7 & R7 & [= <- <-])%run_then_Runs)%run_then_Runs)%run_then_Runs)%run_then_Runs)%run_then_Runs)%run_then_Runs)%run_then_Runs.
  eapply block3_some; [exact R1|]. eapply loop_next; [exact R2|exact R3|exact R4|]. by eapply loop_last.
Qed.

Example samples_stores : samples_seq (fun _ => 0) first_sample second_sample (Dim3 0 0 0) =
  Some ([(0, 0); (1, 1); (2, 0)], [(0, 0); (1, 0); (2, 2)]).
Proof. vm_compute. reflexivity. Qed.

Lemma samples_share_labels :
  block3_runs (fun _ => 0) (Dim3 0 0 0) [first_sample; second_sample] [[(0, 0); (1, 1); (2, 0)]; [(0, 0); (1, 0); (2, 2)]] /\
  vadjacent first_sample (Dim3 0 2 0) (Dim3 0 1 0).
Proof.
  split; [apply samples_seq_runs, samples_stores|]. split_and!; [done..|by exists AY].
Qed.
End Shapes.
