(* ===== verification/LabelStats.v ===== *)
(** * The kernels of Label after labelling ([cvcuda/priv/OpLabel.cu])

    Background, counting, statistics, removal of islands and relabelling of one
    sample. The definitions take the coordinates as a list: with two they are the
    kernels of images ([...2D]); those of volumes, written out in [LabelVolumeStats],
    are shown there to be the same with three.
    In these kernels a thread shares with the others only counters it changes
    atomically, marks all threads set alike, and labels no other thread changes, so
    a thread is one step; threads come in any order. A statistic of a row the tensor
    does not have is [Stuck]. *)
From S2P Require Import Prelude LabelMachine LabelForest LabelKernel.
From stdpp Require Import relations functions.
From stdpp Require Import options.

#[local] Open Scope Z_scope.

Definition REGION_NOT_MARKED : Z := 0.
Definition REGION_REMOVED : Z := 1.
Definition REGION_INSIDE_MASK : Z := 2.

(** What the kernels are given for one sample. The coordinates [gc] of an element
    are listed from [x] on. *)
Record Job := MkJob {
  value_at : list Z -> Z;            (* the pixel, after the thresholds *)
  label_at : list Z -> Z;            (* the index of [dst[gc]] in the labels of the sample *)
  pos_label : list Z -> Z;           (* [posLabel] *)
  bgLabel : option Z;
  minSize : option Z;
  mask_at : option (list Z -> Z);
  relabel : bool;
  strides0 : Z;                      (* [dst.strides()[0]] *)
  maxCapacity : option Z;            (* the rows of [stats], when there is one *)
}.

(** The labels, the counter, the rows of the statistics. *)
Record Marks := MkMarks { labels : store; count : Z; stats : list (list Z) }.

Definition set_labels (i v : Z) (m : Marks) : Marks := MkMarks (<[i := v]> (labels m)) (count m) (stats m).

(** [*stats.ptr(gc.z, (int)row, col)], read and written. *)
Definition stat (m : Marks) (row col : Z) : outcome Z := l ← rd (stats m) (i32 row); rd l col.
Definition set_stat (row col v : Z) (m : Marks) : outcome Marks :=
  l ← rd (stats m) (i32 row); l' ← wr l col v; s ← wr (stats m) (i32 row) l'; Ok (MkMarks (labels m) (count m) s).
Definition upd_stat (row col : Z) (f : Z -> Z) (m : Marks) : outcome Marks :=
  v ← stat m row col; set_stat row col (f v) m.

Definition flag : Z := 2 ^ 31.
Definition marked (label : Z) : bool := negb (Z.land label flag =? 0).
Definition mark (regionIdx : Z) : Z := Z.lor regionIdx flag.
Definition unmark (label : Z) : Z := Z.land label (flag - 1).

Section Threads.
Variable J : Job.

Definition endLabel : Z := u32 (u64 (strides0 J) / 4).
Definition is_bg (label : Z) : bool := match bgLabel J with Some bg => label =? u32 bg | None => false end.

(** The columns: the label, the corner, the sizes, the count, the mark. *)
Definition col_size (gc : list Z) : Z := 1 + Z.of_nat (length gc).
Definition col_count (gc : list Z) : Z := 1 + 2 * Z.of_nat (length gc).
Definition col_mark (gc : list Z) : Z := 2 + 2 * Z.of_nat (length gc).

(** Without the background tensor the kernels that read it read a null pointer. *)
Definition ReplaceBgLabels (gc : list Z) (m : Marks) : outcome Marks :=
  match bgLabel J with
  | None => Stuck
  | Some bg =>
      if value_at J gc =? bg then Ok (set_labels (label_at J gc) (u32 bg) m)
      else if labels m (label_at J gc) =? u32 bg then Ok (set_labels (label_at J gc) endLabel m)
      else Ok m
  end.

(** The first statistics of a region. *)
Definition first_stats (label : Z) (gc : list Z) : list Z :=
  label :: (u32 <$> gc) ++ ((fun _ => 1) <$> gc) ++ [1; REGION_NOT_MARKED].

Definition set_row (row : Z) (vs : list Z) (m : Marks) : outcome Marks :=
  mfold (fun m '(c, v) => set_stat row c v m) (zip (zrange 0 (Z.of_nat (length vs))) vs) m.

Definition CountLabels (gc : list Z) (m : Marks) : outcome Marks :=
  let label := labels m (label_at J gc) in
  if is_bg label then Ok m else
  let counted := (match bgLabel J with Some bg => (label =? endLabel) && (pos_label J gc =? u32 bg) | None => false end)
                 || (label =? pos_label J gc) in
  if negb counted then Ok m else
  let regionIdx := count m in
  let m := MkMarks (labels m) (u32 (count m + 1)) (stats m) in
  match maxCapacity J with
  | Some maxCapacity =>
      if regionIdx <? u32 maxCapacity
      then set_row regionIdx (first_stats label gc) (set_labels (label_at J gc) (mark regionIdx) m)
      else Ok m
  | None => Ok m
  end.

Definition isInsideMask (gc : list Z) : bool := match mask_at J with Some f => negb (f gc =? 0) | None => false end.

Definition sequential (regionIdx : Z) : Z :=
  match bgLabel J with
  | Some bg => if u32 bg <=? regionIdx then regionIdx + 1 else regionIdx
  | None => regionIdx
  end.

(** The sizes from the corner on, one axis after the other. *)
Definition grow_sizes (row : Z) (gc : list Z) (m : Marks) : outcome Marks :=
  mfold (fun m '(k, c) =>
    corner ← stat m row (1 + k);
    let bboxArea := Z.abs (i32 corner - c) + 1 in
    upd_stat row (col_size gc + k) (fun v => Z.max v (u32 bboxArea)) m)
    (zip (zrange 0 (Z.of_nat (length gc))) gc) m.

Definition mark_inside (row : Z) (gc : list Z) (m : Marks) : outcome Marks :=
  if isInsideMask gc then set_stat row (col_mark gc) REGION_INSIDE_MASK m else Ok m.

Definition ComputeStats (gc : list Z) (m : Marks) : outcome Marks :=
  let label := labels m (label_at J gc) in
  if is_bg label then Ok m else
  if marked label then mark_inside (unmark label) gc m else
  let label := match bgLabel J with Some bg => if label =? endLabel then u32 bg else label | None => label end in
  let regionIdx := labels m label in
  if negb (marked regionIdx) then Ok m else
  let regionIdx := unmark regionIdx in
  let m := if relabel J then set_labels (label_at J gc) (sequential regionIdx) m else m in
  m ← grow_sizes regionIdx gc m;
  m ← upd_stat regionIdx (col_count gc) (fun v => u32 (v + 1)) m;
  mark_inside regionIdx gc m.

(** Whether a region is smaller than the least size, and not kept by the mask. *)
Definition is_island (minSize regionIdx : Z) (gc : list Z) (m : Marks) : outcome bool :=
  regionSize ← stat m regionIdx (col_count gc);
  if regionSize <? minSize
  then match mask_at J with
       | None => Ok true
       | Some _ => r ← stat m regionIdx (col_mark gc); Ok (negb (r =? REGION_INSIDE_MASK))
       end
  else Ok false.

Definition remove_islands (bg minSize : Z) (gc : list Z) (m : Marks) : outcome Marks :=
  let label := labels m (label_at J gc) in
  if label =? u32 bg then Ok m else
  let label := if label =? endLabel then u32 bg else label in
  let remove regionIdx :=
    island ← is_island minSize regionIdx gc m;
    Ok (if island : bool then set_labels (label_at J gc) (u32 bg) m else m) in
  if marked label then Ok m else
  if relabel J then remove (if u32 (u32 bg + 1) <=? label then label - 1 else label)
  else let regionIdx := labels m label in
       if marked regionIdx then remove (unmark regionIdx) else Ok m.

Definition RemoveIslands (gc : list Z) (m : Marks) : outcome Marks :=
  match bgLabel J, minSize J with
  | Some bg, Some minSize => remove_islands bg minSize gc m
  | _, _ => Stuck
  end.

Definition Relabel (gc : list Z) (m : Marks) : outcome Marks :=
  let label := labels m (label_at J gc) in
  if negb (marked label) then Ok m else
  let regionIdx := unmark label in
  v ← (if relabel J then Ok (sequential regionIdx) else stat m regionIdx 0);
  let m := set_labels (label_at J gc) v m in
  match minSize J with
  | None => Ok m
  | Some minSize =>
      island ← is_island minSize regionIdx gc m;
      if island : bool
      then match bgLabel J with
           | Some bg => set_stat regionIdx (col_mark gc) REGION_REMOVED (set_labels (label_at J gc) (u32 bg) m)
           | None => Stuck
           end
      else Ok m
  end.
End Threads.

(** A launch: its threads in some order. *)
Definition launch (gcs : list (list Z)) (f : list Z -> Marks -> outcome Marks) (m : Marks) (r : outcome Marks) : Prop :=
  exists order, order ≡ₚ gcs /\ mfold (fun m gc => f gc m) order m = r.

Definition kernel_if (b : bool) (gcs : list (list Z)) (f : list Z -> Marks -> outcome Marks) (m m' : Marks) : Prop :=
  if b then launch gcs f m (Ok m') else m' = m.

(** The kernels [RunLabelForType] launches after the labels are resolved. *)
Definition post_kernels (J : Job) (has_count : bool) (gcs : list (list Z)) (m m' : Marks) : Prop :=
  let has_stats := bool_decide (is_Some (maxCapacity J)) in
  exists m1 m2 m3 m4,
    kernel_if (bool_decide (is_Some (bgLabel J))) gcs (ReplaceBgLabels J) m m1 /\
    kernel_if has_count gcs (CountLabels J) m1 m2 /\
    kernel_if (has_count && has_stats) gcs (ComputeStats J) m2 m3 /\
    kernel_if (has_count && has_stats && bool_decide (is_Some (minSize J))) gcs (RemoveIslands J) m3 m4 /\
    kernel_if (has_count && has_stats) gcs (Relabel J) m4 m'.

(** ** Images *)

(** The elements the threads of a launch on an image are at. *)
Definition coords2D (im : Sample) : list (list Z) :=
  (fun th => [lab_gc_x th; lab_gc_y th]) <$>
  filter (fun th => in_size im (lab_gc_y th) (lab_gc_x th) = true) (grid2 (labBlocks im)).

Definition at2D {A} (f : Z -> Z -> A) (dummy : A) (gc : list Z) : A :=
  match gc with [x; y] => f y x | _ => dummy end.

(** [posLabel]; the product is an [int], the quotient a [size_t]. *)
Definition posLabel2D (im : Sample) (y x : Z) : Z := u32 (u64 (i32 (y * dst_strides1 im)) / 4 + x).

Definition job2D (im : Sample) (bg ms : option Z) (mask : option (Z -> Z -> Z)) (rel : bool) (strides0 : Z) (rows : option Z) : Job :=
  MkJob (at2D (pixel im) 0) (at2D (dst_at im) 0) (at2D (posLabel2D im) 0) bg ms
    ((fun f => at2D f 0) <$> mask) rel strides0 rows.
