(* ===== verification/LabelStatsProps.v ===== *)
(** * What the kernels after labelling leave ([cvcuda/priv/OpLabel.cu])

    The count of components, the statistics of each, and the labels at the end, for
    every order of the threads. *)
From S2P Require Import Prelude LabelMachine LabelForest LabelKernel LabelStats.
From stdpp Require Import relations functions list.
From stdpp Require Import options.

#[local] Open Scope Z_scope.
#[local] Set Default Proof Using "Type*".

(** ** Folds, flags, rows *)

Lemma mark_add i : 0 <= i < flag -> mark i = i + flag.
Proof.
  intros Hi. unfold mark. rewrite <- Z.add_lor_land. enough (Z.land i flag = 0) by lia.
  apply Z.bits_inj'. intros k Hk. rewrite Z.land_spec, Z.bits_0. unfold flag in *.
  rewrite Z.pow2_bits_eqb by done. destruct (Z.eqb_spec 31 k) as [<-|]; [|by rewrite andb_false_r].
  rewrite andb_true_r. apply Z.testbit_false; [lia|]. rewrite Z.div_small by lia. done.
Qed.

Lemma marked_small l : 0 <= l < flag -> marked l = false.
Proof.
  intros Hl. unfold marked. apply negb_false_iff, Z.eqb_eq. pose proof (Z.add_lor_land l flag) as H.
  pose proof (mark_add l Hl) as E. unfold mark in E. lia.
Qed.

Lemma marked_mark i : 0 <= i < flag -> marked (mark i) = true /\ unmark (mark i) = i.
Proof.
  intros Hi. unfold marked, unmark. split.
  - apply negb_true_iff, Z.eqb_neq. unfold mark. rewrite Z.land_lor_distr_l, Z.land_diag.
    intros H. apply Z.lor_eq_0_iff in H as [_ H]. done.
  - rewrite mark_add by done. replace (flag - 1) with (Z.ones 31) by done.
    rewrite Z.land_ones by done. unfold flag in *.
    replace (i + 2 ^ 31) with (i + 1 * 2 ^ 31) by lia. rewrite Z.mod_add by done. by apply Z.mod_small.
Qed.

Lemma rd_nat {A} (l : list A) i x : l !! i = Some x -> rd l (Z.of_nat i) = Ok x.
Proof. intros H. apply rd_Ok. split; [lia|]. by rewrite Nat2Z.id. Qed.

Lemma wr_nat {A} (l : list A) i x : (i < length l)%nat -> wr l (Z.of_nat i) x = Ok (<[i := x]> l).
Proof.
  intros H. unfold wr. replace ((0 <=? Z.of_nat i) && (Z.of_nat i <? Z.of_nat (length l))) with true by lia.
  by rewrite Nat2Z.id.
Qed.

Lemma i32_nat i : Z.of_nat i < 2 ^ 31 -> i32 (Z.of_nat i) = Z.of_nat i.
Proof. intros H. apply wraps_small; [done|]. unfold in_s. lia. Qed.

Lemma stat_row m i l c v : stats m !! i = Some l -> Z.of_nat i < 2 ^ 31 -> l !! c = Some v ->
  stat m (Z.of_nat i) (Z.of_nat c) = Ok v.
Proof. intros Hl Hi Hc. unfold stat. rewrite i32_nat by done. rewrite (rd_nat _ _ _ Hl). cbn. by apply rd_nat. Qed.

Definition put_row (i : nat) (l : list Z) (m : Marks) : Marks := MkMarks (labels m) (count m) (<[i := l]> (stats m)).

Lemma set_stat_row m i l c v : stats m !! i = Some l -> Z.of_nat i < 2 ^ 31 -> (c < length l)%nat ->
  set_stat (Z.of_nat i) (Z.of_nat c) v m = Ok (put_row i (<[c := v]> l) m).
Proof.
  intros Hl Hi Hc. unfold set_stat. rewrite i32_nat by done. rewrite (rd_nat _ _ _ Hl). cbn [mbind outcome_bind].
  rewrite wr_nat by done. cbn [mbind outcome_bind]. rewrite wr_nat by (by eapply lookup_lt_Some). done.
Qed.

Lemma upd_stat_row m i l c v f : stats m !! i = Some l -> Z.of_nat i < 2 ^ 31 -> l !! c = Some v ->
  upd_stat (Z.of_nat i) (Z.of_nat c) f m = Ok (put_row i (<[c := f v]> l) m).
Proof.
  intros Hl Hi Hc. unfold upd_stat. rewrite (stat_row _ _ _ _ _ Hl Hi Hc). cbn [mbind outcome_bind].
  apply set_stat_row; [done..|by eapply lookup_lt_Some].
Qed.

Lemma put_row_lookup i l m : (i < length (stats m))%nat -> stats (put_row i l m) !! i = Some l.
Proof. intros H. by apply list_lookup_insert_eq. Qed.
Lemma put_row_put i l l' m : put_row i l' (put_row i l m) = put_row i l' m.
Proof. unfold put_row; cbn. by rewrite list_insert_insert_eq. Qed.

(** A whole row. *)
Lemma set_row_put m i l vs : stats m !! i = Some l -> Z.of_nat i < 2 ^ 31 -> length vs = length l ->
  set_row (Z.of_nat i) vs m = Ok (put_row i vs m).
Proof.
  intros Hl Hi Hlen. unfold set_row.
  destruct (mfold_list (fun m '(c, v) => set_stat (Z.of_nat i) c v m)
    (fun done m' => m' = put_row i (done.*2 ++ drop (length done) l) m)
    (zip (zrange 0 (Z.of_nat (length vs))) vs) m) as (m' & Hm & ->).
  - change (m = put_row i l m). unfold put_row. rewrite list_insert_id by done. by destruct m.
  - intros done [c v] todo m1 E ->.
    assert (Hc : zip (zrange 0 (Z.of_nat (length vs))) vs !! length done = Some (c, v)) by (by rewrite E, list_lookup_middle).
    apply lookup_zip_Some in Hc as [Hc Hv].
    assert (Hd : (length done < length l)%nat) by (rewrite <- Hlen; by eapply lookup_lt_Some).
    assert (c = Z.of_nat (length done)) as ->.
    { unfold zrange in Hc. apply list_lookup_fmap_Some in Hc as (k & -> & Hk). apply lookup_seq in Hk as [-> _]. lia. }
    eexists. split.
    + apply set_stat_row; [|done|].
      * apply put_row_lookup. by eapply lookup_lt_Some.
      * rewrite length_app, length_fmap, length_drop. lia.
    + rewrite put_row_put. f_equal. rewrite insert_app_r_alt by (by rewrite length_fmap).
      rewrite length_fmap, Nat.sub_diag, fmap_app, <- app_assoc. f_equal. rewrite length_app; cbn.
      destruct (lookup_lt_is_Some_2 l _ Hd) as [y Hy]. rewrite (drop_S _ _ _ Hy). cbn.
      by rewrite Nat.add_1_r.
  - rewrite Hm. f_equal. f_equal.
    assert (length (zip (zrange 0 (Z.of_nat (length vs))) vs) = length vs) as E.
    { rewrite length_zip_with. unfold zrange. rewrite length_fmap, length_seq. lia. }
    rewrite E, Hlen, drop_all, app_nil_r. apply snd_zip. unfold zrange. rewrite length_fmap, length_seq. lia.
Qed.

(** ** The kernels, one by one *)

(** The elements of a sample, and the labels the labelling leaves: each that of the
    first element [home] of its region, of the same value. *)
Record job_ok (J : Job) (P : list (list Z)) (nd : nat) (home : list Z -> list Z) : Prop := {
  jo_nodup : NoDup P;
  jo_coords : forall p, p ∈ P -> length p = nd /\ Forall (fun c => 0 <= c < 2 ^ 31) p;
  jo_strides : 0 <= strides0 J < 2 ^ 33;
  jo_label : forall p, p ∈ P -> 0 <= label_at J p < strides0 J / 4;
  jo_inj : forall p q, p ∈ P -> q ∈ P -> label_at J p = label_at J q -> p = q;
  jo_pos : forall p, p ∈ P -> pos_label J p = label_at J p;
  jo_home : forall p, p ∈ P -> home p ∈ P /\ home (home p) = home p /\ value_at J (home p) = value_at J p;
  jo_length : Z.of_nat (length P) <= strides0 J / 4;
  jo_bg : forall bg, bgLabel J = Some bg -> u32 bg < flag;
  jo_capacity : forall M, maxCapacity J = Some M -> 0 <= M < 2 ^ 31;
}.

Section Post.
Variables (J : Job) (P : list (list Z)) (nd : nat) (home : list Z -> list Z).
Hypothesis HJ : job_ok J P nd home.

Lemma endLabel_eq : endLabel J = strides0 J / 4 /\ 0 <= strides0 J / 4 < flag.
Proof.
  destruct (jo_strides _ _ _ _ HJ) as [H0 H1]. unfold endLabel, flag.
  assert (strides0 J / 4 < 2 ^ 31) by (apply Z.div_lt_upper_bound; lia).
  assert (0 <= strides0 J / 4) by (by apply Z.div_pos).
  rewrite (wrapu_small 64) by (unfold in_u; lia). rewrite wrapu_small by (unfold in_u; lia). lia.
Qed.

Definition background (p : list Z) : bool := match bgLabel J with Some bg => value_at J p =? bg | None => false end.

(** The label of an element once the background is replaced. *)
Definition shown (p : list Z) : Z :=
  match bgLabel J with
  | Some bg =>
      if value_at J p =? bg then u32 bg
      else if label_at J (home p) =? u32 bg then strides0 J / 4 else label_at J (home p)
  | None => label_at J (home p)
  end.

Lemma home_label p : p ∈ P -> 0 <= label_at J (home p) < strides0 J / 4.
Proof. intros Hp. apply (jo_label _ _ _ _ HJ). by apply (jo_home _ _ _ _ HJ). Qed.

Lemma shown_small p : p ∈ P -> 0 <= shown p < flag.
Proof.
  intros Hp. pose proof (home_label p Hp). destruct endLabel_eq as [_ He]. unfold shown.
  destruct (bgLabel J) as [bg|] eqn:E; [|lia]. pose proof (jo_bg _ _ _ _ HJ bg E). pose proof (wrapu_range 32 bg ltac:(done)) as Hb.
  unfold in_u in Hb. repeat case_match; lia.
Qed.

Lemma shown_bg p : p ∈ P -> is_bg J (shown p) = background p.
Proof.
  intros Hp. pose proof (home_label p Hp). unfold shown, is_bg, background. destruct (bgLabel J) as [bg|]; [|done].
  destruct (Z.eqb_spec (value_at J p) bg); [by rewrite Z.eqb_refl|].
  destruct (Z.eqb_spec (label_at J (home p)) (u32 bg)); lia.
Qed.

(** *** The background *)

Definition labelled_by (f : list Z -> Z) (m : Marks) : Prop := forall p, p ∈ P -> labels m (label_at J p) = f p.

(** The label of one element changes. *)
Lemma labelled_set f f' m p v : p ∈ P -> labelled_by f m ->
  (forall q, q ∈ P -> q <> p -> f' q = f q) -> f' p = v -> labelled_by f' (set_labels (label_at J p) v m).
Proof.
  intros Hp Hf Hne He q Hq. cbn. destruct (decide (q = p)) as [->|Hqp].
  - by rewrite fn_lookup_insert.
  - rewrite fn_lookup_insert_ne; [by rewrite Hf, Hne|]. intros E. apply Hqp. symmetry. by apply (jo_inj _ _ _ _ HJ).
Qed.

Lemma order_in order done p todo : order ≡ₚ P -> order = done ++ p :: todo -> p ∈ P /\ p ∉ done /\ (forall q, q ∈ done -> q ∈ P).
Proof.
  intros Ho E. pose proof (jo_nodup _ _ _ _ HJ) as Hn. rewrite <- Ho, E in Hn.
  split_and!; [rewrite <- Ho, E; set_solver| |intros q Hq; rewrite <- Ho, E; set_solver].
  apply NoDup_app in Hn as (_ & Hn & _). intros Hin. apply (Hn p Hin). set_solver.
Qed.

Lemma replace_stage order m : order ≡ₚ P -> is_Some (bgLabel J) -> labelled_by (fun p => label_at J (home p)) m ->
  exists m', mfold (fun m gc => ReplaceBgLabels J gc m) order m = Ok m' /\
    labelled_by shown m' /\ count m' = count m /\ stats m' = stats m.
Proof.
  intros Ho [bg Hbg] Hm.
  destruct (mfold_list (fun m gc => ReplaceBgLabels J gc m) (fun done m' =>
    labelled_by (fun p => if bool_decide (p ∈ done) then shown p else label_at J (home p)) m' /\
    count m' = count m /\ stats m' = stats m) order m) as (m' & Hm' & Hl & Hc & Hs).
  - split; [|done]. intros p Hp. by rewrite bool_decide_eq_false_2, (Hm p Hp) by set_solver.
  - intros done p todo m1 E (Hl & Hc & Hs). destruct (order_in _ _ _ _ Ho E) as (Hp & Hnew & _).
    assert (Hcur : labels m1 (label_at J p) = label_at J (home p)) by (by rewrite (Hl p Hp), bool_decide_eq_false_2).
    unfold ReplaceBgLabels. rewrite Hbg, Hcur.
    assert (Hother : forall q, q <> p ->
      (if bool_decide (q ∈ done ++ [p]) then shown q else label_at J (home q)) = if bool_decide (q ∈ done) then shown q else label_at J (home q)).
    { intros q Hq. rewrite (bool_decide_ext (q ∈ done ++ [p]) (q ∈ done)) by set_solver. done. }
    assert (Hat : (if bool_decide (p ∈ done ++ [p]) then shown p else label_at J (home p)) = shown p)
      by (by rewrite bool_decide_eq_true_2 by set_solver).
    destruct endLabel_eq as [He _]. unfold shown in Hat at 2. rewrite Hbg in Hat.
    destruct (value_at J p =? bg); [|destruct (label_at J (home p) =? u32 bg)]; eexists; (split; [done|]); (split; [|done]).
    + apply (labelled_set _ _ _ _ _ Hp Hl); [intros q _ Hq; by apply Hother|exact Hat].
    + apply (labelled_set _ _ _ _ _ Hp Hl); [intros q _ Hq; by apply Hother|rewrite Hat; by rewrite He].
    + intros q Hq. destruct (decide (q = p)) as [->|Hqp]; [by rewrite Hcur, Hat|by rewrite (Hl q Hq), Hother].
  - exists m'. split; [done|]. split; [|done]. intros p Hp. rewrite (Hl p Hp).
    by rewrite bool_decide_eq_true_2 by (by rewrite Ho).
Qed.

(** *** Counting *)

(** The first element of a region that is not background. *)
Definition region_root (p : list Z) : Prop := home p = p /\ background p = false.

#[export] Instance region_root_dec p : Decision (region_root p).
Proof using Type. unfold region_root. apply _. Defined.

Definition capacity : Z := default 0 (maxCapacity J).
Definition numbered (rts : list (list Z)) (i : nat) (r : list Z) : Prop := rts !! i = Some r /\ Z.of_nat i < capacity.

Definition rows_ok (m : Marks) : Prop :=
  Z.of_nat (length (stats m)) = capacity /\ Forall (fun l => length l = (3 + 2 * nd)%nat) (stats m).

Lemma counted_root p : p ∈ P -> background p = false ->
  ((match bgLabel J with Some bg => (shown p =? endLabel J) && (pos_label J p =? u32 bg) | None => false end)
    || (shown p =? pos_label J p)) = bool_decide (region_root p).
Proof.
  intros Hp Hb. rewrite (jo_pos _ _ _ _ HJ p Hp). destruct endLabel_eq as [-> He].
  pose proof (home_label p Hp). pose proof (jo_label _ _ _ _ HJ p Hp).
  assert (Hr : region_root p <-> label_at J (home p) = label_at J p).
  { unfold region_root. split; [by intros [-> _]|]. intros E. split; [|done].
    apply (jo_inj _ _ _ _ HJ); [by apply (jo_home _ _ _ _ HJ)|done..]. }
  apply eq_true_iff_eq. rewrite bool_decide_eq_true, Hr.
  unfold shown, background in *. destruct (bgLabel J) as [bg|]; [|lia]. rewrite Hb.
  destruct (Z.eqb_spec (label_at J (home p)) (u32 bg)); lia.
Qed.

Lemma first_stats_length l p : p ∈ P -> length (first_stats l p) = (3 + 2 * nd)%nat.
Proof.
  intros Hp. destruct (jo_coords _ _ _ _ HJ p Hp) as [Hl _]. unfold first_stats. cbn.
  rewrite !length_app, !length_fmap. cbn. lia.
Qed.

Definition counting (rts : list (list Z)) (m0 m : Marks) : Prop :=
  count m = Z.of_nat (length rts) /\ rows_ok m /\
  (forall p, p ∈ P -> (forall i, ~ numbered rts i p) -> labels m (label_at J p) = shown p) /\
  (forall i r, numbered rts i r -> labels m (label_at J r) = mark (Z.of_nat i) /\ stats m !! i = Some (first_stats (shown r) r)) /\
  (forall i, (length rts <= i)%nat -> stats m !! i = stats m0 !! i).

Lemma numbered_unique rts i j r : NoDup rts -> numbered rts i r -> numbered rts j r -> i = j.
Proof. intros Hn [Hi _] [Hj _]. by apply (NoDup_lookup rts i j r). Qed.

Lemma numbered_snoc rts r i q : numbered (rts ++ [r]) i q <->
  numbered rts i q \/ (q = r /\ i = length rts /\ Z.of_nat i < capacity).
Proof.
  unfold numbered. rewrite lookup_snoc_Some. split.
  - intros [[[? ?]|[-> ->]] ?]; auto.
  - intros [[H ?]|(-> & -> & ?)]; [|auto]. split; [left; split; [by eapply lookup_lt_Some|done]|done].
Qed.

Lemma count_small order done : order ≡ₚ P -> (exists p todo, order = done ++ p :: todo) ->
  Z.of_nat (length (filter region_root done)) < strides0 J / 4.
Proof.
  intros Ho (p & todo & E). pose proof (jo_length _ _ _ _ HJ) as Hl. rewrite <- Ho, E, length_app in Hl. cbn in Hl.
  pose proof (length_filter region_root done). lia.
Qed.

Lemma count_stage order m : order ≡ₚ P -> labelled_by shown m -> count m = 0 -> rows_ok m ->
  exists m', mfold (fun m gc => CountLabels J gc m) order m = Ok m' /\ counting (filter region_root order) m m'.
Proof.
  intros Ho Hm Hc Hrows.
  apply (mfold_list (fun m gc => CountLabels J gc m) (fun done m' => counting (filter region_root done) m m')).
  - split_and!; [done|done|intros p Hp _; by apply Hm|by intros i r [H _]|done].
  - intros done p todo m1 E (Hc1 & Hr1 & Hun & Hnum & Htail).
    destruct (order_in _ _ _ _ Ho E) as (Hp & Hnew & Hdone).
    assert (Hsmall : 0 <= Z.of_nat (length (filter region_root done)) < flag).
    { pose proof (count_small order done Ho ltac:(eauto)). destruct endLabel_eq. lia. }
    assert (Hfresh : forall i, ~ numbered (filter region_root done) i p).
    { intros i [Hi _]. apply Hnew. apply list_elem_of_lookup_2, list_elem_of_filter in Hi. by destruct Hi. }
    pose proof (Hun p Hp Hfresh) as Hlab. unfold CountLabels. rewrite Hlab, (shown_bg p Hp).
    rewrite filter_app. destruct (background p) eqn:Hb.
    { exists m1. split; [done|]. rewrite (filter_cons_False _ p) by (by intros [_ ?]; congruence). rewrite app_nil_r. by split_and!. }
    rewrite (counted_root p Hp Hb). destruct (bool_decide_reflect (region_root p)) as [Hroot|Hroot]; cbn [negb].
    2:{ exists m1. split; [done|]. rewrite (filter_cons_False _ p) by done. rewrite app_nil_r. by split_and!. }
    rewrite (filter_cons_True _ p) by done. change (filter region_root []) with (@nil (list Z)).
    set (rts := filter region_root done) in *. cbn [count labels stats]. rewrite Hc1.
    assert (Hc2 : u32 (Z.of_nat (length rts) + 1) = Z.of_nat (length (rts ++ [p]))).
    { rewrite length_app. cbn. rewrite wrapu_small; [lia|]. unfold in_u, flag in *. lia. }
    assert (Hout : forall m2, labels m2 = labels m1 -> stats m2 = stats m1 -> count m2 = Z.of_nat (length (rts ++ [p])) ->
      capacity <= Z.of_nat (length rts) -> counting (rts ++ [p]) m m2).
    { intros m2 El Es Ec Hcap. unfold counting, rows_ok. rewrite El, Es, Ec. destruct Hr1 as [Hr1 Hr2].
      split_and!; [done..| | |].
      - intros q Hq Hn. apply Hun; [done|]. intros i Hi. apply (Hn i), numbered_snoc. by left.
      - intros i r Hi. apply numbered_snoc in Hi as [Hi|(-> & -> & ?)]; [auto|lia].
      - intros i Hi. apply Htail. rewrite length_app in Hi. lia. }
    unfold capacity in Hout. destruct (maxCapacity J) as [M|] eqn:HM; cbn [default] in Hout.
    2:{ eexists. split; [done|]. apply Hout; cbn; [done|done|done|lia]. }
    pose proof (jo_capacity _ _ _ _ HJ M HM) as HM31. rewrite (wrapu_small 32 M) by (unfold in_u; lia).
    destruct (Z.ltb_spec (Z.of_nat (length rts)) M) as [Hlt|Hge].
    2:{ eexists. split; [done|]. by apply Hout. }
    destruct Hr1 as [Hr1 Hr2]. unfold capacity in Hr1. rewrite HM in Hr1. cbn in Hr1.
    destruct (lookup_lt_is_Some_2 (stats m1) (length rts)) as [l Hl]; [lia|].
    assert (Hll : length l = (3 + 2 * nd)%nat) by (by apply (Forall_lookup_1 _ _ _ _ Hr2 Hl)).
    rewrite (set_row_put _ _ l); [|done|lia|by rewrite first_stats_length].
    eexists. split; [done|]. unfold counting, rows_ok, capacity. rewrite HM. cbn. split_and!; [done|by rewrite length_insert| | | |].
    + apply Forall_insert; [done|]. by apply first_stats_length.
    + intros q Hq Hn. assert (q <> p).
      { intros ->. apply (Hn (length rts)), numbered_snoc. right. unfold capacity. by rewrite HM. }
      rewrite fn_lookup_insert_ne.
      * apply Hun; [done|]. intros i Hi. apply (Hn i), numbered_snoc. by left.
      * intros Eq. symmetry in Eq. by apply (jo_inj _ _ _ _ HJ) in Eq.
    + intros i r Hi. apply numbered_snoc in Hi as [Hi|(-> & -> & _)].
      * pose proof Hi as [Hir _]. assert (r <> p) by (intros ->; by apply (Hfresh i)).
        assert (Hrin : r ∈ P).
        { apply Hdone. apply list_elem_of_lookup_2, list_elem_of_filter in Hir. by destruct Hir. }
        rewrite fn_lookup_insert_ne by (intros Eq; symmetry in Eq; by apply (jo_inj _ _ _ _ HJ) in Eq).
        rewrite list_lookup_insert_ne; [by apply Hnum|]. apply lookup_lt_Some in Hir. lia.
      * rewrite fn_lookup_insert. split; [done|]. apply list_lookup_insert_eq. by apply lookup_lt_Some in Hl.
    + intros i Hi. rewrite length_app in Hi. cbn in Hi. rewrite list_lookup_insert_ne by lia. apply Htail. lia.
Qed.

(** *** Statistics *)

(** The number of the region of an element, when the statistics have a row for it. *)
Definition region_no (rts : list (list Z)) (p : list Z) : option nat :=
  match list_find (fun q => q = home p) rts with
  | Some (i, _) => if Z.of_nat i <? capacity then Some i else None
  | None => None
  end.

Lemma region_no_spec rts p i : NoDup rts -> region_no rts p = Some i <-> numbered rts i (home p).
Proof.
  intros Hn. unfold region_no, numbered. destruct (list_find _ rts) as [[j q]|] eqn:E.
  - apply list_find_Some in E as (Hj & -> & _). destruct (Z.ltb_spec (Z.of_nat j) capacity); split.
    + by intros [= ->].
    + intros [Hi _]. f_equal. by apply (NoDup_lookup rts j i (home p)).
    + done.
    + intros [Hi ?]. assert (j = i) as -> by (by apply (NoDup_lookup rts j i (home p))). lia.
  - apply list_find_None in E. split; [done|]. intros [Hi _]. rewrite Forall_forall in E.
    destruct (E (home p)); [|done]. by eapply list_elem_of_lookup_2.
Qed.

(** The elements of a region but its first, as far as [D] goes. *)
Definition members (r : list Z) (D : list (list Z)) : list (list Z) := filter (fun q => home q = r /\ q <> r) D.
Definition size_at (r : list Z) (D : list (list Z)) (k : nat) : Z :=
  foldl (fun v q => Z.max v (Z.abs (r !!! k - q !!! k) + 1)) 1 (members r D).
Definition mark_at (r : list Z) (D : list (list Z)) : Z :=
  if existsb (fun q => bool_decide (home q = r) && isInsideMask J q) D then REGION_INSIDE_MASK else REGION_NOT_MARKED.
Definition region_row (r : list Z) (D : list (list Z)) : list Z :=
  shown r :: r ++ (size_at r D <$> seq 0 nd) ++ [1 + Z.of_nat (length (members r D)); mark_at r D].

Lemma coords_u32 p : p ∈ P -> u32 <$> p = p.
Proof.
  intros Hp. destruct (jo_coords _ _ _ _ HJ p Hp) as [_ Hc].
  rewrite <- (list_fmap_id p) at 2. apply list_fmap_ext. intros k c Hk.
  rewrite Forall_lookup in Hc. pose proof (Hc k c Hk). cbn. apply wrapu_small. unfold in_u. lia.
Qed.

Lemma first_row r : r ∈ P -> first_stats (shown r) r = region_row r [].
Proof.
  intros Hr. unfold first_stats, region_row. rewrite (coords_u32 r Hr). cbn. do 2 f_equal.
  destruct (jo_coords _ _ _ _ HJ r Hr) as [<- _]. f_equal.
  apply list_eq. intros k. rewrite !list_lookup_fmap. destruct (decide (k < length r)%nat) as [Hk|Hk].
  - destruct (lookup_lt_is_Some_2 r k Hk) as [c ->]. by rewrite lookup_seq_lt.
  - rewrite !lookup_ge_None_2 by (rewrite ?length_seq; lia). done.
Qed.

Lemma insert_seq (f : nat -> Z) n k v : (k < n)%nat ->
  <[k := v]> (f <$> seq 0 n) = (fun j => if (j =? k)%nat then v else f j) <$> seq 0 n.
Proof.
  intros Hk. apply list_eq. intros j. rewrite list_lookup_fmap. destruct (Nat.eqb_spec j k) as [->|Hne].
  - rewrite list_lookup_insert_eq by (by rewrite length_fmap, length_seq). rewrite lookup_seq_lt by done. cbn. by rewrite Nat.eqb_refl.
  - rewrite list_lookup_insert_ne by done. rewrite list_lookup_fmap. destruct (decide (j < n)%nat).
    + rewrite lookup_seq_lt by done. cbn. by rewrite (proj2 (Nat.eqb_neq j k) Hne).
    + by rewrite lookup_ge_None_2 by (rewrite length_seq; lia).
Qed.

(** The columns of a row. *)
Lemma row_cols l (cor : list Z) (f : nat -> Z) c k : length cor = nd ->
  let row := l :: cor ++ (f <$> seq 0 nd) ++ [c; k] in
  (forall j v, cor !! j = Some v -> row !! (1 + j)%nat = Some v) /\
  (forall j, (j < nd)%nat -> row !! (1 + nd + j)%nat = Some (f j)) /\
  row !! (1 + 2 * nd)%nat = Some c /\ row !! (2 + 2 * nd)%nat = Some k /\ length row = (3 + 2 * nd)%nat.
Proof.
  intros Hc row.
  assert (Hs : forall n, row !! S n = (cor ++ (f <$> seq 0 nd) ++ [c; k]) !! n) by done.
  assert (Hf : length (f <$> seq 0 nd) = nd) by (by rewrite length_fmap, length_seq).
  split_and!.
  - intros j v Hj. rewrite Hs. by apply lookup_app_l_Some.
  - intros j Hj. change (1 + nd + j)%nat with (S (nd + j)). rewrite Hs, lookup_app_r, lookup_app_l by lia.
    rewrite Hc. replace (nd + j - nd)%nat with j by lia. by rewrite list_lookup_fmap, lookup_seq_lt.
  - change (1 + 2 * nd)%nat with (S (2 * nd)). rewrite Hs, !lookup_app_r by lia. rewrite Hf, Hc.
    by replace (2 * nd - nd - nd)%nat with 0%nat by lia.
  - change (2 + 2 * nd)%nat with (S (S (2 * nd))). rewrite Hs, !lookup_app_r by lia. rewrite Hf, Hc.
    by replace (S (2 * nd) - nd - nd)%nat with 1%nat by lia.
  - unfold row. cbn [length]. rewrite !length_app, Hf, Hc. cbn. lia.
Qed.

Lemma row_insert_size l (cor : list Z) (f : nat -> Z) c k j v : length cor = nd -> (j < nd)%nat ->
  <[(1 + nd + j)%nat := v]> (l :: cor ++ (f <$> seq 0 nd) ++ [c; k]) =
  l :: cor ++ ((fun i => if (i =? j)%nat then v else f i) <$> seq 0 nd) ++ [c; k].
Proof.
  intros Hc Hj. assert (Hf : length (f <$> seq 0 nd) = nd) by (by rewrite length_fmap, length_seq).
  change (l :: <[(nd + j)%nat := v]> (cor ++ (f <$> seq 0 nd) ++ [c; k]) =
    l :: cor ++ ((fun i => if (i =? j)%nat then v else f i) <$> seq 0 nd) ++ [c; k]).
  rewrite insert_app_r_alt, Hc, insert_app_l by lia.
  replace (nd + j - nd)%nat with j by lia. by rewrite insert_seq.
Qed.

Lemma row_insert_tail l (cor : list Z) (f : nat -> Z) c k v : length cor = nd ->
  <[(1 + 2 * nd)%nat := v]> (l :: cor ++ (f <$> seq 0 nd) ++ [c; k]) = l :: cor ++ (f <$> seq 0 nd) ++ [v; k] /\
  <[(2 + 2 * nd)%nat := v]> (l :: cor ++ (f <$> seq 0 nd) ++ [c; k]) = l :: cor ++ (f <$> seq 0 nd) ++ [c; v].
Proof.
  intros Hc. assert (Hf : length (f <$> seq 0 nd) = nd) by (by rewrite length_fmap, length_seq).
  change (<[(1 + 2 * nd)%nat := v]> (l :: cor ++ (f <$> seq 0 nd) ++ [c; k]))
    with (l :: <[(2 * nd)%nat := v]> (cor ++ (f <$> seq 0 nd) ++ [c; k])).
  change (<[(2 + 2 * nd)%nat := v]> (l :: cor ++ (f <$> seq 0 nd) ++ [c; k]))
    with (l :: <[(1 + 2 * nd)%nat := v]> (cor ++ (f <$> seq 0 nd) ++ [c; k])).
  rewrite !insert_app_r_alt, Hf, Hc by lia.
  replace (2 * nd - nd - nd)%nat with 0%nat by lia. by replace (1 + 2 * nd - nd - nd)%nat with 1%nat by lia.
Qed.

Lemma cols_of p : p ∈ P ->
  col_size p = Z.of_nat (1 + nd) /\ col_count p = Z.of_nat (1 + 2 * nd) /\ col_mark p = Z.of_nat (2 + 2 * nd).
Proof.
  intros Hp. destruct (jo_coords _ _ _ _ HJ p Hp) as [Hl _]. unfold col_size, col_count, col_mark. rewrite Hl. lia.
Qed.

Lemma grow_sizes_row m i l (cor gc : list Z) (f : nat -> Z) c k : cor ∈ P -> gc ∈ P -> Z.of_nat i < 2 ^ 31 ->
  stats m !! i = Some (l :: cor ++ (f <$> seq 0 nd) ++ [c; k]) ->
  grow_sizes (Z.of_nat i) gc m =
    Ok (put_row i (l :: cor ++ ((fun j => Z.max (f j) (Z.abs (cor !!! j - gc !!! j) + 1)) <$> seq 0 nd) ++ [c; k]) m).
Proof.
  intros Hcor Hgc Hi Hm. destruct (jo_coords _ _ _ _ HJ cor Hcor) as [Hlc Hrc], (jo_coords _ _ _ _ HJ gc Hgc) as [Hlg Hrg].
  set (g := fun j => Z.max (f j) (Z.abs (cor !!! j - gc !!! j) + 1)).
  assert (Hrow : (i < length (stats m))%nat) by (by eapply lookup_lt_Some).
  unfold grow_sizes. rewrite Hlg.
  destruct (mfold_list (fun m '(k, c) =>
    corner ← stat m (Z.of_nat i) (1 + k);
    let bboxArea := Z.abs (i32 corner - c) + 1 in
    upd_stat (Z.of_nat i) (col_size gc + k) (fun v => Z.max v (u32 bboxArea)) m)
    (fun done m' => m' = put_row i (l :: cor ++ ((fun j => if (j <? length done)%nat then g j else f j) <$> seq 0 nd) ++ [c; k]) m)
    (zip (zrange 0 (Z.of_nat nd)) gc) m) as (m' & Hm' & ->).
  - change (fun j => if (j <? length (@nil (Z * Z)))%nat then g j else f j) with f.
    unfold put_row. rewrite list_insert_id by done. by destruct m.
  - intros done [z x] todo m1 E ->.
    assert (Hz : zip (zrange 0 (Z.of_nat nd)) gc !! length done = Some (z, x)) by (by rewrite E, list_lookup_middle).
    apply lookup_zip_Some in Hz as [Hz Hx]. set (j := length done) in *.
    assert (Hj : (j < nd)%nat) by (rewrite <- Hlg; by eapply lookup_lt_Some).
    assert (z = Z.of_nat j) as ->.
    { unfold zrange in Hz. apply list_lookup_fmap_Some in Hz as (n & -> & Hn). apply lookup_seq in Hn as [-> _]. lia. }
    destruct (lookup_lt_is_Some_2 cor j) as [y Hy]; [by rewrite Hlc|].
    pose proof (proj1 (Forall_lookup _ _) Hrc j y Hy) as Hy31. pose proof (proj1 (Forall_lookup _ _) Hrg j x Hx) as Hx31. cbn in Hy31, Hx31.
    set (h := fun j0 => if (j0 <? j)%nat then g j0 else f j0).
    destruct (row_cols l cor h c k Hlc) as (C1 & C2 & _).
    eexists. split.
    + replace (1 + Z.of_nat j) with (Z.of_nat (1 + j)) by lia.
      rewrite (stat_row _ i _ _ y (put_row_lookup _ _ _ Hrow) Hi (C1 j y Hy)). cbn [mbind outcome_bind].
      destruct (cols_of gc Hgc) as [-> _]. replace (Z.of_nat (1 + nd) + Z.of_nat j) with (Z.of_nat (1 + nd + j)) by lia.
      apply (upd_stat_row _ i _ _ (h j) _ (put_row_lookup _ _ _ Hrow) Hi). by apply C2.
    + rewrite put_row_put. f_equal. cbn beta. rewrite row_insert_size by done. do 3 f_equal.
      apply list_fmap_ext. intros n n' Hn. apply lookup_seq in Hn as [-> Hn]. rewrite length_app. cbn [length Nat.add].
      unfold h, g. change (0 + n)%nat with n. destruct (Nat.eqb_spec n j) as [Ej|Hne].
      * rewrite Ej,  (list_lookup_total_correct cor _ y Hy), (list_lookup_total_correct gc _ x Hx).
        rewrite Nat.ltb_irrefl. rewrite (proj2 (Nat.ltb_lt j (length done + 1))) by (unfold j; lia).
        rewrite wraps_small by (done || (unfold in_s; lia)). rewrite wrapu_small by (unfold in_u; lia). done.
      * fold j. destruct (Nat.ltb_spec n j), (Nat.ltb_spec n (j + 1)); try lia; done.
  - etrans; [exact Hm'|]. do 5 f_equal. apply list_fmap_ext. intros n n' Hn. apply lookup_seq in Hn as [-> Hn].
    rewrite length_zip_with. unfold zrange. rewrite length_fmap, length_seq, Hlg.
    by rewrite (proj2 (Nat.ltb_lt _ _)) by lia.
Qed.

Section Numbered.
Variable rts : list (list Z).
Hypothesis Hrts : NoDup rts.
Hypothesis Hroots : forall r, r ∈ rts -> r ∈ P /\ region_root r.
Hypothesis Hfew : Z.of_nat (length rts) <= strides0 J / 4.

Lemma numbered_in i r : numbered rts i r -> r ∈ P /\ region_root r /\ Z.of_nat i < 2 ^ 31 /\ 0 <= Z.of_nat i < flag.
Proof.
  intros [Hi Hc]. destruct (Hroots r) as [Hr Hroot]; [by eapply list_elem_of_lookup_2|].
  destruct endLabel_eq as [_ He]. apply lookup_lt_Some in Hi. unfold flag in *. split_and!; [done|done|lia|lia|lia].
Qed.

Lemma region_no_None p : region_no rts p = None <-> forall i, ~ numbered rts i (home p).
Proof.
  split.
  - intros E i Hi. apply region_no_spec in Hi; [|done]. congruence.
  - intros H. destruct (region_no rts p) as [i|] eqn:E; [|done]. apply region_no_spec in E; [|done]. by destruct (H i).
Qed.

Lemma numbered_home i r : numbered rts i r -> home r = r.
Proof. intros H. by destruct (numbered_in i r H) as (_ & [Hr _] & _). Qed.

Lemma home_background p : p ∈ P -> background (home p) = background p.
Proof.
  intros Hp. unfold background. destruct (bgLabel J); [|done]. by destruct (jo_home _ _ _ _ HJ p Hp) as (_ & _ & ->).
Qed.

(** An element of a numbered region is not background. *)
Lemma region_no_shown p i : p ∈ P -> region_no rts p = Some i -> background p = false.
Proof.
  intros Hp Hi. apply region_no_spec in Hi; [|done]. destruct (numbered_in _ _ Hi) as (_ & [_ Hb] & _).
  by rewrite <- (home_background p Hp).
Qed.

(** Labels: of the first of a numbered region its number, of the others what [f] says. *)
Definition labelled_with (f : list Z -> Z) (m : Marks) : Prop :=
  labelled_by (fun p => match region_no rts p with
                        | Some i => if decide (home p = p) then mark (Z.of_nat i) else f p
                        | None => f p
                        end) m.

Definition all_rows (row : nat -> list Z -> list Z) (m m0 : Marks) : Prop :=
  (forall i r, numbered rts i r -> stats m !! i = Some (row i r)) /\
  (forall i, (length rts <= i)%nat -> stats m !! i = stats m0 !! i) /\ count m = count m0.

Lemma counting_labelled m0 m : counting rts m0 m -> labelled_with shown m /\
  (forall i r, numbered rts i r -> stats m !! i = Some (region_row r [])) /\
  (forall i, (length rts <= i)%nat -> stats m !! i = stats m0 !! i) /\ count m = Z.of_nat (length rts).
Proof.
  intros (Hc & _ & Hun & Hnum & Ht). split_and!; [|..|done|done].
  - intros p Hp. destruct (region_no rts p) as [i|] eqn:E.
    + apply region_no_spec in E; [|done]. destruct (decide (home p = p)) as [Eh|Hne].
      * rewrite Eh in E. by destruct (Hnum i p E) as [-> _].
      * apply Hun; [done|]. intros j Hj. apply Hne. by eapply numbered_home.
    + apply Hun; [done|]. intros j Hj. apply (proj1 (region_no_None p) E j).
      pose proof (numbered_home _ _ Hj) as Eh. by rewrite Eh.
  - intros i r Hi. destruct (numbered_in _ _ Hi) as (Hr & _). rewrite <- (first_row r Hr). by apply Hnum.
Qed.

(** *** One element at a time *)

Lemma members_snoc r D p : members r (D ++ [p]) = if decide (home p = r /\ p <> r) then members r D ++ [p] else members r D.
Proof.
  unfold members. rewrite filter_app. destruct (decide _) as [H|H].
  - by rewrite (filter_cons_True _ p) by done.
  - rewrite (filter_cons_False _ p) by done. apply app_nil_r.
Qed.

Lemma mark_at_snoc r D p : mark_at r (D ++ [p]) =
  if decide (home p = r /\ isInsideMask J p = true) then REGION_INSIDE_MASK else mark_at r D.
Proof.
  unfold mark_at. rewrite existsb_app. cbn [existsb]. rewrite orb_false_r.
  destruct (decide (home p = r /\ isInsideMask J p = true)) as [[-> ->]|H].
  - rewrite bool_decide_eq_true_2 by done. by rewrite orb_true_r.
  - replace (bool_decide (home p = r) && isInsideMask J p) with false; [by rewrite orb_false_r|].
    symmetry. apply andb_false_iff. destruct (isInsideMask J p); [|by right]. left. apply bool_decide_eq_false. naive_solver.
Qed.

(** An element of another region leaves a row alone. *)
Lemma row_other r D p : home p <> r -> region_row r (D ++ [p]) = region_row r D.
Proof.
  intros H. unfold region_row, size_at. rewrite members_snoc, mark_at_snoc. by rewrite !decide_False by naive_solver.
Qed.

Lemma row_of_root r D : home r = r -> isInsideMask J r = false -> region_row r (D ++ [r]) = region_row r D.
Proof.
  intros Hr Hm. unfold region_row, size_at. rewrite members_snoc, mark_at_snoc. by rewrite !decide_False by naive_solver congruence.
Qed.

Lemma put_row_other i j l m : i <> j -> stats (put_row i l m) !! j = stats m !! j.
Proof. intros H. by apply list_lookup_insert_ne. Qed.

Lemma rows_update D p i m m0 l : all_rows (fun _ r => region_row r D) m m0 -> numbered rts i (home p) ->
  l = region_row (home p) (D ++ [p]) -> all_rows (fun _ r => region_row r (D ++ [p])) (put_row i l m) m0.
Proof.
  intros (Hrow & Ht & Hc) Hi ->. split_and!; [| |done].
  - intros j r Hj. destruct (decide (i = j)) as [<-|Hne].
    + destruct Hi as [Hi ?], Hj as [Hj ?]. simplify_eq. apply put_row_lookup. eapply lookup_lt_Some, Hrow. by split.
    + rewrite put_row_other by done. rewrite (Hrow j r Hj). f_equal. symmetry. apply row_other.
      intros Hr. apply Hne. apply (numbered_unique rts i j r Hrts); [by rewrite <- Hr|done].
  - intros j Hj. rewrite put_row_other; [auto|]. destruct Hi as [Hi _]. apply lookup_lt_Some in Hi. lia.
Qed.

Lemma rows_same D p m m0 : all_rows (fun _ r => region_row r D) m m0 ->
  (forall i, numbered rts i (home p) -> region_row (home p) (D ++ [p]) = region_row (home p) D) ->
  all_rows (fun _ r => region_row r (D ++ [p])) m m0.
Proof.
  intros (Hrow & Ht & Hc) H. split_and!; [|done|done]. intros j r Hj. rewrite (Hrow j r Hj). f_equal. symmetry.
  destruct (decide (home p = r)) as [<-|Hne]; [by apply (H j)|by apply row_other].
Qed.

(** A mark of the region a thread is in. *)
Lemma mark_inside_row m i p (cor : list Z) f l c k : p ∈ P -> length cor = nd -> Z.of_nat i < 2 ^ 31 ->
  stats m !! i = Some (l :: cor ++ (f <$> seq 0 nd) ++ [c; k]) ->
  mark_inside J (Z.of_nat i) p m =
    Ok (put_row i (l :: cor ++ (f <$> seq 0 nd) ++ [c; if isInsideMask J p then REGION_INSIDE_MASK else k]) m).
Proof.
  intros Hp Hc Hi Hm. unfold mark_inside. destruct (isInsideMask J p).
  - destruct (cols_of p Hp) as (_ & _ & ->). destruct (row_cols l cor f c k Hc) as (_ & _ & _ & _ & Hlen).
    rewrite (set_stat_row _ _ _ _ _ Hm Hi) by lia. do 2 f_equal. by apply row_insert_tail.
  - unfold put_row. rewrite list_insert_id by done. by destruct m.
Qed.

Definition relabelled (D : list (list Z)) (p : list Z) : Z :=
  match region_no rts p with
  | Some i => if relabel J && bool_decide (p ∈ D) then sequential J (Z.of_nat i) else shown p
  | None => shown p
  end.

Lemma relabelled_other D p q : q <> p -> relabelled (D ++ [p]) q = relabelled D q.
Proof.
  intros H. unfold relabelled. destruct (region_no rts q); [|done]. by rewrite (bool_decide_ext (q ∈ D ++ [p]) (q ∈ D)) by set_solver.
Qed.

Lemma is_bg_mark i : 0 <= i < flag -> is_bg J (mark i) = false.
Proof.
  intros Hi. unfold is_bg. destruct (bgLabel J) as [bg|] eqn:E; [|done]. rewrite mark_add by done.
  pose proof (jo_bg _ _ _ _ HJ bg E). apply Z.eqb_neq. lia.
Qed.

Lemma back_home p : p ∈ P -> background p = false ->
  match bgLabel J with Some bg => if shown p =? endLabel J then u32 bg else shown p | None => shown p end = label_at J (home p).
Proof.
  intros Hp Hb. destruct endLabel_eq as [-> He]. pose proof (home_label p Hp). unfold shown, background in *.
  destruct (bgLabel J) as [bg|]; [|done]. rewrite Hb.
  destruct (Z.eqb_spec (label_at J (home p)) (u32 bg)) as [E|]; [by rewrite Z.eqb_refl|].
  by rewrite (proj2 (Z.eqb_neq _ _)) by lia.
Qed.

Definition stats_done (m0 : Marks) (D : list (list Z)) (m : Marks) : Prop :=
  labelled_with (relabelled D) m /\ all_rows (fun _ r => region_row r D) m m0.

Lemma labelled_with_same f g m : labelled_with f m -> (forall p, p ∈ P -> home p <> p \/ region_no rts p = None -> g p = f p) -> labelled_with g m.
Proof.
  intros H Hg p Hp. rewrite (H p Hp). destruct (region_no rts p) eqn:E; [|symmetry; auto].
  destruct (decide (home p = p)); [done|symmetry; auto].
Qed.

(** The thread of an element of a numbered region that is not its first. *)
Lemma stats_member m0 D p i m : p ∈ P -> p ∉ D -> (length D <= length P)%nat -> stats_done m0 D m -> region_no rts p = Some i -> home p <> p ->
  exists m', (m1 ← grow_sizes (Z.of_nat i) p (if relabel J then set_labels (label_at J p) (sequential J (Z.of_nat i)) m else m);
    m2 ← upd_stat (Z.of_nat i) (col_count p) (fun v => u32 (v + 1)) m1;
    mark_inside J (Z.of_nat i) p m2) = Ok m' /\ stats_done m0 (D ++ [p]) m'.
Proof.
  intros Hp HpD HlD [Hl Hrow] Hi Hne. pose proof Hi as Hn. apply region_no_spec in Hn; [|done].
  destruct (numbered_in _ _ Hn) as (Hr & [Hhome _] & Hi31 & _). destruct (jo_coords _ _ _ _ HJ _ Hr) as [Hlc _].
  set (m1 := if relabel J then set_labels (label_at J p) (sequential J (Z.of_nat i)) m else m).
  assert (Hs1 : stats m1 = stats m /\ count m1 = count m) by (unfold m1; by destruct (relabel J)).
  assert (Hl1 : labelled_with (relabelled (D ++ [p])) m1).
  { assert (Hat : relabelled (D ++ [p]) p = if relabel J then sequential J (Z.of_nat i) else relabelled D p).
    { unfold relabelled. rewrite Hi. rewrite bool_decide_eq_true_2, (bool_decide_eq_false_2 (p ∈ D)) by set_solver.
      by destruct (relabel J). }
    unfold m1. destruct (relabel J).
    - refine (labelled_set _ _ _ _ _ Hp Hl _ _); [|rewrite Hi; by rewrite decide_False].
      intros q _ Hq. rewrite relabelled_other by done. done.
    - apply (labelled_with_same _ _ _ Hl). intros q _ _.
      destruct (decide (q = p)) as [->|]; [done|by apply relabelled_other]. }
  pose proof (proj1 Hrow i _ Hn) as Hri. unfold region_row in Hri. rewrite <- (proj1 Hs1) in Hri.
  assert (Hin1 : (i < length (stats m1))%nat) by (by eapply lookup_lt_Some).
  rewrite (grow_sizes_row m1 i (shown (home p)) (home p) p (size_at (home p) D) _ _ Hr Hp Hi31 Hri). cbn [mbind outcome_bind].
  set (f := fun j => Z.max (size_at (home p) D j) (Z.abs (home p !!! j - p !!! j) + 1)).
  destruct (cols_of p Hp) as (_ & -> & _).
  set (cnt := 1 + Z.of_nat (length (members (home p) D))).
  destruct (row_cols (shown (home p)) (home p) f cnt (mark_at (home p) D) Hlc) as (_ & _ & Ccnt & _ & _).
  rewrite (upd_stat_row _ i _ _ _ _ (put_row_lookup _ _ _ Hin1) Hi31 Ccnt). cbn [mbind outcome_bind]. rewrite put_row_put.
  rewrite (proj1 (row_insert_tail _ _ _ _ _ _ Hlc)).
  rewrite (mark_inside_row _ i p (home p) f _ _ _ Hp Hlc Hi31 (put_row_lookup _ _ _ Hin1)). rewrite put_row_put.
  eexists. split; [done|]. split; [exact Hl1|].
  apply (rows_update D p i m1 m0); [|done|].
  { destruct Hrow as (? & ? & ?). destruct Hs1 as [E1 E2]. unfold all_rows. by rewrite E1, E2. }
  unfold region_row, size_at. rewrite members_snoc, mark_at_snoc. rewrite decide_True by done. f_equal. f_equal. f_equal.
  - apply list_fmap_ext. intros j j' Hj. apply lookup_seq in Hj as [-> Hj]. unfold f, size_at. by rewrite foldl_app.
  - rewrite length_app. cbn [length]. f_equal; [|f_equal].
    + unfold cnt. rewrite wrapu_small; [lia|]. pose proof (jo_length _ _ _ _ HJ). destruct endLabel_eq.
      pose proof (length_filter (fun q => home q = home p /\ q <> home p) D) as Hm. fold (members (home p) D) in Hm.
      unfold in_u, flag in *. lia.
    + destruct (isInsideMask J p) eqn:E; [by rewrite decide_True by done|by rewrite decide_False by naive_solver].
Qed.

Lemma stats_stage order m m0 : order ≡ₚ P -> stats_done m0 [] m ->
  exists m', mfold (fun m gc => ComputeStats J gc m) order m = Ok m' /\ stats_done m0 order m'.
Proof.
  intros Ho Hm. apply (mfold_list (fun m gc => ComputeStats J gc m) (stats_done m0)); [done|].
  intros D p todo m1 E Hd. destruct (order_in _ _ _ _ Ho E) as (Hp & HpD & _).
  assert (HlD : (length D <= length P)%nat) by (rewrite <- Ho, E, length_app; lia).
  pose proof Hd as [Hl Hrow].
  assert (Hkeep : (forall q, q ∈ P -> home q <> q \/ region_no rts q = None -> relabelled (D ++ [p]) q = relabelled D q) ->
    (forall i, numbered rts i (home p) -> region_row (home p) (D ++ [p]) = region_row (home p) D) -> stats_done m0 (D ++ [p]) m1).
  { intros H1 H2. split; [by apply (labelled_with_same _ _ _ Hl)|by apply rows_same]. }
  assert (Hunno : region_no rts p = None -> stats_done m0 (D ++ [p]) m1).
  { intros En. apply Hkeep.
    - intros q _ _. destruct (decide (q = p)) as [->|]; [unfold relabelled; by rewrite En|by apply relabelled_other].
    - intros i Hi. by apply (proj1 (region_no_None p) En) in Hi. }
  unfold ComputeStats. pose proof (Hl p Hp) as Hlab. cbn beta in Hlab.
  destruct (region_no rts p) as [i|] eqn:En.
  - pose proof (region_no_shown p i Hp En) as Hb. pose proof En as Hn. apply region_no_spec in Hn; [|done].
    destruct (numbered_in _ _ Hn) as (Hr & [Hhome _] & Hi31 & Hif).
    destruct (decide (home p = p)) as [Eh|Hne].
    + rewrite Hlab, is_bg_mark by done. destruct (marked_mark _ Hif) as [-> ->].
      destruct (jo_coords _ _ _ _ HJ _ Hp) as [Hlc _]. rewrite Eh in Hn, Hr.
      pose proof (proj1 Hrow i _ Hn) as Hri. unfold region_row in Hri.
      rewrite (mark_inside_row _ i p p (size_at p D) _ _ _ Hp Hlc Hi31 Hri). eexists. split; [done|]. split.
      * apply (labelled_with_same (relabelled D)); [exact Hl|]. intros q _ Hq.
        destruct (decide (q = p)) as [->|]; [destruct Hq; congruence|by apply relabelled_other].
      * apply rows_update with (D := D) (p := p); [done|by rewrite Eh|].
        unfold region_row, size_at. rewrite Eh, members_snoc, mark_at_snoc, decide_False by naive_solver. do 4 f_equal.
        destruct (isInsideMask J p) eqn:Em; [by rewrite decide_True by done|by rewrite decide_False by naive_solver].
    + assert (Hsh : relabelled D p = shown p).
      { unfold relabelled. rewrite En, bool_decide_eq_false_2 by done. by rewrite andb_false_r. }
      rewrite Hlab, Hsh, (shown_bg p Hp), Hb, (marked_small _ (shown_small p Hp)).
      rewrite (back_home p Hp Hb).
      assert (Hhl : labels m1 (label_at J (home p)) = mark (Z.of_nat i)).
      { rewrite (Hl _ Hr). assert (region_no rts (home p) = Some i) as -> by (apply region_no_spec; [done|by rewrite Hhome]).
        by rewrite decide_True. }
      rewrite Hhl. destruct (marked_mark _ Hif) as [-> ->]. cbn [negb]. by apply stats_member.
  - assert (Hsh : relabelled D p = shown p) by (unfold relabelled; by rewrite En).
    rewrite Hlab, Hsh, (shown_bg p Hp). destruct (background p) eqn:Hb; [eauto|].
    rewrite (marked_small _ (shown_small p Hp)), (back_home p Hp Hb).
    destruct (jo_home _ _ _ _ HJ p Hp) as (Hr & Hhome & _).
    assert (Eh : region_no rts (home p) = None).
    { apply region_no_None. intros i Hi. rewrite Hhome in Hi. by apply (proj1 (region_no_None p) En) in Hi. }
    rewrite (Hl _ Hr), Eh. unfold relabelled at 1. rewrite Eh, (marked_small _ (shown_small _ Hr)). cbn [negb]. eauto.
Qed.

(** *** Islands *)

Definition region_size (r : list Z) (D : list (list Z)) : Z := 1 + Z.of_nat (length (members r D)).

(** A region with fewer elements than the least size, and none of them in the mask. *)
Definition removed (D : list (list Z)) (p : list Z) : bool :=
  match minSize J with
  | Some minSize =>
      (region_size (home p) D <? minSize) &&
      match mask_at J with Some _ => negb (mark_at (home p) D =? REGION_INSIDE_MASK) | None => true end
  | None => false
  end.

Lemma is_island_row m i p cor f l c k ms : p ∈ P -> length cor = nd -> Z.of_nat i < 2 ^ 31 ->
  stats m !! i = Some (l :: cor ++ (f <$> seq 0 nd) ++ [c; k]) ->
  is_island J ms (Z.of_nat i) p m =
    Ok ((c <? ms) && match mask_at J with Some _ => negb (k =? REGION_INSIDE_MASK) | None => true end).
Proof.
  intros Hp Hc Hi Hm. destruct (cols_of p Hp) as (_ & E1 & E2). destruct (row_cols l cor f c k Hc) as (_ & _ & C1 & C2 & _).
  unfold is_island. rewrite E1, E2, (stat_row _ _ _ _ _ Hm Hi C1). cbn [mbind outcome_bind].
  destruct (c <? ms); [|done]. destruct (mask_at J); [|done]. by rewrite (stat_row _ _ _ _ _ Hm Hi C2).
Qed.

Lemma sequential_range p i : p ∈ P -> region_no rts p = Some i -> home p <> p ->
  Z.of_nat i <= sequential J (Z.of_nat i) <= Z.of_nat i + 1 /\ sequential J (Z.of_nat i) < strides0 J / 4.
Proof.
  intros Hp Hi Hne. apply region_no_spec in Hi as [Hi _]; [|done]. apply lookup_lt_Some in Hi.
  assert (Hlen : (length (p :: rts) <= length P)%nat).
  { apply submseteq_length, NoDup_submseteq.
    - apply NoDup_cons. split; [|done]. intros Hin. destruct (Hroots _ Hin) as [_ [H _]]. done.
    - intros q [->|Hq]%elem_of_cons; [done|by apply Hroots]. }
  cbn in Hlen. pose proof (jo_length _ _ _ _ HJ). unfold sequential. destruct (bgLabel J) as [bg|]; [destruct (u32 bg <=? Z.of_nat i)|]; lia.
Qed.

Section Ends.
Variable D : list (list Z).
Hypothesis HD : D ≡ₚ P.

Definition bg_label : Z := match bgLabel J with Some bg => u32 bg | None => 0 end.

(** The label of an element at the end. *)
Definition final (p : list Z) : Z :=
  match region_no rts p with
  | Some i => if removed D p then bg_label else if relabel J then sequential J (Z.of_nat i) else shown p
  | None => shown p
  end.

Definition islanded (E : list (list Z)) (p : list Z) : Z := if bool_decide (p ∈ E) then final p else relabelled D p.

Lemma relabelled_full p : p ∈ P -> relabelled D p =
  match region_no rts p with Some i => if relabel J then sequential J (Z.of_nat i) else shown p | None => shown p end.
Proof.
  intros Hp. unfold relabelled. destruct (region_no rts p); [|done].
  rewrite bool_decide_eq_true_2 by (by rewrite HD). by rewrite andb_true_r.
Qed.

Lemma bg_label_small : 0 <= bg_label < flag.
Proof.
  unfold bg_label. destruct (bgLabel J) as [bg|] eqn:E; [|done].
  pose proof (wrapu_range 32 bg ltac:(done)) as [? _]. pose proof (jo_bg _ _ _ _ HJ bg E). lia.
Qed.

(** The label of an element that is not the first of a numbered region has no flag. *)
Lemma final_small p : p ∈ P -> home p <> p \/ region_no rts p = None -> 0 <= final p < flag.
Proof.
  intros Hp H. unfold final. destruct (region_no rts p) as [i|] eqn:Ei; [|by apply shown_small].
  destruct H as [H|]; [|done]. destruct (removed D p); [apply bg_label_small|].
  destruct (relabel J); [|by apply shown_small]. destruct (sequential_range p i Hp Ei H), endLabel_eq. lia.
Qed.

(** The thread of an element of a numbered region that is not its first. *)
Lemma remove_member m0 E p i m bg ms : p ∈ P -> p ∉ E -> bgLabel J = Some bg -> minSize J = Some ms ->
  labelled_with (islanded E) m -> all_rows (fun _ r => region_row r D) m m0 -> region_no rts p = Some i -> home p <> p ->
  (island ← is_island J ms (Z.of_nat i) p m;
   Ok (if island : bool then set_labels (label_at J p) (u32 bg) m else m)) =
  Ok (if removed D p then set_labels (label_at J p) (u32 bg) m else m) /\
  labelled_with (islanded (E ++ [p])) (if removed D p then set_labels (label_at J p) (u32 bg) m else m).
Proof.
  intros Hp HpE Hbg Hms Hl Hrow Hi Hne. pose proof Hi as Hn. apply region_no_spec in Hn; [|done].
  destruct (numbered_in _ _ Hn) as (Hr & _ & Hi31 & _). destruct (jo_coords _ _ _ _ HJ _ Hr) as [Hlc _].
  pose proof (proj1 Hrow i _ Hn) as Hri. unfold region_row in Hri.
  rewrite (is_island_row m i p _ _ _ _ _ ms Hp Hlc Hi31 Hri). cbn [mbind outcome_bind].
  assert (Hrem : (1 + Z.of_nat (length (members (home p) D)) <? ms) &&
    match mask_at J with Some _ => negb (mark_at (home p) D =? REGION_INSIDE_MASK) | None => true end = removed D p)
    by (unfold removed; by rewrite Hms).
  rewrite Hrem. split; [done|].
  assert (Hother : forall q, q <> p -> islanded (E ++ [p]) q = islanded E q).
  { intros q Hq. unfold islanded. by rewrite (bool_decide_ext (q ∈ E ++ [p]) (q ∈ E)) by set_solver. }
  assert (Hat : islanded (E ++ [p]) p = final p) by (unfold islanded; by rewrite bool_decide_eq_true_2 by set_solver).
  assert (Hold : islanded E p = relabelled D p) by (unfold islanded; by rewrite bool_decide_eq_false_2).
  destruct (removed D p) eqn:Er.
  - refine (labelled_set _ _ _ _ _ Hp Hl _ _); [intros q _ Hq; by rewrite Hother|].
    rewrite Hi, decide_False by done. rewrite Hat. unfold final. by rewrite Hi, Er; unfold bg_label; rewrite Hbg.
  - apply (labelled_with_same _ _ _ Hl). intros q _ _. destruct (decide (q = p)) as [->|]; [|by apply Hother].
    rewrite Hat, Hold, relabelled_full by done. unfold final. by rewrite Hi, Er.
Qed.

(** Sequential labels with islands to remove need a row for every region. *)
Hypothesis Hrows : relabel J = true -> is_Some (minSize J) -> forall p, p ∈ P -> background p = false -> is_Some (region_no rts p).
Hypothesis Hmin : is_Some (minSize J) -> is_Some (bgLabel J).

Lemma remove_stage order m m0 : order ≡ₚ P -> is_Some (minSize J) ->
  labelled_with (relabelled D) m -> all_rows (fun _ r => region_row r D) m m0 ->
  exists m', mfold (fun m gc => RemoveIslands J gc m) order m = Ok m' /\
    labelled_with final m' /\ all_rows (fun _ r => region_row r D) m' m0.
Proof.
  intros Ho Hms0 Hl Hrow. pose proof (Hmin Hms0) as [bg Hbg]. pose proof Hms0 as [ms Hms].
  destruct (mfold_list (fun m gc => RemoveIslands J gc m) (fun E m' =>
    labelled_with (islanded E) m' /\ all_rows (fun _ r => region_row r D) m' m0) order m) as (m' & Hm' & Hl' & Hrow').
  - split; [|done]. apply (labelled_with_same _ _ _ Hl). intros q _ _. unfold islanded. by rewrite bool_decide_eq_false_2 by set_solver.
  - intros E p todo m1 Eo (Hl1 & Hrow1). destruct (order_in _ _ _ _ Ho Eo) as (Hp & HpE & _).
    assert (Hkeep : final p = relabelled D p -> labelled_with (islanded (E ++ [p])) m1).
    { intros Hf. apply (labelled_with_same _ _ _ Hl1). intros q _ _. unfold islanded. destruct (decide (q = p)) as [->|].
      - rewrite bool_decide_eq_true_2 by set_solver. by case_bool_decide.
      - by rewrite (bool_decide_ext (q ∈ E ++ [p]) (q ∈ E)) by set_solver. }
    assert (Hcur : islanded E p = relabelled D p) by (unfold islanded; by rewrite bool_decide_eq_false_2).
    unfold RemoveIslands, remove_islands. rewrite Hbg, Hms. pose proof (Hl1 p Hp) as Hlab. cbn beta in Hlab.
    assert (Hisbg : forall l, is_bg J l = (l =? u32 bg)) by (intros l; unfold is_bg; by rewrite Hbg).
    assert (Hback : background p = false -> (if shown p =? endLabel J then u32 bg else shown p) = label_at J (home p)).
    { intros Hb. pose proof (back_home p Hp Hb) as H. by rewrite Hbg in H. }
    destruct (region_no rts p) as [i|] eqn:En.
    + pose proof (region_no_shown p i Hp En) as Hb. pose proof En as Hn. apply region_no_spec in Hn; [|done].
      destruct (numbered_in _ _ Hn) as (Hr & [Hhome _] & Hi31 & Hif). destruct endLabel_eq as [He Hef].
      destruct (decide (home p = p)) as [Eh|Hne].
      * rewrite Hlab, <- Hisbg, is_bg_mark by done.
        rewrite (proj2 (Z.eqb_neq (mark _) (endLabel J))) by (rewrite mark_add by done; lia).
        rewrite (proj1 (marked_mark _ Hif)). eexists. split; [done|]. split; [|done].
        apply (labelled_with_same (islanded E)); [exact Hl1|]. intros q _ Hq. unfold islanded.
        destruct (decide (q = p)) as [->|]; [destruct Hq; congruence|]. by rewrite (bool_decide_ext (q ∈ E ++ [p]) (q ∈ E)) by set_solver.
      * rewrite Hlab, Hcur, relabelled_full, En by done.
        destruct (remove_member m0 E p i m1 bg ms Hp HpE Hbg Hms Hl1 Hrow1 En Hne) as [Hrun Hres].
        assert (Hrow2 : all_rows (fun _ r => region_row r D) (if removed D p then set_labels (label_at J p) (u32 bg) m1 else m1) m0)
          by (by destruct (removed D p)).
        destruct (relabel J) eqn:Erel.
        -- destruct (sequential_range p i Hp En Hne) as [Hseq1 Hseq2]. unfold sequential in *. rewrite Hbg in *.
           pose proof (jo_bg _ _ _ _ HJ bg Hbg) as Hbgf. pose proof (wrapu_range 32 bg ltac:(done)) as [Hbg0 _].
           rewrite (wrapu_small 32 (u32 bg + 1)) by (unfold in_u, flag in *; lia).
           destruct (Z.leb_spec (u32 bg) (Z.of_nat i)).
           ++ rewrite (proj2 (Z.eqb_neq _ (u32 bg))), (proj2 (Z.eqb_neq _ (endLabel J))), marked_small, (proj2 (Z.leb_le _ _)) by lia.
              replace (Z.of_nat i + 1 - 1) with (Z.of_nat i) by lia. rewrite Hrun. by eexists.
           ++ rewrite (proj2 (Z.eqb_neq _ (u32 bg))), (proj2 (Z.eqb_neq _ (endLabel J))), marked_small, (proj2 (Z.leb_gt _ _)) by lia.
              rewrite Hrun. by eexists.
        -- rewrite <- Hisbg, (shown_bg p Hp), Hb, (Hback Hb).
           rewrite marked_small by (pose proof (home_label p Hp); lia).
           assert (region_no rts (home p) = Some i) as Eh by (apply region_no_spec; [done|by rewrite Hhome]).
           rewrite (Hl1 _ Hr), Eh, decide_True by done. destruct (marked_mark _ Hif) as [-> ->]. rewrite Hrun. by eexists.
    + rewrite Hlab, Hcur, relabelled_full, En by done. rewrite <- Hisbg, (shown_bg p Hp).
      assert (Hff : final p = relabelled D p) by (unfold final; by rewrite relabelled_full, En by done).
      destruct (background p) eqn:Hb; [eauto|]. rewrite (Hback eq_refl).
      pose proof (home_label p Hp) as Hhl. destruct endLabel_eq as [_ Hef]. rewrite marked_small by lia.
      destruct (relabel J) eqn:Erel; [destruct (Hrows eq_refl Hms0 p Hp Hb); congruence|].
      destruct (jo_home _ _ _ _ HJ p Hp) as (Hr & Hhome & _).
      assert (Eh : region_no rts (home p) = None).
      { apply region_no_None. intros i Hi. rewrite Hhome in Hi. by apply (proj1 (region_no_None p) En) in Hi. }
      assert (Hish : islanded E (home p) = shown (home p)).
      { unfold islanded, final. rewrite (relabelled_full _ Hr), Eh. by case_bool_decide. }
      rewrite (Hl1 _ Hr), Eh, Hish, (marked_small _ (shown_small _ Hr)). eauto.
  - exists m'. split; [done|]. split; [|done]. apply (labelled_with_same _ _ _ Hl'). intros q Hq _.
    unfold islanded. by rewrite bool_decide_eq_true_2 by (by rewrite Ho).
Qed.

(** *** Labels at the end *)

Definition final_row (r : list Z) : list Z :=
  shown r :: r ++ (size_at r D <$> seq 0 nd) ++
    [1 + Z.of_nat (length (members r D)); if removed D r then REGION_REMOVED else mark_at r D].

Lemma relabel_stage order m m0 : order ≡ₚ P -> labelled_with final m -> all_rows (fun _ r => region_row r D) m m0 ->
  exists m', mfold (fun m gc => Relabel J gc m) order m = Ok m' /\
    labelled_by final m' /\ all_rows (fun _ r => final_row r) m' m0.
Proof.
  intros Ho Hl Hrow.
  set (lab := fun (F : list (list Z)) (p : list Z) => match region_no rts p with
    | Some i => if bool_decide (home p = p /\ p ∉ F) then mark (Z.of_nat i) else final p | None => final p end).
  destruct (mfold_list (fun m gc => Relabel J gc m) (fun F m' => labelled_by (lab F) m' /\
    all_rows (fun _ r => if bool_decide (r ∈ F) then final_row r else region_row r D) m' m0) order m) as (m' & Hm' & Hl' & Hrow').
  - split; [|exact Hrow]. intros p Hp. unfold lab. rewrite (Hl p Hp). destruct (region_no rts p); [|done].
    destruct (decide (home p = p)); [rewrite bool_decide_eq_true_2 by set_solver|rewrite bool_decide_eq_false_2 by naive_solver]; done.
  - intros F p todo m1 Eo (Hl1 & Hrow1). destruct (order_in _ _ _ _ Ho Eo) as (Hp & HpF & _).
    pose proof (Hl1 p Hp) as Hlab. unfold Relabel. cbv zeta. rewrite Hlab.
    assert (Hother : forall q, q <> p -> lab (F ++ [p]) q = lab F q).
    { intros q Hq. unfold lab. destruct (region_no rts q); [|done].
      by rewrite (bool_decide_ext (home q = q /\ q ∉ F ++ [p]) (home q = q /\ q ∉ F)) by set_solver. }
    assert (Hrother : forall i r, numbered rts i r -> r <> p ->
      (if bool_decide (r ∈ F ++ [p]) then final_row r else region_row r D) = if bool_decide (r ∈ F) then final_row r else region_row r D).
    { intros i r _ Hr. by rewrite (bool_decide_ext (r ∈ F ++ [p]) (r ∈ F)) by set_solver. }
    assert (Hcase : (exists i, region_no rts p = Some i /\ home p = p) \/ ~ exists i, region_no rts p = Some i /\ home p = p).
    { destruct (region_no rts p) as [i|]; [|right; by intros (i & ? & _)].
      destruct (decide (home p = p)); [left; eauto|right; by intros (j & _ & ?)]. }
    destruct Hcase as [(i & Hi & Eh)|Hno].
    2:{ assert (Hf : lab F p = final p).
        { unfold lab. destruct (region_no rts p) as [i|] eqn:Ei; [|done]. rewrite bool_decide_eq_false_2; [done|]. intros [Eh _]. eauto. }
        rewrite Hf, marked_small.
        2:{ apply final_small; [done|]. destruct (region_no rts p) as [i|] eqn:Ei; [|by right]. left. intros Eh. eauto. }
        exists m1. split; [done|]. split.
        - intros q Hq. destruct (decide (q = p)) as [->|]; [|rewrite Hother by done; auto].
          rewrite (Hl1 p Hp), Hf. unfold lab. destruct (region_no rts p) as [i|] eqn:Ei; [|done].
          rewrite bool_decide_eq_false_2; [done|]. intros [Eh _]. eauto.
        - destruct Hrow1 as (Hr1 & ? & ?). split_and!; [|done..]. intros i r Hi. rewrite (Hr1 i r Hi). f_equal. symmetry.
          apply (Hrother i); [done|]. intros ->. apply Hno. exists i. pose proof (numbered_home _ _ Hi) as Eh.
          split; [|done]. apply region_no_spec; [done|]. by rewrite Eh. }
    pose proof Hi as Hn. apply region_no_spec in Hn; [|done]. rewrite Eh in Hn.
    destruct (numbered_in _ _ Hn) as (_ & _ & Hi31 & Hif). destruct (jo_coords _ _ _ _ HJ _ Hp) as [Hlc _].
    assert (Hf : lab F p = mark (Z.of_nat i)) by (unfold lab; by rewrite Hi, bool_decide_eq_true_2).
    rewrite Hf. destruct (marked_mark _ Hif) as [-> ->]. cbn [negb].
    pose proof (proj1 Hrow1 i p Hn) as Hri. cbn beta in Hri.
    rewrite bool_decide_eq_false_2 in Hri by done. unfold region_row in Hri.
    assert (Hv : (if relabel J then Ok (sequential J (Z.of_nat i)) else stat m1 (Z.of_nat i) 0) =
      Ok (if relabel J then sequential J (Z.of_nat i) else shown p)).
    { destruct (relabel J); [done|]. by apply (stat_row m1 i _ 0 _ Hri Hi31). }
    rewrite Hv. cbn [mbind outcome_bind]. set (v := if relabel J then _ else shown p) in *.
    assert (Hat : lab (F ++ [p]) p = final p) by (unfold lab; rewrite Hi; by rewrite bool_decide_eq_false_2 by set_solver).
    assert (Hfin : final p = if removed D p then bg_label else v) by (unfold final; by rewrite Hi).
    assert (Hlset : forall w m2, (forall q, q ∈ P -> q <> p -> labels m2 (label_at J q) = labels m1 (label_at J q)) ->
      w = final p -> labelled_by (lab (F ++ [p])) (set_labels (label_at J p) w m2)).
    { intros w m2 E -> q Hq. cbn. destruct (decide (q = p)) as [->|Hqp]; [by rewrite fn_lookup_insert|].
      rewrite fn_lookup_insert_ne by (intros El; symmetry in El; by apply (jo_inj _ _ _ _ HJ) in El).
      rewrite E, Hother by done. auto. }
    assert (Hkeep : removed D p = false -> forall m2, stats m2 = stats m1 -> count m2 = count m1 ->
      all_rows (fun _ r => if bool_decide (r ∈ F ++ [p]) then final_row r else region_row r D) m2 m0).
    { intros Er m2 Es Ec. destruct Hrow1 as (Hr1 & Ht & Hc). unfold all_rows. rewrite Es, Ec. split_and!; [|done..].
      intros j r Hj. rewrite (Hr1 j r Hj). f_equal. symmetry. destruct (decide (r = p)) as [->|]; [|by apply (Hrother j)].
      rewrite bool_decide_eq_true_2, bool_decide_eq_false_2 by set_solver. unfold final_row, region_row. by rewrite Er. }
    destruct (minSize J) as [ms|] eqn:Hms.
    2:{ assert (Er : removed D p = false) by (unfold removed; by rewrite Hms). rewrite Er in Hfin.
        eexists. split; [done|]. split; [by apply Hlset|by apply Hkeep]. }
    rewrite (is_island_row (set_labels (label_at J p) v m1) i p _ _ _ _ _ ms Hp Hlc Hi31 Hri). cbn [mbind outcome_bind].
    assert (Hrem : (1 + Z.of_nat (length (members p D)) <? ms) &&
      match mask_at J with Some _ => negb (mark_at p D =? REGION_INSIDE_MASK) | None => true end = removed D p)
      by (unfold removed; by rewrite Hms, Eh).
    rewrite Hrem. destruct (removed D p) eqn:Er.
    + destruct Hmin as [bg Hbg]; [by eexists|]. rewrite Hbg. destruct (cols_of p Hp) as (_ & _ & ->).
      destruct (row_cols (shown p) p (size_at p D) (1 + Z.of_nat (length (members p D))) (mark_at p D) Hlc) as (_ & _ & _ & _ & Hlen).
      rewrite (set_stat_row (set_labels (label_at J p) (u32 bg) (set_labels (label_at J p) v m1)) i _ _ _ Hri Hi31) by lia.
      rewrite (proj2 (row_insert_tail _ _ _ _ _ _ Hlc)).
      eexists. split; [done|]. split.
      * change (labelled_by (lab (F ++ [p])) (set_labels (label_at J p) (u32 bg) (set_labels (label_at J p) v m1))).
        apply Hlset; [|rewrite Hfin; unfold bg_label; by rewrite Hbg]. intros q Hq Hqp. cbn.
        rewrite fn_lookup_insert_ne; [done|]. intros El; symmetry in El; by apply (jo_inj _ _ _ _ HJ) in El.
      * destruct Hrow1 as (Hr1 & Ht & Hc). split_and!; [| |done].
        -- intros j r Hj. cbn [stats put_row]. destruct (decide (i = j)) as [<-|Hne].
           ++ destruct Hn as [Hn ?], Hj as [Hj ?]. simplify_eq. rewrite bool_decide_eq_true_2 by set_solver.
              unfold final_row. rewrite Er. apply list_lookup_insert_eq. by eapply lookup_lt_Some.
           ++ rewrite list_lookup_insert_ne by done. cbn. rewrite (Hr1 j r Hj). f_equal. symmetry. apply (Hrother j); [done|].
              intros ->. apply Hne. by apply (numbered_unique rts i j p Hrts).
        -- intros j Hj. cbn [stats put_row]. rewrite list_lookup_insert_ne; [by apply Ht|].
           destruct Hn as [Hn _]. apply lookup_lt_Some in Hn. lia.
    + eexists. split; [done|]. split; [by apply Hlset|by apply Hkeep].
  - exists m'. split; [done|]. split.
    + intros p Hp. rewrite (Hl' p Hp). unfold lab. destruct (region_no rts p); [|done].
      rewrite bool_decide_eq_false_2; [done|]. intros [_ Hn]. apply Hn. by rewrite Ho.
    + destruct Hrow' as (Hr & ? & ?). split_and!; [|done..]. intros i r Hi. rewrite (Hr i r Hi).
      rewrite bool_decide_eq_true_2; [done|]. rewrite Ho. by apply (numbered_in _ _ Hi).
Qed.
End Ends.
End Numbered.

(** ** All the kernels *)

Lemma order_roots order : order ≡ₚ P ->
  NoDup (filter region_root order) /\ (forall r, r ∈ filter region_root order -> r ∈ P /\ region_root r) /\
  Z.of_nat (length (filter region_root order)) <= strides0 J / 4.
Proof.
  intros Ho. pose proof (jo_nodup _ _ _ _ HJ) as Hn. rewrite <- Ho in Hn. split_and!.
  - by apply NoDup_filter.
  - intros r [Hr Hin]%list_elem_of_filter. by rewrite <- Ho.
  - pose proof (jo_length _ _ _ _ HJ) as Hl. rewrite <- Ho in Hl. pose proof (length_filter region_root order). lia.
Qed.

Lemma launch_all f (Q : list (list Z) -> Marks -> Prop) m :
  (forall order, order ≡ₚ P -> exists m', mfold (fun m gc => f gc m) order m = Ok m' /\ Q order m') ->
  (exists m', launch P f m (Ok m')) /\ forall m', launch P f m (Ok m') -> exists order, order ≡ₚ P /\ Q order m'.
Proof.
  intros H. split.
  - destruct (H P ltac:(done)) as (m' & Hm & _). by exists m', P.
  - intros m' (order & Ho & Hm). destruct (H order Ho) as (m2 & Hm2 & HQ). rewrite Hm2 in Hm. injection Hm as <-. eauto.
Qed.

Lemma replace_kernel m : labelled_by (fun p => label_at J (home p)) m ->
  let k := kernel_if (bool_decide (is_Some (bgLabel J))) P (ReplaceBgLabels J) m in
  (exists m', k m') /\ forall m', k m' -> labelled_by shown m' /\ count m' = count m /\ stats m' = stats m.
Proof.
  intros Hm k. unfold k, kernel_if. case_bool_decide as Hbg.
  - destruct (launch_all (ReplaceBgLabels J) (fun _ m' => labelled_by shown m' /\ count m' = count m /\ stats m' = stats m) m) as [He Ha].
    + intros order Ho. by apply replace_stage.
    + split; [done|]. intros m' Hm'. by destruct (Ha m' Hm') as (_ & _ & ?).
  - split; [by exists m|]. intros m' ->. split; [|done]. intros p Hp. rewrite (Hm p Hp). unfold shown.
    destruct (bgLabel J); [by destruct Hbg|done].
Qed.

(** What the launch is given: the labels, a zero counter, rows of the right length. *)
Record start_ok (m : Marks) : Prop := {
  st_labels : labelled_by (fun p => label_at J (home p)) m;
  st_count : count m = 0;
  st_rows : rows_ok m;
  st_min : is_Some (minSize J) -> is_Some (bgLabel J);
  st_room : relabel J = true -> is_Some (minSize J) -> Z.of_nat (length (filter region_root P)) <= capacity;
}.

Lemma room_rows rts : is_Some (minSize J) -> rts ≡ₚ filter region_root P -> NoDup rts ->
  (relabel J = true -> is_Some (minSize J) -> Z.of_nat (length (filter region_root P)) <= capacity) ->
  relabel J = true -> is_Some (minSize J) -> forall p, p ∈ P -> background p = false -> is_Some (region_no rts p).
Proof.
  intros Hm0 Hperm Hn Hroom Hrel Hms p Hp Hb. specialize (Hroom Hrel Hms).
  destruct (jo_home _ _ _ _ HJ p Hp) as (Hr & Hhome & _).
  assert (Hin : home p ∈ rts).
  { rewrite Hperm. apply list_elem_of_filter. split; [|done]. split; [done|]. unfold background in *.
    destruct (bgLabel J); [|done]. by rewrite (proj2 (proj2 (jo_home _ _ _ _ HJ p Hp))). }
  apply list_elem_of_lookup in Hin as (i & Hi). exists i. apply region_no_spec; [done|]. split; [done|].
  apply lookup_lt_Some in Hi. rewrite Hperm in Hi. lia.
Qed.

(** The result: regions numbered in some order, every label and every row as said. *)
Definition finished (m' : Marks) : Prop :=
  exists rts D, rts ≡ₚ filter region_root P /\ D ≡ₚ P /\ count m' = Z.of_nat (length rts) /\
    labelled_by (final rts D) m' /\ forall i r, numbered rts i r -> stats m' !! i = Some (final_row D r).

Lemma kernel_Some {A} (o : option A) gcs f m m' : is_Some o -> kernel_if (bool_decide (is_Some o)) gcs f m m' <-> launch gcs f m (Ok m').
Proof. intros H. unfold kernel_if. by rewrite bool_decide_eq_true_2. Qed.

Lemma post_finished m : is_Some (maxCapacity J) -> start_ok m ->
  (exists m', post_kernels J true P m m') /\ forall m', post_kernels J true P m m' -> finished m'.
Proof.
  intros Hcap [Hl0 Hc0 Hr0 Hmin Hroom].
  destruct (replace_kernel m Hl0) as [(m1 & K1) H1].
  assert (S2 : forall m1, labelled_by shown m1 -> count m1 = 0 -> rows_ok m1 ->
    (exists m2, launch P (CountLabels J) m1 (Ok m2)) /\
    forall m2, launch P (CountLabels J) m1 (Ok m2) -> exists order, order ≡ₚ P /\ counting (filter region_root order) m1 m2).
  { intros n Hl Hc Hr. apply launch_all. intros order Ho. by apply count_stage. }
  assert (S3 : forall rts m0 m2, NoDup rts -> (forall r, r ∈ rts -> r ∈ P /\ region_root r) -> Z.of_nat (length rts) <= strides0 J / 4 ->
    counting rts m0 m2 -> (exists m3, launch P (ComputeStats J) m2 (Ok m3)) /\
    forall m3, launch P (ComputeStats J) m2 (Ok m3) -> exists D, D ≡ₚ P /\ stats_done rts m2 D m3).
  { intros rts m0 m2 Hn Hrt Hfew Hcnt. apply launch_all. intros order Ho. apply stats_stage; [done..|].
    destruct (counting_labelled rts Hn Hrt Hfew _ _ Hcnt) as (Hl & Hrow & _). split; [|by split_and!].
    apply (labelled_with_same rts Hn Hrt Hfew shown); [exact Hl|]. intros p _ _. unfold relabelled.
    destruct (region_no rts p); [|done]. by rewrite bool_decide_eq_false_2, andb_false_r by set_solver. }
  assert (S4 : forall rts D m2 m3, NoDup rts -> (forall r, r ∈ rts -> r ∈ P /\ region_root r) -> Z.of_nat (length rts) <= strides0 J / 4 ->
    rts ≡ₚ filter region_root P -> D ≡ₚ P -> stats_done rts m2 D m3 ->
    let k := kernel_if (bool_decide (is_Some (minSize J))) P (RemoveIslands J) m3 in
    (exists m4, k m4) /\ forall m4, k m4 -> labelled_with rts (final rts D) m4 /\ all_rows rts (fun _ r => region_row r D) m4 m2).
  { intros rts D m2 m3 Hn Hrt Hfew Hperm HD [Hl Hrow] k. unfold k, kernel_if.
    destruct (bool_decide_reflect (is_Some (minSize J))) as [Hms|Hms].
    - destruct (launch_all (RemoveIslands J) (fun _ m4 => labelled_with rts (final rts D) m4 /\ all_rows rts (fun _ r => region_row r D) m4 m2) m3) as [He Ha].
      + intros order Ho. apply (remove_stage rts Hn Hrt Hfew D HD (room_rows rts Hms Hperm Hn Hroom) Hmin order m3 m2 Ho Hms Hl Hrow).
      + split; [done|]. intros m4 Hm4. by destruct (Ha m4 Hm4) as (_ & _ & ?).
    - split; [by exists m3|]. intros m4 ->. split; [|done].
      apply (labelled_with_same rts Hn Hrt Hfew _ _ _ Hl). intros p Hp _. rewrite relabelled_full by done. unfold final.
      destruct (region_no rts p); [|done]. replace (removed D p) with false; [done|]. unfold removed. destruct (minSize J); [by destruct Hms|done]. }
  assert (S5 : forall rts D m2 m4, NoDup rts -> (forall r, r ∈ rts -> r ∈ P /\ region_root r) -> Z.of_nat (length rts) <= strides0 J / 4 ->
    rts ≡ₚ filter region_root P -> D ≡ₚ P -> labelled_with rts (final rts D) m4 -> all_rows rts (fun _ r => region_row r D) m4 m2 ->
    (exists m', launch P (Relabel J) m4 (Ok m')) /\
    forall m', launch P (Relabel J) m4 (Ok m') -> labelled_by (final rts D) m' /\ all_rows rts (fun _ r => final_row D r) m' m2).
  { intros rts D m2 m4 Hn Hrt Hfew Hperm HD Hl Hrow.
    destruct (launch_all (Relabel J) (fun _ m' => labelled_by (final rts D) m' /\ all_rows rts (fun _ r => final_row D r) m' m2) m4) as [He Ha].
    - intros order Ho. apply (relabel_stage rts Hn Hrt Hfew D HD (fun Hrel Hms => room_rows rts Hms Hperm Hn Hroom Hrel Hms) Hmin order m4 m2 Ho Hl Hrow).
    - split; [done|]. intros m' Hm'. by destruct (Ha m' Hm') as (_ & _ & ?). }
  unfold post_kernels. rewrite (bool_decide_eq_true_2 (is_Some (maxCapacity J))) by done. cbn [andb].
  split.
  - destruct (H1 _ K1) as (Hl1 & Hc1 & Hs1).
    assert (Hr1 : rows_ok m1) by (unfold rows_ok; by rewrite Hs1).
    destruct (S2 m1 Hl1 ltac:(congruence) Hr1) as [(m2 & K2) H2]. destruct (H2 _ K2) as (order & Ho & Hcnt).
    destruct (order_roots order Ho) as (Hn & Hrt & Hfew).
    destruct (S3 _ _ _ Hn Hrt Hfew Hcnt) as [(m3 & K3) H3]. destruct (H3 _ K3) as (D & HD & Hst).
    assert (Hperm : filter region_root order ≡ₚ filter region_root P) by (by rewrite Ho).
    destruct (S4 _ _ _ _ Hn Hrt Hfew Hperm HD Hst) as [(m4 & K4) H4]. destruct (H4 _ K4) as [Hl4 Hrow4].
    destruct (S5 _ _ _ _ Hn Hrt Hfew Hperm HD Hl4 Hrow4) as [(m' & K5) _].
    by exists m', m1, m2, m3, m4.
  - intros m' (n1 & n2 & n3 & n4 & L1 & L2 & L3 & L4 & L5). destruct (H1 _ L1) as (Hl1 & Hc1 & Hs1).
    assert (Hr1 : rows_ok n1) by (unfold rows_ok; by rewrite Hs1).
    destruct (proj2 (S2 n1 Hl1 ltac:(congruence) Hr1) _ L2) as (order & Ho & Hcnt).
    destruct (order_roots order Ho) as (Hn & Hrt & Hfew).
    destruct (proj2 (S3 _ _ _ Hn Hrt Hfew Hcnt) _ L3) as (D & HD & Hst).
    assert (Hperm : filter region_root order ≡ₚ filter region_root P) by (by rewrite Ho).
    destruct (proj2 (S4 _ _ _ _ Hn Hrt Hfew Hperm HD Hst) _ L4) as [Hl4 Hrow4].
    destruct (proj2 (S5 _ _ _ _ Hn Hrt Hfew Hperm HD Hl4 Hrow4) _ L5) as [Hl5 (Hr5 & _ & Hc5)].
    exists (filter region_root order), D. split_and!; [done|done| |done|done].
    rewrite Hc5. by destruct Hcnt.
Qed.
End Post.
