(* ===== verification/LabelImage.v ===== *)
(** * Label on an image, from the first kernel to the last ([cvcuda/priv/OpLabel.cu])

    The kernels that label and those that follow, put together; what the operator
    leaves for the documented and for the other uses of it. *)
From S2P Require Import Prelude MathUtil LabelMachine LabelForest LabelKernel LabelConnect LabelStats LabelStatsProps.
From stdpp Require Import relations functions list.
From stdpp Require Import options.

#[local] Open Scope Z_scope.
#[local] Set Default Proof Using "Type*".

Section Image.
Variables (im : Sample) (d' : store).
Hypothesis Him : sample_ok im.
Hypothesis Hlab : forall p, in_image im p -> least_label im p (d' (offset im p)).

Definition coords (p : Z * Z) : list Z := [p.2; p.1].

Lemma pairs2_NoDup nx ny : NoDup (pairs2 nx ny).
Proof.
  unfold pairs2. apply NoDup_bind.
  - intros y y' [x z] _ _ H H'. apply list_elem_of_fmap in H as (? & [= _ ->] & _).
    by apply list_elem_of_fmap in H' as (? & [= _ ->] & _).
  - intros y _. apply NoDup_fmap_2; [intros a b; by intros [= ->]|apply NoDup_zrange].
  - apply NoDup_zrange.
Qed.

Lemma grid2_NoDup blocks : NoDup (grid2 blocks).
Proof.
  unfold grid2. apply NoDup_bind.
  - intros b b' th _ _ H H'. apply list_elem_of_fmap in H as (? & -> & _).
    by apply list_elem_of_fmap in H' as (? & [= ->] & _).
  - intros b _. apply NoDup_fmap_2; [intros s t; by intros [= ->]|apply pairs2_NoDup].
  - apply pairs2_NoDup.
Qed.

Lemma elem_of_coords2D c : c ∈ coords2D im <-> exists p, in_image im p /\ c = coords p.
Proof.
  unfold coords2D. rewrite list_elem_of_fmap. split.
  - intros (th & -> & [Hin Hth]%list_elem_of_filter). destruct (lab_pixel_at im Him th Hth) as (Hy & Hx & _).
    exists (lab_gc_y th, lab_gc_x th). split; [|done]. by apply in_size_image.
  - intros (p & Hp & ->). destruct (lab_thread_of im Him p Hp) as (th & Hth & <-). exists th. split; [done|].
    apply list_elem_of_filter. split; [|done]. destruct (lab_pixel_at im Him th Hth) as (Hy & Hx & _).
    by apply (in_size_image im (lab_gc_y th, lab_gc_x th)).
Qed.

Lemma coords2D_NoDup : NoDup (coords2D im).
Proof.
  unfold coords2D. apply NoDup_fmap_2_strong; [|apply NoDup_filter, grid2_NoDup].
  intros [b t] [b' t'] [_ H]%list_elem_of_filter [_ H']%list_elem_of_filter [= Ex Ey].
  destruct (lab_pixel_at im Him _ H) as (_ & _ & [= E1 E2]), (lab_pixel_at im Him _ H') as (_ & _ & [= E1' E2']).
  apply elem_of_grid2 in H as [_ [Ht1 Ht2]], H' as [_ [Ht1' Ht2']]. destruct b, t, b', t'; cbn in *.
  rewrite E1, E1' in Ey. rewrite E2, E2' in Ex. repeat f_equal; lia.
Qed.

(** The pixel a label stands for. *)
Definition pixel_of_label (l : Z) : Z * Z := (l / dstStrideH im, l mod dstStrideH im).
Definition home2D (c : list Z) : list Z := coords (pixel_of_label (d' (offset im (at2D pair (0, 0) c)))).

Lemma pixel_of_offset p : in_image im p -> pixel_of_label (offset im p) = p.
Proof.
  intros [Hy Hx]. destruct (stride_bytes im Him) as (_ & Hrow & _). destruct p as [y x]; cbn in *.
  unfold pixel_of_label, offset; cbn. rewrite Z.add_comm, Z.div_add, Z.mod_add by lia.
  by rewrite Z.div_small, Z.mod_small by lia.
Qed.

(** Where the label of a pixel leads: the first pixel of its component. *)
Lemma home2D_spec p : in_image im p -> exists q, home2D (coords p) = coords q /\ in_image im q /\ connected im p q /\
  d' (offset im p) = offset im q /\ forall r, connected im p r -> offset im q <= offset im r.
Proof.
  intros Hp. destruct (Hlab p Hp) as (q & Hq & El & Hmin). pose proof (connected_image im Him p q Hp Hq) as Hqi.
  exists q. unfold home2D. cbn. rewrite <- surjective_pairing, El, pixel_of_offset by done. split_and!; try done.
  intros r Hr. rewrite <- El. by apply Hmin.
Qed.

Lemma connected_value p q : connected im p q -> value im p = value im q.
Proof. intros H. induction H as [|p r q H _ IH]; [done|]. destruct H as [(_ & _ & E & _)|(_ & _ & E & _)]; congruence. Qed.

(** Rows of one sample end before the labels of the next begin. *)
Definition sample_stride (strides0 : Z) : Prop := size_y im * dst_strides1 im <= strides0 < 2 ^ 31.

Variables (bg ms : option Z) (mask : option (Z -> Z -> Z)) (rel : bool) (strides0 : Z) (rows : option Z).
Hypothesis Hstr : sample_stride strides0.
Hypothesis Hbg : forall b, bg = Some b -> u32 b < flag.
Hypothesis Hrows : forall M, rows = Some M -> 0 <= M < 2 ^ 31.
Let J := job2D im bg ms mask rel strides0 rows.

Lemma offset_end p : in_image im p -> 0 <= offset im p < strides0 / 4.
Proof.
  intros Hp. pose proof (offset_bound im Him p Hp) as [H0 _]. split; [done|].
  destruct Hp as [Hy Hx], (stride_bytes im Him) as (E & Hrow & _), Hstr as [Hs _].
  assert (size_y im * dstStrideH im <= strides0 / 4) by (apply Z.div_le_lower_bound; lia).
  unfold offset. nia.
Qed.

Lemma job2D_ok : job_ok J (coords2D im) 2 home2D.
Proof.
  assert (Hlabel : forall p, in_image im p -> label_at J (coords p) = offset im p) by (intros p Hp; by apply dst_at_offset).
  destruct (size_bounds im Him) as [Hx Hy].
  split.
  - apply coords2D_NoDup.
  - intros c (p & [Hp1 Hp2] & ->)%elem_of_coords2D. split; [done|]. unfold coords. repeat constructor; lia.
  - cbn. destruct Hstr. split; [|lia]. destruct (stride_bytes im Him) as (E & ? & _). nia.
  - intros c (p & Hp & ->)%elem_of_coords2D. rewrite Hlabel by done. by apply offset_end.
  - intros c c' (p & Hp & ->)%elem_of_coords2D (q & Hq & ->)%elem_of_coords2D. rewrite !Hlabel by done.
    intros E. by apply (offset_inj im Him) in E as ->.
  - intros c (p & Hp & ->)%elem_of_coords2D. rewrite Hlabel by done. cbn.
    unfold posLabel2D. destruct (stride_bytes im Him) as (E & Hrow & Hb).
    pose proof (offset_bound im Him p Hp) as Ho. unfold offset in *. destruct Hp as [Hp1 Hp2].
    assert (0 <= p.1 * dstStrideH im) by nia.
    rewrite (wraps_small 32) by (done || (unfold in_s; rewrite E; lia)).
    rewrite (wrapu_small 64) by (unfold in_u; rewrite E; lia).
    rewrite E. replace (p.1 * (4 * dstStrideH im)) with (p.1 * dstStrideH im * 4) by lia.
    rewrite Z.div_mul by done. apply wrapu_small. unfold in_u. lia.
  - intros c (p & Hp & ->)%elem_of_coords2D. destruct (home2D_spec p Hp) as (q & -> & Hq & Hpq & El & Hmin).
    split; [apply elem_of_coords2D; eauto|]. split; [|symmetry; by apply connected_value].
    destruct (home2D_spec q Hq) as (q' & -> & Hq' & Hqq & _ & Hmin').
    f_equal. apply (offset_inj im Him); [done..|].
    pose proof (Hmin q' ltac:(by trans q)). pose proof (Hmin' q ltac:(reflexivity)). lia.
  - destruct (stride_bytes im Him) as (E & Hrow & _). destruct Hstr as [Hs _]. cbn.
    assert (Hle : size_y im * dstStrideH im <= strides0 / 4) by (apply Z.div_le_lower_bound; lia).
    etrans; [|exact Hle]. rewrite <- (length_fmap (label_at J)).
    assert (Hsub : NoDup (label_at J <$> coords2D im)).
    { apply NoDup_fmap_2_strong; [|apply coords2D_NoDup]. intros c c' (p & Hp & ->)%elem_of_coords2D (q & Hq & ->)%elem_of_coords2D.
      rewrite !Hlabel by done. intros Eo. by apply (offset_inj im Him) in Eo as ->. }
    apply NoDup_submseteq with (k := zrange 0 (size_y im * dstStrideH im)) in Hsub.
    + apply submseteq_length in Hsub. unfold zrange in Hsub. rewrite !length_fmap, length_seq in Hsub. rewrite length_fmap. nia.
    + intros l (c & -> & (p & Hp & ->)%elem_of_coords2D)%list_elem_of_fmap. rewrite Hlabel by done. apply elem_of_zrange.
      pose proof (offset_bound im Him p Hp). split; [lia|]. destruct Hp as [Hp1 Hp2]. unfold offset. nia.
  - intros b Eb. by apply Hbg.
  - intros M EM. by apply Hrows.
Qed.
End Image.

(** ** Label on images *)

(** C11: on an image labelled by any run of the labelling kernels, the kernels that
    follow, their threads in any order, come to an end with every access inside the
    statistics, when the background label is below 2^31 and, to remove islands under
    sequential labels, the statistics have a row for every region. Then the counter is
    the number of regions, connected components that are not background, and the regions
    are numbered. Every region whose number is that of a row has this row: its label, its
    first pixel in the order of rows, one more than the largest distance of its pixels from
    the first along each axis, its number of pixels, its mark (for columns 1 to 4 the header
    OpLabel.h announces a bounding box instead, see [leftmost_is_first]). The label of a
    region is that of its first pixel, or the one after the last label of the sample if
    that is the background's. A pixel of the background has the background label. A
    pixel of a region that has a row has the background label if the region is an island
    that the mask does not keep, and else, as asked, the number of the region, that of
    the background left out, or its label. A pixel of a region without a row has the
    label of its region, even if the region is an island (see [islands_beyond_rows_stay]). *)
Theorem label_regions (undef : Z -> Z) (im : Sample) (d d' : store) (bg ms : option Z) (mask : option (Z -> Z -> Z))
    (rel : bool) (strides0 M : Z) (st : list (list Z))
    (Him : sample_ok im) (Hrun : label_kernels undef im d d') (Hstr : sample_stride im strides0)
    (Hbg : forall b, bg = Some b -> u32 b < flag) (HM : 0 <= M < 2 ^ 31) (Hms : is_Some ms -> is_Some bg) :
  let J := job2D im bg ms mask rel strides0 (Some M) in
  let P := coords2D im in
  let home := home2D im d' in
  Z.of_nat (length st) = M -> Forall (fun l => length l = 7%nat) st ->
  (rel = true -> is_Some ms -> Z.of_nat (length (filter (region_root J home) P)) <= M) ->
  ((exists m', post_kernels J true P (MkMarks d' 0 st) m') /\
   forall m', post_kernels J true P (MkMarks d' 0 st) m' -> finished J P 2 home m') /\
  forall p, in_image im p -> exists q, home (coords p) = coords q /\ connected im p q /\
    forall r, connected im p r -> offset im q <= offset im r.
Proof.
  intros J P home Hlen Hst Hroom.
  pose proof (proj1 (kernels_least im Him undef d d' Hrun)) as Hlab.
  assert (HJ : job_ok J P 2 home) by (apply job2D_ok; [done..|by intros ? [= <-]]).
  split.
  - apply (post_finished J P 2 home HJ); [done|]. split; [|done|by split|done|exact Hroom].
    intros c (p & Hp & ->)%(elem_of_coords2D im d' Him Hlab). destruct (home2D_spec im d' Him Hlab p Hp) as (q & E & Hq & _ & El & _).
    unfold home. rewrite E. cbn. rewrite (dst_at_offset im Him p Hp). etrans; [exact El|]. symmetry. by apply (dst_at_offset im Him q).
  - intros p Hp. destruct (home2D_spec im d' Him Hlab p Hp) as (q & E & Hq & Hc & _ & Hmin). by exists q.
Qed.

(** ** Samples *)

(** The kernels with their threads in the order of their numbers. *)
Definition seq_if (b : bool) (gcs : list (list Z)) (f : list Z -> Marks -> outcome Marks) (m : Marks) : outcome Marks :=
  if b then mfold (fun m gc => f gc m) gcs m else Ok m.

Definition post_seq (J : Job) (gcs : list (list Z)) (m : Marks) : outcome Marks :=
  let has_stats := bool_decide (is_Some (maxCapacity J)) in
  m1 ← seq_if (bool_decide (is_Some (bgLabel J))) gcs (ReplaceBgLabels J) m;
  m2 ← seq_if true gcs (CountLabels J) m1;
  m3 ← seq_if has_stats gcs (ComputeStats J) m2;
  m4 ← seq_if (has_stats && bool_decide (is_Some (minSize J))) gcs (RemoveIslands J) m3;
  seq_if has_stats gcs (Relabel J) m4.

(** All but the last. *)
Definition before_relabel (J : Job) (gcs : list (list Z)) (m : Marks) : outcome Marks :=
  m1 ← seq_if (bool_decide (is_Some (bgLabel J))) gcs (ReplaceBgLabels J) m;
  m2 ← seq_if true gcs (CountLabels J) m1;
  seq_if (bool_decide (is_Some (maxCapacity J))) gcs (ComputeStats J) m2.

Lemma seq_if_kernel b gcs f m m' : seq_if b gcs f m = Ok m' -> kernel_if b gcs f m m'.
Proof. unfold seq_if, kernel_if. destruct b; [intros H; by exists gcs|by intros [= ->]]. Qed.

Lemma post_seq_kernels J gcs m m' : post_seq J gcs m = Ok m' -> post_kernels J true gcs m m'.
Proof.
  unfold post_seq. intros H. ok_inv. rename x into m1, x0 into m2, x1 into m3, x2 into m4.
  exists m1, m2, m3, m4. split_and!; by apply seq_if_kernel.
Qed.

Module Uses.

(** Label on a picture given by rows, with 3 rows of statistics. *)
Definition sample (l : list (list Z)) : Sample :=
  MkSample (Z.of_nat (length (hd [] l))) (Z.of_nat (length l)) (Concrete.rows l) None None (4 * Z.of_nat (length (hd [] l))).

Definition run (l : list (list Z)) (bg ms : option Z) (rel : bool) (M : nat) : option (outcome Marks) :=
  let im := sample l in
  match label_seq (fun _ => 0) im (fun _ => 0) with
  | Some d' => Some (post_seq (job2D im bg ms None rel (size_y im * dst_strides1 im) (Some (Z.of_nat M))) (coords2D im)
      (MkMarks d' 0 (replicate M (replicate 7 0))))
  | None => None
  end.

Definition shows (l : list (list Z)) (r : option (outcome Marks)) : option (outcome (list (list Z) * Z * list (list Z))) :=
  match r with
  | Some (Ok m) => Some (Ok (Concrete.labels_of (sample l) (labels m), count m, stats m))
  | Some (Throw e) => Some (Throw e)
  | Some Stuck => Some Stuck
  | None => None
  end.

(** The second example of [cvcuda/OpLabel.h]: the background keeps its value. *)
Definition stairs : list (list Z) := [[0; 0; 1; 0]; [0; 1; 0; 1]; [0; 0; 1; 1]; [0; 1; 1; 1]].

Example stairs_labels :
  match shows stairs (run stairs (Some 0) None false 2) with Some (Ok (l, _, _)) => l | _ => [] end =
  [[0; 0; 2; 0]; [0; 5; 0; 7]; [0; 0; 7; 7]; [0; 7; 7; 7]].
Proof. vm_compute. reflexivity. Qed.

Example stairs_islands :
  shows stairs (run stairs (Some 0) (Some 2) true 3) =
  Some (Ok ([[0; 0; 0; 0]; [0; 0; 0; 3]; [0; 0; 3; 3]; [0; 3; 3; 3]], 3,
    [[2; 2; 0; 1; 1; 1; 1]; [5; 1; 1; 1; 1; 1; 1]; [7; 3; 1; 3; 3; 6; 0]])).
Proof. vm_compute. reflexivity. Qed.

Lemma stairs_ok : sample_ok (sample stairs).
Proof. split; cbn; try lia. by exists 4. Defined.

Lemma label_regions_witness :
  exists d', label_kernels (fun _ => 0) (sample stairs) (fun _ => 0) d' /\
  let J := job2D (sample stairs) (Some 0) (Some 2) None false 64 (Some 2) in
  exists m', post_kernels J true (coords2D (sample stairs)) (MkMarks d' 0 (replicate 2 (replicate 7 0))) m' /\
    finished J (coords2D (sample stairs)) 2 (home2D (sample stairs) d') m'.
Proof.
  destruct (proj2 (kernels_finish (sample stairs) stairs_ok (fun _ => 0) (fun _ => 0))) as [d' Hd].
  exists d'. split; [exact Hd|].
  destruct (label_regions (fun _ => 0) (sample stairs) (fun _ => 0) d' (Some 0) (Some 2) None false 64 2
    (replicate 2 (replicate 7 0)) stairs_ok Hd) as [[[m' Hm] Hall] _].
  - split; vm_compute; congruence.
  - intros b [= <-]. reflexivity.
  - lia.
  - intros _. by eexists.
  - reflexivity.
  - by repeat constructor.
  - discriminate.
  - exists m'. split; [exact Hm|exact (Hall m' Hm)].
Defined.
End Uses.

(** ** Outside the documented statistics *)

(** A background label with its top bit set, as every negative one has, is taken by
    [Relabel] for the number of a region: it reads the statistics at the row the other
    bits make, which no statistics tensor has. *)
Lemma relabel_flagged_background J gc m bg : bgLabel J = Some bg -> relabel J = false -> labels m (label_at J gc) = u32 bg ->
  flag <= u32 bg -> Z.of_nat (length (stats m)) <= u32 bg - flag -> Relabel J gc m = Stuck.
Proof.
  intros Hbg Hrel Hl Hf Hs. pose proof (wrapu_range 32 bg ltac:(done)) as [_ Hu].
  assert (Hm : u32 bg = mark (u32 bg - flag)) by (rewrite mark_add; unfold flag in *; lia).
  assert (Hi : 0 <= u32 bg - flag < flag) by (unfold flag in *; lia).
  unfold Relabel. rewrite Hl, Hm. destruct (marked_mark _ Hi) as [-> ->]. cbn [negb]. rewrite Hrel. unfold stat.
  rewrite wraps_small by (done || (unfold in_s, flag in *; lia)).
  replace (rd (stats m) (u32 bg - flag)) with (@Stuck (list Z)); [done|].
  unfold rd. destruct (Z.ltb_spec (u32 bg - flag) 0); [lia|]. by rewrite lookup_ge_None_2 by lia.
Qed.

(** Such a label is on an image with background -1 when [Relabel] starts. *)
Definition minus_one : Sample := Uses.sample [[-1; 5]].
Definition minus_one_job : Job := job2D minus_one (Some (-1)) None None false 8 (Some 2).
Definition minus_one_start : option (outcome Marks) :=
  match label_seq (fun _ => 0) minus_one (fun _ => 0) with
  | Some d' => Some (before_relabel minus_one_job (coords2D minus_one) (MkMarks d' 0 (replicate 2 (replicate 7 0))))
  | None => None
  end.

Example minus_one_label :
  match minus_one_start with Some (Ok m) => Some (labels m (label_at minus_one_job [0; 0]), length (stats m)) | _ => None end
  = Some (4294967295, 2%nat).
Proof. vm_compute. reflexivity. Qed.

Lemma negative_background_stuck : exists m, minus_one_start = Some (Ok m) /\ Relabel minus_one_job [0; 0] m = Stuck.
Proof.
  pose proof minus_one_label as H. destruct minus_one_start as [[m| |]|]; try discriminate. injection H as Hl Hs.
  exists m. split; [done|]. apply (relabel_flagged_background _ _ _ (-1)); [done|done|exact Hl|done|by rewrite Hs].
Qed.

(** Sequential labels, islands to remove and more regions than rows: the label of a
    region without a number is taken for a number. *)
Example more_regions_than_rows : Uses.shows [[1; 2; 3; 4]] (Uses.run [[1; 2; 3; 4]] (Some 0) (Some 2) true 1) = Some Stuck.
Proof. vm_compute. reflexivity. Qed.

(** Four islands and one row: the islands without a row stay. *)
Example islands_beyond_rows_stay :
  match Uses.shows [[1; 2; 3; 4]] (Uses.run [[1; 2; 3; 4]] (Some 9) (Some 2) false 1) with Some (Ok (l, n, _)) => (l, n) | _ => ([], 0) end
  = ([[9; 1; 2; 3]], 4).
Proof. vm_compute. reflexivity. Qed.

(** A region that extends to the left of its first pixel: three pixels wide, from
    column 0 on; its row says two pixels from column 1 on. *)
Definition tee : list (list Z) := [[0; 1; 0]; [1; 1; 1]].
Example leftmost_is_first : 
  match Uses.shows tee (Uses.run tee (Some 0) None false 1) with Some (Ok (_, _, st)) => st | _ => [] end = [[1; 1; 0; 2; 2; 4; 0]].
Proof. vm_compute. reflexivity. Qed.
