(* ===== verification/LabelVolumeStats.v ===== *)
(** * Label on a volume, from the first kernel to the last ([cvcuda/priv/OpLabel.cu])

    The kernels that follow the labelling of a volume, [ReplaceBgLabels3D],
    [CountLabels3D], [ComputeStats3D], [RemoveIslands3D] and [Relabel3D], for one
    sample; they do what the kernels of [LabelStats] do with one more coordinate, and
    so leave what those are shown to leave. *)
From S2P Require Import Prelude MathUtil LabelMachine LabelForest LabelKernel LabelGrid LabelConnect LabelVolume LabelVolumeProps LabelStats LabelStatsProps LabelImage.
From stdpp Require Import relations functions list.
From stdpp Require Import options.

#[local] Open Scope Z_scope.
#[local] Set Default Proof Using "Type*".

(** ** The kernels *)

Section Kernels3D.
Variable J : Job.

(** The background is taken as an unsigned label here, and so are the voxels compared with it. *)
Definition ReplaceBgLabels3D (x y z : Z) (m : Marks) : outcome Marks :=
  let gc := [x; y; z] in
  match bgLabel J with
  | None => Stuck
  | Some bg =>
      let backgroundLabel := u32 bg in
      if u32 (value_at J gc) =? backgroundLabel then Ok (set_labels (label_at J gc) backgroundLabel m)
      else if labels m (label_at J gc) =? backgroundLabel then Ok (set_labels (label_at J gc) (endLabel J) m)
      else Ok m
  end.

Definition CountLabels3D (x y z : Z) (m : Marks) : outcome Marks :=
  let gc := [x; y; z] in
  let label := labels m (label_at J gc) in
  if is_bg J label then Ok m else
  let counted := (match bgLabel J with Some bg => (label =? endLabel J) && (pos_label J gc =? u32 bg) | None => false end)
                 || (label =? pos_label J gc) in
  if negb counted then Ok m else
  let regionIdx := count m in
  let m := MkMarks (labels m) (u32 (count m + 1)) (stats m) in
  match maxCapacity J with
  | Some maxCapacity =>
      if regionIdx <? u32 maxCapacity then
        let m := set_labels (label_at J gc) (mark regionIdx) m in
        m ← set_stat regionIdx 0 label m;
        m ← set_stat regionIdx 1 (u32 x) m;
        m ← set_stat regionIdx 2 (u32 y) m;
        m ← set_stat regionIdx 3 (u32 z) m;
        m ← set_stat regionIdx 4 1 m;
        m ← set_stat regionIdx 5 1 m;
        m ← set_stat regionIdx 6 1 m;
        m ← set_stat regionIdx 7 1 m;
        set_stat regionIdx 8 REGION_NOT_MARKED m
      else Ok m
  | None => Ok m
  end.

Definition ComputeStats3D (x y z : Z) (m : Marks) : outcome Marks :=
  let gc := [x; y; z] in
  let label := labels m (label_at J gc) in
  if is_bg J label then Ok m else
  if marked label
  then if isInsideMask J gc then set_stat (unmark label) 8 REGION_INSIDE_MASK m else Ok m
  else
  let label := match bgLabel J with Some bg => if label =? endLabel J then u32 bg else label | None => label end in
  let regionIdx := labels m label in
  if negb (marked regionIdx) then Ok m else
  let regionIdx := unmark regionIdx in
  let m := if relabel J then set_labels (label_at J gc) (sequential J regionIdx) m else m in
  cx ← stat m regionIdx 1;
  cy ← stat m regionIdx 2;
  cz ← stat m regionIdx 3;
  let bboxArea corner c := Z.abs (i32 corner - c) + 1 in
  m ← upd_stat regionIdx 4 (fun v => Z.max v (u32 (bboxArea cx x))) m;
  m ← upd_stat regionIdx 5 (fun v => Z.max v (u32 (bboxArea cy y))) m;
  m ← upd_stat regionIdx 6 (fun v => Z.max v (u32 (bboxArea cz z))) m;
  m ← upd_stat regionIdx 7 (fun v => u32 (v + 1)) m;
  if isInsideMask J gc then set_stat regionIdx 8 REGION_INSIDE_MASK m else Ok m.

Definition is_island3D (minSize regionIdx : Z) (m : Marks) : outcome bool :=
  regionSize ← stat m regionIdx 7;
  if regionSize <? minSize
  then match mask_at J with
       | None => Ok true
       | Some _ => r ← stat m regionIdx 8; Ok (negb (r =? REGION_INSIDE_MASK))
       end
  else Ok false.

Definition RemoveIslands3D (x y z : Z) (m : Marks) : outcome Marks :=
  let gc := [x; y; z] in
  match bgLabel J, minSize J with
  | Some bg, Some minSize =>
      let label := labels m (label_at J gc) in
      if label =? u32 bg then Ok m else
      let label := if label =? endLabel J then u32 bg else label in
      let remove regionIdx :=
        island ← is_island3D minSize regionIdx m;
        Ok (if island : bool then set_labels (label_at J gc) (u32 bg) m else m) in
      if marked label then Ok m else
      if relabel J then remove (if u32 (u32 bg + 1) <=? label then label - 1 else label)
      else let regionIdx := labels m label in
           if marked regionIdx then remove (unmark regionIdx) else Ok m
  | _, _ => Stuck
  end.

Definition Relabel3D (x y z : Z) (m : Marks) : outcome Marks :=
  let gc := [x; y; z] in
  let label := labels m (label_at J gc) in
  if negb (marked label) then Ok m else
  let regionIdx := unmark label in
  v ← (if relabel J then Ok (sequential J regionIdx) else stat m regionIdx 0);
  let m := set_labels (label_at J gc) v m in
  match minSize J with
  | None => Ok m
  | Some minSize =>
      island ← is_island3D minSize regionIdx m;
      if island : bool
      then match bgLabel J with
           | Some bg => set_stat regionIdx 8 REGION_REMOVED (set_labels (label_at J gc) (u32 bg) m)
           | None => Stuck
           end
      else Ok m
  end.

(** A kernel on the voxels a list of coordinates stands for. *)
Definition on_voxel (f : Z -> Z -> Z -> Marks -> outcome Marks) (gc : list Z) (m : Marks) : outcome Marks :=
  match gc with [x; y; z] => f x y z m | _ => Stuck end.

(** The kernels [RunLabelForType] launches on volumes after the labels are resolved. *)
Definition post_kernels3D (has_count : bool) (gcs : list (list Z)) (m m' : Marks) : Prop :=
  let has_stats := bool_decide (is_Some (maxCapacity J)) in
  exists m1 m2 m3 m4,
    kernel_if (bool_decide (is_Some (bgLabel J))) gcs (on_voxel ReplaceBgLabels3D) m m1 /\
    kernel_if has_count gcs (on_voxel CountLabels3D) m1 m2 /\
    kernel_if (has_count && has_stats) gcs (on_voxel ComputeStats3D) m2 m3 /\
    kernel_if (has_count && has_stats && bool_decide (is_Some (minSize J))) gcs (on_voxel RemoveIslands3D) m3 m4 /\
    kernel_if (has_count && has_stats) gcs (on_voxel Relabel3D) m4 m'.
End Kernels3D.

(** The voxels the threads of a launch are at, and what the kernels are given for one sample. *)
Definition coords3D (im : Volume) : list (list Z) :=
  (fun th => let gc := lab_gc3 th in [d_x gc; d_y gc; d_z gc]) <$>
  filter (fun th => in_shape im (d_z (lab_gc3 th)) (d_y (lab_gc3 th)) (d_x (lab_gc3 th)) = true) (grid3 (labBlocks3 im)).

Definition at3D {A} (f : Z -> Z -> Z -> A) (dummy : A) (gc : list Z) : A :=
  match gc with [x; y; z] => f z y x | _ => dummy end.

(** [posLabel]; the products are [int]s, the quotients [size_t]s. *)
Definition posLabel3D (im : Volume) (z y x : Z) : Z :=
  u32 (u64 (i32 (z * vdst_strides1 im)) / 4 + u64 (i32 (y * vdst_strides2 im)) / 4 + x).

Definition job3D (im : Volume) (bg ms : option Z) (mask : option (Z -> Z -> Z -> Z)) (rel : bool) (strides0 : Z) (rows : option Z) : Job :=
  MkJob (at3D (voxel im) 0) (at3D (vdst_at im) 0) (at3D (posLabel3D im) 0) bg ms
    ((fun f => at3D f 0) <$> mask) rel strides0 rows.

(** ** They are the kernels on images with one more coordinate *)

Lemma stat_Ok_or_stuck m r c : (exists v, stat m r c = Ok v) \/ stat m r c = Stuck.
Proof.
  assert (Hrd : forall A (l : list A) i, (exists v, rd l i = Ok v) \/ rd l i = Stuck).
  { intros A l i. unfold rd. destruct (i <? 0); [by right|]. destruct (l !! _); [left; eauto|by right]. }
  unfold stat. destruct (Hrd _ (stats m) (i32 r)) as [[l ->]| ->]; [apply Hrd|by right].
Qed.

Lemma upd_stat_Ok_or_stuck m r c f : (exists m', upd_stat r c f m = Ok m') \/ upd_stat r c f m = Stuck.
Proof.
  assert (Hrd : forall A (l : list A) i, (exists v, rd l i = Ok v) \/ rd l i = Stuck).
  { intros A l i. unfold rd. destruct (i <? 0); [by right|]. destruct (l !! _); [left; eauto|by right]. }
  assert (Hwr : forall A (l : list A) i x, (exists v, wr l i x = Ok v) \/ wr l i x = Stuck).
  { intros A l i x. unfold wr. destruct (_ && _); [left; eauto|by right]. }
  unfold upd_stat. destruct (stat_Ok_or_stuck m r c) as [[v ->]| ->]; [|by right]. cbn. unfold set_stat.
  destruct (Hrd _ (stats m) (i32 r)) as [[l ->]| ->]; [|by right]. cbn.
  destruct (Hwr _ l c (f v)) as [[l' ->]| ->]; [|by right]. cbn.
  destruct (Hwr _ (stats m) (i32 r) l') as [[s ->]| ->]; [left; by eexists|by right].
Qed.

(** A statistic of another column is the same before and after an update. *)
Lemma stat_upd_ne m m' r c c' f : 0 <= c' -> c <> c' -> upd_stat r c f m = Ok m' -> stat m' r c' = stat m r c'.
Proof.
  intros Hc' Hne H. unfold upd_stat, set_stat in H. apply bind_Ok in H as (v & _ & H). apply bind_Ok in H as (l & Hl & H).
  apply bind_Ok in H as (l' & Hl' & H). apply bind_Ok in H as (s & Hs & [= <-]).
  unfold stat; cbn. rewrite Hl. unfold wr in Hl', Hs. destruct ((0 <=? c) && _) eqn:Ec; [|done]. destruct ((0 <=? i32 r) && _) eqn:Er; [|done].
  injection Hl' as <-. injection Hs as <-. unfold rd at 2. destruct (Z.ltb_spec (i32 r) 0); [lia|].
  rewrite list_lookup_insert_eq by lia. cbn. unfold rd. destruct (Z.ltb_spec c' 0); [lia|].
  by rewrite list_lookup_insert_ne by lia.
Qed.

(** So it may be read before or after. *)
Lemma stat_upd_swap {A} m r c c' f (k : Z -> Marks -> outcome A) : 0 <= c' -> c <> c' ->
  (m' ← upd_stat r c f m; v ← stat m' r c'; k v m') = (v ← stat m r c'; m' ← upd_stat r c f m; k v m').
Proof.
  intros Hc' Hne. destruct (upd_stat_Ok_or_stuck m r c f) as [[m' E]|E]; rewrite E; cbn.
  - by rewrite (stat_upd_ne m m' r c c' f Hc' Hne E).
  - by destruct (stat_Ok_or_stuck m r c') as [[v ->]| ->].
Qed.

Lemma CountLabels3D_eq J x y z m : CountLabels3D J x y z m = CountLabels J [x; y; z] m.
Proof.
  unfold CountLabels3D, CountLabels. destruct (is_bg _ _); [done|]. destruct (negb _); [done|].
  destruct (maxCapacity J); [|done]. destruct (_ <? _); [|done]. unfold set_row, first_stats. cbn [fmap list_fmap app length].
  change (zrange 0 (Z.of_nat 9)) with [0; 1; 2; 3; 4; 5; 6; 7; 8]. cbn [zip zip_with mfold].
  by repeat (destruct (set_stat _ _ _ _); cbn; [|done..]).
Qed.

(** The corners are read before the sizes grow, or one after the other in between. *)
Lemma grow_sizes3D r x y z m {A} (k : Marks -> outcome A) :
  (m ← grow_sizes r [x; y; z] m; k m) =
  (cx ← stat m r 1; cy ← stat m r 2; cz ← stat m r 3;
   m ← upd_stat r 4 (fun v => Z.max v (u32 (Z.abs (i32 cx - x) + 1))) m;
   m ← upd_stat r 5 (fun v => Z.max v (u32 (Z.abs (i32 cy - y) + 1))) m;
   m ← upd_stat r 6 (fun v => Z.max v (u32 (Z.abs (i32 cz - z) + 1))) m;
   k m).
Proof.
  unfold grow_sizes, col_size. cbn [length]. change (zrange 0 (Z.of_nat 3)) with [0; 1; 2]. cbn [zip zip_with mfold].
  change (1 + Z.of_nat 3 + 0) with 4. change (1 + Z.of_nat 3 + 1) with 5. change (1 + Z.of_nat 3 + 2) with 6.
  change (1 + 0) with 1. change (1 + 1) with 2. change (1 + 2) with 3.
  destruct (stat_Ok_or_stuck m r 1) as [[cx ->]| ->]; [|done]. cbn.
  set (f4 := fun v => Z.max v (u32 (Z.abs (i32 cx - x) + 1))).
  destruct (upd_stat_Ok_or_stuck m r 4 f4) as [[m1 E1]|E1]; rewrite E1; cbn.
  2:{ by destruct (stat_Ok_or_stuck m r 2) as [[cy ->]| ->]; [destruct (stat_Ok_or_stuck m r 3) as [[cz ->]| ->]|]. }
  rewrite <- (stat_upd_ne m m1 r 4 2 f4), <- (stat_upd_ne m m1 r 4 3 f4) by done.
  destruct (stat_Ok_or_stuck m1 r 2) as [[cy ->]| ->]; [|done]. cbn.
  set (f5 := fun v => Z.max v (u32 (Z.abs (i32 cy - y) + 1))).
  destruct (upd_stat_Ok_or_stuck m1 r 5 f5) as [[m2 E2]|E2]; rewrite E2; cbn.
  2:{ by destruct (stat_Ok_or_stuck m1 r 3) as [[cz ->]| ->]. }
  rewrite <- (stat_upd_ne m1 m2 r 5 3 f5) by done.
  destruct (stat_Ok_or_stuck m2 r 3) as [[cz ->]| ->]; [|done]. cbn. destruct (upd_stat r 6 _ m2); reflexivity.
Qed.

Lemma ComputeStats3D_eq J x y z m : ComputeStats3D J x y z m = ComputeStats J [x; y; z] m.
Proof.
  unfold ComputeStats3D, ComputeStats, mark_inside. destruct (is_bg _ _); [done|]. destruct (marked _); [done|]. destruct (negb _); [done|].
  by rewrite grow_sizes3D.
Qed.

Lemma RemoveIslands3D_eq J x y z m : RemoveIslands3D J x y z m = RemoveIslands J [x; y; z] m.
Proof. done. Qed.
Lemma Relabel3D_eq J x y z m : Relabel3D J x y z m = Relabel J [x; y; z] m.
Proof. done. Qed.

(** A type of voxels has at most 2^32 values: conversion to an unsigned label keeps them apart. *)
Definition one_type (J : Job) (P : list (list Z)) : Prop :=
  forall bg, bgLabel J = Some bg -> forall p, p ∈ P -> Z.abs (value_at J p - bg) < 2 ^ 32.

Lemma ReplaceBgLabels3D_eq J P x y z m : one_type J P -> [x; y; z] ∈ P -> ReplaceBgLabels3D J x y z m = ReplaceBgLabels J [x; y; z] m.
Proof.
  intros HT Hp. unfold ReplaceBgLabels3D, ReplaceBgLabels. destruct (bgLabel J) as [bg|] eqn:E; [|done].
  replace (u32 (value_at J [x; y; z]) =? u32 bg) with (value_at J [x; y; z] =? bg); [done|].
  specialize (HT bg E _ Hp). apply eq_true_iff_eq. rewrite !Z.eqb_eq. split; [by intros ->|]. intros H.
  unfold wrapu in H. pose proof (Z_div_mod_eq_full (value_at J [x; y; z]) (2 ^ 32)). pose proof (Z_div_mod_eq_full bg (2 ^ 32)).
  rewrite H in *. lia.
Qed.

Lemma launch_ext gcs f g m r : (forall gc m, gc ∈ gcs -> f gc m = g gc m) -> launch gcs f m r <-> launch gcs g m r.
Proof.
  intros H. assert (Hfold : forall order m, order ⊆ gcs -> mfold (fun m gc => f gc m) order m = mfold (fun m gc => g gc m) order m).
  { induction order as [|gc order IH]; intros n Hs; [done|]. cbn. rewrite H by (apply Hs; by left).
    destruct (g gc n); [|done..]. apply IH. intros c Hc. apply Hs. by right. }
  unfold launch. split; intros (order & Ho & Hr); exists order; (split; [done|]).
  - rewrite <- Hfold; [done|]. intros c Hc. by rewrite <- Ho.
  - rewrite Hfold; [done|]. intros c Hc. by rewrite <- Ho.
Qed.

Lemma kernel_if_ext b gcs f g m m' : (forall gc m, gc ∈ gcs -> f gc m = g gc m) -> kernel_if b gcs f m m' <-> kernel_if b gcs g m m'.
Proof. intros H. destruct b; [by apply launch_ext|done]. Qed.

Lemma post_kernels3D_eq J P has_count m m' : one_type J P -> (forall c, c ∈ P -> length c = 3%nat) ->
  post_kernels3D J has_count P m m' <-> post_kernels J has_count P m m'.
Proof.
  intros HT H3.
  assert (Hon : forall f g, (forall x y z m, [x; y; z] ∈ P -> f x y z m = g [x; y; z] m) ->
    forall gc m, gc ∈ P -> on_voxel f gc m = g gc m).
  { intros f g Hfg gc n Hgc. specialize (H3 gc Hgc). destruct gc as [|x [|y [|z [|]]]]; try done. by apply Hfg. }
  unfold post_kernels3D, post_kernels. cbv zeta.
  split; intros (m1 & m2 & m3 & m4 & K1 & K2 & K3 & K4 & K5); exists m1, m2, m3, m4; split_and!.
  all: match goal with K : kernel_if ?b ?P ?f ?m ?m' |- kernel_if ?b ?P ?g ?m ?m' => revert K; apply kernel_if_ext end.
  all: first [apply Hon|intros; symmetry; apply Hon; [|done]].
  all: intros; first [by apply (ReplaceBgLabels3D_eq J P)|by apply CountLabels3D_eq|by apply ComputeStats3D_eq
    |by apply RemoveIslands3D_eq|by apply Relabel3D_eq].
Qed.

(** ** Label on volumes *)

Section Volume.
Variables (im : Volume) (d' : store).
Hypothesis Him : volume_ok im.
Hypothesis Hlab : forall p, in_volume im p -> vleast_label im p (d' (voffset im p)).

Definition vcoords (p : dim3) : list Z := [d_x p; d_y p; d_z p].

Lemma triples_NoDup n : NoDup (triples n).
Proof using Type.
  unfold triples. apply NoDup_bind.
  - intros z z' [x y w] _ _ H H'. apply list_elem_of_fmap in H as (? & [= _ _ ->] & _).
    by apply list_elem_of_fmap in H' as (? & [= _ _ ->] & _).
  - intros z _. apply NoDup_fmap_2; [intros [x y] [x' y']; cbn; by intros [= -> ->]|apply pairs2_NoDup].
  - apply NoDup_zrange.
Qed.

Lemma grid3_NoDup blocks : NoDup (grid3 blocks).
Proof using Type.
  unfold grid3. apply NoDup_bind.
  - intros b b' th _ _ H H'. apply list_elem_of_fmap in H as (? & -> & _).
    by apply list_elem_of_fmap in H' as (? & [= ->] & _).
  - intros b _. apply NoDup_fmap_2; [intros s t; by intros [= ->]|apply triples_NoDup].
  - apply triples_NoDup.
Qed.

Lemma elem_of_coords3D c : c ∈ coords3D im <-> exists p, in_volume im p /\ c = vcoords p.
Proof.
  unfold coords3D. rewrite list_elem_of_fmap. split.
  - intros (th & -> & [Hin Hth]%list_elem_of_filter). destruct (lab_gc3_pos im Him th Hth) as (Hx & Hy & Hz).
    exists (lab_gc3 th). split; [|done]. by apply in_shape_volume.
  - intros (p & Hp & ->). destruct (lab_thread3_of im Him p Hp) as (th & Hth & <-). exists th. split; [done|].
    apply list_elem_of_filter. split; [|done]. destruct (lab_gc3_pos im Him th Hth) as (Hx & Hy & Hz).
    by apply in_shape_volume.
Qed.

Lemma coords3D_NoDup : NoDup (coords3D im).
Proof.
  unfold coords3D. apply NoDup_fmap_2_strong; [|apply NoDup_filter, grid3_NoDup].
  intros th th' [_ H]%list_elem_of_filter [_ H']%list_elem_of_filter. rewrite (lab_gc3_at im Him th H), (lab_gc3_at im Him th' H').
  intros [= Ex Ey Ez]. apply elem_of_grid3 in H as [_ Ht], H' as [_ Ht'].
  destruct th as [[bx by_ bz] [tx ty tz]], th' as [[bx' by' bz'] [tx' ty' tz']]; cbn in *. repeat f_equal; lia.
Qed.

(** The voxel a label stands for. *)
Definition voxel_of_label (l : Z) : dim3 :=
  Dim3 (l mod vdstStrideD im mod vdstStrideH im) (l mod vdstStrideD im / vdstStrideH im) (l / vdstStrideD im).
Definition home3D (c : list Z) : list Z := vcoords (voxel_of_label (d' (voffset im (at3D (fun z y x => Dim3 x y z) (Dim3 0 0 0) c)))).

Lemma voxel_of_offset p : in_volume im p -> voxel_of_label (voffset im p) = p.
Proof.
  intros Hp. destruct (vstride_bytes im Him) as (_ & _ & Hrow & Hl & _). destruct p as [x y z], Hp as (Hx & Hy & Hz); cbn in *.
  assert (H : 0 <= y * vdstStrideH im + x < vdstStrideD im) by nia.
  unfold voxel_of_label, voffset; cbn.
  replace (z * vdstStrideD im + y * vdstStrideH im + x) with ((y * vdstStrideH im + x) + z * vdstStrideD im) by lia.
  rewrite Z.div_add, Z.mod_add by lia. rewrite (Z.div_small (y * vdstStrideH im + x)), (Z.mod_small (y * vdstStrideH im + x) (vdstStrideD im)) by done.
  rewrite Z.add_comm, Z.div_add, Z.mod_add by lia. by rewrite Z.div_small, Z.mod_small by lia.
Qed.

(** Where the label of a voxel leads: the first voxel of its component. *)
Lemma home3D_spec p : in_volume im p -> exists q, home3D (vcoords p) = vcoords q /\ in_volume im q /\ vconnected im p q /\
  d' (voffset im p) = voffset im q /\ forall r, vconnected im p r -> voffset im q <= voffset im r.
Proof.
  intros Hp. destruct (Hlab p Hp) as (q & Hq & El & Hmin). pose proof (vconnected_volume im Him p q Hp Hq) as Hqi.
  exists q. unfold home3D. cbn. replace (Dim3 (d_x p) (d_y p) (d_z p)) with p by (by destruct p).
  rewrite El, voxel_of_offset by done. split_and!; try done. intros r Hr. rewrite <- El. by apply Hmin.
Qed.

Lemma vconnected_value p q : vconnected im p q -> vvalue im p = vvalue im q.
Proof using Type. intros H. induction H as [|p r q H _ IH]; [done|]. destruct H as [(_ & _ & E & _)|(_ & _ & E & _)]; congruence. Qed.

(** The layers of one sample end before the labels of the next begin. *)
Definition vsample_stride (strides0 : Z) : Prop := shape_z im * vdst_strides1 im <= strides0 < 2 ^ 31.

Variables (bg ms : option Z) (mask : option (Z -> Z -> Z -> Z)) (rel : bool) (strides0 : Z) (rows : option Z).
Hypothesis Hstr : vsample_stride strides0.
Hypothesis Hbg : forall b, bg = Some b -> u32 b < flag.
Hypothesis Hrows : forall M, rows = Some M -> 0 <= M < 2 ^ 31.
Let J := job3D im bg ms mask rel strides0 rows.

Lemma vstrides_pos : 0 < vdstStrideH im /\ 0 < vdstStrideD im.
Proof.
  destruct (vstride_bytes im Him) as (_ & _ & Hrow & Hl & _). pose proof (vo_x _ Him). pose proof (vo_y _ Him).
  split; [lia|]. assert (0 < shape_y im * vdstStrideH im) by (apply Z.mul_pos_pos; lia). lia.
Qed.

Lemma voffset_layers p : in_volume im p -> 0 <= voffset im p < shape_z im * vdstStrideD im.
Proof.
  intros Hp. pose proof (voffset_bound im Him p Hp) as [H0 _]. split; [done|].
  destruct Hp as (Hx & Hy & Hz), (vstride_bytes im Him) as (_ & _ & Hrow & Hl & _).
  assert ((d_y p + 1) * vdstStrideH im <= vdstStrideD im) by nia.
  assert (0 <= (d_y p + 1) * vdstStrideH im) by nia.
  assert ((d_z p + 1) * vdstStrideD im <= shape_z im * vdstStrideD im) by (apply Z.mul_le_mono_nonneg_r; lia). unfold voffset. lia.
Qed.

Lemma layers_fit : shape_z im * vdstStrideD im <= strides0 / 4.
Proof. destruct (vstride_bytes im Him) as (E & _), Hstr as [Hs _]. apply Z.div_le_lower_bound; [lia|]. rewrite E in Hs. lia. Qed.

Lemma label3D_at p : in_volume im p -> label_at J (vcoords p) = voffset im p.
Proof. intros Hp. by apply vdst_at_offset. Qed.

Lemma pos3D_at p : in_volume im p -> pos_label J (vcoords p) = voffset im p.
Proof.
  intros Hp. cbn. unfold posLabel3D. destruct (vstride_bytes im Him) as (E1 & E2 & Hrow & Hl & Hb).
  pose proof (voffset_bound im Him p Hp) as Ho. unfold voffset in *. destruct Hp as (Hx & Hy & Hz). rewrite E1, E2.
  destruct vstrides_pos. assert (0 <= d_z p * vdstStrideD im /\ 0 <= d_y p * vdstStrideH im) by (split; apply Z.mul_nonneg_nonneg; lia).
  rewrite !(wraps_small 32) by (done || (unfold in_s; lia)). rewrite !(wrapu_small 64) by (unfold in_u; lia).
  replace (d_z p * (4 * vdstStrideD im)) with (d_z p * vdstStrideD im * 4) by lia.
  replace (d_y p * (4 * vdstStrideH im)) with (d_y p * vdstStrideH im * 4) by lia.
  rewrite !Z.div_mul by done. apply wrapu_small. unfold in_u. lia.
Qed.

Lemma coords3D_few : Z.of_nat (length (coords3D im)) <= shape_z im * vdstStrideD im.
Proof.
  rewrite <- (length_fmap (label_at J)).
  assert (Hsub : NoDup (label_at J <$> coords3D im)).
  { apply NoDup_fmap_2_strong; [|apply coords3D_NoDup]. intros c c' (p & Hp & ->)%elem_of_coords3D (q & Hq & ->)%elem_of_coords3D.
    rewrite !label3D_at by done. intros Eo. by apply (voffset_inj im Him) in Eo as ->. }
  apply NoDup_submseteq with (k := zrange 0 (shape_z im * vdstStrideD im)) in Hsub.
  - apply submseteq_length in Hsub. unfold zrange in Hsub. rewrite !length_fmap, length_seq in Hsub. rewrite length_fmap.
    pose proof (voffset_layers (Dim3 0 0 0)) as H0. destruct (shape_bounds im Him) as (? & ? & ?).
    assert (in_volume im (Dim3 0 0 0)) as Hin by (split_and!; cbn; lia). specialize (H0 Hin). lia.
  - intros l (c & -> & (p & Hp & ->)%elem_of_coords3D)%list_elem_of_fmap. rewrite label3D_at by done.
    apply elem_of_zrange. by apply voffset_layers.
Qed.

Lemma job3D_ok : job_ok J (coords3D im) 3 home3D.
Proof.
  destruct (shape_bounds im Him) as (Hx & Hy & Hz). pose proof layers_fit as Hfit.
  split.
  - apply coords3D_NoDup.
  - intros c (p & (Hp1 & Hp2 & Hp3) & ->)%elem_of_coords3D. split; [done|]. unfold vcoords. repeat constructor; lia.
  - cbn. destruct Hstr. split; [|lia]. pose proof (vo_z _ Him). destruct vstrides_pos, (vstride_bytes im Him) as (E & _).
    assert (0 <= shape_z im * vdst_strides1 im) by (apply Z.mul_nonneg_nonneg; lia). lia.
  - intros c (p & Hp & ->)%elem_of_coords3D. rewrite label3D_at by done. pose proof (voffset_layers p Hp). cbn. lia.
  - intros c c' (p & Hp & ->)%elem_of_coords3D (q & Hq & ->)%elem_of_coords3D. rewrite !label3D_at by done.
    intros E. by apply (voffset_inj im Him) in E as ->.
  - intros c (p & Hp & ->)%elem_of_coords3D. by rewrite label3D_at, pos3D_at by done.
  - intros c (p & Hp & ->)%elem_of_coords3D. destruct (home3D_spec p Hp) as (q & -> & Hq & Hpq & El & Hmin).
    split; [apply elem_of_coords3D; eauto|]. split; [|symmetry; by apply vconnected_value].
    destruct (home3D_spec q Hq) as (q' & -> & Hq' & Hqq & _ & Hmin').
    f_equal. apply (voffset_inj im Him); [done..|].
    pose proof (Hmin q' ltac:(by trans q)). pose proof (Hmin' q ltac:(reflexivity)). lia.
  - etrans; [apply coords3D_few|exact Hfit].
  - intros b Eb. by apply Hbg.
  - intros M EM. by apply Hrows.
Qed.
End Volume.

(** C12: on a volume labelled by any run of the labelling kernels for one sample, the
    3D kernels that follow, their threads in any order, come to an end with every
    access inside the statistics, when the background label is below 2^31 and, to
    remove islands under sequential labels, the statistics have a row for every
    region. Then the counter is the number of regions, connected components that are not
    background, and the regions are numbered. Every region whose number is that of a row
    has this row: its label, its first voxel in the order of layers and rows, one more than
    the largest distance of its voxels from the first along each of the three axes, its
    number of voxels, its mark (for columns 1 to 6 the header OpLabel.h announces a bounding
    box instead). The label of a region is that of its first voxel, or the one after the
    last label of the sample if that is the background's. A voxel of the background has the
    background label. A voxel of a region that has a row has the background label if the
    region is an island that the mask does not keep, and else, as asked, the number of the
    region, that of the background left out, or its label. A voxel of a region without a
    row has the label of its region, even if the region is an island (see
    [voxel_islands_beyond_rows_stay]). *)
Theorem volume_label_regions (undef : Z -> Z) (im : Volume) (d d' : store) (bg ms : option Z)
    (mask : option (Z -> Z -> Z -> Z)) (rel : bool) (strides0 M : Z) (st : list (list Z))
    (Him : volume_ok im) (Hrun : label_kernels3 undef im d d') (Hstr : vsample_stride im strides0)
    (Hbg : forall b, bg = Some b -> u32 b < flag) (HM : 0 <= M < 2 ^ 31) (Hms : is_Some ms -> is_Some bg) :
  let J := job3D im bg ms mask rel strides0 (Some M) in
  let P := coords3D im in
  let home := home3D im d' in
  one_type J P ->
  Z.of_nat (length st) = M -> Forall (fun l => length l = 9%nat) st ->
  (rel = true -> is_Some ms -> Z.of_nat (length (filter (region_root J home) P)) <= M) ->
  ((exists m', post_kernels3D J true P (MkMarks d' 0 st) m') /\
   forall m', post_kernels3D J true P (MkMarks d' 0 st) m' -> finished J P 3 home m') /\
  forall p, in_volume im p -> exists q, home (vcoords p) = vcoords q /\ vconnected im p q /\
    forall r, vconnected im p r -> voffset im q <= voffset im r.
Proof.
  intros J P home HT Hlen Hst Hroom.
  pose proof (proj1 (proj2 (vkernels_spec im Him undef d) d' Hrun)) as Hlab.
  assert (HJ : job_ok J P 3 home) by (apply job3D_ok; [done..|by intros ? [= <-]]).
  assert (Heq : forall m', post_kernels3D J true P (MkMarks d' 0 st) m' <-> post_kernels J true P (MkMarks d' 0 st) m').
  { intros m'. apply post_kernels3D_eq; [done|]. intros c Hc. by destruct (jo_coords _ _ _ _ HJ c Hc). }
  split.
  - destruct (post_finished J P 3 home HJ (MkMarks d' 0 st)) as [[m' Hm] Hall].
    + by eexists.
    + split; [|done|by split|done|exact Hroom].
      intros c (p & Hp & ->)%(elem_of_coords3D im d' Him Hlab). destruct (home3D_spec im d' Him Hlab p Hp) as (q & E & Hq & _ & El & _).
      unfold home. rewrite E. cbn. replace (vdst_at im (d_z p) (d_y p) (d_x p)) with (voffset im p) by (symmetry; by apply vdst_at_offset).
      etrans; [exact El|]. symmetry. by apply vdst_at_offset.
    + split; [exists m'; by apply Heq|]. intros m2 Hm2. apply Hall. by apply Heq.
  - intros p Hp. destruct (home3D_spec im d' Him Hlab p Hp) as (q & E & Hq & Hc & _ & Hmin). by exists q.
Qed.

(** ** A sample *)

Definition post_seq3D (J : Job) (gcs : list (list Z)) (m : Marks) : outcome Marks :=
  let has_stats := bool_decide (is_Some (maxCapacity J)) in
  m1 ← seq_if (bool_decide (is_Some (bgLabel J))) gcs (on_voxel (ReplaceBgLabels3D J)) m;
  m2 ← seq_if true gcs (on_voxel (CountLabels3D J)) m1;
  m3 ← seq_if has_stats gcs (on_voxel (ComputeStats3D J)) m2;
  m4 ← seq_if (has_stats && bool_decide (is_Some (minSize J))) gcs (on_voxel (RemoveIslands3D J)) m3;
  seq_if has_stats gcs (on_voxel (Relabel3D J)) m4.

Module Filled.
Import Shapes.

(** The bridge between two corners: regions of 7 voxels, 3 and three times 1 on a background of 0. *)
Definition bridge_job (ms : option Z) (rel : bool) (M : Z) : Job := job3D bridge (Some 0) ms None rel 72 (Some M).

Example bridge_regions :
  match label_seq3 (fun _ => 9) bridge (fun _ => 77) with
  | Some d' =>
      match post_seq3D (bridge_job (Some 2) true 5) (coords3D bridge) (MkMarks d' 0 (replicate 5 (replicate 9 0))) with
      | Ok m => Some (labels_of3 bridge (labels m), count m, stats m)
      | _ => None
      end
  | None => None
  end =
  Some ([[[1; 0; 1]; [0; 0; 0]]; [[1; 0; 1]; [4; 0; 0]]; [[1; 1; 1]; [4; 4; 0]]], 5,
    [[18; 0; 0; 0; 3; 1; 3; 7; 0]; [3; 0; 1; 0; 1; 1; 1; 1; 1]; [5; 2; 1; 0; 1; 1; 1; 1; 1];
     [9; 0; 1; 1; 2; 1; 2; 3; 0]; [11; 2; 1; 1; 1; 1; 1; 1; 1]]).
Proof. vm_compute. reflexivity. Qed.

(** With one row, the islands without a row stay: those of 3, 5 and 11. *)
Example voxel_islands_beyond_rows_stay :
  match label_seq3 (fun _ => 9) bridge (fun _ => 77) with
  | Some d' =>
      match post_seq3D (bridge_job (Some 2) false 1) (coords3D bridge) (MkMarks d' 0 (replicate 1 (replicate 9 0))) with
      | Ok m => Some (labels_of3 bridge (labels m), count m, stats m)
      | _ => None
      end
  | None => None
  end =
  Some ([[[18; 0; 18]; [3; 0; 5]]; [[18; 0; 18]; [9; 0; 11]]; [[18; 18; 18]; [9; 9; 0]]], 5, [[18; 0; 0; 0; 3; 1; 3; 7; 0]]).
Proof. vm_compute. reflexivity. Qed.

Lemma volume_label_regions_witness :
  exists d', label_kernels3 (fun _ => 0) bridge (fun _ => 0) d' /\
  exists m', post_kernels3D (bridge_job (Some 2) false 4) true (coords3D bridge) (MkMarks d' 0 (replicate 4 (replicate 9 0))) m' /\
    finished (bridge_job (Some 2) false 4) (coords3D bridge) 3 (home3D bridge d') m'.
Proof.
  destruct (vkernels_exist bridge bridge_ok (fun _ => 0) (fun _ => 0)) as [d' Hd].
  exists d'. split; [exact Hd|].
  destruct (volume_label_regions (fun _ => 0) bridge (fun _ => 0) d' (Some 0) (Some 2) None false 72 4
    (replicate 4 (replicate 9 0)) bridge_ok Hd) as [[[m' Hm] Hall] _].
  - split; vm_compute; congruence.
  - intros b [= <-]. reflexivity.
  - lia.
  - intros _. by eexists.
  - intros b [= <-]. assert (H : Forall (fun p => Z.abs (value_at (bridge_job (Some 2) false 4) p - 0) < 2 ^ 32) (coords3D bridge)).
    { apply (bool_decide_unpack _). vm_compute. exact I. }
    intros p Hp. exact (proj1 (Forall_forall _ _) H p Hp).
  - reflexivity.
  - by repeat constructor.
  - discriminate.
  - exists m'. split; [exact Hm|exact (Hall m' Hm)].
Defined.
End Filled.
