(* ===== verification/TensorAccess.v ===== *)
(** * Layouts, shapes and strided data read as images

    [nvcv/TensorLayoutInfo.hpp], [TensorShapeInfo.hpp] and [TensorDataAccess.hpp], by
    which operators take a tensor for a batch of images, with the parts of
    [TensorLayout.hpp], [Shape.hpp] and [detail/TensorDataImpl.hpp] they use. The
    theorem states that the samples, planes and rows of an accepted tensor are made
    of its elements, each at the place its labels say. *)
From S2P Require Import Prelude TensorLayout Strides TensorData TensorView.
From Stdlib Require Import Ascii.
From stdpp Require Import options.

#[local] Open Scope Z_scope.
#[local] Set Default Proof Using "Type*".

Definition LABEL_BATCH : ascii := "N"%char.
Definition LABEL_CHANNEL : ascii := "C"%char.
Definition LABEL_DEPTH : ascii := "D"%char.
Definition LABEL_HEIGHT : ascii := "H"%char.
Definition LABEL_WIDTH : ascii := "W"%char.

Definition TENSOR_W : NVCVTensorLayout := NVCV_TENSOR_LAYOUT_MAKE "W".
Definition TENSOR_WC : NVCVTensorLayout := NVCV_TENSOR_LAYOUT_MAKE "WC".

(** [layout.find(c)], [layout != TENSOR_NONE]. *)
Definition find (L : NVCVTensorLayout) (c : ascii) : outcome Z := nvcvTensorLayoutFindDimIndex L c 0.
Definition is_none (L : NVCVTensorLayout) : outcome bool :=
  c ← nvcvTensorLayoutCompare L NVCV_TENSOR_NONE; Ok (c =? 0).
Definition label_is (L : NVCVTensorLayout) (i : Z) (c : ascii) : outcome bool :=
  x ← nvcvTensorLayoutGetLabel L i; Ok (bool_decide (x = c)).

(** [*opt]; a [std::runtime_error] becomes the status the C interface makes of it. *)
Definition value {A} (o : option A) : outcome A :=
  match o with Some x => Ok x | None => Throw NVCV_ERROR_INTERNAL end.

(** ** Layouts *)

Record TensorLayoutInfo := mkLayoutInfo {
  m_layout : NVCVTensorLayout; m_cacheIsBatch : bool; m_cacheIsImage : bool; m_cacheIdxSample : Z }.

Definition new_TensorLayoutInfo (layout : NVCVTensorLayout) : outcome TensorLayoutInfo :=
  isBatch ← (if 0 <? rank layout then label_is layout 0 LABEL_BATCH else Ok false);
  none ← is_none layout;
  isImage ← (if negb none then w ← find layout LABEL_WIDTH; Ok (0 <=? w) else Ok false);
  Ok (mkLayoutInfo layout isBatch isImage (if isBatch then 0 else -1)).

Definition TensorLayoutInfo_IsCompatible (layout : NVCVTensorLayout) : bool := true.
Definition TensorLayoutInfo_Create (layout : NVCVTensorLayout) : outcome (option TensorLayoutInfo) :=
  i ← new_TensorLayoutInfo layout; Ok (Some i).

Record TensorLayoutInfoImage := mkLayoutInfoImage {
  li_base : TensorLayoutInfo;
  m_cacheNumSpatialDims : Z; m_cacheIsRowMajor : bool;
  m_cacheIdxChannel : Z; m_cacheIdxWidth : Z; m_cacheIdxHeight : Z; m_cacheIdxDepth : Z;
  m_cacheHasChannel : bool; m_cacheIsChannelFirst : bool; m_cacheIsChannelLast : bool }.

Definition is_spatial (v : ascii) : bool :=
  bool_decide (v = LABEL_WIDTH) || bool_decide (v = LABEL_HEIGHT) || bool_decide (v = LABEL_DEPTH).

Definition new_TensorLayoutInfoImage (layout : NVCVTensorLayout) : outcome TensorLayoutInfoImage :=
  base ← new_TensorLayoutInfo layout;
  ls ← copy_range (data layout) 0 (rank layout);
  w ← nvcvTensorLayoutEndsWith layout TENSOR_W;
  isRowMajor ← (if w : bool then Ok true else nvcvTensorLayoutEndsWith layout TENSOR_WC);
  idxChannel ← find layout LABEL_CHANNEL;
  idxWidth ← find layout LABEL_WIDTH;
  idxHeight ← find layout LABEL_HEIGHT;
  idxDepth ← find layout LABEL_DEPTH;
  let hasChannel := 0 <=? idxChannel in
  none ← is_none layout;
  isChannelFirst ← (if negb none then label_is layout (if m_cacheIsBatch base then 1 else 0) LABEL_CHANNEL else Ok false);
  isChannelLast ← (if negb none then c ← label_is layout (rank layout - 1) LABEL_CHANNEL; Ok (c || negb hasChannel) else Ok false);
  Ok (mkLayoutInfoImage base (Z.of_nat (length (filter (fun v => is_spatial v = true) ls))) isRowMajor
    idxChannel idxWidth idxHeight idxDepth hasChannel isChannelFirst isChannelLast).

Definition TensorLayoutInfoImage_IsCompatible (layout : NVCVTensorLayout) : outcome bool :=
  info ← TensorLayoutInfo_Create layout;
  match info with Some info => Ok (m_cacheIsImage info) | None => Ok false end.

Definition TensorLayoutInfoImage_Create (layout : NVCVTensorLayout) : outcome (option TensorLayoutInfoImage) :=
  ok ← TensorLayoutInfoImage_IsCompatible layout;
  if ok : bool then i ← new_TensorLayoutInfoImage layout; Ok (Some i) else Ok None.

(** ** Shapes *)

(** Extents and layout; as many extents as the rank. *)
Record TensorShape := mkTensorShape { m_shape : list Z; ts_layout : NVCVTensorLayout }.

(** From data: [TensorShape(data, size, layout)]. *)
Definition new_TensorShape (d : list Z) (size : Z) (layout : NVCVTensorLayout) : outcome TensorShape :=
  throw_if (NVCV_TENSOR_MAX_RANK <? size) NVCV_ERROR_INVALID_ARGUMENT (
  sh ← (if (0 <=? size) && (size <=? Z.of_nat (length d)) then Ok (take (Z.to_nat size) d) else Stuck);
  none ← is_none layout;
  throw_if (negb none && negb (size =? rank layout)) NVCV_ERROR_INVALID_ARGUMENT (Ok (mkTensorShape sh layout))).

(** [TensorData::shape()]. *)
Definition tdata_shape (td : NVCVTensorData) : outcome TensorShape :=
  throw_if ((td_rank td <? 0) || (NVCV_TENSOR_MAX_RANK <? td_rank td)) NVCV_ERROR_INVALID_ARGUMENT (
  new_TensorShape (shape td) (td_rank td) (layout td)).

(** The number of samples is kept in an [int]. *)
Definition cacheNumSamples (sh : TensorShape) (idxSample : Z) : outcome Z :=
  if 0 <=? idxSample then n ← rd (m_shape sh) idxSample; Ok (i32 n)
  else none ← is_none (ts_layout sh); Ok (if negb none then 1 else 0).

Record TensorShapeInfo := mkShapeInfo { si_shape : TensorShape; si_infoLayout : TensorLayoutInfo; si_numSamples : Z }.

Definition TensorShapeInfo_IsCompatible (sh : TensorShape) : bool := true.
Definition TensorShapeInfo_Create (sh : TensorShape) : outcome (option TensorShapeInfo) :=
  il ← TensorLayoutInfo_Create (ts_layout sh);
  il ← value il;
  n ← cacheNumSamples sh (m_cacheIdxSample il);
  Ok (Some (mkShapeInfo sh il n)).

Record TensorShapeInfoImage := mkShapeInfoImage {
  shp : TensorShape; infoLayout : TensorLayoutInfoImage; numSamples : Z;
  size_w : Z; size_h : Z; numChannels : Z }.

Definition new_TensorShapeInfoImage (sh : TensorShape) : outcome TensorShapeInfoImage :=
  il ← TensorLayoutInfoImage_Create (ts_layout sh);
  il ← value il;
  n ← cacheNumSamples sh (m_cacheIdxSample (li_base il));
  channels ← (if 0 <=? m_cacheIdxChannel il then c ← rd (m_shape sh) (m_cacheIdxChannel il); Ok (i32 c) else Ok 1);
  throw_if (m_cacheIdxWidth il <? 0) NVCV_ERROR_INVALID_ARGUMENT (
  w ← rd (m_shape sh) (m_cacheIdxWidth il);
  h ← (if 0 <=? m_cacheIdxHeight il then h ← rd (m_shape sh) (m_cacheIdxHeight il); Ok (i32 h) else Ok 1);
  Ok (mkShapeInfoImage sh il n (i32 w) h channels)).

(** The test of the layout is that of [TensorLayoutInfo], not of [TensorLayoutInfoImage]. *)
Definition TensorShapeInfoImage_IsCompatible (sh : TensorShape) : bool :=
  TensorShapeInfo_IsCompatible sh && TensorLayoutInfo_IsCompatible (ts_layout sh).
Definition TensorShapeInfoImage_Create (sh : TensorShape) : outcome (option TensorShapeInfoImage) :=
  if TensorShapeInfoImage_IsCompatible sh then i ← new_TensorShapeInfoImage sh; Ok (Some i) else Ok None.

Record TensorShapeInfoImagePlanar := mkShapeInfoPlanar { pl_image : TensorShapeInfoImage; numPlanes : Z }.

Definition TensorShapeInfoImagePlanar_IsCompatible (sh : TensorShape) : outcome bool :=
  let layout := ts_layout sh in
  info ← TensorLayoutInfoImage_Create layout;
  match info with
  | Some info =>
      if m_cacheIsRowMajor info && (m_cacheIsChannelFirst info || m_cacheIsChannelLast info) then
        let iheight := m_cacheIdxHeight info in
        if 0 <=? iheight then
          if negb (iheight + 1 <? rank layout) then Stuck else
          w ← label_is layout (iheight + 1) LABEL_WIDTH;
          if negb w then Ok false
          else if (iheight =? 0) || m_cacheIsChannelLast info then Ok true
          else label_is layout (iheight - 1) LABEL_CHANNEL
        else Ok ((m_cacheIdxChannel info =? -1) || (rank layout - 2 <=? m_cacheIdxChannel info))
      else Ok false
  | None => Ok false
  end.

Definition new_TensorShapeInfoImagePlanar (sh : TensorShape) : outcome TensorShapeInfoImagePlanar :=
  i ← new_TensorShapeInfoImage sh;
  let il := infoLayout i in
  planes ← (if m_cacheIsChannelLast il then Ok 1
            else if 0 <=? m_cacheIdxChannel il then n ← rd (m_shape sh) (m_cacheIdxChannel il); Ok (i32 n) else Ok 1);
  Ok (mkShapeInfoPlanar i planes).

Definition TensorShapeInfoImagePlanar_Create (sh : TensorShape) : outcome (option TensorShapeInfoImagePlanar) :=
  ok ← TensorShapeInfoImagePlanar_IsCompatible sh;
  if ok : bool then i ← new_TensorShapeInfoImagePlanar sh; Ok (Some i) else Ok None.

(** ** Access to strided data *)

Definition strided (td : NVCVTensorData) : bool := bool_decide (bufferType td = NVCV_TENSOR_BUFFER_STRIDED_CUDA).

Record TensorDataAccess := mkAccess { m_tdata : NVCVTensorData; m_infoShape : TensorShapeInfoImagePlanar }.

Definition TensorDataAccessStridedImage_IsCompatible (td : NVCVTensorData) : outcome bool :=
  if strided td then sh ← tdata_shape td; Ok (TensorShapeInfoImage_IsCompatible sh) else Ok false.

Definition TensorDataAccessStridedImage_Create (td : NVCVTensorData) : outcome (option (NVCVTensorData * TensorShapeInfoImage)) :=
  ok ← TensorDataAccessStridedImage_IsCompatible td;
  if ok : bool then
    sh ← tdata_shape td; i ← TensorShapeInfoImage_Create sh; i ← value i; Ok (Some (td, i))
  else Ok None.

Definition TensorDataAccessStrided_Create (td : NVCVTensorData) : outcome (option (NVCVTensorData * TensorShapeInfo)) :=
  if strided td then sh ← tdata_shape td; i ← TensorShapeInfo_Create sh; i ← value i; Ok (Some (td, i)) else Ok None.

Definition TensorDataAccessStridedImagePlanar_IsCompatible (td : NVCVTensorData) : outcome bool :=
  ok ← TensorDataAccessStridedImage_IsCompatible td;
  if ok : bool then sh ← tdata_shape td; TensorShapeInfoImagePlanar_IsCompatible sh else Ok false.

Definition TensorDataAccessStridedImagePlanar_Create (td : NVCVTensorData) : outcome (option TensorDataAccess) :=
  ok ← TensorDataAccessStridedImagePlanar_IsCompatible td;
  if ok : bool then
    sh ← tdata_shape td; i ← TensorShapeInfoImagePlanar_Create sh; i ← value i; Ok (Some (mkAccess td i))
  else Ok None.

Section Access.
Variable a : TensorDataAccess.
Let image := pl_image (m_infoShape a).
Let il := infoLayout image.

Definition stride_or_0 (idx : Z) : outcome Z := if 0 <=? idx then td_stride (m_tdata a) idx else Ok 0.
Definition sampleStride : outcome Z := stride_or_0 (m_cacheIdxSample (li_base il)).
Definition chStride : outcome Z := stride_or_0 (m_cacheIdxChannel il).
Definition colStride : outcome Z := stride_or_0 (m_cacheIdxWidth il).
Definition rowStride : outcome Z := stride_or_0 (m_cacheIdxHeight il).
Definition depthStride : outcome Z := stride_or_0 (m_cacheIdxDepth il).
Definition planeStride : outcome Z :=
  if m_cacheIsChannelFirst il
  then if 0 <=? m_cacheIdxChannel il then td_stride (m_tdata a) (m_cacheIdxChannel il) else Stuck
  else Ok 0.

(** [assert(0 <= i && i < n); return base + stride * i;] *)
Definition at_index (n i : Z) (st : outcome Z) (base : Z) : outcome Z :=
  if (0 <=? i) && (i <? n) then s ← st; p ← int64 (s * i); Ok (base + p) else Stuck.

Definition sampleData (n base : Z) : outcome Z := at_index (numSamples image) n sampleStride base.
Definition rowData (y base : Z) : outcome Z := at_index (size_h image) y rowStride base.
Definition chData (c base : Z) : outcome Z := at_index (numChannels image) c chStride base.
Definition planeData (p base : Z) : outcome Z := at_index (numPlanes (m_infoShape a)) p planeStride base.
End Access.

(** ** What is read of a layout *)

Section Labels.
Variable L : NVCVTensorLayout.
Hypothesis V : valid_layout L.

Definition index_of (c : ascii) : Z := default (-1) (list_index c (labels L) 0).

Lemma find_index c : find L c = Ok (index_of c).
Proof.
  pose proof V as [[H1 H2] _]. unfold find, nvcvTensorLayoutFindDimIndex. cbn [Z.ltb Z.compare mbind outcome_bind].
  unfold NVCV_TENSOR_MAX_RANK in H2. rewrite Z.sub_0_r, int32_ok by (unfold in_s; lia). cbn [mbind outcome_bind].
  rewrite memchr_labels by done. unfold index_of. destruct (Z.ltb_spec 0 (rank L)); [done|].
  pose proof (length_labels L V) as E. destruct (labels L); [done|]. cbn in E. lia.
Qed.

Lemma index_Some c : 0 <= index_of c -> index_of c < rank L /\ labels L !! Z.to_nat (index_of c) = Some c.
Proof.
  unfold index_of. destruct (list_index c (labels L) 0) as [i|] eqn:E; cbn; [|lia]. intros _.
  apply list_index_Some in E as (H & E & _). rewrite Z.sub_0_r in E. pose proof (length_labels L V). split; [lia|done].
Qed.

Lemma index_None c : index_of c < 0 <-> c ∉ labels L.
Proof.
  unfold index_of. rewrite <- (list_index_None c (labels L) 0).
  destruct (list_index c (labels L) 0) as [i|] eqn:E; cbn; [|by split].
  apply list_index_Some in E as [? _]. split; [lia|done].
Qed.

Lemma is_none_rank : is_none L = Ok (rank L =? 0).
Proof.
  pose proof V as [[H1 H2] H3]. unfold is_none, nvcvTensorLayoutCompare. change (rank NVCV_TENSOR_NONE) with 0.
  destruct (Z.eqb_spec (rank L) 0) as [E|E].
  - rewrite E. rewrite !copy_range_ok by (cbn; lia). done.
  - unfold NVCV_TENSOR_MAX_RANK in H2. rewrite Z.sub_0_r, int32_ok by (unfold in_s; lia). cbn. by rewrite (proj2 (Z.eqb_neq _ _) E).
Qed.

Lemma label_is_lookup i c : 0 <= i -> c <> zero -> label_is L i c = Ok (bool_decide (labels L !! Z.to_nat i = Some c)).
Proof.
  intros Hi Hc. pose proof V as [[H1 H2] H3]. pose proof (length_labels L V) as Hl.
  unfold label_is, nvcvTensorLayoutGetLabel. rewrite (proj2 (Z.ltb_ge i 0)) by done.
  destruct (Z.ltb_spec i (rank L)).
  - destruct (lookup_lt_is_Some_2 (labels L) (Z.to_nat i)) as [x Hx]; [lia|].
    rewrite (proj2 (rd_Ok _ i x)); [|split; [done|]; unfold labels in Hx; by apply lookup_take_Some in Hx as [? _]].
    cbn [mbind outcome_bind]. f_equal. apply bool_decide_ext. rewrite Hx. naive_solver.
  - cbn [mbind outcome_bind]. rewrite lookup_ge_None_2 by lia. f_equal. rewrite !bool_decide_eq_false_2; congruence.
Qed.
End Labels.

(** ** Image data *)

(** Data in strided memory with a layout of distinct labels, extents of 32 bits,
    and products of extents and strides of 64. *)
Record image_data (td : NVCVTensorData) : Prop := {
  id_kind : bufferType td = NVCV_TENSOR_BUFFER_STRIDED_CUDA;
  id_layout : valid_layout (layout td) /\ rank (layout td) = td_rank td;
  id_labels : NoDup (labels (layout td));
  id_shape : td_rank td <= Z.of_nat (length (shape td)) /\ td_rank td <= Z.of_nat (length (strides (buffer td)));
  id_dims : Forall (fun d => 0 <= d.1 < 2 ^ 31 /\ in_s 64 d.2 /\ in_s 64 (d.1 * d.2)) (dims td) }.

(** The extent and the stride of the dimension with a label. *)
Definition dim_of (td : NVCVTensorData) (c : ascii) : option (Z * Z) :=
  i ← list_index c (labels (layout td)) 0; dims td !! Z.to_nat i.
Definition extent_of (td : NVCVTensorData) (c : ascii) : Z := match dim_of td c with Some d => d.1 | None => 1 end.
Definition stride_of (td : NVCVTensorData) (c : ascii) : Z := match dim_of td c with Some d => d.2 | None => 0 end.

(** The coordinates of an element, dimension by dimension: [f] says them by label. *)
Definition offset_at (td : NVCVTensorData) (f : ascii -> Z) : Z :=
  foldr Z.add 0 (zip_with (fun c d => f c * d.2) (labels (layout td)) (dims td)).

Lemma offset_in_offs (ls : list ascii) ds f : length ls = length ds ->
  Forall2 (fun c d => 0 <= f c < d.1) ls ds -> foldr Z.add 0 (zip_with (fun c d => f c * d.2) ls ds) ∈ offs ds.
Proof.
  intros _ H. induction H as [|c [n s] ls ds Hc H IH]; [cbn; set_solver|].
  cbn [zip_with foldr offs fst snd] in *. unfold sums. apply list_elem_of_bind. exists (f c * s). split.
  - apply list_elem_of_fmap. eexists. split; [reflexivity|done].
  - unfold prog, zseq. apply list_elem_of_fmap. exists (f c). split; [done|]. apply list_elem_of_fmap.
    exists (Z.to_nat (f c)). split; [lia|]. apply elem_of_seq. lia.
Qed.

(** A sum over the dimensions of which only those with some labels count. *)
Fixpoint dim_in (ls : list ascii) (ds : list (Z * Z)) (c : ascii) : Z :=
  match ls, ds with
  | x :: ls, d :: ds => if ascii_dec c x then d.2 else dim_in ls ds c
  | _, _ => 0
  end.

Lemma dim_in_absent ls ds c : c ∉ ls -> dim_in ls ds c = 0.
Proof.
  revert ds. induction ls as [|x ls IH]; intros [|d ds]; cbn; [done..|]. rewrite not_elem_of_cons. intros [? ?].
  destruct (ascii_dec c x); [done|by apply IH].
Qed.

Lemma sum_split (keys : list ascii) x d g f : NoDup keys -> (x ∉ keys -> f x = 0) -> g x = 0 ->
  foldr Z.add 0 ((fun c => f c * (if ascii_dec c x then d else g c)) <$> keys)
  = f x * d + foldr Z.add 0 ((fun c => f c * g c) <$> keys).
Proof.
  induction 1 as [|c keys Hc HN IH]; intros Hx Hg; cbn.
  - rewrite Hx by apply not_elem_of_nil. lia.
  - destruct (ascii_dec c x) as [->|Hne].
    + rewrite Hg. cut (foldr Z.add 0 ((fun c => f c * (if ascii_dec c x then d else g c)) <$> keys) = foldr Z.add 0 ((fun c => f c * g c) <$> keys)); [lia|].
      f_equal. apply list_fmap_ext. intros i c Hi. destruct (ascii_dec c x) as [->|]; [|done].
      exfalso. apply Hc. by eapply list_elem_of_lookup_2.
    + rewrite IH; [lia| |done]. intros H. apply Hx. by apply not_elem_of_cons.
Qed.

Lemma sum_zero (keys : list ascii) (h : ascii -> Z) : (forall c, h c = 0) -> foldr Z.add 0 (h <$> keys) = 0.
Proof. intros H. induction keys as [|k keys IH]; cbn; [done|]. by rewrite H, IH. Qed.

Lemma sum_of_labels (keys : list ascii) ls ds f : NoDup ls -> NoDup keys -> (forall c, c ∉ keys -> f c = 0) ->
  foldr Z.add 0 (zip_with (fun c d => f c * d.2) ls ds) = foldr Z.add 0 ((fun c => f c * dim_in ls ds c) <$> keys).
Proof.
  intros Hls Hk Hf. revert ds. induction Hls as [|x ls Hx Hls IH]; intros ds.
  - symmetry. apply sum_zero. intros c. apply Z.mul_0_r.
  - destruct ds as [|d ds]; cbn [zip_with foldr dim_in].
    + symmetry. apply sum_zero. intros c. apply Z.mul_0_r.
    + rewrite IH. symmetry. apply (sum_split keys x d.2 (dim_in ls ds)); [done|apply Hf|by apply dim_in_absent].
Qed.

Lemma dim_in_index ls ds c k : dim_in ls ds c =
  match list_index c ls k with Some i => match ds !! Z.to_nat (i - k) with Some d => d.2 | None => 0 end | None => 0 end.
Proof.
  revert ds k. induction ls as [|x ls IH]; intros ds k; cbn [list_index dim_in]; [done|].
  destruct ds as [|d ds]; [destruct (ascii_dec c x); [done|destruct (list_index c ls (k + 1)); [by rewrite lookup_nil|done]]|].
  destruct (ascii_dec c x); [by rewrite Z.sub_diag|]. rewrite (IH ds (k + 1)).
  destruct (list_index c ls (k + 1)) as [i|] eqn:E; [|done]. apply list_index_Some in E as [? _].
  by replace (Z.to_nat (i - k)) with (S (Z.to_nat (i - (k + 1)))) by lia.
Qed.

Lemma offset_at_labels td f : NoDup (labels (layout td)) ->
  (forall c, c ∉ [LABEL_BATCH; LABEL_CHANNEL; LABEL_DEPTH; LABEL_HEIGHT; LABEL_WIDTH] -> f c = 0) ->
  offset_at td f = f LABEL_BATCH * stride_of td LABEL_BATCH + f LABEL_CHANNEL * stride_of td LABEL_CHANNEL
    + f LABEL_DEPTH * stride_of td LABEL_DEPTH + f LABEL_HEIGHT * stride_of td LABEL_HEIGHT + f LABEL_WIDTH * stride_of td LABEL_WIDTH.
Proof.
  intros HN Hf. unfold offset_at. rewrite (sum_of_labels [LABEL_BATCH; LABEL_CHANNEL; LABEL_DEPTH; LABEL_HEIGHT; LABEL_WIDTH]); [|done| |done].
  - assert (forall c, dim_in (labels (layout td)) (dims td) c = stride_of td c) as E.
    { intros c. rewrite (dim_in_index _ _ _ 0). unfold stride_of, dim_of.
      destruct (list_index c (labels (layout td)) 0); cbn; [by rewrite Z.sub_0_r|done]. }
    cbn. rewrite !E. lia.
  - repeat (constructor; [rewrite ?not_elem_of_cons; split_and?; done || apply not_elem_of_nil|]). constructor.
Qed.

Section Access.
Variable td : NVCVTensorData.
Hypothesis H : image_data td.
#[local] Abbreviation L := (layout td).

Lemma length_image_dims : length (dims td) = length (labels L).
Proof.
  destruct H as [_ [V E] _ [H1 H2] _]. pose proof (length_labels L V). unfold dims.
  rewrite length_take, length_zip_with. lia.
Qed.

Lemma index_dim c : 0 <= index_of L c -> exists n s, dim_of td c = Some (n, s)
  /\ shape td !! Z.to_nat (index_of L c) = Some n /\ strides (buffer td) !! Z.to_nat (index_of L c) = Some s
  /\ index_of L c < td_rank td /\ 0 <= n < 2 ^ 31 /\ in_s 64 s /\ in_s 64 (n * s).
Proof.
  intros Hc. destruct H as [_ [V E] _ [H1 H2] HF]. destruct (index_Some L V c Hc) as [Hi Hl].
  pose proof (lookup_lt_Some _ _ _ Hl) as Hlt. rewrite <- length_image_dims in Hlt.
  destruct (lookup_lt_is_Some_2 _ _ Hlt) as [[n s] Hd]. exists n, s. pose proof (proj1 (Forall_lookup _ _) HF _ _ Hd) as HB.
  split; [unfold dim_of, index_of in *; destruct (list_index c (labels L) 0); [exact Hd|by cbn in Hc]|].
  unfold dims in Hd. apply lookup_take_Some in Hd as [Hd _]. apply lookup_zip_with_Some in Hd as (n' & s' & [= <- <-] & Hn & Hs).
  rewrite E in Hi. cbn in HB. tauto.
Qed.

Lemma absent_dim c : index_of L c < 0 -> dim_of td c = None.
Proof. destruct H as [_ [V _] _ _ _]. intros Hc. unfold dim_of. apply index_None, list_index_None with (k := 0) in Hc; [|done]. by rewrite Hc. Qed.

Lemma td_stride_index c : 0 <= index_of L c -> td_stride td (index_of L c) = Ok (stride_of td c).
Proof.
  intros Hc. unfold stride_of. destruct (index_dim c Hc) as (n & s & -> & _ & Hs & Hi & _). unfold td_stride.
  rewrite (proj2 (Z.ltb_ge _ _)), (proj2 (Z.leb_gt _ _)) by done. cbn [orb throw_if]. by apply rd_Ok.
Qed.

Lemma stride_index c infos : stride_or_0 (mkAccess td infos) (index_of L c) = Ok (stride_of td c).
Proof.
  unfold stride_or_0. destruct (Z.leb_spec 0 (index_of L c)) as [Hc|Hc]; [by apply td_stride_index|].
  unfold stride_of. by rewrite absent_dim.
Qed.

Lemma extent_index c : 0 <= index_of L c ->
  rd (take (Z.to_nat (td_rank td)) (shape td)) (index_of L c) = Ok (extent_of td c) /\ 0 <= extent_of td c < 2 ^ 31.
Proof.
  intros Hc. destruct (index_dim c Hc) as (n & s & E & Hn & _ & Hi & Hr & _). unfold extent_of. rewrite E. split; [|exact Hr].
  apply rd_Ok. split; [done|]. by rewrite lookup_take_lt by lia.
Qed.

Lemma extent_range c : 0 <= extent_of td c < 2 ^ 31.
Proof.
  destruct (Z.le_gt_cases 0 (index_of L c)) as [Hc|Hc]; [by apply extent_index|]. unfold extent_of. by rewrite absent_dim.
Qed.

Lemma shape_ok : tdata_shape td = Ok (mkTensorShape (take (Z.to_nat (td_rank td)) (shape td)) L).
Proof.
  destruct H as [_ [V E] _ [H1 H2] _]. pose proof V as [[R1 R2] _]. unfold tdata_shape, new_TensorShape.
  rewrite (proj2 (Z.ltb_ge (td_rank td) 0)), (proj2 (Z.ltb_ge _ (td_rank td))) by lia. cbn [orb throw_if].
  rewrite (proj2 (Z.leb_le 0 _)), (proj2 (Z.leb_le _ _)) by lia. cbn [andb mbind outcome_bind].
  rewrite is_none_rank by done. cbn [mbind outcome_bind]. by rewrite E, Z.eqb_refl, andb_false_r.
Qed.

(** What the layout of an image says. *)
Definition batched : bool := bool_decide (labels L !! 0%nat = Some LABEL_BATCH).
Definition channel_last : bool :=
  bool_decide (labels L !! Z.to_nat (rank L - 1) = Some LABEL_CHANNEL) || negb (0 <=? index_of L LABEL_CHANNEL).
Definition channel_first : bool := bool_decide (labels L !! (if batched then 1 else 0)%nat = Some LABEL_CHANNEL).

Lemma layout_info : 0 < rank L -> new_TensorLayoutInfo L =
  Ok (mkLayoutInfo L batched (0 <=? index_of L LABEL_WIDTH) (if batched then 0 else -1)).
Proof.
  destruct H as [_ [V E] _ _ _]. intros Hr. unfold new_TensorLayoutInfo.
  rewrite (proj2 (Z.ltb_lt _ _)), label_is_lookup, is_none_rank, find_index by done. cbn [mbind outcome_bind].
  by rewrite (proj2 (Z.eqb_neq _ _)) by lia.
Qed.

Lemma ends_with_total T : valid_layout T -> exists b, nvcvTensorLayoutEndsWith L T = Ok b.
Proof.
  destruct H as [_ [[V1 V2] E] _ _ _]. intros [T1 T2]. unfold nvcvTensorLayoutEndsWith.
  destruct (Z.leb_spec (rank T) (rank L)); [|by eexists]. unfold same_bytes. rewrite !copy_range_ok by lia. by eexists.
Qed.

Lemma image_layout_info : 0 < rank L -> exists n row,
  new_TensorLayoutInfoImage L = Ok (mkLayoutInfoImage
    (mkLayoutInfo L batched (0 <=? index_of L LABEL_WIDTH) (if batched then 0 else -1)) n row
    (index_of L LABEL_CHANNEL) (index_of L LABEL_WIDTH) (index_of L LABEL_HEIGHT) (index_of L LABEL_DEPTH)
    (0 <=? index_of L LABEL_CHANNEL) channel_first channel_last).
Proof.
  intros Hr. pose proof H as [_ [V E] _ _ _]. pose proof V as [[V1 V2] V3]. unfold new_TensorLayoutInfoImage.
  rewrite layout_info, copy_range_ok by lia. cbn [mbind outcome_bind].
  destruct (ends_with_total TENSOR_W) as [w ->]; [by vm_compute|].
  destruct (ends_with_total TENSOR_WC) as [wc Hwc]; [by vm_compute|]. cbn [mbind outcome_bind].
  exists (Z.of_nat (length (filter (fun v => is_spatial v = true) (take (Z.to_nat (rank L - 0)) (drop (Z.to_nat 0) (data L)))))), (w || wc).
  replace (if w : bool then Ok true else nvcvTensorLayoutEndsWith L TENSOR_WC) with (Ok (w || wc) : outcome bool) by (destruct w; done).
  cbn [mbind outcome_bind]. rewrite !find_index by done. cbn [mbind outcome_bind]. rewrite is_none_rank by done. cbn [mbind outcome_bind].
  rewrite (proj2 (Z.eqb_neq _ _)) by lia. cbn [negb m_cacheIsBatch]. rewrite !label_is_lookup by (done || lia || by destruct batched).
  cbn [mbind outcome_bind]. unfold channel_first, channel_last. by destruct batched.
Qed.

Lemma width_rank : 0 <= index_of L LABEL_WIDTH -> 0 < rank L.
Proof. destruct H as [_ [V _] _ _ _]. intros Hw. destruct (index_Some L V _ Hw). lia. Qed.

Lemma image_Create : TensorLayoutInfoImage_Create L =
  if 0 <=? index_of L LABEL_WIDTH then i ← new_TensorLayoutInfoImage L; Ok (Some i) else Ok None.
Proof.
  pose proof H as [_ [V E] _ _ _]. pose proof V as [[V1 V2] V3].
  unfold TensorLayoutInfoImage_Create, TensorLayoutInfoImage_IsCompatible, TensorLayoutInfo_Create.
  destruct (Z.eq_dec (rank L) 0) as [E0|E0]; [|by rewrite layout_info by lia].
  assert (index_of L LABEL_WIDTH < 0) as Hw by (destruct (Z.lt_ge_cases (index_of L LABEL_WIDTH) 0) as [|Hw]; [done|apply width_rank in Hw; lia]).
  rewrite (proj2 (Z.leb_gt _ _) Hw). unfold new_TensorLayoutInfo. rewrite E0. cbn [Z.ltb Z.compare mbind outcome_bind].
  rewrite is_none_rank by done. by rewrite E0.
Qed.

Lemma extent_or_1 c : (if 0 <=? index_of L c
  then n ← rd (take (Z.to_nat (td_rank td)) (shape td)) (index_of L c); Ok (i32 n) else Ok 1) = Ok (extent_of td c).
Proof.
  destruct (Z.leb_spec 0 (index_of L c)) as [Hc|Hc].
  - destruct (extent_index c Hc) as [-> Hr]. cbn [mbind outcome_bind]. by rewrite wraps_small by (done || (unfold in_s; lia)).
  - unfold extent_of. by rewrite absent_dim.
Qed.

Lemma batched_index : batched = true -> index_of L LABEL_BATCH = 0.
Proof.
  unfold batched, index_of. rewrite bool_decide_eq_true. destruct (labels L) as [|x l]; [done|]. cbn. intros [= ->]. done.
Qed.

Definition image_shape : TensorShape := mkTensorShape (take (Z.to_nat (td_rank td)) (shape td)) L.

Lemma planar_compatible : TensorShapeInfoImagePlanar_IsCompatible image_shape = Ok true ->
  0 <= index_of L LABEL_WIDTH /\ (channel_first || channel_last = true).
Proof.
  unfold TensorShapeInfoImagePlanar_IsCompatible. cbn [ts_layout image_shape]. rewrite image_Create.
  destruct (Z.leb_spec 0 (index_of L LABEL_WIDTH)) as [Hw|]; [|done]. intros HC. split; [done|].
  destruct (image_layout_info (width_rank Hw)) as (n & row & E). rewrite E in HC. cbn in HC.
  destruct row, channel_first, channel_last; done.
Qed.

(** The access to an image has the extents of the labels. *)
Definition image_info (n : Z) (row : bool) : TensorShapeInfoImagePlanar :=
  mkShapeInfoPlanar
    (mkShapeInfoImage image_shape
      (mkLayoutInfoImage (mkLayoutInfo L batched true (if batched then 0 else -1)) n row
        (index_of L LABEL_CHANNEL) (index_of L LABEL_WIDTH) (index_of L LABEL_HEIGHT) (index_of L LABEL_DEPTH)
        (0 <=? index_of L LABEL_CHANNEL) channel_first channel_last)
      (if batched then extent_of td LABEL_BATCH else 1) (extent_of td LABEL_WIDTH) (extent_of td LABEL_HEIGHT)
      (extent_of td LABEL_CHANNEL))
    (if channel_last then 1 else extent_of td LABEL_CHANNEL).

Lemma sample_count_ok : 0 < rank L ->
  cacheNumSamples image_shape (if batched then 0 else -1) = Ok (if batched then extent_of td LABEL_BATCH else 1).
Proof.
  intros Hr. pose proof H as [_ [V _] _ _ _]. unfold cacheNumSamples. destruct batched eqn:B.
  - pose proof (extent_or_1 LABEL_BATCH) as E. rewrite (batched_index B) in E. exact E.
  - cbn [Z.leb Z.compare ts_layout image_shape]. rewrite is_none_rank by done. cbn. by rewrite (proj2 (Z.eqb_neq _ _)) by lia.
Qed.

Lemma planar_info : 0 <= index_of L LABEL_WIDTH ->
  exists n row, new_TensorShapeInfoImagePlanar image_shape = Ok (image_info n row).
Proof.
  intros Hw. pose proof (width_rank Hw) as Hr. destruct (image_layout_info Hr) as (n & row & E).
  rewrite (proj2 (Z.leb_le _ _) Hw) in E. exists n, row. unfold new_TensorShapeInfoImagePlanar, new_TensorShapeInfoImage.
  cbn [ts_layout m_shape image_shape]. rewrite image_Create, (proj2 (Z.leb_le _ _) Hw), E.
  cbn [mbind outcome_bind value m_cacheIdxSample m_cacheIdxChannel m_cacheIdxWidth m_cacheIdxHeight li_base].
  rewrite sample_count_ok by done. cbn [mbind outcome_bind]. rewrite !extent_or_1. cbn [mbind outcome_bind].
  rewrite (proj2 (Z.ltb_ge _ _)) by done. cbn [throw_if].
  destruct (extent_index LABEL_WIDTH Hw) as [-> HwR]. cbn [mbind outcome_bind infoLayout m_cacheIsChannelLast m_cacheIdxChannel].
  rewrite wraps_small by (done || (unfold in_s; lia)). unfold image_info. destruct channel_last; cbn [mbind outcome_bind]; [done|].
  by rewrite extent_or_1.
Qed.

Lemma accepted_access a : TensorDataAccessStridedImagePlanar_Create td = Ok (Some a) ->
  0 <= index_of L LABEL_WIDTH /\ (channel_first || channel_last = true) /\ exists n row, a = mkAccess td (image_info n row).
Proof.
  pose proof H as [K _ _ _ _]. unfold TensorDataAccessStridedImagePlanar_Create, TensorDataAccessStridedImagePlanar_IsCompatible,
    TensorDataAccessStridedImage_IsCompatible, strided.
  rewrite bool_decide_eq_true_2, shape_ok by done. fold image_shape. cbn [mbind outcome_bind].
  change (TensorShapeInfoImage_IsCompatible _) with true. cbn iota.
  unfold TensorShapeInfoImagePlanar_Create. intros HC. apply bind_Ok in HC as ([|] & Ec & HC); [|discriminate].
  rewrite Ec in HC. apply planar_compatible in Ec as [Hw Hc].
  destruct (planar_info Hw) as (n & row & E). rewrite E in HC. cbn in HC. injection HC as <-. split_and!; [done..|by exists n, row].
Qed.

Lemma scaled_fits c i : 0 <= i < extent_of td c -> int64 (stride_of td c * i) = Ok (stride_of td c * i).
Proof.
  intros Hi. unfold extent_of, stride_of in *. destruct (Z.le_gt_cases 0 (index_of L c)) as [Hc|Hc].
  - destruct (index_dim c Hc) as (n & s & E & _ & _ & _ & Hn & Hs & Hp). rewrite E in *. cbn in *.
    apply int64_ok. unfold in_s in *. nia.
  - by rewrite absent_dim.
Qed.

Lemma at_index_ok infos c i base : 0 <= i < extent_of td c ->
  at_index (extent_of td c) i (stride_or_0 (mkAccess td infos) (index_of L c)) base = Ok (base + stride_of td c * i).
Proof.
  intros Hi. unfold at_index. rewrite (proj2 (Z.leb_le 0 i)), (proj2 (Z.ltb_lt i _)) by lia. cbn [andb].
  rewrite stride_index. cbn [mbind outcome_bind]. by rewrite scaled_fits.
Qed.

Lemma first_channel : channel_first = true -> 0 <= index_of L LABEL_CHANNEL.
Proof.
  pose proof H as [_ [V _] _ _ _]. unfold channel_first. rewrite bool_decide_eq_true. intros E.
  destruct (Z.lt_ge_cases (index_of L LABEL_CHANNEL) 0) as [Hc|]; [|done]. apply index_None in Hc; [|done].
  exfalso. apply Hc. by eapply list_elem_of_lookup_2.
Qed.

Lemma planeStride_ok infos : m_cacheIsChannelFirst (infoLayout (pl_image infos)) = channel_first ->
  m_cacheIdxChannel (infoLayout (pl_image infos)) = index_of L LABEL_CHANNEL ->
  planeStride (mkAccess td infos) = Ok (if channel_first then stride_of td LABEL_CHANNEL else 0).
Proof.
  intros E1 E2. unfold planeStride. cbn [m_infoShape m_tdata]. rewrite E1, E2. destruct channel_first eqn:E; [|done].
  pose proof (stride_index LABEL_CHANNEL infos) as S. unfold stride_or_0 in S. pose proof (first_channel E) as Hc.
  rewrite (proj2 (Z.leb_le _ _) Hc) in *. exact S.
Qed.

(** The planes of an image with its channels last are one. *)
Lemma planeData_ok n row ch base : channel_first || channel_last = true -> 0 <= ch < extent_of td LABEL_CHANNEL ->
  planeData (mkAccess td (image_info n row)) (if channel_last then 0 else ch) base
  = Ok (base + (if channel_last then 0 else stride_of td LABEL_CHANNEL * ch)).
Proof.
  intros Hc Hch. unfold planeData. rewrite planeStride_ok by done. cbn [m_infoShape image_info numPlanes].
  destruct channel_last; [by destruct channel_first; unfold at_index; cbn [mbind outcome_bind]; rewrite Z.mul_0_r|].
  rewrite orb_false_r in Hc. rewrite Hc. unfold at_index.
  rewrite (proj2 (Z.leb_le 0 ch)), (proj2 (Z.ltb_lt ch _)) by lia. cbn [andb mbind outcome_bind]. by rewrite scaled_fits.
Qed.
End Access.

(** The coordinates of a pixel by label. *)
Definition coordinate (n ch z y x : Z) (c : ascii) : Z :=
  if ascii_dec c LABEL_BATCH then n else if ascii_dec c LABEL_CHANNEL then ch
  else if ascii_dec c LABEL_DEPTH then z else if ascii_dec c LABEL_HEIGHT then y else if ascii_dec c LABEL_WIDTH then x else 0.

Lemma extent_positive td c : Forall (fun d => 0 < d.1) (dims td) -> 0 < extent_of td c.
Proof.
  intros Hpos. unfold extent_of. destruct (dim_of td c) as [d|] eqn:E; [|done].
  unfold dim_of in E. destruct (list_index c (labels (layout td)) 0) as [i|]; [|done]. cbn in E.
  by apply (proj1 (Forall_lookup _ _) Hpos) in E.
Qed.

Lemma offset_of_pixel td n ch z y x : image_data td ->
  offset_at td (coordinate n ch z y x) = n * stride_of td LABEL_BATCH + ch * stride_of td LABEL_CHANNEL
    + z * stride_of td LABEL_DEPTH + y * stride_of td LABEL_HEIGHT + x * stride_of td LABEL_WIDTH.
Proof.
  intros [_ _ HN _ _]. rewrite offset_at_labels; [done..|]. intros c Hc. unfold coordinate.
  rewrite !not_elem_of_cons in Hc. destruct Hc as (? & ? & ? & ? & ? & _). by repeat destruct ascii_dec.
Qed.

Lemma pixel_in_tensor td n ch z y x : image_data td -> Forall (fun d => 0 < d.1) (dims td) ->
  0 <= n < extent_of td LABEL_BATCH -> 0 <= ch < extent_of td LABEL_CHANNEL ->
  0 <= z < extent_of td LABEL_DEPTH -> 0 <= y < extent_of td LABEL_HEIGHT -> 0 <= x < extent_of td LABEL_WIDTH ->
  offset_at td (coordinate n ch z y x) ∈ offs (dims td).
Proof.
  intros H Hpos Hn Hch Hz Hy Hx. pose proof H as [_ [V _] HN _ _]. pose proof (length_image_dims td H) as Hlen.
  apply offset_in_offs; [done|]. apply Forall2_same_length_lookup_2; [done|]. intros i c d Hc Hd.
  pose proof (proj1 (Forall_lookup _ _) Hpos _ _ Hd) as Hd0.
  assert (dim_of td c = Some d) as E.
  { unfold dim_of. rewrite (list_index_NoDup _ c (Z.of_nat i)); [cbn; by rewrite Nat2Z.id|done|lia|by rewrite Nat2Z.id]. }
  unfold extent_of in *. unfold coordinate.
  repeat match goal with |- context [ascii_dec ?a ?b] => destruct (ascii_dec a b) as [->|]; [by rewrite E in *|] end. lia.
Qed.

(** C30: an operator that takes a tensor in strided memory for planar images reads
    pixels of the tensor only. When the access to well-formed data is granted, its
    counts of samples, channels, rows and columns are the extents of the labels (a
    missing dimension has one element), and for every sample, channel, row and column
    in these counts the address found from the sample, the plane, the row, and from
    there by the strides of columns and channels, is computed without overflow or
    failed assertion; it is the address of the element of the tensor with those
    coordinates in the dimensions of those labels, first in all others. *)
Theorem image_access td a n ch y x :
  image_data td -> Forall (fun d => 0 < d.1) (dims td) -> TensorDataAccessStridedImagePlanar_Create td = Ok (Some a) ->
  let im := pl_image (m_infoShape a) in
  let last := m_cacheIsChannelLast (infoLayout im) in
  0 <= n < numSamples im -> 0 <= ch < numChannels im -> 0 <= y < size_h im -> 0 <= x < size_w im ->
  numSamples im = (if m_cacheIsBatch (li_base (infoLayout im)) then extent_of td LABEL_BATCH else 1)
  /\ numChannels im = extent_of td LABEL_CHANNEL /\ size_h im = extent_of td LABEL_HEIGHT /\ size_w im = extent_of td LABEL_WIDTH
  /\ exists s q r cs hs,
       sampleData a n (basePtr (buffer td)) = Ok s /\ planeData a (if last then 0 else ch) s = Ok q /\ rowData a y q = Ok r
       /\ colStride a = Ok cs /\ chStride a = Ok hs
       /\ r + x * cs + (if last then ch * hs else 0) = basePtr (buffer td) + offset_at td (coordinate n ch 0 y x)
       /\ offset_at td (coordinate n ch 0 y x) ∈ offs (dims td).
Proof.
  intros H Hpos HC im last. destruct (accepted_access td H a HC) as (Hw & Hc & k & row & ->).
  subst last im. cbn [m_infoShape pl_image image_info numSamples numChannels size_h size_w infoLayout m_cacheIsChannelLast li_base m_cacheIsBatch].
  intros Hn Hch Hy Hx. split_and!; [done..|].
  assert (0 <= n < extent_of td LABEL_BATCH /\ sampleData (mkAccess td (image_info td k row)) n (basePtr (buffer td))
    = Ok (basePtr (buffer td) + stride_of td LABEL_BATCH * n)) as [Hn' Es].
  { unfold sampleData, sampleStride. cbn [m_infoShape pl_image image_info numSamples infoLayout li_base m_cacheIdxSample].
    destruct (batched td) eqn:B; [split; [done|]; rewrite <- (batched_index td H B); by apply at_index_ok|].
    assert (n = 0) as -> by lia. split; [|rewrite Z.mul_0_r; reflexivity].
    pose proof (extent_positive td LABEL_BATCH Hpos). lia. }
  do 5 eexists. split; [exact Es|]. split; [by apply planeData_ok|].
  split; [by apply at_index_ok|]. split; [by apply stride_index|]. split; [by apply stride_index|].
  split; [|pose proof (extent_positive td LABEL_DEPTH Hpos); apply pixel_in_tensor; done || lia]. rewrite offset_of_pixel by done. destruct (channel_last td); ring.
Qed.

Module Concrete.

(** Data of two elements in every dimension, packed. *)
Definition twos (l : string) : NVCVTensorData :=
  let n := String.length l in
  mkTensorData 0 (NVCV_TENSOR_LAYOUT_MAKE l) (Z.of_nat n) (replicate n 2) NVCV_TENSOR_BUFFER_STRIDED_CUDA
    (mkTensorBuffer ((fun i => 2 ^ (Z.of_nat (n - 1 - i))) <$> seq 0 n) 4096).

(** The names of [nvcv/TensorLayoutDef.inc]. *)
Definition predefined_layouts : list string :=
  ["W"; "WC"; "CW"; "NW"; "NWC"; "NCW"; "HW"; "NHW"; "FHW"; "NFHW"; "CHW"; "NCHW"; "HWC"; "NHWC";
   "CFHW"; "FCHW"; "FHWC"; "NCFHW"; "NFCHW"; "NFHWC"; "DHW"; "NDHW"; "CDHW"; "DHWC"; "NCDHW"; "NDHWC";
   "FDHW"; "NFDHW"; "CFDHW"; "FCDHW"; "FDHWC"; "NCFDHW"; "NFCDHW"; "NFDHWC"]%string.

Definition granted (l : string) : bool :=
  match TensorDataAccessStridedImagePlanar_Create (twos l) with Ok (Some _) => true | _ => false end.

(** Channels before rows, next to frames or depth, are refused; all others are granted. *)
Example planar_layouts : filter (fun l => granted l = false) predefined_layouts =
  ["CFHW"; "FCHW"; "NCFHW"; "NFCHW"; "CDHW"; "NCDHW"; "CFDHW"; "FCDHW"; "NCFDHW"; "NFCDHW"]%string.
Proof. vm_compute. reflexivity. Qed.

Lemma nchw_image : image_data (twos "NCHW").
Proof.
  split.
  - reflexivity.
  - split; [vm_compute; repeat split; discriminate|reflexivity].
  - refine (bool_decide_unpack _ _). vm_compute. exact I.
  - cbn. lia.
  - refine (bool_decide_unpack _ _). vm_compute. exact I.
Defined.

Lemma image_access_witness : exists a, TensorDataAccessStridedImagePlanar_Create (twos "NCHW") = Ok (Some a)
  /\ exists s q r, sampleData a 1 4096 = Ok s /\ planeData a 1 s = Ok q /\ rowData a 0 q = Ok r /\ r + 1 = 4096 + 13.
Proof.
  destruct (TensorDataAccessStridedImagePlanar_Create (twos "NCHW")) as [[a|]| |] eqn:E; [|vm_compute in E; discriminate..].
  exists a. split; [reflexivity|]. pose proof E as E'. vm_compute in E'. injection E' as E'.
  destruct (image_access (twos "NCHW") a 1 1 0 1 nchw_image) as (_ & _ & _ & _ & s & q & r & cs & hs & Hs & Hq & Hr & Hc & Hh & Ha & _);
    [by repeat constructor|exact E|subst a; cbn; lia..|].
  change (offset_at (twos "NCHW") (coordinate 1 1 0 0 1)) with 13 in Ha.
  exists s, q, r. subst a. vm_compute in Hc. injection Hc as <-. cbn in Hq, Ha. split; [exact Hs|]. split; [exact Hq|]. split; [exact Hr|].
  change (basePtr (buffer (twos "NCHW"))) with 4096 in Ha. lia.
Defined.

(** A layout without columns passes the test for images; making the access then
    takes the value of an empty [Optional]. *)
Example image_test_too_weak : TensorDataAccessStridedImage_IsCompatible (twos "NC") = Ok true
  /\ TensorDataAccessStridedImage_Create (twos "NC") = Throw NVCV_ERROR_INTERNAL.
Proof. vm_compute. split; reflexivity. Qed.

(** The count of samples is cut to 32 bits. *)
Example samples_truncated :
  match TensorDataAccessStridedImagePlanar_Create (mkTensorData 0 (NVCV_TENSOR_LAYOUT_MAKE "NW") 2 [2 ^ 32 + 1; 1]
    NVCV_TENSOR_BUFFER_STRIDED_CUDA (mkTensorBuffer [1; 1] 4096)) with
  | Ok (Some a) => Some (numSamples (pl_image (m_infoShape a)))
  | _ => None
  end = Some 1.
Proof. vm_compute. reflexivity. Qed.
End Concrete.
