(* ===== verification/LabelHost.v ===== *)
(** * The host side of Label ([cvcuda/priv/OpLabel.cu], [cvcuda/priv/OpLabel.hpp])

    [Label::operator()] with its checks in their order, the switch over types, and
    [RunLabelForType] down to the launches: what a call passes to its kernels, or the
    error it ends with. A tensor is its exported data; an optional tensor may be a
    null handle. *)
From S2P Require Import Prelude TensorLayout Strides TensorData Predefined TensorView TensorAccess.
From stdpp Require Import options.

#[local] Open Scope Z_scope.
#[local] Set Default Proof Using "Type*".

Inductive NVCVConnectivityType :=
  NVCV_CONNECTIVITY_4_2D | NVCV_CONNECTIVITY_6_3D | NVCV_CONNECTIVITY_8_2D | NVCV_CONNECTIVITY_26_3D.
Inductive NVCVLabelType := NVCV_LABEL_FAST | NVCV_LABEL_SEQUENTIAL.

#[export] Instance NVCVConnectivityType_eq_dec : EqDecision NVCVConnectivityType.
Proof. solve_decision. Defined.
#[export] Instance NVCVLabelType_eq_dec : EqDecision NVCVLabelType.
Proof. solve_decision. Defined.

Definition NVCV_REMOVE_ISLANDS_OUTSIDE_MASK_ONLY : Z := 0.

Definition int_max : Z := 2 ^ 31 - 1.

(** The arguments of the operator. *)
Record LabelArgs := MkLabelArgs {
  a_in : NVCVTensorData; a_out : NVCVTensorData;
  a_bgLabel : option NVCVTensorData; a_minThresh : option NVCVTensorData; a_maxThresh : option NVCVTensorData;
  a_minSize : option NVCVTensorData; a_count : option NVCVTensorData; a_stats : option NVCVTensorData;
  a_mask : option NVCVTensorData;
  a_connectivity : NVCVConnectivityType; a_assignLabels : NVCVLabelType; a_maskType : Z }.

(** [WHDN]. *)
Record int4 := Int4 { i_x : Z; i_y : Z; i_z : Z; i_w : Z }.

(** ** Checks *)

(** [exportData] throws when the tensor is not in strided device memory. *)
Definition exportData (t : NVCVTensorData) : outcome (option NVCVTensorData) :=
  if strided t then Ok (Some t) else Throw NVCV_ERROR_INVALID_OPERATION.
Definition exported (t : NVCVTensorData) : outcome NVCVTensorData :=
  d ← exportData t; match d with Some d => Ok d | None => Throw NVCV_ERROR_INVALID_ARGUMENT end.

Definition allowed_layouts : list NVCVTensorLayout :=
  NVCV_TENSOR_LAYOUT_MAKE <$> ["HW"; "HWC"; "NHW"; "NHWC"; "DHW"; "DHWC"; "NDHW"; "NDHWC"]%string.

(** [a == b] on layouts and on shapes. *)
Definition layout_is (a b : NVCVTensorLayout) : outcome bool := c ← nvcvTensorLayoutCompare a b; Ok (c =? 0).
Fixpoint layout_in (a : NVCVTensorLayout) (l : list NVCVTensorLayout) : outcome bool :=
  match l with [] => Ok false | b :: l => e ← layout_is a b; if e : bool then Ok true else layout_in a l end.
Definition shape_eqb (a b : TensorShape) : outcome bool :=
  if bool_decide (m_shape a = m_shape b) then layout_is (ts_layout a) (ts_layout b) else Ok false.

Definition u32_or_s32 (t : NVCVTensorData) : bool :=
  bool_decide (dtype t = NVCV_DATA_TYPE_S32) || bool_decide (dtype t = NVCV_DATA_TYPE_U32).

(** One value per sample: [N], or [NC] with one channel. *)
Definition per_sample (N : Z) (t : NVCVTensorData) : outcome bool :=
  sh ← tdata_shape t;
  if td_rank t =? 1 then n ← rd (m_shape sh) 0; Ok (n =? N)
  else if td_rank t =? 2 then
    n ← rd (m_shape sh) 0;
    if n =? N then c ← rd (m_shape sh) 1; Ok (c =? 1) else Ok false
  else Ok false.

Definition planar_access (t : NVCVTensorData) : outcome TensorDataAccess :=
  d ← exported t;
  a ← TensorDataAccessStridedImagePlanar_Create d;
  match a with
  | None => Throw NVCV_ERROR_INVALID_ARGUMENT
  | Some a =>
      throw_if (negb (numChannels (pl_image (m_infoShape a)) =? 1)) NVCV_ERROR_INVALID_ARGUMENT (
      throw_if (negb (numPlanes (m_infoShape a) =? 1)) NVCV_ERROR_INVALID_ARGUMENT (Ok a))
  end.

(** Input and output. *)
Definition check_in_out (c : LabelArgs) : outcome int4 :=
  sh ← tdata_shape (a_in c);
  ok ← layout_in (ts_layout sh) allowed_layouts;
  throw_if (negb ok) NVCV_ERROR_INVALID_ARGUMENT (
  osh ← tdata_shape (a_out c);
  same ← shape_eqb sh osh;
  throw_if (negb same) NVCV_ERROR_INVALID_ARGUMENT (
  throw_if (negb (u32_or_s32 (a_out c))) NVCV_ERROR_INVALID_ARGUMENT (
  _ ← exported (a_in c);
  _ ← exported (a_out c);
  a ← planar_access (a_in c);
  let im := pl_image (m_infoShape a) in
  throw_if (int_max <? numSamples im) NVCV_ERROR_INVALID_ARGUMENT (
  Ok (Int4 (size_w im) (size_h im) 1 (numSamples im)))))).

Definition numDim_of (c : NVCVConnectivityType) : Z :=
  match c with NVCV_CONNECTIVITY_4_2D | NVCV_CONNECTIVITY_8_2D => 2 | _ => 3 end.

(** The depth, and the connectivity that goes with it. *)
Definition check_depth (c : LabelArgs) (inShape : int4) : outcome int4 :=
  sh ← tdata_shape (a_in c);
  inDepthIdx ← find (ts_layout sh) LABEL_DEPTH;
  let numDim := numDim_of (a_connectivity c) in
  if negb (inDepthIdx =? -1) then
    throw_if (numDim =? 2) NVCV_ERROR_INVALID_ARGUMENT (
    nvcv_assert ((0 <=? inDepthIdx) && (inDepthIdx <? Z.of_nat (length (m_shape sh)))) (
    inDepth ← rd (m_shape sh) inDepthIdx;
    throw_if (int_max <? inDepth) NVCV_ERROR_INVALID_ARGUMENT (
    Ok (Int4 (i_x inShape) (i_y inShape) (i32 inDepth) (i_w inShape)))))
  else throw_if (numDim =? 3) NVCV_ERROR_INVALID_ARGUMENT (Ok inShape).

(** The product is one of [int]. *)
Definition check_elems (s : int4) : outcome unit :=
  p ← int32 (i_x s * i_y s);
  numElems ← int32 (p * i_z s);
  throw_if (int_max <? numElems) NVCV_ERROR_INVALID_ARGUMENT (Ok tt).

(** A tensor with a value per sample, of a type that [good] accepts. *)
Definition check_param (N : Z) (good : NVCVTensorData -> bool) (t : option NVCVTensorData) : outcome unit :=
  match t with
  | None => Ok tt
  | Some t =>
      ok ← per_sample N t;
      throw_if (negb ok) NVCV_ERROR_INVALID_ARGUMENT (
      throw_if (negb (good t)) NVCV_ERROR_INVALID_ARGUMENT (Ok tt))
  end.

Definition check_stats (c : LabelArgs) (s : int4) : outcome unit :=
  match a_stats c with
  | Some stats =>
      throw_if (bool_decide (a_count c = None)) NVCV_ERROR_INVALID_ARGUMENT (
      sh ← tdata_shape stats;
      ok ← (if td_rank stats =? 3 then
              n ← rd (m_shape sh) 0;
              if n =? i_w s then A ← rd (m_shape sh) 2; Ok (A =? 3 + 2 * numDim_of (a_connectivity c)) else Ok false
            else Ok false);
      throw_if (negb ok) NVCV_ERROR_INVALID_ARGUMENT (
      throw_if (negb (u32_or_s32 stats)) NVCV_ERROR_INVALID_ARGUMENT (Ok tt)))
  | None => throw_if (bool_decide (a_assignLabels c = NVCV_LABEL_SEQUENTIAL)) NVCV_ERROR_INVALID_ARGUMENT (Ok tt)
  end.

Definition check_minSize (c : LabelArgs) (s : int4) : outcome unit :=
  match a_minSize c with
  | Some _ =>
      throw_if (bool_decide (a_bgLabel c = None) || bool_decide (a_stats c = None)) NVCV_ERROR_INVALID_ARGUMENT (
      check_param (i_w s) u32_or_s32 (a_minSize c))
  | None => Ok tt
  end.

Definition check_mask (c : LabelArgs) (s : int4) : outcome unit :=
  match a_mask c with
  | None => Ok tt
  | Some mask =>
      let outside := a_maskType c =? NVCV_REMOVE_ISLANDS_OUTSIDE_MASK_ONLY in
      throw_if (bool_decide (a_minSize c = None) && outside) NVCV_ERROR_INVALID_ARGUMENT (
      throw_if (negb outside) NVCV_ERROR_INVALID_ARGUMENT (
      a ← planar_access mask;
      let im := pl_image (m_infoShape a) in
      throw_if (negb ((numSamples im =? 1) || (numSamples im =? i_w s))) NVCV_ERROR_INVALID_ARGUMENT (
      throw_if (negb (size_w im =? i_x s)) NVCV_ERROR_INVALID_ARGUMENT (
      throw_if (negb (size_h im =? i_y s)) NVCV_ERROR_INVALID_ARGUMENT (
      sh ← tdata_shape mask;
      maskDepthIdx ← find (ts_layout sh) LABEL_DEPTH;
      _ ← (if negb (maskDepthIdx =? -1) then
             d ← rd (m_shape sh) maskDepthIdx;
             throw_if (negb (d =? i_z s)) NVCV_ERROR_INVALID_ARGUMENT (Ok tt)
           else throw_if (numDim_of (a_connectivity c) =? 3) NVCV_ERROR_INVALID_ARGUMENT (Ok tt));
      throw_if (negb (bool_decide (dtype mask = NVCV_DATA_TYPE_S8) || bool_decide (dtype mask = NVCV_DATA_TYPE_U8)))
        NVCV_ERROR_INVALID_ARGUMENT (Ok tt))))))
  end.

(** ** Launch *)

(** A view: base pointer and strides in bytes, 32 bits each; elements are packed in
    the last dimension. A mask comes with the number of its samples, the
    statistics with the number of rows of a sample. *)
Record LabelLaunch := MkLabelLaunch {
  l_numDim : Z; l_shape : int4; l_sizeofSrc : Z;
  srcWrap : TensorWrap; dstWrap : TensorWrap; mskWrap : option (TensorWrap * Z);
  bgLabelWrap : option Z; minThreshWrap : option Z; maxThreshWrap : option Z;
  minSizeWrap : option Z; countWrap : option Z;
  statsWrap : option (TensorWrap * Z);
  l_relabel : bool }.

(** [idsNDHW]: where the labels are in a layout. *)
Record ids4 := MkIds { idN : Z; idD : Z; idH : Z; idW : Z }.
Definition idsNDHW (td : NVCVTensorData) : outcome ids4 :=
  sh ← tdata_shape td;
  n ← find (ts_layout sh) LABEL_BATCH; d ← find (ts_layout sh) LABEL_DEPTH;
  h ← find (ts_layout sh) LABEL_HEIGHT; w ← find (ts_layout sh) LABEL_WIDTH;
  Ok (MkIds n d h w).

(** [stride > TypeTraits<int>::max], when there is such a dimension. *)
Definition too_big (td : NVCVTensorData) (idx : Z) : outcome bool :=
  if idx =? -1 then Ok false else s ← td_stride td idx; Ok (int_max <? s).

Definition strides_fit (td : NVCVTensorData) (ids : ids4) : outcome unit :=
  h ← td_stride td (idH ids);
  d ← (if int_max <? h then Ok true else too_big td (idD ids));
  n ← (if d : bool then Ok true else too_big td (idN ids));
  throw_if n NVCV_ERROR_INVALID_ARGUMENT (Ok tt).

(** The strides of samples, layers and rows of a view on images or volumes. A tensor
    without samples gets the product of the next stride and extent. *)
Definition view (numDim : Z) (td : NVCVTensorData) (ids : ids4) (s : int4) : outcome TensorWrap :=
  if numDim =? 2 then
    h ← td_stride td (idH ids);
    let h := i32 h in
    n ← (if idN ids =? -1 then int32 (h * i_y s) else n ← td_stride td (idN ids); Ok (i32 n));
    Ok (MkWrap (basePtr (buffer td)) [n; h])
  else
    d ← td_stride td (idD ids);
    h ← td_stride td (idH ids);
    let d := i32 d in
    n ← (if idN ids =? -1 then int32 (d * i_z s) else n ← td_stride td (idN ids); Ok (i32 n));
    Ok (MkWrap (basePtr (buffer td)) [n; d; i32 h]).

(** [NVCV_ASSERT(data.stride(ids.w) == sizeof(T))]. *)
Definition columns_packed (td : NVCVTensorData) (ids : ids4) (size : Z) : outcome unit :=
  w ← td_stride td (idW ids);
  nvcv_assert (w =? size) (Ok tt).

(** The number of samples of a mask, after the checks of its strides. *)
Definition mask_samples (m : NVCVTensorData) (ids : ids4) : outcome Z :=
  _ ← columns_packed m ids 1;
  _ ← strides_fit m ids;
  if idN ids =? -1 then Ok 1 else
  n ← td_shape m (idN ids);
  throw_if (int_max <? n) NVCV_ERROR_INVALID_ARGUMENT (Ok (i32 n)).

(** A view on the base pointer only: elements one after the other. *)
Definition arg_wrap (t : option NVCVTensorData) : outcome (option Z) :=
  match t with None => Ok None | Some t => d ← exported t; Ok (Some (basePtr (buffer d))) end.

Definition stats_wrap (t : option NVCVTensorData) : outcome (option (TensorWrap * Z)) :=
  match t with
  | None => Ok None
  | Some t =>
      d ← exported t;
      s0 ← td_stride d 0; s1 ← td_stride d 1; maxCapacity ← td_shape d 1;
      Ok (Some (MkWrap (basePtr (buffer d)) [i32 s0; i32 s1], i32 maxCapacity))
  end.

(** [RunLabelForType<SrcT>], where [size] is [sizeof(SrcT)]; labels are [uint32_t]
    and masks [uint8_t]. The counters of the samples are cleared before the launches
    ([cudaMemsetAsync]). *)
Definition RunLabelForType (size : Z) (c : LabelArgs) (s : int4) : outcome LabelLaunch :=
  let numDim := numDim_of (a_connectivity c) in
  ids ← idsNDHW (a_in c);
  _ ← columns_packed (a_in c) ids size;
  _ ← columns_packed (a_out c) ids 4;
  _ ← strides_fit (a_in c) ids;
  _ ← strides_fit (a_out c) ids;
  mask ← match a_mask c with
         | None => Ok None
         | Some m => m ← exported m; mids ← idsNDHW m; maskN ← mask_samples m mids; Ok (Some (m, mids, maskN))
         end;
  bg ← arg_wrap (a_bgLabel c);
  mn ← arg_wrap (a_minThresh c);
  mx ← arg_wrap (a_maxThresh c);
  ms ← arg_wrap (a_minSize c);
  cnt ← arg_wrap (a_count c);
  st ← stats_wrap (a_stats c);
  src ← view numDim (a_in c) ids s;
  dst ← view numDim (a_out c) ids s;
  msk ← match mask with None => Ok None | Some (m, mids, maskN) => v ← view numDim m mids s; Ok (Some (v, maskN)) end;
  Ok (MkLabelLaunch numDim s size src dst msk bg mn mx ms cnt st (bool_decide (a_assignLabels c = NVCV_LABEL_SEQUENTIAL))).

(** [sizeof(T)] of the types the switch of [RunLabel] has a case for. *)
Definition case_size (dt : Z) : option Z :=
  if bool_decide (dt = NVCV_DATA_TYPE_U8) then Some 1
  else if bool_decide (dt = NVCV_DATA_TYPE_U16) then Some 2
  else if bool_decide (dt = NVCV_DATA_TYPE_U32) then Some 4
  else if bool_decide (dt = NVCV_DATA_TYPE_S8) then Some 1
  else if bool_decide (dt = NVCV_DATA_TYPE_S16) then Some 2
  else if bool_decide (dt = NVCV_DATA_TYPE_S32) then Some 4
  else None.

Definition RunLabel (c : LabelArgs) (s : int4) : outcome LabelLaunch :=
  match case_size (dtype (a_in c)) with
  | Some size => RunLabelForType size c s
  | None => Throw NVCV_ERROR_INVALID_ARGUMENT
  end.

(** [Label::operator()]. *)
Definition Label_call (c : LabelArgs) : outcome LabelLaunch :=
  let same_type t := bool_decide (dtype t = dtype (a_in c)) in
  s ← check_in_out c;
  s ← check_depth c s;
  _ ← check_elems s;
  _ ← check_param (i_w s) same_type (a_bgLabel c);
  _ ← check_param (i_w s) same_type (a_minThresh c);
  _ ← check_param (i_w s) same_type (a_maxThresh c);
  _ ← check_param (i_w s) u32_or_s32 (a_count c);
  _ ← check_stats c s;
  _ ← check_minSize c s;
  _ ← check_mask c s;
  throw_if (bool_decide (a_connectivity c = NVCV_CONNECTIVITY_8_2D) || bool_decide (a_connectivity c = NVCV_CONNECTIVITY_26_3D))
    NVCV_ERROR_INVALID_ARGUMENT (RunLabel c s).
