(* ===== verification/LabelCall.v ===== *)
(** * What a call of Label passes to its kernels ([cvcuda/priv/OpLabel.cu])

    A call the operator accepts launches its kernels on samples for which the
    theorems on the kernels hold: the shapes and strides that reach them, and the
    addresses they form, are those of the elements of the tensors. *)
From S2P Require Import Prelude TensorLayout Strides TensorData Border TensorView TensorAccess LabelHost.
From stdpp Require Import options.

#[local] Open Scope Z_scope.
#[local] Set Default Proof Using "Type*".

(** Indices that are numerals. *)
Ltac nat_constants :=
  repeat match goal with |- context [Z.to_nat ?k] => let v := eval vm_compute in (Z.to_nat k) in change (Z.to_nat k) with v in * end.

(** ** Layouts *)

Lemma memcmp_equal a b : length a = length b -> memcmp a b = 0 -> a = b.
Proof.
  revert b. induction a as [|x a IH]; intros [|y b]; cbn; intros Hl; try done.
  destruct (Ascii.ascii_dec x y) as [->|]; [intros E; f_equal; apply IH; [lia|done]|]. by destruct (_ <? _)%N.
Qed.

Lemma layout_is_labels a b : valid_layout a -> valid_layout b -> layout_is a b = Ok true -> labels a = labels b.
Proof.
  intros Va Vb E. pose proof Va as [[A1 A2] A3]. pose proof Vb as [[B1 B2] B3]. unfold layout_is, nvcvTensorLayoutCompare in E.
  unfold NVCV_TENSOR_MAX_RANK in *. destruct (Z.eqb_spec (rank a) (rank b)) as [Er|Er].
  - rewrite !copy_range_ok in E by lia. cbn [mbind outcome_bind] in E. injection E as E. apply Z.eqb_eq, memcmp_equal in E.
    + rewrite !Z.sub_0_r in E. exact E.
    + rewrite !length_take, !length_drop. lia.
  - rewrite int32_ok in E by (unfold in_s; lia). injection E as E. apply Z.eqb_eq in E. lia.
Qed.

Definition allowed_labels : list (list Ascii.ascii) := labels <$> allowed_layouts.

Lemma layout_in_labels a l : valid_layout a -> Forall valid_layout l -> layout_in a l = Ok true -> labels a ∈ labels <$> l.
Proof.
  intros Va. induction 1 as [|b l Vb HF IH]; cbn [layout_in]; [done|]. intros E. apply bind_Ok in E as ([|] & E1 & E2).
  - cbn. rewrite (layout_is_labels a b) by done. left.
  - right. by apply IH.
Qed.

(** ** Tensors of images *)

(** Well-formed data: elements of [es] bytes, each dimension leaves room for what it
    contains, strides are whole elements, and all is within the reach of an [int]. *)
Record placed (es : Z) (td : NVCVTensorData) : Prop := {
  pl_data : image_data td;
  pl_nested : nested es (dims td);
  pl_multiple : Forall (fun d => (es | d.2)) (dims td);
  pl_bytes : span es (dims td) < 2 ^ 31 }.

(** What a sample takes. *)
Definition pitch2 (td : NVCVTensorData) : Z :=
  if 0 <=? index_of (layout td) LABEL_BATCH then stride_of td LABEL_BATCH else extent_of td LABEL_HEIGHT * stride_of td LABEL_HEIGHT.
Definition pitch3 (td : NVCVTensorData) : Z :=
  if 0 <=? index_of (layout td) LABEL_BATCH then stride_of td LABEL_BATCH else extent_of td LABEL_DEPTH * stride_of td LABEL_DEPTH.

Lemma nested_positive es ds : nested es ds -> Forall (fun d => 0 < d.1) ds.
Proof. induction ds as [|[n s] ds IH]; cbn; [constructor|]. intros (? & _ & ?). constructor; [done|by apply IH]. Qed.

Section Placed.
Variables (es : Z) (td : NVCVTensorData).
Hypothesis Hp : placed es td.
Hypothesis Hes : 0 < es.
Hypothesis HL : labels (layout td) ∈ allowed_labels.
Hypothesis HW : stride_of td LABEL_WIDTH = es.

Ltac by_layout :=
  pose proof (length_image_dims td (pl_data _ _ Hp)) as Hlen; destruct Hp as [Hd Hn Hm Hb];
  unfold pitch2, pitch3, extent_of, stride_of, dim_of, index_of in *;
  repeat (apply elem_of_cons in HL as [HL|HL]; [|]); try by apply not_elem_of_nil in HL.

Lemma placed_layout :
  0 <= index_of (layout td) LABEL_HEIGHT /\ 0 <= index_of (layout td) LABEL_WIDTH /\
  (index_of (layout td) LABEL_BATCH < 0 -> extent_of td LABEL_BATCH = 1) /\
  es * extent_of td LABEL_WIDTH <= stride_of td LABEL_HEIGHT /\ (es | stride_of td LABEL_HEIGHT) /\
  (index_of (layout td) LABEL_DEPTH < 0 ->
     extent_of td LABEL_HEIGHT * stride_of td LABEL_HEIGHT <= pitch2 td /\ extent_of td LABEL_BATCH * pitch2 td < 2 ^ 31) /\
  (0 <= index_of (layout td) LABEL_DEPTH ->
     extent_of td LABEL_HEIGHT * stride_of td LABEL_HEIGHT <= stride_of td LABEL_DEPTH /\ (es | stride_of td LABEL_DEPTH) /\
     extent_of td LABEL_DEPTH * stride_of td LABEL_DEPTH <= pitch3 td /\ extent_of td LABEL_BATCH * pitch3 td < 2 ^ 31).
Proof.
  by_layout.
  all: destruct (dims td) as [|[n1 s1] [|[n2 s2] [|[n3 s3] [|[n4 s4] [|[n5 s5] [|]]]]]]; rewrite HL in *; try done.
  all: repeat match goal with Hx : Forall _ (_ :: _) |- _ => apply Forall_cons in Hx as [? Hx] end.
  all: repeat match goal with |- context [list_index ?c (labels ?l) 0] =>
         let v := eval vm_compute in (list_index c (labels l) 0) in change (list_index c (labels l) 0) with v in * end.
  all: cbn in *.
  all: nat_constants.
  all: cbn in *; subst es; split_and!; intros; try (done || lia || nia).
  all: split_and!; done || lia.
Qed.
End Placed.

(** ** Addresses *)

Lemma add_step_ok o c s : 0 <= o -> 0 <= c * s -> o + c * s < 2 ^ 31 -> add_step 32 o c s = Ok (o + c * s).
Proof. intros Ho Hp Hb. unfold add_step. rewrite sint_ok by (unfold in_s; lia). cbn [mbind outcome_bind]. apply sint_ok. unfold in_s. lia. Qed.

Lemma ptr_images es base n h z y x : es = 1 \/ es = 2 \/ es = 4 -> 0 <= z * n -> 0 <= y * h -> 0 <= x ->
  z * n + y * h + x * es < 2 ^ 31 -> doGetPtr 32 [-1; -1; es] (MkWrap base [n; h]) [z; y; x] = Ok (base + (z * n + y * h + x * es)).
Proof.
  intros He Hz Hy Hx Hb. unfold doGetPtr. assert (0 <= x * es) by lia.
  assert (kVariableStrides [-1; -1; es] = 2) as -> by (destruct He as [->|[->| ->]]; reflexivity).
  change (zrange 0 _) with [0; 1]. change (zrange 2 _) with [2]. cbn -[add_step]. nat_constants. cbn -[add_step].
  do 3 (rewrite add_step_ok by lia; cbn [mbind outcome_bind]). f_equal; lia.
Qed.

Lemma ptr_volumes es base n d h w z y x : es = 1 \/ es = 2 \/ es = 4 -> 0 <= w * n -> 0 <= z * d -> 0 <= y * h -> 0 <= x ->
  w * n + z * d + y * h + x * es < 2 ^ 31 ->
  doGetPtr 32 [-1; -1; -1; es] (MkWrap base [n; d; h]) [w; z; y; x] = Ok (base + (w * n + z * d + y * h + x * es)).
Proof.
  intros He Hw Hz Hy Hx Hb. unfold doGetPtr. assert (0 <= x * es) by lia.
  assert (kVariableStrides [-1; -1; -1; es] = 3) as -> by (destruct He as [->|[->| ->]]; reflexivity).
  change (zrange 0 _) with [0; 1; 2]. change (zrange 3 _) with [3]. cbn -[add_step]. nat_constants. cbn -[add_step].
  do 4 (rewrite add_step_ok by lia; cbn [mbind outcome_bind]). f_equal; lia.
Qed.

(** ** The views *)

Definition ids_of (td : NVCVTensorData) : ids4 :=
  MkIds (index_of (layout td) LABEL_BATCH) (index_of (layout td) LABEL_DEPTH)
    (index_of (layout td) LABEL_HEIGHT) (index_of (layout td) LABEL_WIDTH).

Lemma idsNDHW_ok td : image_data td -> idsNDHW td = Ok (ids_of td).
Proof.
  intros H. pose proof H as [_ [V _] _ _ _]. unfold idsNDHW. rewrite shape_ok by done. cbn [mbind outcome_bind ts_layout].
  by rewrite !find_index by done.
Qed.

Lemma index_absent td c : index_of (layout td) c < 0 -> index_of (layout td) c = -1.
Proof.
  unfold index_of. destruct (list_index c (labels (layout td)) 0) as [i|] eqn:E; [|done].
  apply list_index_Some in E as [? _]. cbn. lia.
Qed.

Lemma factor_small a b B : 1 <= a -> 0 <= b -> a * b < B -> 0 <= b < B.
Proof. nia. Qed.

Lemma product_nonneg a b : 1 <= a -> 0 <= b -> 0 <= a * b.
Proof. nia. Qed.

Section Views.
Variables (es : Z) (td : NVCVTensorData).
Hypothesis Hp : placed es td.
Hypothesis Hes : 0 < es.
Hypothesis HL : labels (layout td) ∈ allowed_labels.
Hypothesis HW : stride_of td LABEL_WIDTH = es.

Lemma extent_1 c : 1 <= extent_of td c.
Proof. pose proof (extent_positive td c (nested_positive _ _ (pl_nested _ _ Hp))). lia. Qed.

Lemma pitch_or_product numDim prev n :
  (if idN (ids_of td) =? -1 then int32 (prev * n) else n ← td_stride td (idN (ids_of td)); Ok (i32 n)) = Ok numDim ->
  numDim = if 0 <=? index_of (layout td) LABEL_BATCH then i32 (stride_of td LABEL_BATCH) else prev * n.
Proof.
  cbn [idN ids_of]. destruct (Z.leb_spec 0 (index_of (layout td) LABEL_BATCH)) as [H|H].
  - rewrite (proj2 (Z.eqb_neq _ _)) by lia. rewrite td_stride_index by (done || apply Hp). by intros [= <-].
  - rewrite (index_absent td _ H). cbn. unfold int32. destruct (bool_decide _); [by intros [= <-]|done].
Qed.

(** All strides are those of positive products below 2^31. *)
Lemma image_strides : index_of (layout td) LABEL_DEPTH < 0 ->
  0 <= stride_of td LABEL_HEIGHT < 2 ^ 31 /\ 0 <= pitch2 td < 2 ^ 31.
Proof.
  intros HD. destruct (placed_layout es td Hp Hes HL HW) as (_ & _ & _ & Hr & _ & H2 & _). destruct (H2 HD) as [H3 H4].
  pose proof (extent_1 LABEL_BATCH). pose proof (extent_1 LABEL_HEIGHT). pose proof (extent_1 LABEL_WIDTH).
  assert (0 <= stride_of td LABEL_HEIGHT) by nia. pose proof (product_nonneg _ _ H0 H5).
  assert (0 <= pitch2 td < 2 ^ 31) by (eapply factor_small; [exact H| |exact H4]; lia).
  split; [|done]. eapply factor_small; [exact H0|done|]. lia.
Qed.

Lemma volume_strides : 0 <= index_of (layout td) LABEL_DEPTH ->
  0 <= stride_of td LABEL_HEIGHT < 2 ^ 31 /\ 0 <= stride_of td LABEL_DEPTH < 2 ^ 31 /\ 0 <= pitch3 td < 2 ^ 31.
Proof.
  intros HD. destruct (placed_layout es td Hp Hes HL HW) as (_ & _ & _ & Hr & _ & _ & H2). destruct (H2 HD) as (H3 & _ & H4 & H5).
  pose proof (extent_1 LABEL_BATCH) as N1. pose proof (extent_1 LABEL_HEIGHT) as H1. pose proof (extent_1 LABEL_WIDTH) as W1.
  pose proof (extent_1 LABEL_DEPTH) as D1.
  assert (0 <= stride_of td LABEL_HEIGHT) as P1 by nia. pose proof (product_nonneg _ _ H1 P1) as P2.
  assert (0 <= stride_of td LABEL_DEPTH) as P3 by lia. pose proof (product_nonneg _ _ D1 P3) as P4.
  assert (0 <= pitch3 td < 2 ^ 31) as P5 by (eapply factor_small; [exact N1| |exact H5]; lia).
  assert (0 <= stride_of td LABEL_DEPTH < 2 ^ 31) as P6 by (eapply factor_small; [exact D1|done|]; lia).
  split_and!; try apply P5; try apply P6; [done|]. eapply factor_small; [exact H1|done|]. lia.
Qed.

Lemma view_images s w : index_of (layout td) LABEL_DEPTH < 0 -> i_y s = extent_of td LABEL_HEIGHT ->
  view 2 td (ids_of td) s = Ok w -> w = MkWrap (basePtr (buffer td)) [pitch2 td; stride_of td LABEL_HEIGHT].
Proof.
  intros HD Hy E. destruct (placed_layout es td Hp Hes HL HW) as (Hh & _). destruct (image_strides HD) as [Sh Sn].
  unfold view in E. change (2 =? 2) with true in E. cbn [idH ids_of] in E.
  rewrite td_stride_index in E by (done || apply Hp). cbn [mbind outcome_bind] in E.
  rewrite i32_small in E by lia. apply bind_Ok in E as (n & En & E). apply pitch_or_product in En. injection E as <-.
  rewrite En, Hy. unfold pitch2 in *. revert Sn.
  destruct (0 <=? index_of (layout td) LABEL_BATCH); intros; [by rewrite i32_small by lia|by rewrite Z.mul_comm].
Qed.

Lemma view_volumes s w : 0 <= index_of (layout td) LABEL_DEPTH -> i_z s = extent_of td LABEL_DEPTH ->
  view 3 td (ids_of td) s = Ok w -> w = MkWrap (basePtr (buffer td)) [pitch3 td; stride_of td LABEL_DEPTH; stride_of td LABEL_HEIGHT].
Proof.
  intros HD Hz E. destruct (placed_layout es td Hp Hes HL HW) as (Hh & _). destruct (volume_strides HD) as (Sh & Sd & Sn).
  unfold view in E. change (3 =? 2) with false in E. cbn [idH idD ids_of] in E.
  rewrite !td_stride_index in E by (done || apply Hp). cbn [mbind outcome_bind] in E.
  rewrite !i32_small in E by lia. apply bind_Ok in E as (n & En & E). apply pitch_or_product in En. injection E as <-.
  rewrite En, Hz. unfold pitch3 in *. revert Sn.
  destruct (0 <=? index_of (layout td) LABEL_BATCH); intros; [by rewrite i32_small by lia|by rewrite Z.mul_comm].
Qed.

Lemma stride_absent c : index_of (layout td) c < 0 -> stride_of td c = 0.
Proof. intros Hc. unfold stride_of. by rewrite absent_dim by (done || apply Hp). Qed.

Lemma below_product i n s : 0 <= i < n -> 0 <= s -> 0 <= i * s /\ i * s + s <= n * s.
Proof. nia. Qed.

(** The element at some coordinates, where the view says. *)
Lemma image_address z y x : es = 1 \/ es = 2 \/ es = 4 -> index_of (layout td) LABEL_DEPTH < 0 ->
  0 <= z < extent_of td LABEL_BATCH -> 0 <= y < extent_of td LABEL_HEIGHT -> 0 <= x < extent_of td LABEL_WIDTH ->
  let o := offset_at td (coordinate z 0 0 y x) in
  doGetPtr 32 [-1; -1; es] (MkWrap (basePtr (buffer td)) [pitch2 td; stride_of td LABEL_HEIGHT]) [z; y; x]
    = Ok (basePtr (buffer td) + o)
  /\ o ∈ offs (dims td) /\ o = z * pitch2 td + (y * stride_of td LABEL_HEIGHT + x * es).
Proof.
  intros Hc HD Hz Hy Hx o. destruct (placed_layout es td Hp Hes HL HW) as (_ & _ & HN & Hr & _ & H2 & _). destruct (H2 HD) as [H3 H4].
  destruct (image_strides HD) as [Sh Sn].
  destruct (below_product z _ _ Hz (proj1 Sn)), (below_product y _ _ Hy (proj1 Sh)), (below_product x _ es Hx ltac:(lia)).
  assert (o = z * pitch2 td + (y * stride_of td LABEL_HEIGHT + x * es)) as Eo.
  { unfold o. rewrite offset_of_pixel, HW by apply Hp. unfold pitch2. destruct (Z.leb_spec 0 (index_of (layout td) LABEL_BATCH)); [lia|].
    rewrite (HN ltac:(done)) in Hz. replace z with 0 by lia. lia. }
  split; [|split; [|done]].
  - rewrite ptr_images by (done || lia). rewrite Eo. f_equal. lia.
  - pose proof (extent_1 LABEL_CHANNEL). pose proof (extent_1 LABEL_DEPTH).
    apply pixel_in_tensor; try lia; [apply Hp|]. eapply nested_positive, Hp.
Qed.

Lemma volume_address w z y x : es = 1 \/ es = 2 \/ es = 4 -> 0 <= index_of (layout td) LABEL_DEPTH ->
  0 <= w < extent_of td LABEL_BATCH -> 0 <= z < extent_of td LABEL_DEPTH -> 0 <= y < extent_of td LABEL_HEIGHT ->
  0 <= x < extent_of td LABEL_WIDTH ->
  let o := offset_at td (coordinate w 0 z y x) in
  doGetPtr 32 [-1; -1; -1; es] (MkWrap (basePtr (buffer td)) [pitch3 td; stride_of td LABEL_DEPTH; stride_of td LABEL_HEIGHT]) [w; z; y; x]
    = Ok (basePtr (buffer td) + o)
  /\ o ∈ offs (dims td) /\ o = w * pitch3 td + (z * stride_of td LABEL_DEPTH + y * stride_of td LABEL_HEIGHT + x * es).
Proof.
  intros Hc HD Hw Hz Hy Hx o. destruct (placed_layout es td Hp Hes HL HW) as (_ & _ & HN & Hr & _ & _ & H2). destruct (H2 HD) as (H3 & _ & H4 & H5).
  destruct (volume_strides HD) as (Sh & Sd & Sn).
  destruct (below_product w _ _ Hw (proj1 Sn)), (below_product z _ _ Hz (proj1 Sd)), (below_product y _ _ Hy (proj1 Sh)), (below_product x _ es Hx ltac:(lia)).
  assert (o = w * pitch3 td + (z * stride_of td LABEL_DEPTH + y * stride_of td LABEL_HEIGHT + x * es)) as Eo.
  { unfold o. rewrite offset_of_pixel, HW by apply Hp. unfold pitch3. destruct (Z.leb_spec 0 (index_of (layout td) LABEL_BATCH)); [lia|].
    rewrite (HN ltac:(done)) in Hw. replace w with 0 by lia. lia. }
  split; [|split; [|done]].
  - rewrite ptr_volumes by (done || lia). rewrite Eo. f_equal. lia.
  - pose proof (extent_1 LABEL_CHANNEL). apply pixel_in_tensor; try lia; [apply Hp|]. eapply nested_positive, Hp.
Qed.
End Views.

(** ** What an accepted call has passed *)

(** A check that was passed, a step that succeeded. *)
Ltac passed H :=
  lazymatch type of H with
  | throw_if _ _ _ = Ok _ => apply throw_if_Ok in H as [? H]
  | nvcv_assert _ _ = Ok _ => apply nvcv_assert_Ok in H as [? H]
  | (_ ≫= _) = Ok _ => let x := fresh "x" in let E := fresh "E" in apply bind_Ok in H as (x & E & H)
  end.

Lemma same_labels a b c : labels a = labels b -> index_of a c = index_of b c.
Proof. unfold index_of. by intros ->. Qed.

Lemma same_extents td td' c : image_data td -> image_data td' -> labels (layout td) = labels (layout td') ->
  m_shape (image_shape td) = m_shape (image_shape td') -> extent_of td c = extent_of td' c.
Proof.
  intros H H' Hl Hs. destruct (Z.le_gt_cases 0 (index_of (layout td) c)) as [Hc|Hc].
  - destruct (extent_index td H c Hc) as [E _]. pose proof Hc as Hc'. rewrite (same_labels _ _ c Hl) in Hc'.
    destruct (extent_index td' H' c Hc') as [E' _]. cbn in Hs. rewrite Hs, (same_labels _ _ c Hl), E' in E. congruence.
  - unfold extent_of. rewrite !absent_dim; [done|done| |done|done]. by rewrite <- (same_labels _ _ c Hl).
Qed.

Lemma allowed_batch td : labels (layout td) ∈ allowed_labels -> batched td = false -> index_of (layout td) LABEL_BATCH < 0.
Proof.
  unfold batched, index_of. intros HL. repeat (apply elem_of_cons in HL as [->|HL]; [by vm_compute|]). by apply not_elem_of_nil in HL.
Qed.

Lemma planar_access_passed td a : image_data td -> planar_access td = Ok a -> exists n row, a = mkAccess td (image_info td n row).
Proof.
  intros H E. pose proof H as [K _ _ _ _]. unfold planar_access, exported, exportData, strided in E.
  rewrite bool_decide_eq_true_2 in E by done. cbn [mbind outcome_bind] in E. passed E. destruct x as [b|]; [|done].
  passed E. passed E. injection E as ->. destruct (accepted_access td H a ltac:(done)) as (_ & _ & n & row & ->). by exists n, row.
Qed.

Lemma batch_extent td : image_data td -> labels (layout td) ∈ allowed_labels ->
  (if batched td then extent_of td LABEL_BATCH else 1) = extent_of td LABEL_BATCH.
Proof.
  intros H HL. destruct (batched td) eqn:B; [done|]. apply allowed_batch in B; [|done]. unfold extent_of. by rewrite absent_dim.
Qed.

Section Accepted.
Variable c : LabelArgs.
Hypothesis Hin : image_data (a_in c).
Hypothesis Hout : image_data (a_out c).

Lemma in_out_passed s : check_in_out c = Ok s ->
  labels (layout (a_in c)) ∈ allowed_labels /\ labels (layout (a_out c)) = labels (layout (a_in c))
  /\ (forall l, extent_of (a_out c) l = extent_of (a_in c) l)
  /\ s = Int4 (extent_of (a_in c) LABEL_WIDTH) (extent_of (a_in c) LABEL_HEIGHT) 1 (extent_of (a_in c) LABEL_BATCH).
Proof.
  pose proof Hin as [_ [V _] _ _ _]. pose proof Hout as [_ [V' _] _ _ _].
  unfold check_in_out. rewrite !shape_ok by done. cbn [mbind outcome_bind ts_layout]. intros E. do 5 passed E.
  do 2 (apply bind_Ok in E as (? & _ & E)). passed E. passed E. injection E as <-.
  destruct x, x0; try done. apply layout_in_labels in E0; [|done|by vm_compute; repeat constructor].
  unfold shape_eqb in E1. cbn [m_shape ts_layout] in E1. destruct (bool_decide _) eqn:Es; [|done]. apply bool_decide_eq_true in Es.
  apply layout_is_labels in E1; [|done..]. destruct (planar_access_passed _ _ Hin E2) as (n & row & ->).
  split_and!; [done|done|intros l; symmetry; by apply same_extents|]. cbn. by rewrite batch_extent.
Qed.

Lemma depth_passed s s' : check_depth c s = Ok s' -> i_z s = 1 ->
  (numDim_of (a_connectivity c) = if 0 <=? index_of (layout (a_in c)) LABEL_DEPTH then 3 else 2)
  /\ s' = Int4 (i_x s) (i_y s) (extent_of (a_in c) LABEL_DEPTH) (i_w s).
Proof.
  pose proof Hin as [_ [V _] _ _ _]. unfold check_depth. rewrite shape_ok by done. cbn [mbind outcome_bind ts_layout]. rewrite find_index by done.
  cbn [mbind outcome_bind]. destruct (Z.leb_spec 0 (index_of (layout (a_in c)) LABEL_DEPTH)) as [HD|HD].
  - rewrite (proj2 (Z.eqb_neq _ _)) by lia. cbn [negb]. intros E _. do 2 passed E. cbn [m_shape] in E.
    destruct (extent_index _ Hin LABEL_DEPTH HD) as [Er Hr]. rewrite Er in E. cbn [mbind outcome_bind] in E. passed E.
    injection E as <-. rewrite i32_small by lia. split; [by destruct (a_connectivity c)|done].
  - rewrite (index_absent _ _ HD), Z.eqb_refl. cbn [negb]. intros E Hz. passed E. injection E as <-.
    split; [by destruct (a_connectivity c)|]. unfold extent_of at 1. rewrite absent_dim by done. rewrite <- Hz. by destruct s.
Qed.

Lemma arg_wrap_is t w : arg_wrap t = Ok w -> w = basePtr ∘ buffer <$> t.
Proof.
  destruct t as [t|]; cbn; [|by intros [= <-]]. unfold exported, exportData. destruct (strided t); cbn; [by intros [= <-]|done].
Qed.

Lemma case_size_is dt size : case_size dt = Some size -> size = 1 \/ size = 2 \/ size = 4.
Proof. unfold case_size. repeat case_bool_decide; intros [= <-]; lia. Qed.

(** The parts of a launch. *)
Lemma launch_passed size s r : RunLabelForType size c s = Ok r -> labels (layout (a_out c)) = labels (layout (a_in c)) ->
  0 <= index_of (layout (a_in c)) LABEL_WIDTH ->
  stride_of (a_in c) LABEL_WIDTH = size /\ stride_of (a_out c) LABEL_WIDTH = 4
  /\ view (numDim_of (a_connectivity c)) (a_in c) (ids_of (a_in c)) s = Ok (srcWrap r)
  /\ view (numDim_of (a_connectivity c)) (a_out c) (ids_of (a_out c)) s = Ok (dstWrap r)
  /\ l_numDim r = numDim_of (a_connectivity c) /\ l_shape r = s /\ l_sizeofSrc r = size
  /\ bgLabelWrap r = basePtr ∘ buffer <$> a_bgLabel c /\ minThreshWrap r = basePtr ∘ buffer <$> a_minThresh c
  /\ maxThreshWrap r = basePtr ∘ buffer <$> a_maxThresh c /\ minSizeWrap r = basePtr ∘ buffer <$> a_minSize c
  /\ countWrap r = basePtr ∘ buffer <$> a_count c /\ stats_wrap (a_stats c) = Ok (statsWrap r)
  /\ l_relabel r = bool_decide (a_assignLabels c = NVCV_LABEL_SEQUENTIAL).
Proof.
  unfold RunLabelForType. rewrite idsNDHW_ok by done. cbn [mbind outcome_bind]. intros E Hl Hw.
  assert (ids_of (a_in c) = ids_of (a_out c)) as Ei by (unfold ids_of; by rewrite !(same_labels _ _ _ Hl)).
  do 2 passed E. unfold columns_packed in E0, E1. rewrite Ei in E1. cbn [idW ids_of] in E0, E1.
  rewrite td_stride_index in E0, E1 by (done || by rewrite (same_labels _ _ _ Hl)). cbn [mbind outcome_bind] in E0, E1. passed E0. passed E1.
  do 3 (apply bind_Ok in E as (? & _ & E)). do 5 (apply bind_Ok in E as (? & ?%arg_wrap_is & E)).
  do 4 passed E. injection E as <-. cbn. rewrite <- Ei. split_and!; done || lia.
Qed.
End Accepted.

(** Which optional tensors come together. *)
Lemma statistics_passed c s r size : check_stats c s = Ok tt -> check_minSize c s = Ok tt -> RunLabelForType size c s = Ok r ->
  image_data (a_in c) -> image_data (a_out c) -> labels (layout (a_out c)) = labels (layout (a_in c)) ->
  0 <= index_of (layout (a_in c)) LABEL_WIDTH ->
  (is_Some (minSizeWrap r) -> is_Some (bgLabelWrap r) /\ is_Some (statsWrap r))
  /\ (is_Some (statsWrap r) -> is_Some (countWrap r)) /\ (l_relabel r = true -> is_Some (statsWrap r))
  /\ forall t, a_stats c = Some t -> td_rank t = 3 /\ shape t !! 0%nat = Some (i_w s)
       /\ shape t !! 2%nat = Some (3 + 2 * numDim_of (a_connectivity c)).
Proof.
  intros Est Ems Er Hin Hout Hl Hw.
  destruct (launch_passed c Hin Hout size s r Er Hl Hw) as (_ & _ & _ & _ & _ & _ & _ & -> & _ & _ & -> & -> & Ew & ->).
  assert (is_Some (statsWrap r) <-> is_Some (a_stats c)) as Hs.
  { destruct (a_stats c) as [t|]; cbn [stats_wrap] in Ew; [|injection Ew as <-; done]. do 4 passed Ew. injection Ew as <-. done. }
  rewrite !fmap_is_Some, Hs. unfold check_stats in Est. unfold check_minSize in Ems. split_and!.
  - intros [m Hm]. rewrite Hm in Ems. passed Ems. apply orb_false_iff in H as [Hb Hst]. rewrite bool_decide_eq_false in Hb, Hst.
    split; [destruct (a_bgLabel c)|destruct (a_stats c)]; done.
  - intros [t Ht]. rewrite Ht in Est. passed Est. rewrite bool_decide_eq_false in H. by destruct (a_count c).
  - rewrite bool_decide_eq_true. intros Hr. destruct (a_stats c); [done|]. by rewrite bool_decide_eq_true_2 in Est.
  - intros t Ht. rewrite Ht in Est. passed Est. passed Est. passed Est. passed Est. destruct x0; [|done].
    destruct (Z.eqb_spec (td_rank t) 3) as [E3|]; [|done]. unfold tdata_shape, new_TensorShape in E. do 2 passed E.
    passed E. passed E. passed E. injection E as <-. cbn [m_shape] in E0.
    destruct (_ && _) in E1; [|done]. injection E1 as <-. passed E0. apply rd_Ok in E as [_ E].
    destruct (Z.eqb_spec x (i_w s)) as [->|]; [|done]. passed E0. apply rd_Ok in E1 as [_ E1]. injection E0 as E0%Z.eqb_eq.
    apply lookup_take_Some in E as [E _]. apply lookup_take_Some in E1 as [E1 _]. split_and!; [done|exact E|by rewrite <- E0].
Qed.

(** Everything an accepted call on images or volumes has passed. *)
Lemma call_passed c r : Label_call c = Ok r -> image_data (a_in c) -> image_data (a_out c) ->
  labels (layout (a_in c)) ∈ allowed_labels /\ labels (layout (a_out c)) = labels (layout (a_in c))
  /\ (forall l, extent_of (a_out c) l = extent_of (a_in c) l)
  /\ (l_numDim r = if 0 <=? index_of (layout (a_in c)) LABEL_DEPTH then 3 else 2)
  /\ l_shape r = Int4 (extent_of (a_in c) LABEL_WIDTH) (extent_of (a_in c) LABEL_HEIGHT) (extent_of (a_in c) LABEL_DEPTH) (extent_of (a_in c) LABEL_BATCH)
  /\ (l_sizeofSrc r = 1 \/ l_sizeofSrc r = 2 \/ l_sizeofSrc r = 4)
  /\ stride_of (a_in c) LABEL_WIDTH = l_sizeofSrc r /\ stride_of (a_out c) LABEL_WIDTH = 4
  /\ view (l_numDim r) (a_in c) (ids_of (a_in c)) (l_shape r) = Ok (srcWrap r)
  /\ view (l_numDim r) (a_out c) (ids_of (a_out c)) (l_shape r) = Ok (dstWrap r)
  /\ (is_Some (minSizeWrap r) -> is_Some (bgLabelWrap r) /\ is_Some (statsWrap r))
  /\ (is_Some (statsWrap r) -> is_Some (countWrap r)) /\ (l_relabel r = true -> is_Some (statsWrap r))
  /\ forall t, a_stats c = Some t -> td_rank t = 3 /\ shape t !! 0%nat = Some (i_w (l_shape r))
       /\ shape t !! 2%nat = Some (3 + 2 * l_numDim r).
Proof.
  intros E Hin Hout. unfold Label_call in E.
  apply bind_Ok in E as (s0 & E0 & E). apply bind_Ok in E as (s & Ed & E). do 5 (apply bind_Ok in E as (? & _ & E)).
  apply bind_Ok in E as ([] & Est & E). apply bind_Ok in E as ([] & Ems & E). apply bind_Ok in E as (? & _ & E).
  apply throw_if_Ok in E as [_ E]. destruct (in_out_passed c Hin Hout _ E0) as (HL & Hl & Hx & ->).
  destruct (depth_passed c Hin Hout _ _ Ed eq_refl) as [HD ->]. cbn [i_x i_y i_w] in *.
  unfold RunLabel in E. destruct (case_size (dtype (a_in c))) as [size|] eqn:Es; [|done].
  assert (0 <= index_of (layout (a_in c)) LABEL_WIDTH) as Hw.
  { unfold index_of. repeat (apply elem_of_cons in HL as [->|HL]; [by vm_compute|]). by apply not_elem_of_nil in HL. }
  destruct (launch_passed c Hin Hout size _ r E Hl Hw) as (W1 & W2 & V1 & V2 & -> & -> & -> & _).
  destruct (statistics_passed _ _ _ _ Est Ems E Hin Hout Hl Hw) as (S1 & S2 & S3 & S4).
  split_and!; try done. by apply case_size_is in Es.
Qed.
