(* ===== verification/LabelLaunch.v ===== *)
(** * From calls of Label to samples ([cvcuda/priv/OpLabel.cu])

    The launches of an accepted call, sample by sample: what the kernels are given
    for a sample, and that the hypotheses of the theorems on kernels hold for it. *)
From S2P Require Import Prelude LabelMachine LabelForest LabelKernel LabelConnect LabelVolume LabelVolumeProps LabelStats LabelImage LabelVolumeStats.
From S2P Require Import TensorLayout Strides TensorData Tensor Border TensorView TensorAccess LabelHost LabelCall.
From stdpp Require Import options.

#[local] Open Scope Z_scope.
#[local] Set Default Proof Using "Type*".

(** ** What the kernels are given

    [load] reads an element of the input type, [load_u32] one of [uint32_t] and
    [load_u8] one of [uint8_t] at an address. *)
Section Given.
Variables (load load_u32 load_u8 : Z -> Z) (r : LabelLaunch).

Definition wrap_stride (w : TensorWrap) (i : nat) : Z := default 0 (m_strides w !! i).
Definition arg_at (load : Z -> Z) (size : Z) (w : option Z) (n : Z) : option Z := (fun p => load (p + n * size)) <$> w.

Definition sample_at (n : Z) : Sample :=
  MkSample (i_x (l_shape r)) (i_y (l_shape r))
    (fun y x => load (m_data (srcWrap r) + (n * wrap_stride (srcWrap r) 0 + (y * wrap_stride (srcWrap r) 1 + x * l_sizeofSrc r))))
    (arg_at load (l_sizeofSrc r) (minThreshWrap r) n) (arg_at load (l_sizeofSrc r) (maxThreshWrap r) n)
    (wrap_stride (dstWrap r) 1).

Definition volume_at (n : Z) : Volume :=
  MkVolume (i_x (l_shape r)) (i_y (l_shape r)) (i_z (l_shape r))
    (fun z y x => load (m_data (srcWrap r) + (n * wrap_stride (srcWrap r) 0
       + (z * wrap_stride (srcWrap r) 1 + y * wrap_stride (srcWrap r) 2 + x * l_sizeofSrc r))))
    (arg_at load (l_sizeofSrc r) (minThreshWrap r) n) (arg_at load (l_sizeofSrc r) (maxThreshWrap r) n)
    (wrap_stride (dstWrap r) 1) (wrap_stride (dstWrap r) 2).

(** [maskN == 1 ? 0 : n] *)
Definition mask2D_at (n : Z) : option (Z -> Z -> Z) :=
  (fun '(w, maskN) y x => load_u8 (m_data w + ((if maskN =? 1 then 0 else n) * wrap_stride w 0 + (y * wrap_stride w 1 + x)))) <$> mskWrap r.
Definition mask3D_at (n : Z) : option (Z -> Z -> Z -> Z) :=
  (fun '(w, maskN) z y x => load_u8 (m_data w + ((if maskN =? 1 then 0 else n) * wrap_stride w 0
     + (z * wrap_stride w 1 + y * wrap_stride w 2 + x)))) <$> mskWrap r.

Definition image_job_at (n : Z) : Job :=
  job2D (sample_at n) (arg_at load (l_sizeofSrc r) (bgLabelWrap r) n) (arg_at load_u32 4 (minSizeWrap r) n) (mask2D_at n)
    (l_relabel r) (wrap_stride (dstWrap r) 0) (snd <$> statsWrap r).
Definition volume_job_at (n : Z) : Job :=
  job3D (volume_at n) (arg_at load (l_sizeofSrc r) (bgLabelWrap r) n) (arg_at load_u32 4 (minSizeWrap r) n) (mask3D_at n)
    (l_relabel r) (wrap_stride (dstWrap r) 0) (snd <$> statsWrap r).
End Given.

(** The address a view forms for some coordinates is that of the element with the
    coordinates [f] by label. *)
Definition addresses (w : TensorWrap) (kStrides coords : list Z) (td : NVCVTensorData) (f : Ascii.ascii -> Z) : Prop :=
  doGetPtr 32 kStrides w coords = Ok (basePtr (buffer td) + offset_at td f) /\ offset_at td f ∈ offs (dims td).

(** Images: the sample is fit for the kernels, every pixel is read from its element of
    the input, and its label is the element of the output with the same coordinates. *)
Definition image_served (load : Z -> Z) (c : LabelArgs) (r : LabelLaunch) (n : Z) : Prop :=
  let im := sample_at load r n in
  sample_ok im /\ sample_stride im (wrap_stride (dstWrap r) 0)
  /\ forall y x, in_image im (y, x) -> let f := coordinate n 0 0 y x in
     addresses (srcWrap r) [-1; -1; l_sizeofSrc r] [n; y; x] (a_in c) f
     /\ src im y x = load (basePtr (buffer (a_in c)) + offset_at (a_in c) f)
     /\ addresses (dstWrap r) [-1; -1; 4] [n; y; x] (a_out c) f
     /\ offset_at (a_out c) f = n * wrap_stride (dstWrap r) 0 + 4 * dst_at im y x.

Definition volume_served (load : Z -> Z) (c : LabelArgs) (r : LabelLaunch) (n : Z) : Prop :=
  let im := volume_at load r n in
  LabelVolumeProps.volume_ok im /\ vsample_stride im (wrap_stride (dstWrap r) 0)
  /\ forall z y x, in_volume im (Dim3 x y z) -> let f := coordinate n 0 z y x in
     addresses (srcWrap r) [-1; -1; -1; l_sizeofSrc r] [n; z; y; x] (a_in c) f
     /\ vsrc im z y x = load (basePtr (buffer (a_in c)) + offset_at (a_in c) f)
     /\ addresses (dstWrap r) [-1; -1; -1; 4] [n; z; y; x] (a_out c) f
     /\ offset_at (a_out c) f = n * wrap_stride (dstWrap r) 0 + 4 * vdst_at im z y x.

(** The index of a label is its offset in the sample, in elements. *)
Lemma label_index b : (4 | b) -> 0 <= b < 2 ^ 31 -> 4 * (i32 b / 4) = b.
Proof. intros [k ->] Hb. rewrite i32_small by lia. rewrite Z.div_mul by done. lia. Qed.

Section Call.
Variables (load : Z -> Z) (c : LabelArgs) (r : LabelLaunch).
Hypothesis HC : Label_call c = Ok r.
Hypothesis Hin : placed (l_sizeofSrc r) (a_in c).
Hypothesis Hout : placed 4 (a_out c).

Lemma images_served n : l_numDim r = 2 -> 0 <= n < i_w (l_shape r) -> image_served load c r n.
Proof.
  destruct (call_passed c r HC (pl_data _ _ Hin) (pl_data _ _ Hout)) as (HL & Hl & Hx & ED & Es & Hz & W1 & W2 & V1 & V2 & _).
  rewrite ED. destruct (Z.leb_spec 0 (index_of (layout (a_in c)) LABEL_DEPTH)) as [|HD]; [done|]. intros _. rewrite Es. cbn [i_w]. intros Hn.
  rewrite ED in V1, V2.
  assert (0 < l_sizeofSrc r) as Hpos by lia. pose proof HL as HL'. rewrite <- Hl in HL'.
  pose proof HD as HD'. rewrite <- (same_labels _ _ _ Hl) in HD'.
  apply view_images with (es := l_sizeofSrc r) in V1; [|done..|by rewrite Es].
  apply view_images with (es := 4) in V2; [|done..|by rewrite Es, Hx].
  destruct (placed_layout 4 (a_out c) Hout eq_refl HL' W2) as (_ & _ & _ & Hr & Hdiv & H2 & _). destruct (H2 HD') as [H3 H4]. clear H2.
  destruct (image_strides 4 (a_out c) Hout eq_refl HL' W2 HD') as [Sh Sn].
  pose proof (extent_1 4 (a_out c) Hout eq_refl HL' W2) as X1.
  pose proof (X1 LABEL_BATCH) as XN. pose proof (X1 LABEL_HEIGHT) as XH. pose proof (X1 LABEL_WIDTH) as XW.
  pose proof (factor_small _ _ _ XN (proj1 Sn) H4) as XB. rewrite !Hx in *.
  unfold image_served. rewrite V2. cbn [wrap_stride m_strides lookup list_lookup default]. split_and!.
  - split; cbn; rewrite ?Es, ?V2; cbn; done || lia.
  - split; cbn; rewrite ?Es, ?V2; cbn; lia.
  - intros y x [Hy Hxx]. cbn [sample_at size_x size_y fst snd] in Hy, Hxx. rewrite Es in Hy, Hxx. cbn [i_x i_y] in Hy, Hxx.
    destruct (image_address (l_sizeofSrc r) (a_in c) Hin Hpos HL W1 n y x Hz HD Hn Hy Hxx) as (A1 & A2 & A3).
    destruct (image_address 4 (a_out c) Hout eq_refl HL' W2 n y x ltac:(lia) HD') as (B1 & B2 & B3); [rewrite Hx; done..|].
    unfold addresses. rewrite V1. split_and!; [exact A1|exact A2| |exact B1|exact B2|].
    + cbn [src sample_at]. rewrite V1. cbn. by rewrite A3.
    + rewrite B3. f_equal. unfold dst_at. cbn [dst_strides1 sample_at]. rewrite V2. cbn. symmetry. apply label_index.
      * apply Z.divide_add_r; [by apply Z.divide_mul_r|by exists x].
      * destruct (below_product y _ _ Hy (proj1 Sh)). lia.
Qed.

Lemma volumes_served n : l_numDim r = 3 -> 0 <= n < i_w (l_shape r) -> volume_served load c r n.
Proof.
  destruct (call_passed c r HC (pl_data _ _ Hin) (pl_data _ _ Hout)) as (HL & Hl & Hx & ED & Es & Hz & W1 & W2 & V1 & V2 & _).
  rewrite ED. destruct (Z.leb_spec 0 (index_of (layout (a_in c)) LABEL_DEPTH)) as [HD|]; [|done]. intros _. rewrite Es. cbn [i_w]. intros Hn.
  rewrite ED in V1, V2. assert (0 < l_sizeofSrc r) as Hpos by lia. pose proof HL as HL'. rewrite <- Hl in HL'.
  pose proof HD as HD'. rewrite <- (same_labels _ _ _ Hl) in HD'.
  apply view_volumes with (es := l_sizeofSrc r) in V1; [|done..|by rewrite Es].
  apply view_volumes with (es := 4) in V2; [|done..|by rewrite Es, Hx].
  destruct (placed_layout 4 (a_out c) Hout eq_refl HL' W2) as (_ & _ & _ & Hr & Hdiv & _ & H2). destruct (H2 HD') as (H3 & Hdd & H4 & H5). clear H2.
  destruct (volume_strides 4 (a_out c) Hout eq_refl HL' W2 HD') as (Sh & Sd & Sn).
  pose proof (extent_1 4 (a_out c) Hout eq_refl HL' W2) as X1.
  pose proof (X1 LABEL_BATCH) as XN. pose proof (X1 LABEL_HEIGHT) as XH. pose proof (X1 LABEL_WIDTH) as XW. pose proof (X1 LABEL_DEPTH) as XD.
  pose proof (factor_small _ _ _ XN (proj1 Sn) H5) as XB. rewrite !Hx in *.
  unfold volume_served. rewrite V2. cbn [wrap_stride m_strides lookup list_lookup default]. split_and!.
  - split; cbn; rewrite ?Es, ?V2; cbn; done || lia.
  - split; cbn; rewrite ?Es, ?V2; cbn; lia.
  - intros z y x (Hxx & Hy & Hzz). cbn [volume_at shape_x shape_y shape_z d_x d_y d_z] in Hy, Hxx, Hzz.
    rewrite Es in Hy, Hxx, Hzz. cbn [i_x i_y i_z] in Hy, Hxx, Hzz.
    destruct (volume_address (l_sizeofSrc r) (a_in c) Hin Hpos HL W1 n z y x Hz HD Hn Hzz Hy Hxx) as (A1 & A2 & A3).
    destruct (volume_address 4 (a_out c) Hout eq_refl HL' W2 n z y x ltac:(lia) HD') as (B1 & B2 & B3); [rewrite Hx; done..|].
    unfold addresses. rewrite V1. split_and!; [exact A1|exact A2| |exact B1|exact B2|].
    + cbn [vsrc volume_at]. rewrite V1. cbn. by rewrite A3.
    + rewrite B3. f_equal. unfold vdst_at. cbn [vdst_strides1 vdst_strides2 volume_at]. rewrite V2. cbn. symmetry. apply label_index.
      * repeat apply Z.divide_add_r; [by apply Z.divide_mul_r|by apply Z.divide_mul_r|by exists x].
      * destruct (below_product y _ _ Hy (proj1 Sh)), (below_product z _ _ Hzz (proj1 Sd)). lia.
Qed.
End Call.

(** C9: a call that Label accepts passes its kernels consistent views. When the input and
    the output are well-formed and within the reach of an [int], every sample the
    kernels are launched on, image or volume by the layout of the tensors, has the
    strides and the extents the theorems on the kernels ask for; each element is read
    at, and its label written to, the element of the tensors with the coordinates the
    labels of the layout say, and the place of a label in its sample is the one the
    kernels compute. A least size comes with a background and statistics, statistics
    with a counter, sequential labels with statistics; statistics have one block per
    sample, of rows of 7 (images) or 9 columns (volumes). How many rows a block has is up to
    the caller. Two things that the theorems on the statistics ask for are not checked
    by a call: rows for all regions when islands are removed under sequential labels, and
    a background label below 2^31 ([more_regions_than_rows] and [negative_background_stuck]
    show kernels that leave the statistics then). *)
Theorem label_call_served (load : Z -> Z) (c : LabelArgs) (r : LabelLaunch) :
  Label_call c = Ok r -> placed (l_sizeofSrc r) (a_in c) -> placed 4 (a_out c) ->
  (l_numDim r = 2 \/ l_numDim r = 3)
  /\ (forall n, 0 <= n < i_w (l_shape r) ->
        if l_numDim r =? 2 then image_served load c r n else volume_served load c r n)
  /\ (is_Some (minSizeWrap r) -> is_Some (bgLabelWrap r) /\ is_Some (statsWrap r))
  /\ (is_Some (statsWrap r) -> is_Some (countWrap r)) /\ (l_relabel r = true -> is_Some (statsWrap r))
  /\ forall t, a_stats c = Some t -> td_rank t = 3 /\ shape t !! 0%nat = Some (i_w (l_shape r))
       /\ shape t !! 2%nat = Some (if l_numDim r =? 2 then 7 else 9).
Proof.
  intros HC Hin Hout. destruct (call_passed c r HC (pl_data _ _ Hin) (pl_data _ _ Hout))
    as (_ & _ & _ & ED & _ & _ & _ & _ & _ & _ & S1 & S2 & S3 & S4).
  assert (l_numDim r = 2 \/ l_numDim r = 3) as HD by (rewrite ED; destruct (0 <=? _); lia).
  split; [done|]. split; [|split; [done|split; [done|split; [done|]]]].
  - intros n Hn. destruct HD as [HD|HD]; rewrite HD; [by apply images_served|by apply volumes_served].
  - intros t Ht. destruct (S4 t Ht) as (T1 & T2 & T3). split_and!; [done|done|]. rewrite T3. by destruct HD as [-> | ->].
Qed.

Module Uses.

(** A packed tensor at an address. *)
Definition packed (dt es : Z) (l : string) (sh : list Z) (base : Z) : NVCVTensorData :=
  mkTensorData dt (NVCV_TENSOR_LAYOUT_MAKE l) (Z.of_nat (length sh)) sh NVCV_TENSOR_BUFFER_STRIDED_CUDA
    (mkTensorBuffer ((fun k => es * prod (drop (S k) sh)) <$> seq 0 (length sh)) base).

Definition per_sample_tensor (n base : Z) : NVCVTensorData := packed Predefined.NVCV_DATA_TYPE_S32 4 "N" [n] base.

(** Two images of 3 by 5 bytes, sequential labels, islands below a size removed. *)
Definition two_images : LabelArgs :=
  MkLabelArgs (packed Predefined.NVCV_DATA_TYPE_U8 1 "NHWC" [2; 3; 5; 1] 4096) (packed Predefined.NVCV_DATA_TYPE_S32 4 "NHWC" [2; 3; 5; 1] 8192)
    (Some (packed Predefined.NVCV_DATA_TYPE_U8 1 "N" [2] 1000)) None None (Some (per_sample_tensor 2 2000))
    (Some (per_sample_tensor 2 3000)) (Some (packed Predefined.NVCV_DATA_TYPE_S32 4 "NMA" [2; 8; 7] 12288)) None
    NVCV_CONNECTIVITY_4_2D NVCV_LABEL_SEQUENTIAL NVCV_REMOVE_ISLANDS_OUTSIDE_MASK_ONLY.

Example two_images_accepted :
  match Label_call two_images with Ok r => Some (srcWrap r, dstWrap r, statsWrap r, l_shape r) | _ => None end =
  Some (MkWrap 4096 [15; 5], MkWrap 8192 [60; 20], Some (MkWrap 12288 [224; 28], 8), Int4 5 3 1 2).
Proof. vm_compute. reflexivity. Qed.

Lemma images_placed dt es base : es = 1 \/ es = 4 -> placed es (packed dt es "NHWC" [2; 3; 5; 1] base).
Proof.
  intros He. assert (dims (packed dt es "NHWC" [2; 3; 5; 1] base) = [(2, es * 15); (3, es * 5); (5, es * 1); (1, es * 1)]) as Ed by reflexivity.
  split; [split| | |]; rewrite ?Ed.
  - reflexivity.
  - split; [vm_compute; repeat split; discriminate|reflexivity].
  - refine (bool_decide_unpack _ _). vm_compute. exact I.
  - cbn. lia.
  - repeat constructor; cbn; unfold in_s; lia.
  - cbn. lia.
  - repeat constructor; cbn; apply Z.divide_factor_l.
  - cbn. lia.
Defined.

Lemma label_call_served_witness : exists r, Label_call two_images = Ok r /\ l_numDim r = 2
  /\ forall load n, 0 <= n < 2 -> image_served load two_images r n.
Proof.
  destruct (Label_call two_images) as [r| |] eqn:E; [|vm_compute in E; discriminate..].
  exists r. split; [reflexivity|]. pose proof E as E'. vm_compute in E'. injection E' as E'.
  assert (l_numDim r = 2 /\ l_sizeofSrc r = 1 /\ i_w (l_shape r) = 2) as (HD & Hs & HN) by (by subst r).
  split; [exact HD|]. intros load n Hn.
  destruct (label_call_served load two_images r E) as (_ & H & _).
  - rewrite Hs. apply images_placed. by left.
  - apply images_placed. by right.
  - rewrite HD, HN in H. by apply H.
Defined.
End Uses.

(** ** Calls that are not checked *)

(** The product of the extents is one of [int]: it overflows before it is compared. *)
Lemma element_check_idle s : check_elems s <> Throw NVCV_ERROR_INVALID_ARGUMENT.
Proof.
  unfold check_elems, int32. destruct (bool_decide (in_s 32 (i_x s * i_y s))); [|done]. cbn [mbind outcome_bind].
  destruct (bool_decide (in_s 32 (i_x s * i_y s * i_z s))) eqn:E; [|done]. apply bool_decide_eq_true in E. cbn [mbind outcome_bind].
  unfold in_s in E. unfold int_max. by rewrite (proj2 (Z.ltb_ge _ _)) by lia.
Qed.

(** Samples and strides of 2^30 bytes each are accepted; the third sample is at an
    offset of 2^31, which the views compute in an [int]. *)
Definition large_batch (n : Z) : LabelArgs :=
  MkLabelArgs (Uses.packed Predefined.NVCV_DATA_TYPE_S32 4 "NHW" [n; 2 ^ 14; 2 ^ 14] 0)
    (Uses.packed Predefined.NVCV_DATA_TYPE_S32 4 "NHW" [n; 2 ^ 14; 2 ^ 14] 0)
    None None None None None None None NVCV_CONNECTIVITY_4_2D NVCV_LABEL_FAST NVCV_REMOVE_ISLANDS_OUTSIDE_MASK_ONLY.

Example batch_offset_overflows :
  match Label_call (large_batch 3) with
  | Ok r => Some (dstWrap r, doGetPtr 32 [-1; -1; 4] (dstWrap r) [2; 0; 0])
  | _ => None
  end = Some (MkWrap 0 [2 ^ 30; 2 ^ 16], Stuck).
Proof. vm_compute. reflexivity. Qed.

(** A tensor of one value per sample and channel has its samples as far apart as its
    rows are padded to; the kernels take its values for consecutive ones. The value
    they read for the second sample is not the element of the second sample. *)
Definition padded_param : outcome NVCVTensorData :=
  reqs ← CalcRequirements device0 undef0 2 [2; 1] Tensor.U8 (NVCV_TENSOR_LAYOUT_MAKE "NC") 0 0; Ok (Tensor.exportData (mkTensor reqs 1000)).

Example padded_param_misread load : exists p, padded_param = Ok p
  /\ check_param 2 (fun _ => true) (Some p) = Ok tt
  /\ arg_wrap (Some p) = Ok (Some 1000)
  /\ arg_at load 1 (Some 1000) 1 = Some (load 1001)
  /\ offs (dims p) = [0; 32].
Proof. eexists. split; [vm_compute; reflexivity|]. vm_compute. split_and!; reflexivity. Qed.
